(* ===== verification/_CoqProject ===== *)
-Q . S2P
Prelude.v
Bytes.v
Limbs.v
UtcpBuffer.v
UtcpTypes.v
UtcpTimer.v
UtcpTable.v
UtcpSend.v
UtcpInput.v
UtcpRecv.v
UtcpApi.v
UtcpInv.v
UtcpWorld.v
UtcpCalls.v
UtcpRecvSafe.v
UtcpSim.v
UtcpStream.v
UtcpTheorems.v
UtcpDefects.v
Heap.v
LinkedList.v
SplayTree.v
SplayShape.v
SplayUp.v
SplayDown.v
SplayOps.v
SplaySpec.v
Aead.v
ChaCha.v
Poly1305.v
ChaChaPoly.v
Sha512.v
Prf.v
Ed25519.v
Sptps.v
SptpsReplay.v
SptpsRun.v
SptpsHs.v
SptpsSafe.v
SptpsLink.v
SptpsTheorems.v
SptpsDatagram.v
SptpsDefects.v
Packmsg.v
PackmsgEncode.v
PackmsgDecode.v
PackmsgSafe.v
PackmsgSkip.v
PackmsgTheorems.v
HashTable.v
Utils.v
MetaBuffer.v
Graph.v
GraphBfs.v
GraphSim.v
GraphReach.v
GraphTheorems.v
GraphEdges.v
Mdns.v
MdnsTheorems.v
Event.v
EventTheorems.v
EventIo.v
Fe.v
FeArith.v
Sc.v
Prime25519.v
Edwards.v
Ge.v
GePrecomp.v
GeArith.v
GeTables.v
GeMult.v
Ed25519Code.v
EdSign.v
EdLadder.v
Ed25519Inst.v
FeTheorems.v
GeTheorems.v
Ed25519Theorems.v
