(* ===== verification/Prelude.v ===== *)
(** * A verification of MeshLink

    MeshLink (src/) is a C library by which programs form a mesh of nodes that
    send each other messages and open channels.  This development models its
    self-contained parts as executable definitions and proves what makes each of
    them correct.  The parts, from the wire up:

    - the authenticated cipher, the hash, the pseudo-random function, the curve
      arithmetic with its signatures and key exchange, and the key objects
      (src/src/chacha-poly1305, src/src/ed25519, src/src/prf.c);
    - SPTPS (src/src/sptps.c), which runs a handshake between two nodes over them
      and then carries records, over a stream or over datagrams;
    - UTCP (src/src/utcp.c), which runs channels (streams with acknowledgement,
      retransmission and congestion control) over the datagrams of a node;
    - the containers the rest of the library keeps its state in: the doubly linked
      list, the splay tree;
    - the MessagePack encoder and decoder (src/src/packmsg.h) in which configuration
      files and invitations are written;
    - the graph of nodes and edges (src/src/graph.c, edge.c, node.c), which decides
      who can be reached and how, with the hash table, the coding, the buffers, the
      discovery packets and the event loop around it.

    ** The files

    Prelude.v (this file): machine integers with their wrap-around, the type
    [outcome] of a computation that returns or stops ([assert], out of bounds, use
    after free, [abort], out of fuel), checked memory, answers of the allocator,
    lists by index, and the tactics.  Bytes.v: words as bytes, masks and shifts.

    UTCP.  UtcpBuffer.v is the ring buffer ([struct buffer]); UtcpTypes.v the
    structs of utcp_priv.h and the environment (clock, [rand], allocator, [errno],
    the packets sent, the application's callbacks); UtcpTimer.v round-trip
    estimation and the retransmission timer; UtcpTable.v the connection table;
    UtcpSend.v, UtcpInput.v, UtcpRecv.v and UtcpApi.v the functions of utcp.c, one
    definition each, long bodies cut into the stages the source numbers.  UtcpInv.v
    and UtcpWorld.v hold the invariant of a connection and of an instance,
    UtcpCalls.v and UtcpRecvSafe.v that the public functions and packet processing
    keep it; UtcpSim.v is a concrete environment with two endpoints; UtcpStream.v
    relates a connection to the stream it receives; UtcpTheorems.v has the theorems
    about the whole, UtcpDefects.v what the code does and does not mean to do.

    Containers.  Heap.v models nodes in memory with checked access, one map per
    field; LinkedList.v is list.c; SplayTree.v is splay_tree.c, with the shapes of
    pointer trees in SplayShape.v, the two splay procedures in SplayUp.v and
    SplayDown.v, insertion and removal in SplayOps.v, and the ordered list that the
    tree refines in SplaySpec.v.

    Cryptography.  Aead.v is the interface of the authenticated cipher, as a class;
    ChaCha.v, Poly1305.v and ChaChaPoly.v implement it as the C code does and
    discharge its laws; Sha512.v and Prf.v are the hash and the key expansion;
    Ed25519.v the key objects over an interface for signatures and key exchange.

    The curve.  Limbs.v has signed arithmetic that stops at an overflow, carries and an
    interval analysis that bounds them; Fe.v is fe.c, Sc.v is sc.c, Ge.v is ge.c,
    GePrecomp.v the tables of precomp_data.h, and Ed25519Code.v keypair.c, sign.c, verify.c,
    key_exchange.c and add_scalar.c.  The mathematics they are compared with:
    Prime25519.v proves that [2 ^ 255 - 19] is prime (a certificate of Pratt, checked by
    evaluation), Edwards.v that the addition law of the curve is complete and
    associative, with the group and its multiples.  FeArith.v and Sc.v give the values and
    bounds of the limb code; GeArith.v, GeTables.v and GeMult.v those of points and their
    encodings, of the tables and of the scalar multiplications;
    EdSign.v is signing, verifying and deriving keys, EdLadder.v the Montgomery ladder.
    FeTheorems.v, GeTheorems.v and Ed25519Theorems.v hold the results, and Ed25519Inst.v
    discharges the interface of Ed25519.v with this code.

    SPTPS.  Sptps.v is sptps.c, in a monad of its own: the session, the records it
    sends and delivers, errno, and answers from outside.  SptpsReplay.v is the
    replay window, SptpsRun.v what each operation does exactly, SptpsHs.v and
    SptpsSafe.v the invariant of a session, SptpsLink.v two sessions that face each
    other, SptpsTheorems.v and SptpsDatagram.v the theorems for streams and for
    datagrams, SptpsDefects.v two overflows.  The theorems about SPTPS are proved
    against the classes of Aead.v and Ed25519.v; ChaChaPoly.v provides the first,
    Ed25519Inst.v the second.

    MessagePack.  Packmsg.v is packmsg.h; PackmsgEncode.v and PackmsgDecode.v what
    is written and that it is read back; PackmsgSafe.v input of any origin;
    PackmsgSkip.v skipping nested objects; PackmsgTheorems.v the theorems.

    The network.  HashTable.v is hash.c, Utils.v the hexadecimal and base64 coding of
    utils.c, MetaBuffer.v is buffer.c.  Graph.v is graph.c, edge.c and node.c with
    the comparison of addresses of netutl.c: nodes and edges are objects in memory,
    the splay trees that hold them are the ordered lists of SplaySpec.v, and the
    calls of UTCP, SPTPS, timers and callbacks are a log.  GraphBfs.v has the
    breadth-first search on marks and its invariant, GraphSim.v shows that the code
    follows it, GraphReach.v is the check of every node afterwards, GraphTheorems.v
    the results and GraphEdges.v the trees of edges.  Mdns.v and MdnsTheorems.v are
    the packets of mdns.c; Event.v the timers and descriptors of event.c, with the
    theorems in EventTheorems.v and EventIo.v.

    ** What is shown

    Safety: from an initial state every sequence of events (packets of any content,
    timeouts, calls, input cut anywhere) runs without a failed [assert], an access
    outside an object or to freed memory, or a loop that does not end, for UTCP, the
    containers, SPTPS streams and the MessagePack decoder.  For UTCP and SPTPS this
    assumes that no allocation fails and that the application's callbacks behave: each
    theorem names its assumptions, and where the code is wrong without them another theorem
    or a comment says so.  Functional correctness:
    UTCP hands the application a prefix of the stream that was sent, and moves each
    connection along the edges of its state machine; two SPTPS sessions agree on
    their keys and deliver exactly the records that were sent, once; the cipher, the
    authenticator, the hash and the key expansion equal their reference definitions;
    the field, scalar and point code computes in the field, the integers modulo the order and
    the group, within the bounds its comments give or wider ones that do not overflow; signatures
    are those of RFC 8032, verification accepts exactly its equation, both sides of a
    key exchange get the same secret, and derived keys belong together;
    what MessagePack encodes is decoded.  Refinement: the ring buffer is a bounded
    queue, the list a list, the splay tree an ordered list, the replay bitmap a
    window, the hash table a direct-mapped cache, the meta-connection buffer a queue.
    The graph: the search marks the nodes that can be reached with shortest paths,
    the status of every node follows it, and edges stay linked to their other side.
    Discovery packets are parsed as they were written and never read beyond their
    end; timers run in order and none that has expired is left.
    Theorems named in the files *Defects.v, and those on failed reallocation,
    resizing, padding, wrap-around, overflow, dangling edges, derived keys and type tests, show
    behaviour that differs from what the code or its comments mean.

    ** Bounds and fuel

    Integers are [Z], reduced at their C width wherever C stores them; in the curve
    code and in utils.c a signed result that does not fit is a stop, [SignedOverflow].
    Of the counters that only count up by one per event ([dupack]) or double with a
    table that memory bounds ([u_nallocated]) the width is not modelled, nor is
    the depth of the C stack in the recursion of packmsg_skip_object.  The theorems on the
    trees of edges bound the weights by [2 ^ 30], the code does not.  Recursion
    that follows a C loop has fuel, and running out of it is the result
    [Stop OutOfFuel]; every theorem that says that a call returns excludes it.  The
    fuel given by the definitions is what a loop can use: the number of connections
    plus one for the port search, the length of the input for parsing loops, the
    number of nodes for the walks of the containers, twice the bytes that are left
    plus four for nested MessagePack objects, one more than the number of edges for
    the breadth-first search, whose list takes a node once per edge at most.

    ** What is not modelled

    Debugging and logging output, the random device (seed.c, crypto.c), the time that
    the curve code takes, which is meant not to depend on secrets, and the parts that are mostly calls of the
    operating system or of threads: the wait, the signals and the dispatch of
    descriptors in event.c, net*.c, discovery.c, adns.c, conf.c, meshlink.c and the
    C++ interface.  The meta protocol (protocol*.c, meta.c,
    connection.c, route.c) is not modelled either.  The application's callbacks, the
    clock, the allocator and the peer's packets are arbitrary within the stated
    interfaces. *)
From stdpp Require Export base list list_numbers sets.
From Stdlib Require Export ZArith Lia.
#[global] Open Scope Z_scope.

(** ** Machine integers

    A C integer of width [w] is a [Z]; every conversion or arithmetic result
    that C stores at a width is passed through the wrap function of that width.
    [s32] is the two's complement reading used for [int32_t]. *)

Definition u8 (x : Z) : Z := x mod 2 ^ 8.
Definition u16 (x : Z) : Z := x mod 2 ^ 16.
Definition u32 (x : Z) : Z := x mod 2 ^ 32.
Definition u64 (x : Z) : Z := x mod 2 ^ 64.
Definition s32 (x : Z) : Z := (x + 2 ^ 31) mod 2 ^ 32 - 2 ^ 31.
Definition s64 (x : Z) : Z := (x + 2 ^ 63) mod 2 ^ 64 - 2 ^ 63.

(** [bitset x m] is C's [x & m] used as a truth value. *)
Definition bitset (x m : Z) : bool := negb (Z.land x m =? 0).

Lemma u32_range x : 0 <= u32 x < 2 ^ 32.
Proof. apply Z.mod_pos_bound. lia. Qed.

Lemma u16_range x : 0 <= u16 x < 2 ^ 16.
Proof. apply Z.mod_pos_bound. lia. Qed.

Lemma u32_small x : 0 <= x < 2 ^ 32 -> u32 x = x.
Proof. apply Z.mod_small. Qed.

Lemma u64_small x : 0 <= x < 2 ^ 64 -> u64 x = x.
Proof. apply Z.mod_small. Qed.

Lemma u16_small x : 0 <= x < 2 ^ 16 -> u16 x = x.
Proof. apply Z.mod_small. Qed.

Lemma s32_range x : - 2 ^ 31 <= s32 x < 2 ^ 31.
Proof. unfold s32. pose proof (Z.mod_pos_bound (x + 2 ^ 31) (2 ^ 32)). lia. Qed.

Lemma s32_small x : - 2 ^ 31 <= x < 2 ^ 31 -> s32 x = x.
Proof. intros H. unfold s32. rewrite Z.mod_small; lia. Qed.

(** Wrapping is idempotent and absorbs inner wraps. *)
Lemma u32_u32 x : u32 (u32 x) = u32 x.
Proof. apply u32_small, u32_range. Qed.

Lemma u32_add_l x y : u32 (u32 x + y) = u32 (x + y).
Proof. unfold u32. apply Zplus_mod_idemp_l. Qed.

Lemma u32_add_r x y : u32 (x + u32 y) = u32 (x + y).
Proof. unfold u32. apply Zplus_mod_idemp_r. Qed.

Lemma u32_sub_l x y : u32 (u32 x - y) = u32 (x - y).
Proof. unfold u32. apply Zminus_mod_idemp_l. Qed.

Lemma u32_sub_r x y : u32 (x - u32 y) = u32 (x - y).
Proof. unfold u32. apply Zminus_mod_idemp_r. Qed.

Lemma s32_u32 x : s32 (u32 x) = s32 x.
Proof. unfold s32, u32. by rewrite Zplus_mod_idemp_l. Qed.

Lemma u32_s32 x : u32 (s32 x) = u32 x.
Proof.
  unfold s32, u32. rewrite Zminus_mod_idemp_l. f_equal. lia.
Qed.

(** Lifting a wrap: the wrapped value is the only representative in range. *)
Lemma u32_unique x y k : 0 <= y < 2 ^ 32 -> x = y + k * 2 ^ 32 -> u32 x = y.
Proof. intros Hy ->. unfold u32. rewrite Z_mod_plus_full. by apply Z.mod_small. Qed.

Lemma s32_unique x y k : - 2 ^ 31 <= y < 2 ^ 31 -> x = y + k * 2 ^ 32 -> s32 x = y.
Proof.
  intros Hy ->. unfold s32.
  replace (y + k * 2 ^ 32 + 2 ^ 31) with (y + 2 ^ 31 + k * 2 ^ 32) by lia.
  rewrite Z_mod_plus_full, Z.mod_small; lia.
Qed.

(** ** Outcomes

    A C function either returns or stops the process: a failed [assert], a call
    of [abort], an access outside an object, a division by zero, a pointer to a
    freed object, an object that was never written, a signed result that its type
    cannot hold.  [OutOfFuel] is the model's own: a loop that was given fewer steps
    than it needs. *)

Inductive stop : Set :=
  | OutOfBounds | AssertFailed | AbortCalled | DivByZero | UseAfterFree | Uninitialised | SignedOverflow | OutOfFuel.

Inductive outcome (A : Type) : Type :=
  | Done (a : A)
  | Stop (r : stop).
Arguments Done {A} _.
Arguments Stop {A} _.

Definition obind {A B} (m : outcome A) (k : A -> outcome B) : outcome B :=
  match m with Done a => k a | Stop r => Stop r end.

Declare Scope c_scope.
Delimit Scope c_scope with c.
Notation "'let*' x ':=' m 'in' k" := (obind m (fun x => k))
  (at level 10, x pattern, m at level 100, k at level 200,
   format "'[v' 'let*'  x  ':='  m  'in' '/' k ']'") : c_scope.
(** [m |> f] chains the assignments of a block in source order. *)
Notation "x |> f" := (f x) (at level 51, left associativity, only parsing) : c_scope.
#[global] Open Scope c_scope.

Definition assert_ (b : bool) : outcome unit :=
  if b then Done tt else Stop AssertFailed.

(** [returns m P]: [m] returns, and its result satisfies [P]. *)
Definition returns {A} (m : outcome A) (P : A -> Prop) : Prop :=
  match m with Done a => P a | Stop _ => False end.

Lemma returns_bind {A B} (m : outcome A) (k : A -> outcome B) P Q :
  returns m P -> (forall a, P a -> returns (k a) Q) -> returns (obind m k) Q.
Proof. destruct m; simpl; [eauto | tauto]. Qed.

Lemma returns_mono {A} (m : outcome A) (P Q : A -> Prop) :
  returns m P -> (forall a, P a -> Q a) -> returns m Q.
Proof. destruct m; simpl; eauto. Qed.

Lemma returns_done {A} (m : outcome A) P : returns m P <-> exists a, m = Done a /\ P a.
Proof. destruct m as [a|r]; simpl; [|naive_solver]. split; [by eauto|]. by intros (? & [= ->] & ?). Qed.

(** ** Memory

    An object is the list of its bytes.  [memcpy], [memmove] and reads through a
    pointer are checked: an access that leaves the object stops. *)

Definition zlen {A} (l : list A) : Z := Z.of_nat (length l).

Definition mem_read (m : list Z) (off n : Z) : outcome (list Z) :=
  if (0 <=? off) && (0 <=? n) && (off + n <=? zlen m)
  then Done (take (Z.to_nat n) (drop (Z.to_nat off) m)) else Stop OutOfBounds.

Definition mem_write (m : list Z) (off : Z) (bytes : list Z) : outcome (list Z) :=
  if (0 <=? off) && (off + zlen bytes <=? zlen m)
  then Done (take (Z.to_nat off) m ++ bytes ++ drop (Z.to_nat off + length bytes) m)
  else Stop OutOfBounds.

(** What the allocator answers to one request: whether it succeeds and what
    the new bytes hold. *)
Record alloc := Alloc { a_ok : bool; a_junk : Z -> Z }.

Definition mem_fresh (al : alloc) (lo n : Z) : list Z := a_junk al <$> seqZ lo n.

(** [realloc] keeps the common prefix; the rest of the object is fresh. *)
Definition mem_realloc (al : alloc) (m : list Z) (n : Z) : list Z :=
  take (Z.to_nat n) m ++ mem_fresh al (zlen m) (n - zlen m).

Lemma zlen_nonneg {A} (l : list A) : 0 <= zlen l.
Proof. unfold zlen. lia. Qed.

Lemma zlen_app {A} (l k : list A) : zlen (l ++ k) = zlen l + zlen k.
Proof. unfold zlen. rewrite length_app. lia. Qed.

Lemma zlen_take {A} (l : list A) n : zlen (take n l) = Z.min (Z.of_nat n) (zlen l).
Proof. unfold zlen. rewrite length_take. lia. Qed.

Lemma zlen_drop {A} (l : list A) n : zlen (drop n l) = Z.max 0 (zlen l - Z.of_nat n).
Proof. unfold zlen. rewrite length_drop. lia. Qed.

Lemma zlen_fresh al lo n : zlen (mem_fresh al lo n) = Z.max 0 n.
Proof. unfold zlen, mem_fresh. rewrite length_fmap, length_seqZ. lia. Qed.

Lemma mem_read_ok m off n :
  0 <= off -> 0 <= n -> off + n <= zlen m ->
  mem_read m off n = Done (take (Z.to_nat n) (drop (Z.to_nat off) m)).
Proof.
  intros. unfold mem_read.
  by rewrite (proj2 (Z.leb_le 0 off)), (proj2 (Z.leb_le 0 n)), (proj2 (Z.leb_le _ (zlen m))).
Qed.

Lemma mem_write_ok m off bs :
  0 <= off -> off + zlen bs <= zlen m ->
  mem_write m off bs =
  Done (take (Z.to_nat off) m ++ bs ++ drop (Z.to_nat off + length bs) m).
Proof.
  intros. unfold mem_write.
  by rewrite (proj2 (Z.leb_le 0 off)), (proj2 (Z.leb_le _ (zlen m))).
Qed.

Create Rewrite HintDb zlen.
#[export] Hint Rewrite @zlen_app @zlen_take @zlen_drop zlen_fresh : zlen.

(** ** Automation

    [ztests] turns the boolean comparisons of the context and goal into
    arithmetic facts; [zcase] does a case split on the next test of the goal;
    [zlist] is [lia] on list lengths. *)

Ltac ztests :=
  repeat match goal with
  | H : _ && _ = true |- _ => apply andb_true_iff in H as [? ?]
  | H : _ || _ = false |- _ => apply orb_false_iff in H as [? ?]
  | H : negb _ = true |- _ => apply negb_true_iff in H
  | H : negb _ = false |- _ => apply negb_false_iff in H
  | H : (_ <? _) = true |- _ => apply Z.ltb_lt in H
  | H : (_ <? _) = false |- _ => apply Z.ltb_ge in H
  | H : (_ <=? _) = true |- _ => apply Z.leb_le in H
  | H : (_ <=? _) = false |- _ => apply Z.leb_gt in H
  | H : (_ =? _) = true |- _ => apply Z.eqb_eq in H
  | H : (_ =? _) = false |- _ => apply Z.eqb_neq in H
  | H : (_ >? _) = true |- _ => rewrite Z.gtb_ltb in H
  | H : (_ >? _) = false |- _ => rewrite Z.gtb_ltb in H
  | H : (_ >=? _) = true |- _ => rewrite Z.geb_leb in H
  | H : (_ >=? _) = false |- _ => rewrite Z.geb_leb in H
  end.

Ltac zcase :=
  match goal with
  | |- context [if ?b then _ else _] =>
      lazymatch b with
      | context [if _ then _ else _] => fail
      | _ => let E := fresh "E" in destruct b eqn:E; ztests
      end
  end.

(** Split conjunctions, and nothing else. *)
Ltac splits := repeat match goal with |- _ /\ _ => split end.

Ltac zlist := autorewrite with zlen in *; unfold zlen in *; lia.

(** ** Lists by index *)

Lemma list_eq_lookup {A} (l k : list A) :
  length l = length k ->
  (forall i, (i < length l)%nat -> l !! i = k !! i) -> l = k.
Proof.
  intros Hl H. apply list_eq_same_length with (n := length l); try done.
  intros i x y Hi Hx Hy. rewrite H in Hx by done. congruence.
Qed.

Lemma take_app_exact {A} (l k : list A) n : n = length l -> take n (l ++ k) = l.
Proof. intros ->. by rewrite take_app_length. Qed.

Lemma drop_app_exact {A} (l k : list A) n : n = length l -> drop n (l ++ k) = k.
Proof. intros ->. by rewrite drop_app_length. Qed.

(** [list_write o bs m]: [m] with [bs] stored at [o]. *)
Definition list_write {A} (o : nat) (bs m : list A) : list A :=
  take o m ++ bs ++ drop (o + length bs) m.

Lemma length_list_write {A} o (bs m : list A) :
  (o + length bs <= length m)%nat -> length (list_write o bs m) = length m.
Proof. intros H. unfold list_write. rewrite !length_app, length_take, length_drop. lia. Qed.

Lemma lookup_list_write {A} o (bs m : list A) j :
  (o + length bs <= length m)%nat ->
  list_write o bs m !! j =
  (if decide (o <= j < o + length bs)%nat then bs !! (j - o)%nat else m !! j).
Proof.
  intros H. unfold list_write. case_decide as Hj.
  - rewrite lookup_app_r, length_take by (rewrite length_take; lia).
    rewrite lookup_app_l by lia. f_equal. lia.
  - destruct (decide (j < o)%nat).
    + rewrite lookup_app_l by (rewrite length_take; lia). by rewrite lookup_take_lt.
    + rewrite lookup_app_r by (rewrite length_take; lia).
      rewrite length_take, lookup_app_r, lookup_drop by lia. f_equal. lia.
Qed.

(** A window into a list: [slice off n l] are its elements [off, off+n). *)
Definition slice {A} (off n : nat) (l : list A) : list A := take n (drop off l).

Lemma lookup_slice {A} off n (l : list A) i :
  slice off n l !! i = if decide (i < n)%nat then l !! (off + i)%nat else None.
Proof.
  unfold slice. rewrite lookup_take. case_decide; [|done]. by rewrite lookup_drop.
Qed.

Lemma length_slice {A} off n (l : list A) :
  length (slice off n l) = Nat.min n (length l - off).
Proof. unfold slice. by rewrite length_take, length_drop. Qed.

(** A store that fits, by its effect on every cell. *)
Lemma mem_write_spec m o bs :
  0 <= o -> o + zlen bs <= zlen m ->
  exists m', mem_write m o bs = Done m' /\ length m' = length m /\
    forall j, m' !! j = (if decide (Z.to_nat o <= j < Z.to_nat o + length bs)%nat
                         then bs !! (j - Z.to_nat o)%nat else m !! j).
Proof.
  intros H0 H1. rewrite mem_write_ok by done. unfold zlen in *.
  exists (list_write (Z.to_nat o) bs m). split; [done|]. split.
  - apply length_list_write. lia.
  - intros j. apply lookup_list_write. lia.
Qed.

(** Case analysis on the index tests of a lookup goal. *)
Ltac index_cases :=
  repeat case_decide;
  rewrite ?lookup_take_lt, ?lookup_drop by lia;
  try lia; try done; try (f_equal; lia).

Lemma filter_all {A} (P : A -> Prop) `{!forall x, Decision (P x)} l : Forall P l -> filter P l = l.
Proof. induction 1; [done|]. by rewrite filter_cons_True, IHForall. Qed.

Lemma filter_none {A} (P : A -> Prop) `{!forall x, Decision (P x)} l :
  Forall (fun x => ~ P x) l -> filter P l = [].
Proof. induction 1; [done|]. by rewrite filter_cons_False. Qed.
