(* ===== verification/Bytes.v ===== *)
(** Bytes and words.

    Byte strings as the sources read and write them: the little and big endian
    encodings of a word, the value of a byte string, and the arithmetic meaning
    of the masks, shifts and ors from which C code assembles words. *)
From S2P Require Import Prelude.

Definition bytes_ok (l : list Z) : Prop := Forall (fun b => 0 <= b < 256) l.

(** ** Little endian *)

(** The [n] bytes of a member, least significant first, and back. *)
Fixpoint le_bytes (n : nat) (x : Z) : list Z :=
  match n with O => [] | S n => x mod 256 :: le_bytes n (x / 256) end.

Fixpoint le_val (l : list Z) : Z :=
  match l with [] => 0 | b :: l => b + 256 * le_val l end.

Lemma le_val_bytes n : forall x, 0 <= x < 256 ^ Z.of_nat n -> le_val (le_bytes n x) = x.
Proof.
  induction n as [|n IH]; intros x Hx; cbn [le_bytes le_val]; [simpl in Hx; lia|].
  rewrite Nat2Z.inj_succ, Z.pow_succ_r in Hx by lia.
  rewrite IH; [pose proof (Z.div_mod x 256); lia|].
  split; [apply Z.div_pos; lia|apply Z.div_lt_upper_bound; lia].
Qed.

Lemma length_le_bytes n : forall x, length (le_bytes n x) = n.
Proof. induction n as [|n IH]; intros x; simpl; [done|by rewrite IH]. Qed.

Lemma le_bytes_ok n : forall x, bytes_ok (le_bytes n x).
Proof.
  induction n as [|n IH]; intros x; simpl; constructor; [|apply IH].
  apply Z.mod_pos_bound. lia.
Qed.

Lemma le_val_range l : bytes_ok l -> 0 <= le_val l < 256 ^ zlen l.
Proof.
  induction 1 as [|b l Hb _ IH]; simpl; [done|].
  unfold zlen in *. simpl length. rewrite Nat2Z.inj_succ, Z.pow_succ_r by lia. lia.
Qed.

Lemma le_val_slice o n l : bytes_ok l -> 0 <= le_val (slice o n l) < 256 ^ Z.of_nat n.
Proof.
  intros Hl. assert (Hs : bytes_ok (slice o n l)) by (by apply Forall_take, Forall_drop).
  pose proof (le_val_range _ Hs) as Hr. split; [lia|]. eapply Z.lt_le_trans; [apply Hr|].
  apply Z.pow_le_mono_r; [lia|]. unfold zlen. rewrite length_slice. lia.
Qed.

Lemma le_val_app l k : le_val (l ++ k) = le_val l + 256 ^ zlen l * le_val k.
Proof.
  induction l as [|b l IH]; cbn [app le_val]; [change (256 ^ zlen []) with 1; lia|].
  rewrite IH. unfold zlen. simpl length.
  rewrite Nat2Z.inj_succ, Z.pow_succ_r by lia. ring.
Qed.

Lemma le_bytes_val l : bytes_ok l -> le_bytes (length l) (le_val l) = l.
Proof.
  induction 1 as [|b l Hb Hl IH]; simpl; [done|].
  rewrite (Z.mul_comm 256), Z_mod_plus_full, Z.mod_small by lia.
  rewrite Z_div_plus_full, Z.div_small, Z.add_0_l by lia. by rewrite IH.
Qed.

Lemma le_val_inj l k : bytes_ok l -> bytes_ok k -> length l = length k -> le_val l = le_val k -> l = k.
Proof.
  intros Hl Hk Hn Hv. rewrite <- (le_bytes_val l), <- (le_bytes_val k) by done. by rewrite Hn, Hv.
Qed.

Lemma le_val_zeros n : le_val (replicate n 0) = 0.
Proof. induction n as [|n IH]; simpl; [done|]. by rewrite IH. Qed.

(** Encoding wraps: only the low bytes of a word are stored. *)
Lemma le_bytes_mod n : forall x, le_val (le_bytes n x) = x mod 256 ^ Z.of_nat n.
Proof.
  induction n as [|n IH]; intros x; [by rewrite Z.mod_1_r|]. cbn [le_bytes le_val].
  rewrite IH, Nat2Z.inj_succ, Z.pow_succ_r by lia.
  rewrite Z.rem_mul_r by lia. lia.
Qed.

(** ** Big endian *)

Definition be_bytes (n : nat) (x : Z) : list Z := rev (le_bytes n x).
Definition be_val (l : list Z) : Z := le_val (rev l).

Lemma length_be_bytes n x : length (be_bytes n x) = n.
Proof. unfold be_bytes. by rewrite length_rev, length_le_bytes. Qed.

Lemma be_bytes_ok n x : bytes_ok (be_bytes n x).
Proof. apply Forall_rev, le_bytes_ok. Qed.

Lemma be_val_bytes n x : 0 <= x < 256 ^ Z.of_nat n -> be_val (be_bytes n x) = x.
Proof. intros. unfold be_val, be_bytes. by rewrite rev_involutive, le_val_bytes. Qed.

Lemma be_bytes_val l : bytes_ok l -> be_bytes (length l) (be_val l) = l.
Proof.
  intros Hl. unfold be_val, be_bytes. rewrite <- (length_rev l), le_bytes_val by (by apply Forall_rev).
  apply rev_involutive.
Qed.

Lemma be_val_range l : bytes_ok l -> 0 <= be_val l < 256 ^ zlen l.
Proof.
  intros Hl. unfold be_val, zlen. rewrite <- (length_rev l). apply le_val_range. by apply Forall_rev.
Qed.

(** ** Masks, shifts and ors *)

Lemma shiftr_div x n : 0 <= n -> Z.shiftr x n = x / 2 ^ n.
Proof. apply Z.shiftr_div_pow2. Qed.

Lemma land_mask x n m : 0 <= n -> m = 2 ^ n - 1 -> Z.land x m = x mod 2 ^ n.
Proof. intros Hn ->. rewrite <- Z.land_ones by done. f_equal. rewrite Z.ones_equiv. lia. Qed.

(** An or of words that share no bit is their sum. *)
Lemma lor_add x y n : 0 <= n -> 0 <= x < 2 ^ n -> Z.lor x (y * 2 ^ n) = x + y * 2 ^ n.
Proof.
  intros Hn Hx. assert (Hl : Z.land x (y * 2 ^ n) = 0).
  { apply Z.bits_inj'. intros i Hi. rewrite Z.land_spec, Z.bits_0.
    rewrite <- Z.shiftl_mul_pow2, Z.shiftl_spec by lia.
    destruct (decide (i < n)).
    - by rewrite (Z.testbit_neg_r y), andb_false_r by lia.
    - rewrite <- (Z.mod_small x (2 ^ n)), Z.mod_pow2_bits_high by lia. done. }
  rewrite Z.add_nocarry_lxor, Z.lxor_lor by done. done.
Qed.

Lemma lxor_range x y n : 0 <= n -> 0 <= x < 2 ^ n -> 0 <= y < 2 ^ n -> 0 <= Z.lxor x y < 2 ^ n.
Proof.
  intros Hn Hx Hy. assert (H0 : 0 <= Z.lxor x y) by (apply Z.lxor_nonneg; lia). split; [done|].
  destruct (decide (Z.lxor x y = 0)) as [->|]; [apply Z.pow_pos_nonneg; lia|].
  apply Z.log2_lt_pow2; [lia|]. pose proof (Z.log2_lxor x y ltac:(lia) ltac:(lia)).
  assert (Hlog : forall z, 0 <= z < 2 ^ n -> Z.log2 z < n \/ z = 0).
  { intros z Hz. destruct (decide (z = 0)); [auto|]. left. apply Z.log2_lt_pow2; lia. }
  destruct (Hlog x Hx) as [ | -> ]; destruct (Hlog y Hy) as [ | -> ];
    rewrite ?Z.lxor_0_l, ?Z.lxor_0_r in *; lia.
Qed.

(** ** Byte strings under exclusive or *)

Definition xor_bytes (a b : list Z) : list Z := zip_with Z.lxor a b.

Lemma xor_bytes_cancel a : forall b, (length a <= length b)%nat -> xor_bytes (xor_bytes a b) b = a.
Proof.
  induction a as [|x a IH]; intros [|y b] H; simpl in *; try done; [lia|].
  rewrite Z.lxor_assoc, Z.lxor_nilpotent, Z.lxor_0_r. f_equal. apply IH. lia.
Qed.

Lemma length_xor_bytes a b : length (xor_bytes a b) = Nat.min (length a) (length b).
Proof. apply length_zip_with. Qed.

Lemma xor_bytes_ok a b : bytes_ok a -> bytes_ok b -> bytes_ok (xor_bytes a b).
Proof.
  intros Ha. revert b. induction Ha as [|x a Hx Ha IH]; intros b Hb; [constructor|].
  destruct Hb as [|y b Hy Hb]; [constructor|]. constructor; [|by apply IH].
  by apply (lxor_range x y 8).
Qed.

Lemma xor_bytes_app a b c d : length a = length b -> xor_bytes (a ++ c) (b ++ d) = xor_bytes a b ++ xor_bytes c d.
Proof. apply zip_with_app. Qed.

Lemma xor_bytes_comm a b : xor_bytes a b = xor_bytes b a.
Proof.
  revert b. induction a as [|x a IH]; intros [|y b]; simpl; try done.
  by rewrite Z.lxor_comm, IH.
Qed.

Lemma join_cons {A} (l : list A) (ls : list (list A)) : mjoin (l :: ls) = l ++ mjoin ls.
Proof. done. Qed.

(** [x & mask] for a mask of the high bits of an [n]-bit value. *)
Lemma bitset_high v n k mask :
  0 <= k <= n -> 0 <= v < 2 ^ n -> mask = 2 ^ n - 2 ^ k -> bitset v mask = (2 ^ k <=? v).
Proof.
  intros Hk Hv ->. unfold bitset.
  assert (E : Z.land v (2 ^ n - 2 ^ k) = Z.shiftl (Z.land (Z.shiftr v k) (Z.ones (n - k))) k).
  { replace (2 ^ n - 2 ^ k) with (Z.shiftl (Z.ones (n - k)) k).
    2: { rewrite Z.shiftl_mul_pow2, Z.ones_equiv, <- Z.sub_1_r, Z.mul_sub_distr_r, <- Z.pow_add_r by lia. f_equal; [f_equal|]; lia. }
    apply Z.bits_inj'. intros i Hi. rewrite Z.land_spec, !Z.shiftl_spec by lia. destruct (decide (i < k)).
    - rewrite !(Z.testbit_neg_r _ (i - k)) by lia. by rewrite andb_false_r.
    - rewrite Z.land_spec, Z.shiftr_spec by lia. do 2 f_equal. lia. }
  rewrite E, Z.land_ones, Z.shiftr_div_pow2, Z.shiftl_mul_pow2 by lia.
  assert (Hd : 0 <= v / 2 ^ k < 2 ^ (n - k)).
  { split; [apply Z.div_pos; lia|]. apply Z.div_lt_upper_bound; [lia|]. rewrite <- Z.pow_add_r by lia.
    replace (k + (n - k)) with n by lia. lia. }
  rewrite Z.mod_small by done. apply eq_true_iff_eq. rewrite negb_true_iff, Z.eqb_neq, Z.leb_le.
  pose proof (Z.pow_pos_nonneg 2 k ltac:(lia) ltac:(lia)). split.
  - intros Hn. destruct (Z.le_gt_cases (2 ^ k) v) as [|Hlt]; [done|]. rewrite Z.div_small in Hn; lia.
  - intros Hle. assert (1 <= v / 2 ^ k) by (apply Z.div_le_lower_bound; lia). nia.
Qed.
