(* ===== verification/Limbs.v ===== *)
(** Limb arithmetic shared by the field and the scalar code of src/src/ed25519
    (fe.c and sc.c).

    Both files keep a large integer in an array (or a row of local variables) of
    small signed limbs, the value being a weighted sum, and normalise it by carries.
    [int32] and [int64] are the signed results of C: a value that does not fit stops
    the computation, so a theorem that a function returns excludes signed overflow.
    A left shift of a negative number is the multiplication that gcc documents.

    The second half is an interval analysis: [carriesI] runs a list of carries on
    bounds, and [carries_ok] says that the carries of limbs within these bounds do
    not overflow, end within the computed bounds and keep the value modulo [M]
    ([M = 0] is equality). *)
From S2P Require Import Prelude Bytes.

(** ** Signed arithmetic *)

Definition fits (w x : Z) : bool := (- 2 ^ (w - 1) <=? x) && (x <? 2 ^ (w - 1)).

Definition ck (w x : Z) : outcome Z := if fits w x then Done x else Stop SignedOverflow.

Notation int32 := (ck 32).
Notation int64 := (ck 64).

(** [acc + a * b + ...] from left to right, products and sums in [int64_t]. *)
Fixpoint sumprod (acc : Z) (l : list (Z * Z)) : outcome Z :=
  match l with
  | [] => Done acc
  | (a, b) :: l =>
      let* t := int64 (a * b) in
      let* acc := int64 (acc + t) in
      sumprod acc l
  end.

(** ** Limbs *)

(** One carry:
    [c = (h[i] + rnd) >> k; h[j] += c * m; h[i] -= c << k]. *)
Record carry := Carry { c_rnd : Z; c_shift : Z; c_from : nat; c_to : nat; c_mul : Z }.

Definition do_carry (w : Z) (c : carry) (h : list Z) : outcome (list Z) :=
  let x := h !!! c_from c in
  let* t := ck w (x + c_rnd c) in
  let q := Z.shiftr t (c_shift c) in
  let* d := ck w (q * c_mul c) in
  let* y := ck w (h !!! c_to c + d) in
  let* b := ck w (Z.shiftl q (c_shift c)) in
  let* x := ck w (x - b) in
  Done (<[c_from c := x]> (<[c_to c := y]> h)).

Fixpoint carries (w : Z) (cs : list carry) (h : list Z) : outcome (list Z) :=
  match cs with
  | [] => Done h
  | c :: cs => let* h := do_carry w c h in carries w cs h
  end.

(** The value of limbs [h] at weights [W]. *)
Fixpoint dot (W h : list Z) : Z :=
  match W, h with
  | w :: W, x :: h => w * x + dot W h
  | _, _ => 0
  end.

(** ** Congruence *)

Definition cong (M a b : Z) : Prop := exists q, a = b + q * M.

Notation "a ≡ b [mod M ]" := (cong M a b)
  (at level 70, b at next level, M at level 200, format "a  ≡  b  [mod  M ]") : c_scope.

#[export] Instance cong_equiv M : Equivalence (cong M).
Proof.
  split.
  - intros a. exists 0. ring.
  - intros a b [q ->]. exists (- q). ring.
  - intros a b c [q ->] [r ->]. exists (q + r). ring.
Qed.

#[export] Instance cong_add M : Proper (cong M ==> cong M ==> cong M) Z.add.
Proof. intros a b [q ->] c d [r ->]. exists (q + r). ring. Qed.

#[export] Instance cong_sub M : Proper (cong M ==> cong M ==> cong M) Z.sub.
Proof. intros a b [q ->] c d [r ->]. exists (q - r). ring. Qed.

#[export] Instance cong_opp M : Proper (cong M ==> cong M) Z.opp.
Proof. intros a b [q ->]. exists (- q). ring. Qed.

#[export] Instance cong_mul M : Proper (cong M ==> cong M ==> cong M) Z.mul.
Proof. intros a b [q ->] c d [r ->]. exists (q * d + b * r + q * r * M). ring. Qed.

#[export] Instance cong_pow M : Proper (cong M ==> eq ==> cong M) Z.pow.
Proof.
  intros a b H n _ <-. destruct (Z.le_gt_cases 0 n) as [Hn|Hn].
  - pattern n. apply natlike_ind; [reflexivity| |done]. intros m Hm IH.
    rewrite !Z.pow_succ_r by done. by apply cong_mul.
  - rewrite !Z.pow_neg_r by done. reflexivity.
Qed.

Lemma cong_mod M a b : M <> 0 -> a ≡ b [mod M] <-> a mod M = b mod M.
Proof.
  intros HM. split.
  - intros [q ->]. apply Z_mod_plus_full.
  - intros E. exists (a / M - b / M). pose proof (Z.div_mod a M HM). pose proof (Z.div_mod b M HM). lia.
Qed.

Lemma cong_0 a b : a ≡ b [mod 0] -> a = b.
Proof. intros [q ->]. ring. Qed.

(** The representative in the range of the modulus is unique. *)
Lemma cong_small M a b : a ≡ b [mod M] -> 0 <= a < M -> a = b mod M.
Proof. intros H Ha. apply cong_mod in H; [|lia]. by rewrite Z.mod_small in H. Qed.

(** ** The value under updates *)

Lemma lookup_total_eq (l : list Z) i x : l !! i = Some x -> l !!! i = x.
Proof. rewrite list_lookup_total_alt. by intros ->. Qed.

Lemma dot_insert W h i v :
  (i < length W)%nat -> (i < length h)%nat ->
  dot W (<[i := v]> h) = dot W h + W !!! i * (v - h !!! i).
Proof.
  revert h i. induction W as [|w W IH]; intros [|x h] [|i] HW Hh; cbn in HW, Hh; try lia.
  - cbn. lia.
  - change (<[S i:=v]> (x :: h)) with (x :: <[i:=v]> h). change ((w :: W) !!! S i) with (W !!! i).
    change ((x :: h) !!! S i) with (h !!! i). cbn [dot]. rewrite IH by lia. lia.
Qed.

(** ** Bounds *)

Notation itv := (Z * Z)%type.

Definition inb (b : itv) (x : Z) : Prop := b.1 <= x <= b.2.

Definition inbs (B : list itv) (h : list Z) : Prop := Forall2 inb B h.

Definition fitsI (w : Z) (b : itv) : bool := fits w b.1 && fits w b.2.

Lemma int32_fits x : - 2 ^ 31 <= x < 2 ^ 31 -> int32 x = Done x.
Proof. intros H. unfold ck, fits. change (32 - 1) with 31. by rewrite (proj2 (Z.leb_le _ _)), (proj2 (Z.ltb_lt _ _)) by lia. Qed.

Lemma ck_in w b x : fitsI w b = true -> inb b x -> ck w x = Done x.
Proof.
  unfold fitsI, ck, fits, inb. intros H Hx. ztests.
  rewrite (proj2 (Z.leb_le _ x)), (proj2 (Z.ltb_lt x _)) by lia. done.
Qed.

Lemma inbs_lookup B h i : inbs B h -> (i < length B)%nat -> inb (B !!! i) (h !!! i).
Proof.
  intros H Hi. destruct (lookup_lt_is_Some_2 B i Hi) as [b Hb].
  destruct (Forall2_lookup_l _ _ _ _ _ H Hb) as (x & Hx & Hbx).
  rewrite !list_lookup_total_alt, Hb, Hx. done.
Qed.

Lemma inbs_length B h : inbs B h -> length B = length h.
Proof. apply Forall2_length. Qed.

Lemma inbs_insert B h i b x : inbs B h -> inb b x -> inbs (<[i := b]> B) (<[i := x]> h).
Proof. intros. by apply Forall2_insert. Qed.

Lemma dot_bounds W B h :
  Forall (Z.le 0) W -> inbs B h -> dot W B.*1 <= dot W h <= dot W B.*2.
Proof.
  intros HW H. revert W HW. induction H as [|b x B h Hb H IH]; intros [|w W] HW; cbn; try lia.
  inversion HW; subst. specialize (IH W ltac:(done)). unfold inb in Hb. nia.
Qed.

(** [within b x]: the bound [|x| <= b] of the comments of fe.c. *)
Definition within (b x : Z) : Prop := - b <= x <= b.

Lemma within_mul a b x y : within a x -> within b y -> within (a * b) (x * y).
Proof. unfold within. intros. nia. Qed.

Lemma within_scale k b x : 0 <= k -> within b x -> within (k * b) (k * x).
Proof. unfold within. intros. nia. Qed.

Lemma ck_within w b x : (b <? 2 ^ (w - 1)) = true -> within b x -> ck w x = Done x.
Proof.
  unfold ck, fits, within. intros H Hx. ztests.
  rewrite (proj2 (Z.leb_le _ x)), (proj2 (Z.ltb_lt x _)) by lia. done.
Qed.

(** The bound of [sumprod] from bounds of its factors. *)
Definition sumprodB (A : Z) (bs : list (Z * Z)) : Z := foldl (fun s '(a, b) => s + a * b) A bs.

Definition sumprodZ (A : Z) (l : list (Z * Z)) : Z := foldl (fun s '(a, b) => s + a * b) A l.

Definition within2 (p b : Z * Z) : Prop := within b.1 p.1 /\ within b.2 p.2.

Lemma sumprodB_mono A l bs : Forall2 within2 l bs -> 0 <= A -> A <= sumprodB A bs.
Proof.
  intros H. revert A. induction H as [|[x y] [a b] l bs [Hx Hy] H IH]; intros A HA; cbn; [lia|].
  unfold within in *. cbn in *. etrans; [|apply IH]; nia.
Qed.

Lemma sumprod_ok A acc l bs :
  within A acc -> Forall2 within2 l bs -> (sumprodB A bs <? 2 ^ 63) = true ->
  sumprod acc l = Done (sumprodZ acc l) /\ within (sumprodB A bs) (sumprodZ acc l).
Proof.
  intros HA H. revert A acc HA. induction H as [|[x y] [a b] l bs [Hx Hy] H IH]; intros A acc HA HB; cbn.
  - done.
  - cbn in Hx, Hy. pose proof (within_mul _ _ _ _ Hx Hy) as Hp.
    assert (0 <= A /\ 0 <= a * b) as [HA0 Hab] by (unfold within in *; nia).
    pose proof (sumprodB_mono (A + a * b) _ _ H ltac:(lia)) as Hm. cbn in HB, Hm.
    assert (within (A + a * b) (acc + x * y)) as Hs by (unfold within in *; lia).
    assert (sumprodB (A + a * b) bs < 2 ^ 63) by (by apply Z.ltb_lt).
    rewrite (ck_within 64 (a * b)); [|apply Z.ltb_lt; lia|done]. cbn [obind].
    rewrite (ck_within 64 (A + a * b)); [|apply Z.ltb_lt; lia|done]. cbn [obind].
    by apply IH.
Qed.

(** ** Carries on bounds *)

Definition carryI (w : Z) (W : list Z) (M : Z) (c : carry) (B : list itv) : option (list itv) :=
  let '(Carry r k i j m) := c in
  let b := B !!! i in
  let t := (b.1 + r, b.2 + r) in
  let q := (Z.shiftr t.1 k, Z.shiftr t.2 k) in
  let d := (q.1 * m, q.2 * m) in
  let y := ((B !!! j).1 + d.1, (B !!! j).2 + d.2) in
  let s := (Z.shiftl q.1 k, Z.shiftl q.2 k) in
  let x := (- r, 2 ^ k - 1 - r) in
  if (i <? length B)%nat && (j <? length B)%nat && negb (i =? j)%nat && (length W =? length B)%nat &&
     (0 <=? k) && (0 <=? m) && ((m * W !!! j - 2 ^ k * W !!! i) mod M =? 0) &&
     fitsI w t && fitsI w d && fitsI w y && fitsI w s && fitsI w x
  then Some (<[i := x]> (<[j := y]> B)) else None.

Fixpoint carriesI (w : Z) (W : list Z) (M : Z) (cs : list carry) (B : list itv) : option (list itv) :=
  match cs with
  | [] => Some B
  | c :: cs => match carryI w W M c B with Some B => carriesI w W M cs B | None => None end
  end.

(** [f] keeps the value modulo [M] and takes limbs within [B] to limbs within [B']. *)
Definition keeps (W : list Z) (M : Z) (f : list Z -> outcome (list Z)) (B B' : list itv) : Prop :=
  forall h, inbs B h -> returns (f h) (fun h' => inbs B' h' /\ dot W h' ≡ dot W h [mod M]).

Lemma shiftr_mono a b k : 0 <= k -> a <= b -> Z.shiftr a k <= Z.shiftr b k.
Proof. intros. rewrite !Z.shiftr_div_pow2 by done. apply Z.div_le_mono; lia. Qed.

Lemma cong_of_mod x M : x mod M = 0 -> exists q, x = q * M.
Proof.
  intros H. destruct (decide (M = 0)) as [->|HM].
  - rewrite Zmod_0_r in H. exists 0. lia.
  - exists (x / M). pose proof (Z.div_mod x M HM). lia.
Qed.

Lemma one_carry_ok w W M c B B' : carryI w W M c B = Some B' -> keeps W M (do_carry w c) B B'.
Proof.
  destruct c as [r k i j m]. unfold carryI. intros E h Hh. case_match eqn:T; [|done]. injection E as <-.
  rewrite !andb_true_iff, !Nat.ltb_lt, negb_true_iff, Nat.eqb_neq, Nat.eqb_eq, !Z.leb_le, Z.eqb_eq in T.
  destruct T as (((((((((((Hi & Hj) & Hij) & HW) & Hk) & Hm) & HM) & Ft) & Fd) & Fy) & Fs) & Fx).
  unfold do_carry. cbn [c_rnd c_shift c_from c_to c_mul].
  pose proof (inbs_lookup _ _ i Hh Hi) as Bi. pose proof (inbs_lookup _ _ j Hh Hj) as Bj.
  pose proof (inbs_length _ _ Hh) as Hl. set (x := h !!! i) in *. set (y := h !!! j) in *.
  assert (0 < 2 ^ k) as Hp by (by apply Z.pow_pos_nonneg). unfold inb in Bi, Bj.
  rewrite (ck_in w _ _ Ft) by (unfold inb; cbn [fst snd]; lia). cbn [obind]. set (q := Z.shiftr (x + r) k).
  assert (Z.shiftr ((B !!! i).1 + r) k <= q <= Z.shiftr ((B !!! i).2 + r) k) as Hq
    by (split; apply shiftr_mono; lia).
  assert (inb (Z.shiftr ((B !!! i).1 + r) k * m, Z.shiftr ((B !!! i).2 + r) k * m) (q * m)) as Hd
    by (unfold inb; cbn [fst snd]; nia).
  rewrite (ck_in w _ _ Fd Hd). cbn [obind]. unfold inb in Hd. cbn [fst snd] in Hd, Fy |- *.
  rewrite (ck_in w _ _ Fy) by (unfold inb; cbn [fst snd]; lia). cbn [obind].
  rewrite (ck_in w _ _ Fs) by (unfold inb; cbn [fst snd]; rewrite !Z.shiftl_mul_pow2 by done; nia). cbn [obind].
  assert (inb (- r, 2 ^ k - 1 - r) (x - Z.shiftl q k)) as Hx.
  { unfold inb. cbn [fst snd]. rewrite Z.shiftl_mul_pow2 by done. unfold q. rewrite Z.shiftr_div_pow2 by done.
    pose proof (Z.div_mod (x + r) (2 ^ k) ltac:(lia)) as D. pose proof (Z.mod_pos_bound (x + r) (2 ^ k) Hp) as R.
    clear - D R. generalize dependent ((x + r) mod 2 ^ k). generalize ((x + r) / 2 ^ k). generalize (2 ^ k). intros. lia. }
  rewrite (ck_in w _ _ Fx Hx). cbn [obind returns]. split.
  - apply inbs_insert; [|done]. apply inbs_insert; [done|]. split; apply Z.add_le_mono; tauto.
  - rewrite !dot_insert by (rewrite ?length_insert; lia). rewrite list_lookup_total_insert_ne by done.
    fold x y. destruct (cong_of_mod _ _ HM) as [z Hz]. rewrite Z.shiftl_mul_pow2 by done.
    exists (q * z).
    replace (dot W h + W !!! j * (y + q * m - y) + W !!! i * (x - q * 2 ^ k - x))
      with (dot W h + q * (m * W !!! j - 2 ^ k * W !!! i)) by ring. rewrite Hz. ring.
Qed.

Lemma keeps_bind W M f g B B' B'' :
  keeps W M f B B' -> keeps W M g B' B'' -> keeps W M (fun h => let* h := f h in g h) B B''.
Proof.
  intros Hf Hg h Hh. eapply returns_bind; [by apply Hf|]. intros h' [Hb Hv].
  eapply returns_mono; [by apply Hg|]. intros h'' [Hb' Hv']. split; [done|]. by etrans.
Qed.

Lemma carries_ok w W M cs B B' : carriesI w W M cs B = Some B' -> keeps W M (carries w cs) B B'.
Proof.
  revert B. induction cs as [|c cs IH]; intros B E; cbn in E.
  - injection E as <-. intros h Hh. by split.
  - case_match eqn:Ec; [|done].
    apply (keeps_bind W M (do_carry w c) (carries w cs) B l B'); [by apply one_carry_ok|by apply IH].
Qed.

(** Widening the computed bounds to the documented ones. *)
Definition subI (B B' : list itv) : bool :=
  (length B =? length B')%nat && forallb (fun '(b, b') => (b'.1 <=? b.1) && (b.2 <=? b'.2)) (zip B B').

Lemma subI_ok B B' h : subI B B' = true -> inbs B h -> inbs B' h.
Proof.
  unfold subI. rewrite andb_true_iff, Nat.eqb_eq. intros [Hl Hf] H. revert B' Hl Hf.
  induction H as [|b x B h Hb H IH]; intros [|b' B'] Hl Hf; try done; [by constructor|].
  cbn in Hf. rewrite !andb_true_iff, !Z.leb_le in Hf. destruct Hf as [Hb' Hf].
  constructor; [unfold inb in *; lia|]. apply IH; [by injection Hl|done].
Qed.

(** Carries that take limbs within [B] to limbs within [B']. *)
Definition carries_to (w : Z) (W : list Z) (M : Z) (cs : list carry) (B B' : list itv) : bool :=
  match carriesI w W M cs B with Some X => subI X B' | None => false end.

Lemma carries_to_ok w W M cs B B' : carries_to w W M cs B B' = true -> keeps W M (carries w cs) B B'.
Proof.
  unfold carries_to. intros H h Hh. case_match eqn:E; [|done].
  eapply returns_mono; [by apply (carries_ok _ _ _ _ _ _ E)|]. intros h' [Hb Hv]. split; [by eapply subI_ok|done].
Qed.
