(* ===== verification/UtcpBuffer.v ===== *)
(** The ring buffer of UTCP (src/src/utcp.c, "Buffer functions"; [struct buffer]
    of src/src/utcp_priv.h).

    [buffer] is the struct with the object it points to; every operation is the
    C function with [uint32_t]/[size_t] arithmetic wrapped and every [memcpy]
    and [memmove] checked against the object's bounds.  [contents] is the byte
    string a buffer stands for: its [used] cells, read around the end of the
    object.  The theorems say that a well-formed buffer stays well-formed, that
    no operation leaves its object, and what each does to [contents]. *)
From S2P Require Import Prelude.

Definition UINT32_MAX : Z := 4294967295.
Definition DEFAULT_SNDBUFSIZE : Z := 0.
Definition DEFAULT_MAXSNDBUFSIZE : Z := 131072.
Definition DEFAULT_RCVBUFSIZE : Z := 0.
Definition DEFAULT_MAXRCVBUFSIZE : Z := 131072.

(** [struct buffer]; [data] is the object behind the [char *] member, empty when
    the pointer is NULL. *)
Record buffer := Buffer {
  data : list Z;
  offset : Z;
  used : Z;
  size : Z;
  maxsize : Z;
  external : bool;
}.

Definition buffer_zero : buffer := Buffer [] 0 0 0 0 false.

Definition buffer_wraps (buf : buffer) : bool :=
  u32 (size buf - offset buf) <? used buf.

Definition buffer_resize (al : alloc) (buf : buffer) (newsize : Z) : outcome (bool * buffer) :=
  let* _ := assert_ (negb (external buf)) in
  if newsize =? 0 then Done (true, Buffer [] 0 (used buf) 0 (maxsize buf) (external buf))
  else if negb (a_ok al) then Done (false, buf)
  else
    let newdata := mem_realloc al (data buf) newsize in
    if buffer_wraps buf then
      let tailsize := u32 (size buf - offset buf) in
      let newoffset := u32 (newsize - tailsize) in
      let* tail := mem_read newdata (offset buf) tailsize in
      let* moved := mem_write newdata newoffset tail in
      Done (true, Buffer moved newoffset (used buf) newsize (maxsize buf) (external buf))
    else
      Done (true, Buffer newdata (offset buf) (used buf) newsize (maxsize buf) (external buf)).

(** [do newsize *= 2; while(newsize < required)]. *)
Fixpoint buffer_grow (fuel : nat) (newsize required : Z) : outcome Z :=
  match fuel with
  | O => Stop OutOfFuel
  | S fuel =>
      let newsize := u64 (newsize * 2) in
      if newsize <? required then buffer_grow fuel newsize required else Done newsize
  end.

(** Store data at the buffer's object: one or two [memcpy]s. *)
Definition buffer_store (buf : buffer) (realoffset : Z) (dat : list Z) : outcome (list Z) :=
  let room := u32 (size buf - realoffset) in
  if room <? zlen dat then
    let* d := mem_write (data buf) realoffset (take (Z.to_nat room) dat) in
    mem_write d 0 (drop (Z.to_nat room) dat)
  else mem_write (data buf) realoffset dat.

(** Where the byte at [off] is in the object. *)
Definition buffer_realoffset (buf : buffer) (off : Z) : Z :=
  let realoffset := u32 (offset buf + off) in
  if u32 (size buf - offset buf) <=? off then u32 (realoffset - size buf) else realoffset.

Definition buffer_put_at (al : alloc) (buf : buffer) (off : Z) (dat : list Z)
  : outcome (Z * buffer) :=
  let len := zlen dat in
  let required := u64 (off + len) in
  if (maxsize buf <? required) && (maxsize buf <=? off) then Done (0, buf)
  else
    let len := if maxsize buf <? required then u64 (maxsize buf - off) else len in
    let required := if maxsize buf <? required then maxsize buf else required in
    let dat := take (Z.to_nat len) dat in
    let* (ok, buf) :=
      if size buf <? required then
        let* newsize := buffer_grow 64 (if size buf =? 0 then 4096 else size buf) required in
        let newsize := if maxsize buf <? newsize then maxsize buf else newsize in
        buffer_resize al buf (u32 newsize)
      else Done (true, buf) in
    if negb ok then Done (-1, buf)
    else
      let* d := buffer_store buf (buffer_realoffset buf off) dat in
      Done (len, Buffer d (offset buf) (Z.max (used buf) required)
                   (size buf) (maxsize buf) (external buf)).

Definition buffer_put (al : alloc) (buf : buffer) (dat : list Z) : outcome (Z * buffer) :=
  buffer_put_at al buf (used buf) dat.

(** The bytes at [off, off+len), read with one or two [memcpy]s. *)
Definition buffer_load (buf : buffer) (realoffset len : Z) : outcome (list Z) :=
  let room := u32 (size buf - realoffset) in
  if room <? len then
    let* d1 := mem_read (data buf) realoffset room in
    let* d2 := mem_read (data buf) 0 (len - room) in
    Done (d1 ++ d2)
  else mem_read (data buf) realoffset len.

(** The bytes copied out; their number is the return value. *)
Definition buffer_copy (buf : buffer) (off len : Z) : outcome (list Z) :=
  if used buf <=? off then Done []
  else
    let len := if u64 (used buf - off) <? len then u64 (used buf - off) else len in
    buffer_load buf (buffer_realoffset buf off) len.

Definition buffer_discard (buf : buffer) (len : Z) : Z * buffer :=
  let len := if used buf <? len then used buf else len in
  let off := if u32 (size buf - offset buf) <=? len
             then u32 (offset buf - size buf) else offset buf in
  let off := if used buf =? len then 0 else u32 (off + len) in
  (len, Buffer (data buf) off (u32 (used buf - len)) (size buf) (maxsize buf) (external buf)).

Definition buffer_clear (buf : buffer) : buffer :=
  Buffer (data buf) 0 0 (size buf) (maxsize buf) (external buf).

Definition buffer_set_size (al : alloc) (buf : buffer) (minsize maxsize0 : Z)
  : outcome (bool * buffer) :=
  let m := if maxsize0 <? minsize then minsize else maxsize0 in
  let buf := Buffer (data buf) (offset buf) (used buf) (size buf) m (external buf) in
  if minsize <=? size buf then Done (true, buf) else buffer_resize al buf minsize.

(** The new object after the copies, with the buffer's own [data] pointer left
    to the caller, as in the source. *)
Definition buffer_transfer (buf : buffer) (newdata : list Z) (newsize : Z)
  : outcome (list Z * buffer) :=
  let* nd :=
    if buffer_wraps buf then
      let tailsize := u32 (size buf - offset buf) in
      let* t := mem_read (data buf) (offset buf) tailsize in
      let* nd := mem_write newdata 0 t in
      let* h := mem_read (data buf) 0 (u32 (used buf - tailsize)) in
      mem_write nd tailsize h
    else
      let* t := mem_read (data buf) (offset buf) (used buf) in
      mem_write newdata 0 t in
  Done (nd, Buffer (data buf) 0 (used buf) (u32 newsize) (maxsize buf) (external buf)).

(** [ext] is the application's storage when the [data] argument is not NULL. *)
Definition set_buffer_storage (al : alloc) (buf : buffer) (ext : option (list Z)) (size0 : Z)
  : outcome buffer :=
  let sz := if UINT32_MAX <? size0 then UINT32_MAX else size0 in
  let buf := Buffer (data buf) (offset buf) (used buf) (size buf) sz (external buf) in
  match ext with
  | Some d =>
      if external buf then Stop AbortCalled
      else if sz <? used buf then Done buf
      else
        let* (nd, buf) := buffer_transfer buf d sz in
        Done (Buffer nd (offset buf) (used buf) (size buf) (maxsize buf) true)
  | None =>
      if external buf then
        let minsize := if used buf <=? DEFAULT_SNDBUFSIZE then DEFAULT_SNDBUFSIZE else used buf in
        if negb (minsize =? 0) then
          if negb (a_ok al) then Stop AbortCalled
          else
            let* (nd, buf) := buffer_transfer buf (mem_fresh al 0 minsize) minsize in
            Done (Buffer nd (offset buf) (used buf) (size buf) (maxsize buf) false)
        else Done (Buffer [] (offset buf) (used buf) 0 (maxsize buf) false)
      else if buffer_wraps buf then Done buf
      else
        let minsize := Z.max DEFAULT_SNDBUFSIZE (u32 (offset buf + used buf)) in
        if negb (minsize =? 0) then
          if a_ok al then
            Done (Buffer (mem_realloc al (data buf) minsize) (offset buf) (used buf)
                    minsize (maxsize buf) (external buf))
          else Done buf
        else Done (Buffer [] (offset buf) (used buf) 0 (maxsize buf) (external buf))
  end.

Definition buffer_exit (buf : buffer) : buffer := buffer_zero.

Definition buffer_free (buf : buffer) : Z :=
  if used buf <? maxsize buf then u32 (maxsize buf - used buf) else 0.

(** ** The byte string a buffer stands for *)

Record wf_buffer (b : buffer) : Prop := {
  wf_len : zlen (data b) = size b;
  wf_used : 0 <= used b <= size b;
  wf_size : size b < 2 ^ 32;
  wf_max : 0 <= maxsize b < 2 ^ 32;
  wf_off : 0 <= offset b /\ (offset b < size b \/ offset b = 0);
  wf_empty : used b = 0 -> offset b = 0;
  wf_ext : external b = true -> size b = maxsize b;
}.

(** All cells of the object in ring order, the first one at [offset]. *)
Definition rot (o : Z) (m : list Z) : list Z := drop (Z.to_nat o) m ++ take (Z.to_nat o) m.

Definition cells (b : buffer) : list Z := rot (offset b) (data b).

Definition contents (b : buffer) : list Z := take (Z.to_nat (used b)) (cells b).

Lemma length_rot o m : length (rot o m) = length m.
Proof. unfold rot. rewrite length_app, length_drop, length_take. lia. Qed.

Lemma lookup_rot o m i :
  0 <= o <= zlen m -> (i < length m)%nat ->
  rot o m !! i =
  m !! (if decide (o + Z.of_nat i < zlen m) then (Z.to_nat o + i)%nat
        else (Z.to_nat o + i - length m)%nat).
Proof.
  intros Ho Hi. unfold rot, zlen in *. case_decide.
  - rewrite lookup_app_l, lookup_drop by (rewrite length_drop; lia). done.
  - rewrite lookup_app_r by (rewrite length_drop; lia).
    rewrite length_drop, lookup_take_lt by lia. f_equal. lia.
Qed.

Lemma length_contents b : wf_buffer b -> zlen (contents b) = used b.
Proof.
  intros []. unfold contents, zlen in *. rewrite length_take. unfold cells.
  rewrite length_rot. lia.
Qed.

Lemma realoffset_eq b off :
  wf_buffer b -> 0 <= off <= size b ->
  buffer_realoffset b off =
  if decide (offset b + off < size b) then offset b + off else offset b + off - size b.
Proof.
  intros [] H0. unfold buffer_realoffset.
  rewrite (u32_small (size b - offset b)) by lia. rewrite u32_sub_l.
  zcase; case_decide; try lia; apply u32_small; lia.
Qed.

(** Storing within the ring writes the cells [off, off+len) and no other. *)
Lemma store_ok b off dat :
  wf_buffer b -> 0 <= off -> off + zlen dat <= size b ->
  exists d, buffer_store b (buffer_realoffset b off) dat = Done d /\
    length d = length (data b) /\
    rot (offset b) d = list_write (Z.to_nat off) dat (cells b).
Proof.
  intros Hwf H0 H2. rewrite realoffset_eq by (pose proof (zlen_nonneg dat); lia || done).
  pose proof (wf_len _ Hwf) as Hl. pose proof (wf_off _ Hwf) as Ho.
  pose proof (wf_size _ Hwf) as Hs. unfold buffer_store, cells.
  set (ro := if decide _ then _ else _).
  assert (0 <= ro <= size b /\
    (ro = offset b + off \/ ro = offset b + off - size b /\ size b <= offset b + off))
    as [Hro Hcase] by (pose proof (zlen_nonneg (data b)); pose proof (zlen_nonneg dat); subst ro; case_decide; lia).
  clearbody ro. rewrite (u32_small (size b - ro)) by lia.
  zcase.
  - destruct (mem_write_spec (data b) ro (take (Z.to_nat (size b - ro)) dat))
      as (m1 & -> & Hm1 & Hj1); [lia | zlist |]. simpl.
    destruct (mem_write_spec m1 0 (drop (Z.to_nat (size b - ro)) dat))
      as (m2 & -> & Hm2 & Hj2); [lia | zlist |].
    exists m2. split; [done|]. split; [lia|]. unfold zlen in *.
    rewrite length_take in Hj1. rewrite length_drop in Hj2.
    apply list_eq_lookup; [rewrite length_list_write; rewrite ?length_rot; lia|].
    rewrite length_rot. intros i Hi.
    rewrite lookup_list_write, !lookup_rot by (unfold zlen; rewrite ?length_rot; lia).
    rewrite Hj2, Hj1. unfold zlen. rewrite Hm2, Hm1.
    clear Hj1 Hj2 Hwf. destruct Hcase, Ho as [? [? | ?]]; index_cases.
  - destruct (mem_write_spec (data b) ro dat) as (m1 & -> & Hm1 & Hj1); [lia | zlist |].
    exists m1. split; [done|]. split; [lia|]. unfold zlen in *.
    apply list_eq_lookup; [rewrite length_list_write; rewrite ?length_rot; lia|].
    rewrite length_rot. intros i Hi.
    rewrite lookup_list_write, !lookup_rot by (unfold zlen; rewrite ?length_rot; lia).
    rewrite Hj1. unfold zlen. rewrite Hm1.
    clear Hj1 Hwf. destruct Hcase, Ho as [? [? | ?]]; index_cases.
Qed.

(** Reading within the ring gives the cells [off, off+len). *)
Lemma load_ok b off len :
  wf_buffer b -> 0 <= off -> 0 <= len -> off + len <= size b ->
  buffer_load b (buffer_realoffset b off) len =
  Done (slice (Z.to_nat off) (Z.to_nat len) (cells b)).
Proof.
  intros Hwf H0 Hn H2. rewrite realoffset_eq by (lia || done).
  pose proof (wf_len _ Hwf) as Hl. pose proof (wf_off _ Hwf) as Ho.
  pose proof (wf_size _ Hwf) as Hs. unfold buffer_load, cells.
  set (ro := if decide _ then _ else _).
  assert (0 <= ro <= size b /\
    (ro = offset b + off \/ ro = offset b + off - size b /\ size b <= offset b + off))
    as [Hro Hcase] by (pose proof (zlen_nonneg (data b)); subst ro; case_decide; lia).
  clearbody ro. rewrite (u32_small (size b - ro)) by lia. unfold zlen in *.
  assert (Hgen : forall l, length l = Z.to_nat len ->
    (forall i, (i < Z.to_nat len)%nat -> l !! i = rot (offset b) (data b) !! (Z.to_nat off + i)%nat) ->
    l = slice (Z.to_nat off) (Z.to_nat len) (rot (offset b) (data b))).
  { intros l Hll H. apply list_eq_lookup; [rewrite length_slice, length_rot; lia|].
    intros i Hi. rewrite lookup_slice. case_decide; [|lia]. by apply H. }
  zcase.
  - rewrite !mem_read_ok by (unfold zlen; lia). simpl. f_equal. apply Hgen.
    + rewrite length_app, !length_take, !length_drop. lia.
    + intros i Hi. rewrite lookup_rot by (unfold zlen; lia). unfold zlen.
      destruct (decide (i < Z.to_nat (size b - ro))%nat).
      * rewrite lookup_app_l by (rewrite length_take, length_drop; lia). index_cases.
      * rewrite lookup_app_r by (rewrite length_take, length_drop; lia).
        rewrite length_take, !length_drop. index_cases.
  - rewrite mem_read_ok by (unfold zlen; lia). f_equal. apply Hgen.
    + rewrite length_take, length_drop. lia.
    + intros i Hi. rewrite lookup_rot by (unfold zlen; lia). unfold zlen. index_cases.
Qed.

(** ** Each operation on the byte string *)

Lemma contents_lookup b i :
  contents b !! i = if decide (i < Z.to_nat (used b))%nat then cells b !! i else None.
Proof. unfold contents. by rewrite lookup_take. Qed.

(** Doubling reaches any size up to 2^32 within the fuel, without overflow. *)
Lemma grow_ok k : forall n req,
  0 < n <= 2 ^ 32 -> req <= 2 ^ 32 -> req <= n * 2 ^ Z.of_nat (S k) ->
  exists m, buffer_grow (S k) n req = Done m /\ req <= m <= 2 ^ 33 /\ n < m.
Proof.
  induction k as [|k IH]; intros n req Hn Hreq Hk; cbn [buffer_grow];
    rewrite u64_small by lia; zcase; try (exists (n * 2); repeat split; lia).
  - destruct (IH (n * 2) req) as (m & Hg & ? & ?); [lia..| |].
    + rewrite Nat2Z.inj_succ, Z.pow_succ_r in Hk; lia.
    + exists m. split; [exact Hg | lia].
Qed.

Lemma grow_64 n req :
  0 < n <= 2 ^ 32 -> req <= 2 ^ 32 ->
  exists m, buffer_grow 64 n req = Done m /\ req <= m <= 2 ^ 33 /\ n < m.
Proof. intros. apply (grow_ok 63); [done..|]. change (Z.of_nat 64) with 64. lia. Qed.

Lemma length_realloc al m n : 0 <= n -> zlen (mem_realloc al m n) = n.
Proof. intros H. unfold mem_realloc. zlist. Qed.

Lemma lookup_realloc al m n i :
  0 <= n -> (i < length m)%nat -> (i < Z.to_nat n)%nat -> mem_realloc al m n !! i = m !! i.
Proof.
  intros H0 Hi Hn. unfold mem_realloc.
  rewrite lookup_app_l by (rewrite length_take; lia). by rewrite lookup_take_lt.
Qed.

(** A resized internal buffer holds the same bytes. *)
Lemma resize_ok al b n :
  wf_buffer b -> external b = false -> a_ok al = true ->
  0 < n < 2 ^ 32 -> size b <= n ->
  exists b', buffer_resize al b n = Done (true, b') /\ wf_buffer b' /\
    size b' = n /\ used b' = used b /\ maxsize b' = maxsize b /\ external b' = false /\
    contents b' = contents b.
Proof.
  intros Hwf He Hok Hn Hsz. unfold buffer_resize. rewrite He, Hok. simpl.
  rewrite (proj2 (Z.eqb_neq n 0)) by lia.
  pose proof (length_realloc al (data b) n) as Hrl.
  pose proof (lookup_realloc al (data b) n) as Hrj.
  set (nd := mem_realloc al (data b) n) in *. clearbody nd.
  destruct Hwf as [Hl Hu Hs Hm Ho Hemp Hext]. unfold buffer_wraps.
  rewrite (u32_small (size b - offset b)) by lia. zcase.
  - rewrite (u32_small (n - _)) by lia.
    rewrite mem_read_ok by lia. cbn [obind].
    destruct (mem_write_spec nd (n - (size b - offset b))
      (take (Z.to_nat (size b - offset b)) (drop (Z.to_nat (offset b)) nd)))
      as (m' & -> & Hm' & Hj); [lia | zlist |].
    eexists. split; [done|]. unfold zlen in *. rewrite length_take, length_drop in Hj.
    split; [constructor; simpl; unfold zlen; lia || congruence |].
    simpl. do 4 (split; [done|]).
    apply list_eq_lookup.
    { unfold contents, cells. simpl. rewrite !length_take, !length_rot. lia. }
    intros i Hi. unfold contents, cells in Hi; simpl in Hi.
    rewrite length_take, length_rot in Hi.
    rewrite !contents_lookup. unfold cells. simpl.
    rewrite !lookup_rot by (unfold zlen; lia). rewrite Hj. unfold zlen. rewrite Hm'.
    clear Hj. repeat case_decide; rewrite ?lookup_take_lt, ?lookup_drop, ?Hrj by lia;
    try lia; try done; try (f_equal; lia).
  - eexists. split; [done|].
    split; [constructor; simpl; lia || congruence |].
    simpl. do 4 (split; [done|]). unfold zlen in *.
    apply list_eq_lookup.
    { unfold contents, cells. simpl. rewrite !length_take, !length_rot. lia. }
    intros i Hi. unfold contents, cells in Hi; simpl in Hi.
    rewrite length_take, length_rot in Hi.
    rewrite !contents_lookup. unfold cells. simpl.
    rewrite !lookup_rot by (unfold zlen; lia). unfold zlen.
    repeat case_decide; rewrite ?Hrj by lia; try lia; try done; try (f_equal; lia).
Qed.

(** The bytes that [buffer_put_at] accepts. *)
Definition put_len (b : buffer) (off len : Z) : Z := Z.min len (Z.max 0 (maxsize b - off)).

(** The buffer after its bytes [off, off+n) were overwritten by [dat]; bytes
    between the old end and [off], if any, are unspecified. *)
Definition put_effect (b : buffer) (off : Z) (dat : list Z) (b' : buffer) : Prop :=
  used b' = Z.max (used b) (off + zlen dat) /\
  forall i, (off <= Z.of_nat i < off + zlen dat \/ Z.of_nat i < used b) ->
    contents b' !! i =
      (if decide (off <= Z.of_nat i < off + zlen dat)
       then dat !! (i - Z.to_nat off)%nat else contents b !! i).

Lemma store_effect b off dat :
  wf_buffer b -> 0 <= off -> off + zlen dat <= size b -> (used b = 0 -> offset b = 0) ->
  exists d, buffer_store b (buffer_realoffset b off) dat = Done d /\
    forall b', b' = Buffer d (offset b) (Z.max (used b) (off + zlen dat)) (size b) (maxsize b) (external b) ->
    wf_buffer b' /\ put_effect b off dat b'.
Proof.
  intros Hwf H0 H1 Hemp. destruct (store_ok b off dat) as (d & Hst & Hl & Hrot); [done..|].
  exists d. split; [done|]. intros b' ->. unfold zlen in *.
  pose proof (length_rot (offset b) (data b)) as Hlr.
  destruct Hwf. split.
  - constructor; simpl; unfold zlen in *; rewrite ?Hl; try lia; try done.
  - split; [done|]. intros i Hi. rewrite !contents_lookup. unfold cells, zlen in *. simpl.
    rewrite Hrot. rewrite lookup_list_write by (unfold cells; lia).
    unfold cells. repeat case_decide; try lia; done.
Qed.

Lemma put_effect_contents b b0 off dat b' :
  contents b0 = contents b -> used b0 = used b ->
  put_effect b0 off dat b' -> put_effect b off dat b'.
Proof. intros Hc Hu [H1 H2]. split; [by rewrite <- Hu|]. by rewrite <- Hc, <- Hu. Qed.

(** What [buffer_put_at] does, in all its cases. *)
Lemma put_at_cases al b off dat :
  wf_buffer b -> 0 <= off -> off + zlen dat < 2 ^ 64 ->
  (maxsize b <= off /\ maxsize b < off + zlen dat /\
     buffer_put_at al b off dat = Done (0, b)) \/
  (external b = false /\ a_ok al = false /\ buffer_put_at al b off dat = Done (-1, b)) \/
  ((off < maxsize b \/ off + zlen dat <= maxsize b) /\
   off + put_len b off (zlen dat) <= maxsize b /\
   exists b', buffer_put_at al b off dat = Done (put_len b off (zlen dat), b') /\
     wf_buffer b' /\ maxsize b' = maxsize b /\ external b' = external b /\
     put_effect b off (take (Z.to_nat (put_len b off (zlen dat))) dat) b').
Proof.
  intros Hwf H0 H1. pose proof (wf_max _ Hwf). unfold buffer_put_at, put_len.
  pose proof (zlen_nonneg dat). rewrite (u64_small (off + zlen dat)) by lia.
  destruct ((maxsize b <? off + zlen dat) && (maxsize b <=? off)) eqn:E1; ztests.
  { left. repeat split; lia. }
  right. set (n := Z.min (zlen dat) (Z.max 0 (maxsize b - off))).
  assert (Hcase : (maxsize b <? off + zlen dat) = false \/ (maxsize b <=? off) = false)
    by (destruct (maxsize b <? off + zlen dat); auto).
  assert (Hn : (if maxsize b <? off + zlen dat then u64 (maxsize b - off) else zlen dat) = n).
  { subst n. zcase; [|destruct Hcase; ztests; lia].
    destruct Hcase; ztests; try lia. rewrite u64_small; lia. }
  assert (Hr : (if maxsize b <? off + zlen dat then maxsize b else off + zlen dat) = off + n).
  { subst n. zcase; destruct Hcase; ztests; lia. }
  rewrite Hn, Hr. assert (Hnb : 0 <= n <= zlen dat /\ off + n <= maxsize b)
    by (subst n; destruct Hcase; ztests; lia).
  assert (Hroom : off < maxsize b \/ off + zlen dat <= maxsize b) by (destruct Hcase; ztests; lia).
  clearbody n. clear Hn Hr Hcase E1.
  assert (Hlt : zlen (take (Z.to_nat n) dat) = n) by zlist.
  assert (Hemp := wf_empty _ Hwf).
  destruct (size b <? off + n) eqn:E2; ztests.
  - assert (He : external b = false).
    { destruct (external b) eqn:He; [|done]. pose proof (wf_ext _ Hwf He). lia. }
    pose proof (wf_used _ Hwf).
    pose proof (wf_size _ Hwf).
    destruct (grow_64 (if size b =? 0 then 4096 else size b) (off + n))
      as (m & -> & Hm & Hm2); [zcase; lia | lia |]. cbn [obind].
    set (ns := if maxsize b <? m then maxsize b else m).
    assert (Hns : off + n <= ns < 2 ^ 32 /\ 0 < ns) by (subst ns; zcase; lia).
    clearbody ns. rewrite (u32_small ns) by lia.
    destruct (a_ok al) eqn:Ha.
    + destruct (resize_ok al b ns) as (b1 & -> & Hw1 & Hs1 & Hu1 & Hm1 & He1 & Hc1); [done..|lia|lia|].
      cbn [obind negb].
      destruct (store_effect b1 off (take (Z.to_nat n) dat)) as (d & -> & Heff);
        [done | done | lia | apply (wf_empty _ Hw1) |].
      cbn [obind]. right. split; [done|]. split; [lia|]. destruct (Heff _ eq_refl) as [Hw2 Hp2].
      eexists. rewrite Hlt in Hw2, Hp2. split; [done|]. split; [done|].
      do 2 (split; [cbn; congruence|]). by eapply put_effect_contents.
    + left. unfold buffer_resize. rewrite He, Ha. cbn.
      by rewrite (proj2 (Z.eqb_neq ns 0)) by lia.
  - cbn [obind negb].
    destruct (store_effect b off (take (Z.to_nat n) dat)) as (d & -> & Heff); [done | done | lia | done |].
    cbn [obind]. right. split; [done|]. split; [lia|]. destruct (Heff _ eq_refl) as [Hw2 Hp2].
    rewrite Hlt in Hw2, Hp2. eexists. split; [done|]. by split.
Qed.

(** Storing a prefix of [dat] at the end appends it. *)
Lemma put_effect_append b dat b' :
  wf_buffer b -> wf_buffer b' -> put_effect b (used b) dat b' -> contents b' = contents b ++ dat.
Proof.
  intros Hw Hw' [Hu Hc]. pose proof (length_contents b Hw). pose proof (length_contents b' Hw').
  pose proof (zlen_nonneg dat). pose proof (zlen_nonneg (contents b)). unfold zlen in *.
  apply list_eq_lookup; [rewrite length_app; lia|]. intros i Hi. rewrite Hc by lia.
  case_decide.
  - rewrite lookup_app_r by lia. f_equal. lia.
  - by rewrite lookup_app_l by lia.
Qed.

Lemma copy_ok b off len :
  wf_buffer b -> 0 <= off -> 0 <= len ->
  buffer_copy b off len = Done (slice (Z.to_nat off) (Z.to_nat len) (contents b)).
Proof.
  intros Hw H0 Hlen. pose proof (wf_used _ Hw). pose proof (wf_size _ Hw).
  pose proof (length_contents b Hw) as Hlc. unfold zlen in Hlc. unfold buffer_copy. zcase.
  - f_equal. unfold slice. rewrite drop_ge by lia. by rewrite take_nil.
  - rewrite u64_small by lia. set (n := if used b - off <? len then used b - off else len).
    assert (n = Z.min (used b - off) len) by (subst n; zcase; lia). clearbody n.
    rewrite load_ok by (done || lia). f_equal. apply list_eq_lookup.
    { rewrite !length_slice. unfold cells. rewrite length_rot.
      pose proof (wf_len _ Hw). unfold zlen in *. lia. }
    intros i Hi. rewrite !lookup_slice, contents_lookup.
    rewrite length_slice in Hi. index_cases.
Qed.

Lemma discard_ok b len :
  wf_buffer b -> 0 <= len ->
  exists b', buffer_discard b len = (Z.min len (used b), b') /\ wf_buffer b' /\
    maxsize b' = maxsize b /\ external b' = external b /\ size b' = size b /\
    used b' = used b - Z.min len (used b) /\
    contents b' = drop (Z.to_nat len) (contents b).
Proof.
  intros Hw H0. pose proof (length_contents b Hw) as Hlc.
  destruct Hw as [Hl Hu Hs Hm Ho Hemp Hext]. unfold buffer_discard.
  assert (Hn : (if used b <? len then used b else len) = Z.min len (used b)) by (zcase; lia).
  rewrite Hn. eexists. split; [done|]. rewrite (u32_small (size b - offset b)) by lia.
  rewrite (u32_small (used b - _)) by lia. unfold zlen in *.
  set (n := Z.min len (used b)) in *. set (o := if used b =? n then _ else _).
  assert (Ho' : used b = n /\ o = 0 \/ used b <> n /\
    (offset b + n < size b /\ o = offset b + n \/
     size b <= offset b + n /\ o = offset b + n - size b)).
  { subst o. destruct (used b =? n) eqn:E; ztests; [by left|]. right. split; [done|].
    zcase; rewrite ?u32_add_l; [right|left]; (split; [lia|]);
      rewrite u32_small; lia. }
  clearbody o. assert (Hnb : 0 <= n <= used b) by lia.
  split; [constructor; simpl; unfold zlen; try done; lia|]. simpl.
  do 3 (split; [done|]). split; [done|].
  apply list_eq_lookup.
  { rewrite length_drop, Hlc || idtac. unfold contents, cells. simpl.
    rewrite ?length_drop, !length_take, !length_rot. lia. }
  intros i Hi. unfold contents, cells in Hi. simpl in Hi. rewrite length_take, length_rot in Hi.
  rewrite lookup_drop, !contents_lookup. unfold cells. simpl.
  rewrite !lookup_rot by (unfold zlen; lia). unfold zlen.
  destruct Ho' as [?|[? [?|?]]]; index_cases.
Qed.

Lemma clear_ok b : wf_buffer b -> wf_buffer (buffer_clear b) /\ contents (buffer_clear b) = [].
Proof. intros []. split; [constructor; simpl; try lia; done | done]. Qed.

(** The same buffer, not marked external. *)
Definition internal (b : buffer) : buffer :=
  Buffer (data b) (offset b) (used b) (size b) (maxsize b) false.

Lemma transfer_ok b nd n :
  wf_buffer (internal b) -> zlen nd = n -> used b <= n < 2 ^ 32 ->
  exists nd' b', buffer_transfer b nd n = Done (nd', b') /\ zlen nd' = n /\
    b' = Buffer (data b) 0 (used b) n (maxsize b) (external b) /\
    take (Z.to_nat (used b)) nd' = contents b.
Proof.
  intros Hw Hnd Hn. pose proof (length_contents (internal b) Hw) as Hlc.
  change (contents (internal b)) with (contents b) in Hlc.
  pose proof (contents_lookup b) as Hcl. unfold cells in Hcl.
  destruct Hw as [Hl Hu Hs Hm Ho Hemp Hext]. simpl in *. unfold buffer_transfer, buffer_wraps.
  rewrite !(u32_small (size b - offset b)) by lia. rewrite (u32_small n) by lia.
  assert (Hgen : forall nd', length nd' = Z.to_nat n ->
    (forall i, (i < Z.to_nat (used b))%nat -> nd' !! i = rot (offset b) (data b) !! i) ->
    take (Z.to_nat (used b)) nd' = contents b).
  { intros nd' Hl' H. unfold zlen in *. apply list_eq_lookup; [rewrite length_take; lia|].
    intros i Hi. rewrite length_take in Hi. rewrite lookup_take_lt, Hcl by lia.
    rewrite H by lia. by case_decide; [|lia]. }
  zcase.
  - rewrite mem_read_ok by lia. cbn [obind].
    destruct (mem_write_spec nd 0 (take (Z.to_nat (size b - offset b)) (drop (Z.to_nat (offset b)) (data b))))
      as (m1 & -> & Hm1 & Hj1); [lia | zlist |]. cbn [obind].
    rewrite u32_small, mem_read_ok by lia. cbn [obind].
    destruct (mem_write_spec m1 (size b - offset b) (take (Z.to_nat (used b - (size b - offset b))) (drop (Z.to_nat 0) (data b))))
      as (m2 & -> & Hm2 & Hj2); [lia | zlist |].
    exists m2. eexists. split; [done|]. unfold zlen in *. split; [lia|]. split; [done|].
    apply Hgen; [lia|]. intros i Hi. rewrite lookup_rot by (unfold zlen; lia).
    rewrite Hj2, Hj1, !length_take, !length_drop. unfold zlen. index_cases.
  - rewrite mem_read_ok by lia. cbn [obind].
    destruct (mem_write_spec nd 0 (take (Z.to_nat (used b)) (drop (Z.to_nat (offset b)) (data b))))
      as (m1 & -> & Hm1 & Hj1); [lia | zlist |].
    exists m1. eexists. split; [done|]. unfold zlen in *. split; [lia|]. split; [done|].
    apply Hgen; [lia|]. intros i Hi. rewrite lookup_rot by (unfold zlen; lia).
    rewrite Hj1, !length_take, !length_drop. unfold zlen. index_cases.
Qed.

(** A buffer read from the start of its object. *)
Lemma contents_at_zero d u s m e :
  0 <= u -> contents (Buffer d 0 u s m e) = take (Z.to_nat u) d.
Proof.
  intros H. unfold contents, cells, rot. simpl. change (Z.to_nat 0) with 0%nat.
  by rewrite take_0, drop_0, app_nil_r.
Qed.

Lemma transfer_wf b nd n e :
  wf_buffer (internal b) -> zlen nd = n -> used b <= n < 2 ^ 32 -> (e = true -> n = maxsize b) ->
  exists nd' b', buffer_transfer b nd n = Done (nd', b') /\
    forall b'', b'' = Buffer nd' (offset b') (used b') (size b') (maxsize b') e ->
    wf_buffer b'' /\ contents b'' = contents b /\ maxsize b'' = maxsize b /\
    used b'' = used b /\ external b'' = e.
Proof.
  intros Hw Hnd Hn He. destruct (transfer_ok b nd n) as (nd' & b' & -> & Hl & -> & Hc); [done..|].
  exists nd'. eexists. split; [done|]. intros b'' ->. simpl.
  pose proof (wf_used _ Hw). pose proof (wf_max _ Hw). simpl in *. split; [|split].
  - constructor; simpl; try done; lia.
  - rewrite contents_at_zero by lia. done.
  - done.
Qed.

(** Shrinking an unwrapped internal buffer to the bytes it needs. *)
Lemma trim_ok al b :
  wf_buffer b -> external b = false -> buffer_wraps b = false -> offset b + used b <> 0 ->
  forall b', b' = Buffer (mem_realloc al (data b) (offset b + used b)) (offset b) (used b)
                    (offset b + used b) (maxsize b) (external b) ->
  wf_buffer b' /\ contents b' = contents b.
Proof.
  intros Hw He Hwr Hne b' ->. unfold buffer_wraps in Hwr. ztests.
  pose proof (length_contents b Hw) as Hlc.
  pose proof (length_realloc al (data b) (offset b + used b)) as Hlr.
  pose proof (lookup_realloc al (data b) (offset b + used b)) as Hrj.
  set (m := mem_realloc _ _ _) in *. clearbody m.
  destruct Hw as [Hl Hu Hs Hm Ho Hemp Hext]. rewrite u32_small in Hwr by lia.
  split; [constructor; simpl; try lia; congruence|]. unfold zlen in *.
  apply list_eq_lookup; [unfold contents, cells; simpl; rewrite !length_take, !length_rot; lia|].
  intros i Hi. unfold contents, cells in Hi. simpl in Hi. rewrite length_take, length_rot in Hi.
  rewrite !contents_lookup. unfold cells. simpl. rewrite !lookup_rot by (unfold zlen; lia).
  unfold zlen. repeat case_decide; rewrite ?Hrj by lia; done || lia.
Qed.

(** Giving the buffer other storage keeps its bytes and sets its bound. *)
Lemma storage_ok al b ext sz :
  wf_buffer b -> 0 <= sz -> a_ok al = true ->
  (forall d, ext = Some d -> external b = false /\ zlen d = sz /\ sz <= UINT32_MAX) ->
  exists b', set_buffer_storage al b ext sz = Done b' /\ wf_buffer b' /\
    contents b' = contents b /\ maxsize b' = Z.min sz UINT32_MAX /\ used b' = used b /\
    external b' = (match ext with Some _ => negb (sz <? used b) | None => false end).
Proof.
  intros Hw H0 Ha Hd. unfold set_buffer_storage.
  assert (Hz : (if UINT32_MAX <? sz then UINT32_MAX else sz) = Z.min sz UINT32_MAX)
    by (zcase; lia).
  rewrite Hz. set (z := Z.min sz UINT32_MAX) in *.
  assert (Hzb : 0 <= z < 2 ^ 32) by (unfold UINT32_MAX in *; lia).
  set (bz := Buffer (data b) (offset b) (used b) (size b) z (external b)).
  assert (Hwi : wf_buffer (internal bz)) by (destruct Hw; constructor; simpl; done).
  assert (Hwz : external b = false -> wf_buffer bz)
    by (intros E; destruct Hw; constructor; simpl; done || congruence).
  pose proof (wf_used _ Hw). pose proof (wf_size _ Hw).
  destruct ext as [d|]; simpl.
  - destruct (Hd d eq_refl) as (He & Hl & Hle). rewrite He.
    assert (Hzs : z = sz) by lia. rewrite Hzs in *. zcase.
    + exists bz. split; [by subst bz; rewrite He|]. split; [auto|]. by repeat split.
    + destruct (transfer_wf bz d sz true) as (nd & b' & -> & H'); simpl; [done|done|lia|done|].
      cbn [obind]. eexists. split; [done|]. rewrite <- ?Hzs. by apply H'.
  - rewrite Ha. simpl. destruct (external b) eqn:He.
    + destruct (used b <=? DEFAULT_SNDBUFSIZE) eqn:Eu; unfold DEFAULT_SNDBUFSIZE in *; ztests; simpl.
      * eexists. split; [done|]. pose proof (wf_empty _ Hw).
        split; [constructor; simpl; try done; lia|]. split; [|done].
        unfold contents. simpl. by replace (used b) with 0 by lia.
      * rewrite (proj2 (Z.eqb_neq (used b) 0)) by lia. simpl.
        destruct (transfer_wf bz (mem_fresh al 0 (used b)) (used b) false)
          as (nd & b' & -> & H'); simpl; [done|zlist|lia|done|].
        cbn [obind]. eexists. split; [done|]. by apply H'.
    + zcase; [exists bz; split; [done|]; split; [auto|by repeat split]|]. unfold DEFAULT_SNDBUFSIZE.
      pose proof (wf_off _ Hw). pose proof (wf_empty _ Hw).
      assert (Hob : offset b + used b <= size b).
      { unfold buffer_wraps in *. simpl in *. rewrite u32_small in *; lia. }
      rewrite u32_small by lia. rewrite Z.max_r by lia. zcase.
      * eexists. split; [done|].
        destruct (trim_ok al bz (Hwz eq_refl) eq_refl E E0 _ eq_refl) as [Hw' Hc'].
        split; [exact Hw'|]. split; [exact Hc'|]. done.
      * eexists. split; [done|]. split; [constructor; simpl; try done; lia|]. split; [|done].
        unfold contents. simpl. by replace (used b) with 0 by lia.
Qed.

(** ** The contract: a bounded byte queue

    [queue] is what a user of the buffer relies on: the stored bytes, the bound
    on their number and whether the storage is the application's. *)

Module Spec.

Record queue := Queue { bytes : list Z; bound : Z; fixed : bool }.

(** The operations a connection performs on its buffers. *)
Inductive op :=
  | Put (dat : list Z)
  | Copy (off len : Z)
  | Discard (len : Z)
  | Clear
  | Store (ext : option (list Z)) (sz : Z)
  | Free.

Definition valid (q : queue) (o : op) : Prop :=
  match o with
  | Put dat => zlen dat < 2 ^ 63
  | Copy off len => 0 <= off /\ 0 <= len
  | Discard len => 0 <= len
  | Store (Some d) sz => fixed q = false /\ zlen d = sz /\ sz <= UINT32_MAX
  | Store None sz => 0 <= sz
  | Clear | Free => True
  end.

(** What the operation returns (a number, or bytes) and the queue after it. *)
Definition step (q : queue) (o : op) : (Z * list Z) * queue :=
  match o with
  | Put dat =>
      let n := Z.min (zlen dat) (Z.max 0 (bound q - zlen (bytes q))) in
      ((n, []), Queue (bytes q ++ take (Z.to_nat n) dat) (bound q) (fixed q))
  | Copy off len =>
      let r := slice (Z.to_nat off) (Z.to_nat len) (bytes q) in ((zlen r, r), q)
  | Discard len =>
      ((Z.min len (zlen (bytes q)), []), Queue (drop (Z.to_nat len) (bytes q)) (bound q) (fixed q))
  | Clear => ((0, []), Queue [] (bound q) (fixed q))
  | Store ext sz =>
      ((0, []), Queue (bytes q) (Z.min sz UINT32_MAX)
         (match ext with Some _ => negb (sz <? zlen (bytes q)) | None => false end))
  | Free => ((Z.max 0 (bound q - zlen (bytes q)), []), q)
  end.

Fixpoint run (q : queue) (ops : list op) : list (Z * list Z) * queue :=
  match ops with
  | [] => ([], q)
  | o :: ops =>
      let (r, q) := step q o in
      let (rs, q) := run q ops in (r :: rs, q)
  end.

Fixpoint all_valid (q : queue) (ops : list op) : Prop :=
  match ops with
  | [] => True
  | o :: ops => valid q o /\ all_valid (step q o).2 ops
  end.

End Spec.

(** The same operations on the ring buffer; the allocator answers are given by
    [al]. *)
Definition buffer_op (al : alloc) (b : buffer) (o : Spec.op) : outcome ((Z * list Z) * buffer) :=
  match o with
  | Spec.Put dat => let* (n, b) := buffer_put al b dat in Done ((n, []), b)
  | Spec.Copy off len => let* r := buffer_copy b off len in Done ((zlen r, r), b)
  | Spec.Discard len => let (n, b) := buffer_discard b len in Done ((n, []), b)
  | Spec.Clear => Done ((0, []), buffer_clear b)
  | Spec.Store ext sz => let* b := set_buffer_storage al b ext sz in Done ((0, []), b)
  | Spec.Free => Done ((buffer_free b, []), b)
  end.

Fixpoint buffer_run (al : alloc) (b : buffer) (ops : list Spec.op)
  : outcome (list (Z * list Z) * buffer) :=
  match ops with
  | [] => Done ([], b)
  | o :: ops =>
      let* (r, b) := buffer_op al b o in
      let* (rs, b) := buffer_run al b ops in Done (r :: rs, b)
  end.

Definition abs (b : buffer) : Spec.queue := Spec.Queue (contents b) (maxsize b) (external b).

Lemma abs_length b : wf_buffer b -> zlen (Spec.bytes (abs b)) = used b.
Proof. apply length_contents. Qed.

(** One operation refines its specification. *)
Lemma buffer_op_refines al b o :
  a_ok al = true -> wf_buffer b -> Spec.valid (abs b) o ->
  returns (buffer_op al b o)
    (fun '(r, b') => wf_buffer b' /\ (r, abs b') = Spec.step (abs b) o).
Proof.
  intros Ha Hw Hv. pose proof (abs_length b Hw) as Hlen.
  pose proof (wf_used _ Hw) as Hu. pose proof (wf_size _ Hw) as Hs.
  pose proof (wf_max _ Hw) as Hm. destruct o as [dat|off len|len| |ext sz|];
    cbn [buffer_op Spec.valid Spec.step abs Spec.bytes Spec.bound Spec.fixed] in *.
  - destruct (put_at_cases al b (used b) dat) as
      [(Hb & Hov & Hp)|[(_ & Hal & _)|(_ & Hb & b' & Hp & Hw' & Hm' & He' & Heff)]];
      [done|lia|lia| |congruence|]; unfold buffer_put; rewrite Hp; simpl; split; auto.
    + pose proof (zlen_nonneg dat). rewrite Hlen, Z.max_l, Z.min_r by lia. simpl. rewrite take_0, app_nil_r. done.
    + rewrite Hlen. unfold abs. rewrite Hm', He'. unfold put_len in *.
      by rewrite <- (put_effect_append b _ b' Hw Hw' Heff).
  - destruct Hv. by rewrite copy_ok.
  - destruct (discard_ok b len) as (b' & -> & Hw' & Hm' & He' & _ & _ & Hc); [done..|].
    simpl. split; [done|]. unfold abs. rewrite Hc, Hm', He', Hlen. done.
  - destruct (clear_ok b Hw) as [Hw' Hc]. split; [done|]. by unfold abs; rewrite Hc.
  - destruct (storage_ok al b ext sz) as (b' & -> & Hw' & Hc & Hm' & Hu' & He'); [done| |done| |].
    { destruct ext; [|done]. destruct Hv as (_ & <- & _). apply zlen_nonneg. }
    { intros d ->. done. }
    simpl. split; [done|]. unfold abs. rewrite Hc, Hm', He', Hlen. done.
  - split; [done|]. rewrite Hlen. unfold buffer_free. zcase; [rewrite u32_small by lia|];
      repeat f_equal; lia.
Qed.

(** C14.  The ring buffer implements a bounded byte queue: any sequence of puts,
    copies, discards, clears, storage changes and free-space queries on a
    well-formed buffer runs to its end without leaving the buffer's object or
    reaching an [assert] or [abort], returns what the queue of its bytes returns,
    and ends in a well-formed buffer that stands for the queue's final state. *)
Theorem buffer_refines_queue al ops : forall b,
  a_ok al = true -> wf_buffer b -> Spec.all_valid (abs b) ops ->
  exists rs b', buffer_run al b ops = Done (rs, b') /\ wf_buffer b' /\
    Spec.run (abs b) ops = (rs, abs b').
Proof.
  induction ops as [|o ops IH]; intros b Ha Hw Hv; simpl in *; [by eauto|].
  destruct Hv as [Hv Hvs].
  pose proof (buffer_op_refines al b o Ha Hw Hv) as Hop.
  apply returns_done in Hop as ([r b1] & -> & Hw1 & Hstep). simpl.
  rewrite <- Hstep in Hvs |- *. simpl in Hvs.
  destruct (IH b1 Ha Hw1 Hvs) as (rs & b' & -> & Hw' & ->). simpl. eauto.
Qed.

Definition test_alloc : alloc := Alloc true (fun _ => 170).

Definition test_ops : list Spec.op :=
  [Spec.Put [1; 2; 3; 4; 5; 6]; Spec.Discard 4; Spec.Store None 8;
   Spec.Put [7; 8; 9; 10; 11; 12; 13]; Spec.Copy 1 5; Spec.Free;
   Spec.Store (Some (replicate 9 0)) 9; Spec.Put [14; 15]; Spec.Copy 0 20].

Lemma buffer_refines_queue_witness :
  exists rs b', buffer_run test_alloc (Buffer [] 0 0 0 6 false) test_ops = Done (rs, b') /\
    wf_buffer b' /\ Spec.run (abs (Buffer [] 0 0 0 6 false)) test_ops = (rs, abs b').
Proof.
  apply (buffer_refines_queue test_alloc test_ops); [done| |].
  - constructor; simpl; try done; lia.
  - vm_compute. repeat split; congruence.
Defined.

(** Out-of-order storage: [buffer_put_at] on a well-formed buffer either
    refuses data that starts at or past the bound, or reports a failed
    allocation and leaves the buffer unchanged, or stores the longest prefix that
    fits the bound: the bytes at [off, off+n) are the new ones, every other byte
    that was stored is kept, and the buffer is well-formed and at most [maxsize]
    or its old length long. *)
Theorem buffer_put_at_spec al b off dat :
  wf_buffer b -> 0 <= off -> off + zlen dat < 2 ^ 64 ->
  (maxsize b <= off /\ maxsize b < off + zlen dat /\
     buffer_put_at al b off dat = Done (0, b)) \/
  (external b = false /\ a_ok al = false /\ buffer_put_at al b off dat = Done (-1, b)) \/
  exists n b', n = Z.min (zlen dat) (Z.max 0 (maxsize b - off)) /\
    buffer_put_at al b off dat = Done (n, b') /\ wf_buffer b' /\
    used b' = Z.max (used b) (off + n) /\ (used b' = used b \/ used b' <= maxsize b) /\
    forall i, off <= Z.of_nat i < off + n \/ Z.of_nat i < used b ->
      contents b' !! i =
      (if decide (off <= Z.of_nat i < off + n)
       then dat !! (i - Z.to_nat off)%nat else contents b !! i).
Proof.
  intros Hw H0 H1. destruct (put_at_cases al b off dat) as
    [?|[?|(_ & Hb & b' & Hp & Hw' & Hm' & He' & Hu & Hc)]]; [done..|auto|auto|].
  right; right. unfold put_len in *. pose proof (zlen_nonneg dat).
  set (n := Z.min _ _) in *. exists n, b'.
  assert (Hn : zlen (take (Z.to_nat n) dat) = n) by zlist. rewrite Hn in Hu, Hc.
  repeat (split; [done || lia|]). intros i Hi. rewrite Hc by done.
  case_decide; [|done]. rewrite lookup_take_lt; [done|lia].
Qed.

Lemma buffer_put_at_spec_witness :
  exists n b', buffer_put_at test_alloc (Buffer [] 0 0 0 16 false) 3 [7; 8] = Done (n, b') /\
    wf_buffer b' /\ used b' = 5 /\ contents b' !! 4%nat = Some 8.
Proof.
  assert (Hw : wf_buffer (Buffer [] 0 0 0 16 false)) by (constructor; simpl; try done; lia).
  destruct (buffer_put_at_spec test_alloc (Buffer [] 0 0 0 16 false) 3 [7; 8] Hw)
    as [(H & _)|[(_ & H & _)|(n & b' & Hn & Hp & Hw' & Hu & _ & Hc)]];
    [done|done|done|discriminate|].
  exists n, b'. split; [done|]. split; [done|]. simpl in Hn, Hu. subst n. split; [done|].
  rewrite Hc; [done|]. left. unfold zlen. simpl. lia.
Defined.
