(* ===== verification/UtcpTypes.v ===== *)
(** Data of UTCP: the structs of src/src/utcp_priv.h and the environment the
    code runs in.

    A [world] is one [struct utcp] with its connections and what the process
    around it shows it: the clock, [rand], the allocator, [errno], and the packets
    handed to the [send] callback so far.  The application's callbacks are fields
    of the class [Env]: arbitrary functions on the whole world, so a callback may
    call back into UTCP on any connection.  A connection pointer is modelled by
    the pair of ports, which is unique among live connections and never changes.

    For every field [f] of a record, [set_f v r] is [r.f = v]. *)
From S2P Require Import Prelude Bytes UtcpBuffer.

(** ** Constants *)

Definition SYN : Z := 1.
Definition ACK : Z := 2.
Definition FIN : Z := 4.
Definition RST : Z := 8.
Definition MF : Z := 16.
Definition AUX_INIT : Z := 1.
Definition NSACKS : Z := 4.
Definition MAX_UNRELIABLE_SIZE : Z := 16777215.
Definition DEFAULT_MTU : Z := 1000.
Definition USEC_PER_SEC : Z := 1000000.
Definition NSEC_PER_SEC : Z := 1000000000.
Definition DEFAULT_USER_TIMEOUT : Z := 60.
Definition START_RTO : Z := 1 * USEC_PER_SEC.
Definition MAX_RTO : Z := 3 * USEC_PER_SEC.

Definition UTCP_SHUT_RD : Z := 0.
Definition UTCP_SHUT_WR : Z := 1.
Definition UTCP_SHUT_RDWR : Z := 2.
Definition UTCP_RELIABLE : Z := 2.
Definition UTCP_NO_PARTIAL : Z := 16.
Definition UTCP_TCP : Z := 3.
Definition UTCP_CHANGEABLE_FLAGS : Z := 24.

(** [errno] values the code sets (Linux numbers). *)
Definition EBADF : Z := 9.
Definition EWOULDBLOCK : Z := 11.
Definition ENOMEM : Z := 12.
Definition EFAULT : Z := 14.
Definition EINVAL : Z := 22.
Definition EPIPE : Z := 32.
Definition EBADMSG : Z := 74.
Definition EMSGSIZE : Z := 90.
Definition EADDRINUSE : Z := 98.
Definition ECONNRESET : Z := 104.
Definition ENOTCONN : Z := 107.
Definition ETIMEDOUT : Z := 110.
Definition ECONNREFUSED : Z := 111.

(** ** [struct timespec] *)

Record timespec := Timespec { tv_sec : Z; tv_nsec : Z }.

Definition set_tv_sec (v : Z) (r : timespec) : timespec := Timespec v (tv_nsec r).

(** ** [struct hdr], as it is on the wire *)

Record hdr := Hdr {
  h_src : Z;
  h_dst : Z;
  h_seq : Z;
  h_ack : Z;
  h_wnd : Z;
  h_ctl : Z;
  h_aux : Z;
}.

Definition set_h_src (v : Z) (r : hdr) : hdr :=
  Hdr v (h_dst r) (h_seq r) (h_ack r) (h_wnd r) (h_ctl r) (h_aux r).
Definition set_h_dst (v : Z) (r : hdr) : hdr :=
  Hdr (h_src r) v (h_seq r) (h_ack r) (h_wnd r) (h_ctl r) (h_aux r).
Definition set_h_seq (v : Z) (r : hdr) : hdr :=
  Hdr (h_src r) (h_dst r) v (h_ack r) (h_wnd r) (h_ctl r) (h_aux r).
Definition set_h_ack (v : Z) (r : hdr) : hdr :=
  Hdr (h_src r) (h_dst r) (h_seq r) v (h_wnd r) (h_ctl r) (h_aux r).
Definition set_h_wnd (v : Z) (r : hdr) : hdr :=
  Hdr (h_src r) (h_dst r) (h_seq r) (h_ack r) v (h_ctl r) (h_aux r).
Definition set_h_ctl (v : Z) (r : hdr) : hdr :=
  Hdr (h_src r) (h_dst r) (h_seq r) (h_ack r) (h_wnd r) v (h_aux r).
Definition set_h_aux (v : Z) (r : hdr) : hdr :=
  Hdr (h_src r) (h_dst r) (h_seq r) (h_ack r) (h_wnd r) (h_ctl r) v.

Definition sizeof_hdr : Z := 20.

Definition hdr_bytes (h : hdr) : list Z :=
  le_bytes 2 (h_src h) ++ le_bytes 2 (h_dst h) ++ le_bytes 4 (h_seq h) ++
  le_bytes 4 (h_ack h) ++ le_bytes 4 (h_wnd h) ++ le_bytes 2 (h_ctl h) ++ le_bytes 2 (h_aux h).

(** [memcpy(&hdr, ptr, sizeof(hdr))]. *)
Definition hdr_of_bytes (l : list Z) : hdr :=
  Hdr (le_val (slice 0 2 l)) (le_val (slice 2 2 l)) (le_val (slice 4 4 l))
    (le_val (slice 8 4 l)) (le_val (slice 12 4 l)) (le_val (slice 16 2 l))
    (le_val (slice 18 2 l)).

(** One call of the [send] callback: the header and the bytes after it. *)
Record packet := Packet { p_hdr : hdr; p_data : list Z }.

Definition packet_bytes (p : packet) : list Z := hdr_bytes (p_hdr p) ++ p_data p.

(** ** [enum state], [struct sack], [struct utcp_connection] *)

Inductive tcp_state : Set :=
  | CLOSED | LISTEN | SYN_SENT | SYN_RECEIVED | ESTABLISHED | FIN_WAIT_1
  | FIN_WAIT_2 | CLOSE_WAIT | CLOSING | LAST_ACK | TIME_WAIT.

#[export] Instance tcp_state_eq_dec : EqDecision tcp_state.
Proof. solve_decision. Defined.

(** The enumerator's value, for the comparison [state >= ESTABLISHED]. *)
Definition state_num (s : tcp_state) : Z :=
  match s with
  | CLOSED => 0 | LISTEN => 1 | SYN_SENT => 2 | SYN_RECEIVED => 3 | ESTABLISHED => 4
  | FIN_WAIT_1 => 5 | FIN_WAIT_2 => 6 | CLOSE_WAIT => 7 | CLOSING => 8 | LAST_ACK => 9
  | TIME_WAIT => 10
  end.

Definition state_eqb (a b : tcp_state) : bool := bool_decide (a = b).

Record sack := Sack { sk_offset : Z; sk_len : Z }.

(** [struct utcp_connection].  [recv] and [poll] are the callback pointers, [None]
    for NULL.  The members the code never reads ([prev_free], [tlast],
    [bandwidth]) are left out. *)
Record utcp_connection := Conn {
  priv : Z;
  flags : Z;
  reapable : bool;
  do_poll : bool;
  recv : option Z;
  poll : option Z;
  src : Z;
  dst : Z;
  state : tcp_state;
  snd_una : Z;
  snd_nxt : Z;
  snd_wnd : Z;
  snd_iss : Z;
  snd_last : Z;
  snd_cwnd : Z;
  snd_ssthresh : Z;
  rcv_nxt : Z;
  rcv_irs : Z;
  dupack : Z;
  conn_timeout : timespec;
  rtrx_timeout : timespec;
  rtt_start : timespec;
  rtt_seq : Z;
  srtt : Z;
  rttvar : Z;
  rto : Z;
  sndbuf : buffer;
  rcvbuf : buffer;
  sacks : list sack;
  nodelay : bool;
  keepalive : bool;
  shut_wr : bool;
}.

Definition set_priv (v : Z) (r : utcp_connection) : utcp_connection :=
  Conn v (flags r) (reapable r) (do_poll r) (recv r) (poll r) (src r) (dst r) (state r)
    (snd_una r) (snd_nxt r) (snd_wnd r) (snd_iss r) (snd_last r) (snd_cwnd r)
    (snd_ssthresh r) (rcv_nxt r) (rcv_irs r) (dupack r) (conn_timeout r) (rtrx_timeout
    r) (rtt_start r) (rtt_seq r) (srtt r) (rttvar r) (rto r) (sndbuf r) (rcvbuf r)
    (sacks r) (nodelay r) (keepalive r) (shut_wr r).
Definition set_flags (v : Z) (r : utcp_connection) : utcp_connection :=
  Conn (priv r) v (reapable r) (do_poll r) (recv r) (poll r) (src r) (dst r) (state r)
    (snd_una r) (snd_nxt r) (snd_wnd r) (snd_iss r) (snd_last r) (snd_cwnd r)
    (snd_ssthresh r) (rcv_nxt r) (rcv_irs r) (dupack r) (conn_timeout r) (rtrx_timeout
    r) (rtt_start r) (rtt_seq r) (srtt r) (rttvar r) (rto r) (sndbuf r) (rcvbuf r)
    (sacks r) (nodelay r) (keepalive r) (shut_wr r).
Definition set_reapable (v : bool) (r : utcp_connection) : utcp_connection :=
  Conn (priv r) (flags r) v (do_poll r) (recv r) (poll r) (src r) (dst r) (state r)
    (snd_una r) (snd_nxt r) (snd_wnd r) (snd_iss r) (snd_last r) (snd_cwnd r)
    (snd_ssthresh r) (rcv_nxt r) (rcv_irs r) (dupack r) (conn_timeout r) (rtrx_timeout
    r) (rtt_start r) (rtt_seq r) (srtt r) (rttvar r) (rto r) (sndbuf r) (rcvbuf r)
    (sacks r) (nodelay r) (keepalive r) (shut_wr r).
Definition set_do_poll (v : bool) (r : utcp_connection) : utcp_connection :=
  Conn (priv r) (flags r) (reapable r) v (recv r) (poll r) (src r) (dst r) (state r)
    (snd_una r) (snd_nxt r) (snd_wnd r) (snd_iss r) (snd_last r) (snd_cwnd r)
    (snd_ssthresh r) (rcv_nxt r) (rcv_irs r) (dupack r) (conn_timeout r) (rtrx_timeout
    r) (rtt_start r) (rtt_seq r) (srtt r) (rttvar r) (rto r) (sndbuf r) (rcvbuf r)
    (sacks r) (nodelay r) (keepalive r) (shut_wr r).
Definition set_recv (v : option Z) (r : utcp_connection) : utcp_connection :=
  Conn (priv r) (flags r) (reapable r) (do_poll r) v (poll r) (src r) (dst r) (state r)
    (snd_una r) (snd_nxt r) (snd_wnd r) (snd_iss r) (snd_last r) (snd_cwnd r)
    (snd_ssthresh r) (rcv_nxt r) (rcv_irs r) (dupack r) (conn_timeout r) (rtrx_timeout
    r) (rtt_start r) (rtt_seq r) (srtt r) (rttvar r) (rto r) (sndbuf r) (rcvbuf r)
    (sacks r) (nodelay r) (keepalive r) (shut_wr r).
Definition set_poll (v : option Z) (r : utcp_connection) : utcp_connection :=
  Conn (priv r) (flags r) (reapable r) (do_poll r) (recv r) v (src r) (dst r) (state r)
    (snd_una r) (snd_nxt r) (snd_wnd r) (snd_iss r) (snd_last r) (snd_cwnd r)
    (snd_ssthresh r) (rcv_nxt r) (rcv_irs r) (dupack r) (conn_timeout r) (rtrx_timeout
    r) (rtt_start r) (rtt_seq r) (srtt r) (rttvar r) (rto r) (sndbuf r) (rcvbuf r)
    (sacks r) (nodelay r) (keepalive r) (shut_wr r).
Definition set_src (v : Z) (r : utcp_connection) : utcp_connection :=
  Conn (priv r) (flags r) (reapable r) (do_poll r) (recv r) (poll r) v (dst r) (state r)
    (snd_una r) (snd_nxt r) (snd_wnd r) (snd_iss r) (snd_last r) (snd_cwnd r)
    (snd_ssthresh r) (rcv_nxt r) (rcv_irs r) (dupack r) (conn_timeout r) (rtrx_timeout
    r) (rtt_start r) (rtt_seq r) (srtt r) (rttvar r) (rto r) (sndbuf r) (rcvbuf r)
    (sacks r) (nodelay r) (keepalive r) (shut_wr r).
Definition set_dst (v : Z) (r : utcp_connection) : utcp_connection :=
  Conn (priv r) (flags r) (reapable r) (do_poll r) (recv r) (poll r) (src r) v (state r)
    (snd_una r) (snd_nxt r) (snd_wnd r) (snd_iss r) (snd_last r) (snd_cwnd r)
    (snd_ssthresh r) (rcv_nxt r) (rcv_irs r) (dupack r) (conn_timeout r) (rtrx_timeout
    r) (rtt_start r) (rtt_seq r) (srtt r) (rttvar r) (rto r) (sndbuf r) (rcvbuf r)
    (sacks r) (nodelay r) (keepalive r) (shut_wr r).
Definition set_state (v : tcp_state) (r : utcp_connection) : utcp_connection :=
  Conn (priv r) (flags r) (reapable r) (do_poll r) (recv r) (poll r) (src r) (dst r) v
    (snd_una r) (snd_nxt r) (snd_wnd r) (snd_iss r) (snd_last r) (snd_cwnd r)
    (snd_ssthresh r) (rcv_nxt r) (rcv_irs r) (dupack r) (conn_timeout r) (rtrx_timeout
    r) (rtt_start r) (rtt_seq r) (srtt r) (rttvar r) (rto r) (sndbuf r) (rcvbuf r)
    (sacks r) (nodelay r) (keepalive r) (shut_wr r).
Definition set_snd_una (v : Z) (r : utcp_connection) : utcp_connection :=
  Conn (priv r) (flags r) (reapable r) (do_poll r) (recv r) (poll r) (src r) (dst r)
    (state r) v (snd_nxt r) (snd_wnd r) (snd_iss r) (snd_last r) (snd_cwnd r)
    (snd_ssthresh r) (rcv_nxt r) (rcv_irs r) (dupack r) (conn_timeout r) (rtrx_timeout
    r) (rtt_start r) (rtt_seq r) (srtt r) (rttvar r) (rto r) (sndbuf r) (rcvbuf r)
    (sacks r) (nodelay r) (keepalive r) (shut_wr r).
Definition set_snd_nxt (v : Z) (r : utcp_connection) : utcp_connection :=
  Conn (priv r) (flags r) (reapable r) (do_poll r) (recv r) (poll r) (src r) (dst r)
    (state r) (snd_una r) v (snd_wnd r) (snd_iss r) (snd_last r) (snd_cwnd r)
    (snd_ssthresh r) (rcv_nxt r) (rcv_irs r) (dupack r) (conn_timeout r) (rtrx_timeout
    r) (rtt_start r) (rtt_seq r) (srtt r) (rttvar r) (rto r) (sndbuf r) (rcvbuf r)
    (sacks r) (nodelay r) (keepalive r) (shut_wr r).
Definition set_snd_wnd (v : Z) (r : utcp_connection) : utcp_connection :=
  Conn (priv r) (flags r) (reapable r) (do_poll r) (recv r) (poll r) (src r) (dst r)
    (state r) (snd_una r) (snd_nxt r) v (snd_iss r) (snd_last r) (snd_cwnd r)
    (snd_ssthresh r) (rcv_nxt r) (rcv_irs r) (dupack r) (conn_timeout r) (rtrx_timeout
    r) (rtt_start r) (rtt_seq r) (srtt r) (rttvar r) (rto r) (sndbuf r) (rcvbuf r)
    (sacks r) (nodelay r) (keepalive r) (shut_wr r).
Definition set_snd_iss (v : Z) (r : utcp_connection) : utcp_connection :=
  Conn (priv r) (flags r) (reapable r) (do_poll r) (recv r) (poll r) (src r) (dst r)
    (state r) (snd_una r) (snd_nxt r) (snd_wnd r) v (snd_last r) (snd_cwnd r)
    (snd_ssthresh r) (rcv_nxt r) (rcv_irs r) (dupack r) (conn_timeout r) (rtrx_timeout
    r) (rtt_start r) (rtt_seq r) (srtt r) (rttvar r) (rto r) (sndbuf r) (rcvbuf r)
    (sacks r) (nodelay r) (keepalive r) (shut_wr r).
Definition set_snd_last (v : Z) (r : utcp_connection) : utcp_connection :=
  Conn (priv r) (flags r) (reapable r) (do_poll r) (recv r) (poll r) (src r) (dst r)
    (state r) (snd_una r) (snd_nxt r) (snd_wnd r) (snd_iss r) v (snd_cwnd r)
    (snd_ssthresh r) (rcv_nxt r) (rcv_irs r) (dupack r) (conn_timeout r) (rtrx_timeout
    r) (rtt_start r) (rtt_seq r) (srtt r) (rttvar r) (rto r) (sndbuf r) (rcvbuf r)
    (sacks r) (nodelay r) (keepalive r) (shut_wr r).
Definition set_snd_cwnd (v : Z) (r : utcp_connection) : utcp_connection :=
  Conn (priv r) (flags r) (reapable r) (do_poll r) (recv r) (poll r) (src r) (dst r)
    (state r) (snd_una r) (snd_nxt r) (snd_wnd r) (snd_iss r) (snd_last r) v
    (snd_ssthresh r) (rcv_nxt r) (rcv_irs r) (dupack r) (conn_timeout r) (rtrx_timeout
    r) (rtt_start r) (rtt_seq r) (srtt r) (rttvar r) (rto r) (sndbuf r) (rcvbuf r)
    (sacks r) (nodelay r) (keepalive r) (shut_wr r).
Definition set_snd_ssthresh (v : Z) (r : utcp_connection) : utcp_connection :=
  Conn (priv r) (flags r) (reapable r) (do_poll r) (recv r) (poll r) (src r) (dst r)
    (state r) (snd_una r) (snd_nxt r) (snd_wnd r) (snd_iss r) (snd_last r) (snd_cwnd r)
    v (rcv_nxt r) (rcv_irs r) (dupack r) (conn_timeout r) (rtrx_timeout r) (rtt_start r)
    (rtt_seq r) (srtt r) (rttvar r) (rto r) (sndbuf r) (rcvbuf r) (sacks r) (nodelay r)
    (keepalive r) (shut_wr r).
Definition set_rcv_nxt (v : Z) (r : utcp_connection) : utcp_connection :=
  Conn (priv r) (flags r) (reapable r) (do_poll r) (recv r) (poll r) (src r) (dst r)
    (state r) (snd_una r) (snd_nxt r) (snd_wnd r) (snd_iss r) (snd_last r) (snd_cwnd r)
    (snd_ssthresh r) v (rcv_irs r) (dupack r) (conn_timeout r) (rtrx_timeout r)
    (rtt_start r) (rtt_seq r) (srtt r) (rttvar r) (rto r) (sndbuf r) (rcvbuf r) (sacks
    r) (nodelay r) (keepalive r) (shut_wr r).
Definition set_rcv_irs (v : Z) (r : utcp_connection) : utcp_connection :=
  Conn (priv r) (flags r) (reapable r) (do_poll r) (recv r) (poll r) (src r) (dst r)
    (state r) (snd_una r) (snd_nxt r) (snd_wnd r) (snd_iss r) (snd_last r) (snd_cwnd r)
    (snd_ssthresh r) (rcv_nxt r) v (dupack r) (conn_timeout r) (rtrx_timeout r)
    (rtt_start r) (rtt_seq r) (srtt r) (rttvar r) (rto r) (sndbuf r) (rcvbuf r) (sacks
    r) (nodelay r) (keepalive r) (shut_wr r).
Definition set_dupack (v : Z) (r : utcp_connection) : utcp_connection :=
  Conn (priv r) (flags r) (reapable r) (do_poll r) (recv r) (poll r) (src r) (dst r)
    (state r) (snd_una r) (snd_nxt r) (snd_wnd r) (snd_iss r) (snd_last r) (snd_cwnd r)
    (snd_ssthresh r) (rcv_nxt r) (rcv_irs r) v (conn_timeout r) (rtrx_timeout r)
    (rtt_start r) (rtt_seq r) (srtt r) (rttvar r) (rto r) (sndbuf r) (rcvbuf r) (sacks
    r) (nodelay r) (keepalive r) (shut_wr r).
Definition set_conn_timeout (v : timespec) (r : utcp_connection) : utcp_connection :=
  Conn (priv r) (flags r) (reapable r) (do_poll r) (recv r) (poll r) (src r) (dst r)
    (state r) (snd_una r) (snd_nxt r) (snd_wnd r) (snd_iss r) (snd_last r) (snd_cwnd r)
    (snd_ssthresh r) (rcv_nxt r) (rcv_irs r) (dupack r) v (rtrx_timeout r) (rtt_start r)
    (rtt_seq r) (srtt r) (rttvar r) (rto r) (sndbuf r) (rcvbuf r) (sacks r) (nodelay r)
    (keepalive r) (shut_wr r).
Definition set_rtrx_timeout (v : timespec) (r : utcp_connection) : utcp_connection :=
  Conn (priv r) (flags r) (reapable r) (do_poll r) (recv r) (poll r) (src r) (dst r)
    (state r) (snd_una r) (snd_nxt r) (snd_wnd r) (snd_iss r) (snd_last r) (snd_cwnd r)
    (snd_ssthresh r) (rcv_nxt r) (rcv_irs r) (dupack r) (conn_timeout r) v (rtt_start r)
    (rtt_seq r) (srtt r) (rttvar r) (rto r) (sndbuf r) (rcvbuf r) (sacks r) (nodelay r)
    (keepalive r) (shut_wr r).
Definition set_rtt_start (v : timespec) (r : utcp_connection) : utcp_connection :=
  Conn (priv r) (flags r) (reapable r) (do_poll r) (recv r) (poll r) (src r) (dst r)
    (state r) (snd_una r) (snd_nxt r) (snd_wnd r) (snd_iss r) (snd_last r) (snd_cwnd r)
    (snd_ssthresh r) (rcv_nxt r) (rcv_irs r) (dupack r) (conn_timeout r) (rtrx_timeout
    r) v (rtt_seq r) (srtt r) (rttvar r) (rto r) (sndbuf r) (rcvbuf r) (sacks r)
    (nodelay r) (keepalive r) (shut_wr r).
Definition set_rtt_seq (v : Z) (r : utcp_connection) : utcp_connection :=
  Conn (priv r) (flags r) (reapable r) (do_poll r) (recv r) (poll r) (src r) (dst r)
    (state r) (snd_una r) (snd_nxt r) (snd_wnd r) (snd_iss r) (snd_last r) (snd_cwnd r)
    (snd_ssthresh r) (rcv_nxt r) (rcv_irs r) (dupack r) (conn_timeout r) (rtrx_timeout
    r) (rtt_start r) v (srtt r) (rttvar r) (rto r) (sndbuf r) (rcvbuf r) (sacks r)
    (nodelay r) (keepalive r) (shut_wr r).
Definition set_srtt (v : Z) (r : utcp_connection) : utcp_connection :=
  Conn (priv r) (flags r) (reapable r) (do_poll r) (recv r) (poll r) (src r) (dst r)
    (state r) (snd_una r) (snd_nxt r) (snd_wnd r) (snd_iss r) (snd_last r) (snd_cwnd r)
    (snd_ssthresh r) (rcv_nxt r) (rcv_irs r) (dupack r) (conn_timeout r) (rtrx_timeout
    r) (rtt_start r) (rtt_seq r) v (rttvar r) (rto r) (sndbuf r) (rcvbuf r) (sacks r)
    (nodelay r) (keepalive r) (shut_wr r).
Definition set_rttvar (v : Z) (r : utcp_connection) : utcp_connection :=
  Conn (priv r) (flags r) (reapable r) (do_poll r) (recv r) (poll r) (src r) (dst r)
    (state r) (snd_una r) (snd_nxt r) (snd_wnd r) (snd_iss r) (snd_last r) (snd_cwnd r)
    (snd_ssthresh r) (rcv_nxt r) (rcv_irs r) (dupack r) (conn_timeout r) (rtrx_timeout
    r) (rtt_start r) (rtt_seq r) (srtt r) v (rto r) (sndbuf r) (rcvbuf r) (sacks r)
    (nodelay r) (keepalive r) (shut_wr r).
Definition set_rto (v : Z) (r : utcp_connection) : utcp_connection :=
  Conn (priv r) (flags r) (reapable r) (do_poll r) (recv r) (poll r) (src r) (dst r)
    (state r) (snd_una r) (snd_nxt r) (snd_wnd r) (snd_iss r) (snd_last r) (snd_cwnd r)
    (snd_ssthresh r) (rcv_nxt r) (rcv_irs r) (dupack r) (conn_timeout r) (rtrx_timeout
    r) (rtt_start r) (rtt_seq r) (srtt r) (rttvar r) v (sndbuf r) (rcvbuf r) (sacks r)
    (nodelay r) (keepalive r) (shut_wr r).
Definition set_sndbuf (v : buffer) (r : utcp_connection) : utcp_connection :=
  Conn (priv r) (flags r) (reapable r) (do_poll r) (recv r) (poll r) (src r) (dst r)
    (state r) (snd_una r) (snd_nxt r) (snd_wnd r) (snd_iss r) (snd_last r) (snd_cwnd r)
    (snd_ssthresh r) (rcv_nxt r) (rcv_irs r) (dupack r) (conn_timeout r) (rtrx_timeout
    r) (rtt_start r) (rtt_seq r) (srtt r) (rttvar r) (rto r) v (rcvbuf r) (sacks r)
    (nodelay r) (keepalive r) (shut_wr r).
Definition set_rcvbuf (v : buffer) (r : utcp_connection) : utcp_connection :=
  Conn (priv r) (flags r) (reapable r) (do_poll r) (recv r) (poll r) (src r) (dst r)
    (state r) (snd_una r) (snd_nxt r) (snd_wnd r) (snd_iss r) (snd_last r) (snd_cwnd r)
    (snd_ssthresh r) (rcv_nxt r) (rcv_irs r) (dupack r) (conn_timeout r) (rtrx_timeout
    r) (rtt_start r) (rtt_seq r) (srtt r) (rttvar r) (rto r) (sndbuf r) v (sacks r)
    (nodelay r) (keepalive r) (shut_wr r).
Definition set_sacks (v : list sack) (r : utcp_connection) : utcp_connection :=
  Conn (priv r) (flags r) (reapable r) (do_poll r) (recv r) (poll r) (src r) (dst r)
    (state r) (snd_una r) (snd_nxt r) (snd_wnd r) (snd_iss r) (snd_last r) (snd_cwnd r)
    (snd_ssthresh r) (rcv_nxt r) (rcv_irs r) (dupack r) (conn_timeout r) (rtrx_timeout
    r) (rtt_start r) (rtt_seq r) (srtt r) (rttvar r) (rto r) (sndbuf r) (rcvbuf r) v
    (nodelay r) (keepalive r) (shut_wr r).
Definition set_nodelay (v : bool) (r : utcp_connection) : utcp_connection :=
  Conn (priv r) (flags r) (reapable r) (do_poll r) (recv r) (poll r) (src r) (dst r)
    (state r) (snd_una r) (snd_nxt r) (snd_wnd r) (snd_iss r) (snd_last r) (snd_cwnd r)
    (snd_ssthresh r) (rcv_nxt r) (rcv_irs r) (dupack r) (conn_timeout r) (rtrx_timeout
    r) (rtt_start r) (rtt_seq r) (srtt r) (rttvar r) (rto r) (sndbuf r) (rcvbuf r)
    (sacks r) v (keepalive r) (shut_wr r).
Definition set_keepalive (v : bool) (r : utcp_connection) : utcp_connection :=
  Conn (priv r) (flags r) (reapable r) (do_poll r) (recv r) (poll r) (src r) (dst r)
    (state r) (snd_una r) (snd_nxt r) (snd_wnd r) (snd_iss r) (snd_last r) (snd_cwnd r)
    (snd_ssthresh r) (rcv_nxt r) (rcv_irs r) (dupack r) (conn_timeout r) (rtrx_timeout
    r) (rtt_start r) (rtt_seq r) (srtt r) (rttvar r) (rto r) (sndbuf r) (rcvbuf r)
    (sacks r) (nodelay r) v (shut_wr r).
Definition set_shut_wr (v : bool) (r : utcp_connection) : utcp_connection :=
  Conn (priv r) (flags r) (reapable r) (do_poll r) (recv r) (poll r) (src r) (dst r)
    (state r) (snd_una r) (snd_nxt r) (snd_wnd r) (snd_iss r) (snd_last r) (snd_cwnd r)
    (snd_ssthresh r) (rcv_nxt r) (rcv_irs r) (dupack r) (conn_timeout r) (rtrx_timeout
    r) (rtt_start r) (rtt_seq r) (srtt r) (rttvar r) (rto r) (sndbuf r) (rcvbuf r)
    (sacks r) (nodelay r) (keepalive r) v.

Definition key : Type := Z * Z.
Definition key_of (c : utcp_connection) : key := (src c, dst c).

Definition sacks_zero : list sack := replicate 4 (Sack 0 0).

(** [calloc(1, sizeof(struct utcp_connection))]. *)
Definition conn_zero : utcp_connection :=
  let t0 := Timespec 0 0 in
  Conn 0 0 false false None None 0 0 CLOSED 0 0 0 0 0 0 0 0 0 0 t0 t0 t0 0 0 0 0
    buffer_zero buffer_zero sacks_zero false false false.

(** ** [struct utcp] and the world *)

(** [struct utcp] without its connections, and the process state UTCP touches:
    [u_pkt] is the data area of the packet buffer, [u_slots] the number of slots
    of the object [connections] points to, [tick] counts the readings taken from
    the environment, [out] the calls of [send] and [dlv] the calls of the [recv]
    callbacks (the connection and the bytes, [None] for the NULL that ends a
    stream), in order. *)
Record shared := Shared {
  u_accept : option Z;
  u_listen : option Z;
  u_retransmit : option Z;
  u_priv : Z;
  u_pkt : list Z;
  u_mtu : Z;
  u_mss : Z;
  u_timeout : Z;
  u_nallocated : Z;
  u_slots : Z;
  errno : Z;
  clock_granularity : Z;
  tick : nat;
  out : list packet;
  dlv : list (key * option (list Z));
}.

Definition set_u_accept (v : option Z) (r : shared) : shared :=
  Shared v (u_listen r) (u_retransmit r) (u_priv r) (u_pkt r) (u_mtu r) (u_mss r)
    (u_timeout r) (u_nallocated r) (u_slots r) (errno r) (clock_granularity r) (tick r)
    (out r) (dlv r).
Definition set_u_listen (v : option Z) (r : shared) : shared :=
  Shared (u_accept r) v (u_retransmit r) (u_priv r) (u_pkt r) (u_mtu r) (u_mss r)
    (u_timeout r) (u_nallocated r) (u_slots r) (errno r) (clock_granularity r) (tick r)
    (out r) (dlv r).
Definition set_u_retransmit (v : option Z) (r : shared) : shared :=
  Shared (u_accept r) (u_listen r) v (u_priv r) (u_pkt r) (u_mtu r) (u_mss r) (u_timeout
    r) (u_nallocated r) (u_slots r) (errno r) (clock_granularity r) (tick r) (out r)
    (dlv r).
Definition set_u_priv (v : Z) (r : shared) : shared :=
  Shared (u_accept r) (u_listen r) (u_retransmit r) v (u_pkt r) (u_mtu r) (u_mss r)
    (u_timeout r) (u_nallocated r) (u_slots r) (errno r) (clock_granularity r) (tick r)
    (out r) (dlv r).
Definition set_u_pkt (v : list Z) (r : shared) : shared :=
  Shared (u_accept r) (u_listen r) (u_retransmit r) (u_priv r) v (u_mtu r) (u_mss r)
    (u_timeout r) (u_nallocated r) (u_slots r) (errno r) (clock_granularity r) (tick r)
    (out r) (dlv r).
Definition set_u_mtu (v : Z) (r : shared) : shared :=
  Shared (u_accept r) (u_listen r) (u_retransmit r) (u_priv r) (u_pkt r) v (u_mss r)
    (u_timeout r) (u_nallocated r) (u_slots r) (errno r) (clock_granularity r) (tick r)
    (out r) (dlv r).
Definition set_u_mss (v : Z) (r : shared) : shared :=
  Shared (u_accept r) (u_listen r) (u_retransmit r) (u_priv r) (u_pkt r) (u_mtu r) v
    (u_timeout r) (u_nallocated r) (u_slots r) (errno r) (clock_granularity r) (tick r)
    (out r) (dlv r).
Definition set_u_timeout (v : Z) (r : shared) : shared :=
  Shared (u_accept r) (u_listen r) (u_retransmit r) (u_priv r) (u_pkt r) (u_mtu r)
    (u_mss r) v (u_nallocated r) (u_slots r) (errno r) (clock_granularity r) (tick r)
    (out r) (dlv r).
Definition set_u_nallocated (v : Z) (r : shared) : shared :=
  Shared (u_accept r) (u_listen r) (u_retransmit r) (u_priv r) (u_pkt r) (u_mtu r)
    (u_mss r) (u_timeout r) v (u_slots r) (errno r) (clock_granularity r) (tick r) (out
    r) (dlv r).
Definition set_u_slots (v : Z) (r : shared) : shared :=
  Shared (u_accept r) (u_listen r) (u_retransmit r) (u_priv r) (u_pkt r) (u_mtu r)
    (u_mss r) (u_timeout r) (u_nallocated r) v (errno r) (clock_granularity r) (tick r)
    (out r) (dlv r).
Definition set_errno (v : Z) (r : shared) : shared :=
  Shared (u_accept r) (u_listen r) (u_retransmit r) (u_priv r) (u_pkt r) (u_mtu r)
    (u_mss r) (u_timeout r) (u_nallocated r) (u_slots r) v (clock_granularity r) (tick
    r) (out r) (dlv r).
Definition set_clock_granularity (v : Z) (r : shared) : shared :=
  Shared (u_accept r) (u_listen r) (u_retransmit r) (u_priv r) (u_pkt r) (u_mtu r)
    (u_mss r) (u_timeout r) (u_nallocated r) (u_slots r) (errno r) v (tick r) (out r)
    (dlv r).
Definition set_tick (v : nat) (r : shared) : shared :=
  Shared (u_accept r) (u_listen r) (u_retransmit r) (u_priv r) (u_pkt r) (u_mtu r)
    (u_mss r) (u_timeout r) (u_nallocated r) (u_slots r) (errno r) (clock_granularity r)
    v (out r) (dlv r).
Definition set_out (v : list packet) (r : shared) : shared :=
  Shared (u_accept r) (u_listen r) (u_retransmit r) (u_priv r) (u_pkt r) (u_mtu r)
    (u_mss r) (u_timeout r) (u_nallocated r) (u_slots r) (errno r) (clock_granularity r)
    (tick r) v (dlv r).
Definition set_dlv (v : list (key * option (list Z))) (r : shared) : shared :=
  Shared (u_accept r) (u_listen r) (u_retransmit r) (u_priv r) (u_pkt r) (u_mtu r)
    (u_mss r) (u_timeout r) (u_nallocated r) (u_slots r) (errno r) (clock_granularity r)
    (tick r) (out r) v.

Record world := World {
  sh : shared;
  conns : list utcp_connection;
}.

Definition set_sh (v : shared) (r : world) : world :=
  World v (conns r).
Definition set_conns (v : list utcp_connection) (r : world) : world :=
  World (sh r) v.

(** ** The environment

    [clock], [rand] and [allocs] answer the reading with the given number;
    [on_*] are the application's callbacks, by the handle the code stores. *)
Class Env := {
  clock : nat -> timespec;
  rand : nat -> Z;
  allocs : nat -> alloc;
  on_recv : Z -> key -> option (list Z) -> world -> Z * world;
  on_poll : Z -> key -> Z -> world -> world;
  on_accept : Z -> key -> Z -> world -> world;
  on_listen : Z -> Z -> world -> bool * world;
  on_retransmit : Z -> key -> world -> world;
}.

Definition clock_gettime `{Env} (s : shared) : timespec * shared :=
  (clock (tick s), set_tick (S (tick s)) s).

Definition rand_ `{Env} (s : shared) : Z * shared :=
  (rand (tick s), set_tick (S (tick s)) s).

Definition next_alloc `{Env} (s : shared) : alloc * shared :=
  (allocs (tick s), set_tick (S (tick s)) s).

Definition send_ (p : packet) (s : shared) : shared := set_out (out s ++ [p]) s.

(** [c->recv(c, data, len)]. *)
Definition app_recv `{Env} (cb : Z) (k : key) (d : option (list Z)) (w : world) : Z * world :=
  on_recv cb k d (set_sh (set_dlv (dlv (sh w) ++ [(k, d)]) (sh w)) w).
