(* ===== verification/UtcpTimer.v ===== *)
(** Time, round-trip estimation and the retransmission timer of UTCP
    (src/src/utcp.c: [timespec_*], [set_state], [update_rtt],
    [start_retransmit_timer], [stop_retransmit_timer]), and the small helpers on a
    connection's sequence numbers ([seqdiff], [fin_wanted], [is_reliable]). *)
From S2P Require Import Prelude UtcpBuffer UtcpTypes.

Definition timespec_sub (a b : timespec) : timespec :=
  let r := Timespec (tv_sec a - tv_sec b) (tv_nsec a - tv_nsec b) in
  if tv_nsec r <? 0 then Timespec (tv_sec r - 1) (tv_nsec r + NSEC_PER_SEC) else r.

Definition timespec_diff_usec (a b : timespec) : Z :=
  s32 ((tv_sec a - tv_sec b) * 1000000 + Z.quot (tv_nsec a - tv_nsec b) 1000).

Definition timespec_lt (a b : timespec) : bool :=
  if tv_sec a =? tv_sec b then tv_nsec a <? tv_nsec b else tv_sec a <? tv_sec b.

Definition timespec_clear : timespec := Timespec 0 0.

Definition timespec_isset (a : timespec) : bool := negb (tv_sec a =? 0).

Definition set_state_ (st : tcp_state) (c : utcp_connection) : utcp_connection :=
  let c := set_state st c in
  if state_eqb st ESTABLISHED then set_conn_timeout timespec_clear c else c.

Definition fin_wanted (c : utcp_connection) (seq : Z) : bool :=
  if negb (seq =? snd_last c) then false
  else match state c with FIN_WAIT_1 | CLOSING | LAST_ACK => true | _ => false end.

Definition is_reliable (c : utcp_connection) : bool := bitset (flags c) UTCP_RELIABLE.

Definition seqdiff (a b : Z) : Z := s32 (a - b).

Definition absdiff (a b : Z) : Z := if b <? a then u32 (a - b) else u32 (b - a).

Definition update_rtt (s : shared) (rtt : Z) (c : utcp_connection) : utcp_connection :=
  if rtt =? 0 then c
  else
    let c :=
      if srtt c =? 0 then c |> set_srtt rtt |> set_rttvar (rtt / 2)
      else
        let rv := u32 (u32 (rttvar c * 3) + absdiff (srtt c) rtt) / 4 in
        let sr := u32 (u32 (srtt c * 7) + rtt) / 8 in
        c |> set_rttvar rv |> set_srtt sr in
    let c := set_rto (u32 (srtt c + Z.max (u32 (4 * rttvar c)) (u64 (clock_granularity s)))) c in
    if MAX_RTO <? rto c then set_rto MAX_RTO c else c.

(** [while(rto > USEC_PER_SEC)]: whole seconds are moved to [tv_sec]. *)
Fixpoint carry_seconds (fuel : nat) (t : timespec) (r : Z) : outcome (timespec * Z) :=
  if USEC_PER_SEC <? r then
    match fuel with
    | O => Stop OutOfFuel
    | S fuel => carry_seconds fuel (set_tv_sec (tv_sec t + 1) t) (u32 (r - USEC_PER_SEC))
    end
  else Done (t, r).

Definition start_retransmit_timer `{Env} (c : utcp_connection) (s : shared)
  : outcome (utcp_connection * shared) :=
  let (now, s) := clock_gettime s in
  let* (t, r) := carry_seconds 4295 now (rto c) in
  let t := Timespec (tv_sec t) (tv_nsec t + u32 (r * 1000)) in
  let t := if NSEC_PER_SEC <=? tv_nsec t
           then Timespec (tv_sec t + 1) (tv_nsec t - NSEC_PER_SEC) else t in
  Done (set_rtrx_timeout t c, s).

Definition stop_retransmit_timer (c : utcp_connection) : utcp_connection :=
  set_rtrx_timeout timespec_clear c.

(** [clock_gettime(&c->conn_timeout); c->conn_timeout.tv_sec += utcp->timeout]. *)
Definition arm_conn_timeout `{Env} (c : utcp_connection) (s : shared)
  : utcp_connection * shared :=
  let (now, s) := clock_gettime s in
  (set_conn_timeout (set_tv_sec (tv_sec now + u_timeout s) now) c, s).

(** ** Sequence numbers *)

Lemma seqdiff_of a b n : a = u32 (b + n) -> - 2 ^ 31 <= n < 2 ^ 31 -> seqdiff a b = n.
Proof.
  intros -> Hn. unfold seqdiff. pose proof (Z.div_mod (b + n) (2 ^ 32)) as Hd. unfold u32.
  apply (s32_unique _ _ (- ((b + n) / 2 ^ 32))); lia.
Qed.

(** Sequence numbers compare in a window: when [a] is [n] after [b] on the
    32-bit circle and [n] fits [int32_t], [seqdiff a b] is [n], whether or not the
    numbers wrapped in between. *)
Theorem seqdiff_window a b n :
  a = u32 (b + n) -> - 2 ^ 31 <= n < 2 ^ 31 -> seqdiff a b = n.
Proof.
  apply seqdiff_of.
Qed.

Lemma seqdiff_window_witness : seqdiff 5 4294967290 = 11.
Proof. apply (seqdiff_window 5 4294967290 11); [reflexivity | lia]. Defined.

Lemma seqdiff_range a b : - 2 ^ 31 <= seqdiff a b < 2 ^ 31.
Proof. apply s32_range. Qed.

(** The number reached by adding a difference is the original one. *)
Lemma seqdiff_add a b : 0 <= a < 2 ^ 32 -> u32 (b + seqdiff a b) = a.
Proof.
  intros Ha. unfold seqdiff. rewrite <- u32_add_r, u32_s32, u32_add_r.
  replace (b + (a - b)) with a by lia. by apply u32_small.
Qed.

Lemma seqdiff_same a : seqdiff a a = 0.
Proof. unfold seqdiff. by rewrite Z.sub_diag. Qed.

(** Advancing the left number by [k] adds [k] to the difference. *)
Lemma seqdiff_advance a b k :
  - 2 ^ 31 <= seqdiff a b + k < 2 ^ 31 -> seqdiff (u32 (a + k)) b = seqdiff a b + k.
Proof.
  intros H. apply seqdiff_of; [|done].
  rewrite Z.add_assoc, <- (u32_add_l (b + _)). unfold seqdiff.
  rewrite <- (u32_add_r b), u32_s32, u32_add_r. rewrite u32_add_l. f_equal. lia.
Qed.

(** Differences add up when all of them fit. *)
Lemma seqdiff_trans a b c :
  - 2 ^ 31 <= seqdiff a b + seqdiff b c < 2 ^ 31 -> seqdiff a c = seqdiff a b + seqdiff b c.
Proof.
  intros H. unfold seqdiff in *. 
  assert (Hs : forall x, exists k, s32 x = x + k * 2 ^ 32).
  { intros x. exists (- ((x + 2 ^ 31) / 2 ^ 32)). unfold s32.
    pose proof (Z.div_mod (x + 2 ^ 31) (2 ^ 32)). lia. }
  destruct (Hs (a - b)) as [k1 E1], (Hs (b - c)) as [k2 E2].
  apply (s32_unique _ _ (- (k1 + k2))); lia.
Qed.

(** ** The retransmission timer *)

Definition to_nsec (t : timespec) : Z := tv_sec t * NSEC_PER_SEC + tv_nsec t.

Definition normal (t : timespec) : Prop := 0 <= tv_nsec t < NSEC_PER_SEC.

Lemma carry_ok fuel : forall t r,
  0 <= r < 2 ^ 32 -> r <= (Z.of_nat fuel + 1) * USEC_PER_SEC ->
  exists t' r', carry_seconds fuel t r = Done (t', r') /\
    0 <= r' <= USEC_PER_SEC /\ tv_nsec t' = tv_nsec t /\
    tv_sec t' * USEC_PER_SEC + r' = tv_sec t * USEC_PER_SEC + r.
Proof.
  unfold USEC_PER_SEC.
  induction fuel as [|fuel IH]; intros t r Hr Hf; cbn [carry_seconds]; unfold USEC_PER_SEC; zcase;
    try (exists t, r; repeat split; lia).
  rewrite u32_small by lia.
  destruct (IH (set_tv_sec (tv_sec t + 1) t) (r - 1000000)) as (t' & r' & -> & Hr' & Hn & Hs); [lia..|].
  exists t', r'. simpl in *. repeat split; lia.
Qed.

(** The retransmission timer always starts, and it is set to exactly [rto]
    microseconds after the clock reading, with its nanoseconds normalised. *)
Theorem start_retransmit_timer_exact `{Env} c s :
  0 <= rto c < 2 ^ 32 -> normal (clock (tick s)) ->
  exists t, start_retransmit_timer c s = Done (set_rtrx_timeout t c, set_tick (S (tick s)) s) /\
    normal t /\ to_nsec t = to_nsec (clock (tick s)) + rto c * 1000.
Proof.
  intros Hr Hn. unfold start_retransmit_timer, clock_gettime.
  destruct (carry_ok 4295 (clock (tick s)) (rto c)) as (t & r & -> & Hr' & Hns & Hs);
    [done | unfold USEC_PER_SEC; lia |]. cbn [obind].
  unfold normal, to_nsec, USEC_PER_SEC, NSEC_PER_SEC in *. rewrite u32_small by lia.
  cbn [tv_sec tv_nsec]. zcase; eexists; (split; [done|]); simpl; lia.
Qed.

Definition test_env : Env := {|
  clock n := Timespec (100 + Z.of_nat n) 999999999;
  rand n := 12345 + Z.of_nat n;
  allocs _ := test_alloc;
  on_recv _ _ d w := (match d with Some d => zlen d | None => 0 end, w);
  on_poll _ _ _ w := w;
  on_accept _ _ _ w := w;
  on_listen _ _ w := (true, w);
  on_retransmit _ _ w := w;
|}.

Definition test_shared : shared :=
  Shared (Some 1) (Some 1) None 0 (replicate 1000 0) 1000 980 60 0 0 0 1000 0 [] [].

Lemma start_retransmit_timer_exact_witness :
  exists t, @start_retransmit_timer test_env (set_rto 2500000 conn_zero) test_shared =
    Done (set_rtrx_timeout t (set_rto 2500000 conn_zero), set_tick 1 test_shared) /\
    normal t /\ to_nsec t = 100 * NSEC_PER_SEC + 999999999 + 2500000000.
Proof.
  destruct (@start_retransmit_timer_exact test_env (set_rto 2500000 conn_zero) test_shared)
    as (t & H1 & H2 & H3).
  - simpl. lia.
  - unfold normal, NSEC_PER_SEC. simpl. lia.
  - exists t. split; [exact H1|]. split; [exact H2|]. rewrite H3. reflexivity.
Defined.

(** ** Round-trip estimation (RFC 6298) *)

(** The estimator over unbounded integers. *)
Definition rfc6298 (g rtt : Z) (sr rv : Z) : Z * Z * Z :=
  let '(sr, rv) :=
    if sr =? 0 then (rtt, rtt / 2)
    else ((7 * sr + rtt) / 8, (3 * rv + Z.abs (sr - rtt)) / 4) in
  (sr, rv, Z.min MAX_RTO (sr + Z.max (4 * rv) g)).

(** C15.  While samples and estimates stay below 2^29 microseconds, [update_rtt]
    computes the RFC 6298 estimator without overflow, the estimates stay below
    that bound, and the resulting timeout is at most [MAX_RTO]. *)
Theorem update_rtt_rfc6298 s rtt0 c :
  0 < rtt0 < 2 ^ 29 -> 0 <= srtt c < 2 ^ 29 -> 0 <= rttvar c < 2 ^ 29 ->
  0 <= clock_granularity s < 2 ^ 29 ->
  let c' := update_rtt s rtt0 c in
  (srtt c', rttvar c', rto c') = rfc6298 (clock_granularity s) rtt0 (srtt c) (rttvar c) /\
  0 <= srtt c' < 2 ^ 29 /\ 0 <= rttvar c' < 2 ^ 29 /\ 0 <= rto c' <= MAX_RTO.
Proof.
  intros Hr Hs Hv Hg c'. subst c'. unfold update_rtt, rfc6298.
  rewrite (proj2 (Z.eqb_neq rtt0 0)) by lia. rewrite (u64_small (clock_granularity s)) by lia.
  set (G := clock_granularity s) in *. clearbody G.
  assert (Ha : absdiff (srtt c) rtt0 = Z.abs (srtt c - rtt0)).
  { unfold absdiff. zcase; rewrite u32_small; lia. }
  rewrite Ha, (u32_small (rttvar c * 3)), (u32_small (srtt c * 7)) by lia.
  rewrite (u32_small (rttvar c * 3 + _)), (u32_small (srtt c * 7 + _)) by lia.
  replace (rttvar c * 3) with (3 * rttvar c) by lia. replace (srtt c * 7) with (7 * srtt c) by lia.
  assert (Hfin : forall sr rv, 0 <= sr < 2 ^ 29 -> 0 <= rv < 2 ^ 29 ->
    forall c0, srtt c0 = sr -> rttvar c0 = rv ->
    let c1 := set_rto (u32 (srtt c0 + Z.max (u32 (4 * rttvar c0)) G)) c0 in
    let c2 := if MAX_RTO <? rto c1 then set_rto MAX_RTO c1 else c1 in
    (srtt c2, rttvar c2, rto c2) = (sr, rv, Z.min MAX_RTO (sr + Z.max (4 * rv) G)) /\
    0 <= srtt c2 < 2 ^ 29 /\ 0 <= rttvar c2 < 2 ^ 29 /\ 0 <= rto c2 <= MAX_RTO).
  { intros sr rv H1 H2 c0 E1 E2. rewrite E1, E2, (u32_small (4 * rv)) by lia.
    rewrite u32_small by lia. unfold MAX_RTO, USEC_PER_SEC. simpl. zcase; simpl;
      rewrite E1, E2; (split; [repeat f_equal|]); lia. }
  destruct (srtt c =? 0).
  - apply Hfin; simpl; try done; [lia|]. split; [apply Z.div_pos|apply Z.div_lt_upper_bound]; lia.
  - apply Hfin; simpl; try done; (split; [apply Z.div_pos|apply Z.div_lt_upper_bound]; lia).
Qed.

Lemma update_rtt_rfc6298_witness :
  let c := conn_zero |> set_srtt 80000 |> set_rttvar 10000 in
  let c' := update_rtt test_shared 120000 c in
  (srtt c', rttvar c', rto c') = rfc6298 1000 120000 80000 10000 /\
  0 <= srtt c' < 2 ^ 29 /\ 0 <= rttvar c' < 2 ^ 29 /\ 0 <= rto c' <= MAX_RTO.
Proof.
  apply (update_rtt_rfc6298 test_shared 120000 (conn_zero |> set_srtt 80000 |> set_rttvar 10000));
    simpl; lia.
Defined.
