(* ===== verification/UtcpTable.v ===== *)
(** The connection table of UTCP (src/src/utcp.c: [compare], [find_connection],
    [free_connection], [allocate_connection]).

    The array of pointers [connections] is the list of the connections it points
    to, in array order; [u_nallocated] is the code's idea of its capacity and
    [u_slots] the capacity the object really has.  [bsearch] and [qsort] are the C
    library's: a binary search and a stable sort by [compare]. *)
From stdpp Require Import sorting.
From S2P Require Import Prelude UtcpBuffer UtcpTypes UtcpTimer.

Definition compare (a b : key) : Z :=
  let c := a.1 - b.1 in
  if negb (c =? 0) then c else a.2 - b.2.

(** [bsearch] over the indices [lo, hi). *)
Fixpoint bsearch (fuel : nat) (k : key) (cs : list utcp_connection) (lo hi : nat) : option nat :=
  match fuel with
  | O => None
  | S fuel =>
      if (lo <? hi)%nat then
        let mid := ((lo + hi) / 2)%nat in
        match cs !! mid with
        | None => None
        | Some c =>
            let r := compare k (key_of c) in
            if r <? 0 then bsearch fuel k cs lo mid
            else if 0 <? r then bsearch fuel k cs (S mid) hi
            else Some mid
        end
      else None
  end.

Definition bsearch_all (k : key) (cs : list utcp_connection) : option nat :=
  bsearch (S (length cs)) k cs 0 (length cs).

Definition find_connection (cs : list utcp_connection) (s d : Z) : option utcp_connection :=
  if (length cs =? 0)%nat then None
  else match bsearch_all (s, d) cs with Some i => cs !! i | None => None end.

Fixpoint sort_insert (c : utcp_connection) (cs : list utcp_connection) : list utcp_connection :=
  match cs with
  | [] => [c]
  | x :: cs' =>
      if compare (key_of c) (key_of x) <=? 0 then c :: x :: cs' else x :: sort_insert c cs'
  end.

Definition qsort (cs : list utcp_connection) : list utcp_connection := foldr sort_insert [] cs.

(** Remove the connection from the array; its buffers and itself are freed. *)
Definition free_connection (k : key) (w : world) : outcome world :=
  match bsearch_all k (conns w) with
  | None => Stop AssertFailed
  | Some i => Done (set_conns (take i (conns w) ++ drop (S i) (conns w)) w)
  end.

(** [while(find_connection(utcp, src, dst)) src++]. *)
Fixpoint next_free_port (fuel : nat) (cs : list utcp_connection) (s d : Z) : outcome Z :=
  match find_connection cs s d with
  | None => Done s
  | Some _ => match fuel with O => Stop OutOfFuel | S fuel => next_free_port fuel cs (u16 (s + 1)) d end
  end.

(** The members [allocate_connection] fills in, with [iss] the random number. *)
Definition fill_connection (s : shared) (sp dp iss : Z) (sb rb : buffer) : utcp_connection :=
  let mss := u_mss s in
  conn_zero
  |> set_sndbuf sb |> set_rcvbuf rb
  |> set_src sp |> set_dst dp
  |> set_snd_iss iss |> set_snd_una iss
  |> set_snd_nxt (u32 (iss + 1)) |> set_snd_last (u32 (iss + 1))
  |> set_snd_cwnd (u32 ((if 2190 <? mss then 2 else if 1095 <? mss then 3 else 4) * mss))
  |> set_snd_ssthresh UINT32_MAX
  |> set_srtt 0 |> set_rttvar 0 |> set_rto START_RTO.

(** The first part of [allocate_connection]: the source port to use, or the
    error. *)
Definition choose_port `{Env} (sp dp : Z) (w : world) : outcome ((Z + Z) * shared) :=
  if negb (sp =? 0) then
    Done (match find_connection (conns w) sp dp with Some _ => inl EADDRINUSE | None => inr sp end,
          sh w)
  else if 32767 <=? zlen (conns w) then Done (inl ENOMEM, sh w)
  else
    let (r, s) := rand_ (sh w) in
    let* p := next_free_port (S (length (conns w))) (conns w) (u16 (Z.lor r 32768)) dp in
    Done (inr p, s).

(** Make room for one more pointer in the array. *)
Definition grow_table `{Env} (n : Z) (s : shared) : bool * shared :=
  if u_nallocated s <=? n then
    let s := set_u_nallocated (if u_nallocated s =? 0 then 4 else u_nallocated s * 2) s in
    let (al, s) := next_alloc s in
    if a_ok al then (true, set_u_slots (u_nallocated s) s) else (false, s)
  else (true, s).

(** The rest: allocate the connection, fill it in and add it to the sorted list. *)
Definition add_connection `{Env} (sp dp : Z) (s : shared) (w : world)
  : outcome (option key * world) :=
  let n := zlen (conns w) in
  let '(ok, s) := grow_table n s in
  if negb ok then Done (None, set_sh s w)
  else
    let (al, s) := next_alloc s in
    if negb (a_ok al) then Done (None, set_sh s w)
    else
      let* (ok1, sb) := buffer_set_size al buffer_zero DEFAULT_SNDBUFSIZE DEFAULT_MAXSNDBUFSIZE in
      if negb ok1 then Done (None, set_sh s w)
      else
        let* (ok2, rb) := buffer_set_size al buffer_zero DEFAULT_RCVBUFSIZE DEFAULT_MAXRCVBUFSIZE in
        if negb ok2 then Done (None, set_sh s w)
        else
          let (r, s) := rand_ s in
          let c := fill_connection s sp dp (u32 r) sb rb in
          if u_slots s <=? n then Stop OutOfBounds
          else Done (Some (key_of c), w |> set_sh s |> set_conns (qsort (conns w ++ [c]))).

Definition allocate_connection `{Env} (sp dp : Z) (w : world)
  : outcome (option key * world) :=
  let* (found, s) := choose_port sp dp w in
  match found with
  | inl e => Done (None, set_sh (set_errno e s) w)
  | inr sp => add_connection sp dp s w
  end.

(** Following a connection pointer, and storing through it. *)
Fixpoint conn_at (k : key) (cs : list utcp_connection) : option utcp_connection :=
  match cs with
  | [] => None
  | c :: cs => if bool_decide (key_of c = k) then Some c else conn_at k cs
  end.

Definition put_conn (c : utcp_connection) (cs : list utcp_connection) : list utcp_connection :=
  (fun x => if bool_decide (key_of x = key_of c) then c else x) <$> cs.

(** ** The table is a strictly sorted array *)

Definition klt (a b : key) : Prop := a.1 < b.1 \/ a.1 = b.1 /\ a.2 < b.2.

Definition sorted (cs : list utcp_connection) : Prop :=
  StronglySorted (fun a b => klt (key_of a) (key_of b)) cs.

Lemma compare_lt a b : compare a b < 0 <-> klt a b.
Proof. unfold compare, klt. zcase; lia. Qed.

Lemma compare_eq a b : compare a b = 0 <-> a = b.
Proof.
  unfold compare. destruct a, b. simpl. zcase; split; intros H;
    try (injection H; lia); try (f_equal; lia); lia.
Qed.

Lemma compare_gt a b : 0 < compare a b <-> klt b a.
Proof. unfold compare, klt. zcase; lia. Qed.

Lemma klt_irrefl a : ~ klt a a.
Proof. unfold klt. lia. Qed.

Lemma klt_trans a b c : klt a b -> klt b c -> klt a c.
Proof. unfold klt. lia. Qed.

Lemma klt_total a b : klt a b \/ a = b \/ klt b a.
Proof.
  destruct (Z.lt_total (compare a b) 0) as [H|[H|H]].
  - left. by apply compare_lt.
  - right; left. by apply compare_eq.
  - right; right. by apply compare_gt.
Qed.

Lemma sorted_lookup cs i j a b :
  sorted cs -> (i < j)%nat -> cs !! i = Some a -> cs !! j = Some b -> klt (key_of a) (key_of b).
Proof.
  intros Hs Hij Ha Hb. unfold sorted in Hs.
  revert i j Hij Ha Hb. induction Hs as [|c cs _ IH Hf]; intros i j Hij Ha Hb; [done|].
  destruct j as [|j]; [lia|]. destruct i as [|i]; simpl in *.
  - injection Ha as ->. rewrite Forall_forall in Hf. apply Hf. by eapply list_elem_of_lookup_2.
  - apply (IH i j); [lia | done | done].
Qed.

Lemma sorted_inj cs i j a b :
  sorted cs -> cs !! i = Some a -> cs !! j = Some b -> key_of a = key_of b -> i = j.
Proof.
  intros Hs Ha Hb Hk. destruct (lt_eq_lt_dec i j) as [[H| ->]|H]; [|done|];
    exfalso; apply (klt_irrefl (key_of a)).
  - rewrite Hk at 2. by eapply sorted_lookup.
  - rewrite Hk at 1. by eapply sorted_lookup.
Qed.

Lemma conn_at_lookup k cs c : conn_at k cs = Some c -> exists i, cs !! i = Some c /\ key_of c = k.
Proof.
  induction cs as [|x cs IH]; simpl; [done|]. case_bool_decide.
  - intros [= <-]. by exists 0%nat.
  - intros (i & ? & ?)%IH. by exists (S i).
Qed.

Lemma conn_at_sorted cs i c : sorted cs -> cs !! i = Some c -> conn_at (key_of c) cs = Some c.
Proof.
  intros Hs Hi. destruct (conn_at (key_of c) cs) as [c'|] eqn:E.
  - apply conn_at_lookup in E as (j & Hj & Hk).
    assert (j = i) as -> by by eapply sorted_inj. congruence.
  - exfalso. revert i Hi. clear Hs. induction cs as [|x cs IH]; intros i Hi; simpl in *; [done|].
    case_bool_decide; [done|]. destruct i; simpl in *; [congruence|]. by eapply IH.
Qed.

Lemma conn_at_key k cs c : conn_at k cs = Some c -> key_of c = k.
Proof. by intros (? & ? & ?)%conn_at_lookup. Qed.

(** Binary search finds the index of the key whenever it is in range. *)
Lemma bsearch_complete fuel : forall k cs lo hi i c,
  sorted cs -> cs !! i = Some c -> key_of c = k -> (lo <= i < hi)%nat ->
  (hi <= length cs)%nat -> (hi - lo < fuel)%nat -> bsearch fuel k cs lo hi = Some i.
Proof.
  induction fuel as [|fuel IH]; intros k cs lo hi i c Hs Hi Hk Hr Hh Hf; [lia|]. simpl.
  rewrite (proj2 (Nat.ltb_lt lo hi)) by lia.
  assert (Hm : (lo <= (lo + hi) / 2 < hi)%nat).
  { split; [apply Nat.div_le_lower_bound; lia | apply Nat.Div0.div_lt_upper_bound; lia]. }
  change (fst (Nat.divmod (lo + hi) 1 0 1)) with ((lo + hi) / 2)%nat.
  set (mid := ((lo + hi) / 2)%nat) in *. clearbody mid.
  destruct (lookup_lt_is_Some_2 cs mid) as [m Hmid]; [lia|]. rewrite Hmid.
  destruct (lt_eq_lt_dec i mid) as [[H| ->]|H].
  - assert (Hlt : klt k (key_of m)) by (subst k; by eapply sorted_lookup).
    apply compare_lt in Hlt. rewrite (proj2 (Z.ltb_lt _ _)) by done. eapply IH; eauto; lia.
  - replace m with c in * by congruence. rewrite (proj2 (compare_eq k (key_of c))) by done. done.
  - assert (Hlt : klt (key_of m) k) by (subst k; by eapply sorted_lookup).
    apply compare_gt in Hlt. rewrite (proj2 (Z.ltb_ge _ _)), (proj2 (Z.ltb_lt _ _)) by lia.
    eapply IH; eauto; lia.
Qed.

Lemma bsearch_sound fuel : forall k cs lo hi i,
  bsearch fuel k cs lo hi = Some i -> exists c, cs !! i = Some c /\ key_of c = k.
Proof.
  induction fuel as [|fuel IH]; intros k cs lo hi i; simpl; [done|].
  destruct (lo <? hi)%nat; [|done].
  change (fst (Nat.divmod (lo + hi) 1 0 1)) with ((lo + hi) / 2)%nat.
  set (mid := ((lo + hi) / 2)%nat). destruct (cs !! mid) as [c|] eqn:E; [|done].
  zcase; [by eauto|]. zcase; [by eauto|]. intros [= <-]. exists c. split; [done|].
  symmetry. apply compare_eq. lia.
Qed.

Lemma bsearch_all_spec cs k i :
  sorted cs -> bsearch_all k cs = Some i <-> exists c, cs !! i = Some c /\ key_of c = k.
Proof.
  intros Hs. split; [apply bsearch_sound|]. intros (c & Hi & Hk).
  pose proof (lookup_lt_Some _ _ _ Hi).
  eapply bsearch_complete; eauto; lia.
Qed.

(** Looking a connection up by its ports is following its pointer. *)
Lemma find_connection_at cs s d :
  sorted cs -> find_connection cs s d = conn_at (s, d) cs.
Proof.
  intros Hs. unfold find_connection. destruct cs as [|c0 cs0]; [done|]. cbn [length Nat.eqb].
  set (cs := c0 :: cs0) in *. clearbody cs. destruct (bsearch_all (s, d) cs) as [i|] eqn:E.
  - apply bsearch_all_spec in E as (c & Hi & Hk); [|done]. rewrite Hi, <- Hk.
    symmetry. by eapply conn_at_sorted.
  - destruct (conn_at (s, d) cs) as [c|] eqn:Ec; [|done].
    apply conn_at_lookup in Ec as (i & Hi & Hk).
    assert (bsearch_all (s, d) cs = Some i) by (apply bsearch_all_spec; eauto). congruence.
Qed.

(** ** Insertion and removal *)

Lemma sort_insert_perm c cs : sort_insert c cs ≡ₚ c :: cs.
Proof.
  induction cs as [|x cs IH]; simpl; [done|]. zcase; [done|]. rewrite IH. apply Permutation_swap.
Qed.

Lemma qsort_perm cs : qsort cs ≡ₚ cs.
Proof. induction cs as [|c cs IH]; simpl; [done|]. by rewrite sort_insert_perm, IH. Qed.

Definition fresh_key (k : key) (cs : list utcp_connection) : Prop :=
  forall c, c ∈ cs -> key_of c <> k.

Lemma sort_insert_sorted c cs :
  sorted cs -> fresh_key (key_of c) cs -> sorted (sort_insert c cs).
Proof.
  intros Hs Hf. induction Hs as [|x cs Hs IH Hx]; simpl.
  - by repeat constructor.
  - assert (Hne : key_of x <> key_of c) by (apply Hf; set_solver).
    zcase.
    + assert (klt (key_of c) (key_of x)) as Hlt.
      { apply compare_lt. pose proof (compare_eq (key_of c) (key_of x)) as Hc.
        destruct (decide (compare (key_of c) (key_of x) = 0)) as [E0|]; [|lia].
        apply Hc in E0. congruence. }
      constructor; [by constructor|]. constructor; [done|]. eapply Forall_impl; [exact Hx|].
      intros y Hy. by eapply klt_trans.
    + constructor; [apply IH; intros y Hy; apply Hf; set_solver|].
      rewrite sort_insert_perm. constructor; [|done]. by apply compare_gt.
Qed.

Lemma sorted_keys_distinct cs c1 c2 :
  sorted (c1 :: cs) -> c2 ∈ cs -> key_of c2 <> key_of c1.
Proof.
  intros Hs Hc He. inversion Hs as [|? ? _ Hf]; subst. rewrite Forall_forall in Hf.
  apply (klt_irrefl (key_of c1)). rewrite <- He at 2. by apply Hf.
Qed.

(** Sorting the table with one more, new, connection sorts it strictly. *)
Lemma qsort_snoc_sorted cs c :
  sorted cs -> fresh_key (key_of c) cs -> sorted (qsort (cs ++ [c])).
Proof.
  induction cs as [|x cs IH]; intros Hs Hf; simpl.
  - by repeat constructor.
  - inversion Hs as [|? ? Hs' Hx]; subst. apply sort_insert_sorted.
    + apply IH; [done|]. intros y Hy. apply Hf. set_solver.
    + intros y Hy. change (foldr sort_insert [] (cs ++ [c])) with (qsort (cs ++ [c])) in Hy.
      rewrite qsort_perm in Hy. apply elem_of_app in Hy as [Hy|Hy%list_elem_of_singleton].
      * by eapply sorted_keys_distinct.
      * subst y. intros He. by apply (Hf x); [set_solver|].
Qed.

Lemma elem_of_conn_at cs c : sorted cs -> c ∈ cs -> conn_at (key_of c) cs = Some c.
Proof. intros Hs [i Hi]%list_elem_of_lookup. by eapply conn_at_sorted. Qed.

Lemma conn_at_elem k cs c : conn_at k cs = Some c -> c ∈ cs /\ key_of c = k.
Proof. intros (i & Hi & Hk)%conn_at_lookup. split; [by eapply list_elem_of_lookup_2|done]. Qed.

Lemma conn_at_none k cs : sorted cs -> conn_at k cs = None <-> fresh_key k cs.
Proof.
  intros Hs. split.
  - intros Hn c Hc He. subst k. rewrite (elem_of_conn_at cs c) in Hn; done.
  - intros Hf. destruct (conn_at k cs) as [c|] eqn:E; [|done].
    apply conn_at_elem in E as [? ?]. exfalso. by eapply Hf.
Qed.

(** Lookups depend only on the members. *)
Lemma conn_at_qsort_snoc cs c k :
  sorted cs -> fresh_key (key_of c) cs ->
  conn_at k (qsort (cs ++ [c])) = if bool_decide (k = key_of c) then Some c else conn_at k cs.
Proof.
  intros Hs Hf. pose proof (qsort_snoc_sorted cs c Hs Hf) as Hs'.
  case_bool_decide as Hk.
  - subst k. apply elem_of_conn_at; [done|]. rewrite qsort_perm. set_solver.
  - destruct (conn_at k cs) as [c'|] eqn:E.
    + apply conn_at_elem in E as [Hin <-]. apply elem_of_conn_at; [done|].
      rewrite qsort_perm. set_solver.
    + apply conn_at_none; [done|]. apply conn_at_none in E; [|done].
      intros x Hx. rewrite qsort_perm in Hx.
      apply elem_of_app in Hx as [Hx|Hx%list_elem_of_singleton]; [by apply E|congruence].
Qed.

Lemma sorted_delete cs i : sorted cs -> sorted (take i cs ++ drop (S i) cs).
Proof.
  intros Hs. revert i. induction Hs as [|c cs Hs IH Hf]; intros i; [by destruct i; constructor|].
  destruct i as [|i]; simpl; [by rewrite drop_0|]. constructor; [apply IH|].
  rewrite Forall_forall in Hf |- *. intros x Hx. apply Hf.
  apply elem_of_app in Hx as [Hx|Hx]; [by eapply elem_of_take in Hx as (?&?&?); eapply list_elem_of_lookup_2 |].
  apply list_elem_of_lookup in Hx as [j Hj]. rewrite lookup_drop in Hj.
  by eapply list_elem_of_lookup_2.
Qed.

(** ** The port search *)

Lemma u16_inj_window p i j :
  0 <= i < 65536 -> 0 <= j < 65536 -> u16 (p + i) = u16 (p + j) -> i = j.
Proof.
  intros Hi Hj H. unfold u16 in H.
  pose proof (Z.div_mod (p + i) (2 ^ 16)). pose proof (Z.div_mod (p + j) (2 ^ 16)). lia.
Qed.

Lemma find_some cs s d : sorted cs ->
  is_Some (find_connection cs s d) <-> (s, d) ∈ (key_of <$> cs).
Proof.
  intros Hs. rewrite find_connection_at by done. split.
  - intros [c [? ?]%conn_at_elem]. apply list_elem_of_fmap. eauto.
  - intros (c & He & Hc)%list_elem_of_fmap. rewrite He, elem_of_conn_at by done. done.
Qed.

(** The search visits [u16 p], [u16 (p+1)], ...; it stops at the first free one. *)
Lemma next_free_port_or_all_used fuel : forall cs p d,
  sorted cs ->
  (exists n, (n <= fuel)%nat /\ next_free_port fuel cs (u16 p) d = Done (u16 (p + Z.of_nat n)) /\
     find_connection cs (u16 (p + Z.of_nat n)) d = None) \/
  (forall i, (i <= fuel)%nat -> (u16 (p + Z.of_nat i), d) ∈ (key_of <$> cs)).
Proof.
  induction fuel as [|fuel IH]; intros cs p d Hs; cbn [next_free_port];
    destruct (find_connection cs (u16 p) d) eqn:E.
  - right. intros i Hi. replace i with 0%nat by lia. rewrite Z.add_0_r.
    apply find_some; [done|]. by rewrite E.
  - left. exists 0%nat. rewrite Z.add_0_r. done.
  - assert (Hu : u16 (u16 p + 1) = u16 (p + 1)) by (unfold u16; apply Zplus_mod_idemp_l).
    rewrite Hu. destruct (IH cs (p + 1) d Hs) as [(n & Hn & Hp & Hf)|Hall].
    + left. exists (S n). replace (p + Z.of_nat (S n)) with (p + 1 + Z.of_nat n) by lia.
      split; [lia|done].
    + right. intros [|i] Hi.
      * rewrite Z.add_0_r. apply find_some; [done|]. by rewrite E.
      * replace (p + Z.of_nat (S i)) with (p + 1 + Z.of_nat i) by lia. apply Hall. lia.
  - left. exists 0%nat. rewrite Z.add_0_r. split; [lia|done].
Qed.

(** Fewer connections than ports: the search finds a free port. *)
Lemma next_free_port_ok cs p d :
  sorted cs -> zlen cs < 65535 ->
  exists q, next_free_port (S (length cs)) cs (u16 p) d = Done q /\
    0 <= q < 2 ^ 16 /\ find_connection cs q d = None.
Proof.
  intros Hs Hn. destruct (next_free_port_or_all_used (S (length cs)) cs p d Hs)
    as [(n & _ & Hp & Hf)|Hall].
  - exists (u16 (p + Z.of_nat n)). split; [done|]. split; [apply u16_range|done].
  - exfalso. set (tried := (fun i => (u16 (p + Z.of_nat i), d)) <$> seq 0 (S (length cs))).
    assert (Hnd : NoDup tried).
    { apply NoDup_fmap_2_strong; [|apply NoDup_seq]. intros i j Hi Hj [= He].
      apply elem_of_seq in Hi, Hj. unfold zlen in *.
      apply u16_inj_window in He; lia. }
    assert (Hsub : tried ⊆ (key_of <$> cs)).
    { intros k (i & -> & Hi)%list_elem_of_fmap. apply elem_of_seq in Hi. apply Hall. lia. }
    apply NoDup_submseteq in Hsub; [|done]. apply submseteq_length in Hsub.
    subst tried. rewrite !length_fmap, length_seq in Hsub. lia.
Qed.

(** ** Allocation *)

Record table_ok (w : world) : Prop := {
  tb_sorted : sorted (conns w);
  tb_slots : u_slots (sh w) = u_nallocated (sh w);
  tb_fits : 0 <= zlen (conns w) <= u_nallocated (sh w);
}.

Lemma grow_table_ok `{Env} n s :
  (forall k, a_ok (allocs k) = true) -> u_slots s = u_nallocated s -> 0 <= n <= u_nallocated s ->
  exists s', grow_table n s = (true, s') /\
    u_slots s' = u_nallocated s' /\ n < u_nallocated s'.
Proof.
  intros Ha Hsl Hn. unfold grow_table, next_alloc.
  destruct (u_nallocated s <=? n) eqn:E; ztests; [|by eauto].
  rewrite Ha. eexists. split; [done|]. split; [done|]. simpl. zcase; lia.
Qed.

(** What remains of a successful allocation once the port is known. *)
Lemma add_connection_ok `{Env} sp dp s w :
  (forall n, a_ok (allocs n) = true) -> sorted (conns w) ->
  find_connection (conns w) sp dp = None ->
  u_slots s = u_nallocated s -> zlen (conns w) <= u_nallocated s ->
  exists w' c, add_connection sp dp s w = Done (Some (sp, dp), w') /\ table_ok w' /\
    state c = CLOSED /\ key_of c = (sp, dp) /\
    forall k1 k2, find_connection (conns w') k1 k2 =
      if bool_decide ((k1, k2) = (sp, dp)) then Some c else find_connection (conns w) k1 k2.
Proof.
  intros Ha Hs Hn Hsl Hf. unfold add_connection.
  destruct (grow_table_ok (zlen (conns w)) s Ha Hsl) as (s' & -> & Hsl' & Hlt);
    [split; [apply zlen_nonneg|done]|].
  unfold next_alloc, rand_. rewrite Ha. cbn -[zlen qsort fill_connection].
  rewrite (proj2 (Z.leb_gt _ _)) by lia. set (c := fill_connection _ _ _ _ _ _).
  assert (Hk : key_of c = (sp, dp)) by done.
  assert (Hfr : fresh_key (key_of c) (conns w)).
  { rewrite Hk. apply conn_at_none; [done|]. by rewrite <- find_connection_at. }
  pose proof (qsort_snoc_sorted _ _ Hs Hfr) as Hs'.
  eexists _, c. split; [by rewrite Hk|]. split.
  { constructor; simpl; [done|done|]. unfold zlen in *.
    rewrite (Permutation_length (qsort_perm _)), length_app. simpl. lia. }
  split; [done|]. split; [done|]. intros k1 k2. cbn -[qsort bool_decide].
  rewrite !find_connection_at, conn_at_qsort_snoc, Hk by done. done.
Qed.

(** Allocating a connection, when the allocator does not fail: it always
    returns (the port search ends), keeps the table strictly sorted and within
    its array, and either refuses because the ports are taken (a given port) or
    the table is full (no port given), changing no connection, or adds exactly one
    connection, with unused ports and the port asked for, that
    [find_connection] then finds, while every other lookup is unchanged. *)
Theorem allocate_connection_spec `{Env} sp dp w :
  table_ok w -> (forall n, a_ok (allocs n) = true) ->
  returns (allocate_connection sp dp w) (fun '(r, w') =>
    table_ok w' /\
    match r with
    | None => conns w' = conns w /\
        (if sp =? 0 then errno (sh w') = ENOMEM /\ 32767 <= zlen (conns w)
         else errno (sh w') = EADDRINUSE /\ is_Some (find_connection (conns w) sp dp))
    | Some (p, q) => q = dp /\ (sp <> 0 -> p = sp) /\ find_connection (conns w) p q = None /\
        exists c, state c = CLOSED /\ key_of c = (p, q) /\
          forall k1 k2, find_connection (conns w') k1 k2 =
            if bool_decide ((k1, k2) = (p, q)) then Some c else find_connection (conns w) k1 k2
    end).
Proof.
  intros Hw Ha. destruct (Hw) as [Hs Hsl [_ Hf]]. unfold allocate_connection, choose_port.
  destruct (sp =? 0) eqn:E0; ztests; cbn [negb].
  - destruct (32767 <=? zlen (conns w)) eqn:E1; ztests; cbn [obind].
    + simpl. split; [by constructor; simpl; auto using zlen_nonneg|]. done.
    + unfold rand_. destruct (next_free_port_ok (conns w) (Z.lor (rand (tick (sh w))) 32768) dp)
        as (p & -> & Hpr & Hp); [done|lia|]. cbn [obind].
      destruct (add_connection_ok p dp (set_tick (S (tick (sh w))) (sh w)) w Ha Hs Hp Hsl Hf)
        as (w' & c & -> & Hw' & Hc). simpl. split; [done|]. repeat split; [lia|done|]. by exists c.
  - destruct (find_connection (conns w) sp dp) eqn:E1; cbn [obind].
    + simpl. split; [by constructor; simpl; auto using zlen_nonneg|]. done.
    + destruct (add_connection_ok sp dp (sh w) w Ha Hs E1 Hsl Hf) as (w' & c & -> & Hw' & Hc).
      simpl. split; [done|]. repeat split; [done|]. by exists c.
Qed.

Definition empty_world : world := World test_shared [].

Lemma allocate_connection_spec_witness :
  exists w k, @allocate_connection test_env 0 80 empty_world = Done (Some k, w) /\
    table_ok w /\ find_connection (conns w) k.1 k.2 <> None.
Proof.
  assert (Hw : table_ok empty_world) by (constructor; vm_compute; [constructor|done|split; congruence]).
  pose proof (@allocate_connection_spec test_env 0 80 empty_world Hw (fun _ => eq_refl)) as H.
  apply returns_done in H as ([[[p q]|] w] & Ha & Hr).
  - destruct Hr as (Hw' & Hq & _ & _ & c & _ & _ & Hf). exists w, (p, q).
    split; [done|]. split; [done|]. simpl. rewrite Hf, bool_decide_true by done. done.
  - exfalso. vm_compute in Ha. discriminate.
Defined.

(** The capacity is doubled before [realloc] is tried: when it fails for a
    full table, the next allocation believes there is room and stores the new
    pointer one past the end of the array. *)
Theorem failed_realloc_overruns_table `{Env} sp sp' dp w :
  u_slots (sh w) = u_nallocated (sh w) -> zlen (conns w) = u_nallocated (sh w) ->
  sorted (conns w) -> sp <> 0 -> sp' <> 0 ->
  find_connection (conns w) sp dp = None -> find_connection (conns w) sp' dp = None ->
  a_ok (allocs (tick (sh w))) = false -> a_ok (allocs (S (tick (sh w)))) = true ->
  exists w', allocate_connection sp dp w = Done (None, w') /\
    allocate_connection sp' dp w' = Stop OutOfBounds.
Proof.
  intros Hsl Hfull Hs H0 H0' Hf Hf' Ha1 Ha2. pose proof (zlen_nonneg (conns w)).
  unfold allocate_connection at 1, choose_port at 1.
  rewrite (proj2 (Z.eqb_neq sp 0)), Hf by done. cbn [negb obind].
  unfold add_connection at 1, grow_table at 1, next_alloc at 1. rewrite Hfull, Z.leb_refl.
  cbn -[Z.mul]. rewrite Ha1. eexists. split; [done|].
  unfold allocate_connection, choose_port. cbn [conns set_sh sh].
  rewrite (proj2 (Z.eqb_neq sp' 0)), Hf' by done. cbn [negb obind].
  unfold add_connection, grow_table. cbn [conns sh u_nallocated set_u_nallocated set_tick set_sh].
  rewrite Hfull.
  assert (E : ((if u_nallocated (sh w) =? 0 then 4 else u_nallocated (sh w) * 2) <=?
    u_nallocated (sh w)) = false).
  { destruct (u_nallocated (sh w) =? 0) eqn:E0; ztests; apply Z.leb_gt; lia. }
  rewrite E. unfold next_alloc. cbn -[Z.mul qsort fill_connection]. rewrite Ha2.
  cbn -[Z.mul qsort fill_connection]. by rewrite Hsl, Z.leb_refl.
Qed.

Definition failing_env : Env := {|
  clock := @clock test_env; rand := @rand test_env;
  allocs n := match n with O => Alloc false (fun _ => 0) | _ => test_alloc end;
  on_recv := @on_recv test_env; on_poll := @on_poll test_env; on_accept := @on_accept test_env;
  on_listen := @on_listen test_env; on_retransmit := @on_retransmit test_env;
|}.

Lemma failed_realloc_overruns_table_witness :
  exists w', @allocate_connection failing_env 7 80 empty_world = Done (None, w') /\
    @allocate_connection failing_env 7 80 w' = Stop OutOfBounds.
Proof.
  apply (@failed_realloc_overruns_table failing_env 7 7 80 empty_world);
    reflexivity || discriminate || constructor.
Defined.
