(* ===== verification/UtcpSend.v ===== *)
(** Sending (src/src/utcp.c: [ack], [utcp_connect_ex], [utcp_accept],
    [utcp_send], [fast_retransmit], [retransmit]).

    An operation on one connection that calls no application code is a function
    of the connection and the shared part of the world; [on_conn] runs it on the
    connection behind a pointer. *)
From stdpp Require Import sorting.
From S2P Require Import Prelude UtcpBuffer UtcpTypes UtcpTimer UtcpTable.

Definition on_conn {A} (k : key) (w : world)
    (f : utcp_connection -> shared -> outcome (A * (utcp_connection * shared)))
  : outcome (A * world) :=
  match conn_at k (conns w) with
  | None => Stop UseAfterFree
  | Some c =>
      let* (a, (c, s)) := f c (sh w) in
      Done (a, World s (put_conn c (conns w)))
  end.

(** ** The packet buffer *)

(** Copy payload bytes to the start of [pkt->data]. *)
Definition pkt_store (d : list Z) (s : shared) : outcome shared :=
  let* m := mem_write (u_pkt s) 0 d in
  Done (set_u_pkt m s).

(** [utcp->send(utcp, pkt, sizeof(pkt->hdr) + len)]. *)
Definition pkt_send (h : hdr) (len : Z) (s : shared) : outcome shared :=
  let* d := mem_read (u_pkt s) 0 len in
  Done (send_ (Packet h d) s).

(** The INIT auxiliary header of a SYN. *)
Definition init_bytes (fl : Z) : list Z := [1; 0; 0; Z.land fl 7].

(** ** Acknowledging and sending new data *)

(** How many bytes past [snd.nxt] the windows allow to send now. *)
Definition ack_left (sendatleastone : bool) (c : utcp_connection) (s : shared) : outcome Z :=
  let lft := seqdiff (snd_last c) (snd_nxt c) in
  let cwndleft :=
    if is_reliable c
    then s32 (Z.min (snd_cwnd c) (snd_wnd c) - seqdiff (snd_nxt c) (snd_una c))
    else MAX_UNRELIABLE_SIZE in
  let* _ := assert_ (0 <=? lft) in
  if cwndleft <=? 0 then Done 0
  else if cwndleft <? lft then
    if negb sendatleastone || (u_mss s <? cwndleft) then
      if u_mss s =? 0 then Stop DivByZero else Done (cwndleft - Z.rem cwndleft (u_mss s))
    else Done cwndleft
  else Done lft.

(** One turn of the [do] loop: the segment at [snd.nxt] is sent. *)
Definition ack_segment `{Env} (c : utcp_connection) (s : shared) (h : hdr) (lft : Z)
  : outcome (utcp_connection * shared * hdr * Z) :=
  let seglen := if u_mss s <? lft then u_mss s else lft in
  let h := set_h_seq (snd_nxt c) h in
  let* d := buffer_copy (sndbuf c) (u64 (seqdiff (snd_nxt c) (snd_una c))) seglen in
  let* s := pkt_store d s in
  let c := set_snd_nxt (u32 (snd_nxt c + seglen)) c in
  let lft := lft - seglen in
  let h :=
    if negb (is_reliable c) then
      set_h_ctl (if negb (lft =? 0) then Z.lor (h_ctl h) MF else Z.ldiff (h_ctl h) MF) h
    else h in
  let (seglen, h) :=
    if negb (seglen =? 0) && fin_wanted c (snd_nxt c)
    then (seglen - 1, set_h_ctl (Z.lor (h_ctl h) FIN) h) else (seglen, h) in
  let (c, s) :=
    if tv_sec (rtt_start c) =? 0 then
      let (now, s) := clock_gettime s in
      (c |> set_rtt_start now |> set_rtt_seq (u32 (h_seq h + seglen)), s)
    else (c, s) in
  let* s := pkt_send h seglen s in
  let h := if negb (lft =? 0) && negb (is_reliable c) then set_h_wnd (u32 (h_wnd h + seglen)) h else h in
  Done (c, s, h, lft).

Fixpoint ack_loop `{Env} (fuel : nat) (c : utcp_connection) (s : shared) (h : hdr) (lft : Z)
  : outcome (utcp_connection * shared) :=
  match fuel with
  | O => Stop OutOfFuel
  | S fuel =>
      let* (c, s, h, lft) := ack_segment c s h lft in
      if lft =? 0 then Done (c, s) else ack_loop fuel c s h lft
  end.

Definition ack_hdr (c : utcp_connection) : hdr :=
  Hdr (src c) (dst c) 0 (rcv_nxt c) (if is_reliable c then maxsize (rcvbuf c) else 0) ACK 0.

(** The fuel, one turn per byte and one more, is never used up: every turn but
    the last sends at least one byte. *)
Definition ack `{Env} (sendatleastone : bool) (c : utcp_connection) (s : shared)
  : outcome (utcp_connection * shared) :=
  let* lft := ack_left sendatleastone c s in
  if (lft =? 0) && negb sendatleastone then Done (c, s)
  else ack_loop (S (Z.to_nat lft)) c s (ack_hdr c) lft.

(** ** Opening and accepting *)

Definition utcp_connect_ex `{Env} (dp : Z) (rcv : option Z) (prv fl : Z) (w : world)
  : outcome (option key * world) :=
  let* (r, w) := allocate_connection 0 dp w in
  match r with
  | None => Done (None, w)
  | Some k =>
      let* _ := assert_ (Z.ldiff fl 31 =? 0) in
      on_conn k w (fun c s =>
        let c := c |> set_flags fl |> set_recv rcv |> set_priv prv in
        let h := Hdr (src c) (dst c) (snd_iss c) 0 (maxsize (rcvbuf c)) SYN 257 in
        let c := set_state_ SYN_SENT c in
        let s := send_ (Packet h (init_bytes fl)) s in
        let (c, s) := arm_conn_timeout c s in
        let* (c, s) := start_retransmit_timer c s in
        Done (Some k, (c, s)))
  end.

Definition utcp_connect `{Env} (dp : Z) (rcv : option Z) (prv : Z) (w : world) :=
  utcp_connect_ex dp rcv prv UTCP_TCP w.

Definition utcp_accept (rcv : option Z) (prv : Z) (c : utcp_connection) : utcp_connection :=
  if reapable c || negb (state_eqb (state c) SYN_RECEIVED) then c
  else c |> set_recv rcv |> set_priv prv |> set_do_poll true |> set_state_ ESTABLISHED.

(** ** utcp_send *)

(** The states in which data may be sent, or the error for the others. *)
Definition send_state_error (st : tcp_state) : option Z :=
  match st with
  | CLOSED | LISTEN => Some ENOTCONN
  | SYN_SENT | SYN_RECEIVED | ESTABLISHED => None
  | CLOSE_WAIT => Some EPIPE
  | FIN_WAIT_1 | FIN_WAIT_2 | CLOSING | LAST_ACK | TIME_WAIT => Some EPIPE
  end.

Definition handshaking (st : tcp_state) : bool :=
  match st with SYN_SENT | SYN_RECEIVED => true | _ => false end.

(** The timers at the end of a send. *)
Definition send_timers `{Env} (c : utcp_connection) (s : shared)
  : outcome (utcp_connection * shared) :=
  let* (c, s) :=
    if is_reliable c && negb (timespec_isset (rtrx_timeout c))
    then start_retransmit_timer c s else Done (c, s) in
  let (c, s) :=
    if is_reliable c && negb (timespec_isset (conn_timeout c))
    then arm_conn_timeout c s else (c, s) in
  Done (c, s).

(** Send what was just buffered; an unreliable connection keeps nothing. *)
Definition send_flush `{Env} (c : utcp_connection) (s : shared)
  : outcome (utcp_connection * shared) :=
  let* (c, s) := ack false c s in
  let c :=
    if negb (is_reliable c) then
      let c := c |> set_snd_una (snd_last c) |> set_snd_nxt (snd_last c) in
      set_sndbuf (buffer_discard (sndbuf c) (used (sndbuf c))).2 c
    else c in
  send_timers c s.

(** [dat] is [None] for a NULL pointer; otherwise it holds [len] bytes. *)
Definition utcp_send `{Env} (dat : option (list Z)) (len : Z) (c : utcp_connection) (s : shared)
  : outcome (Z * (utcp_connection * shared)) :=
  let fail r e c s := Done (r, (c, set_errno e s)) in
  if reapable c then fail (-1) EBADF c s
  else match send_state_error (state c) with
  | Some e => fail (-1) e c s
  | None =>
  if len =? 0 then Done (0, (c, s))
  else match dat with
  | None => fail (-1) EFAULT c s
  | Some d =>
  if bitset (flags c) UTCP_NO_PARTIAL && (buffer_free (sndbuf c) <? len) then
    if maxsize (sndbuf c) <? len then fail (-1) EMSGSIZE c s else fail 0 EWOULDBLOCK c s
  else if negb (is_reliable c) && handshaking (state c) then Done (0, (c, s))
  else if negb (is_reliable c) && (MAX_UNRELIABLE_SIZE <? len) then fail (-1) EMSGSIZE c s
  else
    (* Add data to send buffer. *)
    let (al, s) := next_alloc s in
    let* (n, b) := buffer_put al (sndbuf c) d in
    let c := set_sndbuf b c in
    if negb (is_reliable c) && negb (n =? len) then fail (-1) EMSGSIZE c s
    else
      let len := u64 n in
      if len =? 0 then if is_reliable c then fail 0 EWOULDBLOCK c s else Done (0, (c, s))
      else
        let c := set_snd_last (u32 (snd_last c + len)) c in
        (* Don't send anything yet if the connection has not fully established yet *)
        if handshaking (state c) then Done (s64 len, (c, s))
        else
          let* (c, s) := send_flush c s in
          Done (s64 len, (c, s))
  end
  end.

Definition swap_ports (h : hdr) : hdr := h |> set_h_src (h_dst h) |> set_h_dst (h_src h).

(** ** Retransmission *)

(** The length and control bits of the segment at [snd.una]. *)
Definition rtrx_segment (c : utcp_connection) (s : shared) : Z * Z :=
  let len := u32 (Z.min (u64 (seqdiff (snd_last c) (snd_una c))) (u_mss s)) in
  if fin_wanted c (u32 (snd_una c + len)) then (u32 (len - 1), Z.lor ACK FIN) else (len, ACK).

(** Send unacked data again. *)
Definition rtrx_send (c : utcp_connection) (len ctl : Z) (s : shared) : outcome shared :=
  let h := Hdr (src c) (dst c) (snd_una c) (rcv_nxt c) (maxsize (rcvbuf c)) ctl 0 in
  let* d := buffer_copy (sndbuf c) 0 len in
  let* s := pkt_store d s in
  pkt_send h len s.

Definition fast_retransmit (c : utcp_connection) (s : shared) : outcome shared :=
  if state_eqb (state c) CLOSED || (snd_last c =? snd_una c) then Done s
  else match state c with
  | ESTABLISHED | FIN_WAIT_1 | CLOSE_WAIT | CLOSING | LAST_ACK =>
      let (len, ctl) := rtrx_segment c s in rtrx_send c len ctl s
  | _ => Done s
  end.

(** Restart the timer and back off. *)
Definition rtrx_finish `{Env} (c : utcp_connection) (s : shared)
  : outcome (unit * (utcp_connection * shared)) :=
  let* (c, s) := start_retransmit_timer c s in
  let c := set_rto (u32 (rto c * 2)) c in
  let c := if MAX_RTO <? rto c then set_rto MAX_RTO c else c in
  Done (tt, (c |> set_rtt_start (set_tv_sec 0 (rtt_start c)) |> set_dupack 0, s)).

(** The part of [retransmit] after the application was told. *)
Definition retransmit_body `{Env} (c : utcp_connection) (s : shared)
  : outcome (unit * (utcp_connection * shared)) :=
  let h := Hdr (src c) (dst c) 0 0 (maxsize (rcvbuf c)) 0 0 in
  match state c with
  | SYN_SENT =>
      let h := h |> set_h_seq (snd_iss c) |> set_h_ctl SYN |> set_h_aux 257 in
      let* s := pkt_store (init_bytes (flags c)) s in
      let* s := pkt_send h 4 s in
      rtrx_finish c s
  | SYN_RECEIVED =>
      let h := h |> set_h_seq (snd_nxt c) |> set_h_ack (rcv_nxt c) |> set_h_ctl (Z.lor SYN ACK) in
      let* s := pkt_send h 0 s in
      rtrx_finish c s
  | ESTABLISHED | FIN_WAIT_1 | CLOSE_WAIT | CLOSING | LAST_ACK =>
      let (len, ctl) := rtrx_segment c s in
      let flightsize := u32 (seqdiff (snd_nxt c) (snd_una c)) in
      let c := c |> set_snd_ssthresh (u32 (Z.max (flightsize / 2) (u_mss s * 2)))
                 |> set_snd_cwnd (u_mss s) in
      let* s := rtrx_send c len ctl s in
      rtrx_finish (set_snd_nxt (u32 (snd_una c + len)) c) s
  | CLOSED | LISTEN | TIME_WAIT | FIN_WAIT_2 =>
      Done (tt, (stop_retransmit_timer c, s))
  end.

Definition retransmit `{Env} (k : key) (w : world) : outcome world :=
  match conn_at k (conns w) with
  | None => Stop UseAfterFree
  | Some c =>
      if state_eqb (state c) CLOSED || (snd_last c =? snd_una c) then
        Done (set_conns (put_conn (stop_retransmit_timer c) (conns w)) w)
      else
        let w := match u_retransmit (sh w) with Some cb => on_retransmit cb k w | None => w end in
        let* (_, w) := on_conn k w retransmit_body in
        Done w
  end.
