(* ===== verification/UtcpInput.v ===== *)
(** Receiving data (src/src/utcp.c: [sack_consume], [handle_out_of_order],
    [handle_in_order], [handle_unreliable], [handle_incoming_data], and
    [buffer_call], which hands buffered data to the application). *)
From stdpp Require Import sorting.
From S2P Require Import Prelude UtcpBuffer UtcpTypes UtcpTimer UtcpTable UtcpSend.

(** ** SACK entries *)

Definition sack_at (l : list sack) (i : nat) : sack := nth i l (Sack 0 0).

(** [memmove(&sacks[i], &sacks[i+1], ...); sacks[NSACKS-1].len = 0]. *)
Definition sack_remove (i : nat) (l : list sack) : list sack :=
  take i l ++ drop (S i) l ++ [Sack (sk_offset (sack_at l 3)) 0].

(** [memmove(&sacks[i+1], &sacks[i], ...); sacks[i] = e]. *)
Definition sack_insert (i : nat) (e : sack) (l : list sack) : list sack :=
  take i l ++ [e] ++ take (3 - i) (drop i l).

(** The loop of [sack_consume] from entry [i] on. *)
Fixpoint sack_consume_loop (fuel i : nat) (len : Z) (l : list sack) : outcome (list sack) :=
  let e := sack_at l i in
  if (i <? 4)%nat && negb (sk_len e =? 0) then
    match fuel with
    | O => Stop OutOfFuel
    | S fuel =>
        if len <? sk_offset e then
          sack_consume_loop fuel (S i) len (<[i := Sack (u32 (sk_offset e - len)) (sk_len e)]> l)
        else if len <? u32 (sk_offset e + sk_len e) then
          sack_consume_loop fuel (S i) len
            (<[i := Sack 0 (u32 (sk_len e - (len - sk_offset e)))]> l)
        else if (i <? 3)%nat then sack_consume_loop fuel i len (sack_remove i l)
        else Done (<[i := Sack (sk_offset e) 0]> l)
    end
  else Done l.

Definition sack_consume (len : Z) (c : utcp_connection) : outcome utcp_connection :=
  if used (rcvbuf c) <? len then
    Done (set_sacks (<[0%nat := Sack (sk_offset (sack_at (sacks c) 0)) 0]> (sacks c)) c)
  else
    let c := set_rcvbuf (buffer_discard (rcvbuf c) len).2 c in
    let* l := sack_consume_loop 8 0 len (sacks c) in
    Done (set_sacks l c).

(** Make note of where the [rxd] bytes at [off] were put. *)
Fixpoint sack_note (fuel i : nat) (off rxd : Z) (l : list sack) : list sack :=
  match fuel with
  | O => l
  | S fuel =>
      let e := sack_at l i in
      if sk_len e =? 0 then <[i := Sack off (u32 rxd)]> l
      else if off <? sk_offset e then
        if off + rxd <? sk_offset e then
          if sk_len (sack_at l 3) =? 0 then sack_insert i (Sack off (u32 rxd)) l else l
        else <[i := Sack off (sk_len e)]> l
      else if off <=? u32 (sk_offset e + sk_len e) then
        if u32 (sk_offset e + sk_len e) <? off + rxd
        then <[i := Sack (sk_offset e) (u32 (off + rxd - sk_offset e))]> l
        else l
      else sack_note fuel (S i) off rxd l
  end.

Definition handle_out_of_order `{Env} (off : Z) (dat : list Z) (c : utcp_connection) (s : shared)
  : outcome (utcp_connection * shared) :=
  let (al, s) := next_alloc s in
  let* (rxd, b) := buffer_put_at al (rcvbuf c) off dat in
  let c := set_rcvbuf b c in
  if rxd <=? 0 then Done (c, s)
  else Done (set_sacks (sack_note 4 0 off rxd (sacks c)) c, s).

(** ** Handing data to the application *)

(** [c->recv(c, data, len)] when the pointer is set. *)
Definition call_recv `{Env} (k : key) (d : option (list Z)) (w : world) : outcome (Z * world) :=
  match conn_at k (conns w) with
  | None => Stop UseAfterFree
  | Some c =>
      match recv c with
      | Some cb => Done (app_recv cb k d w)
      | None => Done (0, w)
      end
  end.

(** [buffer_call(c, &c->rcvbuf, off, len)]. *)
Definition buffer_call `{Env} (k : key) (off len : Z) (w : world) : outcome (Z * world) :=
  match conn_at k (conns w) with
  | None => Stop UseAfterFree
  | Some c =>
      match recv c with
      | None => Done (len, w)
      | Some cb =>
          let buf := rcvbuf c in
          if used buf <=? off then Done (0, w)
          else
            let len := if u64 (used buf - off) <? len then u64 (used buf - off) else len in
            let realoffset := buffer_realoffset buf off in
            let room := u32 (size buf - realoffset) in
            if room <? len then
              let* d1 := mem_read (data buf) realoffset room in
              let (rx1, w) := app_recv cb k (Some d1) w in
              match conn_at k (conns w) with
              | None => Stop UseAfterFree
              | Some c =>
                  let buf := rcvbuf c in
                  if rx1 <? u32 (size buf - realoffset) then Done (rx1, w)
                  else match recv c with
                  | None => Done (len, w)
                  | Some cb =>
                      let* d2 := mem_read (data buf) 0 (len - u32 (size buf - realoffset)) in
                      let (rx2, w) := app_recv cb k (Some d2) w in
                      Done (if rx2 <? 0 then rx2 else rx1 + rx2, w)
                  end
              end
            else
              let* d := mem_read (data buf) realoffset len in
              Done (app_recv cb k (Some d) w)
      end
  end.

Definition handle_in_order `{Env} (k : key) (dat : list Z) (w : world) : outcome world :=
  let len := zlen dat in
  match conn_at k (conns w) with
  | None => Stop UseAfterFree
  | Some c =>
      let* w :=
        match recv c with
        | Some cb =>
            let (rxd, w) := app_recv cb k (Some dat) w in
            if rxd =? len then Done w else Stop AbortCalled
        | None => Done w
        end in
      match conn_at k (conns w) with
      | None => Stop UseAfterFree
      | Some c =>
          (* Check if we can process out-of-order data now. *)
          let e := sack_at (sacks c) 0 in
          let* (len, w) :=
            if negb (sk_len e =? 0) && (sk_offset e <=? len) &&
               (len <? u32 (sk_offset e + sk_len e)) then
              let off := len in
              let len := u32 (sk_offset e + sk_len e) in
              let* (rxd, w) := buffer_call k off (len - off) w in
              if rxd =? len - off then Done (len, w) else Stop AbortCalled
            else Done (len, w) in
          let* (_, w) := on_conn k w (fun c s =>
            let* c := if negb (used (rcvbuf c) =? 0) then sack_consume len c else Done c in
            Done (tt, (set_rcv_nxt (u32 (rcv_nxt c + len)) c, s))) in
          Done w
      end
  end.

Definition handle_unreliable `{Env} (k : key) (h : hdr) (dat : list Z) (w : world)
  : outcome world :=
  let len := zlen dat in
  let advance w :=
    let* (_, w) := on_conn k w (fun c s =>
      Done (tt, (set_rcv_nxt (u32 (h_seq h + len)) c, s))) in Done w in
  match conn_at k (conns w) with
  | None => Stop UseAfterFree
  | Some c =>
      (* Fast path for unfragmented packets *)
      if (h_wnd h =? 0) && negb (bitset (h_ctl h) MF) then
        let* (_, w) := call_recv k (Some dat) w in
        advance w
      (* Ensure reassembled packet are not larger than 64 kiB *)
      else if (MAX_UNRELIABLE_SIZE <=? h_wnd h) || (MAX_UNRELIABLE_SIZE <? h_wnd h + len) then Done w
      (* Don't accept out of order fragments *)
      else if negb (h_wnd h =? 0) && negb (h_seq h =? rcv_nxt c) then Done w
      else
        let b := if h_wnd h =? 0 then buffer_clear (rcvbuf c) else rcvbuf c in
        let (al, s) := next_alloc (sh w) in
        let* (rxd, b) := buffer_put_at al b (h_wnd h) dat in
        let w := World s (put_conn (set_rcvbuf b c) (conns w)) in
        if negb (rxd =? len) then Done w
        else
          let* w :=
            if negb (bitset (h_ctl h) MF) then
              let* (_, w) := buffer_call k 0 (h_wnd h + len) w in Done w
            else Done w in
          advance w
  end.

Definition handle_incoming_data `{Env} (k : key) (h : hdr) (dat : list Z) (w : world)
  : outcome world :=
  match conn_at k (conns w) with
  | None => Stop UseAfterFree
  | Some c =>
      if negb (is_reliable c) then handle_unreliable k h dat w
      else
        let off := u32 (seqdiff (h_seq h) (rcv_nxt c)) in
        if negb (off =? 0) then
          let* (_, w) := on_conn k w (fun c s =>
            let* r := handle_out_of_order off dat c s in Done (tt, r)) in
          Done w
        else handle_in_order k dat w
  end.
