(* ===== verification/UtcpRecv.v ===== *)
(** Processing a packet (src/src/utcp.c: [utcp_recv]).

    The function is one long body with three labels; it is divided here into the
    numbered stages of the source.  A stage returns how control goes on: to the
    next stage, to [reset], to [synack], or out of the function. *)
From stdpp Require Import sorting.
From S2P Require Import Prelude Bytes UtcpBuffer UtcpTypes UtcpTimer UtcpTable UtcpSend UtcpInput.

(** The local variables of [utcp_recv] after the headers were parsed: the copy of
    the header (which the code edits), the payload [ptr] points to and the
    variable [len]. *)
Record rx := Rx { rx_hdr : hdr; rx_data : list Z; rx_len : Z }.

Inductive flow (A : Type) : Type :=
  | Next (a : A)
  | Return
  | Reset (r : rx)
  | Synack (r : rx).
Arguments Next {A} _.
Arguments Return {A}.
Arguments Reset {A} _.
Arguments Synack {A} _.

(** Sequencing of stages. *)
Definition fbind {A B} (m : outcome (flow A * world))
    (k : A -> world -> outcome (flow B * world)) : outcome (flow B * world) :=
  let* (f, w) := m in
  match f with
  | Next a => k a w
  | Return => Done (Return, w)
  | Reset r => Done (Reset r, w)
  | Synack r => Done (Synack r, w)
  end.

Definition has (h : hdr) (bit : Z) : bool := bitset (h_ctl h) bit.

(** ** Auxiliary headers *)

(** [while(aux)]: [init] is the last INIT header seen; [None] for EBADMSG. *)
Fixpoint parse_aux (fuel : nat) (h : hdr) (aux : Z) (init : option (list Z)) (ptr : list Z)
  : outcome (option (option (list Z) * list Z)) :=
  if aux =? 0 then Done (Some (init, ptr))
  else match fuel with
  | O => Stop OutOfFuel
  | S fuel =>
      let auxlen := Z.land (4 * Z.shiftr aux 8) 15 in
      let auxtype := Z.land aux 255 in
      if zlen ptr <? auxlen then Done None
      else if negb (auxtype =? AUX_INIT) then Done None
      else if negb (has h SYN) || negb (auxlen =? 4) then Done None
      else
        let init := Some ptr in
        let ptr := drop (Z.to_nat auxlen) ptr in
        if negb (bitset aux 2048) then Done (Some (init, ptr))
        else if zlen ptr <? 2 then Done None
        else parse_aux fuel h (le_val (take 2 ptr)) init (drop 2 ptr)
  end.

(** ** Answers *)

(** The [reset] label: the packet sent back for header [h] and length [len]. *)
Definition reset_hdr (h : hdr) (len : Z) : hdr :=
  let h := swap_ports h |> set_h_wnd 0 |> set_h_aux 0 in
  if has h ACK then h |> set_h_seq (h_ack h) |> set_h_ctl RST
  else h |> set_h_ack (u32 (h_seq h + len)) |> set_h_seq 0 |> set_h_ctl (Z.lor RST ACK).

Definition send_reset (r : rx) (w : world) : world :=
  set_sh (send_ (Packet (reset_hdr (rx_hdr r) (rx_len r)) []) (sh w)) w.

(** The [synack] label: return SYN+ACK, go to SYN_RECEIVED state. *)
Definition do_synack `{Env} (h : hdr) (init : option (list Z)) (c : utcp_connection) (s : shared)
  : outcome (unit * (utcp_connection * shared)) :=
  let c := c |> set_snd_wnd (h_wnd h) |> set_rcv_irs (h_seq h) in
  let c := c |> set_rcv_nxt (u32 (rcv_irs c + 1)) |> set_state_ SYN_RECEIVED in
  let p := Hdr (src c) (dst c) (snd_iss c) (u32 (rcv_irs c + 1)) (maxsize (rcvbuf c))
             (Z.lor SYN ACK) 0 in
  let s := match init with
           | Some _ => send_ (Packet (set_h_aux 257 p) (init_bytes (flags c))) s
           | None => send_ (Packet p []) s
           end in
  let* r := start_retransmit_timer c s in
  Done (tt, r).

(** ** A packet that matches no connection *)
Definition recv_new `{Env} (init : option (list Z)) (r : rx) (w : world)
  : outcome (flow unit * world) :=
  let h := rx_hdr r in
  let reset1 w := Done (Reset (Rx h (rx_data r) 1), w) in
  if has h RST then Done (Return, w)
  else match u_accept (sh w) with
  | Some _ =>
      if has h SYN && negb (has h ACK) then
        let '(ok, w) := match u_listen (sh w) with
                        | Some cb => on_listen cb (h_dst h) w
                        | None => (true, w)
                        end in
        if negb ok then reset1 w
        else
          let* (k, w) := allocate_connection (h_dst h) (h_src h) w in
          match k with
          | None => reset1 w
          | Some k =>
              if match init with Some i => nth 0 i 0 <? 1 | None => false end then reset1 w
              else
                let fl := match init with Some i => Z.land (nth 3 i 0) 7 | None => UTCP_TCP end in
                let* (_, w) := on_conn k w (fun c s => do_synack h init (set_flags fl c) s) in
                Done (Return, w)
          end
      else reset1 w
  | None => reset1 w
  end.

(** ** 1. Drop invalid packets *)

(** 1b: the part of the packet inside the receive window, or [None] when it has
    none. *)
Definition recv_window (r : rx) (c : utcp_connection) : option rx :=
  let h := rx_hdr r in
  let len := rx_len r in
  if state_eqb (state c) SYN_SENT then Some r
  else if len =? 0 then
    if 0 <=? seqdiff (h_seq h) (rcv_nxt c) then Some r else None
  else
    let rcv_offset := seqdiff (h_seq h) (rcv_nxt c) in
    if rcv_offset <? 0 then
      if u64 (s32 (- rcv_offset)) <? len then
        Some (Rx (set_h_seq (u32 (h_seq h - rcv_offset)) h)
                 (drop (Z.to_nat (- rcv_offset)) (rx_data r)) (len + rcv_offset))
      else None
    else if rcv_offset + len <=? maxsize (rcvbuf c) then Some r else None.

Definition recv_check `{Env} (k : key) (r : rx) (w : world) : outcome (flow rx * world) :=
  match conn_at k (conns w) with
  | None => Stop UseAfterFree
  | Some c =>
      if state_eqb (state c) CLOSED then Done (Reset r, w)
      else
        let go r :=
          let c := set_snd_wnd (h_wnd (rx_hdr r)) c in
          (* 1c. Drop packets with an invalid ACK. *)
          let r :=
            if negb (is_reliable c) && negb (h_ack (rx_hdr r) =? snd_last c) &&
               (state_num ESTABLISHED <=? state_num (state c))
            then Rx (set_h_ack (snd_una c) (rx_hdr r)) (rx_data r) (rx_len r) else r in
          Done (Next r, set_conns (put_conn c (conns w)) w) in
        if negb (is_reliable c) then go r
        else match recv_window r c with
        | Some r => go r
        | None =>
            (* Ignore unacceptable RST packets. *)
            if has (rx_hdr r) RST then Done (Return, w)
            else go (Rx (rx_hdr r) (rx_data r) 0)
        end
  end.

(** ** 2. Handle RST packets *)

(** Tell the application that the connection is gone. *)
Definition notify_closed `{Env} (k : key) (w : world) : outcome world :=
  let* (_, w) := call_recv k None w in
  match conn_at k (conns w) with
  | None => Stop UseAfterFree
  | Some c =>
      match poll c with
      | Some cb => if reapable c then Done w else Done (on_poll cb k 0 w)
      | None => Done w
      end
  end.

Definition recv_rst `{Env} (k : key) (r : rx) (w : world) : outcome (flow rx * world) :=
  let h := rx_hdr r in
  if negb (has h RST) then Done (Next r, w)
  else match conn_at k (conns w) with
  | None => Stop UseAfterFree
  | Some c =>
      let put c e := w |> set_conns (put_conn c (conns w)) |> set_sh (set_errno e (sh w)) in
      match state c with
      | SYN_SENT =>
          if negb (has h ACK) then Done (Return, w)
          else
            let* w := notify_closed k (put (set_state_ CLOSED c) ECONNREFUSED) in
            Done (Return, w)
      | SYN_RECEIVED =>
          if has h ACK then Done (Return, w)
          else let* w := free_connection k w in Done (Return, w)
      | ESTABLISHED | FIN_WAIT_1 | FIN_WAIT_2 | CLOSE_WAIT =>
          if has h ACK then Done (Return, w)
          else
            let c := set_state_ CLOSED c |> set_sndbuf (buffer_clear (sndbuf c))
                       |> set_rcvbuf (buffer_clear (rcvbuf c)) in
            let* w := notify_closed k (put c ECONNRESET) in
            Done (Return, w)
      | CLOSING | LAST_ACK | TIME_WAIT =>
          if has h ACK then Done (Return, w)
          else if reapable c then let* w := free_connection k w in Done (Return, w)
          else Done (Return, set_conns (put_conn (set_state_ CLOSED c) (conns w)) w)
      | CLOSED | LISTEN => Done (Next r, w)
      end
  end.

(** ** 3. Advance snd.una *)

(** RTT measurement. *)
Definition ack_rtt `{Env} (h : hdr) (c : utcp_connection) (s : shared) : utcp_connection * shared :=
  if tv_sec (rtt_start c) =? 0 then (c, s)
  else if rtt_seq c =? h_ack h then
    let (now, s) := clock_gettime s in
    let diff := timespec_diff_usec now (rtt_start c) in
    let c := update_rtt s (u32 diff) c in
    (set_rtt_start (set_tv_sec 0 (rtt_start c)) c, s)
  else if rtt_seq c <? h_ack h then (set_rtt_start (set_tv_sec 0 (rtt_start c)) c, s)
  else (c, s).

(** Increase the congestion window according to RFC 5681. *)
Definition grow_cwnd (advanced : Z) (s : shared) (c : utcp_connection) : outcome utcp_connection :=
  let mss := u_mss s in
  let* c :=
    if snd_cwnd c <? snd_ssthresh c then
      Done (set_snd_cwnd (u32 (snd_cwnd c + Z.min advanced mss)) c)
    else if snd_cwnd c =? 0 then Stop DivByZero
    else Done (set_snd_cwnd (u32 (snd_cwnd c + Z.max 1 (u32 (mss * mss) / snd_cwnd c))) c) in
  Done (if maxsize (sndbuf c) <? snd_cwnd c then set_snd_cwnd (maxsize (sndbuf c)) c else c).

(** The ACK acknowledges [advanced > 0] new sequence numbers. *)
Definition ack_advance `{Env} (h : hdr) (advanced : Z) (c : utcp_connection) (s : shared)
  : outcome (utcp_connection * shared) :=
  let (c, s) := ack_rtt h c s in
  let data_acked := s32 advanced - (if handshaking (state c) then 1 else 0) in
  let* _ := assert_ (0 <=? data_acked) in
  let* _ := assert_ (data_acked <=? seqdiff (snd_last c) (snd_una c)) in
  let c :=
    if negb (data_acked =? 0) then
      let c := set_sndbuf (buffer_discard (sndbuf c) data_acked).2 c in
      if is_reliable c then set_do_poll true c else c
    else c in
  (* Also advance snd.nxt if possible *)
  let c := if seqdiff (snd_nxt c) (h_ack h) <? 0 then set_snd_nxt (h_ack h) c else c in
  let c := set_snd_una (h_ack h) c in
  let c :=
    if negb (dupack c =? 0) then
      set_dupack 0 (if 3 <=? dupack c then set_snd_cwnd (snd_ssthresh c) c else c)
    else c in
  let* c := grow_cwnd advanced s c in
  (* Check if we have sent a FIN that is now ACKed. *)
  match state c with
  | FIN_WAIT_1 => Done (if snd_una c =? snd_last c then set_state_ FIN_WAIT_2 c else c, s)
  | CLOSING =>
      if snd_una c =? snd_last c then
        let (c, s) := arm_conn_timeout c s in Done (set_state_ TIME_WAIT c, s)
      else Done (c, s)
  | _ => Done (c, s)
  end.

(** The ACK acknowledges nothing new: RFC 5681 duplicate ACK handling. *)
Definition ack_duplicate `{Env} (len : Z) (c : utcp_connection) (s : shared)
  : outcome (utcp_connection * shared) :=
  if (len =? 0) && is_reliable c && negb (snd_una c =? snd_last c) then
    let c := set_dupack (dupack c + 1) c in
    let mss := u_mss s in
    let* (c, s) :=
      if dupack c =? 3 then
        let flightsize := u32 (seqdiff (snd_nxt c) (snd_una c)) in
        let c := set_snd_ssthresh (u32 (Z.max (flightsize / 2) (mss * 2))) c in
        let c := set_snd_cwnd (u32 (Z.min (u32 (snd_ssthresh c + 3 * mss)) (maxsize (sndbuf c)))) c in
        let c := if maxsize (sndbuf c) <? snd_cwnd c then set_snd_cwnd (maxsize (sndbuf c)) c else c in
        let* s := fast_retransmit c s in Done (c, s)
      else if 3 <? dupack c then
        let c := set_snd_cwnd (u32 (snd_cwnd c + mss)) c in
        Done (if maxsize (sndbuf c) <? snd_cwnd c then set_snd_cwnd (maxsize (sndbuf c)) c else c, s)
      else Done (c, s) in
    start_retransmit_timer c s
  else Done (c, s).

(** 4. Update timers. *)
Definition ack_timers `{Env} (advanced : Z) (c : utcp_connection) (s : shared)
  : outcome (utcp_connection * shared) :=
  if advanced =? 0 then Done (c, s)
  else if snd_una c =? snd_last c then
    Done (stop_retransmit_timer c |> set_conn_timeout timespec_clear, s)
  else if is_reliable c then
    let* (c, s) := start_retransmit_timer c s in
    Done (arm_conn_timeout c s)
  else Done (c, s).

(** Stages 3 and 4; the result carries [advanced], or says that the
    acknowledgement number is out of range. *)
Definition process_ack `{Env} (r : rx) (c : utcp_connection) (s : shared)
  : outcome (option Z * (utcp_connection * shared)) :=
  let h := rx_hdr r in
  if negb (has h ACK) then Done (Some 0, (c, s))
  else if (0 <? seqdiff (h_ack h) (snd_last c)) || (seqdiff (h_ack h) (snd_una c) <? 0) then
    Done (None, (c, s))
  else
    let advanced := u32 (seqdiff (h_ack h) (snd_una c)) in
    let* (c, s) := if negb (advanced =? 0) then ack_advance h advanced c s
                   else ack_duplicate (rx_len r) c s in
    let* (c, s) := ack_timers advanced c s in
    Done (Some advanced, (c, s)).

Definition recv_ack `{Env} (k : key) (r : rx) (w : world) : outcome (flow Z * world) :=
  let* (a, w) := on_conn k w (process_ack r) in
  match a with
  | Some advanced => Done (Next advanced, w)
  | None => Done (Reset r, w)
  end.

(** ** 5. Process SYN stuff *)
Definition recv_syn (k : key) (r : rx) (advanced : Z) (w : world) : outcome (flow unit * world) :=
  let h := rx_hdr r in
  if negb (has h SYN) then Done (Next tt, w)
  else match conn_at k (conns w) with
  | None => Stop UseAfterFree
  | Some c =>
      match state c with
      | SYN_SENT =>
          (* This is a SYNACK. It should always have ACKed the SYN. *)
          if advanced =? 0 then Done (Reset r, w)
          else
            let c := c |> set_rcv_irs (h_seq h) |> set_rcv_nxt (u32 (h_seq h + 1)) in
            let c := if shut_wr c
                     then c |> set_snd_last (u32 (snd_last c + 1)) |> set_state_ FIN_WAIT_1
                     else c |> set_do_poll true |> set_state_ ESTABLISHED in
            Done (Next tt, set_conns (put_conn c (conns w)) w)
      | SYN_RECEIVED => Done (Synack r, w)
      | ESTABLISHED | FIN_WAIT_1 | FIN_WAIT_2 | CLOSE_WAIT | CLOSING | LAST_ACK | TIME_WAIT =>
          Done (Next tt, w)
      | CLOSED | LISTEN => Done (Return, w)
      end
  end.

(** ** 6. Process new data *)

(** The ACK after the SYNACK: let the application accept the connection. *)
Definition recv_accept `{Env} (k : key) (r : rx) (advanced : Z) (w : world)
  : outcome (flow unit * world) :=
  match conn_at k (conns w) with
  | None => Stop UseAfterFree
  | Some c =>
      if negb (state_eqb (state c) SYN_RECEIVED) then Done (Next tt, w)
      else if advanced =? 0 then Done (Reset r, w)
      else
        let w := match u_accept (sh w) with Some cb => on_accept cb k (src c) w | None => w end in
        match conn_at k (conns w) with
        | None => Stop UseAfterFree
        | Some c =>
            if negb (state_eqb (state c) ESTABLISHED) then
              let c := c |> set_state_ CLOSED |> set_reapable true in
              Done (Reset r, set_conns (put_conn c (conns w)) w)
            else Done (Next tt, w)
        end
  end.

Definition recv_data `{Env} (k : key) (r : rx) (w : world) : outcome (flow unit * world) :=
  if rx_len r =? 0 then Done (Next tt, w)
  else match conn_at k (conns w) with
  | None => Stop UseAfterFree
  | Some c =>
      let accept_data :=
        let* w := handle_incoming_data k (rx_hdr r) (take (Z.to_nat (rx_len r)) (rx_data r)) w in
        Done (Next tt, w) in
      match state c with
      | SYN_SENT | SYN_RECEIVED => Done (Return, w)
      | ESTABLISHED => accept_data
      | FIN_WAIT_1 | FIN_WAIT_2 =>
          (* We already closed the connection and are not interested in more data. *)
          if reapable c then Done (Reset r, w) else accept_data
      | CLOSE_WAIT | CLOSING | LAST_ACK | TIME_WAIT =>
          (* Ehm no, We should never receive more data after a FIN. *)
          Done (Reset r, w)
      | CLOSED | LISTEN => Done (Return, w)
      end
  end.

(** ** 7. Process FIN stuff *)

(** The connection after its peer's FIN, or [None] for a second FIN. *)
Definition fin_transition `{Env} (c : utcp_connection) (s : shared)
  : option (utcp_connection * shared) :=
  match state c with
  | SYN_SENT | SYN_RECEIVED | CLOSED | LISTEN => Some (c, s)
  | ESTABLISHED => Some (set_state_ CLOSE_WAIT c, s)
  | FIN_WAIT_1 => Some (set_state_ CLOSING c, s)
  | FIN_WAIT_2 => let (c, s) := arm_conn_timeout c s in Some (set_state_ TIME_WAIT c, s)
  | CLOSE_WAIT | CLOSING | LAST_ACK | TIME_WAIT => None
  end.

Definition recv_fin `{Env} (k : key) (r : rx) (w : world) : outcome (flow unit * world) :=
  let h := rx_hdr r in
  match conn_at k (conns w) with
  | None => Stop UseAfterFree
  | Some c =>
      if has h FIN && (negb (is_reliable c) || (h_seq h + rx_len r =? rcv_nxt c)) then
        match fin_transition c (sh w) with
        | None => Done (Reset r, w)
        | Some (c, s) =>
            (* FIN counts as one sequence number *)
            let c := set_rcv_nxt (u32 (rcv_nxt c + 1)) c in
            let w := World (match recv c with Some _ => set_errno 0 s | None => s end)
                       (put_conn c (conns w)) in
            (* Inform the application that the peer closed its end of the connection. *)
            let* (_, w) := call_recv k None w in
            Done (Next tt, w)
        end
      else Done (Next tt, w)
  end.

(** ** The whole function *)

Definition recv_answer `{Env} (k : key) (r : rx) (has_data : bool) (w : world)
  : outcome (flow unit * world) :=
  let h := rx_hdr r in
  let* (_, w) := on_conn k w (fun c s =>
    if is_reliable c || has h SYN || has h FIN
    then let* p := ack has_data c s in Done (tt, p) else Done (tt, (c, s))) in
  Done (Return, w).

Definition recv_existing `{Env} (k : key) (has_data : bool) (r : rx) (w : world)
  : outcome (flow unit * world) :=
  fbind (recv_check k r w) (fun r w =>
  fbind (recv_rst k r w) (fun r w =>
  fbind (recv_ack k r w) (fun advanced w =>
  fbind (recv_syn k r advanced w) (fun _ w =>
  fbind (recv_accept k r advanced w) (fun _ w =>
  fbind (recv_data k r w) (fun _ w =>
  fbind (recv_fin k r w) (fun _ w =>
  recv_answer k r has_data w))))))).

(** What the labels do with the flow of the stages. *)
Definition recv_exit `{Env} (k : key) (init : option (list Z)) (f : flow unit) (w : world)
  : outcome (Z * world) :=
  match f with
  | Next _ | Return => Done (0, w)
  | Reset r => Done (0, send_reset r w)
  | Synack r => let* (_, w) := on_conn k w (do_synack (rx_hdr r) init) in Done (0, w)
  end.

(** [dat] is [None] for a NULL pointer; otherwise it holds [len] bytes. *)
Definition utcp_recv `{Env} (dat : option (list Z)) (len : Z) (w : world) : outcome (Z * world) :=
  let fail e := Done (-1, set_sh (set_errno e (sh w)) w) in
  if len =? 0 then Done (0, w)
  else match dat with
  | None => fail EFAULT
  | Some bytes =>
  if len <? sizeof_hdr then fail EBADMSG
  else
    let h := hdr_of_bytes bytes in
    let payload := drop (Z.to_nat sizeof_hdr) bytes in
    (* Drop packets with an unknown CTL flag *)
    if negb (Z.ldiff (h_ctl h) 31 =? 0) then fail EBADMSG
    else
      let* a := parse_aux (S (length payload)) h (h_aux h) None payload in
      match a with
      | None => fail EBADMSG
      | Some (init, ptr) =>
          let r := Rx h ptr (zlen ptr) in
          let has_data := negb (zlen ptr =? 0) || bitset (h_ctl h) (Z.lor SYN FIN) in
          let k := (h_dst h, h_src h) in
          let* (f, w) :=
            match find_connection (conns w) (h_dst h) (h_src h) with
            | None => recv_new init r w
            | Some _ => recv_existing k has_data r w
            end in
          recv_exit k init f w
      end
  end.
