(* ===== verification/UtcpApi.v ===== *)
(** The rest of UTCP's interface (src/src/utcp.c: [utcp_shutdown] to
    [utcp_set_clock_granularity]): closing, aborting, the timeout loop, and the
    global and per-connection options.  A [NULL] connection or [utcp] argument,
    where the code tests for it, is the [None] of an option. *)
From stdpp Require Import sorting.
From S2P Require Import Prelude UtcpBuffer UtcpTypes UtcpTimer UtcpTable UtcpSend UtcpInput UtcpRecv.

(** ** Closing *)

(** The switch of [utcp_shutdown]: [inl r] returns [r], [inr c] goes on. *)
Definition shutdown_state (c : utcp_connection) (s : shared)
  : (Z * shared) + utcp_connection :=
  match state c with
  | CLOSED | LISTEN => inl (-1, set_errno ENOTCONN s)
  | SYN_SENT => inl (0, s)
  | SYN_RECEIVED | ESTABLISHED => inr (set_state_ FIN_WAIT_1 c)
  | FIN_WAIT_1 | FIN_WAIT_2 => inl (0, s)
  | CLOSE_WAIT => inr (set_state_ CLOSING c)
  | CLOSING | LAST_ACK | TIME_WAIT => inl (0, s)
  end.

Definition utcp_shutdown `{Env} (dir : Z) (c : utcp_connection) (s : shared)
  : outcome (Z * (utcp_connection * shared)) :=
  if reapable c then Done (-1, (c, set_errno EBADF s))
  else if negb ((dir =? UTCP_SHUT_RD) || (dir =? UTCP_SHUT_WR) || (dir =? UTCP_SHUT_RDWR))
  then Done (-1, (c, set_errno EINVAL s))
  else
    let c := if (dir =? UTCP_SHUT_RD) || (dir =? UTCP_SHUT_RDWR) then set_recv None c else c in
    if dir =? UTCP_SHUT_RD then Done (0, (c, s))
    else if shut_wr c then Done (0, (c, s))
    else
      let c := set_shut_wr true c in
      match shutdown_state c s with
      | inl (r, s) => Done (r, (c, s))
      | inr c =>
          let c := set_snd_last (u32 (snd_last c + 1)) c in
          let* (c, s) := ack false c s in
          let* (c, s) := if negb (timespec_isset (rtrx_timeout c))
                         then start_retransmit_timer c s else Done (c, s) in
          Done (0, (c, s))
      end.

Definition reset_connection (c : utcp_connection) (s : shared)
  : bool * (utcp_connection * shared) :=
  if reapable c then (false, (c, set_errno EBADF s))
  else
    let c := c |> set_sndbuf (buffer_clear (sndbuf c)) |> set_rcvbuf (buffer_clear (rcvbuf c)) in
    match state c with
    | CLOSED => (true, (c, s))
    | LISTEN | SYN_SENT | CLOSING | LAST_ACK | TIME_WAIT => (true, (set_state_ CLOSED c, s))
    | SYN_RECEIVED | ESTABLISHED | FIN_WAIT_1 | FIN_WAIT_2 | CLOSE_WAIT =>
        let c := set_state_ CLOSED c in
        let h := Hdr (src c) (dst c) (snd_nxt c) (rcv_nxt c) 0 RST 0 in
        (true, (c, send_ (Packet h []) s))
    end.

Definition set_reapable_ `{Env} (c : utcp_connection) (s : shared)
  : outcome (utcp_connection * shared) :=
  let (al, s) := next_alloc s in
  let* sb := set_buffer_storage al (sndbuf c) None (Z.min (maxsize (sndbuf c)) DEFAULT_MAXSNDBUFSIZE) in
  let (al, s) := next_alloc s in
  let* rb := set_buffer_storage al (rcvbuf c) None (Z.min (maxsize (rcvbuf c)) DEFAULT_MAXRCVBUFSIZE) in
  Done (c |> set_sndbuf sb |> set_rcvbuf rb |> set_recv None |> set_poll None |> set_reapable true, s).

Definition utcp_close `{Env} (c : utcp_connection) (s : shared)
  : outcome (Z * (utcp_connection * shared)) :=
  let* (r, (c, s)) := utcp_shutdown UTCP_SHUT_RDWR c s in
  if negb (r =? 0) && negb (errno s =? ENOTCONN) then Done (-1, (c, s))
  else let* p := set_reapable_ c s in Done (0, p).

Definition utcp_abort `{Env} (c : utcp_connection) (s : shared)
  : outcome (Z * (utcp_connection * shared)) :=
  let '(ok, (c, s)) := reset_connection c s in
  if negb ok then Done (-1, (c, s))
  else let* p := set_reapable_ c s in Done (0, p).

(** ** Loops over the table

    [for(i = 0; i < utcp->nconnections; i++)]: the table is read afresh in every
    turn, because callbacks may change it.  [body i c w] returns the next index. *)
Fixpoint for_conns (fuel : nat) (i : nat)
    (body : nat -> utcp_connection -> world -> outcome (nat * world)) (w : world) : outcome world :=
  match conns w !! i with
  | None => Done w
  | Some c =>
      match fuel with
      | O => Stop OutOfFuel
      | S fuel => let* (i, w) := body i c w in for_conns fuel i body w
      end
  end.

(** Tell the application that the connection was reset, with [errno] cleared
    before each callback. *)
Definition notify_reset `{Env} (k : key) (w : world) : outcome world :=
  let clear w := set_sh (set_errno 0 (sh w)) w in
  match conn_at k (conns w) with
  | None => Stop UseAfterFree
  | Some c =>
      let* (_, w) := match recv c with Some _ => call_recv k None (clear w) | None => Done (0, w) end in
      match conn_at k (conns w) with
      | None => Stop UseAfterFree
      | Some c =>
          match poll c with
          | Some cb => if reapable c then Done w else Done (on_poll cb k 0 (clear w))
          | None => Done w
          end
      end
  end.

(** Resets all connections, but does not invalidate connection handles *)
Definition utcp_reset_all_connections `{Env} (w : world) : outcome world :=
  for_conns (S (length (conns w))) 0 (fun i c w =>
    if reapable c || state_eqb (state c) CLOSED then Done (S i, w)
    else
      let '(_, (c', s)) := reset_connection c (sh w) in
      let* w := notify_reset (key_of c) (World s (put_conn c' (conns w))) in
      Done (S i, w)) w.

(** The connection timed out. *)
Definition timeout_connection `{Env} (c : utcp_connection) (w : world) : outcome world :=
  let c := c |> set_state CLOSED |> set_sndbuf (buffer_clear (sndbuf c))
             |> set_rcvbuf (buffer_clear (rcvbuf c)) in
  notify_closed (key_of c) (World (set_errno ETIMEDOUT (sh w)) (put_conn c (conns w))).

(** Tell the application that it may send. *)
Definition timeout_poll `{Env} (k : key) (w : world) : outcome world :=
  match conn_at k (conns w) with
  | None => Stop UseAfterFree
  | Some c =>
      match poll c with
      | None => Done w
      | Some cb =>
          if (state_eqb (state c) ESTABLISHED || state_eqb (state c) CLOSE_WAIT) && do_poll c then
            let c := set_do_poll false c in
            let len := buffer_free (sndbuf c) in
            let w := set_conns (put_conn c (conns w)) w in
            Done (if negb (len =? 0) then on_poll cb k len w else w)
          else if state_eqb (state c) CLOSED then Done (on_poll cb k 0 w)
          else Done w
      end
  end.

Definition earlier (t next : timespec) : timespec :=
  if timespec_isset t && timespec_lt t next then t else next.

(** One turn of the loop of [utcp_timeout]. *)
Definition timeout_turn `{Env} (now : timespec) (i : nat) (c : utcp_connection)
    (next : timespec) (w : world) : outcome (nat * timespec * world) :=
  let k := key_of c in
  if state_eqb (state c) CLOSED then
    if reapable c then let* w := free_connection k w in Done (i, next, w) else Done (S i, next, w)
  else if timespec_isset (conn_timeout c) && timespec_lt (conn_timeout c) now then
    let* w := timeout_connection c w in Done (S i, next, w)
  else
    let* w := if timespec_isset (rtrx_timeout c) && timespec_lt (rtrx_timeout c) now
              then retransmit k w else Done w in
    let* w := timeout_poll k w in
    match conn_at k (conns w) with
    | None => Stop UseAfterFree
    | Some c => Done (S i, earlier (rtrx_timeout c) (earlier (conn_timeout c) next), w)
    end.

Fixpoint timeout_loop `{Env} (fuel : nat) (now : timespec) (i : nat) (next : timespec) (w : world)
  : outcome (timespec * world) :=
  match conns w !! i with
  | None => Done (next, w)
  | Some c =>
      match fuel with
      | O => Stop OutOfFuel
      | S fuel =>
          let* (i, next, w) := timeout_turn now i c next w in
          timeout_loop fuel now i next w
      end
  end.

(** Every turn either frees a connection or goes to the next one, so with a
    callback that opens no connections there are at most as many turns as
    connections. *)
Definition utcp_timeout `{Env} (w : world) : outcome (timespec * world) :=
  let (now, s) := clock_gettime (sh w) in
  let w := set_sh s w in
  let next := Timespec (tv_sec now + 3600) (tv_nsec now) in
  let* (next, w) := timeout_loop (length (conns w)) now 0 next w in
  Done (timespec_sub next now, w).

Definition utcp_is_active (w : world) : bool :=
  existsb (fun c => negb (state_eqb (state c) CLOSED) && negb (state_eqb (state c) TIME_WAIT)) (conns w).

(** ** Creating and destroying *)

Definition utcp_set_mtu `{Env} (mtu : Z) (s : shared) : shared :=
  if mtu <=? sizeof_hdr then s
  else
    let '(ok, s) :=
      if u_mtu s <? mtu then
        let (al, s) := next_alloc s in
        if a_ok al then (true, set_u_pkt (mem_realloc al (u_pkt s) mtu) s) else (false, s)
      else (true, s) in
    if negb ok then s else s |> set_u_mtu mtu |> set_u_mss (mtu - sizeof_hdr).

(** [granularity] is the static variable CLOCK_GRANULARITY, [res] the answer of
    [clock_getres]; [None] when [send] is NULL or memory is short. *)
Definition utcp_init `{Env} (accept listen : option Z) (send_set : bool) (prv granularity : Z)
    (res : timespec) (tick0 : nat) : option world :=
  if negb send_set then None
  else
    let s := Shared None None None 0 [] 0 0 0 0 0 0 granularity tick0 [] [] in
    let (al, s) := next_alloc s in
    if negb (a_ok al) then None
    else
      let s := utcp_set_mtu DEFAULT_MTU s in
      if u_mtu s =? 0 then None
      else
        let s := if clock_granularity s =? 0
                 then set_clock_granularity (tv_sec res * USEC_PER_SEC + Z.quot (tv_nsec res) 1000) s
                 else s in
        Some (World (s |> set_u_accept accept |> set_u_listen listen |> set_u_priv prv
                       |> set_u_timeout DEFAULT_USER_TIMEOUT) []).

(** The notifications of [utcp_exit]; then everything is freed. *)
Definition utcp_exit `{Env} (w : world) : outcome world :=
  for_conns (S (length (conns w))) 0 (fun i c w =>
    if reapable c then Done (S i, w)
    else
      let c := c |> set_sndbuf (buffer_clear (sndbuf c)) |> set_rcvbuf (buffer_clear (rcvbuf c)) in
      let* w := notify_closed (key_of c) (set_conns (put_conn c (conns w)) w) in
      Done (S i, w)) w.

(** ** Options *)

Definition utcp_get_mtu (u : option shared) : Z := match u with Some s => u_mtu s | None => 0 end.
Definition utcp_get_mss (u : option shared) : Z := match u with Some s => u_mss s | None => 0 end.

Definition restart_timers (now : timespec) (c : utcp_connection) : utcp_connection :=
  let c := if timespec_isset (rtrx_timeout c) then set_rtrx_timeout now c else c in
  let c := set_rtt_start (set_tv_sec 0 (rtt_start c)) c in
  if START_RTO <? rto c then set_rto START_RTO c else c.

Definition utcp_reset_timers `{Env} (w : world) : world :=
  let (now, s) := clock_gettime (sh w) in
  let then_ := set_tv_sec (tv_sec now + u_timeout s) now in
  World s ((fun c => if reapable c then c else
    let c := if timespec_isset (conn_timeout c) then set_conn_timeout then_ c else c in
    restart_timers now c) <$> conns w).

Definition utcp_get_user_timeout (u : option shared) : Z :=
  match u with Some s => u_timeout s | None => 0 end.

Definition utcp_set_user_timeout (t : Z) (s : shared) : shared := set_u_timeout t s.

Definition utcp_get_sndbuf (c : option utcp_connection) : Z :=
  match c with Some c => maxsize (sndbuf c) | None => 0 end.

Definition utcp_get_sndbuf_free (c : option utcp_connection) : Z :=
  match c with
  | None => 0
  | Some c => match state c with
              | SYN_SENT | SYN_RECEIVED | ESTABLISHED | CLOSE_WAIT => buffer_free (sndbuf c)
              | _ => 0
              end
  end.

Definition utcp_set_sndbuf `{Env} (ext : option (list Z)) (sz : Z) (c : utcp_connection) (s : shared)
  : outcome (utcp_connection * shared) :=
  let (al, s) := next_alloc s in
  let* b := set_buffer_storage al (sndbuf c) ext sz in
  let c := set_sndbuf b c in
  Done (set_do_poll (is_reliable c && negb (buffer_free (sndbuf c) =? 0)) c, s).

Definition utcp_get_rcvbuf (c : option utcp_connection) : Z :=
  match c with Some c => maxsize (rcvbuf c) | None => 0 end.

Definition utcp_get_rcvbuf_free (c : option utcp_connection) : Z :=
  match c with
  | None => 0
  | Some c => if state_eqb (state c) ESTABLISHED || state_eqb (state c) CLOSE_WAIT
              then buffer_free (rcvbuf c) else 0
  end.

Definition utcp_set_rcvbuf `{Env} (ext : option (list Z)) (sz : Z) (c : utcp_connection) (s : shared)
  : outcome (utcp_connection * shared) :=
  let (al, s) := next_alloc s in
  let* b := set_buffer_storage al (rcvbuf c) ext sz in
  Done (set_rcvbuf b c, s).

Definition utcp_get_sendq (c : utcp_connection) : Z := used (sndbuf c).
Definition utcp_get_recvq (c : utcp_connection) : Z := used (rcvbuf c).
Definition utcp_get_nodelay (c : option utcp_connection) : bool :=
  match c with Some c => nodelay c | None => false end.
Definition utcp_set_nodelay (v : bool) (c : utcp_connection) : utcp_connection := set_nodelay v c.
Definition utcp_get_keepalive (c : option utcp_connection) : bool :=
  match c with Some c => keepalive c | None => false end.
Definition utcp_set_keepalive (v : bool) (c : utcp_connection) : utcp_connection := set_keepalive v c.

Definition utcp_get_outq (c : option utcp_connection) : Z :=
  match c with Some c => u64 (seqdiff (snd_nxt c) (snd_una c)) | None => 0 end.

Definition utcp_set_recv_cb (cb : option Z) (c : utcp_connection) : utcp_connection := set_recv cb c.

Definition utcp_set_poll_cb (cb : option Z) (c : utcp_connection) : utcp_connection :=
  c |> set_poll cb |> set_do_poll (is_reliable c && negb (buffer_free (sndbuf c) =? 0)).

Definition utcp_set_accept_cb (accept listen : option Z) (s : shared) : shared :=
  s |> set_u_accept accept |> set_u_listen listen.

Definition utcp_expect_data `{Env} (expect : bool) (c : utcp_connection) (s : shared)
  : utcp_connection * shared :=
  if reapable c then (c, s)
  else match state c with
  | ESTABLISHED | FIN_WAIT_1 | FIN_WAIT_2 =>
      if expect then
        if negb (timespec_isset (conn_timeout c)) then arm_conn_timeout c s else (c, s)
      else if snd_una c =? snd_last c then (set_conn_timeout timespec_clear c, s) else (c, s)
  | _ => (c, s)
  end.

Definition utcp_set_flags (fl : Z) (c : utcp_connection) : utcp_connection :=
  set_flags (Z.lor (Z.ldiff (flags c) UTCP_CHANGEABLE_FLAGS) (Z.land fl UTCP_CHANGEABLE_FLAGS)) c.

Fixpoint offline_loop `{Env} (now : timespec) (offline : bool) (cs : list utcp_connection) (s : shared)
  : list utcp_connection * shared :=
  match cs with
  | [] => ([], s)
  | c :: cs =>
      let (c, s) :=
        if reapable c then (c, s)
        else
          let (c, s) := utcp_expect_data offline c s in
          (if offline then c else restart_timers now c, s) in
      let (cs, s) := offline_loop now offline cs s in (c :: cs, s)
  end.

Definition utcp_offline `{Env} (offline : bool) (w : world) : world :=
  let (now, s) := clock_gettime (sh w) in
  let (cs, s) := offline_loop now offline (conns w) s in World s cs.

Definition utcp_set_retransmit_cb (cb : option Z) (s : shared) : shared := set_u_retransmit cb s.

Definition utcp_set_clock_granularity (g : Z) (s : shared) : shared := set_clock_granularity g s.
