(* ===== verification/UtcpInv.v ===== *)
(** What holds of every connection between two calls, and that the sending half
    of UTCP keeps it.

    [wf_conn] says that the buffers are well-formed, that the send sequence
    numbers are in order on the 32-bit circle ([una <= nxt <= last], within half
    the circle), and that the congestion variables fit their types; [wf_shared]
    that the packet buffer can hold a full segment.  Each operation on a
    well-formed connection returns (no [assert] fails, no access leaves its
    object, no division by zero, no loop runs out of fuel) and leaves it
    well-formed. *)
From stdpp Require Import sorting.
From S2P Require Import Prelude UtcpBuffer UtcpTypes UtcpTimer UtcpTable UtcpSend UtcpInput UtcpRecv UtcpApi.

(** The most bytes a send buffer may be configured to hold: sequence numbers are
    compared within half the circle. *)
Definition SNDMAX : Z := 2 ^ 31 - 8.

(** Sequence numbers in flight that are not bytes of the send buffer: the SYN,
    and in the closing states the FIN. *)
Definition slack (st : tcp_state) : Z :=
  match st with SYN_SENT | SYN_RECEIVED | ESTABLISHED | CLOSE_WAIT => 1 | _ => 2 end.

Record wf_snd (c : utcp_connection) : Prop := {
  ws_buf : wf_buffer (sndbuf c);
  ws_una : 0 <= snd_una c < 2 ^ 32;
  ws_nxt : 0 <= snd_nxt c < 2 ^ 32;
  ws_last : 0 <= snd_last c < 2 ^ 32;
  ws_order : 0 <= seqdiff (snd_nxt c) (snd_una c) <= seqdiff (snd_last c) (snd_una c);
  ws_window : state c <> CLOSED ->
    seqdiff (snd_last c) (snd_una c) <= used (sndbuf c) + slack (state c);
  ws_used : used (sndbuf c) <= SNDMAX;
  ws_max : maxsize (sndbuf c) <= SNDMAX;
  ws_cwnd : 0 <= snd_cwnd c < 2 ^ 32;
  ws_ssthresh : 0 < snd_ssthresh c < 2 ^ 32;
  ws_rto : 0 <= rto c < 2 ^ 32;
}.

(** [cap] is the capacity of the connection table, which no operation on a
    connection changes. *)
Record wf_shared (cap : Z) (s : shared) : Prop := {
  wh_mss : 1 <= u_mss s < 2 ^ 16 - 20;
  wh_pkt : u_mss s + 20 <= zlen (u_pkt s);
  wh_mtu : u_mtu s <= zlen (u_pkt s);
  wh_slots : u_slots s = cap;
  wh_cap : u_nallocated s = cap;
}.

(** [d(last, nxt)] is what is left of [d(last, una)] after [d(nxt, una)]. *)
Lemma seqdiff_sub a b c :
  0 <= seqdiff b c <= seqdiff a c -> seqdiff a b = seqdiff a c - seqdiff b c.
Proof.
  intros H. unfold seqdiff in *.
  assert (Hs : forall x, exists k, s32 x = x + k * 2 ^ 32).
  { intros x. exists (- ((x + 2 ^ 31) / 2 ^ 32)). unfold s32.
    pose proof (Z.div_mod (x + 2 ^ 31) (2 ^ 32)). lia. }
  pose proof (s32_range (a - c)). pose proof (s32_range (b - c)).
  destruct (Hs (a - c)) as [k1 E1], (Hs (b - c)) as [k2 E2].
  apply (s32_unique _ _ (- (k1 - k2))); lia.
Qed.

Lemma seqdiff_lo a b k :
  - 2 ^ 31 <= seqdiff a b - k < 2 ^ 31 -> seqdiff a (u32 (b + k)) = seqdiff a b - k.
Proof.
  intros H. unfold seqdiff in *.
  assert (Hs : exists j, s32 (a - b) = a - b + j * 2 ^ 32).
  { exists (- ((a - b + 2 ^ 31) / 2 ^ 32)). unfold s32.
    pose proof (Z.div_mod (a - b + 2 ^ 31) (2 ^ 32)). lia. }
  destruct Hs as [j E]. unfold u32. pose proof (Z.div_mod (b + k) (2 ^ 32)).
  apply (s32_unique _ _ ((b + k) / 2 ^ 32 - j)); lia.
Qed.

(** ** The packet buffer *)

Lemma pkt_store_ok d s :
  zlen d <= zlen (u_pkt s) ->
  exists m, pkt_store d s = Done (set_u_pkt m s) /\ zlen m = zlen (u_pkt s) /\
    take (length d) m = d.
Proof.
  intros H. unfold pkt_store. rewrite mem_write_ok by lia. cbn [obind].
  eexists. split; [done|]. change (Z.to_nat 0) with 0%nat. rewrite take_0. simpl. split.
  - zlist.
  - by rewrite take_app_length.
Qed.

Lemma pkt_send_ok h n s :
  0 <= n <= zlen (u_pkt s) ->
  pkt_send h n s = Done (send_ (Packet h (take (Z.to_nat n) (u_pkt s))) s).
Proof. intros H. unfold pkt_send. rewrite mem_read_ok by lia. by change (Z.to_nat 0) with 0%nat. Qed.

(** ** [ack] *)

Lemma ack_left_ok {cap} b c s :
  wf_snd c -> wf_shared cap s ->
  exists l, ack_left b c s = Done l /\ 0 <= l <= seqdiff (snd_last c) (snd_nxt c).
Proof.
  intros Hc Hs. pose proof (ws_order _ Hc) as Ho. pose proof (wh_mss _ _ Hs) as Hm.
  pose proof (seqdiff_sub _ _ _ Ho) as Hd. unfold ack_left.
  set (cw := if is_reliable c then _ else _). clearbody cw.
  rewrite (proj2 (Z.leb_le 0 _)) by lia. cbn [assert_ obind].
  zcase; [exists 0; split; [done|lia]|]. zcase; [|eexists; split; [done|lia]].
  destruct (negb b || (u_mss s <? cw)).
  - rewrite (proj2 (Z.eqb_neq (u_mss s) 0)) by lia.
    pose proof (Z.rem_bound_pos cw (u_mss s)). pose proof (Z.rem_le cw (u_mss s)). eexists; split; [done|]. lia.
  - eexists; split; [done|lia].
Qed.

(** The fields a segment changes. *)
Definition sent_upto (c c' : utcp_connection) : Prop :=
  exists n t q, c' = c |> set_snd_nxt n |> set_rtt_start t |> set_rtt_seq q.

Lemma sent_upto_trans a b c : sent_upto a b -> sent_upto b c -> sent_upto a c.
Proof. intros (n & t & q & ->) (n' & t' & q' & ->). by exists n', t', q'. Qed.

(** Shared state after packets were sent: only the packet buffer's bytes, the
    clock reading and the output grow. *)
Definition sent_packets (s : shared) (ps : list packet) (s' : shared) : Prop :=
  exists m n, s' = s |> set_u_pkt m |> set_tick n |> set_out (out s ++ ps) /\
    zlen m = zlen (u_pkt s).

Lemma sent_packets_trans a b c p q :
  sent_packets a p b -> sent_packets b q c -> sent_packets a (p ++ q) c.
Proof.
  intros (m & n & -> & H) (m' & n' & -> & H'). exists m', n'. simpl in *.
  rewrite app_assoc. split; [done|congruence].
Qed.

Lemma sent_packets_wf {cap} s ps s' : sent_packets s ps s' -> wf_shared cap s -> wf_shared cap s'.
Proof. intros (m & n & -> & H) []. constructor; simpl; lia. Qed.

(** Whether a segment of [n] numbers at [snd.nxt] ends with our FIN. *)
Definition fin_bit (c : utcp_connection) (n : Z) : Z :=
  if negb (n =? 0) && fin_wanted c (u32 (snd_nxt c + n)) then 1 else 0.

Lemma fin_bit_range c n : 0 <= n -> 0 <= fin_bit c n <= n.
Proof. intros H. unfold fin_bit. zcase; lia. Qed.

(** One segment: the bytes at [snd.nxt], as far as they are in the buffer. *)
Lemma ack_segment_ok {cap} `{Env} c s h l n d e :
  wf_snd c -> wf_shared cap s -> 0 <= l <= seqdiff (snd_last c) (snd_nxt c) ->
  n = Z.min l (u_mss s) -> d = seqdiff (snd_nxt c) (snd_una c) -> e = fin_bit c n ->
  exists c' s' h' p,
    ack_segment c s h l = Done (c', s', h', l - n) /\
    sent_upto c c' /\ snd_nxt c' = u32 (snd_nxt c + n) /\ sent_packets s [p] s' /\
    h_seq (p_hdr p) = snd_nxt c /\ zlen (p_data p) = n - e /\
    (d + (n - e) <= used (sndbuf c) ->
     p_data p = slice (Z.to_nat d) (Z.to_nat (n - e)) (contents (sndbuf c))).
Proof.
  intros Hc Hs Hl Hn Hd He. pose proof (ws_order _ Hc) as Ho. pose proof (wh_mss _ _ Hs) as Hm.
  pose proof (wh_pkt _ _ Hs) as Hp. pose proof (seqdiff_range (snd_last c) (snd_una c)) as Hr.
  unfold ack_segment. replace (if u_mss s <? l then u_mss s else l) with n by (zcase; lia).
  rewrite <- Hd, (u64_small d) by lia. rewrite copy_ok; [|apply (ws_buf _ Hc)|lia|lia]. cbn [obind].
  set (cp := slice (Z.to_nat d) (Z.to_nat n) (contents (sndbuf c))).
  assert (Hcp : zlen cp <= n) by (unfold cp, zlen; rewrite length_slice; lia).
  destruct (pkt_store_ok cp s) as (m & -> & Hm1 & Hm2); [lia|]. cbn [obind].
  assert (Hx : fin_bit c n =
    if negb (n =? 0) && fin_wanted (set_snd_nxt (u32 (snd_nxt c + n)) c) (u32 (snd_nxt c + n)) then 1 else 0)
    by done.
  pose proof (fin_bit_range c n) as Hfb.
  cbn -[u32 Z.sub Z.min fin_wanted is_reliable pkt_send cp].
  set (h1 := if negb (is_reliable _) then _ else _).
  assert (Hh1 : h_seq h1 = snd_nxt c) by (subst h1; by destruct (is_reliable _)). clearbody h1.
  assert (Hdat : forall k, Z.to_nat k = Z.to_nat (n - e) -> d + (n - e) <= used (sndbuf c) ->
    take (Z.to_nat k) m = slice (Z.to_nat d) (Z.to_nat (n - e)) (contents (sndbuf c))).
  { intros k -> Hk. pose proof (length_contents _ (ws_buf _ Hc)) as Hlc.
    assert (Hle : (Z.to_nat (n - e) <= length cp)%nat).
    { unfold cp, zlen in *. rewrite length_slice. lia. }
    replace (take (Z.to_nat (n - e)) m) with (take (Z.to_nat (n - e)) (take (length cp) m))
      by (rewrite take_take; f_equal; lia).
    rewrite Hm2. unfold cp, slice. rewrite take_take. f_equal. lia. }
  rewrite Hx in He.
  destruct (negb (n =? 0) && _) eqn:Ef; cbn -[u32 Z.sub Z.min fin_wanted is_reliable pkt_send cp].
  - destruct (tv_sec (rtt_start c) =? 0); cbn -[u32 Z.sub Z.min fin_wanted is_reliable pkt_send cp];
      (rewrite pkt_send_ok by (simpl; lia)); cbn -[u32 Z.sub Z.min is_reliable cp];
      (eexists _, _, _, _; split; [done|]; split; [by eexists _, _, _|]; split; [done|];
       split; [by eexists _, _|]; simpl; split; [done|]; split; [zlist|]; intros; apply Hdat; [f_equal; lia|done]).
  - destruct (tv_sec (rtt_start c) =? 0); cbn -[u32 Z.sub Z.min fin_wanted is_reliable pkt_send cp];
      (rewrite pkt_send_ok by (simpl; lia)); cbn -[u32 Z.sub Z.min is_reliable cp];
      (eexists _, _, _, _; split; [done|]; split; [by eexists _, _, _|]; split; [done|];
       split; [by eexists _, _|]; simpl; split; [done|]; split; [zlist|]; intros; apply Hdat; [f_equal; lia|done]).
Qed.

Lemma sent_upto_wf c c' n :
  wf_snd c -> sent_upto c c' -> snd_nxt c' = u32 (snd_nxt c + n) ->
  0 <= n <= seqdiff (snd_last c) (snd_nxt c) ->
  wf_snd c' /\ seqdiff (snd_last c') (snd_nxt c') = seqdiff (snd_last c) (snd_nxt c) - n /\
  seqdiff (snd_nxt c') (snd_una c') = seqdiff (snd_nxt c) (snd_una c) + n.
Proof.
  intros Hc (x & t & q & ->) Hx Hn. simpl in Hx. subst x.
  pose proof (ws_order _ Hc) as Ho. pose proof (seqdiff_sub _ _ _ Ho) as Hd.
  pose proof (seqdiff_range (snd_last c) (snd_una c)) as Hr. destruct Hc. simpl.
  rewrite seqdiff_lo by lia.
  assert (Hd' : seqdiff (u32 (snd_nxt c + n)) (snd_una c) = seqdiff (snd_nxt c) (snd_una c) + n)
    by (apply seqdiff_advance; lia).
  split; [|done]. constructor; simpl; try done; [apply u32_range|]. rewrite Hd'. lia.
Qed.

(** The segments of one [ack]: consecutive numbers from [seq], none larger than
    a segment may be. *)
Fixpoint segments (mss seq : Z) (ps : list packet) : Prop :=
  match ps with
  | [] => True
  | p :: ps => h_seq (p_hdr p) = seq /\ zlen (p_data p) <= mss /\
      segments mss (u32 (seq + zlen (p_data p))) ps
  end.

Definition payload (ps : list packet) : list Z := concat (p_data <$> ps).

(** The send buffer holds every byte between [snd.una] and [snd.last]. *)
Definition buffered (c : utcp_connection) : Prop :=
  seqdiff (snd_last c) (snd_una c) <=
  used (sndbuf c) + match state c with FIN_WAIT_1 | CLOSING | LAST_ACK => 1 | _ => 0 end.

Lemma buffered_sent c c' : sent_upto c c' -> buffered c <-> buffered c'.
Proof. by intros (? & ? & ? & ->). Qed.

(** A segment that ends before [snd.last] carries no FIN. *)
Lemma fin_bit_inner c n :
  wf_snd c -> 0 <= n < seqdiff (snd_last c) (snd_nxt c) -> fin_bit c n = 0.
Proof.
  intros Hc Hn. unfold fin_bit, fin_wanted. 
  destruct (u32 (snd_nxt c + n) =? snd_last c) eqn:E; ztests; [|by destruct (negb (n =? 0))].
  exfalso. pose proof (seqdiff_range (snd_last c) (snd_nxt c)).
  pose proof (seqdiff_lo (snd_last c) (snd_nxt c) n) as Hl. rewrite E, seqdiff_same in Hl. lia.
Qed.

Lemma fin_bit_end c n :
  wf_snd c -> 0 < n -> n = seqdiff (snd_last c) (snd_nxt c) ->
  fin_bit c n = match state c with FIN_WAIT_1 | CLOSING | LAST_ACK => 1 | _ => 0 end.
Proof.
  intros Hc Hn He. unfold fin_bit, fin_wanted.
  assert (Hl : u32 (snd_nxt c + n) = snd_last c).
  { rewrite He. apply seqdiff_add, (ws_last _ Hc). }
  rewrite Hl, Z.eqb_refl, (proj2 (Z.eqb_neq n 0)) by lia. by destruct (state c).
Qed.

(** A segment's bytes are all in the buffer. *)
Lemma buffered_segment c n :
  wf_snd c -> buffered c -> 0 < n <= seqdiff (snd_last c) (snd_nxt c) ->
  seqdiff (snd_nxt c) (snd_una c) + (n - fin_bit c n) <= used (sndbuf c).
Proof.
  intros Hc Hb Hn. pose proof (seqdiff_sub _ _ _ (ws_order _ Hc)) as Hd.
  unfold buffered in Hb. destruct (decide (n = seqdiff (snd_last c) (snd_nxt c))) as [E|E].
  - rewrite (fin_bit_end c n) by (done || lia). lia.
  - rewrite fin_bit_inner by (done || lia). destruct (state c); lia.
Qed.

Lemma slice_split {A} d m n (l : list A) : slice d m l ++ slice (d + m) n l = slice d (m + n) l.
Proof. unfold slice. rewrite <- drop_drop. apply take_take_drop. Qed.

Lemma slice_zero {A} d (l : list A) : slice d 0 l = [].
Proof. unfold slice. apply take_0. Qed.

(** All segments of one [ack]. *)
Lemma ack_loop_ok {cap} `{Env} fuel : forall c s h l,
  wf_snd c -> wf_shared cap s -> 0 <= l <= seqdiff (snd_last c) (snd_nxt c) -> l < Z.of_nat fuel ->
  exists c' s' ps, ack_loop fuel c s h l = Done (c', s') /\
    sent_upto c c' /\ wf_snd c' /\ sent_packets s ps s' /\ ps <> [] /\
    snd_nxt c' = u32 (snd_nxt c + l) /\ segments (u_mss s) (snd_nxt c) ps /\
    (buffered c -> payload ps =
      slice (Z.to_nat (seqdiff (snd_nxt c) (snd_una c))) (Z.to_nat (l - fin_bit c l))
        (contents (sndbuf c))).
Proof.
  induction fuel as [|fuel IH]; intros c s h l Hc Hs Hl Hf; [lia|].
  pose proof (wh_mss _ _ Hs) as Hm. set (n := Z.min l (u_mss s)).
  destruct (ack_segment_ok c s h l n _ _ Hc Hs Hl eq_refl eq_refl eq_refl)
    as (c1 & s1 & h1 & p & Hseg & Hup & Hnx & Hsp & Hsq & Hlen & Hpay).
  destruct (sent_upto_wf c c1 n) as (Hc1 & Hd1 & Hd2); [done|done|done|lia|].
  pose proof (fin_bit_range c n) as Hfr.
  assert (Hpay' : buffered c -> p_data p =
    slice (Z.to_nat (seqdiff (snd_nxt c) (snd_una c))) (Z.to_nat (n - fin_bit c n)) (contents (sndbuf c))).
  { intros Hb. destruct (decide (n = 0)) as [E|E].
    - assert (p_data p = []) as ->; [|by rewrite E, slice_zero].
      apply nil_length_inv. unfold zlen in *. lia.
    - apply Hpay. apply buffered_segment; [done|done|lia]. }
  cbn [ack_loop]. rewrite Hseg. cbn [obind]. zcase.
  - assert (n = l) as En by lia. rewrite En in *.
    exists c1, s1, [p]. split; [done|]. split; [done|]. split; [done|]. split; [done|].
    split; [done|]. split; [done|]. split; [simpl; lia|].
    unfold payload. simpl. by rewrite app_nil_r.
  - destruct (IH c1 s1 h1 (l - n) Hc1) as (c2 & s2 & ps & Hloop & Hup2 & Hc2 & Hsp2 & Hne & Hn2 & Hsg & Hpp);
      [by eapply sent_packets_wf|lia|lia|].
    assert (Hinner : fin_bit c n = 0) by (apply fin_bit_inner; [done|lia]).
    assert (Hmss : u_mss s1 = u_mss s) by (by destruct Hsp as (? & ? & -> & _)).
    exists c2, s2, (p :: ps). split; [done|]. split; [by eapply sent_upto_trans|]. split; [done|].
    split; [by apply (sent_packets_trans s s1 s2 [p] ps)|]. split; [done|].
    split. { rewrite Hn2, Hnx, u32_add_l. f_equal. lia. }
    split.
    { simpl. rewrite Hlen, Hinner, Z.sub_0_r, <- Hnx, <- Hmss. repeat split; [done|lia|done]. }
    intros Hb. change (payload (p :: ps)) with (p_data p ++ payload ps).
    rewrite Hpay' by done. rewrite Hpp by (by apply (buffered_sent c c1)).
    assert (Hsb : sndbuf c1 = sndbuf c) by (by destruct Hup as (? & ? & ? & ->)).
    assert (Hfin : fin_bit c1 (l - n) = fin_bit c l).
    { unfold fin_bit. rewrite (proj2 (Z.eqb_neq (l - n) 0)), (proj2 (Z.eqb_neq l 0)) by lia.
      rewrite Hnx, u32_add_l. replace (snd_nxt c + n + (l - n)) with (snd_nxt c + l) by lia.
      destruct Hup as (? & ? & ? & ->). done. }
    pose proof (ws_order _ Hc). pose proof (fin_bit_range c1 (l - n)).
    rewrite Hsb, Hfin, Hd2, Hinner, Z.sub_0_r, Z2Nat.inj_add, slice_split by lia.
    f_equal. rewrite <- Z2Nat.inj_add by lia. f_equal. lia.
Qed.

(** What an [ack] does: it returns, it changes [snd.nxt] only, and what it sends
    is the next piece of the send buffer cut into segments. *)
Lemma ack_ok {cap} `{Env} b c s :
  wf_snd c -> wf_shared cap s ->
  exists c' s' ps l, ack b c s = Done (c', s') /\ ack_left b c s = Done l /\
    0 <= l <= seqdiff (snd_last c) (snd_nxt c) /\
    sent_upto c c' /\ wf_snd c' /\ sent_packets s ps s' /\ wf_shared cap s' /\
    snd_nxt c' = u32 (snd_nxt c + l) /\ segments (u_mss s) (snd_nxt c) ps /\
    (b = true -> ps <> []) /\
    (buffered c -> payload ps =
      slice (Z.to_nat (seqdiff (snd_nxt c) (snd_una c))) (Z.to_nat (l - fin_bit c l))
        (contents (sndbuf c))).
Proof.
  intros Hc Hs. unfold ack. destruct (ack_left_ok b c s Hc Hs) as (l & Hl & Hr).
  rewrite Hl. cbn [obind]. destruct ((l =? 0) && negb b) eqn:E.
  - apply andb_true_iff in E as [E Eb]. ztests. subst l b.
    exists c, s, [], 0. split; [done|]. split; [done|]. split; [done|].
    split; [by exists (snd_nxt c), (rtt_start c), (rtt_seq c); destruct c|]. split; [done|].
    split; [exists (u_pkt s), (tick s); split; [rewrite app_nil_r; by destruct s|done]|].
    split; [done|]. rewrite Z.add_0_r, u32_small by apply (ws_nxt _ Hc).
    split; [done|]. split; [done|]. split; [done|]. by rewrite slice_zero.
  - destruct (ack_loop_ok (S (Z.to_nat l)) c s (ack_hdr c) l Hc Hs Hr)
      as (c' & s' & ps & Hk & Hup & Hwf & Hsp & Hne & Hn & Hsg & Hp); [lia|].
    exists c', s', ps, l. repeat (split; [by eauto using sent_packets_wf|]). done.
Qed.

(** ** Timers and bookkeeping keep the invariant *)

Lemma start_timer_ok `{Env} c s :
  wf_snd c -> exists t, start_retransmit_timer c s =
    Done (set_rtrx_timeout t c, set_tick (S (tick s)) s).
Proof.
  intros Hc. unfold start_retransmit_timer, clock_gettime. pose proof (ws_rto _ Hc).
  destruct (carry_ok 4295 (clock (tick s)) (rto c)) as (t & r & -> & _);
    [done | unfold USEC_PER_SEC; lia |]. cbn [obind]. by eexists.
Qed.

(** Closing a goal [wf_snd] of a connection whose relevant fields are known. *)
Ltac wf_conn_tac :=
  match goal with H : wf_snd _ |- wf_snd _ => destruct H; constructor; simpl in *; try done; try lia end.

Lemma wf_tick {cap} n s : wf_shared cap s -> wf_shared cap (set_tick n s).
Proof. intros []. by constructor. Qed.

Lemma wf_errno {cap} e s : wf_shared cap s -> wf_shared cap (set_errno e s).
Proof. intros []. by constructor. Qed.

Lemma wf_send {cap} p s : wf_shared cap s -> wf_shared cap (send_ p s).
Proof. intros []. by constructor. Qed.

Create HintDb utcp discriminated.
#[export] Hint Resolve wf_tick wf_errno wf_send : utcp.

Lemma wf_timers c t1 t2 :
  wf_snd c -> wf_snd (set_conn_timeout t1 (set_rtrx_timeout t2 c)).
Proof. intros H. wf_conn_tac. Qed.

Lemma wf_rtrx c t : wf_snd c -> wf_snd (set_rtrx_timeout t c).
Proof. intros H. wf_conn_tac. Qed.

Lemma wf_conn_to c t : wf_snd c -> wf_snd (set_conn_timeout t c).
Proof. intros H. wf_conn_tac. Qed.

#[export] Hint Resolve wf_rtrx wf_conn_to : utcp.

(** Appending to the send buffer moves [snd.last] by as much. *)
Lemma wf_append c b n :
  wf_snd c -> state c <> CLOSED -> wf_buffer b -> 0 <= n ->
  used b = used (sndbuf c) + n -> used b <= SNDMAX -> maxsize b = maxsize (sndbuf c) ->
  wf_snd (set_snd_last (u32 (snd_last c + n)) (set_sndbuf b c)).
Proof.
  intros Hc Hst Hb Hn Hu Hm Hmx. pose proof (ws_order _ Hc). pose proof (ws_window _ Hc Hst).
  assert (slack (state c) <= 2) by (destruct (state c); simpl; lia).
  assert (Hd : seqdiff (u32 (snd_last c + n)) (snd_una c) = seqdiff (snd_last c) (snd_una c) + n).
  { apply seqdiff_advance. pose proof (seqdiff_range (snd_last c) (snd_una c)). unfold SNDMAX in *. lia. }
  destruct Hc. constructor; simpl; rewrite ?Hd; try done; try lia. apply u32_range.
Qed.

(** An unreliable connection keeps nothing in flight. *)
Lemma wf_flush c :
  wf_snd c -> wf_snd (set_sndbuf (buffer_discard (sndbuf c) (used (sndbuf c))).2
                        (set_snd_nxt (snd_last c) (set_snd_una (snd_last c) c))).
Proof.
  intros Hc. pose proof (wf_used _ (ws_buf _ Hc)) as Hu.
  destruct (discard_ok (sndbuf c) (used (sndbuf c)) (ws_buf _ Hc)) as
    (b' & Hdis & Hw & Hm & He & Hsz & Hus & Hct); [lia|]. rewrite Hdis.
  destruct Hc. constructor; simpl; rewrite ?seqdiff_same; try done; try lia.
  intros _. destruct (state c); simpl; lia.
Qed.

(** ** [utcp_send] *)

(** The receiving half and the identity of a connection. *)
Definition frame_rcv (c c' : utcp_connection) : Prop :=
  key_of c' = key_of c /\ rcvbuf c' = rcvbuf c /\ sacks c' = sacks c /\ rcv_nxt c' = rcv_nxt c /\
  reapable c' = reapable c /\ recv c' = recv c.

Lemma frame_refl c : frame_rcv c c.
Proof. done. Qed.

Lemma frame_trans a b c : frame_rcv a b -> frame_rcv b c -> frame_rcv a c.
Proof. unfold frame_rcv. intuition congruence. Qed.

Lemma frame_sent c c' : sent_upto c c' -> frame_rcv c c'.
Proof. by intros (? & ? & ? & ->). Qed.

#[export] Hint Resolve frame_refl frame_sent : utcp.

Lemma send_timers_ok {cap} `{Env} c s :
  wf_snd c -> wf_shared cap s ->
  exists t1 t2 n, send_timers c s = Done (set_conn_timeout t1 (set_rtrx_timeout t2 c), set_tick n s).
Proof.
  intros Hc Hs. unfold send_timers.
  destruct (start_timer_ok c s Hc) as (t & Ht).
  assert (Hid : forall c, set_rtrx_timeout (rtrx_timeout c) c = c) by (by intros []).
  assert (Hic : forall c, set_conn_timeout (conn_timeout c) c = c) by (by intros []).
  assert (His : forall s, set_tick (tick s) s = s) by (by intros []).
  destruct (is_reliable c && negb (timespec_isset (rtrx_timeout c))); rewrite ?Ht; cbn [obind].
  - change (is_reliable (set_rtrx_timeout t c)) with (is_reliable c).
    change (conn_timeout (set_rtrx_timeout t c)) with (conn_timeout c).
    destruct (is_reliable c && _).
    + by eexists _, t, _.
    + exists (conn_timeout c), t, (S (tick s)). by rewrite <- (Hic (set_rtrx_timeout t c)) at 1.
  - destruct (is_reliable c && _).
    + eexists _, (rtrx_timeout c), _. rewrite Hid. done.
    + exists (conn_timeout c), (rtrx_timeout c), (tick s). by rewrite Hid, Hic, His.
Qed.

(** The part of [utcp_send] that has accepted [n > 0] bytes into the buffer [b]. *)
Lemma send_accepted {cap} `{Env} c s b n :
  wf_snd c -> wf_shared cap s -> state c <> CLOSED -> wf_buffer b -> 0 < n < 2 ^ 32 ->
  used b = used (sndbuf c) + n -> used b <= SNDMAX -> maxsize b = maxsize (sndbuf c) ->
  let c1 := set_snd_last (u32 (snd_last c + n)) (set_sndbuf b c) in
  exists c' s' ps, send_flush c1 s = Done (c', s') /\ wf_snd c' /\ sent_packets s ps s' /\
    frame_rcv c c' /\ state c' = state c /\
    (is_reliable c = true -> sndbuf c' = b /\ snd_last c' = u32 (snd_last c + n) /\
       snd_una c' = snd_una c).
Proof.
  intros Hc Hs Hst Hb Hn Hu Hm Hmx c1.
  assert (Hc1 : wf_snd c1) by (apply wf_append; done || lia). unfold send_flush.
  destruct (ack_ok false c1 s Hc1 Hs) as
    (c2 & s2 & ps & l & -> & _ & _ & Hup & Hc2 & Hsp & Hs2 & _). cbn [obind].
  assert (Hf : frame_rcv c c2) by (by destruct Hup as (? & ? & ? & ->)).
  assert (Hrel : is_reliable c2 = is_reliable c) by (by destruct Hup as (? & ? & ? & ->)).
  assert (Hst2 : state c2 = state c) by (by destruct Hup as (? & ? & ? & ->)).
  assert (Hb2 : sndbuf c2 = b /\ snd_last c2 = u32 (snd_last c + n) /\ snd_una c2 = snd_una c)
    by (by destruct Hup as (? & ? & ? & ->)).
  set (c3 := if negb (is_reliable c2) then _ else c2).
  assert (Hc3 : wf_snd c3) by (subst c3; destruct (negb _); [exact (wf_flush c2 Hc2)|done]).
  destruct (send_timers_ok c3 s2 Hc3 Hs2) as (t1 & t2 & k & ->).
  eexists _, _, ps. split; [done|]. split; [by apply wf_timers|]. split.
  { destruct Hsp as (m & j & -> & ?). by exists m, k. }
  split. { destruct Hf as (? & ? & ? & ?). subst c3. by destruct (negb _). }
  split. { subst c3. by destruct (negb _). }
  intros Hr. subst c3. rewrite Hrel, Hr. done.
Qed.

Lemma used_bound c : wf_snd c -> 0 <= used (sndbuf c) <= SNDMAX.
Proof. intros Hc. split; [apply (wf_used _ (ws_buf _ Hc))|apply (ws_used _ Hc)]. Qed.

(** What [utcp_send] returns and leaves behind when the allocator does not
    fail. *)
Lemma utcp_send_ok {cap} `{Env} dat len c s :
  wf_snd c -> wf_shared cap s -> (forall n, a_ok (allocs n) = true) ->
  (forall d, dat = Some d -> zlen d = len) -> 0 <= len < 2 ^ 62 ->
  returns (utcp_send dat len c s) (fun '(r, (c', s')) =>
    wf_snd c' /\ wf_shared cap s' /\ frame_rcv c c' /\ state c' = state c /\
    (is_reliable c = true ->
       c' = c /\ (r = -1 \/ r = 0) \/
       (0 < r <= len /\ r <= buffer_free (sndbuf c) /\
        contents (sndbuf c') = contents (sndbuf c) ++ take (Z.to_nat r) (default [] dat) /\
        snd_last c' = u32 (snd_last c + r) /\ snd_una c' = snd_una c))).
Proof.
  intros Hc Hs Ha Hd Hlen.
  assert (Hsame : forall r s', wf_shared cap s' -> r = -1 \/ r = 0 ->
    returns (Done (r, (c, s'))) (fun '(r, (c', s')) =>
    wf_snd c' /\ wf_shared cap s' /\ frame_rcv c c' /\ state c' = state c /\
    (is_reliable c = true ->
       c' = c /\ (r = -1 \/ r = 0) \/
       (0 < r <= len /\ r <= buffer_free (sndbuf c) /\
        contents (sndbuf c') = contents (sndbuf c) ++ take (Z.to_nat r) (default [] dat) /\
        snd_last c' = u32 (snd_last c + r) /\ snd_una c' = snd_una c)))).
  { intros r s' Hs' Hr. simpl. split; [done|]. split; [done|]. split; [done|]. split; [done|]. by left. }
  unfold utcp_send.
  destruct (reapable c); [apply Hsame; auto with utcp|].
  destruct (send_state_error (state c)) eqn:Est; [apply Hsame; auto with utcp|].
  assert (Hst : state c <> CLOSED) by (by destruct (state c)).
  zcase; [apply Hsame; auto with utcp|].
  destruct dat as [d|]; [|apply Hsame; auto with utcp]. specialize (Hd d eq_refl).
  destruct (bitset (flags c) UTCP_NO_PARTIAL && _); [zcase; apply Hsame; auto with utcp|].
  destruct (negb (is_reliable c) && handshaking (state c)); [apply Hsame; auto with utcp|].
  destruct (negb (is_reliable c) && _); [apply Hsame; auto with utcp|].
  unfold next_alloc. cbn [fst snd]. pose proof (used_bound c Hc) as Hub.
  pose proof (wf_max _ (ws_buf _ Hc)) as Hmax. unfold buffer_put.
  destruct (put_at_cases (allocs (tick s)) (sndbuf c) (used (sndbuf c)) d) as
      [(Hb & Hov & ->)|[(_ & Hal & _)|(Hroom & Hb & b' & -> & Hw' & Hm' & He' & Heff)]];
    [apply (ws_buf _ Hc)|lia|unfold SNDMAX in *; lia| |by rewrite Ha in Hal|]; cbn [obind].
  - assert (Hid : set_sndbuf (sndbuf c) c = c) by (by destruct c). rewrite Hid.
    destruct (negb (is_reliable c) && _); [apply Hsame; auto with utcp|]. simpl.
    destruct (is_reliable c); apply Hsame; auto with utcp.
  - set (n := put_len (sndbuf c) (used (sndbuf c)) (zlen d)) in *.
    assert (Hn : 0 < n <= len /\ n <= maxsize (sndbuf c) - used (sndbuf c))
      by (subst n; unfold put_len; lia).
    pose proof (put_effect_append _ _ _ (ws_buf _ Hc) Hw' Heff) as Hcont.
    assert (Hused : used b' = used (sndbuf c) + n).
    { destruct Heff as [-> _]. autorewrite with zlen. rewrite Hd. lia. }
    clearbody n. pose proof (ws_max _ Hc).
    assert (Hu64 : u64 n = n /\ s64 n = n).
    { unfold SNDMAX in *. split; [apply u64_small; lia|]. unfold s64. rewrite Z.mod_small; lia. }
    destruct Hu64 as [Hu64 Hs64]. rewrite Hu64. 
    assert (Hfree : n <= buffer_free (sndbuf c)).
    { unfold buffer_free. zcase; [rewrite u32_small|]; lia. }
    assert (Hwb : wf_snd (set_sndbuf b' c)).
    { pose proof (ws_window _ Hc Hst). wf_conn_tac. }
    destruct (negb (is_reliable (set_sndbuf b' c)) && negb (n =? len)) eqn:Ep.
    { apply andb_true_iff in Ep as [Ep _]. simpl. split; [done|]. split; [auto with utcp|].
      split; [done|]. split; [done|]. intros Hr. unfold is_reliable in *. simpl in Ep. by rewrite Hr in Ep. }
    rewrite (proj2 (Z.eqb_neq n 0)) by lia.
    change (snd_last (set_sndbuf b' c)) with (snd_last c).
    assert (Hwa : wf_snd (set_snd_last (u32 (snd_last c + n)) (set_sndbuf b' c)))
      by (apply wf_append; done || lia).
    change (handshaking (state (set_snd_last (u32 (snd_last c + n)) (set_sndbuf b' c))))
      with (handshaking (state c)).
    destruct (handshaking (state c)).
    { simpl. rewrite Hs64. split; [done|]. split; [auto with utcp|]. split; [done|]. split; [done|].
      intros _. right. repeat split; try done; lia. }
    destruct (@send_accepted cap _ c (set_tick (S (tick s)) s) b' n) as
      (c' & s' & ps & -> & Hc' & Hsp & Hf & Hst' & Hrel); auto with utcp; [unfold SNDMAX in *; lia..|].
    cbn [obind]. simpl. rewrite Hs64. split; [done|].
    split; [eapply sent_packets_wf; [exact Hsp|auto with utcp]|]. split; [done|]. split; [done|].
    intros Hr. right. destruct (Hrel Hr) as (-> & -> & ->). repeat split; try done; lia.
Qed.

(** ** Retransmission *)

Lemma seqdiff_zero a b : 0 <= a < 2 ^ 32 -> 0 <= b < 2 ^ 32 -> seqdiff a b = 0 -> a = b.
Proof. intros Ha Hb H. rewrite <- (seqdiff_add a b Ha), H, Z.add_0_r. by apply u32_small. Qed.

Lemma rtrx_segment_ok {cap} c s :
  wf_snd c -> wf_shared cap s -> snd_last c <> snd_una c ->
  exists len ctl, rtrx_segment c s = (len, ctl) /\
    0 <= len <= u_mss s /\ len <= seqdiff (snd_last c) (snd_una c).
Proof.
  intros Hc Hs Hne. pose proof (ws_order _ Hc) as Ho. pose proof (wh_mss _ _ Hs) as Hm.
  pose proof (seqdiff_range (snd_last c) (snd_una c)) as Hr.
  assert (Hd : seqdiff (snd_last c) (snd_una c) <> 0).
  { intros E. apply Hne. apply seqdiff_zero; [apply Hc|apply Hc|done]. }
  unfold rtrx_segment. rewrite u64_small by lia.
  rewrite (u32_small (Z.min _ _)) by lia. destruct (fin_wanted c _).
  - rewrite (u32_small (_ - 1)) by lia. eexists _, _. split; [done|]. lia.
  - eexists _, _. split; [done|]. lia.
Qed.

Lemma rtrx_send_ok {cap} c len ctl s :
  wf_snd c -> wf_shared cap s -> 0 <= len <= u_mss s ->
  exists s' p, rtrx_send c len ctl s = Done s' /\ sent_packets s [p] s' /\
    h_seq (p_hdr p) = snd_una c /\ zlen (p_data p) = len /\
    (len <= used (sndbuf c) -> p_data p = take (Z.to_nat len) (contents (sndbuf c))).
Proof.
  intros Hc Hs Hlen. pose proof (wh_mss _ _ Hs). pose proof (wh_pkt _ _ Hs) as Hp. unfold rtrx_send.
  rewrite copy_ok; [|apply (ws_buf _ Hc)|lia|lia]. cbn [obind].
  set (cp := slice (Z.to_nat 0) (Z.to_nat len) (contents (sndbuf c))).
  assert (Hcp : zlen cp <= len) by (unfold cp, zlen; rewrite length_slice; lia).
  destruct (pkt_store_ok cp s) as (m & -> & Hm1 & Hm2); [lia|]. cbn [obind].
  rewrite pkt_send_ok by (simpl; lia). eexists _, _. split; [done|].
  split; [exists m, (tick s); split; [by destruct s|done]|]. simpl. split; [done|].
  split; [zlist|]. intros Hle. pose proof (length_contents _ (ws_buf _ Hc)) as Hlc.
  assert (Hl : length cp = Z.to_nat len).
  { unfold cp, zlen in *. rewrite length_slice. lia. }
  assert (Hx : cp = take (Z.to_nat len) (contents (sndbuf c))) by done.
  rewrite <- Hx, <- Hl. exact Hm2.
Qed.

Lemma fast_retransmit_ok {cap} c s :
  wf_snd c -> wf_shared cap s ->
  exists s' ps, fast_retransmit c s = Done s' /\ sent_packets s ps s'.
Proof.
  intros Hc Hs. unfold fast_retransmit.
  assert (Hid : exists s' ps, Done s = Done s' /\ sent_packets s ps s').
  { exists s, []. split; [done|]. exists (u_pkt s), (tick s).
    rewrite app_nil_r. by destruct s. }
  destruct (state_eqb (state c) CLOSED || _) eqn:E; [done|].
  apply orb_false_iff in E as [_ E]. ztests.
  destruct (rtrx_segment_ok c s Hc Hs E) as (len & ctl & Hseg & Hl & _).
  destruct (rtrx_send_ok c len ctl s Hc Hs Hl) as (s' & p & Hsend & Hsp & _).
  rewrite Hseg, Hsend. destruct (state c); done || (eexists _, _; done).
Qed.

(** The end of [retransmit]: restart the timer and back off. *)
Lemma wf_backoff c r t d :
  wf_snd c -> 0 <= r < 2 ^ 32 ->
  wf_snd (c |> set_rto r |> set_rtt_start t |> set_dupack d).
Proof. intros H Hr. wf_conn_tac. Qed.

Lemma retransmit_body_ok {cap} `{Env} c s :
  wf_snd c -> wf_shared cap s -> snd_last c <> snd_una c ->
  returns (retransmit_body c s) (fun '(_, (c', s')) =>
    wf_snd c' /\ wf_shared cap s' /\ frame_rcv c c' /\ state c' = state c).
Proof.
  intros Hc Hs Hne. pose proof (wh_mss _ _ Hs) as Hm. pose proof (wh_pkt _ _ Hs) as Hp.
  unfold retransmit_body.
  assert (Hfin : forall c1 s1, wf_snd c1 -> wf_shared cap s1 -> frame_rcv c c1 -> state c1 = state c ->
    returns (rtrx_finish c1 s1) (fun '(_, (c', s')) =>
      wf_snd c' /\ wf_shared cap s' /\ frame_rcv c c' /\ state c' = state c)).
  { intros c1 s1 Hc1 Hs1 Hf Hst. unfold rtrx_finish.
    destruct (start_timer_ok c1 s1 Hc1) as (t & ->). cbn [obind].
    set (c2 := if MAX_RTO <? _ then _ else _).
    assert (exists r, c2 = set_rto r (set_rtrx_timeout t c1) /\ 0 <= r < 2 ^ 32) as (r & -> & Hr).
    { subst c2. pose proof (u32_range (rto (set_rtrx_timeout t c1) * 2)).
      destruct (MAX_RTO <? _); eexists; (split; [done|]); unfold MAX_RTO, USEC_PER_SEC; lia. }
    cbn [returns]. split; [apply wf_backoff; auto with utcp|]. split; [auto with utcp|].
    split; [|done]. destruct Hf as (? & ? & ? & ?). done. }
  destruct (rtrx_segment_ok c s Hc Hs Hne) as (len & ctl & -> & Hl & Hl2).
  set (fl := u32 (seqdiff (snd_nxt c) (snd_una c))).
  assert (Hfl : 0 <= fl < 2 ^ 32) by apply u32_range.
  set (c1 := c |> set_snd_ssthresh (u32 (Z.max (fl / 2) (u_mss s * 2))) |> set_snd_cwnd (u_mss s)).
  assert (Hss : 0 < u32 (Z.max (fl / 2) (u_mss s * 2)) < 2 ^ 32).
  { assert (0 <= fl / 2 < 2 ^ 32) by (split; [apply Z.div_pos|apply Z.div_lt_upper_bound]; lia).
    rewrite u32_small; lia. }
  assert (Hc1 : wf_snd c1) by (subst c1; wf_conn_tac).
  assert (Hdata : returns (let* s := rtrx_send c1 len ctl s in
      rtrx_finish (set_snd_nxt (u32 (snd_una c1 + len)) c1) s) (fun '(_, (c', s')) =>
      wf_snd c' /\ wf_shared cap s' /\ frame_rcv c c' /\ state c' = state c)).
  { destruct (rtrx_send_ok c1 len ctl s Hc1 Hs Hl) as (s' & p & -> & Hsp & _). cbn [obind].
    apply Hfin; [|by eapply sent_packets_wf|done|done].
    pose proof (ws_order _ Hc). pose proof (seqdiff_range (snd_last c) (snd_una c)).
    assert (Hd : seqdiff (u32 (snd_una c + len)) (snd_una c) = len)
      by (apply seqdiff_of; [done|lia]).
    subst c1. wf_conn_tac; try apply u32_range; rewrite Hd; lia. }
  destruct (state c) eqn:Est; try exact Hdata.
  1,2,5,6: (cbn [returns]; split; [unfold stop_retransmit_timer; auto with utcp|];
          split; [done|]; split; done).
  - destruct (pkt_store_ok (init_bytes (flags c)) s) as (m & -> & Hm1 & Hm2); [unfold zlen in *; simpl; lia|].
    cbn [obind]. rewrite pkt_send_ok by (simpl; lia). cbn [obind].
    apply Hfin; [done| |done|done]. apply wf_send. destruct Hs. constructor; simpl; lia.
  - rewrite pkt_send_ok by lia. cbn [obind]. apply Hfin; auto with utcp.
Qed.

(** ** Incoming acknowledgements *)

Lemma ack_rtt_ok `{Env} h c s :
  wf_snd c -> exists a b r t n,
    ack_rtt h c s = (c |> set_srtt a |> set_rttvar b |> set_rto r |> set_rtt_start t, set_tick n s) /\
    0 <= r < 2 ^ 32.
Proof.
  intros Hc. pose proof (ws_rto _ Hc) as Hr.
  assert (Hid : forall t n, exists a b r t' n',
    (set_rtt_start t c, set_tick n s) =
    (c |> set_srtt a |> set_rttvar b |> set_rto r |> set_rtt_start t', set_tick n' s) /\ 0 <= r < 2 ^ 32).
  { intros t n. exists (srtt c), (rttvar c), (rto c), t, n. split; [by destruct c|done]. }
  assert (His : (c, s) = (set_rtt_start (rtt_start c) c, set_tick (tick s) s)) by (by destruct c, s).
  unfold ack_rtt, clock_gettime.
  destruct (tv_sec (rtt_start c) =? 0); [rewrite His; apply Hid|].
  destruct (rtt_seq c =? h_ack h).
  - set (s1 := set_tick (S (tick s)) s). set (x := u32 (timespec_diff_usec _ _)).
    assert (exists a b r, update_rtt s1 x c = (c |> set_srtt a |> set_rttvar b |> set_rto r) /\
      0 <= r < 2 ^ 32) as (a & b & r & -> & Hr').
    { unfold update_rtt. destruct (x =? 0).
      - exists (srtt c), (rttvar c), (rto c). split; [by destruct c|done].
      - destruct (srtt c =? 0); cbn -[u32 u64 Z.max Z.div absdiff MAX_RTO];
          match goal with |- context [set_rto (u32 ?z)] => pose proof (u32_range z) end;
          destruct (MAX_RTO <? _); eexists _, _, _; (split; [done|]); unfold MAX_RTO, USEC_PER_SEC in *; lia. }
    eexists a, b, r, _, _. by split.
  - destruct (rtt_seq c <? h_ack h); [|rewrite His; apply Hid].
    destruct (Hid (set_tv_sec 0 (rtt_start c)) (tick s)) as (a & b & r & t & n & E & Hb).
    exists a, b, r, t, n. split; [rewrite <- E; by destruct s|done].
Qed.

Lemma wf_cwnd c v : wf_snd c -> 0 <= v < 2 ^ 32 -> wf_snd (set_snd_cwnd v c).
Proof. intros H Hv. wf_conn_tac. Qed.

Lemma grow_cwnd_ok a s c :
  wf_snd c -> exists v, grow_cwnd a s c = Done (set_snd_cwnd v c) /\ 0 <= v < 2 ^ 32.
Proof.
  intros Hc. pose proof (ws_cwnd _ Hc). pose proof (ws_ssthresh _ Hc).
  pose proof (wf_max _ (ws_buf _ Hc)). unfold grow_cwnd.
  destruct (snd_cwnd c <? snd_ssthresh c) eqn:E; ztests.
  - cbn [obind]. pose proof (u32_range (snd_cwnd c + Z.min a (u_mss s))).
    destruct (maxsize _ <? _); eexists; (split; [done|]); simpl; lia.
  - rewrite (proj2 (Z.eqb_neq (snd_cwnd c) 0)) by lia. cbn [obind].
    pose proof (u32_range (snd_cwnd c + Z.max 1 (u32 (u_mss s * u_mss s) / snd_cwnd c))).
    destruct (maxsize _ <? _); eexists; (split; [done|]); simpl; lia.
Qed.

(** An acknowledgement number between [snd.una] and [snd.last]. *)
Lemma ack_range c a :
  wf_snd c -> 0 <= a < 2 ^ 32 -> seqdiff a (snd_last c) <= 0 -> 0 <= seqdiff a (snd_una c) ->
  seqdiff a (snd_una c) <= seqdiff (snd_last c) (snd_una c) /\
  seqdiff (snd_last c) a = seqdiff (snd_last c) (snd_una c) - seqdiff a (snd_una c).
Proof.
  intros Hc Ha H1 H2. pose proof (ws_order _ Hc).
  pose proof (seqdiff_range a (snd_una c)). pose proof (seqdiff_range (snd_last c) (snd_una c)).
  assert (Hle : seqdiff a (snd_una c) <= seqdiff (snd_last c) (snd_una c)).
  { destruct (Z.le_gt_cases (seqdiff a (snd_una c)) (seqdiff (snd_last c) (snd_una c))); [done|].
    pose proof (seqdiff_sub a (snd_last c) (snd_una c)). lia. }
  split; [done|]. apply seqdiff_sub. lia.
Qed.

(** Moving [snd.una] up to an acceptable acknowledgement, discarding as many
    bytes as were acknowledged (one less for our SYN). *)
Lemma wf_acked c a b n :
  wf_snd c -> 0 <= a < 2 ^ 32 -> seqdiff a (snd_last c) <= 0 -> 0 <= seqdiff a (snd_una c) ->
  wf_buffer b -> maxsize b = maxsize (sndbuf c) ->
  used (sndbuf c) - seqdiff a (snd_una c) <= used b <= used (sndbuf c) ->
  n = (if seqdiff (snd_nxt c) a <? 0 then a else snd_nxt c) ->
  wf_snd (c |> set_sndbuf b |> set_snd_nxt n |> set_snd_una a).
Proof.
  intros Hc Ha H1 H2 Hb Hm Hu Hn. destruct (ack_range c a Hc Ha H1 H2) as [Hle Hd].
  pose proof (ws_order _ Hc). pose proof (seqdiff_range (snd_last c) (snd_una c)).
  assert (Hnd : 0 <= seqdiff n a <= seqdiff (snd_last c) a).
  { subst n. zcase; [rewrite seqdiff_same; lia|]. split; [done|].
    destruct (Z.le_gt_cases (seqdiff a (snd_una c)) (seqdiff (snd_nxt c) (snd_una c))).
    - pose proof (seqdiff_sub (snd_nxt c) a (snd_una c)). lia.
    - pose proof (seqdiff_sub a (snd_nxt c) (snd_una c)).
      assert (Hx : seqdiff (snd_nxt c) a = - seqdiff a (snd_nxt c)).
      { unfold seqdiff in *. destruct (decide (s32 (a - snd_nxt c) = - 2 ^ 31)); [lia|].
        assert (Hs : exists j, s32 (a - snd_nxt c) = a - snd_nxt c + j * 2 ^ 32).
        { exists (- ((a - snd_nxt c + 2 ^ 31) / 2 ^ 32)). unfold s32.
          pose proof (Z.div_mod (a - snd_nxt c + 2 ^ 31) (2 ^ 32)). lia. }
        destruct Hs as [j Ej]. pose proof (s32_range (a - snd_nxt c)).
        apply (s32_unique _ _ j); lia. }
      lia. }
  pose proof (ws_window _ Hc) as Hwin. pose proof (ws_used _ Hc).
  destruct Hc. constructor; simpl; try done; try lia.
  - subst n. by destruct (_ <? 0).
  - intros Hst. specialize (Hwin Hst). lia.
Qed.

(** The transitions an acknowledgement of our FIN makes. *)
Definition ack_state (a b : tcp_state) : Prop :=
  b = a \/ a = FIN_WAIT_1 /\ b = FIN_WAIT_2 \/ a = CLOSING /\ b = TIME_WAIT.

Lemma wf_same_slack c st :
  wf_snd c -> state c <> CLOSED -> slack (state c) <= slack st -> wf_snd (set_state_ st c).
Proof.
  intros Hc Hst Hsl. pose proof (ws_window _ Hc Hst). unfold set_state_.
  destruct (state_eqb st ESTABLISHED); wf_conn_tac.
Qed.

Lemma ack_advance_ok {cap} `{Env} h c s :
  wf_snd c -> wf_shared cap s -> 0 <= h_ack h < 2 ^ 32 ->
  seqdiff (h_ack h) (snd_last c) <= 0 -> 0 < seqdiff (h_ack h) (snd_una c) -> state c <> CLOSED ->
  returns (ack_advance h (seqdiff (h_ack h) (snd_una c)) c s) (fun '(c', s') =>
    wf_snd c' /\ wf_shared cap s' /\ frame_rcv c c' /\ ack_state (state c) (state c') /\
    snd_una c' = h_ack h /\ snd_last c' = snd_last c /\ flags c' = flags c).
Proof.
  intros Hc Hs Ha H1 H2 Hst. set (adv := seqdiff (h_ack h) (snd_una c)) in *.
  pose proof (seqdiff_range (h_ack h) (snd_una c)) as Hr. fold adv in Hr.
  destruct (ack_range c (h_ack h) Hc Ha H1) as [Hle _]; [fold adv; lia|]. fold adv in Hle.
  unfold ack_advance.
  destruct (ack_rtt_ok h c s Hc) as (a & b & r & t & n & -> & Hrr). cbn [fst snd].
  set (c1 := c |> set_srtt a |> set_rttvar b |> set_rto r |> set_rtt_start t).
  assert (Hc1 : wf_snd c1) by (subst c1; wf_conn_tac).
  rewrite s32_small by lia.
  change (state c1) with (state c). change (snd_last c1) with (snd_last c).
  change (snd_una c1) with (snd_una c).
  set (da := adv - (if handshaking (state c) then 1 else 0)).
  assert (Hda : 0 <= da <= adv) by (subst da; destruct (handshaking _); lia).
  rewrite (proj2 (Z.leb_le 0 da)), (proj2 (Z.leb_le da _)) by lia. cbn [assert_ obind].
  (* the buffer *)
  set (c2 := if negb (da =? 0) then _ else c1).
  assert (exists bf dp, c2 = c1 |> set_sndbuf bf |> set_do_poll dp /\ wf_buffer bf /\
    maxsize bf = maxsize (sndbuf c) /\ used (sndbuf c) - adv <= used bf <= used (sndbuf c))
    as (bf & dp & E2 & Hbf & Hbm & Hbu).
  { subst c2. pose proof (wf_used _ (ws_buf _ Hc)).
    destruct (discard_ok (sndbuf c1) da (ws_buf _ Hc1)) as
      (b' & Hdis & Hw & Hm & _ & _ & Hus & _); [lia|]. simpl in Hus, Hm.
    destruct (negb (da =? 0)).
    - rewrite Hdis. destruct (is_reliable _); [exists b', true|exists b', (do_poll c)];
        (split; [by destruct c|]); (split; [done|]); (split; [done|]); lia.
    - exists (sndbuf c), (do_poll c). split; [by destruct c|]. split; [apply (ws_buf _ Hc)|]. split; [done|]. lia. }
  clearbody c2. subst c2.
  (* the sequence numbers *)
  set (c3 := set_snd_una _ _).
  set (nx := if seqdiff (snd_nxt c) (h_ack h) <? 0 then h_ack h else snd_nxt c).
  assert (E3 : c3 = c1 |> set_do_poll dp |> set_sndbuf bf |> set_snd_nxt nx |> set_snd_una (h_ack h)).
  { subst c3 nx. change (snd_nxt (c1 |> set_sndbuf bf |> set_do_poll dp)) with (snd_nxt c).
    by destruct (seqdiff (snd_nxt c) (h_ack h) <? 0). }
  assert (Hc1' : wf_snd (set_do_poll dp c1)) by (clear -Hc1; wf_conn_tac).
  assert (Hc3 : wf_snd c3).
  { rewrite E3. apply wf_acked; try done; simpl; fold adv; lia. }
  clearbody c3. clear Hc1'.
  (* the congestion window *)
  set (c4 := if negb (dupack c3 =? 0) then _ else c3).
  assert (exists d v, c4 = c3 |> set_snd_cwnd v |> set_dupack d /\ 0 <= v < 2 ^ 32) as (d & v & E4 & Hv).
  { subst c4. pose proof (ws_cwnd _ Hc3). pose proof (ws_ssthresh _ Hc3). destruct (negb _).
    - destruct (3 <=? _); [exists 0, (snd_ssthresh c3)|exists 0, (snd_cwnd c3)];
        (split; [by destruct c3|lia]).
    - exists (dupack c3), (snd_cwnd c3). split; [by destruct c3|lia]. }
  clearbody c4.
  assert (Hc4 : wf_snd c4) by (rewrite E4; clear -Hc3 Hv; wf_conn_tac).
  destruct (grow_cwnd_ok adv (set_tick n s) c4 Hc4) as (v' & -> & Hv'). cbn [obind].
  set (c5 := set_snd_cwnd v' c4). assert (Hc5 : wf_snd c5) by (by apply wf_cwnd).
  assert (Hst5 : state c5 = state c) by (by subst c5 c4 c3).
  assert (Hk : frame_rcv c c5 /\ snd_una c5 = h_ack h /\ snd_last c5 = snd_last c /\ flags c5 = flags c)
    by (by subst c5 c4 c3).
  clearbody c5. clear E3 E4. rewrite Hst5. destruct Hk as (Hfr & Hu5 & Hl5 & Hfl).
  assert (Hsame : returns (Done (c5, set_tick n s)) (fun '(c', s') =>
    wf_snd c' /\ wf_shared cap s' /\ frame_rcv c c' /\ ack_state (state c) (state c') /\
    snd_una c' = h_ack h /\ snd_last c' = snd_last c /\ flags c' = flags c)).
  { simpl. repeat (split; [by eauto with utcp|]). split; [by left|]. done. }
  destruct (state c) eqn:Es; try exact Hsame; zcase; try exact Hsame.
  - simpl. split; [apply wf_same_slack; [done|congruence|by rewrite Hst5]|].
    split; [auto with utcp|]. split; [done|]. split; [right; left; done|done].
  - simpl. split; [apply (wf_same_slack (set_conn_timeout _ c5)); [auto with utcp|simpl; congruence|by simpl; rewrite Hst5]|].
    split; [auto with utcp|]. split; [done|]. split; [right; right; done|done].
Qed.

Lemma ack_duplicate_ok {cap} `{Env} len c s :
  wf_snd c -> wf_shared cap s ->
  returns (ack_duplicate len c s) (fun '(c', s') =>
    wf_snd c' /\ wf_shared cap s' /\ frame_rcv c c' /\ state c' = state c /\
    snd_una c' = snd_una c /\ snd_last c' = snd_last c /\ flags c' = flags c).
Proof.
  intros Hc Hs. pose proof (wh_mss _ _ Hs) as Hm. pose proof (wf_max _ (ws_buf _ Hc)) as Hmx.
  unfold ack_duplicate.
  destruct ((len =? 0) && is_reliable c && _); [|by simpl].
  set (c1 := set_dupack _ c). assert (Hc1 : wf_snd c1) by (subst c1; wf_conn_tac).
  set (m := if dupack c1 =? 3 then _ else _).
  assert (Hmid : returns m (fun '(c', s') => wf_shared cap s' /\ wf_snd c' /\ frame_rcv c c' /\
    state c' = state c /\ snd_una c' = snd_una c /\ snd_last c' = snd_last c /\ flags c' = flags c)).
  { subst m. zcase.
    - set (ss := u32 (Z.max _ _)).
      assert (Hss : 0 < ss < 2 ^ 32).
      { subst ss. pose proof (u32_range (seqdiff (snd_nxt c1) (snd_una c1))).
        assert (0 <= u32 (seqdiff (snd_nxt c1) (snd_una c1)) / 2 < 2 ^ 32)
          by (split; [apply Z.div_pos|apply Z.div_lt_upper_bound]; lia).
        rewrite u32_small; lia. }
      set (v := u32 (Z.min _ _)). assert (Hv : 0 <= v < 2 ^ 32) by apply u32_range.
      set (c2 := if maxsize _ <? _ then _ else _).
      assert (exists x, c2 = c1 |> set_snd_ssthresh ss |> set_snd_cwnd x /\ 0 <= x < 2 ^ 32) as (x & E2 & Hx).
      { subst c2. destruct (maxsize _ <? _); eexists; (split; [done|]); [exact Hmx|done]. }
      clearbody c2. assert (Hc2 : wf_snd c2) by (rewrite E2; clear -Hc1 Hss Hx; wf_conn_tac).
      destruct (fast_retransmit_ok c2 s Hc2 Hs) as (s' & ps & -> & Hsp). simpl.
      split; [by eapply sent_packets_wf|]. split; [done|]. by subst c2.
    - zcase; [|by simpl].
      set (v := u32 (snd_cwnd c1 + u_mss s)). assert (Hv : 0 <= v < 2 ^ 32) by apply u32_range.
      set (c2 := if maxsize _ <? _ then _ else _).
      assert (exists x, c2 = c1 |> set_snd_cwnd x /\ 0 <= x < 2 ^ 32) as (x & E2 & Hx).
      { subst c2. destruct (maxsize _ <? _); eexists; (split; [done|]); [exact Hmx|done]. }
      clearbody c2. simpl. split; [done|].
      split; [rewrite E2; clear -Hc1 Hx; wf_conn_tac|]. by subst c2. }
  apply returns_done in Hmid as ([c2 s2] & -> & Hs2 & Hc2 & Hf & Hst & Hu & Hl & Hfl). cbn [obind].
  destruct (start_timer_ok c2 s2 Hc2) as (t & ->). simpl.
  split; [auto with utcp|]. split; [auto with utcp|].
  split; [destruct Hf as (? & ? & ? & ?); done|]. done.
Qed.

Lemma ack_timers_ok {cap} `{Env} adv c s :
  wf_snd c -> wf_shared cap s ->
  returns (ack_timers adv c s) (fun '(c', s') =>
    wf_snd c' /\ wf_shared cap s' /\ frame_rcv c c' /\ state c' = state c /\
    snd_una c' = snd_una c /\ snd_last c' = snd_last c /\ flags c' = flags c).
Proof.
  intros Hc Hs. unfold ack_timers. zcase; [by simpl|]. zcase.
  - simpl. unfold stop_retransmit_timer. split; [auto with utcp|]. by split.
  - destruct (is_reliable c); [|by simpl].
    destruct (start_timer_ok c s Hc) as (t & ->). simpl.
    split; [auto with utcp|]. split; [auto with utcp|]. done.
Qed.

(** Stages 3 and 4 on any header. *)
Lemma process_ack_ok {cap} `{Env} r c s :
  wf_snd c -> wf_shared cap s -> 0 <= h_ack (rx_hdr r) < 2 ^ 32 -> state c <> CLOSED ->
  returns (process_ack r c s) (fun '(a, (c', s')) =>
    wf_snd c' /\ wf_shared cap s' /\ frame_rcv c c' /\ ack_state (state c) (state c') /\
    flags c' = flags c /\
    match a with
    | Some adv => 0 <= adv <= seqdiff (snd_last c) (snd_una c) /\
        snd_una c' = u32 (snd_una c + adv) /\ snd_last c' = snd_last c
    | None => c' = c
    end).
Proof.
  intros Hc Hs Ha Hst. unfold process_ack. pose proof (ws_order _ Hc).
  destruct (has (rx_hdr r) ACK); cbn [negb].
  2:{ simpl. rewrite Z.add_0_r, u32_small by apply (ws_una _ Hc).
      splits; try done; try lia; by left. }
  destruct ((0 <? _) || _) eqn:E; [simpl; splits; try done; by left|].
  apply orb_false_iff in E as [E1 E2]. ztests.
  destruct (ack_range c (h_ack (rx_hdr r)) Hc Ha) as [Hle _]; [lia..|].
  pose proof (seqdiff_range (snd_last c) (snd_una c)).
  rewrite u32_small by lia.
  set (adv := seqdiff (h_ack (rx_hdr r)) (snd_una c)) in *.
  assert (Hadv : u32 (snd_una c + adv) = h_ack (rx_hdr r)) by (by apply seqdiff_add).
  assert (Hmid : returns (if negb (adv =? 0) then ack_advance (rx_hdr r) adv c s
       else ack_duplicate (rx_len r) c s) (fun '(c', s') =>
    wf_snd c' /\ wf_shared cap s' /\ frame_rcv c c' /\ ack_state (state c) (state c') /\
    snd_una c' = u32 (snd_una c + adv) /\ snd_last c' = snd_last c /\ flags c' = flags c)).
  { destruct (adv =? 0) eqn:E0; ztests; cbn [negb].
    - eapply returns_mono; [by apply (@ack_duplicate_ok cap)|].
      intros [c' s'] (? & ? & ? & -> & -> & ? & ?). rewrite E0, Z.add_0_r, u32_small by apply (ws_una _ Hc).
      splits; try done; by left.
    - eapply returns_mono; [apply (@ack_advance_ok cap); try done; fold adv; lia|].
      intros [c' s'] (? & ? & ? & ? & -> & ? & ?). by rewrite Hadv. }
  apply returns_done in Hmid as ([c1 s1] & -> & Hc1 & Hs1 & Hf1 & Hst1 & Hu1 & Hl1 & Hfl1). cbn [obind].
  pose proof (ack_timers_ok adv c1 s1 Hc1 Hs1) as Ht.
  apply returns_done in Ht as ([c2 s2] & -> & Hc2 & Hs2 & Hf2 & Hst2 & Hu2 & Hl2 & Hfl2). cbn [obind returns].
  split; [done|]. split; [done|]. split; [by eapply frame_trans|]. split; [by rewrite Hst2|].
  split; [congruence|]. split; [lia|]. split; congruence.
Qed.
