(* ===== verification/UtcpWorld.v ===== *)
(** The invariant of a whole UTCP instance, and what an application may do in
    its callbacks.

    [wf_world] says that the connection table is sorted and has the capacity the
    code believes, that every connection is well-formed, and that the packet
    buffer holds a full segment.  [AppOk] states what UTCP relies on when it hands
    control to the application: a callback keeps the invariant and frees no
    connection.  UtcpCalls.v shows that every public function keeps the invariant,
    so that callbacks made of such calls satisfy [AppOk]. *)
From stdpp Require Import relations sorting.
From S2P Require Import Prelude UtcpBuffer UtcpTypes UtcpTimer UtcpTable UtcpSend UtcpInput UtcpRecv UtcpApi UtcpInv.

(** [safe m P]: [m] returns with [P], or it calls [abort] deliberately; it does
    nothing else that stops the process. *)
Definition safe {A} (m : outcome A) (P : A -> Prop) : Prop :=
  match m with Done a => P a | Stop AbortCalled => True | Stop _ => False end.

Lemma safe_bind {A B} (m : outcome A) (k : A -> outcome B) P Q :
  safe m P -> (forall a, P a -> safe (k a) Q) -> safe (obind m k) Q.
Proof. destruct m as [a|[]]; simpl; eauto. Qed.

Lemma safe_mono {A} (m : outcome A) (P Q : A -> Prop) :
  safe m P -> (forall a, P a -> Q a) -> safe m Q.
Proof. destruct m as [a|[]]; simpl; eauto. Qed.

Lemma returns_safe {A} (m : outcome A) P : returns m P -> safe m P.
Proof. destruct m as [a|[]]; simpl; done. Qed.

Record wf_rcv (c : utcp_connection) : Prop := {
  wr_buf : wf_buffer (rcvbuf c);
  wr_sacks : length (sacks c) = 4%nat;
}.

Definition wf_conn (c : utcp_connection) : Prop := wf_snd c /\ wf_rcv c.

Record wf_world (w : world) : Prop := {
  ww_table : table_ok w;
  ww_shared : wf_shared (u_nallocated (sh w)) (sh w);
  ww_conns : Forall wf_conn (conns w);
}.

Lemma wf_conn_at w k c : wf_world w -> conn_at k (conns w) = Some c -> wf_conn c /\ key_of c = k.
Proof.
  intros Hw [Hc Hk]%conn_at_elem. split; [|done].
  pose proof (ww_conns _ Hw) as Hf. rewrite Forall_forall in Hf. by apply Hf.
Qed.

(** ** Storing through a connection pointer *)

Lemma put_keys c cs : key_of <$> put_conn c cs = key_of <$> cs.
Proof.
  unfold put_conn. rewrite <- list_fmap_compose. apply list_fmap_ext. intros i x _. simpl.
  by case_bool_decide.
Qed.

Lemma sorted_by_keys cs cs' : key_of <$> cs' = key_of <$> cs -> sorted cs -> sorted cs'.
Proof.
  unfold sorted. intros E Hs. revert cs' E.
  induction Hs as [|c cs Hs IH Hf]; intros [|c' cs'] E; try done; [constructor|].
  pose proof (f_equal tail E) as Et. pose proof (f_equal (fun l => nth 0 l (0, 0)) E) as Eh.
  cbn [fmap list_fmap tail nth] in Et, Eh.
  constructor; [by apply IH|]. rewrite Forall_forall in Hf |- *. intros x Hx.
  assert (key_of x ∈ (key_of <$> cs)) as (y & Hy & Hin)%list_elem_of_fmap
    by (rewrite <- Et; by apply list_elem_of_fmap_2).
  rewrite Eh, Hy. by apply Hf.
Qed.

Lemma conn_at_put c cs k :
  conn_at k (put_conn c cs) =
  if bool_decide (k = key_of c) then (fun _ => c) <$> conn_at k cs else conn_at k cs.
Proof.
  induction cs as [|x cs IH]; [simpl; by case_bool_decide|].
  change (put_conn c (x :: cs)) with
    ((if bool_decide (key_of x = key_of c) then c else x) :: put_conn c cs).
  cbn [conn_at]. rewrite IH. repeat case_bool_decide; simpl; congruence.
Qed.

Lemma put_forall (P : utcp_connection -> Prop) c cs : Forall P cs -> P c -> Forall P (put_conn c cs).
Proof.
  intros Hf Hc. unfold put_conn. apply Forall_fmap. eapply Forall_impl; [exact Hf|].
  intros x Hx. simpl. by case_bool_decide.
Qed.

Lemma put_length c cs : length (put_conn c cs) = length cs.
Proof. apply length_fmap. Qed.

(** Whatever keeps the keys and the members of the table keeps the invariant. *)
Lemma wf_world_same w s cs :
  wf_world w -> wf_shared (u_nallocated (sh w)) s -> key_of <$> cs = key_of <$> conns w ->
  Forall wf_conn cs -> wf_world (World s cs).
Proof.
  intros [[Hsort Hsl Hfit] Hsh _] Hs Hk Hf. pose proof (wh_cap _ _ Hs) as Hcap.
  pose proof (wh_slots _ _ Hs) as Hslot.
  assert (Hlen : length cs = length (conns w)) by (rewrite <- (length_fmap key_of cs), Hk; apply length_fmap).
  constructor; simpl; [|by rewrite Hcap|done]. constructor; simpl.
  - by eapply sorted_by_keys.
  - congruence.
  - unfold zlen in *. rewrite Hlen, Hcap. done.
Qed.

Lemma wf_put w s c :
  wf_world w -> wf_shared (u_nallocated (sh w)) s -> wf_conn c ->
  wf_world (World s (put_conn c (conns w))).
Proof.
  intros Hw Hs Hc. eapply wf_world_same; [done|done|apply put_keys|].
  apply put_forall; [apply (ww_conns _ Hw)|done].
Qed.

Lemma wf_world_sh w s :
  wf_world w -> wf_shared (u_nallocated (sh w)) s -> wf_world (set_sh s w).
Proof. intros Hw Hs. eapply wf_world_same; [done|done|done|apply Hw]. Qed.

Lemma wf_world_put w c :
  wf_world w -> wf_conn c -> wf_world (set_conns (put_conn c (conns w)) w).
Proof. intros Hw Hc. exact (wf_put w (sh w) c Hw (ww_shared _ Hw) Hc). Qed.

(** ** How connections may change

    The edges of the connection state machine.  It is RFC 793's, with these
    differences: a passive open goes to SYN_RECEIVED directly, [shutdown] in
    CLOSE_WAIT goes to CLOSING (never to LAST_ACK), and every state can be
    aborted. *)
Inductive edge : tcp_state -> tcp_state -> Prop :=
  | edge_synack : edge SYN_SENT ESTABLISHED
  | edge_synack_shut : edge SYN_SENT FIN_WAIT_1
  | edge_accept : edge SYN_RECEIVED ESTABLISHED
  | edge_shut_early : edge SYN_RECEIVED FIN_WAIT_1
  | edge_shut : edge ESTABLISHED FIN_WAIT_1
  | edge_peer_fin : edge ESTABLISHED CLOSE_WAIT
  | edge_fin_acked : edge FIN_WAIT_1 FIN_WAIT_2
  | edge_both_fin : edge FIN_WAIT_1 CLOSING
  | edge_last_fin : edge FIN_WAIT_2 TIME_WAIT
  | edge_shut_wait : edge CLOSE_WAIT CLOSING
  | edge_all_acked : edge CLOSING TIME_WAIT
  | edge_abort st : edge st CLOSED.

Definition later (c c' : utcp_connection) : Prop := rtc edge (state c) (state c').

#[export] Instance later_preorder : PreOrder later.
Proof.
  split; [intros c; apply rtc_refl|]. intros a b c H1 H2. unfold later. by etransitivity.
Qed.

Lemma later_same c c' : state c' = state c -> later c c'.
Proof. unfold later. by intros ->. Qed.

Lemma later_once c c' : edge (state c) (state c') -> later c c'.
Proof. apply rtc_once. Qed.

#[export] Hint Resolve later_same : utcp.

(** [rel R w w']: every connection of [w] is still there in [w'], related by
    [R]. *)
Definition rel (R : relation utcp_connection) (w w' : world) : Prop :=
  forall k c, conn_at k (conns w) = Some c ->
    exists c', conn_at k (conns w') = Some c' /\ R c c'.

Section Rel.
Context (R : relation utcp_connection) `{!PreOrder R}.

#[export] Instance rel_preorder : PreOrder (rel R).
Proof.
  split.
  - intros w k c Hc. by exists c.
  - intros a b c Hab Hbc k x Hx. destruct (Hab k x Hx) as (y & Hy & Hxy).
    destruct (Hbc k y Hy) as (z & Hz & Hyz). exists z. split; [done|by transitivity y].
Qed.

Lemma rel_sh w s : rel R w (set_sh s w).
Proof. intros k c Hc. by exists c. Qed.

Lemma rel_put w s c c' :
  conn_at (key_of c') (conns w) = Some c -> R c c' -> rel R w (World s (put_conn c' (conns w))).
Proof.
  intros Hc Hk k x Hx. simpl. rewrite conn_at_put. case_bool_decide; subst.
  - rewrite Hx. exists c'. split; [done|]. congruence.
  - by exists x.
Qed.

End Rel.

Lemma rel_mono (R S : relation utcp_connection) w w' :
  (forall c c', R c c' -> S c c') -> rel R w w' -> rel S w w'.
Proof. intros HRS H k c Hc. destruct (H k c Hc) as (c' & ? & ?). eauto. Qed.

(** A connection the application has closed. *)
Definition gone (c : utcp_connection) : Prop := reapable c = true /\ recv c = None.

(** What the application may do to a connection during a callback: the state
    follows the edges, and the object behind the receive buffer is not replaced
    under UTCP's feet while the application still receives. *)
Definition keeps_rcv (c c' : utcp_connection) : Prop :=
  (gone c -> gone c') /\ (size (rcvbuf c') = size (rcvbuf c) \/ gone c') /\ later c c'.

#[export] Instance keeps_rcv_preorder : PreOrder keeps_rcv.
Proof.
  split; [by intros c; split; [|split; [by left|]]|].
  intros a b c [? [E1 L1]] [? [E2 L2]]. split; [tauto|]. split; [|by transitivity b].
  destruct E2 as [E2|?]; [|tauto]. rewrite E2. tauto.
Qed.

Abbreviation keeps := (rel keeps_rcv).
Abbreviation moves := (rel later).

Lemma keeps_moves w w' : keeps w w' -> moves w w'.
Proof. apply rel_mono. by intros c c' (_ & _ & ?). Qed.

(** ** Operations on one connection *)

(** A function of one connection that keeps the invariant, and the identity of
    the connection. *)
Definition conn_ok {A} (c : utcp_connection) (s : shared) (Q : A -> utcp_connection -> Prop)
    (r : outcome (A * (utcp_connection * shared))) : Prop :=
  forall cap, wf_shared cap s ->
    returns r (fun '(a, (c', s')) =>
      wf_conn c' /\ wf_shared cap s' /\ key_of c' = key_of c /\ keeps_rcv c c' /\ Q a c').

Lemma on_conn_ok {A} k w c Q (f : utcp_connection -> shared -> outcome (A * (utcp_connection * shared))) :
  wf_world w -> conn_at k (conns w) = Some c -> conn_ok c (sh w) Q (f c (sh w)) ->
  returns (on_conn k w f) (fun '(a, w') => wf_world w' /\ keeps w w' /\
    key_of <$> conns w' = key_of <$> conns w /\
    exists c', conn_at k (conns w') = Some c' /\ Q a c').
Proof.
  intros Hw Hc Hf. pose proof (wf_conn_at _ _ _ Hw Hc) as [_ Hk].
  unfold on_conn. rewrite Hc. specialize (Hf _ (ww_shared _ Hw)).
  eapply returns_bind; [exact Hf|]. intros [a [c' s']] (Hc' & Hs' & Hk' & Hkr & HQ). simpl.
  split; [by apply wf_put|]. split; [apply (rel_put _ w s' c); [congruence|done]|].
  split; [apply put_keys|].
  exists c'. rewrite conn_at_put, bool_decide_true by congruence. by rewrite Hc.
Qed.
