(* ===== verification/UtcpCalls.v ===== *)
(** Every function of UTCP's public interface (src/src/utcp.h) keeps the
    invariant of UtcpWorld.v, so callbacks made of such calls are what UTCP
    relies on. *)
From stdpp Require Import relations sorting.
From S2P Require Import Prelude UtcpBuffer UtcpTypes UtcpTimer UtcpTable UtcpSend UtcpInput UtcpRecv UtcpApi UtcpInv UtcpWorld.

Lemma frame_keeps c c' :
  frame_rcv c c' -> later c c' -> wf_rcv c -> wf_rcv c' /\ keeps_rcv c c'.
Proof.
  intros (_ & Hb & Hs & _ & Hr & Hf) Hlt [Hw Hl].
  split; [constructor; by rewrite ?Hb, ?Hs|]. split; [unfold gone; by rewrite Hr, Hf|].
  split; [left; by rewrite Hb|done].
Qed.

Lemma frame_key c c' : frame_rcv c c' -> key_of c' = key_of c.
Proof. by intros []. Qed.

(** A function that touches the sending half only. *)
Lemma conn_ok_frame {A} c s Q (r : outcome (A * (utcp_connection * shared))) :
  wf_conn c ->
  (forall cap, wf_shared cap s -> returns r (fun '(a, (c', s')) =>
     wf_snd c' /\ wf_shared cap s' /\ frame_rcv c c' /\ later c c' /\ Q a c')) ->
  conn_ok c s Q r.
Proof.
  intros [_ Hr] Hf cap Hs. eapply returns_mono; [by apply Hf|].
  intros [a [c' s']] (Hc & Hs' & Hfr & Hlt & HQ). pose proof (frame_keeps _ _ Hfr Hlt Hr) as [? ?].
  repeat (split; [done || by apply frame_key|]). done.
Qed.

(** ** Closing *)

(** Our FIN takes one sequence number after the data. *)
Lemma wf_fin c st :
  wf_snd c -> state c <> CLOSED -> slack (state c) = 1 -> slack st = 2 ->
  wf_snd (set_snd_last (u32 (snd_last c + 1)) (set_state_ st c)).
Proof.
  intros Hc Hst H1 H2. pose proof (ws_order _ Hc). pose proof (ws_window _ Hc Hst) as Hw.
  assert (Hd : seqdiff (u32 (snd_last c + 1)) (snd_una c) = seqdiff (snd_last c) (snd_una c) + 1).
  { apply seqdiff_advance. pose proof (seqdiff_range (snd_last c) (snd_una c)).
    pose proof (used_bound c Hc). unfold SNDMAX in *. lia. }
  unfold set_state_. destruct (state_eqb st ESTABLISHED);
    (destruct Hc; constructor; simpl; rewrite ?Hd; try done; try lia; apply u32_range).
Qed.

(** What [utcp_shutdown] leaves of the receiving half. *)
Definition shut_kept (cap : Z) (c : utcp_connection) (p : Z * (utcp_connection * shared)) : Prop :=
  let '(_, (c', s')) := p in
  wf_snd c' /\ wf_shared cap s' /\ key_of c' = key_of c /\ rcvbuf c' = rcvbuf c /\
  sacks c' = sacks c /\ reapable c' = reapable c /\ (recv c' = recv c \/ recv c' = None) /\ later c c'.

Lemma shut_frame {cap} c c1 c' s' r :
  wf_snd c' -> wf_shared cap s' -> frame_rcv c1 c' ->
  key_of c1 = key_of c -> rcvbuf c1 = rcvbuf c -> sacks c1 = sacks c -> reapable c1 = reapable c ->
  recv c1 = recv c \/ recv c1 = None -> later c c' -> shut_kept cap c (r, (c', s')).
Proof.
  intros ? ? (? & ? & ? & ? & ? & Hr) ? ? ? ? Hrv Hlt. rewrite <- Hr in Hrv. red.
  repeat (split; [done || congruence|]). done.
Qed.

Lemma utcp_shutdown_ok {cap} `{Env} dir c s :
  wf_snd c -> wf_shared cap s -> returns (utcp_shutdown dir c s) (shut_kept cap c).
Proof.
  intros Hc Hs.
  set (c1 := if (dir =? UTCP_SHUT_RD) || (dir =? UTCP_SHUT_RDWR) then set_recv None c else c).
  assert (Hc1 : wf_snd c1 /\ key_of c1 = key_of c /\ rcvbuf c1 = rcvbuf c /\ sacks c1 = sacks c /\
    reapable c1 = reapable c /\ (recv c1 = recv c \/ recv c1 = None) /\ state c1 = state c).
  { subst c1. destruct (_ || _); [|by auto 10]. split; [wf_conn_tac|]. by auto 10. }
  assert (Hid : forall r s', wf_shared cap s' -> returns (Done (r, (c, s'))) (shut_kept cap c))
    by (intros; by apply (shut_frame c c); auto).
  unfold utcp_shutdown. fold c1. clearbody c1. destruct Hc1 as (Hc1 & Hk & Hb & Hsk & Hr & Hrv & Hst).
  assert (Hsm : forall r s' x, wf_snd x -> frame_rcv c1 x -> wf_shared cap s' ->
    later c1 x -> returns (Done (r, (x, s'))) (shut_kept cap c)).
  { intros. apply (shut_frame c c1); try done. transitivity c1; [by apply later_same|done]. }
  destruct (reapable c); [by apply Hid, wf_errno|]. destruct (negb _); [by apply Hid, wf_errno|].
  clear Hid. set (c2 := set_shut_wr true c1). assert (Hc2 : wf_snd c2) by (subst c2; wf_conn_tac).
  destruct (dir =? UTCP_SHUT_RD); [by apply Hsm|]. destruct (shut_wr c1); [by apply Hsm|].
  assert (Hgo : forall st, slack (state c1) = 1 -> state c1 <> CLOSED -> slack st = 2 -> edge (state c1) st ->
    returns (let* (c, s) := ack false (set_snd_last (u32 (snd_last c2 + 1)) (set_state_ st c2)) s in
          let* (c, s) := if negb (timespec_isset (rtrx_timeout c))
                         then start_retransmit_timer c s else Done (c, s) in
          Done (0, (c, s))) (shut_kept cap c)).
  { intros st H1 H2 H3 H4. set (c3 := set_snd_last _ _).
    assert (Hc3 : wf_snd c3) by (by apply wf_fin).
    assert (Hf3 : frame_rcv c1 c3 /\ state c3 = st).
    { subst c3. unfold set_state_. by destruct (state_eqb st ESTABLISHED). }
    destruct Hf3 as [Hf3 Hst3].
    destruct (ack_ok false c3 s Hc3 Hs) as
      (c4 & s4 & ps & l & -> & _ & _ & Hup & Hc4 & Hsp & Hs4 & _). cbn [obind].
    assert (Hf4 : frame_rcv c1 c4) by (eapply frame_trans; [done|by apply frame_sent]).
    assert (Hl4 : later c1 c4).
    { apply later_once. destruct Hup as (? & ? & ? & ->). by rewrite <- Hst3 in H4. }
    destruct (negb _); [|by apply Hsm].
    destruct (start_timer_ok c4 s4 Hc4) as (t & ->). apply Hsm; auto with utcp. }
  unfold shutdown_state. change (state c2) with (state c1).
  destruct (state c1) eqn:Est; cbn beta iota;
    first [by apply Hsm; auto with utcp | apply Hgo; rewrite ?Est; done || constructor].
Qed.

(** Clearing both buffers and closing. *)
Lemma wf_cleared c : wf_snd c ->
  wf_snd (c |> set_sndbuf (buffer_clear (sndbuf c)) |> set_rcvbuf (buffer_clear (rcvbuf c)) |> set_state CLOSED).
Proof.
  intros Hc. pose proof (clear_ok _ (ws_buf _ Hc)) as [Hw _]. pose proof (wf_used _ Hw).
  destruct Hc. constructor; simpl in *; try done; unfold SNDMAX; lia.
Qed.

Lemma wf_rcv_cleared c st f : wf_rcv c ->
  wf_rcv (c |> set_sndbuf f |> set_rcvbuf (buffer_clear (rcvbuf c)) |> set_state st).
Proof. intros []. constructor; simpl; [by apply clear_ok|done]. Qed.

Lemma keeps_cleared c f :
  keeps_rcv c (c |> set_sndbuf f |> set_rcvbuf (buffer_clear (rcvbuf c)) |> set_state CLOSED).
Proof. split; [done|]. split; [by left|]. apply later_once. constructor. Qed.

Lemma reset_connection_ok {cap} c s :
  wf_conn c -> wf_shared cap s ->
  match reset_connection c s with
  | (ok, (c', s')) => wf_conn c' /\ wf_shared cap s' /\ key_of c' = key_of c /\ keeps_rcv c c' /\
      (ok = true -> state c' = CLOSED)
  end.
Proof.
  intros [Hc Hr] Hs. unfold reset_connection.
  destruct (reapable c).
  { split; [done|]. split; [auto with utcp|]. split; [done|]. split; [reflexivity|done]. }
  assert (Hcl : forall s', wf_shared cap s' ->
    let c' := set_state_ CLOSED (c |> set_sndbuf (buffer_clear (sndbuf c))
                                   |> set_rcvbuf (buffer_clear (rcvbuf c))) in
    wf_conn c' /\ wf_shared cap s' /\ key_of c' = key_of c /\ keeps_rcv c c' /\
    (true = true -> state c' = CLOSED)).
  { intros s' Hs' c'. split; [split; [exact (wf_cleared c Hc)|by apply wf_rcv_cleared]|].
    split; [done|]. split; [done|]. split; [|done].
    apply keeps_cleared. }
  destruct (state (_ |> _ |> _)) eqn:Est; try (apply Hcl; by auto with utcp).
  specialize (Hcl s Hs). change (state c = CLOSED) in Est.
  assert (E : set_state_ CLOSED (c |> set_sndbuf (buffer_clear (sndbuf c))
                                   |> set_rcvbuf (buffer_clear (rcvbuf c))) =
    (c |> set_sndbuf (buffer_clear (sndbuf c)) |> set_rcvbuf (buffer_clear (rcvbuf c)))).
  { unfold set_state_. simpl. destruct c. simpl in *. by subst. }
  by rewrite E in Hcl.
Qed.

Lemma set_reapable_ok {cap} `{Env} c s :
  wf_conn c -> wf_shared cap s -> (forall n, a_ok (allocs n) = true) ->
  returns (set_reapable_ c s) (fun '(c', s') =>
    wf_conn c' /\ wf_shared cap s' /\ key_of c' = key_of c /\ gone c' /\ state c' = state c).
Proof.
  intros [Hc [Hrb Hrs]] Hs Ha. unfold set_reapable_, next_alloc.
  pose proof (ws_max _ Hc) as Hm. pose proof (wf_max _ (ws_buf _ Hc)) as Hm0.
  pose proof (wf_max _ Hrb) as Hm1.
  destruct (storage_ok (allocs (tick s)) (sndbuf c) None
    (Z.min (maxsize (sndbuf c)) DEFAULT_MAXSNDBUFSIZE) (ws_buf _ Hc)) as
    (sb & -> & Hw & Hct & Hmx & Hu & _); [unfold DEFAULT_MAXSNDBUFSIZE; lia|done|done|]. cbn [obind].
  destruct (storage_ok (allocs (tick (set_tick (S (tick s)) s))) (rcvbuf c) None
    (Z.min (maxsize (rcvbuf c)) DEFAULT_MAXRCVBUFSIZE) Hrb) as
    (rb & -> & Hw' & _); [unfold DEFAULT_MAXRCVBUFSIZE; lia|done|done|]. cbn [obind returns].
  split; [|split; [auto with utcp|done]]. split; [|by constructor].
  pose proof (ws_window _ Hc). clear Hm1 Hrb Hrs Hct. 
  destruct Hc. constructor; simpl in *; rewrite ?Hu; try done.
  unfold SNDMAX, DEFAULT_MAXSNDBUFSIZE in *; lia.
Qed.

Section Calls.
Context `{Env} (Halloc : forall n, a_ok (allocs n) = true).

Lemma utcp_send_call dat len c s :
  wf_conn c -> (forall d, dat = Some d -> zlen d = len) -> 0 <= len < 2 ^ 62 ->
  conn_ok c s (fun _ _ => True) (utcp_send dat len c s).
Proof.
  intros Hc Hd Hl. apply conn_ok_frame; [done|]. intros cap Hs.
  eapply returns_mono; [apply (@utcp_send_ok cap); try done; apply Hc|].
  intros [r [c' s']] (? & ? & ? & ? & _). by auto 7 with utcp.
Qed.

Lemma utcp_shutdown_call dir c s :
  wf_conn c -> conn_ok c s (fun _ _ => True) (utcp_shutdown dir c s).
Proof.
  intros [Hc [Hrb Hrs]] cap Hs. eapply returns_mono; [by apply (@utcp_shutdown_ok cap)|].
  intros [r [c' s']] (? & ? & ? & Hb & Hk & Hr & Hrv & Hlt).
  split; [split; [done|constructor; by rewrite ?Hb, ?Hk]|]. split; [done|]. split; [done|].
  split; [|done]. split; [|split; [left; by rewrite Hb|done]]. unfold gone. rewrite Hr. intros [? E].
  split; [done|]. rewrite E in Hrv. tauto.
Qed.

Lemma utcp_close_call c s :
  wf_conn c -> conn_ok c s (fun r c' => r = 0 -> gone c') (utcp_close c s).
Proof.
  intros Hc cap Hs. unfold utcp_close.
  eapply returns_bind; [exact (utcp_shutdown_call UTCP_SHUT_RDWR c s Hc cap Hs)|].
  intros [r [c1 s1]] (Hc1 & Hs1 & Hk1 & Hkr & _). destruct (_ && _).
  - simpl. repeat (split; [done|]). done.
  - eapply returns_bind; [exact (set_reapable_ok c1 s1 Hc1 Hs1 Halloc)|].
    intros [c2 s2] (? & ? & ? & Hg & Hst). simpl. split; [done|]. split; [done|]. split; [congruence|].
    split; [|done]. transitivity c1; [done|]. split; [done|]. split; [by right|by apply later_same].
Qed.

Lemma utcp_abort_call c s :
  wf_conn c -> conn_ok c s (fun r c' => r = 0 -> gone c' /\ state c' = CLOSED) (utcp_abort c s).
Proof.
  intros Hc cap Hs. unfold utcp_abort. pose proof (reset_connection_ok c s Hc Hs) as Hr.
  destruct (reset_connection c s) as [ok [c1 s1]]. destruct Hr as (Hc1 & Hs1 & Hk1 & Hkr & Hst).
  destruct ok; cbn [negb].
  - eapply returns_bind; [exact (set_reapable_ok c1 s1 Hc1 Hs1 Halloc)|].
    intros [c2 s2] (? & ? & ? & Hg & Hst2). simpl. split; [done|]. split; [done|]. split; [congruence|].
    split; [transitivity c1; [done|]; split; [done|]; split; [by right|by apply later_same]|]. intros _. split; [done|]. rewrite Hst2. by apply Hst.
  - simpl. by repeat (split; [done|]).
Qed.

End Calls.

(** ** Opening *)

(** A connection just allocated: closed, with one sequence number (the SYN) to
    send. *)
Record fresh (c : utcp_connection) : Prop := {
  fr_wf : wf_conn c;
  fr_state : state c = CLOSED;
  fr_syn : seqdiff (snd_last c) (snd_una c) = 1;
  fr_used : used (sndbuf c) = 0;
  fr_reap : reapable c = false;
}.

Lemma fill_fresh s sp dp iss :
  0 <= iss < 2 ^ 32 ->
  fresh (fill_connection s sp dp iss (Buffer [] 0 0 0 DEFAULT_MAXSNDBUFSIZE false)
                                     (Buffer [] 0 0 0 DEFAULT_MAXRCVBUFSIZE false)).
Proof.
  intros Hi. unfold fill_connection, DEFAULT_MAXSNDBUFSIZE, DEFAULT_MAXRCVBUFSIZE.
  assert (Hd : seqdiff (u32 (iss + 1)) iss = 1) by (by apply seqdiff_of).
  constructor; simpl; [|done|done|done|done]. split; (constructor; simpl; try done).
  - constructor; simpl; try done; lia.
  - apply u32_range.
  - apply u32_range.
  - rewrite Hd. lia.
  - apply u32_range.
  - constructor; simpl; try done; lia.
Qed.

(** The state after the SYN: [SYN_SENT] or [SYN_RECEIVED]. *)
Lemma fresh_open c st : fresh c -> slack st = 1 -> st <> CLOSED -> wf_snd (set_state_ st c).
Proof.
  intros [[Hc _] _ Hd Hu _] Hsl Hst. unfold set_state_.
  destruct (state_eqb st ESTABLISHED);
    (destruct Hc; constructor; simpl in *; try done; intros _; lia).
Qed.

Lemma keeps_gain w w' c :
  sorted (conns w) -> fresh_key (key_of c) (conns w) -> conns w' = qsort (conns w ++ [c]) -> keeps w w'.
Proof.
  intros Hs Hf E k x Hx. rewrite E, conn_at_qsort_snoc by done. case_bool_decide; subst.
  - apply conn_at_none in Hf; [|done]. congruence.
  - exists x. split; [done|reflexivity].
Qed.

Section Open.
Context `{Env} (Halloc : forall n, a_ok (allocs n) = true).

Lemma grow_wf n s :
  wf_shared (u_nallocated s) s -> 0 <= n <= u_nallocated s ->
  exists s', grow_table n s = (true, s') /\ wf_shared (u_nallocated s') s' /\ n < u_nallocated s'.
Proof.
  intros Hs Hn. unfold grow_table, next_alloc.
  destruct (u_nallocated s <=? n) eqn:E; ztests; [|by eauto]. rewrite Halloc.
  eexists. split; [done|]. split; [destruct Hs; by constructor|]. simpl. zcase; lia.
Qed.

Lemma add_connection_wf sp dp s w :
  wf_world w -> wf_shared (u_nallocated (sh w)) s -> find_connection (conns w) sp dp = None ->
  exists w' c, add_connection sp dp s w = Done (Some (sp, dp), w') /\ wf_world w' /\ keeps w w' /\
    conn_at (sp, dp) (conns w') = Some c /\ fresh c.
Proof.
  intros Hw Hs Hn. destruct (ww_table _ Hw) as [Hsort Hsl Hfit].
  pose proof (wh_cap _ _ Hs) as Hcap. rewrite find_connection_at in Hn by done.
  destruct (grow_wf (zlen (conns w)) s) as (s1 & Hg & Hs1 & Hn1); [by rewrite Hcap|lia|].
  unfold add_connection, next_alloc, rand_. rewrite Hg, Halloc.
  change (buffer_set_size ?al buffer_zero DEFAULT_SNDBUFSIZE DEFAULT_MAXSNDBUFSIZE) with
    (Done (true, Buffer [] 0 0 0 DEFAULT_MAXSNDBUFSIZE false)).
  change (buffer_set_size ?al buffer_zero DEFAULT_RCVBUFSIZE DEFAULT_MAXRCVBUFSIZE) with
    (Done (true, Buffer [] 0 0 0 DEFAULT_MAXRCVBUFSIZE false)).
  cbn [negb obind]. set (s2 := set_tick _ (set_tick _ s1)).
  assert (Hs2 : wf_shared (u_nallocated s2) s2) by (subst s2; auto with utcp).
  set (c := fill_connection _ _ _ _ _ _).
  assert (Hc : fresh c) by (apply fill_fresh, u32_range).
  assert (Hk : key_of c = (sp, dp)) by done. clearbody c.
  rewrite (proj2 (Z.leb_gt (u_slots s2) (zlen (conns w)))) by (rewrite (wh_slots _ _ Hs2); subst s2; simpl; lia).
  assert (Hf : fresh_key (key_of c) (conns w)) by (rewrite Hk; by apply conn_at_none).
  eexists _, c. split; [by rewrite Hk|]. split; [constructor; [constructor|done|]|].
  - by apply qsort_snoc_sorted.
  - apply (wh_slots _ _ Hs2).
  - cbn [conns sh set_conns set_sh]. unfold zlen in *.
    rewrite (Permutation_length (qsort_perm _)), length_app. subst s2. simpl. lia.
  - simpl. rewrite qsort_perm, Forall_app, Forall_singleton. split; [apply Hw|apply (fr_wf _ Hc)].
  - split; [by eapply keeps_gain|]. split; [|done]. simpl.
    rewrite conn_at_qsort_snoc by done. by rewrite bool_decide_true.
Qed.

Lemma allocate_wf sp dp w :
  wf_world w ->
  returns (allocate_connection sp dp w) (fun '(r, w') => wf_world w' /\ keeps w w' /\
    match r with
    | None => conns w' = conns w
    | Some k => conn_at k (conns w) = None /\ exists c, conn_at k (conns w') = Some c /\ fresh c
    end).
Proof.
  intros Hw. destruct (ww_table _ Hw) as [Hsort Hsl Hfit]. pose proof (ww_shared _ Hw) as Hs.
  assert (Hfail : forall e, returns (Done (None, set_sh (set_errno e (sh w)) w)) (fun '(r, w') =>
    wf_world w' /\ keeps w w' /\
    match r with
    | None => conns w' = conns w
    | Some k => conn_at k (conns w) = None /\ exists c, conn_at k (conns w') = Some c /\ fresh c
    end)).
  { intros e. simpl. split; [apply wf_world_sh; auto with utcp|]. split; [by apply rel_sh, _|done]. }
  unfold allocate_connection, choose_port. destruct (negb (sp =? 0)).
  - destruct (find_connection (conns w) sp dp) eqn:E; cbn [obind]; [apply Hfail|].
    destruct (add_connection_wf sp dp (sh w) w Hw Hs E) as (w' & c & -> & ? & ? & ?). simpl.
    rewrite find_connection_at in E by done. split; [done|]. split; [done|]. split; [done|by exists c].
  - destruct (32767 <=? zlen (conns w)) eqn:E1; cbn [obind]; [apply Hfail|]. ztests.
    unfold rand_. destruct (next_free_port_ok (conns w) (Z.lor (rand (tick (sh w))) 32768) dp)
      as (p & -> & Hpr & Hp); [done|lia|]. cbn [obind].
    destruct (add_connection_wf p dp (set_tick (S (tick (sh w))) (sh w)) w Hw) as
      (w' & c & -> & ? & ? & ?); [auto with utcp|done|]. simpl.
    rewrite find_connection_at in Hp by done. split; [done|]. split; [done|]. split; [done|by exists c].
Qed.

(** Running a function on a connection that was just allocated. *)
Lemma on_conn_new {A} k w w1 c (f : utcp_connection -> shared -> outcome (A * (utcp_connection * shared))) :
  wf_world w1 -> keeps w w1 -> conn_at k (conns w) = None -> conn_at k (conns w1) = Some c ->
  returns (f c (sh w1)) (fun '(_, (c', s')) =>
    wf_conn c' /\ wf_shared (u_nallocated (sh w1)) s' /\ key_of c' = key_of c) ->
  returns (on_conn k w1 f) (fun '(_, w2) => wf_world w2 /\ keeps w w2).
Proof.
  intros Hw1 Hk Hn Hc Hf. pose proof (conn_at_key _ _ _ Hc) as Hkey. unfold on_conn. rewrite Hc.
  eapply returns_bind; [exact Hf|]. intros [a [c' s']] (Hc' & Hs' & Hk'). simpl.
  split; [by apply wf_put|]. intros k' x Hx. destruct (Hk k' x Hx) as (y & Hy & Hxy). exists y.
  split; [|done]. simpl. rewrite conn_at_put, bool_decide_false; [done|]. intros ->. congruence.
Qed.

(** The end of an open: the state is set, a packet is sent, a timer started. *)
Lemma open_ok {cap} c c1 s :
  wf_snd c1 -> wf_rcv c1 -> key_of c1 = key_of c -> wf_shared cap s ->
  returns (start_retransmit_timer c1 s) (fun '(c', s') =>
    wf_conn c' /\ wf_shared cap s' /\ key_of c' = key_of c).
Proof.
  intros Hc1 [Hb Hl] Hk Hs. destruct (start_timer_ok c1 s Hc1) as (t & ->). simpl.
  split; [split; [auto with utcp|by constructor]|]. by split; [auto with utcp|].
Qed.

Lemma utcp_connect_ok dp rcv prv fl w :
  wf_world w -> Z.ldiff fl 31 = 0 ->
  returns (utcp_connect_ex dp rcv prv fl w) (fun '(r, w') => wf_world w' /\ keeps w w').
Proof.
  intros Hw Hfl. unfold utcp_connect_ex.
  eapply returns_bind; [apply (allocate_wf 0 dp w Hw)|].
  intros [[k|] w1] (Hw1 & Hk1 & Hr); [|by simpl].
  destruct Hr as (Hnew & c & Hc & Hfr). rewrite Hfl. cbn [Z.eqb assert_ obind].
  eapply on_conn_new; [done|done|done|done|]. unfold arm_conn_timeout, clock_gettime. cbn beta iota zeta.
  eapply returns_bind; [eapply (open_ok c)|by intros [c' s'] ?].
  - apply wf_conn_to, fresh_open; [|done|done]. destruct Hfr as [[H1 H2] ? ? ? ?].
    constructor; simpl; try done. split; [wf_conn_tac|]. destruct H2. by constructor.
  - destruct (fr_wf _ Hfr) as [_ [? ?]]. by constructor.
  - done.
  - apply wf_tick, wf_send, Hw1.
Qed.

End Open.

(** ** Calls of the application *)

(** The calls that change UTCP's state; the arguments are the source's.  A
    connection pointer is its key. *)
Inductive call :=
  | CConnect (dp : Z) (rcv : option Z) (prv fl : Z)
  | CAccept (k : key) (rcv : option Z) (prv : Z)
  | CSend (k : key) (dat : list Z)
  | CShutdown (k : key) (dir : Z)
  | CClose (k : key)
  | CAbort (k : key)
  | CSetSndbuf (k : key) (sz : Z)
  | CSetRcvbuf (k : key) (sz : Z)
  | CSetRecv (k : key) (cb : option Z)
  | CSetPoll (k : key) (cb : option Z)
  | CSetFlags (k : key) (fl : Z)
  | CExpectData (k : key) (expect : bool)
  | CSetMtu (mtu : Z)
  | CSetUserTimeout (t : Z)
  | CSetAcceptCb (accept listen : option Z)
  | CResetTimers
  | COffline (offline : bool).

Definition pure_call (k : key) (f : utcp_connection -> utcp_connection) (w : world)
  : outcome (Z * world) := on_conn k w (fun c s => Done (0, (f c, s))).

Definition run_call `{Env} (cl : call) (w : world) : outcome (Z * world) :=
  let unit_result f := fun c s => let* p := f c s in Done (0, p) in
  match cl with
  | CConnect dp rcv prv fl =>
      let* (r, w) := utcp_connect_ex dp rcv prv fl w in
      Done (match r with Some _ => 0 | None => -1 end, w)
  | CAccept k rcv prv => pure_call k (utcp_accept rcv prv) w
  | CSend k dat => on_conn k w (utcp_send (Some dat) (zlen dat))
  | CShutdown k dir => on_conn k w (utcp_shutdown dir)
  | CClose k => on_conn k w utcp_close
  | CAbort k => on_conn k w utcp_abort
  | CSetSndbuf k sz => on_conn k w (unit_result (utcp_set_sndbuf None sz))
  | CSetRcvbuf k sz => on_conn k w (unit_result (utcp_set_rcvbuf None sz))
  | CSetRecv k cb => pure_call k (utcp_set_recv_cb cb) w
  | CSetPoll k cb => pure_call k (utcp_set_poll_cb cb) w
  | CSetFlags k fl => pure_call k (utcp_set_flags fl) w
  | CExpectData k e => on_conn k w (fun c s => Done (0, utcp_expect_data e c s))
  | CSetMtu mtu => Done (0, set_sh (utcp_set_mtu mtu (sh w)) w)
  | CSetUserTimeout t => Done (0, set_sh (utcp_set_user_timeout t (sh w)) w)
  | CSetAcceptCb a l => Done (0, set_sh (utcp_set_accept_cb a l (sh w)) w)
  | CResetTimers => Done (0, utcp_reset_timers w)
  | COffline b => Done (0, utcp_offline b w)
  end.

(** What the caller must respect: the pointer is live, sizes fit their types and
    the half circle of sequence numbers, and the flags are defined ones. *)
Definition valid_call (cl : call) (w : world) : Prop :=
  let live k := is_Some (conn_at k (conns w)) in
  match cl with
  | CConnect _ _ _ fl => Z.ldiff fl 31 = 0
  | CSend k dat => live k /\ zlen dat < 2 ^ 62
  | CSetSndbuf k sz => live k /\ 0 <= sz <= SNDMAX
  | CSetRcvbuf k sz => live k /\ 0 <= sz
  | CAccept k _ _ | CShutdown k _ | CClose k | CAbort k | CSetRecv k _
  | CSetPoll k _ | CSetFlags k _ | CExpectData k _ => live k
  | CSetMtu mtu => mtu < 2 ^ 16
  | CSetUserTimeout _ | CSetAcceptCb _ _ | CResetTimers | COffline _ => True
  end.

(** The calls allowed inside a [recv] callback: the receive buffer is not
    resized, and a closed connection is not given a callback again. *)
Definition callback_call (cl : call) (w : world) : Prop :=
  match cl with
  | CSetRcvbuf _ _ => False
  | CSetRecv k _ => forall c, conn_at k (conns w) = Some c -> reapable c = false
  | _ => True
  end.

(** Neither the receiving half nor the state. *)
Definition same_half (c c' : utcp_connection) : Prop := frame_rcv c c' /\ state c' = state c.

Lemma same_half_trans a b c : same_half a b -> same_half b c -> same_half a c.
Proof. intros [? ?] [? ?]. split; [by eapply frame_trans|congruence]. Qed.

Lemma conn_ok_done {A} (a : A) c s c' s' :
  wf_conn c -> (forall cap, wf_shared cap s -> wf_shared cap s') ->
  wf_snd c' -> same_half c c' -> conn_ok c s (fun _ _ => True) (Done (a, (c', s'))).
Proof.
  intros Hc Hs Hc' [Hf Hst]. apply conn_ok_frame; [done|]. intros cap H.
  split; [done|]. split; [by apply Hs|]. by auto with utcp.
Qed.

Lemma restart_ok now c : wf_snd c -> wf_snd (restart_timers now c) /\ same_half c (restart_timers now c).
Proof.
  intros Hc. unfold restart_timers. destruct (timespec_isset _), (START_RTO <? _); simpl;
    (split; [|done]); unfold START_RTO, USEC_PER_SEC in *; wf_conn_tac.
Qed.

Lemma wf_frame c c' : wf_conn c -> wf_snd c' -> same_half c c' ->
  wf_conn c' /\ keeps_rcv c c' /\ key_of c' = key_of c.
Proof.
  intros [_ Hr] Hs [Hf Hst]. destruct (frame_keeps _ _ Hf (later_same _ _ Hst) Hr).
  split; [by split|]. split; [done|by apply frame_key].
Qed.

Lemma wf_set_mtu {cap} `{Env} mtu s :
  (forall n, a_ok (allocs n) = true) -> mtu < 2 ^ 16 -> wf_shared cap s -> wf_shared cap (utcp_set_mtu mtu s).
Proof.
  intros Ha Hm Hs. unfold utcp_set_mtu, sizeof_hdr, next_alloc. zcase; [done|]. zcase.
  - rewrite Ha. cbn [negb]. destruct Hs. constructor; simpl; rewrite ?length_realloc by lia; done || lia.
  - cbn [negb]. destruct Hs. constructor; simpl; done || lia.
Qed.

(** Replacing every connection by one that is as good. *)
Lemma wf_world_map (f : utcp_connection -> utcp_connection) s w :
  wf_world w -> wf_shared (u_nallocated (sh w)) s ->
  (forall c, wf_conn c -> wf_conn (f c) /\ keeps_rcv c (f c) /\ key_of (f c) = key_of c) ->
  wf_world (World s (f <$> conns w)) /\ keeps w (World s (f <$> conns w)).
Proof.
  intros Hw Hs Hf. assert (Hall := ww_conns _ Hw).
  assert (Hk : key_of <$> (f <$> conns w) = key_of <$> conns w).
  { rewrite <- list_fmap_compose. apply list_fmap_ext. intros i x Hx. simpl.
    apply Hf. rewrite Forall_forall in Hall. apply Hall. by eapply list_elem_of_lookup_2. }
  split.
  - eapply wf_world_same; [done|done|done|]. apply Forall_fmap. eapply Forall_impl; [done|].
    intros c Hc. by apply Hf.
  - intros k c Hc. simpl. exists (f c). clear Hk Hw. revert Hc.
    induction Hall as [|x cs Hx Hall IH]; simpl; [done|].
    destruct (Hf x Hx) as (_ & Hkr & ->). case_bool_decide; [|done]. by intros [= <-].
Qed.

Lemma expect_ok {cap} `{Env} e c s :
  wf_snd c -> wf_shared cap s ->
  let '(c', s') := utcp_expect_data e c s in wf_snd c' /\ same_half c c' /\ wf_shared cap s'.
Proof.
  intros Hc Hs. unfold utcp_expect_data, arm_conn_timeout, clock_gettime.
  destruct (reapable c) eqn:E; [by auto with utcp|].
  destruct (state c), e, (timespec_isset (conn_timeout c)), (snd_una c =? snd_last c); simpl;
    (split; [by auto with utcp|]; split; [done|by auto with utcp]).
Qed.

Lemma offline_loop_ok {cap} `{Env} now b cs : forall s,
  Forall wf_conn cs -> wf_shared cap s ->
  let '(cs', s') := offline_loop now b cs s in
  wf_shared cap s' /\ Forall2 (fun c c' => wf_conn c' /\ keeps_rcv c c' /\ key_of c' = key_of c) cs cs'.
Proof.
  induction cs as [|c cs IH]; intros s Hf Hs; simpl; [by split; [|constructor]|].
  inversion Hf as [|? ? Hc Hf']; subst.
  destruct (if reapable c then (c, s) else _) as [c1 s1] eqn:E.
  assert (Hc1 : wf_shared cap s1 /\ wf_conn c1 /\ keeps_rcv c c1 /\ key_of c1 = key_of c).
  { destruct (reapable c).
    - injection E as <- <-. split; [done|]. split; [done|]. split; [reflexivity|done].
    - pose proof (expect_ok b c s (proj1 Hc) Hs) as Hx.
      destruct (utcp_expect_data b c s) as [c2 s2]. injection E as <- <-.
      destruct Hx as (Hc2 & Hf2 & Hs2). split; [done|].
      destruct (restart_ok now c2 Hc2) as [Hc3 Hf3].
      assert (Hf4 : same_half c (if b then c2 else restart_timers now c2))
        by (destruct b; [done|by eapply same_half_trans]).
      assert (Hc5 : wf_snd (if b then c2 else restart_timers now c2)) by (by destruct b).
      by apply wf_frame. }
  destruct Hc1 as (Hs1 & Hc1). specialize (IH s1 Hf' Hs1).
  destruct (offline_loop now b cs s1) as [cs' s']. destruct IH as [? ?]. split; [done|]. by constructor.
Qed.

Lemma wf_world_map2 cs s w :
  wf_world w -> wf_shared (u_nallocated (sh w)) s ->
  Forall2 (fun c c' => wf_conn c' /\ keeps_rcv c c' /\ key_of c' = key_of c) (conns w) cs ->
  wf_world (World s cs) /\ keeps w (World s cs).
Proof.
  intros Hw Hs Hf. split.
  - eapply wf_world_same; [done|done| |].
    + induction Hf as [|c c' cs' cs'' (_ & _ & Hk) _ IH]; [done|]. csimpl. by rewrite Hk, IH.
    + clear Hw Hs. induction Hf as [|c c' l l' (? & _) _ IH]; by constructor.
  - intros k c. simpl. clear Hw Hs.
    induction Hf as [|x x' l l' (_ & Hkr & Hk) Hf IH]; simpl; [done|].
    rewrite Hk. case_bool_decide; [|done]. intros [= <-]. by exists x'.
Qed.

Lemma set_sndbuf_call `{Env} sz c s :
  (forall n, a_ok (allocs n) = true) -> wf_conn c -> 0 <= sz <= SNDMAX ->
  conn_ok c s (fun _ _ => True) (let* p := utcp_set_sndbuf None sz c s in Done (0, p)).
Proof.
  intros Ha Hc Hsz. apply conn_ok_frame; [done|]. intros cap Hs. destruct Hc as [Hc _].
  unfold utcp_set_sndbuf, next_alloc.
  destruct (storage_ok (allocs (tick s)) (sndbuf c) None sz (ws_buf _ Hc)) as
    (b' & -> & Hb' & _ & Hm & Hu & _); [lia|done|done|]. simpl.
  split; [|split; [by auto with utcp|]; split; [done|]; by auto with utcp]. pose proof (ws_window _ Hc).
  unfold SNDMAX, UINT32_MAX in *. destruct Hc; constructor; simpl; rewrite ?Hu; try done; unfold SNDMAX; lia.
Qed.

Lemma accept_call rcv prv c s :
  wf_conn c -> conn_ok c s (fun _ _ => True) (Done (0, (utcp_accept rcv prv c, s))).
Proof.
  intros Hc. unfold utcp_accept. destruct (reapable c || _) eqn:E; [apply conn_ok_done; [done|done|apply Hc|done]|].
  apply orb_false_iff in E as [Er Est%negb_false_iff]. apply bool_decide_eq_true in Est.
  intros cap Hcap. simpl. split.
  { destruct Hc as [Hc [? ?]]. split; [|by constructor].
    pose proof (ws_window _ Hc) as Hw. rewrite Est in Hw. specialize (Hw ltac:(done)). simpl in Hw.
    clear Est. wf_conn_tac. }
  split; [done|]. split; [done|]. split; [|done]. split; [intros [E _]; congruence|].
  split; [by left|]. apply later_once. rewrite Est. constructor.
Qed.

Lemma set_rcvbuf_ok `{Env} k sz w :
  (forall n, a_ok (allocs n) = true) -> wf_world w -> is_Some (conn_at k (conns w)) -> 0 <= sz ->
  returns (on_conn k w (fun c s => let* p := utcp_set_rcvbuf None sz c s in Done (0, p)))
    (fun '(_, w') => wf_world w' /\ moves w w').
Proof.
  intros Ha Hw [c Hc] Hsz. pose proof (wf_conn_at _ _ _ Hw Hc) as [[Hsn [Hb Hsk]] Hk].
  unfold on_conn. rewrite Hc. unfold utcp_set_rcvbuf, next_alloc.
  destruct (storage_ok (allocs (tick (sh w))) (rcvbuf c) None sz Hb) as (b' & -> & Hb' & _);
    [done|done|done|]. simpl. split.
  - apply wf_put; [done|apply wf_tick, Hw|]. split; [wf_conn_tac|by constructor].
  - apply (rel_put _ w _ c); [by rewrite <- Hk in Hc|by apply later_same].
Qed.

Lemma set_recv_ok k cb w c :
  wf_world w -> conn_at k (conns w) = Some c ->
  returns (pure_call k (utcp_set_recv_cb cb) w) (fun '(_, w') =>
    wf_world w' /\ moves w w' /\ (reapable c = false -> keeps w w')).
Proof.
  intros Hw Hc. pose proof (wf_conn_at _ _ _ Hw Hc) as [[Hsn [Hb Hsk]] Hk].
  unfold pure_call, on_conn. rewrite Hc. simpl. split; [|split].
  - apply wf_put; [done|apply Hw|]. split; [wf_conn_tac|by constructor].
  - apply (rel_put _ w _ c); [by rewrite <- Hk in Hc|by apply later_same].
  - intros Hr. apply (rel_put _ w _ c); [by rewrite <- Hk in Hc|].
    split; [intros [E _]; congruence|]. split; [by left|by apply later_same].
Qed.

Lemma reset_timers_ok `{Env} w :
  wf_world w -> wf_world (utcp_reset_timers w) /\ keeps w (utcp_reset_timers w).
Proof.
  intros Hw. unfold utcp_reset_timers, clock_gettime. set (now := clock _).
  apply wf_world_map; [done|apply wf_tick, Hw|].
  intros c Hc. destruct (reapable c); [by split; [|split; [reflexivity|]]|].
  set (c1 := if timespec_isset _ then _ else _).
  assert (Hc1 : wf_snd c1 /\ same_half c c1).
  { subst c1. destruct Hc as [Hc _]. destruct (timespec_isset _); [|done]. split; [auto with utcp|done]. }
  destruct Hc1 as [Hc1 Hf1]. destruct (restart_ok now c1 Hc1) as [Hc2 Hf2].
  apply wf_frame; [done|done|]. by eapply same_half_trans.
Qed.

Lemma offline_ok `{Env} b w : wf_world w -> wf_world (utcp_offline b w) /\ keeps w (utcp_offline b w).
Proof.
  intros Hw. unfold utcp_offline, clock_gettime.
  pose proof (offline_loop_ok (clock (tick (sh w))) b (conns w) (set_tick (S (tick (sh w))) (sh w))
    (ww_conns _ Hw) (wf_tick _ _ (ww_shared _ Hw))) as Hx.
  destruct (offline_loop _ _ _ _) as [cs s]. destruct Hx as [Hs' Hf]. by apply wf_world_map2.
Qed.

(** Every call on a well-formed instance returns and leaves it well-formed. *)
Definition call_post (cl : call) (w : world) (p : Z * world) : Prop :=
  wf_world p.2 /\ moves w p.2 /\ (callback_call cl w -> keeps w p.2).

Lemma call_post_keeps cl w r w' : wf_world w' -> keeps w w' -> call_post cl w (r, w').
Proof. intros Hw Hk. split; [done|]. split; [by apply keeps_moves|done]. Qed.

Lemma run_call_ok `{Env} cl w :
  (forall n, a_ok (allocs n) = true) -> wf_world w -> valid_call cl w ->
  returns (run_call cl w) (call_post cl w).
Proof.
  intros Ha Hw Hv. pose proof (ww_shared _ Hw) as Hs.
  assert (Hconn : forall k (f : utcp_connection -> shared -> outcome (Z * (utcp_connection * shared))) Q,
    is_Some (conn_at k (conns w)) -> (forall c, wf_conn c -> conn_ok c (sh w) Q (f c (sh w))) ->
    returns (on_conn k w f) (call_post cl w)).
  { intros k f Q [c Hc] Hf. pose proof (wf_conn_at _ _ _ Hw Hc) as [Hwc _].
    eapply returns_mono; [by apply (on_conn_ok k w c Q); auto|]. intros [a w'] (? & ? & _). by apply call_post_keeps. }
  assert (Hsame : forall k (f : utcp_connection -> utcp_connection), is_Some (conn_at k (conns w)) ->
    (forall c, wf_snd c -> wf_snd (f c)) -> (forall c, same_half c (f c)) ->
    returns (pure_call k f w) (call_post cl w)).
  { intros k f Hl H1 H2. eapply (Hconn k _ (fun _ _ => True)); [done|]. intros c Hc.
    apply conn_ok_done; [done|done|apply H1, Hc|apply H2]. }
  assert (Hsh : forall s, wf_shared (u_nallocated (sh w)) s -> returns (Done (0, set_sh s w))
    (call_post cl w)).
  { intros s Hs'. apply call_post_keeps; [by apply wf_world_sh|by apply rel_sh, _]. }
  destruct cl; cbn [run_call valid_call] in *.
  - eapply returns_bind; [by apply utcp_connect_ok|]. intros [r w'] [? ?]. by apply call_post_keeps.
  - eapply Hconn; [done|]. intros c Hc. by apply accept_call.
  - destruct Hv as [Hl Hd]. eapply Hconn; [done|]. intros c Hc.
    apply utcp_send_call; [done|done|by intros d [= ->]|pose proof (zlen_nonneg dat); lia].
  - eapply Hconn; [done|]. intros c Hc. by apply utcp_shutdown_call.
  - eapply Hconn; [done|]. intros c Hc. by apply utcp_close_call.
  - eapply Hconn; [done|]. intros c Hc. by apply utcp_abort_call.
  - destruct Hv as [Hl Hd]. eapply Hconn; [done|]. intros c Hc. by apply set_sndbuf_call.
  - destruct Hv as [Hl Hd]. eapply returns_mono; [by apply set_rcvbuf_ok|]. by intros [r w'] [? ?].
  - destruct Hv as [c Hc]. eapply returns_mono; [by apply set_recv_ok|].
    intros [r w'] (? & ? & Hk). split; [done|]. split; [done|]. intros Hr. by apply Hk, Hr.
  - apply Hsame; [done| |done]. intros c Hc. wf_conn_tac.
  - apply Hsame; [done| |done]. intros c Hc. wf_conn_tac.
  - eapply (Hconn k _ (fun _ _ => True)); [done|]. intros c Hc.
    apply conn_ok_frame; [done|]. intros cap Hcap. pose proof (expect_ok expect c (sh w) (proj1 Hc) Hcap) as Hx.
    destruct (utcp_expect_data expect c (sh w)). simpl. destruct Hx as (? & [? ?] & ?). by auto 6 with utcp.
  - by apply Hsh, wf_set_mtu.
  - apply Hsh. destruct Hs. by constructor.
  - apply Hsh. destruct Hs. by constructor.
  - destruct (reset_timers_ok w Hw). by apply call_post_keeps.
  - destruct (offline_ok offline w Hw). by apply call_post_keeps.
Qed.

(** ** What UTCP relies on when it calls the application *)

Definition app_ok (w w' : world) : Prop := wf_world w' /\ keeps w w'.

(** What was waiting for an acknowledgement still is. *)
Definition in_flight (k : key) (w w' : world) : Prop :=
  forall c c', conn_at k (conns w) = Some c -> conn_at k (conns w') = Some c' ->
    snd_last c <> snd_una c -> snd_last c' <> snd_una c'.

(** A callback returns to UTCP with a well-formed instance in which every
    connection is still allocated; the [retransmit] callback, which is told that a
    connection lost packets, does not acknowledge anything on it.  [run_calls_ok]
    discharges this for callbacks made of valid calls. *)
Class AppOk (E : Env) : Prop := {
  ao_alloc : forall n, a_ok (allocs n) = true;
  ao_recv : forall cb k d w, wf_world w -> app_ok w (on_recv cb k d w).2;
  ao_poll : forall cb k n w, wf_world w -> app_ok w (on_poll cb k n w);
  ao_accept : forall cb k p w, wf_world w -> app_ok w (on_accept cb k p w);
  ao_listen : forall cb p w, wf_world w -> app_ok w (on_listen cb p w).2;
  ao_retransmit : forall cb k w, wf_world w ->
    app_ok w (on_retransmit cb k w) /\ in_flight k w (on_retransmit cb k w);
}.

(** A callback as a program of calls: each one the application may make is made,
    others are skipped. *)
Fixpoint run_calls `{Env} (cls : list call) (w : world) : world :=
  match cls with
  | [] => w
  | cl :: cls => run_calls cls (match run_call cl w with Done (_, w) => w | Stop _ => w end)
  end.

Fixpoint valid_calls `{Env} (cls : list call) (w : world) : Prop :=
  match cls with
  | [] => True
  | cl :: cls => valid_call cl w /\ callback_call cl w /\
      valid_calls cls (match run_call cl w with Done (_, w) => w | Stop _ => w end)
  end.

Lemma run_calls_ok `{Env} cls : forall w,
  (forall n, a_ok (allocs n) = true) -> wf_world w -> valid_calls cls w -> app_ok w (run_calls cls w).
Proof.
  induction cls as [|cl cls IH]; intros w Ha Hw Hv; [by split|].
  destruct Hv as (Hv & Hcb & Hvs). pose proof (run_call_ok cl w Ha Hw Hv) as Hr. simpl.
  destruct (run_call cl w) as [[r w1]|]; [|done]. destruct Hr as (Hw1 & _ & Hk1).
  destruct (IH w1 Ha Hw1 Hvs) as [? ?]. split; [done|]. transitivity w1; auto.
Qed.
