(* ===== verification/UtcpRecvSafe.v ===== *)
(** Safety of packet processing: on a well-formed instance, [utcp_recv] handles
    any packet, and [utcp_timeout] any state of the timers, without a failed
    [assert], an access outside an object, a use of a freed connection or a
    division by zero, and leaves the instance well-formed.  The one way to stop is
    the deliberate [abort] of [handle_in_order]. *)
From stdpp Require Import relations sorting.
From S2P Require Import Prelude Bytes UtcpBuffer UtcpTypes UtcpTimer UtcpTable UtcpSend UtcpInput UtcpRecv UtcpApi UtcpInv UtcpWorld UtcpCalls.

(** ** SACK entries *)

(** The number of entries in use from [i] on. *)
Definition live_sacks (i : nat) (l : list sack) : nat :=
  length (filter (fun e => sk_len e <> 0) (drop i l)).

Lemma sack_at_lookup l i : length l = 4%nat -> (i < 4)%nat -> l !! i = Some (sack_at l i).
Proof. intros Hl Hi. unfold sack_at. destruct (nth_lookup_or_length l i (Sack 0 0)); [done|lia]. Qed.

Lemma live_here l i :
  length l = 4%nat -> (i < 4)%nat -> sk_len (sack_at l i) <> 0 ->
  live_sacks i l = S (live_sacks (S i) l).
Proof.
  intros Hl Hi Hn. unfold live_sacks. rewrite (drop_S l (sack_at l i) i) by by apply sack_at_lookup.
  by rewrite filter_cons_True.
Qed.

Lemma length_sack_remove l i : length l = 4%nat -> (i < 4)%nat -> length (sack_remove i l) = 4%nat.
Proof.
  intros Hl Hi. unfold sack_remove. rewrite !length_app, length_take, length_drop. simpl. lia.
Qed.

Lemma length_sack_insert l e i : length l = 4%nat -> (i < 4)%nat -> length (sack_insert i e l) = 4%nat.
Proof.
  intros Hl Hi. unfold sack_insert. rewrite !length_app, !length_take, length_drop. simpl. lia.
Qed.

Lemma live_remove l i :
  length l = 4%nat -> (i < 4)%nat -> live_sacks i (sack_remove i l) = live_sacks (S i) l.
Proof.
  intros Hl Hi. unfold live_sacks, sack_remove.
  rewrite drop_app_length' by (rewrite length_take; lia).
  rewrite filter_app, length_app, filter_cons_False by naive_solver. simpl. lia.
Qed.

(** The loop of [sack_consume] uses up an entry in every turn. *)
Lemma sack_consume_loop_ok fuel : forall i len l,
  length l = 4%nat -> (live_sacks i l <= fuel)%nat ->
  exists l', sack_consume_loop fuel i len l = Done l' /\ length l' = 4%nat.
Proof.
  assert (Hstop : forall fuel i len l, (i <? 4)%nat && negb (sk_len (sack_at l i) =? 0) = false ->
    sack_consume_loop fuel i len l = Done l) by (intros [|] ? ? ? E; simpl; by rewrite E).
  induction fuel as [|fuel IH]; intros i len l Hl Hf;
    (destruct ((i <? 4)%nat && negb (sk_len (sack_at l i) =? 0)) eqn:E; [|rewrite Hstop by done; by eauto]);
    apply andb_true_iff in E as [Ei%Nat.ltb_lt En]; ztests; pose proof (live_here l i Hl Ei En); [lia|].
  cbn [sack_consume_loop]. rewrite (proj2 (Nat.ltb_lt i 4) Ei), (proj2 (Z.eqb_neq _ _) En). cbn [andb negb].
  assert (Hins : forall e, live_sacks (S i) (<[i:=e]> l) = live_sacks (S i) l).
  { intros e. unfold live_sacks. by rewrite drop_insert_lt by lia. }
  zcase; [|zcase; [|destruct (i <? 3)%nat]].
  1,2: apply IH; [by rewrite length_insert|rewrite Hins; lia].
  - apply IH; [by apply length_sack_remove|]. rewrite live_remove by done. lia.
  - eexists. split; [done|]. by rewrite length_insert.
Qed.

Lemma live_at_most l i : length l = 4%nat -> (live_sacks i l <= 4)%nat.
Proof.
  intros Hl. unfold live_sacks. etransitivity; [apply length_filter|]. rewrite length_drop. lia.
Qed.

(** What the receiving functions may change. *)
Definition rcv_step (c c' : utcp_connection) : Prop :=
  exists b l n, c' = c |> set_rcvbuf b |> set_sacks l |> set_rcv_nxt n.

Lemma wf_snd_rcv c c' : rcv_step c c' -> wf_snd c -> wf_snd c'.
Proof. intros (b & l & n & ->) Hc. wf_conn_tac. Qed.

Lemma sack_consume_ok len c :
  wf_rcv c -> 0 <= len ->
  exists c', sack_consume len c = Done c' /\ rcv_step c c' /\ wf_rcv c' /\
    size (rcvbuf c') = size (rcvbuf c).
Proof.
  intros [Hb Hl] Hlen. unfold sack_consume. zcase.
  - eexists. split; [done|]. split; [by exists (rcvbuf c), (<[0%nat:=Sack (sk_offset (sack_at (sacks c) 0)) 0]> (sacks c)), (rcv_nxt c); destruct c|].
    split; [|done]. constructor; [done|]. simpl. by rewrite length_insert.
  - destruct (discard_ok (rcvbuf c) len Hb Hlen) as (b' & -> & Hb' & _ & _ & Hsz & _). cbn [snd].
    change (sacks (set_rcvbuf b' c)) with (sacks c).
    destruct (sack_consume_loop_ok 8 0 len (sacks c) Hl) as (l' & -> & Hl').
    { pose proof (live_at_most (sacks c) 0 Hl). lia. }
    eexists. split; [done|]. split; [by exists b', l', (rcv_nxt c); destruct c|]. split; [by constructor|done].
Qed.

Lemma sack_note_length fuel : forall i off rxd l,
  length l = 4%nat -> (i + fuel <= 4)%nat -> length (sack_note fuel i off rxd l) = 4%nat.
Proof.
  induction fuel as [|fuel IH]; intros i off rxd l Hl Hf; [done|]. cbn [sack_note].
  repeat (zcase; rewrite ?length_insert; try done); [apply length_sack_insert; lia|].
  apply IH; lia.
Qed.

(** ** Handing data to the application *)

Section Recv.
Context {E : Env} {HA : AppOk E}.

Definition live (k : key) (w : world) : Prop := is_Some (conn_at k (conns w)).

Lemma live_moves k w w' : moves w w' -> live k w -> live k w'.
Proof. intros Hk [c Hc]. destruct (Hk k c Hc) as (c' & Hc' & _). by exists c'. Qed.

Lemma app_ok_trans a b c : app_ok a b -> app_ok b c -> app_ok a c.
Proof. intros [_ ?] [? ?]. split; [done|by transitivity b]. Qed.

Lemma app_ok_refl w : wf_world w -> app_ok w w.
Proof. intros Hw. split; [done|reflexivity]. Qed.

Lemma app_recv_ok cb k d w : wf_world w -> app_ok w (app_recv cb k d w).2.
Proof.
  intros Hw. unfold app_recv. set (s := set_dlv _ _).
  assert (Hs : wf_shared (u_nallocated (sh w)) s) by (destruct (ww_shared _ Hw); by constructor).
  destruct (ao_recv cb k d (set_sh s w)) as [Hw' Hk]; [by apply wf_world_sh|].
  split; [done|]. transitivity (set_sh s w); [by apply rel_sh, _|done].
Qed.

Lemma call_recv_ok k d w :
  wf_world w -> live k w -> returns (call_recv k d w) (fun '(_, w') => app_ok w w').
Proof.
  intros Hw [c Hc]. unfold call_recv. rewrite Hc. destruct (recv c) as [cb|].
  - pose proof (app_recv_ok cb k d w Hw). by destruct (app_recv cb k d w).
  - by apply app_ok_refl.
Qed.

Lemma buffer_call_ok k off len w :
  wf_world w -> live k w -> 0 <= off -> 0 <= len ->
  returns (buffer_call k off len w) (fun '(_, w') => app_ok w w').
Proof.
  intros Hw [c Hc] Hoff Hlen. pose proof (wf_conn_at _ _ _ Hw Hc) as [[_ [Hb _]] _].
  unfold buffer_call. rewrite Hc. destruct (recv c) as [cb|]; [|by apply app_ok_refl].
  zcase; [by apply app_ok_refl|].
  pose proof (wf_used _ Hb) as Hu. pose proof (wf_size _ Hb) as Hs. pose proof (wf_off _ Hb) as Ho.
  pose proof (wf_len _ Hb) as Hl. rewrite u64_small by lia.
  set (n := if used (rcvbuf c) - off <? len then _ else len).
  assert (Hn : 0 <= n <= used (rcvbuf c) - off) by (subst n; zcase; lia). clearbody n.
  set (ro := buffer_realoffset (rcvbuf c) off).
  assert (Hro : 0 <= ro < size (rcvbuf c)).
  { subst ro. rewrite realoffset_eq by (done || lia). case_decide; lia. }
  clearbody ro. rewrite u32_small by lia. zcase.
  - rewrite mem_read_ok by lia. cbn [obind]. set (d := take _ _).
    pose proof (app_recv_ok cb k (Some d) w Hw) as Ha.
    destruct (app_recv cb k (Some d) w) as [rx1 w1]. simpl in Ha.
    destruct Ha as [Hw1 Hk1]. destruct (Hk1 k c Hc) as (c1 & Hc1 & _ & Hsz & _). rewrite Hc1.
    zcase; [by split|]. destruct (recv c1) as [cb1|] eqn:Er; [|by split].
    destruct Hsz as [Hsz|[_ Hg]]; [|congruence].
    pose proof (wf_conn_at _ _ _ Hw1 Hc1) as [[_ [Hb1 _]] _]. pose proof (wf_len _ Hb1).
    rewrite Hsz, u32_small, mem_read_ok by lia. cbn [obind]. set (d2 := take _ _).
    pose proof (app_recv_ok cb1 k (Some d2) w1 Hw1) as Ha.
    destruct (app_recv cb1 k (Some d2) w1) as [rx2 w2]. simpl in Ha |- *.
    eapply app_ok_trans; [|done]. by split.
  - rewrite mem_read_ok by lia. cbn [obind returns]. set (d := take _ _).
    pose proof (app_recv_ok cb k (Some d) w Hw). by destruct (app_recv cb k (Some d) w).
Qed.

(** A step of UTCP itself: connections may be added, none disappears, and their
    states follow the edges. *)
Definition step_ok (w w' : world) : Prop := wf_world w' /\ moves w w'.

Lemma app_step w w' : app_ok w w' -> step_ok w w'.
Proof. intros [Hw Hk]. split; [done|]. by apply keeps_moves. Qed.

Lemma step_trans a b c : step_ok a b -> step_ok b c -> step_ok a c.
Proof. intros [_ H1] [? H2]. split; [done|]. by transitivity b. Qed.

Lemma step_refl w : wf_world w -> step_ok w w.
Proof. by split. Qed.

Lemma step_put w s k c c' :
  wf_world w -> conn_at k (conns w) = Some c -> wf_shared (u_nallocated (sh w)) s ->
  wf_conn c' -> key_of c' = key_of c -> later c c' -> step_ok w (World s (put_conn c' (conns w))).
Proof.
  intros Hw Hc Hs Hc' Hk Hl. split; [by apply wf_put|]. pose proof (conn_at_key _ _ _ Hc).
  apply (rel_put _ w s c); [congruence|done].
Qed.

(** Running a function of one connection. *)
Lemma on_conn_step {A} k w c Q (f : utcp_connection -> shared -> outcome (A * (utcp_connection * shared))) :
  wf_world w -> conn_at k (conns w) = Some c ->
  returns (f c (sh w)) (fun '(a, (c', s')) =>
    wf_conn c' /\ wf_shared (u_nallocated (sh w)) s' /\ key_of c' = key_of c /\ later c c' /\ Q a c') ->
  returns (on_conn k w f) (fun '(a, w') => step_ok w w' /\
    exists c', conn_at k (conns w') = Some c' /\ Q a c').
Proof.
  intros Hw Hc Hf. pose proof (wf_conn_at _ _ _ Hw Hc) as [_ Hk].
  unfold on_conn. rewrite Hc. eapply returns_bind; [exact Hf|].
  intros [a [c' s']] (Hc' & Hs' & Hk' & Hlt & HQ). simpl. split; [by eapply step_put|].
  exists c'. rewrite conn_at_put, bool_decide_true by congruence. by rewrite Hc.
Qed.

Lemma handle_out_of_order_ok off dat c s :
  wf_conn c -> 0 <= off < 2 ^ 32 -> zlen dat < 2 ^ 32 ->
  returns (handle_out_of_order off dat c s) (fun '(c', s') =>
    exists n, s' = set_tick n s /\ rcv_step c c' /\ wf_rcv c').
Proof.
  intros [Hc [Hb Hl]] Hoff Hd. unfold handle_out_of_order, next_alloc.
  assert (Hid : rcv_step c c) by (exists (rcvbuf c), (sacks c), (rcv_nxt c); by destruct c).
  destruct (put_at_cases (allocs (tick s)) (rcvbuf c) off dat) as
    [(? & ? & ->)|[(_ & Hal & _)|(_ & _ & b' & -> & Hb' & _)]];
    [done|lia|lia| |by rewrite ao_alloc in Hal|]; cbn [obind].
  - simpl. eexists. split; [done|]. assert (set_rcvbuf (rcvbuf c) c = c) as -> by (by destruct c). by split.
  - destruct (_ <=? 0); cbn [returns]; (eexists; split; [done|]).
    + split; [by exists b', (sacks c), (rcv_nxt c); destruct c|by constructor].
    + set (l := sack_note _ _ _ _ _).
      assert (length l = 4%nat) by (by apply sack_note_length). clearbody l.
      split; [by exists b', l, (rcv_nxt c); destruct c|by constructor].
Qed.

Lemma rcv_step_key c c' : rcv_step c c' -> key_of c' = key_of c.
Proof. by intros (? & ? & ? & ->). Qed.

Lemma rcv_step_later c c' : rcv_step c c' -> later c c'.
Proof. intros (? & ? & ? & ->). by apply later_same. Qed.

Lemma handle_in_order_ok k dat w :
  wf_world w -> live k w -> zlen dat < 2 ^ 32 -> safe (handle_in_order k dat w) (step_ok w).
Proof.
  intros Hw [c Hc] Hd. unfold handle_in_order. rewrite Hc.
  eapply (safe_bind _ _ (app_ok w)).
  { destruct (recv c) as [cb|]; [|by apply app_ok_refl].
    pose proof (app_recv_ok cb k (Some dat) w Hw) as Ha.
    destruct (app_recv cb k (Some dat) w) as [rxd w1]. by destruct (rxd =? zlen dat). }
  intros w1 Ha1. destruct (Ha1) as [Hw1 Hk1]. destruct (Hk1 k c Hc) as (c1 & Hc1 & _). rewrite Hc1.
  eapply (safe_bind _ _ (fun '(len, w2) => 0 <= len /\ app_ok w w2)).
  { pose proof (zlen_nonneg dat). destruct (_ && _ && _) eqn:Ec; [|by split].
    apply andb_true_iff in Ec as [_ Ec]. ztests.
    eapply safe_bind; [apply returns_safe, (buffer_call_ok k (zlen dat) (u32 _ - zlen dat) w1 Hw1); [by exists c1|lia|lia]|].
    intros [rxd w2] Ha2. destruct (_ =? _); [|done]. simpl. split; [lia|]. by eapply app_ok_trans. }
  intros [len w2] [Hlen Ha2]. destruct (Ha2) as [Hw2 Hk2]. destruct (Hk2 k c Hc) as (c2 & Hc2 & _).
  eapply safe_bind.
  - apply returns_safe, (on_conn_step k w2 c2 (fun _ _ => True)); [done|done|].
    pose proof (wf_conn_at _ _ _ Hw2 Hc2) as [[Hs2 Hr2] _].
    set (m := if negb _ then _ else _).
    assert (exists c3, m = Done c3 /\ rcv_step c2 c3 /\ wf_rcv c3) as (c3 & -> & Hst & Hr3).
    { subst m. destruct (negb _).
      - destruct (sack_consume_ok len c2 Hr2 Hlen) as (c3 & ? & ? & ? & _). by exists c3.
      - exists c2. split; [done|]. split; [|done]. exists (rcvbuf c2), (sacks c2), (rcv_nxt c2). by destruct c2. }
    simpl. set (c4 := set_rcv_nxt _ c3).
    assert (Hst4 : rcv_step c2 c4) by (destruct Hst as (b & l & n & ->); by exists b, l, (u32 (n + len))).
    split; [split; [by eapply wf_snd_rcv|destruct Hr3; by constructor]|].
    split; [apply Hw2|]. split; [by apply rcv_step_key|]. split; [by apply rcv_step_later|done].
  - intros [[] w3] [H3 _]. simpl. eapply step_trans; [by apply app_step|done].
Qed.

(** Moving [rcv.nxt]. *)
Lemma set_nxt_ok k w (n : utcp_connection -> Z) :
  wf_world w -> live k w ->
  returns (on_conn k w (fun c s => Done (tt, (set_rcv_nxt (n c) c, s)))) (fun '(_, w') => step_ok w w').
Proof.
  intros Hw [c Hc]. pose proof (wf_conn_at _ _ _ Hw Hc) as [[Hs [Hb Hl]] _].
  eapply returns_mono.
  - apply (on_conn_step k w c (fun _ _ => True)); [done|done|]. simpl.
    split; [split; [wf_conn_tac|by constructor]|]. split; [apply Hw|]. split; [done|]. by auto with utcp.
  - by intros [a w'] [? _].
Qed.

Lemma handle_unreliable_ok k h dat w :
  wf_world w -> live k w -> zlen dat < 2 ^ 32 -> 0 <= h_wnd h < 2 ^ 32 ->
  returns (handle_unreliable k h dat w) (step_ok w).
Proof.
  intros Hw Hl Hd Hh. pose proof (zlen_nonneg dat) as Hd0. unfold handle_unreliable.
  assert (Hadv : forall w1, step_ok w w1 -> returns (let* (_, w) := on_conn k w1 (fun c s =>
      Done (tt, (set_rcv_nxt (u32 (h_seq h + zlen dat)) c, s))) in Done w) (step_ok w)).
  { intros w1 [Hw1 Hl1]. eapply returns_bind;
      [apply (set_nxt_ok k w1 (fun _ => u32 (h_seq h + zlen dat)) Hw1); by eapply live_moves|].
    intros [[] w2] H2. simpl. eapply step_trans; [by split|done]. }
  destruct (Hl) as [c Hc]. rewrite Hc. destruct (_ && _).
  { eapply returns_bind; [by apply call_recv_ok|]. intros [r w1] H1. by apply Hadv, app_step. }
  destruct (_ || _); [by apply step_refl|]. destruct (_ && _); [by apply step_refl|].
  pose proof (wf_conn_at _ _ _ Hw Hc) as [[Hs [Hb Hsk]] Hk].
  set (b := if h_wnd h =? 0 then _ else _).
  assert (Hwb : wf_buffer b) by (subst b; destruct (_ =? 0); [by apply clear_ok|done]). clearbody b.
  assert (Hput : forall b', wf_buffer b' ->
    step_ok w (World (set_tick (S (tick (sh w))) (sh w)) (put_conn (set_rcvbuf b' c) (conns w)))).
  { intros b' Hb'. eapply step_put; [done|done|apply wf_tick, Hw| |done|by apply later_same].
    split; [wf_conn_tac|by constructor]. }
  unfold next_alloc.
  destruct (put_at_cases (allocs (tick (sh w))) b (h_wnd h) dat) as
    [(? & ? & ->)|[(_ & Hal & _)|(_ & _ & b' & -> & Hb' & _)]];
    [done|lia|lia| |by rewrite ao_alloc in Hal|]; cbn [obind].
  1: assert (Hbb : wf_buffer b) by done. 2: assert (Hbb : wf_buffer b') by done.
  all: destruct (negb _); [by apply Hput|]; specialize (Hput _ Hbb);
    (destruct (negb _); cbn [obind]; [|by apply Hadv]);
    destruct (Hput) as [Hw1 Hl1]; (eapply returns_bind;
      [eapply returns_bind; [apply (buffer_call_ok k 0 (h_wnd h + zlen dat)); [done|by eapply live_moves|lia|lia]|];
       intros [r w2] H2; cbn [returns]; exact (app_step _ _ H2)|]);
    intros w2 H2; apply Hadv; (eapply step_trans; done).
Qed.

Lemma handle_incoming_data_ok k h dat w :
  wf_world w -> live k w -> zlen dat < 2 ^ 32 -> 0 <= h_wnd h < 2 ^ 32 ->
  safe (handle_incoming_data k h dat w) (step_ok w).
Proof.
  intros Hw Hl Hd Hh. unfold handle_incoming_data. destruct (Hl) as [c Hc]. rewrite Hc.
  destruct (negb (is_reliable c)); [by apply returns_safe, handle_unreliable_ok|].
  destruct (negb _); [|by apply handle_in_order_ok].
  pose proof (wf_conn_at _ _ _ Hw Hc) as [Hwc _]. apply returns_safe.
  set (off := u32 _). assert (Hoff : 0 <= off < 2 ^ 32) by apply u32_range. clearbody off.
  eapply returns_bind.
  - apply (on_conn_step k w c (fun _ _ => True)); [done|done|].
    eapply returns_bind; [by apply (handle_out_of_order_ok off dat c (sh w))|].
    intros [c' s'] (n & -> & Hst & Hr'). simpl. split; [split; [eapply wf_snd_rcv; [done|apply Hwc]|done]|].
    split; [apply wf_tick, Hw|]. split; [by apply rcv_step_key|]. split; [by apply rcv_step_later|done].
  - by intros [[] w'] [? _].
Qed.

End Recv.

(** ** The stages of [utcp_recv] *)

(** Header fields as they come off the wire, and a length within the payload. *)
Record rx_ok (r : rx) : Prop := {
  ro_seq : 0 <= h_seq (rx_hdr r) < 2 ^ 32;
  ro_ack : 0 <= h_ack (rx_hdr r) < 2 ^ 32;
  ro_wnd : 0 <= h_wnd (rx_hdr r) < 2 ^ 32;
  ro_len : 0 <= rx_len r <= zlen (rx_data r);
  ro_data : zlen (rx_data r) < 2 ^ 32;
}.

(** The states at the end of a packet, of the connections that are left. *)
Definition ends (w w' : world) : Prop :=
  forall k c c', conn_at k (conns w) = Some c -> conn_at k (conns w') = Some c' -> later c c'.

Lemma moves_ends w w' : moves w w' -> ends w w'.
Proof. intros H k c c' Hc Hc'. destruct (H k c Hc) as (x & Hx & ?). congruence. Qed.

Lemma moves_then_ends a b c : moves a b -> ends b c -> ends a c.
Proof. intros H1 H2 k x z Hx Hz. destruct (H1 k x Hx) as (y & Hy & ?). transitivity y; [done|]. by eapply H2. Qed.

(** What a stage that starts in [w] leaves: a well-formed world whose states
    followed the edges, a live connection when a later stage uses it, and one in
    SYN_RECEIVED for the [synack] label. *)
Definition stage_ok {A} (w : world) (k : key) (Q : A -> world -> Prop) (p : flow A * world) : Prop :=
  wf_world p.2 /\
  match p.1 with
  | Next a => moves w p.2 /\ live k p.2 /\ Q a p.2
  | Synack _ => moves w p.2 /\ exists c, conn_at k (conns p.2) = Some c /\ state c = SYN_RECEIVED
  | Return | Reset _ => ends w p.2
  end.

Lemma stage_pre {A} w w1 k (Q : A -> world -> Prop) p :
  moves w w1 -> stage_ok w1 k Q p -> stage_ok w k Q p.
Proof.
  intros Hm [Hw Hp]. split; [done|]. destruct (p.1); [|by eapply moves_then_ends..|];
    (destruct Hp as [? ?]; split; [by transitivity w1|done]).
Qed.

(** The ways a stage ends without a change. *)
Lemma stage_next {A} w k (Q : A -> world -> Prop) a :
  wf_world w -> live k w -> Q a w -> stage_ok w k Q (Next a, w).
Proof. by repeat (split; [done || reflexivity|]). Qed.

Lemma stage_exit {A} w k (Q : A -> world -> Prop) f :
  wf_world w -> match f with Return | Reset _ => True | _ => False end -> stage_ok w k Q (f, w).
Proof.
  intros Hw Hf. split; [done|]. assert (ends w w) by (by apply moves_ends). by destruct f.
Qed.

Lemma fbind_ok {A B} w k (Q : A -> world -> Prop) (R : B -> world -> Prop) m f :
  safe m (stage_ok w k Q) ->
  (forall a w1, wf_world w1 -> live k w1 -> Q a w1 -> safe (f a w1) (stage_ok w1 k R)) ->
  safe (fbind m f) (stage_ok w k R).
Proof.
  intros Hm Hf. unfold fbind. eapply safe_bind; [done|].
  intros [[a| |r|r] w1] [Hw Hx]; simpl in *; [|done..]. destruct Hx as (Hm1 & ? & ?).
  eapply safe_mono; [by apply Hf|]. intros p. by apply stage_pre.
Qed.

Lemma recv_window_ok r c r' : rx_ok r -> recv_window r c = Some r' -> rx_ok r'.
Proof.
  intros Hr. unfold recv_window. destruct (state_eqb _ _); [by intros [= <-]|].
  zcase; [zcase; by intros [= <-]|]. destruct Hr.
  pose proof (seqdiff_range (h_seq (rx_hdr r)) (rcv_nxt c)) as Hd.
  set (d := seqdiff _ _) in *. zcase; [|zcase; by intros [= <-]].
  destruct (_ <? rx_len r) eqn:E1; [|done]. ztests. intros [= <-].
  assert (u64 (s32 (- d)) = - d \/ d = - 2 ^ 31) as [Hu|Hu].
  { destruct (decide (d = - 2 ^ 31)); [by right|left]. rewrite s32_small, u64_small by lia. done. }
  - constructor; simpl; [apply u32_range|done|done| |]; autorewrite with zlen; lia.
  - exfalso. rewrite Hu in E1. change (u64 (s32 (- - 2 ^ 31))) with (2 ^ 64 - 2 ^ 31) in E1. lia.
Qed.

Section Stages.
Context {E : Env} {HA : AppOk E}.

Lemma recv_check_ok k r w :
  wf_world w -> live k w -> rx_ok r ->
  safe (recv_check k r w) (stage_ok w k (fun r w =>
    rx_ok r /\ exists c, conn_at k (conns w) = Some c /\ state c <> CLOSED)).
Proof.
  intros Hw [c Hc] Hr. pose proof (wf_conn_at _ _ _ Hw Hc) as [[Hs [Hb Hl]] Hk].
  unfold recv_check. rewrite Hc. destruct (state_eqb (state c) CLOSED) eqn:Est; [by apply stage_exit|].
  apply bool_decide_eq_false in Est.
  assert (Hgo : forall r, rx_ok r -> safe (
          let c := set_snd_wnd (h_wnd (rx_hdr r)) c in
          let r :=
            if negb (is_reliable c) && negb (h_ack (rx_hdr r) =? snd_last c) &&
               (state_num ESTABLISHED <=? state_num (state c))
            then Rx (set_h_ack (snd_una c) (rx_hdr r)) (rx_data r) (rx_len r) else r in
          Done (Next r, set_conns (put_conn c (conns w)) w)) (stage_ok w k (fun r w =>
    rx_ok r /\ exists c, conn_at k (conns w) = Some c /\ state c <> CLOSED))).
  { clear Hr. intros r' Hr. cbv zeta. set (c1 := set_snd_wnd _ c). match goal with |- context [Next ?x] => set (r2 := x) end.
    assert (Hr2 : rx_ok r2).
    { subst r2. destruct (_ && _ && _); [|done]. destruct Hr. constructor; simpl; try done. apply (ws_una _ Hs). }
    destruct (step_put w (sh w) k c c1) as [Hw1 Hm1]; [done|done|apply Hw| |done|by apply later_same|].
    { split; [subst c1; wf_conn_tac|by constructor]. }
    split; [exact Hw1|]. split; [exact Hm1|]. split; [eapply (live_moves k w); [exact Hm1|by exists c]|].
    split; [done|]. exists c1. split; [|done].
    simpl. rewrite conn_at_put, bool_decide_true by done. by rewrite Hc. }
  destruct (negb (is_reliable c)); [by apply Hgo|].
  destruct (recv_window r c) as [r'|] eqn:Ew; [by eapply Hgo, recv_window_ok|].
  destruct (has _ _); [by apply stage_exit|]. apply Hgo. destruct Hr. constructor; simpl; try done; lia.
Qed.

Lemma on_poll_step cb k n w : wf_world w -> step_ok w (on_poll cb k n w).
Proof. intros Hw. by apply app_step, ao_poll. Qed.

Lemma notify_closed_ok k w : wf_world w -> live k w -> returns (notify_closed k w) (step_ok w).
Proof.
  intros Hw Hl. unfold notify_closed. eapply returns_bind; [by apply call_recv_ok|].
  intros [r w1] H1%app_step. destruct (H1) as [Hw1 Hm1]. destruct (live_moves k _ _ Hm1 Hl) as [c1 ->].
  destruct (poll c1) as [cb|]; [|done]. destruct (reapable c1); [done|].
  eapply step_trans; [done|by apply on_poll_step].
Qed.

Lemma wf_closed c : wf_snd c -> wf_snd (set_state_ CLOSED c).
Proof. intros Hc. wf_conn_tac. Qed.

Lemma free_connection_ok k w :
  wf_world w -> live k w -> returns (free_connection k w) (fun w' => wf_world w' /\ ends w w').
Proof.
  intros Hw [c Hc]. destruct (ww_table _ Hw) as [Hsort Hsl Hfit].
  apply conn_at_lookup in Hc as (i & Hi & Hk). unfold free_connection.
  rewrite (proj2 (bsearch_all_spec (conns w) k i Hsort)) by (by exists c).
  pose proof (sorted_delete (conns w) i Hsort) as Hdel. split.
  - constructor; simpl.
    + constructor; simpl; [done|done|]. unfold zlen in *.
      rewrite length_app, length_take, length_drop. pose proof (lookup_lt_Some _ _ _ Hi). lia.
    + apply Hw.
    + apply Forall_app. split; [apply Forall_take|apply Forall_drop]; apply Hw.
  - intros k' x y Hx Hy. simpl in Hy. apply conn_at_elem in Hy as [Hy Hky].
    assert (Hin : y ∈ conns w).
    { apply elem_of_app in Hy as [Hy|Hy]; [by eapply subseteq_take|by eapply subseteq_drop]. }
    apply elem_of_conn_at in Hin; [|done]. rewrite Hky in Hin. replace y with x by congruence. done.
Qed.

Lemma recv_rst_ok k r w Q :
  wf_world w -> live k w -> Q r w -> safe (recv_rst k r w) (stage_ok w k Q).
Proof.
  intros Hw Hl HQ. unfold recv_rst. destruct (negb (has (rx_hdr r) RST)); [by apply stage_next|].
  destruct (Hl) as [c Hc]. rewrite Hc. pose proof (wf_conn_at _ _ _ Hw Hc) as [[Hs Hr] Hk].
  assert (Hnot : forall c' e, wf_conn c' -> key_of c' = key_of c -> state c' = CLOSED -> safe
    (let* w := notify_closed k (w |> set_conns (put_conn c' (conns w)) |> set_sh (set_errno e (sh w))) in
     Done (Return, w)) (stage_ok w k Q)).
  { intros c' e Hc' Hk' Hst. destruct (step_put w (set_errno e (sh w)) k c c' Hw) as [Hw1 Hm1];
      [done|apply wf_errno, Hw|done|done|apply later_once; rewrite Hst; constructor|].
    eapply safe_bind; [apply returns_safe, notify_closed_ok; [exact Hw1|by eapply live_moves]|].
    intros w2 [Hw2 Hm2]. split; [done|]. eapply moves_then_ends; [exact Hm1|by apply moves_ends]. }
  assert (Hfree : safe (let* w := free_connection k w in Done (Return, w)) (stage_ok w k Q)).
  { eapply safe_bind; [by apply returns_safe, free_connection_ok|]. intros w2 [Hw2 He]. by split. }
  assert (Hcl : wf_conn (set_state_ CLOSED c)) by (split; [by apply wf_closed|destruct Hr; by constructor]).
  assert (Hclr : wf_conn (set_state_ CLOSED c |> set_sndbuf (buffer_clear (sndbuf c))
                       |> set_rcvbuf (buffer_clear (rcvbuf c)))).
  { split; [exact (wf_cleared c Hs)|]. destruct Hr. constructor; simpl; [by apply clear_ok|done]. }
  assert (Hput : stage_ok (A:=rx) w k Q (Return, set_conns (put_conn (set_state_ CLOSED c) (conns w)) w)).
  { destruct (step_put w (sh w) k c (set_state_ CLOSED c) Hw) as [Hw1 Hm1];
      [done|apply Hw|done|done|apply later_once; constructor|]. split; [exact Hw1|]. by apply moves_ends. }
  destruct (state c), (has (rx_hdr r) ACK), (reapable c); cbn [negb];
    first [by apply stage_exit | by apply stage_next | exact Hfree | by apply Hnot | exact Hput].
Qed.

Lemma ack_state_later c c' : ack_state (state c) (state c') -> later c c'.
Proof.
  intros [H|[[H1 H2]|[H1 H2]]]; [by apply later_same|..]; apply later_once; rewrite H1, H2; constructor.
Qed.

Lemma process_ack_conn r c s :
  wf_conn c -> rx_ok r -> state c <> CLOSED ->
  conn_ok c s (fun _ _ => True) (process_ack r c s).
Proof.
  intros Hc Hr Hst. apply conn_ok_frame; [done|]. intros cap Hs.
  eapply returns_mono; [apply (@process_ack_ok cap); [apply Hc|done|apply Hr|done]|].
  intros [a [c' s']] (? & ? & ? & ? & _). by auto 6 using ack_state_later.
Qed.

Lemma recv_ack_ok k r w c :
  wf_world w -> conn_at k (conns w) = Some c -> state c <> CLOSED -> rx_ok r ->
  safe (recv_ack k r w) (stage_ok w k (fun _ _ => True)).
Proof.
  intros Hw Hc Hst Hr. pose proof (wf_conn_at _ _ _ Hw Hc) as [Hwc _]. unfold recv_ack.
  eapply safe_bind; [apply returns_safe, (on_conn_ok k w c (fun _ _ => True)); [done|done|by apply process_ack_conn]|].
  intros [[a|] w'] (Hw' & Hm%keeps_moves & _ & c' & Hc' & _); (split; [done|]); [|by apply moves_ends].
  split; [done|]. split; [by exists c'|done].
Qed.

Lemma recv_syn_ok k r a w :
  wf_world w -> live k w -> safe (recv_syn k r a w) (stage_ok w k (fun _ _ => True)).
Proof.
  intros Hw Hl. unfold recv_syn. destruct (negb _); [by apply stage_next|]. destruct (Hl) as [c Hc]. rewrite Hc.
  pose proof (wf_conn_at _ _ _ Hw Hc) as [[Hs [Hb Hsk]] Hk].
  destruct (state c) eqn:Est; try (by apply stage_exit); try (by apply stage_next);
    [|by split; [|split; [|by exists c]]].
  destruct (a =? 0); [by apply stage_exit|].
  set (c1 := c |> set_rcv_irs _ |> set_rcv_nxt _).
  assert (Hc1 : wf_snd c1) by (subst c1; wf_conn_tac).
  set (c2 := if shut_wr c1 then _ else _).
  assert (Hc2 : wf_conn c2 /\ key_of c2 = key_of c /\ edge (state c) (state c2)).
  { subst c2. destruct (shut_wr c1).
    - split; [|split; [done|rewrite Est; constructor]]. split; [|by constructor].
      change (wf_snd (set_snd_last (u32 (snd_last c1 + 1)) (set_state_ FIN_WAIT_1 c1))).
      apply wf_fin; [done|..]; change (state c1) with (state c); by rewrite ?Est.
    - split; [|split; [done|rewrite Est; constructor]]. split; [|by constructor].
      apply (wf_same_slack (set_do_poll true c1)); [wf_conn_tac|..]; change (state _) with (state c); by rewrite ?Est. }
  destruct Hc2 as (Hc2 & Hk2 & He2).
  destruct (step_put w (sh w) k c c2 Hw) as [Hw' Hm']; [done|apply Hw|done|done|by apply later_once|].
  split; [exact Hw'|]. split; [exact Hm'|]. split; [by eapply live_moves|done].
Qed.

Lemma recv_accept_ok k r a w :
  wf_world w -> live k w -> safe (recv_accept k r a w) (stage_ok w k (fun _ _ => True)).
Proof.
  intros Hw Hl. unfold recv_accept. destruct (Hl) as [c Hc]. rewrite Hc.
  destruct (negb _); [by apply stage_next|]. destruct (a =? 0); [by apply stage_exit|].
  set (w1 := match u_accept (sh w) with Some _ => _ | None => w end).
  assert (H1 : step_ok w w1).
  { subst w1. destruct (u_accept _); [by apply app_step, ao_accept|by apply step_refl]. }
  clearbody w1. destruct H1 as [Hw1 Hm1]. destruct (live_moves k _ _ Hm1 Hl) as [c1 Hc1]. rewrite Hc1.
  eapply safe_mono; [|intros p; by apply (stage_pre w w1)].
  destruct (negb _); [|apply stage_next; [done|by exists c1|done]].
  pose proof (wf_conn_at _ _ _ Hw1 Hc1) as [[Hs [Hb Hsk]] Hk]. set (c2 := set_reapable _ _).
  destruct (step_put w1 (sh w1) k c1 c2 Hw1) as [Hw2 Hm2]; [done|apply Hw1| |done|apply later_once; constructor|].
  { split; [subst c2; wf_conn_tac|by constructor]. }
  split; [exact Hw2|]. by apply moves_ends.
Qed.

Lemma recv_data_ok k r w :
  wf_world w -> live k w -> rx_ok r -> safe (recv_data k r w) (stage_ok w k (fun _ _ => True)).
Proof.
  intros Hw Hl Hr. unfold recv_data. destruct (_ =? 0); [by apply stage_next|].
  destruct (Hl) as [c Hc]. rewrite Hc.
  assert (Hd : safe (let* w := handle_incoming_data k (rx_hdr r) (take (Z.to_nat (rx_len r)) (rx_data r)) w in
        Done (Next (A:=unit) tt, w)) (stage_ok w k (fun _ _ => True))).
  { eapply safe_bind; [apply handle_incoming_data_ok; [done|done| |apply Hr]|].
    - destruct Hr. zlist.
    - intros w' [Hw' Hm']. split; [done|]. split; [done|]. split; [by eapply live_moves|done]. }
  destruct (state c); try exact Hd; try (by apply stage_exit);
    (destruct (reapable c); [by apply stage_exit|exact Hd]).
Qed.

Lemma fin_transition_ok {cap} c s c' s' :
  wf_snd c -> wf_shared cap s -> fin_transition c s = Some (c', s') ->
  wf_snd c' /\ wf_shared cap s' /\ frame_rcv c c' /\ later c c'.
Proof.
  intros Hc Hs. unfold fin_transition, arm_conn_timeout, clock_gettime.
  destruct (state c) eqn:Est; try done; intros [= <- <-];
    (split; [|split; [by auto with utcp|split; [done|]]]); try done;
    try (apply later_once; simpl; rewrite Est; constructor).
  - apply wf_same_slack; [done|by rewrite ?Est..].
  - apply wf_same_slack; [done|by rewrite ?Est..].
  - apply wf_same_slack; [by auto with utcp|..]; change (state _) with (state c); by rewrite ?Est.
Qed.

Lemma recv_fin_ok k r w :
  wf_world w -> live k w -> safe (recv_fin k r w) (stage_ok w k (fun _ _ => True)).
Proof.
  intros Hw Hl. unfold recv_fin. destruct (Hl) as [c Hc]. rewrite Hc.
  pose proof (wf_conn_at _ _ _ Hw Hc) as [[Hs Hr] Hk].
  destruct (_ && _); [|by apply stage_next].
  destruct (fin_transition c (sh w)) as [[c1 s1]|] eqn:Ef; [|by apply stage_exit].
  destruct (fin_transition_ok c (sh w) c1 s1 Hs (ww_shared _ Hw) Ef) as (Hs1 & Hsh1 & Hf1 & Hlt).
  destruct (frame_keeps _ _ Hf1 Hlt Hr) as [[Hb1 Hsk1] _].
  set (c2 := set_rcv_nxt _ c1). set (s2 := match recv c2 with Some _ => _ | None => s1 end).
  destruct (step_put w s2 k c c2 Hw) as [Hw2 Hm2]; [done| | |exact (frame_key _ _ Hf1)|exact Hlt|].
  { subst s2. destruct (recv c2); auto with utcp. }
  { split; [subst c2; wf_conn_tac|by constructor]. }
  eapply safe_bind; [apply returns_safe, call_recv_ok; [exact Hw2|by eapply live_moves]|].
  intros [x w3] [Hw3 Hm3]%app_step. assert (Hm : moves w w3) by (etransitivity; [exact Hm2|done]).
  split; [done|]. split; [done|]. split; [by eapply live_moves|done].
Qed.

Lemma sent_later c c' : sent_upto c c' -> later c c'.
Proof. intros (? & ? & ? & ->). by apply later_same. Qed.

Lemma recv_answer_ok k r b w :
  wf_world w -> live k w -> safe (recv_answer k r b w) (stage_ok w k (fun _ _ => True)).
Proof.
  intros Hw [c Hc]. pose proof (wf_conn_at _ _ _ Hw Hc) as [Hwc _]. unfold recv_answer.
  eapply safe_bind; [apply returns_safe, (on_conn_ok k w c (fun _ _ => True)); [done|done|]|].
  - apply conn_ok_frame; [done|]. intros cap Hs. destruct Hwc as [Hwc _].
    destruct (_ || _ || _); [|by auto with utcp].
    destruct (ack_ok b c (sh w) Hwc Hs) as (c' & s' & ps & l & -> & _ & _ & Hup & ? & _ & ? & _).
    simpl. split; [done|]. split; [done|]. split; [by apply frame_sent|]. split; [by apply sent_later|done].
  - intros [x w'] (? & ?%keeps_moves & _). split; [done|by apply moves_ends].
Qed.

Lemma recv_existing_ok k b r w :
  wf_world w -> live k w -> rx_ok r -> safe (recv_existing k b r w) (stage_ok w k (fun _ _ => True)).
Proof.
  intros Hw Hl Hr. unfold recv_existing.
  eapply fbind_ok; [by apply recv_check_ok|]. cbv beta. intros r1 w1 Hw1 Hl1 Q1.
  eapply fbind_ok; [by apply (recv_rst_ok k r1 w1 (fun r w =>
    rx_ok r /\ exists c, conn_at k (conns w) = Some c /\ state c <> CLOSED))|].
  cbv beta. intros r2 w2 Hw2 Hl2 (Hr2 & c & Hc & Hst).
  eapply fbind_ok; [by eapply recv_ack_ok|]. cbv beta. intros a w3 Hw3 Hl3 _.
  eapply fbind_ok; [by apply recv_syn_ok|]. cbv beta. intros [] w4 Hw4 Hl4 _.
  eapply fbind_ok; [by apply recv_accept_ok|]. cbv beta. intros [] w5 Hw5 Hl5 _.
  eapply fbind_ok; [by apply recv_data_ok|]. cbv beta. intros [] w6 Hw6 Hl6 _.
  eapply fbind_ok; [by apply recv_fin_ok|]. cbv beta. intros [] w7 Hw7 Hl7 _.
  by apply recv_answer_ok.
Qed.

End Stages.

(** ** Parsing *)

(** The auxiliary headers: the loop ends, the payload is a suffix of the packet,
    and an INIT header has its four bytes. *)
Lemma parse_aux_ok fuel h : forall aux init ptr,
  (length ptr < fuel)%nat -> (forall i, init = Some i -> 4 <= zlen i) ->
  exists a, parse_aux fuel h aux init ptr = Done a /\
    forall init' p, a = Some (init', p) -> p `suffix_of` ptr /\ forall i, init' = Some i -> 4 <= zlen i.
Proof.
  induction fuel as [|fuel IH]; intros aux init ptr Hf Hi; [lia|]. cbn [parse_aux].
  zcase; [eexists; split; [done|]; by intros ? ? [= <- <-]|].
  zcase; [by eexists|]. destruct (negb (_ =? AUX_INIT)); [by eexists|].
  destruct (negb (has h SYN) || _) eqn:E1; [by eexists|].
  apply orb_false_iff in E1 as [_ E1]. ztests. rewrite E1 in *.
  assert (Hi' : forall i, Some ptr = Some i -> 4 <= zlen i) by (intros i [= <-]; lia).
  assert (Hsuf : drop (Z.to_nat 4) ptr `suffix_of` ptr) by apply suffix_drop.
  destruct (negb (bitset aux 2048)); [eexists; split; [done|]; by intros ? ? [= <- <-]|].
  zcase; [by eexists|]. set (ptr1 := drop (Z.to_nat 4) ptr) in *.
  destruct (IH (le_val (take 2 ptr1)) (Some ptr) (drop 2 ptr1)) as (a & Ha & Hp); [|done|].
  { subst ptr1. rewrite !length_drop. unfold zlen in *. lia. }
  exists a. split; [done|]. intros init' p Ea. destruct (Hp init' p Ea) as [Hs ?]. split; [|done].
  etransitivity; [done|]. etransitivity; [apply suffix_drop|done].
Qed.

Section Whole.
Context {E : Env} {HA : AppOk E}.

Lemma do_synack_ok {cap} h init c s :
  wf_conn c -> (fresh c \/ state c = SYN_RECEIVED) -> wf_shared cap s ->
  returns (do_synack h init c s) (fun '(_, (c', s')) =>
    wf_conn c' /\ wf_shared cap s' /\ key_of c' = key_of c /\ state c' = SYN_RECEIVED).
Proof.
  intros Hc Hst Hs. unfold do_synack. destruct (Hc) as [Hsn [Hb Hl]].
  set (c1 := set_state_ SYN_RECEIVED _).
  assert (Hc1 : wf_snd c1).
  { destruct Hst as [[_ _ Hd Hu _]|Est].
    - subst c1. clear -Hsn Hd Hu. destruct Hsn; constructor; simpl in *; try done. intros _. lia.
    - pose proof (ws_window _ Hsn) as Hw. rewrite Est in Hw. specialize (Hw ltac:(done)). simpl in Hw.
      subst c1. wf_conn_tac. }
  set (s1 := match init with Some _ => _ | None => _ end).
  assert (Hs1 : wf_shared cap s1) by (subst s1; destruct init; auto with utcp).
  destruct (start_timer_ok c1 s1 Hc1) as (t & ->). simpl.
  split; [split; [auto with utcp|by constructor]|]. by split; [auto with utcp|].
Qed.

Lemma recv_new_ok k init r w :
  wf_world w -> safe (recv_new init r w) (stage_ok w k (fun _ _ => True)).
Proof.
  intros Hw. unfold recv_new.
  destruct (has _ RST); [by apply stage_exit|]. destruct (u_accept _); [|by apply stage_exit].
  destruct (_ && _); [|by apply stage_exit].
  destruct (match u_listen (sh w) with Some _ => _ | None => _ end) as [ok w1] eqn:El.
  assert (H1 : app_ok w w1).
  { destruct (u_listen (sh w)) as [cb|]; [|injection El as <- <-; by apply app_ok_refl].
    pose proof (ao_listen cb (h_dst (rx_hdr r)) w Hw) as Hx. by rewrite El in Hx. }
  destruct H1 as [Hw1 Hk1]. eapply safe_mono; [|intros p; apply (stage_pre w w1), keeps_moves, Hk1].
  destruct (negb ok); [by apply stage_exit|].
  eapply safe_bind; [apply returns_safe, (allocate_wf ao_alloc _ _ w1 Hw1)|].
  intros [[k'|] w2] (Hw2 & Hk2 & Hr).
  2: { eapply stage_pre; [by apply keeps_moves|by apply stage_exit]. }
  destruct Hr as (Hnew & c & Hc & Hfr).
  destruct (match init with Some _ => _ | None => _ end).
  { eapply stage_pre; [by apply keeps_moves|by apply stage_exit]. }
  eapply safe_bind; [apply returns_safe, (on_conn_new k' w1 w2 c); [done|done|done|done|]|].
  - set (fl := match init with Some _ => _ | None => _ end).
    assert (Hf : fresh (set_flags fl c)).
    { destruct Hfr as [[Hsn [Hb Hl]] ? ? ? ?]. constructor; simpl; try done.
      split; [wf_conn_tac|by constructor]. }
    eapply returns_mono; [apply (do_synack_ok (cap := u_nallocated (sh w2))); [apply Hf|by left|apply Hw2]|].
    intros [a [c' s']] (? & ? & ? & _). done.
  - intros [[] w3] [Hw3 Hk3]. split; [done|]. by apply moves_ends, keeps_moves.
Qed.

Lemma recv_exit_ok w0 k init f w :
  stage_ok w0 k (fun _ _ => True) (f, w) ->
  safe (recv_exit k init f w) (fun '(_, w') => wf_world w' /\ ends w0 w').
Proof.
  intros [Hw Hf]. unfold recv_exit. destruct f as [a| |r|r]; simpl in *.
  - split; [done|]. apply moves_ends, Hf.
  - done.
  - split; [apply wf_world_sh; [done|apply wf_send, Hw]|done].
  - destruct Hf as (Hm & c & Hc & Hst). pose proof (wf_conn_at _ _ _ Hw Hc) as [Hwc _].
    eapply safe_bind; [apply returns_safe, (on_conn_step k w c (fun _ _ => True)); [done|done|]|].
    + eapply returns_mono; [apply (do_synack_ok (cap := u_nallocated (sh w))); [done|by right|apply Hw]|].
      intros [[] [c' s']] (? & ? & ? & ?). split; [done|]. split; [done|]. split; [done|].
      split; [|done]. apply later_same. congruence.
    + intros [[] w'] [[? ?] _]. split; [done|]. eapply moves_then_ends; [done|by apply moves_ends].
Qed.

Lemma hdr_ranges bs (h := hdr_of_bytes bs) :
  bytes_ok bs ->
  0 <= h_seq h < 2 ^ 32 /\ 0 <= h_ack h < 2 ^ 32 /\ 0 <= h_wnd h < 2 ^ 32.
Proof. intros Hb. repeat split; apply (le_val_slice _ 4 bs Hb). Qed.

(** Any packet on a well-formed instance. *)
Lemma utcp_recv_ok dat len w :
  wf_world w -> (forall bs, dat = Some bs -> bytes_ok bs /\ zlen bs = len) -> len < 2 ^ 32 ->
  safe (utcp_recv dat len w) (fun '(_, w') => wf_world w' /\ ends w w').
Proof.
  intros Hw Hd Hlen. unfold utcp_recv.
  assert (Hfail : forall e, safe (Done (-1, set_sh (set_errno e (sh w)) w)) (fun '(_, w') => wf_world w' /\ ends w w'))
    by (intros e; split; [apply wf_world_sh; [done|apply wf_errno, Hw]|by apply moves_ends, rel_sh, _]).
  zcase; [by split; [|apply moves_ends]|]. destruct dat as [bs|]; [|apply Hfail]. destruct (Hd bs eq_refl) as [Hb Hl].
  zcase; [apply Hfail|]. destruct (negb _); [apply Hfail|].
  set (h := hdr_of_bytes bs). set (pl := drop (Z.to_nat sizeof_hdr) bs).
  destruct (parse_aux_ok (S (length pl)) h (h_aux h) None pl) as (a & -> & Ha); [lia|done|].
  cbn [obind]. destruct a as [[init ptr]|]; [|apply Hfail].
  destruct (Ha init ptr eq_refl) as [Hsuf _]. apply suffix_length in Hsuf.
  assert (Hr : rx_ok (Rx h ptr (zlen ptr))).
  { pose proof (hdr_ranges bs Hb) as (? & ? & ?). subst pl. rewrite length_drop in Hsuf.
    pose proof (zlen_nonneg ptr). constructor; simpl; try done; unfold zlen in *; lia. }
  assert (Hex : forall m : outcome (flow unit * world), safe m (stage_ok w (h_dst h, h_src h) (fun _ _ => True)) ->
    safe (let* (f, w) := m in recv_exit (h_dst h, h_src h) init f w) (fun '(_, w') => wf_world w' /\ ends w w')).
  { intros m Hm. eapply safe_bind; [exact Hm|]. intros [f w'] Hf. by apply recv_exit_ok. }
  apply Hex. rewrite find_connection_at by apply (ww_table _ Hw).
  destruct (conn_at _ _) as [c|] eqn:Ec; [|by apply recv_new_ok].
  apply recv_existing_ok; [done|by exists c|done].
Qed.

(** ** Timeouts *)

Lemma retransmit_ok k w : wf_world w -> live k w -> returns (retransmit k w) (step_ok w).
Proof.
  intros Hw Hl. unfold retransmit. destruct (Hl) as [c Hc]. rewrite Hc.
  pose proof (wf_conn_at _ _ _ Hw Hc) as [[Hs [Hb Hsk]] _].
  destruct (_ || _) eqn:E0.
  { apply (step_put w (sh w) k c); [done|done|apply Hw| |done|by apply later_same].
    split; [by apply wf_rtrx|by constructor]. }
  apply orb_false_iff in E0 as [_ E0]. ztests.
  set (w1 := match u_retransmit (sh w) with Some _ => _ | None => w end).
  assert (H1 : step_ok w w1 /\ in_flight k w w1).
  { subst w1. destruct (u_retransmit (sh w)) as [cb|].
    - destruct (ao_retransmit cb k w Hw). split; [by apply app_step|done].
    - split; [by apply step_refl|]. intros x y Hx Hy. congruence. }
  clearbody w1. destruct H1 as [H1 Hfl]. destruct (H1) as [Hw1 Hm1].
  destruct (live_moves k _ _ Hm1 Hl) as [c1 Hc1].
  pose proof (wf_conn_at _ _ _ Hw1 Hc1) as [Hwc1 _].
  eapply returns_bind.
  - apply (on_conn_ok k w1 c1 (fun _ _ => True)); [done|done|]. apply conn_ok_frame; [done|].
    intros cap Hcap. eapply returns_mono; [apply (@retransmit_body_ok cap); [apply Hwc1|done|by eapply Hfl]|].
    intros [a [c' s']] (? & ? & ? & ?). by auto 6 with utcp.
  - intros [[] w2] (Hw2 & Hk2 & _). cbn [returns]. eapply step_trans; [done|]. by apply app_step.
Qed.

Lemma timeout_poll_ok k w : wf_world w -> live k w -> returns (timeout_poll k w) (step_ok w).
Proof.
  intros Hw Hl. unfold timeout_poll. destruct (Hl) as [c Hc]. rewrite Hc.
  pose proof (wf_conn_at _ _ _ Hw Hc) as [[Hs [Hb Hsk]] _].
  destruct (poll c) as [cb|]; [|by apply step_refl].
  destruct (_ && _); [|destruct (state_eqb _ _); [by apply on_poll_step|by apply step_refl]].
  assert (Hp : step_ok w (set_conns (put_conn (set_do_poll false c) (conns w)) w)).
  { apply (step_put w (sh w) k c); [done|done|apply Hw| |done|by apply later_same].
    split; [wf_conn_tac|by constructor]. }
  cbn [returns]. destruct (negb _); [|done]. eapply step_trans; [done|]. apply on_poll_step, Hp.
Qed.

Lemma timeout_connection_ok c w :
  wf_world w -> conn_at (key_of c) (conns w) = Some c -> returns (timeout_connection c w) (step_ok w).
Proof.
  intros Hw Hc. pose proof (wf_conn_at _ _ _ Hw Hc) as [[Hs Hr] _]. unfold timeout_connection.
  set (c1 := c |> set_state CLOSED |> set_sndbuf _ |> set_rcvbuf _).
  destruct (step_put w (set_errno ETIMEDOUT (sh w)) (key_of c) c c1) as [Hw1 Hm1];
    [done|done|apply wf_errno, Hw| |done|apply later_once; constructor|].
  { split; [exact (wf_cleared c Hs)|]. destruct Hr. constructor; simpl; [by apply clear_ok|done]. }
  eapply returns_mono; [apply notify_closed_ok; [exact Hw1|eapply live_moves; [exact Hm1|by exists c]]|].
  intros w2 H2. eapply step_trans; [|done]. by split.
Qed.

End Whole.

(** ** The timeout loop ends

    Callbacks that open no connections leave the set of connections alone, so
    every turn either frees one or moves on. *)

Definition same_keys (w w' : world) : Prop := key_of <$> conns w' = key_of <$> conns w.

Class AppQuiet (E : Env) : Prop := {
  aq_recv : forall cb k d w, same_keys w (on_recv cb k d w).2;
  aq_poll : forall cb k n w, same_keys w (on_poll cb k n w);
  aq_retransmit : forall cb k w, same_keys w (on_retransmit cb k w);
}.

Section Quiet.
Context {E : Env} {HA : AppOk E} {HQ : AppQuiet E}.

Lemma same_keys_trans a b c : same_keys a b -> same_keys b c -> same_keys a c.
Proof. unfold same_keys. congruence. Qed.

Lemma same_keys_put w s c : same_keys w (World s (put_conn c (conns w))).
Proof. apply put_keys. Qed.

Lemma call_recv_quiet k d w r w' : call_recv k d w = Done (r, w') -> same_keys w w'.
Proof.
  unfold call_recv. destruct (conn_at k (conns w)) as [c|]; [|done].
  destruct (recv c) as [cb|]; [|by intros [= <- <-]]. unfold app_recv.
  set (w1 := set_sh _ w). pose proof (aq_recv cb k d w1) as H. by intros [= E']; rewrite E' in H.
Qed.

Lemma notify_closed_quiet k w w' : notify_closed k w = Done w' -> same_keys w w'.
Proof.
  unfold notify_closed. destruct (call_recv k None w) as [[r w1]|] eqn:E1; [|done].
  apply call_recv_quiet in E1. cbn [obind]. destruct (conn_at k (conns w1)) as [c|]; [|done].
  destruct (poll c) as [cb|]; [|by intros [= <-]]. destruct (reapable c); intros [= <-]; [done|].
  eapply same_keys_trans; [done|apply aq_poll].
Qed.

Lemma on_conn_quiet {A} k w (f : utcp_connection -> shared -> outcome (A * (utcp_connection * shared))) a w' :
  on_conn k w f = Done (a, w') -> same_keys w w'.
Proof.
  unfold on_conn. destruct (conn_at k (conns w)) as [c|]; [|done].
  destruct (f c (sh w)) as [[b [c' s']]|]; [|done]. intros [= <- <-]. apply put_keys.
Qed.

Lemma retransmit_quiet k w w' : retransmit k w = Done w' -> same_keys w w'.
Proof.
  unfold retransmit. destruct (conn_at k (conns w)) as [c|]; [|done].
  destruct (_ || _); [intros [= <-]; apply put_keys|].
  set (w1 := match u_retransmit (sh w) with Some _ => _ | None => w end).
  assert (H1 : same_keys w w1) by (subst w1; destruct (u_retransmit _); [apply aq_retransmit|done]).
  destruct (on_conn k w1 retransmit_body) as [[[] w2]|] eqn:E2; [|done]. intros [= <-].
  eapply same_keys_trans; [done|by eapply on_conn_quiet].
Qed.

Lemma timeout_poll_quiet k w w' : timeout_poll k w = Done w' -> same_keys w w'.
Proof.
  unfold timeout_poll. destruct (conn_at k (conns w)) as [c|]; [|done].
  destruct (poll c) as [cb|]; [|by intros [= <-]]. destruct (_ && _).
  - intros [= <-]. set (w1 := set_conns _ w). assert (H1 : same_keys w w1) by apply put_keys.
    destruct (negb _); [|done]. eapply same_keys_trans; [done|apply aq_poll].
  - destruct (state_eqb _ _); intros [= <-]; [apply aq_poll|done].
Qed.

Lemma same_length w w' : same_keys w w' -> length (conns w') = length (conns w).
Proof. intros H. rewrite <- (length_fmap key_of (conns w')), H. apply length_fmap. Qed.

(** Connections disappear or follow the edges; none is added. *)
Definition shrinks (w w' : world) : Prop :=
  ends w w' /\ forall k, live k w' -> live k w.

Lemma shrinks_trans a b c : shrinks a b -> shrinks b c -> shrinks a c.
Proof.
  intros [E1 L1] [E2 L2]. split; [|by auto]. intros k x z Hx Hz.
  destruct (L2 k) as [y Hy]; [by exists z|]. transitivity y; [by eapply E1|by eapply E2].
Qed.

Lemma live_keys k w : live k w <-> k ∈ (key_of <$> conns w).
Proof.
  unfold live. induction (conns w) as [|c cs IH]; simpl; [split; [by intros []|by intros ?%elem_of_nil]|].
  rewrite elem_of_cons, <- IH. case_bool_decide; [split; [by left|by eexists]|].
  split; [by right|]. by intros [->|?].
Qed.

Lemma moves_shrinks w w' : moves w w' -> same_keys w w' -> shrinks w w'.
Proof. intros Hm Hs. split; [by apply moves_ends|]. intros k. rewrite !live_keys. by rewrite Hs. Qed.

Lemma free_turn i c w :
  wf_world w -> conns w !! i = Some c ->
  returns (free_connection (key_of c) w) (fun w' => wf_world w' /\ shrinks w w' /\
    length (conns w') = pred (length (conns w))).
Proof.
  intros Hw Hi. pose proof (lookup_lt_Some _ _ _ Hi) as Hlt.
  assert (Hl : live (key_of c) w).
  { exists c. eapply conn_at_sorted; [apply (ww_table _ Hw)|done]. }
  pose proof (free_connection_ok (key_of c) w Hw Hl) as Hf.
  destruct (free_connection (key_of c) w) as [w'|] eqn:Ef; [|done]. destruct Hf as [Hw' He].
  unfold free_connection in Ef.
  rewrite (proj2 (bsearch_all_spec (conns w) (key_of c) i (tb_sorted _ (ww_table _ Hw)))) in Ef by (by exists c).
  injection Ef as <-. simpl in *. split; [done|]. split.
  - split; [done|]. intros k. rewrite !live_keys. simpl. rewrite fmap_app, elem_of_app.
    intros [Hk|Hk]; apply list_elem_of_fmap in Hk as (x & -> & Hx); apply list_elem_of_fmap;
      exists x; (split; [done|]); [by eapply subseteq_take|by eapply subseteq_drop].
  - rewrite length_app, length_take, length_drop. lia.
Qed.

(** One turn returns, and either the index grows or the table shrinks. *)
Lemma timeout_turn_ok now i c next w :
  wf_world w -> conns w !! i = Some c ->
  returns (timeout_turn now i c next w) (fun '(j, next', w') => wf_world w' /\ shrinks w w' /\
    (length (conns w') - j < length (conns w) - i)%nat).
Proof.
  intros Hw Hi. pose proof (lookup_lt_Some _ _ _ Hi) as Hlt.
  assert (Hc : conn_at (key_of c) (conns w) = Some c) by (eapply conn_at_sorted; [apply (ww_table _ Hw)|done]).
  assert (Hl : live (key_of c) w) by (by exists c). unfold timeout_turn.
  assert (Hid : shrinks w w) by (by apply moves_shrinks).
  destruct (state_eqb (state c) CLOSED).
  { destruct (reapable c); [|simpl; split; [done|]; split; [done|lia]].
    eapply returns_bind; [by apply (free_turn i c w)|]. intros w' (? & ? & ?). simpl.
    split; [done|]. split; [done|lia]. }
  destruct (_ && _).
  { pose proof (timeout_connection_ok c w Hw Hc) as Ht.
    destruct (timeout_connection c w) as [w'|] eqn:Et; [|done]. simpl. destruct Ht as [Hw' Hm].
    unfold timeout_connection in Et. apply notify_closed_quiet in Et.
    assert (Hs : same_keys w w') by (eapply same_keys_trans; [apply same_keys_put|exact Et]).
    split; [done|]. split; [by apply moves_shrinks|]. rewrite (same_length w w' Hs). lia. }
  assert (exists w1, (if timespec_isset (rtrx_timeout c) && timespec_lt (rtrx_timeout c) now
              then retransmit (key_of c) w else Done w) = Done w1 /\ step_ok w w1 /\ same_keys w w1)
    as (w1 & -> & [Hw1 Hm1] & Hs1).
  { destruct (_ && _); [|by exists w; split; [|split; [apply step_refl|]]].
    pose proof (retransmit_ok (key_of c) w Hw Hl) as Hr.
    destruct (retransmit (key_of c) w) as [w1|] eqn:Er; [|done]. exists w1. split; [done|].
    split; [done|by eapply retransmit_quiet]. }
  cbn [obind]. pose proof (timeout_poll_ok (key_of c) w1 Hw1 (live_moves _ _ _ Hm1 Hl)) as Hp.
  destruct (timeout_poll (key_of c) w1) as [w2|] eqn:Ep; [|done]. destruct Hp as [Hw2 Hm2].
  apply timeout_poll_quiet in Ep. cbn [obind].
  assert (Hm : moves w w2) by (by transitivity w1). assert (Hs : same_keys w w2) by (by eapply same_keys_trans).
  destruct (live_moves _ _ _ Hm Hl) as [c2 ->]. simpl. split; [done|].
  split; [by apply moves_shrinks|]. rewrite (same_length w w2 Hs). lia.
Qed.

Lemma timeout_loop_ok fuel : forall now i next w,
  wf_world w -> (length (conns w) - i <= fuel)%nat ->
  returns (timeout_loop fuel now i next w) (fun '(_, w') => wf_world w' /\ shrinks w w').
Proof.
  induction fuel as [|fuel IH]; intros now i next w Hw Hf; cbn [timeout_loop];
    (destruct (conns w !! i) as [c|] eqn:Ei; [|split; [done|by apply moves_shrinks]]);
    pose proof (lookup_lt_Some _ _ _ Ei); [lia|].
  eapply returns_bind; [by apply timeout_turn_ok|].
  intros [[j next'] w'] (Hw' & Hs & Hm). eapply returns_mono; [apply IH; [done|lia]|].
  intros [t w2] [? ?]. split; [done|by eapply shrinks_trans].
Qed.

Lemma utcp_timeout_ok w :
  wf_world w -> returns (utcp_timeout w) (fun '(_, w') => wf_world w' /\ ends w w').
Proof.
  intros Hw. unfold utcp_timeout, clock_gettime.
  eapply returns_bind; [apply timeout_loop_ok; [apply wf_world_sh; [done|apply wf_tick, Hw]|simpl; lia]|].
  intros [t w'] [? [He _]]. by split.
Qed.

End Quiet.
