(* ===== verification/UtcpSim.v ===== *)
(** A concrete environment and two endpoints, for running the model.

    The application accepts every connection and consumes every byte; the clock
    advances one second per reading; the allocator never fails.  The environment
    satisfies the interface of UtcpCalls.v, so the theorems proved against the
    interface apply to it. *)
From stdpp Require Import relations sorting.
From S2P Require Import Prelude UtcpBuffer UtcpTypes UtcpTimer UtcpTable UtcpSend UtcpInput UtcpRecv UtcpApi UtcpInv UtcpWorld UtcpCalls UtcpRecvSafe.

(** The process without an application. *)
Definition base_env (r0 : Z) : Env := {|
  clock n := Timespec (100 + Z.of_nat n) 0;
  rand n := r0 + Z.of_nat n;
  allocs _ := test_alloc;
  on_recv _ _ d w := (match d with Some d => zlen d | None => 0 end, w);
  on_poll _ _ _ w := w;
  on_accept _ _ _ w := w;
  on_listen _ _ w := (true, w);
  on_retransmit _ _ w := w;
|}.

(** The application's [accept] callback calls [utcp_accept]. *)
Definition sim_env (r0 : Z) : Env := {|
  clock := @clock (base_env r0); rand := @rand (base_env r0); allocs := @allocs (base_env r0);
  on_recv := @on_recv (base_env r0); on_poll := @on_poll (base_env r0);
  on_accept _ k _ w :=
    match conn_at k (conns w) with Some _ => @run_calls (base_env r0) [CAccept k (Some 1) 0] w | None => w end;
  on_listen := @on_listen (base_env r0); on_retransmit := @on_retransmit (base_env r0);
|}.

#[export] Instance sim_app_ok r0 : AppOk (sim_env r0).
Proof.
  constructor; simpl; try (intros; by apply app_ok_refl); [done| |].
  - intros cb k p w Hw. destruct (conn_at k (conns w)) eqn:E; [|by apply app_ok_refl].
    apply (@run_calls_ok (base_env r0) [CAccept k (Some 1) 0]); [done|done|].
    cbn [valid_calls valid_call callback_call]. by rewrite E.
  - intros cb k w Hw. split; [by apply app_ok_refl|]. intros c c' ? ?. congruence.
Qed.

#[export] Instance sim_app_quiet r0 : AppQuiet (sim_env r0).
Proof. by constructor. Qed.

(** ** Two endpoints *)

Definition EA : Env := sim_env 1000.
Definition EB : Env := sim_env 777777.

Definition sim_init (E : Env) : option world :=
  @utcp_init E (Some 1) (Some 1) true 0 0 (Timespec 0 1) 0.

(** Take the packets sent so far off the wire. *)
Definition takeout (w : world) : list packet * world := (out (sh w), set_sh (set_out [] (sh w)) w).

Fixpoint deliver (E : Env) (ps : list packet) (w : world) : outcome world :=
  match ps with
  | [] => Done w
  | p :: ps =>
      let b := packet_bytes p in
      let* (_, w) := @utcp_recv E (Some b) (zlen b) w in
      deliver E ps w
  end.

(** What one side sent is delivered to the other. *)
Definition exchange (E : Env) (from to : world) : outcome (world * world) :=
  let (ps, from) := takeout from in
  let* to := deliver E ps to in
  Done (from, to).

(** ** An established connection *)

(** Three bytes wait to be sent from 500 on; the next byte expected is 1000. *)
Definition sim_conn : utcp_connection :=
  conn_zero |> set_flags UTCP_TCP |> set_state ESTABLISHED |> set_src 80 |> set_dst 9
  |> set_recv (Some 1) |> set_rcv_nxt 1000
  |> set_snd_una 500 |> set_snd_nxt 500 |> set_snd_last 503 |> set_snd_wnd 65535
  |> set_snd_cwnd 3920 |> set_snd_ssthresh UINT32_MAX |> set_rto START_RTO
  |> set_sndbuf (Buffer [7; 8; 9] 0 3 3 131072 false)
  |> set_rcvbuf (Buffer [] 0 0 0 131072 false).

Definition sim_shared : shared := test_shared |> set_u_nallocated 4 |> set_u_slots 4.

Definition sim_world : world := World sim_shared [sim_conn].

Lemma sim_conn_wf : wf_snd sim_conn.
Proof.
  assert (H1 : seqdiff 500 500 = 0) by (by vm_compute). assert (H2 : seqdiff 503 500 = 3) by (by vm_compute).
  constructor; simpl; unfold UINT32_MAX, START_RTO, USEC_PER_SEC, SNDMAX; rewrite ?H1, ?H2; try lia.
  constructor; simpl; done || lia.
Qed.

Lemma sim_conn_rcv : wf_rcv sim_conn.
Proof. constructor; [|done]. constructor; simpl; done || lia. Qed.

Lemma sim_shared_wf : wf_shared 4 sim_shared.
Proof. constructor; simpl; done || (unfold zlen; rewrite length_replicate; lia). Qed.

Lemma sim_world_wf : wf_world sim_world.
Proof.
  constructor; simpl; [|exact sim_shared_wf|].
  - constructor; simpl; [by repeat constructor|done|unfold zlen; simpl; lia].
  - repeat constructor; apply sim_conn_wf || apply sim_conn_rcv.
Qed.
