(* ===== verification/UtcpStream.v ===== *)
(** Integrity of the received stream.

    The sender's data is a function [str] from positions to bytes.  [stream_ok]
    relates a connection to it: [p] bytes have been handed to the application, the
    next sequence number is that of position [p], and every range noted in the
    SACK entries holds the stream's bytes in the receive buffer.  Segments of the
    stream may then arrive in any order, repeated or overlapping: what the
    application gets is the stream, in order, without gaps.

    The one exclusion is [no_overrun]: an in-order segment longer than everything
    buffered, while two or more ranges are noted.  UtcpDefects.v shows what
    happens then. *)
From stdpp Require Import relations sorting.
From S2P Require Import Prelude UtcpBuffer UtcpTypes UtcpTimer UtcpTable UtcpSend UtcpInput UtcpRecv UtcpApi UtcpInv UtcpWorld UtcpCalls UtcpRecvSafe UtcpSim.

Section Stream.
Context (str : nat -> Z).

(** The bytes at positions [p, p+n). *)
Definition piece (p n : nat) : list Z := str <$> seq p n.

Lemma piece_app p m n : piece p (m + n) = piece p m ++ piece (p + m) n.
Proof. unfold piece. by rewrite seq_app, fmap_app. Qed.

Lemma length_piece p n : length (piece p n) = n.
Proof. unfold piece. by rewrite length_fmap, length_seq. Qed.

Lemma piece_lookup p n i : (i < n)%nat -> piece p n !! i = Some (str (p + i)).
Proof. intros Hi. unfold piece. rewrite list_lookup_fmap, lookup_seq_lt by done. done. Qed.

(** Entry [e] covers bytes that are in the buffer and are the stream's. *)
Definition range_ok (p : nat) (buf : list Z) (e : sack) : Prop :=
  0 <= sk_offset e /\ 0 < sk_len e /\ sk_offset e + sk_len e <= zlen buf /\
  forall i, sk_offset e <= Z.of_nat i < sk_offset e + sk_len e -> buf !! i = Some (str (p + i)).

(** Entries are in use up to some index and unused from there on. *)
Inductive sacks_ok (p : nat) (buf : list Z) : list sack -> Prop :=
  | sacks_end l : Forall (fun e => sk_len e = 0) l -> sacks_ok p buf l
  | sacks_cons e l : range_ok p buf e -> sacks_ok p buf l -> sacks_ok p buf (e :: l).

Lemma sacks_dead p buf e l : sacks_ok p buf (e :: l) -> sk_len e = 0 -> Forall (fun e => sk_len e = 0) l.
Proof. intros H He. inversion H as [? Hf|? ? Hr]; subst; [by inversion Hf|]. destruct Hr. lia. Qed.

Lemma sacks_head p buf e l : sacks_ok p buf (e :: l) -> sk_len e <> 0 -> range_ok p buf e /\ sacks_ok p buf l.
Proof. intros H He. inversion H as [? Hf|]; subst; [by inversion Hf|done]. Qed.

(** ** Noting a range *)

(** [sack_note] from entry [i] is a function of the rest of the list. *)
Fixpoint note (off rxd : Z) (l : list sack) (last_free : bool) : list sack :=
  match l with
  | [] => []
  | e :: l =>
      if sk_len e =? 0 then Sack off (u32 rxd) :: l
      else if off <? sk_offset e then
        if off + rxd <? sk_offset e then
          if last_free then Sack off (u32 rxd) :: take (length l) (e :: l) else e :: l
        else Sack off (sk_len e) :: l
      else if off <=? u32 (sk_offset e + sk_len e) then
        if u32 (sk_offset e + sk_len e) <? off + rxd
        then Sack (sk_offset e) (u32 (off + rxd - sk_offset e)) :: l
        else e :: l
      else e :: note off rxd l last_free
  end.

Lemma note_eq fuel : forall i off rxd l,
  length l = 4%nat -> (i + fuel = 4)%nat ->
  sack_note fuel i off rxd l = take i l ++ note off rxd (drop i l) (sk_len (sack_at l 3) =? 0).
Proof.
  induction fuel as [|fuel IH]; intros i off rxd l Hl Hf.
  { simpl. rewrite drop_ge, take_ge by lia. by rewrite app_nil_r. }
  assert (Hi : l !! i = Some (sack_at l i)) by (apply sack_at_lookup; lia).
  cbn [sack_note]. rewrite (drop_S l (sack_at l i) i Hi). cbn [note].
  set (e := sack_at l i) in *.
  assert (Hins : forall x, <[i:=x]> l = take i l ++ x :: drop (S i) l).
  { intros x. by apply insert_take_drop, lookup_lt_is_Some_1; exists e. }
  assert (Hid : l = take i l ++ e :: drop (S i) l) by (rewrite <- (drop_S l e i Hi); by rewrite take_drop).
  destruct (sk_len e =? 0); [done|]. destruct (off <? sk_offset e).
  - destruct (off + rxd <? sk_offset e); [|done]. destruct (sk_len (sack_at l 3) =? 0); [|done].
    unfold sack_insert. rewrite (drop_S l e i Hi), length_drop, Hl. by replace (4 - S i)%nat with (3 - i)%nat by lia.
  - destruct (off <=? _); [destruct (_ <? off + rxd); [apply Hins|done]|].
    rewrite IH by lia. rewrite (take_S_r l i e Hi), <- app_assoc. done.
Qed.

Lemma sacks_take p buf l : forall n, sacks_ok p buf l -> sacks_ok p buf (take n l).
Proof.
  induction l as [|e l IH]; intros n Hs; [by rewrite take_nil|]. destruct n as [|n]; [by constructor|]. simpl.
  inversion Hs as [? Hf|]; subst; [apply sacks_end; change (e :: take n l) with (take (S n) (e :: l)); by apply Forall_take|].
  apply sacks_cons; auto.
Qed.

(** The new range is noted truthfully. *)
Lemma note_ok p buf off rxd l b :
  sacks_ok p buf l -> range_ok p buf (Sack off rxd) -> zlen buf < 2 ^ 32 ->
  sacks_ok p buf (note off rxd l b).
Proof.
  intros Hs Hn Hb. destruct (Hn) as (H0 & H1 & H2 & H3). simpl in *.
  assert (Hu : u32 rxd = rxd) by (apply u32_small; lia). rewrite <- Hu in Hn.
  induction l as [|e l IH]; [done|]. cbn [note]. destruct (sk_len e =? 0) eqn:E0; ztests.
  { apply sacks_cons; [done|]. by apply sacks_end, (sacks_dead p buf e l). }
  destruct (sacks_head _ _ _ _ Hs E0) as [He Hl]. destruct (He) as (G0 & G1 & G2 & G3).
  rewrite (u32_small (sk_offset e + sk_len e)) by lia. zcase; [zcase|zcase; [zcase|]].
  - destruct b; [|done]. apply sacks_cons; [done|]. by apply sacks_take.
  - apply sacks_cons; [|done]. split; [done|]. simpl. split; [done|]. split; [lia|].
    intros i Hi. destruct (decide (Z.of_nat i < off + rxd)); [apply H3; lia|apply G3; lia].
  - apply sacks_cons; [|done]. rewrite u32_small by lia. split; [done|]. simpl. split; [lia|]. split; [lia|].
    intros i Hi. destruct (decide (Z.of_nat i < off)); [apply G3; lia|apply H3; lia].
  - done.
  - apply sacks_cons; [done|by apply IH].
Qed.

(** ** Consuming *)

Lemma sacks_app_dead p buf l e : sacks_ok p buf l -> sk_len e = 0 -> sacks_ok p buf (l ++ [e]).
Proof.
  intros Hs He. induction Hs as [l Hf|x l Hx Hs IH]; [|by apply sacks_cons].
  apply sacks_end, Forall_app. split; [done|by repeat constructor].
Qed.

(** A range after the first [n] bytes were dropped. *)
Lemma range_drop p buf e n :
  range_ok p buf e -> 0 <= n < sk_offset e + sk_len e ->
  range_ok (p + Z.to_nat n) (drop (Z.to_nat n) buf)
    (Sack (Z.max 0 (sk_offset e - n)) (sk_offset e + sk_len e - n - Z.max 0 (sk_offset e - n))).
Proof.
  intros (H0 & H1 & H2 & H3) Hn. split; [simpl; lia|]. simpl. split; [lia|].
  assert (Hl : zlen (drop (Z.to_nat n) buf) = zlen buf - n) by zlist.
  split; [lia|]. intros i Hi. rewrite lookup_drop. rewrite H3 by lia. do 2 f_equal. lia.
Qed.

Lemma consume_loop_sacks p buf fuel : forall i len l l',
  length l = 4%nat -> sack_consume_loop fuel i len l = Done l' -> 0 <= len -> zlen buf < 2 ^ 32 ->
  sacks_ok p buf (drop i l) ->
  take i l' = take i l /\ length l' = 4%nat /\
  sacks_ok (p + Z.to_nat len) (drop (Z.to_nat len) buf) (drop i l').
Proof.
  assert (Hstop : forall i len l, length l = 4%nat -> sacks_ok p buf (drop i l) ->
    (i <? 4)%nat && negb (sk_len (sack_at l i) =? 0) = false ->
    sacks_ok (p + Z.to_nat len) (drop (Z.to_nat len) buf) (drop i l)).
  { intros i len l Hl Hs E. destruct (Nat.ltb_spec i 4) as [Hi|Hi]; [|rewrite (drop_ge l) by lia; by constructor].
    simpl in E. ztests. rewrite (drop_S l _ i (sack_at_lookup l i Hl Hi)) in *.
    apply sacks_end. constructor; [done|]. by eapply sacks_dead. }
  induction fuel as [|fuel IH]; intros i len l l' Hl Hr Hlen Hb Hs; cbn [sack_consume_loop] in Hr;
    (destruct ((i <? 4)%nat && negb (sk_len (sack_at l i) =? 0)) eqn:E;
     [|injection Hr as <-; split; [done|]; split; [done|by apply Hstop]]); [done|].
  apply andb_true_iff in E as [Ei%Nat.ltb_lt En]. ztests.
  pose proof (sack_at_lookup l i Hl Ei) as Hi. set (e := sack_at l i) in *.
  rewrite (drop_S l e i Hi) in Hs. destruct (sacks_head _ _ _ _ Hs En) as [He Hs']. destruct (He) as (G0 & G1 & G2 & G3).
  assert (Hgo : forall x, sack_consume_loop fuel (S i) len (<[i:=x]> l) = Done l' ->
    range_ok (p + Z.to_nat len) (drop (Z.to_nat len) buf) x ->
    take i l' = take i l /\ length l' = 4%nat /\
    sacks_ok (p + Z.to_nat len) (drop (Z.to_nat len) buf) (drop i l')).
  { intros x Hx Hrx. assert (Hli : length (<[i:=x]> l) = 4%nat) by (by rewrite length_insert).
    destruct (IH (S i) len _ l' Hli Hx Hlen Hb) as (Ht & Hl' & Hd); [by rewrite drop_insert_lt by lia|].
    assert (Hxi : l' !! i = Some x).
    { rewrite <- (lookup_take_lt l' (S i) i), Ht, lookup_take_lt by lia. by rewrite list_lookup_insert_eq by lia. }
    split; [|split; [done|]].
    - apply (f_equal (take i)) in Ht. rewrite !take_take, !Nat.min_l in Ht by lia.
      by rewrite take_insert_ge in Ht by lia.
    - rewrite (drop_S l' x i Hxi). by apply sacks_cons. }
  rewrite (u32_small (_ + _)) in Hr by lia. pose proof (range_drop p buf e len He) as Hrd.
  destruct (len <? sk_offset e) eqn:E1; ztests.
  { apply (Hgo _ Hr). rewrite u32_small by lia. rewrite Z.max_r in Hrd by lia.
    replace (sk_len e) with (sk_offset e + sk_len e - len - (sk_offset e - len)) by lia. apply Hrd. lia. }
  destruct (len <? sk_offset e + sk_len e) eqn:E2; ztests.
  { apply (Hgo _ Hr). rewrite u32_small by lia. rewrite Z.max_l in Hrd by lia.
    replace (sk_len e - (len - sk_offset e)) with (sk_offset e + sk_len e - len - 0) by lia. apply Hrd. lia. }
  destruct (i <? 3)%nat eqn:E3.
  - apply Nat.ltb_lt in E3.
    assert (Htk : take i (sack_remove i l) = take i l).
    { unfold sack_remove. by rewrite take_app_length' by (rewrite length_take; lia). }
    destruct (IH i len (sack_remove i l) l') as (Ht & Hl' & Hd);
      [by apply length_sack_remove|done|done|done| |by rewrite Ht].
    unfold sack_remove. rewrite drop_app_length' by (rewrite length_take; lia). by apply sacks_app_dead.
  - apply Nat.ltb_ge in E3. assert (i = 3)%nat as -> by lia. injection Hr as <-.
    split; [by rewrite take_insert_ge by lia|]. split; [by rewrite length_insert|].
    apply sacks_end. rewrite (drop_S _ (Sack (sk_offset e) 0)) by (by rewrite list_lookup_insert_eq by lia).
    rewrite drop_ge by (rewrite length_insert; lia). by repeat constructor.
Qed.

(** ** Putting a segment into the buffer *)

Lemma put_positions p b off d b' :
  wf_buffer b -> wf_buffer b' -> put_effect b off d b' -> 0 <= off ->
  d = piece (p + Z.to_nat off) (length d) ->
  (forall e, range_ok p (contents b) e -> range_ok p (contents b') e) /\
  (0 < zlen d -> range_ok p (contents b') (Sack off (zlen d))).
Proof.
  intros Hb Hb' [Hu Hc] Hoff Hd.
  pose proof (length_contents b Hb) as Hl. pose proof (length_contents b' Hb') as Hl'.
  assert (Hnew : forall i, off <= Z.of_nat i < off + zlen d -> contents b' !! i = Some (str (p + i))).
  { intros i Hi. rewrite Hc by (by left). rewrite decide_True by done. rewrite Hd.
    unfold zlen in Hi. rewrite piece_lookup by lia. do 2 f_equal. lia. }
  split.
  - intros e (H0 & H1 & H2 & H3). split; [done|]. split; [done|]. split; [lia|]. intros i Hi.
    destruct (decide (off <= Z.of_nat i < off + zlen d)) as [Hin|Hin]; [by apply Hnew|].
    rewrite Hc, decide_False by (done || lia). by apply H3.
  - intros Hpos. split; [done|]. split; [done|]. split; [simpl; lia|]. exact Hnew.
Qed.

Lemma sacks_mono p q buf buf' l :
  (forall e, range_ok p buf e -> range_ok q buf' e) -> sacks_ok p buf l -> sacks_ok q buf' l.
Proof. intros H. induction 1; [by apply sacks_end|]. apply sacks_cons; auto. Qed.

Lemma piece_take p m n : (m <= n)%nat -> take m (piece p n) = piece p m.
Proof.
  intros H. replace n with (m + (n - m))%nat by lia. rewrite piece_app.
  by rewrite take_app_length' by by rewrite length_piece.
Qed.

(** ** Delivery *)

Definition delivered (k : key) (l : list (key * option (list Z))) : list Z :=
  concat ((fun e => if bool_decide (e.1 = k) then default [] e.2 else []) <$> l).

Lemma delivered_app k l d : delivered k (l ++ [(k, Some d)]) = delivered k l ++ d.
Proof.
  unfold delivered. rewrite fmap_app, concat_app. simpl. rewrite bool_decide_true by done.
  simpl. by rewrite app_nil_r.
Qed.

(** The application consumes what it is given. *)
Context {E : Env} (Happ : forall cb k d w, on_recv cb k (Some d) w = (zlen d, w))
  (Halloc : forall n, a_ok (allocs n) = true).

Definition log (k : key) (d : list Z) (w : world) : world :=
  set_sh (set_dlv (dlv (sh w) ++ [(k, Some d)]) (sh w)) w.

Lemma app_recv_log cb k d w : app_recv cb k (Some d) w = (zlen d, log k d w).
Proof. unfold app_recv. by rewrite Happ. Qed.

Lemma buffer_call_stream k c cb off n w :
  conn_at k (conns w) = Some c -> recv c = Some cb -> wf_buffer (rcvbuf c) ->
  0 <= off -> 0 < n -> off + n <= used (rcvbuf c) ->
  exists w', buffer_call k off n w = Done (n, w') /\ conns w' = conns w /\
    delivered k (dlv (sh w')) = delivered k (dlv (sh w)) ++
      slice (Z.to_nat off) (Z.to_nat n) (contents (rcvbuf c)).
Proof.
  intros Hc Hr Hb Hoff Hn Hu. pose proof (wf_used _ Hb) as Hus. pose proof (wf_size _ Hb) as Hs.
  assert (Hsl : slice (Z.to_nat off) (Z.to_nat n) (contents (rcvbuf c)) =
                slice (Z.to_nat off) (Z.to_nat n) (cells (rcvbuf c))).
  { apply list_eq. intros i. rewrite !lookup_slice. case_decide; [|done].
    rewrite contents_lookup. case_decide; [done|lia]. }
  pose proof (load_ok (rcvbuf c) off n Hb Hoff) as Hload. rewrite <- Hsl in Hload.
  specialize (Hload ltac:(lia) ltac:(lia)). unfold buffer_load in Hload.
  unfold buffer_call. rewrite Hc, Hr, (proj2 (Z.leb_gt _ _)) by lia. rewrite u64_small by lia.
  replace (if used (rcvbuf c) - off <? n then used (rcvbuf c) - off else n) with n by (zcase; lia).
  set (ro := buffer_realoffset (rcvbuf c) off) in *. set (room := u32 (size (rcvbuf c) - ro)) in *.
  destruct (room <? n) eqn:E1; ztests.
  - destruct (mem_read (data (rcvbuf c)) ro room) as [d1|] eqn:E2; [|done]. cbn [obind] in Hload |- *.
    rewrite app_recv_log. change (conns (log k d1 w)) with (conns w). rewrite Hc.
    assert (Hd1 : zlen d1 = room).
    { unfold mem_read in E2. destruct (_ && _ && _) eqn:E3; [|done]. ztests. injection E2 as <-. zlist. }
    fold room. rewrite Hd1, Z.ltb_irrefl, Hr.
    destruct (mem_read (data (rcvbuf c)) 0 (n - room)) as [d2|] eqn:E4; [|done].
    cbn [obind] in Hload |- *. rewrite app_recv_log. injection Hload as Hload.
    assert (Hd2 : zlen d2 = n - room).
    { unfold mem_read in E4. destruct (_ && _ && _) eqn:E3; [|done]. ztests. injection E4 as <-. zlist. }
    rewrite (proj2 (Z.ltb_ge (zlen d2) 0)) by lia. eexists. split; [do 2 f_equal; lia|]. split; [done|].
    simpl. rewrite !delivered_app, <- app_assoc, Hload. done.
  - rewrite Hload. cbn [obind]. rewrite app_recv_log. eexists. split; [do 2 f_equal|split; [done|]].
    + pose proof (length_contents _ Hb). unfold zlen in *. rewrite length_slice. lia.
    + simpl. by rewrite delivered_app.
Qed.

(** ** The invariant *)

(** [p] bytes of the stream, whose first byte has sequence number [base], have
    been delivered on connection [k]. *)
Definition stream_ok (base : Z) (k : key) (p : nat) (w : world) : Prop :=
  delivered k (dlv (sh w)) = piece 0 p /\
  exists c, conn_at k (conns w) = Some c /\ is_reliable c = true /\ is_Some (recv c) /\ wf_rcv c /\
    rcv_nxt c = u32 (base + Z.of_nat p) /\ sacks_ok p (contents (rcvbuf c)) (sacks c).

(** A segment that carries the stream's bytes from position [q] on. *)
Definition segment (base : Z) (q : nat) (h : hdr) (dat : list Z) : Prop :=
  h_seq h = u32 (base + Z.of_nat q) /\ dat = piece q (length dat).

Definition no_overrun (k : key) (dat : list Z) (w : world) : Prop :=
  forall c, conn_at k (conns w) = Some c ->
    used (rcvbuf c) = 0 \/ zlen dat <= used (rcvbuf c) \/ sk_len (sack_at (sacks c) 1) = 0.

Lemma sacks_empty p q buf buf' l : buf = [] -> sacks_ok p buf l -> sacks_ok q buf' l.
Proof.
  intros ->. apply sacks_mono. intros e (H0 & H1 & H2 & _). unfold zlen in H2. simpl in H2. lia.
Qed.

(** Moving on by [n] bytes of which the buffer holds all or nothing of use. *)
Lemma consume_stream p n c :
  wf_rcv c -> 0 <= n -> sacks_ok p (contents (rcvbuf c)) (sacks c) ->
  used (rcvbuf c) = 0 \/ n <= used (rcvbuf c) \/ sk_len (sack_at (sacks c) 1) = 0 ->
  exists c', (if negb (used (rcvbuf c) =? 0) then sack_consume n c else Done c) = Done c' /\
    rcv_step c c' /\ rcv_nxt c' = rcv_nxt c /\ wf_rcv c' /\
    sacks_ok (p + Z.to_nat n) (contents (rcvbuf c')) (sacks c').
Proof.
  intros Hr Hn Hs Ho. pose proof (length_contents _ (wr_buf _ Hr)) as Hl.
  assert (Hself : rcv_step c c) by (exists (rcvbuf c), (sacks c), (rcv_nxt c); by destruct c).
  destruct (used (rcvbuf c) =? 0) eqn:E0; ztests; cbn [negb].
  { exists c. split; [done|]. split; [done|]. split; [done|]. split; [done|].
    eapply sacks_empty; [|done]. apply nil_length_inv. unfold zlen in Hl. lia. }
  destruct (sack_consume_ok n c Hr Hn) as (c' & Hc' & Hst & Hr' & _). exists c'. split; [done|]. split; [done|].
  unfold sack_consume in Hc'. destruct (used (rcvbuf c) <? n) eqn:E1; ztests.
  - injection Hc' as <-. split; [done|]. split; [done|]. simpl. apply sacks_end.
    destruct Hr as [_ Hl4]. destruct (sacks c) as [|e0 [|e1 l]]; [done|done|].
    assert (He1 : sk_len e1 = 0) by (destruct Ho as [?|[?|?]]; [lia|lia|done]). simpl.
    constructor; [done|]. constructor; [done|].
    inversion Hs as [? Hf|? ? _ Hs']; subst; [by inversion Hf as [|? ? _ Hf2]; inversion Hf2|].
    by eapply sacks_dead.
  - destruct (discard_ok (rcvbuf c) n (wr_buf _ Hr) Hn) as (b' & Hb & Hb' & _ & _ & _ & _ & Hcont).
    rewrite Hb in Hc'. cbn [snd] in Hc'. change (sacks (set_rcvbuf b' c)) with (sacks c) in Hc'.
    destruct (sack_consume_loop 8 0 n (sacks c)) as [l'|] eqn:El; [|done]. injection Hc' as <-.
    split; [done|]. split; [done|]. simpl. rewrite Hcont.
    pose proof (wf_size _ (wr_buf _ Hr)). pose proof (wf_used _ (wr_buf _ Hr)).
    destruct (consume_loop_sacks p (contents (rcvbuf c)) 8 0 n (sacks c) l') as (_ & _ & Hd);
      [apply Hr|done|done|lia|by rewrite drop_0|]. by rewrite drop_0 in Hd.
Qed.

Lemma in_order_stream base k p h dat w :
  stream_ok base k p w -> segment base p h dat -> no_overrun k dat w -> zlen dat < 2 ^ 31 ->
  exists p' w', handle_in_order k dat w = Done w' /\ stream_ok base k p' w' /\ (p + length dat <= p')%nat.
Proof.
  intros (Hd & c & Hc & Hrel & [cb Hcb] & Hr & Hnx & Hs) [_ Hdat] Hno Hlen. specialize (Hno c Hc).
  pose proof (conn_at_key _ _ _ Hc) as Hk. pose proof (length_contents _ (wr_buf _ Hr)) as Hlc.
  pose proof (wf_size _ (wr_buf _ Hr)) as Hsz. pose proof (wf_used _ (wr_buf _ Hr)) as Hus.
  unfold handle_in_order. rewrite Hc, Hcb, app_recv_log, Z.eqb_refl. cbn [obind].
  change (conns (log k dat w)) with (conns w). rewrite Hc.
  assert (Hmid : exists n w1, 0 <= n /\ zlen dat <= n /\ (n = zlen dat \/ n <= used (rcvbuf c)) /\
    (let e := sack_at (sacks c) 0 in
      if negb (sk_len e =? 0) && (sk_offset e <=? zlen dat) && (zlen dat <? u32 (sk_offset e + sk_len e)) then
        let* (rxd, w) := buffer_call k (zlen dat) (u32 (sk_offset e + sk_len e) - zlen dat) (log k dat w) in
        if rxd =? u32 (sk_offset e + sk_len e) - zlen dat then Done (u32 (sk_offset e + sk_len e), w)
        else Stop AbortCalled
      else Done (zlen dat, log k dat w)) = Done (n, w1) /\ conns w1 = conns w /\
    delivered k (dlv (sh w1)) = piece 0 (p + Z.to_nat n)).
  { pose proof (zlen_nonneg dat) as Hz.
    assert (Hdl : delivered k (dlv (sh (log k dat w))) = piece 0 (p + length dat)).
    { simpl. rewrite delivered_app, Hd, piece_app. simpl. by rewrite <- Hdat. }
    cbv zeta. set (e := sack_at (sacks c) 0). destruct (_ && _ && _) eqn:Ec.
    - apply andb_true_iff in Ec as [[E1 E2]%andb_true_iff E3]. ztests.
      assert (Hsk : sacks c = e :: drop 1 (sacks c)).
      { subst e. destruct Hr as [_ Hl4]. by destruct (sacks c). }
      rewrite Hsk in Hs. destruct (sacks_head _ _ _ _ Hs E1) as [(G0 & G1 & G2 & G3) _].
      rewrite u32_small in E3 |- * by lia. set (n := sk_offset e + sk_len e) in *.
      destruct (buffer_call_stream k c cb (zlen dat) (n - zlen dat) (log k dat w)) as (w1 & Hw1 & Hcs & Hdw);
        [done|done|apply Hr|lia|lia|lia|].
      rewrite Hw1. cbn [obind]. rewrite Z.eqb_refl. exists n, w1. split; [lia|]. split; [lia|]. split; [right; lia|].
      split; [done|]. split; [done|]. rewrite Hdw, Hdl.
      replace (p + Z.to_nat n)%nat with (p + length dat + (Z.to_nat n - length dat))%nat by (unfold zlen in *; lia).
      rewrite (piece_app 0 (p + length dat)), Nat.add_0_l. apply (f_equal (app _)), list_eq. intros i. rewrite lookup_slice.
      case_decide as Hi.
      + rewrite piece_lookup by (unfold zlen in *; lia). rewrite G3 by (unfold zlen in *; lia).
        do 2 f_equal. unfold zlen. lia.
      + symmetry. apply lookup_ge_None. rewrite length_piece. unfold zlen in *. lia.
    - exists (zlen dat), (log k dat w). split; [done|]. split; [done|]. split; [by left|]. split; [done|]. split; [done|].
      rewrite Hdl. f_equal. unfold zlen. lia. }
  cbv zeta in Hmid |- *. destruct Hmid as (n & w1 & Hn0 & Hn1 & Hn2 & -> & Hcs & Hdl). cbn [obind].
  destruct (consume_stream p n c Hr Hn0 Hs) as (c' & Hc' & Hst & Hnx' & Hr' & Hs').
  { destruct Hn2 as [->|?]; [tauto|]. right; by left. }
  unfold on_conn. rewrite Hcs, Hc, Hc'. cbn [obind].
  exists (p + Z.to_nat n)%nat. eexists. split; [done|]. split; [|unfold zlen in *; lia].
  split; [done|]. exists (set_rcv_nxt (u32 (rcv_nxt c' + n)) c'). simpl.
  pose proof (rcv_step_key _ _ Hst) as Hk'. rewrite conn_at_put. change (key_of (set_rcv_nxt _ c')) with (key_of c').
  rewrite bool_decide_true, Hc by congruence. split; [done|].
  destruct Hst as (b & l & m & ->). split; [done|]. split; [by exists cb|]. split; [by destruct Hr'; constructor|].
  split; [|done]. rewrite Hnx', Hnx, u32_add_l. f_equal. lia.
Qed.

Lemma out_of_order_stream base k p q h dat w :
  stream_ok base k p w -> segment base q h dat -> (p < q)%nat -> Z.of_nat q - Z.of_nat p < 2 ^ 31 ->
  zlen dat < 2 ^ 31 ->
  exists w', (let* (_, w) := on_conn k w (fun c s =>
       let* r := handle_out_of_order (Z.of_nat q - Z.of_nat p) dat c s in Done (tt, r)) in Done w) = Done w' /\
    stream_ok base k p w'.
Proof.
  intros (Hd & c & Hc & Hrel & Hcb & Hr & Hnx & Hs) [_ Hdat] Hpq Hdist Hlen.
  pose proof (conn_at_key _ _ _ Hc) as Hk. set (off := Z.of_nat q - Z.of_nat p) in *.
  assert (Hfin : forall b l s, dlv s = dlv (sh w) -> wf_rcv (set_sacks l (set_rcvbuf b c)) -> sacks_ok p (contents b) l ->
    stream_ok base k p (World s (put_conn (set_sacks l (set_rcvbuf b c)) (conns w)))).
  { intros b l s Hds Hwf Hok. split; [simpl; by rewrite Hds|]. exists (set_sacks l (set_rcvbuf b c)). simpl.
    rewrite conn_at_put, bool_decide_true, Hc by done. done. }
  unfold on_conn. rewrite Hc. unfold handle_out_of_order, next_alloc. cbn beta iota.
  pose proof (wr_buf _ Hr) as Hb. pose proof (wr_sacks _ Hr) as Hl4. pose proof (zlen_nonneg dat) as Hz.
  destruct (put_at_cases (allocs (tick (sh w))) (rcvbuf c) off dat) as
    [(? & ? & ->)|[(_ & Hal & _)|(_ & _ & b' & -> & Hb' & _ & _ & Heff)]];
    [done|lia|lia| |by rewrite Halloc in Hal|]; cbn [obind].
  - eexists. split; [done|]. cbn [obind]. specialize (Hfin (rcvbuf c) (sacks c)).
    assert (Hid : set_sacks (sacks c) (set_rcvbuf (rcvbuf c) c) = set_rcvbuf (rcvbuf c) c) by (by destruct c).
    rewrite Hid in Hfin. apply Hfin; [done| |done]. by constructor.
  - set (m := put_len (rcvbuf c) off (zlen dat)) in *.
    assert (Hm : 0 <= m <= zlen dat) by (subst m; unfold put_len; lia).
    set (d := take (Z.to_nat m) dat) in *.
    assert (Hdl : zlen d = m) by (subst d; zlist).
    assert (Hdp : d = piece (p + Z.to_nat off) (length d)).
    { assert (Hle : length d = Z.to_nat m) by (unfold zlen in *; lia). rewrite Hle. subst d. rewrite Hdat.
      rewrite piece_take by (unfold zlen in *; lia). f_equal. lia. }
    destruct (put_positions p (rcvbuf c) off d b' Hb Hb' Heff) as [Hold Hnew]; [lia|done|].
    pose proof (sacks_mono _ _ _ _ _ Hold Hs) as Hs'.
    pose proof (length_contents _ Hb') as Hlc'. pose proof (wf_size _ Hb'). pose proof (wf_used _ Hb').
    zcase; (eexists; split; [done|]).
    + assert (Hid : set_sacks (sacks c) (set_rcvbuf b' c) = set_rcvbuf b' c) by (by destruct c).
      rewrite <- Hid. apply Hfin; [done|by constructor|done].
    + apply Hfin; [done| |]; change (sacks (set_rcvbuf b' c)) with (sacks c).
      * constructor; [done|]. cbn -[sack_note]. by apply sack_note_length.
      * rewrite note_eq by done. rewrite take_0, drop_0. simpl. apply note_ok; [done| |lia].
        rewrite <- Hdl. apply Hnew. lia.
Qed.

(** ** Segments in any order *)

(** A segment from position [q] on may arrive when [p] bytes were delivered: it
    starts there or later, within half the sequence space. *)
Definition acceptable (base : Z) (k : key) (p q : nat) (h : hdr) (dat : list Z) (w : world) : Prop :=
  segment base q h dat /\ (p <= q)%nat /\ Z.of_nat q - Z.of_nat p < 2 ^ 31 /\ zlen dat < 2 ^ 31 /\
  (q = p -> no_overrun k dat w).

Lemma segment_step base k p q h dat w :
  stream_ok base k p w -> acceptable base k p q h dat w ->
  exists p' w', handle_incoming_data k h dat w = Done w' /\ stream_ok base k p' w' /\
    (p <= p')%nat /\ (q = p -> (p + length dat <= p')%nat).
Proof.
  intros Hok (Hseg & Hpq & Hdist & Hlen & Hno). destruct (Hok) as (_ & c & Hc & Hrel & _ & _ & Hnx & _).
  unfold handle_incoming_data. rewrite Hc, Hrel. cbn [negb].
  assert (Hoff : seqdiff (h_seq h) (rcv_nxt c) = Z.of_nat q - Z.of_nat p).
  { apply seqdiff_of; [|lia]. destruct Hseg as [-> _]. rewrite Hnx, u32_add_l. f_equal. lia. }
  rewrite Hoff, u32_small by lia. destruct (decide (q = p)) as [->|Hne].
  - rewrite Z.sub_diag. destruct (in_order_stream base k p h dat w) as (p' & w' & Hw & Hok' & Hp); [auto..|].
    exists p', w'. split; [done|]. split; [done|]. split; [lia|done].
  - rewrite (proj2 (Z.eqb_neq _ 0)) by lia. cbn [negb].
    destruct (out_of_order_stream base k p q h dat w) as (w' & Hw & Hok'); [done|done|lia|lia|done|].
    exists p, w'. split; [done|]. split; [done|]. split; [lia|]. by intros ->.
Qed.

(** The arrival of one acceptable segment. *)
Definition arrival (base : Z) (k : key) (w w' : world) : Prop :=
  exists p q h dat, stream_ok base k p w /\ acceptable base k p q h dat w /\
    handle_incoming_data k h dat w = Done w'.

End Stream.

(** C2.  Integrity and progress of the received stream.  Assume that every allocation
    succeeds, that the application's [recv] takes all the data it is handed and calls
    nothing, and that each segment is [acceptable]: its bytes are those of the
    sender's stream from a position that was not yet delivered and is less than half the
    sequence space ahead, and an in-order segment is not longer than all
    the data buffered behind it while that data lies in two or more ranges ([no_overrun]:
    [sack_consume] would then drop the first range only, see
    [UtcpDefects.stale_sack_aborts]).  Then, in whatever order such segments arrive, repeated
    or overlapping, processing each of them returns, and the bytes handed to the application so far are
    always exactly the first bytes of the stream, none missing, repeated or
    altered; an in-order segment is delivered at once and completely, together
    with the buffered data that follows it. *)
Theorem received_stream_integrity (str : nat -> Z) `{Env} base k p w w1 :
  (forall cb k d w, on_recv cb k (Some d) w = (zlen d, w)) ->
  (forall n, a_ok (allocs n) = true) ->
  stream_ok str base k p w -> rtc (arrival str base k) w w1 ->
  exists p1, (p <= p1)%nat /\ stream_ok str base k p1 w1 /\
    delivered k (dlv (sh w1)) = piece str 0 p1 /\
    forall q h dat, acceptable str base k p1 q h dat w1 ->
      exists p2 w2, handle_incoming_data k h dat w1 = Done w2 /\ stream_ok str base k p2 w2 /\
        (p1 <= p2)%nat /\ (q = p1 -> (p1 + length dat <= p2)%nat).
Proof.
  intros Happ Ha Hok Hr. 
  assert (exists p1, (p <= p1)%nat /\ stream_ok str base k p1 w1) as (p1 & Hp1 & Hok1).
  { revert p Hok. induction Hr as [w|w w' w1 (p0 & q & h & dat & H0 & Hacc & Hs) _ IH]; intros p Hok; [by exists p|].
    destruct (segment_step str Happ Ha base k p0 q h dat w H0 Hacc) as (p' & w2 & Hw2 & Hok' & Hle & _).
    rewrite Hs in Hw2. injection Hw2 as <-. destruct (IH p' Hok') as (p1 & ? & ?).
    exists p1. split; [|done]. transitivity p'; [|done]. transitivity p0; [|done].
    destruct Hok as [E1 _], H0 as [E2 _]. rewrite E1 in E2. apply (f_equal length) in E2.
    rewrite !length_piece in E2. lia. }
  exists p1. split; [done|]. split; [done|]. split; [apply Hok1|]. intros q h dat. by apply segment_step.
Qed.

(** The stream 0, 1, 2, ... from sequence number 1000 on: bytes 5 to 7 arrive
    before bytes 0 to 4. *)
Definition sim_stream (n : nat) : Z := Z.of_nat n mod 256.

Definition sim_data (seq : Z) : hdr := Hdr 9 80 seq 500 65535 ACK 0.

Definition sim_late : world :=
  match @handle_incoming_data EA (80, 9) (sim_data 1005) [5; 6; 7] sim_world with Done w => w | Stop _ => sim_world end.

Lemma sim_stream_start : stream_ok sim_stream 1000 (80, 9) 0 sim_world.
Proof.
  split; [done|]. exists sim_conn. split; [done|]. split; [done|]. split; [by eexists|].
  split; [exact sim_conn_rcv|]. split; [done|]. apply sacks_end. by repeat constructor.
Qed.

Lemma sim_acceptable_late :
  acceptable sim_stream 1000 (80, 9) 0 5 (sim_data 1005) [5; 6; 7] sim_world.
Proof. split; [done|]. split; [lia|]. split; [lia|]. split; [done|]. intros [=]. Qed.

Lemma received_stream_integrity_witness :
  exists p w, rtc (@arrival sim_stream EA 1000 (80, 9)) sim_world sim_late /\
    @handle_incoming_data EA (80, 9) (sim_data 1000) [0; 1; 2; 3; 4] sim_late = Done w /\
    (5 <= p)%nat /\ delivered (80, 9) (dlv (sh w)) = piece sim_stream 0 p.
Proof.
  assert (Hr : rtc (@arrival sim_stream EA 1000 (80, 9)) sim_world sim_late).
  { apply rtc_once. exists 0%nat, 5%nat, (sim_data 1005), [5; 6; 7].
    split; [exact sim_stream_start|]. split; [exact sim_acceptable_late|]. vm_compute. reflexivity. }
  destruct (@received_stream_integrity sim_stream EA 1000 (80, 9) 0 sim_world sim_late)
    as (p1 & _ & Hok & Hd & Hnext); [done|done|exact sim_stream_start|exact Hr|].
  assert (p1 = 0)%nat as ->.
  { apply (f_equal length) in Hd. rewrite length_piece in Hd. rewrite <- Hd. by vm_compute. }
  destruct (Hnext 0%nat (sim_data 1000) [0; 1; 2; 3; 4]) as (p2 & w2 & Hw & Hok2 & _ & Hp).
  { split; [done|]. split; [lia|]. split; [lia|]. split; [done|]. intros _ c Hc. right; right.
    vm_compute in Hc. injection Hc as <-. reflexivity. }
  exists p2, w2. split; [exact Hr|]. split; [exact Hw|]. split; [by apply Hp|]. apply Hok2.
Defined.
