(* ===== verification/UtcpTheorems.v ===== *)
(** The theorems about UTCP as a whole. *)
From stdpp Require Import relations sorting.
From S2P Require Import Prelude Bytes UtcpBuffer UtcpTypes UtcpTimer UtcpTable UtcpSend UtcpInput UtcpRecv UtcpApi UtcpInv UtcpWorld UtcpCalls UtcpRecvSafe UtcpSim.

(** ** Executions *)

Inductive event :=
  | EPacket (bs : list Z)
  | ETimeout
  | ECall (cl : call).

Definition run_event `{Env} (e : event) (w : world) : outcome world :=
  match e with
  | EPacket bs => let* (_, w) := utcp_recv (Some bs) (zlen bs) w in Done w
  | ETimeout => let* (_, w) := utcp_timeout w in Done w
  | ECall cl => let* (_, w) := run_call cl w in Done w
  end.

Definition valid_event (e : event) (w : world) : Prop :=
  match e with
  | EPacket bs => bytes_ok bs /\ zlen bs < 2 ^ 32
  | ETimeout => True
  | ECall cl => valid_call cl w
  end.

(** The worlds an execution can be in: [utcp_init], then packets off the wire,
    timeouts and calls, in any order. *)
Inductive reachable `{Env} : world -> Prop :=
  | reach_init accept listen prv g res t w :
      utcp_init accept listen true prv g res t = Some w -> reachable w
  | reach_step e w w' :
      reachable w -> valid_event e w -> run_event e w = Done w' -> reachable w'.

Lemma init_wf `{Env} accept listen prv g res t w :
  (forall n, a_ok (allocs n) = true) ->
  utcp_init accept listen true prv g res t = Some w -> wf_world w.
Proof.
  intros Ha. unfold utcp_init, next_alloc. cbn [negb]. rewrite Ha. cbn [negb].
  unfold utcp_set_mtu, next_alloc. simpl. rewrite Ha. cbn [negb]. simpl.
  assert (Hl : forall al, zlen (mem_realloc al [] 1000) = 1000) by (intros al; by apply length_realloc).
  destruct (g =? 0); intros [= <-]; (constructor; [|constructor; simpl; rewrite ?Hl; done || lia|constructor]);
    (constructor; [constructor|done|done]).
Qed.

Section Execution.
Context {E : Env} {HA : AppOk E} {HQ : AppQuiet E}.

Lemma event_ok e w :
  wf_world w -> valid_event e w -> safe (run_event e w) (fun w' => wf_world w' /\ ends w w').
Proof.
  intros Hw Hv. destruct e as [bs| |cl]; cbn [run_event valid_event] in *.
  - eapply safe_bind; [apply utcp_recv_ok; [done| |apply Hv]|by intros [r w']].
    intros x [= <-]. by destruct Hv.
  - eapply safe_bind; [apply returns_safe; by apply utcp_timeout_ok|by intros [r w']].
  - eapply safe_bind; [apply returns_safe, run_call_ok; [apply ao_alloc|done|done]|].
    intros [r w'] (? & ? & _). split; [done|by apply moves_ends].
Qed.

Lemma reachable_wf w : reachable w -> wf_world w.
Proof.
  induction 1 as [? ? ? ? ? ? ? Hi|e w w' _ Hw Hv Hr]; [eapply init_wf; [apply ao_alloc|done]|].
  pose proof (event_ok e w Hw Hv) as Hs. rewrite Hr in Hs. apply Hs.
Qed.


(** The connection state machine.  Under the assumptions of [execution_safe], each event moves the
    state of every connection that is left along the edges of [edge]: RFC 793's
    transitions, with [utcp_shutdown] in CLOSE_WAIT going to CLOSING and an abort
    possible from every state.  CLOSED is final: a closed connection is never
    reopened. *)
Theorem state_machine w e w' k c c' :
  reachable w -> valid_event e w -> run_event e w = Done w' ->
  conn_at k (conns w) = Some c -> conn_at k (conns w') = Some c' ->
  rtc edge (state c) (state c') /\ (state c = CLOSED -> state c' = CLOSED).
Proof.
  intros Hr%reachable_wf Hv He Hc Hc'. pose proof (event_ok e w Hr Hv) as Hs. rewrite He in Hs.
  destruct Hs as [_ Hs]. specialize (Hs k c c' Hc Hc'). split; [done|]. intros Hcl.
  unfold later in Hs. rewrite Hcl in Hs. clear -Hs. remember CLOSED as st eqn:Est. induction Hs; [done|].
  subst. inversion H; subst. by apply IHHs.
Qed.

End Execution.

(** ** Sending *)

Lemma s32_le x : - 2 ^ 31 <= x -> s32 x <= x.
Proof.
  intros Hx. unfold s32. pose proof (Z.mod_le (x + 2 ^ 31) (2 ^ 32)). lia.
Qed.

(** What the windows leave. *)
Lemma ack_left_window b c s l :
  wf_snd c -> is_reliable c = true -> 0 <= snd_wnd c -> 1 <= u_mss s -> ack_left b c s = Done l ->
  l <= Z.max 0 (Z.min (snd_cwnd c) (snd_wnd c) - seqdiff (snd_nxt c) (snd_una c)).
Proof.
  intros Hc Hr Hw Hm. unfold ack_left. rewrite Hr. pose proof (ws_order _ Hc). pose proof (ws_cwnd _ Hc).
  pose proof (seqdiff_range (snd_nxt c) (snd_una c)).
  pose proof (s32_le (Z.min (snd_cwnd c) (snd_wnd c) - seqdiff (snd_nxt c) (snd_una c))) as Hs.
  set (x := s32 _) in *. destruct (assert_ _); [|done]. cbn [obind].
  destruct (x <=? 0) eqn:E1; ztests; [intros [= <-]; lia|].
  destruct (x <? _) eqn:E2; ztests; [|intros [= <-]; lia].
  destruct (_ || _); [|intros [= <-]; lia]. rewrite (proj2 (Z.eqb_neq _ 0)) by lia.
  intros [= <-]. pose proof (Z.rem_bound_pos x (u_mss s)). lia.
Qed.

(** C6.  What [ack] transmits.  On a well-formed connection it returns; the
    packets it hands to the network have consecutive sequence numbers from
    [snd.nxt], none longer than the maximum segment size; their payloads together
    are the next bytes of the send buffer (our FIN, when it is among the numbers
    sent, takes one number and no byte); [snd.nxt] advances by what was sent,
    never past [snd.last]; a reliable connection sends no more than the congestion
    window and the peer's window leave; and with [sendatleastone] at least one
    packet is sent. *)
Theorem ack_transmits_next_bytes `{Env} cap b c s :
  wf_snd c -> wf_shared cap s -> buffered c -> 0 <= snd_wnd c ->
  exists c' s' ps n, ack b c s = Done (c', s') /\ wf_snd c' /\ wf_shared cap s' /\
    out s' = out s ++ ps /\ segments (u_mss s) (snd_nxt c) ps /\ (b = true -> ps <> []) /\
    0 <= n <= seqdiff (snd_last c) (snd_nxt c) /\ snd_nxt c' = u32 (snd_nxt c + n) /\
    payload ps = slice (Z.to_nat (seqdiff (snd_nxt c) (snd_una c))) (Z.to_nat (n - fin_bit c n))
                   (contents (sndbuf c)) /\
    (is_reliable c = true ->
       n <= Z.max 0 (Z.min (snd_cwnd c) (snd_wnd c) - seqdiff (snd_nxt c) (snd_una c))).
Proof.
  intros Hc Hs Hb Hw. destruct (ack_ok b c s Hc Hs) as
    (c' & s' & ps & l & Hack & Hleft & Hl & Hup & Hc' & Hsp & Hs' & Hn & Hseg & Hne & Hp).
  exists c', s', ps, l. repeat (split; [done|]). split; [by destruct Hsp as (? & ? & -> & _)|].
  repeat (split; [by auto|]). intros Hr. eapply ack_left_window; try done. apply Hs.
Qed.

(** [utcp_send] on a reliable connection, when the allocator does not fail:
    it returns; either it accepts nothing, returns -1 or 0 and leaves the
    connection exactly as it was, or it returns the number of bytes it accepted, at
    most what was offered and what the send buffer has room for, those bytes have
    been appended to the send buffer, and [snd.last] has advanced by as much.
    The receiving half and the state never change. *)
Theorem utcp_send_appends `{Env} cap d c s :
  wf_snd c -> wf_shared cap s -> (forall n, a_ok (allocs n) = true) -> is_reliable c = true ->
  zlen d < 2 ^ 62 ->
  exists r c' s', utcp_send (Some d) (zlen d) c s = Done (r, (c', s')) /\
    wf_snd c' /\ wf_shared cap s' /\ frame_rcv c c' /\ state c' = state c /\
    (c' = c /\ (r = -1 \/ r = 0) \/
     0 < r <= zlen d /\ r <= buffer_free (sndbuf c) /\
     contents (sndbuf c') = contents (sndbuf c) ++ take (Z.to_nat r) d /\
     snd_last c' = u32 (snd_last c + r) /\ snd_una c' = snd_una c).
Proof.
  intros Hc Hs Ha Hr Hd. pose proof (zlen_nonneg d) as Hz.
  pose proof (utcp_send_ok (Some d) (zlen d) c s Hc Hs Ha) as Hok.
  apply returns_done in Hok as ([r [c' s']] & E & H1 & H2 & H3 & H4 & H5); [|by intros x [= ->]|lia].
  exists r, c', s'. repeat (split; [done|]). by apply H5.
Qed.

(** The errors of [utcp_send], in the order the code tests them: a closed
    handle gives EBADF, an unconnected state ENOTCONN, a state in which one side
    has finished EPIPE, a missing buffer EFAULT; each returns -1, sets [errno] and
    changes nothing else. *)
Theorem utcp_send_errors `{Env} dat len c s e :
  (reapable c = true /\ e = EBADF) \/
  (reapable c = false /\ (state c = CLOSED \/ state c = LISTEN) /\ e = ENOTCONN) \/
  (reapable c = false /\
     (state c = CLOSE_WAIT \/ state c = FIN_WAIT_1 \/ state c = FIN_WAIT_2 \/ state c = CLOSING \/
      state c = LAST_ACK \/ state c = TIME_WAIT) /\ e = EPIPE) \/
  (reapable c = false /\ (state c = SYN_SENT \/ state c = SYN_RECEIVED \/ state c = ESTABLISHED) /\
     dat = None /\ len <> 0 /\ e = EFAULT) ->
  utcp_send dat len c s = Done (-1, (c, set_errno e s)).
Proof.
  unfold utcp_send. intros [[-> ->]|[(-> & Hst & ->)|[(-> & Hst & ->)|(-> & Hst & -> & Hl & ->)]]]; [done|..].
  - by destruct Hst as [-> | ->].
  - by repeat destruct Hst as [->|Hst]; [..|rewrite Hst].
  - rewrite (proj2 (Z.eqb_neq len 0) Hl). by destruct Hst as [->|[-> | ->]].
Qed.

(** ** Acknowledgements *)

(** C7.  Processing an acknowledgement.  On any header and any open well-formed
    connection it returns, with none of its [assert]s failing: a number outside
    [snd.una, snd.last] is refused and the connection is left exactly as it was;
    any other moves [snd.una] to it, never past [snd.last], keeps the sequence
    numbers ordered and the receiving half alone, and changes the state only when
    it acknowledges our FIN. *)
Theorem acknowledgement_processing `{Env} cap r c s :
  wf_snd c -> wf_shared cap s -> 0 <= h_ack (rx_hdr r) < 2 ^ 32 -> state c <> CLOSED ->
  exists a c' s', process_ack r c s = Done (a, (c', s')) /\ wf_snd c' /\ wf_shared cap s' /\
    frame_rcv c c' /\ ack_state (state c) (state c') /\
    match a with
    | None => c' = c /\ has (rx_hdr r) ACK = true /\
        (0 < seqdiff (h_ack (rx_hdr r)) (snd_last c) \/ seqdiff (h_ack (rx_hdr r)) (snd_una c) < 0)
    | Some adv => 0 <= adv <= seqdiff (snd_last c) (snd_una c) /\ snd_last c' = snd_last c /\
        snd_una c' = u32 (snd_una c + adv) /\
        (has (rx_hdr r) ACK = true -> snd_una c' = h_ack (rx_hdr r))
    end.
Proof.
  intros Hc Hs Ha Hst. pose proof (process_ack_ok r c s Hc Hs Ha Hst) as Hok.
  apply returns_done in Hok as ([a [c' s']] & E & H1 & H2 & H3 & H4 & H5 & H6).
  exists a, c', s'. repeat (split; [done|]).
  unfold process_ack in E. destruct (has (rx_hdr r) ACK) eqn:Eh; cbn [negb] in E.
  2:{ injection E as <- <- <-. destruct H6 as (? & ? & ?). by repeat (split; [done|]). }
  destruct ((0 <? _) || _) eqn:Eo.
  { injection E as <- <- <-. split; [done|]. split; [done|].
    apply orb_true_iff in Eo as [Eo|Eo]; ztests; [by left|by right]. }
  apply orb_false_iff in Eo as [Eo1 Eo2]. ztests.
  destruct (if negb _ then _ else _) as [[c1 s1]|]; [|done]. cbn [obind] in E.
  destruct (ack_timers _ c1 s1) as [[c2 s2]|]; [|done]. injection E as <- <- <-.
  destruct H6 as (Hr & Hu & Hl). split; [done|]. split; [done|]. split; [done|]. intros _. rewrite Hu.
  rewrite u32_add_r. by apply seqdiff_add.
Qed.

(** ** The theorems at work *)



(** An open, and the SYNACK that answers it. *)
Definition sim_open : event := ECall (CConnect 80 (Some 1) 0 UTCP_TCP).

Definition sim_synack : list Z :=
  packet_bytes (Packet (Hdr 80 33770 9000 1006 65535 (Z.lor SYN ACK) 0) []).

Definition done_or {A} (d : A) (m : outcome A) : A := match m with Done a => a | Stop _ => d end.

Definition sim_w0 : world := default empty_world (sim_init EA).
Definition sim_w1 : world := done_or empty_world (@run_event EA sim_open sim_w0).
Definition sim_w2 : world := done_or empty_world (@run_event EA (EPacket sim_synack) sim_w1).

Lemma state_machine_witness :
  exists c c', conn_at (33770, 80) (conns sim_w1) = Some c /\ conn_at (33770, 80) (conns sim_w2) = Some c' /\
    @run_event EA (EPacket sim_synack) sim_w1 = Done sim_w2 /\ state c = SYN_SENT /\ state c' = ESTABLISHED /\
    rtc edge (state c) (state c').
Proof.
  assert (E0 : sim_init EA = Some sim_w0) by (vm_compute; reflexivity).
  assert (E1 : @run_event EA sim_open sim_w0 = Done sim_w1) by (vm_compute; reflexivity).
  assert (E2 : @run_event EA (EPacket sim_synack) sim_w1 = Done sim_w2) by (vm_compute; reflexivity).
  assert (Hr : @reachable EA sim_w1).
  { apply (@reach_step EA sim_open sim_w0); [exact (@reach_init EA (Some 1) (Some 1) 0 0 (Timespec 0 1) 0%nat _ E0)|done|exact E1]. }
  exists (default conn_zero (conn_at (33770, 80) (conns sim_w1))),
         (default conn_zero (conn_at (33770, 80) (conns sim_w2))).
  assert (Ec : conn_at (33770, 80) (conns sim_w1) =
    Some (default conn_zero (conn_at (33770, 80) (conns sim_w1)))) by (vm_compute; reflexivity).
  assert (Ec' : conn_at (33770, 80) (conns sim_w2) =
    Some (default conn_zero (conn_at (33770, 80) (conns sim_w2)))) by (vm_compute; reflexivity).
  split; [exact Ec|]. split; [exact Ec'|]. split; [exact E2|].
  split; [vm_compute; reflexivity|]. split; [vm_compute; reflexivity|].
  apply (@state_machine EA _ _ sim_w1 (EPacket sim_synack) sim_w2 (33770, 80) _ _ Hr); [|exact E2|exact Ec|exact Ec'].
  split; [repeat constructor; vm_compute; congruence|vm_compute; reflexivity].
Defined.

Lemma ack_transmits_next_bytes_witness :
  exists c' s' ps, @ack EA false sim_conn sim_shared = Done (c', s') /\ out s' = ps /\
    payload ps = [7; 8; 9] /\ snd_nxt c' = 503.
Proof.
  destruct (@ack_transmits_next_bytes EA 4 false sim_conn sim_shared) as
    (c' & s' & ps & n & E & _ & _ & Ho & _ & _ & Hn & Hx & Hp & _);
    [exact sim_conn_wf|exact sim_shared_wf|by vm_compute|done|].
  exists c', s', ps. split; [done|]. split; [exact Ho|].
  assert (Hc : snd_nxt c' = 503) by (vm_compute in E; by injection E as <- <-).
  split; [|done]. rewrite Hp. rewrite Hc in Hx.
  assert (n = 3) as ->; [|by vm_compute].
  change (seqdiff (snd_last sim_conn) (snd_nxt sim_conn)) with 3 in Hn. change (snd_nxt sim_conn) with 500 in Hx.
  rewrite u32_small in Hx; lia.
Defined.

Lemma utcp_send_appends_witness :
  exists r c' s', @utcp_send EA (Some [1; 2]) 2 sim_conn sim_shared = Done (r, (c', s')) /\
    r = 2 /\ contents (sndbuf c') = [7; 8; 9; 1; 2] /\ snd_last c' = 505.
Proof.
  destruct (@utcp_send_appends EA 4 [1; 2] sim_conn sim_shared) as
    (r & c' & s' & E & _ & _ & _ & _ & [[_ Hr]|(_ & _ & Hc & Hl & _)]);
    [exact sim_conn_wf|exact sim_shared_wf|done|done|by vm_compute| |].
  - exfalso. vm_compute in E. injection E as <- _ _. by destruct Hr.
  - exists r, c', s'. split; [exact E|]. assert (r = 2) as -> by (vm_compute in E; by injection E as <- _ _).
    split; [done|]. split; [by rewrite Hc|by rewrite Hl].
Defined.

Lemma utcp_send_errors_witness :
  @utcp_send EA None 5 sim_conn sim_shared = Done (-1, (sim_conn, set_errno EFAULT sim_shared)).
Proof. 
  apply (@utcp_send_errors EA None 5 sim_conn sim_shared EFAULT). do 3 right. split; [reflexivity|].
  split; [right; right; reflexivity|]. split; [reflexivity|]. split; [discriminate|reflexivity].
Defined.

Lemma acknowledgement_processing_witness :
  exists a c' s', @process_ack EA (Rx (Hdr 9 80 1000 502 65535 ACK 0) [] 0) sim_conn sim_shared =
    Done (a, (c', s')) /\ wf_snd c' /\ snd_una c' = 502.
Proof.
  destruct (@acknowledgement_processing EA 4 (Rx (Hdr 9 80 1000 502 65535 ACK 0) [] 0) sim_conn sim_shared)
    as (a & c' & s' & E & Hw & _ & _ & _ & Ha); [exact sim_conn_wf|exact sim_shared_wf|by vm_compute|by vm_compute|].
  exists a, c', s'. split; [done|]. split; [done|]. destruct a as [adv|].
  - destruct Ha as (_ & _ & _ & Hu). by apply Hu.
  - exfalso. vm_compute in E. discriminate E.
Defined.
