(* ===== verification/UtcpDefects.v ===== *)
(** Behaviours of UTCP that are not what the code, its comments or RFC 793 mean,
    each as a theorem about the model. *)
From stdpp Require Import relations sorting.
From S2P Require Import Prelude Bytes UtcpBuffer UtcpTypes UtcpTimer UtcpTable UtcpSend UtcpInput UtcpRecv UtcpApi UtcpInv UtcpWorld UtcpCalls UtcpRecvSafe UtcpSim.

(** ** Headers on the wire *)

Record hdr_ok (h : hdr) : Prop := {
  ho_src : 0 <= h_src h < 2 ^ 16;
  ho_dst : 0 <= h_dst h < 2 ^ 16;
  ho_seq : 0 <= h_seq h < 2 ^ 32;
  ho_ack : 0 <= h_ack h < 2 ^ 32;
  ho_wnd : 0 <= h_wnd h < 2 ^ 32;
  ho_ctl : 0 <= h_ctl h < 2 ^ 16;
  ho_aux : 0 <= h_aux h < 2 ^ 16;
}.

Lemma length_hdr_bytes h : length (hdr_bytes h) = 20%nat.
Proof. unfold hdr_bytes. by rewrite !length_app, !length_le_bytes. Qed.

Lemma hdr_bytes_inv h d : hdr_ok h -> hdr_of_bytes (hdr_bytes h ++ d) = h.
Proof.
  intros []. unfold hdr_of_bytes, hdr_bytes.
  assert (Hs : forall o n (a b l : list Z), length a = o -> length b = n ->
    slice o n (a ++ b ++ l) = b).
  { intros o n a b l <- <-. unfold slice. by rewrite drop_app_length, take_app_length. }
  set (l1 := le_bytes 2 (h_src h)). set (l2 := le_bytes 2 (h_dst h)). set (l3 := le_bytes 4 (h_seq h)).
  set (l4 := le_bytes 4 (h_ack h)). set (l5 := le_bytes 4 (h_wnd h)). set (l6 := le_bytes 2 (h_ctl h)).
  set (l7 := le_bytes 2 (h_aux h)). rewrite <- !app_assoc.
  assert (Hl : length l1 = 2%nat /\ length l2 = 2%nat /\ length l3 = 4%nat /\ length l4 = 4%nat /\
    length l5 = 4%nat /\ length l6 = 2%nat /\ length l7 = 2%nat)
    by (subst l1 l2 l3 l4 l5 l6 l7; by rewrite !length_le_bytes).
  destruct Hl as (H1 & H2 & H3 & H4 & H5 & H6 & H7).
  pose proof (Hs 0%nat 2%nat [] l1) as H0. cbn [app] in H0. rewrite H0 by done.
  rewrite (Hs 2%nat 2%nat l1 l2) by done.
  rewrite (app_assoc l1), (Hs 4%nat 4%nat _ l3) by (rewrite ?length_app; lia).
  rewrite (app_assoc _ l3), (Hs 8%nat 4%nat _ l4) by (rewrite ?length_app; lia).
  rewrite (app_assoc _ l4), (Hs 12%nat 4%nat _ l5) by (rewrite ?length_app; lia).
  rewrite (app_assoc _ l5), (Hs 16%nat 2%nat _ l6) by (rewrite ?length_app; lia).
  rewrite (app_assoc _ l6), (Hs 18%nat 2%nat _ l7) by (rewrite ?length_app; lia).
  subst l1 l2 l3 l4 l5 l6 l7. rewrite !le_val_bytes by (simpl; lia). by destruct h.
Qed.

(** Headers survive the wire: reading a header from the bytes a packet was
    sent as gives the header back, and the rest of the bytes is the payload. *)
Theorem header_round_trip p :
  hdr_ok (p_hdr p) ->
  hdr_of_bytes (packet_bytes p) = p_hdr p /\ drop (Z.to_nat sizeof_hdr) (packet_bytes p) = p_data p.
Proof.
  intros H. split; [by apply hdr_bytes_inv|]. unfold packet_bytes.
  by rewrite drop_app_length' by (by rewrite length_hdr_bytes).
Qed.

Lemma header_round_trip_witness :
  hdr_of_bytes (packet_bytes (Packet (Hdr 9 80 4294967295 1 65535 ACK 0) [1; 2])) =
  Hdr 9 80 4294967295 1 65535 ACK 0.
Proof.
  apply (header_round_trip (Packet (Hdr 9 80 4294967295 1 65535 ACK 0) [1; 2])).
  constructor; simpl; unfold ACK; lia.
Defined.

(** ** A packet for a closed connection *)

(** A table whose entry for [k] is closed. *)
Definition closed_at (k : key) (w : world) : Prop :=
  sorted (conns w) /\ exists c, conn_at k (conns w) = Some c /\ state c = CLOSED.

Lemma closed_recv `{Env} h w :
  hdr_ok h -> h_aux h = 0 -> Z.ldiff (h_ctl h) 31 = 0 -> closed_at (h_dst h, h_src h) w ->
  let b := packet_bytes (Packet h []) in
  utcp_recv (Some b) (zlen b) w =
  Done (0, set_sh (send_ (Packet (reset_hdr h 0) []) (sh w)) w).
Proof.
  intros Hh Ha Hc (Hs & c & Hat & Hst) b. unfold utcp_recv.
  assert (Hl : zlen b = 20) by (unfold b, packet_bytes, zlen; by rewrite length_app, length_hdr_bytes).
  assert (Eh : hdr_of_bytes b = h) by (by apply hdr_bytes_inv).
  assert (Ed : drop (Z.to_nat sizeof_hdr) b = []).
  { unfold b, packet_bytes. by rewrite drop_app_length' by (by rewrite length_hdr_bytes). }
  rewrite Hl, Eh, Ed, Hc, Ha. cbn [Z.eqb Z.ltb negb length parse_aux obind].
  change (20 <? sizeof_hdr) with false. cbn iota.
  rewrite find_connection_at, Hat by done. unfold recv_existing, recv_check, fbind. rewrite Hat, Hst. done.
Qed.

(** The packet bounces between two instances: what one answers is handed to the
    other, [n] times. *)
Fixpoint bounce `{Env} (n : nat) (p : packet) (here there : world) : outcome (packet * world * world) :=
  match n with
  | O => Done (p, here, there)
  | S n =>
      let b := packet_bytes p in
      let* (_, here) := utcp_recv (Some b) (zlen b) here in
      match last (out (sh here)) with
      | Some q => bounce n q there here
      | None => Done (p, here, there)
      end
  end.

(** A reset, in either of the two forms [utcp_recv] sends, between the ports. *)
Record is_reset (k : key) (p : packet) : Prop := {
  ir_ok : hdr_ok (p_hdr p);
  ir_dst : h_dst (p_hdr p) = k.1;
  ir_src : h_src (p_hdr p) = k.2;
  ir_aux : h_aux (p_hdr p) = 0;
  ir_ctl : h_ctl (p_hdr p) = RST \/ h_ctl (p_hdr p) = Z.lor RST ACK;
  ir_data : p_data p = [];
}.

Lemma reset_of_reset k p :
  is_reset k p -> is_reset (k.2, k.1) (Packet (reset_hdr (p_hdr p) 0) []).
Proof.
  intros [[] Hd Hs Ha Hc Hdat]. unfold reset_hdr.
  assert (Hhas : has (swap_ports (p_hdr p) |> set_h_wnd 0 |> set_h_aux 0) ACK =
    (h_ctl (p_hdr p) =? Z.lor RST ACK)) by (unfold has; simpl; destruct Hc as [-> | ->]; reflexivity).
  rewrite Hhas. destruct (_ =? _); constructor; simpl; try done; auto;
    constructor; simpl; try done; unfold RST, ACK; simpl; try lia; apply u32_range.
Qed.

(** Resets are answered with resets.  When both ends hold a closed, not yet
    freed connection, one reset between them is answered by a reset, that one by
    another, and so on: after any number of deliveries there is one more on its
    way. *)
Theorem reset_storm `{Env} n : forall k p here there,
  is_reset k p -> closed_at k here -> closed_at (k.2, k.1) there ->
  exists q here' there', bounce n p here there = Done (q, here', there') /\
    exists k', is_reset k' q /\ closed_at k' here' /\ closed_at (k'.2, k'.1) there'.
Proof.
  induction n as [|n IH]; intros k p here there Hp Hh Ht; [by exists p, here, there; split; [|exists k]|].
  cbn [bounce]. destruct (Hp) as [Hok Hd Hs Ha Hc Hdat].
  assert (Hpk : p = Packet (p_hdr p) []) by (rewrite <- Hdat; by destruct p).
  assert (Hcl : closed_at (h_dst (p_hdr p), h_src (p_hdr p)) here) by (rewrite Hd, Hs; by destruct k).
  rewrite Hpk, closed_recv; [|done|done|by destruct Hc as [-> | ->]|exact Hcl].
  cbn [obind]. cbn [set_sh sh send_ set_out out]. rewrite last_snoc.
  apply (IH (k.2, k.1)); [by apply reset_of_reset|done|]. by destruct k.
Qed.

Definition sim_closed (k : key) : world :=
  World sim_shared [conn_zero |> set_src k.1 |> set_dst k.2].

Lemma reset_storm_witness :
  exists q here there,
    @bounce EA 1000 (Packet (Hdr 9 80 0 0 0 RST 0) []) (sim_closed (80, 9)) (sim_closed (9, 80)) =
    Done (q, here, there) /\ exists k', is_reset k' q /\ closed_at k' here /\ closed_at (k'.2, k'.1) there.
Proof.
  apply (@reset_storm EA 1000 (80, 9)).
  - constructor; simpl; try reflexivity; [constructor; simpl; unfold RST; lia|by left].
  - split; [repeat constructor|by eexists].
  - split; [repeat constructor|by eexists].
Defined.

(** ** Sending *)

(** A failed allocation in [utcp_send].  When the send buffer has to grow
    and the allocator fails, [buffer_put] returns -1, which is stored in an
    unsigned variable: [snd.last] moves back by one, and with nothing else waiting
    to be sent the [assert] in [ack] fails. *)
Theorem failed_allocation_fails_assert `{Env} cap d c s :
  wf_snd c -> wf_shared cap s -> is_reliable c = true -> state c = ESTABLISHED -> reapable c = false ->
  bitset (flags c) UTCP_NO_PARTIAL = false ->
  snd_nxt c = snd_last c -> external (sndbuf c) = false -> 0 < zlen d ->
  size (sndbuf c) < used (sndbuf c) + zlen d <= maxsize (sndbuf c) ->
  a_ok (allocs (tick s)) = false ->
  utcp_send (Some d) (zlen d) c s = Stop AssertFailed.
Proof.
  intros Hc Hs Hr Hst Hre Hnp Hnl Hex Hd Hsz Ha. pose proof (used_bound c Hc) as Hu.
  pose proof (ws_max _ Hc) as Hm. unfold SNDMAX in *. unfold utcp_send.
  rewrite Hre, Hst, Hr, Hnp. cbn [send_state_error negb andb handshaking].
  rewrite (proj2 (Z.eqb_neq (zlen d) 0)) by lia. unfold next_alloc.
  assert (Hput : buffer_put (allocs (tick s)) (sndbuf c) d = Done (-1, sndbuf c)).
  { unfold buffer_put. destruct (put_at_cases (allocs (tick s)) (sndbuf c) (used (sndbuf c)) d) as
      [(? & ? & _)|[(_ & _ & H1)|(_ & _ & b' & Hp & Hw & _)]];
      [apply (ws_buf _ Hc)|lia|lia|lia|exact H1|].
    exfalso. revert Hp. unfold buffer_put_at, put_len. rewrite u64_small by lia.
    rewrite (proj2 (Z.ltb_ge _ _)) by lia. cbn [andb]. rewrite (proj2 (Z.ltb_lt _ _)) by lia.
    pose proof (wf_used _ (ws_buf _ Hc)). pose proof (wf_size _ (ws_buf _ Hc)).
    destruct (grow_64 (if size (sndbuf c) =? 0 then 4096 else size (sndbuf c)) (used (sndbuf c) + zlen d))
      as (m & -> & Hm1 & Hm2); [zcase; lia|lia|]. cbn [obind].
    unfold buffer_resize. rewrite Hex, Ha. cbn [negb assert_ obind].
    set (ns := u32 _). assert (ns <> 0).
    { subst ns. rewrite u32_small; [zcase; lia|]. zcase; lia. }
    rewrite (proj2 (Z.eqb_neq ns 0)) by done. cbn [obind negb]. intros [= E _]. lia. }
  rewrite Hput. cbn [obind]. assert (set_sndbuf (sndbuf c) c = c) as -> by (by destruct c).
  rewrite Hr. change (u64 (-1)) with (2 ^ 64 - 1).
  cbn [negb andb handshaking]. rewrite (proj2 (Z.eqb_neq (2 ^ 64 - 1) 0)) by done.
  unfold send_flush, ack, ack_left. set (c1 := set_snd_last _ c).
  assert (Hd1 : seqdiff (snd_last c1) (snd_nxt c1) = -1).
  { subst c1. cbn [snd_last snd_nxt set_snd_last]. rewrite Hnl. apply seqdiff_of; [|lia].
    unfold u32. replace (snd_last c + (2 ^ 64 - 1)) with (snd_last c + -1 + 2 ^ 32 * 2 ^ 32) by lia.
    apply Z_mod_plus_full. }
  rewrite Hd1. change (state c1) with (state c). by rewrite Hst.
Qed.

Definition sim_idle : utcp_connection :=
  sim_conn |> set_snd_last 500 |> set_sndbuf (Buffer [] 0 0 0 131072 false).

Lemma sim_idle_wf : wf_snd sim_idle.
Proof.
  assert (H1 : seqdiff 500 500 = 0) by (by vm_compute).
  constructor; simpl; unfold UINT32_MAX, START_RTO, USEC_PER_SEC, SNDMAX; rewrite ?H1; try lia.
  constructor; simpl; done || lia.
Qed.

Lemma failed_allocation_fails_assert_witness :
  @utcp_send failing_env (Some [1; 2]) 2 sim_idle sim_shared = Stop AssertFailed.
Proof.
  apply (@failed_allocation_fails_assert failing_env 4 [1; 2] sim_idle sim_shared);
    try reflexivity; [exact sim_idle_wf|exact sim_shared_wf|vm_compute; split; congruence].
Defined.

(** A datagram larger than the send buffer.  On an unreliable connection
    [utcp_send] of more bytes than the send buffer has room for (but no more than
    MAX_UNRELIABLE_SIZE) fails with EMSGSIZE and leaves the part that fitted in the
    buffer: the buffer is full from then on, and every later datagram, however
    small, fails with EMSGSIZE too. *)
Theorem oversized_datagram_blocks_connection `{Env} d c s :
  wf_snd c -> (forall n, a_ok (allocs n) = true) -> is_reliable c = false ->
  state c = ESTABLISHED -> reapable c = false -> bitset (flags c) UTCP_NO_PARTIAL = false ->
  used (sndbuf c) < maxsize (sndbuf c) < used (sndbuf c) + zlen d -> zlen d <= MAX_UNRELIABLE_SIZE ->
  exists c' s', utcp_send (Some d) (zlen d) c s = Done (-1, (c', s')) /\ errno s' = EMSGSIZE /\
    used (sndbuf c') = maxsize (sndbuf c') /\
    forall d' s1, d' <> [] -> zlen d' <= MAX_UNRELIABLE_SIZE ->
      exists s2, utcp_send (Some d') (zlen d') c' s1 = Done (-1, (c', s2)) /\ errno s2 = EMSGSIZE.
Proof.
  intros Hc Ha Hr Hst Hre Hnp Hsz Hd. pose proof (used_bound c Hc) as Hu. pose proof (ws_max _ Hc) as Hm.
  unfold SNDMAX, MAX_UNRELIABLE_SIZE in *.
  assert (Hgen : forall d c s, is_reliable c = false -> state c = ESTABLISHED -> reapable c = false ->
    bitset (flags c) UTCP_NO_PARTIAL = false -> zlen d <= 16777215 -> zlen d <> 0 ->
    utcp_send (Some d) (zlen d) c s =
    let (al, s) := next_alloc s in
    let* (n, b) := buffer_put al (sndbuf c) d in
    if negb (n =? zlen d) then Done (-1, (set_sndbuf b c, set_errno EMSGSIZE s))
    else if u64 n =? 0 then Done (0, (set_sndbuf b c, s))
    else let* (c, s) := send_flush (set_snd_last (u32 (snd_last c + u64 n)) (set_sndbuf b c)) s in
         Done (s64 (u64 n), (c, s))).
  { clear. intros d c s Hr Hst Hre Hnp Hd Hd0. unfold utcp_send. rewrite Hre, Hst, Hnp, Hr.
    cbn [send_state_error andb negb handshaking]. rewrite (proj2 (Z.eqb_neq _ _)) by done.
    rewrite (proj2 (Z.ltb_ge _ _)) by done. destruct (next_alloc s) as [al s1].
    destruct (buffer_put al (sndbuf c) d) as [[n b]|]; [|done]. cbn [obind].
    change (is_reliable (set_sndbuf b c)) with (is_reliable c). rewrite Hr. cbn [negb andb].
    destruct (negb (n =? zlen d)); [done|]. destruct (u64 n =? 0); [done|].
    change (state (set_snd_last _ (set_sndbuf b c))) with (state c). by rewrite Hst. }
  rewrite Hgen by (done || lia). unfold next_alloc.
  destruct (put_at_cases (allocs (tick s)) (sndbuf c) (used (sndbuf c)) d) as
    [(? & _)|[(_ & Hal & _)|(_ & _ & b' & Hp & Hw & Hmx & _ & Heff & _)]];
    [apply (ws_buf _ Hc)|lia|lia|lia|by rewrite Ha in Hal|].
  unfold buffer_put at 1. rewrite Hp. cbn [obind]. unfold put_len in *.
  rewrite (Z.max_r 0), (Z.min_r (zlen d)) in * by lia.
  rewrite (proj2 (Z.eqb_neq _ (zlen d))) by lia. cbn [negb].
  eexists _, _. split; [done|]. split; [done|].
  assert (Hfull : used b' = maxsize b').
  { rewrite Heff, Hmx. autorewrite with zlen. pose proof (zlen_nonneg d). lia. }
  split; [done|]. intros d' s1 Hne Hd'.
  assert (Hd0 : 0 < zlen d') by (destruct d'; [done|unfold zlen; simpl; lia]).
  rewrite Hgen by (done || lia). unfold next_alloc.
  destruct (put_at_cases (allocs (tick s1)) b' (used b') d') as
    [(_ & _ & Hp')|[(_ & Hal & _)|([?|?] & _)]];
    [done|apply (wf_used _ Hw)|rewrite Hfull, Hmx; lia| |by rewrite Ha in Hal|lia|lia].
  unfold buffer_put. cbn [sndbuf set_sndbuf]. rewrite Hp'. cbn [obind].
  rewrite (proj2 (Z.eqb_neq 0 (zlen d'))) by lia. cbn [negb]. eexists. split; [by destruct c|done].
Qed.

Definition sim_udp : utcp_connection :=
  sim_idle |> set_flags 0 |> set_sndbuf (Buffer [] 0 0 0 4 false).

Lemma oversized_datagram_blocks_connection_witness :
  exists c' s', @utcp_send EA (Some [1; 2; 3; 4; 5; 6]) 6 sim_udp sim_shared = Done (-1, (c', s')) /\
    exists s2, @utcp_send EA (Some [1]) 1 c' s' = Done (-1, (c', s2)) /\ errno s2 = EMSGSIZE.
Proof.
  assert (Hw : wf_snd sim_udp).
  { assert (H1 : seqdiff 500 500 = 0) by (by vm_compute).
    constructor; simpl; unfold UINT32_MAX, START_RTO, USEC_PER_SEC, SNDMAX; rewrite ?H1; try lia.
    constructor; simpl; done || lia. }
  destruct (@oversized_datagram_blocks_connection EA [1; 2; 3; 4; 5; 6] sim_udp sim_shared Hw) as
    (c' & s' & E & _ & _ & Hnext); [reflexivity..|vm_compute; split; congruence|vm_compute; congruence|].
  exists c', s'. split; [exact E|]. apply (Hnext [1] s'); [done|]. vm_compute. congruence.
Defined.

(** ** Receiving *)

(** A FIN at the wrap of the sequence space.  The test whether a FIN is in
    order adds the 32-bit sequence number and the length in 64 bits: when the
    segment ends past 2^32, a FIN that is exactly the next number expected is
    ignored. *)
Theorem fin_missed_at_wrap `{Env} k r w c :
  conn_at k (conns w) = Some c -> is_reliable c = true -> 0 <= rcv_nxt c < 2 ^ 32 ->
  2 ^ 32 <= h_seq (rx_hdr r) + rx_len r -> u32 (h_seq (rx_hdr r) + rx_len r) = rcv_nxt c ->
  recv_fin k r w = Done (Next tt, w).
Proof.
  intros Hc Hr Hn Hlt _. unfold recv_fin. rewrite Hc, Hr. cbn [negb orb].
  rewrite (proj2 (Z.eqb_neq _ _)) by lia. by rewrite andb_false_r.
Qed.

Lemma fin_missed_at_wrap_witness :
  @recv_fin EA (80, 9) (Rx (Hdr 9 80 4294967293 500 65535 (Z.lor FIN ACK) 0) [1; 2; 3; 4; 5] 5)
    (World sim_shared [set_rcv_nxt 2 sim_conn]) =
  Done (Next tt, World sim_shared [set_rcv_nxt 2 sim_conn]).
Proof.
  apply (@fin_missed_at_wrap EA (80, 9) (Rx (Hdr 9 80 4294967293 500 65535 (Z.lor FIN ACK) 0) [1; 2; 3; 4; 5] 5)
    (World sim_shared [set_rcv_nxt 2 sim_conn]) (set_rcv_nxt 2 sim_conn));
    [reflexivity|reflexivity|simpl; lia|simpl; lia|reflexivity].
Defined.

(** Data segments of one peer, each with the number it starts at and how many
    bytes it has. *)
Definition sim_segment (e : Z * nat) : packet :=
  Packet (Hdr 9 80 e.1 500 65535 ACK 0) (replicate e.2 65).

Definition stale_trace : list (Z * nat) :=
  [(1010, 5%nat); (1020, 5%nat); (1000, 30%nat); (1030, 25%nat); (1056, 1%nat); (1055, 1%nat); (1057, 18%nat)].

(** Seven segments of an honest stream stop the receiver.  Two ranges are
    buffered out of order; an in-order segment longer than everything buffered
    makes [sack_consume] forget only the first of them; the second range survives
    with nothing behind it, and when the stream reaches it, [handle_in_order]
    finds fewer bytes than noted and calls [abort]. *)
Theorem stale_sack_aborts : deliver EA (sim_segment <$> stale_trace) sim_world = Stop AbortCalled.
Proof. vm_compute. reflexivity. Qed.

(** The client opens, the server's SYNACK is lost, and after its timeout the
    server sends it again; everything sent afterwards is delivered. *)
Definition lost_synack : outcome (list tcp_state * list tcp_state * list packet) :=
  match sim_init EA, sim_init EB with
  | Some a, Some b =>
      let* (_, a) := @run_call EA (CConnect 80 (Some 1) 0 UTCP_TCP) a in
      let* (a, b) := exchange EB a b in
      let (_, b) := takeout b in
      let* (_, b) := @utcp_timeout EB (set_sh (set_tick 20 (sh b)) b) in
      let again := out (sh b) in
      let* (b, a) := exchange EA b a in
      let* (a, b) := exchange EB a b in
      let* (b, a) := exchange EA b a in
      Done (state <$> conns a, state <$> conns b, again)
  | _, _ => Stop AssertFailed
  end.

(** The same with the first SYNACK delivered. *)
Definition kept_synack : outcome (list tcp_state * list tcp_state) :=
  match sim_init EA, sim_init EB with
  | Some a, Some b =>
      let* (_, a) := @run_call EA (CConnect 80 (Some 1) 0 UTCP_TCP) a in
      let* (a, b) := exchange EB a b in
      let* (b, a) := exchange EA b a in
      let* (a, b) := exchange EB a b in
      let* (b, a) := exchange EA b a in
      Done (state <$> conns a, state <$> conns b)
  | _, _ => Stop AssertFailed
  end.

(** One lost SYNACK ends the connection.  When every packet arrives, both
    ends are established.  When the first SYNACK is lost, the server's
    retransmission carries [snd.nxt] instead of [snd.iss] as its sequence number;
    the client then acknowledges a number the server refuses, and the reset that
    follows closes the client. *)
Theorem lost_synack_closes_client :
  kept_synack = Done ([ESTABLISHED], [ESTABLISHED]) /\
  exists p, lost_synack = Done ([CLOSED], [SYN_RECEIVED], [p]) /\ h_ctl (p_hdr p) = Z.lor SYN ACK.
Proof. split; [vm_compute; reflexivity|]. eexists. split; vm_compute; reflexivity. Qed.

(** A SYN whose INIT header says version 0, then a timeout. *)
Definition refused_syn : list Z :=
  packet_bytes (Packet (Hdr 4000 80 7000 0 65535 SYN 257) [0; 0; 0; 3]).

Definition after_refused_syn : outcome (world * world) :=
  match sim_init EA with
  | Some w0 =>
      let* (_, w) := @utcp_recv EA (Some refused_syn) (zlen refused_syn) w0 in
      let* (_, w') := @utcp_timeout EA w in
      Done (w, w')
  | None => Stop AssertFailed
  end.

(** A SYN with version 0 in its INIT header is answered with a reset, but
    the connection allocated for it stays: closed, not marked for reaping, and
    kept by the following [utcp_timeout]. *)
Theorem refused_syn_leaks_connection :
  returns after_refused_syn (fun '(w, w') =>
    (fun p => h_ctl (p_hdr p)) <$> out (sh w) = [Z.lor RST ACK] /\
    (fun c => (key_of c, state c, reapable c)) <$> conns w = [((80, 4000), CLOSED, false)] /\
    conns w' = conns w).
Proof. vm_compute. repeat split. Qed.
