(* ===== verification/Heap.v ===== *)
(** Linked nodes in memory, for the intrusive containers of src/src/list.c and
    src/src/splay_tree.c.

    The nodes of both containers are modelled one map per field: [next], [prev]
    and [data] are the fields of [list_node_t] and [splay_node_t], [parent],
    [left] and [right] those of the tree part of [splay_node_t]; a pointer is an
    address or NULL.  The container's own structure ([list_t], [splay_tree_t]) is
    in the same state: [head], [tail], [root] and [count], an [unsigned int].
    Every access is checked: through NULL it stops with [OutOfBounds], to a node
    that is not live with [UseAfterFree].  Callbacks ([delete], the actions of the
    traversals) are recorded in [log]. *)
From stdpp Require Import gmap.
From S2P Require Import Prelude.

Definition ptr := option Z.

Inductive ev := Deleted (d : Z) | Acted (d : Z) | ActedNode (a : Z).

Record state := State {
  next : Z -> ptr;
  prev : Z -> ptr;
  parent : Z -> ptr;
  left : Z -> ptr;
  right : Z -> ptr;
  data : Z -> Z;
  live : gset Z;
  brk : Z;
  head : ptr;
  tail : ptr;
  root : ptr;
  count : Z;
  deletes : bool;
  log : list ev;
}.

(** One cell of one field. *)
Definition upd {A} (f : Z -> A) (a : Z) (v : A) : Z -> A := fun x => if decide (x = a) then v else f x.

Definition set_next v s := State v (prev s) (parent s) (left s) (right s) (data s) (live s) (brk s) (head s) (tail s) (root s) (count s) (deletes s) (log s).
Definition set_prev v s := State (next s) v (parent s) (left s) (right s) (data s) (live s) (brk s) (head s) (tail s) (root s) (count s) (deletes s) (log s).
Definition set_parent v s := State (next s) (prev s) v (left s) (right s) (data s) (live s) (brk s) (head s) (tail s) (root s) (count s) (deletes s) (log s).
Definition set_left v s := State (next s) (prev s) (parent s) v (right s) (data s) (live s) (brk s) (head s) (tail s) (root s) (count s) (deletes s) (log s).
Definition set_right v s := State (next s) (prev s) (parent s) (left s) v (data s) (live s) (brk s) (head s) (tail s) (root s) (count s) (deletes s) (log s).
Definition set_data v s := State (next s) (prev s) (parent s) (left s) (right s) v (live s) (brk s) (head s) (tail s) (root s) (count s) (deletes s) (log s).
Definition set_live v s := State (next s) (prev s) (parent s) (left s) (right s) (data s) v (brk s) (head s) (tail s) (root s) (count s) (deletes s) (log s).
Definition set_brk v s := State (next s) (prev s) (parent s) (left s) (right s) (data s) (live s) v (head s) (tail s) (root s) (count s) (deletes s) (log s).
Definition set_head v s := State (next s) (prev s) (parent s) (left s) (right s) (data s) (live s) (brk s) v (tail s) (root s) (count s) (deletes s) (log s).
Definition set_tail v s := State (next s) (prev s) (parent s) (left s) (right s) (data s) (live s) (brk s) (head s) v (root s) (count s) (deletes s) (log s).
Definition set_root v s := State (next s) (prev s) (parent s) (left s) (right s) (data s) (live s) (brk s) (head s) (tail s) v (count s) (deletes s) (log s).
Definition set_count v s := State (next s) (prev s) (parent s) (left s) (right s) (data s) (live s) (brk s) (head s) (tail s) (root s) v (deletes s) (log s).
Definition set_log v s := State (next s) (prev s) (parent s) (left s) (right s) (data s) (live s) (brk s) (head s) (tail s) (root s) (count s) (deletes s) v.

(** ** Programs *)

Definition prog (A : Type) := state -> outcome (A * state).

Definition ret {A} (a : A) : prog A := fun s => Done (a, s).
Definition bind {A B} (m : prog A) (k : A -> prog B) : prog B :=
  fun s => let* (a, s) := m s in k a s.
Definition get {A} (f : state -> A) : prog A := fun s => Done (f s, s).
Definition modify (f : state -> state) : prog unit := fun s => Done (tt, f s).
Definition stop_ {A} (r : stop) : prog A := fun _ => Stop r.
Definition when (b : bool) (m : prog unit) : prog unit := if b then m else ret tt.
Definition check (b : bool) : prog unit := if b then ret tt else stop_ AssertFailed.

Declare Scope prog_scope.
Delimit Scope prog_scope with prog.
Notation "x <- m ;; k" := (bind m (fun x => k))
  (at level 100, m at next level, right associativity) : prog_scope.
Notation "m ;;; k" := (bind m (fun _ : unit => k))
  (at level 100, right associativity) : prog_scope.
#[global] Open Scope prog_scope.

(** The node a pointer is to. *)
Definition deref (p : ptr) : prog Z := fun s =>
  match p with
  | None => Stop OutOfBounds
  | Some a => if decide (a ∈ live s) then Done (a, s) else Stop UseAfterFree
  end.

(** [p->f] and [p->f = v], for a link field given by its projection and update. *)
Definition load {A} (f : state -> Z -> A) (p : ptr) : prog A :=
  a <- deref p ;; get (fun s => f s a).

Definition store {A} (f : state -> Z -> A) (sf : (Z -> A) -> state -> state) (p : ptr) (v : A) : prog unit :=
  a <- deref p ;; modify (fun s => sf (upd (f s) a v) s).

Definition store_next := store next set_next.
Definition store_prev := store prev set_prev.
Definition store_parent := store parent set_parent.
Definition store_left := store left set_left.
Definition store_right := store right set_right.

Definition is_some (p : ptr) : bool := match p with Some _ => true | None => false end.
Definition same (p q : ptr) : bool := bool_decide (p = q).

(** [xzalloc(sizeof(node))]: a node with a new address, all its fields zero. *)
Definition zero_node (a : Z) (s : state) : state :=
  s |> set_next (upd (next s) a None) |> set_prev (upd (prev s) a None)
    |> set_parent (upd (parent s) a None) |> set_left (upd (left s) a None)
    |> set_right (upd (right s) a None) |> set_data (upd (data s) a 0).

Definition alloc_node : prog Z := fun s =>
  let a := brk s in
  Done (a, zero_node a (set_live ({[a]} ∪ live s) (set_brk (a + 1) s))).

(** [if(node->data && list->delete) list->delete(node->data); free(node);] *)
Definition free_node (a : Z) : prog unit :=
  d <- load data (Some a) ;;
  del <- get deletes ;;
  when (negb (d =? 0) && del) (modify (fun s => set_log (log s ++ [Deleted d]) s)) ;;;
  modify (fun s => set_live (live s ∖ {[a]}) s).

Definition incr_count : prog unit := modify (fun s => set_count (u32 (count s + 1)) s).
Definition decr_count : prog unit := modify (fun s => set_count (u32 (count s - 1)) s).

(** ** Running programs *)

Lemma bind_done {A B} (m : prog A) (k : A -> prog B) s a s' :
  m s = Done (a, s') -> bind m k s = k a s'.
Proof. intros E. unfold bind. by rewrite E. Qed.

Lemma deref_live s a : a ∈ live s -> deref (Some a) s = Done (a, s).
Proof. intros H. unfold deref. by rewrite decide_True. Qed.

Lemma load_live {A} (f : state -> Z -> A) s a : a ∈ live s -> load f (Some a) s = Done (f s a, s).
Proof. intros H. unfold load, bind. by rewrite deref_live. Qed.

Lemma store_live {A} (f : state -> Z -> A) sf s a v :
  a ∈ live s -> store f sf (Some a) v s = Done (tt, sf (upd (f s) a v) s).
Proof. intros H. unfold store, bind. by rewrite deref_live. Qed.

Lemma upd_same {A} (f : Z -> A) a v : upd f a v a = v.
Proof. unfold upd. by rewrite decide_True. Qed.

Lemma upd_other {A} (f : Z -> A) a v x : x <> a -> upd f a v x = f x.
Proof. intros H. unfold upd. by rewrite decide_False. Qed.

(** ** Doubly linked segments

    [dseg nx pv p l n]: the addresses [l] are linked in this order, the first one
    pointing back to [p] and the last one on to [n]. *)

Definition first (l : list Z) (n : ptr) : ptr := match l with [] => n | a :: _ => Some a end.
Definition final (p : ptr) (l : list Z) : ptr := default p (Some <$> last l).

Fixpoint dseg (nx pv : Z -> ptr) (p : ptr) (l : list Z) (n : ptr) : Prop :=
  match l with
  | [] => True
  | a :: l => pv a = p /\ nx a = first l n /\ dseg nx pv (Some a) l n
  end.

Lemma final_cons p a l : final p (a :: l) = final (Some a) l.
Proof. unfold final. destruct l; [done|]. rewrite last_cons_cons. destruct (last (z :: l)) eqn:E; [done|]. by apply last_None in E. Qed.

Lemma final_snoc p l a : final p (l ++ [a]) = Some a.
Proof. unfold final. by rewrite last_snoc. Qed.

Lemma final_nil p : final p [] = p.
Proof. done. Qed.

Lemma first_app l k n : first (l ++ k) n = first l (first k n).
Proof. by destruct l. Qed.

Lemma final_app p l k : final p (l ++ k) = final (final p l) k.
Proof.
  revert p. induction l as [|a l IH]; intros p; [done|].
  cbn [app]. rewrite !final_cons. apply IH.
Qed.

Lemma dseg_app nx pv l1 l2 : forall p n,
  dseg nx pv p (l1 ++ l2) n <-> dseg nx pv p l1 (first l2 n) /\ dseg nx pv (final p l1) l2 n.
Proof.
  induction l1 as [|a l1 IH]; intros p n; simpl; [tauto|].
  rewrite IH, first_app, final_cons. tauto.
Qed.

Lemma dseg_frame nx pv nx' pv' l : forall p n,
  (forall a, a ∈ l -> nx' a = nx a /\ pv' a = pv a) -> dseg nx pv p l n -> dseg nx' pv' p l n.
Proof.
  induction l as [|a l IH]; intros p n H; simpl; [done|]. intros (? & ? & ?).
  destruct (H a) as [-> ->]; [by left|]. repeat (split; [done|]). apply IH; [|done].
  intros b Hb. apply H. by right.
Qed.

(** Re-pointing the last element of a segment, or the back pointer of the first. *)
Lemma dseg_next nx pv nx' pv' l n n' : forall p,
  NoDup l -> dseg nx pv p l n ->
  (forall a, a ∈ l -> pv' a = pv a) ->
  (forall a, a ∈ l -> last l <> Some a -> nx' a = nx a) ->
  (forall a, last l = Some a -> nx' a = n') -> dseg nx' pv' p l n'.
Proof.
  induction l as [|a l IH]; intros p Hnd Hs Hpv Hnx Hl; [done|].
  apply NoDup_cons in Hnd as [Ha Hnd]. destruct Hs as (H1 & H2 & H3). simpl.
  split; [by rewrite Hpv by left|]. destruct l as [|b l].
  { split; [|done]. by rewrite (Hl a). }
  split; [rewrite Hnx; [done|by left|]|].
  { rewrite last_cons_cons. intros Hx. apply last_Some_elem_of in Hx. done. }
  apply IH; try done.
  - intros x Hx. apply Hpv. by right.
  - intros x Hx Hx'. apply Hnx; [by right|]. by rewrite last_cons_cons.
Qed.

Lemma dseg_prev nx pv nx' pv' l n p p' :
  NoDup l -> dseg nx pv p l n ->
  (forall a, a ∈ l -> nx' a = nx a) ->
  (forall a, a ∈ l -> list.head l <> Some a -> pv' a = pv a) ->
  (forall a, list.head l = Some a -> pv' a = p') -> dseg nx' pv' p' l n.
Proof.
  destruct l as [|a l]; [done|]. intros Hnd (H1 & H2 & H3) Hnx Hpv Hh.
  apply NoDup_cons in Hnd as [Ha Hnd]. simpl. split; [by apply Hh|]. split; [by rewrite Hnx by left|].
  eapply dseg_frame; [|done]. intros x Hx. split; [apply Hnx; by right|].
  apply Hpv; [by right|]. simpl. intros [= ->]. done.
Qed.

(** The container's list: [l] between [head] and [tail]. *)
Record dlist (l : list Z) (s : state) : Prop := {
  dl_head : head s = first l None;
  dl_tail : tail s = final None l;
  dl_seg : dseg (next s) (prev s) None l None;
  dl_nodup : NoDup l;
  dl_live : forall a, a ∈ l -> a ∈ live s;
  dl_count : count s = u32 (zlen l);
}.

Lemma first_head l n : first l n = match list.head l with Some a => Some a | None => n end.
Proof. by destruct l. Qed.

Lemma final_last p l : final p l = match last l with Some a => Some a | None => p end.
Proof. unfold final. by destruct (last l). Qed.

(** A new node between two parts of the list. *)
Lemma dlist_insert l1 l2 a s s' :
  dlist (l1 ++ l2) s -> a ∉ l1 ++ l2 -> a ∈ live s' ->
  (forall b, b ∈ l1 ++ l2 -> b ∈ live s -> b ∈ live s') ->
  next s' a = first l2 None -> prev s' a = final None l1 ->
  (forall b, b ∈ l1 ++ l2 -> next s' b = if decide (last l1 = Some b) then Some a else next s b) ->
  (forall b, b ∈ l1 ++ l2 -> prev s' b = if decide (list.head l2 = Some b) then Some a else prev s b) ->
  head s' = first (l1 ++ [a]) None -> tail s' = final (Some a) l2 ->
  count s' = u32 (count s + 1) ->
  dlist (l1 ++ a :: l2) s'.
Proof.
  intros [Hh Ht Hs Hnd Hlv Hc] Ha Hal Hl Hna Hpa Hnx Hpv Hh' Ht' Hc'.
  apply dseg_app in Hs as [Hs1 Hs2]. apply NoDup_app in Hnd as (Hn1 & Hd & Hn2).
  apply not_elem_of_app in Ha as [Ha1 Ha2].
  constructor.
  - rewrite Hh'. by destruct l1.
  - by rewrite Ht', final_app, final_cons.
  - apply dseg_app. split.
    + eapply dseg_next; [done|exact Hs1|..].
      * intros b Hb. rewrite Hpv by (apply elem_of_app; by left). rewrite decide_False; [done|].
        intros E. apply head_Some_elem_of in E. by apply (Hd b).
      * intros b Hb E. rewrite Hnx by (apply elem_of_app; by left). by rewrite decide_False.
      * intros b E. rewrite Hnx by (apply elem_of_app; left; by apply last_Some_elem_of). by rewrite decide_True.
    + simpl. split; [done|]. split; [done|].
      eapply dseg_prev; [done|exact Hs2|..].
      * intros b Hb. rewrite Hnx by (apply elem_of_app; by right). rewrite decide_False; [done|].
        intros E. apply last_Some_elem_of in E. by apply (Hd b).
      * intros b Hb E. rewrite Hpv by (apply elem_of_app; by right). by rewrite decide_False.
      * intros b E. rewrite Hpv by (apply elem_of_app; right; by apply head_Some_elem_of). by rewrite decide_True.
  - apply NoDup_app. split; [done|]. split; [|by apply NoDup_cons].
    intros b Hb. rewrite not_elem_of_cons. split; [by intros ->|by apply Hd].
  - intros b [Hb|[->|Hb]%elem_of_cons]%elem_of_app; [|done|]; apply Hl; try apply Hlv; apply elem_of_app; auto.
  - rewrite Hc', Hc, u32_add_l. autorewrite with zlen. f_equal. unfold zlen. simpl. lia.
Qed.

(** A node taken out of the list. *)
Lemma dlist_remove l1 l2 a s s' :
  dlist (l1 ++ a :: l2) s ->
  (forall b, b ∈ l1 ++ l2 -> b ∈ live s -> b ∈ live s') ->
  (forall b, b ∈ l1 ++ l2 -> next s' b = if decide (last l1 = Some b) then first l2 None else next s b) ->
  (forall b, b ∈ l1 ++ l2 -> prev s' b = if decide (list.head l2 = Some b) then final None l1 else prev s b) ->
  head s' = first (l1 ++ l2) None -> tail s' = final None (l1 ++ l2) ->
  count s' = u32 (count s - 1) ->
  dlist (l1 ++ l2) s'.
Proof.
  intros [Hh Ht Hs Hnd Hlv Hc] Hl Hnx Hpv Hh' Ht' Hc'.
  apply dseg_app in Hs as [Hs1 (Hpa & Hna & Hs2)].
  apply NoDup_app in Hnd as (Hn1 & Hd & [Ha2 Hn2]%NoDup_cons).
  assert (Hd' : forall x, x ∈ l1 -> x ∉ l2) by (intros x Hx Hx'; apply (Hd x Hx); by right).
  constructor; try done.
  - apply dseg_app. split.
    + eapply dseg_next; [done|exact Hs1|..].
      * intros b Hb. rewrite Hpv by (apply elem_of_app; by left). rewrite decide_False; [done|].
        intros E. apply head_Some_elem_of in E. by apply (Hd' b).
      * intros b Hb E. rewrite Hnx by (apply elem_of_app; by left). by rewrite decide_False.
      * intros b E. rewrite Hnx by (apply elem_of_app; left; by apply last_Some_elem_of). by rewrite decide_True.
    + eapply dseg_prev; [done|exact Hs2|..].
      * intros b Hb. rewrite Hnx by (apply elem_of_app; by right). rewrite decide_False; [done|].
        intros E. apply last_Some_elem_of in E. by apply (Hd' b).
      * intros b Hb E. rewrite Hpv by (apply elem_of_app; by right). by rewrite decide_False.
      * intros b E. rewrite Hpv by (apply elem_of_app; right; by apply head_Some_elem_of). by rewrite decide_True.
  - by apply NoDup_app.
  - intros b Hb. apply Hl; [done|]. apply Hlv.
    apply elem_of_app in Hb as [Hb|Hb]; apply elem_of_app; [by left|right; by right].
  - rewrite Hc', Hc, u32_sub_l. autorewrite with zlen. f_equal. unfold zlen. simpl. lia.
Qed.

(** The neighbours of an element. *)
Lemma dlist_at l1 l2 a s :
  dlist (l1 ++ a :: l2) s ->
  prev s a = final None l1 /\ next s a = first l2 None /\ a ∈ live s /\ a ∉ l1 /\ a ∉ l2.
Proof.
  intros [_ _ Hs Hnd Hlv _]. apply dseg_app in Hs as [_ (Hp & Hn & _)].
  apply NoDup_app in Hnd as (_ & Hd & [Ha _]%NoDup_cons).
  repeat (split; [done|]). split; [apply Hlv; apply elem_of_app; right; by left|]. split; [|done].
  intros H. apply (Hd a H). by left.
Qed.

Lemma dlist_frame l s s' :
  dlist l s -> (forall a, a ∈ l -> next s' a = next s a /\ prev s' a = prev s a) ->
  (forall a, a ∈ l -> a ∈ live s -> a ∈ live s') ->
  head s' = head s -> tail s' = tail s -> count s' = count s -> dlist l s'.
Proof.
  intros [Hh Ht Hs Hnd Hlv Hc] Hf Hl Eh Et Ec. constructor; try congruence; [|by auto].
  by eapply dseg_frame.
Qed.

(** ** Running programs step by step *)

Lemma run_bind {A B C} (m : prog A) (k : A -> prog B) (k' : B -> prog C) s :
  bind (bind m k) k' s = bind m (fun a => bind (k a) k') s.
Proof. unfold bind. by destruct (m s) as [[]|]. Qed.

Lemma run_ret {A B} (a : A) (k : A -> prog B) s : bind (ret a) k s = k a s.
Proof. done. Qed.

Lemma run_get {A B} (f : state -> A) (k : A -> prog B) s : bind (get f) k s = k (f s) s.
Proof. done. Qed.

Lemma run_modify {B} f (k : unit -> prog B) s : bind (modify f) k s = k tt (f s).
Proof. done. Qed.

Lemma run_load {A B} (f : state -> Z -> A) a (k : A -> prog B) s :
  a ∈ live s -> bind (load f (Some a)) k s = k (f s a) s.
Proof. intros H. apply bind_done. by apply load_live. Qed.

Lemma run_store {A B} (f : state -> Z -> A) sf a v (k : unit -> prog B) s :
  a ∈ live s -> bind (store f sf (Some a) v) k s = k tt (sf (upd (f s) a v) s).
Proof. intros H. apply bind_done. by apply store_live. Qed.

Lemma run_deref {B} a (k : Z -> prog B) s : a ∈ live s -> bind (deref (Some a)) k s = k a s.
Proof. intros H. apply bind_done. by apply deref_live. Qed.

Lemma run_alloc {B} (k : Z -> prog B) s :
  bind alloc_node k s =
  k (brk s) (zero_node (brk s) (set_live ({[brk s]} ∪ live s) (set_brk (brk s + 1) s))).
Proof. done. Qed.

Lemma run_alone (m : prog unit) s : m s = bind m (fun _ => ret tt) s.
Proof. unfold bind. by destruct (m s) as [[[] ?]|]. Qed.

Lemma run_check {B} b (k : unit -> prog B) s : b = true -> bind (check b) k s = k tt s.
Proof. by intros ->. Qed.

Lemma ret_done {A} (a : A) s : ret a s = Done (a, s).
Proof. done. Qed.

Lemma modify_done f s : modify f s = Done (tt, f s).
Proof. done. Qed.

(** [pstep] runs the next operation of a program, discharging the liveness check
    of an access with [plive]; [prun] runs as many as it can. *)
Ltac plive := cbn; first [assumption | set_solver].

Ltac psimpl :=
  rewrite ?final_nil, ?final_snoc;
  cbn [next prev parent left right data live brk head tail root count deletes log
       set_next set_prev set_parent set_left set_right set_data set_live set_brk set_head set_tail set_root
       set_count set_log zero_node is_some negb andb orb when first fmap list_fmap fst snd app];
  cbv beta; rewrite ?upd_same, ?final_nil, ?final_snoc.

Ltac pstep :=
  psimpl;
  first [ rewrite run_bind | rewrite run_ret | rewrite run_get | rewrite run_modify | rewrite run_alloc | rewrite run_check by assumption
        | rewrite run_load by plive | rewrite run_store by plive | rewrite run_deref by plive
        | rewrite load_live by plive | rewrite store_live by plive | rewrite modify_done | rewrite ret_done ];
  psimpl.

Ltac prun := unfold store_next, store_prev, store_parent, store_left, store_right; repeat pstep; cbn [returns].
