(* ===== verification/LinkedList.v ===== *)
(** The doubly linked list of src/src/list.c.

    The state is [Heap.state]: the list's [head], [tail], [count] and [delete]
    callback and the nodes in memory.  A [list_node_t *] returned to the caller is
    the node's address.  The refinement at the end relates every operation to a
    list of (node, payload) pairs. *)
From stdpp Require Import gmap.
From S2P Require Import Prelude Heap.

(** [list_alloc]: an empty list; [del] says whether a delete callback is given.
    The memory starts with no nodes. *)
Definition list_alloc (del : bool) : state :=
  State (fun _ => None) (fun _ => None) (fun _ => None) (fun _ => None) (fun _ => None) (fun _ => 0)
    ∅ 1 None None None 0 del [].

Definition list_alloc_node : prog Z := alloc_node.
Definition list_free_node (node : Z) : prog unit := free_node node.

Definition store_data (p : ptr) (v : Z) : prog unit := store data set_data p v.

Definition list_insert_head (d : Z) : prog Z :=
  node <- list_alloc_node ;;
  store_data (Some node) d ;;;
  store_prev (Some node) None ;;;
  h <- get head ;;
  store_next (Some node) h ;;;
  modify (set_head (Some node)) ;;;
  nx <- load next (Some node) ;;
  (if is_some nx then store_prev nx (Some node) else modify (set_tail (Some node))) ;;;
  incr_count ;;;
  ret node.

Definition list_insert_tail (d : Z) : prog Z :=
  node <- list_alloc_node ;;
  store_data (Some node) d ;;;
  store_next (Some node) None ;;;
  t <- get tail ;;
  store_prev (Some node) t ;;;
  modify (set_tail (Some node)) ;;;
  pv <- load prev (Some node) ;;
  (if is_some pv then store_next pv (Some node) else modify (set_head (Some node))) ;;;
  incr_count ;;;
  ret node.

(** The list part of taking a node out; [splay_unlink_node] has the same lines. *)
Definition unlink_links (node : ptr) : prog unit :=
  c <- get count ;; check (negb (c =? 0)) ;;;
  pv <- load prev node ;; h <- get head ;; check (is_some pv || same h node) ;;;
  nx <- load next node ;; t <- get tail ;; check (is_some nx || same t node) ;;;
  (if is_some pv then store_next pv nx else modify (set_head nx)) ;;;
  (if is_some nx then store_prev nx pv else modify (set_tail pv)).

Definition list_unlink_node (node : ptr) : prog unit :=
  unlink_links node ;;;
  decr_count.

Definition list_delete_node (node : ptr) : prog unit :=
  list_unlink_node node ;;;
  a <- deref node ;;
  list_free_node a.

Definition list_delete_head : prog unit := h <- get head ;; list_delete_node h.
Definition list_delete_tail : prog unit := t <- get tail ;; list_delete_node t.

(** [for(node = list->head, *next; next = node ? node->next : NULL, node; node = next) body].
    The fuel is the number of live nodes, one turn each. *)
Fixpoint each_node (fuel : nat) (body : Z -> prog unit) (node : ptr) : prog unit :=
  match node with
  | None => ret tt
  | Some a =>
      match fuel with
      | O => stop_ OutOfFuel
      | S fuel => nx <- load next node ;; body a ;;; each_node fuel body nx
      end
  end.

Definition list_each (body : Z -> prog unit) : prog unit :=
  fuel <- get (fun s => size (live s)) ;;
  h <- get head ;;
  each_node fuel body h.

Definition list_delete (d : Z) : prog unit :=
  list_each (fun node =>
    x <- load data (Some node) ;;
    when (x =? d) (list_delete_node (Some node))).

(** [list_get_head], [list_get_tail]: NULL is 0. *)
Definition list_get_head : prog Z :=
  h <- get head ;; if is_some h then load data h else ret 0.
Definition list_get_tail : prog Z :=
  t <- get tail ;; if is_some t then load data t else ret 0.

Definition list_delete_list : prog unit :=
  list_each (fun node => list_free_node node ;;; decr_count) ;;;
  c <- get count ;; check (c =? 0).

Definition list_foreach_node : prog unit :=
  list_each (fun node => modify (fun s => set_log (log s ++ [ActedNode node]) s)).

Definition list_foreach : prog unit :=
  list_each (fun node =>
    d <- load data (Some node) ;;
    when (negb (d =? 0)) (modify (fun s => set_log (log s ++ [Acted d]) s))).

(** ** The list as the caller sees it *)

Module ListSpec.

Record spec := Spec { items : list (Z * Z); fresh : Z; dels : bool; trace : list ev }.

Inductive op :=
  | InsertHead (d : Z) | InsertTail (d : Z) | DeleteNode (a : Z) | DeleteHead | DeleteTail
  | Delete (d : Z) | GetHead | GetTail | ForeachNode | Foreach.

(** What the delete callback is told about an item. *)
Definition told (del : bool) (d : Z) : list ev := if negb (d =? 0) && del then [Deleted d] else [].

Definition remove (a : Z) (s : spec) : spec :=
  match list_find (fun i => i.1 = a) (items s) with
  | Some (_, i) => Spec (filter (fun i => i.1 <> a) (items s)) (fresh s) (dels s) (trace s ++ told (dels s) i.2)
  | None => s
  end.

(** The result is the returned node or payload, 0 where the function returns
    nothing or NULL. *)
Definition step (o : op) (s : spec) : Z * spec :=
  match o with
  | InsertHead d => (fresh s, Spec ((fresh s, d) :: items s) (fresh s + 1) (dels s) (trace s))
  | InsertTail d => (fresh s, Spec (items s ++ [(fresh s, d)]) (fresh s + 1) (dels s) (trace s))
  | DeleteNode a => (0, remove a s)
  | DeleteHead => (0, match list.head (items s) with Some i => remove i.1 s | None => s end)
  | DeleteTail => (0, match last (items s) with Some i => remove i.1 s | None => s end)
  | Delete d =>
      (0, Spec (filter (fun i => i.2 <> d) (items s)) (fresh s) (dels s)
            (trace s ++ concat ((fun i => told (dels s) i.2) <$> filter (fun i => i.2 = d) (items s))))
  | GetHead => (match list.head (items s) with Some i => i.2 | None => 0 end, s)
  | GetTail => (match last (items s) with Some i => i.2 | None => 0 end, s)
  | ForeachNode => (0, Spec (items s) (fresh s) (dels s) (trace s ++ ((fun i => ActedNode i.1) <$> items s)))
  | Foreach => (0, Spec (items s) (fresh s) (dels s)
      (trace s ++ ((fun i => Acted i.2) <$> filter (fun i => i.2 <> 0) (items s))))
  end.

(** Deleting needs a node of the list; an [unsigned int] counts the items. *)
Definition valid (o : op) (s : spec) : Prop :=
  match o with
  | DeleteNode a => a ∈ (items s).*1
  | DeleteHead | DeleteTail => items s <> []
  | InsertHead _ | InsertTail _ => zlen (items s) < 2 ^ 32 - 1
  | _ => True
  end.

Fixpoint run (ops : list op) (s : spec) : list Z * spec :=
  match ops with
  | [] => ([], s)
  | o :: ops => let (r, s) := step o s in let (rs, s) := run ops s in (r :: rs, s)
  end.

Fixpoint all_valid (ops : list op) (s : spec) : Prop :=
  match ops with
  | [] => True
  | o :: ops => valid o s /\ all_valid ops (step o s).2
  end.

End ListSpec.

Definition void (m : prog unit) : prog Z := m ;;; ret 0.

Definition list_op (o : ListSpec.op) : prog Z :=
  match o with
  | ListSpec.InsertHead d => list_insert_head d
  | ListSpec.InsertTail d => list_insert_tail d
  | ListSpec.DeleteNode a => void (list_delete_node (Some a))
  | ListSpec.DeleteHead => void list_delete_head
  | ListSpec.DeleteTail => void list_delete_tail
  | ListSpec.Delete d => void (list_delete d)
  | ListSpec.GetHead => list_get_head
  | ListSpec.GetTail => list_get_tail
  | ListSpec.ForeachNode => void list_foreach_node
  | ListSpec.Foreach => void list_foreach
  end.

Fixpoint list_run (ops : list ListSpec.op) : prog (list Z) :=
  match ops with
  | [] => ret []
  | o :: ops => r <- list_op o ;; rs <- list_run ops ;; ret (r :: rs)
  end.

Definition pair_rep (s : state) (i : Z * Z) : Prop := data s i.1 = i.2.

Record list_rep (sp : ListSpec.spec) (s : state) : Prop := {
  lr_list : dlist (ListSpec.items sp).*1 s;
  lr_data : Forall (pair_rep s) (ListSpec.items sp);
  lr_live : forall a, a ∈ live s -> a < brk s;
  lr_fresh : brk s = ListSpec.fresh sp;
  lr_dels : deletes s = ListSpec.dels sp;
  lr_log : log s = ListSpec.trace sp;
  lr_bound : zlen (ListSpec.items sp) < 2 ^ 32;
}.

Definition op_ok (o : ListSpec.op) (sp : ListSpec.spec) (s : state) : Prop :=
  returns (list_op o s) (fun '(r, s') =>
    r = (ListSpec.step o sp).1 /\ list_rep (ListSpec.step o sp).2 s').

Lemma fresh_not_in sp s : list_rep sp s -> brk s ∉ (ListSpec.items sp).*1.
Proof.
  intros H Hin. apply (dl_live _ _ (lr_list _ _ H)), (lr_live _ _ H) in Hin. lia.
Qed.

Lemma pair_rep_fresh sp s s' :
  list_rep sp s -> (forall a, a <> brk s -> data s' a = data s a) -> Forall (pair_rep s') (ListSpec.items sp).
Proof.
  intros H E. pose proof (fresh_not_in _ _ H) as Hf. pose proof (lr_data _ _ H) as Hd.
  rewrite Forall_forall in *. intros i Hi. unfold pair_rep. rewrite E; [by apply Hd|].
  intros Ei. apply Hf. rewrite <- Ei. apply list_elem_of_fmap. by exists i.
Qed.

(** A new item between two parts of the list. *)
Lemma rep_insert i1 i2 d sp s s' :
  list_rep sp s -> ListSpec.items sp = i1 ++ i2 -> ListSpec.valid (ListSpec.InsertHead d) sp ->
  live s' = {[brk s]} ∪ live s -> brk s' = brk s + 1 ->
  (forall b, data s' b = if decide (b = brk s) then d else data s b) ->
  deletes s' = deletes s -> log s' = log s -> count s' = u32 (count s + 1) ->
  next s' (brk s) = first i2.*1 None -> prev s' (brk s) = final None i1.*1 ->
  (forall b, b <> brk s -> next s' b = if decide (last i1.*1 = Some b) then Some (brk s) else next s b) ->
  (forall b, b <> brk s -> prev s' b = if decide (list.head i2.*1 = Some b) then Some (brk s) else prev s b) ->
  head s' = first (i1.*1 ++ [brk s]) None -> tail s' = final (Some (brk s)) i2.*1 ->
  list_rep (ListSpec.Spec (i1 ++ (ListSpec.fresh sp, d) :: i2) (ListSpec.fresh sp + 1)
    (ListSpec.dels sp) (ListSpec.trace sp)) s'.
Proof.
  intros H Hi Hz Hl Hb Hd Hde Hlo Hc Hn Hp Hnx Hpv Hh Ht.
  pose proof (fresh_not_in _ _ H) as Hf.
  assert (Hda : Forall (pair_rep s') (ListSpec.items sp)).
  { eapply pair_rep_fresh; [done|]. intros a Ha. by rewrite Hd, decide_False. }
  destruct H as [Hdl _ Hlv Hfr Hdl' Hlog Hbd]. rewrite Hi in *. rewrite Hfr in *. rewrite fmap_app in *.
  assert (Hne : forall b, b ∈ i1.*1 ++ i2.*1 -> b <> ListSpec.fresh sp) by (intros b ? ->; done).
  constructor; cbn; try congruence.
  - rewrite fmap_app. eapply (dlist_insert _ _ _ s); try done; [set_solver..|eauto|eauto].
  - rewrite Forall_app in *. rewrite Forall_cons. split; [apply Hda|]. split; [|apply Hda].
    unfold pair_rep. simpl. by rewrite Hd, decide_True.
  - intros a. rewrite Hl. intros [->%elem_of_singleton|Ha%Hlv]%elem_of_union; lia.
  - unfold ListSpec.valid, zlen in *. rewrite Hi, length_app in *. simpl. lia.
Qed.

(** Membership hypotheses, taken apart. *)
Ltac members :=
  repeat match goal with
  | H : _ ∉ _ ++ _ |- _ => apply not_elem_of_app in H as [? ?]
  | H : _ ∉ _ :: _ |- _ => apply not_elem_of_cons in H as [? ?]
  | H : _ ∈ _ ++ _ |- _ => apply elem_of_app in H as [?|?]
  | H : _ ∈ _ :: _ |- _ => apply elem_of_cons in H as [?|?]
  | H : _ ∈ [] |- _ => by apply not_elem_of_nil in H
  end.

(** A goal about one field of an updated state: split on every cell written. *)
Ltac links :=
  intros; unfold upd; cbn; rewrite ?last_snoc, ?final_snoc, ?first_app; repeat case_decide; simplify_eq/=; try done; try congruence;
  members; simplify_eq; try done.

Lemma insert_head_ok d sp s :
  list_rep sp s -> ListSpec.valid (ListSpec.InsertHead d) sp -> op_ok (ListSpec.InsertHead d) sp s.
Proof.
  intros H Hv. pose proof (fresh_not_in _ _ H) as Hf. destruct (lr_list _ _ H) as [Hh Ht _ _ Hin _].
  unfold op_ok, list_op, list_insert_head, list_alloc_node, alloc_node, store_data, incr_count.
  prun. rewrite Hh. destruct (ListSpec.items sp) as [|[b db] l] eqn:El; prun; (split; [apply H|]); cbn [ListSpec.step snd]; rewrite El.
  - apply (rep_insert [] [] d sp s _ H El Hv); clear Hv; links.
  - apply (rep_insert [] ((b, db) :: l) d sp s _ H El Hv); clear Hv; links.
    by rewrite Ht, !final_cons.
Qed.

Lemma insert_tail_ok d sp s :
  list_rep sp s -> ListSpec.valid (ListSpec.InsertTail d) sp -> op_ok (ListSpec.InsertTail d) sp s.
Proof.
  intros H Hv. pose proof (fresh_not_in _ _ H) as Hf. destruct (lr_list _ _ H) as [Hh Ht _ _ Hin _].
  unfold op_ok, list_op, list_insert_tail, list_alloc_node, alloc_node, store_data, incr_count.
  prun. rewrite Ht. destruct (ListSpec.items sp) as [|[b db] l _] eqn:El using rev_ind.
  - prun; (split; [apply H|]); cbn [ListSpec.step snd]; rewrite El. apply (rep_insert [] [] d sp s _ H El Hv); clear Hv; links.
  - rewrite fmap_app in *. cbn [fmap list_fmap] in *. rewrite final_snoc in *. prun. split; [apply H|]. cbn [ListSpec.step snd]. rewrite El.
    apply (rep_insert (l ++ [(b, db)]) [] d sp s _ H); rewrite ?app_nil_r, ?fmap_app; [done|exact Hv|..].
    all: cbn; rewrite ?last_snoc, ?final_snoc; links.
    by rewrite Hh, !first_app.
Qed.

(** Everything but the list links of [s] is as in [s']. *)
Record same_rest (s s' : state) : Prop := {
  sr_parent : parent s' = parent s; sr_left : left s' = left s; sr_right : right s' = right s;
  sr_data : data s' = data s; sr_live : live s' = live s; sr_brk : brk s' = brk s;
  sr_root : root s' = root s; sr_count : count s' = count s; sr_deletes : deletes s' = deletes s;
  sr_log : log s' = log s;
}.

Lemma unlink_links_ok l1 l2 a s :
  dlist (l1 ++ a :: l2) s -> zlen (l1 ++ a :: l2) < 2 ^ 32 ->
  exists s', unlink_links (Some a) s = Done (tt, s') /\ same_rest s s' /\
    next s' a = first l2 None /\ prev s' a = final None l1 /\
    dlist (l1 ++ l2) (set_count (u32 (count s' - 1)) s').
Proof.
  intros Hd Hz. destruct (dlist_at _ _ _ _ Hd) as (Hp & Hn & Hla & Ha1 & Ha2).
  destruct (Hd) as [Hh Ht _ Hnd Hlv Hc].
  assert (Hc0 : negb (count s =? 0) = true).
  { rewrite Hc, u32_small by (split; [apply zlen_nonneg|exact Hz]). apply negb_true_iff, Z.eqb_neq.
    autorewrite with zlen. unfold zlen. simpl. lia. }
  assert (Hc1 : is_some (prev s a) || same (head s) (Some a) = true).
  { rewrite Hp, Hh. destruct l1 as [|b l1 _] using rev_ind; [by apply bool_decide_eq_true|by rewrite final_snoc]. }
  assert (Hc2 : is_some (next s a) || same (tail s) (Some a) = true).
  { rewrite Hn, Ht. destruct l2; [|done]. rewrite final_snoc. by apply bool_decide_eq_true. }
  assert (Hdis : forall b, b ∈ l1 -> b ∉ l2).
  { intros b Hb Hb'. apply NoDup_app in Hnd as (_ & Hx & _). apply (Hx b Hb). by right. }
  unfold unlink_links. clear Hz Hc. prun. rewrite Hp, Hn.
  assert (Hgoal : forall s', same_rest s s' -> next s' a = first l2 None -> prev s' a = final None l1 ->
    (forall b, b ∈ l1 ++ l2 -> next s' b = if decide (last l1 = Some b) then first l2 None else next s b) ->
    (forall b, b ∈ l1 ++ l2 -> prev s' b = if decide (list.head l2 = Some b) then final None l1 else prev s b) ->
    head s' = first (l1 ++ l2) None -> tail s' = final None (l1 ++ l2) ->
    exists s0, Done (tt, s') = Done (tt, s0) /\ same_rest s s0 /\ next s0 a = first l2 None /\ prev s0 a = final None l1 /\
      dlist (l1 ++ l2) (set_count (u32 (count s0 - 1)) s0)).
  { intros s' Hr Hna Hpa Hnx Hpv Hh' Ht'. exists s'. repeat (split; [done|]).
    eapply dlist_remove; [exact Hd|..]; try done; cbn; destruct Hr as [? ? ? ? E ? ? E' ? ?]; [|by rewrite E'].
    intros b _. by rewrite E. }
  destruct l1 as [|b l1 _] using rev_ind; destruct l2 as [|c l2]; rewrite ?final_snoc in *.
  all: prun; apply Hgoal; links; by rewrite ?Hh, ?Ht, ?first_app, ?final_app, ?final_cons.
Qed.

(** [remove] of a node that is there. *)
Lemma remove_at i1 i2 a d sp :
  ListSpec.items sp = i1 ++ (a, d) :: i2 -> NoDup (ListSpec.items sp).*1 ->
  ListSpec.remove a sp =
  ListSpec.Spec (i1 ++ i2) (ListSpec.fresh sp) (ListSpec.dels sp)
    (ListSpec.trace sp ++ ListSpec.told (ListSpec.dels sp) d).
Proof.
  intros Hi Hnd. unfold ListSpec.remove. rewrite Hi in *.
  rewrite fmap_app, fmap_cons in Hnd. apply NoDup_app in Hnd as (_ & H1 & [H2 _]%NoDup_cons).
  assert (Ha1 : Forall (fun i => i.1 <> a) i1).
  { apply Forall_forall. intros i Hin E. apply (H1 i.1); [by apply list_elem_of_fmap_2|]. rewrite E. by left. }
  assert (Ha2 : Forall (fun i => i.1 <> a) i2).
  { apply Forall_forall. intros i Hin E. apply H2. simpl. rewrite <- E. by apply list_elem_of_fmap_2. }
  rewrite (proj2 (list_find_Some (fun i => i.1 = a) _ (length i1) (a, d))).
  - rewrite filter_app, filter_cons_False by (simpl; auto). by rewrite !filter_all.
  - split; [by rewrite list_lookup_middle|]. split; [done|]. intros j y Hy Hj E.
    rewrite lookup_app_l in Hy by done. by apply (Forall_lookup_1 _ _ _ _ Ha1 Hy).
Qed.

Lemma delete_node_ok i1 i2 a d sp s :
  list_rep sp s -> ListSpec.items sp = i1 ++ (a, d) :: i2 ->
  returns (list_delete_node (Some a) s) (fun '(_, s') =>
    list_rep (ListSpec.Spec (i1 ++ i2) (ListSpec.fresh sp) (ListSpec.dels sp)
      (ListSpec.trace sp ++ ListSpec.told (ListSpec.dels sp) d)) s' /\
    (forall b, b ∈ live s' -> b ∈ live s)).
Proof.
  intros [Hl Hd Hlv Hfr Hde Hlo Hb] Hi. rewrite Hi in *. rewrite fmap_app, fmap_cons in Hl.
  destruct (dlist_at _ _ _ _ Hl) as (_ & _ & Hla & Ha1 & Ha2).
  destruct (unlink_links_ok _ _ _ _ Hl) as (s1 & E1 & Hr & _ & _ & Hdl).
  { unfold zlen in *. rewrite !length_app in *. simpl in *. rewrite !length_fmap. done. }
  unfold list_delete_node, list_unlink_node. rewrite run_bind, (bind_done _ _ _ _ _ E1).
  destruct Hr as [_ _ _ Er1 Er2 Er3 _ Er4 Er5 Er6].
  apply Forall_app in Hd as [Hd1 [Hda Hd2]%Forall_cons].
  assert (Hda' : data s1 a = d) by (by rewrite Er1).
  assert (Hla' : a ∈ live s1) by (by rewrite Er2).
  unfold decr_count, list_free_node, free_node. prun. rewrite Hda', Er5.
  assert (Hfin : forall s', data s' = data s1 -> live s' = live s1 ∖ {[a]} -> brk s' = brk s1 -> deletes s' = deletes s1 ->
    next s' = next s1 -> prev s' = prev s1 -> head s' = head s1 -> tail s' = tail s1 ->
    count s' = u32 (count s1 - 1) -> log s' = log s1 ++ ListSpec.told (ListSpec.dels sp) d ->
    list_rep (ListSpec.Spec (i1 ++ i2) (ListSpec.fresh sp) (ListSpec.dels sp)
      (ListSpec.trace sp ++ ListSpec.told (ListSpec.dels sp) d)) s' /\ (forall b, b ∈ live s' -> b ∈ live s)).
  { intros s' F1 F2 F3 F4 F5 F6 F7 F8 F9 F10. split; [|rewrite F2, Er2; set_solver].
    constructor; cbn; try congruence.
    - rewrite fmap_app. eapply dlist_frame; [exact Hdl|..]; try done; cbn.
      + intros b _. by rewrite F5, F6.
      + intros b Hin. rewrite F2. intros ?. apply elem_of_difference. split; [done|].
        intros ->%elem_of_singleton. by apply elem_of_app in Hin as [?|?].
    - unfold pair_rep in *. rewrite F1, Er1. by apply Forall_app.
    - rewrite F2, F3, Er2, Er3. intros b [Hb' _]%elem_of_difference. by apply Hlv.
    - unfold zlen in *. rewrite !length_app in *. simpl in *. lia. }
  unfold ListSpec.told in *. rewrite Hde in *.
  destruct (negb (d =? 0) && ListSpec.dels sp); prun; apply Hfin; cbn; try done. by rewrite app_nil_r.
Qed.

(** ** Traversals *)

(** A traversal whose turn keeps [I done rest]: [done] are the items it has
    visited, [rest] those it has still to visit. *)
Lemma each_ok (body : Z -> prog unit) (I : list (Z * Z) -> list (Z * Z) -> state -> Prop) :
  (forall done x rest s, I done (x :: rest) s ->
     x.1 ∈ live s /\ next s x.1 = first rest.*1 None /\
     returns (body x.1 s) (fun '(_, s') => I (done ++ [x]) rest s')) ->
  forall fuel rest done s, (length rest <= fuel)%nat -> I done rest s ->
  returns (each_node fuel body (first rest.*1 None) s) (fun '(_, s') => I (done ++ rest) [] s').
Proof.
  intros Hb fuel. induction fuel as [|fuel IH]; intros [|x rest] done s Hf Hi; simpl in Hf; try lia.
  - simpl. by rewrite app_nil_r.
  - simpl. by rewrite app_nil_r.
  - destruct (Hb _ _ _ _ Hi) as (Hl & Hn & Hr). cbn [first fmap list_fmap each_node fst].
    rewrite run_load by done. rewrite Hn. unfold bind. eapply returns_bind; [exact Hr|].
    intros [[] s'] Hi'. cbn. replace (done ++ x :: rest) with ((done ++ [x]) ++ rest) by (by rewrite <- app_assoc).
    apply IH; [lia|done].
Qed.

Lemma fuel_enough l s : dlist l s -> (length l <= size (live s))%nat.
Proof.
  intros H. rewrite <- (size_list_to_set (C := gset Z) l) by apply H. apply subseteq_size.
  intros a Ha%elem_of_list_to_set. by apply H.
Qed.

Lemma each_dlist_ok body (I : list (Z * Z) -> list (Z * Z) -> state -> Prop) its s :
  (forall done x rest s, I done (x :: rest) s ->
     x.1 ∈ live s /\ next s x.1 = first rest.*1 None /\
     returns (body x.1 s) (fun '(_, s') => I (done ++ [x]) rest s')) ->
  dlist its.*1 s -> I [] its s -> returns (list_each body s) (fun '(_, s') => I its [] s').
Proof.
  intros Hb H Hi. unfold list_each. prun. rewrite (dl_head _ _ H).
  apply (each_ok body I Hb (size (live s)) its []); [|done].
  pose proof (fuel_enough _ _ H) as Hf. by rewrite length_fmap in Hf.
Qed.

Lemma list_each_ok body I sp s :
  (forall done x rest s, I done (x :: rest) s ->
     x.1 ∈ live s /\ next s x.1 = first rest.*1 None /\
     returns (body x.1 s) (fun '(_, s') => I (done ++ [x]) rest s')) ->
  list_rep sp s -> I [] (ListSpec.items sp) s ->
  returns (list_each body s) (fun '(_, s') => I (ListSpec.items sp) [] s').
Proof.
  intros Hb H. apply each_dlist_ok; [done|apply H].
Qed.

(** The next item of a represented list. *)
Lemma rep_at i1 x i2 sp s :
  list_rep sp s -> ListSpec.items sp = i1 ++ x :: i2 ->
  x.1 ∈ live s /\ next s x.1 = first i2.*1 None /\ data s x.1 = x.2.
Proof.
  intros H Hi. pose proof (lr_list _ _ H) as Hl. pose proof (lr_data _ _ H) as Hd. rewrite Hi in *.
  rewrite fmap_app, fmap_cons in Hl. apply dlist_at in Hl as (_ & ? & ? & _).
  apply Forall_app in Hd as [_ [? _]%Forall_cons]. done.
Qed.

Lemma rep_log sp s e :
  list_rep sp s ->
  list_rep (ListSpec.Spec (ListSpec.items sp) (ListSpec.fresh sp) (ListSpec.dels sp) (ListSpec.trace sp ++ e))
    (set_log (log s ++ e) s).
Proof.
  intros [Hl Hd Hlv Hfr Hde Hlo Hb]. constructor; cbn; try done; [|congruence].
  by eapply dlist_frame.
Qed.

Lemma foreach_ok sp s : list_rep sp s -> op_ok ListSpec.Foreach sp s.
Proof.
  intros H. unfold op_ok, list_op, void, list_foreach. unfold bind at 1. eapply returns_bind.
  - apply (list_each_ok _ (fun dn rest s => list_rep (ListSpec.Spec (dn ++ rest) (ListSpec.fresh sp)
      (ListSpec.dels sp) (ListSpec.trace sp ++ ((fun i => Acted i.2) <$> filter (fun i => i.2 <> 0) dn))) s) sp s);
      [|done|by destruct sp; cbn; rewrite app_nil_r].
    intros dn x rest s1 H1. destruct (rep_at dn x rest _ _ H1) as (Hx & Hn & Hda); [done|].
    repeat (split; [done|]). prun. rewrite Hda. rewrite filter_app, fmap_app, app_assoc, <- app_assoc.
    destruct (x.2 =? 0) eqn:E; ztests; prun.
    + rewrite (filter_cons_False _ x) by auto. cbn. by rewrite app_nil_r.
    + rewrite (filter_cons_True _ x) by auto. cbn. by apply (rep_log _ _ [Acted x.2]) in H1.
  - intros [[] s'] H'. cbn. split; [done|]. by rewrite app_nil_r in H'.
Qed.

Lemma foreach_node_ok sp s : list_rep sp s -> op_ok ListSpec.ForeachNode sp s.
Proof.
  intros H. unfold op_ok, list_op, void, list_foreach_node. unfold bind at 1. eapply returns_bind.
  - apply (list_each_ok _ (fun dn rest s => list_rep (ListSpec.Spec (dn ++ rest) (ListSpec.fresh sp)
      (ListSpec.dels sp) (ListSpec.trace sp ++ ((fun i => ActedNode i.1) <$> dn))) s) sp s);
      [|done|by destruct sp; cbn; rewrite app_nil_r].
    intros dn x rest s1 H1. destruct (rep_at dn x rest _ _ H1) as (Hx & Hn & Hda); [done|].
    repeat (split; [done|]). prun. rewrite fmap_app, app_assoc, <- app_assoc.
    by apply (rep_log _ _ [ActedNode x.1]) in H1.
  - intros [[] s'] H'. cbn. split; [done|]. by rewrite app_nil_r in H'.
Qed.

Lemma delete_ok d sp s : list_rep sp s -> op_ok (ListSpec.Delete d) sp s.
Proof.
  intros H. unfold op_ok, list_op, void, list_delete. unfold bind at 1. eapply returns_bind.
  - apply (list_each_ok _ (fun dn rest s => list_rep (ListSpec.Spec (filter (fun i => i.2 <> d) dn ++ rest)
      (ListSpec.fresh sp) (ListSpec.dels sp) (ListSpec.trace sp ++
        concat ((fun i => ListSpec.told (ListSpec.dels sp) i.2) <$> filter (fun i => i.2 = d) dn))) s) sp s);
      [|done|by destruct sp; cbn; rewrite app_nil_r].
    intros dn x rest s1 H1. destruct (rep_at (filter (fun i => i.2 <> d) dn) x rest _ _ H1) as (Hx & Hn & Hda); [done|].
    repeat (split; [done|]). prun. rewrite Hda. rewrite !filter_app, fmap_app, concat_app.
    destruct (x.2 =? d) eqn:E; ztests.
    + rewrite (filter_cons_False (fun i => i.2 <> d)), (filter_cons_True (fun i => i.2 = d)) by auto.
      cbn. rewrite !app_nil_r, app_assoc. destruct x as [a dx]. cbn in *.
      eapply returns_mono; [exact (delete_node_ok _ _ a dx _ _ H1 eq_refl)|]. intros [[] s'] [H' _]. exact H'.
    + rewrite (filter_cons_True (fun i => i.2 <> d)), (filter_cons_False (fun i => i.2 = d)) by auto.
      prun. cbn. by rewrite app_nil_r, <- app_assoc.
  - intros [[] s'] H'. cbn. split; [done|]. by rewrite app_nil_r in H'.
Qed.

(** ** Deletion by node, head and tail; lookups *)

Lemma delete_at_ok i1 i2 a d sp s :
  list_rep sp s -> ListSpec.items sp = i1 ++ (a, d) :: i2 ->
  returns (void (list_delete_node (Some a)) s) (fun '(r, s') => r = 0 /\ list_rep (ListSpec.remove a sp) s').
Proof.
  intros H Hi. unfold void. unfold bind. eapply returns_bind; [by eapply delete_node_ok|].
  intros [[] s'] [H' _]. cbn. split; [done|]. rewrite (remove_at i1 i2 a d) by (done || apply H). done.
Qed.

Lemma delete_node_turn_ok a sp s :
  list_rep sp s -> ListSpec.valid (ListSpec.DeleteNode a) sp -> op_ok (ListSpec.DeleteNode a) sp s.
Proof.
  intros H [[b d] [-> Hin]]%list_elem_of_fmap. apply list_elem_of_split in Hin as (i1 & i2 & Hi).
  by apply (delete_at_ok i1 i2 b d).
Qed.

Lemma delete_head_ok sp s :
  list_rep sp s -> ListSpec.valid ListSpec.DeleteHead sp -> op_ok ListSpec.DeleteHead sp s.
Proof.
  intros H Hv. unfold op_ok, list_op, void, list_delete_head. cbn [ListSpec.valid ListSpec.step fst snd] in *. prun.
  rewrite (dl_head _ _ (lr_list _ _ H)). destruct (ListSpec.items sp) as [|[a d] i] eqn:Hi; [done|].
  by apply (delete_at_ok [] i a d).
Qed.

Lemma delete_tail_ok sp s :
  list_rep sp s -> ListSpec.valid ListSpec.DeleteTail sp -> op_ok ListSpec.DeleteTail sp s.
Proof.
  intros H Hv. unfold op_ok, list_op, void, list_delete_tail. cbn [ListSpec.valid ListSpec.step fst snd] in *. prun.
  rewrite (dl_tail _ _ (lr_list _ _ H)).
  destruct (ListSpec.items sp) as [|[a d] i _] eqn:Hi using rev_ind; [done|].
  rewrite fmap_app. cbn [fmap list_fmap fst]. rewrite final_snoc, last_snoc. by apply (delete_at_ok i [] a d).
Qed.

Lemma get_head_ok sp s : list_rep sp s -> op_ok ListSpec.GetHead sp s.
Proof.
  intros H. unfold op_ok, list_op, list_get_head. prun. rewrite (dl_head _ _ (lr_list _ _ H)).
  destruct (ListSpec.items sp) as [|[a d] i] eqn:Hi; [prun; cbn; by rewrite Hi|].
  destruct (rep_at [] (a, d) i _ _ H) as (? & _ & Hd); [done|]. cbn in *. prun. cbn. by rewrite Hi.
Qed.

Lemma get_tail_ok sp s : list_rep sp s -> op_ok ListSpec.GetTail sp s.
Proof.
  intros H. unfold op_ok, list_op, list_get_tail. prun. rewrite (dl_tail _ _ (lr_list _ _ H)).
  destruct (ListSpec.items sp) as [|[a d] i _] eqn:Hi using rev_ind; [prun; cbn; by rewrite Hi|].
  rewrite fmap_app. cbn [fmap list_fmap fst]. rewrite final_snoc.
  destruct (rep_at i (a, d) [] _ _ H) as (? & _ & Hd); [done|]. cbn in *. prun. cbn. by rewrite Hi, last_snoc.
Qed.

Lemma list_op_ok o sp s : list_rep sp s -> ListSpec.valid o sp -> op_ok o sp s.
Proof.
  intros H Hv. destruct o.
  - by apply insert_head_ok.
  - by apply insert_tail_ok.
  - by apply delete_node_turn_ok.
  - by apply delete_head_ok.
  - by apply delete_tail_ok.
  - by apply delete_ok.
  - by apply get_head_ok.
  - by apply get_tail_ok.
  - by apply foreach_node_ok.
  - by apply foreach_ok.
Qed.

Lemma list_run_ok ops : forall sp s,
  list_rep sp s -> ListSpec.all_valid ops sp ->
  returns (list_run ops s) (fun '(rs, s') =>
    rs = (ListSpec.run ops sp).1 /\ list_rep (ListSpec.run ops sp).2 s').
Proof.
  induction ops as [|o ops IH]; intros sp s H Hv; [done|]. destruct Hv as [Hv Hvs].
  cbn [list_run ListSpec.run]. unfold bind. eapply returns_bind; [by apply list_op_ok|].
  intros [r s1] [-> H1]. destruct (ListSpec.step o sp) as [r1 sp1]. cbn in *.
  eapply returns_bind; [by apply IH|]. intros [rs s2] [-> H2]. by destruct (ListSpec.run ops sp1).
Qed.

Definition empty_spec (del : bool) : ListSpec.spec := ListSpec.Spec [] 1 del [].

Lemma list_alloc_rep del : list_rep (empty_spec del) (list_alloc del).
Proof.
  constructor; try done. constructor; try done; [apply NoDup_nil_2|]. by intros a Ha%not_elem_of_nil.
Qed.

(** Destroying the list. *)
Lemma delete_list_ok sp s :
  list_rep sp s ->
  returns (list_delete_list s) (fun '(_, s') =>
    log s' = log s ++ concat ((fun i => ListSpec.told (ListSpec.dels sp) i.2) <$> ListSpec.items sp) /\
    live s' = live s ∖ list_to_set (ListSpec.items sp).*1).
Proof.
  intros H. unfold list_delete_list. unfold bind at 1. eapply returns_bind.
  - apply (list_each_ok _ (fun dn rest s' => NoDup rest.*1 /\ Forall (pair_rep s') rest /\ dseg (next s') (prev s') (final None dn.*1) rest.*1 None /\
      deletes s' = ListSpec.dels sp /\ count s' = u32 (zlen rest) /\
      live s' = live s ∖ list_to_set dn.*1 /\ (forall a, a ∈ rest.*1 -> a ∈ live s') /\
      log s' = log s ++ concat ((fun i => ListSpec.told (ListSpec.dels sp) i.2) <$> dn)) sp s); [|done|].
    + intros dn x rest s1 (Hnd & Hd & Hs & Hdl & Hc & Hl & Hin & Hlog).
      rewrite fmap_cons in *. destruct Hs as (Hp & Hn & Hs). apply Forall_cons in Hd as [Hx Hd]. apply NoDup_cons in Hnd as [Hx' Hnd].
      assert (Hlx : x.1 ∈ live s1) by (apply Hin; by left). repeat (split; [done|]).
      unfold list_free_node, free_node, decr_count. prun. rewrite Hx, Hdl.
      assert (Hlog' : log s ++ concat ((fun i => ListSpec.told (ListSpec.dels sp) i.2) <$> (dn ++ [x])) =
        log s1 ++ ListSpec.told (ListSpec.dels sp) x.2).
      { rewrite Hlog, fmap_app, concat_app. cbn. by rewrite app_nil_r, app_assoc. }
      assert (Hfin : u32 (zlen (x :: rest) - 1) = u32 (zlen rest)) by (f_equal; unfold zlen; simpl; lia).
      rewrite Hlog'. unfold ListSpec.told.
      destruct (negb (x.2 =? 0) && ListSpec.dels sp); prun; cbn; splits; try done; try congruence.
      all: rewrite ?fmap_app; cbn; rewrite ?final_snoc, ?Hc, ?u32_sub_l, ?Hfin, ?app_nil_r, ?Hl; try done.
      all: try (rewrite list_to_set_app_L; set_solver).
      all: intros a Ha; specialize (Hin a); rewrite Hl in Hin; set_solver.
    + pose proof (lr_list _ _ H) as [? ? ? ? ? Hc]. unfold zlen in Hc. rewrite length_fmap in Hc.
      splits; try done; [apply H|apply H|cbn; set_solver|cbn; by rewrite app_nil_r].
  - intros [[] s'] (_ & _ & _ & _ & Hc & Hl & _ & Hlog). prun. rewrite Hc. by cbn.
Qed.

(** C17.  The list refines a list of (node, payload) pairs.  From [list_alloc],
    every sequence of insertions, deletions (by node, at either end, by payload),
    lookups and traversals, as long as deletions name nodes that are there,
    returns: no assert fails, no freed node is touched, and each call's result,
    the remaining items and the callbacks made are those of the pair list. *)
Theorem list_refines_pairs del ops :
  ListSpec.all_valid ops (empty_spec del) ->
  exists s, list_run ops (list_alloc del) = Done ((ListSpec.run ops (empty_spec del)).1, s) /\
    list_rep (ListSpec.run ops (empty_spec del)).2 s.
Proof.
  intros Hv. pose proof (list_run_ok ops _ _ (list_alloc_rep del) Hv) as Hr.
  apply returns_done in Hr as ([rs s] & -> & -> & H). by exists s.
Qed.

Lemma list_refines_pairs_witness :
  exists s, list_run [ListSpec.InsertHead 7; ListSpec.InsertTail 8; ListSpec.InsertHead 8; ListSpec.GetTail;
      ListSpec.Delete 8; ListSpec.DeleteHead; ListSpec.GetHead] (list_alloc true) =
    Done ([1; 2; 3; 8; 0; 0; 0], s) /\ log s = [Deleted 8; Deleted 8; Deleted 7].
Proof.
  destruct (list_refines_pairs true [ListSpec.InsertHead 7; ListSpec.InsertTail 8; ListSpec.InsertHead 8; ListSpec.GetTail;
      ListSpec.Delete 8; ListSpec.DeleteHead; ListSpec.GetHead]) as (s & E & H); [vm_compute; repeat split; congruence|].
  exists s. split; [exact E|]. exact (lr_log _ _ H).
Defined.

(** Destroying a list hands every payload that is not NULL to the delete
    callback, in order and once, frees every node, and ends with a zero count. *)
Theorem list_delete_list_frees sp s :
  list_rep sp s ->
  exists s', list_delete_list s = Done (tt, s') /\
    log s' = log s ++ concat ((fun i => ListSpec.told (ListSpec.dels sp) i.2) <$> ListSpec.items sp) /\
    live s' = live s ∖ list_to_set (ListSpec.items sp).*1.
Proof.
  intros H. pose proof (delete_list_ok sp s H) as Hr. apply returns_done in Hr as ([[] s'] & E & H').
  by exists s'.
Qed.

Lemma list_delete_list_frees_witness :
  exists s s', list_run [ListSpec.InsertHead 7; ListSpec.InsertTail 8; ListSpec.InsertTail 0] (list_alloc true) =
      Done ([1; 2; 3], s) /\
    list_delete_list s = Done (tt, s') /\ log s' = log s ++ [Deleted 7; Deleted 8].
Proof.
  pose (ops := [ListSpec.InsertHead 7; ListSpec.InsertTail 8; ListSpec.InsertTail 0]).
  assert (Hv : ListSpec.all_valid ops (empty_spec true)) by (vm_compute; repeat split; congruence).
  pose proof (list_run_ok ops _ _ (list_alloc_rep true) Hv) as Hr.
  apply returns_done in Hr as ([rs s] & E & -> & H).
  destruct (list_delete_list_frees _ s H) as (s' & E' & Hl & _).
  exists s, s'. split; [exact E|]. split; [exact E'|]. exact Hl.
Defined.
