(* ===== verification/SplayTree.v ===== *)
(** The splay tree of src/src/splay_tree.c.

    The state is [Heap.state].  A node is in a tree by [parent], [left] and
    [right] and in a list, in key order, by [next] and [prev].  The two nodes
    [left] and [right] that [splay_top_down] has on its stack are at the addresses
    [dl] and [dr]; they are live while it runs.  [compare] is the tree's callback,
    a parameter. *)
From stdpp Require Import gmap.
From S2P Require Import Prelude Heap LinkedList.

Definition dl : Z := -1.
Definition dr : Z := -2.

Section Splay.
Context (compare : Z -> Z -> Z).

(** ** [splay_top_down]

    One turn of the loop: whether to go on, and the new [root], [leftbottom],
    [rightbottom] and [c]. *)

Definition turn := (bool * ptr * ptr * ptr * Z)%type.

Definition turn_left (d : Z) (root child lb rb : ptr) : prog turn :=
  cd <- load data child ;;
  let c := compare d cd in
  gl <- (if c <? 0 then load left child else ret None) ;;
  if is_some gl then
    store_left rb child ;;;
    store_parent child rb ;;;
    x <- load right child ;;
    store_left root x ;;;
    (if is_some x then store_parent x root else ret tt) ;;;
    store_right child root ;;;
    store_parent root child ;;;
    store_left child None ;;;
    store_parent gl None ;;;
    ret (true, gl, lb, child, c)
  else
    gr <- (if 0 <? c then load right child else ret None) ;;
    if is_some gr then
      store_right lb child ;;;
      store_parent child lb ;;;
      store_right child None ;;;
      store_parent gr None ;;;
      store_left rb root ;;;
      store_parent root rb ;;;
      store_left root None ;;;
      ret (true, gr, child, root, c)
    else
      store_left rb root ;;;
      store_parent root rb ;;;
      store_left root None ;;;
      store_parent child None ;;;
      ret (false, child, lb, root, c).

Definition turn_right (d : Z) (root child lb rb : ptr) : prog turn :=
  cd <- load data child ;;
  let c := compare d cd in
  gr <- (if 0 <? c then load right child else ret None) ;;
  if is_some gr then
    store_right lb child ;;;
    store_parent child lb ;;;
    x <- load left child ;;
    store_right root x ;;;
    (if is_some x then store_parent x root else ret tt) ;;;
    store_left child root ;;;
    store_parent root child ;;;
    store_right child None ;;;
    store_parent gr None ;;;
    ret (true, gr, child, rb, c)
  else
    gl <- (if c <? 0 then load left child else ret None) ;;
    if is_some gl then
      store_left rb child ;;;
      store_parent child rb ;;;
      store_left child None ;;;
      store_parent gl None ;;;
      store_right lb root ;;;
      store_parent root lb ;;;
      store_right root None ;;;
      ret (true, gl, root, child, c)
    else
      store_right lb root ;;;
      store_parent root lb ;;;
      store_right root None ;;;
      store_parent child None ;;;
      ret (false, child, root, rb, c).

Definition top_down_turn (d : Z) (root lb rb : ptr) : prog turn :=
  rd <- load data root ;;
  let c := compare d rd in
  if c =? 0 then ret (false, root, lb, rb, c)
  else
    cl <- (if c <? 0 then load left root else ret None) ;;
    if is_some cl then turn_left d root cl lb rb
    else
      cr <- (if 0 <? c then load right root else ret None) ;;
      if is_some cr then turn_right d root cr lb rb
      else ret (false, root, lb, rb, c).

(** Every turn takes a node off the middle tree: the number of live nodes is
    enough fuel. *)
Fixpoint top_down_loop (fuel : nat) (d : Z) (root lb rb : ptr) : prog (ptr * ptr * ptr * Z) :=
  match fuel with
  | O => stop_ OutOfFuel
  | S fuel =>
      r <- top_down_turn d root lb rb ;;
      let '(go, root, lb, rb, c) := r in
      if go : bool then top_down_loop fuel d root lb rb else ret (root, lb, rb, c)
  end.

(** "Merge trees". *)
Definition merge_left (root lb : ptr) : prog unit :=
  lr <- load right (Some dl) ;;
  if is_some lr then
    rl <- load left root ;;
    (if is_some rl then store_right lb rl ;;; store_parent rl lb else ret tt) ;;;
    store_left root lr ;;;
    store_parent lr root
  else ret tt.

Definition merge_right (root rb : ptr) : prog unit :=
  rl <- load left (Some dr) ;;
  if is_some rl then
    rr <- load right root ;;
    (if is_some rr then store_left rb rr ;;; store_parent rr rb else ret tt) ;;;
    store_right root rl ;;;
    store_parent rl root
  else ret tt.

Definition enter : prog unit :=
  modify (fun s => zero_node dl (zero_node dr (set_live ({[dl]} ∪ ({[dr]} ∪ live s)) s))).
Definition leave : prog unit := modify (fun s => set_live (live s ∖ {[dl]} ∖ {[dr]}) s).

Definition splay_top_down (d : Z) : prog (ptr * Z) :=
  r <- get root ;;
  if is_some r then
    enter ;;;
    fuel <- get (fun s => size (live s)) ;;
    res <- top_down_loop fuel d r (Some dl) (Some dr) ;; let '(r, lb, rb, c) := res in
    merge_left r lb ;;;
    merge_right r rb ;;;
    modify (set_root r) ;;;
    leave ;;;
    ret (r, c)
  else ret (None, 0).

(** ** [splay_bottom_up] *)

(** [if((p->f = x)) x->parent = p] for the left and for the right field. *)
Definition hang_left (p x : ptr) : prog unit :=
  store_left p x ;;; (if is_some x then store_parent x p else ret tt).
Definition hang_right (p x : ptr) : prog unit :=
  store_right p x ;;; (if is_some x then store_parent x p else ret tt).

Definition zig (node par : ptr) : prog unit :=
  pl <- load left par ;;
  (if same node pl then
     x <- load right node ;; hang_left par x ;;; store_right node par
   else
     x <- load left node ;; hang_right par x ;;; store_left node par) ;;;
  store_parent par node ;;;
  store_parent node None.

Definition zigzig_left (node par grand : ptr) : prog unit :=
  x <- load right par ;; hang_left grand x ;;;
  store_right par grand ;;; store_parent grand par ;;;
  y <- load right node ;; hang_left par y ;;;
  store_right node par ;;; store_parent par node.

Definition zigzig_right (node par grand : ptr) : prog unit :=
  x <- load left par ;; hang_right grand x ;;;
  store_left par grand ;;; store_parent grand par ;;;
  y <- load left node ;; hang_right par y ;;;
  store_left node par ;;; store_parent par node.

Definition zigzag_left_right (node par grand : ptr) : prog unit :=
  x <- load left node ;; hang_right par x ;;;
  store_left node par ;;; store_parent par node ;;;
  y <- load right node ;; hang_left grand y ;;;
  store_right node grand ;;; store_parent grand node.

Definition zigzag_right_left (node par grand : ptr) : prog unit :=
  x <- load right node ;; hang_left par x ;;;
  store_right node par ;;; store_parent par node ;;;
  y <- load left node ;; hang_right grand y ;;;
  store_left node grand ;;; store_parent grand node.

Definition double_turn (node par grand : ptr) : prog unit :=
  great <- load parent grand ;;
  pl <- load left par ;; pr <- load right par ;;
  gl <- load left grand ;; gr <- load right grand ;;
  (if same node pl && same par gl then zigzig_left node par grand
   else if same node pr && same par gr then zigzig_right node par grand
   else if same node pr && same par gl then zigzag_left_right node par grand
   else zigzag_right_left node par grand) ;;;
  store_parent node great ;;;
  if is_some great then
    g <- load left great ;;
    if same grand g then store_left great node else store_right great node
  else ret tt.

Fixpoint bottom_up_loop (fuel : nat) (node : ptr) : prog unit :=
  match fuel with
  | O => stop_ OutOfFuel
  | S fuel =>
      par <- load parent node ;;
      if is_some par then
        grand <- load parent par ;;
        (if is_some grand then double_turn node par grand else zig node par) ;;;
        bottom_up_loop fuel node
      else ret tt
  end.

Definition splay_bottom_up (node : ptr) : prog unit :=
  fuel <- get (fun s => size (live s)) ;;
  bottom_up_loop fuel node ;;;
  modify (set_root node).

(** ** Construction and search *)

(** [splay_alloc_tree]: an empty tree, in a memory without nodes. *)
Definition splay_alloc_tree (del : bool) : state :=
  State (fun _ => None) (fun _ => None) (fun _ => None) (fun _ => None) (fun _ => None) (fun _ => 0)
    ∅ 1 None None None 0 del [].

Definition splay_alloc_node : prog Z := alloc_node.
Definition splay_free_node (node : Z) : prog unit := free_node node.

Definition splay_search_closest_node (d : Z) : prog (ptr * Z) := splay_top_down d.

Definition splay_search_node (d : Z) : prog ptr :=
  res <- splay_search_closest_node d ;; let '(node, result) := res in
  ret (if result =? 0 then node else None).

Fixpoint nosplay_loop (fuel : nat) (d : Z) (node : ptr) : prog (ptr * Z) :=
  match fuel with
  | O => stop_ OutOfFuel
  | S fuel =>
      x <- load data node ;;
      let c := compare d x in
      if c <? 0 then
        l <- load left node ;; if is_some l then nosplay_loop fuel d l else ret (node, c)
      else if 0 <? c then
        r <- load right node ;; if is_some r then nosplay_loop fuel d r else ret (node, c)
      else ret (node, c)
  end.

Definition splay_search_closest_node_nosplay (d : Z) : prog (ptr * Z) :=
  r <- get root ;;
  if is_some r then fuel <- get (fun s => size (live s)) ;; nosplay_loop fuel d r else ret (None, 0).

Definition splay_search_closest_smaller_node (d : Z) : prog ptr :=
  res <- splay_search_closest_node d ;; let '(node, result) := res in
  if result <? 0 then load prev node else ret node.

Definition splay_search_closest_greater_node (d : Z) : prog ptr :=
  res <- splay_search_closest_node d ;; let '(node, result) := res in
  if 0 <? result then load next node else ret node.

(** [return node ? node->data : NULL]; NULL is 0. *)
Definition data_of (node : ptr) : prog Z := if is_some node then load data node else ret 0.

Definition splay_search (d : Z) : prog Z := node <- splay_search_node d ;; data_of node.
Definition splay_search_closest (d : Z) : prog (Z * Z) :=
  res <- splay_search_closest_node d ;; let '(node, result) := res in x <- data_of node ;; ret (x, result).
Definition splay_search_closest_smaller (d : Z) : prog Z :=
  node <- splay_search_closest_smaller_node d ;; data_of node.
Definition splay_search_closest_greater (d : Z) : prog Z :=
  node <- splay_search_closest_greater_node d ;; data_of node.

(** ** Insertion *)

Definition splay_insert_top (node : ptr) : prog unit :=
  store_parent node None ;;; store_right node None ;;; store_left node None ;;;
  store_next node None ;;; store_prev node None ;;;
  modify (fun s => set_head node (set_tail node (set_root node s))) ;;;
  incr_count.

(** Insertion before and after a node: the list, then, with that node splayed to
    the root, the tree. *)
Definition link_before (before node : ptr) : prog unit :=
  store_next node before ;;;
  p <- load prev before ;;
  store_prev node p ;;;
  (if is_some p then store_next p node else modify (set_head node)) ;;;
  store_prev before node.

Definition hang_before (before node : ptr) : prog unit :=
  store_right node before ;;;
  store_parent before node ;;;
  l <- load left before ;;
  hang_left node l ;;;
  store_left before None ;;;
  store_parent node None.

Definition insert_before_at (before node : ptr) : prog unit :=
  link_before before node ;;;
  splay_bottom_up before ;;;
  hang_before before node ;;;
  modify (set_root node) ;;;
  incr_count.

Definition link_after (after node : ptr) : prog unit :=
  store_prev node after ;;;
  n <- load next after ;;
  store_next node n ;;;
  (if is_some n then store_prev n node else modify (set_tail node)) ;;;
  store_next after node.

Definition hang_after (after node : ptr) : prog unit :=
  store_left node after ;;;
  store_parent after node ;;;
  r <- load right after ;;
  hang_right node r ;;;
  store_right after None ;;;
  store_parent node None.

Definition insert_after_at (after node : ptr) : prog unit :=
  link_after after node ;;;
  splay_bottom_up after ;;;
  hang_after after node ;;;
  modify (set_root node) ;;;
  incr_count.

Definition splay_insert_before (before node : ptr) : prog unit :=
  if is_some before then insert_before_at before node
  else t <- get tail ;; if is_some t then insert_after_at t node else splay_insert_top node.

Definition splay_insert_after (after node : ptr) : prog unit :=
  if is_some after then insert_after_at after node
  else h <- get head ;; if is_some h then insert_before_at h node else splay_insert_top node.

Definition splay_insert (d : Z) : prog ptr :=
  r <- get root ;;
  if is_some r then
    res <- splay_search_closest_node d ;; let '(closest, result) := res in
    if result =? 0 then ret None
    else
      node <- splay_alloc_node ;;
      store_data (Some node) d ;;;
      (if result <? 0 then splay_insert_before closest (Some node) else splay_insert_after closest (Some node)) ;;;
      ret (Some node)
  else
    node <- splay_alloc_node ;;
    store_data (Some node) d ;;;
    splay_insert_top (Some node) ;;;
    ret (Some node).

Definition splay_insert_node (node : ptr) : prog ptr :=
  store_prev node None ;;; store_next node None ;;; store_parent node None ;;;
  store_right node None ;;; store_left node None ;;;
  r <- get root ;;
  if is_some r then
    d <- load data node ;;
    res <- splay_search_closest_node d ;; let '(closest, result) := res in
    if result =? 0 then ret None
    else
      (if result <? 0 then splay_insert_before closest node else splay_insert_after closest node) ;;;
      ret node
  else splay_insert_top node ;;; ret node.

(** ** Deletion *)

(** The root leaves the tree: its subtrees are joined. *)
Definition drop_root (node : ptr) : prog unit :=
  p <- load prev node ;;
  n <- load next node ;;
  if is_some p then
    l <- load left node ;;
    store_parent l None ;;;
    modify (set_root l) ;;;
    r <- load right node ;;
    hang_right p r
  else if is_some n then
    r <- load right node ;;
    modify (set_root r) ;;;
    store_parent r None
  else modify (set_root None).

Definition splay_unlink_node (node : ptr) : prog unit :=
  unlink_links node ;;;
  splay_bottom_up node ;;;
  drop_root node ;;;
  decr_count.

Definition splay_unlink (d : Z) : prog ptr :=
  node <- splay_search_node d ;;
  (if is_some node then splay_unlink_node node else ret tt) ;;;
  ret node.

Definition splay_delete_node (node : ptr) : prog unit :=
  splay_unlink_node node ;;;
  a <- deref node ;;
  splay_free_node a.

Definition splay_delete (d : Z) : prog unit :=
  node <- splay_search_node d ;;
  if is_some node then splay_delete_node node else ret tt.

(** ** Traversal *)

Definition splay_delete_tree : prog unit :=
  list_each (fun node => splay_free_node node ;;; decr_count) ;;;
  c <- get count ;; check (c =? 0).

Definition splay_foreach : prog unit :=
  list_each (fun node => d <- load data (Some node) ;; modify (fun s => set_log (log s ++ [Acted d]) s)).

Definition splay_foreach_node : prog unit :=
  list_each (fun node => modify (fun s => set_log (log s ++ [ActedNode node]) s)).

End Splay.
