(* ===== verification/SplayShape.v ===== *)
(** Shapes of pointer trees: what [left], [right] and [parent] of a tree's nodes
    hold, for whole trees and for trees with a hole, and the effect of the
    rotations of src/src/splay_tree.c on them. *)
From stdpp Require Import gmap.
From S2P Require Import Prelude Heap LinkedList SplayTree.

Inductive tree := Leaf | Node (l : tree) (a : Z) (r : tree).

#[export] Instance tree_eq_dec : EqDecision tree.
Proof. solve_decision. Defined.

Fixpoint elems (t : tree) : list Z :=
  match t with Leaf => [] | Node l a r => elems l ++ a :: elems r end.

Definition rt (t : tree) : ptr := match t with Leaf => None | Node _ a _ => Some a end.

(** A tree with a hole: the frames from the hole up to the root. *)
Inductive frame := InL (a : Z) (r : tree) | InR (l : tree) (a : Z).

Definition fill (t : tree) (f : frame) : tree :=
  match f with InL a r => Node t a r | InR l a => Node l a t end.
Definition plug (c : list frame) (t : tree) : tree := fold_left fill c t.

Definition at_ (f : frame) : Z := match f with InL a _ | InR _ a => a end.
Definition bot (c : list frame) : ptr := match c with [] => None | f :: _ => Some (at_ f) end.

Fixpoint before (c : list frame) : list Z :=
  match c with
  | [] => []
  | InL _ _ :: c => before c
  | InR l a :: c => before c ++ elems l ++ [a]
  end.

Fixpoint after (c : list frame) : list Z :=
  match c with
  | [] => []
  | InL a r :: c => a :: elems r ++ after c
  | InR _ _ :: c => after c
  end.

Lemma elems_plug c : forall t, elems (plug c t) = before c ++ elems t ++ after c.
Proof.
  induction c as [|[a r|l a] c IH]; intros t; simpl; [by rewrite app_nil_r|..];
    rewrite IH; simpl; by rewrite <- ?app_assoc.
Qed.

Lemma plug_app c1 c2 t : plug (c1 ++ c2) t = plug c2 (plug c1 t).
Proof. apply fold_left_app. Qed.

Lemma before_app c1 c2 : before (c1 ++ c2) = before c2 ++ before c1.
Proof. induction c1 as [|[] c1 IH]; simpl; [by rewrite app_nil_r|done|]. by rewrite IH, <- app_assoc. Qed.

Lemma after_app c1 c2 : after (c1 ++ c2) = after c1 ++ after c2.
Proof. induction c1 as [|[] c1 IH]; simpl; [done| |done]. by rewrite IH, <- app_assoc. Qed.

(** ** What the fields hold *)

Section Fields.
Context (L R P : Z -> ptr).

Fixpoint rep (p : ptr) (t : tree) : Prop :=
  match t with
  | Leaf => True
  | Node l a r => L a = rt l /\ R a = rt r /\ P a = p /\ rep (Some a) l /\ rep (Some a) r
  end.

Fixpoint rep_ctx (c : list frame) (hole : ptr) : Prop :=
  match c with
  | [] => True
  | InL a r :: c => L a = hole /\ R a = rt r /\ P a = bot c /\ rep (Some a) r /\ rep_ctx c (Some a)
  | InR l a :: c => L a = rt l /\ R a = hole /\ P a = bot c /\ rep (Some a) l /\ rep_ctx c (Some a)
  end.

Lemma rep_plug c : forall t, rep None (plug c t) <-> rep_ctx c (rt t) /\ rep (bot c) t.
Proof.
  induction c as [|[a r|l a] c IH]; intros t; simpl; [tauto|..]; rewrite IH; simpl; tauto.
Qed.

Lemma rep_parent p t a : rep p t -> rt t = Some a -> P a = p.
Proof. destruct t; simpl; [done|]. intros (_ & _ & ? & _) [= <-]. done. Qed.

End Fields.

Lemma rt_elem t a : rt t = Some a -> a ∈ elems t.
Proof. destruct t; simpl; [done|]. intros [= ->]. apply elem_of_app. right. by left. Qed.

Lemma rt_none t : rt t = None -> t = Leaf.
Proof. by destruct t. Qed.

Lemma rep_frame L R P L' R' P' t : forall p,
  (forall x, x ∈ elems t -> L' x = L x /\ R' x = R x /\ P' x = P x) -> rep L R P p t -> rep L' R' P' p t.
Proof.
  induction t as [|l IHl a r IHr]; intros p H; simpl; [done|]. intros (H1 & H2 & H3 & H4 & H5).
  destruct (H a) as (-> & -> & ->); [simpl; apply elem_of_app; right; by left|].
  repeat (split; [done|]). split; [apply IHl|apply IHr]; try done; intros x Hx; apply H; simpl; apply elem_of_app; [by left|].
  right. by right.
Qed.

(** A subtree hung below another node. *)
Lemma rep_move L R P L' R' P' t p p' :
  NoDup (elems t) -> rep L R P p t ->
  (forall x, x ∈ elems t -> L' x = L x /\ R' x = R x) ->
  (forall x, x ∈ elems t -> rt t <> Some x -> P' x = P x) ->
  (forall x, rt t = Some x -> P' x = p') -> rep L' R' P' p' t.
Proof.
  destruct t as [|l a r]; simpl; [done|]. intros Hnd (H1 & H2 & H3 & H4 & H5) HLR HP Hr.
  apply NoDup_app in Hnd as (_ & Hd & [Hd' _]%NoDup_cons).
  destruct (HLR a) as [-> ->]; [apply elem_of_app; right; by left|].
  repeat (split; [done|]). split; [by apply Hr|].
  split; (eapply rep_frame; [|eassumption]); intros x Hx;
    (assert (Hin : x ∈ elems l ++ a :: elems r) by (apply elem_of_app; first [by left | right; by right]));
    (destruct (HLR x Hin) as [-> ->]); (split; [done|]); (split; [done|]); (apply HP; [done|]); intros [= <-].
  - apply (Hd a Hx). by left.
  - done.
Qed.

Lemma ctx_frame L R P L' R' P' c : forall hole,
  (forall x, x ∈ before c \/ x ∈ after c -> L' x = L x /\ R' x = R x /\ P' x = P x) ->
  rep_ctx L R P c hole -> rep_ctx L' R' P' c hole.
Proof.
  induction c as [|[a r|l a] c IH]; intros hole H; simpl; [done|..]; intros (H1 & H2 & H3 & H4 & H5);
    (destruct (H a) as (-> & -> & ->); [simpl; set_solver|]); repeat (split; [done|]);
    (split; [eapply rep_frame; [|done]|apply IH; [|done]]); intros x Hx; apply H; simpl; set_solver.
Qed.

(** Another subtree in the hole. *)
Lemma ctx_hole L R P L' R' P' c hole hole' :
  NoDup (before c ++ after c) ->
  rep_ctx L R P c hole ->
  (forall x, x ∈ before c \/ x ∈ after c -> bot c <> Some x -> L' x = L x /\ R' x = R x) ->
  (forall x, x ∈ before c \/ x ∈ after c -> P' x = P x) ->
  match c with
  | [] => True
  | InL a r :: _ => L' a = hole' /\ R' a = R a
  | InR l a :: _ => R' a = hole' /\ L' a = L a
  end -> rep_ctx L' R' P' c hole'.
Proof.
  destruct c as [|[a r|l a] c]; simpl; [done|..]; intros Hnd (H1 & H2 & H3 & H4 & H5) HLR HP [Ha1 Ha2].
  - apply NoDup_app in Hnd as (_ & Hd1 & [Hd2 _]%NoDup_cons). rewrite Ha1, Ha2, HP by set_solver.
    repeat (split; [done|]). split; [eapply rep_frame|eapply ctx_frame]; [|done| |done];
      intros x Hx; (assert (x <> a) by set_solver); (destruct (HLR x) as [-> ->]; [set_solver|congruence|]);
      rewrite HP by set_solver; done.
  - apply NoDup_app in Hnd as (Hn & Hd1 & _). apply NoDup_app in Hn as (_ & Hd2 & Hn). apply NoDup_app in Hn as (_ & Hd3 & _).
    rewrite Ha1, Ha2, HP by set_solver.
    repeat (split; [done|]). split; [eapply rep_frame|eapply ctx_frame]; [|done| |done];
      intros x Hx; (assert (x <> a) by set_solver); (destruct (HLR x) as [-> ->]; [set_solver|congruence|]);
      rewrite HP by set_solver; done.
Qed.

(** ** Telling nodes apart

    A list without duplicates, cut into pieces: every node has the number of its
    piece, so that two nodes of different pieces are different. *)
Lemma colours (ps : list (list Z)) :
  NoDup (concat ps) ->
  exists own : Z -> nat, forall i l, ps !! i = Some l -> NoDup l /\ forall x, x ∈ l -> own x = i.
Proof.
  induction ps as [|l ps IH]; simpl; intros Hnd; [by exists (fun _ => O)|].
  apply NoDup_app in Hnd as (Hl & Hd & Hnd). destruct (IH Hnd) as [own Hown].
  exists (fun x => if decide (x ∈ l) then O else S (own x)). intros [|i] k; simpl.
  - intros [= ->]. split; [done|]. intros x Hx. by rewrite decide_True.
  - intros Hk. split; [by apply (Hown i k)|]. intros x Hx. rewrite decide_False; [f_equal; by apply (Hown i k)|].
    intros Hl'. apply (Hd x Hl'). apply list_elem_of_In, in_concat. exists k.
    split; apply list_elem_of_In; [by eapply list_elem_of_lookup_2|done].
Qed.

(** Lists written with [++] and [::], associated to the right. *)
Ltac flat_in H := cbn in H; repeat (progress (rewrite <- ?app_assoc, ?app_nil_r in H; cbn in H)).
Ltac flat := cbn; repeat (progress (rewrite <- ?app_assoc, ?app_nil_r; cbn)).
Ltac flat_by H := let H' := fresh in pose proof H as H'; flat_in H'; flat; exact H'.

Ltac own_facts Hown own i ps :=
  lazymatch ps with
  | nil => idtac
  | cons (cons ?a nil) ?ps' =>
      pose proof (proj2 (Hown i [a] eq_refl) a (list_elem_of_here a nil) : own a = i);
      own_facts Hown own (S i) ps'
  | cons ?l ?ps' =>
      pose proof (proj1 (Hown i l eq_refl) : NoDup l);
      pose proof (proj2 (Hown i l eq_refl) : forall x, x ∈ l -> own x = i);
      own_facts Hown own (S i) ps'
  end.

(** [colour H ps]: number the pieces [ps] of the duplicate-free list of [H]. *)
Tactic Notation "colour" constr(H) constr(ps) :=
  let own := fresh "own" in let Hown := fresh "Hown" in
  destruct (colours ps) as [own Hown]; [flat_by H | own_facts Hown own O ps; clear Hown].

Ltac owns :=
  repeat match goal with
  | E : after ?c = [], Hx : _ ∈ after ?c |- _ => rewrite E in Hx; by apply not_elem_of_nil in Hx
  | E : before ?c = [], Hx : _ ∈ before ?c |- _ => rewrite E in Hx; by apply not_elem_of_nil in Hx
  | E : rt ?t = Some ?a |- _ =>
      lazymatch goal with _ : a ∈ elems t |- _ => fail | _ => pose proof (rt_elem _ _ E) end
  end;
  repeat match goal with
  | H : forall x, x ∈ ?l -> ?own x = ?n, Hx : ?y ∈ ?l |- _ =>
      lazymatch goal with _ : own y = n |- _ => fail | _ => pose proof (H y Hx) end
  end.

(** A field of a node after some writes. *)
Ltac field := unfold upd; repeat case_decide; owns; congruence.

(** The shape of the trees after some writes, from the shapes before. *)
Ltac shape :=
  cbn; splits;
  lazymatch goal with
  | |- rep_ctx _ _ _ _ _ => eapply ctx_frame; [|eassumption]; intros ? [?|?]; splits; field
  | |- rep _ _ _ _ _ =>
      first [ eapply rep_frame; [|eassumption]; intros ? ?; splits; field
            | eapply rep_move; [eassumption | eassumption | intros ? ?; splits; field | intros ? ? ?; field | intros ? ?; field] ]
  | |- _ = _ => field
  | |- True => exact I
  end.

(** Only the tree's links differ. *)
Record tree_only (s s' : state) : Prop := {
  to_next : next s' = next s; to_prev : prev s' = prev s; to_data : data s' = data s;
  to_live : live s' = live s; to_brk : brk s' = brk s; to_head : head s' = head s;
  to_tail : tail s' = tail s; to_root : root s' = root s; to_count : count s' = count s;
  to_deletes : deletes s' = deletes s; to_log : log s' = log s;
}.

#[export] Instance tree_only_preorder : PreOrder tree_only.
Proof.
  split; [by intros s; constructor|]. intros s1 s2 s3 [] []. constructor; congruence.
Qed.

(** ** The loop of [splay_top_down]

    Between turns there are three trees: the left one, all of it before the key,
    with its hole at the bottom right; the middle one; the right one. *)
Record td (s : state) (cl : list frame) (t : tree) (cr : list frame) : Prop := {
  td_l : rep_ctx (left s) (right s) (parent s) cl None;
  td_r : rep_ctx (left s) (right s) (parent s) cr None;
  td_t : rep (left s) (right s) (parent s) None t;
  td_al : after cl = [];
  td_br : before cr = [];
  td_nd : NoDup (before cl ++ elems t ++ after cr);
  td_live : forall x, x ∈ before cl ++ elems t ++ after cr -> x ∈ live s;
  td_cl : cl <> [];
  td_cr : cr <> [];
}.

(** Rewrite the loads by what the fields are known to hold. *)
Ltac known :=
  repeat match goal with
  | E : left ?s ?a = _ |- context [left ?s ?a] => rewrite E
  | E : right ?s ?a = _ |- context [right ?s ?a] => rewrite E
  | E : parent ?s ?a = _ |- context [parent ?s ?a] => rewrite E
  end.

(** Case split on the root of a subtree, which is live when there is one. *)
Ltac root_case t L :=
  let E := fresh "E" in let x := fresh "n" in destruct (rt t) as [x|] eqn:E; [pose proof (L x eq_refl)|].

Section TopDown.
Context (compare : Z -> Z -> Z).

(** Take a [td] apart: the bottom nodes of the two outer trees are [lb] and [rb]. *)
Lemma td_cases s cl t cr :
  td s cl t cr -> exists Lb lb cl' rb Rb cr', cl = InR Lb lb :: cl' /\ cr = InL rb Rb :: cr'.
Proof.
  intros [Hl Hr Ht Hal Hbr Hnd Hlv Hcl Hcr].
  destruct cl as [|[|Lb lb] cl]; [done|done|]. destruct cr as [|[rb Rb|] cr]; [done|by eauto 10|].
  by apply app_nil in Hbr as [_ [_ ?]%app_nil].
Qed.

Ltac td_open H :=
  destruct (td_cases _ _ _ _ H) as (Lb & lb & cl' & rb & Rb & cr' & -> & ->);
  destruct H as [Hl Hr Ht Hal Hbr Hnd Hlv _ _]; cbn [rep rep_ctx bot at_ elems before after rt] in *;
  destruct_and?.

Ltac td_close Hnd Hlv :=
  eexists; split; [done|]; split; [by constructor|];
  constructor; [shape..|done|done|flat_by Hnd|intros x Hx; apply Hlv; revert Hx; flat; tauto|done|done].

Lemma zigzig_left_turn d s cl cr C b B a A :
  td s cl (Node (Node C b B) a A) cr -> compare d (data s b) < 0 -> C <> Leaf ->
  exists s', turn_left compare d (Some a) (Some b) (bot cl) (bot cr) s =
      Done ((true, rt C, bot cl, Some b, compare d (data s b)), s') /\
    tree_only s s' /\ td s' cl C (InL b (Node B a A) :: cr).
Proof.
  intros H Hc HC. td_open H.
  colour Hnd [before cl'; elems Lb; [lb]; elems C; [b]; elems B; [a]; elems A; [rb]; elems Rb; after cr'].
  assert (a ∈ live s /\ b ∈ live s /\ lb ∈ live s /\ rb ∈ live s /\
    (forall x, rt B = Some x -> x ∈ live s) /\ (forall x, rt C = Some x -> x ∈ live s)) as (? & ? & ? & ? & LB & LC)
    by (splits; try (intros x ?%rt_elem); apply Hlv; set_solver).
  unfold turn_left. prun. rewrite (proj2 (Z.ltb_lt _ _) Hc). prun. known.
  root_case C LC; [|by apply rt_none in E]. prun. known. root_case B LB; prun; td_close Hnd Hlv.
Qed.

Lemma zigzag_left_turn d s cl cr B b C a A :
  td s cl (Node (Node B b C) a A) cr -> 0 < compare d (data s b) -> C <> Leaf ->
  exists s', turn_left compare d (Some a) (Some b) (bot cl) (bot cr) s =
      Done ((true, rt C, Some b, Some a, compare d (data s b)), s') /\
    tree_only s s' /\ td s' (InR B b :: cl) C (InL a A :: cr).
Proof.
  intros H Hc HC. td_open H.
  colour Hnd [before cl'; elems Lb; [lb]; elems B; [b]; elems C; [a]; elems A; [rb]; elems Rb; after cr'].
  assert (a ∈ live s /\ b ∈ live s /\ lb ∈ live s /\ rb ∈ live s /\
    (forall x, rt C = Some x -> x ∈ live s)) as (? & ? & ? & ? & LC)
    by (splits; try (intros x ?%rt_elem); apply Hlv; set_solver).
  unfold turn_left. prun. rewrite (proj2 (Z.ltb_ge _ 0)) by lia. prun. rewrite (proj2 (Z.ltb_lt _ _) Hc). prun. known.
  root_case C LC; [|by apply rt_none in E]. prun. td_close Hnd Hlv.
Qed.

Lemma zig_left_turn d s cl cr B b C a A :
  td s cl (Node (Node B b C) a A) cr ->
  (compare d (data s b) < 0 -> B = Leaf) -> (0 < compare d (data s b) -> C = Leaf) ->
  exists s', turn_left compare d (Some a) (Some b) (bot cl) (bot cr) s =
      Done ((false, Some b, bot cl, Some a, compare d (data s b)), s') /\
    tree_only s s' /\ td s' cl (Node B b C) (InL a A :: cr).
Proof.
  intros H H1 H2. td_open H.
  colour Hnd [before cl'; elems Lb; [lb]; elems B; [b]; elems C; [a]; elems A; [rb]; elems Rb; after cr'].
  assert (a ∈ live s /\ b ∈ live s /\ lb ∈ live s /\ rb ∈ live s) as (? & ? & ? & ?)
    by (splits; apply Hlv; set_solver).
  unfold turn_left. prun.
  destruct (compare d (data s b) <? 0) eqn:E1; ztests; prun; known; [assert (rt B = None) as -> by (by rewrite H1); prun|].
  - rewrite (proj2 (Z.ltb_ge 0 _)) by lia. prun. td_close Hnd Hlv.
  - destruct (0 <? compare d (data s b)) eqn:E2; ztests; prun; known; [assert (rt C = None) as -> by (by rewrite H2)|]; prun; td_close Hnd Hlv.
Qed.
Lemma zigzig_right_turn d s cl cr C b B a A :
  td s cl (Node A a (Node B b C)) cr -> 0 < compare d (data s b) -> C <> Leaf ->
  exists s', turn_right compare d (Some a) (Some b) (bot cl) (bot cr) s =
      Done ((true, rt C, Some b, bot cr, compare d (data s b)), s') /\
    tree_only s s' /\ td s' (InR (Node A a B) b :: cl) C cr.
Proof.
  intros H Hc HC. td_open H.
  colour Hnd [before cl'; elems Lb; [lb]; elems A; [a]; elems B; [b]; elems C; [rb]; elems Rb; after cr'].
  assert (a ∈ live s /\ b ∈ live s /\ lb ∈ live s /\ rb ∈ live s /\
    (forall x, rt B = Some x -> x ∈ live s) /\ (forall x, rt C = Some x -> x ∈ live s)) as (? & ? & ? & ? & LB & LC)
    by (splits; try (intros x ?%rt_elem); apply Hlv; set_solver).
  unfold turn_right. prun. rewrite (proj2 (Z.ltb_lt _ _) Hc). prun. known.
  root_case C LC; [|by apply rt_none in E]. prun. known. root_case B LB; prun; td_close Hnd Hlv.
Qed.

Lemma zigzag_right_turn d s cl cr B b C a A :
  td s cl (Node A a (Node C b B)) cr -> compare d (data s b) < 0 -> C <> Leaf ->
  exists s', turn_right compare d (Some a) (Some b) (bot cl) (bot cr) s =
      Done ((true, rt C, Some a, Some b, compare d (data s b)), s') /\
    tree_only s s' /\ td s' (InR A a :: cl) C (InL b B :: cr).
Proof.
  intros H Hc HC. td_open H.
  colour Hnd [before cl'; elems Lb; [lb]; elems A; [a]; elems C; [b]; elems B; [rb]; elems Rb; after cr'].
  assert (a ∈ live s /\ b ∈ live s /\ lb ∈ live s /\ rb ∈ live s /\
    (forall x, rt C = Some x -> x ∈ live s)) as (? & ? & ? & ? & LC)
    by (splits; try (intros x ?%rt_elem); apply Hlv; set_solver).
  unfold turn_right. prun. rewrite (proj2 (Z.ltb_ge 0 _)) by lia. prun. rewrite (proj2 (Z.ltb_lt _ _) Hc). prun. known.
  root_case C LC; [|by apply rt_none in E]. prun. td_close Hnd Hlv.
Qed.

Lemma zig_right_turn d s cl cr B b C a A :
  td s cl (Node A a (Node B b C)) cr ->
  (compare d (data s b) < 0 -> B = Leaf) -> (0 < compare d (data s b) -> C = Leaf) ->
  exists s', turn_right compare d (Some a) (Some b) (bot cl) (bot cr) s =
      Done ((false, Some b, Some a, bot cr, compare d (data s b)), s') /\
    tree_only s s' /\ td s' (InR A a :: cl) (Node B b C) cr.
Proof.
  intros H H1 H2. td_open H.
  colour Hnd [before cl'; elems Lb; [lb]; elems A; [a]; elems B; [b]; elems C; [rb]; elems Rb; after cr'].
  assert (a ∈ live s /\ b ∈ live s /\ lb ∈ live s /\ rb ∈ live s) as (? & ? & ? & ?)
    by (splits; apply Hlv; set_solver).
  unfold turn_right. prun.
  destruct (0 <? compare d (data s b)) eqn:E1; ztests; prun; known; [assert (rt C = None) as -> by (by rewrite H2); prun|].
  - rewrite (proj2 (Z.ltb_ge _ 0)) by lia. prun. td_close Hnd Hlv.
  - destruct (compare d (data s b) <? 0) eqn:E2; ztests; prun; known; [assert (rt B = None) as -> by (by rewrite H1)|]; prun; td_close Hnd Hlv.
Qed.
End TopDown.
