(* ===== verification/SplayUp.v ===== *)
(** [splay_bottom_up] of src/src/splay_tree.c: the rotations move a node to the
    root and keep the order of the nodes. *)
From stdpp Require Import gmap.
From S2P Require Import Prelude Heap LinkedList SplayTree SplayShape.

(** The tree in memory. *)
Definition shaped (s : state) (p : ptr) (t : tree) : Prop := rep (left s) (right s) (parent s) p t.

(** Outside the nodes of [l] the links are the same. *)
Definition outside (l : list Z) (s s' : state) : Prop :=
  forall x, x ∉ l -> left s' x = left s x /\ right s' x = right s x /\ parent s' x = parent s x.

(** ** Rotations *)

Ltac lives_by Hlv := splits; try (intros ? ?%rt_elem); intros; apply Hlv; cbn; set_solver.

Ltac outside_by :=
  intros ? Hout; cbn in Hout |- *; repeat (progress (rewrite ?elem_of_app, ?elem_of_cons in Hout));
  unfold upd; splits; repeat case_decide; subst; try done; exfalso; apply Hout;
  repeat match goal with E : rt _ = Some _ |- _ => apply rt_elem in E end; tauto.

Lemma zigzig_left_ok s p A a B b C g D :
  let t := Node (Node (Node A a B) b C) g D in
  shaped s p t -> NoDup (elems t) -> (forall x, x ∈ elems t -> x ∈ live s) ->
  exists s', zigzig_left (Some a) (Some b) (Some g) s = Done (tt, s') /\ tree_only s s' /\
    outside (elems t) s s' /\ shaped s' (Some b) (Node A a (Node B b (Node C g D))).
Proof.
  intros t Ht Hnd Hlv. subst t. unfold shaped in *. cbn [rep rt elems] in *. destruct_and?.
  colour Hnd [elems A; [a]; elems B; [b]; elems C; [g]; elems D].
  assert (a ∈ live s /\ b ∈ live s /\ g ∈ live s /\ (forall x, rt B = Some x -> x ∈ live s) /\
    (forall x, rt C = Some x -> x ∈ live s)) as (? & ? & ? & LB & LC) by lives_by Hlv.
  unfold zigzig_left, hang_left. prun. known. root_case C LC; prun.
  all: rewrite upd_other by (owns; congruence); known; root_case B LB; prun.
  all: eexists; split; [done|]; split; [by constructor|]; split; [|shape].
  all: outside_by.
Qed.

Ltac rotated :=
  eexists; split; [done|]; split; [by constructor|]; split; [outside_by|shape].

Lemma zigzig_right_ok s p A a B b C g D :
  let t := Node D g (Node C b (Node B a A)) in
  shaped s p t -> NoDup (elems t) -> (forall x, x ∈ elems t -> x ∈ live s) ->
  exists s', zigzig_right (Some a) (Some b) (Some g) s = Done (tt, s') /\ tree_only s s' /\
    outside (elems t) s s' /\ shaped s' (Some b) (Node (Node (Node D g C) b B) a A).
Proof.
  intros t Ht Hnd Hlv. subst t. unfold shaped in *. cbn [rep rt elems] in *. destruct_and?.
  colour Hnd [elems D; [g]; elems C; [b]; elems B; [a]; elems A].
  assert (a ∈ live s /\ b ∈ live s /\ g ∈ live s /\ (forall x, rt B = Some x -> x ∈ live s) /\
    (forall x, rt C = Some x -> x ∈ live s)) as (? & ? & ? & LB & LC) by lives_by Hlv.
  unfold zigzig_right, hang_right. prun. known. root_case C LC; prun.
  all: rewrite upd_other by (owns; congruence); known; root_case B LB; prun; rotated.
Qed.

Lemma zigzag_left_right_ok s p A b B a C g D :
  let t := Node (Node A b (Node B a C)) g D in
  shaped s p t -> NoDup (elems t) -> (forall x, x ∈ elems t -> x ∈ live s) ->
  exists s', zigzag_left_right (Some a) (Some b) (Some g) s = Done (tt, s') /\ tree_only s s' /\
    outside (elems t) s s' /\ shaped s' (Some b) (Node (Node A b B) a (Node C g D)).
Proof.
  intros t Ht Hnd Hlv. subst t. unfold shaped in *. cbn [rep rt elems] in *. destruct_and?.
  colour Hnd [elems A; [b]; elems B; [a]; elems C; [g]; elems D].
  assert (a ∈ live s /\ b ∈ live s /\ g ∈ live s /\ (forall x, rt B = Some x -> x ∈ live s) /\
    (forall x, rt C = Some x -> x ∈ live s)) as (? & ? & ? & LB & LC) by lives_by Hlv.
  unfold zigzag_left_right, hang_left, hang_right. prun. known. root_case B LB; prun.
  all: rewrite upd_other by (owns; congruence); known; root_case C LC; prun; rotated.
Qed.

Lemma zigzag_right_left_ok s p A b B a C g D :
  let t := Node D g (Node (Node C a B) b A) in
  shaped s p t -> NoDup (elems t) -> (forall x, x ∈ elems t -> x ∈ live s) ->
  exists s', zigzag_right_left (Some a) (Some b) (Some g) s = Done (tt, s') /\ tree_only s s' /\
    outside (elems t) s s' /\ shaped s' (Some b) (Node (Node D g C) a (Node B b A)).
Proof.
  intros t Ht Hnd Hlv. subst t. unfold shaped in *. cbn [rep rt elems] in *. destruct_and?.
  colour Hnd [elems D; [g]; elems C; [a]; elems B; [b]; elems A].
  assert (a ∈ live s /\ b ∈ live s /\ g ∈ live s /\ (forall x, rt B = Some x -> x ∈ live s) /\
    (forall x, rt C = Some x -> x ∈ live s)) as (? & ? & ? & LB & LC) by lives_by Hlv.
  unfold zigzag_right_left, hang_left, hang_right. prun. known. root_case B LB; prun.
  all: rewrite upd_other by (owns; congruence); known; root_case C LC; prun; rotated.
Qed.

Lemma same_true p q : p = q -> same p q = true.
Proof. intros ->. by apply bool_decide_eq_true. Qed.

Lemma same_false p q : p <> q -> same p q = false.
Proof. intros H. by apply bool_decide_eq_false. Qed.

(** The last rotation, below a root. *)
Lemma zig_left_ok s A a B b C :
  let t := Node (Node A a B) b C in
  shaped s None t -> NoDup (elems t) -> (forall x, x ∈ elems t -> x ∈ live s) ->
  exists s', zig (Some a) (Some b) s = Done (tt, s') /\ tree_only s s' /\
    shaped s' None (Node A a (Node B b C)).
Proof.
  intros t Ht Hnd Hlv. subst t. unfold shaped in *. cbn [rep rt elems] in *. destruct_and?.
  colour Hnd [elems A; [a]; elems B; [b]; elems C].
  assert (a ∈ live s /\ b ∈ live s /\ (forall x, rt B = Some x -> x ∈ live s)) as (? & ? & LB) by lives_by Hlv.
  unfold zig, hang_left. prun. rewrite same_true by congruence. prun. known.
  root_case B LB; prun; eexists; (split; [done|]); (split; [by constructor|]); shape.
Qed.

Lemma zig_right_ok s A a B b C :
  let t := Node C b (Node B a A) in
  shaped s None t -> NoDup (elems t) -> (forall x, x ∈ elems t -> x ∈ live s) ->
  exists s', zig (Some a) (Some b) s = Done (tt, s') /\ tree_only s s' /\
    shaped s' None (Node (Node C b B) a A).
Proof.
  intros t Ht Hnd Hlv. subst t. unfold shaped in *. cbn [rep rt elems] in *. destruct_and?.
  colour Hnd [elems C; [b]; elems B; [a]; elems A].
  assert (a ∈ live s /\ b ∈ live s /\ (forall x, rt B = Some x -> x ∈ live s)) as (? & ? & LB) by lives_by Hlv.
  unfold zig, hang_right. prun. rewrite same_false. 2:{ intros E. assert (a ∈ elems C) by (apply rt_elem; congruence). owns. congruence. }
  prun. known. root_case B LB; prun; eexists; (split; [done|]); (split; [by constructor|]); shape.
Qed.

(** After a double rotation the node is put in its grandparent's place. *)
Definition attach (node grand great : ptr) : prog unit :=
  store_parent node great ;;;
  if is_some great then
    g <- load left great ;;
    if same grand g then store_left great node else store_right great node
  else ret tt.

Lemma attach_ok s c t a g :
  rep_ctx (left s) (right s) (parent s) c (Some g) ->
  shaped s (parent s a) t -> rt t = Some a -> g ∈ elems t ->
  NoDup (before c ++ elems t ++ after c) ->
  (forall x, x ∈ before c ++ elems t ++ after c -> x ∈ live s) ->
  exists s', attach (Some a) (Some g) (bot c) s = Done (tt, s') /\ tree_only s s' /\ shaped s' None (plug c t).
Proof.
  intros Hc Ht Hr Hg Hnd Hlv. assert (Ha : a ∈ elems t) by (by apply rt_elem).
  assert (a ∈ live s) by (apply Hlv; set_solver).
  unfold attach, shaped in *. destruct c as [|[b B|B b] c]; cbn [bot at_ before after rep_ctx plug fold_left fill] in *.
  - prun. eexists. split; [done|]. split; [by constructor|]. cbn.
    colour Hnd [elems t]. shape.
  - destruct_and?. assert (b ∈ live s) by (apply Hlv; set_solver).
    colour Hnd [before c; elems t; [b]; elems B; after c].
    prun. rewrite same_true by congruence. prun. eexists. split; [done|]. split; [by constructor|].
    apply (rep_plug _ _ _ c (Node t b B)). cbn. rewrite Hr. shape.
  - destruct_and?. assert (b ∈ live s) by (apply Hlv; set_solver).
    colour Hnd [before c; elems B; [b]; elems t; after c].
    prun. rewrite same_false; [prun|].
    2:{ intros E. assert (g ∈ elems B) by (apply rt_elem; congruence). owns. congruence. }
    eexists. split; [done|]. split; [by constructor|].
    apply (rep_plug _ _ _ c (Node B b t)). cbn. rewrite Hr. shape.
Qed.

(** A rotation below a context, then [attach]. *)
Lemma rotate_attach (m : prog unit) s c t t' a b g :
  rep_ctx (left s) (right s) (parent s) c (Some g) ->
  NoDup (before c ++ elems t ++ after c) ->
  (forall x, x ∈ before c ++ elems t ++ after c -> x ∈ live s) ->
  (exists s1, m s = Done (tt, s1) /\ tree_only s s1 /\ outside (elems t) s s1 /\ shaped s1 (Some b) t') ->
  elems t' = elems t -> rt t' = Some a -> g ∈ elems t ->
  exists s', (m ;;; attach (Some a) (Some g) (bot c)) s = Done (tt, s') /\ tree_only s s' /\
    shaped s' None (plug c t').
Proof.
  intros Hc Hnd Hlv (s1 & Em & Hto & Hout & Ht') Ee Er Hg.
  pose proof (rep_parent _ _ _ _ _ _ Ht' Er) as Hp.
  apply NoDup_app in Hnd as Hnd'. destruct Hnd' as (_ & Hd1 & Hd2). apply NoDup_app in Hd2 as (_ & Hd2 & _).
  destruct (attach_ok s1 c t' a g) as (s' & E & Hto' & H').
  - eapply ctx_frame; [|exact Hc]. intros x Hx. apply Hout. set_solver.
  - by rewrite Hp.
  - done.
  - by rewrite Ee.
  - by rewrite Ee.
  - rewrite Ee, (to_live _ _ Hto). done.
  - exists s'. rewrite (bind_done _ _ _ _ _ Em), E. split; [done|]. split; [by etrans|done].
Qed.

(** The root of [t] is not this node, which is in another piece. *)
Ltac not_root t :=
  intros E; match type of E with Some ?x = _ => assert (x ∈ elems t) by (apply rt_elem; congruence) end;
  owns; congruence.

Lemma double_turn_ok s f1 f2 c l a r :
  shaped s None (plug (f1 :: f2 :: c) (Node l a r)) ->
  NoDup (elems (plug (f1 :: f2 :: c) (Node l a r))) ->
  (forall x, x ∈ elems (plug (f1 :: f2 :: c) (Node l a r)) -> x ∈ live s) ->
  exists s' l' r', double_turn (Some a) (Some (at_ f1)) (Some (at_ f2)) s = Done (tt, s') /\
    tree_only s s' /\ shaped s' None (plug c (Node l' a r')) /\
    elems (plug c (Node l' a r')) = elems (plug (f1 :: f2 :: c) (Node l a r)).
Proof.
  cbn [plug fold_left]. set (t := fill (fill (Node l a r) f1) f2). change (fold_left fill c t) with (plug c t).
  unfold shaped. rewrite rep_plug, elems_plug. intros [Hc Ht] Hnd Hlv.
  assert (Hrt : rt t = Some (at_ f2)) by (by destruct f2). rewrite Hrt in Hc.
  assert (Hg : at_ f2 ∈ elems t) by (by apply rt_elem).
  pose proof (rep_parent _ _ _ _ _ _ Ht Hrt) as Hgp.
  assert (Hndt : NoDup (elems t)) by (apply NoDup_app in Hnd as (_ & _ & Hnd); by apply NoDup_app in Hnd as (? & _)).
  assert (Hlt : forall x, x ∈ elems t -> x ∈ live s) by (intros x Hx; apply Hlv; set_solver).
  assert (at_ f2 ∈ live s) by auto. 
  assert (at_ f1 ∈ live s) by (apply Hlt; subst t; destruct f1, f2; cbn; set_solver).
  unfold double_turn. prun. rewrite Hgp. change (store parent set_parent) with store_parent.
  change (store left set_left) with store_left. change (store right set_right) with store_right.
  fold (attach (Some a) (Some (at_ f2)) (bot c)).
  destruct f1 as [b B|B b], f2 as [g G|G g]; cbn [at_] in *; subst t; cbn [fill] in *.
  - cbn [rep rt] in Ht. destruct_and?. rewrite !same_true by congruence. cbn [andb].
    destruct (rotate_attach _ s c _ (Node l a (Node r b (Node B g G))) a b g Hc Hnd Hlv
      (zigzig_left_ok s (bot c) l a r b B g G ltac:(done) Hndt Hlt)) as (s' & E & ? & ?); [by flat|done|done|].
    exists s', l, (Node r b (Node B g G)). rewrite elems_plug. repeat (split; [done|]). by flat.
  - colour Hndt [elems G; [g]; elems l; [a]; elems r; [b]; elems B]. cbn [rep rt] in Ht. destruct_and?.
    rewrite (same_true (Some a) (left s b)) by congruence.
    rewrite (same_false (Some b) (left s g)) by not_root G. rewrite (same_false (Some a) (right s b)) by not_root B.
    cbn [andb].
    destruct (rotate_attach _ s c _ (Node (Node G g l) a (Node r b B)) a b g Hc Hnd Hlv
      (zigzag_right_left_ok s (bot c) B b r a l g G ltac:(done) Hndt Hlt)) as (s' & E & ? & ?); [by flat|done|done|].
    exists s', (Node G g l), (Node r b B). rewrite elems_plug. repeat (split; [done|]). by flat.
  - colour Hndt [elems B; [b]; elems l; [a]; elems r; [g]; elems G]. cbn [rep rt] in Ht. destruct_and?.
    rewrite (same_true (Some a) (right s b)), (same_true (Some b) (left s g)) by congruence.
    rewrite (same_false (Some a) (left s b)) by not_root B. rewrite (same_false (Some b) (right s g)) by not_root G.
    cbn [andb].
    destruct (rotate_attach _ s c _ (Node (Node B b l) a (Node r g G)) a b g Hc Hnd Hlv
      (zigzag_left_right_ok s (bot c) B b l a r g G ltac:(done) Hndt Hlt)) as (s' & E & ? & ?); [by flat|done|done|].
    exists s', (Node B b l), (Node r g G). rewrite elems_plug. repeat (split; [done|]). by flat.
  - colour Hndt [elems G; [g]; elems B; [b]; elems l; [a]; elems r]. cbn [rep rt] in Ht. destruct_and?.
    rewrite (same_true (Some a) (right s b)), (same_true (Some b) (right s g)) by congruence.
    rewrite (same_false (Some a) (left s b)) by not_root B.
    cbn [andb].
    destruct (rotate_attach _ s c _ (Node (Node (Node G g B) b l) a r) a b g Hc Hnd Hlv
      (zigzig_right_ok s (bot c) r a l b B g G ltac:(done) Hndt Hlt)) as (s' & E & ? & ?); [by flat|done|done|].
    exists s', (Node (Node G g B) b l), r. rewrite elems_plug. repeat (split; [done|]). by flat.
Qed.

(** [splay_bottom_up]: the node becomes the root; the order of the nodes stays. *)
Lemma bottom_up_loop_ok fuel : forall s c l a r,
  (length c < fuel)%nat ->
  shaped s None (plug c (Node l a r)) -> NoDup (elems (plug c (Node l a r))) ->
  (forall x, x ∈ elems (plug c (Node l a r)) -> x ∈ live s) ->
  exists s' l' r', bottom_up_loop fuel (Some a) s = Done (tt, s') /\ tree_only s s' /\
    shaped s' None (Node l' a r') /\ elems (Node l' a r') = elems (plug c (Node l a r)).
Proof.
  induction fuel as [|fuel IH]; intros s c l a r Hf Hs Hnd Hlv; [lia|].
  assert (a ∈ live s) by (apply Hlv; rewrite elems_plug; cbn; set_solver).
  pose proof Hs as Hs'. unfold shaped in Hs'. rewrite rep_plug in Hs'. destruct Hs' as [Hc (_ & _ & Hp & _)].
  cbn [bottom_up_loop]. prun. rewrite Hp.
  destruct c as [|f1 [|f2 c]]; cbn [bot is_some at_].
  - prun. exists s, l, r. by repeat (split; [done|]).
  - assert (at_ f1 ∈ live s) by (apply Hlv; rewrite elems_plug; destruct f1; cbn; set_solver).
    assert (parent s (at_ f1) = None) as Hpp by (by destruct f1; cbn in Hc |- *; destruct_and?).
    prun. rewrite Hpp. cbn [is_some].
    destruct f1 as [b B|B b]; cbn [plug fold_left fill at_] in *.
    + destruct (zig_left_ok s l a r b B Hs Hnd Hlv) as (s1 & E1 & Hto & H1). rewrite (bind_done _ _ _ _ _ E1).
      destruct (IH s1 [] l a (Node r b B)) as (s' & l' & r' & E & ? & ? & Ee); cbn [plug fold_left] in *;
        [simpl in *; lia|done|revert Hnd; by flat|intros x Hx; rewrite (to_live _ _ Hto); apply Hlv; revert Hx; by flat|].
      exists s', l', r'. split; [done|]. split; [by etrans|]. split; [done|]. rewrite Ee. by flat.
    + destruct (zig_right_ok s r a l b B Hs Hnd Hlv) as (s1 & E1 & Hto & H1). rewrite (bind_done _ _ _ _ _ E1).
      destruct (IH s1 [] (Node B b l) a r) as (s' & l' & r' & E & ? & ? & Ee); cbn [plug fold_left] in *;
        [simpl in *; lia|done|revert Hnd; by flat|intros x Hx; rewrite (to_live _ _ Hto); apply Hlv; revert Hx; by flat|].
      exists s', l', r'. split; [done|]. split; [by etrans|]. split; [done|]. rewrite Ee. by flat.
  - assert (at_ f1 ∈ live s) by (apply Hlv; rewrite elems_plug; destruct f1; cbn; set_solver).
    assert (parent s (at_ f1) = Some (at_ f2)) as Hpp by (by destruct f1; cbn in Hc |- *; destruct_and?).
    prun. rewrite Hpp. cbn [is_some].
    destruct (double_turn_ok s f1 f2 c l a r Hs Hnd Hlv) as (s1 & l1 & r1 & E1 & Hto & H1 & Ee1).
    rewrite (bind_done _ _ _ _ _ E1).
    destruct (IH s1 c l1 a r1) as (s' & l' & r' & E & ? & ? & Ee); [simpl in *; lia|done|by rewrite Ee1|
      intros x Hx; rewrite (to_live _ _ Hto); apply Hlv; by rewrite <- Ee1|].
    exists s', l', r'. split; [done|]. split; [by etrans|]. split; [done|]. by rewrite Ee.
Qed.

(** Every node of a tree is at the hole of some context. *)
Lemma plug_at t a : a ∈ elems t -> exists c l r, t = plug c (Node l a r).
Proof.
  induction t as [|l IHl b r IHr]; cbn; [by intros ?%not_elem_of_nil|].
  intros [Ha|[->|Ha]%elem_of_cons]%elem_of_app.
  - destruct (IHl Ha) as (c & l' & r' & ->). exists (c ++ [InL b r]), l', r'. by rewrite plug_app.
  - by exists [], l, r.
  - destruct (IHr Ha) as (c & l' & r' & ->). exists (c ++ [InR l b]), l', r'. by rewrite plug_app.
Qed.

Lemma length_plug c : forall t, (length c + length (elems t) <= length (elems (plug c t)))%nat.
Proof.
  induction c as [|f c IH]; intros t; cbn; [lia|]. specialize (IH (fill t f)).
  change (fold_left fill c (fill t f)) with (plug c (fill t f)). transitivity (length c + length (elems (fill t f)))%nat; [|done].
  destruct f; cbn; rewrite length_app; simpl; lia.
Qed.

(** The nodes of a duplicate-free list in live memory are not more than the live ones. *)
Lemma length_live (l : list Z) (s : state) :
  NoDup l -> (forall x, x ∈ l -> x ∈ live s) -> (length l <= size (live s))%nat.
Proof.
  intros Hnd Hlv. rewrite <- (size_list_to_set (C := gset Z) l) by done. apply subseteq_size.
  intros x Hx%elem_of_list_to_set. auto.
Qed.

Lemma splay_bottom_up_ok s t a :
  shaped s None t -> NoDup (elems t) -> (forall x, x ∈ elems t -> x ∈ live s) -> a ∈ elems t ->
  exists s' l r, splay_bottom_up (Some a) s = Done (tt, set_root (Some a) s') /\ tree_only s s' /\
    shaped s' None (Node l a r) /\ elems (Node l a r) = elems t.
Proof.
  intros Hs Hnd Hlv (c & l & r & ->)%plug_at.
  pose proof (length_live _ _ Hnd Hlv) as Hsz. pose proof (length_plug c (Node l a r)) as Hpl. cbn in Hpl.
  rewrite length_app in Hpl. cbn in Hpl.
  destruct (bottom_up_loop_ok (size (live s)) s c l a r) as (s' & l' & r' & E & ? & ? & ?); [lia|done..|].
  exists s', l', r'. unfold splay_bottom_up. prun. rewrite (bind_done _ _ _ _ _ E). by prun.
Qed.
