(* ===== verification/SplayDown.v ===== *)
(** [splay_top_down] of src/src/splay_tree.c: the loop and the merge, and what the
    comparison of the result means for a tree in key order. *)
From stdpp Require Import gmap.
From S2P Require Import Prelude Heap LinkedList SplayTree SplayShape SplayUp.

(** ** Joining trees

    [graft t u]: [u] hung below the last node of [t]; [graftl t u]: below the
    first. *)
Fixpoint graft (t u : tree) : tree :=
  match t with Leaf => u | Node l a r => Node l a (graft r u) end.

Fixpoint graftl (t u : tree) : tree :=
  match t with Leaf => u | Node l a r => Node (graftl l u) a r end.

Lemma elems_graft t u : elems (graft t u) = elems t ++ elems u.
Proof. induction t as [|l _ a r IH]; cbn; [done|]. rewrite IH, <- app_assoc. done. Qed.

Lemma elems_graftl t u : elems (graftl t u) = elems u ++ elems t.
Proof. induction t as [|l IH a r _]; cbn; [by rewrite app_nil_r|]. rewrite IH, <- app_assoc. done. Qed.

Lemma rt_graft t u : t <> Leaf -> rt (graft t u) = rt t.
Proof. by destruct t. Qed.

Lemma rt_graftl t u : t <> Leaf -> rt (graftl t u) = rt t.
Proof. by destruct t. Qed.

Lemma elems_nonempty t : t <> Leaf -> elems t <> [].
Proof. destruct t; [done|]. intros _. cbn. by destruct (elems t1). Qed.

(** The last node of a tree, and the first. *)
Lemma last_elems l a r : last (elems (Node l a r)) = Some (default a (last (elems r))).
Proof. cbn. rewrite last_app_cons, last_cons. by destruct (last (elems r)). Qed.

Lemma head_elems l a r : list.head (elems (Node l a r)) = Some (default a (list.head (elems l))).
Proof. cbn. by destruct (elems l). Qed.

Lemma rep_graft L R P L' R' P' u m t : forall p p',
  NoDup (elems t) -> last (elems t) = Some m -> rep L R P p t ->
  (forall x, x ∈ elems t -> L' x = L x /\ (x <> m -> R' x = R x)) ->
  (forall x, x ∈ elems t -> rt t <> Some x -> P' x = P x) -> (forall x, rt t = Some x -> P' x = p') ->
  R' m = rt u -> rep L' R' P' (Some m) u -> rep L' R' P' p' (graft t u).
Proof.
  induction t as [|l _ a r IH]; intros p p' Hnd Hm Hs HLR HP Hp HRm Hu; [done|].
  rewrite last_elems in Hm. injection Hm as Hm. cbn in *.
  destruct Hs as (H1 & H2 & H3 & H4 & H5). apply NoDup_app in Hnd as (Hnl & Hd1 & [Hd2 Hnr]%NoDup_cons).
  assert (Hin : forall x, x ∈ elems l \/ x = a \/ x ∈ elems r -> x ∈ elems l ++ a :: elems r) by set_solver.
  destruct (HLR a) as [-> HRa]; [auto|]. split; [done|].
  destruct r as [|rl b rr]; [cbn in Hm; subst m|].
  - split; [done|]. split; [by apply Hp|]. split; [|done].
    eapply rep_frame; [|done]. intros x Hx. assert (x <> a) by (intros ->; apply (Hd1 a Hx); by left).
    destruct (HLR x) as [-> Hx']; [auto|]. rewrite Hx' by done. rewrite HP; [done|auto|congruence].
  - assert (Hmr : m ∈ elems (Node rl b rr)).
    { rewrite last_elems in Hm. cbn in Hm. apply last_Some_elem_of. by rewrite last_elems, <- Hm. }
    assert (m <> a) by (by intros ->). split; [by rewrite HRa|]. split; [by apply Hp|]. split.
    + eapply rep_frame; [|done]. intros x Hx.
      assert (x <> a /\ x <> m) as [? ?] by (split; intros ->; apply (Hd1 _ Hx); [by left|by right]).
      destruct (HLR x) as [-> Hx']; [auto|]. rewrite Hx' by done. rewrite HP; [done|auto|congruence].
    + apply (IH (Some a)); try done.
      * rewrite last_elems in Hm |- *. cbn in Hm. by rewrite Hm.
      * intros x Hx. apply HLR. auto.
      * intros x Hx _. apply HP; [auto|]. intros [= ->]. done.
      * intros x [= <-]. rewrite HP; [by destruct H5 as (_ & _ & ? & _)|apply Hin; right; right; cbn; set_solver|].
        intros [= ->]. apply Hd2. cbn. set_solver.
Qed.

Lemma rep_graftl L R P L' R' P' u m t : forall p p',
  NoDup (elems t) -> list.head (elems t) = Some m -> rep L R P p t ->
  (forall x, x ∈ elems t -> R' x = R x /\ (x <> m -> L' x = L x)) ->
  (forall x, x ∈ elems t -> rt t <> Some x -> P' x = P x) -> (forall x, rt t = Some x -> P' x = p') ->
  L' m = rt u -> rep L' R' P' (Some m) u -> rep L' R' P' p' (graftl t u).
Proof.
  induction t as [|l IH a r _]; intros p p' Hnd Hm Hs HLR HP Hp HRm Hu; [done|].
  rewrite head_elems in Hm. injection Hm as Hm. cbn in *.
  destruct Hs as (H1 & H2 & H3 & H4 & H5). apply NoDup_app in Hnd as (Hnl & Hd1 & [Hd2 Hnr]%NoDup_cons).
  assert (Hin : forall x, x ∈ elems l \/ x = a \/ x ∈ elems r -> x ∈ elems l ++ a :: elems r) by set_solver.
  destruct (HLR a) as [-> HRa]; [auto|]. destruct l as [|ll b lr]; [cbn in Hm; subst m|].
  - split; [done|]. split; [done|]. split; [by apply Hp|]. split; [done|].
    eapply rep_frame; [|done]. intros x Hx. assert (x <> a) by (by intros ->).
    destruct (HLR x) as [-> Hx']; [auto|]. rewrite Hx' by done. rewrite HP; [done|auto|congruence].
  - assert (Hml : m ∈ elems (Node ll b lr)).
    { rewrite head_elems in Hm. cbn in Hm. apply head_Some_elem_of. by rewrite head_elems, <- Hm. }
    assert (m <> a) by (intros ->; apply (Hd1 _ Hml); by left).
    split; [by rewrite HRa|]. split; [done|]. split; [by apply Hp|]. split.
    + apply (IH (Some a)); try done.
      * rewrite head_elems in Hm |- *. cbn in Hm. by rewrite Hm.
      * intros x Hx. apply HLR. auto.
      * intros x Hx _. apply HP; [auto|]. intros [= ->]. apply (Hd1 _ Hx). by left.
      * intros x [= <-]. rewrite HP; [by destruct H4 as (_ & _ & ? & _)|apply Hin; left; cbn; set_solver|].
        intros [= ->]. apply (Hd1 b); [cbn; set_solver|by left].
    + eapply rep_frame; [|done]. intros x Hx.
      assert (x <> a /\ x <> m) as [? ?] by (split; intros ->; [done|]; apply (Hd1 _ Hml); by right).
      destruct (HLR x) as [-> Hx']; [auto|]. rewrite Hx' by done. rewrite HP; [done|auto|congruence].
Qed.

(** ** "Merge trees" *)

Lemma final_elems p t m : last (elems t) = Some m -> final p (elems t) = Some m.
Proof. intros E. unfold final. by rewrite E. Qed.

Lemma last_elems_some t : t <> Leaf -> exists m, last (elems t) = Some m /\ m ∈ elems t.
Proof.
  destruct t as [|l a r]; [done|]. intros _. exists (default a (last (elems r))). rewrite last_elems.
  split; [done|]. apply last_Some_elem_of. by rewrite last_elems.
Qed.

Lemma head_elems_some t : t <> Leaf -> exists m, list.head (elems t) = Some m /\ m ∈ elems t.
Proof.
  destruct t as [|l a r]; [done|]. intros _. exists (default a (list.head (elems l))). rewrite head_elems.
  split; [done|]. apply head_Some_elem_of. by rewrite head_elems.
Qed.

Lemma rep_last L R P t m : forall p, rep L R P p t -> last (elems t) = Some m -> R m = None.
Proof.
  induction t as [|l _ a r IH]; intros p; [done|]. rewrite last_elems. intros (_ & Hr & _ & _ & Hs) [= Hm].
  destruct r as [|rl b rr]; [cbn in Hm; by subst|]. apply (IH _ Hs). rewrite last_elems in Hm |- *. cbn in Hm. by rewrite Hm.
Qed.

Lemma rep_head L R P t m : forall p, rep L R P p t -> list.head (elems t) = Some m -> L m = None.
Proof.
  induction t as [|l IH a r _]; intros p; [done|]. rewrite head_elems. intros (Hl & _ & _ & Hs & _) [= Hm].
  destruct l as [|ll b lr]; [cbn in Hm; by subst|]. apply (IH _ Hs). rewrite head_elems in Hm |- *. cbn in Hm. by rewrite Hm.
Qed.

Ltac outside_colours :=
  intros ? Hout; cbn in Hout |- *; repeat (progress (rewrite ?elem_of_app, ?elem_of_cons in Hout));
  unfold upd; splits; repeat case_decide; subst; try done; exfalso; apply Hout;
  repeat match goal with E : rt _ = Some _ |- _ => apply rt_elem in E end; tauto.

Lemma merge_left_ok s TL l a r :
  shaped s None (Node Leaf dl TL) -> shaped s None (Node l a r) ->
  NoDup (dl :: elems TL ++ elems (Node l a r)) ->
  (forall x, x ∈ dl :: elems TL ++ elems (Node l a r) -> x ∈ live s) ->
  exists s', merge_left (Some a) (final (Some dl) (elems TL)) s = Done (tt, s') /\ tree_only s s' /\
    outside (elems TL ++ elems (Node l a r)) s s' /\ shaped s' None (Node (graft TL l) a r).
Proof.
  unfold shaped. cbn [rep elems rt]. intros H1 H2 Hnd Hlv. destruct_and?.
  colour Hnd [[dl]; elems TL; elems l; [a]; elems r].
  assert (dl ∈ live s /\ a ∈ live s /\ (forall x, x ∈ elems TL -> x ∈ live s) /\ (forall x, rt l = Some x -> x ∈ live s))
    as (? & ? & LT & Ll) by lives_by Hlv.
  unfold merge_left. prun. known. destruct TL as [|Tl tb Tr] eqn:ET; [prun; by exists s|]. rewrite <- ET in *.
  assert (Hrt : rt TL = Some tb) by (by subst). rewrite Hrt.
  destruct (last_elems_some TL) as (m & Hm & Hmi); [by subst|]. rewrite (final_elems _ _ _ Hm).
  pose proof (LT _ Hmi). assert (tb ∈ live s) by (by apply LT, rt_elem). clear ET.
  prun. known. root_case l Ll; prun; eexists; (split; [done|]); (split; [by constructor|]);
    (split; [outside_colours|]); cbn; (split; [|split; [field|split; [field|split]]]).
  all: rewrite ?rt_graft by (by destruct TL).
  all: try (eapply rep_graft; [eassumption|exact Hm|eassumption|..]).
  all: try (intros; splits; intros; field). all: try field. all: try shape.
  rewrite E. by apply (rep_last (left s) (right s) (parent s) TL m (Some dl)).
Qed.

Lemma merge_right_ok s TR l a r :
  shaped s None (Node TR dr Leaf) -> shaped s None (Node l a r) ->
  NoDup (elems (Node l a r) ++ elems TR ++ [dr]) ->
  (forall x, x ∈ elems (Node l a r) ++ elems TR ++ [dr] -> x ∈ live s) ->
  exists s', merge_right (Some a) (first (elems TR) (Some dr)) s = Done (tt, s') /\ tree_only s s' /\
    shaped s' None (Node l a (graftl TR r)).
Proof.
  unfold shaped. cbn [rep elems rt]. intros H1 H2 Hnd Hlv. destruct_and?.
  colour Hnd [elems l; [a]; elems r; elems TR; [dr]].
  assert (dr ∈ live s /\ a ∈ live s /\ (forall x, x ∈ elems TR -> x ∈ live s) /\ (forall x, rt r = Some x -> x ∈ live s))
    as (? & ? & LT & Lr) by lives_by Hlv.
  unfold merge_right. prun. known. destruct TR as [|Tl tb Tr] eqn:ET; [prun; by exists s|]. rewrite <- ET in *.
  assert (Hrt : rt TR = Some tb) by (by subst). rewrite Hrt.
  destruct (head_elems_some TR) as (m & Hm & Hmi); [by subst|]. rewrite first_head, Hm.
  pose proof (LT _ Hmi). assert (tb ∈ live s) by (by apply LT, rt_elem). clear ET.
  prun. known. root_case r Lr; prun; eexists; (split; [done|]); (split; [by constructor|]);
    cbn; (split; [field|split; [|split; [field|split]]]).
  all: rewrite ?rt_graftl by (by destruct TR).
  all: try (eapply rep_graftl; [eassumption|exact Hm|eassumption|..]).
  all: try (intros; splits; intros; field). all: try field. all: try shape.
  rewrite E. by apply (rep_head (left s) (right s) (parent s) TR m (Some dr)).
Qed.

(** ** The loop *)

(** Along [l] the sign of [f] goes from positive to negative, and is zero at most
    once: what comparing one key with an ordered list gives. *)
Definition mono (f : Z -> Z) (l : list Z) : Prop :=
  forall l1 x l2, l = l1 ++ x :: l2 ->
    (f x <= 0 -> Forall (fun y => f y < 0) l2) /\ (0 <= f x -> Forall (fun y => 0 < f y) l1).

Lemma mono_infix f l1 l l2 : mono f (l1 ++ l ++ l2) -> mono f l.
Proof.
  intros H k1 x k2 ->. specialize (H (l1 ++ k1) x (k2 ++ l2)). destruct H as [H1 H2]; [by flat|].
  rewrite !Forall_app in *. tauto.
Qed.

Section Loop.
Context (compare : Z -> Z -> Z) (d : Z).

(** One turn: [fl] and [fr] are the frames it adds to the left and right trees. *)
Lemma turn_ok s cl t cr :
  td s cl t cr -> t <> Leaf -> mono (fun x => compare d (data s x)) (elems t) ->
  exists fl fr t' go c s',
    top_down_turn compare d (rt t) (bot cl) (bot cr) s =
      Done ((go, rt t', bot (fl ++ cl), bot (fr ++ cr), c), s') /\
    tree_only s s' /\ td s' (fl ++ cl) t' (fr ++ cr) /\
    elems t = before fl ++ elems t' ++ after fr /\
    Forall (fun x => 0 < compare d (data s x)) (before fl) /\
    Forall (fun x => compare d (data s x) < 0) (after fr) /\
    if go : bool then t' <> Leaf /\ (length (elems t') < length (elems t))%nat
    else exists l a r, t' = Node l a r /\ c = compare d (data s a) /\ (c < 0 -> l = Leaf) /\ (0 < c -> r = Leaf).
Proof.
  intros Htd Hne Hm. destruct t as [|l a r]; [done|].
  assert (a ∈ live s) by (apply (td_live _ _ _ _ Htd); cbn; set_solver).
  assert (Hbrk : forall c, c = compare d (data s a) -> (c < 0 -> l = Leaf) -> (0 < c -> r = Leaf) ->
    exists fl fr t' go c' s', Done ((false, Some a, bot cl, bot cr, c), s) = Done ((go, rt t', bot (fl ++ cl), bot (fr ++ cr), c'), s') /\
    tree_only s s' /\ td s' (fl ++ cl) t' (fr ++ cr) /\ elems (Node l a r) = before fl ++ elems t' ++ after fr /\
    Forall (fun x => 0 < compare d (data s x)) (before fl) /\ Forall (fun x => compare d (data s x) < 0) (after fr) /\
    if go : bool then t' <> Leaf /\ (length (elems t') < length (elems (Node l a r)))%nat
    else exists l' a' r', t' = Node l' a' r' /\ c' = compare d (data s a') /\ (c' < 0 -> l' = Leaf) /\ (0 < c' -> r' = Leaf)).
  { intros c Hc H1 H2. exists [], [], (Node l a r), false, c, s. repeat (split; [done|]). split; [by flat|].
    repeat (split; [constructor|]). by exists l, a, r. }
  pose proof (td_t _ _ _ _ Htd) as (Ha1 & Ha2 & _). cbn [rt].
  unfold top_down_turn. prun. destruct (compare d (data s a) =? 0) eqn:E0; ztests; [prun; apply Hbrk; lia|].
  destruct (compare d (data s a) <? 0) eqn:E1; ztests; prun; rewrite ?Ha1.
  - (* the key is smaller *)
    destruct l as [|B b C]; cbn [rt is_some].
    { prun. rewrite (proj2 (Z.ltb_ge 0 _)) by lia. prun. apply Hbrk; [done|done|lia]. }
    prun. destruct (Hm (elems (Node B b C)) a (elems r)) as [Hr _]; [done|].
    destruct (Hm (elems B) b (elems C ++ a :: elems r)) as [Hb1 Hb2]; [by flat|].
    assert (Hlt : (length (elems B) < length (elems (Node (Node B b C) a r)))%nat /\
      (length (elems C) < length (elems (Node (Node B b C) a r)))%nat) by (cbn; rewrite !length_app; simpl; rewrite ?length_app; simpl; lia).
    assert (Hnr : Forall (fun x => compare d (data s x) < 0) (a :: elems r)) by (constructor; [lia|apply Hr; lia]).
    destruct (decide (compare d (data s b) < 0 /\ B <> Leaf)) as [[Hc HB]|Hn1];
      [|destruct (decide (0 < compare d (data s b) /\ C <> Leaf)) as [[Hc HC]|Hn2]].
    + destruct (zigzig_left_turn compare d s cl cr B b C a r Htd Hc HB) as (s' & -> & ? & ?).
      exists [], [InL b (Node C a r)], B, true, (compare d (data s b)), s'. repeat (split; [done|]). split; [by flat|].
      split; [constructor|]. split; [|split; [done|apply Hlt]]. flat. constructor; [done|]. apply Hb1. lia.
    + destruct (zigzag_left_turn compare d s cl cr B b C a r Htd Hc HC) as (s' & -> & ? & ?).
      exists [InR B b], [InL a r], C, true, (compare d (data s b)), s'. repeat (split; [done|]). split; [by flat|].
      split; [flat; apply Forall_app; split; [apply Hb2; lia|by constructor]|]. split; [by flat|]. split; [done|apply Hlt].
    + assert ((compare d (data s b) < 0 -> B = Leaf) /\ (0 < compare d (data s b) -> C = Leaf)) as [HB HC].
      { split; intros ?; [destruct B; [done|]|destruct C; [done|]]; exfalso; [apply Hn1|apply Hn2]; done. }
      destruct (zig_left_turn compare d s cl cr B b C a r Htd HB HC) as (s' & -> & ? & ?).
      exists [], [InL a r], (Node B b C), false, (compare d (data s b)), s'. repeat (split; [done|]). split; [by flat|].
      split; [constructor|]. split; [by flat|]. by exists B, b, C.
  - (* the key is greater *)
    rewrite (proj2 (Z.ltb_lt 0 _)) by lia. prun. rewrite Ha2. destruct r as [|C b B]; cbn [rt is_some].
    { prun. apply Hbrk; [done|lia|done]. }
    prun. destruct (Hm (elems l) a (elems (Node C b B))) as [_ Hl]; [done|].
    destruct (Hm (elems l ++ a :: elems C) b (elems B)) as [Hb1 Hb2]; [by flat|].
    assert (Hlt : (length (elems B) < length (elems (Node l a (Node C b B))))%nat /\
      (length (elems C) < length (elems (Node l a (Node C b B))))%nat) by (cbn; rewrite !length_app; simpl; rewrite ?length_app; simpl; lia).
    assert (Hnl : Forall (fun x => 0 < compare d (data s x)) (elems l ++ [a])).
    { apply Forall_app. split; [apply Hl; lia|]. constructor; [lia|done]. }
    destruct (decide (0 < compare d (data s b) /\ B <> Leaf)) as [[Hc HB]|Hn1];
      [|destruct (decide (compare d (data s b) < 0 /\ C <> Leaf)) as [[Hc HC]|Hn2]].
    + destruct (zigzig_right_turn compare d s cl cr B b C a l Htd Hc HB) as (s' & -> & ? & ?).
      exists [InR (Node l a C) b], [], B, true, (compare d (data s b)), s'. repeat (split; [done|]). split; [by flat|].
      split; [|split; [constructor|split; [done|apply Hlt]]].
      specialize (Hb2 ltac:(lia)). revert Hb2. flat. rewrite !Forall_app, !Forall_cons, !Forall_app, !Forall_cons. intuition.
    + destruct (zigzag_right_turn compare d s cl cr B b C a l Htd Hc HC) as (s' & -> & ? & ?).
      exists [InR l a], [InL b B], C, true, (compare d (data s b)), s'. repeat (split; [done|]). split; [by flat|].
      split; [by flat|]. split; [flat; constructor; [done|]; apply Hb1; lia|]. split; [done|apply Hlt].
    + assert ((compare d (data s b) < 0 -> C = Leaf) /\ (0 < compare d (data s b) -> B = Leaf)) as [HC HB].
      { split; intros ?; [destruct C; [done|]|destruct B; [done|]]; exfalso; [apply Hn2|apply Hn1]; done. }
      destruct (zig_right_turn compare d s cl cr C b B a l Htd HC HB) as (s' & -> & ? & ?).
      exists [InR l a], [], (Node C b B), false, (compare d (data s b)), s'. repeat (split; [done|]). split; [by flat|].
      split; [by flat|]. split; [constructor|]. by exists C, b, B.
Qed.

Lemma loop_ok fuel : forall s cl t cr,
  (length (elems t) <= fuel)%nat -> td s cl t cr -> t <> Leaf -> mono (fun x => compare d (data s x)) (elems t) ->
  exists fl fr l a r s',
    top_down_loop compare fuel d (rt t) (bot cl) (bot cr) s =
      Done ((Some a, bot (fl ++ cl), bot (fr ++ cr), compare d (data s a)), s') /\
    tree_only s s' /\ td s' (fl ++ cl) (Node l a r) (fr ++ cr) /\
    elems t = before fl ++ elems (Node l a r) ++ after fr /\
    Forall (fun x => 0 < compare d (data s x)) (before fl ++ elems l) /\
    Forall (fun x => compare d (data s x) < 0) (elems r ++ after fr).
Proof.
  induction fuel as [|fuel IH]; intros s cl t cr Hf Htd Hne Hm.
  { destruct t; [done|]. cbn in Hf. rewrite length_app in Hf. simpl in Hf. lia. }
  destruct (turn_ok s cl t cr Htd Hne Hm) as (fl & fr & t' & go & c & s1 & E & Hto & Htd1 & Ee & Hp & Hn & Hgo).
  cbn [top_down_loop]. rewrite (bind_done _ _ _ _ _ E). cbn beta iota.
  assert (Hm' : mono (fun x => compare d (data s x)) (elems t')) by (rewrite Ee in Hm; by eapply mono_infix).
  destruct go.
  - destruct Hgo as [Hne' Hlt]. 
    destruct (IH s1 (fl ++ cl) t' (fr ++ cr)) as (fl' & fr' & l & a & r & s' & -> & Hto' & Htd' & Ee' & Hp' & Hn');
      [lia|done|done|by rewrite (to_data _ _ Hto)|].
    rewrite (to_data _ _ Hto) in *. exists (fl' ++ fl), (fr' ++ fr), l, a, r, s'. rewrite <- !app_assoc.
    split; [done|]. split; [by etrans|]. split; [done|]. rewrite Ee, Ee', !before_app, !after_app.
    split; [by flat|]. rewrite !Forall_app in *. tauto.
  - destruct Hgo as (l & a & r & -> & -> & Hl & Hr). exists fl, fr, l, a, r, s1. cbn [rt].
    repeat (split; [done|]). destruct (Hm' (elems l) a (elems r)) as [Hma Hmb]; [done|].
    rewrite !Forall_app. split; (split; [done|] || (split; [|done])).
    + destruct (decide (compare d (data s a) < 0)) as [Hc|Hc]; [rewrite (Hl Hc); constructor|]. apply Hmb. lia.
    + destruct (decide (0 < compare d (data s a))) as [Hc|Hc]; [rewrite (Hr Hc); constructor|]. apply Hma. lia.
Qed.

End Loop.

Lemma mono_ext f g l : (forall x, x ∈ l -> f x = g x) -> mono f l -> mono g l.
Proof.
  intros Hfg H l1 x l2 ->. destruct (H l1 x l2 eq_refl) as [H1 H2].
  rewrite !Forall_forall in *. rewrite <- Hfg by set_solver.
  split; intros Hx y Hy; rewrite <- Hfg by set_solver; [by apply H1|by apply H2].
Qed.

(** ** [splay_top_down] *)

(** What a search leaves alone: all but the tree's links and root. *)
Record kept (s s' : state) : Prop := {
  k_next : forall x, 0 < x -> next s' x = next s x; k_prev : forall x, 0 < x -> prev s' x = prev s x;
  k_data : forall x, 0 < x -> data s' x = data s x;
  k_live : live s' = live s; k_brk : brk s' = brk s; k_head : head s' = head s; k_tail : tail s' = tail s;
  k_count : count s' = count s; k_deletes : deletes s' = deletes s; k_log : log s' = log s;
}.

#[export] Instance kept_preorder : PreOrder kept.
Proof.
  split; [by intros s; constructor|]. intros s1 s2 s3 [A1 A2 A3] [B1 B2 B3].
  constructor; try congruence; intros x Hx; [by rewrite B1, A1|by rewrite B2, A2|by rewrite B3, A3].
Qed.

Lemma bot_left c : after c = [] -> bot (c ++ [InR Leaf dl]) = final (Some dl) (before c).
Proof. destruct c as [|[|l a] c]; [done|done|]. intros _. cbn [app before bot at_]. by rewrite app_assoc, final_snoc. Qed.

Lemma bot_right c : before c = [] -> bot (c ++ [InL dr Leaf]) = first (after c) (Some dr).
Proof. destruct c as [|[|l a] c]; [done|done|]. cbn. intros H. by apply app_nil in H as [_ [_ ?]%app_nil]. Qed.

Section TopDown.
Context (compare : Z -> Z -> Z) (d : Z).

(** The state in which the loop starts. *)
Lemma td_start s t :
  shaped s None t -> NoDup (elems t) -> (forall x, x ∈ elems t -> 0 < x /\ x ∈ live s) ->
  td (zero_node dl (zero_node dr (set_live ({[dl]} ∪ ({[dr]} ∪ live s)) s)))
    [InR Leaf dl] t [InL dr Leaf].
Proof.
  intros Hs Hnd Hlv. assert (Hx : forall x, x ∈ elems t -> x <> dl /\ x <> dr).
  { intros x Hx%Hlv. unfold dl, dr. lia. }
  constructor; cbn; try done.
  - eapply rep_frame; [|exact Hs]. intros x Hin. destruct (Hx x Hin). cbn. by rewrite !upd_other.
  - rewrite NoDup_cons, NoDup_app, NoDup_cons. splits; try done; [set_solver|set_solver|by apply not_elem_of_nil|apply NoDup_nil_2].
  - set_solver.
Qed.

Lemma splay_top_down_ok s t :
  shaped s None t -> root s = rt t -> t <> Leaf -> NoDup (elems t) ->
  (forall x, x ∈ elems t -> 0 < x /\ x ∈ live s) -> dl ∉ live s -> dr ∉ live s ->
  mono (fun x => compare d (data s x)) (elems t) ->
  exists s' l a r, splay_top_down compare d s = Done ((Some a, compare d (data s a)), s') /\
    kept s s' /\ root s' = Some a /\ shaped s' None (Node l a r) /\ elems (Node l a r) = elems t /\
    Forall (fun x => 0 < compare d (data s x)) (elems l) /\ Forall (fun x => compare d (data s x) < 0) (elems r).
Proof.
  intros Hs Hroot Hne Hnd Hlv Hdl Hdr Hm. pose proof (td_start s t Hs Hnd Hlv) as Htd.
  unfold splay_top_down. prun. rewrite Hroot. destruct (rt t) eqn:Ert; [|by destruct t]. cbn [is_some].
  unfold enter. rewrite run_modify. set (s0 := zero_node dl _) in *. rewrite run_get.
  assert (Hd0 : forall x, 0 < x -> data s0 x = data s x).
  { intros x Hx. unfold s0. cbn. by rewrite !upd_other by (unfold dl, dr; lia). }
  rewrite <- Ert. destruct (loop_ok compare d (size (live s0)) s0 [InR Leaf dl] t [InL dr Leaf]) as
    (fl & fr & l & a & r & s1 & E & Hto & Htd1 & Ee & Hp & Hn); [|done|done| |].
  { apply length_live; [done|]. intros x Hx. apply (td_live _ _ _ _ Htd). set_solver. }
  { eapply mono_ext; [|exact Hm]. intros x [Hx _]%Hlv. cbv beta. by rewrite Hd0. }
  assert (Hpos : forall x, x ∈ before fl ++ elems (Node l a r) ++ after fr -> 0 < x) by (rewrite <- Ee; intros x Hx; by apply Hlv).
  rewrite (bind_done _ _ _ _ _ E). cbn beta iota.
  pose proof (td_al _ _ _ _ Htd1) as Hal. rewrite after_app in Hal. apply app_nil in Hal as [Hal _].
  pose proof (td_br _ _ _ _ Htd1) as Hbr. rewrite before_app in Hbr. apply app_nil in Hbr as [_ Hbr].
  assert (HTL : elems (plug fl Leaf) = before fl) by (rewrite elems_plug, Hal; by flat).
  assert (HTR : elems (plug fr Leaf) = after fr) by (by rewrite elems_plug, Hbr).
  assert (HL : shaped s1 None (Node Leaf dl (plug fl Leaf))).
  { unfold shaped. change (Node Leaf dl (plug fl Leaf)) with (plug [InR Leaf dl] (plug fl Leaf)). rewrite <- plug_app, rep_plug.
    split; [apply Htd1|done]. }
  assert (HR : shaped s1 None (Node (plug fr Leaf) dr Leaf)).
  { unfold shaped. change (Node (plug fr Leaf) dr Leaf) with (plug [InL dr Leaf] (plug fr Leaf)). rewrite <- plug_app, rep_plug.
    split; [apply Htd1|done]. }
  pose proof (td_nd _ _ _ _ Htd1) as Hnd1. pose proof (td_live _ _ _ _ Htd1) as Hlv1.
  rewrite before_app, after_app in Hnd1, Hlv1. change (before [InR Leaf dl]) with [dl] in *. change (after [InL dr Leaf]) with [dr] in *.
  rewrite bot_left, bot_right, <- HTL, <- HTR by done.
  destruct (merge_left_ok s1 (plug fl Leaf) l a r HL (td_t _ _ _ _ Htd1)) as (s2 & E2 & Hto2 & Hout2 & H2).
  { rewrite HTL. apply NoDup_app in Hnd1 as (Hx & Hy & Hz). apply NoDup_app in Hz as (Hz & _).
    change (dl :: before fl ++ elems (Node l a r)) with (([dl] ++ before fl) ++ elems (Node l a r)).
    apply NoDup_app. repeat (split; [done|]). split; [|done]. intros x Hx1 Hx2. apply (Hy x Hx1). set_solver. }
  { rewrite HTL. intros x Hx. apply Hlv1. set_solver. }
  rewrite (bind_done _ _ _ _ _ E2).
  assert (HR2 : shaped s2 None (Node (plug fr Leaf) dr Leaf)).
  { eapply rep_frame; [|exact HR]. intros x Hx. apply Hout2. cbn [elems] in Hx. rewrite HTL. rewrite HTR in Hx.
    apply NoDup_app in Hnd1 as (_ & Hy & Hz). apply NoDup_app in Hz as (_ & Hz & _). set_solver. }
  destruct (merge_right_ok s2 (plug fr Leaf) (graft (plug fl Leaf) l) a r HR2 H2) as (s3 & E3 & Hto3 & H3).
  { cbn [elems]. rewrite elems_graft, HTL, HTR. apply NoDup_app in Hnd1 as (Hx & Hy & Hz).
    apply (NoDup_app [dl]) in Hx as (_ & _ & Hx). revert Hz. flat. intros Hz. rewrite <- app_assoc in *. apply NoDup_app.
    split; [done|]. split; [|done]. intros x Hx1 Hx2. apply (Hy x); [set_solver|]. cbn. rewrite <- app_assoc. cbn. set_solver. }
  { cbn [elems]. rewrite elems_graft, HTL, HTR, (to_live _ _ Hto2). intros x Hx. apply Hlv1. cbn. set_solver. }
  rewrite (bind_done _ _ _ _ _ E3). unfold leave. prun.
  assert (Hda : 0 < a) by (apply Hpos; cbn; set_solver). rewrite Hd0 by done.
  assert (Hall : tree_only s0 s3) by (etrans; [exact Hto|etrans; [exact Hto2|exact Hto3]]).
  eexists _, (graft (plug fl Leaf) l), a, (graftl (plug fr Leaf) r).
  split; [done|]. destruct Hall as [A1 A2 A3 A4 A5 A6 A7 A8 A9 A10 A11]. split.
  { constructor; cbn; try (etrans; [eassumption|done]).
    - intros x Hx. rewrite A1. unfold s0. cbn. by rewrite !upd_other by (unfold dl, dr; lia).
    - intros x Hx. rewrite A2. unfold s0. cbn. by rewrite !upd_other by (unfold dl, dr; lia).
    - intros x Hx. by rewrite A3, Hd0.
    - rewrite A4. unfold s0. cbn. set_solver. }
  split; [done|]. split; [exact H3|]. cbn [elems]. rewrite elems_graft, elems_graftl, HTL, HTR.
  split; [rewrite Ee; by flat|]. rewrite Forall_forall in Hp, Hn. rewrite !Forall_forall.
  split; intros x Hx; rewrite <- Hd0 by (apply Hpos; cbn; set_solver); [by apply Hp|by apply Hn].
Qed.

End TopDown.
