(* ===== verification/SplayOps.v ===== *)
(** Insertion into and removal from the splay tree of src/src/splay_tree.c, on
    trees in memory. *)
From stdpp Require Import gmap.
From S2P Require Import Prelude Heap LinkedList SplayTree SplayShape SplayUp SplayDown.

(** The tree holds the nodes [l], in this order, in its links and in its list. *)
Record in_tree (l : list Z) (s : state) : Prop := {
  it_tree : exists t, shaped s None t /\ root s = rt t /\ elems t = l;
  it_list : dlist l s;
}.

(** Payloads, memory and callbacks are the same. *)
Record same_mem (s s' : state) : Prop := {
  sm_data : data s' = data s; sm_live : live s' = live s; sm_brk : brk s' = brk s;
  sm_deletes : deletes s' = deletes s; sm_log : log s' = log s;
}.

#[export] Instance same_mem_preorder : PreOrder same_mem.
Proof. split; [by intros s; constructor|]. intros s1 s2 s3 [] []. constructor; congruence. Qed.

Lemma tree_only_mem s s' : tree_only s s' -> same_mem s s'.
Proof. intros []. by constructor. Qed.

Lemma dlist_tree_only l s s' : tree_only s s' -> dlist l s -> dlist l s'.
Proof. intros [A1 A2 A3 A4 A5 A6 A7 A8 A9] [B1 B2 B3 B4 B5 B6]. constructor; by rewrite ?A1, ?A2, ?A4, ?A6, ?A7, ?A9. Qed.

(** ** Insertion *)

Lemma insert_top_ok n s :
  in_tree [] s -> n ∈ live s ->
  exists s', splay_insert_top (Some n) s = Done (tt, s') /\ same_mem s s' /\ in_tree [n] s'.
Proof.
  intros [_ Hl] Hn. unfold splay_insert_top, incr_count. prun. eexists. split; [done|]. split; [by constructor|].
  constructor.
  - exists (Node Leaf n Leaf). unfold shaped. cbn. rewrite !upd_same. done.
  - constructor; cbn; try done.
    + by rewrite !upd_same.
    + apply NoDup_singleton.
    + intros a ->%list_elem_of_singleton. done.
    + rewrite (dl_count _ _ Hl). done.
Qed.

(** The list part of the two insertions; the count is increased later. *)
Lemma link_before_ok l1 a l2 n s :
  dlist (l1 ++ a :: l2) s -> n ∈ live s -> n ∉ l1 ++ a :: l2 ->
  exists s', link_before (Some a) (Some n) s = Done (tt, s') /\ same_rest s s' /\
    dlist (l1 ++ n :: a :: l2) (set_count (u32 (count s' + 1)) s').
Proof.
  intros Hl Hn Hnin. destruct (dlist_at _ _ _ _ Hl) as (Hp & Hnx & Hla & Ha1 & Ha2).
  pose proof Hl as [Hh Ht _ Hnd Hlv _]. unfold link_before. prun. rewrite Hp.
  destruct l1 as [|b l1 _] using rev_ind.
  - prun. eexists. split; [done|]. split; [by constructor|].
    apply (dlist_insert [] (a :: l2) n s); links. by rewrite Ht, !final_cons.
  - rewrite final_snoc. assert (b ∈ live s) by (apply Hlv; set_solver). prun.
    eexists. split; [done|]. split; [by constructor|].
    apply (dlist_insert (l1 ++ [b]) (a :: l2) n s); links;
      by rewrite ?Hh, ?Ht, ?first_app, ?final_app, ?final_cons.
Qed.

Lemma link_after_ok l1 a l2 n s :
  dlist (l1 ++ a :: l2) s -> n ∈ live s -> n ∉ l1 ++ a :: l2 ->
  exists s', link_after (Some a) (Some n) s = Done (tt, s') /\ same_rest s s' /\
    dlist (l1 ++ a :: n :: l2) (set_count (u32 (count s' + 1)) s').
Proof.
  intros Hl Hn Hnin. destruct (dlist_at _ _ _ _ Hl) as (Hp & Hnx & Hla & Ha1 & Ha2).
  pose proof Hl as [Hh Ht _ Hnd Hlv _]. unfold link_after. prun. rewrite Hnx.
  assert (Hd : forall x, x ∈ l1 -> x ∉ l2).
  { intros x Hx Hx'. apply NoDup_app in Hnd as (_ & Hx'' & _). apply (Hx'' x Hx). by right. }
  replace (l1 ++ a :: l2) with ((l1 ++ [a]) ++ l2) in * by (by rewrite <- app_assoc).
  replace (l1 ++ a :: n :: l2) with ((l1 ++ [a]) ++ n :: l2) by (by rewrite <- app_assoc).
  destruct l2 as [|b l2].
  - prun. eexists. split; [done|]. split; [by constructor|].
    apply (dlist_insert (l1 ++ [a]) [] n s); links; by rewrite ?Hh, ?Ht, ?first_app, ?final_app, ?final_cons.
  - assert (b ∈ live s) by (apply Hlv; set_solver). cbn [first]. prun.
    eexists. split; [done|]. split; [by constructor|].
    apply (dlist_insert (l1 ++ [a]) (b :: l2) n s); links;
      by rewrite ?Hh, ?Ht, ?first_app, ?final_app, ?final_cons.
Qed.

(** The tree part, the old node being the root. *)
Lemma hang_before_ok s n a l r :
  shaped s None (Node l a r) -> NoDup (n :: elems (Node l a r)) -> n ∈ live s ->
  (forall x, x ∈ elems (Node l a r) -> x ∈ live s) ->
  exists s', hang_before (Some a) (Some n) s = Done (tt, s') /\
    tree_only s s' /\ shaped s' None (Node l n (Node Leaf a r)).
Proof.
  unfold shaped. cbn [rep elems rt]. intros H Hnd Hn Hlv. destruct_and?.
  colour Hnd [[n]; elems l; [a]; elems r].
  assert (a ∈ live s /\ (forall x, rt l = Some x -> x ∈ live s)) as (? & Ll) by lives_by Hlv.
  unfold hang_before, hang_left. prun. known.
  root_case l Ll; prun; eexists; (split; [done|]); (split; [by constructor|]); shape.
Qed.

Lemma hang_after_ok s n a l r :
  shaped s None (Node l a r) -> NoDup (n :: elems (Node l a r)) -> n ∈ live s ->
  (forall x, x ∈ elems (Node l a r) -> x ∈ live s) ->
  exists s', hang_after (Some a) (Some n) s = Done (tt, s') /\
    tree_only s s' /\ shaped s' None (Node (Node l a Leaf) n r).
Proof.
  unfold shaped. cbn [rep elems rt]. intros H Hnd Hn Hlv. destruct_and?.
  colour Hnd [[n]; elems l; [a]; elems r].
  assert (a ∈ live s /\ (forall x, rt r = Some x -> x ∈ live s)) as (? & Ll) by lives_by Hlv.
  unfold hang_after, hang_right. prun. known.
  root_case r Ll; prun; eexists; (split; [done|]); (split; [by constructor|]); shape.
Qed.

Lemma same_rest_mem s s' : same_rest s s' -> same_mem s s'.
Proof. intros []. by constructor. Qed.

Lemma shaped_same_rest s s' p t : same_rest s s' -> shaped s p t -> shaped s' p t.
Proof. intros [A1 A2 A3]. unfold shaped. by rewrite A1, A2, A3. Qed.

(** Splitting a list without duplicates at one of its elements. *)
Lemma split_unique (l1 l2 k1 k2 : list Z) a :
  NoDup (l1 ++ a :: l2) -> l1 ++ a :: l2 = k1 ++ a :: k2 -> l1 = k1 /\ l2 = k2.
Proof.
  revert k1. induction l1 as [|b l1 IH]; intros [|c k1]; cbn; intros Hnd E; simplify_eq; [done|..].
  - apply NoDup_cons in Hnd as [Hnd _]. set_solver.
  - apply NoDup_cons in Hnd as [Hnd _]. set_solver.
  - apply NoDup_cons in Hnd as [_ Hnd]. by destruct (IH k1 Hnd) as [-> ->].
Qed.

Lemma count_tree s1 s2 l :
  tree_only s1 s2 -> dlist l (set_count (u32 (count s1 + 1)) s1) ->
  forall r, dlist l (set_count (u32 (count s2 + 1)) (set_root r s2)).
Proof.
  intros [A1 A2 A3 A4 A5 A6 A7 A8 A9] [B1 B2 B3 B4 B5 B6] r. cbn in *.
  constructor; cbn; by rewrite ?A1, ?A2, ?A4, ?A6, ?A7, ?A9.
Qed.

(** Both insertions, from their parts. *)
Lemma insert_at_ok (link hang : ptr -> ptr -> prog unit) l1 a l2 k n s (T : tree -> tree -> tree) :
  in_tree (l1 ++ a :: l2) s -> n ∈ live s -> n ∉ l1 ++ a :: l2 ->
  (exists s', link (Some a) (Some n) s = Done (tt, s') /\ same_rest s s' /\
    dlist k (set_count (u32 (count s' + 1)) s')) ->
  (forall s l r, shaped s None (Node l a r) -> NoDup (n :: elems (Node l a r)) -> n ∈ live s ->
    (forall x, x ∈ elems (Node l a r) -> x ∈ live s) ->
    exists s', hang (Some a) (Some n) s = Done (tt, s') /\ tree_only s s' /\ shaped s' None (T l r)) ->
  (forall l r, rt (T l r) = Some n) -> (forall l r, elems l = l1 -> elems r = l2 -> elems (T l r) = k) ->
  exists s', (link (Some a) (Some n) ;;; splay_bottom_up (Some a) ;;; hang (Some a) (Some n) ;;;
      modify (set_root (Some n)) ;;; incr_count) s = Done (tt, s') /\ same_mem s s' /\ in_tree k s'.
Proof.
  intros [(t & Hs & Hr & He) Hl] Hn Hnin (s1 & E1 & Hsr & Hk) Hhang HT HTe.
  destruct (Hl) as [_ _ _ Hnd Hlv _]. rewrite <- He in Hnd, Hlv, Hnin.
  pose proof (same_rest_mem _ _ Hsr) as Hm1. rewrite (bind_done _ _ _ _ _ E1).
  destruct (splay_bottom_up_ok s1 t a) as (s2 & l & r & E2 & Hto2 & Hs2 & He2).
  { by eapply shaped_same_rest. } { done. } { intros x Hx. rewrite (sm_live _ _ Hm1). auto. } { rewrite He. set_solver. }
  rewrite (bind_done _ _ _ _ _ E2).
  assert (Hlive2 : live s2 = live s) by (rewrite (to_live _ _ Hto2); apply Hm1).
  destruct (Hhang (set_root (Some a) s2) l r) as (s3 & E3 & Hto3 & Hs3).
  { exact Hs2. } { rewrite He2. by apply NoDup_cons. } { cbn. by rewrite Hlive2. }
  { intros x Hx. cbn. rewrite Hlive2. apply Hlv. by rewrite <- He2. }
  rewrite (bind_done _ _ _ _ _ E3). unfold incr_count. prun. eexists. split; [done|].
  assert (Hm3 : same_mem s s3) by (etrans; [exact Hm1|]; etrans; [exact (tree_only_mem _ _ Hto2)|]; destruct Hto3; by constructor).
  split; [destruct Hm3; by constructor|]. constructor.
  - exists (T l r). split; [exact Hs3|]. split; [by rewrite HT|]. 
    cbn in He2. rewrite He in He2. apply split_unique in He2 as [? ?]; [by apply HTe|].
    change (NoDup (elems (Node l a r))). rewrite He, <- He2 in Hnd. done.
  - destruct Hto3 as [B1 B2 B3 B4 B5 B6 B7 B8 B9]. pose proof (count_tree _ _ _ Hto2 Hk None) as [C1 C2 C3 C4 C5 C6].
    cbn in *. constructor; cbn; by rewrite ?B1, ?B2, ?B4, ?B6, ?B7, ?B9.
Qed.

Lemma insert_before_ok l1 a l2 n s :
  in_tree (l1 ++ a :: l2) s -> n ∈ live s -> n ∉ l1 ++ a :: l2 ->
  exists s', insert_before_at (Some a) (Some n) s = Done (tt, s') /\ same_mem s s' /\
    in_tree (l1 ++ n :: a :: l2) s'.
Proof.
  intros H Hn Hnin. unfold insert_before_at.
  apply (insert_at_ok link_before hang_before l1 a l2 _ n s (fun l r => Node l n (Node Leaf a r))); try done.
  - apply link_before_ok; [apply H|done|done].
  - intros. by apply hang_before_ok.
  - intros l r <- <-. by flat.
Qed.

Lemma insert_after_ok l1 a l2 n s :
  in_tree (l1 ++ a :: l2) s -> n ∈ live s -> n ∉ l1 ++ a :: l2 ->
  exists s', insert_after_at (Some a) (Some n) s = Done (tt, s') /\ same_mem s s' /\
    in_tree (l1 ++ a :: n :: l2) s'.
Proof.
  intros H Hn Hnin. unfold insert_after_at.
  apply (insert_at_ok link_after hang_after l1 a l2 _ n s (fun l r => Node (Node l a Leaf) n r)); try done.
  - apply link_after_ok; [apply H|done|done].
  - intros. by apply hang_after_ok.
  - intros l r <- <-. by flat.
Qed.

(** ** Removal *)

Lemma drop_root_ok s a l r :
  shaped s None (Node l a r) -> NoDup (elems (Node l a r)) ->
  (forall x, x ∈ elems (Node l a r) -> x ∈ live s) ->
  prev s a = final None (elems l) -> next s a = first (elems r) None ->
  exists s', drop_root (Some a) s = Done (tt, s') /\ tree_only (set_root (rt (graft l r)) s) s' /\
    shaped s' None (graft l r).
Proof.
  unfold shaped. cbn [rep elems rt]. intros H Hnd Hlv Hp Hn. destruct_and?.
  colour Hnd [elems l; [a]; elems r].
  assert (a ∈ live s /\ (forall x, x ∈ elems l -> x ∈ live s) /\ (forall x, x ∈ elems r -> x ∈ live s))
    as (? & Ll & Lr) by lives_by Hlv.
  unfold drop_root, hang_right. prun. rewrite Hp, Hn. destruct l as [|ll b lr] eqn:El.
  - cbn [elems graft]. rewrite final_nil. destruct r as [|rl c rr] eqn:Er; cbn [is_some].
    + prun. eexists. split; [done|]. by split; [constructor|].
    + rewrite <- Er in *. assert (Hrt : rt r = Some c) by (by subst).
      assert (is_some (first (elems r) None) = true) as -> by (rewrite Er; cbn; by destruct (elems rl)).
      assert (c ∈ live s) by (by apply Lr, rt_elem). clear Er.
      prun. known. rewrite Hrt. prun. eexists. split; [done|]. split; [by constructor|]. shape.
  - rewrite <- El in *. assert (Hrt : rt l = Some b) by (by subst).
    destruct (last_elems_some l) as (m & Hm & Hmi); [by subst|]. rewrite (final_elems _ _ _ Hm) in *. cbn [is_some].
    rewrite rt_graft by (by subst). assert (b ∈ live s) by (by apply Ll, rt_elem). pose proof (Ll _ Hmi). clear El.
    pose proof (fun x (E : rt r = Some x) => Lr x (rt_elem _ _ E)) as Lr'.
    prun. known. rewrite Hrt. prun. known.
    root_case r Lr'; prun; eexists; (split; [done|]); (split; [by constructor|]); cbn.
    + apply (rep_graft (left s) (right s) (parent s) _ _ _ r m l (Some a)); try done; [intros; splits; intros; field|intros; field|intros; field|field|shape].
    + apply rt_none in E as ->. apply (rep_graft (left s) (right s) (parent s) _ _ _ Leaf m l (Some a)); try done; [intros; splits; intros; field|intros; field|intros; field|cbn; field].
Qed.

Lemma unlink_node_ok l1 a l2 s :
  in_tree (l1 ++ a :: l2) s -> zlen (l1 ++ a :: l2) < 2 ^ 32 ->
  exists s', splay_unlink_node (Some a) s = Done (tt, s') /\ same_mem s s' /\ in_tree (l1 ++ l2) s'.
Proof.
  intros [(t & Hs & Hr & He) Hl] Hz. destruct (Hl) as [_ _ _ Hnd Hlv _].
  destruct (unlink_links_ok l1 l2 a s Hl Hz) as (s1 & E1 & Hsr & Hn1 & Hp1 & Hk). clear Hz.
  pose proof (same_rest_mem _ _ Hsr) as Hm1. unfold splay_unlink_node. rewrite (bind_done _ _ _ _ _ E1).
  rewrite <- He in Hnd, Hlv.
  destruct (splay_bottom_up_ok s1 t a) as (s2 & l & r & E2 & Hto2 & Hs2 & He2).
  { by eapply shaped_same_rest. } { done. } { intros x Hx. rewrite (sm_live _ _ Hm1). auto. } { rewrite He. set_solver. }
  rewrite (bind_done _ _ _ _ _ E2).
  assert (Hlive2 : live s2 = live s) by (rewrite (to_live _ _ Hto2); apply Hm1).
  rewrite <- He2 in Hnd, Hlv. rewrite He in He2. cbn in He2.
  apply split_unique in He2 as [Hel Her]; [|exact Hnd].
  destruct (drop_root_ok (set_root (Some a) s2) a l r) as (s3 & E3 & Hto3 & Hs3).
  { exact Hs2. } { done. } { intros x Hx. cbn. rewrite Hlive2. auto. }
  { cbn. by rewrite (to_prev _ _ Hto2), Hp1, Hel. } { cbn. by rewrite (to_next _ _ Hto2), Hn1, Her. }
  rewrite (bind_done _ _ _ _ _ E3). unfold decr_count. prun. eexists. split; [done|].
  assert (Hm3 : same_mem s s3) by (etrans; [exact Hm1|]; etrans; [exact (tree_only_mem _ _ Hto2)|]; destruct Hto3; by constructor).
  split; [destruct Hm3; by constructor|]. constructor.
  - exists (graft l r). split; [exact Hs3|]. split; [apply Hto3|]. by rewrite elems_graft, Hel, Her.
  - destruct Hto3 as [B1 B2 B3 B4 B5 B6 B7 B8 B9]. destruct Hto2 as [A1 A2 A3 A4 A5 A6 A7 A8 A9]. destruct Hk as [C1 C2 C3 C4 C5 C6].
    cbn in *. constructor; cbn; by rewrite ?B1, ?B2, ?B4, ?B6, ?B7, ?B9, ?A1, ?A2, ?A4, ?A6, ?A7, ?A9.
Qed.
