(* ===== verification/SplaySpec.v ===== *)
(** The splay tree of src/src/splay_tree.c as its users see it: an ordered list of
    (node, payload) pairs, and the refinement of that list by the tree. *)
From stdpp Require Import gmap sorting.
From S2P Require Import Prelude Heap LinkedList SplayTree SplayShape SplayUp SplayDown SplayOps.

(** What a comparison callback promises. *)
Class Ordered (compare : Z -> Z -> Z) := {
  ord_flip x y : compare x y <= 0 <-> 0 <= compare y x;
  ord_le_lt x y z : compare x y <= 0 -> compare y z < 0 -> compare x z < 0;
  ord_lt_le x y z : compare x y < 0 -> compare y z <= 0 -> compare x z < 0;
}.

(** Comparison of numbers, as an [int]. *)
Definition compare_num (a b : Z) : Z := if a <? b then -1 else if b <? a then 1 else 0.

#[export] Instance compare_num_ordered : Ordered compare_num.
Proof. constructor; intros *; unfold compare_num; repeat zcase; lia. Qed.

Module TreeSpec.

(** [items] in key order; [loose] are nodes taken out with [splay_unlink] and not
    freed. *)
Record spec := Spec {
  items : list (Z * Z); loose : list (Z * Z); fresh : Z; dels : bool; trace : list ev }.

Inductive op :=
  | Insert (d : Z) | InsertNode (a : Z) | Unlink (d : Z) | UnlinkNode (a : Z) | DeleteNode (a : Z) | Delete (d : Z)
  | Search (d : Z) | Closest (d : Z) | ClosestSmaller (d : Z) | ClosestGreater (d : Z) | Foreach | ForeachNode.

Section Step.
Context (compare : Z -> Z -> Z).

(** The items before, at and after a key. *)
Definition smaller (d : Z) (l : list (Z * Z)) := filter (fun i => 0 < compare d i.2) l.
Definition equal (d : Z) (l : list (Z * Z)) := filter (fun i => compare d i.2 = 0) l.
Definition greater (d : Z) (l : list (Z * Z)) := filter (fun i => compare d i.2 < 0) l.

Definition node_of (i : option (Z * Z)) : Z := match i with Some i => i.1 | None => 0 end.
Definition data_of (i : option (Z * Z)) : Z := match i with Some i => i.2 | None => 0 end.
Definition without (a : Z) (l : list (Z * Z)) := filter (fun i => i.1 <> a) l.

Definition add (i : Z * Z) (s : spec) : spec :=
  Spec (smaller i.2 (items s) ++ i :: greater i.2 (items s)) (loose s) (fresh s) (dels s) (trace s).

Definition take_out (i : Z * Z) (s : spec) : spec :=
  Spec (without i.1 (items s)) (i :: loose s) (fresh s) (dels s) (trace s).

Definition free (i : Z * Z) (s : spec) : spec :=
  Spec (without i.1 (items s)) (loose s) (fresh s) (dels s) (trace s ++ ListSpec.told (dels s) i.2).

Definition at_node (a : Z) (l : list (Z * Z)) : option (Z * Z) := list.head (filter (fun i => i.1 = a) l).

(** The result is a node or a payload, 0 for NULL and where nothing is returned. *)
Definition step (o : op) (s : spec) : Z * spec :=
  match o with
  | Insert d =>
      match equal d (items s) with
      | [] => (fresh s, add (fresh s, d) (Spec (items s) (loose s) (fresh s + 1) (dels s) (trace s)))
      | _ => (0, s)
      end
  | InsertNode a =>
      match at_node a (loose s) with
      | Some i =>
          match equal i.2 (items s) with
          | [] => (a, add i (Spec (items s) (without a (loose s)) (fresh s) (dels s) (trace s)))
          | _ => (0, s)
          end
      | None => (0, s)
      end
  | Unlink d => match equal d (items s) with i :: _ => (i.1, take_out i s) | [] => (0, s) end
  | UnlinkNode a => (0, match at_node a (items s) with Some i => take_out i s | None => s end)
  | DeleteNode a => (0, match at_node a (items s) with Some i => free i s | None => s end)
  | Delete d => (0, match equal d (items s) with i :: _ => free i s | [] => s end)
  | Search d => (data_of (list.head (equal d (items s))), s)
  | Closest _ => (0, s)
  | ClosestSmaller d => (data_of (last (smaller d (items s) ++ equal d (items s))), s)
  | ClosestGreater d => (data_of (list.head (equal d (items s) ++ greater d (items s))), s)
  | Foreach => (0, Spec (items s) (loose s) (fresh s) (dels s) (trace s ++ ((fun i => Acted i.2) <$> items s)))
  | ForeachNode => (0, Spec (items s) (loose s) (fresh s) (dels s) (trace s ++ ((fun i => ActedNode i.1) <$> items s)))
  end.

(** Nodes named by the caller exist; an [unsigned int] counts the items. *)
Definition valid (o : op) (s : spec) : Prop :=
  match o with
  | Insert _ => zlen (items s) < 2 ^ 32 - 1
  | InsertNode a => zlen (items s) < 2 ^ 32 - 1 /\ a ∈ (loose s).*1
  | UnlinkNode a | DeleteNode a => a ∈ (items s).*1
  | _ => True
  end.

Fixpoint run (ops : list op) (s : spec) : list Z * spec :=
  match ops with
  | [] => ([], s)
  | o :: ops => let (r, s) := step o s in let (rs, s) := run ops s in (r :: rs, s)
  end.

Fixpoint all_valid (ops : list op) (s : spec) : Prop :=
  match ops with
  | [] => True
  | o :: ops => valid o s /\ all_valid ops (step o s).2
  end.

End Step.
End TreeSpec.
Import TreeSpec.

Definition ptr_num (p : ptr) : Z := default 0 p.

Section Refinement.
Context (compare : Z -> Z -> Z) {HO : Ordered compare}.

Definition tree_op (o : op) : prog Z :=
  match o with
  | Insert d => p <- splay_insert compare d ;; ret (ptr_num p)
  | InsertNode a => p <- splay_insert_node compare (Some a) ;; ret (ptr_num p)
  | Unlink d => p <- splay_unlink compare d ;; ret (ptr_num p)
  | UnlinkNode a => void (splay_unlink_node (Some a))
  | DeleteNode a => void (splay_delete_node (Some a))
  | Delete d => void (splay_delete compare d)
  | Search d => splay_search compare d
  | Closest d => r <- splay_search_closest compare d ;; ret 0
  | ClosestSmaller d => splay_search_closest_smaller compare d
  | ClosestGreater d => splay_search_closest_greater compare d
  | Foreach => void splay_foreach
  | ForeachNode => void splay_foreach_node
  end.

Fixpoint tree_run (ops : list op) : prog (list Z) :=
  match ops with
  | [] => ret []
  | o :: ops => r <- tree_op o ;; rs <- tree_run ops ;; ret (r :: rs)
  end.

Definition before_in_order (x y : Z * Z) : Prop := compare x.2 y.2 < 0.

Record tree_rep (sp : spec) (s : state) : Prop := {
  tr_tree : in_tree (items sp).*1 s;
  tr_data : Forall (pair_rep s) (items sp ++ loose sp);
  tr_order : StronglySorted before_in_order (items sp);
  tr_nodup : NoDup (items sp ++ loose sp).*1;
  tr_nodes : forall a, a ∈ (items sp ++ loose sp).*1 -> a ∈ live s;
  tr_live : forall a, a ∈ live s -> 0 < a < brk s;
  tr_brk : 0 < brk s;
  tr_fresh : brk s = fresh sp;
  tr_dels : deletes s = dels sp;
  tr_log : log s = trace sp;
  tr_bound : zlen (items sp) < 2 ^ 32;
}.

(** ** Keys in order *)

Definition sign_split (d : Z) (l1 l2 : list (Z * Z)) : Prop :=
  Forall (fun i => 0 < compare d i.2) l1 /\ Forall (fun i => compare d i.2 < 0) l2.

Lemma ord_lt_flip x y : compare x y < 0 <-> 0 < compare y x.
Proof. pose proof (ord_flip x y). pose proof (ord_flip y x). lia. Qed.

Lemma ordered_mono d l1 x l2 :
  StronglySorted before_in_order (l1 ++ x :: l2) ->
  (compare d x.2 <= 0 -> Forall (fun i => compare d i.2 < 0) l2) /\
  (0 <= compare d x.2 -> Forall (fun i => 0 < compare d i.2) l1).
Proof.
  intros Hs. rewrite !Forall_forall. split.
  - intros Hx y Hy. apply (ord_le_lt d x.2 y.2 Hx).
    apply StronglySorted_app_1_r, StronglySorted_cons in Hs as [Hs _]. rewrite Forall_forall in Hs. by apply Hs.
  - intros Hx y Hy. apply ord_lt_flip. apply (ord_lt_le y.2 x.2 d); [|by apply ord_flip].
    apply (StronglySorted_app_1_elem_of before_in_order _ _ y x Hs Hy). by left.
Qed.

(** The three views of an ordered list, from a split at one of its items. *)
Lemma split_views d l1 x l2 :
  sign_split d l1 l2 ->
  smaller compare d (l1 ++ x :: l2) = l1 ++ (if decide (0 < compare d x.2) then [x] else []) /\
  equal compare d (l1 ++ x :: l2) = (if decide (compare d x.2 = 0) then [x] else []) /\
  greater compare d (l1 ++ x :: l2) = (if decide (compare d x.2 < 0) then [x] else []) ++ l2.
Proof.
  intros [H1 H2]. unfold smaller, equal, greater. rewrite !filter_app, !filter_cons.
  rewrite (filter_all _ l1) by done.
  rewrite (filter_none (fun i => compare d i.2 = 0) l1) by (eapply Forall_impl; [exact H1|cbn; lia]).
  rewrite (filter_none (fun i => compare d i.2 < 0) l1) by (eapply Forall_impl; [exact H1|cbn; lia]).
  rewrite (filter_none (fun i => 0 < compare d i.2) l2) by (eapply Forall_impl; [exact H2|cbn; lia]).
  rewrite (filter_none (fun i => compare d i.2 = 0) l2) by (eapply Forall_impl; [exact H2|cbn; lia]).
  rewrite (filter_all (fun i => compare d i.2 < 0) l2) by done.
  repeat case_decide; done.
Qed.

Lemma sorted_filter (P : Z * Z -> Prop) `{!forall x, Decision (P x)} l :
  StronglySorted before_in_order l -> StronglySorted before_in_order (filter P l).
Proof.
  induction 1 as [|x l Hl IH Hx]; [constructor|]. rewrite filter_cons. case_decide; [|done].
  constructor; [done|]. rewrite Forall_forall in *. intros y [_ Hy]%list_elem_of_filter. auto.
Qed.

Lemma sorted_add d n l :
  StronglySorted before_in_order l ->
  StronglySorted before_in_order (smaller compare d l ++ (n, d) :: greater compare d l).
Proof.
  intros Hl. apply StronglySorted_app_2; [|by apply sorted_filter|].
  - intros x y [Hx _]%list_elem_of_filter. apply ord_lt_flip in Hx. intros [->|Hy]%elem_of_cons; [done|].
    apply list_elem_of_filter in Hy as [Hy _]. apply (ord_lt_le x.2 d y.2 Hx). lia.
  - constructor; [by apply sorted_filter|]. apply Forall_forall. by intros y [Hy _]%list_elem_of_filter.
Qed.

(** ** Searching *)

Lemma tree_rep_pos sp s a : tree_rep sp s -> a ∈ (items sp).*1 -> 0 < a.
Proof. intros H Ha. apply (tr_live _ _ H), (tr_nodes _ _ H). rewrite fmap_app. apply elem_of_app. by left. Qed.

(** A state that differs in the tree's links only, in the shape of the same list. *)
Lemma kept_rep sp s s' t :
  tree_rep sp s -> kept s s' -> shaped s' None t -> root s' = rt t -> elems t = (items sp).*1 -> tree_rep sp s'.
Proof.
  intros H [K1 K2 K3 K4 K5 K6 K7 K8 K9 K10] Hs Hr He. pose proof (fun a => tree_rep_pos sp s a H) as Hpos.
  destruct H as [[_ Hl] Hd Ho Hnd Hn Hlv Hbk Hf Hde Hlo Hb]. constructor; try congruence; try done.
  - constructor; [by exists t|]. eapply dlist_frame; [exact Hl|..]; try done; [|by rewrite K4].
    intros a Ha. rewrite K1, K2 by auto. done.
  - rewrite Forall_forall in *. intros i Hi. unfold pair_rep. rewrite K3; [by apply Hd|].
    apply Hlv, Hn. by apply list_elem_of_fmap_2.
  - intros a Ha. rewrite K4. auto.
  - intros a. rewrite K4, K5. apply Hlv.
Qed.

Lemma rep_data sp s i : tree_rep sp s -> i ∈ items sp -> data s i.1 = i.2.
Proof. intros H Hi. pose proof (tr_data _ _ H) as Hd. rewrite Forall_forall in Hd. apply Hd, elem_of_app. by left. Qed.

(** Comparisons with the payloads, by node and by item. *)
Lemma signs_of d sp s l (Q : Z -> Prop) :
  tree_rep sp s -> (forall i, i ∈ l -> i ∈ items sp) ->
  Forall (fun a => Q (compare d (data s a))) l.*1 <-> Forall (fun i => Q (compare d i.2)) l.
Proof.
  intros H Hin. rewrite Forall_fmap, !Forall_forall. cbn.
  split; intros Hx i Hi; specialize (Hx i Hi); rewrite ?(rep_data sp s) in * by auto; done.
Qed.

Lemma rep_mono d sp s : tree_rep sp s -> mono (fun a => compare d (data s a)) (items sp).*1.
Proof.
  intros H l1 x l2 E. apply fmap_app_inv in E as (i1 & i2' & -> & E & Ei).
  symmetry in E. apply fmap_cons_inv in E as (x' & i2 & -> & -> & ->).
  destruct (ordered_mono d i1 x' i2) as [H1 H2]; [rewrite <- Ei; apply H|].
  rewrite (signs_of d sp s i2 (fun z => z < 0)), (signs_of d sp s i1 (fun z => 0 < z)) by (done || rewrite Ei; set_solver).
  by rewrite (rep_data sp s x') by (done || rewrite Ei; set_solver).
Qed.

(** A node found in the tree, as an item. *)
Lemma found_item d sp s l1 a l2 :
  tree_rep sp s -> (items sp).*1 = l1 ++ a :: l2 ->
  Forall (fun a => 0 < compare d (data s a)) l1 -> Forall (fun a => compare d (data s a) < 0) l2 ->
  exists i1 x i2, items sp = i1 ++ x :: i2 /\ a = x.1 /\ data s a = x.2 /\ l1 = i1.*1 /\ l2 = i2.*1 /\ sign_split d i1 i2.
Proof.
  intros H E Hp Hn. apply fmap_app_inv in E as (i1 & i2' & -> & E & Ei).
  symmetry in E. apply fmap_cons_inv in E as (x & i2 & -> & -> & ->). exists i1, x, i2.
  splits; try done; [apply (rep_data sp s); [done|rewrite Ei; set_solver]|].
  split; [apply (signs_of d sp s i1 (fun z => 0 < z))|apply (signs_of d sp s i2 (fun z => z < 0))];
    try done; rewrite Ei; set_solver.
Qed.

Lemma search_ok d sp s :
  tree_rep sp s -> items sp <> [] ->
  exists s' i1 x i2, splay_top_down compare d s = Done ((Some x.1, compare d x.2), s') /\
    tree_rep sp s' /\ items sp = i1 ++ x :: i2 /\ sign_split d i1 i2 /\ brk s' = brk s /\
    live s' = live s /\ data s' x.1 = x.2 /\ root s' = Some x.1.
Proof.
  intros H Hne. destruct (tr_tree _ _ H) as [(t & Hs & Hr & He) Hl].
  assert (Hlv : forall x, x ∈ elems t -> 0 < x /\ x ∈ live s).
  { intros x Hx. rewrite He in Hx. split; [by apply (tree_rep_pos sp s)|by apply Hl]. }
  destruct (splay_top_down_ok compare d s t) as (s' & l & a & r & E & Hk & Hr' & Hs' & He' & Hp & Hn); try done.
  - intros ->. by destruct (items sp).
  - rewrite He. apply Hl.
  - intros Hx%(tr_live _ _ H). unfold dl in Hx. lia.
  - intros Hx%(tr_live _ _ H). unfold dr in Hx. lia.
  - rewrite He. by apply rep_mono.
  - assert (H' : tree_rep sp s') by (apply (kept_rep sp s s' (Node l a r)); done || by rewrite He').
    destruct (found_item d sp s (elems l) a (elems r) H) as (i1 & x & i2 & Ei & -> & Hd & _ & _ & Hsp); [by rewrite <- He, <- He'|done|done|].
    exists s', i1, x, i2. rewrite Hd in E. splits; try done; [apply Hk|apply Hk|].
    apply (rep_data sp s'); [done|]. rewrite Ei. set_solver.
Qed.

Lemma empty_root sp s : tree_rep sp s -> (root s = None <-> items sp = []).
Proof.
  intros H. destruct (tr_tree _ _ H) as [(t & _ & -> & He) _]. destruct t as [|l a r]; cbn in *.
  - symmetry in He. by apply fmap_nil_inv in He as ->.
  - split; [done|]. intros E. rewrite E in He. by destruct (elems l).
Qed.

(** The list in order around an item. *)
Lemma equal_split d i1 x i2 :
  sign_split d i1 i2 -> equal compare d (i1 ++ x :: i2) = if decide (compare d x.2 = 0) then [x] else [].
Proof. intros H. by apply split_views. Qed.

Lemma search_node_ok d sp s :
  tree_rep sp s ->
  exists s' p, splay_search_node compare d s = Done (p, s') /\ tree_rep sp s' /\
    match equal compare d (items sp) with
    | x :: _ => p = Some x.1 /\ x ∈ items sp /\ data s' x.1 = x.2 /\ compare d x.2 = 0
    | [] => p = None
    end.
Proof.
  intros H. unfold splay_search_node, splay_search_closest_node.
  destruct (decide (items sp = [])) as [E|E].
  - exists s, None. unfold splay_top_down. prun. rewrite (proj2 (empty_root sp s H) E). cbn [is_some]. prun.
    split; [done|]. split; [done|]. by rewrite E.
  - destruct (search_ok d sp s H E) as (s' & i1 & x & i2 & E1 & H' & Ei & Hsp & _ & _ & Hd & _).
    rewrite (bind_done _ _ _ _ _ E1). cbn beta iota. prun. rewrite Ei, equal_split by done.
    destruct (compare d x.2 =? 0) eqn:Ec; ztests.
    + rewrite decide_True by done. exists s', (Some x.1). splits; try done. set_solver.
    + rewrite decide_False by done. by exists s', None.
Qed.

(** ** Nodes outside the tree *)

Lemma loose_not_in sp s a : tree_rep sp s -> a ∈ (loose sp).*1 -> a ∉ (items sp).*1.
Proof.
  intros H Ha Hi. pose proof (tr_nodup _ _ H) as Hnd. rewrite fmap_app in Hnd.
  apply NoDup_app in Hnd as (_ & Hd & _). by apply (Hd a).
Qed.

(** A node is allocated and given its payload. *)
Definition allocated (d : Z) (s : state) : state :=
  set_data (upd (upd (data s) (brk s) 0) (brk s) d)
    (zero_node (brk s) (set_live ({[brk s]} ∪ live s) (set_brk (brk s + 1) s))).

Lemma run_allocated {A} d s (k : Z -> prog A) :
  (a <- splay_alloc_node ;; store_data (Some a) d ;;; k a) s = k (brk s) (allocated d s).
Proof. unfold splay_alloc_node, store_data, allocated. by prun. Qed.

Lemma alloc_loose d sp s :
  tree_rep sp s ->
  tree_rep (Spec (items sp) ((fresh sp, d) :: loose sp) (fresh sp + 1) (dels sp) (trace sp)) (allocated d s).
Proof.
  intros H. unfold allocated. set (n := brk s). destruct (H) as [[(t & Hs & Hr & He) Hl] Hd Ho Hnd Hn Hlv Hbk Hf Hde Hlo Hb].
  assert (Hfr : forall a, a ∈ (items sp ++ loose sp).*1 -> a <> n).
  { intros a Ha%Hn%Hlv. subst n. lia. }
  assert (Hfi : forall a, a ∈ (items sp).*1 -> a <> n) by (intros a Ha; apply Hfr; rewrite fmap_app; set_solver).
  subst n. constructor; cbn; try congruence; try done.
  - constructor.
    + exists t. split; [|done]. eapply rep_frame; [|exact Hs]. intros x Hx. rewrite He in Hx. cbn.
      rewrite !upd_other by auto. done.
    + eapply dlist_frame; [exact Hl|..]; try done; cbn; [|set_solver]. intros a Ha. rewrite !upd_other by auto. done.
  - rewrite Forall_app, Forall_cons in *. destruct Hd as [Hd1 Hd2]. rewrite Forall_forall in Hd1, Hd2. rewrite !Forall_forall.
    unfold pair_rep in *. cbn. rewrite <- Hf, upd_same. splits; try done.
    + intros i Hi. rewrite !upd_other by (apply Hfr; rewrite fmap_app; apply elem_of_app; left; by apply list_elem_of_fmap_2). auto.
    + intros i Hi. rewrite !upd_other by (apply Hfr; rewrite fmap_app; apply elem_of_app; right; by apply list_elem_of_fmap_2). auto.
  - rewrite fmap_app in *. cbn. apply NoDup_app in Hnd as (N1 & N2 & N3). apply NoDup_app. split; [done|].
    rewrite <- Hf. split; [|apply NoDup_cons; split; [|done]; intros Hx; apply (Hfr (brk s)); set_solver].
    intros a Ha [->|Hx]%elem_of_cons; [by apply (Hfi (brk s))|by apply (N2 a)].
  - intros a. rewrite fmap_app. cbn. rewrite <- Hf. intros [Ha|[->|Ha]%elem_of_cons]%elem_of_app; [|set_solver|];
      apply elem_of_union_r, Hn; rewrite fmap_app; set_solver.
  - intros a [->%elem_of_singleton|Ha%Hlv]%elem_of_union; lia.
  - lia.
Qed.

(** Writing the links of a node outside the tree. *)
Lemma clear_loose a sp s :
  tree_rep sp s -> a ∈ (loose sp).*1 ->
  exists s', (forall A (k : prog A), (store_prev (Some a) None ;;; store_next (Some a) None ;;; store_parent (Some a) None ;;;
      store_right (Some a) None ;;; store_left (Some a) None ;;; k) s = k s') /\
    tree_rep sp s' /\ root s' = root s /\ data s' = data s /\ live s' = live s.
Proof.
  intros H Ha. pose proof (loose_not_in _ _ _ H Ha) as Hni.
  assert (a ∈ live s) by (apply (tr_nodes _ _ H); rewrite fmap_app; set_solver).
  destruct H as [[(t & Hs & Hr & He) Hl] Hd Ho Hnd Hn Hlv Hbk Hf Hde Hlo Hb].
  assert (Hne : forall x, x ∈ (items sp).*1 -> x <> a) by (by intros x Hx ->).
  eexists. split; [intros A k; prun; reflexivity|]. split; [|done]. constructor; cbn; try done. constructor.
  - exists t. split; [|done]. eapply rep_frame; [|exact Hs]. intros x Hx. rewrite He in Hx. cbn. rewrite !upd_other by auto. done.
  - eapply dlist_frame; [exact Hl|..]; try done; cbn. intros x Hx. rewrite !upd_other by auto. done.
Qed.

(** ** Insertion *)

Lemma at_node_some a l : a ∈ l.*1 -> exists d, at_node a l = Some (a, d) /\ (a, d) ∈ l.
Proof.
  intros [[b d] [-> Hin]]%list_elem_of_fmap. unfold at_node. cbn.
  destruct (filter (fun i => i.1 = b) l) as [|[c e] k] eqn:E.
  - apply (filter_nil_not_elem_of _ _ (b, d)) in E; done.
  - assert ((c, e) ∈ filter (fun i : Z * Z => i.1 = b) l) as [Hc Hin']%list_elem_of_filter by (rewrite E; by left).
    cbn in Hc. subst. by exists e.
Qed.

(** A node outside the tree is put in, next to the item the search ended at. *)
Lemma add_loose n d sp s i1 x i2 :
  tree_rep sp s -> (n, d) ∈ loose sp -> items sp = i1 ++ x :: i2 -> sign_split d i1 i2 -> compare d x.2 <> 0 ->
  zlen (items sp) < 2 ^ 32 - 1 ->
  exists s', (if compare d x.2 <? 0 then splay_insert_before (Some x.1) (Some n)
      else splay_insert_after (Some x.1) (Some n)) s = Done (tt, s') /\
    tree_rep (add compare (n, d) (Spec (items sp) (without n (loose sp)) (fresh sp) (dels sp) (trace sp))) s'.
Proof.
  intros H Hn Hi Hsp Hc Hz.
  assert (Hna : n ∈ (loose sp).*1) by (apply list_elem_of_fmap; by exists (n, d)).
  pose proof (loose_not_in _ _ _ H Hna) as Hni.
  assert (Hnl : n ∈ live s) by (apply (tr_nodes _ _ H); rewrite fmap_app; set_solver).
  destruct (split_views d i1 x i2 Hsp) as (Hv1 & _ & Hv3).
  assert (Hins : exists s', (if compare d x.2 <? 0 then splay_insert_before (Some x.1) (Some n)
      else splay_insert_after (Some x.1) (Some n)) s = Done (tt, s') /\ same_mem s s' /\
      in_tree (smaller compare d (items sp) ++ (n, d) :: greater compare d (items sp)).*1 s').
  { pose proof (tr_tree _ _ H) as Ht. rewrite Hi, fmap_app, fmap_cons in Ht, Hni. rewrite Hi, Hv1, Hv3.
    destruct (compare d x.2 <? 0) eqn:E; ztests; rewrite !fmap_app; cbn [fmap list_fmap fst].
    - rewrite decide_False, decide_True by lia. cbn [fmap list_fmap app fst]. rewrite app_nil_r.
      by apply insert_before_ok.
    - rewrite decide_True, decide_False by lia. cbn [fmap list_fmap app fst]. rewrite <- app_assoc.
      by apply insert_after_ok. }
  destruct Hins as (s' & E & [M1 M2 M3 M4 M5] & Ht). exists s'. split; [exact E|].
  destruct H as [_ Hd Ho Hnd Hnn Hlv Hbk Hf Hde Hlo Hb].
  assert (Hperm : forall i, i ∈ smaller compare d (items sp) ++ (n, d) :: greater compare d (items sp) ->
    i ∈ items sp \/ i = (n, d)).
  { intros i. unfold smaller, greater. rewrite elem_of_app, elem_of_cons, !list_elem_of_filter. tauto. }
  constructor; cbn; try congruence; try done.
  - rewrite Forall_app in *. rewrite !Forall_forall in *. destruct Hd as [Hd1 Hd2]. unfold pair_rep in *. rewrite M1. split.
    + intros i [Hin|Hin]%Hperm; [auto|]. subst i. by apply Hd2.
    + intros i [_ Hin]%list_elem_of_filter. auto.
  - by apply sorted_add.
  - rewrite !fmap_app in *. apply NoDup_app in Hnd as (N1 & N2 & N3).
    apply NoDup_app. split; [by destruct Ht as [_ []]|]. split.
    + intros a Hi' Ha. rewrite <- fmap_app in Hi'. apply list_elem_of_fmap in Hi' as (i & -> & Hin). apply list_elem_of_fmap in Ha as (j & Ej & [Hj1 Hj2]%list_elem_of_filter).
      apply Hperm in Hin as [Hin|Hin]; [|by subst i].
      apply (N2 i.1); [by apply list_elem_of_fmap_2|rewrite Ej; by apply list_elem_of_fmap_2].
    + eapply sublist_NoDup; [exact N3|]. apply fmap_sublist, sublist_filter.
  - intros a Ha. rewrite M2. rewrite fmap_app in Ha. apply elem_of_app in Ha as [Ha|Ha].
    + apply list_elem_of_fmap in Ha as (i & -> & [Hin|Hin]%Hperm); [|by subst i].
      apply Hnn. rewrite fmap_app. apply elem_of_app. left. by apply list_elem_of_fmap_2.
    + apply list_elem_of_fmap in Ha as (i & -> & [_ Hin]%list_elem_of_filter).
      apply Hnn. rewrite fmap_app. apply elem_of_app. right. by apply list_elem_of_fmap_2.
  - intros a. rewrite M2, M3. apply Hlv.
  - unfold smaller, greater in *. rewrite Hi, Hv1, Hv3. rewrite Hi in Hz. unfold zlen in *. rewrite !length_app in *. cbn in *. rewrite !length_app.
    repeat case_decide; cbn; lia.
Qed.

(** ** Removal *)

Lemma without_split i1 x i2 :
  NoDup (i1 ++ x :: i2).*1 -> without x.1 (i1 ++ x :: i2) = i1 ++ i2.
Proof.
  intros Hnd. rewrite fmap_app, fmap_cons in Hnd. apply NoDup_app in Hnd as (_ & H1 & [H2 _]%NoDup_cons).
  unfold without. rewrite filter_app, filter_cons_False by auto. rewrite !filter_all; [done|..].
  - apply Forall_forall. intros i Hi E. apply H2. rewrite <- E. by apply list_elem_of_fmap_2.
  - apply Forall_forall. intros i Hi E. apply (H1 i.1); [by apply list_elem_of_fmap_2|]. rewrite E. by left.
Qed.

Lemma take_out_ok x sp s :
  tree_rep sp s -> x ∈ items sp ->
  exists s', splay_unlink_node (Some x.1) s = Done (tt, s') /\ tree_rep (take_out x sp) s' /\ live s' = live s /\ data s' = data s.
Proof.
  intros H (i1 & i2 & Hi)%list_elem_of_split. pose proof (tr_tree _ _ H) as Ht. rewrite Hi, fmap_app, fmap_cons in Ht.
  destruct (unlink_node_ok _ _ _ _ Ht) as (s' & E & [M1 M2 M3 M4 M5] & Ht').
  { pose proof (tr_bound _ _ H) as Hb. rewrite Hi in Hb. unfold zlen in *. rewrite !length_app in *. cbn in *. rewrite !length_fmap. exact Hb. }
  exists s'. split; [exact E|]. split; [|done]. destruct H as [_ Hd Ho Hnd Hnn Hlv Hbk Hf Hde Hlo Hb].
  assert (Hw : without x.1 (items sp) = i1 ++ i2).
  { rewrite Hi. apply without_split. rewrite fmap_app in Hnd. apply NoDup_app in Hnd as (Hnd & _). by rewrite Hi in Hnd. }
  assert (Hp : (i1 ++ i2) ++ x :: loose sp ≡ₚ items sp ++ loose sp) by (rewrite Hi; solve_Permutation).
  unfold take_out. rewrite Hw. constructor; cbn; try congruence; try done.
  - by rewrite fmap_app.
  - rewrite Hp. unfold pair_rep in *. by rewrite M1.
  - rewrite <- Hw. by apply sorted_filter.
  - rewrite Hp. done.
  - intros a Ha. rewrite Hp in Ha. rewrite M2. auto.
  - intros a. rewrite M2, M3. apply Hlv.
  - rewrite Hi in Hb. unfold zlen in *. rewrite !length_app in *. cbn in *. lia.
Qed.

Lemma free_loose n d sp s l :
  tree_rep (Spec (items sp) ((n, d) :: l) (fresh sp) (dels sp) (trace sp)) s ->
  exists s', splay_free_node n s = Done (tt, s') /\
    tree_rep (Spec (items sp) l (fresh sp) (dels sp) (trace sp ++ ListSpec.told (dels sp) d)) s'.
Proof.
  intros H. assert (Hni : n ∉ (items sp).*1) by (apply (loose_not_in _ _ _ H); cbn; set_solver).
  destruct H as [[(t & Hs & Hr & He) Hl] Hd Ho Hnd Hnn Hlv Hbk Hf Hde Hlo Hb]. cbn in *.
  assert (Hnl : n ∈ live s) by (apply Hnn; rewrite fmap_app; set_solver).
  rewrite fmap_app in Hnd. cbn in Hnd. apply NoDup_app in Hnd as (N1 & N2 & [N3 N4]%NoDup_cons).
  rewrite Forall_app, Forall_cons in Hd. destruct Hd as (D1 & D2 & D3).
  assert (Hfin : forall s', same_rest (set_live (live s ∖ {[n]}) (set_log (log s') s)) s' -> next s' = next s -> prev s' = prev s ->
     head s' = head s -> tail s' = tail s -> log s' = trace sp ++ ListSpec.told (dels sp) d ->
     tree_rep (Spec (items sp) l (fresh sp) (dels sp) (trace sp ++ ListSpec.told (dels sp) d)) s').
  { intros s' [A1 A2 A3 A4 A5 A6 A7 A8 A9 A10] B1 B2 B3 B4 B5. cbn in *. constructor; cbn; try congruence; try done.
    - constructor; [exists t; unfold shaped; rewrite A1, A2, A3, A7; done|].
      eapply dlist_frame; [exact Hl|..]; try done; rewrite ?B1, ?B2, ?A5; [done|]. intros a Ha Ha'. set_solver.
    - unfold pair_rep in *. rewrite A4. by apply Forall_app.
    - rewrite fmap_app. apply NoDup_app. split; [done|]. split; [|done]. intros a Ha Ha'. apply (N2 a Ha). by right.
    - intros a Ha. rewrite A5. apply elem_of_difference. split; [apply Hnn; rewrite fmap_app in *; set_solver|].
      rewrite fmap_app in Ha. set_solver.
    - rewrite A5, A6. intros a [Ha _]%elem_of_difference. auto. }
  unfold splay_free_node, free_node. prun. unfold pair_rep in D2. cbn in D2. rewrite D2, Hde.
  unfold ListSpec.told in *. destruct (negb (d =? 0) && dels sp); prun; eexists; (split; [done|]); apply Hfin; try done; cbn; try (by constructor).
  - by rewrite Hlo.
  - by rewrite Hlo, app_nil_r.
Qed.

(** ** Every operation *)

Definition op_ok (o : op) (sp : spec) (s : state) : Prop :=
  returns (tree_op o s) (fun '(r, s') => r = (step compare o sp).1 /\ tree_rep (step compare o sp).2 s').

Lemma op_done o sp s r s' :
  tree_op o s = Done (r, s') -> r = (step compare o sp).1 -> tree_rep (step compare o sp).2 s' -> op_ok o sp s.
Proof. intros E ? ?. unfold op_ok. by rewrite E. Qed.

(** The first node of an empty tree. *)
Lemma add_first n d sp s :
  tree_rep sp s -> items sp = [] -> (n, d) ∈ loose sp ->
  exists s', splay_insert_top (Some n) s = Done (tt, s') /\
    tree_rep (add compare (n, d) (Spec (items sp) (without n (loose sp)) (fresh sp) (dels sp) (trace sp))) s'.
Proof.
  intros H Hi Hn. pose proof (tr_tree _ _ H) as Ht. rewrite Hi in Ht.
  assert (Hnl : n ∈ live s).
  { apply (tr_nodes _ _ H). apply list_elem_of_fmap. exists (n, d). split; [done|]. apply elem_of_app. by right. }
  destruct (insert_top_ok n s Ht Hnl) as (s' & E & [M1 M2 M3 M4 M5] & Ht'). exists s'. split; [done|].
  destruct H as [_ Hd Ho Hnd Hnn Hlv Hbk Hf Hde Hlo Hb]. rewrite Hi in *. cbn in *.
  assert (Hsub : forall i, i ∈ without n (loose sp) -> i ∈ loose sp /\ i.1 <> n).
  { intros i [? ?]%list_elem_of_filter. done. }
  constructor; cbn; rewrite ?Hi; cbn; try congruence; try done.
  - rewrite Forall_forall in *. unfold pair_rep in *. rewrite M1. intros i [->|[? _]%Hsub]%elem_of_cons; [by apply Hd|auto].
  - repeat constructor.
  - apply NoDup_cons. split; [|eapply sublist_NoDup; [exact Hnd|]; apply fmap_sublist, sublist_filter].
    intros (i & E' & [_ Hx]%Hsub)%list_elem_of_fmap. by apply Hx.
  - intros a [->|Ha]%elem_of_cons; [by rewrite M2|]. apply list_elem_of_fmap in Ha as (i & -> & [Hin _]%Hsub).
    rewrite M2. apply Hnn. by apply list_elem_of_fmap_2.
  - intros a. rewrite M2, M3. apply Hlv.
Qed.

(** A node outside the tree, inserted by its payload. *)
Lemma insert_loose n d sp s :
  tree_rep sp s -> (n, d) ∈ loose sp -> zlen (items sp) < 2 ^ 32 - 1 -> items sp <> [] ->
  exists s1 s' x, splay_top_down compare d s = Done ((Some x.1, compare d x.2), s1) /\ brk s1 = brk s /\
    tree_rep sp s1 /\
    if decide (compare d x.2 = 0) then equal compare d (items sp) = [x] else
      equal compare d (items sp) = [] /\
      (if compare d x.2 <? 0 then splay_insert_before (Some x.1) (Some n)
       else splay_insert_after (Some x.1) (Some n)) s1 = Done (tt, s') /\
      tree_rep (add compare (n, d) (Spec (items sp) (without n (loose sp)) (fresh sp) (dels sp) (trace sp))) s'.
Proof.
  intros H Hn Hz Hne. destruct (search_ok d sp s H Hne) as (s1 & i1 & x & i2 & E1 & H1 & Hi & Hsp & Hb & _).
  pose proof (equal_split d i1 x i2 Hsp) as He. rewrite <- Hi in He.
  destruct (decide (compare d x.2 = 0)) as [Hc|Hc]; [exists s1, s1, x; splits; try done; by rewrite decide_True|].
  destruct (add_loose n d sp s1 i1 x i2 H1 Hn Hi Hsp Hc Hz) as (s' & E2 & H2).
  exists s1, s', x. splits; try done. rewrite decide_False by done. done.
Qed.

Lemma without_fresh n d l : n ∉ l.*1 -> without n ((n, d) :: l) = l.
Proof.
  intros H. unfold without. rewrite filter_cons_False by (cbn; auto). apply filter_all, Forall_forall.
  intros i Hi E. apply H. rewrite <- E. by apply list_elem_of_fmap_2.
Qed.

Lemma fresh_not_loose sp s : tree_rep sp s -> fresh sp ∉ (loose sp).*1.
Proof.
  intros H Hx. assert (Ha : fresh sp ∈ live s) by (apply (tr_nodes _ _ H); rewrite fmap_app; set_solver).
  apply (tr_live _ _ H) in Ha. rewrite (tr_fresh _ _ H) in Ha. lia.
Qed.

Lemma insert_op_ok d sp s : tree_rep sp s -> valid (Insert d) sp -> op_ok (Insert d) sp s.
Proof.
  intros H Hv. unfold valid in Hv.
  assert (Hins : exists p s', splay_insert compare d s = Done (p, s') /\
    ptr_num p = (step compare (Insert d) sp).1 /\ tree_rep (step compare (Insert d) sp).2 s').
  2:{ destruct Hins as (p & s' & E & E1 & E2). apply (op_done _ _ _ (ptr_num p) s'); [|done|done].
      cbn [tree_op]. by rewrite (bind_done _ _ _ _ _ E). }
  unfold splay_insert, splay_search_closest_node. cbn [step].
  assert (Hw : without (fresh sp) ((fresh sp, d) :: loose sp) = loose sp) by (by eapply without_fresh, fresh_not_loose).
  destruct (decide (items sp = [])) as [Hi|Hi].
  - prun. rewrite (proj2 (empty_root sp s H) Hi). cbn [is_some].
    rewrite run_allocated, (tr_fresh _ _ H). pose proof (alloc_loose d sp s H) as H1.
    destruct (add_first (fresh sp) d _ _ H1 Hi) as (s2 & E2 & H2); [by left|].
    rewrite (bind_done _ _ _ _ _ E2). cbn [items loose fresh dels trace] in H2. rewrite Hw in H2.
    exists (Some (fresh sp)), s2. rewrite Hi in *. done.
  - destruct (search_ok d sp s H Hi) as (s1 & i1 & x & i2 & E1 & H1 & Ei & Hsp & Hb & _).
    pose proof (equal_split d i1 x i2 Hsp) as He. rewrite <- Ei in He.
    prun. destruct (root s) as [rr|] eqn:Er; [|by apply (empty_root sp s H) in Er]. cbn [is_some].
    rewrite (bind_done _ _ _ _ _ E1). cbn beta iota. rewrite He.
    destruct (compare d x.2 =? 0) eqn:Ec; ztests.
    { rewrite decide_True by done. exists None, s1. done. }
    rewrite decide_False by done. rewrite run_allocated, (tr_fresh _ _ H1). pose proof (alloc_loose d sp s1 H1) as H2.
    destruct (add_loose (fresh sp) d _ _ i1 x i2 H2 ltac:(by left) Ei Hsp Ec Hv) as (s3 & E3 & H3).
    rewrite (bind_done _ _ _ _ _ E3). cbn [items loose fresh dels trace] in H3. rewrite Hw in H3.
    exists (Some (fresh sp)), s3. done.
Qed.

Lemma insert_node_op_ok a sp s : tree_rep sp s -> valid (InsertNode a) sp -> op_ok (InsertNode a) sp s.
Proof.
  intros H [Hv Ha].
  assert (Hins : exists p s', splay_insert_node compare (Some a) s = Done (p, s') /\
    ptr_num p = (step compare (InsertNode a) sp).1 /\ tree_rep (step compare (InsertNode a) sp).2 s').
  2:{ destruct Hins as (p & s' & E & E1 & E2). apply (op_done _ _ _ (ptr_num p) s'); [|done|done].
      cbn [tree_op]. by rewrite (bind_done _ _ _ _ _ E). }
  unfold splay_insert_node, splay_search_closest_node. cbn [step].
  destruct (clear_loose a sp s H Ha) as (s0 & E0 & H0 & Hr0 & Hd0 & Hl0). rewrite E0.
  destruct (at_node_some a (loose sp) Ha) as (d & -> & Hin). cbn [fst snd].
  assert (Hda : data s0 a = d).
  { pose proof (tr_data _ _ H0) as Hd. rewrite Forall_forall in Hd. apply (Hd (a, d)), elem_of_app. by right. }
  assert (Hla : a ∈ live s0) by (apply (tr_nodes _ _ H0); rewrite fmap_app; set_solver).
  destruct (decide (items sp = [])) as [Hi|Hi].
  - prun. rewrite (proj2 (empty_root sp s0 H0) Hi). cbn [is_some].
    destruct (add_first a d sp s0 H0 Hi Hin) as (s2 & E2 & H2). rewrite (bind_done _ _ _ _ _ E2).
    exists (Some a), s2. rewrite Hi in *. done.
  - destruct (insert_loose a d sp s0 H0 Hin Hv Hi) as (s1 & s2 & x & E1 & _ & H1 & Hx).
    prun. destruct (root s0) as [rr|] eqn:Er; [|by apply (empty_root sp s0 H0) in Er]. cbn [is_some].
    prun. rewrite Hda, (bind_done _ _ _ _ _ E1). cbn beta iota.
    destruct (compare d x.2 =? 0) eqn:Ec; ztests.
    + rewrite decide_True in Hx by done. rewrite Hx. by exists None, s1.
    + rewrite decide_False in Hx by done. destruct Hx as (Hx & E2 & H2). rewrite (bind_done _ _ _ _ _ E2), Hx. by exists (Some a), s2.
Qed.

Lemma unlink_op_ok d sp s : tree_rep sp s -> op_ok (Unlink d) sp s.
Proof.
  intros H. unfold op_ok. cbn [tree_op step]. unfold splay_unlink.
  destruct (search_node_ok d sp s H) as (s1 & p & E1 & H1 & Hp). rewrite run_bind, (bind_done _ _ _ _ _ E1).
  destruct (equal compare d (items sp)) as [|x k]; [subst p; cbn [is_some]; by prun|].
  destruct Hp as (-> & Hin & _). cbn [is_some]. destruct (take_out_ok x sp s1 H1 Hin) as (s2 & E2 & H2 & _).
  rewrite run_bind, (bind_done _ _ _ _ _ E2). by prun.
Qed.

Lemma unlink_node_op_ok a sp s : tree_rep sp s -> valid (UnlinkNode a) sp -> op_ok (UnlinkNode a) sp s.
Proof.
  intros H (d & E & Hin)%at_node_some. unfold op_ok. cbn [tree_op step]. rewrite E. unfold void.
  destruct (take_out_ok (a, d) sp s H Hin) as (s2 & E2 & H2 & _). cbn [fst] in E2. rewrite (bind_done _ _ _ _ _ E2). by prun.
Qed.

(** Taking out and freeing. *)
Lemma delete_item_ok x sp s :
  tree_rep sp s -> x ∈ items sp -> exists s', splay_delete_node (Some x.1) s = Done (tt, s') /\ tree_rep (free x sp) s'.
Proof.
  intros H Hin. destruct (take_out_ok x sp s H Hin) as (s2 & E2 & H2 & Hl & _). unfold splay_delete_node.
  assert (x.1 ∈ live s2).
  { rewrite Hl. apply (tr_nodes _ _ H). rewrite fmap_app. apply elem_of_app. left. by apply list_elem_of_fmap_2. }
  rewrite (bind_done _ _ _ _ _ E2), run_deref by done.
  apply (free_loose x.1 x.2 (Spec (without x.1 (items sp)) [] (fresh sp) (dels sp) (trace sp))). cbn. by destruct x.
Qed.

Lemma delete_node_op_ok a sp s : tree_rep sp s -> valid (DeleteNode a) sp -> op_ok (DeleteNode a) sp s.
Proof.
  intros H (d & E & Hin)%at_node_some. unfold op_ok. cbn [tree_op step]. rewrite E. unfold void.
  destruct (delete_item_ok (a, d) sp s H Hin) as (s2 & E2 & H2). cbn [fst] in E2. rewrite (bind_done _ _ _ _ _ E2). by prun.
Qed.

Lemma delete_op_ok d sp s : tree_rep sp s -> op_ok (Delete d) sp s.
Proof.
  intros H. unfold op_ok. cbn [tree_op step]. unfold void, splay_delete.
  destruct (search_node_ok d sp s H) as (s1 & p & E1 & H1 & Hp). rewrite run_bind, (bind_done _ _ _ _ _ E1).
  destruct (equal compare d (items sp)) as [|x k]; [subst p; cbn [is_some]; by prun|].
  destruct Hp as (-> & Hin & _). cbn [is_some]. destruct (delete_item_ok x sp s1 H1 Hin) as (s2 & E2 & H2).
  rewrite (bind_done _ _ _ _ _ E2). by prun.
Qed.

(** A live item's payload. *)
Lemma data_item x sp s : tree_rep sp s -> x ∈ items sp -> SplayTree.data_of (Some x.1) s = Done (x.2, s).
Proof.
  intros H Hin. unfold SplayTree.data_of. cbn [is_some].
  pose proof (tr_data _ _ H) as Hd. rewrite Forall_forall in Hd.
  rewrite load_live; [|apply (tr_nodes _ _ H); rewrite fmap_app; apply elem_of_app; left; by apply list_elem_of_fmap_2].
  by rewrite (Hd x) by (apply elem_of_app; by left).
Qed.

Lemma search_op_ok d sp s : tree_rep sp s -> op_ok (Search d) sp s.
Proof.
  intros H. unfold op_ok. cbn [tree_op step]. unfold splay_search.
  destruct (search_node_ok d sp s H) as (s1 & p & E1 & H1 & Hp). rewrite (bind_done _ _ _ _ _ E1).
  destruct (equal compare d (items sp)) as [|x k]; [by subst p|].
  destruct Hp as (-> & Hin & _). rewrite (data_item x sp s1 H1 Hin). done.
Qed.

(** An empty tree is not searched. *)
Lemma search_empty d sp s : tree_rep sp s -> items sp = [] -> splay_top_down compare d s = Done ((None, 0), s).
Proof. intros H E. unfold splay_top_down. prun. rewrite (proj2 (empty_root sp s H) E). cbn [is_some]. by prun. Qed.

Lemma closest_op_ok d sp s : tree_rep sp s -> op_ok (Closest d) sp s.
Proof.
  intros H. unfold op_ok. cbn [tree_op step]. unfold splay_search_closest, splay_search_closest_node.
  destruct (decide (items sp = [])) as [Hi|Hi].
  - rewrite run_bind, (bind_done _ _ _ _ _ (search_empty d sp s H Hi)). cbn beta iota. unfold SplayTree.data_of. cbn [is_some]. by prun.
  - destruct (search_ok d sp s H Hi) as (s1 & i1 & x & i2 & E1 & H1 & Ei & _).
    rewrite run_bind, (bind_done _ _ _ _ _ E1). cbn beta iota.
    rewrite run_bind, (bind_done _ _ _ _ _ (data_item x sp s1 H1 ltac:(rewrite Ei; set_solver))). by prun.
Qed.

(** The neighbours of an item of the tree. *)
Lemma neighbours sp s i1 x i2 :
  tree_rep sp s -> items sp = i1 ++ x :: i2 ->
  x.1 ∈ live s /\ prev s x.1 = final None i1.*1 /\ next s x.1 = first i2.*1 None.
Proof.
  intros H Hi. destruct (tr_tree _ _ H) as [_ Hl]. rewrite Hi, fmap_app, fmap_cons in Hl.
  destruct (dlist_at _ _ _ _ Hl) as (? & ? & ? & _). done.
Qed.

Lemma closest_smaller_op_ok d sp s : tree_rep sp s -> op_ok (ClosestSmaller d) sp s.
Proof.
  intros H. unfold op_ok. cbn [tree_op step].
  unfold splay_search_closest_smaller, splay_search_closest_smaller_node, splay_search_closest_node.
  destruct (decide (items sp = [])) as [Hi|Hi].
  - rewrite run_bind, (bind_done _ _ _ _ _ (search_empty d sp s H Hi)). cbn beta iota. rewrite Hi. prun. done.
  - destruct (search_ok d sp s H Hi) as (s1 & i1 & x & i2 & E1 & H1 & Ei & Hsp & _).
    rewrite run_bind, (bind_done _ _ _ _ _ E1). cbn beta iota.
    destruct (split_views d i1 x i2 Hsp) as (Hv1 & Hv2 & _). rewrite Ei, Hv1, Hv2.
    destruct (neighbours sp s1 i1 x i2 H1 Ei) as (Hx & Hp & _).
    destruct (compare d x.2 <? 0) eqn:Ec; ztests.
    + prun. rewrite Hp, decide_False, decide_False, !app_nil_r by lia.
      destruct i1 as [|y i1 _] using rev_ind; [by rewrite final_nil|].
      rewrite fmap_app. cbn [fmap list_fmap]. rewrite final_snoc, last_snoc.
      rewrite (data_item y sp s1 H1); [done|]. rewrite Ei. set_solver.
    + prun. rewrite (data_item x sp s1 H1) by (rewrite Ei; set_solver). cbn [returns]. split; [|done].
      destruct (decide (0 < compare d x.2)); [rewrite decide_False by lia|rewrite decide_True by lia];
        by rewrite ?app_nil_r, last_snoc.
Qed.

Lemma closest_greater_op_ok d sp s : tree_rep sp s -> op_ok (ClosestGreater d) sp s.
Proof.
  intros H. unfold op_ok. cbn [tree_op step].
  unfold splay_search_closest_greater, splay_search_closest_greater_node, splay_search_closest_node.
  destruct (decide (items sp = [])) as [Hi|Hi].
  - rewrite run_bind, (bind_done _ _ _ _ _ (search_empty d sp s H Hi)). cbn beta iota. rewrite Hi. prun. done.
  - destruct (search_ok d sp s H Hi) as (s1 & i1 & x & i2 & E1 & H1 & Ei & Hsp & _).
    rewrite run_bind, (bind_done _ _ _ _ _ E1). cbn beta iota.
    destruct (split_views d i1 x i2 Hsp) as (_ & Hv2 & Hv3). rewrite Ei, Hv2, Hv3.
    destruct (neighbours sp s1 i1 x i2 H1 Ei) as (Hx & _ & Hn).
    destruct (0 <? compare d x.2) eqn:Ec; ztests.
    + prun. rewrite Hn, decide_False, decide_False by lia. cbn [app].
      destruct i2 as [|y i2]; [done|]. cbn [fmap list_fmap first].
      rewrite (data_item y sp s1 H1); [done|]. rewrite Ei. set_solver.
    + prun. rewrite (data_item x sp s1 H1) by (rewrite Ei; set_solver). cbn [returns]. split; [|done].
      destruct (decide (compare d x.2 = 0)); [done|]. by rewrite decide_True by lia.
Qed.

(** ** Traversals *)

Lemma rep_trace sp s e :
  tree_rep sp s ->
  tree_rep (Spec (items sp) (loose sp) (fresh sp) (dels sp) (trace sp ++ e)) (set_log (log s ++ e) s).
Proof.
  intros [[Ht Hl] Hd Ho Hnd Hn Hlv Hbk Hf Hde Hlo Hb]. constructor; cbn; try done; [|congruence].
  constructor; [exact Ht|]. by eapply dlist_frame.
Qed.

Lemma traverse_ok (body : Z -> prog unit) (e : Z * Z -> ev) sp s :
  (forall sp x s, tree_rep sp s -> x ∈ items sp -> body x.1 s = Done (tt, set_log (log s ++ [e x]) s)) ->
  tree_rep sp s ->
  returns (void (list_each body) s) (fun '(r, s') => r = 0 /\
    tree_rep (Spec (items sp) (loose sp) (fresh sp) (dels sp) (trace sp ++ (e <$> items sp))) s').
Proof.
  intros Hb H. unfold void. unfold bind at 1. eapply returns_bind.
  - apply (each_dlist_ok _ (fun dn rest s => dn ++ rest = items sp /\
      tree_rep (Spec (items sp) (loose sp) (fresh sp) (dels sp) (trace sp ++ (e <$> dn))) s) (items sp) s);
      [|apply H|split; [done|destruct sp; cbn; by rewrite app_nil_r]].
    intros dn x rest s1 [Ei H1]. destruct (neighbours _ s1 dn x rest H1) as (Hx & _ & Hn); [done|].
    split; [done|]. split; [done|]. rewrite (Hb _ x s1 H1) by (cbn; rewrite <- Ei; set_solver). cbn [returns].
    split; [by rewrite <- app_assoc|]. apply (rep_trace _ _ [e x]) in H1. cbn in H1. by rewrite fmap_app, app_assoc.
  - intros [[] s'] [_ H']. cbn. done.
Qed.

Lemma foreach_op_ok sp s : tree_rep sp s -> op_ok Foreach sp s.
Proof.
  intros H. apply (traverse_ok _ (fun i => Acted i.2)); [|done]. intros sp' x s' H' Hin.
  destruct (list_elem_of_split _ _ Hin) as (i1 & i2 & Ei). destruct (neighbours _ _ _ _ _ H' Ei) as (Hx & _).
  pose proof (tr_data _ _ H') as Hd. rewrite Forall_forall in Hd. prun. by rewrite (Hd x) by (apply elem_of_app; by left).
Qed.

Lemma foreach_node_op_ok sp s : tree_rep sp s -> op_ok ForeachNode sp s.
Proof. intros H. by apply (traverse_ok _ (fun i => ActedNode i.1)). Qed.

Lemma tree_op_ok o sp s : tree_rep sp s -> valid o sp -> op_ok o sp s.
Proof.
  intros H Hv. destruct o; eauto using insert_op_ok, insert_node_op_ok, unlink_op_ok, unlink_node_op_ok,
    delete_node_op_ok, delete_op_ok, search_op_ok, closest_op_ok, closest_smaller_op_ok, closest_greater_op_ok,
    foreach_op_ok, foreach_node_op_ok.
Qed.

Lemma tree_run_ok ops : forall sp s,
  tree_rep sp s -> all_valid compare ops sp ->
  returns (tree_run ops s) (fun '(rs, s') => rs = (run compare ops sp).1 /\ tree_rep (run compare ops sp).2 s').
Proof.
  induction ops as [|o ops IH]; intros sp s H Hv; [done|]. destruct Hv as [Hv Hvs].
  cbn [tree_run run]. unfold bind. eapply returns_bind; [by apply tree_op_ok|].
  intros [r s1] [-> H1]. destruct (step compare o sp) as [r1 sp1]. cbn in *.
  eapply returns_bind; [by apply IH|]. intros [rs s2] [-> H2]. by destruct (run compare ops sp1).
Qed.

Definition empty_tree (del : bool) : spec := Spec [] [] 1 del [].

Lemma splay_alloc_rep del : tree_rep (empty_tree del) (splay_alloc_tree del).
Proof.
  constructor; try done; [|constructor|apply NoDup_nil_2|by intros a ?%not_elem_of_nil].
  constructor; [by exists Leaf|]. constructor; try done; [apply NoDup_nil_2|by intros a ?%not_elem_of_nil].
Qed.

Lemma tree_reach del ops :
  all_valid compare ops (empty_tree del) ->
  exists s, tree_run ops (splay_alloc_tree del) = Done ((run compare ops (empty_tree del)).1, s) /\
    tree_rep (run compare ops (empty_tree del)).2 s.
Proof.
  intros Hv. pose proof (tree_run_ok ops _ _ (splay_alloc_rep del) Hv) as Hr.
  apply returns_done in Hr as ([rs s] & -> & -> & H). by exists s.
Qed.

(** C16.  The splay tree refines an ordered list.  With any comparison that is an
    order, from an empty tree, every sequence of insertions (of payloads and of
    nodes), removals (by payload and by node), searches (exact, closest smaller
    and closest greater) and traversals returns: no assert fails, no freed node
    or NULL is accessed, no loop runs for ever; each result, the nodes and payloads
    left in key order, the nodes taken out and the delete callbacks made are those
    of the ordered list; and in memory the tree and the list stay in step. *)
Theorem splay_refines_ordered_list del ops :
  all_valid compare ops (empty_tree del) ->
  exists s, tree_run ops (splay_alloc_tree del) = Done ((run compare ops (empty_tree del)).1, s) /\
    tree_rep (run compare ops (empty_tree del)).2 s.
Proof. apply tree_reach. Qed.

(** The closest-node search.  On a tree that is not empty it returns a node
    of the tree with the comparison of the key with its payload; every node before
    it has a smaller payload than the key and every node after it a greater one.
    The node is now the root, and the contents are as before. *)
Theorem splay_search_closest_finds d sp s :
  tree_rep sp s -> items sp <> [] ->
  exists s' i1 x i2, splay_search_closest_node compare d s = Done ((Some x.1, compare d x.2), s') /\
    tree_rep sp s' /\ root s' = Some x.1 /\ items sp = i1 ++ x :: i2 /\
    Forall (fun i => 0 < compare d i.2) i1 /\ Forall (fun i => compare d i.2 < 0) i2.
Proof.
  intros H Hne. destruct (search_ok d sp s H Hne) as (s' & i1 & x & i2 & E & H' & Hi & [H1 H2] & _ & _ & _ & Hr).
  by exists s', i1, x, i2.
Qed.

(** ** The search that does not splay *)

Lemma nosplay_loop_ok d s fuel : forall c t,
  let f a := compare d (data s a) in
  (length (elems t) <= fuel)%nat -> t <> Leaf ->
  shaped s None (plug c t) -> (forall x, x ∈ elems (plug c t) -> x ∈ live s) -> mono f (elems (plug c t)) ->
  Forall (fun a => 0 < f a) (before c) -> Forall (fun a => f a < 0) (after c) ->
  exists l1 a l2, nosplay_loop compare fuel d (rt t) s = Done ((Some a, f a), s) /\
    elems (plug c t) = l1 ++ a :: l2 /\ Forall (fun a => 0 < f a) l1 /\ Forall (fun a => f a < 0) l2.
Proof.
  induction fuel as [|fuel IH]; intros c t f Hf Hne Hs Hlv Hm Hb Ha; (destruct t as [|l a r]; [done|]).
  { cbn in Hf. rewrite length_app in Hf. cbn in Hf. lia. }
  cbn in Hf. rewrite length_app in Hf. cbn in Hf. unfold shaped in Hs. pose proof Hs as Hs'.
  rewrite rep_plug in Hs'. destruct Hs' as [_ (Hl & Hr & _)].
  assert (a ∈ live s) by (apply Hlv; rewrite elems_plug; cbn; set_solver).
  destruct (Hm (before c ++ elems l) a (elems r ++ after c)) as [Hm1 Hm2]; [rewrite elems_plug; by flat|].
  assert (Hstop : (f a < 0 -> l = Leaf) -> (0 < f a -> r = Leaf) -> exists l1 a' l2,
    Done ((Some a, f a), s) = Done ((Some a', f a'), s) /\ elems (plug c (Node l a r)) = l1 ++ a' :: l2 /\
    Forall (fun a => 0 < f a) l1 /\ Forall (fun a => f a < 0) l2).
  { intros Hx Hy. exists (before c ++ elems l), a, (elems r ++ after c). split; [done|].
    split; [rewrite elems_plug; by flat|]. rewrite !Forall_app in *. split.
    - destruct (decide (f a < 0)) as [Hlt|Hge]; [rewrite (Hx Hlt); by repeat constructor|]. apply Hm2. lia.
    - destruct (decide (0 < f a)) as [Hlt|Hge]; [rewrite (Hy Hlt); by repeat constructor|]. apply Hm1. lia. }
  cbn [rt nosplay_loop]. prun. fold (f a). destruct (f a <? 0) eqn:E1; ztests.
  - prun. rewrite Hl. destruct l as [|l' b r'] eqn:El; cbn [rt is_some]; [prun; apply Hstop; [done|lia]|].
    rewrite <- El in *. destruct (IH (InL a r :: c) l) as (l1 & a' & l2 & E & Hx); try done.
    { lia. } { by subst. } { cbn [after]. rewrite app_comm_cons, !Forall_app, Forall_cons in *.  destruct Hm1; lia || auto. }
    exists l1, a', l2. split; [|exact Hx]. subst l. exact E.
  - destruct (0 <? f a) eqn:E2; ztests; [|prun; apply Hstop; lia].
    prun. rewrite Hr. destruct r as [|l' b r'] eqn:El; cbn [rt is_some]; [prun; apply Hstop; [lia|done]|].
    rewrite <- El in *. destruct (IH (InR l a :: c) r) as (l1 & a' & l2 & E & Hx); try done.
    { lia. } { by subst. } { cbn [before]. rewrite !Forall_app, Forall_cons in *. destruct Hm2; lia || auto. }
    exists l1, a', l2. split; [|exact Hx]. subst r. exact E.
Qed.

(** The search that does not splay changes nothing and finds a node in the
    same sense: what is before it is smaller than the key, what is after it is
    greater. *)
Theorem splay_nosplay_finds d sp s :
  tree_rep sp s -> items sp <> [] ->
  exists i1 x i2, splay_search_closest_node_nosplay compare d s = Done ((Some x.1, compare d x.2), s) /\
    items sp = i1 ++ x :: i2 /\
    Forall (fun i => 0 < compare d i.2) i1 /\ Forall (fun i => compare d i.2 < 0) i2.
Proof.
  intros H Hne. destruct (tr_tree _ _ H) as [(t & Hs & Hr & He) Hl].
  assert (Hlv : forall x, x ∈ elems t -> x ∈ live s) by (intros x Hx; rewrite He in Hx; by apply Hl).
  assert (Ht : t <> Leaf) by (intros ->; by destruct (items sp)).
  destruct (nosplay_loop_ok d s (size (live s)) [] t) as (l1 & a & l2 & E & He' & Hp & Hn); try done.
  - apply length_live; [rewrite He; apply Hl|done].
  - cbn [plug fold_left]. rewrite He. by apply rep_mono.
  - destruct (found_item d sp s l1 a l2 H) as (i1 & x & i2 & Ei & -> & Hd & _ & _ & [H1 H2]); [by rewrite <- He|done|done|].
    exists i1, x, i2. split; [|done]. unfold splay_search_closest_node_nosplay. prun. rewrite Hr.
    assert (is_some (rt t) = true) as -> by (by destruct t). prun. rewrite E, Hd. done.
Qed.

(** Destroying a tree hands every payload that is not NULL to the delete
    callback, in key order and once, frees every node of the tree and no other, and
    ends with a zero count. *)
Theorem splay_delete_tree_frees sp s :
  tree_rep sp s ->
  exists s', splay_delete_tree s = Done (tt, s') /\
    log s' = log s ++ concat ((fun i => ListSpec.told (dels sp) i.2) <$> items sp) /\
    live s' = live s ∖ list_to_set (items sp).*1.
Proof.
  intros H.
  assert (Hl : list_rep (ListSpec.Spec (items sp) (fresh sp) (dels sp) (trace sp)) s).
  { pose proof (tr_data _ _ H) as Hd. apply Forall_app in Hd as [Hd _].
    constructor; cbn; try apply H; try done. }
  pose proof (delete_list_ok _ s Hl) as Hr. apply returns_done in Hr as ([[] s'] & E & H'). by exists s'.
Qed.
End Refinement.

(** ** The theorems at work *)

Definition sim_ops : list op :=
  [Insert 5; Insert 3; Insert 8; Insert 1; Insert 4; Insert 5; Search 4; ClosestSmaller 7; ClosestGreater 6;
   Unlink 3; InsertNode 2; Delete 5; DeleteNode 3; ClosestSmaller 0; Foreach].

Lemma sim_ops_valid : all_valid compare_num sim_ops (empty_tree true).
Proof. vm_compute. repeat split; repeat (first [by left | right]). Qed.

Lemma splay_refines_ordered_list_witness :
  exists s, tree_run compare_num sim_ops (splay_alloc_tree true) =
      Done ([1; 2; 3; 4; 5; 0; 4; 5; 8; 2; 2; 0; 0; 0; 0], s) /\
    log s = [Deleted 5; Deleted 8; Acted 1; Acted 3; Acted 4].
Proof.
  destruct (splay_refines_ordered_list compare_num true sim_ops sim_ops_valid) as (s & E & H).
  assert (Hr : (run compare_num sim_ops (empty_tree true)).1 = [1; 2; 3; 4; 5; 0; 4; 5; 8; 2; 2; 0; 0; 0; 0])
    by (vm_compute; reflexivity).
  assert (Ht : trace (run compare_num sim_ops (empty_tree true)).2 = [Deleted 5; Deleted 8; Acted 1; Acted 3; Acted 4])
    by (vm_compute; reflexivity).
  rewrite Hr in E. exists s. split; [exact E|]. rewrite (tr_log _ _ _ H). exact Ht.
Defined.

(** A tree with five nodes. *)
Lemma sim_tree : exists s, tree_rep compare_num (run compare_num (take 5 sim_ops) (empty_tree true)).2 s.
Proof.
  assert (Hv : all_valid compare_num (take 5 sim_ops) (empty_tree true)) by (vm_compute; repeat split).
  destruct (tree_reach compare_num true _ Hv) as (s & _ & H). exists s. exact H.
Defined.

Lemma splay_search_closest_finds_witness :
  exists s s' x, splay_search_closest_node compare_num 6 s = Done ((Some x.1, compare_num 6 x.2), s') /\
    root s' = Some x.1.
Proof.
  destruct sim_tree as [s H].
  destruct (splay_search_closest_finds compare_num 6 _ s H) as (s' & i1 & x & i2 & E & _ & Hr & _); [vm_compute; congruence|].
  exists s, s', x. split; [exact E|exact Hr].
Defined.

Lemma splay_nosplay_finds_witness :
  exists s x, splay_search_closest_node_nosplay compare_num 6 s = Done ((Some x.1, compare_num 6 x.2), s).
Proof.
  destruct sim_tree as [s H].
  destruct (splay_nosplay_finds compare_num 6 _ s H) as (i1 & x & i2 & E & _); [vm_compute; congruence|].
  exists s, x. exact E.
Defined.

Lemma splay_delete_tree_frees_witness :
  exists s s', splay_delete_tree s = Done (tt, s') /\
    log s' = log s ++ [Deleted 1; Deleted 3; Deleted 4; Deleted 5; Deleted 8].
Proof.
  destruct sim_tree as [s H]. destruct (splay_delete_tree_frees compare_num _ s H) as (s' & E & Hl & _).
  assert (Ht : concat ((fun i => ListSpec.told (dels (run compare_num (take 5 sim_ops) (empty_tree true)).2) i.2) <$>
    items (run compare_num (take 5 sim_ops) (empty_tree true)).2) = [Deleted 1; Deleted 3; Deleted 4; Deleted 5; Deleted 8])
    by (vm_compute; reflexivity).
  rewrite Ht in Hl. exists s, s'. split; [exact E|exact Hl].
Defined.
