(* ===== verification/Aead.v ===== *)
(** The interface of the authenticated cipher that SPTPS is built on.

    The operations are those of chacha-poly1305.h on byte strings; the laws are
    what SPTPS relies on: encryption seals, a sealed message and nothing else
    opens, and only the key in a context matters. *)
From S2P Require Import Prelude Bytes.

Class Aead := {
  aead_ctx : Type;
  aead_init : aead_ctx;
  aead_set_key : aead_ctx -> list Z -> aead_ctx;
  aead_encrypt : aead_ctx -> Z -> list Z -> outcome (aead_ctx * list Z);
  aead_decrypt : aead_ctx -> Z -> list Z -> outcome (aead_ctx * option (list Z));
  aead_verify : aead_ctx -> Z -> list Z -> outcome (aead_ctx * bool);
  (** What the operations compute, and of what. *)
  aead_seal : aead_ctx -> Z -> list Z -> list Z;
  aead_wf : aead_ctx -> Prop;
  aead_same : aead_ctx -> aead_ctx -> Prop;
  aead_same_equiv : Equivalence aead_same;
  aead_init_wf : aead_wf aead_init;
  aead_set_key_wf c k : aead_wf c -> bytes_ok k -> (64 <= length k)%nat -> aead_wf (aead_set_key c k);
  aead_set_key_same a b k : aead_wf a -> aead_wf b -> aead_same (aead_set_key a k) (aead_set_key b k);
  aead_encrypt_ok c s m :
    aead_wf c -> bytes_ok m -> zlen m + 16 < 2 ^ 32 ->
    exists c', aead_encrypt c s m = Done (c', aead_seal c s m) /\ aead_wf c' /\ aead_same c c';
  aead_decrypt_ok c s d :
    aead_wf c -> bytes_ok d -> 16 <= zlen d < 2 ^ 32 ->
    exists c' r, aead_decrypt c s d = Done (c', r) /\ aead_wf c' /\ aead_same c c' /\
      forall m, r = Some m <-> bytes_ok m /\ d = aead_seal c s m;
  aead_verify_ok c s d :
    aead_wf c -> bytes_ok d -> 16 <= zlen d < 2 ^ 32 ->
    exists c' b, aead_verify c s d = Done (c', b) /\ aead_wf c' /\ aead_same c c' /\
      (b = true <-> exists m, bytes_ok m /\ d = aead_seal c s m);
  aead_seal_length c s m : zlen (aead_seal c s m) = zlen m + 16;
  aead_seal_ok c s m : aead_wf c -> bytes_ok m -> bytes_ok (aead_seal c s m);
  aead_seal_same a b s m : aead_wf a -> aead_wf b -> aead_same a b -> aead_seal a s m = aead_seal b s m;
}.
#[export] Existing Instance aead_same_equiv.
