(* ===== verification/ChaCha.v ===== *)
(** The ChaCha20 stream cipher (src/src/chacha-poly1305/chacha.c).

    A [chacha_ctx] is its sixteen 32-bit words.  [chacha_encrypt_bytes] is the
    C loop: a block at a time, the last short block through the uninitialised
    stack array [tmp], whose prior contents are an argument.  The reference is
    the cipher by position: byte [i] of the output is byte [i] of the input under
    exclusive or with byte [i mod 64] of the block whose 64-bit counter is the
    context's counter plus [i / 64]. *)
From S2P Require Import Prelude Bytes.

Definition U8V (v : Z) : Z := Z.land v 255.
Definition U32V (v : Z) : Z := Z.land v 4294967295.
Definition ROTL32 (v n : Z) : Z := Z.lor (U32V (Z.shiftl v n)) (Z.shiftr v (32 - n)).

Definition U8TO32_LITTLE (p : list Z) (i : nat) : Z :=
  Z.lor (Z.lor (Z.lor (p !!! i) (Z.shiftl (p !!! (i + 1)%nat) 8))
               (Z.shiftl (p !!! (i + 2)%nat) 16))
        (Z.shiftl (p !!! (i + 3)%nat) 24).

Definition U32TO8_LITTLE (v : Z) : list Z :=
  [U8V v; U8V (Z.shiftr v 8); U8V (Z.shiftr v 16); U8V (Z.shiftr v 24)].

Definition PLUS (v w : Z) : Z := U32V (v + w).
Definition PLUSONE (v : Z) : Z := PLUS v 1.

Definition QUARTERROUND (a b c d : nat) (x : list Z) : list Z :=
  let x := <[a := PLUS (x !!! a) (x !!! b)]> x in
  let x := <[d := ROTL32 (Z.lxor (x !!! d) (x !!! a)) 16]> x in
  let x := <[c := PLUS (x !!! c) (x !!! d)]> x in
  let x := <[b := ROTL32 (Z.lxor (x !!! b) (x !!! c)) 12]> x in
  let x := <[a := PLUS (x !!! a) (x !!! b)]> x in
  let x := <[d := ROTL32 (Z.lxor (x !!! d) (x !!! a)) 8]> x in
  let x := <[c := PLUS (x !!! c) (x !!! d)]> x in
  <[b := ROTL32 (Z.lxor (x !!! b) (x !!! c)) 7]> x.

(** [struct chacha_ctx]: the [input] array. *)
Notation chacha_ctx := (list Z) (only parsing).

(** ["expand 32-byte k"] and ["expand 16-byte k"]. *)
Definition sigma : list Z := [101; 120; 112; 97; 110; 100; 32; 51; 50; 45; 98; 121; 116; 101; 32; 107].
Definition tau : list Z := [101; 120; 112; 97; 110; 100; 32; 49; 54; 45; 98; 121; 116; 101; 32; 107].

Definition chacha_keysetup (x : chacha_ctx) (k : list Z) (kbits : Z) : chacha_ctx :=
  let x := <[4%nat := U8TO32_LITTLE k 0]> x in
  let x := <[5%nat := U8TO32_LITTLE k 4]> x in
  let x := <[6%nat := U8TO32_LITTLE k 8]> x in
  let x := <[7%nat := U8TO32_LITTLE k 12]> x in
  let k := if kbits =? 256 then drop 16 k else k in
  let constants := if kbits =? 256 then sigma else tau in
  let x := <[8%nat := U8TO32_LITTLE k 0]> x in
  let x := <[9%nat := U8TO32_LITTLE k 4]> x in
  let x := <[10%nat := U8TO32_LITTLE k 8]> x in
  let x := <[11%nat := U8TO32_LITTLE k 12]> x in
  let x := <[0%nat := U8TO32_LITTLE constants 0]> x in
  let x := <[1%nat := U8TO32_LITTLE constants 4]> x in
  let x := <[2%nat := U8TO32_LITTLE constants 8]> x in
  <[3%nat := U8TO32_LITTLE constants 12]> x.

(** A NULL [counter] is [None]. *)
Definition chacha_ivsetup (x : chacha_ctx) (iv : list Z) (counter : option (list Z)) : chacha_ctx :=
  let x := <[12%nat := from_option (fun c => U8TO32_LITTLE c 0) 0 counter]> x in
  let x := <[13%nat := from_option (fun c => U8TO32_LITTLE c 4) 0 counter]> x in
  let x := <[14%nat := U8TO32_LITTLE iv 0]> x in
  <[15%nat := U8TO32_LITTLE iv 4]> x.

Definition chacha_ivsetup_96 (x : chacha_ctx) (iv : list Z) (counter : option (list Z)) : chacha_ctx :=
  let x := <[12%nat := from_option (fun c => U8TO32_LITTLE c 0) 0 counter]> x in
  let x := <[13%nat := U8TO32_LITTLE iv 0]> x in
  let x := <[14%nat := U8TO32_LITTLE iv 4]> x in
  <[15%nat := U8TO32_LITTLE iv 8]> x.

(** The body of [for (i = 20; i > 0; i -= 2)]. *)
Definition double_round (x : list Z) : list Z :=
  let x := QUARTERROUND 0 4 8 12 x in
  let x := QUARTERROUND 1 5 9 13 x in
  let x := QUARTERROUND 2 6 10 14 x in
  let x := QUARTERROUND 3 7 11 15 x in
  let x := QUARTERROUND 0 5 10 15 x in
  let x := QUARTERROUND 1 6 11 12 x in
  let x := QUARTERROUND 2 7 8 13 x in
  QUARTERROUND 3 4 9 14 x.

(** The words [x0 .. x15] before the message is mixed in. *)
Definition chacha_words (j : list Z) : list Z := zip_with PLUS (Nat.iter 10 double_round j) j.

(** One turn of the loop: the 64 bytes stored at [c]. *)
Definition encrypt_block (j m : list Z) : list Z :=
  let x := chacha_words j in
  mjoin (imap (fun i xi => U32TO8_LITTLE (Z.lxor xi (U8TO32_LITTLE m (4 * i)))) x).

Definition next_counter (j : list Z) : list Z :=
  let j := <[12%nat := PLUSONE (j !!! 12%nat)]> j in
  if j !!! 12%nat =? 0 then <[13%nat := PLUSONE (j !!! 13%nat)]> j else j.

(** [for (;;)]: [m] is what the input pointer still points to. *)
Fixpoint encrypt_loop (fuel : nat) (tmp j m : list Z) (bytes : Z) : outcome (list Z * list Z) :=
  match fuel with
  | O => Stop OutOfFuel
  | S fuel =>
      let* block := mem_read m 0 (Z.min bytes 64) in
      let* block := if bytes <? 64 then mem_write tmp 0 block else Done block in
      let c := encrypt_block j block in
      let j := next_counter j in
      if bytes <=? 64 then Done (take (Z.to_nat bytes) c, j)
      else
        let* (rest, j) := encrypt_loop fuel tmp j (drop 64 m) (bytes - 64) in
        Done (c ++ rest, j)
  end.

(** The bytes stored through [c], and the context. *)
Definition chacha_encrypt_bytes (tmp : list Z) (x : chacha_ctx) (m : list Z) (bytes : Z)
    : outcome (list Z * chacha_ctx) :=
  if bytes =? 0 then Done ([], x)
  else
    let* (c, j) := encrypt_loop (S (Z.to_nat (bytes / 64))) tmp x m bytes in
    Done (c, <[13%nat := j !!! 13%nat]> (<[12%nat := j !!! 12%nat]> x)).

(** ** The reference *)

Definition counter_of (x : chacha_ctx) : Z := x !!! 12%nat + 2 ^ 32 * x !!! 13%nat.
Definition with_counter (x : chacha_ctx) (n : Z) : chacha_ctx :=
  <[13%nat := (n / 2 ^ 32) mod 2 ^ 32]> (<[12%nat := n mod 2 ^ 32]> x).

(** The key stream block of one counter value. *)
Definition chacha_block (x : chacha_ctx) (n : Z) : list Z :=
  mjoin (le_bytes 4 <$> chacha_words (with_counter x n)).

(** The key stream of [bytes] bytes. *)
Definition keystream (x : chacha_ctx) (bytes : nat) : list Z :=
  (fun i : nat => chacha_block x (counter_of x + Z.of_nat (i / 64)) !!! (i mod 64)%nat) <$> seq 0 bytes.

Record ctx_ok (x : chacha_ctx) : Prop := {
  co_length : length x = 16%nat;
  co_words : Forall (fun w => 0 <= w < 2 ^ 32) x;
}.

(** ** Words *)

Lemma U8V_mod v : U8V v = v mod 256.
Proof. by apply (land_mask v 8). Qed.

Lemma U32V_mod v : U32V v = u32 v.
Proof. by apply (land_mask v 32). Qed.

Lemma PLUS_range v w : 0 <= PLUS v w < 2 ^ 32.
Proof. unfold PLUS. rewrite U32V_mod. apply u32_range. Qed.

Lemma U32TO8_le v : U32TO8_LITTLE v = le_bytes 4 v.
Proof.
  unfold U32TO8_LITTLE. cbn [le_bytes]. rewrite !U8V_mod, !shiftr_div by lia.
  rewrite !Z.div_div by lia. done.
Qed.

Lemma U8TO32_le p i :
  bytes_ok p -> (i + 4 <= length p)%nat -> U8TO32_LITTLE p i = le_val (slice i 4 p).
Proof.
  intros Hp Hi. unfold slice. assert (Hd : (4 <= length (drop i p))%nat) by (rewrite length_drop; lia).
  assert (Hok : bytes_ok (drop i p)) by (by apply Forall_drop).
  unfold U8TO32_LITTLE. rewrite <- (Nat.add_0_r i) at 1. rewrite <- !lookup_total_drop.
  destruct (drop i p) as [|a [|b [|c [|d l]]]]; simpl in Hd; try lia.
  change (U8TO32_LITTLE [a; b; c; d] 0 = le_val [a; b; c; d]). cbv [U8TO32_LITTLE lookup_total list_lookup_total Nat.add].
  cbn [le_val].
  inversion Hok as [|? ? Ha Hok1]; subst. inversion Hok1 as [|? ? Hb Hok2]; subst.
  inversion Hok2 as [|? ? Hc Hok3]; subst.
  rewrite !Z.shiftl_mul_pow2, (lor_add a), (lor_add (a + _)), (lor_add (a + _ + _)) by lia. lia.
Qed.

(** ** Exclusive or, a word at a time *)

Lemma mod_lxor x y : Z.lxor x y mod 256 = Z.lxor (x mod 256) (y mod 256).
Proof.
  change 256 with (2 ^ 8). apply Z.bits_inj'. intros i Hi. rewrite Z.lxor_spec.
  destruct (decide (i < 8)).
  - by rewrite !Z.mod_pow2_bits_low, Z.lxor_spec by lia.
  - by rewrite !Z.mod_pow2_bits_high by lia.
Qed.

Lemma div_lxor x y : Z.lxor x y / 256 = Z.lxor (x / 256) (y / 256).
Proof.
  change 256 with (2 ^ 8). rewrite <- !shiftr_div by lia. apply Z.shiftr_lxor.
Qed.

Lemma le_bytes_lxor n : forall x y, le_bytes n (Z.lxor x y) = xor_bytes (le_bytes n x) (le_bytes n y).
Proof.
  induction n as [|n IH]; intros x y; [done|]. cbn [le_bytes]. rewrite mod_lxor, div_lxor, IH. done.
Qed.

Lemma encrypt_words ws : forall m,
  bytes_ok m -> length m = (4 * length ws)%nat ->
  mjoin (imap (fun i xi => U32TO8_LITTLE (Z.lxor xi (U8TO32_LITTLE m (4 * i)))) ws) =
  xor_bytes m (mjoin (le_bytes 4 <$> ws)).
Proof.
  induction ws as [|w ws IH]; intros m Hm Hl; [by destruct m|].
  rewrite imap_cons, fmap_cons, !join_cons. simpl in Hl.
  transitivity (xor_bytes (take 4 m ++ drop 4 m) (le_bytes 4 w ++ mjoin (le_bytes 4 <$> ws))); [|by rewrite take_drop].
  rewrite xor_bytes_app by (rewrite length_take, length_le_bytes; lia).
  f_equal.
  - rewrite U32TO8_le, le_bytes_lxor, U8TO32_le by (done || lia).
    unfold slice. rewrite drop_0. pose proof (le_bytes_val (take 4 m) ltac:(by apply Forall_take)) as E.
    rewrite length_take, Nat.min_l in E by lia. rewrite E. apply xor_bytes_comm.
  - rewrite <- IH; [|by apply Forall_drop|rewrite length_drop; lia].
    f_equal. apply imap_ext. intros i w' _. cbn [compose]. f_equal. f_equal. unfold U8TO32_LITTLE.
    rewrite !lookup_total_drop. by replace (4 * S i)%nat with (4 + 4 * i)%nat by lia.
Qed.

(** ** Counters *)

Lemma word_range x i : ctx_ok x -> (i < 16)%nat -> 0 <= x !!! i < 2 ^ 32.
Proof.
  intros [Hl Hw] Hi. rewrite Forall_lookup in Hw. apply (Hw i).
  apply list_lookup_lookup_total_lt. lia.
Qed.

Lemma ctx_ok_insert x i w : ctx_ok x -> 0 <= w < 2 ^ 32 -> ctx_ok (<[i := w]> x).
Proof. intros [Hl Hw] Hr. split; [by rewrite length_insert|by apply Forall_insert]. Qed.

Lemma next_counter_eq x : ctx_ok x -> next_counter x = with_counter x (counter_of x + 1).
Proof.
  intros Hx. pose proof (word_range x 12 Hx) as H12. pose proof (word_range x 13 Hx) as H13.
  assert (Hlen : length x = 16%nat) by apply Hx.
  unfold next_counter, with_counter, counter_of, PLUSONE, PLUS. rewrite !U32V_mod.
  rewrite list_lookup_total_insert_eq, list_lookup_total_insert_ne by lia.
  set (a := x !!! 12%nat) in *. set (b := x !!! 13%nat) in *.
  assert (E0 : u32 (a + 1) = (a + 2 ^ 32 * b + 1) mod 2 ^ 32).
  { unfold u32. replace (a + 2 ^ 32 * b + 1) with (a + 1 + b * 2 ^ 32) by lia. by rewrite Z_mod_plus_full. }
  rewrite <- E0. destruct (decide (a + 1 = 2 ^ 32)) as [E|E].
  - replace (a + 2 ^ 32 * b + 1) with ((b + 1) * 2 ^ 32) by lia. rewrite Z.div_mul by lia.
    rewrite (u32_unique (a + 1) 0 1) by lia. reflexivity.
  - rewrite (u32_small (a + 1)) by lia. rewrite (proj2 (Z.eqb_neq (a + 1) 0)) by lia.
    replace (a + 2 ^ 32 * b + 1) with ((a + 1) + b * 2 ^ 32) by lia.
    rewrite Z_div_plus_full, (Z.div_small (a + 1)), Z.add_0_l, (Z.mod_small b) by lia.
    rewrite (list_insert_id _ 13); [done|]. rewrite list_lookup_insert_ne by lia.
    apply list_lookup_lookup_total_lt. lia.
Qed.

Lemma with_counter_ok x n : ctx_ok x -> ctx_ok (with_counter x n).
Proof.
  intros Hx. unfold with_counter.
  apply ctx_ok_insert; [apply ctx_ok_insert|]; [done| |]; apply Z.mod_pos_bound; lia.
Qed.

Lemma with_counter_twice x n k : with_counter (with_counter x n) k = with_counter x k.
Proof.
  unfold with_counter.
  by rewrite (list_insert_insert_ne _ 12 13), list_insert_insert_eq, list_insert_insert_eq by done.
Qed.

Lemma counter_with x n : ctx_ok x -> counter_of (with_counter x n) = n mod 2 ^ 64.
Proof.
  intros [Hl _]. unfold counter_of, with_counter.
  rewrite list_lookup_total_insert_ne, !list_lookup_total_insert_eq by (rewrite ?length_insert; lia).
  change (2 ^ 64) with (2 ^ 32 * 2 ^ 32). rewrite Z.rem_mul_r by lia. done.
Qed.

Lemma with_counter_self x : ctx_ok x -> with_counter x (counter_of x) = x.
Proof.
  intros Hx. pose proof (word_range x 12 Hx). pose proof (word_range x 13 Hx).
  assert (Hlen : length x = 16%nat) by apply Hx. unfold with_counter, counter_of.
  rewrite (Z.mul_comm (2 ^ 32)), Z_mod_plus_full, Z_div_plus_full, Z.div_small, Z.add_0_l, !Z.mod_small by lia.
  rewrite !list_insert_id; try done; try rewrite list_lookup_insert_ne by lia;
    apply list_lookup_lookup_total_lt; lia.
Qed.

(** Only the counter modulo [2 ^ 64] matters. *)
Lemma with_counter_mod x n : with_counter x (n mod 2 ^ 64) = with_counter x n.
Proof.
  unfold with_counter. change (2 ^ 64) with (2 ^ 32 * 2 ^ 32).
  f_equal; [|f_equal].
  - rewrite Z.rem_mul_r by lia. rewrite (Z.mul_comm (2 ^ 32)), Z_div_plus_full by lia.
    rewrite (Z.div_small (n mod _)) by (apply Z.mod_pos_bound; lia). by rewrite Z.add_0_l, Z.mod_mod.
  - rewrite Z.rem_mul_r by lia. rewrite (Z.mul_comm (2 ^ 32) (_ mod _)), Z_mod_plus_full.
    by rewrite Z.mod_mod by lia.
Qed.

Lemma length_QUARTERROUND a b c d x : length (QUARTERROUND a b c d x) = length x.
Proof. unfold QUARTERROUND. cbv zeta. by repeat rewrite length_insert at 1. Qed.

Lemma length_double_round x : length (double_round x) = length x.
Proof. unfold double_round. by rewrite !length_QUARTERROUND. Qed.

Lemma length_chacha_words x : ctx_ok x -> length (chacha_words x) = 16%nat.
Proof.
  intros [Hl _]. unfold chacha_words. rewrite length_zip_with.
  assert (Hn : forall n, length (Nat.iter n double_round x) = 16%nat); [|by rewrite Hn, Hl].
  intros n. induction n as [|n IH]; [exact Hl|]. rewrite <- IH. exact (length_double_round (Nat.iter n double_round x)).
Qed.

Lemma length_join_words (ws : list Z) : length (mjoin (le_bytes 4 <$> ws)) = (4 * length ws)%nat.
Proof.
  induction ws as [|w ws IH]; [done|]. rewrite fmap_cons, join_cons, length_app, IH, length_le_bytes.
  simpl length. lia.
Qed.

Lemma length_chacha_block x n : ctx_ok x -> length (chacha_block x n) = 64%nat.
Proof.
  intros Hx. unfold chacha_block. by rewrite length_join_words, length_chacha_words by by apply with_counter_ok.
Qed.

Lemma join_words_ok ws : bytes_ok (mjoin (le_bytes 4 <$> ws)).
Proof.
  induction ws as [|w ws IH]; [constructor|]. rewrite fmap_cons, join_cons.
  apply Forall_app. split; [apply le_bytes_ok|done].
Qed.

Lemma encrypt_block_eq x m :
  ctx_ok x -> bytes_ok m -> length m = 64%nat ->
  encrypt_block x m = xor_bytes m (chacha_block x (counter_of x)).
Proof.
  intros Hx Hm Hl. unfold encrypt_block, chacha_block. rewrite with_counter_self by done.
  apply encrypt_words; [done|]. by rewrite length_chacha_words.
Qed.

(** ** The key stream *)

Lemma length_keystream x n : length (keystream x n) = n.
Proof. unfold keystream. by rewrite length_fmap, length_seq. Qed.

Lemma keystream_ok x n : ctx_ok x -> bytes_ok (keystream x n).
Proof.
  intros Hx. unfold keystream. apply Forall_fmap, Forall_forall. intros i _. cbn [compose].
  assert (Hb : bytes_ok (chacha_block x (counter_of x + Z.of_nat (i / 64)))) by apply join_words_ok.
  apply (proj1 (Forall_lookup _ _) Hb (i mod 64)%nat). apply list_lookup_lookup_total_lt.
  rewrite length_chacha_block by done. by apply Nat.mod_upper_bound.
Qed.

Lemma keystream_take x n k : (n <= k)%nat -> take n (keystream x k) = keystream x n.
Proof. intros H. unfold keystream. rewrite <- fmap_take, take_seq. do 2 f_equal. lia. Qed.

Lemma keystream_block x : ctx_ok x -> keystream x 64 = chacha_block x (counter_of x).
Proof.
  intros Hx. apply list_eq_lookup; [by rewrite length_keystream, length_chacha_block|].
  rewrite length_keystream. intros i Hi. unfold keystream. rewrite list_lookup_fmap, lookup_seq_lt by done.
  cbn [fmap option_fmap option_map plus]. rewrite Nat.div_small, Nat.mod_small, Z.add_0_r by done.
  symmetry. apply list_lookup_lookup_total_lt. by rewrite length_chacha_block.
Qed.

Lemma chacha_block_next x n : ctx_ok x -> chacha_block (next_counter x) n = chacha_block x n.
Proof. intros Hx. unfold chacha_block. by rewrite next_counter_eq, with_counter_twice. Qed.

Lemma keystream_next x n :
  ctx_ok x -> keystream x (64 + n) = keystream x 64 ++ keystream (next_counter x) n.
Proof.
  intros Hx. unfold keystream at 1. rewrite seq_app, fmap_app. f_equal.
  unfold keystream.
  replace (seq (0 + 64) n) with (Nat.add 64 <$> seq 0 n) by (by rewrite fmap_add_seq).
  rewrite <- list_fmap_compose. apply list_fmap_ext. intros _ i _. cbn [compose].
  rewrite chacha_block_next by done.
  replace (64 + i)%nat with (i + 1 * 64)%nat by lia.
  rewrite Nat.div_add, Nat.Div0.mod_add by lia. f_equal.
  unfold chacha_block. rewrite next_counter_eq, counter_with by done.
  rewrite <- (with_counter_mod x (_ mod _ + _)), Zplus_mod_idemp_l, with_counter_mod.
  by replace (counter_of x + Z.of_nat (i / 64 + 1)) with (counter_of x + 1 + Z.of_nat (i / 64)) by lia.
Qed.

(** ** The loop *)

Lemma take_xor a b c ks :
  length a = c -> length (a ++ b) = length ks -> take c (xor_bytes (a ++ b) ks) = xor_bytes a (take c ks).
Proof.
  intros <- Hl. rewrite length_app in Hl. rewrite <- (take_drop (length a) ks) at 1.
  rewrite xor_bytes_app by (rewrite length_take; lia).
  apply take_app_exact. rewrite length_xor_bytes, length_take. lia.
Qed.

Section Loop.
Context (tmp : list Z) (Htmp : bytes_ok tmp) (Hlen : length tmp = 64%nat).

(** The last turn. *)
Lemma encrypt_last fuel j m bytes :
  ctx_ok j -> bytes_ok m -> 0 < bytes <= 64 -> bytes <= zlen m ->
  encrypt_loop (S fuel) tmp j m bytes =
  Done (xor_bytes (take (Z.to_nat bytes) m) (keystream j (Z.to_nat bytes)), next_counter j).
Proof.
  intros Hj Hm Hb Hz. unfold zlen in Hz. cbn [encrypt_loop].
  rewrite mem_read_ok by (unfold zlen; lia). rewrite Z.min_l, drop_0 by lia. cbn [obind].
  set (a := take (Z.to_nat bytes) m).
  assert (Ha : length a = Z.to_nat bytes) by (unfold a; rewrite length_take; lia).
  assert (Haok : bytes_ok a) by (by apply Forall_take).
  assert (E : exists b, bytes_ok b /\ length (a ++ b) = 64%nat /\
    (if bytes <? 64 then mem_write tmp 0 a else Done a) = Done (a ++ b)).
  { zcase.
    - exists (drop (length a) tmp). rewrite mem_write_ok by (unfold zlen; lia). splits; [by apply Forall_drop| |done].
      rewrite length_app, length_drop. lia.
    - exists []. rewrite app_nil_r. splits; [constructor|lia|done]. }
  destruct E as (b & Hbok & Hab & ->). cbn [obind]. rewrite (proj2 (Z.leb_le bytes 64)) by lia.
  rewrite encrypt_block_eq; [|done|by apply Forall_app|done].
  rewrite <- keystream_block, take_xor, keystream_take by (done || rewrite ?length_keystream; lia). done.
Qed.

Lemma encrypt_loop_ok fuel : forall j m bytes,
  ctx_ok j -> bytes_ok m -> 0 < bytes <= zlen m -> bytes <= 64 * Z.of_nat fuel ->
  encrypt_loop fuel tmp j m bytes =
  Done (xor_bytes (take (Z.to_nat bytes) m) (keystream j (Z.to_nat bytes)),
        with_counter j (counter_of j + (bytes + 63) / 64)).
Proof.
  induction fuel as [|fuel IH]; intros j m bytes Hj Hm Hb Hf; [lia|].
  destruct (decide (bytes <= 64)) as [H64|H64].
  { rewrite encrypt_last, next_counter_eq by (done || lia). do 4 f_equal.
    apply Z.div_unique with (bytes - 1); lia. }
  cbn [encrypt_loop]. unfold zlen in Hb. rewrite mem_read_ok by (unfold zlen; lia).
  rewrite Z.min_r, drop_0, (proj2 (Z.ltb_ge bytes 64)), (proj2 (Z.leb_gt bytes 64)) by lia. cbn [obind].
  assert (Hok : ctx_ok (next_counter j)) by (rewrite next_counter_eq by done; by apply with_counter_ok).
  rewrite IH; [|done|by apply Forall_drop|unfold zlen; rewrite length_drop; lia|lia].
  cbn [obind]. change (Z.to_nat 64) with 64%nat.
  rewrite encrypt_block_eq; [|done|by apply Forall_take|rewrite length_take; lia].
  rewrite <- keystream_block by done. do 2 f_equal.
  - rewrite <- xor_bytes_app by (rewrite length_take, length_keystream; lia).
    rewrite <- keystream_next by done. rewrite take_take_drop by lia. do 2 f_equal; lia.
  - rewrite next_counter_eq, counter_with, with_counter_twice by done.
    rewrite <- with_counter_mod, Zplus_mod_idemp_l, with_counter_mod. f_equal.
    replace (bytes + 63) with (bytes - 64 + 63 + 1 * 64) by lia. rewrite Z_div_plus_full by lia. lia.
Qed.

(** The C routine computes the cipher. *)
Lemma chacha_encrypt_bytes_ok x m bytes :
  ctx_ok x -> bytes_ok m -> 0 <= bytes <= zlen m ->
  chacha_encrypt_bytes tmp x m bytes =
  Done (xor_bytes (take (Z.to_nat bytes) m) (keystream x (Z.to_nat bytes)),
        with_counter x (counter_of x + (bytes + 63) / 64)).
Proof.
  intros Hx Hm Hb. unfold chacha_encrypt_bytes. zcase.
  { subst. simpl. by rewrite Z.add_0_r, with_counter_self. }
  rewrite encrypt_loop_ok; [|done|done|lia|].
  2: { rewrite Nat2Z.inj_succ, Z2Nat.id by (apply Z.div_pos; lia).
       pose proof (Z.div_mod bytes 64). pose proof (Z.mod_pos_bound bytes 64). lia. }
  cbn [obind]. assert (Hl : length x = 16%nat) by apply Hx. unfold with_counter.
  rewrite list_lookup_total_insert_eq, list_lookup_total_insert_ne, list_lookup_total_insert_eq
    by (rewrite ?length_insert; lia). done.
Qed.

End Loop.

(** C29. [chacha_encrypt_bytes] is the stream cipher by position: it returns, it
    stores exactly [bytes] bytes, byte [i] of them is byte [i] of the input under
    exclusive or with byte [i mod 64] of the key stream block numbered by the
    64-bit counter plus [i / 64], whatever the uninitialised [tmp] array held, and
    it leaves the context with the counter advanced past the blocks used. *)
Theorem chacha_encrypt_by_position tmp x m bytes :
  bytes_ok tmp -> length tmp = 64%nat -> ctx_ok x -> bytes_ok m -> 0 <= bytes <= zlen m ->
  exists c, chacha_encrypt_bytes tmp x m bytes =
              Done (c, with_counter x (counter_of x + (bytes + 63) / 64)) /\
    zlen c = bytes /\
    forall i : nat, Z.of_nat i < bytes ->
      c !! i = Some (Z.lxor (m !!! i) (chacha_block x (counter_of x + Z.of_nat (i / 64)) !!! (i mod 64)%nat)).
Proof.
  intros Ht Hl Hx Hm Hb. rewrite chacha_encrypt_bytes_ok by done. eexists. split; [done|].
  unfold zlen in *. split; [rewrite length_xor_bytes, length_take, length_keystream; lia|].
  intros i Hi. unfold xor_bytes, keystream. rewrite lookup_zip_with, lookup_take_lt by lia.
  rewrite (list_lookup_lookup_total_lt m) by lia. simpl.
  rewrite list_lookup_fmap, lookup_seq_lt by lia. done.
Qed.

(** The key, nonce and block of RFC 8439, section 2.3.2. *)
Definition rfc8439_ctx : chacha_ctx :=
  chacha_ivsetup_96 (chacha_keysetup (replicate 16 0) (seqZ 0 32) 256)
    [0; 0; 0; 9; 0; 0; 0; 74; 0; 0; 0; 0] (Some [1; 0; 0; 0]).

Lemma chacha_encrypt_by_position_witness :
  exists c, chacha_encrypt_bytes (replicate 64 0) rfc8439_ctx (replicate 8 0) 8 =
              Done (c, with_counter rfc8439_ctx (counter_of rfc8439_ctx + (8 + 63) / 64)) /\
    c = [16; 241; 231; 228; 209; 59; 89; 21].
Proof.
  destruct (chacha_encrypt_by_position (replicate 64 0) rfc8439_ctx (replicate 8 0) 8)
    as (c & Hc & _ & _).
  - by apply Forall_replicate.
  - done.
  - split; [done|]. by apply (bool_decide_unpack _); vm_compute.
  - by apply Forall_replicate.
  - done.
  - exists c. split; [exact Hc|]. revert Hc.
    assert (E : (fst <$> match chacha_encrypt_bytes (replicate 64 0) rfc8439_ctx (replicate 8 0) 8 with
                 | Done a => Some a | Stop _ => None end) =
                Some [16; 241; 231; 228; 209; 59; 89; 21]) by (vm_compute; reflexivity).
    intros Hc. rewrite Hc in E. by injection E.
Defined.
