(* ===== verification/Poly1305.v ===== *)
(** The Poly1305 authenticator (src/src/chacha-poly1305/poly1305.c).

    The accumulator is kept in five limbs of 26 bits in [uint32_t] variables, as
    in the source; [poly1305_auth] follows the labels of the C function, every
    product and sum at its width.  The reference is RFC 8439: the message as a
    polynomial in the clamped key, evaluated modulo [2 ^ 130 - 5]. *)
From S2P Require Import Prelude Bytes ChaCha.

Definition POLY1305_KEYLEN : Z := 32.
Definition POLY1305_TAGLEN : Z := 16.

Definition mul32x32_64 (a b : Z) : Z := u64 (a * b).

Definition U8TO32_LE (p : list Z) (i : nat) : Z :=
  Z.lor (Z.lor (Z.lor (p !!! i) (Z.shiftl (p !!! (i + 1)%nat) 8))
               (Z.shiftl (p !!! (i + 2)%nat) 16))
        (Z.shiftl (p !!! (i + 3)%nat) 24).

Definition U32TO8_LE (v : Z) : list Z :=
  [u8 v; u8 (Z.shiftr v 8); u8 (Z.shiftr v 16); u8 (Z.shiftr v 24)].

(** Five limbs: [h0 .. h4], [r0 .. r4]. *)
Record limbs := Limbs { l0 : Z; l1 : Z; l2 : Z; l3 : Z; l4 : Z }.

Definition M26 : Z := 0x3ffffff.

(** "clamp key" and "precompute multipliers". *)
Definition clamp_key (key : list Z) : limbs :=
  let t0 := U8TO32_LE key 0 in
  let t1 := U8TO32_LE key 4 in
  let t2 := U8TO32_LE key 8 in
  let t3 := U8TO32_LE key 12 in
  let r0 := Z.land t0 0x3ffffff in
  let t0 := Z.lor (Z.shiftr t0 26) (u32 (Z.shiftl t1 6)) in
  let r1 := Z.land t0 0x3ffff03 in
  let t1 := Z.lor (Z.shiftr t1 20) (u32 (Z.shiftl t2 12)) in
  let r2 := Z.land t1 0x3ffc0ff in
  let t2 := Z.lor (Z.shiftr t2 14) (u32 (Z.shiftl t3 18)) in
  let r3 := Z.land t2 0x3f03fff in
  let t3 := Z.shiftr t3 8 in
  let r4 := Z.land t3 0x00fffff in
  Limbs r0 r1 r2 r3 r4.

(** Adding a block; [hibit] is [1 << 24] for a full block and 0 for the padded one. *)
Definition add_block (h : limbs) (m : list Z) (hibit : Z) : limbs :=
  let t0 := U8TO32_LE m 0 in
  let t1 := U8TO32_LE m 4 in
  let t2 := U8TO32_LE m 8 in
  let t3 := U8TO32_LE m 12 in
  Limbs (u32 (l0 h + Z.land t0 M26))
        (u32 (l1 h + Z.land (Z.shiftr (Z.lor (Z.shiftl t1 32) t0) 26) M26))
        (u32 (l2 h + Z.land (Z.shiftr (Z.lor (Z.shiftl t2 32) t1) 20) M26))
        (u32 (l3 h + Z.land (Z.shiftr (Z.lor (Z.shiftl t3 32) t2) 14) M26))
        (u32 (l4 h + Z.lor (Z.shiftr t3 8) hibit)).

(** [poly1305_donna_mul]: the columns [t[0] .. t[4]] of the product. *)
Definition donna_columns (r h : limbs) : limbs :=
  let s1 := u32 (l1 r * 5) in
  let s2 := u32 (l2 r * 5) in
  let s3 := u32 (l3 r * 5) in
  let s4 := u32 (l4 r * 5) in
  let t0 := u64 (mul32x32_64 (l0 h) (l0 r) + mul32x32_64 (l1 h) s4 + mul32x32_64 (l2 h) s3 + mul32x32_64 (l3 h) s2 + mul32x32_64 (l4 h) s1) in
  let t1 := u64 (mul32x32_64 (l0 h) (l1 r) + mul32x32_64 (l1 h) (l0 r) + mul32x32_64 (l2 h) s4 + mul32x32_64 (l3 h) s3 + mul32x32_64 (l4 h) s2) in
  let t2 := u64 (mul32x32_64 (l0 h) (l2 r) + mul32x32_64 (l1 h) (l1 r) + mul32x32_64 (l2 h) (l0 r) + mul32x32_64 (l3 h) s4 + mul32x32_64 (l4 h) s3) in
  let t3 := u64 (mul32x32_64 (l0 h) (l3 r) + mul32x32_64 (l1 h) (l2 r) + mul32x32_64 (l2 h) (l1 r) + mul32x32_64 (l3 h) (l0 r) + mul32x32_64 (l4 h) s4) in
  let t4 := u64 (mul32x32_64 (l0 h) (l4 r) + mul32x32_64 (l1 h) (l3 r) + mul32x32_64 (l2 h) (l2 r) + mul32x32_64 (l3 h) (l1 r) + mul32x32_64 (l4 h) (l0 r)) in
  Limbs t0 t1 t2 t3 t4.

(** Then the carries, back into [h]. *)
Definition donna_reduce (t : limbs) : limbs :=
  let '(Limbs t0 t1 t2 t3 t4) := t in
  let h0 := Z.land (u32 t0) M26 in
  let c := Z.shiftr t0 26 in
  let t1 := u64 (t1 + c) in
  let h1 := Z.land (u32 t1) M26 in
  let b := u32 (Z.shiftr t1 26) in
  let t2 := u64 (t2 + b) in
  let h2 := Z.land (u32 t2) M26 in
  let b := u32 (Z.shiftr t2 26) in
  let t3 := u64 (t3 + b) in
  let h3 := Z.land (u32 t3) M26 in
  let b := u32 (Z.shiftr t3 26) in
  let t4 := u64 (t4 + b) in
  let h4 := Z.land (u32 t4) M26 in
  let b := u32 (Z.shiftr t4 26) in
  let h0 := u32 (h0 + u32 (b * 5)) in
  Limbs h0 h1 h2 h3 h4.

Definition donna_mul (r h : limbs) : limbs := donna_reduce (donna_columns r h).

(** The labels [poly1305_donna_16bytes], [_mul] and [_atmost15bytes]. *)
Fixpoint donna_blocks (fuel : nat) (r h : limbs) (m : list Z) (inlen : Z) : outcome limbs :=
  match fuel with
  | O => Stop OutOfFuel
  | S fuel =>
      if 16 <=? inlen then
        let* block := mem_read m 0 16 in
        donna_blocks fuel r (donna_mul r (add_block h block (Z.shiftl 1 24))) (drop 16 m) (inlen - 16)
      else if inlen =? 0 then Done h
      else
        let* block := mem_read m 0 inlen in
        let mp := block ++ [1] ++ replicate (Z.to_nat (15 - inlen)) 0 in
        donna_blocks fuel r (donna_mul r (add_block h mp 0)) m 0
  end.

(** The full carry of [poly1305_donna_finish]. *)
Definition donna_carry (h : limbs) : limbs :=
  let b := Z.shiftr (l0 h) 26 in
  let h0 := Z.land (l0 h) M26 in
  let h1 := u32 (l1 h + b) in
  let b := Z.shiftr h1 26 in
  let h1 := Z.land h1 M26 in
  let h2 := u32 (l2 h + b) in
  let b := Z.shiftr h2 26 in
  let h2 := Z.land h2 M26 in
  let h3 := u32 (l3 h + b) in
  let b := Z.shiftr h3 26 in
  let h3 := Z.land h3 M26 in
  let h4 := u32 (l4 h + b) in
  let b := Z.shiftr h4 26 in
  let h4 := Z.land h4 M26 in
  let h0 := u32 (h0 + u32 (b * 5)) in
  let b := Z.shiftr h0 26 in
  let h0 := Z.land h0 M26 in
  let h1 := u32 (h1 + b) in
  Limbs h0 h1 h2 h3 h4.

(** [h] or [h - p], selected without a branch. *)
Definition donna_select (h : limbs) : limbs :=
  let g0 := u32 (l0 h + 5) in
  let b := Z.shiftr g0 26 in
  let g0 := Z.land g0 M26 in
  let g1 := u32 (l1 h + b) in
  let b := Z.shiftr g1 26 in
  let g1 := Z.land g1 M26 in
  let g2 := u32 (l2 h + b) in
  let b := Z.shiftr g2 26 in
  let g2 := Z.land g2 M26 in
  let g3 := u32 (l3 h + b) in
  let b := Z.shiftr g3 26 in
  let g3 := Z.land g3 M26 in
  let g4 := u32 (u32 (l4 h + b) - Z.shiftl 1 26) in
  let b := u32 (Z.shiftr g4 31 - 1) in
  let nb := u32 (Z.lnot b) in
  Limbs (Z.lor (Z.land (l0 h) nb) (Z.land g0 b))
        (Z.lor (Z.land (l1 h) nb) (Z.land g1 b))
        (Z.lor (Z.land (l2 h) nb) (Z.land g2 b))
        (Z.lor (Z.land (l3 h) nb) (Z.land g3 b))
        (Z.lor (Z.land (l4 h) nb) (Z.land g4 b)).

(** Repacking to 32-bit words and adding the second half of the key. *)
Definition donna_tag (h : limbs) (key : list Z) : list Z :=
  let f0 := u64 (Z.lor (l0 h) (u32 (Z.shiftl (l1 h) 26)) + U8TO32_LE key 16) in
  let f1 := u64 (Z.lor (Z.shiftr (l1 h) 6) (u32 (Z.shiftl (l2 h) 20)) + U8TO32_LE key 20) in
  let f2 := u64 (Z.lor (Z.shiftr (l2 h) 12) (u32 (Z.shiftl (l3 h) 14)) + U8TO32_LE key 24) in
  let f3 := u64 (Z.lor (Z.shiftr (l3 h) 18) (u32 (Z.shiftl (l4 h) 8)) + U8TO32_LE key 28) in
  let out0 := U32TO8_LE f0 in
  let f1 := u64 (f1 + Z.shiftr f0 32) in
  let out4 := U32TO8_LE f1 in
  let f2 := u64 (f2 + Z.shiftr f1 32) in
  let out8 := U32TO8_LE f2 in
  let f3 := u64 (f3 + Z.shiftr f2 32) in
  let out12 := U32TO8_LE f3 in
  out0 ++ out4 ++ out8 ++ out12.

(** The tag stored through [out]. *)
Definition poly1305_auth (m : list Z) (inlen : Z) (key : list Z) : outcome (list Z) :=
  let r := clamp_key key in
  let* h := donna_blocks (S (S (Z.to_nat (inlen / 16)))) r (Limbs 0 0 0 0 0) m inlen in
  Done (donna_tag (donna_select (donna_carry h)) key).

(** ** The reference *)

Definition P1305 : Z := 2 ^ 130 - 5.
Definition poly_r (key : list Z) : Z := Z.land (le_val (take 16 key)) 0x0ffffffc0ffffffc0ffffffc0fffffff.
Definition poly_s (key : list Z) : Z := le_val (slice 16 16 key).

(** Sixteen bytes at a time, each block with a one appended. *)
Fixpoint poly_eval (n : nat) (r acc : Z) (m : list Z) : Z :=
  match n, m with
  | S n, _ :: _ => poly_eval n r ((acc + le_val (take 16 m ++ [1])) * r mod P1305) (drop 16 m)
  | _, _ => acc
  end.

Definition poly1305_mac (m key : list Z) : list Z :=
  le_bytes 16 (poly_eval (length m) (poly_r key) 0 m + poly_s key).

Definition lval (h : limbs) : Z := l0 h + 2 ^ 26 * l1 h + 2 ^ 52 * l2 h + 2 ^ 78 * l3 h + 2 ^ 104 * l4 h.

(** ** Reading words *)

Lemma U8TO32_LE_range p i : bytes_ok p -> (i + 4 <= length p)%nat -> 0 <= U8TO32_LE p i < 2 ^ 32.
Proof.
  intros Hp Hi. change (U8TO32_LE p i) with (U8TO32_LITTLE p i). rewrite U8TO32_le by done.
  apply (le_val_slice _ 4 _ Hp).
Qed.

Lemma slice_step {A} (p : list A) i n k : slice i (n + k) p = slice i n p ++ slice (i + n) k p.
Proof. unfold slice. by rewrite <- take_take_drop, drop_drop. Qed.

(** Sixteen bytes as four words. *)
Lemma le_val_words p i :
  bytes_ok p -> (i + 16 <= length p)%nat ->
  le_val (slice i 16 p) = U8TO32_LE p i + 2 ^ 32 * U8TO32_LE p (i + 4) + 2 ^ 64 * U8TO32_LE p (i + 8) +
                          2 ^ 96 * U8TO32_LE p (i + 12).
Proof.
  intros Hp Hi. change 16%nat with (4 + (4 + (4 + 4)))%nat. rewrite !slice_step, !le_val_app.
  assert (Hz : forall k, (k + 4 <= length p)%nat -> zlen (slice k 4 p) = 4)
    by (intros k Hk; unfold zlen; rewrite length_slice; lia).
  rewrite !Hz by lia. rewrite <- !Nat.add_assoc. cbn [Nat.add].
  rewrite <- !(U8TO32_le p) by (done || lia). unfold U8TO32_LE, U8TO32_LITTLE.
  change (256 ^ 4) with (2 ^ 32). ring.
Qed.

(** ** Limbs *)

Lemma land_M26 x : Z.land x M26 = x mod 2 ^ 26.
Proof. by apply land_mask. Qed.

Lemma join_words t u n : 0 <= n -> 0 <= t < 2 ^ 32 ->
  Z.land (Z.shiftr (Z.lor (Z.shiftl u 32) t) n) M26 = (t + u * 2 ^ 32) / 2 ^ n mod 2 ^ 26.
Proof.
  intros Hn Ht. rewrite land_M26, shiftr_div by done.
  by rewrite Z.lor_comm, Z.shiftl_mul_pow2, lor_add by lia.
Qed.

Record limbs_le (B0 B : Z) (h : limbs) : Prop := {
  ll0 : 0 <= l0 h < B0 * 2 ^ 26;
  ll1 : 0 <= l1 h < B * 2 ^ 26;
  ll2 : 0 <= l2 h < B * 2 ^ 26;
  ll3 : 0 <= l3 h < B * 2 ^ 26;
  ll4 : 0 <= l4 h < B * 2 ^ 26;
}.

(** The bounds between blocks: the carry of the last limb is added to the first. *)
Definition acc_ok : limbs -> Prop := limbs_le 42 1.

Lemma add_block_ok h m hibit :
  acc_ok h -> bytes_ok m -> length m = 16%nat -> (hibit = 0 \/ hibit = 2 ^ 24) ->
  lval (add_block h m hibit) = lval h + le_val m + 2 ^ 104 * hibit /\ limbs_le 43 2 (add_block h m hibit) /\
  l4 (add_block h m hibit) < 3 * 2 ^ 25.
Proof.
  intros [] Hm Hl Hh. pose proof (le_val_words m 0 Hm ltac:(lia)) as Hv.
  assert (Hs : slice 0 16 m = m) by (unfold slice; rewrite drop_0, take_ge; [done|lia]).
  rewrite Hs in Hv. rewrite Hv. cbn [Nat.add]. clear Hv Hs.
  assert (Ht : forall i, (i + 4 <= 16)%nat -> 0 <= U8TO32_LE m i < 2 ^ 32)
    by (intros; apply U8TO32_LE_range; [done|lia]).
  pose proof (Ht 0%nat ltac:(lia)) as H0. pose proof (Ht 4%nat ltac:(lia)) as H1.
  pose proof (Ht 8%nat ltac:(lia)) as H2. pose proof (Ht 12%nat ltac:(lia)) as H3. clear Ht.
  unfold add_block, lval. cbv zeta. cbn [l0 l1 l2 l3 l4].
  set (t0 := U8TO32_LE m 0) in *. set (t1 := U8TO32_LE m 4) in *.
  set (t2 := U8TO32_LE m 8) in *. set (t3 := U8TO32_LE m 12) in *. clearbody t0 t1 t2 t3.
  rewrite !join_words, land_M26, shiftr_div by lia.
  assert (Hor : Z.lor (t3 / 2 ^ 8) hibit = t3 / 2 ^ 8 + hibit).
  { destruct Hh as [-> | ->]; [by rewrite Z.lor_0_r, Z.add_0_r|].
    rewrite <- (Z.mul_1_l (2 ^ 24)). apply lor_add; [lia|]. Z.to_euclidean_division_equations; lia. }
  rewrite Hor. rewrite !u32_small by (Z.to_euclidean_division_equations; lia).
  split; [Z.to_euclidean_division_equations; lia|].
  split; [constructor; cbn [l0 l1 l2 l3 l4]; Z.to_euclidean_division_equations; lia|].
  Z.to_euclidean_division_equations; lia.
Qed.

(** ** The multiplier *)

Lemma land_split x y n : 0 <= n ->
  Z.land x y = Z.land (x mod 2 ^ n) (y mod 2 ^ n) + 2 ^ n * Z.land (x / 2 ^ n) (y / 2 ^ n).
Proof.
  intros Hn. rewrite (Z.div_mod (Z.land x y) (2 ^ n)) by lia. rewrite Z.add_comm. f_equal.
  - apply Z.bits_inj'. intros i Hi. rewrite Z.land_spec. destruct (decide (i < n)).
    + by rewrite !Z.mod_pow2_bits_low, Z.land_spec by lia.
    + by rewrite !Z.mod_pow2_bits_high by lia.
  - f_equal. rewrite <- !shiftr_div by done. apply Z.shiftr_land.
Qed.

(** A mask of fewer than [n] bits sees only the low [n] bits. *)
Lemma land_low x y n : 0 <= n -> 0 <= y < 2 ^ n -> Z.land x y = Z.land (x mod 2 ^ n) y.
Proof.
  intros Hn Hy. rewrite (land_split x y n) by done. rewrite (Z.mod_small y), (Z.div_small y) by done.
  rewrite Z.land_0_r. lia.
Qed.

Lemma join_shift t u j k : 0 < j -> 0 < k -> j + k = 32 -> 0 <= t < 2 ^ 32 ->
  Z.lor (Z.shiftr t j) (u32 (Z.shiftl u k)) = t / 2 ^ j + u mod 2 ^ j * 2 ^ k.
Proof.
  intros Hj Hk Hjk Ht. rewrite shiftr_div, Z.shiftl_mul_pow2 by lia. unfold u32.
  assert (E : 2 ^ 32 = 2 ^ j * 2 ^ k) by (rewrite <- Z.pow_add_r by lia; by rewrite Hjk).
  rewrite E in *. rewrite Z.mul_mod_distr_r by lia. rewrite lor_add; [done|lia|].
  split; [apply Z.div_pos; lia|]. apply Z.div_lt_upper_bound; lia.
Qed.

Lemma land_range x y : 0 <= y -> 0 <= Z.land x y <= y.
Proof.
  intros Hy. assert (H0 : 0 <= Z.land x y) by (apply Z.land_nonneg; auto). split; [done|].
  pose proof (Z.sub_land_same_l y x) as E. rewrite (Z.land_comm y x) in E.
  assert (0 <= Z.land y (Z.lnot x)) by (apply Z.land_nonneg; auto). lia.
Qed.

(** The clamping mask, limb by limb. *)
Lemma land_limbs K :
  Z.land K 0x0ffffffc0ffffffc0ffffffc0fffffff =
  Z.land (K mod 2 ^ 26) 0x3ffffff + 2 ^ 26 * Z.land (K / 2 ^ 26 mod 2 ^ 26) 0x3ffff03 +
  2 ^ 52 * Z.land (K / 2 ^ 52 mod 2 ^ 26) 0x3ffc0ff + 2 ^ 78 * Z.land (K / 2 ^ 78 mod 2 ^ 26) 0x3f03fff +
  2 ^ 104 * Z.land (K / 2 ^ 104 mod 2 ^ 26) 0x00fffff.
Proof.
  assert (E : Z.land K 0x0ffffffc0ffffffc0ffffffc0fffffff =
    Z.land (K mod 2 ^ 26) 0x3ffffff + 2 ^ 26 * (Z.land (K / 2 ^ 26 mod 2 ^ 26) 0x3ffff03 +
    2 ^ 26 * (Z.land (K / 2 ^ 26 / 2 ^ 26 mod 2 ^ 26) 0x3ffc0ff +
    2 ^ 26 * (Z.land (K / 2 ^ 26 / 2 ^ 26 / 2 ^ 26 mod 2 ^ 26) 0x3f03fff +
    2 ^ 26 * Z.land (K / 2 ^ 26 / 2 ^ 26 / 2 ^ 26 / 2 ^ 26) 0x00fffff)))).
  { rewrite (land_split K _ 26), (land_split (K / 2 ^ 26) _ 26), (land_split (K / 2 ^ 26 / 2 ^ 26) _ 26),
      (land_split (K / 2 ^ 26 / 2 ^ 26 / 2 ^ 26) _ 26) by lia. reflexivity. }
  rewrite (land_low (K / 2 ^ 26 / 2 ^ 26 / 2 ^ 26 / 2 ^ 26) _ 26) in E by lia.
  rewrite !Z.div_div in E by lia. rewrite E.
  change (2 ^ 26 * 2 ^ 26) with (2 ^ 52). change (2 ^ 52 * 2 ^ 26) with (2 ^ 78).
  change (2 ^ 78 * 2 ^ 26) with (2 ^ 104). ring.
Qed.

Lemma limb_mod x y m k : y = x + k * m -> x mod m = y mod m.
Proof. intros ->. by rewrite Z_mod_plus_full. Qed.

Lemma clamp_key_ok key :
  bytes_ok key -> (16 <= length key)%nat ->
  lval (clamp_key key) = poly_r key /\ limbs_le 1 1 (clamp_key key) /\ l4 (clamp_key key) < 2 ^ 20.
Proof.
  intros Hk Hl. unfold poly_r. rewrite <- (drop_0 key) at 2. fold (slice 0 16 key).
  rewrite le_val_words by (done || lia). cbn [Nat.add].
  assert (Ht : forall i, (i + 4 <= 16)%nat -> 0 <= U8TO32_LE key i < 2 ^ 32)
    by (intros; apply U8TO32_LE_range; [done|lia]).
  pose proof (Ht 0%nat ltac:(lia)) as H0. pose proof (Ht 4%nat ltac:(lia)) as H1.
  pose proof (Ht 8%nat ltac:(lia)) as H2. pose proof (Ht 12%nat ltac:(lia)) as H3. clear Ht.
  unfold clamp_key, lval. cbv zeta. cbn [l0 l1 l2 l3 l4].
  set (t0 := U8TO32_LE key 0) in *. set (t1 := U8TO32_LE key 4) in *.
  set (t2 := U8TO32_LE key 8) in *. set (t3 := U8TO32_LE key 12) in *. clearbody t0 t1 t2 t3.
  set (K := t0 + 2 ^ 32 * t1 + 2 ^ 64 * t2 + 2 ^ 96 * t3).
  rewrite (join_shift t0 t1 26 6), (join_shift t1 t2 20 12), (join_shift t2 t3 14 18), shiftr_div by lia.
  split; [|split; [constructor|]; cbn [l0 l1 l2 l3 l4];
           match goal with |- context [Z.land ?x ?y] => pose proof (land_range x y ltac:(lia)); lia end].
  rewrite (land_low t0 _ 26), (land_low (t0 / _ + _) _ 26), (land_low (t1 / _ + _) _ 26),
    (land_low (t2 / _ + _) _ 26), (land_low (t3 / _) _ 26), land_limbs by lia.
  assert (E0 : t0 mod 2 ^ 26 = K mod 2 ^ 26) by (unfold K; Z.to_euclidean_division_equations; lia).
  assert (E1 : (t0 / 2 ^ 26 + t1 mod 2 ^ 26 * 2 ^ 6) mod 2 ^ 26 = K / 2 ^ 26 mod 2 ^ 26).
  { replace (K / 2 ^ 26) with (t0 / 2 ^ 26 + (t1 + 2 ^ 32 * t2 + 2 ^ 64 * t3) * 2 ^ 6)
      by (apply Z.div_unique with (t0 mod 2 ^ 26); unfold K; Z.to_euclidean_division_equations; lia).
    apply (limb_mod _ _ _ (t1 / 2 ^ 26 * 2 ^ 6 + 2 ^ 12 * t2 + 2 ^ 44 * t3)). Z.to_euclidean_division_equations; lia. }
  assert (E2 : (t1 / 2 ^ 20 + t2 mod 2 ^ 20 * 2 ^ 12) mod 2 ^ 26 = K / 2 ^ 52 mod 2 ^ 26).
  { replace (K / 2 ^ 52) with (t1 / 2 ^ 20 + (t2 + 2 ^ 32 * t3) * 2 ^ 12)
      by (apply Z.div_unique with (t0 + 2 ^ 32 * (t1 mod 2 ^ 20)); unfold K; Z.to_euclidean_division_equations; lia).
    apply (limb_mod _ _ _ (t2 / 2 ^ 20 * 2 ^ 6 + 2 ^ 18 * t3)). Z.to_euclidean_division_equations; lia. }
  assert (E3 : (t2 / 2 ^ 14 + t3 mod 2 ^ 14 * 2 ^ 18) mod 2 ^ 26 = K / 2 ^ 78 mod 2 ^ 26).
  { replace (K / 2 ^ 78) with (t2 / 2 ^ 14 + t3 * 2 ^ 18)
      by (apply Z.div_unique with (t0 + 2 ^ 32 * t1 + 2 ^ 64 * (t2 mod 2 ^ 14)); unfold K; Z.to_euclidean_division_equations; lia).
    apply (limb_mod _ _ _ (t3 / 2 ^ 14 * 2 ^ 6)). Z.to_euclidean_division_equations; lia. }
  assert (E4 : t3 / 2 ^ 8 = K / 2 ^ 104).
  { apply Z.div_unique with (t0 + 2 ^ 32 * t1 + 2 ^ 64 * t2 + 2 ^ 96 * (t3 mod 2 ^ 8)); unfold K; Z.to_euclidean_division_equations; lia. }
  by rewrite E0, E1, E2, E3, E4.
Qed.

(** ** The product *)

(** The carries of [poly1305_donna_mul] on the column sums. *)
Lemma carry_columns T0 T1 T2 T3 T4 :
  0 <= T0 < 2 ^ 63 -> 0 <= T1 < 63 * 2 ^ 52 -> 0 <= T2 < 63 * 2 ^ 52 -> 0 <= T3 < 63 * 2 ^ 52 ->
  0 <= T4 < 523 * 2 ^ 46 + 2 ^ 46 ->
  let c0 := T0 / 2 ^ 26 in
  let c1 := (T1 + c0) / 2 ^ 26 in
  let c2 := (T2 + c1) / 2 ^ 26 in
  let c3 := (T3 + c2) / 2 ^ 26 in
  let c4 := (T4 + c3) / 2 ^ 26 in
  (c0 < 2 ^ 37 /\ c1 < 2 ^ 32 /\ c2 < 2 ^ 32 /\ c3 < 2 ^ 32 /\ 0 <= c0 /\ 0 <= c1 /\ 0 <= c2 /\ 0 <= c3 /\
   0 <= c4 /\ T0 mod 2 ^ 26 + c4 * 5 < 42 * 2 ^ 26) /\
  lval (Limbs (T0 mod 2 ^ 26 + c4 * 5) ((T1 + c0) mod 2 ^ 26) ((T2 + c1) mod 2 ^ 26) ((T3 + c2) mod 2 ^ 26) ((T4 + c3) mod 2 ^ 26)) =
  T0 + 2 ^ 26 * T1 + 2 ^ 52 * T2 + 2 ^ 78 * T3 + 2 ^ 104 * T4 - c4 * P1305.
Proof.
  intros H0 H1 H2 H3 H4. cbv zeta.
  pose proof (Z.div_mod T0 (2 ^ 26) ltac:(lia)) as D0. pose proof (Z.mod_pos_bound T0 (2 ^ 26) ltac:(lia)) as M0.
  set (c0 := T0 / 2 ^ 26) in *. clearbody c0.
  pose proof (Z.div_mod (T1 + c0) (2 ^ 26) ltac:(lia)) as D1. pose proof (Z.mod_pos_bound (T1 + c0) (2 ^ 26) ltac:(lia)) as M1.
  set (c1 := (T1 + c0) / 2 ^ 26) in *. clearbody c1.
  pose proof (Z.div_mod (T2 + c1) (2 ^ 26) ltac:(lia)) as D2. pose proof (Z.mod_pos_bound (T2 + c1) (2 ^ 26) ltac:(lia)) as M2.
  set (c2 := (T2 + c1) / 2 ^ 26) in *. clearbody c2.
  pose proof (Z.div_mod (T3 + c2) (2 ^ 26) ltac:(lia)) as D3. pose proof (Z.mod_pos_bound (T3 + c2) (2 ^ 26) ltac:(lia)) as M3.
  set (c3 := (T3 + c2) / 2 ^ 26) in *. clearbody c3.
  pose proof (Z.div_mod (T4 + c3) (2 ^ 26) ltac:(lia)) as D4. pose proof (Z.mod_pos_bound (T4 + c3) (2 ^ 26) ltac:(lia)) as M4.
  set (c4 := (T4 + c3) / 2 ^ 26) in *. clearbody c4.
  split; [lia|]. unfold lval, P1305. cbn [l0 l1 l2 l3 l4]. lia.
Qed.

(** The two halves of a column: reduction of a product modulo [2 ^ 130 - 5]. *)
Lemma columns_eq h r :
  exists k, lval h * lval r =
    (l0 h * l0 r + l1 h * l4 r * 5 + l2 h * l3 r * 5 + l3 h * l2 r * 5 + l4 h * l1 r * 5) +
    2 ^ 26 * (l0 h * l1 r + l1 h * l0 r + l2 h * l4 r * 5 + l3 h * l3 r * 5 + l4 h * l2 r * 5) +
    2 ^ 52 * (l0 h * l2 r + l1 h * l1 r + l2 h * l0 r + l3 h * l4 r * 5 + l4 h * l3 r * 5) +
    2 ^ 78 * (l0 h * l3 r + l1 h * l2 r + l2 h * l1 r + l3 h * l0 r + l4 h * l4 r * 5) +
    2 ^ 104 * (l0 h * l4 r + l1 h * l3 r + l2 h * l2 r + l3 h * l1 r + l4 h * l0 r) + k * P1305.
Proof.
  exists (l1 h * l4 r + l2 h * l3 r + l3 h * l2 r + l4 h * l1 r +
          2 ^ 26 * (l2 h * l4 r + l3 h * l3 r + l4 h * l2 r) +
          2 ^ 52 * (l3 h * l4 r + l4 h * l3 r) + 2 ^ 78 * (l4 h * l4 r)).
  unfold lval, P1305. ring.
Qed.

Lemma mul_range a b A B : 0 <= a < A -> 0 <= b < B -> 0 <= a * b <= A * B.
Proof. intros. split; [lia|]. apply Z.mul_le_mono_nonneg; lia. Qed.

Lemma mul32_small a b : 0 <= a * b < 2 ^ 64 -> mul32x32_64 a b = a * b.
Proof. apply u64_small. Qed.

Lemma land_low_word x : Z.land (u32 x) M26 = x mod 2 ^ 26.
Proof.
  rewrite land_M26. unfold u32. change (2 ^ 32) with (2 ^ 26 * 2 ^ 6).
  rewrite Z.rem_mul_r by lia. by rewrite (Z.mul_comm (2 ^ 26)), Z_mod_plus_full, Z.mod_mod by lia.
Qed.

(** The columns fit their 64 bits. *)
Lemma donna_columns_ok h r :
  limbs_le 43 2 h -> l4 h < 3 * 2 ^ 25 -> limbs_le 1 1 r -> l4 r < 2 ^ 20 ->
  exists T0 T1 T2 T3 T4 k, donna_columns r h = Limbs T0 T1 T2 T3 T4 /\
    0 <= T0 < 2 ^ 63 /\ 0 <= T1 < 63 * 2 ^ 52 /\ 0 <= T2 < 63 * 2 ^ 52 /\ 0 <= T3 < 63 * 2 ^ 52 /\
    0 <= T4 < 523 * 2 ^ 46 + 2 ^ 46 /\
    lval h * lval r = T0 + 2 ^ 26 * T1 + 2 ^ 52 * T2 + 2 ^ 78 * T3 + 2 ^ 104 * T4 + k * P1305.
Proof.
  intros [A0 A1 A2 A3 A4] H4 [B0 B1 B2 B3 B4] R4. destruct (columns_eq h r) as [k0 E].
  unfold donna_columns. cbv zeta. rewrite !(u32_small (_ * 5)) by lia.
  assert (A4' : 0 <= l4 h < 3 * 2 ^ 25) by lia. assert (B4' : 0 <= l4 r < 2 ^ 20) by lia. clear A4 B4 H4 R4.
  remember (lval h * lval r) as v eqn:Ev. clear Ev.
  destruct h as [h0 h1 h2 h3 h4], r as [r0 r1 r2 r3 r4]. cbn [l0 l1 l2 l3 l4] in *.
  assert (C : forall a b A B, 0 <= a < A -> 0 <= b < B -> A * (B * 5) < 2 ^ 64 ->
    mul32x32_64 a (b * 5) = a * b * 5 /\ mul32x32_64 a b = a * b /\ 0 <= a * b <= A * B).
  { intros a b A B Ha Hb Hab. pose proof (mul_range _ _ _ _ Ha Hb).
    rewrite !mul32_small by lia. splits; lia. }
  let p x y := let P := fresh "P" in let Q := fresh "Q" in
    destruct (C _ _ _ _ x y eq_refl) as (P & Q & ?); rewrite ?P, ?Q; clear P Q;
    match type of x with 0 <= ?a < _ => match type of y with 0 <= ?b < _ =>
      let m := fresh "m" in set (m := a * b) in *; clearbody m end end in
  let row x := p x B0; p x B1; p x B2; p x B3; p x B4' in row A0; row A1; row A2; row A3; row A4'.
  clear C A0 A1 A2 A3 A4' B0 B1 B2 B3 B4'.
  do 5 eexists. exists k0. revert E. rewrite !u64_small by lia. intros E.
  split; [reflexivity|]. splits; lia.
Qed.

Lemma donna_mul_ok h r :
  limbs_le 43 2 h -> l4 h < 3 * 2 ^ 25 -> limbs_le 1 1 r -> l4 r < 2 ^ 20 ->
  acc_ok (donna_mul r h) /\ exists k, lval (donna_mul r h) = lval h * lval r - k * P1305.
Proof.
  intros Hh H4 Hr R4.
  destruct (donna_columns_ok h r Hh H4 Hr R4) as (T0 & T1 & T2 & T3 & T4 & k0 & Ec & HT0 & HT1 & HT2 & HT3 & HT4 & E).
  unfold donna_mul. rewrite Ec, E. cbv beta iota zeta delta [donna_reduce].
  destruct (carry_columns T0 T1 T2 T3 T4 HT0 HT1 HT2 HT3 HT4) as [(C0 & C1 & C2 & C3 & P0 & P1 & P2 & P3 & P4 & C4) V].
  rewrite !land_low_word, !shiftr_div by lia.
  rewrite (u64_small (T1 + _)) by lia. rewrite (u32_small ((T1 + _) / _)) by lia.
  rewrite (u64_small (T2 + _)) by lia. rewrite (u32_small ((T2 + _) / _)) by lia.
  rewrite (u64_small (T3 + _)) by lia. rewrite (u32_small ((T3 + _) / _)) by lia.
  rewrite (u64_small (T4 + _)) by lia.
  assert (0 <= T0 mod 2 ^ 26) by (apply Z.mod_pos_bound; lia).
  rewrite (u32_small ((T4 + _) / _)) by lia. rewrite (u32_small (_ * 5)) by lia. rewrite u32_small by lia.
  split; [|exists (k0 + (T4 + (T3 + (T2 + (T1 + T0 / 2 ^ 26) / 2 ^ 26) / 2 ^ 26) / 2 ^ 26) / 2 ^ 26); rewrite V; ring].
  constructor; cbn [l0 l1 l2 l3 l4]; [lia| | | |]; rewrite Z.mul_1_l; apply Z.mod_pos_bound; lia.
Qed.

(** ** The blocks *)

Lemma le_val_pad b n : le_val (b ++ [1] ++ replicate n 0) = le_val (b ++ [1]).
Proof. rewrite app_assoc, le_val_app, le_val_zeros. lia. Qed.

Lemma le_val_one b : le_val (b ++ [1]) = le_val b + 256 ^ zlen b.
Proof. rewrite le_val_app. simpl. lia. Qed.

Lemma poly_eval_step n r acc m :
  m <> [] -> poly_eval (S n) r acc m = poly_eval n r ((acc + le_val (take 16 m ++ [1])) * r mod P1305) (drop 16 m).
Proof. by destruct m. Qed.

(** Equal modulo the prime, step by step. *)
Lemma eval_congr h acc r b v k :
  h mod P1305 = acc mod P1305 -> v = (h + b) * r - k * P1305 -> v mod P1305 = ((acc + b) * r mod P1305) mod P1305.
Proof.
  intros E ->. assert (P1305 <> 0) by done. rewrite Z.mod_mod by done.
  replace ((h + b) * r - k * P1305) with ((h + b) * r + (- k) * P1305) by ring. rewrite Z_mod_plus_full.
  rewrite Z.mul_mod, (Z.add_mod h), E, <- Z.add_mod, <- Z.mul_mod by done. done.
Qed.

Lemma donna_step h m hibit r acc :
  acc_ok h -> bytes_ok m -> length m = 16%nat -> (hibit = 0 \/ hibit = 2 ^ 24) ->
  limbs_le 1 1 r -> l4 r < 2 ^ 20 -> lval h mod P1305 = acc mod P1305 ->
  acc_ok (donna_mul r (add_block h m hibit)) /\
  lval (donna_mul r (add_block h m hibit)) mod P1305 =
    ((acc + (le_val m + 2 ^ 104 * hibit)) * lval r mod P1305) mod P1305.
Proof.
  intros Hh Hm Hl Hb Hr R4 E.
  destruct (add_block_ok h m hibit Hh Hm Hl Hb) as (V & B & B4).
  destruct (donna_mul_ok _ r B B4 Hr R4) as (A & k & Hk). split; [done|].
  apply (eval_congr (lval h) _ _ _ _ k E). rewrite Hk, V. ring.
Qed.

Lemma div16_step n : n / 16 = (n - 16) / 16 + 1.
Proof. rewrite <- Z.div_add by lia. f_equal. lia. Qed.

Lemma donna_blocks_ok r fuel : forall n h m inlen acc,
  limbs_le 1 1 r -> l4 r < 2 ^ 20 -> acc_ok h -> bytes_ok m -> 0 <= inlen <= zlen m ->
  (inlen / 16 + 2 <= Z.of_nat fuel \/ inlen = 0 /\ (1 <= fuel)%nat) -> (Z.to_nat inlen <= n)%nat -> lval h mod P1305 = acc mod P1305 ->
  exists h', donna_blocks fuel r h m inlen = Done h' /\ acc_ok h' /\
    lval h' mod P1305 = poly_eval n (lval r) acc (take (Z.to_nat inlen) m) mod P1305.
Proof.
  induction fuel as [|fuel IH]; intros n h m inlen acc Hr R4 Hh Hm Hi Hf Hn E.
  { assert (0 <= inlen / 16) by (apply Z.div_pos; lia). lia. }
  cbn [donna_blocks]. unfold zlen in Hi. zcase.
  - rewrite mem_read_ok by (unfold zlen; lia). cbn [obind]. rewrite drop_0. change (Z.to_nat 16) with 16%nat.
    destruct (donna_step h (take 16 m) (Z.shiftl 1 24) r acc) as [Ha Hv];
      [done|by apply Forall_take|rewrite length_take; lia|by right|done|done|done|].
    destruct n as [|n]; [lia|].
    destruct (fun H1 H2 H3 => IH n _ (drop 16 m) (inlen - 16) _ Hr R4 Ha (Forall_drop _ _ _ Hm) H1 H2 H3 Hv)
      as (h' & Hh' & Ha' & Hv').
    + unfold zlen. rewrite length_drop. lia.
    + left. rewrite (div16_step inlen) in Hf. clear - Hf E0. lia.
    + lia.
    + exists h'. splits; [done|done|]. rewrite Hv'.
      rewrite poly_eval_step by (intros Hx; apply (f_equal length) in Hx; rewrite length_take in Hx; simpl in Hx; lia).
      rewrite take_take, Nat.min_l by lia. rewrite skipn_firstn_comm.
      rewrite le_val_one. replace (Z.to_nat (inlen - 16)) with (Z.to_nat inlen - 16)%nat by lia.
      unfold zlen. rewrite length_take, Nat.min_l by lia. done.
  - zcase; [exists h; subst; splits; [done|done|]; rewrite E; by destruct n|].
    rewrite mem_read_ok by (unfold zlen; lia). cbn [obind]. rewrite drop_0.
    set (b := take (Z.to_nat inlen) m). assert (Hb : length b = Z.to_nat inlen) by (unfold b; rewrite length_take; lia).
    set (mp := b ++ [1] ++ replicate (Z.to_nat (15 - inlen)) 0).
    assert (Hmp : bytes_ok mp).
    { apply Forall_app. split; [by apply Forall_take|]. constructor; [lia|]. by apply Forall_replicate. }
    destruct (donna_step h mp 0 r acc) as [Ha Hv];
      [done|done|unfold mp; rewrite !length_app, length_replicate; simpl; lia|by left|done|done|done|].
    destruct n as [|n]; [lia|].
    destruct (fun H1 H2 H3 => IH n _ m 0 _ Hr R4 Ha Hm H1 H2 H3 Hv) as (h' & Hh' & Ha' & Hv'); [unfold zlen; lia| |lia|].
    { right. split; [done|]. assert (0 <= inlen / 16) by (apply Z.div_pos; lia). lia. }
    exists h'. splits; [done|done|]. rewrite Hv'.
    rewrite (poly_eval_step _ _ _ b) by (intros Hx; rewrite Hx in Hb; simpl in Hb; lia).
    rewrite (take_ge b), (drop_ge b) by lia. unfold mp. rewrite le_val_pad, Z.mul_0_r, Z.add_0_r.
    by destruct n.
Qed.

(** ** The end *)

(** Name a quotient by [2 ^ 26] and its remainder. *)
Ltac carry x c m :=
  pose proof (Z.div_mod x (2 ^ 26) ltac:(lia));
  pose proof (Z.mod_pos_bound x (2 ^ 26) ltac:(lia));
  set (c := x / 2 ^ 26) in *; set (m := x mod 2 ^ 26) in *; clearbody c m.

Lemma donna_carry_ok h :
  acc_ok h -> limbs_le 1 1 (donna_carry h) /\ exists k, lval (donna_carry h) = lval h - k * P1305.
Proof.
  intros [H0 H1 H2 H3 H4]. unfold donna_carry, lval. cbv zeta.
  destruct h as [h0 h1 h2 h3 h4]. cbn [l0 l1 l2 l3 l4] in *. rewrite !land_M26, !shiftr_div by lia.
  carry h0 c0 m0. rewrite (u32_small (h1 + c0)) by lia. carry (h1 + c0) c1 m1.
  rewrite (u32_small (h2 + c1)) by lia. carry (h2 + c1) c2 m2.
  rewrite (u32_small (h3 + c2)) by lia. carry (h3 + c2) c3 m3.
  rewrite (u32_small (h4 + c3)) by lia. carry (h4 + c3) c4 m4.
  rewrite (u32_small (c4 * 5)), (u32_small (m0 + c4 * 5)) by lia. carry (m0 + c4 * 5) c5 m5.
  rewrite (u32_small (m1 + c5)) by lia.
  split; [constructor; cbn [l0 l1 l2 l3 l4]; lia|]. exists c4. unfold P1305. lia.
Qed.

Lemma land_all x : 0 <= x < 2 ^ 32 -> Z.land x (2 ^ 32 - 1) = x.
Proof. intros H. rewrite (land_mask x 32) by done. by apply Z.mod_small. Qed.

Lemma donna_select_ok h :
  limbs_le 1 1 h -> limbs_le 1 1 (donna_select h) /\ lval (donna_select h) = lval h mod P1305.
Proof.
  intros [H0 H1 H2 H3 H4]. unfold donna_select, lval. cbv zeta.
  destruct h as [h0 h1 h2 h3 h4]. cbn [l0 l1 l2 l3 l4] in *. rewrite !land_M26, !shiftr_div by lia.
  rewrite (u32_small (h0 + 5)) by lia. carry (h0 + 5) c0 m0.
  rewrite (u32_small (h1 + c0)) by lia. carry (h1 + c0) c1 m1.
  rewrite (u32_small (h2 + c1)) by lia. carry (h2 + c1) c2 m2.
  rewrite (u32_small (h3 + c2)) by lia. carry (h3 + c2) c3 m3.
  rewrite (u32_small (h4 + c3)) by lia. change (Z.shiftl 1 26) with (2 ^ 26).
  destruct (decide (h4 + c3 < 2 ^ 26)).
  - rewrite (u32_unique (h4 + c3 - 2 ^ 26) (h4 + c3 - 2 ^ 26 + 2 ^ 32) (-1)) by lia.
    rewrite <- (Z.div_unique (h4 + c3 - 2 ^ 26 + 2 ^ 32) (2 ^ 31) 1 (h4 + c3 - 2 ^ 26 + 2 ^ 31)) by lia.
    change (u32 (1 - 1)) with 0. change (u32 (Z.lnot 0)) with (2 ^ 32 - 1).
    rewrite !land_all, !Z.land_0_r, !Z.lor_0_r by lia.
    split; [constructor; cbn [l0 l1 l2 l3 l4]; lia|].
    symmetry. apply Z.mod_small. unfold P1305. lia.
  - replace (h4 + c3 - 2 ^ 26) with 0 by lia. change (u32 0) with 0. change (u32 (0 / 2 ^ 31 - 1)) with (2 ^ 32 - 1).
    change (u32 (Z.lnot (2 ^ 32 - 1))) with 0.
    rewrite !land_all, !Z.land_0_r, !Z.lor_0_l by lia.
    split; [constructor; cbn [l0 l1 l2 l3 l4]; lia|].
    apply Z.mod_unique_pos with 1; unfold P1305; lia.
Qed.

Lemma repack t u j k : 0 <= j -> 0 < k -> j + k = 26 -> 0 <= t < 2 ^ 26 ->
  Z.lor (Z.shiftr t j) (u32 (Z.shiftl u k)) = t / 2 ^ j + u mod 2 ^ (32 - k) * 2 ^ k.
Proof.
  intros Hj Hk Hjk Ht. rewrite shiftr_div, Z.shiftl_mul_pow2 by lia. unfold u32.
  replace (2 ^ 32) with (2 ^ (32 - k) * 2 ^ k) by (rewrite <- Z.pow_add_r by lia; f_equal; lia).
  rewrite Z.mul_mod_distr_r by lia. rewrite lor_add; [done|lia|].
  split; [apply Z.div_pos; lia|]. apply Z.div_lt_upper_bound; [lia|].
  rewrite <- Z.pow_add_r by lia. rewrite Hjk. lia.
Qed.

(** The words of the accumulator. *)
Lemma repack_words h0 h1 h2 h3 h4 :
  limbs_le 1 1 (Limbs h0 h1 h2 h3 h4) ->
  h0 + h1 mod 2 ^ 6 * 2 ^ 26 + 2 ^ 32 * (h1 / 2 ^ 6 + h2 mod 2 ^ 12 * 2 ^ 20) +
  2 ^ 64 * (h2 / 2 ^ 12 + h3 mod 2 ^ 18 * 2 ^ 14) + 2 ^ 96 * (h3 / 2 ^ 18 + h4 mod 2 ^ 24 * 2 ^ 8) =
  lval (Limbs h0 h1 h2 h3 h4) - h4 / 2 ^ 24 * 2 ^ 128.
Proof.
  intros _. unfold lval. cbn [l0 l1 l2 l3 l4].
  pose proof (Z.div_mod h1 (2 ^ 6)). pose proof (Z.div_mod h2 (2 ^ 12)). pose proof (Z.div_mod h3 (2 ^ 18)).
  pose proof (Z.div_mod h4 (2 ^ 24)). lia.
Qed.

Lemma U32TO8_LE_le v : U32TO8_LE v = le_bytes 4 v.
Proof.
  unfold U32TO8_LE, u8. change (2 ^ 8) with 256. cbn [le_bytes]. rewrite !shiftr_div, !Z.div_div by lia. done.
Qed.

(** Adding word by word is adding modulo [2 ^ 128]. *)
Lemma add_words f0 f1 f2 f3 v :
  0 <= f0 < 2 ^ 33 -> 0 <= f1 < 2 ^ 33 -> 0 <= f2 < 2 ^ 33 -> 0 <= f3 < 2 ^ 33 ->
  (f0 + 2 ^ 32 * f1 + 2 ^ 64 * f2 + 2 ^ 96 * f3) mod 2 ^ 128 = v mod 2 ^ 128 ->
  let f1 := u64 (f1 + Z.shiftr f0 32) in
  let f2 := u64 (f2 + Z.shiftr f1 32) in
  let f3 := u64 (f3 + Z.shiftr f2 32) in
  U32TO8_LE f0 ++ U32TO8_LE f1 ++ U32TO8_LE f2 ++ U32TO8_LE f3 = le_bytes 16 v.
Proof.
  intros H0 H1 H2 H3 E. cbv zeta. rewrite !U32TO8_LE_le, !shiftr_div by lia.
  assert (D : forall x, 0 <= x < 2 ^ 34 -> 0 <= x / 2 ^ 32 < 4)
    by (intros x Hx; split; [apply Z.div_pos; lia|apply Z.div_lt_upper_bound; lia]).
  pose proof (D f0 ltac:(lia)). rewrite (u64_small (f1 + _)) by lia.
  pose proof (D (f1 + f0 / 2 ^ 32) ltac:(lia)). rewrite (u64_small (f2 + _)) by lia.
  pose proof (D (f2 + (f1 + f0 / 2 ^ 32) / 2 ^ 32) ltac:(lia)). rewrite (u64_small (f3 + _)) by lia.
  apply le_val_inj.
  - repeat (apply Forall_app; split); apply le_bytes_ok.
  - apply le_bytes_ok.
  - by rewrite !length_app, !length_le_bytes.
  - rewrite !le_val_app. unfold zlen. rewrite !length_le_bytes, !le_bytes_mod.
    change (256 ^ Z.of_nat 4) with (2 ^ 32). change (256 ^ Z.of_nat 16) with (2 ^ 128). rewrite <- E.
    set (c0 := f0 / 2 ^ 32) in *. set (c1 := (f1 + c0) / 2 ^ 32) in *. set (c2 := (f2 + c1) / 2 ^ 32) in *.
    pose proof (Z.div_mod f0 (2 ^ 32) ltac:(lia)). pose proof (Z.div_mod (f1 + c0) (2 ^ 32) ltac:(lia)).
    pose proof (Z.div_mod (f2 + c1) (2 ^ 32) ltac:(lia)). pose proof (Z.div_mod (f3 + c2) (2 ^ 32) ltac:(lia)).
    pose proof (Z.mod_pos_bound f0 (2 ^ 32)). pose proof (Z.mod_pos_bound (f1 + c0) (2 ^ 32)).
    pose proof (Z.mod_pos_bound (f2 + c1) (2 ^ 32)). pose proof (Z.mod_pos_bound (f3 + c2) (2 ^ 32)).
    apply Z.mod_unique_pos with ((f3 + c2) / 2 ^ 32); lia.
Qed.

Lemma donna_tag_ok h key :
  limbs_le 1 1 h -> bytes_ok key -> length key = 32%nat ->
  donna_tag h key = le_bytes 16 (lval h + poly_s key).
Proof.
  intros Hh Hk Hl. pose proof Hh as [H0 H1 H2 H3 H4]. unfold poly_s. rewrite le_val_words by (done || lia).
  assert (Ht : forall i, (i + 4 <= 32)%nat -> 0 <= U8TO32_LE key i < 2 ^ 32)
    by (intros; apply U8TO32_LE_range; [done|lia]).
  pose proof (Ht 16%nat ltac:(lia)) as T0. pose proof (Ht 20%nat ltac:(lia)) as T1.
  pose proof (Ht 24%nat ltac:(lia)) as T2. pose proof (Ht 28%nat ltac:(lia)) as T3. clear Ht. cbn [Nat.add].
  unfold donna_tag. destruct h as [h0 h1 h2 h3 h4]. pose proof (repack_words h0 h1 h2 h3 h4 Hh) as W.
  cbn [l0 l1 l2 l3 l4] in *.
  pose proof (repack h0 h1 0 26 ltac:(lia) ltac:(lia) eq_refl ltac:(lia)) as E0.
  rewrite Z.shiftr_0_r, Z.div_1_r in E0. rewrite E0.
  rewrite (repack h1 h2 6 20), (repack h2 h3 12 14), (repack h3 h4 18 8) by lia.
  change (32 - 26) with 6. change (32 - 20) with 12. change (32 - 14) with 18. change (32 - 8) with 24.
  assert (B : forall t u j k, 0 <= t < 2 ^ 26 -> 0 <= j -> 0 <= k -> j + k = 26 -> 0 <= t / 2 ^ j + u mod 2 ^ (32 - k) * 2 ^ k < 2 ^ 32).
  { clear. intros t u j k Ht Hj Hk Hjk. assert (0 <= t / 2 ^ j < 2 ^ k).
    { split; [apply Z.div_pos; lia|]. apply Z.div_lt_upper_bound; [lia|]. rewrite <- Z.pow_add_r, Hjk by lia. lia. }
    pose proof (Z.mod_pos_bound u (2 ^ (32 - k)) ltac:(lia)).
    assert (2 ^ (32 - k) * 2 ^ k = 2 ^ 32) by (rewrite <- Z.pow_add_r by lia; f_equal; lia). nia. }
  pose proof (B h0 h1 0 26 ltac:(lia) ltac:(lia) ltac:(lia) eq_refl) as B0. rewrite Z.div_1_r in B0.
  pose proof (B h1 h2 6 20 ltac:(lia) ltac:(lia) ltac:(lia) eq_refl) as B1.
  pose proof (B h2 h3 12 14 ltac:(lia) ltac:(lia) ltac:(lia) eq_refl) as B2.
  pose proof (B h3 h4 18 8 ltac:(lia) ltac:(lia) ltac:(lia) eq_refl) as B3. clear B.
  change (32 - 26) with 6 in *. change (32 - 20) with 12 in *. change (32 - 14) with 18 in *. change (32 - 8) with 24 in *.
  rewrite (u64_small (h0 + _ + _)), (u64_small (h1 / _ + _ + _)), (u64_small (h2 / _ + _ + _)), (u64_small (h3 / _ + _ + _)) by lia.
  apply add_words; try lia.
  symmetry. apply (limb_mod _ _ _ (- (h4 / 2 ^ 24))). lia.
Qed.

Lemma poly_eval_range n : forall r acc m, 0 <= acc < P1305 -> 0 <= poly_eval n r acc m < P1305.
Proof.
  induction n as [|n IH]; intros r acc m H; [done|]. destruct m; [done|]. cbn [poly_eval].
  apply IH. by apply Z.mod_pos_bound.
Qed.

Lemma poly1305_auth_eq m inlen key :
  bytes_ok m -> bytes_ok key -> length key = 32%nat -> 0 <= inlen <= zlen m ->
  poly1305_auth m inlen key = Done (poly1305_mac (take (Z.to_nat inlen) m) key).
Proof.
  intros Hm Hk Hl Hi. unfold poly1305_auth, poly1305_mac. cbv zeta.
  destruct (clamp_key_ok key Hk ltac:(lia)) as (Er & Br & B4).
  destruct (donna_blocks_ok (clamp_key key) (S (S (Z.to_nat (inlen / 16)))) (Z.to_nat inlen)
    (Limbs 0 0 0 0 0) m inlen 0) as (h & -> & Hh & Ev); try (done || lia).
  cbn [obind]. f_equal.
  destruct (donna_carry_ok h Hh) as (Hc & k & Ek). destruct (donna_select_ok _ Hc) as (Hs & Es).
  rewrite donna_tag_ok by done. f_equal. f_equal. rewrite Es, <- Er.
  rewrite length_take, Nat.min_l by (unfold zlen in Hi; lia).
  rewrite <- (Z.mod_small (poly_eval _ _ _ _) P1305) by (by apply poly_eval_range).
  rewrite <- Ev, Ek. replace (lval h - k * P1305) with (lval h + (- k) * P1305) by ring.
  by rewrite Z_mod_plus_full.
Qed.

(** C23. [poly1305_auth], five 26-bit limbs with the products, carries and the
    branch-free final subtraction in 32 and 64-bit arithmetic, computes the
    Poly1305 authenticator of RFC 8439 exactly: no product or carry overflows its
    variable, every block of the message is read inside it, and the tag is the
    value of the polynomial modulo [2 ^ 130 - 5] plus the second half of the key,
    modulo [2 ^ 128], in little endian. *)
Theorem poly1305_auth_correct m inlen key :
  bytes_ok m -> bytes_ok key -> length key = 32%nat -> 0 <= inlen <= zlen m ->
  poly1305_auth m inlen key = Done (poly1305_mac (take (Z.to_nat inlen) m) key).
Proof. apply poly1305_auth_eq. Qed.

(** The key and message of RFC 8439, section 2.5.2. *)
Definition rfc8439_key : list Z :=
  [0x85; 0xd6; 0xbe; 0x78; 0x57; 0x55; 0x6d; 0x33; 0x7f; 0x44; 0x52; 0xfe; 0x42; 0xd5; 0x06; 0xa8;
   0x01; 0x03; 0x80; 0x8a; 0xfb; 0x0d; 0xb2; 0xfd; 0x4a; 0xbf; 0xf6; 0xaf; 0x41; 0x49; 0xf5; 0x1b].
Definition rfc8439_msg : list Z :=
  [67; 114; 121; 112; 116; 111; 103; 114; 97; 112; 104; 105; 99; 32; 70; 111; 114; 117; 109; 32;
   82; 101; 115; 101; 97; 114; 99; 104; 32; 71; 114; 111; 117; 112].

Lemma poly1305_auth_correct_witness :
  poly1305_auth rfc8439_msg 34 rfc8439_key =
  Done [0xa8; 0x06; 0x1d; 0xc1; 0x30; 0x51; 0x36; 0xc6; 0xc2; 0x2b; 0x8b; 0xaf; 0x0c; 0x01; 0x27; 0xa9].
Proof.
  rewrite (poly1305_auth_correct rfc8439_msg 34 rfc8439_key).
  - vm_compute. reflexivity.
  - apply (bool_decide_unpack _). by vm_compute.
  - apply (bool_decide_unpack _). by vm_compute.
  - done.
  - done.
Defined.
