(* ===== verification/ChaChaPoly.v ===== *)
(** Authenticated encryption (src/src/chacha-poly1305/chacha-poly1305.c).

    A context is the pair of ChaCha states; [encrypt], [verify] and [decrypt]
    take the object behind [outdata] and return it updated, with every copy
    checked.  [seal] and [open] are what they compute, as functions of the key
    words only. *)
From S2P Require Import Prelude Bytes Aead ChaCha Poly1305.

Definition CHACHA_POLY1305_KEYLEN : Z := 64.

(** [struct chacha_poly1305_ctx]. *)
Record chacha_poly1305_ctx := Ctx { main_ctx : list Z; header_ctx : list Z }.

Definition chacha_poly1305_init : chacha_poly1305_ctx := Ctx (replicate 16 0) (replicate 16 0).

Definition chacha_poly1305_set_key (ctx : chacha_poly1305_ctx) (key : list Z) : chacha_poly1305_ctx :=
  Ctx (chacha_keysetup (main_ctx ctx) key 256) (chacha_keysetup (header_ctx ctx) (drop 32 key) 256).

(** Most significant byte first. *)
Definition put_u64 (v : Z) : list Z :=
  [Z.land (u8 (Z.shiftr v 56)) 255; Z.land (u8 (Z.shiftr v 48)) 255;
   Z.land (u8 (Z.shiftr v 40)) 255; Z.land (u8 (Z.shiftr v 32)) 255;
   Z.land (u8 (Z.shiftr v 24)) 255; Z.land (u8 (Z.shiftr v 16)) 255;
   Z.land (u8 (Z.shiftr v 8)) 255; Z.land (u8 v) 255].

(** NB little-endian *)
Definition one : list Z := [1; 0; 0; 0; 0; 0; 0; 0].
Definition one_96 : list Z := [1; 0; 0; 0].

Definition set_main (x : list Z) (ctx : chacha_poly1305_ctx) : chacha_poly1305_ctx := Ctx x (header_ctx ctx).

(** "Run ChaCha20 once to generate the Poly1305 key": on a zeroed [poly_key]. *)
Definition poly_key_setup (tmp : list Z) (x : list Z) : outcome (list Z * list Z) :=
  chacha_encrypt_bytes tmp x (replicate 32 0) POLY1305_KEYLEN.

(** The two versions differ in how the IV and the block counter are set up:
    [iv x counter] is the call of [chacha_ivsetup] or [chacha_ivsetup_96], and
    [first] the counter value one.  [tmp1] and [tmp2] are what the uninitialised
    stack array of the two calls of [chacha_encrypt_bytes] holds.  The result is
    the context, [outdata] and [*outlen]. *)
Definition encrypt_with (iv : list Z -> option (list Z) -> list Z) (first tmp1 tmp2 : list Z)
    (ctx : chacha_poly1305_ctx) (indata : list Z) (inlen : Z) (outdata : list Z)
    : outcome (chacha_poly1305_ctx * list Z * Z) :=
  let x := iv (main_ctx ctx) None in
  let* (poly_key, x) := poly_key_setup tmp1 x in
  let x := iv x (Some first) in
  let* (c, x) := chacha_encrypt_bytes tmp2 x indata (u32 inlen) in
  let* outdata := mem_write outdata 0 c in
  let* tag := poly1305_auth outdata inlen poly_key in
  let* outdata := mem_write outdata inlen tag in
  Done (set_main x ctx, outdata, u64 (inlen + POLY1305_TAGLEN)).

(** "Check tag before anything else". *)
Definition check_tag (poly_key indata : list Z) (inlen : Z) : outcome bool :=
  let* tag := mem_read indata inlen POLY1305_TAGLEN in
  let* expected_tag := poly1305_auth indata inlen poly_key in
  Done (bool_decide (expected_tag = tag)).

(** The result is [None] when the tag is wrong, and then [outdata] is untouched. *)
Definition decrypt_with (iv : list Z -> option (list Z) -> list Z) (first tmp1 tmp2 : list Z)
    (ctx : chacha_poly1305_ctx) (indata : list Z) (inlen : Z) (outdata : list Z)
    : outcome (chacha_poly1305_ctx * option (list Z * Z)) :=
  let x := iv (main_ctx ctx) None in
  let* (poly_key, x) := poly_key_setup tmp1 x in
  let x := iv x (Some first) in
  let inlen := u64 (inlen - POLY1305_TAGLEN) in
  let* same := check_tag poly_key indata inlen in
  if negb same then Done (set_main x ctx, None)
  else
    let* (m, x) := chacha_encrypt_bytes tmp2 x indata (u32 inlen) in
    let* outdata := mem_write outdata 0 m in
    Done (set_main x ctx, Some (outdata, inlen)).

Definition chacha_poly1305_encrypt (tmp1 tmp2 : list Z) (ctx : chacha_poly1305_ctx) (seqnr : Z) :=
  encrypt_with (fun x counter => chacha_ivsetup x (put_u64 seqnr) counter) one tmp1 tmp2 ctx.

Definition chacha_poly1305_decrypt (tmp1 tmp2 : list Z) (ctx : chacha_poly1305_ctx) (seqnr : Z) :=
  decrypt_with (fun x counter => chacha_ivsetup x (put_u64 seqnr) counter) one tmp1 tmp2 ctx.

Definition chacha_poly1305_verify (tmp1 : list Z) (ctx : chacha_poly1305_ctx) (seqnr : Z)
    (indata : list Z) (inlen : Z) : outcome (chacha_poly1305_ctx * bool) :=
  let x := chacha_ivsetup (main_ctx ctx) (put_u64 seqnr) None in
  let* (poly_key, x) := poly_key_setup tmp1 x in
  let inlen := u64 (inlen - POLY1305_TAGLEN) in
  let* same := check_tag poly_key indata inlen in
  Done (set_main x ctx, same).

Definition chacha_poly1305_encrypt_iv96 (tmp1 tmp2 : list Z) (ctx : chacha_poly1305_ctx) (seqbuf : list Z) :=
  encrypt_with (fun x counter => chacha_ivsetup_96 x seqbuf counter) one_96 tmp1 tmp2 ctx.

Definition chacha_poly1305_decrypt_iv96 (tmp1 tmp2 : list Z) (ctx : chacha_poly1305_ctx) (seqbuf : list Z) :=
  decrypt_with (fun x counter => chacha_ivsetup_96 x seqbuf counter) one_96 tmp1 tmp2 ctx.

(** ** What is computed *)

Definition wf_ctx (ctx : chacha_poly1305_ctx) : Prop := ctx_ok (main_ctx ctx).

(** The key words are the first twelve. *)
Definition same_key (a b : chacha_poly1305_ctx) : Prop := take 12 (main_ctx a) = take 12 (main_ctx b).

(** The sealed message of two cipher states. *)
Definition sealed (x0 x1 m : list Z) : list Z :=
  let c := xor_bytes m (keystream x1 (length m)) in
  c ++ poly1305_mac c (keystream x0 32).

Definition seal (ctx : chacha_poly1305_ctx) (seqnr : Z) (m : list Z) : list Z :=
  sealed (chacha_ivsetup (main_ctx ctx) (put_u64 seqnr) None)
         (chacha_ivsetup (main_ctx ctx) (put_u64 seqnr) (Some one)) m.

Definition seal_iv96 (ctx : chacha_poly1305_ctx) (seqbuf m : list Z) : list Z :=
  sealed (chacha_ivsetup_96 (main_ctx ctx) seqbuf None)
         (chacha_ivsetup_96 (main_ctx ctx) seqbuf (Some one_96)) m.

(** ** Setting up a state *)

Lemma set_last (x : list Z) a b c d :
  length x = 16%nat ->
  <[15%nat := d]> (<[14%nat := c]> (<[13%nat := b]> (<[12%nat := a]> x))) = take 12 x ++ [a; b; c; d].
Proof. intros H. do 16 (destruct x as [|? x]; [done|]). by destruct x. Qed.

Lemma iv_eq x iv c : length x = 16%nat ->
  chacha_ivsetup x iv c = take 12 x ++ [from_option (fun c => U8TO32_LITTLE c 0) 0 c;
    from_option (fun c => U8TO32_LITTLE c 4) 0 c; U8TO32_LITTLE iv 0; U8TO32_LITTLE iv 4].
Proof. apply set_last. Qed.

Lemma iv96_eq x iv c : length x = 16%nat ->
  chacha_ivsetup_96 x iv c = take 12 x ++ [from_option (fun c => U8TO32_LITTLE c 0) 0 c;
    U8TO32_LITTLE iv 0; U8TO32_LITTLE iv 4; U8TO32_LITTLE iv 8].
Proof. apply set_last. Qed.

Lemma word_ok p i : bytes_ok p -> (i + 4 <= length p)%nat -> 0 <= U8TO32_LITTLE p i < 2 ^ 32.
Proof. apply U8TO32_LE_range. Qed.

Lemma iv_words x a b c d :
  ctx_ok x -> 0 <= a < 2 ^ 32 -> 0 <= b < 2 ^ 32 -> 0 <= c < 2 ^ 32 -> 0 <= d < 2 ^ 32 ->
  ctx_ok (take 12 x ++ [a; b; c; d]).
Proof.
  intros [Hl Hw] Ha Hb Hc Hd. split; [rewrite length_app, length_take, Hl; done|].
  apply Forall_app. split; [by apply Forall_take|]. repeat constructor; lia.
Qed.

Lemma put_u64_be v : put_u64 v = be_bytes 8 v.
Proof.
  unfold put_u64, be_bytes, u8. change (2 ^ 8) with 256.
  assert (L : forall x, Z.land (x mod 256) 255 = x mod 256)
    by (intros x; rewrite (land_mask _ 8) by done; apply Z.mod_mod; lia).
  rewrite !L, !shiftr_div by lia. cbn [le_bytes rev app]. rewrite !Z.div_div by lia. done.
Qed.

Lemma put_u64_ok v : bytes_ok (put_u64 v) /\ length (put_u64 v) = 8%nat.
Proof. rewrite put_u64_be, length_be_bytes. split; [apply be_bytes_ok|done]. Qed.

(** What [decrypt] answers on the [c] it is given. *)
Definition opened (x0 x1 c : list Z) : option (list Z) :=
  let n := (length c - 16)%nat in
  let body := take n c in
  if decide (poly1305_mac body (keystream x0 32) = drop n c)
  then Some (xor_bytes body (keystream x1 n)) else None.

Lemma length_mac m key : length (poly1305_mac m key) = 16%nat.
Proof. apply length_le_bytes. Qed.

Lemma length_sealed x0 x1 m : length (sealed x0 x1 m) = (length m + 16)%nat.
Proof.
  unfold sealed. cbv zeta. rewrite length_app, length_mac, length_xor_bytes, length_keystream. lia.
Qed.

Lemma sealed_ok x0 x1 m : ctx_ok x1 -> bytes_ok m -> bytes_ok (sealed x0 x1 m).
Proof.
  intros H1 Hm. unfold sealed. apply Forall_app. split; [|apply le_bytes_ok].
  apply xor_bytes_ok; [done|by apply keystream_ok].
Qed.

Lemma opened_sealed x0 x1 m : opened x0 x1 (sealed x0 x1 m) = Some m.
Proof.
  unfold opened. rewrite length_sealed. replace (length m + 16 - 16)%nat with (length m) by lia.
  unfold sealed. cbv zeta. set (c := xor_bytes m (keystream x1 (length m))).
  assert (Hc : length m = length c) by (unfold c; rewrite length_xor_bytes, length_keystream; lia).
  rewrite take_app_exact, drop_app_exact by done. rewrite decide_True by done. f_equal.
  apply xor_bytes_cancel. by rewrite length_keystream.
Qed.

(** Nothing else opens. *)
Lemma opened_only_sealed x0 x1 c m : (16 <= length c)%nat -> opened x0 x1 c = Some m -> c = sealed x0 x1 m.
Proof.
  unfold opened. intros Hl. case_decide as E; [|done]. intros [= <-].
  set (n := (length c - 16)%nat) in *. unfold sealed. rewrite length_xor_bytes, length_keystream, length_take.
  replace (Nat.min (Nat.min n (length c)) n) with n by lia.
  rewrite xor_bytes_cancel by (rewrite length_take, length_keystream; lia). rewrite E. by rewrite take_drop.
Qed.

Lemma take_with_counter x n : take 12 (with_counter x n) = take 12 x.
Proof. unfold with_counter. by rewrite !take_insert_ge by lia. Qed.

Lemma xor_zeros n k : length k = n -> xor_bytes (replicate n 0) k = k.
Proof.
  revert k. induction n as [|n IH]; intros [|b k] H; try done. simpl. by rewrite IH by (simpl in H; lia).
Qed.

Lemma poly_key_ok tmp x : bytes_ok tmp -> length tmp = 64%nat -> ctx_ok x ->
  poly_key_setup tmp x = Done (keystream x 32, with_counter x (counter_of x + 1)).
Proof.
  intros Ht Hl Hx. unfold poly_key_setup. rewrite chacha_encrypt_bytes_ok; [|done|done|done|by apply Forall_replicate|done].
  by rewrite take_ge, xor_zeros by (rewrite ?length_keystream; done).
Qed.

Section Versions.
Context (iv : list Z -> option (list Z) -> list Z) (first : list Z).

(** What the two setup functions have in common. *)
Record iv_laws : Prop := {
  iv_ok : forall x c, ctx_ok x -> (c = None \/ c = Some first) -> ctx_ok (iv x c);
  iv_same : forall x y c, ctx_ok x -> ctx_ok y -> take 12 x = take 12 y -> iv x c = iv y c;
  iv_take : forall x c, ctx_ok x -> take 12 (iv x c) = take 12 x;
}.

Context (Hiv : iv_laws) (tmp1 tmp2 : list Z).
Context (H1 : bytes_ok tmp1) (L1 : length tmp1 = 64%nat) (H2 : bytes_ok tmp2) (L2 : length tmp2 = 64%nat).

(** The cipher state for the message, after the Poly1305 key was made. *)
Lemma second_state x n : ctx_ok x -> iv (with_counter (iv x None) n) (Some first) = iv x (Some first).
Proof.
  intros Hx. apply Hiv; [apply with_counter_ok, Hiv; auto|done|]. rewrite take_with_counter. by apply Hiv.
Qed.

Lemma key_kept ctx n :
  wf_ctx ctx -> let x := with_counter (iv (main_ctx ctx) (Some first)) n in
  wf_ctx (set_main x ctx) /\ same_key ctx (set_main x ctx).
Proof.
  intros Hc. split; [apply with_counter_ok, Hiv; auto|]. unfold same_key, set_main. cbn [main_ctx].
  rewrite take_with_counter. symmetry. by apply Hiv.
Qed.

Lemma encrypt_with_ok ctx indata inlen outdata :
  wf_ctx ctx -> bytes_ok indata -> bytes_ok outdata ->
  0 <= inlen < 2 ^ 32 -> inlen <= zlen indata -> inlen + 16 <= zlen outdata ->
  exists ctx', encrypt_with iv first tmp1 tmp2 ctx indata inlen outdata =
    Done (ctx', sealed (iv (main_ctx ctx) None) (iv (main_ctx ctx) (Some first)) (take (Z.to_nat inlen) indata) ++
                drop (Z.to_nat inlen + 16) outdata, inlen + 16) /\
    wf_ctx ctx' /\ same_key ctx ctx'.
Proof.
  intros Hc Hi Ho Hn Hl Hr. unfold encrypt_with.
  assert (K0 : ctx_ok (iv (main_ctx ctx) None)) by (apply Hiv; auto).
  assert (K1 : ctx_ok (iv (main_ctx ctx) (Some first))) by (apply Hiv; auto).
  rewrite poly_key_ok by done. cbn [obind]. rewrite second_state by done.
  rewrite u32_small by lia. rewrite chacha_encrypt_bytes_ok by (done || lia). cbn [obind].
  unfold zlen in *. set (m := take (Z.to_nat inlen) indata).
  assert (Hm : length m = Z.to_nat inlen) by (unfold m; rewrite length_take; lia). rewrite <- Hm.
  set (c := xor_bytes m (keystream (iv (main_ctx ctx) (Some first)) (length m))).
  assert (Hcl : length c = Z.to_nat inlen) by (unfold c; rewrite length_xor_bytes, length_keystream; lia).
  assert (Hcok : bytes_ok c) by (apply xor_bytes_ok; [by apply Forall_take|by apply keystream_ok]).
  rewrite mem_write_ok by (unfold zlen; lia). change (Z.to_nat 0) with 0%nat. cbn [obind Nat.add]. rewrite take_0. cbn [app].
  rewrite poly1305_auth_eq; [|apply Forall_app; split; [done|by apply Forall_drop]|by apply keystream_ok|
    by rewrite length_keystream|unfold zlen; rewrite length_app; lia].
  rewrite take_app_exact by done. cbn [obind].
  rewrite mem_write_ok by (unfold zlen; rewrite ?length_app, ?length_drop, ?length_mac; lia). cbn [obind].
  rewrite take_app_exact by done. rewrite u64_small by (unfold POLY1305_TAGLEN; lia). eexists. split; [|by apply key_kept].
  do 3 f_equal. unfold sealed. fold c. rewrite <- app_assoc. do 2 f_equal.
  rewrite length_mac, drop_app_ge, drop_drop by lia. f_equal. lia.
Qed.

Lemma decrypt_with_ok ctx indata inlen outdata :
  wf_ctx ctx -> bytes_ok indata -> 16 <= inlen < 2 ^ 32 -> inlen <= zlen indata -> inlen - 16 <= zlen outdata ->
  exists ctx', decrypt_with iv first tmp1 tmp2 ctx indata inlen outdata =
    Done (ctx', (fun m => (m ++ drop (Z.to_nat (inlen - 16)) outdata, inlen - 16)) <$>
                opened (iv (main_ctx ctx) None) (iv (main_ctx ctx) (Some first)) (take (Z.to_nat inlen) indata)) /\
    wf_ctx ctx' /\ same_key ctx ctx'.
Proof.
  intros Hc Hi Hn Hl Hr. unfold decrypt_with, check_tag, opened.
  assert (K0 : ctx_ok (iv (main_ctx ctx) None)) by (apply Hiv; auto).
  assert (K1 : ctx_ok (iv (main_ctx ctx) (Some first))) by (apply Hiv; auto).
  rewrite poly_key_ok by done. cbn [obind]. rewrite second_state by done.
  unfold POLY1305_TAGLEN, zlen in *. rewrite u64_small by lia. rewrite length_take, Nat.min_l by lia.
  replace (Z.to_nat inlen - 16)%nat with (Z.to_nat (inlen - 16)) by lia.
  set (n := Z.to_nat (inlen - 16)). rewrite take_take, Nat.min_l by lia.
  rewrite mem_read_ok by (unfold zlen; lia). cbn [obind].
  rewrite poly1305_auth_eq; [|done|by apply keystream_ok|by rewrite length_keystream|unfold zlen; lia]. cbn [obind].
  replace (take (Z.to_nat 16) (drop (Z.to_nat (inlen - 16)) indata)) with (drop n (take (Z.to_nat inlen) indata))
    by (rewrite skipn_firstn_comm; f_equal; lia).
  fold n. rewrite bool_decide_decide. destruct (decide _) as [E|E]; cbn [negb].
  - rewrite (u32_small (inlen - 16)) by lia. rewrite chacha_encrypt_bytes_ok by (done || unfold zlen; lia).
    cbn [obind]. fold n.
    rewrite mem_write_ok by (unfold zlen; rewrite ?length_xor_bytes, ?length_take, ?length_keystream; lia).
    cbn [obind]. eexists. split; [|by apply key_kept]. cbn [fmap option_fmap option_map].
    do 4 f_equal. change (Z.to_nat 0) with 0%nat. rewrite take_0. cbn [app Nat.add]. f_equal. f_equal.
    rewrite length_xor_bytes, length_take, length_keystream. lia.
  - eexists. split; [reflexivity|]. pose proof (key_kept ctx (counter_of (iv (main_ctx ctx) (Some first))) Hc) as Hk.
    cbv zeta in Hk. by rewrite with_counter_self in Hk.
Qed.

End Versions.

Lemma iv_laws_64 seqnr : iv_laws (fun x counter => chacha_ivsetup x (put_u64 seqnr) counter) one.
Proof.
  destruct (put_u64_ok seqnr) as [Hb Hl]. split.
  - intros x c Hx Hc. rewrite iv_eq by apply Hx. apply iv_words; [done| | | |];
      try (apply word_ok; [done|rewrite Hl; lia]); destruct Hc as [-> | ->]; done.
  - intros x y c Hx Hy E. rewrite !iv_eq, E by (apply Hx || apply Hy). done.
  - intros x c Hx. rewrite iv_eq by apply Hx. rewrite take_app_exact; [done|].
    rewrite length_take, (co_length _ Hx). done.
Qed.

Lemma iv_laws_96 seqbuf :
  bytes_ok seqbuf -> length seqbuf = 12%nat ->
  iv_laws (fun x counter => chacha_ivsetup_96 x seqbuf counter) one_96.
Proof.
  intros Hb Hl. split.
  - intros x c Hx Hc. rewrite iv96_eq by apply Hx. apply iv_words; [done| | | |];
      try (apply word_ok; [done|rewrite Hl; lia]); destruct Hc as [-> | ->]; done.
  - intros x y c Hx Hy E. rewrite !iv96_eq, E by (apply Hx || apply Hy). done.
  - intros x c Hx. rewrite iv96_eq by apply Hx. rewrite take_app_exact; [done|].
    rewrite length_take, (co_length _ Hx). done.
Qed.

(** ** Keys *)

Lemma keysetup_eq x k : length x = 16%nat ->
  chacha_keysetup x k 256 =
  [U8TO32_LITTLE sigma 0; U8TO32_LITTLE sigma 4; U8TO32_LITTLE sigma 8; U8TO32_LITTLE sigma 12;
   U8TO32_LITTLE k 0; U8TO32_LITTLE k 4; U8TO32_LITTLE k 8; U8TO32_LITTLE k 12;
   U8TO32_LITTLE (drop 16 k) 0; U8TO32_LITTLE (drop 16 k) 4; U8TO32_LITTLE (drop 16 k) 8;
   U8TO32_LITTLE (drop 16 k) 12] ++ drop 12 x.
Proof. intros H. do 16 (destruct x as [|? x]; [done|]). by destruct x. Qed.

Lemma keysetup_ok x k : ctx_ok x -> bytes_ok k -> (32 <= length k)%nat -> ctx_ok (chacha_keysetup x k 256).
Proof.
  intros [Hl Hw] Hk Hn. rewrite keysetup_eq by done. split; [rewrite length_app, length_drop, Hl; done|].
  apply Forall_app. split; [|by apply Forall_drop].
  assert (bytes_ok (drop 16 k)) by (by apply Forall_drop).
  repeat constructor; try done; apply word_ok; try done; rewrite ?length_drop; lia.
Qed.

Lemma set_key_wf ctx k : wf_ctx ctx -> bytes_ok k -> (64 <= length k)%nat -> wf_ctx (chacha_poly1305_set_key ctx k).
Proof. intros Hc Hk Hl. apply keysetup_ok; [done|done|lia]. Qed.

Lemma set_key_same a b k : wf_ctx a -> wf_ctx b ->
  same_key (chacha_poly1305_set_key a k) (chacha_poly1305_set_key b k).
Proof.
  intros Ha Hb. unfold same_key. cbn [main_ctx chacha_poly1305_set_key].
  rewrite !keysetup_eq by (apply Ha || apply Hb). done.
Qed.

Lemma seal_same a b s m : wf_ctx a -> wf_ctx b -> same_key a b -> seal a s m = seal b s m.
Proof.
  intros Ha Hb E. unfold seal.
  by rewrite !(iv_same _ _ (iv_laws_64 s) (main_ctx a) (main_ctx b)).
Qed.

Lemma seal_bytes ctx s m : wf_ctx ctx -> bytes_ok m -> bytes_ok (seal ctx s m).
Proof. intros Hc Hm. apply sealed_ok; [|done]. apply (iv_ok _ _ (iv_laws_64 s)); auto. Qed.

Lemma opened_bytes ctx x0 s c m :
  wf_ctx ctx -> bytes_ok c -> opened x0 (chacha_ivsetup (main_ctx ctx) (put_u64 s) (Some one)) c = Some m -> bytes_ok m.
Proof.
  intros Hc Hb. unfold opened. case_decide; [|done]. intros [= <-].
  apply xor_bytes_ok; [by apply Forall_take|]. apply keystream_ok, (iv_ok _ _ (iv_laws_64 s)); auto.
Qed.

(** What opens is what was sealed. *)
Lemma opened_iff ctx s c m :
  wf_ctx ctx -> bytes_ok c -> (16 <= length c)%nat ->
  opened (chacha_ivsetup (main_ctx ctx) (put_u64 s) None)
         (chacha_ivsetup (main_ctx ctx) (put_u64 s) (Some one)) c = Some m <->
  bytes_ok m /\ c = seal ctx s m.
Proof.
  intros Hc Hb Hl. split.
  - intros E. split; [by eapply opened_bytes|by apply opened_only_sealed].
  - intros [_ ->]. apply opened_sealed.
Qed.

(** [stack t]: [t] can be the contents of the [tmp] array. *)
Definition stack (t : list Z) : Prop := bytes_ok t /\ length t = 64%nat.

Lemma verify_ok tmp1 ctx s d :
  stack tmp1 -> wf_ctx ctx -> bytes_ok d -> 16 <= zlen d < 2 ^ 32 ->
  exists ctx' b, chacha_poly1305_verify tmp1 ctx s d (zlen d) = Done (ctx', b) /\ wf_ctx ctx' /\ same_key ctx ctx' /\
    (b = true <-> exists m, bytes_ok m /\ d = seal ctx s m).
Proof.
  intros [Ht Htl] Hc Hd Hn. unfold chacha_poly1305_verify, check_tag.
  assert (K0 : ctx_ok (chacha_ivsetup (main_ctx ctx) (put_u64 s) None)) by (apply (iv_ok _ _ (iv_laws_64 s)); auto).
  rewrite poly_key_ok by done. cbn [obind]. unfold POLY1305_TAGLEN, zlen in *. rewrite u64_small by lia.
  rewrite mem_read_ok by (unfold zlen; lia). cbn [obind].
  rewrite poly1305_auth_eq; [|done|by apply keystream_ok|by rewrite length_keystream|unfold zlen; lia]. cbn [obind].
  eexists _, _. split; [reflexivity|]. split; [by apply with_counter_ok|]. split.
  { unfold same_key, set_main. cbn [main_ctx]. rewrite take_with_counter. symmetry. by apply (iv_take _ _ (iv_laws_64 s)). }
  rewrite bool_decide_eq_true.
  setoid_rewrite <- (fun m => opened_iff ctx s d m Hc Hd ltac:(lia)). unfold opened.
  replace (Z.to_nat (Z.of_nat (length d) - 16)) with (length d - 16)%nat by lia.
  rewrite (take_ge (drop _ d)) by (rewrite length_drop; lia).
  case_decide; split; intros H'; by eauto || (destruct H'; done) || done.
Qed.

(** C21. Sealing and opening: with the same key in both contexts and the same
    sequence number, [chacha_poly1305_encrypt] stores the sealed message, 16 bytes
    longer than the message, and [chacha_poly1305_decrypt] of it returns true and
    stores exactly the message; neither touches the rest of [outdata], and both
    leave a context with the same key, ready for the next message. *)
Theorem aead_round_trip tmp1 tmp2 tmp3 tmp4 a b seqnr m out out' :
  stack tmp1 -> stack tmp2 -> stack tmp3 -> stack tmp4 -> wf_ctx a -> wf_ctx b -> same_key a b ->
  bytes_ok m -> bytes_ok out -> zlen m + 16 < 2 ^ 32 -> zlen m + 16 <= zlen out -> zlen m <= zlen out' ->
  exists a' b',
    chacha_poly1305_encrypt tmp1 tmp2 a seqnr m (zlen m) out =
      Done (a', seal a seqnr m ++ drop (length m + 16) out, zlen m + 16) /\
    chacha_poly1305_decrypt tmp3 tmp4 b seqnr (seal a seqnr m) (zlen m + 16) out' =
      Done (b', Some (m ++ drop (length m) out', zlen m)) /\
    wf_ctx a' /\ same_key a a' /\ wf_ctx b' /\ same_key b b'.
Proof.
  intros [T1 L1] [T2 L2] [T3 L3] [T4 L4] Ha Hb Hab Hm Ho Hn Hl Hl'. pose proof (zlen_nonneg m).
  assert (Hz : Z.to_nat (zlen m) = length m) by (unfold zlen; lia).
  destruct (encrypt_with_ok _ _ (iv_laws_64 seqnr) tmp1 tmp2 T1 L1 T2 L2 a m (zlen m) out) as (a' & Ea & Wa & Sa);
    try (done || lia).
  assert (Hsl : zlen (seal a seqnr m) = zlen m + 16) by (unfold zlen, seal; rewrite length_sealed; lia).
  destruct (decrypt_with_ok _ _ (iv_laws_64 seqnr) tmp3 tmp4 T3 L3 T4 L4 b (seal a seqnr m) (zlen m + 16) out')
    as (b' & Eb & Wb & Sb); try (done || lia); [by apply seal_bytes|].
  exists a', b'. unfold chacha_poly1305_encrypt, chacha_poly1305_decrypt. rewrite Ea, Eb.
  rewrite Hz, (take_ge m), (take_ge (seal _ _ _)) by (unfold zlen in *; lia). splits; try done.
  rewrite (seal_same a b) by done. unfold seal at 1. rewrite opened_sealed. cbn [fmap option_fmap option_map].
  replace (zlen m + 16 - 16) with (zlen m) by lia. by rewrite Hz.
Qed.

(** C22. Authenticity by construction: [chacha_poly1305_decrypt] returns on every
    input of at least 16 bytes, and returns true exactly for the byte strings that
    [chacha_poly1305_encrypt] produces under the key and sequence number, with the
    sealed message as its output; on any other input it stores nothing.
    [chacha_poly1305_verify] gives the same verdict. *)
Theorem aead_opens_only_sealed tmp1 tmp2 ctx seqnr c out :
  stack tmp1 -> stack tmp2 -> wf_ctx ctx -> bytes_ok c -> 16 <= zlen c < 2 ^ 32 -> zlen c - 16 <= zlen out ->
  exists ctx' r, chacha_poly1305_decrypt tmp1 tmp2 ctx seqnr c (zlen c) out = Done (ctx', r) /\
    (forall m, bytes_ok m -> c = seal ctx seqnr m -> r = Some (m ++ drop (length m) out, zlen m)) /\
    (forall o n, r = Some (o, n) -> exists m, bytes_ok m /\ c = seal ctx seqnr m) /\
    exists ctx'', chacha_poly1305_verify tmp1 ctx seqnr c (zlen c) = Done (ctx'', bool_decide (is_Some r)).
Proof.
  intros Hs1 [T2 L2] Hc Hb Hn Ho. pose proof Hs1 as [T1 L1].
  destruct (decrypt_with_ok _ _ (iv_laws_64 seqnr) tmp1 tmp2 T1 L1 T2 L2 ctx c (zlen c) out) as (ctx' & E & _ & _); try (done || lia).
  destruct (verify_ok tmp1 ctx seqnr c Hs1 Hc Hb Hn) as (ctx'' & v & Ev & _ & _ & Hv).
  rewrite take_ge in E by (unfold zlen; lia). exists ctx'. eexists. split; [exact E|].
  pose proof (fun m => opened_iff ctx seqnr c m Hc Hb ltac:(unfold zlen in Hn; lia)) as Hop. splits.
  - intros m Hm Hcm. rewrite (proj2 (Hop m)) by done. cbn [fmap option_fmap option_map].
    rewrite Hcm. unfold zlen, seal. rewrite length_sealed. do 2 f_equal; [|lia]. do 2 f_equal. lia.
  - intros o n. destruct (opened _ _ c) as [m|] eqn:Eo; [|done]. intros _. exists m. by apply Hop.
  - exists ctx''. rewrite Ev. do 2 f_equal. destruct (opened _ _ c) as [m|] eqn:Eo; cbn [fmap option_fmap option_map].
    + rewrite bool_decide_true by eauto. apply Hv. exists m. by apply Hop.
    + rewrite bool_decide_false by (by intros []). apply not_true_is_false. rewrite Hv. intros (m & Hm).
      apply Hop in Hm. congruence.
Qed.

(** ** The cipher of SPTPS

    In place, as sptps.c calls it: the object behind [outdata] is the one that
    holds [indata], with room for the tag. *)

Section Instance_.
Context (tmp : list Z) (Htmp : stack tmp).

Definition seal_in_place (c : chacha_poly1305_ctx) (s : Z) (m : list Z) : outcome (chacha_poly1305_ctx * list Z) :=
  let* (c, o, _) := chacha_poly1305_encrypt tmp tmp c s m (zlen m) (m ++ replicate 16 0) in Done (c, o).

Definition open_in_place (c : chacha_poly1305_ctx) (s : Z) (d : list Z) : outcome (chacha_poly1305_ctx * option (list Z)) :=
  let* (c, r) := chacha_poly1305_decrypt tmp tmp c s d (zlen d) d in
  Done (c, (fun '(o, n) => take (Z.to_nat n) o) <$> r).

Lemma seal_in_place_ok c s m :
  wf_ctx c -> bytes_ok m -> zlen m + 16 < 2 ^ 32 ->
  exists c', seal_in_place c s m = Done (c', seal c s m) /\ wf_ctx c' /\ same_key c c'.
Proof.
  intros Hc Hm Hn. destruct Htmp as [T L]. pose proof (zlen_nonneg m).
  destruct (encrypt_with_ok _ _ (iv_laws_64 s) tmp tmp T L T L c m (zlen m) (m ++ replicate 16 0)) as (c' & E & W & S);
    try (done || lia).
  - apply Forall_app. split; [done|]. by apply Forall_replicate.
  - unfold zlen. rewrite length_app, length_replicate. lia.
  - exists c'. splits; [|done|done]. unfold seal_in_place, chacha_poly1305_encrypt. rewrite E. cbn [obind].
    unfold zlen. rewrite Nat2Z.id, take_ge, drop_ge, app_nil_r by (rewrite ?length_app, ?length_replicate; lia). done.
Qed.

Lemma open_in_place_ok c s d :
  wf_ctx c -> bytes_ok d -> 16 <= zlen d < 2 ^ 32 ->
  exists c' r, open_in_place c s d = Done (c', r) /\ wf_ctx c' /\ same_key c c' /\
    forall m, r = Some m <-> bytes_ok m /\ d = seal c s m.
Proof.
  intros Hc Hd Hn. destruct Htmp as [T L].
  destruct (decrypt_with_ok _ _ (iv_laws_64 s) tmp tmp T L T L c d (zlen d) d) as (c' & E & W & S); try (done || lia).
  rewrite take_ge in E by (unfold zlen; lia). exists c'. unfold open_in_place, chacha_poly1305_decrypt. rewrite E.
  cbn [obind]. eexists. split; [reflexivity|]. splits; [done|done|]. intros m.
  rewrite <- (opened_iff c s d m Hc Hd) by (unfold zlen in Hn; lia).
  destruct (opened _ _ d) as [m'|] eqn:Eo; cbn [fmap option_fmap option_map]; [|done].
  rewrite take_app_exact; [done|]. apply opened_only_sealed in Eo; [|unfold zlen in Hn; lia].
  rewrite Eo. unfold zlen. rewrite length_sealed. lia.
Qed.

#[refine] Definition chacha_aead : Aead := {|
  aead_ctx := chacha_poly1305_ctx;
  aead_init := chacha_poly1305_init;
  aead_set_key := chacha_poly1305_set_key;
  aead_encrypt := seal_in_place;
  aead_decrypt := open_in_place;
  aead_verify c s d := chacha_poly1305_verify tmp c s d (zlen d);
  aead_seal := seal;
  aead_wf := wf_ctx;
  aead_same := same_key;
|}.
Proof.
  - split; unfold same_key; [intros a; done|intros a b; congruence|intros a b c; congruence].
  - split; [done|]. by apply Forall_replicate.
  - apply set_key_wf.
  - apply set_key_same.
  - apply seal_in_place_ok.
  - apply open_in_place_ok.
  - intros c s d. by apply verify_ok.
  - intros c s m. unfold zlen, seal. rewrite length_sealed. lia.
  - apply seal_bytes.
  - apply seal_same.
Defined.

End Instance_.

(** ** A run *)

Definition sim_key : list Z := seqZ 0 64.
Definition sim_cipher : chacha_poly1305_ctx := chacha_poly1305_set_key chacha_poly1305_init sim_key.
Definition sim_stack : list Z := replicate 64 7.

Lemma sim_cipher_wf : wf_ctx sim_cipher.
Proof.
  apply set_key_wf; [|apply (bool_decide_unpack _); by vm_compute|done].
  split; [done|]. by apply Forall_replicate.
Qed.

Lemma sim_stack_ok : stack sim_stack.
Proof. split; [by apply Forall_replicate|done]. Qed.

Lemma aead_round_trip_witness :
  exists a b, chacha_poly1305_encrypt sim_stack sim_stack sim_cipher 5 [1; 2; 3] (zlen [1; 2; 3]) (replicate 20 9) =
      Done (a, seal sim_cipher 5 [1; 2; 3] ++ [9], 19) /\
    chacha_poly1305_decrypt sim_stack sim_stack sim_cipher 5 (seal sim_cipher 5 [1; 2; 3]) (zlen [1; 2; 3] + 16) [0; 0; 0; 4] =
      Done (b, Some ([1; 2; 3; 4], 3)).
Proof.
  destruct (aead_round_trip sim_stack sim_stack sim_stack sim_stack sim_cipher sim_cipher 5 [1; 2; 3] (replicate 20 9) [0; 0; 0; 4]
    sim_stack_ok sim_stack_ok sim_stack_ok sim_stack_ok sim_cipher_wf sim_cipher_wf eq_refl)
    as (a & b & Ha & Hb & _); [| |unfold zlen; simpl; lia..|].
  - repeat constructor; lia.
  - by apply Forall_replicate.
  - exists a, b. split; [exact Ha|exact Hb].
Defined.

Lemma aead_opens_only_sealed_witness :
  exists ctx r, chacha_poly1305_decrypt sim_stack sim_stack sim_cipher 5 (replicate 20 0) (zlen (replicate 20 0)) (replicate 4 0) =
      Done (ctx, r) /\ r = None.
Proof.
  destruct (aead_opens_only_sealed sim_stack sim_stack sim_cipher 5 (replicate 20 0) (replicate 4 0)
    sim_stack_ok sim_stack_ok sim_cipher_wf) as (ctx & r & Hr & _); [|unfold zlen; simpl; lia..|].
  - by apply Forall_replicate.
  - exists ctx, r. split; [exact Hr|].
    assert (E : match chacha_poly1305_decrypt sim_stack sim_stack sim_cipher 5 (replicate 20 0) (zlen (replicate 20 0)) (replicate 4 0)
                with Done (_, None) => true | _ => false end = true) by (vm_compute; reflexivity).
    rewrite Hr in E. by destruct r.
Defined.
