(* ===== verification/Sha512.v ===== *)
(** SHA-512 (src/src/ed25519/sha512.c).

    The context is the C struct; [sha512_update] is the C loop, compressing full
    blocks straight from the input and the rest through the context's buffer.
    The reference is the whole message padded as in FIPS 180-4, cut in blocks of
    128 bytes and compressed one after the other. *)
From S2P Require Import Prelude Bytes.

(** the K array *)
Definition K : list Z :=
  [0x428a2f98d728ae22; 0x7137449123ef65cd; 0xb5c0fbcfec4d3b2f; 0xe9b5dba58189dbbc;
   0x3956c25bf348b538; 0x59f111f1b605d019; 0x923f82a4af194f9b; 0xab1c5ed5da6d8118;
   0xd807aa98a3030242; 0x12835b0145706fbe; 0x243185be4ee4b28c; 0x550c7dc3d5ffb4e2;
   0x72be5d74f27b896f; 0x80deb1fe3b1696b1; 0x9bdc06a725c71235; 0xc19bf174cf692694;
   0xe49b69c19ef14ad2; 0xefbe4786384f25e3; 0x0fc19dc68b8cd5b5; 0x240ca1cc77ac9c65;
   0x2de92c6f592b0275; 0x4a7484aa6ea6e483; 0x5cb0a9dcbd41fbd4; 0x76f988da831153b5;
   0x983e5152ee66dfab; 0xa831c66d2db43210; 0xb00327c898fb213f; 0xbf597fc7beef0ee4;
   0xc6e00bf33da88fc2; 0xd5a79147930aa725; 0x06ca6351e003826f; 0x142929670a0e6e70;
   0x27b70a8546d22ffc; 0x2e1b21385c26c926; 0x4d2c6dfc5ac42aed; 0x53380d139d95b3df;
   0x650a73548baf63de; 0x766a0abb3c77b2a8; 0x81c2c92e47edaee6; 0x92722c851482353b;
   0xa2bfe8a14cf10364; 0xa81a664bbc423001; 0xc24b8b70d0f89791; 0xc76c51a30654be30;
   0xd192e819d6ef5218; 0xd69906245565a910; 0xf40e35855771202a; 0x106aa07032bbd1b8;
   0x19a4c116b8d2d0c8; 0x1e376c085141ab53; 0x2748774cdf8eeb99; 0x34b0bcb5e19b48a8;
   0x391c0cb3c5c95a63; 0x4ed8aa4ae3418acb; 0x5b9cca4f7763e373; 0x682e6ff3d6b2b8a3;
   0x748f82ee5defb2fc; 0x78a5636f43172f60; 0x84c87814a1f0ab72; 0x8cc702081a6439ec;
   0x90befffa23631e28; 0xa4506cebde82bde9; 0xbef9a3f7b2c67915; 0xc67178f2e372532b;
   0xca273eceea26619c; 0xd186b8c721c0c207; 0xeada7dd6cde0eb1e; 0xf57d4f7fee6ed178;
   0x06f067aa72176fba; 0x0a637dc5a2c898a6; 0x113f9804bef90dae; 0x1b710b35131c471b;
   0x28db77f523047d84; 0x32caab7b40c72493; 0x3c9ebe0a15c9bebc; 0x431d67c49c100d4c;
   0x4cc5d4becb3e42b6; 0x597f299cfc657e2a; 0x5fcb6fab3ad6faec; 0x6c44198c4a475817].

Definition ROR64c (x y : Z) : Z :=
  Z.land (Z.lor (Z.shiftr (Z.land x 0xFFFFFFFFFFFFFFFF) (Z.land y 63)) (u64 (Z.shiftl x (64 - Z.land y 63))))
         0xFFFFFFFFFFFFFFFF.

Definition STORE64H (x : Z) : list Z :=
  [Z.land (Z.shiftr x 56) 255; Z.land (Z.shiftr x 48) 255; Z.land (Z.shiftr x 40) 255; Z.land (Z.shiftr x 32) 255;
   Z.land (Z.shiftr x 24) 255; Z.land (Z.shiftr x 16) 255; Z.land (Z.shiftr x 8) 255; Z.land x 255].

Definition LOAD64H (y : list Z) (i : nat) : Z :=
  let b k := Z.land (y !!! (i + k)%nat) 255 in
  Z.lor (Z.shiftl (b 0%nat) 56) (Z.lor (Z.shiftl (b 1%nat) 48) (Z.lor (Z.shiftl (b 2%nat) 40)
    (Z.lor (Z.shiftl (b 3%nat) 32) (Z.lor (Z.shiftl (b 4%nat) 24) (Z.lor (Z.shiftl (b 5%nat) 16)
      (Z.lor (Z.shiftl (b 6%nat) 8) (b 7%nat))))))).

Definition Ch (x y z : Z) : Z := Z.lxor z (Z.land x (Z.lxor y z)).
Definition Maj (x y z : Z) : Z := Z.lor (Z.land (Z.lor x y) z) (Z.land x y).
Definition R (x n : Z) : Z := Z.shiftr (Z.land x 0xFFFFFFFFFFFFFFFF) n.
Definition Sigma0 (x : Z) : Z := Z.lxor (Z.lxor (ROR64c x 28) (ROR64c x 34)) (ROR64c x 39).
Definition Sigma1 (x : Z) : Z := Z.lxor (Z.lxor (ROR64c x 14) (ROR64c x 18)) (ROR64c x 41).
Definition Gamma0 (x : Z) : Z := Z.lxor (Z.lxor (ROR64c x 1) (ROR64c x 8)) (R x 7).
Definition Gamma1 (x : Z) : Z := Z.lxor (Z.lxor (ROR64c x 19) (ROR64c x 61)) (R x 6).

(** "fill W[16..79]", [n] words. *)
Fixpoint schedule (n : nat) (W : list Z) : list Z :=
  match n with
  | O => W
  | S n =>
      let i := length W in
      schedule n (W ++ [u64 (Gamma1 (W !!! (i - 2)%nat) + W !!! (i - 7)%nat + Gamma0 (W !!! (i - 15)%nat) + W !!! (i - 16)%nat)])
  end.

(** The macro [RND], on the registers with the given numbers. *)
Definition RND (W : list Z) (a b c d e f g h i : nat) (s : list Z) : list Z :=
  let t0 := u64 (s !!! h + Sigma1 (s !!! e) + Ch (s !!! e) (s !!! f) (s !!! g) + K !!! i + W !!! i) in
  let t1 := u64 (Sigma0 (s !!! a) + Maj (s !!! a) (s !!! b) (s !!! c)) in
  let s := <[d := u64 (s !!! d + t0)]> s in
  <[h := u64 (t0 + t1)]> s.

(** The body of [for (i = 0; i < 80; i += 8)]. *)
Definition rounds8 (W : list Z) (i : nat) (s : list Z) : list Z :=
  let s := RND W 0 1 2 3 4 5 6 7 (i + 0) s in
  let s := RND W 7 0 1 2 3 4 5 6 (i + 1) s in
  let s := RND W 6 7 0 1 2 3 4 5 (i + 2) s in
  let s := RND W 5 6 7 0 1 2 3 4 (i + 3) s in
  let s := RND W 4 5 6 7 0 1 2 3 (i + 4) s in
  let s := RND W 3 4 5 6 7 0 1 2 (i + 5) s in
  let s := RND W 2 3 4 5 6 7 0 1 (i + 6) s in
  RND W 1 2 3 4 5 6 7 0 (i + 7) s.

(** The new [md->state]. *)
Definition sha512_compress (state buf : list Z) : list Z :=
  let W := schedule 64 ((fun i : nat => LOAD64H buf (8 * i)) <$> seq 0 16) in
  let s := foldl (fun s i => rounds8 W (8 * i) s) state (seq 0 10) in
  zip_with (fun a b => u64 (a + b)) state s.

(** [sha512_context]. *)
Record sha512_context := Md { md_length : Z; md_state : list Z; curlen : Z; buf : list Z }.

Definition sha512_iv : list Z :=
  [0x6a09e667f3bcc908; 0xbb67ae8584caa73b; 0x3c6ef372fe94f82b; 0xa54ff53a5f1d36f1;
   0x510e527fade682d1; 0x9b05688c2b3e6c1f; 0x1f83d9abfb41bd6b; 0x5be0cd19137e2179].

(** [buf] is not set by [sha512_init]. *)
Definition sha512_init (md : sha512_context) : sha512_context := Md 0 sha512_iv 0 (buf md).

(** The loop of [sha512_update]; the result is the C return value and the context. *)
Fixpoint update_loop (fuel : nat) (md : sha512_context) (inp : list Z) : outcome sha512_context :=
  match fuel with
  | O => Stop OutOfFuel
  | S fuel =>
      let inlen := zlen inp in
      if inlen =? 0 then Done md
      else if (curlen md =? 0) && (128 <=? inlen) then
        update_loop fuel
          (Md (u64 (md_length md + 128 * 8)) (sha512_compress (md_state md) (take 128 inp)) (curlen md) (buf md))
          (drop 128 inp)
      else
        let n := Z.min inlen (128 - curlen md) in
        let* b := mem_write (buf md) (curlen md) (take (Z.to_nat n) inp) in
        let cur := curlen md + n in
        let inp := drop (Z.to_nat n) inp in
        if cur =? 128 then
          update_loop fuel (Md (u64 (md_length md + 8 * 128)) (sha512_compress (md_state md) b) 0 b) inp
        else update_loop fuel (Md (md_length md) (md_state md) cur b) inp
  end.

Definition sha512_update (md : sha512_context) (inp : list Z) : outcome (Z * sha512_context) :=
  if 128 <? curlen md then Done (1, md)
  else let* md := update_loop (S (length inp)) md inp in Done (0, md).

(** [while (md->curlen < to) md->buf[md->curlen++] = 0]. *)
Definition pad_to (upto : Z) (md : sha512_context) : outcome sha512_context :=
  let* b := mem_write (buf md) (curlen md) (replicate (Z.to_nat (upto - curlen md)) 0) in
  Done (Md (md_length md) (md_state md) (Z.max upto (curlen md)) b).

(** The digest is [None] when the call fails. *)
Definition sha512_final (md : sha512_context) : outcome (Z * option (list Z)) :=
  if 128 <=? curlen md then Done (1, None)
  else
    let len := u64 (md_length md + curlen md * 8) in
    let* b := mem_write (buf md) (curlen md) [128] in
    let md := Md len (md_state md) (curlen md + 1) b in
    let* md :=
      if 112 <? curlen md then
        let* md := pad_to 128 md in
        Done (Md (md_length md) (sha512_compress (md_state md) (buf md)) 0 (buf md))
      else Done md in
    let* md := pad_to 120 md in
    let* b := mem_write (buf md) 120 (STORE64H (md_length md)) in
    let state := sha512_compress (md_state md) b in
    Done (0, Some (mjoin (STORE64H <$> state))).

(** [ctx] is the uninitialised stack object. *)
Definition sha512 (ctx : sha512_context) (message : list Z) : outcome (Z * option (list Z)) :=
  let md := sha512_init ctx in
  let* (ret, md) := sha512_update md message in
  if negb (ret =? 0) then Done (ret, None) else sha512_final md.

(** ** The reference *)

(** [n] blocks of 128 bytes. *)
Fixpoint absorb (n : nat) (state m : list Z) : list Z :=
  match n with O => state | S n => absorb n (sha512_compress state (take 128 m)) (drop 128 m) end.

(** FIPS 180-4, 5.1.2: a one bit, zeros up to 112 modulo 128, the length in 128 bits. *)
Definition padding (len : nat) : list Z :=
  [128] ++ replicate (Z.to_nat ((111 - Z.of_nat len) mod 128)) 0 ++ be_bytes 16 (8 * Z.of_nat len).

Definition sha512_ref (m : list Z) : list Z :=
  let p := m ++ padding (length m) in
  mjoin (be_bytes 8 <$> absorb (length p / 128) sha512_iv p).

(** ** Blocks *)

#[local] Opaque sha512_compress sha512_iv.

Lemma absorb_app n : forall k st p q, length p = (128 * n)%nat ->
  absorb (n + k) st (p ++ q) = absorb k (absorb n st p) q.
Proof.
  induction n as [|n IH]; intros k st p q Hp; [by destruct p|]. cbn [absorb Nat.add].
  rewrite take_app_le, drop_app_le by lia. apply IH. rewrite length_drop. lia.
Qed.

Lemma absorb_one st b : length b = 128%nat -> absorb 1 st b = sha512_compress st b.
Proof. intros H. cbn [absorb]. by rewrite take_ge by lia. Qed.

#[local] Opaque absorb.

(** [holds md m]: the context has taken in the message [m]: its full blocks are
    in the state, the rest in the buffer. *)
Record holds_at (md : sha512_context) (n : nat) (p q : list Z) : Prop := {
  h_blocks : length p = (128 * n)%nat;
  h_rest : (length q < 128)%nat;
  h_state : md_state md = absorb n sha512_iv p;
  h_length : md_length md = u64 (8 * zlen p);
  h_curlen : curlen md = zlen q;
  h_room : length (buf md) = 128%nat;
  h_buf : take (length q) (buf md) = q;
}.
Definition holds (md : sha512_context) (m : list Z) : Prop :=
  exists n p q, m = p ++ q /\ holds_at md n p q.

Lemma u64_add_l x y : u64 (u64 x + y) = u64 (x + y).
Proof. apply Zplus_mod_idemp_l. Qed.

Lemma init_holds ctx : length (buf ctx) = 128%nat -> holds (sha512_init ctx) [].
Proof. intros H. exists 0%nat, [], []. split; [done|]. split; simpl; (done || lia). Qed.

(** Writing the next bytes into the buffer. *)
Lemma buffer_more (b q x : list Z) :
  length b = 128%nat -> take (length q) b = q -> (length q + length x <= 128)%nat ->
  exists b', mem_write b (zlen q) x = Done b' /\ length b' = 128%nat /\ take (length q + length x) b' = q ++ x.
Proof.
  intros Hb Hq Hx. rewrite mem_write_ok by (unfold zlen; lia). eexists. split; [reflexivity|].
  unfold zlen. rewrite Nat2Z.id, Hq. split; [rewrite !length_app, length_drop; lia|].
  rewrite app_assoc. apply take_app_exact. rewrite length_app. lia.
Qed.

Lemma update_loop_ok fuel : forall md m inp,
  holds md m -> (length inp < fuel)%nat ->
  exists md', update_loop fuel md inp = Done md' /\ holds md' (m ++ inp).
Proof.
  induction fuel as [|fuel IH]; intros md m inp H Hf; [lia|]. cbn [update_loop]. zcase.
  { destruct inp; [|unfold zlen in *; simpl in *; lia]. rewrite app_nil_r. eauto. }
  destruct H as (n & p & q & -> & [Hp Hq Hs Hl Hc Hr Hb]). zcase.
  - assert (q = []) as -> by (destruct q; [done|unfold zlen in *; simpl in *; lia]).
    rewrite app_nil_r. assert (E' : (128 <= length inp)%nat) by (unfold zlen in *; lia).
    replace (p ++ inp) with ((p ++ take 128 inp) ++ drop 128 inp) by (by rewrite <- app_assoc, take_drop).
    apply IH; [|rewrite length_drop; lia].
    exists (n + 1)%nat, (p ++ take 128 inp), []. rewrite app_nil_r. split; [done|].
    assert (Ht : length (take 128 inp) = 128%nat) by (rewrite length_take; lia).
    split; cbn [md_state md_length curlen buf].
    + rewrite length_app, Ht. lia.
    + simpl. lia.
    + rewrite (absorb_app n 1 _ p _ Hp), <- Hs. symmetry. exact (absorb_one _ _ Ht).
    + rewrite Hl, u64_add_l, zlen_app. unfold zlen at 3. rewrite Ht. f_equal. lia.
    + done.
    + done.
    + done.
  - set (k := Z.to_nat (Z.min (zlen inp) (128 - curlen md))).
    rewrite Hc in *. unfold zlen in *. assert (Hk : (k <= length inp)%nat) by lia.
    assert (Ht : length (take k inp) = k) by (rewrite length_take; lia).
    destruct (buffer_more (buf md) q (take k inp) Hr Hb ltac:(lia)) as (b & Hw & Hbl & Hbt).
    unfold zlen in Hw. rewrite Hw. cbn [obind].
    assert (Hin : forall x, x ++ inp = (x ++ take k inp) ++ drop k inp)
      by (intros x; by rewrite <- app_assoc, take_drop).
    rewrite (Hin (p ++ q)). rewrite <- (app_assoc p q). zcase; (eapply IH; [|rewrite length_drop; lia]).
    + assert (Hfull : length (q ++ take k inp) = 128%nat) by (rewrite length_app; lia).
      exists (n + 1)%nat, (p ++ q ++ take k inp), []. rewrite app_nil_r. split; [done|].
      assert (b = q ++ take k inp) as -> by (rewrite <- Hbt; symmetry; apply take_ge; lia).
      split; cbn [md_state md_length curlen buf].
      * rewrite length_app, Hfull. lia.
      * simpl. lia.
      * rewrite (absorb_app n 1 _ p _ Hp), <- Hs. symmetry. exact (absorb_one _ _ Hfull).
      * rewrite Hl, u64_add_l, zlen_app. unfold zlen. rewrite Hfull. f_equal. lia.
      * done.
      * done.
      * done.
    + exists n, p, (q ++ take k inp). split; [done|].
      split; cbn [md_state md_length curlen buf]; rewrite ?length_app; try (done || lia).
      unfold zlen. rewrite length_app. lia.
Qed.

Lemma update_ok md m inp :
  holds md m -> exists md', sha512_update md inp = Done (0, md') /\ holds md' (m ++ inp).
Proof.
  intros H. unfold sha512_update. rewrite (proj2 (Z.ltb_ge 128 (curlen md))).
  - destruct (update_loop_ok (S (length inp)) md m inp H ltac:(lia)) as (md' & -> & Hh). eauto.
  - destruct H as (n & p & q & _ & []). unfold zlen in *. lia.
Qed.

(** ** Padding *)

Lemma STORE64H_be x : STORE64H x = be_bytes 8 x.
Proof.
  unfold STORE64H, be_bytes. cbn [le_bytes rev app]. rewrite !(land_mask _ 8), !shiftr_div by done.
  rewrite !Z.div_div by lia. done.
Qed.

Lemma store_words (l : list Z) : STORE64H <$> l = be_bytes 8 <$> l.
Proof. apply list_fmap_ext. intros _ x _. apply STORE64H_be. Qed.

Lemma be_bytes_high x : 0 <= x < 2 ^ 64 -> be_bytes 16 x = replicate 8 0 ++ be_bytes 8 x.
Proof.
  intros H. unfold be_bytes. change (replicate 8 0) with (rev (replicate 8 0)). rewrite <- rev_app_distr. f_equal.
  apply le_val_inj.
  - apply le_bytes_ok.
  - apply Forall_app. split; [apply le_bytes_ok|by apply Forall_replicate].
  - rewrite length_app, !length_le_bytes. done.
  - rewrite le_val_app, le_val_zeros, !le_val_bytes; lia.
Qed.

Lemma pad_to_ok upto md (q : list Z) :
  length (buf md) = 128%nat -> take (length q) (buf md) = q -> curlen md = zlen q ->
  zlen q <= upto <= 128 ->
  exists b, pad_to upto md = Done (Md (md_length md) (md_state md) upto b) /\ length b = 128%nat /\
    take (Z.to_nat upto) b = q ++ replicate (Z.to_nat upto - length q) 0.
Proof.
  intros Hr Hb Hc Hu. unfold zlen in *. unfold pad_to. rewrite Hc.
  replace (Z.to_nat (upto - Z.of_nat (length q))) with (Z.to_nat upto - length q)%nat by lia.
  destruct (buffer_more (buf md) q (replicate (Z.to_nat upto - length q) 0) Hr Hb) as (b & Hw & Hl & Ht);
    [rewrite length_replicate; lia|].
  unfold zlen in Hw. rewrite Hw. cbn [obind]. exists b. rewrite Z.max_l by lia. splits; [done|done|].
  rewrite <- Ht, length_replicate. f_equal. lia.
Qed.

(** The last block: the length goes into its last eight bytes. *)
Lemma last_block b (q : list Z) len :
  length b = 128%nat -> take 120 b = q -> mem_write b 120 (STORE64H len) = Done (q ++ be_bytes 8 len).
Proof.
  intros Hl Hq. rewrite STORE64H_be.
  rewrite mem_write_ok by (unfold zlen; rewrite ?length_be_bytes; lia). f_equal. rewrite length_be_bytes.
  change (Z.to_nat 120) with 120%nat. rewrite Hq. rewrite (drop_ge b) by (simpl; lia). by rewrite app_nil_r.
Qed.

Lemma padding_eq (n : nat) (q : nat) : (q < 128)%nat -> 8 * Z.of_nat (128 * n + q) < 2 ^ 64 ->
  padding (128 * n + q) =
  (if (112 <=? q)%nat then ([128] ++ replicate (127 - q) 0) ++ replicate 120 0
   else [128] ++ replicate (119 - q) 0) ++ be_bytes 8 (8 * Z.of_nat (128 * n + q)).
Proof.
  intros Hq Hn. unfold padding. rewrite be_bytes_high by lia. set (len := be_bytes 8 _). clearbody len.
  assert (Hm : (111 - Z.of_nat (128 * n + q)) mod 128 = (111 - Z.of_nat q) mod 128).
  { replace (111 - Z.of_nat (128 * n + q)) with (111 - Z.of_nat q + (- Z.of_nat n) * 128) by lia.
    apply Z_mod_plus_full. }
  rewrite Hm. rewrite (app_assoc (replicate _ 0) (replicate 8 0)), <- replicate_add.
  destruct (Nat.leb_spec 112 q) as [H|H].
  - replace ((111 - Z.of_nat q) mod 128) with (239 - Z.of_nat q) by (apply Z.mod_unique_pos with (-1); lia).
    rewrite <- !app_assoc. rewrite (app_assoc (replicate _ 0) (replicate 120 0)), <- replicate_add.
    do 2 f_equal. f_equal. lia.
  - rewrite Z.mod_small by lia. rewrite <- app_assoc. do 2 f_equal. f_equal. lia.
Qed.

Lemma absorb_whole n k p q : length p = (128 * n)%nat -> length q = (128 * k)%nat ->
  absorb (length (p ++ q) / 128) sha512_iv (p ++ q) = absorb k (absorb n sha512_iv p) q.
Proof.
  intros Hp Hq. rewrite length_app, Hp, Hq. replace (128 * n + 128 * k)%nat with ((n + k) * 128)%nat by lia.
  rewrite Nat.div_mul by lia. by apply absorb_app.
Qed.

Lemma absorb_two st a b : length a = 128%nat -> length b = 128%nat ->
  absorb 2 st (a ++ b) = sha512_compress (sha512_compress st a) b.
Proof.
  intros Ha Hb. rewrite (absorb_app 1 1) by exact Ha. rewrite <- (absorb_one st a Ha). exact (absorb_one _ _ Hb).
Qed.

Lemma final_ok md m :
  holds md m -> 8 * zlen m < 2 ^ 64 -> sha512_final md = Done (0, Some (sha512_ref m)).
Proof.
  intros (n & p & q & -> & [Hp Hq Hs Hl Hc Hr Hb]) Hn. unfold sha512_final.
  assert (Hlen : u64 (md_length md + curlen md * 8) = 8 * Z.of_nat (128 * n + length q)).
  { rewrite Hl, u64_add_l, Hc. unfold zlen in *. rewrite length_app in Hn. rewrite u64_small; lia. }
  rewrite Hlen, Hc. rewrite (proj2 (Z.leb_gt 128 (zlen q))) by (unfold zlen; lia).
  destruct (buffer_more (buf md) q [128] Hr Hb ltac:(simpl; lia)) as (b & -> & Hbl & Hbt). cbn [obind curlen].
  assert (Hc1 : zlen q + 1 = zlen (q ++ [128])) by (unfold zlen; rewrite length_app; simpl; lia).
  assert (Hmd : take (length (q ++ [128])) b = q ++ [128]) by (by rewrite length_app).
  assert (Hpl : length (p ++ q) = (128 * n + length q)%nat) by (by rewrite length_app, Hp).
  unfold sha512_ref. cbv zeta. rewrite Hpl, padding_eq, <- (app_assoc p q)
    by (unfold zlen in Hn; rewrite ?length_app in Hn; lia).
  set (len := 8 * Z.of_nat (128 * n + length q)).
  destruct (Nat.leb_spec 112 (length q)) as [H|H].
  - rewrite (proj2 (Z.ltb_lt 112 (zlen q + 1))) by (unfold zlen; lia).
    destruct (pad_to_ok 128 (Md len (md_state md) (zlen q + 1) b) (q ++ [128])) as (b1 & -> & Hb1 & Ht1);
      [done|done|done|unfold zlen in *; lia|]. cbn [obind md_length md_state buf].
    destruct (pad_to_ok 120 (Md len (sha512_compress (md_state md) b1) 0 b1) []) as (b2 & -> & Hb2 & Ht2);
      [done|done|done|done|]. cbn [obind md_length md_state buf].
    rewrite (last_block b2 _ len Hb2 Ht2). cbn [obind]. rewrite store_words. do 4 f_equal.
    replace (q ++ (([128] ++ replicate (127 - length q) 0) ++ replicate 120 0) ++ be_bytes 8 len)
      with ((q ++ [128] ++ replicate (127 - length q) 0) ++ replicate 120 0 ++ be_bytes 8 len)
      by (by rewrite <- !app_assoc).
    rewrite (absorb_whole n 2) by (done || rewrite !length_app, !length_replicate, length_be_bytes; simpl; lia).
    rewrite absorb_two by (rewrite ?length_app, ?length_replicate, ?length_be_bytes; simpl; lia).
    rewrite Hs. rewrite take_ge in Ht1 by (rewrite Hb1; done). rewrite Ht1, length_app, <- !app_assoc.
    replace (Z.to_nat 128 - (length q + length [128%Z]))%nat with (127 - length q)%nat by (simpl; lia).
    reflexivity.
  - rewrite (proj2 (Z.ltb_ge 112 (zlen q + 1))) by (unfold zlen; lia). cbn [obind].
    destruct (pad_to_ok 120 (Md len (md_state md) (zlen q + 1) b) (q ++ [128])) as (b1 & -> & Hb1 & Ht1);
      [done|done|done|unfold zlen in *; lia|]. cbn [obind md_length md_state buf].
    rewrite (last_block b1 _ len Hb1 Ht1). cbn [obind]. rewrite store_words. do 4 f_equal.
    rewrite (absorb_whole n 1) by (done || rewrite !length_app, !length_replicate, length_be_bytes; simpl; lia).
    rewrite absorb_one by (rewrite ?length_app, ?length_replicate, ?length_be_bytes; simpl; lia).
    rewrite Hs, length_app, <- !app_assoc.
    replace (Z.to_nat 120 - (length q + length [128%Z]))%nat with (119 - length q)%nat by (simpl; lia).
    reflexivity.
Qed.

(** ** Digests *)

Lemma length_RND W a b c d e f g h i s : length (RND W a b c d e f g h i s) = length s.
Proof. unfold RND. cbv zeta. by rewrite !length_insert. Qed.

Lemma length_rounds8 W i s : length (rounds8 W i s) = length s.
Proof. unfold rounds8. cbv zeta. by rewrite !length_RND. Qed.

#[local] Transparent sha512_compress sha512_iv absorb.

Lemma length_compress st b : length (sha512_compress st b) = length st.
Proof.
  unfold sha512_compress. cbv zeta. rewrite length_zip_with.
  generalize (schedule 64 ((fun i : nat => LOAD64H b (8 * i)) <$> seq 0 16)). intros W.
  assert (H : forall l s, length (foldl (fun s i => rounds8 W (8 * i) s) s l) = length s).
  { induction l as [|i l IH]; intros s; [done|]. cbn [foldl]. by rewrite IH, length_rounds8. }
  rewrite H. lia.
Qed.

Lemma length_absorb n : forall st m, length (absorb n st m) = length st.
Proof.
  induction n as [|n IH]; intros st m; [done|]. cbn [absorb]. rewrite IH. apply length_compress.
Qed.

#[local] Opaque sha512_compress sha512_iv absorb.

Lemma join_be_ok (l : list Z) : bytes_ok (mjoin (be_bytes 8 <$> l)) /\ length (mjoin (be_bytes 8 <$> l)) = (8 * length l)%nat.
Proof.
  induction l as [|x l [H1 H2]]; [split; [constructor|done]|]. rewrite fmap_cons, join_cons. split.
  - apply Forall_app. split; [apply be_bytes_ok|done].
  - rewrite length_app, length_be_bytes, H2. simpl. lia.
Qed.

Lemma sha512_ref_ok m : bytes_ok (sha512_ref m) /\ length (sha512_ref m) = 64%nat.
Proof.
  unfold sha512_ref. cbv zeta. destruct (join_be_ok (absorb (length (m ++ padding (length m)) / 128) sha512_iv (m ++ padding (length m)))) as [H1 H2].
  split; [done|]. rewrite H2, length_absorb. done.
Qed.

Lemma sha512_eq ctx m :
  length (buf ctx) = 128%nat -> 8 * zlen m < 2 ^ 64 -> sha512 ctx m = Done (0, Some (sha512_ref m)).
Proof.
  intros Hb Hm. unfold sha512. destruct (update_ok _ [] m (init_holds ctx Hb)) as (md & -> & Hh).
  cbn [obind]. by apply final_ok.
Qed.

(** ** Feeding a message in pieces *)

Fixpoint update_all (md : sha512_context) (pieces : list (list Z)) : outcome (Z * sha512_context) :=
  match pieces with
  | [] => Done (0, md)
  | d :: pieces =>
      let* (ret, md) := sha512_update md d in
      if negb (ret =? 0) then Done (ret, md) else update_all md pieces
  end.

Lemma update_all_ok pieces : forall md m,
  holds md m -> exists md', update_all md pieces = Done (0, md') /\ holds md' (m ++ mjoin pieces).
Proof.
  induction pieces as [|d pieces IH]; intros md m H; cbn [update_all]; [rewrite app_nil_r; eauto|].
  destruct (update_ok md m d H) as (md' & -> & Hh). cbn [obind].
  destruct (IH md' (m ++ d) Hh) as (md'' & E & Hh'). exists md''. split; [exact E|].
  by rewrite join_cons, app_assoc.
Qed.

(** C30. The digest does not depend on how the message is cut: for every message
    of fewer than [2 ^ 64] bits and every way of feeding it to [sha512_update] in
    pieces, [sha512_final] returns the SHA-512 digest of the whole message padded
    as in FIPS 180-4; no call fails, loops or leaves the context's buffer. *)
Theorem sha512_incremental ctx pieces :
  length (buf ctx) = 128%nat -> 8 * zlen (mjoin pieces) < 2 ^ 64 ->
  exists md, update_all (sha512_init ctx) pieces = Done (0, md) /\
    sha512_final md = Done (0, Some (sha512_ref (mjoin pieces))).
Proof.
  intros Hb Hm. destruct (update_all_ok pieces _ [] (init_holds ctx Hb)) as (md & E & Hh).
  exists md. split; [exact E|]. by apply final_ok.
Qed.

(** ["abc"] in two pieces, FIPS 180-4's first example. *)
Lemma sha512_incremental_witness :
  exists md d, update_all (sha512_init (Md 0 [] 0 (replicate 128 1))) [[97]; [98; 99]] = Done (0, md) /\
    sha512_final md = Done (0, Some d) /\ take 8 d = [0xdd; 0xaf; 0x35; 0xa1; 0x93; 0x61; 0x7a; 0xba].
Proof.
  destruct (sha512_incremental (Md 0 [] 0 (replicate 128 1)) [[97]; [98; 99]]) as (md & E & F).
  - reflexivity.
  - unfold zlen. simpl. lia.
  - exists md, (sha512_ref (mjoin [[97]; [98; 99]])). split; [exact E|]. split; [exact F|].
    vm_compute. reflexivity.
Defined.
