(* ===== verification/Prf.v ===== *)
(** The pseudo-random function that expands the handshake secret
    (src/src/prf.c), on top of SHA-512.

    [ctx] is what the uninitialised hash context on the stack holds.  A [false]
    result is [None].  The reference is the same construction on digests. *)
From S2P Require Import Prelude Bytes Sha512.

Definition mdlen : Z := 64.

Section Prf.
Context (ctx : sha512_context).

Definition memxor (buf : list Z) (c len : Z) : outcome (list Z) :=
  let* _ := assert_ (negb (len =? 0)) in
  let* b := mem_read buf 0 len in
  mem_write buf 0 ((fun x => Z.lxor x c) <$> b).

(** A step that fails makes the caller return [false]. *)
Definition step (m : outcome (Z * sha512_context)) (k : sha512_context -> outcome (option (list Z)))
    : outcome (option (list Z)) :=
  let* (ret, md) := m in if negb (ret =? 0) then Done None else k md.

Definition digest (m : outcome (Z * option (list Z))) (k : list Z -> outcome (option (list Z)))
    : outcome (option (list Z)) :=
  let* (ret, d) := m in match d with Some d => if negb (ret =? 0) then Done None else k d | None => Done None end.

(** The bytes stored at [out]. *)
Definition hmac_sha512 (tmp key msg : list Z) : outcome (option (list Z)) :=
  let* _ := assert_ (negb (zlen msg =? 0)) in
  let start (k : list Z -> outcome (option (list Z))) :=
    if zlen key <=? mdlen then
      let* tmp := mem_write tmp 0 key in
      let* tmp := mem_write tmp (zlen key) (replicate (Z.to_nat (mdlen - zlen key)) 0) in
      k tmp
    else digest (sha512 ctx key) (fun d => let* tmp := mem_write tmp 0 d in k tmp) in
  start (fun tmp =>
    let md := sha512_init ctx in
    (* ipad *)
    let* tmp := memxor tmp 0x36 mdlen in
    let* head := mem_read tmp 0 mdlen in
    step (sha512_update md head) (fun md =>
    (* message *)
    step (sha512_update md msg) (fun md =>
    digest (sha512_final md) (fun d =>
    let* tmp := mem_write tmp mdlen d in
    (* opad *)
    let* tmp := memxor tmp (Z.lxor 0x36 0x5c) mdlen in
    digest (sha512 ctx tmp) (fun d => Done (Some d)))))).

(** [while(outlen > 0)]; [tmp] is the uninitialised array of [hmac_sha512]. *)
Fixpoint prf_loop (fuel : nat) (tmp data secret out : list Z) (outlen : Z) : outcome (option (list Z)) :=
  match fuel with
  | O => Stop OutOfFuel
  | S fuel =>
      if outlen <=? 0 then Done (Some out)
      else
        (* Inner HMAC *)
        let* r := hmac_sha512 tmp data secret in
        match r with
        | None => Done None
        | Some h =>
            let* data := mem_write data 0 h in
            (* Outer HMAC *)
            let* r := hmac_sha512 tmp data secret in
            match r with
            | None => Done None
            | Some h =>
                if mdlen <=? outlen then prf_loop fuel tmp data secret (out ++ h) (outlen - mdlen)
                else
                  let* part := mem_read h 0 outlen in
                  prf_loop fuel tmp data secret (out ++ part) 0
            end
        end
  end.

Definition prf (tmp secret seed : list Z) (outlen : Z) : outcome (option (list Z)) :=
  let* _ := assert_ (negb (zlen secret =? 0)) in
  let* _ := assert_ (negb (zlen seed =? 0)) in
  let* _ := assert_ (negb (outlen =? 0)) in
  let data := replicate (Z.to_nat mdlen) 0 ++ seed in
  prf_loop (S (S (Z.to_nat (outlen / mdlen)))) tmp data secret [] outlen.

End Prf.

(** ** The reference *)

Definition xor_all (c : Z) (l : list Z) : list Z := (fun x => Z.lxor x c) <$> l.

(** The HMAC construction with pads of [B] bytes. *)
Definition hmac_ref (B : nat) (key msg : list Z) : list Z :=
  let k := if decide (length key <= B)%nat then key else sha512_ref key in
  let k := k ++ replicate (B - length k) 0 in
  sha512_ref (xor_all 0x5c k ++ sha512_ref (xor_all 0x36 k ++ msg)).

(** Block [n] of the expansion, after [A(n)] was computed from [A(n - 1)]. *)
Fixpoint prf_ref (n : nat) (a secret seed : list Z) : list Z :=
  match n with
  | O => []
  | S n =>
      let a := hmac_ref 64 (a ++ seed) secret in
      hmac_ref 64 (a ++ seed) secret ++ prf_ref n a secret seed
  end.

(** ** Proofs *)

Lemma hmac_ref_ok B key msg : bytes_ok (hmac_ref B key msg) /\ length (hmac_ref B key msg) = 64%nat.
Proof. apply sha512_ref_ok. Qed.

Lemma length_prf_ref n : forall a secret seed, length (prf_ref n a secret seed) = (64 * n)%nat.
Proof.
  induction n as [|n IH]; intros a secret seed; [done|]. cbn [prf_ref].
  rewrite length_app, IH, (proj2 (hmac_ref_ok _ _ _)). lia.
Qed.

Lemma prf_ref_ok n : forall a secret seed, bytes_ok (prf_ref n a secret seed).
Proof.
  induction n as [|n IH]; intros a secret seed; [constructor|]. cbn [prf_ref].
  apply Forall_app. split; [apply hmac_ref_ok|apply IH].
Qed.

Section Proofs.
Context (ctx : sha512_context) (Hctx : length (buf ctx) = 128%nat).

Lemma memxor_ok buf c n a b :
  buf = a ++ b -> zlen a = n -> 0 < n -> memxor buf c n = Done (xor_all c a ++ b).
Proof.
  intros -> Hn Hp. unfold memxor. rewrite (proj2 (Z.eqb_neq n 0)) by lia. cbn [negb assert_ obind].
  unfold zlen in Hn. rewrite mem_read_ok by (unfold zlen; rewrite ?length_app; lia). cbn [obind].
  rewrite drop_0, take_app_exact by lia.
  rewrite mem_write_ok by (unfold zlen; rewrite ?length_fmap, ?length_app; lia). f_equal.
  rewrite length_fmap. change (Z.to_nat 0) with 0%nat. rewrite take_0. cbn [app Nat.add].
  by rewrite drop_app_exact.
Qed.

Lemma length_xor_all c l : length (xor_all c l) = length l.
Proof. apply length_fmap. Qed.

Lemma xor_all_twice l : xor_all (Z.lxor 0x36 0x5c) (xor_all 0x36 l) = xor_all 0x5c l.
Proof.
  unfold xor_all. rewrite <- list_fmap_compose. apply list_fmap_ext. intros _ x _. cbn [compose].
  rewrite Z.lxor_assoc. f_equal.
Qed.

(** The part after the key has been put into [tmp]. *)
Lemma hmac_tail k rest msg :
  length k = 64%nat -> length rest = 64%nat -> 8 * (64 + zlen msg) < 2 ^ 64 ->
  (let md := sha512_init ctx in
   let* tmp := memxor (k ++ rest) 0x36 mdlen in
   let* head := mem_read tmp 0 mdlen in
   step (sha512_update md head) (fun md =>
   step (sha512_update md msg) (fun md =>
   digest (sha512_final md) (fun d =>
   let* tmp := mem_write tmp mdlen d in
   let* tmp := memxor tmp (Z.lxor 0x36 0x5c) mdlen in
   digest (sha512 ctx tmp) (fun d => Done (Some d)))))) =
  Done (Some (sha512_ref (xor_all 0x5c k ++ sha512_ref (xor_all 0x36 k ++ msg)))).
Proof.
  intros Hk Hr Hm. cbv zeta. unfold mdlen. rewrite (memxor_ok _ 0x36 64 k rest eq_refl) by (unfold zlen; lia).
  cbn [obind]. assert (Hx : length (xor_all 0x36 k) = 64%nat) by (by rewrite length_xor_all).
  rewrite mem_read_ok by (unfold zlen; rewrite ?length_app; lia). cbn [obind].
  rewrite drop_0, take_app_exact by (rewrite Hx; done).
  destruct (update_ok _ [] (xor_all 0x36 k) (init_holds ctx Hctx)) as (md1 & -> & H1). unfold step at 1. cbn [obind negb Z.eqb].
  destruct (update_ok _ _ msg H1) as (md2 & -> & H2). unfold step. cbn [obind negb Z.eqb].
  rewrite (final_ok md2 _ H2) by (unfold zlen in *; rewrite ?length_app; simpl; lia). cbn [app].
  unfold digest at 1. cbn [obind negb Z.eqb]. set (d := sha512_ref (xor_all 0x36 k ++ msg)).
  assert (Hd : length d = 64%nat) by apply sha512_ref_ok.
  rewrite mem_write_ok by (unfold zlen; rewrite ?length_app; lia). cbn [obind].
  rewrite take_app_exact by (rewrite Hx; done). rewrite (drop_ge (_ ++ rest)) by (rewrite length_app; lia).
  rewrite app_nil_r. rewrite (memxor_ok _ _ 64 (xor_all 0x36 k) d eq_refl) by (unfold zlen; lia). cbn [obind].
  rewrite xor_all_twice. unfold digest.
  rewrite sha512_eq; [reflexivity|done|]. unfold zlen. rewrite length_app, length_xor_all. lia.
Qed.

Lemma hmac_sha512_eq tmp key msg :
  length tmp = 128%nat -> 0 < zlen msg -> 8 * (64 + zlen msg) < 2 ^ 64 -> 8 * zlen key < 2 ^ 64 ->
  hmac_sha512 ctx tmp key msg = Done (Some (hmac_ref 64 key msg)).
Proof.
  intros Ht Hm Hm' Hk. unfold hmac_sha512. rewrite (proj2 (Z.eqb_neq (zlen msg) 0)) by lia. cbn [negb assert_ obind].
  unfold hmac_ref, zlen in *. cbv zeta. unfold mdlen at 1 2. zcase.
  - rewrite decide_True by lia.
    rewrite mem_write_ok by (unfold zlen; lia). change (Z.to_nat 0) with 0%nat. rewrite take_0. cbn [app Nat.add obind].
    set (z := replicate (Z.to_nat (64 - Z.of_nat (length key))) 0).
    assert (Hz : length z = (64 - length key)%nat) by (unfold z; rewrite length_replicate; lia).
    rewrite mem_write_ok by (unfold zlen; rewrite ?length_app, ?length_drop; lia). cbn [obind].
    rewrite Nat2Z.id, take_app_exact by done. rewrite app_assoc.
    replace (replicate (64 - length key) 0) with z by (unfold z; f_equal; lia).
    apply hmac_tail; [rewrite length_app; lia| |unfold zlen; lia]. rewrite length_drop, length_app, length_drop. lia.
  - rewrite decide_False by lia. rewrite sha512_eq by done. unfold digest at 1. cbn [obind negb Z.eqb].
    destruct (sha512_ref_ok key) as [_ Hd]. rewrite Hd. rewrite mem_write_ok by (unfold zlen; lia).
    change (Z.to_nat 0) with 0%nat. rewrite take_0. cbn [app Nat.add obind]. rewrite app_nil_r.
    apply hmac_tail; [done|rewrite length_drop; lia|unfold zlen; lia].
Qed.


Section Loop.
Context (tmp secret seed : list Z) (Htmp : length tmp = 128%nat) (Hsec : 0 < zlen secret).
Context (Hsec' : 8 * (64 + zlen secret) < 2 ^ 64) (Hseed : 8 * (64 + zlen seed) < 2 ^ 64).

Lemma prf_loop_ok n : forall fuel a out outlen,
  length a = 64%nat -> (n < fuel)%nat -> 64 * (Z.of_nat n - 1) < outlen <= 64 * Z.of_nat n -> 0 <= outlen ->
  prf_loop ctx fuel tmp (a ++ seed) secret out outlen =
  Done (Some (out ++ take (Z.to_nat outlen) (prf_ref n a secret seed))).
Proof.
  induction n as [|n IH]; intros fuel a out outlen Ha Hf Ho Hp; (destruct fuel as [|fuel]; [lia|]); cbn [prf_loop].
  { rewrite (proj2 (Z.leb_le outlen 0)) by lia. replace outlen with 0 by lia. by rewrite app_nil_r. }
  rewrite (proj2 (Z.leb_gt outlen 0)) by lia.
  assert (Hk : forall b, length b = 64%nat -> hmac_sha512 ctx tmp (b ++ seed) secret = Done (Some (hmac_ref 64 (b ++ seed) secret))).
  { intros b Hb. apply hmac_sha512_eq; [done|done|done|]. unfold zlen in *. rewrite length_app. lia. }
  rewrite (Hk a Ha). cbn [obind prf_ref]. set (a' := hmac_ref 64 (a ++ seed) secret).
  assert (Ha' : length a' = 64%nat) by apply hmac_ref_ok.
  rewrite mem_write_ok by (unfold zlen; rewrite ?length_app; lia). change (Z.to_nat 0) with 0%nat.
  rewrite take_0. cbn [app Nat.add obind]. rewrite drop_app_exact by congruence.
  rewrite (Hk a' Ha'). cbn [obind]. set (h := hmac_ref 64 (a' ++ seed) secret).
  assert (Hh : length h = 64%nat) by apply hmac_ref_ok. unfold mdlen. zcase.
  - rewrite IH by (done || lia). rewrite <- app_assoc. do 3 f_equal.
    rewrite take_app_ge by lia. do 2 f_equal. lia.
  - rewrite mem_read_ok by (unfold zlen; lia). cbn [obind]. rewrite drop_0.
    assert (n = 0%nat) as -> by lia. rewrite (IH fuel a' _ 0) by (done || lia).
    rewrite take_0, app_nil_r. cbn [prf_ref]. by rewrite app_nil_r.
Qed.

Lemma prf_ok outlen : 0 < zlen seed -> 0 < outlen ->
  prf ctx tmp secret seed outlen =
  Done (Some (take (Z.to_nat outlen) (prf_ref (Z.to_nat ((outlen + 63) / 64)) (replicate 64 0) secret seed))).
Proof.
  intros Hs Ho. unfold prf.
  rewrite (proj2 (Z.eqb_neq (zlen secret) 0)), (proj2 (Z.eqb_neq (zlen seed) 0)), (proj2 (Z.eqb_neq outlen 0)) by lia.
  cbn [negb assert_ obind]. change (Z.to_nat mdlen) with 64%nat. unfold mdlen.
  pose proof (Z.div_mod (outlen + 63) 64 ltac:(lia)). pose proof (Z.mod_pos_bound (outlen + 63) 64 ltac:(lia)).
  pose proof (Z.div_mod outlen 64 ltac:(lia)). pose proof (Z.mod_pos_bound outlen 64 ltac:(lia)).
  by rewrite (prf_loop_ok (Z.to_nat ((outlen + 63) / 64))) by (done || lia).
Qed.

End Loop.
End Proofs.

(** C31. Key expansion: [prf] returns for every secret, seed and output length, and
    fills the whole output with the expansion of the reference: block [n] is the
    keyed digest of the secret under [A(n) + seed], where [A(n)] is the keyed digest
    of the secret under [A(n - 1) + seed] and [A(0)] is 64 zero bytes. *)
Theorem prf_expands ctx tmp secret seed outlen :
  length (buf ctx) = 128%nat -> length tmp = 128%nat -> 0 < zlen secret -> 0 < zlen seed -> 0 < outlen ->
  8 * (64 + zlen secret) < 2 ^ 64 -> 8 * (64 + zlen seed) < 2 ^ 64 ->
  exists out, prf ctx tmp secret seed outlen = Done (Some out) /\ zlen out = outlen /\ bytes_ok out /\
    out = take (Z.to_nat outlen) (prf_ref (Z.to_nat ((outlen + 63) / 64)) (replicate 64 0) secret seed).
Proof.
  intros Hc Ht Hs Hd Ho H1 H2. rewrite prf_ok by done. eexists. splits; [done| | |done].
  - unfold zlen. rewrite length_take, length_prf_ref.
    pose proof (Z.div_mod (outlen + 63) 64 ltac:(lia)). pose proof (Z.mod_pos_bound (outlen + 63) 64 ltac:(lia)). lia.
  - apply Forall_take, prf_ref_ok.
Qed.

Definition sim_md : sha512_context := Md 3 [] 5 (replicate 128 1).

Lemma prf_expands_witness :
  exists out, prf sim_md (replicate 128 0) [1; 2; 3] [4; 5] 100 = Done (Some out) /\ zlen out = 100 /\
    take 4 out = take 4 (hmac_ref 64 (hmac_ref 64 (replicate 64 0 ++ [4; 5]) [1; 2; 3] ++ [4; 5]) [1; 2; 3]).
Proof.
  destruct (prf_expands sim_md (replicate 128 0) [1; 2; 3] [4; 5] 100 eq_refl eq_refl
    eq_refl eq_refl eq_refl eq_refl eq_refl) as (out & E & Hl & _ & Hout).
  exists out. splits; [exact E|exact Hl|]. rewrite Hout.
  change (Z.to_nat ((100 + 63) / 64)) with 2%nat. cbn [prf_ref]. rewrite take_take, take_app_le; [reflexivity|].
  rewrite (proj2 (hmac_ref_ok _ _ _)). change (Z.to_nat 100) with 100%nat. lia.
Defined.

(** The construction is not HMAC-SHA-512: RFC 2104 pads the key to the block
    size of the hash, 128 bytes for SHA-512, and [hmac_sha512] to 64.  On the first
    test case of RFC 4231 the standard construction gives the published digest and
    the code another one. *)
Theorem hmac_pads_too_short :
  take 4 (hmac_ref 128 (replicate 20 0x0b) [72; 105; 32; 84; 104; 101; 114; 101]) = [0x87; 0xaa; 0x7c; 0xde] /\
  exists d, hmac_sha512 sim_md (replicate 128 0) (replicate 20 0x0b) [72; 105; 32; 84; 104; 101; 114; 101] = Done (Some d) /\
    d <> hmac_ref 128 (replicate 20 0x0b) [72; 105; 32; 84; 104; 101; 114; 101].
Proof.
  split; [vm_compute; reflexivity|]. eexists. split; [apply hmac_sha512_eq; reflexivity|].
  assert (E : bool_decide (hmac_ref 64 (replicate 20 0x0b) [72; 105; 32; 84; 104; 101; 114; 101] =
    hmac_ref 128 (replicate 20 0x0b) [72; 105; 32; 84; 104; 101; 114; 101]) = false) by (vm_compute; reflexivity).
  by apply bool_decide_eq_false in E.
Qed.
