(* ===== verification/Ed25519.v ===== *)
(** Keys: src/src/ed25519/ecdh.c and src/src/ed25519/ecdsa.c over the four
    operations of the ed25519 code.

    The curve code is behind the class [Ed25519]: its operations are the functions of
    ed25519.h on byte strings, its laws are what the key objects and SPTPS rely on:
    key exchange agrees, a signature made with a key pair verifies under its public
    key, and the sizes of keys, secrets and signatures.  [code_ed25519] of Ed25519Inst.v
    is the instance that the code provides. *)
From S2P Require Import Prelude Bytes.

Definition ECDH_SIZE : Z := 32.
Definition ECDH_SHARED_SIZE : Z := 32.

Class Ed25519 := {
  (** seed to (public key, private key) *)
  ed25519_create_keypair : list Z -> list Z * list Z;
  (** public key and private key to shared secret *)
  ed25519_key_exchange : list Z -> list Z -> list Z;
  (** message, public key and private key to signature *)
  ed25519_sign : list Z -> list Z -> list Z -> list Z;
  (** signature, message and public key *)
  ed25519_verify : list Z -> list Z -> list Z -> bool;
  ed25519_sizes seed :
    length (ed25519_create_keypair seed).1 = 32%nat /\ bytes_ok (ed25519_create_keypair seed).1 /\
    length (ed25519_create_keypair seed).2 = 64%nat /\ bytes_ok (ed25519_create_keypair seed).2;
  ed25519_shared_size pub priv :
    length (ed25519_key_exchange pub priv) = 32%nat /\ bytes_ok (ed25519_key_exchange pub priv);
  ed25519_sig_size msg pub priv :
    length (ed25519_sign msg pub priv) = 64%nat /\ bytes_ok (ed25519_sign msg pub priv);
  ed25519_agree a b :
    ed25519_key_exchange (ed25519_create_keypair a).1 (ed25519_create_keypair b).2 =
    ed25519_key_exchange (ed25519_create_keypair b).1 (ed25519_create_keypair a).2;
  ed25519_verifies seed msg :
    ed25519_verify (ed25519_sign msg (ed25519_create_keypair seed).1 (ed25519_create_keypair seed).2)
      msg (ed25519_create_keypair seed).1 = true;
}.

Section Keys.
Context `{Ed25519}.

(** [struct ecdh_t]. *)
Record ecdh_t := Ecdh { ecdh_private : list Z }.

(** The 32 random bytes of the seed are an argument; [xzalloc] does not fail. *)
Definition ecdh_generate_public (seed : list Z) : option (ecdh_t * list Z) :=
  let '(pubkey, priv) := ed25519_create_keypair seed in
  Some (Ecdh priv, pubkey).

(** Frees [ecdh]. *)
Definition ecdh_compute_shared (ecdh : ecdh_t) (pubkey : list Z) : option (list Z) :=
  Some (ed25519_key_exchange pubkey (ecdh_private ecdh)).

(** [ecdsa_t]. *)
Record ecdsa_t := Ecdsa { private : list Z; public : list Z }.

Definition ecdsa_set_public_key (p : list Z) : outcome ecdsa_t :=
  let* pub := mem_read p 0 32 in Done (Ecdsa (replicate 64 0) pub).

Definition ecdsa_get_public_key (ecdsa : ecdsa_t) : list Z := public ecdsa.

(** The copy is of the size of the whole struct: both members at once. *)
Definition ecdsa_set_private_key (p : list Z) : outcome ecdsa_t :=
  let* bytes := mem_read p 0 96 in Done (Ecdsa (take 64 bytes) (drop 64 bytes)).

Definition ecdsa_get_private_key (ecdsa : ecdsa_t) : list Z := private ecdsa ++ public ecdsa.

Definition ecdsa_size (ecdsa : ecdsa_t) : Z := 64.

(** The signature is [None] when the call fails. *)
Definition ecdsa_sign (ecdsa : ecdsa_t) (inp : list Z) : option (list Z) :=
  Some (ed25519_sign inp (public ecdsa) (private ecdsa)).

Definition ecdsa_verify (ecdsa : ecdsa_t) (inp sig : list Z) : bool :=
  ed25519_verify sig inp (public ecdsa).

(** [key_of seed] is the key pair made from a seed; [pub_of] has the public half only. *)
Definition key_of (seed : list Z) : ecdsa_t :=
  Ecdsa (ed25519_create_keypair seed).2 (ed25519_create_keypair seed).1.

Lemma verify_sign seed (k : ecdsa_t) msg sig :
  public k = public (key_of seed) -> ecdsa_sign (key_of seed) msg = Some sig -> ecdsa_verify k msg sig = true.
Proof. intros E [= <-]. unfold ecdsa_verify. rewrite E. apply ed25519_verifies. Qed.

Lemma shared_agree a b ea pa eb pb :
  ecdh_generate_public a = Some (ea, pa) -> ecdh_generate_public b = Some (eb, pb) ->
  ecdh_compute_shared ea pb = ecdh_compute_shared eb pa.
Proof.
  unfold ecdh_generate_public, ecdh_compute_shared.
  pose proof (ed25519_agree a b) as E.
  destruct (ed25519_create_keypair a), (ed25519_create_keypair b). intros [= <- <-] [= <- <-]. simpl in *. by rewrite E.
Qed.

Lemma generate_public_ok seed : exists e p, ecdh_generate_public seed = Some (e, p) /\ length p = 32%nat /\ bytes_ok p.
Proof.
  unfold ecdh_generate_public. pose proof (ed25519_sizes seed) as (H1 & H2 & _).
  destruct (ed25519_create_keypair seed). eauto.
Qed.

Lemma compute_shared_ok e p : exists s, ecdh_compute_shared e p = Some s /\ length s = 32%nat /\ bytes_ok s.
Proof. destruct (ed25519_shared_size p (ecdh_private e)). by eexists. Qed.

Lemma sign_ok k msg : exists s, ecdsa_sign k msg = Some s /\ length s = 64%nat /\ bytes_ok s.
Proof. destruct (ed25519_sig_size msg (public k) (private k)). by eexists. Qed.

End Keys.

(** An instance of the interface: Diffie-Hellman with exclusive or in place of the
    curve.  It has no strength; it shows that the laws can hold together. *)
Module Toy.

Definition pad (l : list Z) : list Z := u8 <$> take 32 (l ++ replicate 32 0).

Lemma pad_ok l : length (pad l) = 32%nat /\ bytes_ok (pad l).
Proof.
  unfold pad. split; [rewrite length_fmap, length_take, length_app, length_replicate; lia|].
  apply Forall_forall. intros x (y & -> & _)%list_elem_of_fmap. apply Z.mod_pos_bound. lia.
Qed.

Lemma u8_all l : bytes_ok l -> u8 <$> l = l.
Proof. induction 1 as [|x l Hx Hl IH]; [done|]. cbn [fmap list_fmap]. f_equal; [apply Z.mod_small; lia|done]. Qed.

Lemma pad_app l k : length l = 32%nat -> pad (l ++ k) = pad l.
Proof. intros H. unfold pad. rewrite <- app_assoc, !take_app_exact by done. done. Qed.

Lemma pad_pad l : pad (pad l) = pad l.
Proof.
  destruct (pad_ok l) as [Hl Hb]. unfold pad at 1. rewrite take_app_exact by done. by apply u8_all.
Qed.

#[refine] Instance toy_ed25519 : Ed25519 := {|
  ed25519_create_keypair seed := (pad seed, pad seed ++ pad seed);
  ed25519_key_exchange pub priv := pad (xor_bytes (pad pub) (pad priv));
  ed25519_sign msg pub priv := pad msg ++ pad pub;
  ed25519_verify sig msg pub := bool_decide (sig = pad msg ++ pad pub);
|}.
Proof.
  - intros seed. destruct (pad_ok seed). cbn. splits; [done|done|rewrite length_app; lia|by apply Forall_app].
  - intros pub priv. apply pad_ok.
  - intros msg pub priv. destruct (pad_ok msg), (pad_ok pub). split; [rewrite length_app; lia|by apply Forall_app].
  - intros a b. cbn [fst snd]. rewrite !pad_app by apply pad_ok.
    rewrite !pad_pad. f_equal. apply xor_bytes_comm.
  - intros seed msg. cbn. by apply bool_decide_true.
Defined.

End Toy.
