(* ===== verification/Sptps.v ===== *)
(** SPTPS, the Simple Peer-to-Peer Security protocol (src/src/sptps.c, sptps.h).

    A session is the C struct, with the objects its pointers own; a NULL pointer
    is [None] or an empty object.  A call runs in a [world]: the session, what it
    has handed to [send_data] and [receive_record], and errno.  What the code gets
    from outside (the allocator, random bytes, the answers of the two callbacks and
    the records an application sends from inside [receive_record]) comes from an
    environment, one answer per request.  Every copy is checked against the object
    it reads or writes. *)
From S2P Require Import Prelude Bytes Aead Sha512 Prf Ed25519.

Definition SPTPS_VERSION : Z := 0.
(** Record types *)
Definition SPTPS_HANDSHAKE : Z := 128.
Definition SPTPS_ALERT : Z := 129.
Definition SPTPS_CLOSE : Z := 130.
(** Key exchange states *)
Definition SPTPS_KEX : Z := 1.
Definition SPTPS_SECONDARY_KEX : Z := 2.
Definition SPTPS_SIG : Z := 3.
Definition SPTPS_ACK : Z := 4.
(** Packet header sizes *)
Definition SPTPS_OVERHEAD : Z := 19.
Definition SPTPS_DATAGRAM_OVERHEAD : Z := 21.
Definition KEYLEN : Z := 64.

Definition EIO : Z := 5.
Definition ENOMEM : Z := 12.
Definition EINVAL : Z := 22.

(** What one call of [receive_record] does: the records it sends on the session,
    and its result. *)
Record app_answer := App { app_sends : list (Z * list Z); app_ok : bool }.

Record env := Env {
  e_alloc : nat -> alloc;
  e_rand : nat -> list Z;
  e_send : nat -> bool;
  e_app : nat -> app_answer;
  e_md : sha512_context;
  e_tmp : list Z;
}.

Section Sptps.
Context {A : Aead} {C : Ed25519}.

(** [struct sptps]; the handle and the callbacks are the environment's. *)
Record sptps_t := Sptps {
  s_initiator : bool;
  s_datagram : bool;
  s_instate : bool;
  s_outstate : bool;
  s_state : Z;
  s_inbuf : list Z;
  s_buflen : Z;
  s_incipher : option aead_ctx;
  s_replaywin : Z;
  s_inseqno : Z;
  s_received : Z;
  s_reclen : Z;
  s_outcipher : option aead_ctx;
  s_outseqno : Z;
  s_late : list Z;
  s_decrypted_buffer : list Z;
  s_decrypted_buffer_len : Z;
  s_mykey : option ecdsa_t;
  s_hiskey : option ecdsa_t;
  s_ecdh : option ecdh_t;
  s_mykex : option (list Z);
  s_hiskex : option (list Z);
  s_key : option (list Z);
  s_label : list Z;
}.

Definition set_instate (v : bool) (s : sptps_t) : sptps_t :=
  Sptps (s_initiator s) (s_datagram s) v (s_outstate s) (s_state s) (s_inbuf s) (s_buflen s) (s_incipher s)
    (s_replaywin s) (s_inseqno s) (s_received s) (s_reclen s) (s_outcipher s) (s_outseqno s) (s_late s)
    (s_decrypted_buffer s) (s_decrypted_buffer_len s) (s_mykey s) (s_hiskey s) (s_ecdh s) (s_mykex s)
    (s_hiskex s) (s_key s) (s_label s).
Definition set_outstate (v : bool) (s : sptps_t) : sptps_t :=
  Sptps (s_initiator s) (s_datagram s) (s_instate s) v (s_state s) (s_inbuf s) (s_buflen s) (s_incipher s)
    (s_replaywin s) (s_inseqno s) (s_received s) (s_reclen s) (s_outcipher s) (s_outseqno s) (s_late s)
    (s_decrypted_buffer s) (s_decrypted_buffer_len s) (s_mykey s) (s_hiskey s) (s_ecdh s) (s_mykex s)
    (s_hiskex s) (s_key s) (s_label s).
Definition set_state (v : Z) (s : sptps_t) : sptps_t :=
  Sptps (s_initiator s) (s_datagram s) (s_instate s) (s_outstate s) v (s_inbuf s) (s_buflen s) (s_incipher s)
    (s_replaywin s) (s_inseqno s) (s_received s) (s_reclen s) (s_outcipher s) (s_outseqno s) (s_late s)
    (s_decrypted_buffer s) (s_decrypted_buffer_len s) (s_mykey s) (s_hiskey s) (s_ecdh s) (s_mykex s)
    (s_hiskex s) (s_key s) (s_label s).
Definition set_inbuf (v : list Z) (s : sptps_t) : sptps_t :=
  Sptps (s_initiator s) (s_datagram s) (s_instate s) (s_outstate s) (s_state s) v (s_buflen s) (s_incipher s)
    (s_replaywin s) (s_inseqno s) (s_received s) (s_reclen s) (s_outcipher s) (s_outseqno s) (s_late s)
    (s_decrypted_buffer s) (s_decrypted_buffer_len s) (s_mykey s) (s_hiskey s) (s_ecdh s) (s_mykex s)
    (s_hiskex s) (s_key s) (s_label s).
Definition set_buflen (v : Z) (s : sptps_t) : sptps_t :=
  Sptps (s_initiator s) (s_datagram s) (s_instate s) (s_outstate s) (s_state s) (s_inbuf s) v (s_incipher s)
    (s_replaywin s) (s_inseqno s) (s_received s) (s_reclen s) (s_outcipher s) (s_outseqno s) (s_late s)
    (s_decrypted_buffer s) (s_decrypted_buffer_len s) (s_mykey s) (s_hiskey s) (s_ecdh s) (s_mykex s)
    (s_hiskex s) (s_key s) (s_label s).
Definition set_incipher (v : option aead_ctx) (s : sptps_t) : sptps_t :=
  Sptps (s_initiator s) (s_datagram s) (s_instate s) (s_outstate s) (s_state s) (s_inbuf s) (s_buflen s) v
    (s_replaywin s) (s_inseqno s) (s_received s) (s_reclen s) (s_outcipher s) (s_outseqno s) (s_late s)
    (s_decrypted_buffer s) (s_decrypted_buffer_len s) (s_mykey s) (s_hiskey s) (s_ecdh s) (s_mykex s)
    (s_hiskex s) (s_key s) (s_label s).
Definition set_inseqno (v : Z) (s : sptps_t) : sptps_t :=
  Sptps (s_initiator s) (s_datagram s) (s_instate s) (s_outstate s) (s_state s) (s_inbuf s) (s_buflen s)
    (s_incipher s) (s_replaywin s) v (s_received s) (s_reclen s) (s_outcipher s) (s_outseqno s) (s_late s)
    (s_decrypted_buffer s) (s_decrypted_buffer_len s) (s_mykey s) (s_hiskey s) (s_ecdh s) (s_mykex s)
    (s_hiskex s) (s_key s) (s_label s).
Definition set_received (v : Z) (s : sptps_t) : sptps_t :=
  Sptps (s_initiator s) (s_datagram s) (s_instate s) (s_outstate s) (s_state s) (s_inbuf s) (s_buflen s)
    (s_incipher s) (s_replaywin s) (s_inseqno s) v (s_reclen s) (s_outcipher s) (s_outseqno s) (s_late s)
    (s_decrypted_buffer s) (s_decrypted_buffer_len s) (s_mykey s) (s_hiskey s) (s_ecdh s) (s_mykex s)
    (s_hiskex s) (s_key s) (s_label s).
Definition set_reclen (v : Z) (s : sptps_t) : sptps_t :=
  Sptps (s_initiator s) (s_datagram s) (s_instate s) (s_outstate s) (s_state s) (s_inbuf s) (s_buflen s)
    (s_incipher s) (s_replaywin s) (s_inseqno s) (s_received s) v (s_outcipher s) (s_outseqno s) (s_late s)
    (s_decrypted_buffer s) (s_decrypted_buffer_len s) (s_mykey s) (s_hiskey s) (s_ecdh s) (s_mykex s)
    (s_hiskex s) (s_key s) (s_label s).
Definition set_outcipher (v : option aead_ctx) (s : sptps_t) : sptps_t :=
  Sptps (s_initiator s) (s_datagram s) (s_instate s) (s_outstate s) (s_state s) (s_inbuf s) (s_buflen s)
    (s_incipher s) (s_replaywin s) (s_inseqno s) (s_received s) (s_reclen s) v (s_outseqno s) (s_late s)
    (s_decrypted_buffer s) (s_decrypted_buffer_len s) (s_mykey s) (s_hiskey s) (s_ecdh s) (s_mykex s)
    (s_hiskex s) (s_key s) (s_label s).
Definition set_outseqno (v : Z) (s : sptps_t) : sptps_t :=
  Sptps (s_initiator s) (s_datagram s) (s_instate s) (s_outstate s) (s_state s) (s_inbuf s) (s_buflen s)
    (s_incipher s) (s_replaywin s) (s_inseqno s) (s_received s) (s_reclen s) (s_outcipher s) v (s_late s)
    (s_decrypted_buffer s) (s_decrypted_buffer_len s) (s_mykey s) (s_hiskey s) (s_ecdh s) (s_mykex s)
    (s_hiskex s) (s_key s) (s_label s).
Definition set_late (v : list Z) (s : sptps_t) : sptps_t :=
  Sptps (s_initiator s) (s_datagram s) (s_instate s) (s_outstate s) (s_state s) (s_inbuf s) (s_buflen s)
    (s_incipher s) (s_replaywin s) (s_inseqno s) (s_received s) (s_reclen s) (s_outcipher s) (s_outseqno s) v
    (s_decrypted_buffer s) (s_decrypted_buffer_len s) (s_mykey s) (s_hiskey s) (s_ecdh s) (s_mykex s)
    (s_hiskex s) (s_key s) (s_label s).
Definition set_decrypted_buffer (v : list Z) (s : sptps_t) : sptps_t :=
  Sptps (s_initiator s) (s_datagram s) (s_instate s) (s_outstate s) (s_state s) (s_inbuf s) (s_buflen s)
    (s_incipher s) (s_replaywin s) (s_inseqno s) (s_received s) (s_reclen s) (s_outcipher s) (s_outseqno s)
    (s_late s) v (s_decrypted_buffer_len s) (s_mykey s) (s_hiskey s) (s_ecdh s) (s_mykex s) (s_hiskex s)
    (s_key s) (s_label s).
Definition set_decrypted_buffer_len (v : Z) (s : sptps_t) : sptps_t :=
  Sptps (s_initiator s) (s_datagram s) (s_instate s) (s_outstate s) (s_state s) (s_inbuf s) (s_buflen s)
    (s_incipher s) (s_replaywin s) (s_inseqno s) (s_received s) (s_reclen s) (s_outcipher s) (s_outseqno s)
    (s_late s) (s_decrypted_buffer s) v (s_mykey s) (s_hiskey s) (s_ecdh s) (s_mykex s) (s_hiskex s) (s_key s)
    (s_label s).
Definition set_ecdh (v : option ecdh_t) (s : sptps_t) : sptps_t :=
  Sptps (s_initiator s) (s_datagram s) (s_instate s) (s_outstate s) (s_state s) (s_inbuf s) (s_buflen s)
    (s_incipher s) (s_replaywin s) (s_inseqno s) (s_received s) (s_reclen s) (s_outcipher s) (s_outseqno s)
    (s_late s) (s_decrypted_buffer s) (s_decrypted_buffer_len s) (s_mykey s) (s_hiskey s) v (s_mykex s)
    (s_hiskex s) (s_key s) (s_label s).
Definition set_mykex (v : option (list Z)) (s : sptps_t) : sptps_t :=
  Sptps (s_initiator s) (s_datagram s) (s_instate s) (s_outstate s) (s_state s) (s_inbuf s) (s_buflen s)
    (s_incipher s) (s_replaywin s) (s_inseqno s) (s_received s) (s_reclen s) (s_outcipher s) (s_outseqno s)
    (s_late s) (s_decrypted_buffer s) (s_decrypted_buffer_len s) (s_mykey s) (s_hiskey s) (s_ecdh s) v
    (s_hiskex s) (s_key s) (s_label s).
Definition set_hiskex (v : option (list Z)) (s : sptps_t) : sptps_t :=
  Sptps (s_initiator s) (s_datagram s) (s_instate s) (s_outstate s) (s_state s) (s_inbuf s) (s_buflen s)
    (s_incipher s) (s_replaywin s) (s_inseqno s) (s_received s) (s_reclen s) (s_outcipher s) (s_outseqno s)
    (s_late s) (s_decrypted_buffer s) (s_decrypted_buffer_len s) (s_mykey s) (s_hiskey s) (s_ecdh s)
    (s_mykex s) v (s_key s) (s_label s).
Definition set_key (v : option (list Z)) (s : sptps_t) : sptps_t :=
  Sptps (s_initiator s) (s_datagram s) (s_instate s) (s_outstate s) (s_state s) (s_inbuf s) (s_buflen s)
    (s_incipher s) (s_replaywin s) (s_inseqno s) (s_received s) (s_reclen s) (s_outcipher s) (s_outseqno s)
    (s_late s) (s_decrypted_buffer s) (s_decrypted_buffer_len s) (s_mykey s) (s_hiskey s) (s_ecdh s)
    (s_mykex s) (s_hiskex s) v (s_label s).

Record world := World {
  w_s : sptps_t;
  w_now : nat;
  w_sent : list (Z * list Z);
  w_got : list (Z * list Z);
  w_errno : Z;
}.

Context (E : env).

Definition M (X : Type) : Type := world -> outcome (X * world).
Definition ret {X} (x : X) : M X := fun w => Done (x, w).
Definition bind {X Y} (m : M X) (k : X -> M Y) : M Y :=
  fun w => let* (x, w) := m w in k x w.
Definition lift {X} (m : outcome X) : M X := fun w => let* x := m in Done (x, w).
Definition gets {X} (f : sptps_t -> X) : M X := fun w => Done (f (w_s w), w).
Definition puts (f : sptps_t -> sptps_t) : M unit :=
  fun w => Done (tt, World (f (w_s w)) (w_now w) (w_sent w) (w_got w) (w_errno w)).
(** One request to the environment. *)
Definition ask {X} (f : env -> nat -> X) : M X :=
  fun w => Done (f E (w_now w), World (w_s w) (S (w_now w)) (w_sent w) (w_got w) (w_errno w)).

Notation "'let!' x ':=' m 'in' k" := (bind m (fun x => k))
  (at level 10, x pattern, m at level 100, k at level 200,
   format "'[v' 'let!'  x  ':='  m  'in' '/' k ']'") : c_scope.
Notation "m ;;; k" := (bind m (fun _ => k)) (at level 100, k at level 200, right associativity) : c_scope.

(** Following a pointer. *)
Definition deref {X} (p : option X) : M X :=
  match p with Some x => ret x | None => lift (Stop OutOfBounds) end.

(** Log an error message, set errno, return false. *)
Definition error (e : Z) : M bool :=
  fun w => Done (false, World (w_s w) (w_now w) (w_sent w) (w_got w) e).

Definition send_data (type : Z) (data : list Z) : M bool :=
  (fun w => Done (tt, World (w_s w) (w_now w) (w_sent w ++ [(type, data)]) (w_got w) (w_errno w))) ;;;
  ask e_send.

(** [chacha_poly1305_encrypt(s->outcipher, seqno, m)] in place. *)
Definition encrypt_out (seqno : Z) (m : list Z) : M (list Z) :=
  let! o := gets s_outcipher in
  let! c := deref o in
  let! (c, d) := lift (aead_encrypt c seqno m) in
  puts (set_outcipher (Some c)) ;;;
  ret d.

(** [chacha_poly1305_decrypt(s->incipher, seqno, d)]. *)
Definition decrypt_in (seqno : Z) (d : list Z) : M (option (list Z)) :=
  let! o := gets s_incipher in
  let! c := deref o in
  let! (c, r) := lift (aead_decrypt c seqno d) in
  puts (set_incipher (Some c)) ;;;
  ret r.

(** Send a record (datagram version, accepts all record types, handles encryption and authentication). *)
Definition send_record_priv_datagram (type : Z) (data : list Z) : M bool :=
  let! seqno := gets s_outseqno in
  puts (set_outseqno (u32 (seqno + 1))) ;;;
  let netseqno := be_bytes 4 seqno in
  let! outstate := gets s_outstate in
  if (outstate : bool) then
    let! d := encrypt_out seqno (type :: data) in
    send_data type (netseqno ++ d)
  else send_data type (netseqno ++ type :: data).

(** Send a record (private version, accepts all record types, handles encryption and authentication). *)
Definition send_record_priv (type : Z) (data : list Z) : M bool :=
  let! datagram := gets s_datagram in
  if (datagram : bool) then send_record_priv_datagram type data
  else
    let! seqno := gets s_outseqno in
    puts (set_outseqno (u32 (seqno + 1))) ;;;
    let netlen := be_bytes 2 (zlen data) in
    let! outstate := gets s_outstate in
    if (outstate : bool) then
      let! d := encrypt_out seqno (type :: data) in
      send_data type (netlen ++ d)
    else send_data type (netlen ++ type :: data).

(** Send an application record. *)
Definition sptps_send_record (type : Z) (data : list Z) : M bool :=
  let! outstate := gets s_outstate in
  if negb outstate then error EINVAL
  else if SPTPS_HANDSHAKE <=? type then error EINVAL
  else send_record_priv type data.

(** The [receive_record] callback; the application may send records from it. *)
Fixpoint app_send (l : list (Z * list Z)) : M unit :=
  match l with
  | [] => ret tt
  | (type, data) :: l => sptps_send_record type data ;;; app_send l
  end.

Definition receive_record (type : Z) (data : list Z) : M bool :=
  (fun w => Done (tt, World (w_s w) (w_now w) (w_sent w) (w_got w ++ [(type, data)]) (w_errno w))) ;;;
  let! a := ask e_app in
  app_send (app_sends a) ;;;
  ret (app_ok a).

(** Send a Key EXchange record, containing a random nonce and an ECDHE public key. *)
Definition send_kex : M bool :=
  let! mykex := gets s_mykex in
  if bool_decide (is_Some mykex) then ret false
  else
    let! al := ask e_alloc in
    if negb (a_ok al) then error ENOMEM
    else
      let m := mem_fresh al 0 (1 + 32 + ECDH_SIZE) in
      let! m := lift (mem_write m 0 [SPTPS_VERSION]) in
      let! nonce := ask e_rand in
      let! m := lift (mem_write m 1 nonce) in
      puts (set_mykex (Some m)) ;;;
      let! seed := ask e_rand in
      match ecdh_generate_public seed with
      | None => error EINVAL
      | Some (e, pub) =>
          let! m := lift (mem_write m (1 + 32) pub) in
          puts (fun s => set_ecdh (Some e) (set_mykex (Some m) s)) ;;;
          send_record_priv SPTPS_HANDSHAKE m
      end.

(** Both KEX messages, plus a tag indicating if it is from the connection
    originator, plus the label. *)
Definition sig_message (tag : bool) (first second label : list Z) : outcome (list Z) :=
  let* a := mem_read first 0 (1 + 32 + ECDH_SIZE) in
  let* b := mem_read second 0 (1 + 32 + ECDH_SIZE) in
  Done ([if tag then 1 else 0] ++ a ++ b ++ label).

(** Send a SIGnature record, containing an ECDSA signature over both KEX records. *)
Definition send_sig : M bool :=
  let! s := gets id in
  let! mykey := deref (s_mykey s) in
  let! mykex := deref (s_mykex s) in
  let! hiskex := deref (s_hiskex s) in
  let! msg := lift (sig_message (s_initiator s) mykex hiskex (s_label s)) in
  match ecdsa_sign mykey msg with
  | None => error EINVAL
  | Some sig => send_record_priv SPTPS_HANDSHAKE sig
  end.

(** ["key expansion"] *)
Definition key_expansion : list Z := [107; 101; 121; 32; 101; 120; 112; 97; 110; 115; 105; 111; 110].

(** Generate key material from the shared secret created from the ECDHE key exchange. *)
Definition generate_key_material (shared : list Z) : M bool :=
  let! s := gets id in
  (if negb (s_outstate s) then
     puts (fun s => set_outcipher (Some aead_init) (set_incipher (Some aead_init) s))
   else ret tt) ;;;
  let! al := ask e_alloc in
  if negb (a_ok al) then puts (set_key None) ;;; error ENOMEM
  else
    let! mykex := deref (s_mykex s) in
    let! hiskex := deref (s_hiskex s) in
    let! mine := lift (mem_read mykex 1 32) in
    let! his := lift (mem_read hiskex 1 32) in
    let seed := key_expansion ++ (if s_initiator s then mine ++ his else his ++ mine) ++ s_label s in
    let! r := lift (prf (e_md E) (e_tmp E) shared seed (2 * KEYLEN)) in
    match r with
    | None => puts (set_key (Some (mem_fresh al 0 (2 * KEYLEN)))) ;;; error EINVAL
    | Some k => puts (set_key (Some k)) ;;; ret true
    end.

(** Send an ACKnowledgement record. *)
Definition send_ack : M bool := send_record_priv SPTPS_HANDSHAKE [].

(** [chacha_poly1305_set_key] on one of the two halves of the key material. *)
Definition half_key (k : list Z) (second : bool) : outcome (list Z) :=
  mem_read k (if second then KEYLEN else 0) KEYLEN.

(** Receive an ACKnowledgement record. *)
Definition receive_ack (len : Z) : M bool :=
  if negb (len =? 0) then error EIO
  else
    let! s := gets id in
    let! c := deref (s_incipher s) in
    let! key := deref (s_key s) in
    let! k := lift (half_key key (negb (s_initiator s))) in
    puts (set_incipher (Some (aead_set_key c k))) ;;;
    puts (fun s => set_instate true (set_key None s)) ;;;
    ret true.

(** Receive a Key EXchange record, respond by sending a SIG record. *)
Definition receive_kex (data : list Z) (len : Z) : M bool :=
  if negb (len =? 1 + 32 + ECDH_SIZE) then error EIO
  else
    let! hiskex := gets s_hiskex in
    if bool_decide (is_Some hiskex) then error EINVAL
    else
      let! al := ask e_alloc in
      if negb (a_ok al) then error ENOMEM
      else
        let! m := lift (mem_read data 0 len) in
        puts (set_hiskex (Some m)) ;;;
        send_sig.

(** Receive a SIGnature record, verify it, if it passed, compute the shared
    secret and calculate the session keys. *)
Definition receive_sig (data : list Z) (len : Z) : M bool :=
  let! s := gets id in
  let! hiskey := deref (s_hiskey s) in
  if negb (len =? ecdsa_size hiskey) then error EIO
  else
    let! hiskex := deref (s_hiskex s) in
    let! mykex := deref (s_mykex s) in
    let! msg := lift (sig_message (negb (s_initiator s)) hiskex mykex (s_label s)) in
    let! sig := lift (mem_read data 0 len) in
    if negb (ecdsa_verify hiskey msg sig) then error EIO
    else
      let! ecdh := deref (s_ecdh s) in
      let! pub := lift (mem_read hiskex (1 + 32) ECDH_SIZE) in
      match ecdh_compute_shared ecdh pub with
      | None => error EINVAL
      | Some shared =>
          puts (set_ecdh None) ;;;
          let! ok := generate_key_material shared in
          if negb ok then ret false
          else
            puts (fun s => set_hiskex None (set_mykex None s)) ;;;
            let! ok := (if s_outstate s then send_ack else ret true) in
            if negb ok then ret false
            else
              let! s := gets id in
              let! c := deref (s_outcipher s) in
              let! key := deref (s_key s) in
              let! k := lift (half_key key (s_initiator s)) in
              puts (set_outcipher (Some (aead_set_key c k))) ;;;
              ret true
      end.

(** Force another Key EXchange (for testing purposes). *)
Definition sptps_force_kex : M bool :=
  let! s := gets id in
  if negb (s_outstate s) then error EINVAL
  else if negb (s_state s =? SPTPS_SECONDARY_KEX) then ret true
  else
    puts (set_state SPTPS_KEX) ;;;
    send_kex.

(** The case [SPTPS_KEX] of [receive_handshake]. *)
Definition handshake_kex (data : list Z) (len : Z) : M bool :=
  let! ok := receive_kex data len in
  if negb ok then ret false
  else
    puts (set_state SPTPS_SIG) ;;;
    ret true.

Definition handshake_done : M bool :=
  receive_record SPTPS_HANDSHAKE [] ;;;
  puts (set_state SPTPS_SECONDARY_KEX) ;;;
  ret true.

(** Receive a handshake record. *)
Definition receive_handshake (data : list Z) (len : Z) : M bool :=
  let! state := gets s_state in
  if state =? SPTPS_SECONDARY_KEX then
    let! ok := send_kex in
    if negb ok then ret false else handshake_kex data len
  else if state =? SPTPS_KEX then handshake_kex data len
  else if state =? SPTPS_SIG then
    let! ok := receive_sig data len in
    if negb ok then ret false
    else
      let! outstate := gets s_outstate in
      if (outstate : bool) then puts (set_state SPTPS_ACK) ;;; ret true
      else
        puts (set_outstate true) ;;;
        let! ok := receive_ack 0 in
        if negb ok then ret false else handshake_done
  else if state =? SPTPS_ACK then
    let! ok := receive_ack len in
    if negb ok then ret false else handshake_done
  else error EIO.

(** Check datagram for valid HMAC *)
Definition sptps_verify_datagram (data : list Z) : M bool :=
  let! instate := gets s_instate in
  if negb instate then error EIO
  else if zlen data <? SPTPS_DATAGRAM_OVERHEAD then error EIO
  else
    let seqno := be_val (take 4 data) in
    let! o := gets s_incipher in
    let! c := deref o in
    let! (c, b) := lift (aead_verify c seqno (drop 4 data)) in
    puts (set_incipher (Some c)) ;;;
    ret b.

(** Bit [n % 8] of byte [(n / 8) % replaywin] of the replay bitmap. *)
Definition late_index (win n : Z) : nat := Z.to_nat ((n / 8) mod win).

Definition late_bit (late : list Z) (win n : Z) : outcome bool :=
  match late !! late_index win n with
  | Some b => Done (bitset b (Z.shiftl 1 (n mod 8)))
  | None => Stop OutOfBounds
  end.

Definition late_update (f : Z -> Z) (late : list Z) (win n : Z) : outcome (list Z) :=
  match late !! late_index win n with
  | Some b => Done (<[late_index win n := f b]> late)
  | None => Stop OutOfBounds
  end.

Definition late_set (late : list Z) (win n : Z) : outcome (list Z) :=
  late_update (fun b => u8 (Z.lor b (Z.shiftl 1 (n mod 8)))) late win n.

Definition late_clear (late : list Z) (win n : Z) : outcome (list Z) :=
  late_update (fun b => u8 (Z.land b (Z.lnot (Z.shiftl 1 (n mod 8))))) late win n.

(** [for(uint32_t i = s->inseqno; i < seqno; i++)]: mark as late. *)
Fixpoint late_mark (late : list Z) (win : Z) (l : list Z) : outcome (list Z) :=
  match l with
  | [] => Done late
  | i :: l => let* late := late_set late win i in late_mark late win l
  end.

(** Replay protection using a sliding window: the new bitmap, or [None] when the
    packet is to be dropped. *)
Definition replay_check (win inseqno : Z) (late : list Z) (seqno : Z) : outcome (option (list Z)) :=
  if win =? 0 then Done (Some late)
  else
    let* r :=
      if seqno =? inseqno then Done (Some late)
      else if u32 (inseqno + u32 (win * 8)) <=? seqno then Done (Some (replicate (Z.to_nat win) 255))
      else if seqno <? inseqno then
        if (u32 (win * 8) <=? inseqno) && (seqno <? u32 (inseqno - u32 (win * 8))) then Done None
        else
          let* b := late_bit late win seqno in
          Done (if (b : bool) then Some late else None)
      else
        let* late := late_mark late win (seqZ inseqno (seqno - inseqno)) in
        Done (Some late) in
    match r with
    | None => Done None
    | Some late => let* late := late_clear late win seqno in Done (Some late)
    end.

(** The part of [sptps_receive_data_datagram] after decryption: [len] is the
    length of the datagram. *)
Definition datagram_record (len : Z) : M bool :=
  let! buf := gets s_decrypted_buffer in
  (* Append a NULL byte for safety. *)
  let! buf := lift (mem_write buf (len - 20) [0]) in
  puts (set_decrypted_buffer buf) ;;;
  let! t := lift (mem_read buf 0 1) in
  let type := default 0 (head t) in
  let reclen := u16 (len - SPTPS_DATAGRAM_OVERHEAD) in
  if type <? SPTPS_HANDSHAKE then
    let! instate := gets s_instate in
    if negb instate then error EIO
    else
      let! data := lift (mem_read buf 1 reclen) in
      let! ok := receive_record type data in
      if negb ok then lift (Stop AbortCalled) else ret true
  else if type =? SPTPS_HANDSHAKE then
    let! ok := receive_handshake (drop 1 buf) reclen in
    if negb ok then lift (Stop AbortCalled) else ret true
  else error EIO.

(** "Decrypt": grow the buffer once if the datagram is longer than it. *)
Definition grow_decrypted (len : Z) : M bool :=
  let! s := gets id in
  if s_decrypted_buffer_len s <? len then
    let newlen := u64 (s_decrypted_buffer_len s * 2) in
    puts (set_decrypted_buffer_len newlen) ;;;
    let! al := ask e_alloc in
    if negb (a_ok al) then error ENOMEM
    else
      puts (set_decrypted_buffer (mem_realloc al (s_decrypted_buffer s) newlen)) ;;;
      ret true
  else ret true.

(** Receive incoming data, datagram version. *)
Definition sptps_receive_data_datagram (data : list Z) : M bool :=
  let! instate := gets s_instate in
  let len := zlen data in
  if len <? (if instate then SPTPS_DATAGRAM_OVERHEAD else 5) then error EIO
  else
    let seqno := be_val (take 4 data) in
    let! inseqno := gets s_inseqno in
    if negb instate then
      if negb (seqno =? inseqno) then error EIO
      else
        puts (set_inseqno (u32 (seqno + 1))) ;;;
        let type := default 0 (data !! 4%nat) in
        if negb (type =? SPTPS_HANDSHAKE) then error EIO
        else receive_handshake (drop 5 data) (u16 (len - 5))
    else
      let! ok := grow_decrypted len in
      if negb ok then ret false
      else
        let! r := decrypt_in seqno (drop 4 data) in
        match r with
        | None => error EIO
        | Some p =>
            let! buf := gets s_decrypted_buffer in
            let! buf := lift (mem_write buf 0 p) in
            puts (set_decrypted_buffer buf) ;;;
            let! s := gets id in
            let! r := lift (replay_check (s_replaywin s) (s_inseqno s) (s_late s) seqno) in
            match r with
            | None => error EIO
            | Some late =>
                puts (set_late late) ;;;
                (if s_inseqno s <=? seqno then puts (set_inseqno (u32 (seqno + 1))) else ret tt) ;;;
                puts (fun s => if s_inseqno s =? 0 then set_received 0 s else set_received (u32 (s_received s + 1)) s) ;;;
                datagram_record len
            end
        end.

(** How many bytes a record takes in [inbuf]. *)
Definition record_size (s : sptps_t) : Z :=
  s_reclen s + (if s_instate s then SPTPS_OVERHEAD else 3).

(** Check HMAC and decrypt. *)
Definition stream_decrypt (seqno : Z) : M bool :=
  let! s := gets id in
  if s_instate s then
    let! d := lift (mem_read (s_inbuf s) 2 (s_reclen s + 17)) in
    let! r := decrypt_in seqno d in
    match r with
    | None => error EINVAL
    | Some p =>
        let! buf := lift (mem_write (s_inbuf s) 2 p) in
        puts (set_inbuf buf) ;;; ret true
    end
  else ret true.

(** Handle a decrypted record. *)
Definition stream_handle : M bool :=
  let! s := gets id in
  (* Append a NULL byte for safety. *)
  let! buf := lift (mem_write (s_inbuf s) (s_reclen s + 3) [0]) in
  puts (set_inbuf buf) ;;;
  let! t := lift (mem_read buf 2 1) in
  let type := default 0 (head t) in
  if type <? SPTPS_HANDSHAKE then
    if negb (s_instate s) then error EIO
    else
      let! data := lift (mem_read buf 3 (s_reclen s)) in
      receive_record type data
  else if type =? SPTPS_HANDSHAKE then receive_handshake (drop 3 buf) (s_reclen s)
  else error EIO.

(** A complete record is in [inbuf]. *)
Definition stream_record : M bool :=
  (* Update sequence number. *)
  let! seqno := gets s_inseqno in
  puts (set_inseqno (u32 (seqno + 1))) ;;;
  let! ok := stream_decrypt seqno in
  if negb ok then ret false
  else
    let! ok := stream_handle in
    if negb ok then ret false
    else puts (set_buflen 0) ;;; ret true.

(** Copy up to [toread] bytes of the input to the end of [inbuf]; the rest. *)
Definition stream_take (toread : Z) (ptr : list Z) : M (list Z) :=
  let! s := gets id in
  let n := Z.min toread (zlen ptr) in
  let! buf := lift (mem_write (s_inbuf s) (s_buflen s) (take (Z.to_nat n) ptr)) in
  puts (fun s => set_buflen (s_buflen s + n) (set_inbuf buf s)) ;;;
  ret (drop (Z.to_nat n) ptr).

(** The two length bytes.  [Some] is an early return, [None] goes on. *)
Definition stream_header (ptr : list Z) : M (option bool * list Z) :=
  let! s := gets id in
  if s_buflen s <? 2 then
    let! ptr := stream_take (2 - s_buflen s) ptr in
    let! s := gets id in
    (* Exit early if we don't have the full length. *)
    if s_buflen s <? 2 then ret (Some true, ptr)
    else
      (* Get the length bytes *)
      let! b := lift (mem_read (s_inbuf s) 0 2) in
      puts (set_reclen (be_val b)) ;;;
      (* ensure our buffer can hold the whole request. *)
      let! al := ask e_alloc in
      if negb (a_ok al) then puts (set_inbuf []) ;;; let! r := error ENOMEM in ret (Some r, ptr)
      else
        puts (fun s => set_inbuf (mem_realloc al (s_inbuf s) (s_reclen s + SPTPS_OVERHEAD)) s) ;;;
        (* Exit early if we have no more data to process. *)
        ret (if zlen ptr =? 0 then Some true else None, ptr)
  else ret (None, ptr).

(** Read up to the end of the record, and handle it when it is complete. *)
Definition stream_body (ptr : list Z) : M (option bool * list Z) :=
  let! s := gets id in
  let! ptr := stream_take (record_size s - s_buflen s) ptr in
  let! s := gets id in
  (* If we don't have a whole record, exit. *)
  if s_buflen s <? record_size s then ret (Some true, ptr)
  else
    let! ok := stream_record in
    ret (if ok then None else Some false, ptr).

(** One pass of [while(len)]: [Some] returns from the function, [None] goes on
    with the rest of the input. *)
Definition stream_pass (ptr : list Z) : M (option bool * list Z) :=
  let! (early, ptr) := stream_header ptr in
  match early with
  | Some r => ret (Some r, ptr)
  | None => stream_body ptr
  end.

(** [while(len)]. *)
Fixpoint stream_loop (fuel : nat) (ptr : list Z) : M bool :=
  match fuel with
  | O => lift (Stop OutOfFuel)
  | S fuel =>
      if zlen ptr =? 0 then ret true
      else
        let! (r, ptr) := stream_pass ptr in
        match r with Some r => ret r | None => stream_loop fuel ptr end
  end.

(** Receive incoming data. Check if it contains a complete record, if so, handle it. *)
Definition sptps_receive_data (data : list Z) : M bool :=
  let! s := gets id in
  if s_state s =? 0 then error EIO
  else if s_datagram s then sptps_receive_data_datagram data
  else stream_loop (S (S (length data))) data.

(** [memset(s, 0, sizeof *s)]. *)
Definition sptps_zero : sptps_t :=
  Sptps false false false false 0 [] 0 None 0 0 0 0 None 0 [] [] 0 None None None None None None [].

(** One allocation of [n] bytes. *)
Definition malloc (n : Z) : M (option (list Z)) :=
  let! al := ask e_alloc in
  ret (if a_ok al then Some (mem_fresh al 0 n) else None).

(** Start a SPTPS session.  The two keys and the label may be NULL. *)
Definition sptps_start (initiator datagram : bool) (mykey hiskey : option ecdsa_t) (label : option (list Z)) : M bool :=
  match mykey, hiskey, label with
  | Some mykey, Some hiskey, Some label =>
      if zlen label =? 0 then error EINVAL
      else
        let s := Sptps initiator datagram false false 0 [] 0 None 32 0 0 0 None 0 [] [] 1024
                       (Some mykey) (Some hiskey) None None None None [] in
        puts (fun _ => s) ;;;
        let! b := malloc 1024 in
        match b with
        | None => error ENOMEM
        | Some b =>
            puts (set_decrypted_buffer b) ;;;
            let! late := malloc 32 in
            match late with
            | None => error ENOMEM
            | Some late =>
                puts (set_late (replicate 32 0)) ;;;
                let! l := malloc (zlen label) in
                match l with
                | None => error ENOMEM
                | Some _ =>
                    let! inbuf := (if datagram then ret (Some []) else malloc 7) in
                    match inbuf with
                    | None => error ENOMEM
                    | Some inbuf =>
                        puts (fun s => Sptps (s_initiator s) (s_datagram s) (s_instate s) (s_outstate s) SPTPS_KEX
                          inbuf 0 (s_incipher s) (s_replaywin s) (s_inseqno s) (s_received s) (s_reclen s)
                          (s_outcipher s) (s_outseqno s) (s_late s) (s_decrypted_buffer s) (s_decrypted_buffer_len s)
                          (s_mykey s) (s_hiskey s) (s_ecdh s) (s_mykex s) (s_hiskex s) (s_key s) label) ;;;
                        (* Do first KEX immediately *)
                        send_kex
                    end
                end
            end
        end
  | _, _, _ => error EINVAL
  end.

(** Stop a SPTPS session: the decrypted data is wiped before it is freed. *)
Definition sptps_stop : M bool :=
  let! s := gets id in
  lift (mem_write (s_decrypted_buffer s) 0 (replicate (Z.to_nat (s_decrypted_buffer_len s)) 0)) ;;;
  puts (fun _ => sptps_zero) ;;;
  ret true.

End Sptps.
