(* ===== verification/SptpsReplay.v ===== *)
(** Replay protection of SPTPS datagrams: the bitmap of sptps.c against the
    window it stands for.

    The specification keeps the next expected sequence number and the numbers
    accepted so far, and accepts a number that is not below the window and was not
    accepted before.  The bitmap refines it as long as sequence numbers stay below
    [2 ^ 32] by more than a window; above that the code's test wraps around. *)
From S2P Require Import Prelude Bytes Sptps.

(** ** The specification *)

Record window := Window { next : Z; seen : list Z }.

Definition fresh (size : Z) (v : window) (n : Z) : bool :=
  (next v <=? n) || ((next v - size <=? n) && bool_decide (n ∉ seen v)).

Definition admit_one (size : Z) (v : window) (n : Z) : bool * window :=
  if fresh size v n then (true, Window (Z.max (next v) (n + 1)) (n :: seen v)) else (false, v).

Fixpoint admit_all (size : Z) (v : window) (l : list Z) : list bool :=
  match l with [] => [] | n :: l => let '(b, v) := admit_one size v n in b :: admit_all size v l end.

(** ** The code, as [sptps_receive_data_datagram] uses it *)

Definition replay_step (win inseqno : Z) (late : list Z) (n : Z) : outcome (bool * (Z * list Z)) :=
  let* r := replay_check win inseqno late n in
  match r with
  | None => Done (false, (inseqno, late))
  | Some late => Done (true, (if inseqno <=? n then u32 (n + 1) else inseqno, late))
  end.

Fixpoint replay_run (win inseqno : Z) (late : list Z) (l : list Z) : outcome (list bool) :=
  match l with
  | [] => Done []
  | n :: l =>
      let* (b, (inseqno, late)) := replay_step win inseqno late n in
      let* bs := replay_run win inseqno late l in
      Done (b :: bs)
  end.

(** ** Bits *)

Lemma bitset_testbit b k : 0 <= k -> bitset b (Z.shiftl 1 k) = Z.testbit b k.
Proof.
  intros Hk. unfold bitset. rewrite Z.shiftl_1_l. destruct (Z.testbit b k) eqn:E.
  - apply negb_true_iff, Z.eqb_neq. intros H0. apply (f_equal (fun x => Z.testbit x k)) in H0.
    rewrite Z.land_spec, E, Z.pow2_bits_true, Z.bits_0 in H0 by done. done.
  - apply negb_false_iff, Z.eqb_eq. apply Z.bits_inj'. intros i Hi. rewrite Z.land_spec, Z.bits_0.
    destruct (decide (i = k)) as [->|]; [by rewrite E|]. by rewrite Z.pow2_bits_false, andb_false_r.
Qed.

Lemma u8_testbit x k : 0 <= k < 8 -> Z.testbit (u8 x) k = Z.testbit x k.
Proof. intros Hk. unfold u8. by rewrite Z.mod_pow2_bits_low by lia. Qed.

Section Bits.
Context (win : Z) (Hwin : 0 < win).

Definition lbit (late : list Z) (n : Z) : bool := Z.testbit (late !!! late_index win n) (n mod 8).

Lemma index_lt (late : list Z) n : zlen late = win -> (late_index win n < length late)%nat.
Proof. intros Hl. unfold late_index, zlen in *. pose proof (Z.mod_pos_bound (n / 8) win). lia. Qed.

(** Two numbers share a bit when they are equal modulo the window. *)
Lemma same_slot n m : late_index win n = late_index win m /\ n mod 8 = m mod 8 <-> n mod (8 * win) = m mod (8 * win).
Proof.
  pose proof (Z.mod_pos_bound (n / 8) win Hwin). pose proof (Z.mod_pos_bound (m / 8) win Hwin).
  pose proof (Z.mod_pos_bound n 8). pose proof (Z.mod_pos_bound m 8).
  rewrite !Z.rem_mul_r by lia. unfold late_index. split; intros; lia.
Qed.

Lemma late_bit_ok late n : zlen late = win -> late_bit late win n = Done (lbit late n).
Proof.
  intros Hl. unfold late_bit, lbit. rewrite (list_lookup_lookup_total_lt late) by (by apply index_lt).
  by rewrite bitset_testbit by (apply Z.mod_pos_bound; lia).
Qed.

(** Setting or clearing one bit. *)
Definition bit_changed (f : Z -> Z) (n : Z) (v : bool) : Prop :=
  forall b k, 0 <= k < 8 -> Z.testbit (f b) k = if decide (k = n mod 8) then v else Z.testbit b k.

Lemma late_update_ok f v late n :
  zlen late = win -> bit_changed f n v ->
  exists late', late_update f late win n = Done late' /\ zlen late' = win /\
    forall m, lbit late' m = if decide (m mod (8 * win) = n mod (8 * win)) then v else lbit late m.
Proof.
  intros Hl Hf. unfold late_update. rewrite (list_lookup_lookup_total_lt late) by (by apply index_lt).
  eexists. split; [reflexivity|]. split; [unfold zlen; by rewrite length_insert|].
  intros m. pose proof (index_lt late n Hl). pose proof (Z.mod_pos_bound m 8). unfold lbit.
  destruct (decide (late_index win m = late_index win n)) as [Ei|Ei].
  - rewrite Ei, list_lookup_total_insert_eq, Hf by lia.
    destruct (decide (m mod 8 = n mod 8)) as [E8|E8], (decide (m mod (8 * win) = n mod (8 * win))) as [Es|Es];
      try done; exfalso; [apply Es, same_slot; done|apply E8; by apply same_slot in Es as [_ ?]].
  - rewrite list_lookup_total_insert_ne by done. case_decide as Ed; [|done]. apply same_slot in Ed. tauto.
Qed.

Lemma set_changes n : bit_changed (fun b => u8 (Z.lor b (Z.shiftl 1 (n mod 8)))) n true.
Proof.
  intros b k Hk. pose proof (Z.mod_pos_bound n 8). rewrite u8_testbit, Z.lor_spec, Z.shiftl_1_l by lia.
  case_decide; [subst; by rewrite Z.pow2_bits_true, orb_true_r by lia|by rewrite Z.pow2_bits_false, orb_false_r].
Qed.

Lemma clear_changes n : bit_changed (fun b => u8 (Z.land b (Z.lnot (Z.shiftl 1 (n mod 8))))) n false.
Proof.
  intros b k Hk. pose proof (Z.mod_pos_bound n 8). rewrite u8_testbit, Z.land_spec, Z.lnot_spec, Z.shiftl_1_l by lia.
  case_decide; [subst; by rewrite Z.pow2_bits_true, andb_false_r by lia|].
  by rewrite Z.pow2_bits_false, andb_true_r.
Qed.

(** Marking a range. *)
Lemma late_mark_ok k : forall late i,
  zlen late = win ->
  exists late', late_mark late win (seqZ i (Z.of_nat k)) = Done late' /\ zlen late' = win /\
    forall m, lbit late' m = true <-> lbit late m = true \/ exists j, i <= j < i + Z.of_nat k /\ m mod (8 * win) = j mod (8 * win).
Proof.
  induction k as [|k IH]; intros late i Hl.
  { exists late. splits; [done|done|]. intros m. split; [auto|]. intros [|(j & Hj & _)]; [done|lia]. }
  rewrite seqZ_cons by lia. cbn [late_mark].
  destruct (late_update_ok _ true late i Hl (set_changes i)) as (l1 & E1 & Hl1 & H1).
  unfold late_set. rewrite E1. cbn [obind]. replace (Z.pred (Z.of_nat (S k))) with (Z.of_nat k) by lia.
  destruct (IH l1 (Z.succ i) Hl1) as (l2 & E2 & Hl2 & H2). exists l2. splits; [done|done|].
  intros m. rewrite H2, H1. case_decide as Ed.
  - split; [|auto]. intros _. right. exists i. split; [lia|done].
  - split; (intros [|(j & Hj & Ej)]; [by left|right; exists j; split; [|done]]); [lia|].
    destruct (decide (j = i)) as [->|]; [done|lia].
Qed.

End Bits.

(** ** Refinement *)

Lemma mod_near a b w : 0 < w -> - w < a - b < w -> a mod w = b mod w -> a = b.
Proof.
  intros Hw Hd E. pose proof (Z.div_mod a w ltac:(lia)). pose proof (Z.div_mod b w ltac:(lia)).
  assert (a / w = b / w) by nia. lia.
Qed.

Section Refinement.
Context (win : Z) (Hwin : 0 < win) (Hmax : 8 * win < 2 ^ 31).
Notation W := (8 * win).

Record refines (v : window) (inseqno : Z) (late : list Z) : Prop := {
  rf_next : inseqno = next v;
  rf_range : 0 <= next v /\ next v + W < 2 ^ 32;
  rf_size : zlen late = win;
  rf_bits : forall n, 0 <= n -> next v - W <= n < next v -> lbit win late n = bool_decide (n ∉ seen v);
  rf_seen : forall n, n ∈ seen v -> n < next v;
}.

Lemma lbit_all m : lbit win (replicate (Z.to_nat win) 255) m = true.
Proof.
  unfold lbit. rewrite lookup_total_replicate_2.
  - pose proof (Z.mod_pos_bound m 8 ltac:(lia)). change 255 with (Z.ones 8). by apply Z.ones_spec_low.
  - pose proof (index_lt win Hwin (replicate (Z.to_nat win) 0) m) as H. rewrite length_replicate in H.
    apply H. unfold zlen. rewrite length_replicate. lia.
Qed.

(** Accepting [n]: its bit is cleared, and the bits of the new window say what was seen. *)
Lemma accept_ok v late n :
  0 <= n -> n + 1 + W < 2 ^ 32 -> 0 <= next v -> next v + W < 2 ^ 32 -> zlen late = win ->
  (forall m, m ∈ seen v -> m < next v) ->
  (forall m, 0 <= m -> m <> n -> Z.max (next v) (n + 1) - W <= m < Z.max (next v) (n + 1) ->
     lbit win late m = bool_decide (m ∉ seen v)) ->
  next v - W <= n ->
  exists late', late_clear late win n = Done late' /\
    refines (Window (Z.max (next v) (n + 1)) (n :: seen v)) (Z.max (next v) (n + 1)) late'.
Proof.
  intros Hn Hn' Hv Hv' Hl Hs Hb Hlo.
  destruct (late_update_ok win Hwin _ false late n Hl (clear_changes n)) as (l' & E & Hl' & H').
  exists l'. split; [exact E|]. split; cbn [next seen]; [done|lia|done| |].
  - intros m Hm Hr. rewrite H'. case_decide as Ed.
    + assert (m = n) as -> by (apply (mod_near m n W); lia). rewrite bool_decide_false; [done|]. rewrite elem_of_cons. tauto.
    + assert (m <> n) by congruence. rewrite Hb by done. apply bool_decide_ext. rewrite elem_of_cons. tauto.
  - intros m [->|Hm]%elem_of_cons; [lia|]. specialize (Hs m Hm). lia.
Qed.

(** The last steps of the check, once a number is accepted. *)
Lemma accept_step v late1 n :
  0 <= n -> n + 1 + W < 2 ^ 32 -> 0 <= next v -> next v + W < 2 ^ 32 -> (forall m, m ∈ seen v -> m < next v) ->
  zlen late1 = win -> next v - W <= n ->
  (forall m, 0 <= m -> m <> n -> Z.max (next v) (n + 1) - W <= m < Z.max (next v) (n + 1) ->
     lbit win late1 m = bool_decide (m ∉ seen v)) ->
  exists late', (let* l := late_clear late1 win n in Done (Some l)) = Done (Some late') /\
    (if next v <=? n then u32 (n + 1) else next v) = Z.max (next v) (n + 1) /\
    refines (Window (Z.max (next v) (n + 1)) (n :: seen v)) (Z.max (next v) (n + 1)) late'.
Proof.
  intros Hn Hn' H0 H1 Hs Hl1 Hlo Hb1. destruct (accept_ok v late1 n) as (l' & -> & Hr'); try done.
  exists l'. splits; [done| |done]. zcase; [rewrite u32_small|]; lia.
Qed.

(** "We missed some packets": the bits after marking them. *)
Lemma missed_bits v late n :
  refines v (next v) late -> next v < n < next v + W ->
  exists l1, late_mark late win (seqZ (next v) (n - next v)) = Done l1 /\ zlen l1 = win /\
    forall m, 0 <= m -> m <> n -> Z.max (next v) (n + 1) - W <= m < Z.max (next v) (n + 1) ->
      lbit win l1 m = bool_decide (m ∉ seen v).
Proof.
  intros [_ _ Hl Hb Hs] Hn.
  destruct (late_mark_ok win Hwin (Z.to_nat (n - next v)) late (next v) Hl) as (l1 & E1 & Hl1 & Hm1).
  rewrite Z2Nat.id in * by lia. exists l1. splits; [done|done|].
  intros m Hm Hmn Hrg. apply eq_true_iff_eq. rewrite Hm1, bool_decide_eq_true.
  destruct (decide (m < next v)) as [Hlt|Hge].
  - rewrite Hb, bool_decide_eq_true by lia. split; [|auto]. intros [?|(j & Hj & Ej)]; [done|].
    exfalso. assert (m = j) by (apply (mod_near m j W); lia). lia.
  - split; [intros _ Hin; specialize (Hs m Hin); lia|]. intros _. right. exists m. split; [lia|done].
Qed.

Lemma replay_step_ok v inseqno late n :
  refines v inseqno late -> 0 <= n -> n + 1 + W < 2 ^ 32 ->
  exists late', replay_step win inseqno late n =
      Done ((admit_one W v n).1, (next (admit_one W v n).2, late')) /\
    refines (admit_one W v n).2 (next (admit_one W v n).2) late'.
Proof.
  intros Hr Hn Hn'. pose proof Hr as [-> [H0 H1] Hl Hb Hs]. unfold replay_step, replay_check, admit_one, fresh.
  assert (EW : u32 (win * 8) = W) by (rewrite u32_small; lia). rewrite EW.
  rewrite (u32_small (next v + W)) by lia. rewrite (proj2 (Z.eqb_neq win 0)) by lia.
  pose proof (fun l1 Hz Hlo => accept_step v l1 n Hn Hn' H0 H1 Hs Hz Hlo) as Acc.
  destruct (Z.leb_spec (next v) n) as [Hnew|Hold]; cbn [orb].
  - assert (E : exists l1, (if n =? next v then Done (Some late)
      else if next v + W <=? n then Done (Some (replicate (Z.to_nat win) 255))
      else if n <? next v then
        (if (W <=? next v) && (n <? u32 (next v - W)) then Done None
         else let* b := late_bit late win n in Done (if (b : bool) then Some late else None))
      else let* late := late_mark late win (seqZ (next v) (n - next v)) in Done (Some late)) = Done (Some l1) /\
      zlen l1 = win /\
      forall m, 0 <= m -> m <> n -> Z.max (next v) (n + 1) - W <= m < Z.max (next v) (n + 1) ->
        lbit win l1 m = bool_decide (m ∉ seen v)).
    { zcase; [exists late; splits; [done|done|]; intros m Hm Hmn Hrg; apply Hb; lia|].
      zcase; [eexists; split; [done|]; split; [unfold zlen; rewrite length_replicate; lia|]|].
      { intros m Hm Hmn Hrg. rewrite lbit_all. rewrite bool_decide_true; [done|]. intros Hin. specialize (Hs m Hin). lia. }
      rewrite (proj2 (Z.ltb_ge n (next v))) by lia.
      destruct (missed_bits v late n Hr ltac:(lia)) as (l1 & -> & Hz & Hm). exists l1. done. }
    destruct E as (l1 & -> & Hz & Hm). cbn [obind]. destruct (Acc l1 Hz ltac:(lia) Hm) as (l' & -> & Hif & Hr').
    exists l'. cbn [obind fst snd next]. by rewrite Hif.
  - rewrite (proj2 (Z.eqb_neq n (next v))), (proj2 (Z.leb_gt (next v + W) n)), (proj2 (Z.ltb_lt n (next v))) by lia.
    destruct (Z.leb_spec (next v - W) n) as [Hin|Hout]; cbn [andb].
    + replace ((W <=? next v) && (n <? u32 (next v - W))) with false.
      2: { symmetry. apply andb_false_iff. destruct (decide (W <= next v)); [right|left; apply Z.leb_gt; lia].
           rewrite u32_small by lia. apply Z.ltb_ge. lia. }
      rewrite late_bit_ok by done. cbn [obind]. rewrite Hb by lia.
      destruct (bool_decide (n ∉ seen v)) eqn:Ef; cbn [obind fst snd next]; [|by exists late].
      destruct (Acc late Hl ltac:(lia)) as (l' & -> & _ & Hr'); [intros m Hm Hmn Hrg; apply Hb; lia|].
      exists l'. cbn [obind]. rewrite Z.max_l in * by lia. done.
    + rewrite (u32_small (next v - W)) by lia.
      rewrite (proj2 (Z.leb_le W (next v))), (proj2 (Z.ltb_lt n (next v - W))) by lia.
      cbn [andb obind fst snd]. by exists late.
Qed.

Lemma replay_run_ok l : forall v inseqno late,
  refines v inseqno late -> Forall (fun n => 0 <= n /\ n + 1 + W < 2 ^ 32) l ->
  replay_run win inseqno late l = Done (admit_all W v l).
Proof.
  induction l as [|n l IH]; intros v inseqno late Hr Hl; [done|]. inversion Hl as [|? ? [H0 H1] Hl']; subst.
  cbn [replay_run admit_all]. destruct (replay_step_ok v inseqno late n Hr H0 H1) as (late' & -> & Hr').
  cbn [obind]. destruct (admit_one W v n) as [b v'] eqn:Ea. cbn [fst snd] in *. by rewrite (IH v' _ late' Hr' Hl').
Qed.

End Refinement.

(** The bitmap at the start of a session: everything below the next number is
    taken as received. *)
Lemma refines_start win n0 :
  0 < win -> 0 <= n0 -> n0 + 8 * win < 2 ^ 32 ->
  refines win (Window n0 (seqZ 0 n0)) n0 (replicate (Z.to_nat win) 0).
Proof.
  intros Hw H0 H1. split; cbn [next seen]; [done|lia|unfold zlen; rewrite length_replicate; lia| |].
  - intros n Hn Hr. rewrite bool_decide_false by (rewrite elem_of_seqZ; lia). unfold lbit.
    destruct (decide (late_index win n < Z.to_nat win)%nat).
    + rewrite lookup_total_replicate_2 by done. apply Z.bits_0.
    + pose proof (index_lt win Hw (replicate (Z.to_nat win) 0) n) as Hi. rewrite length_replicate in Hi.
      unfold zlen in Hi. rewrite length_replicate in Hi. lia.
  - intros n Hn. rewrite elem_of_seqZ in Hn. lia.
Qed.

(** The replay bitmap of sptps.c, [replaywin] bytes used as a circular buffer,
    implements the sliding window it stands for: from the start of a session with
    next number [n0], for every sequence of authentic sequence numbers that stay
    below [2 ^ 32] by more than a window, each packet is accepted exactly when its
    number is new, or in the window and not accepted before, and dropped
    otherwise; no index leaves the bitmap. *)
Theorem replay_window_refines win n0 l :
  0 < win -> 8 * win < 2 ^ 31 -> 0 <= n0 -> n0 + 8 * win < 2 ^ 32 ->
  Forall (fun n => 0 <= n /\ n + 1 + 8 * win < 2 ^ 32) l ->
  replay_run win n0 (replicate (Z.to_nat win) 0) l = Done (admit_all (8 * win) (Window n0 (seqZ 0 n0)) l).
Proof. intros. apply replay_run_ok; [done|done| |done]. by apply refines_start. Qed.

Lemma replay_window_refines_witness :
  replay_run 32 2 (replicate 32 0) [2; 5; 3; 3; 400; 4; 399; 144; 145; 145; 5] =
  Done [true; true; true; false; true; false; true; false; true; false; false].
Proof.
  change (replicate 32 0) with (replicate (Z.to_nat 32) 0).
  rewrite (replay_window_refines 32 2 [2; 5; 3; 3; 400; 4; 399; 144; 145; 145; 5]); [reflexivity|lia|lia|lia|lia|].
  repeat constructor; lia.
Defined.

(** Near the end of the sequence number space the protection is lost: the test
    for a packet far ahead adds the window to the expected number in 32 bits, so
    within a window of [2 ^ 32] the sum wraps, and every number from the wrapped sum
    up to the expected number passes for one that is far ahead.  Such a packet is
    accepted whatever the bitmap says about it, and the whole bitmap is set to "not
    received yet". *)
Theorem replay_accepted_near_wrap win inseqno late n :
  0 < win -> 8 * win < 2 ^ 31 -> 2 ^ 32 - 8 * win <= inseqno < 2 ^ 32 -> zlen late = win ->
  inseqno + 8 * win - 2 ^ 32 <= n < inseqno ->
  exists late', replay_check win inseqno late n = Done (Some late') /\
    forall m, 0 <= m -> m mod (8 * win) <> n mod (8 * win) -> lbit win late' m = true.
Proof.
  intros Hw Hm Hi Hl Hn. unfold replay_check.
  rewrite (proj2 (Z.eqb_neq win 0)), (proj2 (Z.eqb_neq n inseqno)) by lia.
  rewrite (u32_small (win * 8)), (u32_unique (inseqno + win * 8) (inseqno + 8 * win - 2 ^ 32) 1) by lia.
  rewrite (proj2 (Z.leb_le (inseqno + 8 * win - 2 ^ 32) n)) by lia. cbn [obind].
  assert (Hz : zlen (replicate (Z.to_nat win) 255) = win) by (unfold zlen; rewrite length_replicate; lia).
  destruct (late_update_ok win Hw _ false _ n Hz (clear_changes n)) as (l' & E & _ & H').
  exists l'. unfold late_clear. rewrite E. split; [done|]. intros m Hm0 Hne. rewrite H', decide_False by done.
  by apply lbit_all.
Qed.

(** A packet received and received again. *)
Lemma replay_accepted_near_wrap_witness :
  replay_run 32 4294966000 (replicate 32 0) [4294966100; 4294966100] = Done [true; false] /\
  replay_run 32 4294967200 (replicate 32 0) [4294967200; 4294967200] = Done [true; true] /\
  exists late', replay_check 32 4294967201 (replicate 32 0) 4294967200 = Done (Some late').
Proof.
  split; [vm_compute; reflexivity|]. split; [vm_compute; reflexivity|].
  destruct (replay_accepted_near_wrap 32 4294967201 (replicate 32 0) 4294967200) as (l & E & _); try lia; [done|].
  by exists l.
Defined.
