(* ===== verification/SptpsRun.v ===== *)
(** What the operations of sptps.c do, exactly: the record that goes out, the
    session that is left, for an environment in which allocation and sending
    succeed. *)
From S2P Require Import Prelude Bytes Aead Sha512 Prf Ed25519 Sptps.

(** An environment without failures.  Applications send records that fit. *)
Record env_ok (E : env) : Prop := {
  eo_alloc n : a_ok (e_alloc E n) = true;
  eo_junk n k : 0 <= a_junk (e_alloc E n) k < 256;
  eo_rand n : length (e_rand E n) = 32%nat /\ bytes_ok (e_rand E n);
  eo_send n : e_send E n = true;
  eo_app n : Forall (fun '(t, d) => 0 <= t < 256 /\ bytes_ok d /\ zlen d < 2 ^ 16) (app_sends (e_app E n));
  eo_md : length (buf (e_md E)) = 128%nat;
  eo_tmp : length (e_tmp E) = 128%nat;
}.

(** ** Running a computation, step by step *)

Section Steps.
Context {A : Aead} {C : Ed25519} (E : env) {X Y : Type}.
Implicit Types (k : X -> M Y) (s : sptps_t) (now : nat) (sent got : list (Z * list Z)) (er : Z).

Lemma bind_returns (m : M X) k w x w' : m w = Done (x, w') -> bind m k w = k x w'.
Proof. intros H. unfold bind. by rewrite H. Qed.

Lemma bind_gets (f : sptps_t -> X) k s now sent got er :
  bind (gets f) k (World s now sent got er) = k (f s) (World s now sent got er).
Proof. done. Qed.

Lemma bind_puts f (k : unit -> M Y) s now sent got er :
  bind (puts f) k (World s now sent got er) = k tt (World (f s) now sent got er).
Proof. done. Qed.

Lemma bind_ask (f : env -> nat -> X) k s now sent got er :
  bind (ask E f) k (World s now sent got er) = k (f E now) (World s (S now) sent got er).
Proof. done. Qed.

Lemma bind_lift (m : outcome X) k w x : m = Done x -> bind (lift m) k w = k x w.
Proof. by intros ->. Qed.

Lemma bind_deref (p : option X) k w x : p = Some x -> bind (deref p) k w = k x w.
Proof. by intros ->. Qed.

Lemma bind_ret (x : X) k w : bind (ret x) k w = k x w.
Proof. done. Qed.

Lemma bind_error e (k : bool -> M Y) s now sent got er :
  bind (error e) k (World s now sent got er) = k false (World s now sent got e).
Proof. done. Qed.

Lemma bind_bind {U} (m : M U) (h : U -> M X) k w : bind (bind m h) k w = bind m (fun u => bind (h u) k) w.
Proof. unfold bind. destruct (m w) as [[u w']|]; done. Qed.
End Steps.

(** Reading a field of an updated session. *)
Ltac sproj :=
  repeat match goal with
  | |- context [@s_initiator ?A (?f ?v ?s)] =>
      first [change (@s_initiator A (f v s)) with (@s_initiator A s) | change (@s_initiator A (f v s)) with v]
  | |- context [@s_datagram ?A (?f ?v ?s)] =>
      first [change (@s_datagram A (f v s)) with (@s_datagram A s) | change (@s_datagram A (f v s)) with v]
  | |- context [@s_instate ?A (?f ?v ?s)] =>
      first [change (@s_instate A (f v s)) with (@s_instate A s) | change (@s_instate A (f v s)) with v]
  | |- context [@s_outstate ?A (?f ?v ?s)] =>
      first [change (@s_outstate A (f v s)) with (@s_outstate A s) | change (@s_outstate A (f v s)) with v]
  | |- context [@s_state ?A (?f ?v ?s)] =>
      first [change (@s_state A (f v s)) with (@s_state A s) | change (@s_state A (f v s)) with v]
  | |- context [@s_inbuf ?A (?f ?v ?s)] =>
      first [change (@s_inbuf A (f v s)) with (@s_inbuf A s) | change (@s_inbuf A (f v s)) with v]
  | |- context [@s_buflen ?A (?f ?v ?s)] =>
      first [change (@s_buflen A (f v s)) with (@s_buflen A s) | change (@s_buflen A (f v s)) with v]
  | |- context [@s_incipher ?A (?f ?v ?s)] =>
      first [change (@s_incipher A (f v s)) with (@s_incipher A s) | change (@s_incipher A (f v s)) with v]
  | |- context [@s_replaywin ?A (?f ?v ?s)] =>
      first [change (@s_replaywin A (f v s)) with (@s_replaywin A s) | change (@s_replaywin A (f v s)) with v]
  | |- context [@s_inseqno ?A (?f ?v ?s)] =>
      first [change (@s_inseqno A (f v s)) with (@s_inseqno A s) | change (@s_inseqno A (f v s)) with v]
  | |- context [@s_received ?A (?f ?v ?s)] =>
      first [change (@s_received A (f v s)) with (@s_received A s) | change (@s_received A (f v s)) with v]
  | |- context [@s_reclen ?A (?f ?v ?s)] =>
      first [change (@s_reclen A (f v s)) with (@s_reclen A s) | change (@s_reclen A (f v s)) with v]
  | |- context [@s_outcipher ?A (?f ?v ?s)] =>
      first [change (@s_outcipher A (f v s)) with (@s_outcipher A s) | change (@s_outcipher A (f v s)) with v]
  | |- context [@s_outseqno ?A (?f ?v ?s)] =>
      first [change (@s_outseqno A (f v s)) with (@s_outseqno A s) | change (@s_outseqno A (f v s)) with v]
  | |- context [@s_late ?A (?f ?v ?s)] =>
      first [change (@s_late A (f v s)) with (@s_late A s) | change (@s_late A (f v s)) with v]
  | |- context [@s_decrypted_buffer ?A (?f ?v ?s)] =>
      first [change (@s_decrypted_buffer A (f v s)) with (@s_decrypted_buffer A s) | change (@s_decrypted_buffer A (f v s)) with v]
  | |- context [@s_decrypted_buffer_len ?A (?f ?v ?s)] =>
      first [change (@s_decrypted_buffer_len A (f v s)) with (@s_decrypted_buffer_len A s) | change (@s_decrypted_buffer_len A (f v s)) with v]
  | |- context [@s_mykey ?A (?f ?v ?s)] =>
      first [change (@s_mykey A (f v s)) with (@s_mykey A s) | change (@s_mykey A (f v s)) with v]
  | |- context [@s_hiskey ?A (?f ?v ?s)] =>
      first [change (@s_hiskey A (f v s)) with (@s_hiskey A s) | change (@s_hiskey A (f v s)) with v]
  | |- context [@s_ecdh ?A (?f ?v ?s)] =>
      first [change (@s_ecdh A (f v s)) with (@s_ecdh A s) | change (@s_ecdh A (f v s)) with v]
  | |- context [@s_mykex ?A (?f ?v ?s)] =>
      first [change (@s_mykex A (f v s)) with (@s_mykex A s) | change (@s_mykex A (f v s)) with v]
  | |- context [@s_hiskex ?A (?f ?v ?s)] =>
      first [change (@s_hiskex A (f v s)) with (@s_hiskex A s) | change (@s_hiskex A (f v s)) with v]
  | |- context [@s_key ?A (?f ?v ?s)] =>
      first [change (@s_key A (f v s)) with (@s_key A s) | change (@s_key A (f v s)) with v]
  | |- context [@s_label ?A (?f ?v ?s)] =>
      first [change (@s_label A (f v s)) with (@s_label A s) | change (@s_label A (f v s)) with v]
  end.

(** The next step that needs no hypothesis. *)
Ltac step :=
  first [rewrite bind_gets | rewrite bind_puts | rewrite bind_ask | rewrite bind_ret | rewrite bind_error
        | rewrite bind_bind]; cbv beta.
Ltac steps := repeat (step; unfold id; sproj).
(** The next step, given what it answers. *)
Ltac answer H := first [rewrite (bind_lift _ _ _ _ H) | rewrite (bind_deref _ _ _ _ H) | rewrite (bind_returns _ _ _ _ _ H)]; cbv beta iota; sproj.

Section Run.
Context {A : Aead} {C : Ed25519} (E : env) (HE : env_ok E).

(** ** Sending *)

(** The cipher for outgoing records is there when it is used. *)
Definition out_ok (s : sptps_t) : Prop :=
  s_outstate s = true -> exists c, s_outcipher s = Some c /\ aead_wf c.

(** The bytes of a record. *)
Definition header (s : sptps_t) (data : list Z) : list Z :=
  if s_datagram s then be_bytes 4 (s_outseqno s) else be_bytes 2 (zlen data).
Definition body (s : sptps_t) (type : Z) (data : list Z) : list Z :=
  match s_outcipher s with
  | Some c => if s_outstate s then aead_seal c (s_outseqno s) (type :: data) else type :: data
  | None => type :: data
  end.

(** Only the outgoing counter and cipher move, the cipher keeps its key. *)
Record out_only (s s' : sptps_t) : Prop := {
  oo_shape : exists n c, s' = set_outcipher c (set_outseqno n s);
  oo_cipher : forall a, s_outcipher s = Some a -> aead_wf a ->
    exists b, s_outcipher s' = Some b /\ aead_wf b /\ aead_same a b;
}.

Lemma out_only_refl s : out_only s s.
Proof.
  split; [exists (s_outseqno s), (s_outcipher s); by destruct s|].
  intros a Ha Hw. exists a. splits; [done|done|reflexivity].
Qed.

Lemma out_only_trans a b c : out_only a b -> out_only b c -> out_only a c.
Proof.
  intros [(n & x & ->) H1] [(m & y & ->) H2]. split; [exists m, y; by destruct a|].
  intros k Hk Hw. destruct (H1 k Hk Hw) as (k1 & E1 & W1 & S1). destruct (H2 k1 E1 W1) as (k2 & E2 & W2 & S2).
  exists k2. splits; [done|done|by transitivity k1].
Qed.

Lemma out_only_ok s s' : out_ok s -> out_only s s' -> out_ok s'.
Proof.
  intros H [(n & c & ->) Hc] Ho. destruct (H Ho) as (a & Ha & Wa).
  destruct (Hc a Ha Wa) as (b & Hb & Wb & _). eauto.
Qed.

Definition fits (type : Z) (data : list Z) : Prop := 0 <= type < 256 /\ bytes_ok data /\ zlen data < 2 ^ 16.

Lemma encrypt_out_ok s now sent got er seqno m c :
  s_outcipher s = Some c -> aead_wf c -> bytes_ok m -> zlen m + 16 < 2 ^ 32 ->
  exists c', encrypt_out seqno m (World s now sent got er) =
      Done (aead_seal c seqno m, World (set_outcipher (Some c') s) now sent got er) /\ aead_wf c' /\ aead_same c c'.
Proof.
  intros Hc Wc Hm Hl. destruct (aead_encrypt_ok c seqno m Wc Hm Hl) as (c' & He & Wc' & Sc).
  exists c'. split; [|done]. unfold encrypt_out. steps. answer Hc. answer He. steps. done.
Qed.

Lemma send_data_ok s now sent got er type data :
  send_data E type data (World s now sent got er) = Done (true, World s (S now) (sent ++ [(type, data)]) got er).
Proof. unfold send_data, bind, ask. cbn. by rewrite (eo_send E HE). Qed.

Lemma send_ok s now sent got er type data :
  out_ok s -> fits type data ->
  exists s', send_record_priv E type data (World s now sent got er) =
      Done (true, World s' (S now) (sent ++ [(type, header s data ++ body s type data)]) got er) /\
    out_only s s' /\ s_outseqno s' = u32 (s_outseqno s + 1).
Proof.
  intros Ho (Ht & Hd & Hl). unfold send_record_priv, send_record_priv_datagram, header, body.
  set (s1 := set_outseqno (u32 (s_outseqno s + 1)) s).
  destruct (s_outstate s) eqn:Eo.
  - destruct (Ho Eo) as (c & Hc & Wc). rewrite Hc.
    destruct (encrypt_out_ok s1 now sent got er (s_outseqno s) (type :: data) c Hc Wc) as (c' & He & Wc' & Sc);
      [by constructor|unfold zlen in *; simpl; lia|].
    exists (set_outcipher (Some c') s1). splits; [| |done].
    + steps. destruct (s_datagram s); steps; rewrite Eo; answer He; apply send_data_ok.
    + split; [by eexists _, _|]. intros a Ha _. exists c'. rewrite Hc in Ha. injection Ha as <-. done.
  - exists s1. splits; [| |done].
    + assert (Eb : match s_outcipher s with Some _ => type :: data | None => type :: data end = type :: data)
        by (by destruct (s_outcipher s)). rewrite Eb.
      steps. destruct (s_datagram s); steps; rewrite Eo; apply send_data_ok.
    + split; [exists (u32 (s_outseqno s + 1)), (s_outcipher s); by destruct s|].
      intros a Ha Wa. exists a. splits; [exact Ha|done|reflexivity].
Qed.

(** ** The receive callback *)

Lemma send_record_ok s now sent got er type data :
  out_ok s -> fits type data ->
  exists b s' now' sent' er', sptps_send_record E type data (World s now sent got er) =
      Done (b, World s' now' sent' got er') /\ out_only s s'.
Proof.
  intros Ho Hf. unfold sptps_send_record. cbv beta delta [bind gets]. cbn [obind w_s].
  destruct (s_outstate s) eqn:Eo; cbn [negb].
  - destruct (SPTPS_HANDSHAKE <=? type).
    + eexists _, _, _, _, _. split; [reflexivity|]. apply out_only_refl.
    + destruct (send_ok s now sent got er type data Ho Hf) as (s' & -> & Hs & _). by eexists _, _, _, _, _.
  - eexists _, _, _, _, _. split; [reflexivity|]. apply out_only_refl.
Qed.

Lemma app_send_ok l : forall s now sent got er,
  out_ok s -> Forall (fun '(t, d) => fits t d) l ->
  exists s' now' sent' er', app_send E l (World s now sent got er) = Done (tt, World s' now' sent' got er') /\ out_only s s'.
Proof.
  induction l as [|[t d] l IH]; intros s now sent got er Ho Hl.
  { eexists _, _, _, _. split; [reflexivity|]. apply out_only_refl. }
  inversion Hl as [|? ? Hf Hl']; subst. cbn [app_send]. unfold bind.
  destruct (send_record_ok s now sent got er t d Ho Hf) as (b & s1 & n1 & q1 & e1 & -> & H1). cbn [obind].
  destruct (IH s1 n1 q1 got e1 (out_only_ok _ _ Ho H1) Hl') as (s2 & n2 & q2 & e2 & -> & H2).
  eexists _, _, _, _. split; [reflexivity|]. by eapply out_only_trans.
Qed.

Lemma receive_record_ok s now sent got er type data :
  out_ok s ->
  exists s' now' sent' er', receive_record E type data (World s now sent got er) =
      Done (app_ok (e_app E now), World s' now' sent' (got ++ [(type, data)]) er') /\ out_only s s'.
Proof.
  intros Ho. unfold receive_record, bind, ask. cbn [obind w_s w_now w_sent w_got w_errno].
  destruct (app_send_ok (app_sends (e_app E now)) s (S now) sent (got ++ [(type, data)]) er Ho (eo_app E HE now))
    as (s' & n' & q' & e' & -> & Hs).
  cbn [obind]. by eexists _, _, _, _.
Qed.

(** ** Key exchange *)

Definition kex_of (nonce pub : list Z) : list Z := SPTPS_VERSION :: nonce ++ pub.

Lemma fresh_write al (nonce pub : list Z) :
  length nonce = 32%nat -> length pub = 32%nat ->
  exists m1 m2, mem_write (mem_fresh al 0 65) 0 [SPTPS_VERSION] = Done m1 /\
    mem_write m1 1 nonce = Done m2 /\ mem_write m2 33 pub = Done (kex_of nonce pub).
Proof.
  intros Hn Hp. assert (Hf : length (mem_fresh al 0 65) = 65%nat)
    by (pose proof (zlen_fresh al 0 65) as H; unfold zlen in H; lia).
  destruct (mem_fresh al 0 65) as [|x l] eqn:El; [done|]. simpl in Hf.
  exists (SPTPS_VERSION :: l), (SPTPS_VERSION :: nonce ++ drop 32 l). splits.
  - rewrite mem_write_ok by (unfold zlen; simpl; lia). reflexivity.
  - rewrite mem_write_ok by (unfold zlen; simpl; lia). change (Z.to_nat 1) with 1%nat. rewrite Hn. reflexivity.
  - rewrite mem_write_ok by (unfold zlen; simpl; rewrite ?length_app, ?length_drop; lia).
    change (Z.to_nat 33) with 33%nat. unfold kex_of. cbn [take app]. rewrite take_app_exact by done. do 2 f_equal.
    rewrite Hp. cbn [Nat.add drop]. rewrite drop_app_ge, drop_ge, app_nil_r by (rewrite ?length_drop; lia). done.
Qed.

(** A KEX message: 65 bytes. *)
Definition kex_msg (m : list Z) : Prop := length m = 65%nat /\ bytes_ok m.

Lemma kex_of_ok nonce pub :
  length nonce = 32%nat -> bytes_ok nonce -> length pub = 32%nat -> bytes_ok pub -> kex_msg (kex_of nonce pub).
Proof.
  intros H1 H2 H3 H4. split; [unfold kex_of; simpl; rewrite length_app, H1, H3; done|].
  constructor; [done|]. by apply Forall_app.
Qed.

Lemma send_kex_ok s now sent got er :
  out_ok s -> s_mykex s = None ->
  exists e pub s', let m := kex_of (e_rand E (S now)) pub in
    ecdh_generate_public (e_rand E (S (S now))) = Some (e, pub) /\ kex_msg m /\
    send_kex E (World s now sent got er) =
      Done (true, World s' (S (S (S (S now)))) (sent ++ [(SPTPS_HANDSHAKE, header s m ++ body s SPTPS_HANDSHAKE m)]) got er) /\
    out_only (set_ecdh (Some e) (set_mykex (Some m) s)) s' /\ s_outseqno s' = u32 (s_outseqno s + 1).
Proof.
  intros Ho Hm. destruct (generate_public_ok (e_rand E (S (S now)))) as (e & pub & Eg & Lp & Bp).
  destruct (eo_rand E HE (S now)) as [Ln Bn]. exists e, pub.
  destruct (fresh_write (e_alloc E now) (e_rand E (S now)) pub Ln Lp) as (m1 & m2 & W1 & W2 & W3).
  assert (Hk : kex_msg (kex_of (e_rand E (S now)) pub)) by (by apply kex_of_ok).
  set (m := kex_of (e_rand E (S now)) pub) in *.
  set (s1 := set_ecdh (Some e) (set_mykex (Some m) (set_mykex (Some m2) s))).
  destruct (send_ok s1 (S (S (S now))) sent got er SPTPS_HANDSHAKE m) as (s' & Es & Hs & Hq).
  - intros H. destruct (Ho H) as (c & Hc & Wc). by exists c.
  - destruct Hk as [Lk Bk]. split; [done|]. split; [done|]. unfold zlen. lia.
  - exists s'. cbv zeta. splits; [done|done| |exact Hs|exact Hq].
    unfold send_kex. steps. rewrite Hm, bool_decide_false by (by intros []). steps.
    rewrite (eo_alloc E HE). cbn [negb]. answer W1. steps. answer W2. steps. rewrite Eg. answer W3. steps. exact Es.
Qed.

(** ** Signatures *)

Definition sig_msg (tag : bool) (first second label : list Z) : list Z :=
  (if tag then 1 else 0) :: first ++ second ++ label.

Lemma sig_message_ok tag a b label :
  kex_msg a -> kex_msg b -> sig_message tag a b label = Done (sig_msg tag a b label).
Proof.
  intros [La _] [Lb _]. unfold sig_message. change (1 + 32 + ECDH_SIZE) with 65.
  rewrite !mem_read_ok by (unfold zlen; lia). cbn [obind]. rewrite !drop_0, !take_ge by lia. done.
Qed.

Lemma send_sig_ok s now sent got er k mine his :
  out_ok s -> s_mykey s = Some k -> s_mykex s = Some mine -> s_hiskex s = Some his ->
  kex_msg mine -> kex_msg his ->
  exists sig s', ecdsa_sign k (sig_msg (s_initiator s) mine his (s_label s)) = Some sig /\
    length sig = 64%nat /\ bytes_ok sig /\
    send_sig E (World s now sent got er) =
      Done (true, World s' (S now) (sent ++ [(SPTPS_HANDSHAKE, header s sig ++ body s SPTPS_HANDSHAKE sig)]) got er) /\
    out_only s s' /\ s_outseqno s' = u32 (s_outseqno s + 1).
Proof.
  intros Ho Hk Hm Hh Km Kh. destruct (sign_ok k (sig_msg (s_initiator s) mine his (s_label s))) as (sig & Es & Ls & Bs).
  destruct (send_ok s now sent got er SPTPS_HANDSHAKE sig Ho) as (s' & Ew & Hs & Hq).
  { split; [done|]. split; [done|]. unfold zlen. lia. }
  exists sig, s'. splits; [done|done|done| |done|done].
  unfold send_sig. steps. answer Hk. answer Hm. answer Hh. answer (sig_message_ok (s_initiator s) mine his (s_label s) Km Kh).
  rewrite Es. exact Ew.
Qed.

Lemma receive_kex_ok s now sent got er k mine data len :
  out_ok s -> s_mykey s = Some k -> s_mykex s = Some mine -> s_hiskex s = None -> kex_msg mine ->
  len = 65 -> 65 <= zlen data -> bytes_ok data ->
  exists sig s', let his := take 65 data in let s1 := set_hiskex (Some his) s in
    kex_msg his /\ ecdsa_sign k (sig_msg (s_initiator s) mine his (s_label s)) = Some sig /\ length sig = 64%nat /\ bytes_ok sig /\
    receive_kex E data len (World s now sent got er) =
      Done (true, World s' (S (S now)) (sent ++ [(SPTPS_HANDSHAKE, header s sig ++ body s SPTPS_HANDSHAKE sig)]) got er) /\
    out_only s1 s' /\ s_outseqno s' = u32 (s_outseqno s + 1).
Proof.
  intros Ho Hk Hm Hh Km -> Hz Hd. cbv zeta. set (his := take 65 data). set (s1 := set_hiskex (Some his) s).
  assert (Kh : kex_msg his) by (split; [unfold his; rewrite length_take; unfold zlen in Hz; lia|by apply Forall_take]).
  destruct (send_sig_ok s1 (S now) sent got er k mine his) as (sig & s' & Es & Ls & Bs & Ew & Hs & Hq); try done.
  exists sig, s'. splits; try done. unfold receive_kex. change (1 + 32 + ECDH_SIZE) with 65. cbn [Z.eqb negb Pos.eqb].
  steps. rewrite Hh, bool_decide_false by (by intros []). steps. rewrite (eo_alloc E HE). cbn [negb].
  assert (Er : mem_read data 0 65 = Done his) by (rewrite mem_read_ok by lia; by rewrite drop_0).
  answer Er. steps. exact Ew.
Qed.

Lemma receive_kex_bad s now sent got er data len :
  len <> 65 -> receive_kex E data len (World s now sent got er) = Done (false, World s now sent got EIO).
Proof.
  intros H. unfold receive_kex. change (1 + 32 + ECDH_SIZE) with 65. by rewrite (proj2 (Z.eqb_neq len 65)).
Qed.

(** ** Session keys *)

Definition nonce_of (kex : list Z) : list Z := slice 1 32 kex.

(** The key material of two KEX messages, in the order of the initiator. *)
Definition key_material (initiator : bool) (mine his label shared : list Z) : list Z :=
  take 128 (prf_ref 2 (replicate 64 0) shared
    (key_expansion ++ (if initiator then nonce_of mine ++ nonce_of his else nonce_of his ++ nonce_of mine) ++ label)).

Lemma key_material_ok i mine his label shared :
  length (key_material i mine his label shared) = 128%nat /\ bytes_ok (key_material i mine his label shared).
Proof.
  unfold key_material. split; [rewrite length_take, length_prf_ref; done|]. apply Forall_take, prf_ref_ok.
Qed.

(** The label is short enough for the hash. *)
Definition label_ok (l : list Z) : Prop := zlen l < 2 ^ 32.

Definition with_ciphers (s : sptps_t) : sptps_t :=
  if s_outstate s then s else set_outcipher (Some aead_init) (set_incipher (Some aead_init) s).

Lemma generate_key_material_ok s now sent got er mine his shared :
  s_mykex s = Some mine -> s_hiskex s = Some his -> kex_msg mine -> kex_msg his -> label_ok (s_label s) ->
  length shared = 32%nat ->
  generate_key_material E shared (World s now sent got er) =
  Done (true, World (set_key (Some (key_material (s_initiator s) mine his (s_label s) shared)) (with_ciphers s))
                    (S now) sent got er).
Proof.
  intros Hm Hh [Lm _] [Lh _] Hl Hs. unfold generate_key_material, with_ciphers.
  assert (Rn : forall m, length m = 65%nat -> mem_read m 1 32 = Done (nonce_of m))
    by (intros m Hn; rewrite mem_read_ok by (unfold zlen; lia); done).
  assert (Nn : forall m, length m = 65%nat -> length (nonce_of m) = 32%nat)
    by (intros m Hn; unfold nonce_of; rewrite length_slice, Hn; done).
  assert (Ep : forall i : bool, prf (e_md E) (e_tmp E) shared
    (key_expansion ++ (if i then nonce_of mine ++ nonce_of his else nonce_of his ++ nonce_of mine) ++ s_label s)
    (2 * KEYLEN) = Done (Some (key_material i mine his (s_label s) shared))).
  { intros i. set (seed := key_expansion ++ _).
    assert (Hz : zlen seed = 77 + zlen (s_label s)).
    { unfold seed, zlen. destruct i; rewrite !length_app, !Nn by done; unfold key_expansion; simpl length; lia. }
    pose proof (zlen_nonneg (s_label s)). unfold label_ok in Hl.
    apply (prf_ok (e_md E) (eo_md E HE) (e_tmp E) shared seed (eo_tmp E HE)); rewrite ?Hz; unfold zlen; rewrite ?Hs; unfold zlen in *; lia || done. }
  steps. destruct (s_outstate s); cbn [negb]; steps; rewrite (eo_alloc E HE); cbn [negb];
    answer Hm; answer Hh; answer (Rn mine Lm); answer (Rn his Lh); answer (Ep (s_initiator s)); steps; done.
Qed.

Lemma half_key_ok k second : length k = 128%nat ->
  half_key k second = Done (take 64 (if second then drop 64 k else k)).
Proof. intros H. unfold half_key, KEYLEN. destruct second; rewrite mem_read_ok by (unfold zlen; lia); done. Qed.

Definition half (k : list Z) (second : bool) : list Z := take 64 (if second then drop 64 k else k).

Lemma half_ok k second : length k = 128%nat -> bytes_ok k -> length (half k second) = 64%nat /\ bytes_ok (half k second).
Proof.
  intros Hl Hb. unfold half. destruct second; (split; [rewrite length_take, ?length_drop; lia|]);
    apply Forall_take; try apply Forall_drop; done.
Qed.

Lemma receive_ack_ok s now sent got er c k :
  s_incipher s = Some c -> s_key s = Some k -> length k = 128%nat ->
  receive_ack 0 (World s now sent got er) =
  Done (true, World (set_instate true (set_key None (set_incipher (Some (aead_set_key c (half k (negb (s_initiator s))))) s)))
                    now sent got er).
Proof.
  intros Hc Hk Hl. unfold receive_ack. cbn [Z.eqb negb]. steps. answer Hc. answer Hk.
  answer (half_key_ok k (negb (s_initiator s)) Hl). steps. done.
Qed.

(** ** Receiving a signature *)

(** What [receive_sig] needs of the session. *)
Record sig_ready (s : sptps_t) (hk : ecdsa_t) (mine his : list Z) (e : ecdh_t) : Prop := {
  sr_hiskey : s_hiskey s = Some hk;
  sr_mykex : s_mykex s = Some mine;
  sr_hiskex : s_hiskex s = Some his;
  sr_mine : kex_msg mine;
  sr_his : kex_msg his;
  sr_ecdh : s_ecdh s = Some e;
  sr_label : label_ok (s_label s);
  sr_ciphers : s_outstate s = true ->
    exists co ci, s_outcipher s = Some co /\ aead_wf co /\ s_incipher s = Some ci /\ aead_wf ci;
}.

(** The session after a good signature: new keys, no key exchange in progress. *)
Record keyed (s s' : sptps_t) (k : list Z) : Prop := {
  kd_shape : exists n co ic, s' = set_outseqno n (set_outcipher (Some (aead_set_key co (half k (s_initiator s))))
      (set_incipher (Some ic) (set_key (Some k) (set_hiskex None (set_mykex None (set_ecdh None s)))))) /\
    aead_wf co /\ aead_wf ic /\ (s_outstate s = true -> s_incipher s = Some ic) /\
    n = (if s_outstate s then u32 (s_outseqno s + 1) else s_outseqno s);
}.

Lemma verify_failed s now sent got er hk mine his e data len :
  sig_ready s hk mine his e -> 64 <= zlen data -> len = 64 ->
  ecdsa_verify hk (sig_msg (negb (s_initiator s)) his mine (s_label s)) (take 64 data) = false ->
  receive_sig E data len (World s now sent got er) = Done (false, World s now sent got EIO).
Proof.
  intros [] Hz -> Hv. unfold receive_sig. steps. answer sr_hiskey0. cbn [ecdsa_size Z.eqb Pos.eqb negb].
  answer sr_hiskex0. answer sr_mykex0. answer (sig_message_ok (negb (s_initiator s)) his mine (s_label s) sr_his0 sr_mine0).
  assert (Er : mem_read data 0 64 = Done (take 64 data)) by (rewrite mem_read_ok by lia; by rewrite drop_0).
  answer Er. rewrite Hv. reflexivity.
Qed.

Lemma sig_length_failed s now sent got er hk data len :
  s_hiskey s = Some hk -> len <> 64 ->
  receive_sig E data len (World s now sent got er) = Done (false, World s now sent got EIO).
Proof.
  intros Hk Hl. unfold receive_sig. steps. answer Hk. unfold ecdsa_size. by rewrite (proj2 (Z.eqb_neq len 64)).
Qed.

(** The record sent while the keys change: an ACK under the old key, if there was one. *)
Definition ack_record (s : sptps_t) : list (Z * list Z) :=
  if s_outstate s then [(SPTPS_HANDSHAKE, header s [] ++ body s SPTPS_HANDSHAKE [])] else [].

Lemma send_ack_if s now sent got er :
  (s_outstate s = true -> exists co, s_outcipher s = Some co /\ aead_wf co) ->
  (s_outstate s = false -> exists co, s_outcipher s = Some co /\ aead_wf co) ->
  exists co now', (if s_outstate s then send_ack E else ret true) (World s now sent got er) =
    Done (true, World (set_outcipher (Some co) (set_outseqno (if s_outstate s then u32 (s_outseqno s + 1) else s_outseqno s) s))
                      now' (sent ++ ack_record s) got er) /\ aead_wf co.
Proof.
  intros Ht Hf. unfold ack_record. destruct (s_outstate s) eqn:Eo.
  - destruct (send_ok s now sent got er SPTPS_HANDSHAKE []) as (s' & Es & [(n & c & ->) Hc] & Hq).
    { intros _. by apply Ht. } { split; [done|]. split; [constructor|done]. }
    destruct (Ht eq_refl) as (co & Hco & Wco). destruct (Hc co Hco Wco) as (c' & Ec & Wc' & _).
    exists c', (S now). split; [|done]. unfold send_ack. rewrite Es. change (c = Some c') in Ec.
    change (n = u32 (s_outseqno s + 1)) in Hq. by subst.
  - destruct (Hf eq_refl) as (co & Hco & Wco). exists co, now. split; [|done]. rewrite app_nil_r.
    unfold ret. do 3 f_equal. destruct s; cbn in Hco; subst; reflexivity.
Qed.

Lemma receive_sig_ok s now sent got er hk mine his e data len :
  sig_ready s hk mine his e -> 64 <= zlen data -> len = 64 ->
  ecdsa_verify hk (sig_msg (negb (s_initiator s)) his mine (s_label s)) (take 64 data) = true ->
  exists shared s' now', ecdh_compute_shared e (slice 33 32 his) = Some shared /\
    receive_sig E data len (World s now sent got er) = Done (true, World s' now' (sent ++ ack_record s) got er) /\
    keyed s s' (key_material (s_initiator s) mine his (s_label s) shared).
Proof.
  intros [] Hz -> Hv. destruct (compute_shared_ok e (slice 33 32 his)) as (shared & Esh & Lsh & _).
  set (k := key_material (s_initiator s) mine his (s_label s) shared).
  destruct (key_material_ok (s_initiator s) mine his (s_label s) shared) as [Lk Bk]. fold k in Lk, Bk.
  set (s1 := set_ecdh None s).
  pose proof (generate_key_material_ok s1 now sent got er mine his shared sr_mykex0 sr_hiskex0 sr_mine0 sr_his0 sr_label0 Lsh) as Eg.
  change (s_initiator s1) with (s_initiator s) in Eg. change (s_label s1) with (s_label s) in Eg. fold k in Eg.
  set (s2 := set_hiskex None (set_mykex None (set_key (Some k) (with_ciphers s1)))).
  assert (Eo2 : s_outstate s2 = s_outstate s).
  { unfold s2, with_ciphers. change (s_outstate s1) with (s_outstate s). destruct (s_outstate s) eqn:Eo; exact Eo. }
  destruct (send_ack_if s2 (S now) sent got er) as (co & now' & Ea & Wco).
  { rewrite Eo2. intros Ho. destruct (sr_ciphers0 Ho) as (co & ci & Hco & Wco & _). exists co. split; [|done].
    unfold s2, with_ciphers. change (s_outstate s1) with (s_outstate s). rewrite Ho. exact Hco. }
  { rewrite Eo2. intros Ho. exists aead_init. split; [|apply aead_init_wf].
    unfold s2, with_ciphers. change (s_outstate s1) with (s_outstate s). rewrite Ho. done. }
  assert (Er : ack_record s2 = ack_record s).
  { unfold ack_record. rewrite Eo2. destruct (s_outstate s) eqn:Ho; [|done].
    assert (Ew : with_ciphers s1 = s1) by (unfold with_ciphers; change (s_outstate s1) with (s_outstate s); by rewrite Ho).
    unfold s2. rewrite Ew. reflexivity. }
  rewrite Eo2, Er in Ea.
  eexists shared, _, now'. splits; [done| |].
  - unfold receive_sig. steps. answer sr_hiskey0. cbn [ecdsa_size Z.eqb Pos.eqb negb].
    answer sr_hiskex0. answer sr_mykex0. answer (sig_message_ok (negb (s_initiator s)) his mine (s_label s) sr_his0 sr_mine0).
    assert (Es : mem_read data 0 64 = Done (take 64 data)) by (rewrite mem_read_ok by lia; by rewrite drop_0).
    answer Es. rewrite Hv. cbn [negb]. answer sr_ecdh0.
    assert (Ep : mem_read his (1 + 32) ECDH_SIZE = Done (slice 33 32 his))
      by (destruct sr_his0; rewrite mem_read_ok by (unfold zlen, ECDH_SIZE; lia); done).
    answer Ep. rewrite Esh. steps. answer Eg. cbn [negb]. steps. fold s2. answer Ea. cbn [negb]. steps.
    erewrite bind_deref by reflexivity. cbv beta. sproj.
    assert (Ek : s_key s2 = Some k) by reflexivity. answer Ek.
    assert (Ei : s_initiator s2 = s_initiator s).
    { unfold s2, with_ciphers. change (s_outstate s1) with (s_outstate s). by destruct (s_outstate s). }
    rewrite Ei. answer (half_key_ok k (s_initiator s) Lk). steps. reflexivity.
  - destruct (s_outstate s) eqn:Ho.
    + destruct (sr_ciphers0 eq_refl) as (c0 & ci & Hc0 & _ & Hci & Wci). split. eexists _, co, ci.
      rewrite Ho. splits; try done. unfold s2, with_ciphers. change (s_outstate s1) with (s_outstate s). rewrite Ho.
      destruct s; cbn in Hci; subst; reflexivity.
    + split. eexists _, co, aead_init. rewrite Ho. splits; try done; [|apply aead_init_wf].
      unfold s2, with_ciphers. change (s_outstate s1) with (s_outstate s). rewrite Ho.
      destruct s; reflexivity.
Qed.

End Run.
