(* ===== verification/SptpsHs.v ===== *)
(** The handshake of an SPTPS session never goes wrong.

    [core] is what holds of every started session, [hs] ties the handshake state
    to the key material it needs.  From such a session every handshake record,
    whatever it holds, is handled without following a NULL pointer or leaving an
    object, and leaves such a session. *)
From S2P Require Import Prelude Bytes Aead Sha512 Prf Ed25519 Sptps SptpsRun.

Section Handshake.
Context {A : Aead} {C : Ed25519} (E : env) (HE : env_ok E).

(** ** The handshake *)

(** Everything the handshake does not touch. *)
Definition fixed (s : sptps_t) :=
  (s_initiator s, s_datagram s, s_inbuf s, s_buflen s, s_replaywin s, s_inseqno s, s_received s, s_reclen s,
   s_late s, s_decrypted_buffer s, s_decrypted_buffer_len s, s_mykey s, s_hiskey s, s_label s).

Record core (s : sptps_t) : Prop := {
  co_mykey : exists k, s_mykey s = Some k;
  co_hiskey : exists k, s_hiskey s = Some k;
  co_label : label_ok (s_label s);
  co_inout : s_instate s = true -> s_outstate s = true;
  co_ciphers : s_outstate s = true ->
    exists co ci, s_outcipher s = Some co /\ aead_wf co /\ s_incipher s = Some ci /\ aead_wf ci;
}.

(** Our own KEX message has been sent. *)
Definition in_kex (s : sptps_t) : Prop :=
  exists m e, s_mykex s = Some m /\ kex_msg m /\ s_ecdh s = Some e.

Inductive hs (s : sptps_t) : Prop :=
  | hs_kex : s_state s = SPTPS_KEX -> s_hiskex s = None -> in_kex s -> hs s
  | hs_secondary : s_state s = SPTPS_SECONDARY_KEX -> s_hiskex s = None -> s_instate s = true ->
      s_outstate s = true -> (s_mykex s = None \/ in_kex s) -> hs s
  | hs_sig his : s_state s = SPTPS_SIG -> in_kex s -> s_hiskex s = Some his -> kex_msg his -> hs s
  | hs_ack k : s_state s = SPTPS_ACK -> s_outstate s = true -> s_mykex s = None -> s_hiskex s = None ->
      s_key s = Some k -> length k = 128%nat -> bytes_ok k -> hs s.

(** What a handshake step leaves. *)
Record hs_step (s s' : sptps_t) : Prop := {
  ht_fixed : fixed s' = fixed s;
  ht_instate : s_instate s = true -> s_instate s' = true;
  ht_outstate : s_outstate s = true -> s_outstate s' = true;
}.

Lemma hs_step_refl s : hs_step s s.
Proof. by split. Qed.

Lemma hs_step_trans a b c : hs_step a b -> hs_step b c -> hs_step a c.
Proof. intros [] []. split; [congruence|auto|auto]. Qed.

Lemma core_out_ok s : core s -> out_ok s.
Proof. intros [] Ho. destruct (co_ciphers0 Ho) as (co & ci & ? & ? & _). eauto. Qed.

Lemma out_only_step s s' : out_only s s' -> hs_step s s'.
Proof. intros [(n & c & ->) _]. by split. Qed.

Lemma out_only_core s s' : core s -> out_only s s' -> core s'.
Proof.
  intros [] [(n & c & ->) Hc]. split; try done. intros Ho. destruct (co_ciphers0 Ho) as (co & ci & H1 & H2 & H3 & H4).
  destruct (Hc co H1 H2) as (c' & Ec & Wc & _). exists c', ci. done.
Qed.

Lemma out_only_hs s s' : hs s -> out_only s s' -> hs s'.
Proof.
  intros H [(n & c & ->) _]. destruct H; [by apply hs_kex|by apply hs_secondary|by eapply hs_sig|by eapply hs_ack].
Qed.

Lemma core_state s v : core s -> core (set_state v s).
Proof. intros []. by split. Qed.

Lemma hs_step_state s s' v : hs_step s s' -> hs_step s (set_state v s').
Proof. intros []. by split. Qed.

Lemma keyed_core s s' k : core s -> length k = 128%nat -> bytes_ok k -> keyed s s' k -> core s'.
Proof.
  intros [] Lk Bk [(n & co & ic & -> & Wo & Wi & _ & _)]. split; try done. intros _.
  exists (aead_set_key co (half k (s_initiator s))), ic. destruct (half_ok k (s_initiator s) Lk Bk) as [Lh Bh].
  splits; [done|apply aead_set_key_wf; [done|done|lia]|done|done].
Qed.

Lemma keyed_step s s' k : keyed s s' k -> hs_step s s'.
Proof. intros [(n & co & ic & -> & _)]. by split. Qed.

(** The result of a call that keeps the invariant. *)
Definition hs_safe (s : sptps_t) (r : outcome (bool * world)) : Prop :=
  exists b s' now' sent' got' er', r = Done (b, World s' now' sent' got' er') /\ core s' /\ hs s' /\ hs_step s s'.

Lemma hs_safe_same s now sent got er b :
  core s -> hs s -> hs_safe s (Done (b, World s now sent got er)).
Proof. intros Hc Hh. exists b, s, now, sent, got, er. split; [done|]. splits; [done|done|apply hs_step_refl]. Qed.

Lemma handshake_kex_safe s now sent got er data len :
  core s -> s_hiskex s = None -> in_kex s -> hs s ->
  0 <= len <= zlen data -> bytes_ok data ->
  hs_safe s (handshake_kex E data len (World s now sent got er)).
Proof.
  intros Hc Hh (m & e & Hm & Km & He) Hhs Hl Hd. unfold handshake_kex. destruct (decide (len = 65)) as [->|Hne].
  - destruct (co_mykey s Hc) as (k & Hk).
    destruct (receive_kex_ok E HE s now sent got er k m data 65) as (sig & s' & Kh & _ & _ & _ & Er & Ho & _); try done.
    { by apply core_out_ok. } { lia. }
    answer Er. cbn [negb]. steps. set (s1 := set_hiskex (Some (take 65 data)) s) in *.
    assert (Hc1 : core s1) by (destruct Hc; by split).
    eexists true, _, _, _, _, _. split; [reflexivity|].
    pose proof (out_only_core s1 s' Hc1 Ho) as Hc'. destruct Ho as [(n & c & ->) _].
    splits; [by destruct Hc'|by eapply hs_sig; [done|exists m, e; done|done|exact Kh]|by split].
  - answer (receive_kex_bad E s now sent got er data len Hne). cbn [negb]. unfold ret. by apply hs_safe_same.
Qed.

Lemma handshake_done_safe s now sent got er :
  core s -> s_instate s = true -> s_outstate s = true -> s_mykex s = None -> s_hiskex s = None ->
  hs_safe s (handshake_done E (World s now sent got er)).
Proof.
  intros Hc Hi Ho Hm Hh. unfold handshake_done.
  destruct (receive_record_ok E HE s now sent got er SPTPS_HANDSHAKE [] (core_out_ok s Hc)) as (s' & n' & q' & e' & Er & Hs).
  answer Er. steps. eexists true, _, _, _, _, _. split; [reflexivity|].
  pose proof (out_only_core s s' Hc Hs) as Hc'. destruct Hs as [(n & c & ->) _].
  splits; [by destruct Hc'|apply hs_secondary; auto|by split].
Qed.

(** Switching to the new key for incoming records. *)
Lemma ack_core s ci k :
  core s -> s_outstate s = true -> s_incipher s = Some ci -> aead_wf ci -> length k = 128%nat -> bytes_ok k ->
  core (set_instate true (set_key None (set_incipher (Some (aead_set_key ci (half k (negb (s_initiator s))))) s))).
Proof.
  intros [] Ho Hi Wi Lk Bk. split; try done. intros _. destruct (co_ciphers0 Ho) as (co & _ & Hco & Wco & _).
  destruct (half_ok k (negb (s_initiator s)) Lk Bk) as [Lh Bh].
  eexists co, _. splits; [done|done|reflexivity|apply aead_set_key_wf; [done|done|lia]].
Qed.

Lemma handshake_sig_safe s now sent got er data len his :
  core s -> s_state s = SPTPS_SIG -> in_kex s -> s_hiskex s = Some his -> kex_msg his ->
  0 <= len <= zlen data -> bytes_ok data ->
  hs_safe s (receive_handshake E data len (World s now sent got er)).
Proof.
  intros Hc Hst Hk Hh Kh Hl Hd. unfold receive_handshake. steps. rewrite Hst. cbn [Z.eqb SPTPS_SECONDARY_KEX SPTPS_KEX SPTPS_SIG Pos.eqb].
  pose proof Hk as (m & e & Hm & Km & He). destruct (co_hiskey s Hc) as (hk & Hhk).
  assert (Hs : hs s) by (by eapply hs_sig).
  destruct (decide (len = 64)) as [->|Hne].
  2: { answer (sig_length_failed E s now sent got er hk data len Hhk Hne). cbn [negb]. unfold ret. by apply hs_safe_same. }
  assert (Hr : sig_ready s hk m his e) by (split; try done; apply Hc).
  destruct (ecdsa_verify hk (sig_msg (negb (s_initiator s)) his m (s_label s)) (take 64 data)) eqn:Ev.
  2: { answer (verify_failed E s now sent got er hk m his e data 64 Hr ltac:(lia) eq_refl Ev). cbn [negb]. unfold ret. by apply hs_safe_same. }
  destruct (receive_sig_ok E HE s now sent got er hk m his e data 64 Hr ltac:(lia) eq_refl Ev) as (shared & s' & n' & _ & Er & Hkd).
  answer Er. cbn [negb]. set (k := key_material _ _ _ _ _) in *. destruct (key_material_ok (s_initiator s) m his (s_label s) shared) as [Lk Bk].
  fold k in Lk, Bk. clearbody k. pose proof (keyed_core s s' k Hc Lk Bk Hkd) as Hc'. pose proof (keyed_step s s' k Hkd) as Hst'.
  destruct Hkd as [(n & co & ic & -> & Wco & Wic & Hic & _)]. steps.
  destruct (s_outstate s) eqn:Ho.
  - steps. eexists true, _, _, _, _, _. split; [reflexivity|].
    splits; [by apply core_state| |by apply hs_step_state].
    apply (hs_ack _ k); [reflexivity|exact Ho|reflexivity|reflexivity|reflexivity|exact Lk|exact Bk].
  - steps. match goal with |- context [receive_ack 0] => idtac end.
    match goal with |- hs_safe _ (bind (receive_ack 0) _ (World ?s2 _ _ _ _)) =>
      pose proof (receive_ack_ok s2 n' (sent ++ ack_record s) got er ic k eq_refl eq_refl Lk) as Ea; set (s3 := s2) in * end.
    answer Ea. cbn [negb].
    assert (Hc3 : core s3).
    { destruct Hc as [? ? ? ? _]. split; try done. intros _. eexists _, ic. splits; [reflexivity| |reflexivity|done].
      destruct (half_ok k (s_initiator s) Lk Bk) as [Lh Bh]. apply aead_set_key_wf; [done|done|lia]. }
    pose proof (ack_core s3 ic k Hc3 eq_refl eq_refl Wic Lk Bk) as Hc4.
    set (s4 := set_instate true _) in *.
    destruct (handshake_done_safe s4 n' (sent ++ ack_record s) got er Hc4 eq_refl eq_refl eq_refl eq_refl)
      as (b & s5 & n5 & q5 & g5 & e5 & Ed & H5 & H6 & H7).
    exists b, s5, n5, q5, g5, e5. splits; [exact Ed|done|done|].
    eapply hs_step_trans; [|exact H7]. by split.
Qed.

(** Sending our KEX message. *)
Lemma send_kex_safe s now sent got er :
  core s -> s_mykex s = None -> s_hiskex s = None ->
  exists s' now' sent', send_kex E (World s now sent got er) = Done (true, World s' now' sent' got er) /\
    core s' /\ in_kex s' /\ hs_step s s' /\ s_hiskex s' = None /\ s_state s' = s_state s /\
    s_instate s' = s_instate s /\ s_outstate s' = s_outstate s.
Proof.
  intros Hc Hm Hh. destruct (send_kex_ok E HE s now sent got er (core_out_ok s Hc) Hm) as (e & pub & s' & _ & Hk & Es & Ho & _).
  cbv zeta in *. set (m := kex_of _ _) in *. clearbody m. set (s1 := set_ecdh (Some e) (set_mykex (Some m) s)) in *.
  eexists s', _, _. split; [exact Es|]. assert (Hc1 : core s1) by (destruct Hc; by split).
  pose proof (out_only_core s1 s' Hc1 Ho) as Hc'. destruct Ho as [(n & c & ->) _].
  splits; [done|by exists m, e|by split|done|done|done|done].
Qed.

Lemma receive_handshake_safe s now sent got er data len :
  core s -> hs s -> 0 <= len <= zlen data -> bytes_ok data ->
  hs_safe s (receive_handshake E data len (World s now sent got er)).
Proof.
  intros Hc Hs Hl Hd. pose proof Hs as Hs'. destruct Hs as [Hst Hh Hk|Hst Hh Hi Ho Hk|his Hst Hk Hh Kh|k Hst Ho Hm Hh Hk Lk Bk].
  - unfold receive_handshake. steps. rewrite Hst. cbn [Z.eqb SPTPS_SECONDARY_KEX SPTPS_KEX Pos.eqb].
    by apply handshake_kex_safe.
  - unfold receive_handshake. steps. rewrite Hst. cbn [Z.eqb SPTPS_SECONDARY_KEX Pos.eqb].
    destruct Hk as [Hm|Hk].
    + destruct (send_kex_safe s now sent got er Hc Hm Hh) as (s' & n' & q' & Es & Hc' & Hk' & Hst' & Hh' & Est & Ei & Eo).
      answer Es. cbn [negb].
      destruct (handshake_kex_safe s' n' q' got er data len Hc' Hh' Hk') as (b & s2 & n2 & q2 & g2 & e2 & E2 & H2 & H3 & H4);
        [apply hs_secondary; try congruence; auto|done|done|].
      exists b, s2, n2, q2, g2, e2. splits; [exact E2|done|done|by eapply hs_step_trans].
    + destruct Hk as (m & e & Hm & Km & He).
      assert (Es : send_kex E (World s now sent got er) = Done (false, World s now sent got er)).
      { unfold send_kex. steps. rewrite Hm. rewrite bool_decide_true by eauto. done. }
      answer Es. cbn [negb]. unfold ret. by apply hs_safe_same.
  - by eapply handshake_sig_safe.
  - unfold receive_handshake. steps. rewrite Hst. cbn [Z.eqb SPTPS_SECONDARY_KEX SPTPS_KEX SPTPS_SIG SPTPS_ACK Pos.eqb].
    destruct (decide (len = 0)) as [->|Hne].
    + destruct (co_ciphers s Hc Ho) as (co & ci & _ & _ & Hci & Wci).
      answer (receive_ack_ok s now sent got er ci k Hci Hk Lk). cbn [negb].
      pose proof (ack_core s ci k Hc Ho Hci Wci Lk Bk) as Hc4. set (s4 := set_instate true _) in *.
      destruct (handshake_done_safe s4 now sent got er Hc4 eq_refl Ho Hm Hh) as (b & s5 & n5 & q5 & g5 & e5 & Ed & H5 & H6 & H7).
      exists b, s5, n5, q5, g5, e5. splits; [exact Ed|done|done|]. eapply hs_step_trans; [|exact H7]. by split.
    + assert (Er : receive_ack len (World s now sent got er) = Done (false, World s now sent got EIO)).
      { unfold receive_ack. by rewrite (proj2 (Z.eqb_neq len 0)). }
      answer Er. cbn [negb]. unfold ret. by apply hs_safe_same.
Qed.

Lemma force_kex_safe s now sent got er :
  core s -> hs s -> hs_safe s (sptps_force_kex E (World s now sent got er)).
Proof.
  intros Hc Hs. unfold sptps_force_kex. steps. destruct (s_outstate s) eqn:Eo; cbn [negb]; [|by apply hs_safe_same].
  destruct (Z.eqb_spec (s_state s) SPTPS_SECONDARY_KEX) as [Est|Est]; cbn [negb]; [|unfold ret; by apply hs_safe_same].
  steps. assert (Hc1 : core (set_state SPTPS_KEX s)) by (by apply core_state).
  destruct Hs as [H|_ Hh Hi Ho Hk|his H|k H]; try (rewrite Est in H; done).
  destruct Hk as [Hm|(m & e & Hm & Km & He)].
  - destruct (send_kex_safe (set_state SPTPS_KEX s) now sent got er Hc1 Hm Hh)
      as (s' & n' & q' & Es & Hc' & Hk' & Hst' & Hh' & Est' & Ei & Eo').
    eexists true, s', _, _, _, _. splits; [exact Es|done|by apply hs_kex|]. eapply hs_step_trans; [|exact Hst']. by split.
  - eexists false, (set_state SPTPS_KEX s), _, _, _, _. splits; [|done|apply hs_kex; [done|done|by exists m, e]|by split].
    unfold send_kex. steps. rewrite Hm, bool_decide_true by eauto. reflexivity.
Qed.

End Handshake.
