(* ===== verification/SptpsSafe.v ===== *)
(** Stream sessions: the invariant, and that every call keeps it.

    A well-formed stream session has, besides what the handshake needs, room in
    [inbuf] for the record it is collecting.  From a well-formed session every
    call returns, follows no NULL pointer, stays inside its buffers and leaves a
    well-formed session; and a stream may be cut into calls anywhere. *)
From S2P Require Import Prelude Bytes Aead Sha512 Prf Ed25519 Sptps SptpsRun SptpsHs.

Lemma bytes_ok_write o (bs m : list Z) : bytes_ok m -> bytes_ok bs -> bytes_ok (list_write o bs m).
Proof. intros Hm Hb. unfold list_write. apply Forall_app; split; [by apply Forall_take|]. apply Forall_app; split; [done|by apply Forall_drop]. Qed.

Lemma mem_write_list m off bs :
  0 <= off -> off + zlen bs <= zlen m -> mem_write m off bs = Done (list_write (Z.to_nat off) bs m).
Proof. apply mem_write_ok. Qed.

Lemma zlen_list_write o (bs m : list Z) : Z.of_nat o + zlen bs <= zlen m -> zlen (list_write o bs m) = zlen m.
Proof. unfold zlen. intros H. rewrite length_list_write by lia. done. Qed.

Section Stream.
Context {A : Aead} {C : Ed25519}.

(** ** The input buffer *)

Record stream_wf (s : sptps_t) : Prop := {
  sw_stream : s_datagram s = false;
  sw_reclen : 0 <= s_reclen s < 2 ^ 16;
  sw_bytes : bytes_ok (s_inbuf s);
  sw_room : (0 <= s_buflen s < 2 /\ 2 <= zlen (s_inbuf s)) \/
            (2 <= s_buflen s <= record_size s /\ zlen (s_inbuf s) = s_reclen s + 19);
  sw_decrypted : zlen (s_decrypted_buffer s) = s_decrypted_buffer_len s;
}.

Definition session_ok (s : sptps_t) : Prop := core s /\ hs s /\ stream_wf s.

Lemma record_size_range s : stream_wf s -> 3 <= s_reclen s + 3 /\ s_reclen s + 3 <= record_size s <= s_reclen s + 19.
Proof. intros []. unfold record_size, SPTPS_OVERHEAD. destruct (s_instate s); lia. Qed.

Lemma hs_step_stream s s' : hs_step s s' -> stream_wf s -> stream_wf s'.
Proof.
  intros [Hf Hi _] []. unfold fixed in Hf. injection Hf as _ Ed Eb El _ _ _ Er _ Ez En _ _ _.
  split; rewrite ?Eb, ?El, ?Er, ?Ez, ?En; try congruence; try done.
  destruct sw_room0 as [H|[[H1 H2] H3]]; [by left|right]. split; [split; [done|]|done].
  unfold record_size in *. rewrite Er. destruct (s_instate s); [rewrite Hi by done; done|].
  unfold SPTPS_OVERHEAD. destruct (s_instate s'); lia.
Qed.

(** Setting fields the handshake does not use. *)
Lemma core_inbuf s b : core s -> core (set_inbuf b s).
Proof. intros []. by split. Qed.
Lemma core_buflen s b : core s -> core (set_buflen b s).
Proof. intros []. by split. Qed.
Lemma core_reclen s b : core s -> core (set_reclen b s).
Proof. intros []. by split. Qed.
Lemma core_inseqno s b : core s -> core (set_inseqno b s).
Proof. intros []. by split. Qed.

Lemma hs_same s s' :
  s_state s' = s_state s -> s_hiskex s' = s_hiskex s -> s_mykex s' = s_mykex s -> s_ecdh s' = s_ecdh s ->
  s_key s' = s_key s -> s_instate s' = s_instate s -> s_outstate s' = s_outstate s -> hs s -> hs s'.
Proof.
  intros E1 E2 E3 E4 E5 E6 E7 H.
  assert (Hk : in_kex s -> in_kex s') by (intros (m & e & ? & ? & ?); exists m, e; splits; congruence).
  destruct H as [H1 H2 H3|H1 H2 H3 H4 H5|his H1 H2 H3 H4|k H1 H2 H3 H4 H5 H6 H7].
  - apply hs_kex; [congruence|congruence|auto].
  - apply hs_secondary; try congruence. destruct H5; [left; congruence|right; auto].
  - eapply (hs_sig _ his); [congruence|auto|congruence|done].
  - eapply (hs_ack _ k); congruence.
Qed.

(** What a change of the input buffer alone keeps. *)
Record in_only (s s' : sptps_t) : Prop := {
  io_shape : exists b n r q, s' = set_inbuf b (set_buflen n (set_reclen r (set_inseqno q s)));
}.

Lemma in_only_core s s' : in_only s s' -> core s -> core s'.
Proof. intros [(b & n & r & q & ->)] []. by split. Qed.

Lemma in_only_hs s s' : in_only s s' -> hs s -> hs s'.
Proof. intros [(b & n & r & q & ->)]. by apply hs_same. Qed.

Lemma in_only_session s s' : in_only s s' -> session_ok s -> stream_wf s' -> session_ok s'.
Proof. intros Hi (Hc & Hh & _) Hw. split; [by eapply in_only_core|]. split; [by eapply in_only_hs|done]. Qed.

(** ** Collecting bytes *)

Definition taken (s : sptps_t) (bs : list Z) : sptps_t :=
  set_buflen (s_buflen s + zlen bs) (set_inbuf (list_write (Z.to_nat (s_buflen s)) bs (s_inbuf s)) s).

Lemma taken_in_only s bs : in_only s (taken s bs).
Proof. split. eexists _, _, (s_reclen s), (s_inseqno s). by destruct s. Qed.

Lemma stream_take_ok s now sent got er n ptr :
  0 <= n -> 0 <= s_buflen s -> s_buflen s + n <= zlen (s_inbuf s) ->
  stream_take n ptr (World s now sent got er) =
  Done (drop (Z.to_nat n) ptr, World (taken s (take (Z.to_nat n) ptr)) now sent got er).
Proof.
  intros Hn Hb Hr. unfold stream_take. steps. set (k := Z.min n (zlen ptr)).
  assert (Et : take (Z.to_nat k) ptr = take (Z.to_nat n) ptr).
  { unfold k, zlen. destruct (Z.min_spec n (Z.of_nat (length ptr))) as [[? ->]|[? ->]]; [done|].
    rewrite Nat2Z.id, !take_ge by lia. done. }
  assert (Ed : drop (Z.to_nat k) ptr = drop (Z.to_nat n) ptr).
  { unfold k, zlen. destruct (Z.min_spec n (Z.of_nat (length ptr))) as [[? ->]|[? ->]]; [done|].
    rewrite Nat2Z.id, !drop_ge by lia. done. }
  rewrite Et, Ed. assert (Ek : k = zlen (take (Z.to_nat n) ptr)) by (rewrite zlen_take; unfold k; lia).
  pose proof (mem_write_list (s_inbuf s) (s_buflen s) (take (Z.to_nat n) ptr) Hb) as Ew.
  answer (Ew ltac:(rewrite zlen_take; lia)). steps. unfold taken. rewrite <- Ek. done.
Qed.

(** The two length bytes have been read. *)
Definition header_read (al : alloc) (s : sptps_t) : sptps_t :=
  let s := set_reclen (be_val (take 2 (s_inbuf s))) s in
  set_inbuf (mem_realloc al (s_inbuf s) (s_reclen s + SPTPS_OVERHEAD)) s.

Lemma header_read_in_only al s : in_only s (header_read al s).
Proof.
  split. exists (s_inbuf (header_read al s)), (s_buflen s), (s_reclen (header_read al s)), (s_inseqno s). by destruct s.
Qed.

Lemma header_read_wf al s :
  s_datagram s = false -> bytes_ok (s_inbuf s) -> 2 <= zlen (s_inbuf s) -> s_buflen s = 2 ->
  zlen (s_decrypted_buffer s) = s_decrypted_buffer_len s ->
  (forall k, 0 <= a_junk al k < 256) -> stream_wf (header_read al s).
Proof.
  intros Hd Hb Hz Hl Hdb Hj. unfold header_read. set (r := be_val _).
  assert (Hr : 0 <= r < 2 ^ 16).
  { unfold r. pose proof (be_val_range (take 2 (s_inbuf s)) (Forall_take _ _ _ Hb)) as H.
    rewrite zlen_take in H. replace (Z.min (Z.of_nat 2) (zlen (s_inbuf s))) with 2 in H by lia. exact H. }
  clearbody r. split; sproj; [done|done| | |done].
  - apply Forall_app. split; [by apply Forall_take|]. apply Forall_forall. intros x Hx.
    unfold mem_fresh in Hx. apply list_elem_of_fmap in Hx as (k & -> & _). apply Hj.
  - right. unfold record_size. sproj. rewrite Hl. unfold mem_realloc, SPTPS_OVERHEAD.
    split; [destruct (s_instate s); lia|]. rewrite zlen_app, zlen_take, zlen_fresh. sproj. lia.
Qed.

Context (E : env) (HE : env_ok E).

Lemma taken_wf s bs :
  stream_wf s -> bytes_ok bs -> s_buflen s + zlen bs <= zlen (s_inbuf s) ->
  bytes_ok (s_inbuf (taken s bs)) /\ zlen (s_inbuf (taken s bs)) = zlen (s_inbuf s) /\
  s_buflen (taken s bs) = s_buflen s + zlen bs.
Proof.
  intros [] Hb Hl. assert (0 <= s_buflen s) by lia. unfold taken. sproj. splits; [by apply bytes_ok_write| |done].
  apply zlen_list_write. lia.
Qed.

(** The header, when it is not complete yet. *)
Lemma stream_header_ok s now sent got er ptr :
  stream_wf s -> s_buflen s < 2 ->
  let n := Z.to_nat (2 - s_buflen s) in
  let s1 := taken s (take n ptr) in
  stream_header E ptr (World s now sent got er) =
  if zlen ptr <? 2 - s_buflen s then Done ((Some true, []), World s1 now sent got er)
  else Done ((if zlen (drop n ptr) =? 0 then Some true else None, drop n ptr),
             World (header_read (e_alloc E now) s1) (S now) sent got er).
Proof.
  intros Hw Hb n s1. assert (Hr : 0 <= s_buflen s /\ 2 <= zlen (s_inbuf s)) by (destruct Hw; lia). destruct Hr as [H0 H2].
  unfold stream_header. steps. rewrite (proj2 (Z.ltb_lt _ _) Hb).
  answer (stream_take_ok s now sent got er (2 - s_buflen s) ptr ltac:(lia) H0 ltac:(lia)). fold n s1. steps.
  assert (Hl : s_buflen s1 = s_buflen s + Z.min (2 - s_buflen s) (zlen ptr)).
  { unfold s1, taken. sproj. rewrite zlen_take. unfold n. lia. }
  assert (Hz : zlen (s_inbuf s1) = zlen (s_inbuf s)).
  { unfold s1, taken. sproj. apply zlen_list_write. rewrite zlen_take. lia. }
  destruct (Z.ltb_spec (zlen ptr) (2 - s_buflen s)) as [Hs|Hs].
  - rewrite (proj2 (Z.ltb_lt _ _)) by lia. unfold ret. rewrite drop_ge by (unfold zlen, n in *; lia). done.
  - rewrite (proj2 (Z.ltb_ge _ _)) by lia.
    assert (Er : mem_read (s_inbuf s1) 0 2 = Done (take 2 (s_inbuf s1))) by (rewrite mem_read_ok by lia; done).
    answer Er. steps. rewrite (eo_alloc E HE). cbn [negb]. steps. done.
Qed.

Lemma stream_header_done s now sent got er ptr :
  2 <= s_buflen s -> stream_header E ptr (World s now sent got er) = Done ((None, ptr), World s now sent got er).
Proof. intros H. unfold stream_header. steps. by rewrite (proj2 (Z.ltb_ge _ _) H). Qed.

(** What the header stage leaves. *)
Record header_post (s : sptps_t) (ptr : list Z) (s' : sptps_t) (r : option bool) (rest : list Z) : Prop := {
  hp_wf : stream_wf s';
  hp_only : in_only s s';
  hp_bytes : bytes_ok rest;
  hp_true : r <> Some false;
  hp_go : r = None -> rest <> [] /\ 2 <= s_buflen s' /\
    ((s' = s /\ rest = ptr) \/ (length rest < length ptr)%nat);
}.

Lemma in_only_refl s : in_only s s.
Proof. split. exists (s_inbuf s), (s_buflen s), (s_reclen s), (s_inseqno s). by destruct s. Qed.

Lemma in_only_trans a b c : in_only a b -> in_only b c -> in_only a c.
Proof. intros [(? & ? & ? & ? & ->)] [(b' & n' & r' & q' & ->)]. split. exists b', n', r', q'. by destruct a. Qed.

Lemma taken_short_wf s bs :
  stream_wf s -> bytes_ok bs -> s_buflen s + zlen bs < 2 -> stream_wf (taken s bs).
Proof.
  intros Hw Hb Hl. pose proof (zlen_nonneg bs). assert (0 <= s_buflen s /\ 2 <= zlen (s_inbuf s)) by (destruct Hw; lia).
  destruct (taken_wf s bs Hw Hb) as (H1 & H2 & H3); [lia|]. destruct Hw.
  split; [done|done|done| |done]. left. rewrite H2, H3. lia.
Qed.

Lemma stream_header_safe s now sent got er ptr :
  stream_wf s -> bytes_ok ptr -> ptr <> [] ->
  exists r rest s' now', stream_header E ptr (World s now sent got er) = Done ((r, rest), World s' now' sent got er) /\
    header_post s ptr s' r rest.
Proof.
  intros Hw Hb Hne. destruct (decide (2 <= s_buflen s)) as [H2|H2].
  { eexists _, _, _, _. split; [by apply stream_header_done|].
    split; [done|apply in_only_refl|done|done|]. intros _. splits; [done|done|by left]. }
  assert (H0 : 0 <= s_buflen s /\ 2 <= zlen (s_inbuf s)) by (destruct Hw; lia).
  pose proof (stream_header_ok s now sent got er ptr Hw ltac:(lia)) as Eh. cbv zeta in Eh. rewrite Eh. clear Eh.
  set (n := Z.to_nat (2 - s_buflen s)). set (bs := take n ptr).
  assert (Bb : bytes_ok bs) by (by apply Forall_take).
  assert (Zb : zlen bs = Z.min (2 - s_buflen s) (zlen ptr)) by (unfold bs, n; rewrite zlen_take; lia).
  destruct (taken_wf s bs Hw Bb) as (T1 & T2 & T3); [lia|].
  destruct (Z.ltb_spec (zlen ptr) (2 - s_buflen s)) as [Hs|Hs].
  - eexists _, _, _, _. split; [done|]. split; [apply taken_short_wf; [done|done|lia]|apply taken_in_only|constructor|done|done].
  - eexists _, _, _, _. split; [done|]. split.
    + apply header_read_wf; [by destruct Hw|done|lia|lia|by destruct Hw|apply (eo_junk E HE)].
    + eapply in_only_trans; [apply taken_in_only|apply header_read_in_only].
    + by apply Forall_drop.
    + by destruct (_ =? _).
    + intros Hr. split; [|split].
      * intros Hd. rewrite Hd in Hr. done.
      * unfold header_read. sproj. lia.
      * right. rewrite length_drop. unfold n. destruct ptr; [done|]. simpl. lia.
Qed.

(** The rest of the record. *)
Lemma taken_rest_wf s bs :
  stream_wf s -> 2 <= s_buflen s -> bytes_ok bs -> s_buflen s + zlen bs <= record_size s -> stream_wf (taken s bs).
Proof.
  intros Hw H2 Hb Hl. pose proof (record_size_range s Hw). pose proof (zlen_nonneg bs).
  assert (Hz : zlen (s_inbuf s) = s_reclen s + 19) by (destruct Hw; lia).
  destruct (taken_wf s bs Hw Hb) as (T1 & T2 & T3); [lia|]. destruct Hw.
  split; [done|done|done| |done]. right. rewrite T2, T3. split; [|exact Hz]. change (record_size (taken s bs)) with (record_size s). lia.
Qed.

(** ** One record *)

Lemma decrypt_in_ok s now sent got er seqno d c :
  s_incipher s = Some c -> aead_wf c -> bytes_ok d -> 16 <= zlen d < 2 ^ 32 ->
  exists c' r, decrypt_in seqno d (World s now sent got er) = Done (r, World (set_incipher (Some c') s) now sent got er) /\
    aead_wf c' /\ aead_same c c' /\ forall m, r = Some m <-> bytes_ok m /\ d = aead_seal c seqno m.
Proof.
  intros Hc Wc Hd Hl. destruct (aead_decrypt_ok c seqno d Wc Hd Hl) as (c' & r & Ed & Wc' & Sc & Hr).
  exists c', r. split; [|done]. unfold decrypt_in. steps. answer Hc. answer Ed. steps. done.
Qed.

(** The session in the middle of handling a complete record. *)
Definition full (s : sptps_t) : Prop := session_ok s /\ s_buflen s = record_size s.

Lemma core_incipher s c : core s -> aead_wf c -> core (set_incipher (Some c) s).
Proof.
  intros [H1 H2 H3 H4 Hci] Wc. split; try done. intros Ho. destruct (Hci Ho) as (co & ci & Hco & Wco & _). by eexists co, c.
Qed.

Lemma full_upd s s' b :
  full s -> s' = set_inbuf b s -> bytes_ok b -> zlen b = zlen (s_inbuf s) -> full s'.
Proof.
  intros [(Hc & Hh & Hw) Hl] -> Hb Hz. split; [|exact Hl]. unfold session_ok; splits; [by apply core_inbuf|by apply (hs_same s)|].
  destruct Hw. split; try done. sproj. rewrite Hz. exact sw_room0.
Qed.

Lemma full_incipher s c : full s -> aead_wf c -> full (set_incipher (Some c) s).
Proof.
  intros [(Hc & Hh & Hw) Hl] Wc. split; [|exact Hl]. unfold session_ok; splits; [by apply core_incipher|by apply (hs_same s)|].
  destruct Hw. by split.
Qed.

Lemma full_inseqno s n : full s -> full (set_inseqno n s).
Proof.
  intros [(Hc & Hh & Hw) Hl]. split; [|exact Hl]. unfold session_ok; splits; [by apply core_inseqno|by apply (hs_same s)|].
  destruct Hw. by split.
Qed.

Lemma full_room s : full s -> zlen (s_inbuf s) = s_reclen s + 19 /\ bytes_ok (s_inbuf s) /\ 0 <= s_reclen s < 2 ^ 16.
Proof. intros [(_ & _ & Hw) Hl]. pose proof (record_size_range s Hw). destruct Hw. splits; try done; lia. Qed.

Lemma stream_decrypt_safe s now sent got er seqno :
  full s ->
  exists b s' er', stream_decrypt seqno (World s now sent got er) = Done (b, World s' now sent got er') /\ full s'.
Proof.
  intros Hf. unfold stream_decrypt. steps. destruct (s_instate s) eqn:Ei.
  2: { by eexists true, s, er. }
  destruct (full_room s Hf) as (Hz & Hb & Hr). set (d := slice 2 (Z.to_nat (s_reclen s + 17)) (s_inbuf s)).
  assert (Er : mem_read (s_inbuf s) 2 (s_reclen s + 17) = Done d) by (rewrite mem_read_ok by lia; done).
  assert (Zd : zlen d = s_reclen s + 17) by (unfold d, zlen in *; rewrite length_slice; lia).
  answer Er. pose proof Hf as [(Hc & _ & _) _].
  destruct (co_ciphers s Hc (co_inout s Hc Ei)) as (co & ci & _ & _ & Hci & Wci).
  destruct (decrypt_in_ok s now sent got er seqno d ci Hci Wci) as (c' & r & Ed & Wc' & _ & Hm).
  { by apply Forall_take, Forall_drop. } { lia. }
  answer Ed. pose proof (full_incipher s c' Hf Wc') as Hf'. destruct r as [p|].
  - destruct (proj1 (Hm p) eq_refl) as [Bp Ep]. assert (Zp : zlen p = s_reclen s + 1).
    { pose proof (aead_seal_length ci seqno p) as H. rewrite <- Ep in H. lia. }
    answer (mem_write_list (s_inbuf s) 2 p ltac:(lia) ltac:(lia)). steps.
    eexists true, _, er. split; [reflexivity|]. eapply full_upd; [exact Hf'|reflexivity|by apply bytes_ok_write|].
    sproj. apply zlen_list_write. lia.
  - eexists false, _, EINVAL. by split.
Qed.

(** Handling a record changes neither the buffer nor the length of the record. *)
Lemma stream_handle_safe s now sent got er :
  full s ->
  exists b s' now' sent' got' er', stream_handle E (World s now sent got er) = Done (b, World s' now' sent' got' er') /\
    session_ok s'.
Proof.
  intros Hf. destruct (full_room s Hf) as (Hz & Hb & Hr). unfold stream_handle. steps.
  answer (mem_write_list (s_inbuf s) (s_reclen s + 3) [0] ltac:(lia) ltac:(unfold zlen in *; simpl; lia)). steps.
  set (buf := list_write _ _ _). assert (Bb : bytes_ok buf) by (apply bytes_ok_write; [done|by repeat constructor]).
  assert (Zb : zlen buf = zlen (s_inbuf s)) by (apply zlen_list_write; unfold zlen in *; simpl; lia).
  clearbody buf. assert (Et : mem_read buf 2 1 = Done (slice 2 1 buf)) by (rewrite mem_read_ok by lia; done). answer Et.
  set (s1 := set_inbuf buf s). assert (Hf1 : full s1) by (by eapply full_upd).
  pose proof Hf1 as [(Hc & Hh & Hw) _]. set (t := from_option _ _ (head (slice 2 1 buf))). clearbody t.
  destruct (t <? SPTPS_HANDSHAKE).
  - destruct (s_instate s) eqn:Ei; cbn [negb].
    2: { eexists false, s1, _, _, _, _; split; [reflexivity|apply Hf1]. }
    assert (Ed : mem_read buf 3 (s_reclen s) = Done (slice 3 (Z.to_nat (s_reclen s)) buf)) by (rewrite mem_read_ok by lia; done).
    answer Ed. set (data := slice _ _ _).
    destruct (receive_record_ok E HE s1 now sent got er t data (core_out_ok s1 Hc)) as (s' & n' & q' & e' & Er & Ho).
    eexists _, s', _, _, _, _. split; [exact Er|]. unfold session_ok; splits; [by eapply out_only_core|by eapply out_only_hs|].
    eapply hs_step_stream; [by apply out_only_step|done].
  - destruct (t =? SPTPS_HANDSHAKE); [|eexists false, s1, _, _, _, _; split; [reflexivity|apply Hf1]].
    destruct (receive_handshake_safe E HE s1 now sent got er (drop 3 buf) (s_reclen s) Hc Hh) as (b & s' & n' & q' & g' & e' & Er & H1 & H2 & H3).
    { rewrite zlen_drop. lia. } { by apply Forall_drop. }
    eexists b, s', _, _, _, _. split; [exact Er|]. unfold session_ok; splits; [done|done|by eapply hs_step_stream].
Qed.

Lemma stream_record_safe s now sent got er :
  full s ->
  exists b s' now' sent' got' er', stream_record E (World s now sent got er) = Done (b, World s' now' sent' got' er') /\
    session_ok s' /\ (b = true -> s_buflen s' = 0).
Proof.
  intros Hf. unfold stream_record. steps.
  destruct (stream_decrypt_safe (set_inseqno (u32 (s_inseqno s + 1)) s) now sent got er (s_inseqno s) (full_inseqno _ _ Hf))
    as (b & s1 & e1 & Ed & Hf1).
  answer Ed. destruct b; cbn [negb].
  2: { eexists false, s1, _, _, _, _. split; [done|]. split; [apply Hf1|done]. }
  destruct (stream_handle_safe s1 now sent got e1 Hf1) as (b & s2 & n2 & q2 & g2 & e2 & Eh & Hs2).
  answer Eh. destruct b; cbn [negb].
  2: { eexists false, s2, _, _, _, _. by splits. }
  steps. eexists true, _, _, _, _, _. split; [reflexivity|]. split; [|done].
  destruct Hs2 as (Hc & Hh & Hw). unfold session_ok; splits; [by apply core_buflen|by apply (hs_same s2)|].
  pose proof (record_size_range s2 Hw). destruct Hw. split; try done. left. sproj. lia.
Qed.

(** ** The loop *)

(** A complete record that was left over is handled without taking a byte. *)
Definition pending (s : sptps_t) : nat := if (2 <=? s_buflen s) && (record_size s <=? s_buflen s) then 1 else 0.

Lemma pending_start s : s_buflen s = 0 -> pending s = 0%nat.
Proof. intros H. unfold pending. by rewrite H. Qed.

Lemma pending_full s : 2 <= s_buflen s -> record_size s <= s_buflen s -> pending s = 1%nat.
Proof. intros H1 H2. unfold pending. by rewrite (proj2 (Z.leb_le _ _) H1), (proj2 (Z.leb_le _ _) H2). Qed.

(** The result of a call that keeps the invariant. *)
Definition safe_result {X} (r : outcome (X * world)) (P : X -> sptps_t -> Prop) : Prop :=
  exists x s now sent got er, r = Done (x, World s now sent got er) /\ session_ok s /\ P x s.

Lemma stream_pass_safe s now sent got er ptr :
  session_ok s -> bytes_ok ptr -> ptr <> [] ->
  safe_result (stream_pass E ptr (World s now sent got er)) (fun '(r, rest) s' =>
    bytes_ok rest /\ (r = None -> s_buflen s' = 0 /\ (length rest < length ptr + pending s)%nat)).
Proof.
  intros (Hc & Hh & Hw) Hb Hne. unfold stream_pass.
  destruct (stream_header_safe s now sent got er ptr Hw Hb Hne) as (r & rest & s1 & n1 & Eh & [Hw1 Ho1 Hb1 _ Hgo]).
  answer Eh. pose proof (in_only_core s s1 Ho1 Hc) as Hc1. pose proof (in_only_hs s s1 Ho1 Hh) as Hh1.
  destruct r as [r|].
  { eexists (Some r, rest), s1, _, _, _, _. by splits. }
  destruct (Hgo eq_refl) as (Hr & H2 & Hlen). unfold stream_body. steps.
  pose proof (record_size_range s1 Hw1) as Hrs. set (n := record_size s1 - s_buflen s1).
  assert (Hn : 0 <= n /\ zlen (s_inbuf s1) = s_reclen s1 + 19) by (unfold n; destruct Hw1; lia). destruct Hn as [Hn Hz].
  answer (stream_take_ok s1 n1 sent got er n rest Hn ltac:(lia) ltac:(unfold n; lia)).
  set (bs := take (Z.to_nat n) rest). assert (Bb : bytes_ok bs) by (by apply Forall_take).
  assert (Zb : zlen bs = Z.min n (zlen rest)) by (unfold bs; rewrite zlen_take; lia).
  assert (Hw2 : stream_wf (taken s1 bs)) by (apply taken_rest_wf; [done|done|done|unfold n in *; lia]).
  steps. change (record_size (taken s1 bs)) with (record_size s1). change (s_buflen (taken s1 bs)) with (s_buflen s1 + zlen bs).
  assert (Hs2 : session_ok (taken s1 bs)).
  { eapply in_only_session; [apply taken_in_only|by splits|done]. }
  destruct (Z.ltb_spec (s_buflen s1 + zlen bs) (record_size s1)) as [Hlt|Hge].
  { eexists (Some true, _), (taken s1 bs), _, _, _, _. split; [reflexivity|]. split; [done|]. split; [by apply Forall_drop|done]. }
  destruct (stream_record_safe (taken s1 bs) n1 sent got er) as (b & s3 & n3 & q3 & g3 & e3 & Er & Hs3 & Hb3).
  { split; [done|]. change (s_buflen s1 + zlen bs = record_size s1). unfold n in *; lia. }
  answer Er. eexists (_, _), s3, _, _, _, _. split; [reflexivity|]. split; [done|]. split; [by apply Forall_drop|].
  destruct b; [|done]. intros _. split; [by apply Hb3|]. rewrite length_drop. destruct Hlen as [[-> ->]|Hlen]; [|lia].
  destruct (decide (n = 0)) as [Hn0|Hn0].
  - rewrite (pending_full s) by (unfold n in *; lia). lia.
  - destruct ptr; [done|]. simpl. lia.
Qed.

Lemma stream_loop_safe n : forall s now sent got er ptr,
  session_ok s -> bytes_ok ptr -> (length ptr + pending s <= n)%nat ->
  exists res, (forall f, (length ptr + pending s < f)%nat -> stream_loop E f ptr (World s now sent got er) = res) /\
    safe_result res (fun _ _ => True).
Proof.
  induction n as [n IH] using lt_wf_ind. intros s now sent got er ptr Hs Hb Hn.
  destruct ptr as [|x ptr].
  { eexists. split; [|eexists true, s, _, _, _, _; by splits]. intros [|f] Hf; [lia|reflexivity]. }
  assert (Hne : x :: ptr <> []) by done. set (p := x :: ptr) in *.
  destruct (stream_pass_safe s now sent got er p Hs Hb Hne) as ([r rest] & s1 & n1 & q1 & g1 & e1 & Ep & Hs1 & Hb1 & Hgo).
  assert (Hu : forall f, stream_loop E (S f) p (World s now sent got er) =
    match r with Some r => ret r | None => stream_loop E f rest end (World s1 n1 q1 g1 e1)).
  { intros f. cbn [stream_loop]. assert (E0 : (zlen p =? 0) = false) by (apply Z.eqb_neq; unfold zlen, p; simpl; lia).
    rewrite E0. by answer Ep. }
  destruct r as [r|].
  - eexists. split; [|eexists r, s1, _, _, _, _; by splits]. intros [|f] Hf; [lia|]. apply Hu.
  - destruct (Hgo eq_refl) as [H0 Hl]. pose proof (pending_start s1 H0) as P1.
    destruct (IH (length rest) ltac:(lia) s1 n1 q1 g1 e1 rest Hs1 Hb1 ltac:(lia)) as (res & Hres & Hsafe).
    exists res. split; [|done]. intros [|f] Hf; [lia|]. rewrite Hu. apply Hres. lia.
Qed.

Lemma pending_le s : (pending s <= 1)%nat.
Proof. unfold pending. destruct (_ && _); lia. Qed.

Lemma hs_state s : hs s -> (s_state s =? 0) = false.
Proof. by intros [-> | -> | ? -> | ? -> ]. Qed.

(** Handing bytes to a session is running the loop, with any fuel that is enough. *)
Lemma receive_is_loop s now sent got er data f :
  session_ok s -> (length data + pending s < f)%nat -> bytes_ok data ->
  sptps_receive_data E data (World s now sent got er) = stream_loop E f data (World s now sent got er).
Proof.
  intros Hs Hf Hb. unfold sptps_receive_data. steps. rewrite hs_state by apply Hs. destruct Hs as (Hc & Hh & Hw).
  rewrite (sw_stream s Hw).
  destruct (stream_loop_safe (length data + pending s) s now sent got er data (conj Hc (conj Hh Hw)) Hb (le_n _)) as (res & Hr & _).
  pose proof (pending_le s). rewrite !Hr by lia. done.
Qed.

Lemma receive_data_safe s now sent got er data :
  session_ok s -> bytes_ok data ->
  safe_result (sptps_receive_data E data (World s now sent got er)) (fun _ _ => True).
Proof.
  intros Hs Hb. rewrite (receive_is_loop s now sent got er data (S (length data + pending s))) by (done || lia).
  destruct (stream_loop_safe _ s now sent got er data Hs Hb (le_n _)) as (res & Hr & Hsafe). rewrite Hr by lia. done.
Qed.

(** ** Cutting the stream *)

Lemma receive_step s now sent got er p :
  session_ok s -> bytes_ok p -> p <> [] ->
  sptps_receive_data E p (World s now sent got er) =
  bind (stream_pass E p) (fun '(r, rest) => match r with Some b => ret b | None => sptps_receive_data E rest end)
    (World s now sent got er).
Proof.
  intros Hs Hb Hne.
  rewrite (receive_is_loop s now sent got er p (S (length p + pending s))) by (done || lia). cbn [stream_loop].
  assert (E0 : (zlen p =? 0) = false) by (apply Z.eqb_neq; unfold zlen; destruct p; [done|simpl; lia]). rewrite E0.
  destruct (stream_pass_safe s now sent got er p Hs Hb Hne) as ([r rest] & s1 & n1 & q1 & g1 & e1 & Ep & Hs1 & Hb1 & Hgo).
  rewrite !(bind_returns _ _ _ _ _ Ep). destruct r as [b|]; [done|]. destruct (Hgo eq_refl) as [H0 Hl].
  symmetry. apply receive_is_loop; [done| |done]. rewrite (pending_start s1 H0). lia.
Qed.

Lemma receive_nil s now sent got er :
  session_ok s -> sptps_receive_data E [] (World s now sent got er) = Done (true, World s now sent got er).
Proof. intros Hs. rewrite (receive_is_loop s now sent got er [] 2); [done|done| |constructor]. pose proof (pending_le s). simpl. lia. Qed.

Lemma list_write_app o (a b m : list Z) :
  (o + length a + length b <= length m)%nat ->
  list_write (o + length a) b (list_write o a m) = list_write o (a ++ b) m.
Proof.
  intros H. apply list_eq_lookup.
  { rewrite !length_list_write; rewrite ?length_list_write; rewrite ?length_app; lia. }
  intros i Hi. rewrite !lookup_list_write by (rewrite ?length_list_write; rewrite ?length_app; lia).
  rewrite length_app. index_cases.
  - rewrite lookup_app_r by lia. f_equal. lia.
  - rewrite lookup_app_l by lia. done.
Qed.

Lemma taken_taken s a b :
  0 <= s_buflen s -> s_buflen s + zlen a + zlen b <= zlen (s_inbuf s) -> taken (taken s a) b = taken s (a ++ b).
Proof.
  intros H0 Hl. unfold taken. sproj. rewrite zlen_app.
  replace (Z.to_nat (s_buflen s + zlen a)) with (Z.to_nat (s_buflen s) + length a)%nat by (unfold zlen; lia).
  rewrite list_write_app by (unfold zlen in *; lia). rewrite Z.add_assoc. by destruct s.
Qed.

Lemma stream_body_ok s now sent got er p :
  stream_wf s -> 2 <= s_buflen s ->
  let n := record_size s - s_buflen s in let s1 := taken s (take (Z.to_nat n) p) in
  stream_body E p (World s now sent got er) =
  (if zlen p <? n then ret (Some true, []) else
   bind (stream_record E) (fun ok => ret (if ok then None else Some false, drop (Z.to_nat n) p))) (World s1 now sent got er).
Proof.
  intros Hw H2 n s1. pose proof (record_size_range s Hw) as Hrs.
  assert (Hn : 0 <= n /\ zlen (s_inbuf s) = s_reclen s + 19) by (unfold n; destruct Hw; lia). destruct Hn as [Hn Hz].
  unfold stream_body. steps.
  answer (stream_take_ok s now sent got er n p Hn ltac:(lia) ltac:(unfold n; lia)). fold s1. steps.
  change (record_size s1) with (record_size s). unfold s1 at 1, taken. sproj. rewrite zlen_take.
  destruct (Z.ltb_spec (zlen p) n).
  - rewrite (proj2 (Z.ltb_lt _ _)) by (unfold n in *; lia). rewrite drop_ge by (unfold zlen in *; lia). done.
  - rewrite (proj2 (Z.ltb_ge _ _)) by (unfold n in *; lia). done.
Qed.

(** After a record: the rest of the input, or the failure. *)
Definition then_receive (p : list Z) (ok : bool) : M bool := if ok then sptps_receive_data E p else ret false.

(** A call that starts inside a record. *)
Lemma receive_body s now sent got er p :
  session_ok s -> bytes_ok p -> p <> [] -> 2 <= s_buflen s ->
  let n := record_size s - s_buflen s in
  sptps_receive_data E p (World s now sent got er) =
  if zlen p <? n then Done (true, World (taken s p) now sent got er)
  else bind (stream_record E) (then_receive (drop (Z.to_nat n) p)) (World (taken s (take (Z.to_nat n) p)) now sent got er).
Proof.
  intros Hs Hb Hne H2 n. pose proof Hs as (_ & _ & Hw). rewrite receive_step by done. unfold stream_pass.
  rewrite bind_bind, (bind_returns _ _ _ _ _ (stream_header_done s now sent got er p H2)).
  pose proof (stream_body_ok s now sent got er p Hw H2) as Eb. cbv zeta in Eb. fold n in Eb.
  destruct (zlen p <? n) eqn:Ez.
  - rewrite (bind_returns _ _ _ _ _ Eb), take_ge; [done|]. ztests. unfold zlen in *. lia.
  - unfold bind at 1. rewrite Eb. unfold bind. destruct (stream_record E _) as [[[] w]|]; done.
Qed.

(** A complete record that was left over. *)
Lemma receive_pending s now sent got er p :
  session_ok s -> bytes_ok p -> p <> [] -> s_buflen s = record_size s ->
  sptps_receive_data E p (World s now sent got er) = bind (stream_record E) (then_receive p) (World s now sent got er).
Proof.
  intros Hs Hb Hne Hl. pose proof Hs as (_ & _ & Hw). pose proof (record_size_range s Hw).
  rewrite receive_body by (done || lia). rewrite Hl, Z.sub_diag. rewrite (proj2 (Z.ltb_ge _ _)) by apply zlen_nonneg.
  change (Z.to_nat 0) with 0%nat. rewrite drop_0, take_0. do 3 f_equal.
  unfold taken, list_write. change (zlen []) with 0. rewrite Z.add_0_r. cbn [app length]. rewrite Nat.add_0_r, take_drop. by destruct s.
Qed.

Lemma receive_cons_body s now sent got er x l :
  session_ok s -> bytes_ok (x :: l) -> 2 <= s_buflen s < record_size s ->
  sptps_receive_data E (x :: l) (World s now sent got er) =
  bind (sptps_receive_data E [x]) (then_receive l) (World s now sent got er).
Proof.
  intros Hs Hb H2. pose proof Hs as (Hc & Hh & Hw). apply Forall_cons in Hb as [Hx Hl].
  assert (Bx : bytes_ok [x]) by (by constructor). pose proof (record_size_range s Hw) as Hrs.
  assert (Hz : zlen (s_inbuf s) = s_reclen s + 19) by (destruct Hw; lia).
  pose proof (receive_body s now sent got er (x :: l) Hs ltac:(by constructor) ltac:(done) ltac:(lia)) as El.
  pose proof (receive_body s now sent got er [x] Hs Bx ltac:(done) ltac:(lia)) as Er. cbv zeta in El, Er.
  set (n := record_size s - s_buflen s) in *. change (zlen [x]) with 1 in Er.
  destruct (Z.ltb_spec 1 n) as [Hn|Hn].
  - rewrite (bind_returns _ _ _ _ _ Er). unfold then_receive.
    assert (Hs1 : session_ok (taken s [x])).
    { eapply in_only_session; [apply taken_in_only|done|].
      apply taken_rest_wf; [done|lia|done|]. change (zlen [x]) with 1. lia. }
    destruct (decide (l = [])) as [->|Hne].
    { rewrite receive_nil by done. rewrite Er. done. }
    rewrite El. rewrite (receive_body (taken s [x]) now sent got er l Hs1 Hl Hne) by (change (2 <= s_buflen s + 1); lia).
    change (record_size (taken s [x])) with (record_size s). change (s_buflen (taken s [x])) with (s_buflen s + 1).
    replace (record_size s - (s_buflen s + 1)) with (n - 1) by (unfold n; lia).
    replace (zlen (x :: l) <? n) with (zlen l <? n - 1)
      by (apply eq_true_iff_eq; rewrite !Z.ltb_lt; unfold zlen; simpl length; lia).
    replace (Z.to_nat n) with (S (Z.to_nat (n - 1))) by lia. cbn [take drop].
    destruct (Z.ltb_spec (zlen l) (n - 1)).
    + rewrite taken_taken; [done|lia|]. change (zlen [x]) with 1. unfold n in *. lia.
    + rewrite taken_taken; [done|lia|]. change (zlen [x]) with 1. rewrite zlen_take. unfold n in *. lia.
  - assert (En : n = 1) by (unfold n in *; lia). rewrite En in *. change (Z.to_nat 1) with 1%nat in *. cbn [take drop] in *.
    rewrite El. rewrite (proj2 (Z.ltb_ge _ _)) by (unfold zlen; simpl; lia). rewrite take_0 in *.
    unfold bind at 2. rewrite Er. unfold bind.
    destruct (stream_record_safe (taken s [x]) now sent got er) as (b & s3 & n3 & q3 & g3 & e3 & Es & Hs3 & _).
    { split; [|change (s_buflen s + 1 = record_size s); lia].
      eapply in_only_session; [apply taken_in_only|done|].
      apply taken_rest_wf; [done|lia|done|]. change (zlen [x]) with 1. lia. }
    rewrite Es. cbn [obind]. destruct b; [|done]. unfold then_receive. by rewrite receive_nil.
Qed.

(** A call that starts inside the length of a record. *)
Lemma receive_header s now sent got er p :
  session_ok s -> bytes_ok p -> p <> [] -> s_buflen s < 2 ->
  let n := Z.to_nat (2 - s_buflen s) in let s1 := taken s (take n p) in
  sptps_receive_data E p (World s now sent got er) =
  if zlen p <? 2 - s_buflen s then Done (true, World s1 now sent got er)
  else sptps_receive_data E (drop n p) (World (header_read (e_alloc E now) s1) (S now) sent got er).
Proof.
  intros Hs Hb Hne H2 n s1. pose proof Hs as (_ & _ & Hw). rewrite receive_step by done. unfold stream_pass. rewrite bind_bind.
  pose proof (stream_header_ok s now sent got er p Hw H2) as Eh. cbv zeta in Eh. fold n s1 in Eh.
  destruct (stream_header_safe s now sent got er p Hw Hb Hne) as (r & rest & s2 & n2 & Eh2 & [Hw2 Ho2 Hb2 _ Hgo]).
  pose proof (in_only_session s s2 Ho2 Hs Hw2) as Hs2.
  destruct (Z.ltb_spec (zlen p) (2 - s_buflen s)).
  { rewrite (bind_returns _ _ _ _ _ Eh). done. }
  rewrite (bind_returns _ _ _ _ _ Eh). rewrite Eh in Eh2. set (s3 := header_read _ s1) in *. injection Eh2 as Er Erest <- <-.
  destruct (zlen (drop n p) =? 0) eqn:Ez.
  - rewrite <- Erest in *. assert (Ed : drop n p = []) by (destruct (drop n p); [done|]; ztests; unfold zlen in *; simpl in *; lia).
    rewrite Ed, receive_nil by done. done.
  - destruct (Hgo (eq_sym Er)) as (Hr & H2' & _). rewrite <- Erest in *. rewrite receive_step by done. unfold stream_pass. rewrite bind_bind.
    by rewrite (bind_returns _ _ _ _ _ (stream_header_done s3 (S now) sent got er _ H2')).
Qed.

Lemma header_session s now p :
  session_ok s -> bytes_ok p -> s_buflen s < 2 -> 2 - s_buflen s <= zlen p ->
  session_ok (header_read (e_alloc E now) (taken s (take (Z.to_nat (2 - s_buflen s)) p))).
Proof.
  intros Hs Hb H2 Hz. pose proof Hs as (_ & _ & Hw). assert (H0 : 0 <= s_buflen s /\ 2 <= zlen (s_inbuf s)) by (destruct Hw; lia).
  set (bs := take _ p). assert (Zb : zlen bs = 2 - s_buflen s) by (unfold bs; rewrite zlen_take; lia).
  assert (Bb : bytes_ok bs) by (by apply Forall_take).
  eapply in_only_session; [eapply in_only_trans; [apply taken_in_only|apply header_read_in_only]|done|].
  destruct (taken_wf s bs Hw Bb) as (T1 & T2 & T3); [lia|].
  apply header_read_wf; [by destruct Hw|done|lia|lia|by destruct Hw|apply (eo_junk E HE)].
Qed.

Lemma receive_cons_header s now sent got er x l :
  session_ok s -> bytes_ok (x :: l) -> s_buflen s < 2 ->
  sptps_receive_data E (x :: l) (World s now sent got er) =
  bind (sptps_receive_data E [x]) (then_receive l) (World s now sent got er).
Proof.
  intros Hs Hb H2. pose proof Hs as (Hc & Hh & Hw). pose proof Hb as Hb'. apply Forall_cons in Hb as [Hx Hl].
  assert (Bx : bytes_ok [x]) by (by constructor).
  assert (H0 : 0 <= s_buflen s /\ 2 <= zlen (s_inbuf s)) by (destruct Hw; lia).
  pose proof (receive_header s now sent got er (x :: l) Hs Hb' ltac:(done) H2) as El.
  pose proof (receive_header s now sent got er [x] Hs Bx ltac:(done) H2) as Er. cbv zeta in El, Er.
  change (zlen [x]) with 1 in Er. destruct (decide (s_buflen s = 1)) as [E1|E1].
  - pose proof (header_session s now [x] Hs Bx H2 ltac:(change (zlen [x]) with 1; lia)) as Hs3.
    rewrite E1 in *. change (Z.to_nat (2 - 1)) with 1%nat in *. change (2 - 1) with 1 in *. cbn [take drop Z.ltb Z.compare Pos.compare Pos.compare_cont] in *.
    rewrite take_0 in El. rewrite El. rewrite (proj2 (Z.ltb_ge _ _)) by (unfold zlen; simpl; lia).
    rewrite receive_nil in Er by done. rewrite (bind_returns _ _ _ _ _ Er). done.
  - assert (E0 : s_buflen s = 0) by lia. assert (Hs1 : session_ok (taken s [x])).
    { eapply in_only_session; [apply taken_in_only|done|]. apply taken_short_wf; [done|done|]. change (zlen [x]) with 1. lia. }
    rewrite E0 in *. change (Z.to_nat (2 - 0)) with 2%nat in *. change (2 - 0) with 2 in *.
    cbn [take drop Z.ltb Z.compare Pos.compare Pos.compare_cont] in *. rewrite (bind_returns _ _ _ _ _ Er). unfold then_receive.
    destruct l as [|y l]; [by rewrite receive_nil|]. cbn [take drop] in El. rewrite take_0, drop_0 in El. rewrite El.
    rewrite (proj2 (Z.ltb_ge _ _)) by (unfold zlen; simpl; lia).
    rewrite (receive_header (taken s [x]) now sent got er (y :: l)) by (done || (change (s_buflen s + 1 < 2); lia)).
    change (s_buflen (taken s [x])) with (s_buflen s + 1). rewrite E0. change (Z.to_nat (2 - (0 + 1))) with 1%nat.
    cbn [take drop]. rewrite take_0, drop_0. rewrite (proj2 (Z.ltb_ge _ _)) by (unfold zlen; simpl; lia).
    rewrite taken_taken; [done|lia|]. change (zlen [x]) with 1. change (zlen [y]) with 1. lia.
Qed.

Lemma receive_cons s now sent got er x l :
  session_ok s -> bytes_ok (x :: l) ->
  sptps_receive_data E (x :: l) (World s now sent got er) =
  bind (sptps_receive_data E [x]) (then_receive l) (World s now sent got er).
Proof.
  intros Hs Hb. pose proof Hs as (Hc & Hh & Hw). assert (Bx : bytes_ok [x]) by (apply Forall_cons in Hb as [? _]; by constructor).
  destruct (decide (s_buflen s < 2)); [by apply receive_cons_header|].
  destruct (decide (s_buflen s < record_size s)); [apply receive_cons_body; [done|done|lia]|].
  assert (El : s_buflen s = record_size s) by (destruct Hw; lia).
  rewrite receive_pending by done. unfold bind at 2. rewrite (receive_pending s now sent got er [x]) by done.
  destruct (stream_record_safe s now sent got er) as (b & s1 & n1 & q1 & g1 & e1 & Er & Hs1 & H0); [by split|].
  rewrite !(bind_returns _ _ _ _ _ Er). destruct b; [|done]. unfold then_receive at 1 2.
  rewrite receive_cons_header; [done|done|done|]. rewrite H0 by done. lia.
Qed.

(** Handing over two pieces at once or one after the other is the same. *)
Lemma receive_app a : forall s now sent got er b,
  session_ok s -> bytes_ok (a ++ b) ->
  sptps_receive_data E (a ++ b) (World s now sent got er) =
  bind (sptps_receive_data E a) (then_receive b) (World s now sent got er).
Proof.
  induction a as [|x a IH]; intros s now sent got er b Hs Hb.
  { by rewrite (bind_returns _ _ _ _ _ (receive_nil s now sent got er Hs)). }
  cbn [app] in *. pose proof Hb as Hb'. apply Forall_cons in Hb as [Hx Hab]. pose proof Hab as [Ha _]%Forall_app.
  assert (Bx : bytes_ok [x]) by (by constructor). rewrite receive_cons by done. unfold bind at 2.
  rewrite receive_cons by (done || by constructor).
  destruct (receive_data_safe s now sent got er [x] Hs Bx) as (ok & s1 & n1 & q1 & g1 & e1 & Er & Hs1 & _).
  rewrite !(bind_returns _ _ _ _ _ Er). destruct ok; [|done]. unfold then_receive at 1 2. by rewrite IH.
Qed.

(** ** Starting and stopping *)

Lemma fresh_bytes_ok n lo k : bytes_ok (mem_fresh (e_alloc E n) lo k).
Proof. apply Forall_forall. intros x Hx. unfold mem_fresh in Hx. apply list_elem_of_fmap in Hx as (j & -> & _). apply (eo_junk E HE). Qed.

Lemma malloc_ok n s now sent got er :
  malloc E n (World s now sent got er) = Done (Some (mem_fresh (e_alloc E now) 0 n), World s (S now) sent got er).
Proof. unfold malloc. steps. by rewrite (eo_alloc E HE). Qed.

(** The session [sptps_start] has filled in when it sends its first record. *)
Definition started (initiator : bool) (mykey hiskey : ecdsa_t) (label dec inbuf : list Z) : sptps_t :=
  Sptps initiator false false false SPTPS_KEX inbuf 0 None 32 0 0 0 None 0 (replicate 32 0) dec 1024
    (Some mykey) (Some hiskey) None None None None label.

Lemma start_is_kex s now sent got er initiator mykey hiskey label :
  0 < zlen label ->
  exists dec inbuf, zlen dec = 1024 /\ zlen inbuf = 7 /\ bytes_ok inbuf /\
    sptps_start E initiator false (Some mykey) (Some hiskey) (Some label) (World s now sent got er) =
    send_kex E (World (started initiator mykey hiskey label dec inbuf) (S (S (S (S now)))) sent got er).
Proof.
  intros Hl. exists (mem_fresh (e_alloc E now) 0 1024), (mem_fresh (e_alloc E (S (S (S now)))) 0 7).
  rewrite !zlen_fresh. splits; [done|done|apply fresh_bytes_ok|].
  unfold sptps_start. rewrite (proj2 (Z.eqb_neq _ _)) by lia. steps.
  answer (malloc_ok 1024 (Sptps initiator false false false 0 [] 0 None 32 0 0 0 None 0 [] [] 1024 (Some mykey) (Some hiskey) None None None None []) now sent got er).
  steps. rewrite (bind_returns _ _ _ _ _ (malloc_ok _ _ _ _ _ _)). steps. rewrite (bind_returns _ _ _ _ _ (malloc_ok _ _ _ _ _ _)).
  rewrite (bind_returns _ _ _ _ _ (malloc_ok _ _ _ _ _ _)). steps. reflexivity.
Qed.

Lemma started_core initiator mykey hiskey label dec inbuf :
  label_ok label -> core (started initiator mykey hiskey label dec inbuf).
Proof. intros Hl. split; [by eexists|by eexists|done|done|done]. Qed.

Lemma started_wf initiator mykey hiskey label dec inbuf :
  zlen dec = 1024 -> zlen inbuf = 7 -> bytes_ok inbuf -> stream_wf (started initiator mykey hiskey label dec inbuf).
Proof. intros Hd Hi Hb. split; [done|done|done| |done]. left. cbn. lia. Qed.

Lemma start_safe s now sent got er initiator mykey hiskey label :
  0 < zlen label -> label_ok label ->
  exists s' now' sent', sptps_start E initiator false (Some mykey) (Some hiskey) (Some label) (World s now sent got er) =
    Done (true, World s' now' sent' got er) /\ session_ok s'.
Proof.
  intros H0 Hl. destruct (start_is_kex s now sent got er initiator mykey hiskey label H0) as (dec & inbuf & Hd & Hi & Hb & ->).
  set (s0 := started _ _ _ _ _ _). pose proof (started_core initiator mykey hiskey label dec inbuf Hl) as Hc. fold s0 in Hc.
  destruct (send_kex_safe E HE s0 (S (S (S (S now)))) sent got er Hc eq_refl eq_refl)
    as (s' & n' & q' & Es & Hc' & Hk' & Hst & Hh & Est & _).
  exists s', n', q'. split; [exact Es|]. split; [done|]. split; [apply hs_kex; [by rewrite Est|done|done]|].
  eapply hs_step_stream; [exact Hst|by apply started_wf].
Qed.

Lemma stop_safe s now sent got er :
  session_ok s -> sptps_stop (World s now sent got er) = Done (true, World sptps_zero now sent got er).
Proof.
  intros (_ & _ & Hw). unfold sptps_stop. steps. pose proof (sw_decrypted s Hw) as Hd. pose proof (zlen_nonneg (s_decrypted_buffer s)).
  rewrite (bind_lift _ _ _ _ (mem_write_list (s_decrypted_buffer s) 0 (replicate (Z.to_nat (s_decrypted_buffer_len s)) 0) ltac:(lia)
    ltac:(unfold zlen in *; rewrite length_replicate; lia))). steps. done.
Qed.

Lemma verify_safe s now sent got er data :
  session_ok s -> bytes_ok data -> zlen data < 2 ^ 32 ->
  safe_result (sptps_verify_datagram data (World s now sent got er)) (fun _ _ => True).
Proof.
  intros Hs Hb Hz. pose proof Hs as (Hc & Hh & Hw). unfold sptps_verify_datagram. steps.
  destruct (s_instate s) eqn:Ei; cbn [negb]; [|by eexists false, s, _, _, _, _].
  destruct (Z.ltb_spec (zlen data) SPTPS_DATAGRAM_OVERHEAD) as [Hlt|Hge]; [by eexists false, s, _, _, _, _|]. unfold SPTPS_DATAGRAM_OVERHEAD in Hge.
  destruct (co_ciphers s Hc (co_inout s Hc Ei)) as (co & ci & _ & _ & Hci & Wci). steps. answer Hci.
  destruct (aead_verify_ok ci (be_val (take 4 data)) (drop 4 data) Wci) as (c' & b & Ev & Wc' & _).
  { by apply Forall_drop. } { rewrite zlen_drop. lia. }
  answer Ev. steps. eexists b, _, _, _, _, _. split; [reflexivity|]. split; [|done].
  split; [by apply core_incipher|]. split; [by apply (hs_same s)|]. destruct Hw. by split.
Qed.

Lemma sptps_send_safe s now sent got er type data :
  session_ok s -> fits type data ->
  safe_result (sptps_send_record E type data (World s now sent got er)) (fun _ _ => True).
Proof.
  intros (Hc & Hh & Hw) Hf.
  destruct (send_record_ok E HE s now sent got er type data (core_out_ok s Hc) Hf) as (b & s' & n' & q' & e' & Es & Ho).
  eexists b, s', _, _, _, _. split; [exact Es|]. split; [|done].
  split; [by eapply out_only_core|]. split; [by eapply out_only_hs|]. eapply hs_step_stream; [by apply out_only_step|done].
Qed.

Lemma sptps_force_safe s now sent got er :
  session_ok s -> safe_result (sptps_force_kex E (World s now sent got er)) (fun _ _ => True).
Proof.
  intros (Hc & Hh & Hw). destruct (force_kex_safe E HE s now sent got er Hc Hh) as (b & s' & n' & q' & g' & e' & Er & H1 & H2 & H3).
  eexists b, s', _, _, _, _. split; [exact Er|]. split; [|done]. split; [done|]. split; [done|]. by eapply hs_step_stream.
Qed.

(** ** Any sequence of calls *)

Inductive call :=
  | CallReceive (data : list Z)
  | CallSend (type : Z) (data : list Z)
  | CallVerify (data : list Z)
  | CallForceKex
  | CallStop.

Definition call_ok (c : call) : Prop :=
  match c with
  | CallReceive data => bytes_ok data
  | CallSend type data => fits type data
  | CallVerify data => bytes_ok data /\ zlen data < 2 ^ 32
  | CallForceKex | CallStop => True
  end.

Definition run_call (c : call) : M bool :=
  match c with
  | CallReceive data => sptps_receive_data E data
  | CallSend type data => sptps_send_record E type data
  | CallVerify data => sptps_verify_datagram data
  | CallForceKex => sptps_force_kex E
  | CallStop => sptps_stop
  end.

Fixpoint run_calls (l : list call) : M (list bool) :=
  match l with
  | [] => ret []
  | c :: l => bind (run_call c) (fun b => bind (run_calls l) (fun bs => ret (b :: bs)))
  end.

(** A session in use, or one that was stopped. *)
Definition live (s : sptps_t) : Prop := session_ok s \/ s = sptps_zero.

Lemma run_call_safe c s now sent got er :
  live s -> call_ok c ->
  exists b s' now' sent' got' er', run_call c (World s now sent got er) = Done (b, World s' now' sent' got' er') /\ live s'.
Proof.
  intros [Hs| ->] Hc.
  - destruct c; cbn [run_call call_ok] in *.
    1: destruct (receive_data_safe s now sent got er data Hs Hc) as (b & s' & n' & q' & g' & e' & Er & H & _).
    2: destruct (sptps_send_safe s now sent got er type data Hs Hc) as (b & s' & n' & q' & g' & e' & Er & H & _).
    3: destruct Hc as [Hc1 Hc2]; destruct (verify_safe s now sent got er data Hs Hc1 Hc2) as (b & s' & n' & q' & g' & e' & Er & H & _).
    4: destruct (sptps_force_safe s now sent got er Hs) as (b & s' & n' & q' & g' & e' & Er & H & _).
    5: { eexists _, _, _, _, _, _. split; [by apply stop_safe|by right]. }
    all: eexists b, s', _, _, _, _; split; [exact Er|by left].
  - destruct c; (eexists _, _, _, _, _, _; split; [reflexivity|by right]).
Qed.

Lemma run_calls_safe l : forall s now sent got er,
  live s -> Forall call_ok l ->
  exists bs s' now' sent' got' er', run_calls l (World s now sent got er) = Done (bs, World s' now' sent' got' er') /\
    length bs = length l /\ live s'.
Proof.
  induction l as [|c l IH]; intros s now sent got er Hs Hl.
  { by eexists [], s, _, _, _, _. }
  inversion Hl as [|? ? Hc Hl']; subst. cbn [run_calls].
  destruct (run_call_safe c s now sent got er Hs Hc) as (b & s1 & n1 & q1 & g1 & e1 & Er & H1).
  destruct (IH s1 n1 q1 g1 e1 H1 Hl') as (bs & s2 & n2 & q2 & g2 & e2 & Er2 & H2 & H3).
  rewrite (bind_returns _ _ _ _ _ Er), (bind_returns _ _ _ _ _ Er2). eexists (b :: bs), s2, _, _, _, _.
  split; [reflexivity|]. simpl. by rewrite H2.
Qed.

(** Hand over the pieces of a stream until one is refused. *)
Fixpoint receive_all (chunks : list (list Z)) : M bool :=
  match chunks with
  | [] => ret true
  | c :: chunks => bind (sptps_receive_data E c) (fun ok => if ok then receive_all chunks else ret false)
  end.

Lemma receive_all_concat chunks : forall s now sent got er,
  session_ok s -> bytes_ok (concat chunks) ->
  receive_all chunks (World s now sent got er) = sptps_receive_data E (concat chunks) (World s now sent got er).
Proof.
  induction chunks as [|c chunks IH]; intros s now sent got er Hs Hb.
  { cbn [receive_all concat]. by rewrite receive_nil. }
  cbn [concat] in *. rewrite receive_app by done. cbn [receive_all]. apply Forall_app in Hb as [Hc Hb].
  destruct (receive_data_safe s now sent got er c Hs Hc) as (ok & s1 & n1 & q1 & g1 & e1 & Er & Hs1 & _).
  rewrite !(bind_returns _ _ _ _ _ Er). destruct ok; [|done]. by apply IH.
Qed.

End Stream.
