(* ===== verification/SptpsLink.v ===== *)
(** Two SPTPS stream sessions: what one sends is what the other receives.

    [link a b] says that the records [a] sends next are the ones [b] expects: same
    key, same sequence number.  A record sent over a link arrives as it was sent,
    however the bytes are cut; the handshake ends with a link in each direction. *)
From S2P Require Import Prelude Bytes Aead Sha512 Prf Ed25519 Sptps SptpsRun SptpsHs SptpsSafe.

Lemma slice_list_write o (bs m : list Z) n :
  (o + length bs <= length m)%nat -> n = length bs -> slice o n (list_write o bs m) = bs.
Proof.
  intros H ->. unfold slice, list_write. rewrite drop_app_exact by (rewrite length_take; lia). by rewrite take_app_exact.
Qed.

Lemma slice_write_after o n o2 (bs m : list Z) :
  (o2 + length bs <= length m)%nat -> (o + n <= o2)%nat -> slice o n (list_write o2 bs m) = slice o n m.
Proof.
  intros H Ho. apply list_eq. intros i. rewrite !lookup_slice. case_decide; [|done].
  rewrite lookup_list_write by done. by rewrite decide_False by lia.
Qed.

Lemma slice_slice {X} a b o n (l : list X) : (o + n <= b)%nat -> slice o n (slice a b l) = slice (a + o) n l.
Proof.
  intros H. apply list_eq. intros i. rewrite !lookup_slice. case_decide; [|done]. rewrite decide_True by lia. f_equal. lia.
Qed.

Section Link.
Context {A : Aead} {C : Ed25519} (E : env) (HE : env_ok E).

(** ** A record arrives *)

(** What the receiver makes of the bytes of a record. *)
Definition opens (s : sptps_t) (bytes m : list Z) : Prop :=
  if s_instate s then exists c, s_incipher s = Some c /\ aead_wf c /\ bytes = aead_seal c (s_inseqno s) m
  else bytes = m.

(** The receiver with a record in its buffer: the cipher keeps its key. *)
Record arrived (s s' : sptps_t) (type : Z) (data : list Z) : Prop := {
  ar_shape : exists b n r c, s' = set_incipher c (set_inbuf b (set_buflen n (set_reclen r (set_inseqno (u32 (s_inseqno s + 1)) s))));
  ar_cipher : forall c, s_incipher s = Some c -> aead_wf c ->
    exists c', s_incipher s' = Some c' /\ aead_wf c' /\ aead_same c c';
  ar_full : full s';
  ar_reclen : s_reclen s' = zlen data;
  ar_bytes : slice 2 (S (length data)) (s_inbuf s') = type :: data;
}.

Definition finish (ok : bool) : M bool := if ok then bind (puts (set_buflen 0)) (fun _ => ret true) else ret false.

Lemma opens_length s bytes m : opens s bytes m -> zlen bytes = zlen m + (if s_instate s then 16 else 0).
Proof. unfold opens. destruct (s_instate s); [intros (c & _ & _ & ->); by rewrite aead_seal_length|intros ->; lia]. Qed.

(** From the start of a record to the complete record in the buffer. *)
Lemma receive_collect s now sent got er (data bytes : list Z) :
  session_ok s -> s_buflen s = 0 -> zlen data < 2 ^ 16 -> bytes_ok bytes ->
  zlen bytes = zlen data + (if s_instate s then 17 else 1) ->
  exists s1, sptps_receive_data E (be_bytes 2 (zlen data) ++ bytes) (World s now sent got er) =
      bind (stream_record E) (then_receive E []) (World s1 (S now) sent got er) /\
    in_only s s1 /\ s_inseqno s1 = s_inseqno s /\ full s1 /\ s_reclen s1 = zlen data /\
    slice 2 (length bytes) (s_inbuf s1) = bytes.
Proof.
  intros Hs Hl Hd Hb Hz. pose proof Hs as (_ & _ & Hw). pose proof (zlen_nonneg data) as Hd0.
  set (h := be_bytes 2 (zlen data)). assert (Lh : length h = 2%nat) by (apply length_be_bytes).
  assert (Bh : bytes_ok h) by (apply be_bytes_ok).
  assert (Hp : bytes_ok (h ++ bytes)) by (by apply Forall_app).
  assert (Hne : h ++ bytes <> []) by (destruct h; done).
  assert (Zh : zlen (h ++ bytes) = 2 + zlen bytes) by (rewrite zlen_app; unfold zlen; rewrite Lh; lia).
  pose proof (zlen_nonneg bytes) as Hb0.
  rewrite receive_header by (done || lia). rewrite Hl. change (Z.to_nat (2 - 0)) with 2%nat. change (2 - 0) with 2.
  rewrite (proj2 (Z.ltb_ge _ _)) by lia. rewrite take_app_exact, drop_app_exact by done.
  set (t := taken s h). pose proof (header_session E HE s now (h ++ bytes) Hs Hp ltac:(lia) ltac:(lia)) as Hs2.
  rewrite Hl in Hs2. change (Z.to_nat (2 - 0)) with 2%nat in Hs2. rewrite take_app_exact in Hs2 by done. fold t in Hs2.
  set (s2 := header_read (e_alloc E now) t) in *.
  assert (Hr : s_reclen s2 = zlen data).
  { unfold s2, header_read. sproj. unfold t, taken. sproj. rewrite Hl. unfold list_write. change (Z.to_nat 0) with 0%nat. rewrite take_0, app_nil_l.
    rewrite take_app_exact by done. apply be_val_bytes. change (256 ^ Z.of_nat 2) with (2 ^ 16). lia. }
  assert (Hbl : s_buflen s2 = 2) by (unfold s2, header_read; sproj; unfold t, taken; sproj; rewrite Hl; unfold zlen; rewrite Lh; done).
  assert (Hrs : record_size s2 = 2 + zlen bytes).
  { unfold record_size. rewrite Hr. change (s_instate s2) with (s_instate s). unfold SPTPS_OVERHEAD. destruct (s_instate s); lia. }
  assert (Hbne : bytes <> []) by (intros ->; change (zlen (@nil Z)) with 0 in Hz; destruct (s_instate s); lia).
  rewrite receive_body by (done || lia). rewrite Hrs, Hbl.
  replace (2 + zlen bytes - 2) with (zlen bytes) by lia. rewrite Z.ltb_irrefl.
  replace (Z.to_nat (zlen bytes)) with (length bytes) by (unfold zlen; lia). rewrite firstn_all, drop_all.
  pose proof Hs2 as (_ & _ & Hw2). assert (Hz2 : zlen (s_inbuf s2) = s_reclen s2 + 19) by (destruct Hw2; lia).
  assert (Hroom : 2 + zlen bytes <= zlen (s_inbuf s2)) by (rewrite Hz2, Hr; destruct (s_instate s); lia).
  exists (taken s2 bytes). splits; [done| |done| |exact Hr|].
  - eapply in_only_trans; [|apply taken_in_only]. eapply in_only_trans; [apply taken_in_only|apply header_read_in_only].
  - split; [|change (s_buflen s2 + zlen bytes = record_size s2); lia].
    eapply in_only_session; [apply taken_in_only|done|]. apply taken_rest_wf; [done|lia|done|lia].
  - unfold taken. sproj. rewrite Hbl. apply slice_list_write; [|done]. unfold zlen in Hroom. change (Z.to_nat 2) with 2%nat. lia.
Qed.

Lemma stream_decrypt_ok s now sent got er data type bytes :
  full s -> s_reclen s = zlen data -> 0 <= type < 256 -> bytes_ok data ->
  slice 2 (length bytes) (s_inbuf s) = bytes -> bytes_ok bytes ->
  opens s bytes (type :: data) ->
  exists s', stream_decrypt (s_inseqno s) (World (set_inseqno (u32 (s_inseqno s + 1)) s) now sent got er) =
      Done (true, World s' now sent got er) /\ arrived s s' type data.
Proof.
  intros Hf Hr Ht Hd Hsl Hb Ho. pose proof (opens_length _ _ _ Ho) as Hz. destruct (full_room s Hf) as (Hz2 & Bi & Hr2).
  assert (Zm : zlen (type :: data) = zlen data + 1) by (unfold zlen; simpl; lia). rewrite Zm in Hz.
  assert (Bm : bytes_ok (type :: data)) by (by constructor).
  set (s1 := set_inseqno _ s). assert (Hf1 : full s1) by (by apply full_inseqno).
  unfold opens in Ho. unfold stream_decrypt. steps. change (s_instate s1) with (s_instate s). destruct (s_instate s) eqn:Ei.
  - destruct Ho as (c & Hc & Wc & Eb).
    assert (Er : mem_read (s_inbuf s1) 2 (s_reclen s1 + 17) = Done bytes).
    { change (s_inbuf s1) with (s_inbuf s). change (s_reclen s1) with (s_reclen s). rewrite mem_read_ok by lia. rewrite <- Hsl.
      unfold slice. do 2 f_equal. unfold zlen in *. lia. }
    answer Er. destruct (decrypt_in_ok s1 now sent got er (s_inseqno s) bytes c Hc Wc Hb) as (c' & r & Ed & Wc' & Sc & Hm); [lia|].
    rewrite (proj2 (Hm (type :: data)) (conj Bm Eb)) in Ed. answer Ed.
    answer (mem_write_list (s_inbuf s1) 2 (type :: data) ltac:(lia) ltac:(change (s_inbuf s1) with (s_inbuf s); lia)). steps.
    eexists. split; [reflexivity|]. set (b := list_write _ _ _). split.
    + exists b, (s_buflen s), (s_reclen s), (Some c'). by destruct s.
    + intros c0 Hc0 _. rewrite Hc in Hc0. injection Hc0 as <-. by exists c'.
    + eapply full_upd; [by apply full_incipher|reflexivity|by apply bytes_ok_write|]. sproj. change (s_inbuf s1) with (s_inbuf s) in *.
      apply zlen_list_write. lia.
    + exact Hr.
    + sproj. apply slice_list_write; [|done]. change (s_inbuf s1) with (s_inbuf s). unfold zlen in *. simpl in *. lia.
  - exists s1. split; [done|]. split.
    + exists (s_inbuf s), (s_buflen s), (s_reclen s), (s_incipher s). by destruct s.
    + intros c Hc Wc. exists c. splits; [done|done|reflexivity].
    + done.
    + exact Hr.
    + change (s_inbuf s1) with (s_inbuf s). rewrite Ho in Hsl. exact Hsl.
Qed.

(** A record received from its first byte to the handler. *)
Lemma receive_arrives s now sent got er data type bytes :
  session_ok s -> s_buflen s = 0 -> fits type data -> bytes_ok bytes -> opens s bytes (type :: data) ->
  exists s', sptps_receive_data E (be_bytes 2 (zlen data) ++ bytes) (World s now sent got er) =
      bind (bind (stream_handle E) finish) (then_receive E []) (World s' (S now) sent got er) /\ arrived s s' type data.
Proof.
  intros Hs Hl (Ht & Hd & Hz) Hb Ho. pose proof (opens_length _ _ _ Ho) as Hz2.
  assert (Zm : zlen (type :: data) = zlen data + 1) by (unfold zlen; simpl; lia). rewrite Zm in Hz2.
  destruct (receive_collect s now sent got er data bytes Hs Hl Hz Hb) as (s1 & Er & Hi & Eq & Hf & Hr & Hsl).
  { rewrite Hz2. destruct (s_instate s); lia. }
  destruct Hi as [(b & n & r & q & ->)]. change (s_inseqno s) with q in Eq || (symmetry in Eq; change (s_inseqno s = q) in Eq). subst q.
  set (s1 := set_inbuf b _) in *.
  destruct (stream_decrypt_ok s1 (S now) sent got er data type bytes Hf Hr Ht Hd Hsl Hb Ho) as (s2 & Ed & [(b2 & n2 & r2 & c2 & ->) H2 H3 H4 H5]).
  set (s2 := set_incipher c2 _) in *.
  exists s2. split.
  - assert (Es : stream_record E (World s1 (S now) sent got er) = bind (stream_handle E) finish (World s2 (S now) sent got er)).
    { unfold stream_record. steps. answer Ed. cbn [negb]. unfold bind. destruct (stream_handle E _) as [[[] w]|]; reflexivity. }
    rewrite Er. unfold bind at 1. rewrite Es. reflexivity.
  - split; try done. exists b2, n2, r2, c2. by destruct s.
Qed.

(** The handler sees the type and the data of the record. *)
Lemma handle_arrived s0 s now sent got er type data :
  arrived s0 s type data -> bytes_ok data ->
  exists buf, full (set_inbuf buf s) /\ slice 3 (length data) buf = data /\ bytes_ok buf /\ zlen data + 3 <= zlen buf /\
    stream_handle E (World s now sent got er) =
    (if type <? SPTPS_HANDSHAKE then if negb (s_instate s) then error EIO else receive_record E type data
     else if type =? SPTPS_HANDSHAKE then receive_handshake E (drop 3 buf) (zlen data)
     else error EIO) (World (set_inbuf buf s) now sent got er).
Proof.
  intros [_ _ Hf Hr Hsl] Hd. destruct (full_room s Hf) as (Hz & Hb & Hr2). rewrite Hr in *.
  set (buf := list_write (Z.to_nat (s_reclen s + 3)) [0] (s_inbuf s)). pose proof (zlen_nonneg data) as H0.
  assert (Hlen : (Z.to_nat (s_reclen s + 3) + length [0%Z] <= length (s_inbuf s))%nat) by (unfold zlen in *; simpl; lia).
  assert (Bb : bytes_ok buf) by (apply bytes_ok_write; [done|by repeat constructor]).
  assert (Zb : zlen buf = zlen (s_inbuf s)) by (unfold zlen, buf; by rewrite length_list_write).
  assert (Hs3 : slice 2 (S (length data)) buf = type :: data).
  { unfold buf. rewrite slice_write_after; [done|done|]. unfold zlen in *. lia. }
  assert (H1 : slice 2 1 buf = [type]).
  { rewrite <- (slice_slice 2 (S (length data)) 0 1) by lia. by rewrite Hs3. }
  assert (H3 : slice 3 (length data) buf = data).
  { change 3%nat with (2 + 1)%nat. rewrite <- (slice_slice 2 (S (length data)) 1 (length data)) by lia. rewrite Hs3.
    unfold slice. cbn [drop]. by rewrite drop_0, firstn_all. }
  exists buf. splits; [by eapply full_upd|done|done|lia|].
  unfold stream_handle. steps.
  answer (mem_write_list (s_inbuf s) (s_reclen s + 3) [0] ltac:(lia) ltac:(unfold zlen in *; simpl; lia)). fold buf. steps.
  assert (Et : mem_read buf 2 1 = Done [type]) by (rewrite mem_read_ok by lia; by f_equal).
  answer Et. cbn [head from_option]. rewrite Hr. destruct (type <? SPTPS_HANDSHAKE); [|done]. destruct (s_instate s); [|done]. cbn [negb].
  assert (Ed : mem_read buf 3 (zlen data) = Done data).
  { rewrite mem_read_ok by lia. f_equal. unfold slice in H3. unfold zlen. by rewrite Nat2Z.id. }
  answer Ed. done.
Qed.

(** ** Links *)

Record link (a b : sptps_t) : Prop := {
  lk_out : s_outstate a = true;
  lk_in : s_instate b = true;
  lk_seq : s_outseqno a = s_inseqno b;
  lk_keys : exists ca cb, s_outcipher a = Some ca /\ aead_wf ca /\ s_incipher b = Some cb /\ aead_wf cb /\ aead_same ca cb;
}.

(** The next record of [a] opens at [b]. *)
Lemma link_opens a b type data : link a b -> opens b (body a type data) (type :: data).
Proof.
  intros [Ho Hi Hs (ca & cb & Hca & Wca & Hcb & Wcb & Hsame)]. unfold opens, body. rewrite Hi, Hca, Ho.
  exists cb. splits; [done|done|]. rewrite Hs. by apply aead_seal_same.
Qed.

Lemma body_bytes a type data : core a -> fits type data -> bytes_ok (body a type data).
Proof.
  intros Ha (Ht & Hd & _). assert (bytes_ok (type :: data)) by (by constructor). unfold body.
  destruct (s_outcipher a) as [c|] eqn:Ec; [|done]. destruct (s_outstate a) eqn:Eo; [|done].
  destruct (co_ciphers a Ha Eo) as (co & ci & H1 & H2 & _). rewrite Ec in H1. injection H1 as ->. by apply aead_seal_ok.
Qed.

(** One application record over a link. *)
Lemma record_delivered a a' b now sent got er type data :
  core a -> session_ok b -> s_buflen b = 0 -> link a b -> fits type data -> type < SPTPS_HANDSHAKE ->
  out_only a a' -> s_outseqno a' = u32 (s_outseqno a + 1) -> s_datagram a = false ->
  (forall n, app_ok (e_app E n) = true) ->
  exists b' now' sent' er', sptps_receive_data E (header a data ++ body a type data) (World b now sent got er) =
      Done (true, World b' now' sent' (got ++ [(type, data)]) er') /\
    session_ok b' /\ s_buflen b' = 0 /\ link a' b'.
Proof.
  intros Ha Hb Hl Hk Hf Ht Hoa Hqa Hdg Happ. unfold header. rewrite Hdg.
  destruct (receive_arrives b now sent got er data type (body a type data) Hb Hl Hf (body_bytes a type data Ha Hf) (link_opens a b type data Hk))
    as (s1 & Er & Har).
  destruct (handle_arrived b s1 (S now) sent got er type data Har) as (buf & Hfu & _ & _ & _ & Eh); [by destruct Hf as (_ & ? & _)|].
  rewrite (proj2 (Z.ltb_lt _ _) Ht) in Eh.
  destruct Har as [(b1 & n1 & r1 & c1 & ->) Hci _ _ _]. set (s1 := set_incipher c1 _) in *.
  change (s_instate s1) with (s_instate b) in Eh. rewrite (lk_in a b Hk) in Eh. cbn [negb] in Eh.
  set (s2 := set_inbuf buf s1) in *. pose proof Hfu as [Hs2 _]. pose proof Hs2 as (Hc2 & _ & _).
  destruct (receive_record_ok E HE s2 (S now) sent got er type data (core_out_ok s2 Hc2)) as (s3 & n3 & q3 & e3 & Err & Ho3).
  rewrite Happ in Err. rewrite Err in Eh.
  assert (Hs3 : session_ok (set_buflen 0 s3)).
  { destruct Hs2 as (_ & Hh2 & Hw2). pose proof (out_only_core s2 s3 Hc2 Ho3) as Hc3. pose proof (out_only_hs s2 s3 Hh2 Ho3) as Hh3.
    pose proof (hs_step_stream s2 s3 (out_only_step s2 s3 Ho3) Hw2) as Hw3. split; [by apply core_buflen|]. split; [by apply (hs_same s3)|].
    pose proof (record_size_range s3 Hw3). destruct Hw3. split; try done. left. sproj. lia. }
  exists (set_buflen 0 s3), n3, q3, e3. splits; [|done|done|].
  - rewrite Er, bind_bind, (bind_returns _ _ _ _ _ Eh). unfold finish, then_receive. steps. by apply receive_nil.
  - destruct Hk as [K1 K2 K3 (ca & cb & K4 & K5 & K6 & K7 & K8)]. destruct (Hci cb K6 K7) as (cb' & E1 & E2 & E3).
    destruct Hoa as [(na & xa & ->) Hoa2]. destruct (Hoa2 ca K4 K5) as (ca' & F1 & F2 & F3).
    destruct Ho3 as [(nb & xb & ->) _]. split; [done|done| |].
    + change (na = u32 (s_outseqno a + 1)) in Hqa. change (na = u32 (s_inseqno b + 1)). by rewrite Hqa, K3.
    + exists ca', cb'. splits; try done. transitivity ca; [by symmetry|]. by transitivity cb.
Qed.

(** ** Any number of records, cut anywhere *)

Definition app_record (r : Z * list Z) : Prop := fits r.1 r.2 /\ r.1 < SPTPS_HANDSHAKE.

Definition send_calls (records : list (Z * list Z)) : list call := (fun '(t, d) => CallSend t d) <$> records.

Lemma send_one_ok Ea (HEa : env_ok Ea) a now sent got er type data :
  core a -> s_outstate a = true -> app_record (type, data) ->
  exists a', sptps_send_record Ea type data (World a now sent got er) =
      Done (true, World a' (S now) (sent ++ [(type, header a data ++ body a type data)]) got er) /\
    out_only a a' /\ s_outseqno a' = u32 (s_outseqno a + 1).
Proof.
  intros Ha Ho [Hf Ht]. destruct (send_ok Ea HEa a now sent got er type data (core_out_ok a Ha) Hf) as (a' & Es & H1 & H2).
  exists a'. split; [|done]. unfold sptps_send_record. steps. rewrite Ho. cbn [negb].
  change (type < SPTPS_HANDSHAKE) in Ht. rewrite (proj2 (Z.leb_gt _ _)) by lia. exact Es.
Qed.

Lemma records_received Ea (HEa : env_ok Ea) records : forall a b now sent got er nowa senta gota era,
  session_ok a -> session_ok b -> s_buflen b = 0 -> link a b -> Forall app_record records ->
  (forall n, app_ok (e_app E n) = true) ->
  exists a' nowa' wire, run_calls Ea (send_calls records) (World a nowa senta gota era) =
      Done (replicate (length records) true, World a' nowa' (senta ++ wire) gota era) /\ session_ok a' /\
    bytes_ok (concat (snd <$> wire)) /\
    exists b' now' sent' er', sptps_receive_data E (concat (snd <$> wire)) (World b now sent got er) =
        Done (true, World b' now' sent' (got ++ records) er') /\ session_ok b' /\ s_buflen b' = 0 /\ link a' b'.
Proof.
  induction records as [|[t d] records IH]; intros a b now sent got er nowa senta gota era Ha Hb Hl Hk Hr Happ.
  { exists a, nowa, []. rewrite app_nil_r. splits; [done|done|constructor|].
    exists b, now, sent, er. rewrite app_nil_r. splits; [by apply receive_nil|done|done|done]. }
  inversion Hr as [|? ? Hrec Hr']; subst. pose proof Hrec as [Hf Ht]. pose proof Ha as (Hca & Hha & Hwa). cbn [fst snd] in *.
  destruct (send_one_ok Ea HEa a nowa senta gota era t d Hca (lk_out a b Hk) Hrec) as (a1 & Es & Ho & Hq).
  destruct (record_delivered a a1 b now sent got er t d Hca Hb Hl Hk Hf Ht Ho Hq (sw_stream a Hwa) Happ)
    as (b1 & n1 & q1 & e1 & Er & Hb1 & Hl1 & Hk1).
  assert (Ha1 : session_ok a1).
  { split; [by eapply out_only_core|]. split; [by eapply out_only_hs|]. eapply hs_step_stream; [by apply out_only_step|done]. }
  destruct (IH a1 b1 n1 q1 (got ++ [(t, d)]) e1 (S nowa) (senta ++ [(t, header a d ++ body a t d)]) gota era Ha1 Hb1 Hl1 Hk1 Hr' Happ)
    as (a2 & n2 & wire & Es2 & Ha2 & Bw & b2 & n3 & q3 & e3 & Er2 & Hb2 & Hl2 & Hk2).
  assert (Bh : bytes_ok (header a d ++ body a t d)).
  { apply Forall_app. split; [unfold header; rewrite (sw_stream a Hwa); apply be_bytes_ok|by apply body_bytes]. }
  exists a2, n2, ((t, header a d ++ body a t d) :: wire). splits; [|done|by apply Forall_app|].
  - cbn [send_calls fmap list_fmap run_calls run_call]. rewrite (bind_returns _ _ _ _ _ Es).
    unfold send_calls, fmap in Es2. rewrite (bind_returns _ _ _ _ _ Es2). unfold ret. rewrite <- app_assoc. done.
  - exists b2, n3, q3, e3. splits; [|done|done|done]. cbn [fmap list_fmap snd concat]. unfold fmap in *.
    rewrite receive_app by (done || by apply Forall_app). rewrite (bind_returns _ _ _ _ _ Er). unfold then_receive. rewrite Er2.
    by rewrite <- app_assoc.
Qed.

(** ** The handshake *)

(** One side, by what it knows. *)
Record side := Side { sd_initiator : bool; sd_mykey : ecdsa_t; sd_hiskey : ecdsa_t; sd_label : list Z; sd_kex : list Z; sd_ecdh : ecdh_t }.

Record plays (p : side) (s : sptps_t) : Prop := {
  pl_ok : session_ok s;
  pl_initiator : s_initiator s = sd_initiator p;
  pl_mykey : s_mykey s = Some (sd_mykey p);
  pl_hiskey : s_hiskey s = Some (sd_hiskey p);
  pl_label : s_label s = sd_label p;
  pl_buflen : s_buflen s = 0;
}.

(** Before the peer's KEX message, and before its signature. *)
Record waiting (p : side) (his : option (list Z)) (s : sptps_t) : Prop := {
  wt_plays : plays p s;
  wt_instate : s_instate s = false;
  wt_outstate : s_outstate s = false;
  wt_mykex : s_mykex s = Some (sd_kex p);
  wt_kex : kex_msg (sd_kex p);
  wt_ecdh : s_ecdh s = Some (sd_ecdh p);
  wt_hiskex : s_hiskex s = his;
  wt_state : s_state s = match his with None => SPTPS_KEX | Some _ => SPTPS_SIG end;
  wt_inseqno : s_inseqno s = match his with None => 0 | Some _ => 1 end;
  wt_outseqno : s_outseqno s = match his with None => 1 | Some _ => 2 end;
}.

(** After the handshake, with key material [k]. *)
Record secured (p : side) (k : list Z) (s : sptps_t) : Prop := {
  se_plays : plays p s;
  se_instate : s_instate s = true;
  se_outstate : s_outstate s = true;
  se_state : s_state s = SPTPS_SECONDARY_KEX;
  se_inseqno : s_inseqno s = 2;
  se_outseqno : s_outseqno s = 2;
  se_ciphers : exists co ci, aead_wf co /\ aead_wf ci /\
    s_outcipher s = Some (aead_set_key co (half k (sd_initiator p))) /\
    s_incipher s = Some (aead_set_key ci (half k (negb (sd_initiator p))));
}.

(** A handshake record in the clear. *)
Definition plain (data : list Z) : list Z := be_bytes 2 (zlen data) ++ SPTPS_HANDSHAKE :: data.

Lemma plain_sent s data : s_datagram s = false -> s_outstate s = false -> header s data ++ body s SPTPS_HANDSHAKE data = plain data.
Proof. intros Hd Ho. unfold header, body, plain. rewrite Hd, Ho. by destruct (s_outcipher s). Qed.

Lemma start_waits s now sent got er initiator mykey hiskey label :
  0 < zlen label -> label_ok label ->
  exists seed nonce e pub s' now', let m := kex_of nonce pub in
    ecdh_generate_public seed = Some (e, pub) /\ length nonce = 32%nat /\ length pub = 32%nat /\
    sptps_start E initiator false (Some mykey) (Some hiskey) (Some label) (World s now sent got er) =
      Done (true, World s' now' (sent ++ [(SPTPS_HANDSHAKE, plain m)]) got er) /\
    waiting (Side initiator mykey hiskey label m e) None s'.
Proof.
  intros H0 Hl. destruct (start_is_kex E HE s now sent got er initiator mykey hiskey label H0) as (dec & inbuf & Hd & Hi & Hb & Est).
  set (s0 := started _ _ _ _ _ _) in *. pose proof (started_core initiator mykey hiskey label dec inbuf Hl) as Hc. fold s0 in Hc.
  set (n := S (S (S (S now)))) in *.
  destruct (send_kex_ok E HE s0 n sent got er (core_out_ok s0 Hc) eq_refl) as (e & pub & s' & Eg & Hk & Es & Ho & Hq).
  cbv zeta in *. set (nonce := e_rand E (S n)) in *.
  destruct (generate_public_ok (e_rand E (S (S n)))) as (e' & pub' & Eg' & Lp & _). rewrite Eg in Eg'. injection Eg' as <- <-.
  exists (e_rand E (S (S n))), nonce, e, pub, s', (S (S (S (S n)))). cbv zeta.
  rewrite (plain_sent s0 _ eq_refl eq_refl) in Es. splits; [done|by destruct (eo_rand E HE (S n))|done|by rewrite Est|].
  set (m := kex_of nonce pub) in *. set (s1 := set_ecdh (Some e) (set_mykex (Some m) s0)) in *.
  assert (Hs1 : session_ok s1).
  { split; [by destruct Hc; split|]. split; [apply hs_kex; [done|done|by exists m, e]|].
    pose proof (started_wf initiator mykey hiskey label dec inbuf Hd Hi Hb) as []. by split. }
  assert (Hs' : session_ok s').
  { destruct Hs1 as (H1 & H2 & H3). split; [by eapply out_only_core|]. split; [by eapply out_only_hs|].
    eapply hs_step_stream; [by apply out_only_step|done]. }
  destruct Ho as [(q & c & ->) _]. change (q = u32 (0 + 1)) in Hq. subst q. split; try done.
Qed.

(** A session that has handled a record is ready for the next. *)
Lemma ready_ok s : session_ok s -> session_ok (set_buflen 0 s).
Proof.
  intros (Hc & Hh & Hw). split; [by apply core_buflen|]. split; [by apply (hs_same s)|].
  assert (0 <= s_reclen s) by (destruct Hw; lia). destruct Hw. split; try done. left. sproj. lia.
Qed.

Lemma handled_ok s now sent got er d len b s' now' sent' got' er' :
  full s -> 0 <= len <= zlen d -> bytes_ok d ->
  receive_handshake E d len (World s now sent got er) = Done (b, World s' now' sent' got' er') -> session_ok (set_buflen 0 s').
Proof.
  intros [(Hc & Hh & Hw) _] Hl Hb Er. apply ready_ok.
  destruct (receive_handshake_safe E HE s now sent got er d len Hc Hh Hl Hb) as (b2 & s2 & n2 & q2 & g2 & e2 & Er2 & H1 & H2 & H3).
  rewrite Er in Er2. injection Er2 as <- <- <- <- <- <-. split; [done|]. split; [done|]. by eapply hs_step_stream.
Qed.

(** The peer's KEX message arrives: answer with a signature. *)
Lemma kex_arrives p s now sent got er his :
  waiting p None s -> kex_msg his ->
  exists sig s' now', ecdsa_sign (sd_mykey p) (sig_msg (sd_initiator p) (sd_kex p) his (sd_label p)) = Some sig /\
    length sig = 64%nat /\ bytes_ok sig /\
    sptps_receive_data E (plain his) (World s now sent got er) =
      Done (true, World s' now' (sent ++ [(SPTPS_HANDSHAKE, plain sig)]) got er) /\
    waiting p (Some his) s'.
Proof.
  intros [Hp Hi Ho Hm Km He Hh Hst Hin Hout] [Lh Bh]. pose proof Hp as [Hok P1 P2 P3 P4 P5].
  assert (Zh : zlen his = 65) by (unfold zlen; rewrite Lh; done).
  destruct (receive_arrives s now sent got er his SPTPS_HANDSHAKE (SPTPS_HANDSHAKE :: his) Hok P5) as (s1 & Er & Har).
  { split; [done|]. split; [done|]. rewrite Zh. done. } { by constructor. } { unfold opens. by rewrite Hi. }
  destruct (handle_arrived s s1 (S now) sent got er SPTPS_HANDSHAKE his Har Bh) as (buf & Hfu & Hsl & Bb & Zb & Eh).
  change (SPTPS_HANDSHAKE <? SPTPS_HANDSHAKE) with false in Eh. change (SPTPS_HANDSHAKE =? SPTPS_HANDSHAKE) with true in Eh. cbv iota in Eh.
  destruct Har as [(b1 & n1 & r1 & c1 & ->) _ _ _ _]. set (s2 := set_inbuf buf _) in *. pose proof Hfu as [(Hc2 & Hh2 & Hw2) _].
  assert (Edr : take 65 (drop 3 buf) = his) by (rewrite <- Hsl; unfold slice; by rewrite Lh).
  destruct (receive_kex_ok E HE s2 (S now) sent got er (sd_mykey p) (sd_kex p) (drop 3 buf) (zlen his)
    (core_out_ok s2 Hc2) P2 Hm Hh Km Zh) as (sig & s3 & Kh & Esig & Lsig & Bsig & Ek & Ho3 & Hq3).
  { rewrite zlen_drop. lia. } { by apply Forall_drop. }
  cbv zeta in *. rewrite Edr in *. rewrite (plain_sent s2 _ (sw_stream s2 Hw2) Ho) in Ek.
  change (s_initiator s2) with (s_initiator s) in Esig. change (s_label s2) with (s_label s) in Esig. rewrite P1, P4 in Esig.
  assert (Ehs : receive_handshake E (drop 3 buf) (zlen his) (World s2 (S now) sent got er) =
    Done (true, World (set_state SPTPS_SIG s3) (S (S (S now))) (sent ++ [(SPTPS_HANDSHAKE, plain sig)]) got er)).
  { unfold receive_handshake. steps. change (s_state s2) with (s_state s). rewrite Hst.
    change (SPTPS_KEX =? SPTPS_SECONDARY_KEX) with false. change (SPTPS_KEX =? SPTPS_KEX) with true. cbv iota.
    unfold handshake_kex. answer Ek. cbn [negb]. steps. done. }
  rewrite Ehs in Eh. assert (Hdl : 0 <= zlen his <= zlen (drop 3 buf)) by (rewrite zlen_drop; lia).
  pose proof (handled_ok _ _ _ _ _ _ _ _ _ _ _ _ _ Hfu Hdl (Forall_drop _ _ _ Bb) Ehs) as Hs4.
  exists sig, (set_buflen 0 (set_state SPTPS_SIG s3)), (S (S (S now))). splits; [done|done|done| |].
  - unfold plain at 1. rewrite Er, bind_bind, (bind_returns _ _ _ _ _ Eh). unfold finish, then_receive. steps. by apply receive_nil.
  - destruct Ho3 as [(q & c & ->) _]. split; try done.
    + change (u32 (s_inseqno s + 1) = 1). by rewrite Hin.
    + change (q = 2). change (q = u32 (s_outseqno s + 1)) in Hq3. rewrite Hq3, Hout. done.
Qed.

(** The application is told that the handshake is over. *)
Lemma handshake_done_quiet s now sent got er :
  app_sends (e_app E now) = [] ->
  handshake_done E (World s now sent got er) =
  Done (true, World (set_state SPTPS_SECONDARY_KEX s) (S now) sent (got ++ [(SPTPS_HANDSHAKE, [])]) er).
Proof. intros Hq. unfold handshake_done, receive_record, bind, ask. cbn [obind w_s w_now w_sent w_got w_errno]. rewrite Hq. reflexivity. Qed.

(** The peer's signature arrives and is good: the session is keyed. *)
Lemma sig_arrives p s now sent got er his sig :
  waiting p (Some his) s -> kex_msg his -> length sig = 64%nat -> bytes_ok sig ->
  ecdsa_verify (sd_hiskey p) (sig_msg (negb (sd_initiator p)) his (sd_kex p) (sd_label p)) sig = true ->
  (forall n, app_sends (e_app E n) = []) ->
  exists shared s' now', ecdh_compute_shared (sd_ecdh p) (slice 33 32 his) = Some shared /\
    sptps_receive_data E (plain sig) (World s now sent got er) =
      Done (true, World s' now' sent (got ++ [(SPTPS_HANDSHAKE, [])]) er) /\
    secured p (key_material (sd_initiator p) (sd_kex p) his (sd_label p) shared) s'.
Proof.
  intros [Hp Hi Ho Hm Km He Hh Hst Hin Hout] Kh Ls Bs Hv Hqu. pose proof Hp as [Hok P1 P2 P3 P4 P5].
  assert (Zs : zlen sig = 64) by (unfold zlen; rewrite Ls; done).
  destruct (receive_arrives s now sent got er sig SPTPS_HANDSHAKE (SPTPS_HANDSHAKE :: sig) Hok P5) as (s1 & Er & Har).
  { split; [done|]. split; [done|]. rewrite Zs. done. } { by constructor. } { unfold opens. by rewrite Hi. }
  destruct (handle_arrived s s1 (S now) sent got er SPTPS_HANDSHAKE sig Har Bs) as (buf & Hfu & Hsl & Bb & Zb & Eh).
  change (SPTPS_HANDSHAKE <? SPTPS_HANDSHAKE) with false in Eh. change (SPTPS_HANDSHAKE =? SPTPS_HANDSHAKE) with true in Eh. cbv iota in Eh.
  destruct Har as [(b1 & n1 & r1 & c1 & ->) _ _ _ _]. set (s2 := set_inbuf buf _) in *. pose proof Hfu as [(Hc2 & Hh2 & Hw2) _].
  assert (Edr : take 64 (drop 3 buf) = sig) by (rewrite <- Hsl; unfold slice; by rewrite Ls).
  assert (Hr : sig_ready s2 (sd_hiskey p) (sd_kex p) his (sd_ecdh p)) by (split; try done; apply Hc2).
  destruct (receive_sig_ok E HE s2 (S now) sent got er (sd_hiskey p) (sd_kex p) his (sd_ecdh p) (drop 3 buf) (zlen sig) Hr)
    as (shared & s3 & n3 & Esh & Es3 & Hkd).
  { rewrite zlen_drop. lia. } { done. }
  { rewrite Edr. change (s_initiator s2) with (s_initiator s). change (s_label s2) with (s_label s). by rewrite P1, P4. }
  change (s_initiator s2) with (s_initiator s) in Hkd. change (s_label s2) with (s_label s) in Hkd. rewrite P1, P4 in Hkd.
  set (k := key_material _ _ _ _ _) in *. destruct (key_material_ok (sd_initiator p) (sd_kex p) his (sd_label p) shared) as [Lk Bk].
  fold k in Lk, Bk. assert (Ek : key_material (sd_initiator p) (sd_kex p) his (sd_label p) shared = k) by done. clearbody k. destruct Hkd as [(q & co & ic & -> & Wco & Wic & _ & Hq)].
  unfold ack_record in Es3. change (s_outstate s2) with (s_outstate s) in *. rewrite Ho in *. rewrite app_nil_r in Es3.
  change (s_initiator s2) with (s_initiator s) in *. rewrite P1 in *.
  match type of Es3 with _ = Done (_, World ?x _ _ _ _) => set (s3 := x) in * end.
  set (s4 := set_instate true (set_key None (set_incipher (Some (aead_set_key ic (half k (negb (sd_initiator p))))) (set_outstate true s3)))).
  assert (Ea : receive_ack 0 (World (set_outstate true s3) n3 sent got er) = Done (true, World s4 n3 sent got er)).
  { rewrite (receive_ack_ok (set_outstate true s3) n3 sent got er ic k eq_refl eq_refl Lk).
    change (s_initiator (set_outstate true s3)) with (s_initiator s). rewrite P1. done. }
  assert (Ehs : receive_handshake E (drop 3 buf) (zlen sig) (World s2 (S now) sent got er) =
    Done (true, World (set_state SPTPS_SECONDARY_KEX s4) (S n3) sent (got ++ [(SPTPS_HANDSHAKE, [])]) er)).
  { unfold receive_handshake. steps. change (s_state s2) with (s_state s). rewrite Hst.
    change (SPTPS_SIG =? SPTPS_SECONDARY_KEX) with false. change (SPTPS_SIG =? SPTPS_KEX) with false.
    change (SPTPS_SIG =? SPTPS_SIG) with true. cbv iota. answer Es3. cbn [negb]. steps.
    change (s_outstate s3) with (s_outstate s). rewrite Ho. steps. answer Ea. cbn [negb].
    by apply handshake_done_quiet. }
  rewrite Ehs in Eh. assert (Hdl : 0 <= zlen sig <= zlen (drop 3 buf)) by (rewrite zlen_drop; lia).
  pose proof (handled_ok _ _ _ _ _ _ _ _ _ _ _ _ _ Hfu Hdl (Forall_drop _ _ _ Bb) Ehs) as Hs4.
  exists shared, (set_buflen 0 (set_state SPTPS_SECONDARY_KEX s4)), (S n3). splits; [done| |].
  - unfold plain at 1. rewrite Er, bind_bind, (bind_returns _ _ _ _ _ Eh). unfold finish, then_receive. steps. by apply receive_nil.
  - rewrite Ek. split; try done.
    + change (u32 (s_inseqno s + 1) = 2). by rewrite Hin.
    + change (q = 2). rewrite Hq. exact Hout.
    + exists co, ic. splits; [done|done|reflexivity|reflexivity].
Qed.

(** ** Records that were not sealed for their place in the stream *)

(** A refused record of [bytes] stays in the input buffer, which is full. *)
Record stuck (c : aead_ctx) (bytes : list Z) (s : sptps_t) : Prop := {
  sk_full : full s;
  sk_instate : s_instate s = true;
  sk_cipher : exists c', s_incipher s = Some c' /\ aead_wf c' /\ aead_same c c';
  sk_reclen : s_reclen s + 17 = zlen bytes;
  sk_bytes : slice 2 (length bytes) (s_inbuf s) = bytes;
}.

(** Only what belongs to the input of a session has changed, and the scratch of its cipher. *)
Definition input_only (s s' : sptps_t) : Prop :=
  exists b n r q c, s' = set_incipher c (set_inbuf b (set_buflen n (set_reclen r (set_inseqno q s)))).

Lemma input_only_trans s s1 s2 : input_only s s1 -> input_only s1 s2 -> input_only s s2.
Proof. intros (b & n & r & q & c & ->) (b' & n' & r' & q' & c' & ->). by exists b', n', r', q', c'. Qed.

Lemma in_only_input s s' : in_only s s' -> input_only s s'.
Proof. intros [(b & n & r & q & ->)]. exists b, n, r, q, (s_incipher s). by destruct s. Qed.

Lemma stuck_record c bytes s now sent got er :
  aead_wf c -> stuck c bytes s -> bytes_ok bytes -> (forall m, bytes_ok m -> bytes <> aead_seal c (s_inseqno s) m) ->
  exists s', stream_record E (World s now sent got er) = Done (false, World s' now sent got EINVAL) /\
    stuck c bytes s' /\ s_inseqno s' = u32 (s_inseqno s + 1) /\ input_only s s'.
Proof.
  intros Wc [Hf Hi (c1 & Hc1 & Wc1 & Sc1) Hr Hsl] Hb Hno. destruct (full_room s Hf) as (Hz1 & Bi & Hr1).
  set (s2 := set_inseqno (u32 (s_inseqno s + 1)) s).
  destruct (decrypt_in_ok s2 now sent got er (s_inseqno s) bytes c1 Hc1 Wc1 Hb) as (c' & o & Ed & Wc' & Sc' & Hm); [lia|].
  destruct o as [m|].
  { destruct (proj1 (Hm m) eq_refl) as [Bm Em]. rewrite <- (aead_seal_same c c1) in Em by done. by destruct (Hno m Bm). }
  assert (Erd : mem_read (s_inbuf s2) 2 (s_reclen s2 + 17) = Done bytes).
  { change (s_inbuf s2) with (s_inbuf s). change (s_reclen s2) with (s_reclen s). rewrite mem_read_ok by lia. rewrite <- Hsl.
    unfold slice. do 2 f_equal. unfold zlen in *. lia. }
  exists (set_incipher (Some c') s2). splits.
  - unfold stream_record. steps. fold s2. unfold stream_decrypt. steps. change (s_instate s2) with (s_instate s). rewrite Hi.
    rewrite bind_bind. answer Erd. rewrite bind_bind. answer Ed. done.
  - split; [apply full_incipher; [by apply full_inseqno|done]|exact Hi| |exact Hr|exact Hsl].
    exists c'. splits; [done|done|]. by transitivity c1.
  - done.
  - exists (s_inbuf s), (s_buflen s), (s_reclen s), (u32 (s_inseqno s + 1)), (Some c'). unfold s2. by destruct s.
Qed.

(** The call that brings the record. *)
Lemma forged_refused s now sent got er c (data bytes : list Z) :
  session_ok s -> s_buflen s = 0 -> s_instate s = true -> s_incipher s = Some c ->
  zlen data < 2 ^ 16 -> bytes_ok bytes -> zlen bytes = zlen data + 17 ->
  (forall m, bytes_ok m -> bytes <> aead_seal c (s_inseqno s) m) ->
  exists s', sptps_receive_data E (be_bytes 2 (zlen data) ++ bytes) (World s now sent got er) =
      Done (false, World s' (S now) sent got EINVAL) /\
    stuck c bytes s' /\ s_inseqno s' = u32 (s_inseqno s + 1) /\ input_only s s' /\ aead_wf c.
Proof.
  intros Hs Hl Hi Hc Hd Hb Hz Hno.
  destruct (receive_collect s now sent got er data bytes Hs Hl Hd Hb) as (s1 & Er & Ho & Eq & Hf & Hr & Hsl); [by rewrite Hi|].
  pose proof Ho as [(b & n & r & q & Es1)].
  destruct Hs as (Hcore & _ & _). destruct (co_ciphers s Hcore (co_inout s Hcore Hi)) as (co & ci & _ & _ & Hci & Wci).
  rewrite Hc in Hci. injection Hci as <-.
  assert (stuck c bytes s1) as Hst.
  { split; [done|by rewrite Es1| |lia|done]. exists c. splits; [by rewrite Es1|done|reflexivity]. }
  rewrite <- Eq in Hno. destruct (stuck_record c bytes s1 (S now) sent got er Wci Hst Hb Hno) as (s' & E1 & Hst' & Eq' & Hio).
  exists s'. rewrite Er, (bind_returns _ _ _ _ _ E1). splits; [done|done|by rewrite Eq', Eq| |done].
  eapply input_only_trans; [by apply in_only_input|done].
Qed.

(** Any later call: the same record is tried again under the next number. *)
Lemma stuck_again c bytes s now sent got er (p : list Z) :
  aead_wf c -> stuck c bytes s -> bytes_ok bytes -> bytes_ok p -> p <> [] ->
  (forall m, bytes_ok m -> bytes <> aead_seal c (s_inseqno s) m) ->
  exists s', sptps_receive_data E p (World s now sent got er) = Done (false, World s' now sent got EINVAL) /\
    stuck c bytes s' /\ s_inseqno s' = u32 (s_inseqno s + 1) /\ input_only s s'.
Proof.
  intros Wc Hst Hb Hp Hne Hno. pose proof Hst as [Hf _ _ _ _]. pose proof Hf as [Hs Hl].
  pose proof Hs as (_ & _ & Hw). destruct (record_size_range s Hw) as [H3 H4].
  rewrite receive_body by (done || lia). rewrite Hl, Z.sub_diag.
  destruct (Z.ltb_spec (zlen p) 0); [pose proof (zlen_nonneg p); lia|]. change (Z.to_nat 0) with 0%nat. rewrite take_0, drop_0.
  assert (taken s [] = s) as ->.
  { unfold taken, list_write. cbn [length app zlen]. unfold zlen. cbn [length]. rewrite Z.add_0_r, Nat.add_0_r, take_drop. by destruct s. }
  destruct (stuck_record c bytes s now sent got er Wc Hst Hb Hno) as (s' & E1 & Hst' & Eq' & Hio).
  exists s'. rewrite (bind_returns _ _ _ _ _ E1). done.
Qed.

Lemma stuck_forever c bytes more : forall s now sent got er,
  aead_wf c -> stuck c bytes s -> bytes_ok bytes -> Forall (fun p => bytes_ok p /\ p <> []) more ->
  (forall i m, (i < length more)%nat -> bytes_ok m -> bytes <> aead_seal c (u32 (s_inseqno s + Z.of_nat i)) m) ->
  0 <= s_inseqno s < 2 ^ 32 ->
  exists s' er', run_calls E (CallReceive <$> more) (World s now sent got er) =
    Done (replicate (length more) false, World s' now sent got er') /\ input_only s s'.
Proof.
  induction more as [|p more IH]; intros s now sent got er Wc Hst Hb Hm Hno Hq.
  { exists s, er. split; [done|]. exists (s_inbuf s), (s_buflen s), (s_reclen s), (s_inseqno s), (s_incipher s). by destruct s. }
  apply Forall_cons in Hm as [[Bp Np] Hm]. cbn [fmap list_fmap run_calls run_call length replicate].
  destruct (stuck_again c bytes s now sent got er p Wc Hst Hb Bp Np) as (s1 & E1 & Hst1 & Eq1 & Hio1).
  { intros m Bm. specialize (Hno 0%nat m ltac:(cbn; lia) Bm). by rewrite Z.add_0_r, u32_small in Hno by done. }
  destruct (IH s1 now sent got EINVAL Wc Hst1 Hb Hm) as (s2 & er2 & E2 & Hio2).
  { intros i m Hi Bm. specialize (Hno (S i) m ltac:(cbn; lia) Bm). rewrite Eq1, u32_add_l.
    by replace (s_inseqno s + 1 + Z.of_nat i) with (s_inseqno s + Z.of_nat (S i)) by lia. }
  { rewrite Eq1. apply u32_range. }
  exists s2, er2. rewrite (bind_returns _ _ _ _ _ E1), (bind_returns _ _ _ _ _ E2).
  split; [done|]. by eapply input_only_trans.
Qed.

End Link.

(** ** Both sides *)

Lemma key_material_agree {A : Aead} {C : Ed25519} i ma mb label shared :
  key_material i ma mb label shared = key_material (negb i) mb ma label shared.
Proof. by destruct i. Qed.

Lemma secured_link {A : Aead} {C : Ed25519} pa pb k a b :
  sd_initiator pb = negb (sd_initiator pa) -> secured pa k a -> secured pb k b -> link a b.
Proof.
  intros Hn [[(Hca & _ & _) _ _ _ _ _] _ Ho _ _ Hq (co & _ & Wo & _ & Eo & _)]
    [[(Hcb & _ & _) _ _ _ _ _] Hi Hob _ Hs _ (_ & ci & _ & Wi & _ & Ei)].
  split; [done|done|by rewrite Hq, Hs|]. rewrite Hn, negb_involutive in Ei.
  destruct (co_ciphers a Hca Ho) as (co' & _ & Eo' & Wo' & _ & _). rewrite Eo in Eo'. injection Eo' as <-.
  destruct (co_ciphers b Hcb Hob) as (_ & ci' & _ & _ & Ei' & Wi'). rewrite Ei in Ei'. injection Ei' as <-.
  eexists _, _. splits; [exact Eo|exact Wo'|exact Ei|exact Wi'|by apply aead_set_key_same].
Qed.

Lemma kex_pub nonce pub : length nonce = 32%nat -> length pub = 32%nat -> slice 33 32 (kex_of nonce pub) = pub.
Proof.
  intros Hn Hp. unfold slice, kex_of. cbn [drop]. rewrite drop_app_exact by done. rewrite take_ge by lia. done.
Qed.

Lemma plain_ok data : bytes_ok data -> bytes_ok (plain data).
Proof. intros H. apply Forall_app. split; [apply be_bytes_ok|by constructor]. Qed.
