(* ===== verification/SptpsTheorems.v ===== *)
(** What SPTPS stream sessions promise: they never go wrong, they do not care how
    the stream is cut, two sessions that exchange their records agree on keys,
    records arrive as they were sent, and nothing else arrives. *)
From S2P Require Import Prelude Bytes Aead Sha512 Prf Ed25519 ChaChaPoly Sptps SptpsRun SptpsHs SptpsSafe SptpsLink.

(** ** A concrete environment and session, for the witnesses *)

Module Sim.
#[export] Instance cipher : Aead := chacha_aead sim_stack sim_stack_ok.
#[export] Existing Instance Toy.toy_ed25519.

Definition sim_env : env :=
  Env (fun _ => Alloc true (fun _ => 0)) (fun n => replicate 32 7) (fun _ => true) (fun _ => App [] true)
      sim_md (replicate 128 0).

Lemma sim_env_ok : env_ok sim_env.
Proof.
  split; try done. intros n. split; [done|]. by apply Forall_replicate.
Qed.

Definition sim_world : world := World sptps_zero 0 [] [] 0.

Definition sim_ctx : aead_ctx := aead_set_key aead_init (replicate 64 3).

Lemma sim_ctx_wf : aead_wf sim_ctx.
Proof. apply aead_set_key_wf; [apply aead_init_wf|by apply Forall_replicate|done]. Qed.

(** A session after a handshake. *)
Definition sim_peer (initiator datagram : bool) : sptps_t :=
  Sptps initiator datagram true true SPTPS_SECONDARY_KEX (replicate 7 0) 0 (Some sim_ctx) 32 2 0 0 (Some sim_ctx) 2
    (replicate 32 0) (replicate 1024 0) 1024 (Some (key_of [1])) (Some (key_of [1])) None None None None [5].

Notation sim_session i := (sim_peer i false).

Lemma sim_core i d : core (sim_peer i d).
Proof. split; [by eexists|by eexists|done|done|]. intros _. exists sim_ctx, sim_ctx. pose proof sim_ctx_wf. done. Qed.

Lemma sim_hs i d : hs (sim_peer i d).
Proof. apply hs_secondary; try done. by left. Qed.

Lemma sim_session_ok i : session_ok (sim_session i).
Proof.
  split; [apply sim_core|]. split; [apply sim_hs|].
  split; try done; [by apply Forall_replicate|]. left. cbn. unfold zlen. cbn. lia.
Qed.

Lemma sim_link : link (sim_session true) (sim_session false).
Proof.
  split; try done. exists sim_ctx, sim_ctx. pose proof sim_ctx_wf. splits; try done.
Qed.
End Sim.

Section Theorems.
Context {A : Aead} {C : Ed25519}.

(** C5. A stream session never goes wrong while memory lasts and its callbacks work.
    Assume ([env_ok]) that every allocation succeeds, that [send_data] accepts what it is
    given, that the random generator fills its 32 bytes, and that records sent by the
    application, also from its [receive_record], are shorter than [2 ^ 16] bytes.
    Then, after [sptps_start] with a label, any sequence of calls of
    [sptps_receive_data] with any bytes, [sptps_send_record], [sptps_verify_datagram]
    (fewer than [2 ^ 32] bytes), [sptps_force_kex] and [sptps_stop] runs to its end.
    Every call returns: no loop runs on, no NULL pointer is followed, no access
    leaves [inbuf], the KEX messages, the key material or [decrypted_buffer]; and
    the session that is left is well formed (or was stopped).  After a failed
    allocation this does not hold: [receive_data_stream] then leaves [inbuf] NULL and
    the next call writes through it. *)
Theorem stream_session_safe (E : env) initiator mykey hiskey label (calls : list call) s now sent got er :
  env_ok E -> 0 < zlen label < 2 ^ 32 -> Forall call_ok calls ->
  exists bs w', bind (sptps_start E initiator false (Some mykey) (Some hiskey) (Some label)) (fun _ => run_calls E calls)
      (World s now sent got er) = Done (bs, w') /\
    length bs = length calls /\ live (w_s w').
Proof.
  intros HE Hl Hc. destruct (start_safe E HE s now sent got er initiator mykey hiskey label) as (s1 & n1 & q1 & Es & Hs); [lia|apply Hl|].
  destruct (run_calls_safe E HE calls s1 n1 q1 got er (or_introl Hs) Hc) as (bs & s2 & n2 & q2 & g2 & e2 & Er & H1 & H2).
  eexists bs, _. rewrite (bind_returns _ _ _ _ _ Es). split; [exact Er|]. done.
Qed.

(** C19. The stream may be cut anywhere: handing bytes to a well-formed session in
    any number of calls of [sptps_receive_data], down to single and zero bytes, has
    the same effects and the same result as handing them over at once: same
    records, same answers, same session. *)
Theorem stream_cut_anywhere (E : env) (s : sptps_t) (chunks : list (list Z)) now sent got er :
  env_ok E -> session_ok s -> bytes_ok (concat chunks) ->
  receive_all E chunks (World s now sent got er) = sptps_receive_data E (concat chunks) (World s now sent got er).
Proof. intros HE Hs Hb. by apply receive_all_concat. Qed.

(** C4. Records arrive: when [b] expects what [a] sends ([link]), every sequence of
    application records sent by [a] is accepted, and [b], given the bytes that went
    out cut in any way, hands exactly these records, in order, to its application
    and is linked to [a] again. *)
Theorem records_delivered (Ea Eb : env) (a b : sptps_t) (records : list (Z * list Z)) nowa senta gota era now sent got er :
  env_ok Ea -> env_ok Eb -> (forall n, app_ok (e_app Eb n) = true) ->
  session_ok a -> session_ok b -> s_buflen b = 0 -> link a b -> Forall app_record records ->
  exists a' nowa' wire, run_calls Ea (send_calls records) (World a nowa senta gota era) =
      Done (replicate (length records) true, World a' nowa' (senta ++ wire) gota era) /\
    forall chunks, concat chunks = concat (snd <$> wire) ->
      exists b' now' sent' er', receive_all Eb chunks (World b now sent got er) =
          Done (true, World b' now' sent' (got ++ records) er') /\ link a' b' /\ session_ok b'.
Proof.
  intros HEa HEb Happ Ha Hb Hl Hk Hr.
  destruct (records_received Eb HEb Ea HEa records a b now sent got er nowa senta gota era Ha Hb Hl Hk Hr Happ)
    as (a' & n' & wire & Es & Ha' & Bw & b' & n2 & q2 & e2 & Er & Hb' & _ & Hk').
  exists a', n', wire. split; [exact Es|]. intros chunks Hc. exists b', n2, q2, e2. splits; [|done|done].
  rewrite receive_all_concat; [by rewrite Hc|done|done|by rewrite Hc].
Qed.

(** C20. A forged record ends the stream: with an allocator and a [send_data] that do not
    fail ([env_ok]), a session at the start of a record that is given a record whose bytes
    were not sealed under its key for the number that is due refuses it; the call returns
    false. The record stays in the input buffer, so that every later call with data tries
    it again under the next number: as long as it is not the sealed form of a message for
    one of those numbers either, every call returns false. Nothing is handed to the
    application and nothing is sent, and of the session only the input side changes:
    [inbuf], [buflen], [reclen], [inseqno], which is advanced by each attempt, and the
    scratch of the cipher for incoming records. *)
Theorem forged_record_refused (E : env) (s : sptps_t) c (data bytes : list Z) (more : list (list Z)) now sent got er :
  env_ok E -> session_ok s -> s_buflen s = 0 -> s_instate s = true -> s_incipher s = Some c -> 0 <= s_inseqno s < 2 ^ 32 ->
  zlen data < 2 ^ 16 -> bytes_ok bytes -> zlen bytes = zlen data + 17 -> Forall (fun p => bytes_ok p /\ p <> []) more ->
  (forall i m, (i <= length more)%nat -> bytes_ok m -> bytes <> aead_seal c (u32 (s_inseqno s + Z.of_nat i)) m) ->
  exists s' er', run_calls E (CallReceive <$> (be_bytes 2 (zlen data) ++ bytes) :: more) (World s now sent got er) =
      Done (replicate (S (length more)) false, World s' (S now) sent got er') /\
    input_only s s'.
Proof.
  intros HE Hs Hl Hi Hc Hq Hd Hb Hz Hm Hno.
  destruct (forged_refused E HE s now sent got er c data bytes Hs Hl Hi Hc Hd Hb Hz) as (s1 & E1 & Hst & Eq1 & Hio1 & Wc).
  { intros m Bm. specialize (Hno 0%nat m ltac:(lia) Bm). by rewrite Z.add_0_r, u32_small in Hno by done. }
  destruct (stuck_forever E HE c bytes more s1 (S now) sent got EINVAL Wc Hst Hb Hm) as (s2 & er2 & E2 & Hio2).
  { intros i m Hlt Bm. specialize (Hno (S i) m ltac:(lia) Bm). rewrite Eq1, u32_add_l.
    by replace (s_inseqno s + 1 + Z.of_nat i) with (s_inseqno s + Z.of_nat (S i)) by lia. }
  { rewrite Eq1. apply u32_range. }
  exists s2, er2. cbn [fmap list_fmap run_calls run_call]. rewrite (bind_returns _ _ _ _ _ E1), (bind_returns _ _ _ _ _ E2).
  split; [done|]. by eapply input_only_trans.
Qed.

(** C3. The handshake completes and both sides agree: two sessions with the same
    label and each other's public keys, one of them the initiator, that hand each
    other the records they send, cut in any way, both accept everything, tell their
    applications that the handshake is over, and end up linked in both directions:
    what either of them sends from then on, the other can read. *)
Theorem handshake_agrees (Ea Eb : env) (i : bool) (seed_a seed_b label : list Z) (key_a key_b : ecdsa_t) :
  env_ok Ea -> env_ok Eb -> (forall n, app_sends (e_app Ea n) = []) -> (forall n, app_sends (e_app Eb n) = []) ->
  0 < zlen label < 2 ^ 32 -> public key_a = public (key_of seed_a) -> public key_b = public (key_of seed_b) ->
  exists a0 b0 na nb kex_a kex_b,
    sptps_start Ea i false (Some (key_of seed_a)) (Some key_b) (Some label) (World sptps_zero 0 [] [] 0) =
      Done (true, World a0 na [(SPTPS_HANDSHAKE, kex_a)] [] 0) /\
    sptps_start Eb (negb i) false (Some (key_of seed_b)) (Some key_a) (Some label) (World sptps_zero 0 [] [] 0) =
      Done (true, World b0 nb [(SPTPS_HANDSHAKE, kex_b)] [] 0) /\
    forall to_a to_b, concat to_a = kex_b -> concat to_b = kex_a ->
    exists a1 b1 na1 nb1 sig_a sig_b,
      receive_all Ea to_a (World a0 na [(SPTPS_HANDSHAKE, kex_a)] [] 0) =
        Done (true, World a1 na1 [(SPTPS_HANDSHAKE, kex_a); (SPTPS_HANDSHAKE, sig_a)] [] 0) /\
      receive_all Eb to_b (World b0 nb [(SPTPS_HANDSHAKE, kex_b)] [] 0) =
        Done (true, World b1 nb1 [(SPTPS_HANDSHAKE, kex_b); (SPTPS_HANDSHAKE, sig_b)] [] 0) /\
      forall to_a2 to_b2, concat to_a2 = sig_b -> concat to_b2 = sig_a ->
      exists a2 b2 na2 nb2,
        receive_all Ea to_a2 (World a1 na1 [(SPTPS_HANDSHAKE, kex_a); (SPTPS_HANDSHAKE, sig_a)] [] 0) =
          Done (true, World a2 na2 [(SPTPS_HANDSHAKE, kex_a); (SPTPS_HANDSHAKE, sig_a)] [(SPTPS_HANDSHAKE, [])] 0) /\
        receive_all Eb to_b2 (World b1 nb1 [(SPTPS_HANDSHAKE, kex_b); (SPTPS_HANDSHAKE, sig_b)] [] 0) =
          Done (true, World b2 nb2 [(SPTPS_HANDSHAKE, kex_b); (SPTPS_HANDSHAKE, sig_b)] [(SPTPS_HANDSHAKE, [])] 0) /\
        link a2 b2 /\ link b2 a2 /\ session_ok a2 /\ session_ok b2.
Proof.
  intros HEa HEb Qa Qb Hl Ka Kb.
  destruct (start_waits Ea HEa sptps_zero 0 [] [] 0 i (key_of seed_a) key_b label) as (ra & nca & ea & pa & a0 & na & Ga & La & Lpa & Sa & Wa); [lia|apply Hl|].
  destruct (start_waits Eb HEb sptps_zero 0 [] [] 0 (negb i) (key_of seed_b) key_a label) as (rb & ncb & eb & pb & b0 & nb & Gb & Lb & Lpb & Sb & Wb); [lia|apply Hl|].
  cbv zeta in *. pose proof (kex_pub nca pa La Lpa) as Pa. pose proof (kex_pub ncb pb Lb Lpb) as Pb.
  set (ma := kex_of nca pa) in *. set (mb := kex_of ncb pb) in *. clearbody ma mb. cbn [app] in *.
  pose proof (wt_kex _ _ _ Wa) as KMa. pose proof (wt_kex _ _ _ Wb) as KMb. cbn [sd_kex] in *.
  exists a0, b0, na, nb, (plain ma), (plain mb). splits; [done|done|]. intros to_a to_b Ea1 Eb1.
  destruct (kex_arrives Ea HEa _ a0 na [(SPTPS_HANDSHAKE, plain ma)] [] 0 mb Wa KMb) as (sga & a1 & na1 & Sga & Lsa & Bsa & Ra & Wa1).
  destruct (kex_arrives Eb HEb _ b0 nb [(SPTPS_HANDSHAKE, plain mb)] [] 0 ma Wb KMa) as (sgb & b1 & nb1 & Sgb & Lsb & Bsb & Rb & Wb1).
  cbn [sd_mykey sd_initiator sd_kex sd_label app] in *.
  exists a1, b1, na1, nb1, (plain sga), (plain sgb).
  rewrite (receive_all_concat Ea HEa) by (rewrite ?Ea1; first [apply (pl_ok _ _ (wt_plays _ _ _ Wa))|apply plain_ok, KMb]).
  rewrite (receive_all_concat Eb HEb) by (rewrite ?Eb1; first [apply (pl_ok _ _ (wt_plays _ _ _ Wb))|apply plain_ok, KMa]).
  rewrite Ea1, Eb1. splits; [exact Ra|exact Rb|]. intros to_a2 to_b2 Ea2 Eb2.
  destruct (sig_arrives Ea HEa _ a1 na1 [(SPTPS_HANDSHAKE, plain ma); (SPTPS_HANDSHAKE, plain sga)] [] 0 mb sgb Wa1 KMb Lsb Bsb)
    as (sha & a2 & na2 & Sha & Ra2 & Wa2); [|done|].
  { cbn [sd_hiskey sd_initiator sd_kex sd_label]. by eapply verify_sign. }
  destruct (sig_arrives Eb HEb _ b1 nb1 [(SPTPS_HANDSHAKE, plain mb); (SPTPS_HANDSHAKE, plain sgb)] [] 0 ma sga Wb1 KMa Lsa Bsa)
    as (shb & b2 & nb2 & Shb & Rb2 & Wb2); [|done|].
  { cbn [sd_hiskey sd_initiator sd_kex sd_label]. rewrite negb_involutive. by eapply verify_sign. }
  cbn [sd_ecdh sd_initiator sd_kex sd_label app] in *. rewrite Pb in Sha. rewrite Pa in Shb.
  pose proof (shared_agree ra rb ea pa eb pb Ga Gb) as Hsh. rewrite Sha, Shb in Hsh. injection Hsh as <-.
  rewrite <- key_material_agree in Wb2.
  exists a2, b2, na2, nb2.
  rewrite (receive_all_concat Ea HEa) by (rewrite ?Ea2; first [apply (pl_ok _ _ (wt_plays _ _ _ Wa1))|by apply plain_ok]).
  rewrite (receive_all_concat Eb HEb) by (rewrite ?Eb2; first [apply (pl_ok _ _ (wt_plays _ _ _ Wb1))|by apply plain_ok]).
  rewrite Ea2, Eb2. splits; [exact Ra2|exact Rb2| | |apply (se_plays _ _ _ Wa2)|apply (se_plays _ _ _ Wb2)].
  - eapply secured_link; [|exact Wa2|exact Wb2]. done.
  - eapply secured_link; [|exact Wb2|exact Wa2]. symmetry. apply negb_involutive.
Qed.

End Theorems.

(** ** Witnesses *)

Section Witnesses.
Import Sim.

Lemma stream_session_safe_witness :
  exists bs w', bind (sptps_start sim_env true false (Some (key_of [1])) (Some (key_of [2])) (Some [5]))
      (fun _ => run_calls sim_env [CallReceive [0; 1; 128]; CallSend 1 [2]; CallForceKex; CallVerify [1]; CallStop; CallReceive [0]])
      sim_world = Done (bs, w') /\ length bs = 6%nat.
Proof.
  destruct (stream_session_safe sim_env true (key_of [1]) (key_of [2]) [5]
    [CallReceive [0; 1; 128]; CallSend 1 [2]; CallForceKex; CallVerify [1]; CallStop; CallReceive [0]]
    sptps_zero 0 [] [] 0 sim_env_ok) as (bs & w' & H1 & H2 & _).
  - done.
  - repeat constructor; lia.
  - exists bs, w'. split; [exact H1|exact H2].
Defined.

Lemma stream_cut_anywhere_witness :
  receive_all sim_env [[0]; [5; 1]; []; [2; 3; 4]] (World (sim_session true) 0 [] [] 0) =
  sptps_receive_data sim_env [0; 5; 1; 2; 3; 4] (World (sim_session true) 0 [] [] 0).
Proof.
  apply (stream_cut_anywhere sim_env (sim_session true) [[0]; [5; 1]; []; [2; 3; 4]]); [apply sim_env_ok|apply sim_session_ok|].
  repeat constructor; lia.
Defined.

Lemma records_delivered_witness :
  exists a' n' wire, run_calls sim_env (send_calls [(1, [10; 11]); (2, [])]) (World (sim_session true) 0 [] [] 0) =
      Done ([true; true], World a' n' wire [] 0) /\
    exists b' n2 q2 e2, receive_all sim_env [concat (snd <$> wire)] (World (sim_session false) 0 [] [] 0) =
      Done (true, World b' n2 q2 [(1, [10; 11]); (2, [])] e2).
Proof.
  destruct (records_delivered sim_env sim_env (sim_session true) (sim_session false) [(1, [10; 11]); (2, [])] 0 [] [] 0 0 [] [] 0
    sim_env_ok sim_env_ok (fun _ => eq_refl) (sim_session_ok true) (sim_session_ok false) eq_refl sim_link) as (a' & n' & wire & H1 & H2).
  - repeat constructor; cbn; lia.
  - exists a', n', wire. split; [exact H1|].
    destruct (H2 [concat (snd <$> wire)]) as (b' & n2 & q2 & e2 & Er & _); [apply app_nil_r|]. exists b', n2, q2, e2. exact Er.
Defined.

Lemma zeros_not_sealed i m : (i <= 1)%nat -> bytes_ok m -> replicate 17 0 <> aead_seal sim_ctx (u32 (2 + Z.of_nat i)) m.
Proof.
  intros Hi Bm Em. destruct (aead_decrypt_ok sim_ctx (u32 (2 + Z.of_nat i)) (replicate 17 0) sim_ctx_wf) as (c' & r & Ed & _ & _ & Hm).
  { by apply Forall_replicate. } { done. }
  pose proof (proj2 (Hm m) (conj Bm Em)) as Hr.
  assert (Hn : match aead_decrypt sim_ctx (u32 (2 + Z.of_nat i)) (replicate 17 0) with Done (_, None) => true | _ => false end = true).
  { destruct i as [|[|i]]; [vm_compute; reflexivity|vm_compute; reflexivity|lia]. }
  rewrite Ed, Hr in Hn. discriminate.
Qed.

(** A forged record, and a byte after it. *)
Lemma forged_record_refused_witness :
  exists s' er', run_calls sim_env [CallReceive (be_bytes 2 0 ++ replicate 17 0); CallReceive [5]] (World (sim_session true) 0 [] [] 0) =
    Done ([false; false], World s' 1 [] [] er').
Proof.
  destruct (forged_record_refused sim_env (sim_session true) sim_ctx [] (replicate 17 0) [[5]] 0 [] [] 0 sim_env_ok (sim_session_ok true))
    as (s' & er' & Er & _); [done|done|done|done|done|by apply Forall_replicate|done| |exact zeros_not_sealed|].
  { repeat constructor; done. }
  exists s', er'. exact Er.
Defined.

Lemma handshake_agrees_witness :
  exists a0 b0 na nb kex_a kex_b,
    sptps_start sim_env true false (Some (key_of [1])) (Some (key_of [2])) (Some [5]) sim_world =
      Done (true, World a0 na [(SPTPS_HANDSHAKE, kex_a)] [] 0) /\
    sptps_start sim_env false false (Some (key_of [2])) (Some (key_of [1])) (Some [5]) sim_world =
      Done (true, World b0 nb [(SPTPS_HANDSHAKE, kex_b)] [] 0).
Proof.
  destruct (handshake_agrees sim_env sim_env true [1] [2] [5] (key_of [1]) (key_of [2]) sim_env_ok sim_env_ok
    (fun _ => eq_refl) (fun _ => eq_refl)) as (a0 & b0 & na & nb & ka & kb & H1 & H2 & _); [done|done|done|].
  exists a0, b0, na, nb, ka, kb. split; [exact H1|exact H2].
Defined.

End Witnesses.
