(* ===== verification/SptpsDatagram.v ===== *)
(** SPTPS datagrams: authentication, replay window and delivery together.

    [dgram_ok s v] says that a datagram session is in order and that its bitmap
    stands for the window [v].  Authentic application datagrams, in any order and
    with any repetitions, are delivered exactly when the window admits them. *)
From S2P Require Import Prelude Bytes Aead Sha512 Prf Ed25519 ChaChaPoly Sptps SptpsReplay SptpsRun SptpsHs SptpsSafe SptpsLink SptpsTheorems.

(** ** The specification: what a window lets through *)

Fixpoint admitted {X} (size : Z) (v : window) (l : list (Z * X)) : list (Z * X) :=
  match l with
  | [] => []
  | (n, x) :: l => let '(b, v) := admit_one size v n in (if b then [(n, x)] else []) ++ admitted size v l
  end.

Lemma admitted_new {X} size (l : list (Z * X)) : forall v,
  (forall n, n ∈ seen v -> n < next v) ->
  NoDup (admitted size v l).*1 /\ forall n, n ∈ (admitted size v l).*1 -> n ∉ seen v.
Proof.
  induction l as [|[n x] l IH]; intros v Hv; [by split; [constructor|intros n []%elem_of_nil]|].
  cbn [admitted]. unfold admit_one. destruct (fresh size v n) eqn:Ef; cbn [app]; [|by apply IH].
  assert (Hn : n ∉ seen v).
  { unfold fresh in Ef. apply orb_true_iff in Ef as [Ef|[_ Ef]%andb_true_iff]; [|by apply bool_decide_eq_true in Ef].
    ztests. intros Hin. specialize (Hv n Hin). lia. }
  destruct (IH (Window (Z.max (next v) (n + 1)) (n :: seen v))) as [H1 H2]; cbn [seen next] in *.
  { intros m [->|Hm]%elem_of_cons; [lia|]. specialize (Hv m Hm). lia. }
  cbn [fmap list_fmap fst]. split.
  - apply NoDup_cons. split; [|done]. intros Hin. apply (H2 n Hin). apply elem_of_cons. by left.
  - intros m [->|Hm]%elem_of_cons; [done|]. specialize (H2 m Hm). rewrite elem_of_cons in H2. tauto.
Qed.

Section Datagram.
Context {A : Aead} {C : Ed25519} (E : env) (HE : env_ok E) (Happ : forall n, app_ok (e_app E n) = true).

Record dgram_ok (s : sptps_t) (v : window) : Prop := {
  dg_core : core s;
  dg_hs : hs s;
  dg_datagram : s_datagram s = true;
  dg_instate : s_instate s = true;
  dg_win : 0 < s_replaywin s /\ 8 * s_replaywin s < 2 ^ 31;
  dg_late : refines (s_replaywin s) v (s_inseqno s) (s_late s);
  dg_buffer : zlen (s_decrypted_buffer s) = s_decrypted_buffer_len s;
}.

(** The bytes of a datagram sealed for [s]. *)
Definition sealed_for (s : sptps_t) (n : Z) (type : Z) (data : list Z) : list Z :=
  match s_incipher s with
  | Some c => be_bytes 4 n ++ aead_seal c n (type :: data)
  | None => []
  end.

(** Only what receiving a datagram may change. *)
Record dg_step (s s' : sptps_t) : Prop := {
  ds_cipher : forall c, s_incipher s = Some c -> aead_wf c ->
    exists c', s_incipher s' = Some c' /\ aead_wf c' /\ aead_same c c';
  ds_window : s_replaywin s' = s_replaywin s;
  ds_room : s_decrypted_buffer_len s' = s_decrypted_buffer_len s;
}.

(** The session after the packet was opened and checked. *)
Definition opened_session (s : sptps_t) (c : aead_ctx) (buf late : list Z) (q r : Z) : sptps_t :=
  set_received r (set_inseqno q (set_late late (set_decrypted_buffer buf (set_incipher (Some c) s)))).

Lemma opened_core s c buf late q r : core s -> aead_wf c -> core (opened_session s c buf late q r).
Proof. intros Hc Wc. destruct (core_incipher s c Hc Wc). by split. Qed.

Lemma opened_hs s c buf late q r : hs s -> hs (opened_session s c buf late q r).
Proof. by apply (hs_same s). Qed.

(** Handing a decrypted application record to the application. *)
Lemma datagram_record_ok s now sent got er type data :
  core s -> s_instate s = true -> fits type data -> type < SPTPS_HANDSHAKE ->
  zlen data + 21 <= zlen (s_decrypted_buffer s) -> take (S (length data)) (s_decrypted_buffer s) = type :: data ->
  exists buf s' now' sent' er', datagram_record E (zlen data + 21) (World s now sent got er) =
      Done (true, World s' now' sent' (got ++ [(type, data)]) er') /\
    out_only (set_decrypted_buffer buf s) s' /\ zlen buf = zlen (s_decrypted_buffer s).
Proof.
  intros Hc Hi (Ht & Hd & Hz) Hlt Hroom Hbuf. pose proof (zlen_nonneg data) as H0.
  set (o := Z.to_nat (zlen data + 1)). set (buf := list_write o [0] (s_decrypted_buffer s)).
  assert (Hlen : (o + length [0%Z] <= length (s_decrypted_buffer s))%nat) by (unfold o, zlen in *; simpl; lia).
  assert (Zb : zlen buf = zlen (s_decrypted_buffer s)) by (unfold zlen, buf; by rewrite length_list_write).
  assert (Hs : slice 0 (S (length data)) buf = type :: data).
  { unfold buf. rewrite slice_write_after; [unfold slice; by rewrite drop_0|done|]. unfold o, zlen. lia. }
  assert (H1 : slice 0 1 buf = [type]) by (rewrite <- (slice_slice 0 (S (length data)) 0 1) by lia; by rewrite Hs).
  assert (H3 : slice 1 (length data) buf = data).
  { change 1%nat with (0 + 1)%nat. rewrite <- (slice_slice 0 (S (length data)) 1 (length data)) by lia. rewrite Hs.
    unfold slice. cbn [drop]. by rewrite drop_0, firstn_all. }
  destruct (receive_record_ok E HE (set_decrypted_buffer buf s) now sent got er type data) as (s' & n' & q' & e' & Er & Ho).
  { intros Hos. destruct (co_ciphers s Hc Hos) as (co & ci & Hco & Wco & _). by exists co. }
  exists buf, s', n', q', e'. split; [|done]. rewrite Happ in Er.
  unfold datagram_record. steps. replace (zlen data + 21 - 20) with (zlen data + 1) by lia.
  answer (mem_write_list (s_decrypted_buffer s) (zlen data + 1) [0] ltac:(lia) ltac:(unfold zlen in *; simpl; lia)).
  fold o buf. steps.
  assert (Et : mem_read buf 0 1 = Done [type]) by (rewrite mem_read_ok by lia; by f_equal).
  answer Et. cbn [head from_option]. rewrite (proj2 (Z.ltb_lt _ _) Hlt). steps. rewrite Hi. cbn [negb].
  replace (u16 (zlen data + 21 - SPTPS_DATAGRAM_OVERHEAD)) with (zlen data)
    by (unfold SPTPS_DATAGRAM_OVERHEAD; rewrite u16_small; lia).
  assert (Ed : mem_read buf 1 (zlen data) = Done data).
  { rewrite mem_read_ok by lia. f_equal. unfold zlen. rewrite Nat2Z.id. exact H3. }
  answer Ed. answer Er. done.
Qed.

(** The verdict of the replay check, as the receiver uses it. *)
Lemma check_ok s v n :
  dgram_ok s v -> 0 <= n -> n + 1 + 8 * s_replaywin s < 2 ^ 32 ->
  let '(b, v') := admit_one (8 * s_replaywin s) v n in
  exists r, replay_check (s_replaywin s) (s_inseqno s) (s_late s) n = Done r /\
    match r with
    | None => b = false /\ v' = v
    | Some late => b = true /\ refines (s_replaywin s) v' (if s_inseqno s <=? n then u32 (n + 1) else s_inseqno s) late
    end.
Proof.
  intros [_ _ _ _ [W1 W2] Hr _] H0 Hn.
  destruct (replay_step_ok (s_replaywin s) W1 W2 v (s_inseqno s) (s_late s) n Hr H0 Hn) as (late' & Es & Hr').
  destruct (admit_one _ v n) as [b v'] eqn:Ea. cbn [fst snd] in *. unfold replay_step in Es.
  destruct (replay_check _ _ _ n) as [r|]; [|done]. exists r. split; [done|]. cbn [obind] in Es.
  destruct r as [late|]; injection Es as <- E1 E2.
  - split; [done|]. by rewrite E1, E2.
  - split; [done|]. unfold admit_one in Ea. destruct (fresh _ v n); congruence.
Qed.

Lemma sealed_for_length s c n type data :
  s_incipher s = Some c -> zlen (sealed_for s n type data) = zlen data + 21.
Proof.
  intros Hc. unfold sealed_for. rewrite Hc, zlen_app, aead_seal_length. unfold zlen. rewrite length_be_bytes. simpl. lia.
Qed.

(** The sequence number and the sealed part of such a datagram. *)
Lemma sealed_for_parts s c n type data :
  s_incipher s = Some c -> 0 <= n < 2 ^ 32 ->
  be_val (take 4 (sealed_for s n type data)) = n /\ drop 4 (sealed_for s n type data) = aead_seal c n (type :: data).
Proof.
  intros Hc Hn. unfold sealed_for. rewrite Hc, take_app_exact, drop_app_exact by (by rewrite length_be_bytes). split; [|done].
  apply be_val_bytes. change (256 ^ Z.of_nat 4) with (2 ^ 32). lia.
Qed.

(** One authentic application datagram. *)
Lemma datagram_received s v now sent got er n type data :
  dgram_ok s v -> fits type data -> type < SPTPS_HANDSHAKE -> 0 <= n -> n + 1 + 8 * s_replaywin s < 2 ^ 32 ->
  zlen data + 21 <= s_decrypted_buffer_len s ->
  let '(b, v') := admit_one (8 * s_replaywin s) v n in
  exists s' now' sent' er', sptps_receive_data E (sealed_for s n type data) (World s now sent got er) =
      Done (b, World s' now' sent' (got ++ (if b then [(type, data)] else [])) er') /\
    dgram_ok s' v' /\ dg_step s s'.
Proof.
  intros Hs Hf Hlt H0 Hn Hroom. pose proof (check_ok s v n Hs H0 Hn) as Hck.
  destruct (admit_one _ v n) as [b v'] eqn:Ea. destruct Hck as (r & Ec & Hr).
  pose proof Hs as [Hc Hh Hd Hi [W1 W2] Hrf Hb]. destruct (co_ciphers s Hc (co_inout s Hc Hi)) as (co & c & _ & _ & Hci & Wci).
  pose proof (sealed_for_length s c n type data Hci) as Zd. pose proof (zlen_nonneg data) as Hz0.
  unfold sptps_receive_data. steps. rewrite (hs_state s Hh), Hd. unfold sptps_receive_data_datagram. steps. rewrite Hi, Zd.
  rewrite (proj2 (Z.ltb_ge _ _)) by (unfold SPTPS_DATAGRAM_OVERHEAD; lia). steps. cbn [negb].
  destruct (sealed_for_parts s c n type data Hci ltac:(lia)) as [En Ed].
  rewrite En, Ed. clear En Ed.
  assert (Eg : grow_decrypted E (zlen data + 21) (World s now sent got er) = Done (true, World s now sent got er)).
  { unfold grow_decrypted. steps. rewrite (proj2 (Z.ltb_ge _ _)) by lia. done. }
  answer Eg. cbn [negb]. destruct Hf as (Ht & Hbd & Hz). assert (Bm : bytes_ok (type :: data)) by (by constructor).
  assert (Zm : zlen (type :: data) = zlen data + 1) by (unfold zlen; simpl; lia).
  destruct (decrypt_in_ok s now sent got er n (aead_seal c n (type :: data)) c Hci Wci) as (c' & o & Edec & Wc' & Sc & Hm);
    [by apply aead_seal_ok|rewrite aead_seal_length; lia|].
  rewrite (proj2 (Hm (type :: data)) (conj Bm eq_refl)) in Edec. answer Edec. steps.
  answer (mem_write_list (s_decrypted_buffer s) 0 (type :: data) ltac:(lia) ltac:(lia)).
  set (buf := list_write _ _ _). assert (Zb : zlen buf = zlen (s_decrypted_buffer s)) by (apply zlen_list_write; lia).
  steps. answer Ec. destruct r as [late|].
  - destruct Hr as [-> Hr]. set (q := if s_inseqno s <=? n then u32 (n + 1) else s_inseqno s) in *. steps.
    set (t := set_late late (set_decrypted_buffer buf (set_incipher (Some c') s))).
    assert (Hfin : exists rc, bind (if s_inseqno s <=? n then puts (set_inseqno (u32 (n + 1))) else ret tt)
      (fun _ => bind (puts (fun s => if s_inseqno s =? 0 then set_received 0 s else set_received (u32 (s_received s + 1)) s))
        (fun _ => datagram_record E (zlen data + 21))) (World t now sent got er) =
      datagram_record E (zlen data + 21) (World (opened_session s c' buf late q rc) now sent got er)).
    { unfold q. destruct (s_inseqno s <=? n); steps; cbv beta; sproj.
      - destruct (u32 (n + 1) =? 0); by eexists.
      - change (s_inseqno t) with (s_inseqno s).
        destruct (s_inseqno s =? 0); eexists; (match goal with |- _ _ (World ?x _ _ _ _) = _ _ (World ?y _ _ _ _) => replace y with x; [reflexivity|] end);
          unfold t, opened_session; by destruct s. }
    destruct Hfin as (rc & ->). set (s1 := opened_session s c' buf late q rc) in *.
    destruct (datagram_record_ok s1 now sent got er type data) as (buf' & s2 & n2 & q2 & e2 & Er & Ho & Zb');
      [by apply opened_core|exact Hi|done|done|change (s_decrypted_buffer s1) with buf; lia| |].
    { change (s_decrypted_buffer s1) with buf. unfold buf, list_write. change (Z.to_nat 0) with 0%nat. rewrite take_0, app_nil_l.
      by rewrite take_app_exact. }
    exists s2, n2, q2, e2. split; [exact Er|].
    assert (Hc2 : core s2) by (eapply out_only_core, Ho; destruct (opened_core s c' buf late q rc Hc Wc'); by split).
    assert (Hh2 : hs s2) by (eapply out_only_hs, Ho; apply (hs_same s1); try done; by apply opened_hs).
    destruct Ho as [(no & xo & ->) _]. split.
    + split; try done. change (zlen buf' = s_decrypted_buffer_len s). change (s_decrypted_buffer s1) with buf in Zb'. lia.
    + split; try done. intros c0 Hc0 _. rewrite Hci in Hc0. injection Hc0 as <-. by exists c'.
  - destruct Hr as [-> ->]. rewrite app_nil_r. eexists _, _, _, _. split; [reflexivity|]. split.
    + split; try done; [destruct (core_incipher s c' Hc Wc'); by split|by apply (hs_same s)|]. change (zlen buf = s_decrypted_buffer_len s). lia.
    + split; try done. intros c0 Hc0 _. rewrite Hci in Hc0. injection Hc0 as <-. by exists c'.
Qed.

(** ** Any number of datagrams *)

Definition dg_fits (s : sptps_t) (d : Z * (Z * list Z)) : Prop :=
  let '(n, (type, data)) := d in
  0 <= n /\ n + 1 + 8 * s_replaywin s < 2 ^ 32 /\ fits type data /\ type < SPTPS_HANDSHAKE /\
  zlen data + 21 <= s_decrypted_buffer_len s.

Definition dg_calls (s : sptps_t) (l : list (Z * (Z * list Z))) : list call :=
  (fun '(n, (type, data)) => CallReceive (sealed_for s n type data)) <$> l.

Lemma sealed_for_same s s' n type data :
  core s -> s_instate s = true -> dg_step s s' -> sealed_for s' n type data = sealed_for s n type data.
Proof.
  intros Hc Hi [Hcip _ _]. destruct (co_ciphers s Hc (co_inout s Hc Hi)) as (co & c & _ & _ & Hci & Wci).
  destruct (Hcip c Hci Wci) as (c' & Hc' & Wc' & Sc). unfold sealed_for. rewrite Hci, Hc'. f_equal.
  symmetry. by apply aead_seal_same.
Qed.

Lemma datagrams_received l : forall s v now sent got er,
  dgram_ok s v -> Forall (dg_fits s) l ->
  exists s' now' sent' er', run_calls E (dg_calls s l) (World s now sent got er) =
    Done (admit_all (8 * s_replaywin s) v l.*1, World s' now' sent' (got ++ (admitted (8 * s_replaywin s) v l).*2) er').
Proof.
  induction l as [|[n [type data]] l IH]; intros s v now sent got er Hs Hl.
  { eexists _, _, _, _. cbn. by rewrite app_nil_r. }
  apply Forall_cons in Hl as [Hd Hl']. unfold dg_fits in Hd. destruct Hd as (H0 & Hn & Hf & Hlt & Hroom).
  pose proof (datagram_received s v now sent got er n type data Hs Hf Hlt H0 Hn Hroom) as H1.
  cbn [fmap list_fmap fst admit_all admitted]. destruct (admit_one _ v n) as [b v'] eqn:Ea.
  destruct H1 as (s1 & n1 & q1 & e1 & E1 & Hs1 & Hst).
  assert (Ec : dg_calls s l = dg_calls s1 l).
  { unfold dg_calls. apply list_fmap_ext. intros i [m [t d]] _. f_equal. symmetry.
    by apply sealed_for_same; [apply Hs|apply Hs|]. }
  destruct (IH s1 v' n1 q1 (got ++ (if b then [(type, data)] else [])) e1 Hs1) as (s2 & n2 & q2 & e2 & E2).
  { eapply Forall_impl; [exact Hl'|]. intros [m [t d]]. unfold dg_fits. by rewrite (ds_window s s1 Hst), (ds_room s s1 Hst). }
  exists s2, n2, q2, e2. rewrite (ds_window s s1 Hst), <- Ec in E2.
  change (dg_calls s ((n, (type, data)) :: l)) with (CallReceive (sealed_for s n type data) :: dg_calls s l).
  cbn [run_calls run_call]. rewrite (bind_returns _ _ _ _ _ E1), (bind_returns _ _ _ _ _ E2). unfold ret.
  rewrite fmap_app. rewrite <- app_assoc. by destruct b.
Qed.

End Datagram.

(** C18. Datagrams are delivered at most once.  Assume that every allocation succeeds,
    that [send_data] and the application's [receive_record] accept what they are given
    ([env_ok], [app_ok]), that the session has the keys of its peer and has left the
    handshake with a bitmap that stands for the window [v] ([dgram_ok]), and that each
    datagram [dg_fits]: it is authentic, its type is one of the application's, with its
    headers it fits the [decrypted_buffer] as it is, and its number is more than a window
    below [2 ^ 32].  (Longer datagrams overflow the buffer, [SptpsDefects.long_datagram_overflows],
    and nearer to [2 ^ 32] the window fails, [SptpsReplay.replay_accepted_near_wrap].)  Then the
    session, given such datagrams in any order and with any repetitions, delivers exactly those its replay window admits: a number not accepted before
    that is not below the window.  Each call returns true exactly when it delivers,
    the records arrive unchanged and in the order of acceptance, and no sequence
    number is delivered twice or after it was already taken. *)
Theorem datagrams_delivered_once {A : Aead} {C : Ed25519} (E : env) (s : sptps_t) (v : window) (l : list (Z * (Z * list Z))) now sent got er :
  env_ok E -> (forall n, app_ok (e_app E n) = true) -> dgram_ok s v -> Forall (dg_fits s) l ->
  (exists s' now' sent' er', run_calls E (dg_calls s l) (World s now sent got er) =
    Done (admit_all (8 * s_replaywin s) v l.*1,
          World s' now' sent' (got ++ (admitted (8 * s_replaywin s) v l).*2) er')) /\
  NoDup (admitted (8 * s_replaywin s) v l).*1 /\ (forall n, n ∈ (admitted (8 * s_replaywin s) v l).*1 -> n ∉ seen v).
Proof.
  intros HE Happ Hs Hl. split; [by apply datagrams_received|]. apply admitted_new. apply (rf_seen _ _ _ _ (dg_late s v Hs)).
Qed.

Section DatagramWitness.
Import Sim.

Lemma sim_dgram_ok : dgram_ok (sim_peer true true) (Window 2 (seqZ 0 2)).
Proof.
  split; [apply sim_core|apply sim_hs|done|done|done| |done].
  apply (refines_start 32 2); done.
Qed.

Lemma datagrams_delivered_once_witness :
  exists s' n q e, run_calls sim_env (dg_calls (sim_peer true true) [(3, (1, [7])); (2, (1, [8])); (3, (1, [7])); (0, (1, []))])
      (World (sim_peer true true) 0 [] [] 0) =
    Done ([true; true; false; false], World s' n q [(1, [7]); (1, [8])] e).
Proof.
  destruct (datagrams_delivered_once sim_env (sim_peer true true) (Window 2 (seqZ 0 2))
    [(3, (1, [7])); (2, (1, [8])); (3, (1, [7])); (0, (1, []))] 0 [] [] 0 sim_env_ok (fun _ => eq_refl) sim_dgram_ok)
    as [(s' & n & q & e & Er) _].
  - repeat (apply Forall_cons; split); [..|apply Forall_nil; done];
      (unfold dg_fits, fits; splits; first [done|repeat (apply Forall_cons; split); done || by apply Forall_nil]).
  - exists s', n, q, e. exact Er.
Defined.

End DatagramWitness.
