(* ===== verification/SptpsDefects.v ===== *)
(** Where sptps.c goes wrong.

    The buffer for decrypted datagrams is doubled once when a datagram is longer
    than it, whatever the length, and a failed [realloc] leaves the doubled length
    with the old buffer. *)
From S2P Require Import Prelude Bytes Aead Sha512 Prf Ed25519 ChaChaPoly Sptps SptpsReplay SptpsRun SptpsHs SptpsSafe SptpsLink SptpsTheorems SptpsDatagram.

Lemma mem_write_over m bs : zlen m < zlen bs -> mem_write m 0 bs = Stop OutOfBounds.
Proof. intros H. unfold mem_write. rewrite (proj2 (Z.leb_gt _ (zlen m))) by lia. by rewrite andb_false_r. Qed.

Lemma zlen_replicate {X} n (x : X) : zlen (replicate n x) = Z.of_nat n.
Proof. unfold zlen. by rewrite length_replicate. Qed.

Lemma bind_stop {A : Aead} {C : Ed25519} {X Y} (m : outcome X) r (k : X -> M Y) w : m = Stop r -> bind (lift m) k w = Stop r.
Proof. by intros ->. Qed.

Section Defects.
Context {A : Aead} {C : Ed25519}.

(** Up to the point where a datagram longer than the buffer is decrypted. *)
Lemma long_datagram_opened (E : env) s v now sent got er n type data c :
  env_ok E -> dgram_ok s v -> fits type data -> 0 <= n < 2 ^ 32 -> s_incipher s = Some c -> aead_wf c ->
  s_decrypted_buffer_len s < zlen data + 21 -> 0 <= s_decrypted_buffer_len s < 2 ^ 62 ->
  exists c' (k : M bool), forall buf, buf = mem_realloc (e_alloc E now) (s_decrypted_buffer s) (2 * s_decrypted_buffer_len s) ->
    sptps_receive_data E (sealed_for s n type data) (World s now sent got er) =
    bind (lift (mem_write buf 0 (type :: data))) (fun b => bind (puts (set_decrypted_buffer b)) (fun _ => k))
      (World (set_incipher (Some c') (set_decrypted_buffer buf (set_decrypted_buffer_len (2 * s_decrypted_buffer_len s) s)))
             (S now) sent got er).
Proof.
  intros HE Hs Hf H0 Hci Wci Hlong Hlen. pose proof Hs as [Hc Hh Hd Hi _ _ _].
  pose proof (sealed_for_length s c n type data Hci) as Zd. pose proof (zlen_nonneg data) as Hz0.
  set (buf := mem_realloc (e_alloc E now) (s_decrypted_buffer s) (2 * s_decrypted_buffer_len s)).
  set (s1 := set_decrypted_buffer buf (set_decrypted_buffer_len (2 * s_decrypted_buffer_len s) s)).
  destruct Hf as (Ht & Hbd & Hz). assert (Bm : bytes_ok (type :: data)) by (by constructor).
  assert (Zm : zlen (type :: data) = zlen data + 1) by (unfold zlen; simpl; lia).
  destruct (decrypt_in_ok s1 (S now) sent got er n (aead_seal c n (type :: data)) c Hci Wci) as (c' & o & Edec & Wc' & Sc & Hm);
    [by apply aead_seal_ok|rewrite aead_seal_length; lia|].
  rewrite (proj2 (Hm (type :: data)) (conj Bm eq_refl)) in Edec.
  exists c'. eexists. intros b ->. fold buf s1.
  unfold sptps_receive_data. steps. rewrite (hs_state s Hh), Hd. unfold sptps_receive_data_datagram. steps. rewrite Hi, Zd.
  rewrite (proj2 (Z.ltb_ge _ _)) by (unfold SPTPS_DATAGRAM_OVERHEAD; lia). steps. cbn [negb].
  destruct (sealed_for_parts s c n type data Hci H0) as [En Ed].
  rewrite En, Ed. clear En Ed.
  assert (Eg : grow_decrypted E (zlen data + 21) (World s now sent got er) = Done (true, World s1 (S now) sent got er)).
  { unfold grow_decrypted. steps. rewrite (proj2 (Z.ltb_lt _ _)) by lia. rewrite (u64_small (s_decrypted_buffer_len s * 2)) by lia.
    steps. rewrite (eo_alloc E HE). cbn [negb]. steps. rewrite (Z.mul_comm _ 2). done. }
  answer Eg. cbn [negb]. answer Edec. steps. reflexivity.
Qed.

(** C32. Heap overflow: an authentic datagram whose plaintext is more than twice as
    long as [decrypted_buffer] is written past the end of the buffer, since the
    buffer is doubled once and not until the datagram fits. *)
Theorem long_datagram_overflows (E : env) (s : sptps_t) v now sent got er n type data :
  env_ok E -> dgram_ok s v -> fits type data -> 0 <= n < 2 ^ 32 ->
  2 * s_decrypted_buffer_len s < zlen data + 1 -> 0 < s_decrypted_buffer_len s < 2 ^ 62 ->
  sptps_receive_data E (sealed_for s n type data) (World s now sent got er) = Stop OutOfBounds.
Proof.
  intros HE Hs Hf H0 Hlong Hlen. pose proof Hs as [Hc _ _ Hi _ _ Hb].
  destruct (co_ciphers s Hc (co_inout s Hc Hi)) as (co & c & _ & _ & Hci & Wci).
  destruct (long_datagram_opened E s v now sent got er n type data c HE Hs Hf H0 Hci Wci) as (c' & k & Er); [lia|lia|].
  rewrite (Er _ eq_refl). apply bind_stop. apply mem_write_over. unfold mem_realloc. rewrite zlen_app, zlen_take, zlen_fresh, Hb.
  unfold zlen in *. simpl length. lia.
Qed.

(** A failed [realloc] is not recovered from: the call fails with ENOMEM, but
    [decrypted_buffer_len] has been doubled for a buffer that has not grown, and
    [sptps_stop], which wipes that many bytes, writes past its end. *)
Theorem stop_overruns_after_failed_realloc (E : env) (s : sptps_t) v now sent got er data :
  dgram_ok s v -> 21 <= zlen data -> s_decrypted_buffer_len s < zlen data -> 0 < s_decrypted_buffer_len s < 2 ^ 62 ->
  a_ok (e_alloc E now) = false ->
  exists s', sptps_receive_data E data (World s now sent got er) = Done (false, World s' (S now) sent got ENOMEM) /\
    sptps_stop (World s' (S now) sent got ENOMEM) = Stop OutOfBounds.
Proof.
  intros Hs Hd Hlong Hlen Hal. pose proof Hs as [_ Hh Hdg Hi _ _ Hb].
  set (s1 := set_decrypted_buffer_len (2 * s_decrypted_buffer_len s) s).
  assert (Eg : grow_decrypted E (zlen data) (World s now sent got er) = Done (false, World s1 (S now) sent got ENOMEM)).
  { unfold grow_decrypted. steps. rewrite (proj2 (Z.ltb_lt _ _)) by lia. rewrite (u64_small (s_decrypted_buffer_len s * 2)) by lia.
    steps. rewrite Hal. cbn [negb]. rewrite (Z.mul_comm _ 2). done. }
  exists s1. split.
  - unfold sptps_receive_data. steps. rewrite (hs_state s Hh), Hdg. unfold sptps_receive_data_datagram. steps. rewrite Hi.
    rewrite (proj2 (Z.ltb_ge _ _)) by (unfold SPTPS_DATAGRAM_OVERHEAD; lia). steps. cbn [negb]. answer Eg. done.
  - unfold sptps_stop. steps. apply bind_stop, mem_write_over. change (s_decrypted_buffer s1) with (s_decrypted_buffer s). rewrite Hb.
    change (s_decrypted_buffer_len s1) with (2 * s_decrypted_buffer_len s). unfold zlen. rewrite length_replicate. lia.
Qed.

End Defects.

Section DefectWitnesses.
Import Sim.

Lemma long_datagram_overflows_witness :
  sptps_receive_data sim_env (sealed_for (sim_peer true true) 5 1 (replicate 2048 0)) (World (sim_peer true true) 0 [] [] 0) =
  Stop OutOfBounds.
Proof.
  apply (long_datagram_overflows sim_env (sim_peer true true) (Window 2 (seqZ 0 2)) 0 [] [] 0 5 1 (replicate 2048 0) sim_env_ok sim_dgram_ok);
    [|done|by rewrite zlen_replicate|done].
  split; [done|]. split; [by apply Forall_replicate|by rewrite zlen_replicate].
Defined.

Lemma stop_overruns_after_failed_realloc_witness :
  exists s', sptps_receive_data (Env (fun _ => Alloc false (fun _ => 0)) (fun _ => []) (fun _ => true) (fun _ => App [] true) sim_md [])
      (replicate 1025 0) (World (sim_peer true true) 0 [] [] 0) = Done (false, World s' 1 [] [] ENOMEM) /\
    sptps_stop (World s' 1 [] [] ENOMEM) = Stop OutOfBounds.
Proof.
  apply (stop_overruns_after_failed_realloc _ (sim_peer true true) (Window 2 (seqZ 0 2)) 0 [] [] 0 (replicate 1025 0) sim_dgram_ok);
    [by rewrite zlen_replicate|by rewrite zlen_replicate|done|done].
Defined.

End DefectWitnesses.
