(* ===== verification/Packmsg.v ===== *)
(** MessagePack encoding and decoding (src/src/packmsg.h).

    An iterator is the C struct with the object its pointer points into: the bytes
    of the object, the offset of [ptr] and the remaining length [len], which is -1
    after an error.  Every access is checked against the object.  Multi-byte values
    are copied from and to the machine's own representation, here little-endian; a
    float or a double is its bit pattern. *)
From S2P Require Import Prelude Bytes.

(** Conversions to the narrower signed types. *)
Definition s8 (x : Z) : Z := (x + 2 ^ 7) mod 2 ^ 8 - 2 ^ 7.
Definition s16 (x : Z) : Z := (x + 2 ^ 15) mod 2 ^ 16 - 2 ^ 15.

(** ** Iterators *)

Record packmsg_output_t := Output { o_mem : list Z; o_ptr : Z; o_len : Z }.
Record packmsg_input_t := Input { i_mem : list Z; i_ptr : Z; i_len : Z }.

Definition packmsg_output_ok (buf : packmsg_output_t) : bool := 0 <=? o_len buf.

(** [start] is the offset of the start pointer. *)
Definition packmsg_output_size (buf : packmsg_output_t) (start : Z) : Z :=
  if packmsg_output_ok buf then u64 (o_ptr buf - start) else 0.

Definition packmsg_input_ok (buf : packmsg_input_t) : bool := 0 <=? i_len buf.
Definition packmsg_done (buf : packmsg_input_t) : bool := i_len buf =? 0.
Definition packmsg_output_invalidate (buf : packmsg_output_t) : packmsg_output_t := Output (o_mem buf) (o_ptr buf) (-1).
Definition packmsg_input_invalidate (buf : packmsg_input_t) : packmsg_input_t := Input (i_mem buf) (i_ptr buf) (-1).

(** ** Encoding *)

Definition packmsg_write_hdr_ (buf : packmsg_output_t) (hdr : Z) : outcome packmsg_output_t :=
  if 0 <? o_len buf then
    let* m := mem_write (o_mem buf) (o_ptr buf) [hdr] in
    Done (Output m (o_ptr buf + 1) (o_len buf - 1))
  else Done (packmsg_output_invalidate buf).

(** [data] is what the first [dlen] bytes at the data pointer hold. *)
Definition packmsg_write_data_ (buf : packmsg_output_t) (data : list Z) (dlen : Z) : outcome packmsg_output_t :=
  if (0 <=? o_len buf) && (dlen <=? u32 (o_len buf)) then
    let* d := mem_read data 0 dlen in
    let* m := mem_write (o_mem buf) (o_ptr buf) d in
    Done (Output m (o_ptr buf + dlen) (o_len buf - dlen))
  else Done (packmsg_output_invalidate buf).

Definition packmsg_write_hdrdata_ (buf : packmsg_output_t) (hdr : Z) (data : list Z) (dlen : Z) : outcome packmsg_output_t :=
  if (0 <? o_len buf) && (dlen <? u32 (o_len buf)) then
    let* m := mem_write (o_mem buf) (o_ptr buf) [hdr] in
    let* d := mem_read data 0 dlen in
    let* m := mem_write m (o_ptr buf + 1) d in
    Done (Output m (o_ptr buf + 1 + dlen) (o_len buf - 1 - dlen))
  else Done (packmsg_output_invalidate buf).

(** The reserved space is the offset that is returned; NULL is [None]. *)
Definition packmsg_reserve_ (buf : packmsg_output_t) (len : Z) : option Z * packmsg_output_t :=
  if (0 <=? o_len buf) && (len <=? u32 (o_len buf)) then
    (Some (o_ptr buf), Output (o_mem buf) (o_ptr buf + len) (o_len buf - len))
  else (None, packmsg_output_invalidate buf).

Definition packmsg_add_nil (buf : packmsg_output_t) : outcome packmsg_output_t :=
  packmsg_write_hdr_ buf 0xc0.

Definition packmsg_add_bool (buf : packmsg_output_t) (val : bool) : outcome packmsg_output_t :=
  packmsg_write_hdr_ buf (if val then 0xc3 else 0xc2).

Definition packmsg_add_int8 (buf : packmsg_output_t) (val : Z) : outcome packmsg_output_t :=
  if -32 <=? val then packmsg_write_hdr_ buf (u8 val)
  else packmsg_write_hdrdata_ buf 0xd0 (le_bytes 1 val) 1.

Definition packmsg_add_int16 (buf : packmsg_output_t) (val : Z) : outcome packmsg_output_t :=
  if negb (s8 val =? val) then packmsg_write_hdrdata_ buf 0xd1 (le_bytes 2 val) 2
  else packmsg_add_int8 buf (s8 val).

Definition packmsg_add_int32 (buf : packmsg_output_t) (val : Z) : outcome packmsg_output_t :=
  if negb (s16 val =? val) then packmsg_write_hdrdata_ buf 0xd2 (le_bytes 4 val) 4
  else packmsg_add_int16 buf (s16 val).

Definition packmsg_add_int64 (buf : packmsg_output_t) (val : Z) : outcome packmsg_output_t :=
  if negb (s32 val =? val) then packmsg_write_hdrdata_ buf 0xd3 (le_bytes 8 val) 8
  else packmsg_add_int32 buf (s32 val).

Definition packmsg_add_uint8 (buf : packmsg_output_t) (val : Z) : outcome packmsg_output_t :=
  if val <? 0x80 then packmsg_write_hdr_ buf val
  else packmsg_write_hdrdata_ buf 0xcc (le_bytes 1 val) 1.

Definition packmsg_add_uint16 (buf : packmsg_output_t) (val : Z) : outcome packmsg_output_t :=
  if bitset val 0xff00 then packmsg_write_hdrdata_ buf 0xcd (le_bytes 2 val) 2
  else packmsg_add_uint8 buf (u8 val).

Definition packmsg_add_uint32 (buf : packmsg_output_t) (val : Z) : outcome packmsg_output_t :=
  if bitset val 0xffff0000 then packmsg_write_hdrdata_ buf 0xce (le_bytes 4 val) 4
  else packmsg_add_uint16 buf (u16 val).

Definition packmsg_add_uint64 (buf : packmsg_output_t) (val : Z) : outcome packmsg_output_t :=
  if bitset val 0xffffffff00000000 then packmsg_write_hdrdata_ buf 0xcf (le_bytes 8 val) 8
  else packmsg_add_uint32 buf (u32 val).

Definition packmsg_add_float (buf : packmsg_output_t) (val : Z) : outcome packmsg_output_t :=
  packmsg_write_hdrdata_ buf 0xca (le_bytes 4 val) 4.

Definition packmsg_add_double (buf : packmsg_output_t) (val : Z) : outcome packmsg_output_t :=
  packmsg_write_hdrdata_ buf 0xcb (le_bytes 8 val) 8.

(** The header of a string of [len] bytes. *)
Definition str_header (buf : packmsg_output_t) (len : Z) : outcome packmsg_output_t :=
  if len <? 32 then packmsg_write_hdr_ buf (Z.lor 0xa0 (u8 len))
  else if len <=? 0xff then packmsg_write_hdrdata_ buf 0xd9 (le_bytes 4 len) 1
  else if len <=? 0xffff then packmsg_write_hdrdata_ buf 0xda (le_bytes 4 len) 2
  else packmsg_write_hdrdata_ buf 0xdb (le_bytes 4 len) 4.

Definition packmsg_add_str_raw (buf : packmsg_output_t) (str : list Z) (len : Z) : outcome packmsg_output_t :=
  let* buf := str_header buf len in
  packmsg_write_data_ buf str len.

(** [str] is the C string without its terminator. *)
Definition packmsg_add_str (buf : packmsg_output_t) (str : list Z) : outcome packmsg_output_t :=
  if zlen str <=? 0xffffffff then packmsg_add_str_raw buf str (u32 (zlen str))
  else Done (packmsg_output_invalidate buf).

Definition packmsg_add_str_reserve (buf : packmsg_output_t) (len : Z) : outcome (option Z * packmsg_output_t) :=
  let* buf := str_header buf len in
  Done (packmsg_reserve_ buf len).

Definition bin_header (buf : packmsg_output_t) (dlen : Z) : outcome packmsg_output_t :=
  if dlen <=? 0xff then packmsg_write_hdrdata_ buf 0xc4 (le_bytes 4 dlen) 1
  else if dlen <=? 0xffff then packmsg_write_hdrdata_ buf 0xc5 (le_bytes 4 dlen) 2
  else packmsg_write_hdrdata_ buf 0xc6 (le_bytes 4 dlen) 4.

Definition packmsg_add_bin (buf : packmsg_output_t) (data : list Z) (dlen : Z) : outcome packmsg_output_t :=
  let* buf := bin_header buf dlen in
  packmsg_write_data_ buf data dlen.

Definition packmsg_add_bin_reserve (buf : packmsg_output_t) (dlen : Z) : outcome (option Z * packmsg_output_t) :=
  let* buf := bin_header buf dlen in
  Done (packmsg_reserve_ buf dlen).

Definition ext_header (buf : packmsg_output_t) (type dlen : Z) : outcome packmsg_output_t :=
  if dlen <=? 0xff then
    if dlen =? 16 then packmsg_write_hdrdata_ buf 0xd8 (le_bytes 1 type) 1
    else if dlen =? 8 then packmsg_write_hdrdata_ buf 0xd7 (le_bytes 1 type) 1
    else if dlen =? 4 then packmsg_write_hdrdata_ buf 0xd6 (le_bytes 1 type) 1
    else if dlen =? 2 then packmsg_write_hdrdata_ buf 0xd5 (le_bytes 1 type) 1
    else if dlen =? 1 then packmsg_write_hdrdata_ buf 0xd4 (le_bytes 1 type) 1
    else
      let* buf := packmsg_write_hdrdata_ buf 0xc7 (le_bytes 4 dlen) 1 in
      packmsg_write_data_ buf (le_bytes 1 type) 1
  else if dlen <=? 0xffff then
    let* buf := packmsg_write_hdrdata_ buf 0xc8 (le_bytes 4 dlen) 2 in
    packmsg_write_data_ buf (le_bytes 1 type) 1
  else
    let* buf := packmsg_write_hdrdata_ buf 0xc9 (le_bytes 4 dlen) 4 in
    packmsg_write_data_ buf (le_bytes 1 type) 1.

(** The last [else] of the C function cannot be reached: [dlen] has 32 bits. *)
Definition packmsg_add_ext (buf : packmsg_output_t) (type : Z) (data : list Z) (dlen : Z) : outcome packmsg_output_t :=
  let* buf := ext_header buf type dlen in
  packmsg_write_data_ buf data dlen.

Definition packmsg_add_ext_reserve (buf : packmsg_output_t) (type dlen : Z) : outcome (option Z * packmsg_output_t) :=
  let* buf := ext_header buf type dlen in
  Done (packmsg_reserve_ buf dlen).

Definition packmsg_add_map (buf : packmsg_output_t) (count : Z) : outcome packmsg_output_t :=
  if count <=? 0xf then packmsg_write_hdr_ buf (Z.lor 0x80 (u8 count))
  else if count <=? 0xffff then packmsg_write_hdrdata_ buf 0xde (le_bytes 4 count) 2
  else packmsg_write_hdrdata_ buf 0xdf (le_bytes 4 count) 4.

Definition packmsg_add_array (buf : packmsg_output_t) (count : Z) : outcome packmsg_output_t :=
  if count <=? 0xf then packmsg_write_hdr_ buf (Z.lor 0x90 (u8 count))
  else if count <=? 0xffff then packmsg_write_hdrdata_ buf 0xdc (le_bytes 4 count) 2
  else packmsg_write_hdrdata_ buf 0xdd (le_bytes 4 count) 4.

(** ** Decoding *)

Definition packmsg_read_hdr_ (buf : packmsg_input_t) : outcome (Z * packmsg_input_t) :=
  if 0 <? i_len buf then
    let* b := mem_read (i_mem buf) (i_ptr buf) 1 in
    Done (default 0 (head b), Input (i_mem buf) (i_ptr buf + 1) (i_len buf - 1))
  else Done (0xc1, packmsg_input_invalidate buf).

(** The bytes stored at [data], or [None] when nothing is. *)
Definition packmsg_read_data_ (buf : packmsg_input_t) (dlen : Z) : outcome (option (list Z) * packmsg_input_t) :=
  if (0 <=? i_len buf) && (dlen <=? u32 (i_len buf)) then
    let* d := mem_read (i_mem buf) (i_ptr buf) dlen in
    Done (Some d, Input (i_mem buf) (i_ptr buf + dlen) (i_len buf - dlen))
  else Done (None, packmsg_input_invalidate buf).

Definition packmsg_peek_hdr_ (buf : packmsg_input_t) : outcome Z :=
  if 0 <? i_len buf then
    let* b := mem_read (i_mem buf) (i_ptr buf) 1 in
    Done (default 0 (head b))
  else Done 0xc1.

(** An integer variable that is zero and then read to. *)
Definition read_value (buf : packmsg_input_t) (dlen : Z) : outcome (Z * packmsg_input_t) :=
  let* (d, buf) := packmsg_read_data_ buf dlen in
  Done (from_option le_val 0 d, buf).

(** [packmsg_input_invalidate(buf); return 0]. *)
Definition invalid {X} (x : X) (buf : packmsg_input_t) : outcome (X * packmsg_input_t) :=
  Done (x, packmsg_input_invalidate buf).

Definition packmsg_get_nil (buf : packmsg_input_t) : outcome packmsg_input_t :=
  let* (hdr, buf) := packmsg_read_hdr_ buf in
  Done (if hdr =? 0xc0 then buf else packmsg_input_invalidate buf).

Definition packmsg_get_bool (buf : packmsg_input_t) : outcome (bool * packmsg_input_t) :=
  let* (hdr, buf) := packmsg_read_hdr_ buf in
  if hdr =? 0xc2 then Done (false, buf)
  else if hdr =? 0xc3 then Done (true, buf)
  else invalid false buf.

Definition fixint (hdr : Z) : bool := (hdr <? 0x80) || (0xe0 <=? hdr).

Definition packmsg_get_int8 (buf : packmsg_input_t) : outcome (Z * packmsg_input_t) :=
  let* (hdr, buf) := packmsg_read_hdr_ buf in
  if fixint hdr then Done (s8 hdr, buf)
  else if hdr =? 0xd0 then let* (v, buf) := packmsg_read_hdr_ buf in Done (s8 v, buf)
  else invalid 0 buf.

Definition packmsg_get_int16 (buf : packmsg_input_t) : outcome (Z * packmsg_input_t) :=
  let* (hdr, buf) := packmsg_read_hdr_ buf in
  if fixint hdr then Done (s8 hdr, buf)
  else if hdr =? 0xd0 then let* (v, buf) := packmsg_read_hdr_ buf in Done (s8 v, buf)
  else if hdr =? 0xd1 then let* (v, buf) := read_value buf 2 in Done (s16 v, buf)
  else invalid 0 buf.

Definition packmsg_get_int32 (buf : packmsg_input_t) : outcome (Z * packmsg_input_t) :=
  let* (hdr, buf) := packmsg_read_hdr_ buf in
  if fixint hdr then Done (s8 hdr, buf)
  else if hdr =? 0xd0 then let* (v, buf) := packmsg_read_hdr_ buf in Done (s8 v, buf)
  else if hdr =? 0xd1 then let* (v, buf) := read_value buf 2 in Done (s16 v, buf)
  else if hdr =? 0xd2 then let* (v, buf) := read_value buf 4 in Done (s32 v, buf)
  else invalid 0 buf.

Definition packmsg_get_int64 (buf : packmsg_input_t) : outcome (Z * packmsg_input_t) :=
  let* (hdr, buf) := packmsg_read_hdr_ buf in
  if fixint hdr then Done (s8 hdr, buf)
  else if hdr =? 0xd0 then let* (v, buf) := packmsg_read_hdr_ buf in Done (s8 v, buf)
  else if hdr =? 0xd1 then let* (v, buf) := read_value buf 2 in Done (s16 v, buf)
  else if hdr =? 0xd2 then let* (v, buf) := read_value buf 4 in Done (s32 v, buf)
  else if hdr =? 0xd3 then let* (v, buf) := read_value buf 8 in Done (s64 v, buf)
  else invalid 0 buf.

Definition packmsg_get_uint8 (buf : packmsg_input_t) : outcome (Z * packmsg_input_t) :=
  let* (hdr, buf) := packmsg_read_hdr_ buf in
  if hdr <? 0x80 then Done (hdr, buf)
  else if hdr =? 0xcc then packmsg_read_hdr_ buf
  else invalid 0 buf.

Definition packmsg_get_uint16 (buf : packmsg_input_t) : outcome (Z * packmsg_input_t) :=
  let* (hdr, buf) := packmsg_read_hdr_ buf in
  if hdr <? 0x80 then Done (hdr, buf)
  else if hdr =? 0xcc then packmsg_read_hdr_ buf
  else if hdr =? 0xcd then read_value buf 2
  else invalid 0 buf.

Definition packmsg_get_uint32 (buf : packmsg_input_t) : outcome (Z * packmsg_input_t) :=
  let* (hdr, buf) := packmsg_read_hdr_ buf in
  if hdr <? 0x80 then Done (hdr, buf)
  else if hdr =? 0xcc then packmsg_read_hdr_ buf
  else if hdr =? 0xcd then read_value buf 2
  else if hdr =? 0xce then read_value buf 4
  else invalid 0 buf.

Definition packmsg_get_uint64 (buf : packmsg_input_t) : outcome (Z * packmsg_input_t) :=
  let* (hdr, buf) := packmsg_read_hdr_ buf in
  if hdr <? 0x80 then Done (hdr, buf)
  else if hdr =? 0xcc then packmsg_read_hdr_ buf
  else if hdr =? 0xcd then read_value buf 2
  else if hdr =? 0xce then read_value buf 4
  else if hdr =? 0xcf then read_value buf 8
  else invalid 0 buf.

(** A variable without initialiser holds [junk] until it is read to. *)
Definition packmsg_get_float (junk : Z) (buf : packmsg_input_t) : outcome (Z * packmsg_input_t) :=
  let* (hdr, buf) := packmsg_read_hdr_ buf in
  if hdr =? 0xca then
    let* (d, buf) := packmsg_read_data_ buf 4 in Done (from_option le_val junk d, buf)
  else invalid 0 buf.

(** [widen] is the conversion from float to double. *)
Definition packmsg_get_double (widen : Z -> Z) (junk : Z) (buf : packmsg_input_t) : outcome (Z * packmsg_input_t) :=
  let* (hdr, buf) := packmsg_read_hdr_ buf in
  if hdr =? 0xcb then
    let* (d, buf) := packmsg_read_data_ buf 8 in Done (from_option le_val junk d, buf)
  else if hdr =? 0xca then
    let* (d, buf) := packmsg_read_data_ buf 4 in Done (widen (from_option le_val junk d), buf)
  else invalid 0 buf.

(** The pointer and size of [dlen] bytes of the input; a NULL pointer is [None]. *)
Definition take_raw (buf : packmsg_input_t) (dlen : Z) : option Z * Z * packmsg_input_t :=
  if (0 <=? i_len buf) && (dlen <=? u32 (i_len buf)) then
    (Some (i_ptr buf), dlen, Input (i_mem buf) (i_ptr buf + dlen) (i_len buf - dlen))
  else (None, 0, packmsg_input_invalidate buf).

Definition packmsg_get_str_raw (buf : packmsg_input_t) : outcome (option Z * Z * packmsg_input_t) :=
  let* (hdr, buf) := packmsg_read_hdr_ buf in
  if Z.land hdr 0xe0 =? 0xa0 then Done (take_raw buf (Z.land hdr 0x1f))
  else if hdr =? 0xd9 then let* (slen, buf) := read_value buf 1 in Done (take_raw buf slen)
  else if hdr =? 0xda then let* (slen, buf) := read_value buf 2 in Done (take_raw buf slen)
  else if hdr =? 0xdb then let* (slen, buf) := read_value buf 4 in Done (take_raw buf slen)
  else Done (None, 0, packmsg_input_invalidate buf).

(** Reading through a pointer into the input. *)
Definition through (buf : packmsg_input_t) (p : option Z) (n : Z) : outcome (list Z) :=
  match p with Some o => mem_read (i_mem buf) o n | None => Stop OutOfBounds end.

(** The new object, NUL-terminated, or NULL. *)
Definition packmsg_get_str_dup (al : alloc) (buf : packmsg_input_t) : outcome (option (list Z) * packmsg_input_t) :=
  let* (str, slen, buf) := packmsg_get_str_raw buf in
  if packmsg_input_ok buf then
    if a_ok al then
      let dup := mem_fresh al 0 (slen + 1) in
      let* d := through buf str slen in
      let* dup := mem_write dup 0 d in
      let* dup := mem_write dup slen [0] in
      Done (Some dup, buf)
    else Done (None, packmsg_input_invalidate buf)
  else Done (None, buf).

(** The size, and the object [data]. *)
Definition packmsg_get_str_copy (buf : packmsg_input_t) (data : list Z) (dlen : Z) : outcome (Z * list Z * packmsg_input_t) :=
  let* (str, slen, buf) := packmsg_get_str_raw buf in
  if packmsg_input_ok buf then
    if slen <? dlen then
      let* d := through buf str slen in
      let* data := mem_write data 0 d in
      let* data := mem_write data slen [0] in
      Done (slen, data, buf)
    else
      let* data := (if negb (dlen =? 0) then mem_write data 0 [0] else Done data) in
      Done (0, data, packmsg_input_invalidate buf)
  else
    let* data := (if negb (dlen =? 0) then mem_write data 0 [0] else Done data) in
    Done (0, data, buf).

Definition packmsg_get_bin_raw (buf : packmsg_input_t) : outcome (option Z * Z * packmsg_input_t) :=
  let* (hdr, buf) := packmsg_read_hdr_ buf in
  if hdr =? 0xc4 then let* (dlen, buf) := read_value buf 1 in Done (take_raw buf dlen)
  else if hdr =? 0xc5 then let* (dlen, buf) := read_value buf 2 in Done (take_raw buf dlen)
  else if hdr =? 0xc6 then let* (dlen, buf) := read_value buf 4 in Done (take_raw buf dlen)
  else Done (None, 0, packmsg_input_invalidate buf).

(** A copy of [dlen] bytes of the input in a new object. *)
Definition dup_raw (al : alloc) (buf : packmsg_input_t) (p : option Z) (dlen : Z) : outcome (option (list Z)) :=
  if a_ok al then
    let* d := through buf p dlen in
    let* dup := mem_write (mem_fresh al 0 dlen) 0 d in
    Done (Some dup)
  else Done None.

(** The new object, and [*dlen]. *)
Definition packmsg_get_bin_dup (al : alloc) (buf : packmsg_input_t) : outcome (option (list Z) * Z * packmsg_input_t) :=
  let* (data, dlen, buf) := packmsg_get_bin_raw buf in
  if packmsg_input_ok buf then
    let* dup := dup_raw al buf data dlen in
    match dup with
    | Some dup => Done (Some dup, dlen, buf)
    | None => Done (None, 0, packmsg_input_invalidate buf)
    end
  else Done (None, dlen, buf).

Definition packmsg_get_bin_copy (buf : packmsg_input_t) (rawbuf : list Z) (rlen : Z) : outcome (Z * list Z * packmsg_input_t) :=
  let* (data, dlen, buf) := packmsg_get_bin_raw buf in
  if packmsg_input_ok buf then
    if dlen <=? rlen then
      let* d := through buf data dlen in
      let* rawbuf := mem_write rawbuf 0 d in
      Done (dlen, rawbuf, buf)
    else Done (0, rawbuf, packmsg_input_invalidate buf)
  else Done (0, rawbuf, buf).

(** The type, then as for binary data. *)
Definition ext_raw (dlen : Z) (buf : packmsg_input_t) : outcome (Z * option Z * Z * packmsg_input_t) :=
  let* (t, buf) := packmsg_read_hdr_ buf in
  let '(data, n, buf) := take_raw buf dlen in
  Done (match data with Some _ => s8 t | None => 0 end, data, n, buf).

Definition packmsg_get_ext_raw (buf : packmsg_input_t) : outcome (Z * option Z * Z * packmsg_input_t) :=
  let* (hdr, buf) := packmsg_read_hdr_ buf in
  if hdr =? 0xc7 then let* (dlen, buf) := read_value buf 1 in ext_raw dlen buf
  else if hdr =? 0xc8 then let* (dlen, buf) := read_value buf 2 in ext_raw dlen buf
  else if hdr =? 0xc9 then let* (dlen, buf) := read_value buf 4 in ext_raw dlen buf
  else if (0xd4 <=? hdr) && (hdr <=? 0xd8) then ext_raw (Z.shiftl 1 (hdr - 0xd4)) buf
  else Done (0, None, 0, packmsg_input_invalidate buf).

Definition packmsg_get_ext_dup (al : alloc) (buf : packmsg_input_t) : outcome (Z * option (list Z) * Z * packmsg_input_t) :=
  let* (type, data, dlen, buf) := packmsg_get_ext_raw buf in
  if packmsg_input_ok buf then
    let* dup := dup_raw al buf data dlen in
    match dup with
    | Some dup => Done (type, Some dup, dlen, buf)
    | None => Done (0, None, 0, packmsg_input_invalidate buf)
    end
  else Done (0, None, 0, buf).

Definition packmsg_get_ext_copy (buf : packmsg_input_t) (rawbuf : list Z) (rlen : Z) : outcome (Z * Z * list Z * packmsg_input_t) :=
  let* (type, data, dlen, buf) := packmsg_get_ext_raw buf in
  if packmsg_input_ok buf then
    if dlen <=? rlen then
      let* d := through buf data dlen in
      let* rawbuf := mem_write rawbuf 0 d in
      Done (type, dlen, rawbuf, buf)
    else Done (0, 0, rawbuf, packmsg_input_invalidate buf)
  else Done (0, 0, rawbuf, buf).

Definition packmsg_get_map (buf : packmsg_input_t) : outcome (Z * packmsg_input_t) :=
  let* (hdr, buf) := packmsg_read_hdr_ buf in
  if Z.land hdr 0xf0 =? 0x80 then Done (Z.land hdr 0xf, buf)
  else if hdr =? 0xde then read_value buf 2
  else if hdr =? 0xdf then read_value buf 4
  else invalid 0 buf.

Definition packmsg_get_array (buf : packmsg_input_t) : outcome (Z * packmsg_input_t) :=
  let* (hdr, buf) := packmsg_read_hdr_ buf in
  if Z.land hdr 0xf0 =? 0x90 then Done (Z.land hdr 0xf, buf)
  else if hdr =? 0xdc then read_value buf 2
  else if hdr =? 0xdd then read_value buf 4
  else invalid 0 buf.

(** ** Type checking *)

Inductive packmsg_type :=
  | PACKMSG_ERROR | PACKMSG_NIL | PACKMSG_BOOL | PACKMSG_POSITIVE_FIXINT
  | PACKMSG_INT8 | PACKMSG_INT16 | PACKMSG_INT32 | PACKMSG_INT64
  | PACKMSG_UINT8 | PACKMSG_UINT16 | PACKMSG_UINT32 | PACKMSG_UINT64
  | PACKMSG_FLOAT | PACKMSG_DOUBLE | PACKMSG_STR | PACKMSG_BIN | PACKMSG_EXT
  | PACKMSG_MAP | PACKMSG_ARRAY | PACKMSG_DONE.

(** A test of the next header. *)
Definition peek (f : Z -> bool) (buf : packmsg_input_t) : outcome bool :=
  let* hdr := packmsg_peek_hdr_ buf in Done (f hdr).

Definition packmsg_is_nil := peek (fun hdr => hdr =? 0xc0).
Definition packmsg_is_bool := peek (fun hdr => Z.land hdr 0xfe =? 0xc2).
Definition packmsg_is_int8 := peek (fun hdr => (hdr <? 0x80) || (hdr =? 0xd0)).
Definition packmsg_is_int16 := peek (fun hdr => (hdr <? 0x80) || (hdr =? 0xd0) || (hdr =? 0xd1)).
Definition packmsg_is_int32 := peek (fun hdr => (hdr <? 0x80) || (hdr =? 0xd0) || (hdr =? 0xd1) || (hdr =? 0xd2)).
Definition packmsg_is_int64 :=
  peek (fun hdr => (hdr <? 0x80) || (hdr =? 0xd0) || (hdr =? 0xd1) || (hdr =? 0xd2) || (hdr =? 0xd3)).
Definition packmsg_is_uint8 := peek (fun hdr => (hdr <? 0x80) || (hdr =? 0xcc)).
Definition packmsg_is_uint16 := peek (fun hdr => (hdr <? 0x80) || (hdr =? 0xcc) || (hdr =? 0xcd)).
Definition packmsg_is_uint32 := peek (fun hdr => (hdr <? 0x80) || (hdr =? 0xcc) || (hdr =? 0xcd) || (hdr =? 0xce)).
Definition packmsg_is_uint64 :=
  peek (fun hdr => (hdr <? 0x80) || (hdr =? 0xcc) || (hdr =? 0xcd) || (hdr =? 0xce) || (hdr =? 0xcf)).
Definition packmsg_is_float := peek (fun hdr => hdr =? 0xca).
Definition packmsg_is_double := peek (fun hdr => (hdr =? 0xcb) || (hdr =? 0xca)).
Definition packmsg_is_str := peek (fun hdr => (Z.land hdr 0xe0 =? 0xa0) || (hdr =? 0xd9) || (hdr =? 0xda) || (hdr =? 0xdb)).
Definition packmsg_is_bin := peek (fun hdr => Z.land hdr 0xfc =? 0xc4).
Definition packmsg_is_ext :=
  peek (fun hdr => ((0xc7 <=? hdr) && (hdr <=? 0xc9)) || ((0xd4 <=? hdr) && (hdr <=? 0xd8))).
Definition packmsg_is_map := peek (fun hdr => (Z.land hdr 0xf0 =? 0x80) || (hdr =? 0xde) || (hdr =? 0xdf)).
Definition packmsg_is_array := peek (fun hdr => (Z.land hdr 0xf0 =? 0x90) || (hdr =? 0xdc) || (hdr =? 0xdd)).

(** The two inner switches of [packmsg_get_type]. *)
Definition type_c (low : Z) : packmsg_type :=
  match low with
  | 0x0 => PACKMSG_NIL
  | 0x1 => PACKMSG_ERROR
  | 0x2 | 0x3 => PACKMSG_BOOL
  | 0x4 | 0x5 | 0x6 => PACKMSG_BIN
  | 0x7 | 0x8 | 0x9 => PACKMSG_EXT
  | 0xa => PACKMSG_FLOAT
  | 0xb => PACKMSG_DOUBLE
  | 0xc => PACKMSG_UINT8
  | 0xd => PACKMSG_UINT16
  | 0xe => PACKMSG_UINT32
  | 0xf => PACKMSG_UINT64
  | _ => PACKMSG_ERROR
  end.

Definition type_d (low : Z) : packmsg_type :=
  match low with
  | 0x0 => PACKMSG_INT8
  | 0x1 => PACKMSG_INT16
  | 0x2 => PACKMSG_INT32
  | 0x3 => PACKMSG_INT64
  | 0x4 | 0x5 | 0x6 | 0x7 | 0x8 => PACKMSG_EXT
  | 0x9 | 0xa | 0xb => PACKMSG_STR
  | 0xc | 0xd => PACKMSG_ARRAY
  | 0xe | 0xf => PACKMSG_MAP
  | _ => PACKMSG_ERROR
  end.

Definition type_of_hdr (hdr : Z) : packmsg_type :=
  match Z.shiftr hdr 4 with
  | 0x0 | 0x1 | 0x2 | 0x3 | 0x4 | 0x5 | 0x6 | 0x7 => PACKMSG_POSITIVE_FIXINT
  | 0x8 => PACKMSG_MAP
  | 0x9 => PACKMSG_ARRAY
  | 0xa | 0xb => PACKMSG_STR
  | 0xc => type_c (Z.land hdr 0xf)
  | 0xd => type_d (Z.land hdr 0xf)
  | 0xe | 0xf => PACKMSG_INT8
  | _ => PACKMSG_ERROR
  end.

Definition packmsg_get_type (buf : packmsg_input_t) : outcome packmsg_type :=
  if packmsg_done buf then Done PACKMSG_DONE
  else let* hdr := packmsg_peek_hdr_ buf in Done (type_of_hdr hdr).

(** ** Skipping *)

(** [skip] of [packmsg_skip_element]: [None] returns at once; a negative number is
    the size of a length that follows. *)
Definition skip_c (low : Z) : option Z :=
  match low with
  | 0x0 | 0x1 | 0x2 | 0x3 => None
  | 0x4 => Some (-1) | 0x5 => Some (-2) | 0x6 => Some (-4)
  | 0x7 => Some (-1) | 0x8 => Some (-2) | 0x9 => Some (-4)
  | 0xa => Some 4 | 0xb => Some 8
  | 0xc => Some 1 | 0xd => Some 2 | 0xe => Some 4 | 0xf => Some 8
  | _ => Some 0
  end.

Definition skip_d (low : Z) : option Z :=
  match low with
  | 0x0 => Some 1 | 0x1 => Some 2 | 0x2 => Some 4 | 0x3 => Some 8
  | 0x4 => Some 2 | 0x5 => Some 3 | 0x6 => Some 5 | 0x7 => Some 9 | 0x8 => Some 17
  | 0x9 => Some (-1) | 0xa => Some (-2) | 0xb => Some (-4)
  | 0xc => Some 2 | 0xd => Some 4 | 0xe => Some 2 | 0xf => Some 4
  | _ => Some 0
  end.

Definition skip_of_hdr (hdr : Z) : option Z :=
  match Z.shiftr hdr 4 with
  | 0x0 | 0x1 | 0x2 | 0x3 | 0x4 | 0x5 | 0x6 | 0x7 | 0x8 | 0x9 => None
  | 0xa | 0xb => Some (Z.land hdr 0x1f)
  | 0xc => skip_c (Z.land hdr 0xf)
  | 0xd => skip_d (Z.land hdr 0xf)
  | 0xe | 0xf => None
  | _ => Some 0
  end.

Definition skip_bytes (buf : packmsg_input_t) (dlen : Z) : packmsg_input_t := (take_raw buf dlen).2.

Definition packmsg_skip_element (buf : packmsg_input_t) : outcome packmsg_input_t :=
  let* (hdr, buf) := packmsg_read_hdr_ buf in
  match skip_of_hdr hdr with
  | None => Done buf
  | Some skip =>
      if skip <? 0 then
        let* (dlen, buf) := read_value buf (- skip) in
        let dlen := if (0xc7 <=? hdr) && (hdr <=? 0xc9) then u32 (dlen + 1) else dlen in
        Done (skip_bytes buf dlen)
      else Done (skip_bytes buf skip)
  end.

(** One object; the loop is [while(count-- && buf->len >= 0)] around one call for
    an array and two for a map. *)
Fixpoint packmsg_skip_object (fuel : nat) (buf : packmsg_input_t) : outcome packmsg_input_t :=
  match fuel with
  | O => Stop OutOfFuel
  | S fuel =>
      let* is_array := packmsg_is_array buf in
      if (is_array : bool) then
        let* (count, buf) := packmsg_get_array buf in
        skip_loop fuel false count buf
      else
        let* is_map := packmsg_is_map buf in
        if (is_map : bool) then
          let* (count, buf) := packmsg_get_map buf in
          skip_loop fuel true count buf
        else packmsg_skip_element buf
  end
with skip_loop (fuel : nat) (pairs : bool) (count : Z) (buf : packmsg_input_t) : outcome packmsg_input_t :=
  match fuel with
  | O => Stop OutOfFuel
  | S fuel =>
      if negb (count =? 0) && (0 <=? i_len buf) then
        let* buf := packmsg_skip_object fuel buf in
        let* buf := (if pairs then packmsg_skip_object fuel buf else Done buf) in
        skip_loop fuel pairs (count - 1) buf
      else Done buf
  end.
