(* ===== verification/PackmsgEncode.v ===== *)
(** What packmsg.h writes: the encoding of an element, and that the encoder puts
    exactly these bytes in the buffer or marks it invalid. *)
From S2P Require Import Prelude Bytes Packmsg.

(** ** The format *)

Inductive width := W8 | W16 | W32 | W64.

Inductive item :=
  | INil
  | IBool (b : bool)
  | IInt (w : width) (v : Z)
  | IUint (w : width) (v : Z)
  | IFloat (bits : Z)
  | IDouble (bits : Z)
  | IStr (s : list Z)
  | IBin (d : list Z)
  | IExt (type : Z) (d : list Z)
  | IMap (count : Z)
  | IArray (count : Z).

Definition bits (w : width) : Z := match w with W8 => 8 | W16 => 16 | W32 => 32 | W64 => 64 end.

(** The elements a C program can ask for. *)
Definition item_ok (i : item) : Prop :=
  match i with
  | INil | IBool _ => True
  | IInt w v => - 2 ^ (bits w - 1) <= v < 2 ^ (bits w - 1)
  | IUint w v => 0 <= v < 2 ^ bits w
  | IFloat b => 0 <= b < 2 ^ 32
  | IDouble b => 0 <= b < 2 ^ 64
  | IStr s => bytes_ok s /\ zlen s < 2 ^ 32
  | IBin d => bytes_ok d /\ zlen d < 2 ^ 32
  | IExt t d => -128 <= t < 128 /\ bytes_ok d /\ zlen d < 2 ^ 32
  | IMap n | IArray n => 0 <= n < 2 ^ 32
  end.

(** The shortest form of an integer, whatever the width it was added with. *)
Definition enc_int (v : Z) : list Z :=
  if (-32 <=? v) && (v <? 128) then [u8 v]
  else if (-2 ^ 7 <=? v) && (v <? 2 ^ 7) then 0xd0 :: le_bytes 1 v
  else if (-2 ^ 15 <=? v) && (v <? 2 ^ 15) then 0xd1 :: le_bytes 2 v
  else if (-2 ^ 31 <=? v) && (v <? 2 ^ 31) then 0xd2 :: le_bytes 4 v
  else 0xd3 :: le_bytes 8 v.

Definition enc_uint (v : Z) : list Z :=
  if v <? 128 then [v]
  else if v <? 2 ^ 8 then 0xcc :: le_bytes 1 v
  else if v <? 2 ^ 16 then 0xcd :: le_bytes 2 v
  else if v <? 2 ^ 32 then 0xce :: le_bytes 4 v
  else 0xcf :: le_bytes 8 v.

(** A length after one of three headers. *)
Definition enc_len (h1 h2 h4 n : Z) : list Z :=
  if n <? 2 ^ 8 then h1 :: le_bytes 1 n else if n <? 2 ^ 16 then h2 :: le_bytes 2 n else h4 :: le_bytes 4 n.

(** A count after one of two headers, small counts in the header [h0] itself. *)
Definition enc_count (h0 h2 h4 n : Z) : list Z :=
  if n <? 16 then [h0 + n] else if n <? 2 ^ 16 then h2 :: le_bytes 2 n else h4 :: le_bytes 4 n.

(** Extensions of 1, 2, 4, 8 and 16 bytes have headers of their own. *)
Definition fixext (n : Z) : option Z :=
  match n with 1 => Some 0xd4 | 2 => Some 0xd5 | 4 => Some 0xd6 | 8 => Some 0xd7 | 16 => Some 0xd8 | _ => None end.

Definition enc (i : item) : list Z :=
  match i with
  | INil => [0xc0]
  | IBool b => [if b then 0xc3 else 0xc2]
  | IInt _ v => enc_int v
  | IUint _ v => enc_uint v
  | IFloat b => 0xca :: le_bytes 4 b
  | IDouble b => 0xcb :: le_bytes 8 b
  | IStr s => (if zlen s <? 32 then [0xa0 + zlen s] else enc_len 0xd9 0xda 0xdb (zlen s)) ++ s
  | IBin d => enc_len 0xc4 0xc5 0xc6 (zlen d) ++ d
  | IExt t d => (match fixext (zlen d) with Some h => [h] | None => enc_len 0xc7 0xc8 0xc9 (zlen d) end) ++ u8 t :: d
  | IMap n => enc_count 0x80 0xde 0xdf n
  | IArray n => enc_count 0x90 0xdc 0xdd n
  end.

(** ** Writing *)

Record out_wf (buf : packmsg_output_t) : Prop := {
  ow_ptr : 0 <= o_ptr buf;
  ow_len : o_len buf = -1 \/ (0 <= o_len buf /\ o_ptr buf + o_len buf <= zlen (o_mem buf));
  ow_size : zlen (o_mem buf) < 2 ^ 32;
}.

(** The iterator after [bs] was written. *)
Definition put (buf : packmsg_output_t) (bs : list Z) : packmsg_output_t :=
  Output (list_write (Z.to_nat (o_ptr buf)) bs (o_mem buf)) (o_ptr buf + zlen bs) (o_len buf - zlen bs).

(** An operation that appends [bs], or fails without leaving the object. *)
Definition writes (m : packmsg_output_t -> outcome packmsg_output_t) (bs : list Z) : Prop :=
  forall buf, out_wf buf ->
  exists buf', m buf = Done buf' /\ out_wf buf' /\ zlen (o_mem buf') = zlen (o_mem buf) /\
    (if decide (zlen bs <= o_len buf) then buf' = put buf bs else o_len buf' = -1).

Lemma put_wf buf bs : out_wf buf -> zlen bs <= o_len buf -> out_wf (put buf bs) /\ zlen (o_mem (put buf bs)) = zlen (o_mem buf).
Proof.
  intros [Hp Hl Hs] Hb. pose proof (zlen_nonneg bs). assert (Hz : zlen (o_mem (put buf bs)) = zlen (o_mem buf)).
  { unfold put, zlen in *. cbn [o_mem]. rewrite length_list_write by lia. done. }
  split; [|done]. split; cbn [put o_ptr o_len]; [lia| |by rewrite Hz]. right. rewrite Hz. cbn [put o_ptr o_len]. lia.
Qed.

Lemma invalidate_wf buf : out_wf buf -> out_wf (packmsg_output_invalidate buf).
Proof. intros []. split; [done|by left|done]. Qed.

Lemma list_write_list_write {X} o (a b m : list X) :
  (o + length a + length b <= length m)%nat ->
  list_write (o + length a) b (list_write o a m) = list_write o (a ++ b) m.
Proof.
  intros H. apply list_eq_lookup.
  { rewrite !length_list_write; rewrite ?length_list_write; rewrite ?length_app; lia. }
  intros i Hi. rewrite !lookup_list_write by (rewrite ?length_list_write; rewrite ?length_app; lia).
  rewrite length_app. index_cases.
  - rewrite lookup_app_r by lia. f_equal. lia.
  - rewrite lookup_app_l by lia. done.
Qed.

Lemma put_put buf a b : out_wf buf -> zlen a + zlen b <= o_len buf -> put (put buf a) b = put buf (a ++ b).
Proof.
  intros [Hp Hl Hs] H. pose proof (zlen_nonneg a). pose proof (zlen_nonneg b). unfold put. cbn [o_mem o_ptr o_len].
  rewrite zlen_app. f_equal; [|lia|lia].
  replace (Z.to_nat (o_ptr buf + zlen a)) with (Z.to_nat (o_ptr buf) + length a)%nat by (unfold zlen; lia).
  apply list_write_list_write. unfold zlen in *. lia.
Qed.

Lemma writes_seq f g a b : writes f a -> writes g b -> writes (fun buf => let* buf := f buf in g buf) (a ++ b).
Proof.
  intros Hf Hg buf Hw. destruct (Hf buf Hw) as (b1 & -> & W1 & Z1 & H1). cbn [obind].
  destruct (Hg b1 W1) as (b2 & -> & W2 & Z2 & H2). exists b2. splits; [done|done|lia|]. rewrite zlen_app.
  pose proof (zlen_nonneg a). pose proof (zlen_nonneg b). destruct (decide (zlen a <= o_len buf)) as [Ha|Ha].
  - subst b1. cbn [put o_len] in H2. destruct (decide (zlen b <= o_len buf - zlen a)) as [Hb|Hb].
    + rewrite decide_True by lia. subst b2. apply put_put; [done|lia].
    + rewrite decide_False by lia. done.
  - rewrite H1 in H2. rewrite decide_False in H2 by lia. rewrite decide_False by lia. done.
Qed.

Lemma write_hdr_writes hdr : writes (fun buf => packmsg_write_hdr_ buf hdr) [hdr].
Proof.
  intros buf Hw. unfold packmsg_write_hdr_. change (zlen [hdr]) with 1. destruct (Z.ltb_spec 0 (o_len buf)) as [Hl|Hl].
  - destruct (decide _) as [Hfit|Hfit]; [|exfalso; lia]. pose proof (put_wf buf [hdr] Hw) as H. change (zlen [hdr]) with 1 in H. destruct H as [H1 H2]; [lia|].
    exists (put buf [hdr]). splits; [|done|done|done]. destruct Hw. rewrite mem_write_ok by (change (zlen [hdr]) with 1; lia). done.
  - destruct (decide _) as [Hfit|Hfit]; [exfalso; lia|]. exists (packmsg_output_invalidate buf). splits; [done|by apply invalidate_wf|done|done].
Qed.

Lemma u32_len buf : out_wf buf -> 0 <= o_len buf -> u32 (o_len buf) = o_len buf.
Proof. intros [] H. apply u32_small. lia. Qed.

Lemma write_data_writes data dlen :
  0 <= dlen <= zlen data -> writes (fun buf => packmsg_write_data_ buf data dlen) (take (Z.to_nat dlen) data).
Proof.
  intros Hd buf Hw. unfold packmsg_write_data_. assert (Zt : zlen (take (Z.to_nat dlen) data) = dlen) by (rewrite zlen_take; lia).
  rewrite Zt. destruct (Z.leb_spec 0 (o_len buf)) as [Hl|Hl]; cbn [andb].
  - rewrite (u32_len buf Hw Hl). destruct (Z.leb_spec dlen (o_len buf)) as [Hle|Hgt].
    + destruct (decide _) as [Hfit|Hfit]; [|exfalso; lia]. pose proof (put_wf buf (take (Z.to_nat dlen) data) Hw) as H. rewrite Zt in H. destruct H as [H1 H2]; [lia|].
      eexists. rewrite mem_read_ok by lia. cbn [obind]. change (drop (Z.to_nat 0) data) with data. destruct Hw.
      rewrite mem_write_ok by lia. split; [done|]. unfold put in *. rewrite Zt in *. done.
    + destruct (decide _) as [Hfit|Hfit]; [exfalso; lia|]. exists (packmsg_output_invalidate buf). splits; [done|by apply invalidate_wf|done|done].
  - destruct (decide _) as [Hfit|Hfit]; [exfalso; lia|]. exists (packmsg_output_invalidate buf). splits; [done|by apply invalidate_wf|done|done].
Qed.

Lemma write_hdrdata_writes hdr data dlen :
  0 <= dlen <= zlen data -> writes (fun buf => packmsg_write_hdrdata_ buf hdr data dlen) (hdr :: take (Z.to_nat dlen) data).
Proof.
  intros Hd buf Hw. unfold packmsg_write_hdrdata_. set (d := take (Z.to_nat dlen) data).
  assert (Zt : zlen d = dlen) by (unfold d; rewrite zlen_take; lia). change (zlen (hdr :: d)) with (zlen ([hdr] ++ d)).
  rewrite zlen_app, Zt. change (zlen [hdr]) with 1. destruct (Z.ltb_spec 0 (o_len buf)) as [Hl|Hl]; cbn [andb].
  - rewrite (u32_len buf Hw) by lia. destruct (Z.ltb_spec dlen (o_len buf)) as [Hlt|Hge].
    + destruct (decide _) as [Hfit|Hfit]; [|exfalso; lia]. pose proof (put_wf buf ([hdr] ++ d) Hw) as H. rewrite zlen_app, Zt in H. change (zlen [hdr]) with 1 in H.
      destruct H as [H1 H2]; [lia|]. exists (put buf ([hdr] ++ d)). splits; [|done|done|done].
      pose proof (put_wf buf [hdr] Hw) as H. change (zlen [hdr]) with 1 in H. destruct H as [H3 H4]; [lia|].
      rewrite <- (put_put buf [hdr] d Hw) by (change (zlen [hdr]) with 1; lia). destruct Hw as [W1 W2 W3].
      rewrite mem_write_ok by (change (zlen [hdr]) with 1; lia). cbn [obind]. rewrite mem_read_ok by lia. cbn [obind].
      change (drop (Z.to_nat 0) data) with data. fold d.
      change (take (Z.to_nat (o_ptr buf)) (o_mem buf) ++ [hdr] ++ drop (Z.to_nat (o_ptr buf) + length [hdr]) (o_mem buf)) with (o_mem (put buf [hdr])).
      rewrite mem_write_ok by (rewrite ?Zt; lia). cbn [obind].
      replace (put (put buf [hdr]) d) with (Output (list_write (Z.to_nat (o_ptr buf + 1)) d (o_mem (put buf [hdr])))
        (o_ptr buf + 1 + dlen) (o_len buf - 1 - dlen)) by (rewrite <- Zt; reflexivity). done.
    + destruct (decide _) as [Hfit|Hfit]; [exfalso; lia|]. exists (packmsg_output_invalidate buf). splits; [done|by apply invalidate_wf|done|done].
  - destruct (decide _) as [Hfit|Hfit]; [exfalso; lia|]. exists (packmsg_output_invalidate buf). splits; [done|by apply invalidate_wf|done|done].
Qed.

(** ** Conversions and masks *)

Lemma s8_id v : (s8 v =? v) = ((-2 ^ 7 <=? v) && (v <? 2 ^ 7)).
Proof.
  unfold s8. pose proof (Z.mod_pos_bound (v + 2 ^ 7) (2 ^ 8) ltac:(lia)). apply eq_true_iff_eq.
  rewrite Z.eqb_eq, andb_true_iff, Z.leb_le, Z.ltb_lt. split; [lia|]. intros. rewrite Z.mod_small; lia.
Qed.

Lemma s16_id v : (s16 v =? v) = ((-2 ^ 15 <=? v) && (v <? 2 ^ 15)).
Proof.
  unfold s16. pose proof (Z.mod_pos_bound (v + 2 ^ 15) (2 ^ 16) ltac:(lia)). apply eq_true_iff_eq.
  rewrite Z.eqb_eq, andb_true_iff, Z.leb_le, Z.ltb_lt. split; [lia|]. intros. rewrite Z.mod_small; lia.
Qed.

Lemma s32_id v : (s32 v =? v) = ((-2 ^ 31 <=? v) && (v <? 2 ^ 31)).
Proof.
  pose proof (s32_range v). apply eq_true_iff_eq. rewrite Z.eqb_eq, andb_true_iff, Z.leb_le, Z.ltb_lt.
  split; [lia|]. intros. apply s32_small. lia.
Qed.

Lemma take_le_bytes n : forall k x, (n <= k)%nat -> take n (le_bytes k x) = le_bytes n x.
Proof. induction n as [|n IH]; intros [|k] x H; try done; [lia|]. cbn [le_bytes take]. f_equal. apply IH. lia. Qed.

(** A value after its header. *)
Lemma hdr_value_writes hdr k n x :
  (n <= k)%nat -> writes (fun buf => packmsg_write_hdrdata_ buf hdr (le_bytes k x) (Z.of_nat n)) (hdr :: le_bytes n x).
Proof.
  intros H. rewrite <- (take_le_bytes n k x H). replace (take n) with (take (A := Z) (Z.to_nat (Z.of_nat n))) by (by rewrite Nat2Z.id).
  apply write_hdrdata_writes. unfold zlen. rewrite length_le_bytes. lia.
Qed.

Lemma hdr_value4 hdr n x : (n <= 4)%nat -> writes (fun buf => packmsg_write_hdrdata_ buf hdr (le_bytes 4 x) (Z.of_nat n)) (hdr :: le_bytes n x).
Proof. apply hdr_value_writes. Qed.

(** ** Integers *)

Lemma add_int8_writes v : -2 ^ 7 <= v < 2 ^ 7 -> writes (fun buf => packmsg_add_int8 buf v) (enc_int v).
Proof.
  intros Hv. unfold packmsg_add_int8, enc_int. rewrite (proj2 (Z.ltb_lt v 128)), (proj2 (Z.ltb_lt v (2 ^ 7))) by lia.
  rewrite (proj2 (Z.leb_le (-2 ^ 7) v)) by lia. destruct (-32 <=? v); cbn [andb].
  - apply write_hdr_writes.
  - apply (hdr_value_writes 0xd0 1 1). lia.
Qed.

(** Not a one-byte integer. *)
Lemma not_short v : (-2 ^ 7 <=? v) && (v <? 2 ^ 7) = false -> (-32 <=? v) && (v <? 128) = false.
Proof. rewrite !andb_false_iff, !Z.leb_gt, !Z.ltb_ge. lia. Qed.

Lemma add_int16_writes v : -2 ^ 15 <= v < 2 ^ 15 -> writes (fun buf => packmsg_add_int16 buf v) (enc_int v).
Proof.
  intros Hv. unfold packmsg_add_int16. rewrite s8_id. destruct (_ && _) eqn:E8; cbn [negb].
  - rewrite <- s8_id in E8. ztests. rewrite E8. apply add_int8_writes. rewrite <- E8. unfold s8.
    pose proof (Z.mod_pos_bound (v + 2 ^ 7) (2 ^ 8)). lia.
  - unfold enc_int. rewrite (not_short v E8), E8, (proj2 (Z.leb_le _ _) (proj1 Hv)), (proj2 (Z.ltb_lt _ _) (proj2 Hv)).
    apply (hdr_value_writes 0xd1 2 2). lia.
Qed.

Lemma add_int32_writes v : -2 ^ 31 <= v < 2 ^ 31 -> writes (fun buf => packmsg_add_int32 buf v) (enc_int v).
Proof.
  intros Hv. unfold packmsg_add_int32. rewrite s16_id. destruct ((-2 ^ 15 <=? v) && (v <? 2 ^ 15)) eqn:E16; cbn [negb].
  - pose proof E16 as E. rewrite <- s16_id in E. ztests. rewrite E. apply add_int16_writes. lia.
  - assert (E8 : (-2 ^ 7 <=? v) && (v <? 2 ^ 7) = false) by (rewrite andb_false_iff, Z.leb_gt, Z.ltb_ge in *; lia).
    unfold enc_int. rewrite (not_short v E8), E8, E16, (proj2 (Z.leb_le _ _) (proj1 Hv)), (proj2 (Z.ltb_lt _ _) (proj2 Hv)).
    apply (hdr_value_writes 0xd2 4 4). lia.
Qed.

Lemma add_int64_writes v : -2 ^ 63 <= v < 2 ^ 63 -> writes (fun buf => packmsg_add_int64 buf v) (enc_int v).
Proof.
  intros Hv. unfold packmsg_add_int64. rewrite s32_id. destruct ((-2 ^ 31 <=? v) && (v <? 2 ^ 31)) eqn:E32; cbn [negb].
  - pose proof E32 as E. rewrite <- s32_id in E. ztests. rewrite E. apply add_int32_writes. lia.
  - assert (E8 : (-2 ^ 7 <=? v) && (v <? 2 ^ 7) = false) by (rewrite andb_false_iff, Z.leb_gt, Z.ltb_ge in *; lia).
    assert (E16 : (-2 ^ 15 <=? v) && (v <? 2 ^ 15) = false) by (rewrite andb_false_iff, Z.leb_gt, Z.ltb_ge in *; lia).
    unfold enc_int. rewrite (not_short v E8), E8, E16, E32. apply (hdr_value_writes 0xd3 8 8). lia.
Qed.

Lemma add_uint8_writes v : 0 <= v < 2 ^ 8 -> writes (fun buf => packmsg_add_uint8 buf v) (enc_uint v).
Proof.
  intros Hv. unfold packmsg_add_uint8, enc_uint. destruct (v <? 0x80); [apply write_hdr_writes|].
  rewrite (proj2 (Z.ltb_lt _ _) (proj2 Hv)). apply (hdr_value_writes 0xcc 1 1). lia.
Qed.

Lemma add_uint16_writes v : 0 <= v < 2 ^ 16 -> writes (fun buf => packmsg_add_uint16 buf v) (enc_uint v).
Proof.
  intros Hv. unfold packmsg_add_uint16. rewrite (bitset_high v 16 8) by (done || lia). destruct (Z.leb_spec (2 ^ 8) v).
  - unfold enc_uint. rewrite (proj2 (Z.ltb_ge v 128)), (proj2 (Z.ltb_ge v (2 ^ 8))), (proj2 (Z.ltb_lt v (2 ^ 16))) by lia.
    apply (hdr_value_writes 0xcd 2 2). lia.
  - unfold u8. rewrite Z.mod_small by lia. apply add_uint8_writes. lia.
Qed.

Lemma add_uint32_writes v : 0 <= v < 2 ^ 32 -> writes (fun buf => packmsg_add_uint32 buf v) (enc_uint v).
Proof.
  intros Hv. unfold packmsg_add_uint32. rewrite (bitset_high v 32 16) by (done || lia). destruct (Z.leb_spec (2 ^ 16) v).
  - unfold enc_uint. rewrite (proj2 (Z.ltb_ge v 128)), (proj2 (Z.ltb_ge v (2 ^ 8))), (proj2 (Z.ltb_ge v (2 ^ 16))), (proj2 (Z.ltb_lt v (2 ^ 32))) by lia.
    apply (hdr_value_writes 0xce 4 4). lia.
  - rewrite u16_small by lia. apply add_uint16_writes. lia.
Qed.

Lemma add_uint64_writes v : 0 <= v < 2 ^ 64 -> writes (fun buf => packmsg_add_uint64 buf v) (enc_uint v).
Proof.
  intros Hv. unfold packmsg_add_uint64. rewrite (bitset_high v 64 32) by (done || lia). destruct (Z.leb_spec (2 ^ 32) v).
  - unfold enc_uint. rewrite (proj2 (Z.ltb_ge v 128)), (proj2 (Z.ltb_ge v (2 ^ 8))), (proj2 (Z.ltb_ge v (2 ^ 16))), (proj2 (Z.ltb_ge v (2 ^ 32))) by lia.
    apply (hdr_value_writes 0xcf 8 8). lia.
  - rewrite u32_small by lia. apply add_uint32_writes. lia.
Qed.

(** ** Strings, binary data, extensions, maps and arrays *)

Lemma lor_hdr h k n : 0 <= k -> 0 <= n < 2 ^ k -> 0 <= h -> Z.lor (h * 2 ^ k) n = h * 2 ^ k + n.
Proof. intros Hk Hn Hh. rewrite Z.lor_comm, lor_add by done. lia. Qed.

Lemma str_header_writes len :
  0 <= len < 2 ^ 32 ->
  writes (fun buf => str_header buf len) (if len <? 32 then [0xa0 + len] else enc_len 0xd9 0xda 0xdb len).
Proof.
  intros Hl. unfold str_header, enc_len. destruct (Z.ltb_spec len 32).
  - unfold u8. rewrite Z.mod_small by lia. change 0xa0 with (5 * 2 ^ 5) at 1. rewrite lor_hdr by lia. apply write_hdr_writes.
  - replace (len <=? 0xff) with (len <? 2 ^ 8) by (apply eq_true_iff_eq; rewrite Z.ltb_lt, Z.leb_le; lia).
    replace (len <=? 0xffff) with (len <? 2 ^ 16) by (apply eq_true_iff_eq; rewrite Z.ltb_lt, Z.leb_le; lia).
    destruct (len <? 2 ^ 8); [apply (hdr_value4 0xd9 1); lia|]. destruct (len <? 2 ^ 16); [apply (hdr_value4 0xda 2); lia|].
    apply (hdr_value4 0xdb 4). lia.
Qed.

Lemma bin_header_writes len : 0 <= len < 2 ^ 32 -> writes (fun buf => bin_header buf len) (enc_len 0xc4 0xc5 0xc6 len).
Proof.
  intros Hl. unfold bin_header, enc_len.
  replace (len <=? 0xff) with (len <? 2 ^ 8) by (apply eq_true_iff_eq; rewrite Z.ltb_lt, Z.leb_le; lia).
  replace (len <=? 0xffff) with (len <? 2 ^ 16) by (apply eq_true_iff_eq; rewrite Z.ltb_lt, Z.leb_le; lia).
  destruct (len <? 2 ^ 8); [apply (hdr_value4 0xc4 1); lia|]. destruct (len <? 2 ^ 16); [apply (hdr_value4 0xc5 2); lia|].
  apply (hdr_value4 0xc6 4). lia.
Qed.

Lemma whole_data_writes data : writes (fun buf => packmsg_write_data_ buf data (zlen data)) data.
Proof.
  pose proof (zlen_nonneg data) as H0. pose proof (write_data_writes data (zlen data) ltac:(lia)) as H.
  assert (E : take (Z.to_nat (zlen data)) data = data) by (unfold zlen; by rewrite Nat2Z.id, firstn_all).
  by rewrite E in H.
Qed.

Lemma add_str_raw_writes s : zlen s < 2 ^ 32 -> writes (fun buf => packmsg_add_str_raw buf s (zlen s)) (enc (IStr s)).
Proof.
  intros Hs. pose proof (zlen_nonneg s). unfold packmsg_add_str_raw. cbn [enc].
  apply (writes_seq (fun buf => str_header buf (zlen s)) (fun buf => packmsg_write_data_ buf s (zlen s)));
    [by apply str_header_writes|apply whole_data_writes].
Qed.

Lemma add_str_writes s : zlen s < 2 ^ 32 -> writes (fun buf => packmsg_add_str buf s) (enc (IStr s)).
Proof.
  intros Hs. pose proof (zlen_nonneg s). unfold packmsg_add_str. rewrite (proj2 (Z.leb_le _ _)) by lia.
  rewrite u32_small by lia. by apply add_str_raw_writes.
Qed.

Lemma add_bin_writes d : zlen d < 2 ^ 32 -> writes (fun buf => packmsg_add_bin buf d (zlen d)) (enc (IBin d)).
Proof.
  intros Hs. pose proof (zlen_nonneg d). unfold packmsg_add_bin. cbn [enc].
  apply (writes_seq (fun buf => bin_header buf (zlen d)) (fun buf => packmsg_write_data_ buf d (zlen d)));
    [by apply bin_header_writes|apply whole_data_writes].
Qed.

(** The type of an extension. *)
Lemma type_writes t : writes (fun buf => packmsg_write_data_ buf (le_bytes 1 t) 1) [u8 t].
Proof. apply (whole_data_writes (le_bytes 1 t)). Qed.

Lemma fixext_none n : 0 <= n -> fixext n = None -> n <> 1 /\ n <> 2 /\ n <> 4 /\ n <> 8 /\ n <> 16.
Proof. intros _ H. splits; intros ->; discriminate. Qed.

Lemma fixext_some n h : fixext n = Some h ->
  (n = 1 /\ h = 0xd4) \/ (n = 2 /\ h = 0xd5) \/ (n = 4 /\ h = 0xd6) \/ (n = 8 /\ h = 0xd7) \/ (n = 16 /\ h = 0xd8).
Proof.
  unfold fixext. destruct n as [|p|]; try discriminate.
  repeat (match goal with q : positive |- _ => destruct q end; try discriminate); intros [= <-]; lia.
Qed.

Lemma ext_header_writes t len :
  0 <= len < 2 ^ 32 ->
  writes (fun buf => ext_header buf t len)
    ((match fixext len with Some h => [h] | None => enc_len 0xc7 0xc8 0xc9 len end) ++ [u8 t]).
Proof.
  intros Hl. unfold ext_header, enc_len.
  replace (len <=? 0xff) with (len <? 2 ^ 8) by (apply eq_true_iff_eq; rewrite Z.ltb_lt, Z.leb_le; lia).
  replace (len <=? 0xffff) with (len <? 2 ^ 16) by (apply eq_true_iff_eq; rewrite Z.ltb_lt, Z.leb_le; lia).
  destruct (fixext len) as [h|] eqn:Ef.
  - apply fixext_some in Ef. destruct Ef as [[-> ->]|[[-> ->]|[[-> ->]|[[-> ->]|[-> ->]]]]]; apply (hdr_value_writes _ 1 1); lia.
  - destruct (fixext_none len ltac:(lia) Ef) as (H1 & H2 & H4 & H8 & H16).
    rewrite (proj2 (Z.eqb_neq len 16) H16), (proj2 (Z.eqb_neq len 8) H8), (proj2 (Z.eqb_neq len 4) H4), (proj2 (Z.eqb_neq len 2) H2), (proj2 (Z.eqb_neq len 1) H1).
    destruct (len <? 2 ^ 8); [|destruct (len <? 2 ^ 16)].
    + apply (writes_seq (fun buf => packmsg_write_hdrdata_ buf 0xc7 (le_bytes 4 len) 1) (fun buf => packmsg_write_data_ buf (le_bytes 1 t) 1));
        [apply (hdr_value4 0xc7 1); lia|apply type_writes].
    + apply (writes_seq (fun buf => packmsg_write_hdrdata_ buf 0xc8 (le_bytes 4 len) 2) (fun buf => packmsg_write_data_ buf (le_bytes 1 t) 1));
        [apply (hdr_value4 0xc8 2); lia|apply type_writes].
    + apply (writes_seq (fun buf => packmsg_write_hdrdata_ buf 0xc9 (le_bytes 4 len) 4) (fun buf => packmsg_write_data_ buf (le_bytes 1 t) 1));
        [apply (hdr_value4 0xc9 4); lia|apply type_writes].
Qed.

Lemma add_ext_writes t d : zlen d < 2 ^ 32 -> writes (fun buf => packmsg_add_ext buf t d (zlen d)) (enc (IExt t d)).
Proof.
  intros Hs. pose proof (zlen_nonneg d). unfold packmsg_add_ext. cbn [enc].
  change (u8 t :: d) with ([u8 t] ++ d). rewrite app_assoc.
  apply (writes_seq (fun buf => ext_header buf t (zlen d)) (fun buf => packmsg_write_data_ buf d (zlen d)));
    [by apply ext_header_writes|apply whole_data_writes].
Qed.

Lemma add_count_writes h h2 h4 n :
  0 <= n < 2 ^ 32 -> 0 <= h ->
  writes (fun buf => if n <=? 0xf then packmsg_write_hdr_ buf (Z.lor (h * 2 ^ 4) (u8 n))
    else if n <=? 0xffff then packmsg_write_hdrdata_ buf h2 (le_bytes 4 n) 2
    else packmsg_write_hdrdata_ buf h4 (le_bytes 4 n) 4) (enc_count (h * 2 ^ 4) h2 h4 n).
Proof.
  intros Hn Hh. unfold enc_count.
  replace (n <=? 0xf) with (n <? 16) by (apply eq_true_iff_eq; rewrite Z.ltb_lt, Z.leb_le; lia).
  replace (n <=? 0xffff) with (n <? 2 ^ 16) by (apply eq_true_iff_eq; rewrite Z.ltb_lt, Z.leb_le; lia).
  destruct (Z.ltb_spec n 16).
  - unfold u8. rewrite Z.mod_small by lia. rewrite lor_hdr by lia. apply write_hdr_writes.
  - destruct (n <? 2 ^ 16); [apply (hdr_value4 h2 2); lia|apply (hdr_value4 h4 4); lia].
Qed.

(** ** Any element, any number of elements *)

Definition add_item (i : item) (buf : packmsg_output_t) : outcome packmsg_output_t :=
  match i with
  | INil => packmsg_add_nil buf
  | IBool b => packmsg_add_bool buf b
  | IInt W8 v => packmsg_add_int8 buf v
  | IInt W16 v => packmsg_add_int16 buf v
  | IInt W32 v => packmsg_add_int32 buf v
  | IInt W64 v => packmsg_add_int64 buf v
  | IUint W8 v => packmsg_add_uint8 buf v
  | IUint W16 v => packmsg_add_uint16 buf v
  | IUint W32 v => packmsg_add_uint32 buf v
  | IUint W64 v => packmsg_add_uint64 buf v
  | IFloat b => packmsg_add_float buf b
  | IDouble b => packmsg_add_double buf b
  | IStr s => packmsg_add_str buf s
  | IBin d => packmsg_add_bin buf d (zlen d)
  | IExt t d => packmsg_add_ext buf t d (zlen d)
  | IMap n => packmsg_add_map buf n
  | IArray n => packmsg_add_array buf n
  end.

Fixpoint add_items (l : list item) (buf : packmsg_output_t) : outcome packmsg_output_t :=
  match l with [] => Done buf | i :: l => let* buf := add_item i buf in add_items l buf end.

Lemma add_item_writes i : item_ok i -> writes (add_item i) (enc i).
Proof.
  intros Hi. destruct i as [|b|w v|w v|b|b|s|d|t d|n|n]; cbn [add_item item_ok] in *.
  - apply write_hdr_writes.
  - apply write_hdr_writes.
  - destruct w; [apply add_int8_writes|apply add_int16_writes|apply add_int32_writes|apply add_int64_writes]; exact Hi.
  - destruct w; [apply add_uint8_writes|apply add_uint16_writes|apply add_uint32_writes|apply add_uint64_writes]; exact Hi.
  - apply (hdr_value_writes 0xca 4 4). lia.
  - apply (hdr_value_writes 0xcb 8 8). lia.
  - apply add_str_writes, Hi.
  - apply add_bin_writes, Hi.
  - apply add_ext_writes, Hi.
  - apply (add_count_writes 8); [done|lia].
  - apply (add_count_writes 9); [done|lia].
Qed.

Definition enc_all (l : list item) : list Z := mjoin (enc <$> l).

Lemma add_items_done buf : out_wf buf -> 0 <= o_len buf -> put buf [] = buf.
Proof.
  intros Hw Hl. unfold put, list_write. change (zlen []) with 0. cbn [app length]. rewrite Nat.add_0_r, take_drop.
  destruct buf. cbn. f_equal; lia.
Qed.

(** Adding elements, one after the other. *)
Lemma add_items_spec l : forall buf,
  out_wf buf -> Forall item_ok l ->
  exists buf', add_items l buf = Done buf' /\ out_wf buf' /\ zlen (o_mem buf') = zlen (o_mem buf) /\
    (0 <= o_len buf -> if decide (zlen (enc_all l) <= o_len buf) then buf' = put buf (enc_all l) else o_len buf' = -1) /\
    (o_len buf = -1 -> o_len buf' = -1).
Proof.
  induction l as [|i l IH]; intros buf Hw Hl.
  { exists buf. splits; try done. intros H. rewrite decide_True by (change (zlen (enc_all [])) with 0; lia).
    symmetry. by apply add_items_done. }
  apply Forall_cons in Hl as [Hi Hl]. cbn [add_items]. destruct (add_item_writes i Hi buf Hw) as (b1 & -> & W1 & Z1 & H1). cbn [obind].
  destruct (IH b1 W1 Hl) as (b2 & E2 & W2 & Z2 & H2 & H3). exists b2. pose proof (zlen_nonneg (enc i)) as Zi. pose proof (zlen_nonneg (enc_all l)) as Zl.
  change (enc_all (i :: l)) with (enc i ++ enc_all l). rewrite zlen_app. splits; [done|done|lia| |].
  - intros H0. destruct (decide (zlen (enc i) <= o_len buf)) as [Ha|Ha].
    + subst b1. cbn [put o_len] in H2. specialize (H2 ltac:(lia)). destruct (decide (zlen (enc_all l) <= o_len buf - zlen (enc i))) as [Hb|Hb].
      * rewrite decide_True by lia. subst b2. apply put_put; [done|lia].
      * rewrite decide_False by lia. done.
    + rewrite decide_False by lia. by apply H3.
  - intros Hm. rewrite decide_False in H1 by lia. by apply H3.
Qed.
