(* ===== verification/PackmsgDecode.v ===== *)
(** What packmsg.h reads: an element that was encoded is read back, by the getter
    of its kind, and the iterator moves past it. *)
From S2P Require Import Prelude Bytes Packmsg PackmsgEncode.

(** ** Reading *)

Record in_wf (buf : packmsg_input_t) : Prop := {
  iw_ptr : 0 <= i_ptr buf;
  iw_len : i_len buf = -1 \/ (0 <= i_len buf /\ i_ptr buf + i_len buf <= zlen (i_mem buf));
  iw_bytes : bytes_ok (i_mem buf);
  iw_size : zlen (i_mem buf) < 2 ^ 32;
}.

(** The bytes the iterator still has in front of it. *)
Definition rest (buf : packmsg_input_t) : list Z := slice (Z.to_nat (i_ptr buf)) (Z.to_nat (i_len buf)) (i_mem buf).

Definition holds (buf : packmsg_input_t) (l : list Z) : Prop := in_wf buf /\ 0 <= i_len buf /\ rest buf = l.

Definition adv (buf : packmsg_input_t) (n : Z) : packmsg_input_t := Input (i_mem buf) (i_ptr buf + n) (i_len buf - n).

Lemma adv_adv buf n m : adv (adv buf n) m = adv buf (n + m).
Proof. unfold adv. cbn. f_equal; lia. Qed.

Lemma adv_0 buf : adv buf 0 = buf.
Proof. destruct buf. unfold adv. cbn. f_equal; lia. Qed.

Lemma holds_length buf l : holds buf l -> zlen l = i_len buf.
Proof. intros ([] & Hl & <-). unfold rest, zlen in *. rewrite length_slice. lia. Qed.

Lemma holds_adv buf a l : holds buf (a ++ l) -> holds (adv buf (zlen a)) l.
Proof.
  intros H. pose proof (holds_length _ _ H) as Hn. rewrite zlen_app in Hn. destruct H as (Hw & Hl & Hr).
  pose proof (zlen_nonneg a). pose proof (zlen_nonneg l). split; [|split].
  - destruct Hw. split; cbn; try done; lia.
  - cbn. lia.
  - assert (E : rest (adv buf (zlen a)) = drop (length a) (rest buf)).
    { unfold rest, adv, slice. cbn [i_ptr i_len i_mem]. rewrite skipn_firstn_comm, drop_drop.
      f_equal; [|f_equal]; unfold zlen in *; destruct Hw; lia. }
    rewrite E, Hr. by apply drop_app_exact.
Qed.

Lemma read_hdr_ok buf x l : holds buf (x :: l) -> packmsg_read_hdr_ buf = Done (x, adv buf 1).
Proof.
  intros H. pose proof (holds_length _ _ H) as Hn. destruct H as (Hw & Hl & Hr).
  assert (0 < i_len buf) by (unfold zlen in Hn; simpl in Hn; lia). unfold packmsg_read_hdr_. rewrite (proj2 (Z.ltb_lt _ _)) by done.
  assert (E : slice (Z.to_nat (i_ptr buf)) 1 (i_mem buf) = [x]).
  { unfold rest, slice in *. replace 1%nat with (Nat.min 1 (Z.to_nat (i_len buf))) by lia. rewrite <- take_take, Hr. done. }
  destruct Hw. rewrite mem_read_ok by lia. cbn [obind]. change (Z.to_nat 1) with 1%nat. unfold slice in E. by rewrite E.
Qed.

Lemma peek_hdr_ok buf x l : holds buf (x :: l) -> packmsg_peek_hdr_ buf = Done x.
Proof.
  intros H. pose proof (read_hdr_ok buf x l H) as E. unfold packmsg_read_hdr_ in E. unfold packmsg_peek_hdr_.
  pose proof (holds_length _ _ H) as Hn. assert (0 < i_len buf) by (unfold zlen in Hn; simpl in Hn; lia).
  rewrite (proj2 (Z.ltb_lt _ _)) in * by done. destruct (mem_read _ _ _); [|done]. cbn [obind] in *. congruence.
Qed.

(** The next bytes, at their place in the input. *)
Lemma holds_read buf d l : holds buf (d ++ l) -> mem_read (i_mem buf) (i_ptr buf) (zlen d) = Done d.
Proof.
  intros H. pose proof (holds_length _ _ H) as Hn. rewrite zlen_app in Hn. destruct H as (Hw & Hl & Hr).
  pose proof (zlen_nonneg d). pose proof (zlen_nonneg l). destruct Hw. rewrite mem_read_ok by lia. f_equal.
  assert (E : take (length d) (rest buf) = d) by (rewrite Hr; by apply take_app_exact).
  unfold rest, slice in E. rewrite take_take in E. rewrite <- E at 2. f_equal. unfold zlen in *. lia.
Qed.

Lemma holds_fits buf d l n : holds buf (d ++ l) -> zlen d = n -> (0 <=? i_len buf) && (n <=? u32 (i_len buf)) = true.
Proof.
  intros H <-. pose proof (holds_length _ _ H) as Hn. rewrite zlen_app in Hn. destruct H as (Hw & Hl & Hr).
  pose proof (zlen_nonneg l). assert (u32 (i_len buf) = i_len buf) as -> by (apply u32_small; destruct Hw; lia).
  rewrite andb_true_iff, !Z.leb_le. lia.
Qed.

Lemma read_data_ok buf d l n : holds buf (d ++ l) -> zlen d = n -> packmsg_read_data_ buf n = Done (Some d, adv buf n).
Proof.
  intros H Hd. unfold packmsg_read_data_. rewrite (holds_fits buf d l n H Hd). subst n. by rewrite (holds_read buf d l H).
Qed.

Lemma read_value_ok buf k v l :
  holds buf (le_bytes k v ++ l) -> read_value buf (Z.of_nat k) = Done (v mod 256 ^ Z.of_nat k, adv buf (Z.of_nat k)).
Proof.
  intros H. unfold read_value. rewrite (read_data_ok buf (le_bytes k v) l) by (done || (unfold zlen; by rewrite length_le_bytes)).
  cbn [obind from_option]. by rewrite le_bytes_mod.
Qed.

(** At a width in bits. *)
Lemma read_bits_ok k buf v l n m :
  Z.of_nat k = n -> 8 * n = m -> holds buf (le_bytes k v ++ l) -> read_value buf n = Done (v mod 2 ^ m, adv buf n).
Proof. intros <- <- H. rewrite (read_value_ok buf k v l H). rewrite (Z.pow_mul_r 2 8) by lia. done. Qed.

Lemma take_raw_ok buf d l : holds buf (d ++ l) -> take_raw buf (zlen d) = (Some (i_ptr buf), zlen d, adv buf (zlen d)).
Proof. intros H. unfold take_raw. by rewrite (holds_fits buf d l (zlen d) H eq_refl). Qed.

(** After a header of one byte. *)
Lemma holds_cons buf x l : holds buf (x :: l) -> holds (adv buf 1) l.
Proof. apply (holds_adv buf [x]). Qed.

(** ** Integers *)

Lemma s8_u8 v : s8 (u8 v) = s8 v.
Proof. unfold s8, u8. by rewrite Zplus_mod_idemp_l. Qed.

Lemma s8_small v : -2 ^ 7 <= v < 2 ^ 7 -> s8 v = v.
Proof. intros H. apply Z.eqb_eq. rewrite s8_id. rewrite andb_true_iff, Z.leb_le, Z.ltb_lt. lia. Qed.

Lemma s16_small v : -2 ^ 15 <= v < 2 ^ 15 -> s16 (v mod 2 ^ 16) = v.
Proof. intros H. unfold s16. rewrite Zplus_mod_idemp_l, Z.mod_small; lia. Qed.

Lemma s64_small v : -2 ^ 63 <= v < 2 ^ 63 -> s64 (v mod 2 ^ 64) = v.
Proof. intros H. unfold s64. rewrite Zplus_mod_idemp_l, Z.mod_small; lia. Qed.

Lemma fixint_u8 v : -32 <= v < 128 -> fixint (u8 v) = true.
Proof.
  intros Hv. unfold fixint, u8. apply orb_true_iff. rewrite Z.ltb_lt, Z.leb_le. destruct (decide (0 <= v)).
  - left. rewrite Z.mod_small; lia.
  - right. rewrite <- (Z.mod_add v 1 (2 ^ 8)), Z.mod_small; lia.
Qed.

(** What an integer getter does with the five forms. *)
Record int_getter (get : packmsg_input_t -> outcome (Z * packmsg_input_t)) (w : width) : Prop := {
  ig_fix buf x l : holds buf (x :: l) -> fixint x = true -> get buf = Done (s8 x, adv buf 1);
  ig_8 buf l v : holds buf (0xd0 :: le_bytes 1 v ++ l) -> get buf = Done (s8 (v mod 256), adv buf 2);
  ig_16 buf l v : 16 <= bits w -> holds buf (0xd1 :: le_bytes 2 v ++ l) -> get buf = Done (s16 (v mod 2 ^ 16), adv buf 3);
  ig_32 buf l v : 32 <= bits w -> holds buf (0xd2 :: le_bytes 4 v ++ l) -> get buf = Done (s32 (v mod 2 ^ 32), adv buf 5);
  ig_64 buf l v : 64 <= bits w -> holds buf (0xd3 :: le_bytes 8 v ++ l) -> get buf = Done (s64 (v mod 2 ^ 64), adv buf 9);
}.

Lemma getter_reads get w buf v l :
  int_getter get w -> -2 ^ (bits w - 1) <= v < 2 ^ (bits w - 1) -> holds buf (enc_int v ++ l) ->
  get buf = Done (v, adv buf (zlen (enc_int v))).
Proof.
  intros [H0 H8 H16 H32 H64] Hv Hh. unfold enc_int in *. destruct ((-32 <=? v) && (v <? 128)) eqn:E0.
  { ztests. rewrite (H0 buf (u8 v) l Hh) by (apply fixint_u8; lia). rewrite s8_u8, s8_small by lia. done. }
  destruct ((-2 ^ 7 <=? v) && (v <? 2 ^ 7)) eqn:E8.
  { ztests. rewrite (H8 buf l v Hh). change 256 with (2 ^ 8). change (v mod 2 ^ 8) with (u8 v). rewrite s8_u8, s8_small by lia. done. }
  destruct ((-2 ^ 15 <=? v) && (v <? 2 ^ 15)) eqn:E16.
  { assert (16 <= bits w) by (destruct w; cbn in *; rewrite ?andb_false_iff, ?Z.leb_gt, ?Z.ltb_ge in *; ztests; lia).
    ztests. rewrite (H16 buf l v) by done. rewrite s16_small by lia. done. }
  destruct ((-2 ^ 31 <=? v) && (v <? 2 ^ 31)) eqn:E32.
  { assert (32 <= bits w) by (destruct w; cbn in *; rewrite ?andb_false_iff, ?Z.leb_gt, ?Z.ltb_ge in *; ztests; lia).
    ztests. rewrite (H32 buf l v) by done. change (v mod 2 ^ 32) with (u32 v). rewrite s32_u32, s32_small by lia. done. }
  assert (64 <= bits w) by (destruct w; cbn in *; rewrite ?andb_false_iff, ?Z.leb_gt, ?Z.ltb_ge in *; lia).
  rewrite (H64 buf l v) by done. rewrite s64_small; [done|]. destruct w; cbn in *; lia.
Qed.

(** Decide the tests on a header that is known. *)
Ltac tests :=
  repeat (match goal with
  | |- context [if ?b then _ else _] =>
      let r := eval vm_compute in b in
      lazymatch r with true => change b with true | false => change b with false end
  end; cbv iota).

(** Read the header, decide, read what follows. *)
Ltac reads H := rewrite (read_hdr_ok _ _ _ H); cbn [obind]; tests.
Ltac value k H := erewrite (read_bits_ok k) by (reflexivity || exact (holds_cons _ _ _ H)); cbn [obind]; by rewrite adv_adv.

Lemma get_int8_getter : int_getter packmsg_get_int8 W8.
Proof.
  split; intros; unfold packmsg_get_int8; try (cbn in *; lia).
  - rewrite (read_hdr_ok _ _ _ H). cbn [obind]. by rewrite H0.
  - reads H. rewrite (read_hdr_ok _ _ _ (holds_cons _ _ _ H)). cbn [obind]. by rewrite adv_adv.
Qed.

Lemma get_int16_getter : int_getter packmsg_get_int16 W16.
Proof.
  split; intros; unfold packmsg_get_int16; try (cbn in *; lia).
  - rewrite (read_hdr_ok _ _ _ H). cbn [obind]. by rewrite H0.
  - reads H. rewrite (read_hdr_ok _ _ _ (holds_cons _ _ _ H)). cbn [obind]. by rewrite adv_adv.
  - reads H0. value 2%nat H0.
Qed.

Lemma get_int32_getter : int_getter packmsg_get_int32 W32.
Proof.
  split; intros; unfold packmsg_get_int32; try (cbn in *; lia).
  - rewrite (read_hdr_ok _ _ _ H). cbn [obind]. by rewrite H0.
  - reads H. rewrite (read_hdr_ok _ _ _ (holds_cons _ _ _ H)). cbn [obind]. by rewrite adv_adv.
  - reads H0. value 2%nat H0.
  - reads H0. value 4%nat H0.
Qed.

Lemma get_int64_getter : int_getter packmsg_get_int64 W64.
Proof.
  split; intros; unfold packmsg_get_int64.
  - rewrite (read_hdr_ok _ _ _ H). cbn [obind]. by rewrite H0.
  - reads H. rewrite (read_hdr_ok _ _ _ (holds_cons _ _ _ H)). cbn [obind]. by rewrite adv_adv.
  - reads H0. value 2%nat H0.
  - reads H0. value 4%nat H0.
  - reads H0. value 8%nat H0.
Qed.

(** Unsigned integers likewise. *)
Record uint_getter (get : packmsg_input_t -> outcome (Z * packmsg_input_t)) (w : width) : Prop := {
  ug_fix buf x l : holds buf (x :: l) -> x < 128 -> get buf = Done (x, adv buf 1);
  ug_8 buf l v : holds buf (0xcc :: le_bytes 1 v ++ l) -> get buf = Done (v mod 256, adv buf 2);
  ug_16 buf l v : 16 <= bits w -> holds buf (0xcd :: le_bytes 2 v ++ l) -> get buf = Done (v mod 2 ^ 16, adv buf 3);
  ug_32 buf l v : 32 <= bits w -> holds buf (0xce :: le_bytes 4 v ++ l) -> get buf = Done (v mod 2 ^ 32, adv buf 5);
  ug_64 buf l v : 64 <= bits w -> holds buf (0xcf :: le_bytes 8 v ++ l) -> get buf = Done (v mod 2 ^ 64, adv buf 9);
}.

Lemma ugetter_reads get w buf v l :
  uint_getter get w -> 0 <= v < 2 ^ bits w -> holds buf (enc_uint v ++ l) ->
  get buf = Done (v, adv buf (zlen (enc_uint v))).
Proof.
  intros [H0 H8 H16 H32 H64] Hv Hh. unfold enc_uint in *. destruct (Z.ltb_spec v 128); [by apply (H0 buf v l)|].
  destruct (Z.ltb_spec v (2 ^ 8)).
  { rewrite (H8 buf l v Hh). rewrite Z.mod_small by lia. done. }
  destruct (Z.ltb_spec v (2 ^ 16)).
  { rewrite (H16 buf l v) by (done || (destruct w; cbn in *; lia)). rewrite Z.mod_small by lia. done. }
  destruct (Z.ltb_spec v (2 ^ 32)).
  { rewrite (H32 buf l v) by (done || (destruct w; cbn in *; lia)). rewrite Z.mod_small by lia. done. }
  rewrite (H64 buf l v) by (done || (destruct w; cbn in *; lia)). rewrite Z.mod_small; [done|]. destruct w; cbn in *; lia.
Qed.

Ltac uint_fix H H0 := rewrite (read_hdr_ok _ _ _ H); cbn [obind]; by rewrite (proj2 (Z.ltb_lt _ _) H0).
Ltac uint_8 H := reads H; rewrite (read_hdr_ok _ _ _ (holds_cons _ _ _ H)); by rewrite adv_adv.
Ltac uvalue k H := reads H; erewrite (read_bits_ok k) by (reflexivity || exact (holds_cons _ _ _ H)); by rewrite adv_adv.

Lemma get_uint8_getter : uint_getter packmsg_get_uint8 W8.
Proof. split; intros; unfold packmsg_get_uint8; try (cbn in *; lia); [uint_fix H H0|uint_8 H]. Qed.

Lemma get_uint16_getter : uint_getter packmsg_get_uint16 W16.
Proof. split; intros; unfold packmsg_get_uint16; try (cbn in *; lia); [uint_fix H H0|uint_8 H|uvalue 2%nat H0]. Qed.

Lemma get_uint32_getter : uint_getter packmsg_get_uint32 W32.
Proof. split; intros; unfold packmsg_get_uint32; try (cbn in *; lia); [uint_fix H H0|uint_8 H|uvalue 2%nat H0|uvalue 4%nat H0]. Qed.

Lemma get_uint64_getter : uint_getter packmsg_get_uint64 W64.
Proof. split; intros; unfold packmsg_get_uint64; [uint_fix H H0|uint_8 H|uvalue 2%nat H0|uvalue 4%nat H0|uvalue 8%nat H0]. Qed.

(** ** Strings, binary data, extensions, maps and arrays *)

(** A property of the headers that carry a small number. *)
Lemma small_hdr (P : Z -> bool) k : forallb P (seqZ 0 k) = true -> forall n, 0 <= n < k -> P n = true.
Proof. intros H n Hn. rewrite forallb_forall in H. apply H, list_elem_of_In, elem_of_seqZ. lia. Qed.

Lemma land_small_hdr h m r k :
  forallb (fun n => (Z.land (h + n) m =? h) && (Z.land (h + n) r =? n)) (seqZ 0 k) = true ->
  forall n, 0 <= n < k -> Z.land (h + n) m = h /\ Z.land (h + n) r = n.
Proof. intros H n Hn. pose proof (small_hdr _ _ H n Hn) as E. cbn beta in E. ztests. done. Qed.

Lemma str_hdr n : 0 <= n < 32 -> Z.land (0xa0 + n) 0xe0 = 0xa0 /\ Z.land (0xa0 + n) 0x1f = n.
Proof. by apply land_small_hdr. Qed.

Lemma map_hdr n : 0 <= n < 16 -> Z.land (0x80 + n) 0xf0 = 0x80 /\ Z.land (0x80 + n) 0xf = n.
Proof. by apply land_small_hdr. Qed.

Lemma array_hdr n : 0 <= n < 16 -> Z.land (0x90 + n) 0xf0 = 0x90 /\ Z.land (0x90 + n) 0xf = n.
Proof. by apply land_small_hdr. Qed.

(** The length that follows one of three headers. *)
Lemma len_read (k : nat) buf h n l b m :
  holds buf (h :: le_bytes k n ++ l) -> Z.of_nat k = b -> 8 * b = m -> 0 <= n < 2 ^ m ->
  read_value (adv buf 1) b = Done (n, adv buf (zlen (h :: le_bytes k n))).
Proof.
  intros H Hk Hm Hn. rewrite (read_bits_ok k (adv buf 1) n l b m Hk Hm (holds_cons _ _ _ H)), Z.mod_small, adv_adv by done.
  do 3 f_equal. unfold zlen. cbn [length]. rewrite length_le_bytes. lia.
Qed.

(** The contents after their header [h]. *)
Lemma contents_ok buf h d l :
  holds buf (h ++ d ++ l) ->
  take_raw (adv buf (zlen h)) (zlen d) = (Some (i_ptr buf + zlen h), zlen d, adv buf (zlen (h ++ d))) /\
  mem_read (i_mem buf) (i_ptr buf + zlen h) (zlen d) = Done d.
Proof.
  intros H. apply holds_adv in H. split.
  - rewrite (take_raw_ok _ d l H), adv_adv, zlen_app. done.
  - apply (holds_read (adv buf (zlen h)) d l H).
Qed.

Definition str_pre (n : Z) : list Z := if n <? 32 then [0xa0 + n] else enc_len 0xd9 0xda 0xdb n.
Definition ext_pre (n : Z) : list Z := match fixext n with Some h => [h] | None => enc_len 0xc7 0xc8 0xc9 n end.

Lemma get_str_raw_ok buf s l :
  zlen s < 2 ^ 32 -> holds buf (str_pre (zlen s) ++ s ++ l) ->
  packmsg_get_str_raw buf = Done (take_raw (adv buf (zlen (str_pre (zlen s)))) (zlen s)).
Proof.
  intros Hs H. pose proof (zlen_nonneg s). unfold packmsg_get_str_raw, str_pre, enc_len in *.
  destruct (Z.ltb_spec (zlen s) 32).
  { rewrite (read_hdr_ok _ _ _ H). cbn [obind]. destruct (str_hdr (zlen s)) as [-> ->]; [lia|]. done. }
  destruct (Z.ltb_spec (zlen s) (2 ^ 8)); [|destruct (Z.ltb_spec (zlen s) (2 ^ 16))]; cbn [app] in H; reads H.
  - by rewrite (len_read 1 _ _ _ _ 1 8 H eq_refl eq_refl ltac:(lia)).
  - by rewrite (len_read 2 _ _ _ _ 2 16 H eq_refl eq_refl ltac:(lia)).
  - by rewrite (len_read 4 _ _ _ _ 4 32 H eq_refl eq_refl ltac:(lia)).
Qed.

Lemma get_bin_raw_ok buf d l :
  zlen d < 2 ^ 32 -> holds buf (enc_len 0xc4 0xc5 0xc6 (zlen d) ++ d ++ l) ->
  packmsg_get_bin_raw buf = Done (take_raw (adv buf (zlen (enc_len 0xc4 0xc5 0xc6 (zlen d)))) (zlen d)).
Proof.
  intros Hs H. pose proof (zlen_nonneg d). unfold packmsg_get_bin_raw, enc_len in *.
  destruct (Z.ltb_spec (zlen d) (2 ^ 8)); [|destruct (Z.ltb_spec (zlen d) (2 ^ 16))]; cbn [app] in H; reads H.
  - by rewrite (len_read 1 _ _ _ _ 1 8 H eq_refl eq_refl ltac:(lia)).
  - by rewrite (len_read 2 _ _ _ _ 2 16 H eq_refl eq_refl ltac:(lia)).
  - by rewrite (len_read 4 _ _ _ _ 4 32 H eq_refl eq_refl ltac:(lia)).
Qed.

Lemma get_ext_raw_ok buf (d : list Z) l :
  zlen d < 2 ^ 32 -> holds buf (ext_pre (zlen d) ++ l) ->
  packmsg_get_ext_raw buf = ext_raw (zlen d) (adv buf (zlen (ext_pre (zlen d)))).
Proof.
  intros Hs H. pose proof (zlen_nonneg d). unfold packmsg_get_ext_raw, ext_pre in *.
  destruct (fixext (zlen d)) as [h|] eqn:Ef.
  { apply fixext_some in Ef. destruct Ef as [[-> ->]|[[-> ->]|[[-> ->]|[[-> ->]|[-> ->]]]]]; cbn [app] in H; reads H; done. }
  unfold enc_len in *.
  destruct (Z.ltb_spec (zlen d) (2 ^ 8)); [|destruct (Z.ltb_spec (zlen d) (2 ^ 16))]; cbn [app] in H; reads H.
  - by rewrite (len_read 1 _ _ _ _ 1 8 H eq_refl eq_refl ltac:(lia)).
  - by rewrite (len_read 2 _ _ _ _ 2 16 H eq_refl eq_refl ltac:(lia)).
  - by rewrite (len_read 4 _ _ _ _ 4 32 H eq_refl eq_refl ltac:(lia)).
Qed.

(** A whole object filled in. *)
Lemma fresh_filled al d : mem_write (mem_fresh al 0 (zlen d)) 0 d = Done d.
Proof.
  rewrite mem_write_ok by (rewrite ?zlen_fresh; pose proof (zlen_nonneg d); lia). cbn [Z.to_nat take app].
  rewrite drop_ge; [by rewrite app_nil_r|]. pose proof (zlen_fresh al 0 (zlen d)) as E. unfold zlen in *. lia.
Qed.

Lemma fresh_terminated al s :
  (let* dup := mem_write (mem_fresh al 0 (zlen s + 1)) 0 s in mem_write dup (zlen s) [0]) = Done (s ++ [0]).
Proof.
  pose proof (zlen_nonneg s). pose proof (zlen_fresh al 0 (zlen s + 1)) as E.
  rewrite mem_write_ok by lia. cbn [obind]. change (Z.to_nat 0) with 0%nat. rewrite firstn_O, Nat.add_0_l. cbn [app]. rewrite mem_write_ok.
  - f_equal. rewrite take_app_exact by (unfold zlen; lia). f_equal. rewrite drop_ge; [done|]. rewrite length_app, length_drop. unfold zlen in *. simpl. lia.
  - lia.
  - rewrite zlen_app, zlen_drop, E. change (zlen [0]) with 1. unfold zlen in *. lia.
Qed.

Lemma input_ok_adv buf a l : holds buf (a ++ l) -> packmsg_input_ok (adv buf (zlen a)) = true.
Proof. intros H. apply holds_adv in H as (_ & H & _). by apply Z.leb_le. Qed.

Lemma get_str_dup_ok al buf s l :
  a_ok al = true -> zlen s < 2 ^ 32 -> holds buf (enc (IStr s) ++ l) ->
  packmsg_get_str_dup al buf = Done (Some (s ++ [0]), adv buf (zlen (enc (IStr s)))).
Proof.
  intros Ha Hs H. change (enc (IStr s)) with (str_pre (zlen s) ++ s) in *. pose proof (input_ok_adv _ _ _ H) as Hok.
  rewrite <- app_assoc in H. unfold packmsg_get_str_dup. rewrite (get_str_raw_ok _ _ _ Hs H).
  destruct (contents_ok _ _ _ _ H) as [-> E]. cbn [obind]. rewrite Hok, Ha. cbn [through adv i_mem]. rewrite E. cbn [obind].
  pose proof (fresh_terminated al s) as Ef. destruct (mem_write (mem_fresh _ _ _) 0 s); [|done]. cbn [obind] in *. by rewrite Ef.
Qed.

Lemma dup_raw_ok al buf h d l :
  a_ok al = true -> holds buf (h ++ d ++ l) -> dup_raw al (adv buf (zlen (h ++ d))) (Some (i_ptr buf + zlen h)) (zlen d) = Done (Some d).
Proof.
  intros Ha H. destruct (contents_ok _ _ _ _ H) as [_ E]. unfold dup_raw. rewrite Ha. cbn [through adv i_mem]. rewrite E. cbn [obind].
  by rewrite fresh_filled.
Qed.

Lemma get_bin_dup_ok al buf d l :
  a_ok al = true -> zlen d < 2 ^ 32 -> holds buf (enc (IBin d) ++ l) ->
  packmsg_get_bin_dup al buf = Done (Some d, zlen d, adv buf (zlen (enc (IBin d)))).
Proof.
  intros Ha Hs H. cbn [enc] in *. pose proof (input_ok_adv _ _ _ H) as Hok.
  rewrite <- app_assoc in H. unfold packmsg_get_bin_dup. rewrite (get_bin_raw_ok _ _ _ Hs H).
  destruct (contents_ok _ _ _ _ H) as [-> E]. cbn [obind]. rewrite Hok, (dup_raw_ok _ _ _ _ _ Ha H). done.
Qed.

Lemma get_ext_dup_ok al buf t d l :
  a_ok al = true -> -128 <= t < 128 -> zlen d < 2 ^ 32 -> holds buf (enc (IExt t d) ++ l) ->
  packmsg_get_ext_dup al buf = Done (t, Some d, zlen d, adv buf (zlen (enc (IExt t d)))).
Proof.
  intros Ha Ht Hs H. change (enc (IExt t d)) with (ext_pre (zlen d) ++ [u8 t] ++ d) in *. rewrite app_assoc in *.
  pose proof (input_ok_adv _ _ _ H) as Hok. rewrite <- app_assoc in H. unfold packmsg_get_ext_dup.
  rewrite (get_ext_raw_ok buf d ([u8 t] ++ d ++ l) Hs) by (by rewrite <- app_assoc in H). unfold ext_raw.
  rewrite (read_hdr_ok _ (u8 t) (d ++ l)) by (rewrite <- app_assoc in H; by apply holds_adv in H). cbn [obind].
  rewrite adv_adv. replace (zlen (ext_pre (zlen d)) + 1) with (zlen (ext_pre (zlen d) ++ [u8 t])) by (by rewrite zlen_app).
  destruct (contents_ok _ _ _ _ H) as [-> E]. cbn [obind]. rewrite Hok, (dup_raw_ok _ _ _ _ _ Ha H). cbn [obind].
  by rewrite s8_u8, s8_small by lia.
Qed.

Lemma get_map_ok buf n l :
  0 <= n < 2 ^ 32 -> holds buf (enc (IMap n) ++ l) -> packmsg_get_map buf = Done (n, adv buf (zlen (enc (IMap n)))).
Proof.
  intros Hn H. cbn [enc] in *. unfold packmsg_get_map, enc_count in *. destruct (Z.ltb_spec n 16).
  { rewrite (read_hdr_ok _ _ _ H). cbn [obind]. destruct (map_hdr n) as [-> ->]; [lia|]. done. }
  destruct (Z.ltb_spec n (2 ^ 16)); cbn [app] in H; reads H.
  - by rewrite (len_read 2 _ _ _ _ 2 16 H eq_refl eq_refl ltac:(lia)).
  - by rewrite (len_read 4 _ _ _ _ 4 32 H eq_refl eq_refl ltac:(lia)).
Qed.

Lemma get_array_ok buf n l :
  0 <= n < 2 ^ 32 -> holds buf (enc (IArray n) ++ l) -> packmsg_get_array buf = Done (n, adv buf (zlen (enc (IArray n)))).
Proof.
  intros Hn H. cbn [enc] in *. unfold packmsg_get_array, enc_count in *. destruct (Z.ltb_spec n 16).
  { rewrite (read_hdr_ok _ _ _ H). cbn [obind]. destruct (array_hdr n) as [-> ->]; [lia|]. done. }
  destruct (Z.ltb_spec n (2 ^ 16)); cbn [app] in H; reads H.
  - by rewrite (len_read 2 _ _ _ _ 2 16 H eq_refl eq_refl ltac:(lia)).
  - by rewrite (len_read 4 _ _ _ _ 4 32 H eq_refl eq_refl ltac:(lia)).
Qed.

(** ** Any element, any number of elements *)

(** Read an element of the kind of [i], with the function for that kind.  [widen]
    is the conversion from float to double, [junk] what an uninitialised variable
    holds, [al] the answer of the allocator. *)
Definition get_item (al : alloc) (widen : Z -> Z) (junk : Z) (i : item) (buf : packmsg_input_t) : outcome (item * packmsg_input_t) :=
  match i with
  | INil => let* buf := packmsg_get_nil buf in Done (INil, buf)
  | IBool _ => let* (b, buf) := packmsg_get_bool buf in Done (IBool b, buf)
  | IInt W8 _ => let* (v, buf) := packmsg_get_int8 buf in Done (IInt W8 v, buf)
  | IInt W16 _ => let* (v, buf) := packmsg_get_int16 buf in Done (IInt W16 v, buf)
  | IInt W32 _ => let* (v, buf) := packmsg_get_int32 buf in Done (IInt W32 v, buf)
  | IInt W64 _ => let* (v, buf) := packmsg_get_int64 buf in Done (IInt W64 v, buf)
  | IUint W8 _ => let* (v, buf) := packmsg_get_uint8 buf in Done (IUint W8 v, buf)
  | IUint W16 _ => let* (v, buf) := packmsg_get_uint16 buf in Done (IUint W16 v, buf)
  | IUint W32 _ => let* (v, buf) := packmsg_get_uint32 buf in Done (IUint W32 v, buf)
  | IUint W64 _ => let* (v, buf) := packmsg_get_uint64 buf in Done (IUint W64 v, buf)
  | IFloat _ => let* (v, buf) := packmsg_get_float junk buf in Done (IFloat v, buf)
  | IDouble _ => let* (v, buf) := packmsg_get_double widen junk buf in Done (IDouble v, buf)
  | IStr _ => let* (s, buf) := packmsg_get_str_dup al buf in Done (IStr (removelast (default [] s)), buf)
  | IBin _ => let* (d, _, buf) := packmsg_get_bin_dup al buf in Done (IBin (default [] d), buf)
  | IExt _ _ => let* (t, d, _, buf) := packmsg_get_ext_dup al buf in Done (IExt t (default [] d), buf)
  | IMap _ => let* (n, buf) := packmsg_get_map buf in Done (IMap n, buf)
  | IArray _ => let* (n, buf) := packmsg_get_array buf in Done (IArray n, buf)
  end.

Fixpoint get_items (al : alloc) (widen : Z -> Z) (junk : Z) (l : list item) (buf : packmsg_input_t) : outcome (list item * packmsg_input_t) :=
  match l with
  | [] => Done ([], buf)
  | i :: l =>
      let* (j, buf) := get_item al widen junk i buf in
      let* (js, buf) := get_items al widen junk l buf in
      Done (j :: js, buf)
  end.

Lemma get_float_ok junk buf b l :
  0 <= b < 2 ^ 32 -> holds buf (enc (IFloat b) ++ l) -> packmsg_get_float junk buf = Done (b, adv buf 5).
Proof.
  intros Hb H. cbn [enc app] in H. unfold packmsg_get_float. reads H.
  rewrite (read_data_ok (adv buf 1) (le_bytes 4 b) l 4) by (done || exact (holds_cons _ _ _ H)). cbn [obind from_option].
  by rewrite adv_adv, le_val_bytes.
Qed.

Lemma get_double_ok widen junk buf b l :
  0 <= b < 2 ^ 64 -> holds buf (enc (IDouble b) ++ l) -> packmsg_get_double widen junk buf = Done (b, adv buf 9).
Proof.
  intros Hb H. cbn [enc app] in H. unfold packmsg_get_double. reads H.
  rewrite (read_data_ok (adv buf 1) (le_bytes 8 b) l 8) by (done || exact (holds_cons _ _ _ H)). cbn [obind from_option].
  by rewrite adv_adv, le_val_bytes.
Qed.

Lemma get_item_ok al widen junk i buf l :
  a_ok al = true -> item_ok i -> holds buf (enc i ++ l) ->
  get_item al widen junk i buf = Done (i, adv buf (zlen (enc i))).
Proof.
  intros Ha Hi H. destruct i as [|b|w v|w v|b|b|s|d|t d|n|n]; cbn [item_ok] in Hi; cbn [get_item].
  - cbn [enc app] in H. unfold packmsg_get_nil. by reads H.
  - cbn [enc app] in H. unfold packmsg_get_bool. destruct b; by reads H.
  - pose proof get_int8_getter. pose proof get_int16_getter. pose proof get_int32_getter. pose proof get_int64_getter.
    destruct w; by erewrite getter_reads.
  - pose proof get_uint8_getter. pose proof get_uint16_getter. pose proof get_uint32_getter. pose proof get_uint64_getter.
    destruct w; by erewrite ugetter_reads.
  - by rewrite (get_float_ok _ _ _ _ Hi H).
  - by rewrite (get_double_ok _ _ _ _ _ Hi H).
  - rewrite (get_str_dup_ok _ _ _ _ Ha (proj2 Hi) H). cbn [obind default from_option]. unfold id. by rewrite removelast_last.
  - by rewrite (get_bin_dup_ok _ _ _ _ Ha (proj2 Hi) H).
  - destruct Hi as (Ht & _ & Hl). by rewrite (get_ext_dup_ok _ _ _ _ _ Ha Ht Hl H).
  - by rewrite (get_map_ok _ _ _ Hi H).
  - by rewrite (get_array_ok _ _ _ Hi H).
Qed.

Lemma get_items_ok al widen junk l : forall buf k,
  a_ok al = true -> Forall item_ok l -> holds buf (enc_all l ++ k) ->
  get_items al widen junk l buf = Done (l, adv buf (zlen (enc_all l))).
Proof.
  induction l as [|i l IH]; intros buf k Ha Hl H; [by rewrite adv_0|]. apply Forall_cons in Hl as [Hi Hl].
  change (enc_all (i :: l)) with (enc i ++ enc_all l) in *. rewrite <- app_assoc in H. cbn [get_items].
  rewrite (get_item_ok _ _ _ _ _ _ Ha Hi H). cbn [obind]. rewrite (IH _ k Ha Hl (holds_adv _ _ _ H)). cbn [obind].
  by rewrite adv_adv, zlen_app.
Qed.
