(* ===== verification/PackmsgSafe.v ===== *)
(** The decoder of packmsg.h on bytes of any origin: no function leaves the
    input, an error stays, and every function that takes an element consumes
    something, so that skipping nested objects ends. *)
From S2P Require Import Prelude Bytes Packmsg PackmsgEncode PackmsgDecode.

(** What every function on an input iterator keeps: the object, its bounds, the
    end of the input unless there was an error; an error stays since the length
    never grows. *)
Record shrinks (b b' : packmsg_input_t) : Prop := {
  sh_wf : in_wf b';
  sh_mem : i_mem b' = i_mem b;
  sh_len : i_len b' <= i_len b;
  sh_end : i_len b' = -1 \/ i_ptr b' + i_len b' = i_ptr b + i_len b;
}.

(** And a function that takes an element takes at least one byte, or fails. *)
Definition consumes (b b' : packmsg_input_t) : Prop := shrinks b b' /\ (0 <= i_len b -> i_len b' < i_len b).

Lemma shrinks_refl b : in_wf b -> shrinks b b.
Proof. intros H. split; try done. by right. Qed.

Lemma shrinks_then a b c : shrinks a b -> shrinks b c -> shrinks a c.
Proof. intros [W1 M1 L1 E1] [W2 M2 L2 E2]. split; [done|congruence|lia|]. destruct W2. lia. Qed.

Lemma consumes_then a b c : consumes a b -> shrinks b c -> consumes a c.
Proof. intros [H1 H2] H. split; [by eapply shrinks_then|]. destruct H. lia. Qed.

Lemma invalidate_shrinks b : in_wf b -> shrinks b (packmsg_input_invalidate b).
Proof. intros []. split; cbn; try done; [split; cbn; try done; by left|lia|by left]. Qed.

Lemma adv_shrinks b n : in_wf b -> 0 <= n <= i_len b -> shrinks b (adv b n).
Proof. intros [] H. split; cbn; [split; cbn; try done; lia|done|lia|right; lia]. Qed.

Lemma consumes_invalid a b : consumes a b -> consumes a (packmsg_input_invalidate b).
Proof. intros H. eapply consumes_then; [exact H|]. apply invalidate_shrinks, H. Qed.

#[export] Hint Resolve shrinks_refl invalidate_shrinks sh_wf : packmsg.
#[export] Hint Extern 1 (shrinks _ _) => eapply shrinks_then; [eassumption|] : packmsg.
#[export] Hint Extern 2 (consumes _ _) => eapply consumes_then; [eassumption|] : packmsg.

(** ** The primitives *)

Lemma read_hdr_safe buf : in_wf buf -> returns (packmsg_read_hdr_ buf) (fun '(h, b) => 0 <= h < 256 /\ consumes buf b).
Proof.
  intros Hw. unfold packmsg_read_hdr_. destruct (Z.ltb_spec 0 (i_len buf)).
  - pose proof Hw as [Hp Hl Hby Hsz]. rewrite mem_read_ok by lia. cbn [obind returns]. split.
    + destruct (take _ _) as [|x l] eqn:E; [cbn; lia|]. assert (Hx : x ∈ i_mem buf).
      { apply (subseteq_drop (Z.to_nat (i_ptr buf))), (subseteq_take (Z.to_nat 1)). rewrite E. by left. }
      by eapply Forall_forall in Hby.
    + split; [apply adv_shrinks; [done|lia]|cbn; lia].
  - cbn [returns]. split; [lia|]. split; [by apply invalidate_shrinks|cbn; lia].
Qed.

Lemma fits_shrinks buf n :
  in_wf buf -> 0 <= n -> (0 <=? i_len buf) && (n <=? u32 (i_len buf)) = true -> shrinks buf (adv buf n) /\ n <= i_len buf /\ 0 <= i_len buf.
Proof. intros Hw Hn H. ztests. rewrite u32_small in * by (destruct Hw; lia). split; [apply adv_shrinks; [done|lia]|lia]. Qed.

Lemma read_data_safe buf n :
  in_wf buf -> 0 <= n ->
  returns (packmsg_read_data_ buf n) (fun '(d, b) => shrinks buf b /\ match d with Some d => bytes_ok d /\ zlen d = n | None => i_len b = -1 end).
Proof.
  intros Hw Hn. unfold packmsg_read_data_. destruct (_ && _) eqn:E.
  - destruct (fits_shrinks buf n Hw Hn E) as (Hs & Hle & H0). destruct Hw. rewrite mem_read_ok by lia. cbn [obind returns].
    splits; [done|by apply Forall_take, Forall_drop|]. rewrite zlen_take, zlen_drop. lia.
  - cbn [returns]. split; [by apply invalidate_shrinks|done].
Qed.

Lemma read_value_safe buf n :
  in_wf buf -> 0 <= n -> returns (read_value buf n) (fun '(v, b) => 0 <= v < 256 ^ n /\ shrinks buf b).
Proof.
  intros Hw Hn. eapply returns_bind; [by apply read_data_safe|]. intros [[d|] b] [Hs Hd]; cbn [returns from_option]; split; try done.
  - destruct Hd as [Hb <-]. by apply le_val_range.
  - pose proof (Z.pow_pos_nonneg 256 n). lia.
Qed.

Definition raw_ok (buf : packmsg_input_t) (p : option Z) (n : Z) (b : packmsg_input_t) : Prop :=
  shrinks buf b /\ 0 <= n /\
  match p with Some o => 0 <= i_len b /\ 0 <= o /\ o + n <= zlen (i_mem b) | None => n = 0 /\ i_len b = -1 end.

Lemma take_raw_safe buf n : in_wf buf -> 0 <= n -> let '(p, m, b) := take_raw buf n in raw_ok buf p m b.
Proof.
  intros Hw Hn. unfold take_raw. destruct (_ && _) eqn:E.
  - destruct (fits_shrinks buf n Hw Hn E) as (Hs & Hle & H0). split; [done|]. destruct Hw. cbn. lia.
  - split; [by apply invalidate_shrinks|]. done.
Qed.

Lemma raw_ok_from a buf p n b : consumes a buf -> raw_ok buf p n b -> consumes a b /\ raw_ok a p n b.
Proof.
  intros H (Hs & Hn & Hp). split; [by eapply consumes_then|]. split; [|done]. by eapply shrinks_then; [apply H|].
Qed.

(** ** The functions that take an element *)

Definition takes {X} (m : packmsg_input_t -> outcome (X * packmsg_input_t)) (P : X -> Prop) : Prop :=
  forall buf, in_wf buf -> returns (m buf) (fun '(x, b) => consumes buf b /\ P x).

(** The header, then what is done with it. *)
Lemma hdr_then {A} (k : Z -> packmsg_input_t -> outcome A) (Q : A -> Prop) buf :
  in_wf buf ->
  (forall h b, 0 <= h < 256 -> in_wf b -> consumes buf b -> returns (k h b) Q) ->
  returns (let* (h, b) := packmsg_read_hdr_ buf in k h b) Q.
Proof.
  intros Hw H. eapply returns_bind; [by apply read_hdr_safe|]. intros [h b] [Hh Hc]. apply H; [done| |done]. apply Hc.
Qed.

Lemma value_then {A} n (k : Z -> packmsg_input_t -> outcome A) (Q : A -> Prop) a buf :
  in_wf buf -> 0 <= n -> consumes a buf ->
  (forall v b, 0 <= v < 256 ^ n -> in_wf b -> consumes a b -> returns (k v b) Q) ->
  returns (let* (v, b) := read_value buf n in k v b) Q.
Proof.
  intros Hw Hn Hc H. eapply returns_bind; [by apply read_value_safe|]. intros [v b] [Hv Hs].
  apply H; [done|apply Hs|by eapply consumes_then].
Qed.

Lemma s8_range x : -128 <= s8 x < 128.
Proof. unfold s8. pose proof (Z.mod_pos_bound (x + 2 ^ 7) (2 ^ 8)). lia. Qed.

Lemma s16_range x : -2 ^ 15 <= s16 x < 2 ^ 15.
Proof. unfold s16. pose proof (Z.mod_pos_bound (x + 2 ^ 15) (2 ^ 16)). lia. Qed.

Lemma s32_range' x : -2 ^ 31 <= s32 x < 2 ^ 31.
Proof. unfold s32. pose proof (Z.mod_pos_bound (x + 2 ^ 31) (2 ^ 32)). lia. Qed.

Lemma s64_range' x : -2 ^ 63 <= s64 x < 2 ^ 63.
Proof. unfold s64. pose proof (Z.mod_pos_bound (x + 2 ^ 63) (2 ^ 64)). lia. Qed.

Lemma land_low_range x m k : 0 <= k -> m = 2 ^ k - 1 -> 0 <= Z.land x m < 2 ^ k.
Proof. intros Hk Hm. rewrite (land_mask x k m Hk Hm). apply Z.mod_pos_bound. lia. Qed.

(** Go through the tests of a getter and the values it reads. *)
Ltac in_range :=
  repeat match goal with
  | |- context [s8 ?x] => pose proof (s8_range x); generalize dependent (s8 x); intros
  | |- context [s16 ?x] => pose proof (s16_range x); generalize dependent (s16 x); intros
  | |- context [s32 ?x] => pose proof (s32_range' x); generalize dependent (s32 x); intros
  | |- context [s64 ?x] => pose proof (s64_range' x); generalize dependent (s64 x); intros
  | |- context [Z.land ?x 0xf] => pose proof (land_low_range x 0xf 4 ltac:(lia) eq_refl); generalize dependent (Z.land x 0xf); intros
  end; first [done | lia].

Ltac taken := cbn [returns]; split; [by eauto with packmsg|in_range].

Ltac getter f :=
  intros buf Hw; unfold f, invalid; eapply hdr_then; [done|]; intros h b Hh Hb Hc; repeat zcase;
  first
    [ by taken
    | eapply returns_bind; [by apply read_hdr_safe|]; intros [v b'] [Hv [Hs' _]]; by taken
    | eapply value_then; [done|lia|done|]; intros v b' Hv Hb' Hc'; by taken
    | eapply returns_mono; [by apply read_hdr_safe|]; intros [v b'] [Hv [Hs' _]]; by taken
    | eapply returns_mono; [apply read_value_safe; [done|lia]|]; intros [v b'] [Hv Hs']; by taken ].

Lemma get_bool_takes : takes packmsg_get_bool (fun _ => True).
Proof. getter packmsg_get_bool. Qed.
Lemma get_int8_takes : takes packmsg_get_int8 (fun v => -2 ^ 7 <= v < 2 ^ 7).
Proof. getter packmsg_get_int8. Qed.
Lemma get_int16_takes : takes packmsg_get_int16 (fun v => -2 ^ 15 <= v < 2 ^ 15).
Proof. getter packmsg_get_int16. Qed.
Lemma get_int32_takes : takes packmsg_get_int32 (fun v => -2 ^ 31 <= v < 2 ^ 31).
Proof. getter packmsg_get_int32. Qed.
Lemma get_int64_takes : takes packmsg_get_int64 (fun v => -2 ^ 63 <= v < 2 ^ 63).
Proof. getter packmsg_get_int64. Qed.
Lemma get_uint8_takes : takes packmsg_get_uint8 (fun v => 0 <= v < 2 ^ 8).
Proof. getter packmsg_get_uint8. Qed.
Lemma get_uint16_takes : takes packmsg_get_uint16 (fun v => 0 <= v < 2 ^ 16).
Proof. getter packmsg_get_uint16. Qed.
Lemma get_uint32_takes : takes packmsg_get_uint32 (fun v => 0 <= v < 2 ^ 32).
Proof. getter packmsg_get_uint32. Qed.
Lemma get_uint64_takes : takes packmsg_get_uint64 (fun v => 0 <= v < 2 ^ 64).
Proof. getter packmsg_get_uint64. Qed.

Lemma get_map_takes : takes packmsg_get_map (fun n => 0 <= n < 2 ^ 32).
Proof. getter packmsg_get_map. Qed.
Lemma get_array_takes : takes packmsg_get_array (fun n => 0 <= n < 2 ^ 32).
Proof. getter packmsg_get_array. Qed.

Lemma get_nil_safe buf : in_wf buf -> returns (packmsg_get_nil buf) (consumes buf).
Proof. intros Hw. eapply hdr_then; [done|]. intros h b Hh Hb Hc. cbn [returns]. zcase; eauto with packmsg. Qed.

(** A variable of [n] bytes that is not initialised. *)
Lemma data_then {A} n (k : option (list Z) -> packmsg_input_t -> outcome A) (Q : A -> Prop) a buf :
  in_wf buf -> 0 <= n -> consumes a buf ->
  (forall d b, match d with Some d => 0 <= le_val d < 256 ^ n | None => i_len b = -1 end -> consumes a b -> returns (k d b) Q) ->
  returns (let* (d, b) := packmsg_read_data_ buf n in k d b) Q.
Proof.
  intros Hw Hn Hc H. eapply returns_bind; [by apply read_data_safe|]. intros [d b] [Hs Hd].
  apply H; [|by eapply consumes_then]. destruct d as [d|]; [|done]. destruct Hd as [Hb <-]. by apply le_val_range.
Qed.

Lemma get_float_safe junk buf : in_wf buf ->
  returns (packmsg_get_float junk buf) (fun '(v, b) => consumes buf b /\ (0 <= i_len b -> 0 <= v < 2 ^ 32)).
Proof.
  intros Hw. eapply hdr_then; [done|]. intros h b Hh Hb Hc. unfold invalid. zcase; [|split; [by eauto with packmsg|cbn; lia]].
  eapply data_then; [done|lia|done|]. intros [d|] b' Hd Hc'; (split; [done|]); cbn [from_option]; lia.
Qed.

Lemma get_double_safe widen junk buf : in_wf buf -> returns (packmsg_get_double widen junk buf) (fun r => consumes buf r.2).
Proof.
  intros Hw. eapply hdr_then; [done|]. intros h b Hh Hb Hc. unfold invalid.
  repeat zcase; [| |cbn; by eauto with packmsg]; (eapply data_then; [done|lia|done|]); by intros.
Qed.

(** ** Raw pointers, and the copies made through them *)

Definition raw_safe (m : outcome (option Z * Z * packmsg_input_t)) (buf : packmsg_input_t) : Prop :=
  returns m (fun '(p, n, b) => consumes buf b /\ raw_ok buf p n b).

Lemma take_raw_returns a buf n : in_wf buf -> 0 <= n -> consumes a buf -> raw_safe (Done (take_raw buf n)) a.
Proof.
  intros Hw Hn Hc. pose proof (take_raw_safe buf n Hw Hn) as H. unfold raw_safe. cbn [returns].
  destruct (take_raw buf n) as [[p m] b]. by eapply raw_ok_from.
Qed.

Lemma no_raw a buf : in_wf buf -> consumes a buf -> raw_safe (Done (None, 0, packmsg_input_invalidate buf)) a.
Proof. intros Hw Hc. eapply raw_ok_from; [done|]. split; [by apply invalidate_shrinks|done]. Qed.

Ltac raw_getter f :=
  intros Hw; unfold raw_safe, f; eapply hdr_then; [done|]; intros h b Hh Hb Hc; repeat zcase;
  first
    [ by apply no_raw
    | apply take_raw_returns; [done|apply Z.land_nonneg; lia|done]
    | eapply value_then; [done|lia|done|]; intros v b' Hv Hb' Hc'; apply take_raw_returns; [done|lia|done] ].

Lemma get_str_raw_safe buf : in_wf buf -> raw_safe (packmsg_get_str_raw buf) buf.
Proof. raw_getter packmsg_get_str_raw. Qed.

Lemma get_bin_raw_safe buf : in_wf buf -> raw_safe (packmsg_get_bin_raw buf) buf.
Proof. raw_getter packmsg_get_bin_raw. Qed.

Lemma through_safe buf p n b :
  raw_ok buf p n b -> packmsg_input_ok b = true -> returns (through b p n) (fun d => zlen d = n).
Proof.
  intros (Hs & Hn & Hp) Hok. unfold packmsg_input_ok in Hok. ztests. destruct p as [o|]; [|lia]. cbn [through].
  rewrite mem_read_ok by lia. cbn [returns]. rewrite zlen_take, zlen_drop. lia.
Qed.

Lemma mem_write_returns m off bs : 0 <= off -> off + zlen bs <= zlen m -> returns (mem_write m off bs) (fun m' => zlen m' = zlen m).
Proof. intros H1 H2. rewrite mem_write_ok by done. cbn [returns]. rewrite !zlen_app, zlen_take, zlen_drop. unfold zlen in *. lia. Qed.

Lemma dup_raw_safe al buf p n b :
  raw_ok buf p n b -> packmsg_input_ok b = true -> returns (dup_raw al b p n) (fun _ => True).
Proof.
  intros Hr Hok. unfold dup_raw. destruct (a_ok al); [|done]. eapply returns_bind; [by eapply through_safe|]. intros d <-.
  eapply returns_bind; [apply mem_write_returns; [lia|rewrite zlen_fresh; lia]|]. done.
Qed.

Lemma get_str_dup_safe al buf : in_wf buf -> returns (packmsg_get_str_dup al buf) (fun r => consumes buf r.2).
Proof.
  intros Hw. eapply returns_bind; [by apply get_str_raw_safe|]. intros [[p n] b] [Hc Hr].
  destruct (packmsg_input_ok b) eqn:Hok; [|done]. destruct (a_ok al); [|by apply consumes_invalid].
  eapply returns_bind; [by eapply through_safe|]. intros d <-.
  eapply returns_bind; [apply mem_write_returns; [lia|rewrite zlen_fresh; pose proof (zlen_nonneg d); lia]|]. intros m Hm.
  eapply returns_bind; [apply mem_write_returns; [apply zlen_nonneg|rewrite Hm, zlen_fresh; change (zlen [0]) with 1; lia]|]. done.
Qed.

Lemma get_bin_dup_safe al buf : in_wf buf -> returns (packmsg_get_bin_dup al buf) (fun r => consumes buf r.2).
Proof.
  intros Hw. eapply returns_bind; [by apply get_bin_raw_safe|]. intros [[p n] b] [Hc Hr].
  destruct (packmsg_input_ok b) eqn:Hok; [|done]. eapply returns_bind; [by eapply dup_raw_safe|].
  intros [d|] _; [done|by apply consumes_invalid].
Qed.

(** The copies need the caller's object to have the size it says. *)
Lemma get_str_copy_safe buf data :
  in_wf buf -> returns (packmsg_get_str_copy buf data (zlen data)) (fun '(n, m, b) => consumes buf b /\ zlen m = zlen data /\ 0 <= n).
Proof.
  intros Hw. pose proof (zlen_nonneg data). eapply returns_bind; [by apply get_str_raw_safe|]. intros [[p n] b] [Hc Hr].
  assert (Ht : returns (if negb (zlen data =? 0) then mem_write data 0 [0] else Done data) (fun m => zlen m = zlen data)).
  { zcase; [|done]. apply mem_write_returns; [lia|]. change (zlen [0]) with 1. lia. }
  destruct (packmsg_input_ok b) eqn:Hok; [destruct (Z.ltb_spec n (zlen data))|].
  - eapply returns_bind; [by eapply through_safe|]. intros d <-. eapply returns_bind; [apply mem_write_returns; lia|]. intros m Hm.
    eapply returns_bind; [apply mem_write_returns; [apply zlen_nonneg|rewrite Hm; change (zlen [0]) with 1; lia]|]. intros m' Hm'. cbn. splits; [done|by rewrite Hm'|apply zlen_nonneg].
  - eapply returns_bind; [exact Ht|]. intros m Hm. cbn. splits; [by apply consumes_invalid|done|done].
  - eapply returns_bind; [exact Ht|]. intros m Hm. cbn. done.
Qed.

Lemma get_bin_copy_safe buf data :
  in_wf buf -> returns (packmsg_get_bin_copy buf data (zlen data)) (fun '(n, m, b) => consumes buf b /\ zlen m = zlen data /\ 0 <= n).
Proof.
  intros Hw. eapply returns_bind; [by apply get_bin_raw_safe|]. intros [[p n] b] [Hc Hr].
  destruct (packmsg_input_ok b) eqn:Hok; [zcase|done].
  - eapply returns_bind; [by eapply through_safe|]. intros d <-. eapply returns_bind; [apply mem_write_returns; lia|]. intros m Hm.
    cbn. splits; [done|exact Hm|apply zlen_nonneg].
  - cbn. splits; [by apply consumes_invalid|done|done].
Qed.

Definition ext_safe (m : outcome (Z * option Z * Z * packmsg_input_t)) (buf : packmsg_input_t) : Prop :=
  returns m (fun '(t, p, n, b) => consumes buf b /\ raw_ok buf p n b /\ -128 <= t < 128).

Lemma ext_raw_safe a buf n : in_wf buf -> 0 <= n -> consumes a buf -> ext_safe (ext_raw n buf) a.
Proof.
  intros Hw Hn Hc. eapply returns_bind; [by apply read_hdr_safe|]. intros [t b] [Ht [Hs _]].
  assert (Hc' : consumes a b) by (by eapply consumes_then). pose proof (take_raw_safe b n (sh_wf _ _ Hs) Hn) as H.
  destruct (take_raw b n) as [[p m] b']. cbn [returns]. destruct (raw_ok_from a b p m b' Hc' H). splits; try done; destruct p; try done; apply s8_range.
Qed.

Lemma get_ext_raw_safe buf : in_wf buf -> ext_safe (packmsg_get_ext_raw buf) buf.
Proof.
  intros Hw; unfold ext_safe, packmsg_get_ext_raw; eapply hdr_then; [done|]; intros h b Hh Hb Hc; repeat zcase;
  first
    [ eapply value_then; [done|lia|done|]; intros v b' Hv Hb' Hc'; apply ext_raw_safe; [done|lia|done]
    | apply ext_raw_safe; [done|apply Z.shiftl_nonneg; lia|done] | idtac ].
  cbn [returns]. destruct (no_raw _ _ Hb Hc) as [H1 H2]. splits; done.
Qed.

Lemma get_ext_dup_safe al buf : in_wf buf -> returns (packmsg_get_ext_dup al buf) (fun r => consumes buf r.2).
Proof.
  intros Hw. eapply returns_bind; [by apply get_ext_raw_safe|]. intros [[[t p] n] b] (Hc & Hr & _).
  destruct (packmsg_input_ok b) eqn:Hok; [|done]. eapply returns_bind; [by eapply dup_raw_safe|].
  intros [d|] _; [done|by apply consumes_invalid].
Qed.

Lemma get_ext_copy_safe buf data :
  in_wf buf -> returns (packmsg_get_ext_copy buf data (zlen data)) (fun '(t, n, m, b) => consumes buf b /\ zlen m = zlen data /\ 0 <= n).
Proof.
  intros Hw. eapply returns_bind; [by apply get_ext_raw_safe|]. intros [[[t p] n] b] (Hc & Hr & _).
  destruct (packmsg_input_ok b) eqn:Hok; [zcase|done].
  - eapply returns_bind; [by eapply through_safe|]. intros d <-. eapply returns_bind; [apply mem_write_returns; lia|]. intros m Hm.
    cbn. splits; [done|exact Hm|apply zlen_nonneg].
  - cbn. splits; [by apply consumes_invalid|done|done].
Qed.

(** ** Tests of the next header *)

Lemma peek_safe f buf : in_wf buf -> returns (peek f buf) (fun _ => True).
Proof.
  intros Hw. unfold peek, packmsg_peek_hdr_. destruct (Z.ltb_spec 0 (i_len buf)); [|done]. destruct Hw.
  by rewrite mem_read_ok by lia.
Qed.

Lemma get_type_safe buf : in_wf buf -> returns (packmsg_get_type buf) (fun _ => True).
Proof.
  intros Hw. unfold packmsg_get_type. destruct (packmsg_done buf); [done|]. unfold packmsg_peek_hdr_.
  destruct (Z.ltb_spec 0 (i_len buf)); [|done]. destruct Hw. by rewrite mem_read_ok by lia.
Qed.

(** ** Skipping *)

Lemma skip_bytes_shrinks buf n : in_wf buf -> 0 <= n -> shrinks buf (skip_bytes buf n).
Proof. intros Hw Hn. pose proof (take_raw_safe buf n Hw Hn) as H. unfold skip_bytes. destruct (take_raw buf n) as [[p m] b]. apply H. Qed.

Lemma skip_element_safe buf : in_wf buf -> returns (packmsg_skip_element buf) (consumes buf).
Proof.
  intros Hw. eapply hdr_then; [done|]. intros h b Hh Hb Hc. destruct (skip_of_hdr h) as [s|]; [|done]. zcase.
  - eapply value_then; [done|lia|done|]. intros v b' Hv Hb' Hc'. cbn [returns]. eapply consumes_then; [done|].
    apply skip_bytes_shrinks; [done|]. zcase; [|lia]. apply u32_range.
  - cbn [returns]. eapply consumes_then; [done|]. by apply skip_bytes_shrinks.
Qed.

(** One unit of fuel for every byte, twice: for the object that starts there and
    for the loop it is part of. *)
Lemma skip_safe fuel :
  (forall buf, in_wf buf -> 2 * i_len buf + 4 <= Z.of_nat fuel -> returns (packmsg_skip_object fuel buf) (consumes buf)) /\
  (forall pairs count buf, in_wf buf -> (1 <= fuel)%nat -> i_len buf = -1 \/ 2 * i_len buf + 5 <= Z.of_nat fuel -> returns (skip_loop fuel pairs count buf) (shrinks buf)).
Proof.
  induction fuel as [|fuel [IHo IHl]]; split.
  1: intros ? []; lia.
  1: lia.
  - intros buf Hw Hf.
    assert (Hloop : forall get pairs, takes get (fun n => 0 <= n < 2 ^ 32) ->
      returns (let* (count, b) := get buf in skip_loop fuel pairs count b) (consumes buf)).
    { intros get pairs Hg. pose proof (iw_len _ Hw). eapply returns_bind; [by apply Hg|]. intros [n b] [Hc Hn].
      eapply returns_mono; [apply IHl; [apply Hc|lia|]|].
      - destruct Hc as [[[] _ Hle _] Hlt]. lia.
      - intros b' Hs. by eapply consumes_then. }
    cbn [packmsg_skip_object]. eapply returns_bind; [by apply peek_safe|]. intros [] _; [apply Hloop, get_array_takes|].
    eapply returns_bind; [by apply peek_safe|]. intros [] _; [apply Hloop, get_map_takes|by apply skip_element_safe].
  - intros pairs count buf Hw H1 Hf. cbn [skip_loop]. destruct (negb _ && _) eqn:E; ztests; [|by apply shrinks_refl].
    eapply returns_bind; [apply IHo; [done|lia]|]. intros b [Hs Hlt]. specialize (Hlt ltac:(lia)).
    assert (Hp : returns (if pairs then packmsg_skip_object fuel b else Done b) (shrinks b)).
    { destruct pairs; [|apply shrinks_refl, Hs]. eapply returns_mono; [apply IHo; [apply Hs|destruct Hs; lia]|]. by intros b' []. }
    eapply returns_bind; [exact Hp|]. intros b' Hs'. eapply returns_mono; [apply IHl; [apply Hs'|lia|destruct Hs' as [[] _ ? _]; lia]|].
    intros b'' Hs''. eapply shrinks_then; [exact Hs|]. by eapply shrinks_then.
Qed.
