(* ===== verification/PackmsgSkip.v ===== *)
(** Skipping in packmsg.h: one call of [packmsg_skip_object] moves past exactly one
    encoded object, however deeply arrays and maps are nested in it. *)
From S2P Require Import Prelude Bytes Packmsg PackmsgEncode PackmsgDecode PackmsgSafe.

(** ** One element *)

Lemma skip_bytes_ok buf d l : holds buf (d ++ l) -> skip_bytes buf (zlen d) = adv buf (zlen d).
Proof. intros H. unfold skip_bytes. by rewrite (take_raw_ok _ _ _ H). Qed.

Lemma skip_hdr buf h l : holds buf (h :: l) -> skip_of_hdr h = None -> packmsg_skip_element buf = Done (adv buf 1).
Proof. intros H Hs. unfold packmsg_skip_element. rewrite (read_hdr_ok _ _ _ H). cbn [obind]. by rewrite Hs. Qed.

Lemma skip_fixed buf h d l :
  holds buf (h :: d ++ l) -> skip_of_hdr h = Some (zlen d) -> packmsg_skip_element buf = Done (adv buf (zlen (h :: d))).
Proof.
  intros H Hs. unfold packmsg_skip_element. rewrite (read_hdr_ok _ _ _ H). cbn [obind]. rewrite Hs.
  rewrite (proj2 (Z.ltb_ge _ _)) by apply zlen_nonneg. rewrite (skip_bytes_ok _ d l) by exact (holds_cons _ _ _ H).
  rewrite adv_adv. do 2 f_equal. unfold zlen. cbn [length]. lia.
Qed.

Definition is_ext_hdr (h : Z) : bool := (0xc7 <=? h) && (h <=? 0xc9).

Lemma skip_len k b m buf h n d l :
  holds buf (h :: le_bytes k n ++ d ++ l) -> Z.of_nat k = b -> 8 * b = m -> skip_of_hdr h = Some (- b) -> 0 < b -> 0 <= n < 2 ^ m ->
  zlen d = (if is_ext_hdr h then n + 1 else n) ->
  packmsg_skip_element buf = Done (adv buf (zlen (h :: le_bytes k n ++ d))).
Proof.
  intros H Hk Hm Hs Hb Hn Hd. pose proof (holds_length _ _ H) as Hlen. unfold packmsg_skip_element. rewrite (read_hdr_ok _ _ _ H). cbn [obind]. rewrite Hs.
  rewrite (proj2 (Z.ltb_lt (- b) 0)), Z.opp_involutive by lia. rewrite (len_read k _ _ _ _ b m H Hk Hm Hn). cbn [obind].
  fold (is_ext_hdr h). change (h :: le_bytes k n ++ d ++ l) with ((h :: le_bytes k n) ++ d ++ l) in *.
  replace (if is_ext_hdr h then u32 (n + 1) else n) with (zlen d).
  - rewrite (skip_bytes_ok _ d l) by (by apply holds_adv in H). rewrite adv_adv.
    change (h :: le_bytes k n ++ d) with ((h :: le_bytes k n) ++ d). by rewrite zlen_app.
  - destruct (is_ext_hdr h); [|done]. rewrite u32_small; [done|]. rewrite !zlen_app in Hlen.
    pose proof (zlen_nonneg l). pose proof (zlen_nonneg (h :: le_bytes k n)). destruct H as ([] & _ & _). lia.
Qed.

Lemma fixint_skip h : 0 <= h < 256 -> fixint h = true -> skip_of_hdr h = None.
Proof.
  intros Hh Hf. pose proof (small_hdr (fun h => negb (fixint h) || bool_decide (skip_of_hdr h = None)) 256 eq_refl h Hh) as H.
  cbn beta in H. rewrite Hf in H. by apply bool_decide_eq_true in H.
Qed.

Lemma str_skip n : 0 <= n < 32 -> skip_of_hdr (0xa0 + n) = Some n.
Proof.
  intros Hn. pose proof (small_hdr (fun n => bool_decide (skip_of_hdr (0xa0 + n) = Some n)) 32 eq_refl n Hn) as H.
  by apply bool_decide_eq_true in H.
Qed.

Lemma skip_enc_len h1 h2 h4 n d buf l :
  skip_of_hdr h1 = Some (-1) -> skip_of_hdr h2 = Some (-2) -> skip_of_hdr h4 = Some (-4) ->
  is_ext_hdr h1 = is_ext_hdr h4 -> is_ext_hdr h2 = is_ext_hdr h4 ->
  0 <= n < 2 ^ 32 -> zlen d = (if is_ext_hdr h4 then n + 1 else n) -> holds buf (enc_len h1 h2 h4 n ++ d ++ l) ->
  packmsg_skip_element buf = Done (adv buf (zlen (enc_len h1 h2 h4 n ++ d))).
Proof.
  intros H1 H2 H4 E1 E2 Hn Hd H. unfold enc_len in *. destruct (Z.ltb_spec n (2 ^ 8)); [|destruct (Z.ltb_spec n (2 ^ 16))]; cbn [app] in H.
  - by rewrite (skip_len 1 1 8 _ _ _ _ _ H) by (rewrite ?E1; done || lia).
  - by rewrite (skip_len 2 2 16 _ _ _ _ _ H) by (rewrite ?E2; done || lia).
  - by rewrite (skip_len 4 4 32 _ _ _ _ _ H) by (done || lia).
Qed.

Lemma skip_int v buf l : -2 ^ 63 <= v < 2 ^ 63 -> holds buf (enc_int v ++ l) -> packmsg_skip_element buf = Done (adv buf (zlen (enc_int v))).
Proof.
  intros Hv H. unfold enc_int in *. destruct ((-32 <=? v) && (v <? 128)) eqn:E.
  { ztests. rewrite (skip_hdr _ _ _ H); [done|]. apply fixint_skip; [|apply fixint_u8; lia]. unfold u8. apply Z.mod_pos_bound. lia. }
  clear E. destruct (_ && _); [|destruct (_ && _); [|destruct (_ && _)]]; cbn [app] in H; by rewrite (skip_fixed _ _ _ _ H) by reflexivity.
Qed.

Lemma skip_uint v buf l : 0 <= v -> holds buf (enc_uint v ++ l) -> packmsg_skip_element buf = Done (adv buf (zlen (enc_uint v))).
Proof.
  intros Hv H. unfold enc_uint in *. destruct (Z.ltb_spec v 128).
  { rewrite (skip_hdr _ _ _ H); [done|]. apply fixint_skip; [lia|]. apply orb_true_iff. left. apply Z.ltb_lt. lia. }
  destruct (_ <? _); [|destruct (_ <? _); [|destruct (_ <? _)]]; cbn [app] in H; by rewrite (skip_fixed _ _ _ _ H) by reflexivity.
Qed.

Definition scalar (i : item) : Prop := match i with IMap _ | IArray _ => False | _ => True end.

Lemma skip_element_ok i buf l :
  item_ok i -> scalar i -> holds buf (enc i ++ l) -> packmsg_skip_element buf = Done (adv buf (zlen (enc i))).
Proof.
  intros Hi Hs H. destruct i as [|b|w v|w v|b|b|s|d|t d|n|n]; cbn [item_ok] in Hi; try done.
  - by rewrite (skip_hdr _ _ _ H) by done.
  - cbn [enc] in *. destruct b; by rewrite (skip_hdr _ _ _ H) by done.
  - apply (skip_int v buf l); [|done]. destruct w; cbn in Hi; lia.
  - apply (skip_uint v buf l); [lia|done].
  - cbn [enc app] in H. by rewrite (skip_fixed _ _ _ _ H) by done.
  - cbn [enc app] in H. by rewrite (skip_fixed _ _ _ _ H) by done.
  - destruct Hi as [_ Hl]. pose proof (zlen_nonneg s). cbn [enc] in *. destruct (Z.ltb_spec (zlen s) 32).
    + by rewrite (skip_fixed _ _ s l H) by (apply str_skip; lia).
    + rewrite <- app_assoc in H. by apply (skip_enc_len 0xd9 0xda 0xdb (zlen s) s buf l).
  - destruct Hi as [_ Hl]. pose proof (zlen_nonneg d). cbn [enc] in *. rewrite <- app_assoc in H.
    by apply (skip_enc_len 0xc4 0xc5 0xc6 (zlen d) d buf l).
  - destruct Hi as (Ht & _ & Hl). pose proof (zlen_nonneg d). cbn [enc] in *. rewrite <- app_assoc in H.
    destruct (fixext (zlen d)) as [h|] eqn:Ef.
    + cbn [app] in *. rewrite (skip_fixed _ h (u8 t :: d) l H); [done|]. apply fixext_some in Ef.
      unfold zlen in *. cbn [length]. destruct Ef as [[E ->]|[[E ->]|[[E ->]|[[E ->]|[E ->]]]]]; rewrite Nat2Z.inj_succ, E; done.
    + apply (skip_enc_len 0xc7 0xc8 0xc9 (zlen d) (u8 t :: d) buf l); try done. unfold zlen. cbn. lia.
Qed.

(** ** Objects *)

Inductive object :=
  | OScalar (i : item)
  | OArray (l : list object)
  | OMap (l : list (object * object)).

Section ObjectInd.
Variable P : object -> Prop.
Hypothesis Hs : forall i, P (OScalar i).
Hypothesis Ha : forall l, Forall P l -> P (OArray l).
Hypothesis Hm : forall l, Forall (fun kv => P kv.1 /\ P kv.2) l -> P (OMap l).

Fixpoint object_ind' (o : object) : P o :=
  match o with
  | OScalar i => Hs i
  | OArray l => Ha l ((fix go l := match l return Forall P l with [] => List.Forall_nil _ | o :: l => List.Forall_cons _ o l (object_ind' o) (go l) end) l)
  | OMap l => Hm l ((fix go l := match l return Forall (fun kv => P kv.1 /\ P kv.2) l with
      | [] => List.Forall_nil _
      | kv :: l => List.Forall_cons (fun kv => P kv.1 /\ P kv.2) kv l (conj (object_ind' kv.1) (object_ind' kv.2)) (go l)
      end) l)
  end.
End ObjectInd.

Fixpoint enc_obj (o : object) : list Z :=
  match o with
  | OScalar i => enc i
  | OArray l => enc (IArray (zlen l)) ++ concat (map enc_obj l)
  | OMap l => enc (IMap (zlen l)) ++ concat (map (fun kv => enc_obj kv.1 ++ enc_obj kv.2) l)
  end.

Inductive obj_ok : object -> Prop :=
  | ok_scalar i : item_ok i -> scalar i -> obj_ok (OScalar i)
  | ok_array l : zlen l < 2 ^ 32 -> Forall obj_ok l -> obj_ok (OArray l)
  | ok_map l : zlen l < 2 ^ 32 -> Forall (fun kv => obj_ok kv.1 /\ obj_ok kv.2) l -> obj_ok (OMap l).

(** The tests of [packmsg_skip_object] on the next header. *)
Definition array_test (h : Z) : bool := (Z.land h 0xf0 =? 0x90) || (h =? 0xdc) || (h =? 0xdd).
Definition map_test (h : Z) : bool := (Z.land h 0xf0 =? 0x80) || (h =? 0xde) || (h =? 0xdf).
Definition plain (h : Z) : bool := negb (array_test h) && negb (map_test h).

Lemma fixint_plain h : 0 <= h < 256 -> fixint h = true -> plain h = true.
Proof.
  intros Hh Hf. pose proof (small_hdr (fun h => negb (fixint h) || plain h) 256 eq_refl h Hh) as H. cbn beta in H. by rewrite Hf in H.
Qed.

Lemma str_plain n : 0 <= n < 32 -> plain (0xa0 + n) = true.
Proof. by apply (small_hdr (fun n => plain (0xa0 + n))). Qed.

Lemma scalar_hdr i : item_ok i -> scalar i -> exists h t, enc i = h :: t /\ plain h = true.
Proof.
  intros Hi Hs. destruct i as [|b|w v|w v|b|b|s|d|t d|n|n]; cbn [item_ok enc] in *; try done; try (by eexists _, _).
  - destruct b; by eexists _, _.
  - unfold enc_int. destruct ((-32 <=? v) && (v <? 128)) eqn:E.
    { ztests. eexists _, _. split; [done|]. apply fixint_plain; [|apply fixint_u8; lia]. unfold u8. apply Z.mod_pos_bound. lia. }
    clear E. repeat destruct (_ && _); by eexists _, _.
  - unfold enc_uint. destruct (Z.ltb_spec v 128).
    { eexists _, _. split; [done|]. apply fixint_plain; [lia|]. apply orb_true_iff. left. apply Z.ltb_lt. lia. }
    repeat destruct (_ <? _); by eexists _, _.
  - pose proof (zlen_nonneg s). unfold enc_len. destruct (Z.ltb_spec (zlen s) 32).
    { eexists _, _. split; [done|]. apply str_plain. lia. }
    repeat destruct (_ <? _); by eexists _, _.
  - unfold enc_len. repeat destruct (_ <? _); by eexists _, _.
  - destruct (fixext _) as [h|] eqn:E.
    { apply fixext_some in E. destruct E as [[_ ->]|[[_ ->]|[[_ ->]|[[_ ->]|[_ ->]]]]]; by eexists _, _. }
    unfold enc_len. repeat destruct (_ <? _); by eexists _, _.
Qed.

Lemma count_hdr h0 h2 h4 n (f : Z -> bool) :
  (forall k, 0 <= k < 16 -> f (h0 + k) = true) -> f h2 = true -> f h4 = true -> 0 <= n -> exists h t, enc_count h0 h2 h4 n = h :: t /\ f h = true.
Proof.
  intros H0 H2 H4 Hn. unfold enc_count. destruct (Z.ltb_spec n 16); [by exists (h0 + n), []; split; [|apply H0]|].
  destruct (_ <? _); by eexists _, _.
Qed.

Lemma array_test_hdr n : 0 <= n -> exists h t, enc (IArray n) = h :: t /\ array_test h = true.
Proof. apply count_hdr; [by apply (small_hdr (fun k => array_test (0x90 + k)))|done|done]. Qed.

Lemma map_test_hdr n : 0 <= n -> exists h t, enc (IMap n) = h :: t /\ negb (array_test h) && map_test h = true.
Proof. apply (count_hdr _ _ _ _ (fun h => negb (array_test h) && map_test h)); [by apply (small_hdr (fun k => negb (array_test (0x80 + k)) && map_test (0x80 + k)))|done|done]. Qed.

Lemma enc_obj_pos o : obj_ok o -> 1 <= zlen (enc_obj o).
Proof.
  intros H. assert (Hp : forall (h : Z) t k, 1 <= zlen ((h :: t) ++ k)) by (intros; unfold zlen; rewrite length_app; cbn; lia).
  destruct H as [i Hi Hs|l Hl _|l Hl _]; cbn [enc_obj].
  - destruct (scalar_hdr i Hi Hs) as (h & t & -> & _). specialize (Hp h t []). by rewrite app_nil_r in Hp.
  - destruct (array_test_hdr (zlen l) (zlen_nonneg l)) as (h & t & -> & _). apply Hp.
  - destruct (map_test_hdr (zlen l) (zlen_nonneg l)) as (h & t & -> & _). apply Hp.
Qed.

(** ** One object, whatever it holds *)

Definition skips (o : object) : Prop :=
  forall fuel buf l, holds buf (enc_obj o ++ l) -> 2 * i_len buf + 4 <= Z.of_nat fuel ->
  packmsg_skip_object fuel buf = Done (adv buf (zlen (enc_obj o))).

Lemma loop_array os : forall fuel buf l,
  Forall obj_ok os -> Forall skips os -> holds buf (concat (map enc_obj os) ++ l) -> 2 * i_len buf + 5 <= Z.of_nat fuel ->
  skip_loop fuel false (zlen os) buf = Done (adv buf (zlen (concat (map enc_obj os)))).
Proof.
  induction os as [|o os IH]; intros [|fuel] buf l Hok Hsk H Hf; try (destruct H as (_ & ? & _); lia).
  { by rewrite adv_0. }
  apply Forall_cons in Hok as [Ho Hok]. apply Forall_cons in Hsk as [So Hsk]. cbn [map concat] in *. rewrite <- app_assoc in H.
  cbn [skip_loop]. pose proof (enc_obj_pos o Ho). assert (Hl : 0 <= i_len buf) by apply H.
  rewrite (proj2 (Z.leb_le _ _) Hl). replace (zlen (o :: os)) with (zlen os + 1) by (unfold zlen; cbn [length]; lia). pose proof (zlen_nonneg os).
  rewrite (proj2 (Z.eqb_neq (zlen os + 1) 0)) by lia. cbn [negb andb]. rewrite (So fuel buf _ H) by lia. cbn [obind].
  rewrite Z.add_simpl_r, (IH fuel _ l Hok Hsk (holds_adv _ _ _ H)) by (cbn; lia). by rewrite adv_adv, zlen_app.
Qed.

Lemma loop_map os : forall fuel buf l,
  Forall (fun kv => obj_ok kv.1 /\ obj_ok kv.2) os -> Forall (fun kv => skips kv.1 /\ skips kv.2) os ->
  holds buf (concat (map (fun kv => enc_obj kv.1 ++ enc_obj kv.2) os) ++ l) -> 2 * i_len buf + 5 <= Z.of_nat fuel ->
  skip_loop fuel true (zlen os) buf = Done (adv buf (zlen (concat (map (fun kv => enc_obj kv.1 ++ enc_obj kv.2) os)))).
Proof.
  induction os as [|[k v] os IH]; intros [|fuel] buf l Hok Hsk H Hf; try (destruct H as (_ & ? & _); lia).
  { by rewrite adv_0. }
  apply Forall_cons in Hok as [[Hk Hv] Hok]. apply Forall_cons in Hsk as [[Sk Sv] Hsk]. cbn [map concat fst snd] in *. rewrite <- !app_assoc in H.
  cbn [skip_loop]. pose proof (enc_obj_pos k Hk). pose proof (enc_obj_pos v Hv). assert (Hl : 0 <= i_len buf) by apply H.
  rewrite (proj2 (Z.leb_le _ _) Hl). replace (zlen ((k, v) :: os)) with (zlen os + 1) by (unfold zlen; cbn [length]; lia). pose proof (zlen_nonneg os).
  rewrite (proj2 (Z.eqb_neq (zlen os + 1) 0)) by lia. cbn [negb andb]. rewrite (Sk fuel buf _ H) by lia. cbn [obind].
  apply holds_adv in H. rewrite (Sv fuel _ _ H) by (cbn; lia). cbn [obind]. apply holds_adv in H.
  rewrite Z.add_simpl_r, (IH fuel _ l Hok Hsk H) by (cbn; lia). by rewrite !adv_adv, !zlen_app, Z.add_assoc.
Qed.

Lemma skip_object_ok o : obj_ok o -> skips o.
Proof.
  induction o as [i|os IH|os IH] using object_ind'; intros Ho [|fuel] buf l H Hf; try (destruct H as (_ & ? & _); lia); inversion Ho; subst;
    cbn [packmsg_skip_object enc_obj] in *; unfold packmsg_is_array, packmsg_is_map, peek.
  - destruct (scalar_hdr i) as (h & t & E & Hp); [done|done|]. assert (Hb : holds buf (h :: t ++ l)) by (by rewrite E in H).
    rewrite (peek_hdr_ok _ _ _ Hb). cbn [obind]. fold (array_test h) (map_test h). unfold plain in Hp. ztests.
    rewrite H0, H3. by apply (skip_element_ok i buf l).
  - destruct (array_test_hdr (zlen os) (zlen_nonneg os)) as (h & t & E & Hp). rewrite <- app_assoc in H.
    rewrite (peek_hdr_ok buf h (t ++ concat (map enc_obj os) ++ l)) by (by rewrite E in H). cbn [obind]. fold (array_test h). rewrite Hp.
    pose proof (zlen_nonneg os). rewrite (get_array_ok buf (zlen os) _ ltac:(lia) H). cbn [obind].
    assert (Forall skips os).
    { apply Forall_forall. intros o Hin. eapply Forall_forall in IH; [|exact Hin]. eapply Forall_forall in H2; [|exact Hin]. auto. }
    assert (1 <= zlen (enc (IArray (zlen os)))) by (rewrite E; unfold zlen; cbn [length]; lia).
    rewrite (loop_array os fuel _ l) by (done || (by apply holds_adv in H) || (cbn [adv i_len]; lia)). by rewrite adv_adv, zlen_app.
  - destruct (map_test_hdr (zlen os) (zlen_nonneg os)) as (h & t & E & Hp). rewrite <- app_assoc in H.
    rewrite (peek_hdr_ok buf h (t ++ concat (map (fun kv => enc_obj kv.1 ++ enc_obj kv.2) os) ++ l)) by (by rewrite E in H). cbn [obind].
    fold (array_test h) (map_test h). ztests. rewrite H0, H3.
    pose proof (zlen_nonneg os). rewrite (get_map_ok buf (zlen os) _ ltac:(lia) H). cbn [obind].
    assert (Forall (fun kv => skips kv.1 /\ skips kv.2) os).
    { apply Forall_forall. intros kv Hin. eapply Forall_forall in IH; [|exact Hin]. eapply Forall_forall in H2; [|exact Hin]. destruct IH, H2. auto. }
    assert (1 <= zlen (enc (IMap (zlen os)))) by (rewrite E; unfold zlen; cbn [length]; lia).
    rewrite (loop_map os fuel _ l) by (done || (by apply holds_adv in H) || (cbn [adv i_len]; lia)). by rewrite adv_adv, zlen_app.
Qed.
