(* ===== verification/PackmsgTheorems.v ===== *)
(** What packmsg.h promises: what is added to a buffer is read back, input of any
    origin is read within its bounds, nested objects are skipped exactly; and where
    the type tests disagree with the functions they announce. *)
From Stdlib Require Import Sorting.Sorted.
From S2P Require Import Prelude Bytes Packmsg PackmsgEncode PackmsgDecode PackmsgSafe PackmsgSkip.

(** ** Encoding and decoding *)

Lemma take_list_write {X} (bs m : list X) : take (length bs) (list_write 0 bs m) = bs.
Proof. unfold list_write. rewrite firstn_O. cbn [app]. by apply take_app_exact. Qed.

Lemma mem_of_bytes_ok m bs : bytes_ok m -> bytes_ok bs -> bytes_ok (list_write 0 bs m).
Proof. intros Hm Hb. unfold list_write. rewrite firstn_O. cbn [app]. apply Forall_app_2; [done|]. by apply Forall_drop. Qed.

Lemma enc_len_ok h1 h2 h4 n : 0 <= h1 < 256 -> 0 <= h2 < 256 -> 0 <= h4 < 256 -> bytes_ok (enc_len h1 h2 h4 n).
Proof. intros. unfold enc_len. repeat destruct (_ <? _); (apply Forall_cons; split; [done|apply le_bytes_ok]). Qed.

Lemma enc_count_ok h0 h2 h4 n : 0 <= n -> 0 <= h0 < 240 -> 0 <= h2 < 256 -> 0 <= h4 < 256 -> bytes_ok (enc_count h0 h2 h4 n).
Proof.
  intros. unfold enc_count. destruct (Z.ltb_spec n 16); [apply Forall_cons; split; [lia|done]|].
  destruct (_ <? _); (apply Forall_cons; split; [done|apply le_bytes_ok]).
Qed.

Lemma u8_byte x : 0 <= u8 x < 256.
Proof. unfold u8. apply Z.mod_pos_bound. lia. Qed.

Lemma enc_ok i : item_ok i -> bytes_ok (enc i).
Proof.
  intros Hi. destruct i as [|b|w v|w v|b|b|s|d|t d|n|n]; cbn [item_ok enc] in *.
  - by apply Forall_singleton.
  - by destruct b; apply Forall_singleton.
  - unfold enc_int. repeat destruct (_ && _); (apply Forall_cons; split; [done || apply u8_byte|done || apply le_bytes_ok]).
  - unfold enc_uint. destruct (Z.ltb_spec v 128); [apply Forall_cons; split; [lia|done]|].
    repeat destruct (_ <? _); (apply Forall_cons; split; [done|apply le_bytes_ok]).
  - apply Forall_cons; split; [done|apply le_bytes_ok].
  - apply Forall_cons; split; [done|apply le_bytes_ok].
  - pose proof (zlen_nonneg s). apply Forall_app_2; [|apply Hi]. destruct (Z.ltb_spec (zlen s) 32); [apply Forall_singleton; lia|by apply enc_len_ok].
  - apply Forall_app_2; [by apply enc_len_ok|apply Hi].
  - apply Forall_app_2; [|apply Forall_cons; split; [apply u8_byte|apply Hi]].
    destruct (fixext _) as [h|] eqn:E; [|by apply enc_len_ok]. apply fixext_some in E. apply Forall_singleton. lia.
  - by apply enc_count_ok; [lia|..].
  - by apply enc_count_ok; [lia|..].
Qed.

Lemma enc_all_ok l : Forall item_ok l -> bytes_ok (enc_all l).
Proof. induction 1 as [|i l Hi Hl IH]; [apply Forall_nil_2|]. apply Forall_app_2; [by apply enc_ok|done]. Qed.

(** C33. Whatever elements a program adds to a buffer of fewer than [2 ^ 32] bytes (the code
    casts the room left to [uint32_t]), the strings of the elements shorter than that as
    well, and if the copies that reading makes can be allocated: either all of them
    are stored, one after the other and each in its shortest form, the rest of the
    buffer is as it was, and reading the elements back with the functions for their
    kinds gives the same elements and ends exactly at the end of the message; or
    they do not fit, the output iterator says so and the message has size 0.  In
    neither case is anything written outside the buffer. *)
Theorem packmsg_round_trip (l : list item) (m : list Z) (al : alloc) (widen : Z -> Z) (junk : Z) :
  Forall item_ok l -> bytes_ok m -> zlen m < 2 ^ 32 -> a_ok al = true ->
  exists out, add_items l (Output m 0 (zlen m)) = Done out /\ zlen (o_mem out) = zlen m /\
    if decide (zlen (enc_all l) <= zlen m) then
      packmsg_output_ok out = true /\ packmsg_output_size out 0 = zlen (enc_all l) /\
      o_mem out = enc_all l ++ drop (length (enc_all l)) m /\
      exists inp, get_items al widen junk l (Input (o_mem out) 0 (packmsg_output_size out 0)) = Done (l, inp) /\ packmsg_done inp = true
    else packmsg_output_ok out = false /\ packmsg_output_size out 0 = 0.
Proof.
  intros Hl Hm Hs Ha. pose proof (zlen_nonneg m) as H0. set (b := Output m 0 (zlen m)). assert (Hw : out_wf b) by (split; cbn; [lia|right; lia|done]).
  destruct (add_items_spec l b Hw Hl) as (out & E & Wo & Zo & H & _). pose proof (zlen_nonneg (enc_all l)).
  specialize (H ltac:(cbn; lia)). change (o_len b) with (zlen m) in H. exists out. splits; [done|done|].
  unfold packmsg_output_size, packmsg_output_ok. destruct (decide _) as [Hle|Hle]; [|by rewrite H]. subst out.
  cbn [put o_len o_ptr o_mem b] in *. change (Z.to_nat 0) with 0%nat in *. rewrite (proj2 (Z.leb_le 0 _)) by lia.
  rewrite Z.add_0_l, Z.sub_0_r, (u64_small (zlen (enc_all l))) by lia. splits; [done|done|done|].
  exists (adv (Input (list_write 0 (enc_all l) m) 0 (zlen (enc_all l))) (zlen (enc_all l))). split.
  - apply (get_items_ok al widen junk l _ []); [done|done|]. rewrite app_nil_r. split; [|split].
    + split; cbn [i_ptr i_len i_mem]; [lia| |by apply mem_of_bytes_ok, enc_all_ok|by rewrite Zo]. right. rewrite Zo. lia.
    + done.
    + unfold rest, slice. cbn [i_ptr i_len i_mem]. change (Z.to_nat 0) with 0%nat. rewrite drop_0.
      unfold zlen. rewrite Nat2Z.id. apply take_list_write.
  - unfold packmsg_done, adv. cbn [i_len]. apply Z.eqb_eq. lia.
Qed.

Lemma packmsg_round_trip_witness :
  exists out, add_items [IMap 1; IStr [105; 100]; IArray 3; IInt W32 (-70000); IUint W16 300; INil] (Output (replicate 20 7) 0 20) = Done out /\
    packmsg_output_size out 0 = 14 /\
    exists inp, get_items (Alloc true (fun _ => 0)) id 0 [IMap 1; IStr [105; 100]; IArray 3; IInt W32 (-70000); IUint W16 300; INil]
      (Input (o_mem out) 0 (packmsg_output_size out 0)) =
      Done ([IMap 1; IStr [105; 100]; IArray 3; IInt W32 (-70000); IUint W16 300; INil], inp) /\ packmsg_done inp = true.
Proof.
  destruct (packmsg_round_trip [IMap 1; IStr [105; 100]; IArray 3; IInt W32 (-70000); IUint W16 300; INil] (replicate 20 7)
    (Alloc true (fun _ => 0)) id 0) as (out & E & Z & H).
  - repeat constructor; cbn; lia.
  - by repeat constructor.
  - done.
  - done.
  - exists out. rewrite decide_True in H by (vm_compute; discriminate). destruct H as (_ & H1 & _ & H2). split; [exact E|]. split; [rewrite H1; reflexivity|exact H2].
Defined.

(** ** Input of any origin *)

(** The functions a program can call on an input iterator. *)
Inductive call :=
  | CGet (i : item)
  | CStrRaw | CStrCopy (dlen : Z) | CBinRaw | CBinCopy (rlen : Z) | CExtRaw | CExtCopy (rlen : Z)
  | CIs (test : packmsg_input_t -> outcome bool) | CType | CSkipElement | CSkipObject.

(** The type tests of packmsg.h. *)
Definition tests_of_header : list (packmsg_input_t -> outcome bool) :=
  [packmsg_is_nil; packmsg_is_bool; packmsg_is_int8; packmsg_is_int16; packmsg_is_int32; packmsg_is_int64; packmsg_is_uint8;
   packmsg_is_uint16; packmsg_is_uint32; packmsg_is_uint64; packmsg_is_float; packmsg_is_double; packmsg_is_str; packmsg_is_bin;
   packmsg_is_ext; packmsg_is_map; packmsg_is_array].

Definition call_ok (c : call) : Prop :=
  match c with
  | CStrCopy n | CBinCopy n | CExtCopy n => 0 <= n < 2 ^ 32
  | CIs t => t ∈ tests_of_header
  | _ => True
  end.

Definition skip_fuel (buf : packmsg_input_t) : nat := Z.to_nat (2 * i_len buf + 4).

(** The iterator after the call; a caller that wants a copy has an object of the
    size it passes. *)
Definition run_call (al : alloc) (widen : Z -> Z) (junk : Z) (c : call) (buf : packmsg_input_t) : outcome packmsg_input_t :=
  match c with
  | CGet i => let* (_, buf) := get_item al widen junk i buf in Done buf
  | CStrRaw => let* (_, buf) := packmsg_get_str_raw buf in Done buf
  | CStrCopy n => let* (_, buf) := packmsg_get_str_copy buf (mem_fresh al 0 n) n in Done buf
  | CBinRaw => let* (_, buf) := packmsg_get_bin_raw buf in Done buf
  | CBinCopy n => let* (_, buf) := packmsg_get_bin_copy buf (mem_fresh al 0 n) n in Done buf
  | CExtRaw => let* (_, buf) := packmsg_get_ext_raw buf in Done buf
  | CExtCopy n => let* (_, buf) := packmsg_get_ext_copy buf (mem_fresh al 0 n) n in Done buf
  | CIs t => let* _ := t buf in Done buf
  | CType => let* _ := packmsg_get_type buf in Done buf
  | CSkipElement => packmsg_skip_element buf
  | CSkipObject => packmsg_skip_object (skip_fuel buf) buf
  end.

Definition takes_element (c : call) : bool := match c with CIs _ | CType => false | _ => true end.

Fixpoint run_calls (al : alloc) (widen : Z -> Z) (junk : Z) (cs : list call) (buf : packmsg_input_t) : outcome (list packmsg_input_t) :=
  match cs with
  | [] => Done []
  | c :: cs =>
      let* buf := run_call al widen junk c buf in
      let* bufs := run_calls al widen junk cs buf in
      Done (buf :: bufs)
  end.

Lemma get_item_safe al widen junk i buf : in_wf buf -> returns (get_item al widen junk i buf) (fun r => consumes buf r.2).
Proof.
  intros Hw. assert (Ht : forall (get : packmsg_input_t -> outcome (Z * packmsg_input_t)) P (mk : Z -> item), takes get P ->
    returns (let* (v, b) := get buf in Done (mk v, b)) (fun r => consumes buf r.2)).
  { intros get P mk Hg. eapply returns_bind; [by apply Hg|]. by intros [v b] [Hc _]. }
  destruct i as [|b|w v|w v|b|b|s|d|t d|n|n]; cbn [get_item].
  - eapply returns_bind; [by apply get_nil_safe|]. done.
  - eapply returns_bind; [by apply get_bool_takes|]. by intros [v b'] [Hc _].
  - destruct w; eapply Ht; [apply get_int8_takes|apply get_int16_takes|apply get_int32_takes|apply get_int64_takes].
  - destruct w; eapply Ht; [apply get_uint8_takes|apply get_uint16_takes|apply get_uint32_takes|apply get_uint64_takes].
  - eapply returns_bind; [by apply get_float_safe|]. by intros [v b'] [Hc _].
  - eapply returns_bind; [by apply get_double_safe|]. by intros [v b'] Hc.
  - eapply returns_bind; [by apply get_str_dup_safe|]. by intros [v b'] Hc.
  - eapply returns_bind; [by apply get_bin_dup_safe|]. by intros [[v n] b'] Hc.
  - eapply returns_bind; [by apply get_ext_dup_safe|]. by intros [[[t' v] n] b'] Hc.
  - eapply Ht, get_map_takes.
  - eapply Ht, get_array_takes.
Qed.

Lemma fresh_size al n : 0 <= n -> n = zlen (mem_fresh al 0 n).
Proof. rewrite zlen_fresh. lia. Qed.

Lemma test_safe t buf : t ∈ tests_of_header -> in_wf buf -> returns (t buf) (fun _ => True).
Proof.
  intros Ht Hw. unfold tests_of_header in Ht. repeat (apply elem_of_cons in Ht as [->|Ht]; [by apply peek_safe|]). by apply not_elem_of_nil in Ht.
Qed.

Lemma read_call_safe al widen junk c buf :
  in_wf buf -> call_ok c -> returns (run_call al widen junk c buf) (fun b => if takes_element c then consumes buf b else b = buf).
Proof.
  intros Hw Hc. destruct c as [i| |n| |n| |n|t| | |]; cbn [run_call takes_element call_ok] in *.
  - eapply returns_bind; [by apply get_item_safe|]. by intros [v b] H.
  - eapply returns_bind; [by apply get_str_raw_safe|]. by intros [[p n] b] [H _].
  - rewrite (fresh_size al n) at 2 by lia. eapply returns_bind; [by apply get_str_copy_safe|]. by intros [[k m] b] [H _].
  - eapply returns_bind; [by apply get_bin_raw_safe|]. by intros [[p n] b] [H _].
  - rewrite (fresh_size al n) at 2 by lia. eapply returns_bind; [by apply get_bin_copy_safe|]. by intros [[k m] b] [H _].
  - eapply returns_bind; [by apply get_ext_raw_safe|]. by intros [[[t p] n] b] [H _].
  - rewrite (fresh_size al n) at 2 by lia. eapply returns_bind; [by apply get_ext_copy_safe|]. by intros [[[t k] m] b] [H _].
  - eapply returns_bind; [by apply test_safe|]. done.
  - eapply returns_bind; [by apply get_type_safe|]. done.
  - by apply skip_element_safe.
  - apply (skip_safe (skip_fuel buf)); [done|]. unfold skip_fuel. destruct (iw_len _ Hw); lia.
Qed.

Lemma sorted_cons_shrinks a b l : shrinks a b -> StronglySorted shrinks (b :: l) -> StronglySorted shrinks (a :: b :: l).
Proof.
  intros H Hs. constructor; [done|]. apply StronglySorted_inv in Hs as [_ Hf]. constructor; [done|].
  eapply Forall_impl; [exact Hf|]. intros c Hc. by eapply shrinks_then.
Qed.

Definition elements_taken (cs : list call) : Z := zlen (List.filter takes_element cs).

Lemma read_calls_safe al widen junk cs : forall buf,
  in_wf buf -> Forall call_ok cs ->
  exists bufs, run_calls al widen junk cs buf = Done bufs /\ StronglySorted shrinks (buf :: bufs) /\
    i_len (List.last bufs buf) <= Z.max (-1) (i_len buf - elements_taken cs).
Proof.
  induction cs as [|c cs IH]; intros buf Hw Hcs.
  { exists []. change (elements_taken []) with 0. cbn [List.last]. splits; [done|apply SSorted_cons; [apply SSorted_nil|apply List.Forall_nil]|lia]. }
  apply Forall_cons in Hcs as [Hc Hcs]. cbn [run_calls].
  pose proof (read_call_safe al widen junk c buf Hw Hc) as H. destruct (run_call al widen junk c buf) as [b|]; [|done]. cbn [returns obind] in *.
  assert (Hs : shrinks buf b). { destruct (takes_element c); [apply H|]. subst b. by apply shrinks_refl. }
  destruct (IH b (sh_wf _ _ Hs) Hcs) as (bufs & -> & Hsort & Hlast). cbn [obind]. exists (b :: bufs). splits; [done|by apply sorted_cons_shrinks|].
  replace (List.last (b :: bufs) buf) with (List.last bufs b) by (clear; revert b; induction bufs as [|x bufs IH]; intros b; [done|]; cbn [List.last] in *; destruct bufs; [done|apply IH]).
  unfold elements_taken in *. cbn [List.filter]. pose proof (iw_len _ (sh_wf _ _ Hs)). pose proof (iw_len _ Hw).
  destruct (takes_element c); [|subst b; done]. destruct H as [_ Hlt]. replace (zlen (c :: _)) with (zlen (List.filter takes_element cs) + 1) by (unfold zlen; cbn [length]; lia). pose proof (sh_len _ _ Hs). pose proof (zlen_nonneg (List.filter takes_element cs)). lia.
Qed.

(** C34. Input of any origin, read with any sequence of the functions that take an
    element, skip one or test the next one: every call returns without having left the
    input or an object of the caller's; the iterator stays within the input and
    its end never moves, an error stays, and every call that takes an element takes at
    least one byte or fails, so that after more such calls than there are bytes the
    iterator says that there was an error. *)
Theorem packmsg_decoder_safe (m : list Z) (cs : list call) (al : alloc) (widen : Z -> Z) (junk : Z) :
  bytes_ok m -> zlen m < 2 ^ 32 -> Forall call_ok cs ->
  exists bufs, run_calls al widen junk cs (Input m 0 (zlen m)) = Done bufs /\
    StronglySorted shrinks (Input m 0 (zlen m) :: bufs) /\
    (zlen m < elements_taken cs -> packmsg_input_ok (List.last bufs (Input m 0 (zlen m))) = false).
Proof.
  intros Hm Hs Hcs. pose proof (zlen_nonneg m). assert (Hw : in_wf (Input m 0 (zlen m))) by (split; cbn; [lia|right; lia|done|done]).
  destruct (read_calls_safe al widen junk cs _ Hw Hcs) as (bufs & E & Hsort & Hl). exists bufs. splits; [done|done|].
  intros Ht. unfold packmsg_input_ok. apply Z.leb_gt. cbn [i_len] in Hl. lia.
Qed.

Lemma packmsg_decoder_safe_witness :
  exists bufs, run_calls (Alloc true (fun _ => 0)) id 0 [CType; CSkipObject; CIs packmsg_is_str; CGet (IStr []); CStrCopy 4; CGet (IInt W8 0)]
    (Input [0x92; 0x90; 0xd9; 0x02; 0x41; 0x42; 0xa5] 0 7) = Done bufs /\
    List.Forall (fun b => i_len b = 7 \/ i_len b = 1 \/ i_len b = -1) bufs.
Proof.
  destruct (packmsg_decoder_safe [0x92; 0x90; 0xd9; 0x02; 0x41; 0x42; 0xa5]
    [CType; CSkipObject; CIs packmsg_is_str; CGet (IStr []); CStrCopy 4; CGet (IInt W8 0)] (Alloc true (fun _ => 0)) id 0) as (bufs & E & _).
  - repeat constructor; lia.
  - done.
  - repeat constructor; cbn; try lia.
  - exists bufs. split; [exact E|]. vm_compute in E. injection E as <-. repeat constructor; cbn; lia.
Defined.

(** ** Skipping *)

Lemma enc_obj_ok o : obj_ok o -> bytes_ok (enc_obj o).
Proof.
  assert (Hc : forall (A : Type) (f : A -> list Z) (l : list A), Forall (fun x => bytes_ok (f x)) l -> bytes_ok (concat (map f l))).
  { intros A f l. induction 1; [apply Forall_nil_2|]. by apply Forall_app_2. }
  induction o as [i|os IH|os IH] using object_ind'; intros Ho; inversion Ho as [? Hi Hs|? Hl Hf|? Hl Hf]; subst; cbn [enc_obj].
  - by apply enc_ok.
  - pose proof (zlen_nonneg os). apply Forall_app_2; [apply enc_ok; cbn; lia|]. apply Hc. apply Forall_forall. intros o Hin.
    eapply Forall_forall in IH; [|exact Hin]. eapply Forall_forall in Hf; [|exact Hin]. by apply IH.
  - pose proof (zlen_nonneg os). apply Forall_app_2; [apply enc_ok; cbn; lia|]. apply (Hc _ (fun kv => enc_obj kv.1 ++ enc_obj kv.2)).
    apply Forall_forall. intros kv Hin. eapply Forall_forall in IH; [|exact Hin]. eapply Forall_forall in Hf; [|exact Hin].
    destruct IH as [I1 I2], Hf as [F1 F2]. apply Forall_app_2; [by apply I1|by apply I2].
Qed.

(** C35. [packmsg_skip_object] moves past exactly one object: over a scalar, an array or
    a map with everything that is nested in it, to any depth, wherever in the
    message the object is and whatever follows it. *)
Theorem packmsg_skip_object_exact (o : object) (before after : list Z) (fuel : nat) :
  obj_ok o -> bytes_ok before -> bytes_ok after -> zlen (before ++ enc_obj o ++ after) < 2 ^ 32 ->
  (skip_fuel (Input (before ++ enc_obj o ++ after) (zlen before) (zlen (enc_obj o ++ after))) <= fuel)%nat ->
  packmsg_skip_object fuel (Input (before ++ enc_obj o ++ after) (zlen before) (zlen (enc_obj o ++ after))) =
  Done (Input (before ++ enc_obj o ++ after) (zlen (before ++ enc_obj o)) (zlen after)).
Proof.
  intros Ho Hb Ha Hs Hf. pose proof (zlen_nonneg before). pose proof (zlen_nonneg (enc_obj o ++ after)). rewrite zlen_app in Hs.
  unfold skip_fuel in Hf. cbn [i_len] in Hf. rewrite (skip_object_ok o Ho fuel _ after).
  - unfold adv. cbn [i_mem i_ptr i_len]. by rewrite !zlen_app, Z.add_simpl_l.
  - split; [split|split]; cbn [i_mem i_ptr i_len].
    + done.
    + right. rewrite (zlen_app before). lia.
    + apply Forall_app_2; [done|]. apply Forall_app_2; [by apply enc_obj_ok|done].
    + by rewrite zlen_app.
    + done.
    + unfold rest, slice. cbn [i_mem i_ptr i_len]. unfold zlen. rewrite !Nat2Z.id, drop_app_exact by done. apply firstn_all.
  - cbn [i_len]. lia.
Qed.

Lemma packmsg_skip_object_exact_witness :
  packmsg_skip_object 30 (Input [7; 0x82; 0xa1; 65; 0x92; 1; 0xc0; 2; 0x90; 9] 1 9) =
    Done (Input [7; 0x82; 0xa1; 65; 0x92; 1; 0xc0; 2; 0x90; 9] 9 1).
Proof.
  apply (packmsg_skip_object_exact
    (OMap [(OScalar (IStr [65]), OArray [OScalar (IUint W8 1); OScalar INil]); (OScalar (IInt W8 2), OArray [])]) [7] [9] 30).
  - repeat (constructor; cbn; try lia).
  - repeat constructor; lia.
  - repeat constructor; lia.
  - reflexivity.
  - vm_compute. lia.
Defined.

(** [packmsg_skip_object] ends on input of any origin, and within a number of nested
    calls and loop steps that is linear in the bytes that are left, whatever counts
    the headers of arrays and maps claim. *)
Theorem packmsg_skip_object_ends (m : list Z) (p : Z) (fuel : nat) :
  bytes_ok m -> 0 <= p <= zlen m -> zlen m < 2 ^ 32 -> 2 * (zlen m - p) + 4 <= Z.of_nat fuel ->
  exists buf, packmsg_skip_object fuel (Input m p (zlen m - p)) = Done buf /\ i_len buf < zlen m - p.
Proof.
  intros Hm Hp Hs Hf. assert (Hw : in_wf (Input m p (zlen m - p))) by (split; cbn; [lia|right; lia|done|done]).
  pose proof (proj1 (skip_safe fuel) _ Hw Hf) as H. apply returns_done in H as (buf & E & _ & Hlt). exists buf. split; [done|]. apply Hlt. cbn. lia.
Qed.

Lemma packmsg_skip_object_ends_witness :
  exists buf, packmsg_skip_object 16 (Input [0xdd; 0xff; 0xff; 0xff; 0xff; 0x91] 0 6) = Done buf /\ i_len buf < 6.
Proof.
  apply (packmsg_skip_object_ends [0xdd; 0xff; 0xff; 0xff; 0xff; 0x91] 0 16).
  - repeat constructor; lia.
  - vm_compute. intuition discriminate.
  - reflexivity.
  - vm_compute. intuition discriminate.
Defined.

(** ** The type tests *)

(** The tests for signed integers do not know the short form of the negative numbers
    down to -32: every such number is stored by [packmsg_add_int8] in one byte that
    [packmsg_get_int8] to [packmsg_get_int64] read back, and of which
    [packmsg_is_int8] to [packmsg_is_int64] all say that it is not an integer. *)
Theorem packmsg_is_int_misses_negative (v : Z) :
  -32 <= v < 0 ->
  let b := Input [u8 v] 0 1 in
  packmsg_add_int8 (Output [0] 0 1) v = Done (Output [u8 v] 1 0) /\
  (forall get, get ∈ [packmsg_get_int8; packmsg_get_int16; packmsg_get_int32; packmsg_get_int64] -> get b = Done (v, Input [u8 v] 1 0)) /\
  (forall test, test ∈ [packmsg_is_int8; packmsg_is_int16; packmsg_is_int32; packmsg_is_int64] -> test b = Done false).
Proof.
  intros Hv b. assert (E : forallb (fun n => let v := n - 32 in (0xe0 <=? u8 v) && (s8 (u8 v) =? v) && fixint (u8 v)) (seqZ 0 32) = true) by reflexivity.
  pose proof (small_hdr _ _ E (v + 32) ltac:(lia)) as H. cbn zeta beta in H. rewrite Z.add_simpl_r in H. ztests. pose proof (u8_byte v). splits.
  - unfold packmsg_add_int8. by rewrite (proj2 (Z.leb_le _ _)) by lia.
  - intros get Hg. assert (Hr : packmsg_read_hdr_ b = Done (u8 v, Input [u8 v] 1 0)) by reflexivity.
    repeat (apply elem_of_cons in Hg as [->|Hg];
      [unfold packmsg_get_int8, packmsg_get_int16, packmsg_get_int32, packmsg_get_int64; rewrite Hr; cbn [obind]; by rewrite H0, H1|]). by apply not_elem_of_nil in Hg.
  - intros test Ht. assert (Hn : forall k, k < 0xe0 -> (u8 v =? k) = false) by (intros; apply Z.eqb_neq; lia).
    assert (Hr : packmsg_peek_hdr_ b = Done (u8 v)) by reflexivity.
    repeat (apply elem_of_cons in Ht as [->|Ht];
      [unfold packmsg_is_int8, packmsg_is_int16, packmsg_is_int32, packmsg_is_int64, peek; rewrite Hr; cbn [obind]; rewrite (proj2 (Z.ltb_ge _ _)), !Hn by lia; done|]).
    by apply not_elem_of_nil in Ht.
Qed.

Lemma packmsg_is_int_misses_negative_witness :
  packmsg_get_int8 (Input [0xff] 0 1) = Done (-1, Input [0xff] 1 0) /\ packmsg_is_int8 (Input [0xff] 0 1) = Done false.
Proof.
  destruct (packmsg_is_int_misses_negative (-1) ltac:(lia)) as (_ & Hg & Ht).
  split; [apply (Hg packmsg_get_int8); left|apply (Ht packmsg_is_int8); left].
Defined.

(** The test for binary data takes the header 0xc7 of an extension for one. *)
Lemma packmsg_is_bin_takes_ext n d :
  packmsg_is_bin (Input (0xc7 :: n :: d) 0 (2 + zlen d)) = Done true /\
  packmsg_get_bin_raw (Input (0xc7 :: n :: d) 0 (2 + zlen d)) = Done (None, 0, Input (0xc7 :: n :: d) 1 (-1)).
Proof.
  pose proof (zlen_nonneg d). unfold packmsg_is_bin, peek, packmsg_peek_hdr_, packmsg_get_bin_raw, packmsg_read_hdr_. cbn [i_len i_mem i_ptr].
  rewrite (proj2 (Z.ltb_lt _ _)) by lia. rewrite mem_read_ok; [done|lia|lia|]. unfold zlen. cbn [length]. lia.
Qed.
