(* ===== verification/HashTable.v ===== *)
(** The hash table of src/src/hash.c, which caches the node behind a UDP address.

    A key is the bytes behind the caller's pointer, a value a pointer ([None] is
    NULL).  Every slot has room for one key: a new key takes the slot of the old
    one, so that the table is a direct-mapped cache.  The allocation functions of
    xalloc.h never fail (they abort), so the model has no failed allocation. *)
From S2P Require Import Prelude Bytes.

Section HashTable.
Context {P : Type}.

Record hash_t := Hash { h_n : Z; h_size : Z; h_keys : list Z; h_values : list (option P) }.

(** [for(int i = ...; --i;)] with what is left of the key at [q]. *)
Fixpoint hash_bytes (fuel : nat) (q : list Z) (len i hash : Z) : outcome Z :=
  match fuel with
  | O => Stop OutOfFuel
  | S fuel =>
      let i := i - 1 in
      if i =? 0 then Done hash
      else
        let* b := mem_read q (len - i) 1 in
        hash_bytes fuel q len i (u32 (hash + Z.shiftl (default 0 (head b)) (8 * i)))
  end.

(** [while(true)]. *)
Fixpoint hash_loop (fuel : nat) (q : list Z) (len hash : Z) : outcome Z :=
  match fuel with
  | O => Stop OutOfFuel
  | S fuel =>
      let* hash := hash_bytes 5 q len (if 4 <? len then 4 else len) hash in
      let hash := u32 (hash * 0x9e370001) in
      if len <=? 4 then Done hash else hash_loop fuel q (len - 4) hash
  end.

(** Generic hash function *)
Definition hash_function (p : list Z) (len : Z) : outcome Z := hash_loop (S (Z.to_nat len)) p len 0.

(** Map 32 bits int onto 0..n-1, without throwing away too many bits if n is 2^8 or 2^16 *)
Definition modulo (hash n : Z) : outcome Z :=
  if n =? 0x100 then
    Done (Z.lxor (Z.lxor (Z.lxor (Z.shiftr hash 24) (Z.land (Z.shiftr hash 16) 0xff)) (Z.land (Z.shiftr hash 8) 0xff)) (Z.land hash 0xff))
  else if n =? 0x10000 then Done (Z.lxor (Z.shiftr hash 16) (Z.land hash 0xffff))
  else if n =? 0 then Stop DivByZero
  else Done (u32 (hash mod n)).

(** (De)allocation *)
Definition hash_alloc (n size : Z) : hash_t :=
  Hash n size (replicate (Z.to_nat (u64 (n * size))) 0) (replicate (Z.to_nat n) None).

(** The slot of a key. *)
Definition hash_slot (h : hash_t) (key : list Z) : outcome Z :=
  let* f := hash_function key (h_size h) in modulo f (h_n h).

(** [hash->values[i]]. *)
Definition get_value (h : hash_t) (i : Z) : outcome (option P) :=
  match h_values h !! Z.to_nat i with Some v => Done v | None => Stop OutOfBounds end.

(** [memcpy] of the key and [hash->values[i] = value]. *)
Definition put_slot (h : hash_t) (i : Z) (key : list Z) (value : option P) : outcome hash_t :=
  let* k := mem_read key 0 (h_size h) in
  let* keys := mem_write (h_keys h) (u64 (i * h_size h)) k in
  if i <? zlen (h_values h) then Done (Hash (h_n h) (h_size h) keys (<[Z.to_nat i := value]> (h_values h)))
  else Stop OutOfBounds.

(** [!memcmp(key, hash->keys + i * hash->size, hash->size)]. *)
Definition same_key (h : hash_t) (i : Z) (key : list Z) : outcome bool :=
  let* a := mem_read key 0 (h_size h) in
  let* b := mem_read (h_keys h) (u64 (i * h_size h)) (h_size h) in
  Done (bool_decide (a = b)).

Definition hash_insert (h : hash_t) (key : list Z) (value : option P) : outcome hash_t :=
  let* i := hash_slot h key in
  put_slot h i key value.

(** The value in slot [i] when it is there for [key]. *)
Definition found_at (h : hash_t) (i : Z) (key : list Z) : outcome (option P) :=
  let* v := get_value h i in
  match v with
  | Some _ => let* same := same_key h i key in Done (if same : bool then v else None)
  | None => Done None
  end.

Definition hash_search (h : hash_t) (key : list Z) : outcome (option P) :=
  let* i := hash_slot h key in
  found_at h i key.

Definition hash_search_or_insert (h : hash_t) (key : list Z) (value : option P) : outcome (option P * hash_t) :=
  let* i := hash_slot h key in
  let* v := found_at h i key in
  match v with
  | Some _ => Done (v, h)
  | None => let* h := put_slot h i key value in Done (None, h)
  end.

Definition hash_clear (h : hash_t) : hash_t := Hash (h_n h) (h_size h) (h_keys h) (replicate (length (h_values h)) None).

(** What [xrealloc] and [memset] leave; the new values of a grown table are NULL. *)
Definition hash_resize (h : hash_t) (n : Z) : hash_t :=
  let keep {X} k (l : list X) (x : X) := take k l ++ replicate (k - length l) x in
  Hash (h_n h) (h_size h) (keep (Z.to_nat (n * h_size h)) (h_keys h) 0) (keep (Z.to_nat n) (h_values h) None).

(** ** The hash function *)

Lemma hash_bytes_ok q len : 1 <= len <= zlen q ->
  forall fuel i hash, 1 <= i <= Z.min 4 len -> i <= Z.of_nat fuel -> 0 <= hash < 2 ^ 32 ->
  returns (hash_bytes fuel q len i hash) (fun h => 0 <= h < 2 ^ 32).
Proof.
  intros Hlen fuel. induction fuel as [|fuel IH]; intros i hash Hi Hf Hh; [lia|]. cbn [hash_bytes]. destruct (Z.eqb_spec (i - 1) 0); [done|].
  rewrite mem_read_ok by lia. cbn [obind]. apply IH; [lia|lia|]. apply u32_range.
Qed.

Lemma hash_loop_ok fuel : forall q len hash,
  1 <= len <= zlen q -> len <= Z.of_nat fuel -> 0 <= hash < 2 ^ 32 -> returns (hash_loop fuel q len hash) (fun h => 0 <= h < 2 ^ 32).
Proof.
  induction fuel as [|fuel IH]; intros q len hash Hlen Hf Hh; [lia|]. cbn [hash_loop].
  eapply returns_bind; [apply hash_bytes_ok; [done|destruct (Z.ltb_spec 4 len); lia|destruct (Z.ltb_spec 4 len); lia|done]|].
  intros h Hr. cbn beta in Hr. destruct (Z.leb_spec len 4); [apply u32_range|]. apply IH; [lia|lia|apply u32_range].
Qed.

Lemma hash_function_ok p len : 1 <= len <= zlen p -> returns (hash_function p len) (fun h => 0 <= h < 2 ^ 32).
Proof. intros H. apply hash_loop_ok; lia. Qed.

Lemma modulo_ok hash n : 0 <= hash < 2 ^ 32 -> 1 <= n -> returns (modulo hash n) (fun i => 0 <= i < n).
Proof.
  intros Hh Hn. unfold modulo. rewrite (land_mask _ 8 0xff), (land_mask _ 8 0xff), (land_mask _ 8 0xff), (land_mask _ 16 0xffff), !shiftr_div by (done || lia).
  destruct (Z.eqb_spec n 0x100) as [->|]; [|destruct (Z.eqb_spec n 0x10000) as [->|]].
  - assert (0 <= hash / 2 ^ 24 < 2 ^ 8) by (split; [apply Z.div_pos; lia|apply Z.div_lt_upper_bound; lia]).
    cbn [returns]. change 0x100 with (2 ^ 8). repeat apply lxor_range; try done; try apply Z.mod_pos_bound; lia.
  - assert (0 <= hash / 2 ^ 16 < 2 ^ 16) by (split; [apply Z.div_pos; lia|apply Z.div_lt_upper_bound; lia]).
    cbn [returns]. change 0x10000 with (2 ^ 16). apply lxor_range; [lia|done|apply Z.mod_pos_bound; lia].
  - destruct (Z.eqb_spec n 0); [lia|]. cbn [returns]. pose proof (Z.mod_pos_bound hash n ltac:(lia)). pose proof (Z.mod_le hash n ltac:(lia) ltac:(lia)).
    rewrite u32_small; lia.
Qed.

(** ** A direct-mapped cache *)

Record hash_wf (h : hash_t) : Prop := {
  hw_n : 1 <= h_n h;
  hw_size : 1 <= h_size h;
  hw_keys : zlen (h_keys h) = h_n h * h_size h;
  hw_values : zlen (h_values h) = h_n h;
  hw_fits : h_n h * h_size h < 2 ^ 64;
}.

(** The key in slot [i]. *)
Definition key_at (h : hash_t) (i : Z) : list Z := slice (Z.to_nat (i * h_size h)) (Z.to_nat (h_size h)) (h_keys h).
Definition value_at (h : hash_t) (i : Z) : option P := default None (h_values h !! Z.to_nat i).

(** The slot a key goes to, by the table's geometry alone. *)
Definition slot_of (n size : Z) (key : list Z) : Z :=
  match (let* f := hash_function key size in modulo f n) with Done i => i | Stop _ => 0 end.

Lemma slot_ok h key : hash_wf h -> zlen key = h_size h ->
  hash_slot h key = Done (slot_of (h_n h) (h_size h) key) /\ 0 <= slot_of (h_n h) (h_size h) key < h_n h.
Proof.
  intros [] Hk. unfold hash_slot, slot_of.
  assert (H : returns (let* f := hash_function key (h_size h) in modulo f (h_n h)) (fun i => 0 <= i < h_n h)).
  { eapply returns_bind; [apply hash_function_ok; lia|]. intros f Hf. by apply modulo_ok. }
  by destruct (obind _ _).
Qed.

(** The specification: what every slot holds. *)
Definition cache := Z -> option (list Z * P).

Definition cache_search (slot : list Z -> Z) (c : cache) (key : list Z) : option P :=
  match c (slot key) with Some (k, v) => if decide (k = key) then Some v else None | None => None end.

(** Storing NULL empties the slot. *)
Definition cache_insert (slot : list Z -> Z) (c : cache) (key : list Z) (value : option P) : cache :=
  fun i => if decide (i = slot key) then (fun v => (key, v)) <$> value else c i.

(** The table [h] stands for the cache [c]. *)
Definition caches (h : hash_t) (c : cache) : Prop :=
  forall i, 0 <= i < h_n h ->
  match value_at h i with Some v => c i = Some (key_at h i, v) | None => c i = None end.

Lemma fits h i : hash_wf h -> 0 <= i < h_n h -> u64 (i * h_size h) = i * h_size h /\ i * h_size h + h_size h <= zlen (h_keys h).
Proof. intros [] Hi. rewrite u64_small by nia. nia. Qed.

Lemma get_value_ok h i : hash_wf h -> 0 <= i < h_n h -> get_value h i = Done (value_at h i).
Proof.
  intros [] Hi. unfold get_value, value_at. destruct (h_values h !! Z.to_nat i) as [v|] eqn:E; [done|].
  apply lookup_ge_None in E. unfold zlen in *. lia.
Qed.

Lemma whole_key h key : hash_wf h -> zlen key = h_size h -> mem_read key 0 (h_size h) = Done key.
Proof.
  intros [] Hk. rewrite mem_read_ok by lia. cbn [Z.to_nat]. rewrite drop_0, firstn_all2; [done|]. unfold zlen in *. lia.
Qed.

Lemma same_key_ok h i key : hash_wf h -> 0 <= i < h_n h -> zlen key = h_size h -> same_key h i key = Done (bool_decide (key = key_at h i)).
Proof.
  intros Hw Hi Hk. unfold same_key. rewrite (whole_key h key Hw Hk). cbn [obind]. destruct (fits h i Hw Hi) as [-> Hf].
  rewrite mem_read_ok; [done|destruct Hw; nia|destruct Hw; lia|done].
Qed.

Lemma found_at_ok h c i key :
  hash_wf h -> caches h c -> 0 <= i < h_n h -> zlen key = h_size h ->
  found_at h i key = Done (match c i with Some (k, v) => if decide (k = key) then Some v else None | None => None end).
Proof.
  intros Hw Hc Hi Hk. unfold found_at. rewrite (get_value_ok h i Hw Hi). cbn [obind]. specialize (Hc i Hi). destruct (value_at h i) as [v|]; [|by rewrite Hc].
  rewrite (same_key_ok h i key Hw Hi Hk), Hc. cbn [obind]. destruct (bool_decide_reflect (key = key_at h i)) as [E|E].
  - by destruct (decide (key_at h i = key)).
  - by destruct (decide (key_at h i = key)).
Qed.

Lemma put_slot_ok h i key value :
  hash_wf h -> 0 <= i < h_n h -> zlen key = h_size h ->
  exists h', put_slot h i key value = Done h' /\ hash_wf h' /\ h_n h' = h_n h /\ h_size h' = h_size h /\
    key_at h' i = key /\ value_at h' i = value /\
    forall j, 0 <= j < h_n h -> j <> i -> key_at h' j = key_at h j /\ value_at h' j = value_at h j.
Proof.
  intros Hw Hi Hk. unfold put_slot. rewrite (whole_key h key Hw Hk). cbn [obind]. destruct (fits h i Hw Hi) as [-> Hf].
  assert (0 <= i * h_size h) by (destruct Hw; nia). rewrite mem_write_ok by lia. cbn [obind].
  rewrite (proj2 (Z.ltb_lt _ _)) by (destruct Hw; lia). eexists. split; [done|].
  fold (list_write (Z.to_nat (i * h_size h)) key (h_keys h)).
  assert (Hl : (Z.to_nat (i * h_size h) + length key <= length (h_keys h))%nat) by (unfold zlen in *; lia).
  assert (Hv : (Z.to_nat i < length (h_values h))%nat) by (destruct Hw; unfold zlen in *; lia). splits; cbn [h_n h_size]; try done.
  - destruct Hw. split; cbn [h_n h_size h_keys h_values]; try done.
    + unfold zlen in *. by rewrite length_list_write.
    + unfold zlen in *. by rewrite length_insert.
  - unfold key_at. cbn [h_size h_keys]. apply list_eq_lookup.
    + rewrite length_slice, length_list_write by done. unfold zlen in *. lia.
    + intros j Hj. rewrite length_slice, length_list_write in Hj by done. rewrite lookup_slice, lookup_list_write by done.
      destruct (decide _) as [?|]; [|lia]. destruct (decide _); [f_equal; lia|unfold zlen in *; lia].
  - unfold value_at. cbn [h_values]. by rewrite list_lookup_insert_eq by done.
  - intros j Hj Hne. unfold key_at, value_at. cbn [h_size h_keys h_values]. split; [|by rewrite list_lookup_insert_ne by lia].
    apply list_eq_lookup; [by rewrite !length_slice, length_list_write|]. intros k Hk'.
    rewrite length_slice, length_list_write in Hk' by done. rewrite !lookup_slice, lookup_list_write by done.
    destruct (decide _) as [?|]; [|done]. destruct (decide _) as [Hc|]; [|done]. destruct Hw. unfold zlen in *. nia.
Qed.

Lemma put_caches h c i key value h' :
  caches h c -> 0 <= i < h_n h -> h_n h' = h_n h -> key_at h' i = key -> value_at h' i = value ->
  (forall j, 0 <= j < h_n h -> j <> i -> key_at h' j = key_at h j /\ value_at h' j = value_at h j) ->
  caches h' (fun j => if decide (j = i) then (fun v => (key, v)) <$> value else c j).
Proof.
  intros Hc Hi Hn Hk Hv Ho j Hj. rewrite Hn in Hj. destruct (decide (j = i)) as [->|Hne].
  - rewrite Hv, Hk. by destruct value.
  - destruct (Ho j Hj Hne) as [-> ->]. by apply Hc.
Qed.

(** ** The operations *)

Lemma hash_alloc_ok n size : 1 <= n -> 1 <= size -> n * size < 2 ^ 64 -> hash_wf (hash_alloc n size) /\ caches (hash_alloc n size) (fun _ => None).
Proof.
  intros Hn Hs Hf. split.
  - split; cbn [hash_alloc h_n h_size h_keys h_values]; try done; unfold zlen; rewrite length_replicate, ?u64_small by nia; lia.
  - intros i Hi. unfold value_at. cbn [hash_alloc h_values] in *.
    destruct (replicate (Z.to_nat n) None !! Z.to_nat i) as [v|] eqn:E; [|done]. by apply lookup_replicate in E as [-> _].
Qed.

(** The operations on a table of a fixed size.  [hash_resize] is not one of them: it
    writes past the new arrays when it makes a table smaller ([hash_resize_overruns]). *)
Inductive hash_op := HInsert (key : list Z) (value : option P) | HSearch (key : list Z) | HSearchOrInsert (key : list Z) (value : option P) | HClear.

Definition op_key (size : Z) (o : hash_op) : Prop :=
  match o with HInsert k _ | HSearch k | HSearchOrInsert k _ => zlen k = size | HClear => True end.

(** The table after an operation, and what the operation returned. *)
Definition hash_run (o : hash_op) (h : hash_t) : outcome (option P * hash_t) :=
  match o with
  | HInsert k v => let* h := hash_insert h k v in Done (None, h)
  | HSearch k => let* r := hash_search h k in Done (r, h)
  | HSearchOrInsert k v => hash_search_or_insert h k v
  | HClear => Done (None, hash_clear h)
  end.

Definition cache_run (slot : list Z -> Z) (o : hash_op) (c : cache) : option P * cache :=
  match o with
  | HInsert k v => (None, cache_insert slot c k v)
  | HSearch k => (cache_search slot c k, c)
  | HSearchOrInsert k v =>
      match cache_search slot c k with Some w => (Some w, c) | None => (None, cache_insert slot c k v) end
  | HClear => (None, fun _ => None)
  end.

Lemma insert_ok h c key value :
  hash_wf h -> caches h c -> zlen key = h_size h ->
  exists h', put_slot h (slot_of (h_n h) (h_size h) key) key value = Done h' /\ hash_wf h' /\ h_n h' = h_n h /\ h_size h' = h_size h /\
    caches h' (cache_insert (slot_of (h_n h) (h_size h)) c key value).
Proof.
  intros Hw Hc Hk. destruct (slot_ok h key Hw Hk) as [_ Hi].
  destruct (put_slot_ok h _ key value Hw Hi Hk) as (h' & E & Hw' & Hn & Hs & Hki & Hv & Ho). exists h'. splits; try done.
  by eapply put_caches.
Qed.

Lemma hash_run_ok o h c :
  hash_wf h -> caches h c -> op_key (h_size h) o ->
  exists h', hash_run o h = Done ((cache_run (slot_of (h_n h) (h_size h)) o c).1, h') /\ hash_wf h' /\ h_n h' = h_n h /\ h_size h' = h_size h /\
    caches h' (cache_run (slot_of (h_n h) (h_size h)) o c).2.
Proof.
  intros Hw Hc Hk. destruct o as [k v|k|k v|]; cbn [hash_run cache_run op_key] in *.
  - unfold hash_insert. destruct (slot_ok h k Hw Hk) as [-> Hi]. cbn [obind]. destruct (insert_ok h c k v Hw Hc Hk) as (h' & -> & H). by exists h'.
  - unfold hash_search, cache_search. destruct (slot_ok h k Hw Hk) as [-> Hi]. cbn [obind]. rewrite (found_at_ok h c _ k Hw Hc Hi Hk). by exists h.
  - unfold hash_search_or_insert, cache_search. destruct (slot_ok h k Hw Hk) as [-> Hi]. cbn [obind]. rewrite (found_at_ok h c _ k Hw Hc Hi Hk). cbn [obind].
    destruct (match c _ with Some _ => _ | None => _ end) as [w|]; [by exists h|].
    destruct (insert_ok h c k v Hw Hc Hk) as (h' & -> & H). by exists h'.
  - exists (hash_clear h). split; [done|]. destruct Hw. split; [|split; [done|split; [done|]]].
    + split; cbn [hash_clear h_n h_size h_keys h_values]; try done. unfold zlen in *. by rewrite length_replicate.
    + intros i Hi. unfold value_at. cbn [hash_clear h_values] in *.
      destruct (replicate (length (h_values h)) None !! Z.to_nat i) as [v|] eqn:E; [|done]. by apply lookup_replicate in E as [-> _].
Qed.

Fixpoint hash_runs (os : list hash_op) (h : hash_t) : outcome (list (option P) * hash_t) :=
  match os with
  | [] => Done ([], h)
  | o :: os => let* (r, h) := hash_run o h in let* (rs, h) := hash_runs os h in Done (r :: rs, h)
  end.

Fixpoint cache_runs (slot : list Z -> Z) (os : list hash_op) (c : cache) : list (option P) * cache :=
  match os with
  | [] => ([], c)
  | o :: os => let '(r, c) := cache_run slot o c in let '(rs, c) := cache_runs slot os c in (r :: rs, c)
  end.

Lemma hash_runs_ok os : forall h c,
  hash_wf h -> caches h c -> Forall (op_key (h_size h)) os ->
  exists h', hash_runs os h = Done ((cache_runs (slot_of (h_n h) (h_size h)) os c).1, h') /\ hash_wf h' /\ h_n h' = h_n h /\ h_size h' = h_size h /\
    caches h' (cache_runs (slot_of (h_n h) (h_size h)) os c).2.
Proof.
  induction os as [|o os IH]; intros h c Hw Hc Hk; [by exists h|]. apply Forall_cons in Hk as [Ho Hk]. cbn [hash_runs cache_runs].
  destruct (hash_run_ok o h c Hw Hc Ho) as (h1 & -> & W1 & N1 & S1 & C1). cbn [obind].
  destruct (cache_run _ o c) as [r c1]. cbn [fst snd] in *. rewrite <- N1, <- S1 in *. destruct (IH h1 c1 W1 C1 Hk) as (h2 & -> & W2 & N2 & S2 & C2). cbn [obind].
  destruct (cache_runs _ os c1) as [rs c2]. by exists h2.
Qed.

End HashTable.

Arguments hash_t : clear implicits.
Arguments hash_op : clear implicits.

(** A table of any size, under any sequence of insertions, searches, combined
    searches and insertions, and clears, answers as a direct-mapped cache does: a
    search finds the value that was stored last in the slot of the key, if it was
    stored for that very key, and nothing otherwise.  No operation leaves the
    table's arrays. *)
Theorem hash_is_direct_mapped_cache {P} (n size : Z) (os : list (hash_op P)) :
  1 <= n -> 1 <= size -> n * size < 2 ^ 64 -> Forall (op_key size) os ->
  exists h, hash_runs os (hash_alloc n size) = Done ((cache_runs (slot_of n size) os (fun _ => None)).1, h) /\
    h_n h = n /\ zlen (h_keys h) = n * size /\ zlen (h_values h) = n.
Proof.
  intros Hn Hs Hf Hk. destruct (hash_alloc_ok (P := P) n size Hn Hs Hf) as [Hw Hc].
  destruct (hash_runs_ok os (hash_alloc n size) _ Hw Hc Hk) as (h & E & W & N & S & _). cbn [hash_alloc h_n h_size] in *. exists h.
  splits; [exact E|done|rewrite (hw_keys h W), N, S; done|rewrite (hw_values h W), N; done].
Qed.

Lemma hash_is_direct_mapped_cache_witness :
  exists h, hash_runs [HInsert [1; 2; 3; 4] (Some 7%nat); HSearch [1; 2; 3; 4]; HSearch [1; 2; 3; 5]; HClear; HSearch [1; 2; 3; 4]] (hash_alloc 256 4) =
    Done ([None; Some 7%nat; None; None; None], h).
Proof.
  destruct (hash_is_direct_mapped_cache (P := nat) 256 4
    [HInsert [1; 2; 3; 4] (Some 7%nat); HSearch [1; 2; 3; 4]; HSearch [1; 2; 3; 5]; HClear; HSearch [1; 2; 3; 4]]) as (h & E & _).
  - lia.
  - lia.
  - lia.
  - repeat constructor.
  - exists h. rewrite E. reflexivity.
Defined.

Lemma keep_length {X} k (l : list X) x : length (take k l ++ replicate (k - length l) x) = k.
Proof. rewrite length_app, length_take, length_replicate. lia. Qed.

(** [hash_resize] leaves [hash->n] as it was: in a table that was made smaller, every
    key whose slot is cut off is written outside the table. *)
Theorem hash_resize_overruns {P} (n size n' : Z) (key : list Z) (v : option P) :
  1 <= n -> 1 <= size -> n * size < 2 ^ 64 -> zlen key = size -> 0 <= n' <= slot_of n size key ->
  hash_insert (hash_resize (hash_alloc n size) n') key v = Stop OutOfBounds.
Proof.
  intros Hn Hs Hf Hk Hc. destruct (hash_alloc_ok (P := P) n size Hn Hs Hf) as [Hw _]. destruct (slot_ok _ key Hw Hk) as [E Hi].
  unfold hash_insert. change (hash_slot (hash_resize (hash_alloc n size) n') key) with (hash_slot (P := P) (hash_alloc n size) key).
  rewrite E. cbn [obind hash_alloc h_n h_size] in *. unfold put_slot. change (h_size (hash_resize (hash_alloc n size) n')) with size.
  pose proof (whole_key _ key Hw Hk) as Er. cbn [hash_alloc h_size] in Er. rewrite Er. cbn [obind]. unfold mem_write. rewrite u64_small by nia.
  assert (Hz : zlen (h_keys (hash_resize (P := P) (hash_alloc n size) n')) = n' * size).
  { unfold zlen. cbn [hash_resize h_keys hash_alloc h_size]. rewrite keep_length. nia. }
  rewrite Hz, andb_comm, (proj2 (Z.leb_gt _ _)) by nia. done.
Qed.

Lemma hash_resize_overruns_witness :
  hash_insert (hash_resize (hash_alloc 256 4) 16) [9; 200; 31; 4] (Some 1%nat) = Stop OutOfBounds.
Proof. apply hash_resize_overruns; (lia || reflexivity || (vm_compute; intuition discriminate)). Defined.
