(* ===== verification/Utils.v ===== *)
(** Hexadecimal and base64 text (src/src/utils.c).

    Source and destination are offsets in one object, since callers convert in
    place; a string is followed by a NUL byte.  [char] is signed, as on the
    platforms the table of [b64decode] is written for.  Lengths and indices are [int]:
    a product that does not fit stops ([int32] of Limbs.v), and the division of a length
    truncates. *)
From S2P Require Import Prelude Bytes Limbs.

(** Bytes of an ASCII string. *)
Definition hexadecimals : list Z := [48; 49; 50; 51; 52; 53; 54; 55; 56; 57; 65; 66; 67; 68; 69; 70; 0].
Definition letters62 : list Z := seqZ 65 26 ++ seqZ 97 26 ++ seqZ 48 10.
Definition base64_original : list Z := letters62 ++ [43; 47; 0].
Definition base64_urlsafe : list Z := letters62 ++ [45; 95; 0].

Definition base64_decode : list Z :=
  replicate 43 (-1) ++ [62; -1; 62; -1; 63] ++ seqZ 52 10 ++ replicate 7 (-1) ++ seqZ 0 26 ++ replicate 4 (-1) ++ [63; -1] ++
  seqZ 26 26 ++ replicate 133 (-1).

(** One byte of an object. *)
Definition rd (m : list Z) (o : Z) : outcome Z :=
  let* b := mem_read m o 1 in Done (default 0 (head b)).

Definition isdigit (c : Z) : bool := (48 <=? c) && (c <=? 57).
Definition isxdigit (c : Z) : bool := isdigit c || ((65 <=? c) && (c <=? 70)) || ((97 <=? c) && (c <=? 102)).
Definition toupper (c : Z) : Z := if (97 <=? c) && (c <=? 122) then c - 32 else c.

Definition charhex2bin (c : Z) : Z := if isdigit c then c - 48 else toupper c - 65 + 10.

(** The loop of [hex2bin]; its result is [i]. *)
Fixpoint hex2bin_loop (fuel : nat) (m : list Z) (src dst length i : Z) : outcome (Z * list Z) :=
  match fuel with
  | O => Stop OutOfFuel
  | S fuel =>
      if negb (i <? length) then Done (i, m)
      else
        let* j := int32 (i * 2) in
        let* a := rd m (src + j) in
        if negb (isxdigit a) then Done (i, m)
        else
          let* j := int32 (j + 1) in
          let* b := rd m (src + j) in
          if negb (isxdigit b) then Done (i, m)
          else
            let* m := mem_write m (dst + i) [u8 (charhex2bin a * 16 + charhex2bin b)] in
            hex2bin_loop fuel m src dst length (i + 1)
  end.

Definition hex2bin (m : list Z) (src dst length : Z) : outcome (Z * list Z) :=
  hex2bin_loop (S (Z.to_nat length)) m src dst length 0.

(** The loop of [bin2hex], from the last byte to the first. *)
Fixpoint bin2hex_loop (n : nat) (m : list Z) (src dst : Z) : outcome (list Z) :=
  match n with
  | O => Done m
  | S n =>
      let i := Z.of_nat n in
      let* b := rd m (src + i) in
      let* c := rd hexadecimals (Z.land b 15) in
      let* j := int32 (i * 2) in
      let* j := int32 (j + 1) in
      let* m := mem_write m (dst + j) [c] in
      let* b := rd m (src + i) in
      let* c := rd hexadecimals (Z.shiftr b 4) in
      let* m := mem_write m (dst + i * 2) [c] in
      bin2hex_loop n m src dst
  end.

Definition bin2hex (m : list Z) (src dst length : Z) : outcome (Z * list Z) :=
  let* m := bin2hex_loop (Z.to_nat length) m src dst in
  let* n := int32 (length * 2) in
  let* m := mem_write m (dst + n) [0] in
  Done (n, m).

(** [dst[0] = alphabet[triplet & 63]; triplet >>= 6; ...]: [k] letters, the last
    without a mask. *)
Fixpoint b64_letters (alphabet : list Z) (k : nat) (triplet : Z) : outcome (list Z) :=
  match k with
  | O => Done []
  | S O => let* c := rd alphabet triplet in Done [c]
  | S k =>
      let* c := rd alphabet (Z.land triplet 63) in
      let* cs := b64_letters alphabet k (Z.shiftr triplet 6) in
      Done (c :: cs)
  end.

(** The incomplete group at the end, the NUL and the length that is returned; [di + 3] fits
    when [di], a multiple of four, does. *)
Definition b64encode_tail (m : list Z) (src dst length : Z) (alphabet : list Z) : outcome (Z * list Z) :=
  let si := Z.quot length 3 * 3 in
  let* di := int32 (Z.quot length 3 * 4) in
  match Z.rem length 3 with
  | 2 =>
      let* a := rd m (src + si) in
      let* b := rd m (src + si + 1) in
      let* cs := b64_letters alphabet 3 (Z.lor a (Z.shiftl b 8)) in
      let* m := mem_write m (dst + di) (cs ++ [0]) in
      Done (di + 2, m)
  | 1 =>
      let* a := rd m (src + si) in
      let* cs := b64_letters alphabet 2 a in
      let* m := mem_write m (dst + di) (cs ++ [0]) in
      Done (di + 1, m)
  | _ =>
      let* m := mem_write m (dst + di) [0] in
      Done (di, m)
  end.

(** [while(si > 0)]: [g] groups of three bytes, the last one first. *)
Fixpoint b64encode_loop (g : nat) (m : list Z) (src dst : Z) (alphabet : list Z) : outcome (list Z) :=
  match g with
  | O => Done m
  | S g =>
      let di := 4 * Z.of_nat g in
      let si := 3 * Z.of_nat g in
      let* a := rd m (src + si) in
      let* b := rd m (src + si + 1) in
      let* c := rd m (src + si + 2) in
      let* cs := b64_letters alphabet 4 (Z.lor (Z.lor a (Z.shiftl b 8)) (Z.shiftl c 16)) in
      let* m := mem_write m (dst + di) cs in
      b64encode_loop g m src dst alphabet
  end.

Definition b64encode_internal (m : list Z) (src dst length : Z) (alphabet : list Z) : outcome (Z * list Z) :=
  let* (r, m) := b64encode_tail m src dst length alphabet in
  let* m := b64encode_loop (Z.to_nat (Z.quot length 3)) m src dst alphabet in
  Done (r, m).

Definition b64encode (m : list Z) (src dst length : Z) := b64encode_internal m src dst length base64_original.
Definition b64encode_urlsafe (m : list Z) (src dst length : Z) := b64encode_internal m src dst length base64_urlsafe.

(** [triplet & 0xff000000U]. *)
Definition b64_bad (triplet : Z) : bool := bitset triplet 0xff000000.

(** The loop of [b64decode]: [None] is [return 0] inside it. *)
Fixpoint b64decode_loop (fuel : nat) (m : list Z) (src dst limit i triplet : Z) : outcome (option (Z * Z) * list Z) :=
  match fuel with
  | O => Stop OutOfFuel
  | S fuel =>
      if negb (i <? limit) then Done (Some (i, triplet), m)
      else
        let* c := rd m (src + i) in
        if c =? 0 then Done (Some (i, triplet), m)
        else
          let* v := rd base64_decode (Z.land c 0xff) in
          let triplet := Z.lor triplet (u32 (Z.shiftl v (6 * Z.land i 3))) in
          if Z.land i 3 =? 3 then
            if b64_bad triplet then Done (None, m)
            else
              let* m := mem_write m (dst + 3 * (i / 4)) [Z.land triplet 0xff; Z.land (Z.shiftr triplet 8) 0xff; u8 (Z.shiftr (Z.shiftr triplet 8) 8)] in
              b64decode_loop fuel m src dst limit (i + 1) 0
          else b64decode_loop fuel m src dst limit (i + 1) triplet
  end.

Definition b64decode (m : list Z) (src dst length : Z) : outcome (Z * list Z) :=
  let* limit := int32 (Z.quot length 3 * 4) in
  let* (r, m) := b64decode_loop (S (Z.to_nat limit)) m src dst limit 0 0 in
  match r with
  | None => Done (0, m)
  | Some (i, triplet) =>
      if b64_bad triplet then Done (0, m)
      else
        let udst := dst + 3 * (i / 4) in
        if Z.land i 3 =? 3 then
          let* m := mem_write m udst [Z.land triplet 0xff; Z.land (Z.shiftr triplet 8) 0xff] in
          Done (i / 4 * 3 + 2, m)
        else if Z.land i 3 =? 2 then
          let* m := mem_write m udst [Z.land triplet 0xff] in
          Done (i / 4 * 3 + 1, m)
        else Done (i / 4 * 3, m)
  end.

(** [memcpy(&value, bitfield, size)] into a zero [unsigned int]. *)
Definition bitfield_to_int (bitfield : list Z) (size : Z) : outcome Z :=
  let* d := mem_read bitfield 0 (if 4 <? size then 4 else size) in Done (le_val d).

(** ** Bytes at their place *)

Definition holds_at (m : list Z) (o : Z) (l : list Z) : Prop :=
  0 <= o /\ forall i b, l !! i = Some b -> m !! (Z.to_nat o + i)%nat = Some b.

Lemma rd_ok m o b : 0 <= o -> m !! Z.to_nat o = Some b -> rd m o = Done b.
Proof.
  intros Ho Hb. pose proof (lookup_lt_Some _ _ _ Hb). unfold rd. rewrite mem_read_ok by (unfold zlen; lia). cbn [obind].
  change (Z.to_nat 1) with 1%nat. by rewrite (drop_S _ _ _ Hb).
Qed.

Lemma holds_rd m o l i b : holds_at m o l -> l !! i = Some b -> rd m (o + Z.of_nat i) = Done b.
Proof. intros [Ho H] Hb. apply rd_ok; [lia|]. rewrite Z2Nat.inj_add, Nat2Z.id by lia. by apply H. Qed.

Lemma holds_app m o a b : holds_at m o (a ++ b) -> holds_at m o a /\ holds_at m (o + zlen a) b.
Proof.
  intros [Ho H]. pose proof (zlen_nonneg a). split; (split; [lia|]).
  - intros i x Hx. apply H. by apply lookup_app_l_Some.
  - intros i x Hx. replace (Z.to_nat (o + zlen a) + i)%nat with (Z.to_nat o + (length a + i))%nat by (unfold zlen; lia).
    apply H. rewrite lookup_app_r by lia. rewrite <- Hx. f_equal. lia.
Qed.

Lemma holds_join m o a b : holds_at m o a -> holds_at m (o + zlen a) b -> holds_at m o (a ++ b).
Proof.
  intros [Ho Ha] [_ Hb]. split; [done|]. intros i x Hx. apply lookup_app_Some in Hx as [Hx|[Hi Hx]]; [by apply Ha|].
  apply Hb in Hx. rewrite <- Hx. f_equal. unfold zlen. lia.
Qed.

Lemma holds_write m o (bs : list Z) : 0 <= o -> o + zlen bs <= zlen m -> holds_at (list_write (Z.to_nat o) bs m) o bs.
Proof.
  intros Ho Hf. split; [done|]. intros i b Hb. pose proof (lookup_lt_Some _ _ _ Hb). unfold zlen in *. rewrite lookup_list_write by lia.
  rewrite decide_True by lia. rewrite <- Hb. f_equal. lia.
Qed.

Lemma holds_frame m o (bs : list Z) p (l : list Z) :
  0 <= o -> o + zlen bs <= zlen m -> (o + zlen bs <= p \/ p + zlen l <= o) -> holds_at m p l -> holds_at (list_write (Z.to_nat o) bs m) p l.
Proof.
  intros Ho Hf Hd [Hp H]. split; [done|]. intros i b Hb. pose proof (lookup_lt_Some _ _ _ Hb). unfold zlen in *. rewrite lookup_list_write by lia.
  rewrite decide_False by lia. by apply H.
Qed.

Lemma write_ok m o (bs : list Z) : 0 <= o -> o + zlen bs <= zlen m -> mem_write m o bs = Done (list_write (Z.to_nat o) bs m).
Proof. intros Ho Hf. by rewrite mem_write_ok. Qed.

Lemma write_length m o (bs : list Z) : 0 <= o -> o + zlen bs <= zlen m -> zlen (list_write (Z.to_nat o) bs m) = zlen m.
Proof. intros Ho Hf. unfold zlen in *. rewrite length_list_write; lia. Qed.

(** Two adjacent writes, in either order. *)
Lemma write_after {X} o (a b m : list X) :
  (o + length a + length b <= length m)%nat -> list_write (o + length a) b (list_write o a m) = list_write o (a ++ b) m.
Proof.
  intros H. apply list_eq_lookup; [by rewrite !length_list_write by (rewrite ?length_list_write, ?length_app; lia)|].
  intros i _. rewrite !lookup_list_write by (rewrite ?length_list_write, ?length_app; lia). rewrite length_app.
  repeat case_decide; try lia; try done.
  - rewrite lookup_app_r by lia. f_equal. lia.
  - rewrite lookup_app_l by lia. done.
Qed.

Lemma write_before {X} o (a b m : list X) :
  (o + length a + length b <= length m)%nat -> list_write o a (list_write (o + length a) b m) = list_write o (a ++ b) m.
Proof.
  intros H. rewrite <- write_after by done. apply list_eq_lookup; [by rewrite !length_list_write by (rewrite ?length_list_write; lia)|].
  intros i _. rewrite !lookup_list_write by (rewrite ?length_list_write; lia). repeat case_decide; (done || lia).
Qed.

(** ** Base64 *)

Definition letter (alphabet : list Z) (d : Z) : Z := default 0 (alphabet !! Z.to_nat d).

(** [k] digits of [v], the lowest first. *)
Fixpoint digits (k : nat) (v : Z) : list Z :=
  match k with O => [] | S k => v mod 64 :: digits k (v / 64) end.

(** The alphabets have 64 letters that the table decodes. *)
Definition good_alphabet (alphabet : list Z) : bool :=
  forallb (fun d => (0 <? letter alphabet d) && (letter alphabet d <? 256) && bool_decide (base64_decode !! Z.to_nat (letter alphabet d) = Some d) &&
    bool_decide (alphabet !! Z.to_nat d = Some (letter alphabet d))) (seqZ 0 64).

Lemma good_letter alphabet d :
  good_alphabet alphabet = true -> 0 <= d < 64 ->
  0 < letter alphabet d < 256 /\ rd base64_decode (letter alphabet d) = Done d /\ rd alphabet d = Done (letter alphabet d).
Proof.
  intros H Hd. unfold good_alphabet in H. rewrite forallb_forall in H. specialize (H d).
  assert (Hin : List.In d (seqZ 0 64)) by (apply list_elem_of_In, elem_of_seqZ; lia). specialize (H Hin). ztests.
  apply bool_decide_eq_true in H1, H0. splits; [lia|lia|apply rd_ok; [lia|done]|apply rd_ok; [lia|done]].
Qed.

Lemma letters_ok alphabet k : forall v,
  good_alphabet alphabet = true -> (1 <= k)%nat -> 0 <= v < 64 ^ Z.of_nat k -> b64_letters alphabet k v = Done (letter alphabet <$> digits k v).
Proof.
  induction k as [|k IH]; intros v Hg Hk Hv; [lia|]. destruct k as [|k].
  - cbn [b64_letters digits fmap list_fmap]. change (64 ^ Z.of_nat 1) with 64 in Hv. destruct (good_letter alphabet v Hg ltac:(lia)) as (_ & _ & ->).
    by rewrite (Z.mod_small v 64) by lia.
  - change (b64_letters alphabet (S (S k)) v) with
      (let* c := rd alphabet (Z.land v 63) in let* cs := b64_letters alphabet (S k) (Z.shiftr v 6) in Done (c :: cs)).
    rewrite (land_mask v 6 63), shiftr_div by (done || lia). change (2 ^ 6) with 64.
    destruct (good_letter alphabet (v mod 64) Hg ltac:(apply Z.mod_pos_bound; lia)) as (_ & _ & ->). cbn [obind].
    rewrite IH; [done|done|lia|]. split; [apply Z.div_pos; lia|]. apply Z.div_lt_upper_bound; [lia|].
    rewrite (Nat2Z.inj_succ (S k)), Z.pow_succ_r in Hv by lia. lia.
Qed.

Definition good (alphabet : list Z) := good_alphabet alphabet = true.

Lemma original_good : good base64_original.
Proof. vm_compute. reflexivity. Qed.

Lemma urlsafe_good : good base64_urlsafe.
Proof. vm_compute. reflexivity. Qed.

(** The text of a byte string. *)
Fixpoint b64_text (alphabet : list Z) (l : list Z) : list Z :=
  match l with
  | a :: b :: c :: l => (letter alphabet <$> digits 4 (a + 2 ^ 8 * b + 2 ^ 16 * c)) ++ b64_text alphabet l
  | [a; b] => letter alphabet <$> digits 3 (a + 2 ^ 8 * b)
  | [a] => letter alphabet <$> digits 2 a
  | [] => []
  end.

(** Groups of three bytes and what is left over. *)
Definition ungroup (gs : list (Z * Z * Z)) : list Z := concat (map (fun '(a, b, c) => [a; b; c]) gs).
Definition quad (alphabet : list Z) (g : Z * Z * Z) : list Z := let '(a, b, c) := g in letter alphabet <$> digits 4 (a + 2 ^ 8 * b + 2 ^ 16 * c).
Definition quads (alphabet : list Z) (gs : list (Z * Z * Z)) : list Z := concat (map (quad alphabet) gs).

Lemma grouped (l : list Z) : exists gs t, l = ungroup gs ++ t /\ (length t <= 2)%nat.
Proof.
  remember (length l) as n eqn:E. revert l E. induction (lt_wf n) as [n _ IH]. intros l ->.
  destruct l as [|a [|b [|c l]]]; [exists [], []|exists [], [a]|exists [], [a; b]|]; try (split; [done|cbn; lia]).
  destruct (IH (length l) ltac:(cbn; lia) l eq_refl) as (gs & t & -> & Ht). by exists ((a, b, c) :: gs), t.
Qed.

Lemma text_groups alphabet gs t : b64_text alphabet (ungroup gs ++ t) = quads alphabet gs ++ b64_text alphabet t.
Proof.
  induction gs as [|[[a b] c] gs IH]; [done|].
  change (b64_text alphabet (ungroup ((a, b, c) :: gs) ++ t)) with (quad alphabet (a, b, c) ++ b64_text alphabet (ungroup gs ++ t)).
  change (quads alphabet ((a, b, c) :: gs)) with (quad alphabet (a, b, c) ++ quads alphabet gs). by rewrite IH, app_assoc.
Qed.

Lemma zlen_ungroup gs : zlen (ungroup gs) = 3 * zlen gs.
Proof. induction gs as [|[[a b] c] gs IH]; [done|]. unfold zlen, ungroup in *. cbn in *. lia. Qed.

Lemma zlen_quads alphabet gs : zlen (quads alphabet gs) = 4 * zlen gs.
Proof. induction gs as [|[[a b] c] gs IH]; [done|]. unfold zlen, quads in *. cbn [map concat quad]. rewrite length_app, length_fmap. cbn [digits length]. lia. Qed.

Lemma quads_snoc alphabet gs g : quads alphabet (gs ++ [g]) = quads alphabet gs ++ quad alphabet g.
Proof. unfold quads. rewrite map_app, concat_app. cbn [map concat]. by rewrite app_nil_r. Qed.

Lemma ungroup_snoc gs a b c : ungroup (gs ++ [(a, b, c)]) = ungroup gs ++ [a; b; c].
Proof. unfold ungroup. rewrite map_app, concat_app. done. Qed.

Lemma group_value a b c : 0 <= a < 256 -> 0 <= b < 256 -> 0 <= c < 256 ->
  Z.lor (Z.lor a (Z.shiftl b 8)) (Z.shiftl c 16) = a + 2 ^ 8 * b + 2 ^ 16 * c /\ 0 <= a + 2 ^ 8 * b + 2 ^ 16 * c < 64 ^ 4.
Proof. intros Ha Hb Hc. rewrite !Z.shiftl_mul_pow2, (lor_add a b 8), (lor_add _ c 16) by lia. lia. Qed.

Lemma zlen_quad alphabet g : zlen (quad alphabet g) = 4.
Proof. destruct g as [[a b] c]. unfold zlen, quad. by rewrite length_fmap. Qed.

(** What the encoder may be asked to do: in place, into another object, or further
    back in the same one. *)
Lemma encode_loop_ok alphabet src dst gs : good alphabet -> 0 <= dst -> forall m,
  bytes_ok (ungroup gs) -> holds_at m src (ungroup gs) -> src <= dst \/ dst + 4 * zlen gs <= src -> dst + 4 * zlen gs <= zlen m ->
  b64encode_loop (length gs) m src dst alphabet = Done (list_write (Z.to_nat dst) (quads alphabet gs) m).
Proof.
  intros Hg Hd. induction gs as [|[[a b] c] gs IH] using rev_ind; intros m Hb Hh Ha Hr.
  { change (quads alphabet []) with (@nil Z). cbn [b64encode_loop length]. unfold list_write. cbn [app length]. by rewrite Nat.add_0_r, take_drop. }
  rewrite length_app, Nat.add_1_r. cbn [b64encode_loop]. rewrite ungroup_snoc in Hh, Hb. apply Forall_app in Hb as [Hb Hb3].
  assert (Hz : zlen (gs ++ [(a, b, c)]) = zlen gs + 1) by (unfold zlen; rewrite length_app; cbn; lia). rewrite Hz in *.
  apply holds_app in Hh as [H0 H3]. rewrite zlen_ungroup in H3. fold (zlen gs).
  pose proof (holds_rd _ _ _ 0 a H3 eq_refl) as Ra. pose proof (holds_rd _ _ _ 1 b H3 eq_refl) as Rb. pose proof (holds_rd _ _ _ 2 c H3 eq_refl) as Rc.
  rewrite Z.add_0_r in Ra. change (Z.of_nat 1) with 1 in Rb. change (Z.of_nat 2) with 2 in Rc. rewrite Ra, Rb, Rc. cbn [obind].
  rewrite !Forall_cons in Hb3. destruct Hb3 as (Ha8 & Hb8 & Hc8 & _). destruct (group_value a b c Ha8 Hb8 Hc8) as [-> Hv].
  rewrite (letters_ok alphabet 4 _ Hg ltac:(lia) Hv). cbn [obind]. fold (quad alphabet (a, b, c)). pose proof (zlen_quad alphabet (a, b, c)) as Hq.
  pose proof (zlen_nonneg gs). rewrite write_ok by lia. cbn [obind]. rewrite IH; [|done| |lia|].
  - f_equal. rewrite quads_snoc. pose proof (zlen_quads alphabet gs) as Hqs.
    replace (Z.to_nat (dst + 4 * zlen gs)) with (Z.to_nat dst + length (quads alphabet gs))%nat by (unfold zlen in *; lia).
    apply write_before. unfold zlen in *. lia.
  - apply holds_frame; [lia|lia| |done]. rewrite zlen_ungroup. lia.
  - rewrite write_length by lia. lia.
Qed.

Definition tail_length (n : Z) : Z := if n mod 3 =? 0 then 0 else n mod 3 + 1.

Lemma quot_div n : 0 <= n -> Z.quot n 3 = n / 3 /\ Z.rem n 3 = n mod 3.
Proof. intros H. by rewrite Z.quot_div_nonneg, Z.rem_mod_nonneg by lia. Qed.

Lemma small_div n k t : 0 <= t < 3 -> n = 3 * k + t -> n / 3 = k /\ n mod 3 = t.
Proof. intros Ht ->. split; [symmetry; by apply (Z.div_unique _ 3 _ t); [lia|]|symmetry; by apply (Z.mod_unique _ 3 k); [lia|]]. Qed.

Lemma zlen_text alphabet l : zlen (b64_text alphabet l) = zlen l / 3 * 4 + tail_length (zlen l).
Proof.
  destruct (grouped l) as (gs & t & -> & Ht). rewrite text_groups, !zlen_app, zlen_quads, zlen_ungroup. pose proof (zlen_nonneg gs).
  assert (Hl : 0 <= zlen t < 3) by (unfold zlen; lia). destruct (small_div _ (zlen gs) (zlen t) Hl eq_refl) as [Ed Em].
  unfold tail_length. rewrite Ed, Em.
  assert (Et : zlen (b64_text alphabet t) = if zlen t =? 0 then 0 else zlen t + 1) by (destruct t as [|a [|b [|]]]; [done|done|done|cbn in Ht; lia]).
  rewrite Et. lia.
Qed.

(** The last group, when the destination is behind or in front of the source. *)
Lemma encode_tail_ok alphabet m src dst k t :
  good alphabet -> 0 <= dst -> 0 <= k -> (length t <= 2)%nat -> bytes_ok t -> holds_at m (src + 3 * k) t ->
  dst + 4 * k + zlen (b64_text alphabet t) + 1 <= zlen m -> 4 * k < 2 ^ 31 ->
  b64encode_tail m src dst (3 * k + zlen t) alphabet =
  Done (4 * k + zlen t, list_write (Z.to_nat (dst + 4 * k)) (b64_text alphabet t ++ [0]) m).
Proof.
  intros Hg Hd Hk Ht Hb Hh Hr Hf. assert (Hl : 0 <= zlen t < 3) by (unfold zlen; lia).
  destruct (small_div _ k (zlen t) Hl eq_refl) as [Ed Em]. unfold b64encode_tail.
  destruct (quot_div (3 * k + zlen t) ltac:(lia)) as [-> ->]. rewrite Ed, Em, int32_fits by lia. cbn [obind].
  assert (Hz : forall x, zlen (x ++ [0]) = zlen x + 1) by (intros; unfold zlen; rewrite length_app; cbn; lia).
  replace (dst + k * 4) with (dst + 4 * k) by lia. replace (src + k * 3) with (src + 3 * k) by lia.
  destruct t as [|a [|b [|]]]; [| | |cbn in Ht; lia].
  - cbn [b64_text app] in *. change (zlen (@nil Z)) with 0 in *. cbn beta iota. rewrite write_ok by (lia || (change (zlen [0]) with 1; lia)). cbn [obind]. do 2 f_equal. lia.
  - change (zlen [a]) with 1. cbn beta iota. apply Forall_cons in Hb as [Ha _]. pose proof (holds_rd _ _ _ 0 a Hh eq_refl) as Ra. rewrite Z.add_0_r in Ra.
    rewrite Ra. cbn [obind]. rewrite (letters_ok alphabet 2 a Hg ltac:(lia)) by (cbn; lia). cbn [obind b64_text] in *.
    rewrite write_ok by (rewrite ?Hz; lia). cbn [obind]. do 2 f_equal. lia.
  - change (zlen [a; b]) with 2. cbn beta iota. unfold bytes_ok in Hb. rewrite !Forall_cons in Hb. destruct Hb as (Ha & Hb & _).
    pose proof (holds_rd _ _ _ 0 a Hh eq_refl) as Ra. pose proof (holds_rd _ _ _ 1 b Hh eq_refl) as Rb. rewrite Z.add_0_r in Ra. change (Z.of_nat 1) with 1 in Rb.
    rewrite Ra, Rb. cbn [obind]. rewrite Z.shiftl_mul_pow2, (lor_add a b 8) by lia. rewrite (Z.mul_comm b).
    rewrite (letters_ok alphabet 3 _ Hg ltac:(lia)) by (change (64 ^ Z.of_nat 3) with (2 ^ 18); lia). cbn [obind b64_text] in *.
    rewrite write_ok by (rewrite ?Hz; lia). cbn [obind]. do 2 f_equal. lia.
Qed.

Lemma b64encode_ok alphabet m src dst l :
  good alphabet -> 0 <= dst -> bytes_ok l -> holds_at m src l ->
  src <= dst \/ dst + zlen (b64_text alphabet l) + 1 <= src -> dst + zlen (b64_text alphabet l) + 1 <= zlen m ->
  zlen (b64_text alphabet l) < 2 ^ 31 ->
  b64encode_internal m src dst (zlen l) alphabet =
  Done (zlen l / 3 * 4 + zlen l mod 3, list_write (Z.to_nat dst) (b64_text alphabet l ++ [0]) m).
Proof.
  intros Hg Hd Hb Hh Ha Hr Hf. destruct (grouped l) as (gs & t & -> & Ht).
  rewrite text_groups in *. rewrite (zlen_app (quads _ _)), zlen_quads in Ha, Hr, Hf. rewrite (zlen_app (ungroup gs)), zlen_ungroup.
  apply holds_app in Hh as [H0 H1]. rewrite zlen_ungroup in H1. apply Forall_app in Hb as [Hb0 Hb1]. pose proof (zlen_nonneg gs). pose proof (zlen_nonneg (b64_text alphabet t)).
  assert (Hl : 0 <= zlen t < 3) by (unfold zlen; lia). unfold b64encode_internal.
  destruct (small_div _ (zlen gs) (zlen t) Hl eq_refl) as [Ed Em]. rewrite encode_tail_ok by (done || lia). cbn [obind].
  destruct (quot_div (3 * zlen gs + zlen t) ltac:(lia)) as [-> _]. rewrite Ed, Em. replace (Z.to_nat (zlen gs)) with (length gs) by (unfold zlen; lia).
  assert (Hz : zlen (b64_text alphabet t ++ [0]) = zlen (b64_text alphabet t) + 1) by (rewrite zlen_app; done).
  rewrite encode_loop_ok; [|done|done|done| |lia|].
  - cbn [obind]. do 2 f_equal; [lia|]. pose proof (zlen_quads alphabet gs) as Hqs. rewrite <- app_assoc.
    replace (Z.to_nat (dst + 4 * zlen gs)) with (Z.to_nat dst + length (quads alphabet gs))%nat by (unfold zlen in *; lia).
    apply write_before. unfold zlen in *. lia.
  - apply holds_frame; [lia|lia| |done]. rewrite zlen_ungroup. lia.
  - rewrite write_length by lia. lia.
Qed.

(** ** Decoding *)

Lemma group_index k j : 0 <= k -> 0 <= j < 4 -> Z.land (4 * k + j) 3 = j /\ (4 * k + j) / 4 = k.
Proof.
  intros Hk Hj. rewrite (land_mask _ 2 3) by (done || lia). change (2 ^ 2) with 4.
  split; symmetry; [by apply (Z.mod_unique _ 4 k); [lia|]|by apply (Z.div_unique _ 4 _ j); [lia|]].
Qed.

(** A digit is added to the triplet. *)
Lemma digit_added t d j : 0 <= j <= 3 -> 0 <= t < 2 ^ (6 * j) -> 0 <= d < 64 ->
  Z.lor t (u32 (Z.shiftl d (6 * j))) = t + d * 2 ^ (6 * j) /\ 0 <= t + d * 2 ^ (6 * j) < 2 ^ (6 * (j + 1)).
Proof.
  intros Hj Ht Hd. rewrite Z.shiftl_mul_pow2 by lia. assert (E : 2 ^ (6 * (j + 1)) = 64 * 2 ^ (6 * j)).
  { replace (6 * (j + 1)) with (6 + 6 * j) by lia. by rewrite Z.pow_add_r by lia. }
  assert (0 < 2 ^ (6 * j) <= 2 ^ 18) by (split; [lia|apply Z.pow_le_mono_r; lia]).
  rewrite u32_small by nia. rewrite lor_add by lia. nia.
Qed.

Section Decode.
Context (alphabet : list Z) (Hg : good alphabet).

Lemma decode_digit fuel m src dst limit k j t d :
  0 <= k -> 0 <= j < 3 -> 0 <= t < 2 ^ (6 * j) -> 0 <= d < 64 -> 4 * k + j < limit -> rd m (src + (4 * k + j)) = Done (letter alphabet d) ->
  b64decode_loop (S fuel) m src dst limit (4 * k + j) t = b64decode_loop fuel m src dst limit (4 * k + (j + 1)) (t + d * 2 ^ (6 * j)).
Proof.
  intros Hk Hj Ht Hd Hl Hr. cbn [b64decode_loop]. rewrite (proj2 (Z.ltb_lt _ _) Hl). cbn [negb]. rewrite Hr. cbn [obind].
  destruct (good_letter alphabet d Hg Hd) as (Hb & Hdec & _). rewrite (proj2 (Z.eqb_neq _ _)) by lia.
  rewrite (land_mask (letter alphabet d) 8 0xff), Z.mod_small by (done || lia). rewrite Hdec. cbn [obind].
  destruct (group_index k j Hk ltac:(lia)) as [-> _]. rewrite (proj2 (Z.eqb_neq j 3)) by lia.
  destruct (digit_added t d j ltac:(lia) Ht Hd) as [-> _]. by rewrite Z.add_assoc.
Qed.

Lemma not_bad v : 0 <= v < 2 ^ 24 -> b64_bad v = false.
Proof. intros Hv. unfold b64_bad. rewrite (bitset_high v 32 24) by (done || lia). apply Z.leb_gt. lia. Qed.

(** The bytes of a triplet. *)
Lemma triplet_bytes a b c : 0 <= a < 256 -> 0 <= b < 256 -> 0 <= c < 256 ->
  let v := a + 2 ^ 8 * b + 2 ^ 16 * c in
  Z.land v 0xff = a /\ Z.land (Z.shiftr v 8) 0xff = b /\ u8 (Z.shiftr (Z.shiftr v 8) 8) = c.
Proof.
  intros Ha Hb Hc v. rewrite !(land_mask _ 8 0xff), !shiftr_div by (done || lia). unfold u8.
  assert (E1 : v / 2 ^ 8 = b + 2 ^ 8 * c) by (symmetry; apply (Z.div_unique _ _ _ a); unfold v; lia).
  assert (E2 : (b + 2 ^ 8 * c) / 2 ^ 8 = c) by (symmetry; apply (Z.div_unique _ _ _ b); lia).
  rewrite E1, E2. splits.
  - symmetry. apply (Z.mod_unique _ _ (b + 2 ^ 8 * c)); unfold v; lia.
  - symmetry. apply (Z.mod_unique _ _ c); lia.
  - apply Z.mod_small. lia.
Qed.

(** The digits of a value make it up again. *)
Lemma digits_value v : 0 <= v < 2 ^ 24 ->
  let d0 := v mod 64 in let d1 := v / 64 mod 64 in let d2 := v / 64 / 64 mod 64 in let d3 := v / 64 / 64 / 64 mod 64 in
  0 + d0 * 2 ^ (6 * 0) + d1 * 2 ^ (6 * 1) + d2 * 2 ^ (6 * 2) + d3 * 2 ^ (6 * 3) = v.
Proof.
  intros Hv. cbn zeta. pose proof (Z.div_mod v 64 ltac:(lia)) as E0. pose proof (Z.div_mod (v / 64) 64 ltac:(lia)) as E1.
  pose proof (Z.div_mod (v / 64 / 64) 64 ltac:(lia)) as E2. assert (Hq : 0 <= v / 64 / 64 / 64 < 64).
  { rewrite !Z.div_div by lia. split; [apply Z.div_pos; lia|apply Z.div_lt_upper_bound; lia]. }
  rewrite (Z.mod_small (v / 64 / 64 / 64)) by done. change (2 ^ (6 * 0)) with 1. change (2 ^ (6 * 1)) with 64.
  change (2 ^ (6 * 2)) with 4096. change (2 ^ (6 * 3)) with 262144.
  set (q1 := v / 64) in *. set (q2 := q1 / 64) in *. set (q3 := q2 / 64) in *. set (r0 := v mod 64) in *. set (r1 := q1 mod 64) in *. set (r2 := q2 mod 64) in *.
  clearbody q1 q2 q3 r0 r1 r2. lia.
Qed.

Lemma mod64 v : 0 <= v mod 64 < 64.
Proof. apply Z.mod_pos_bound. lia. Qed.

(** A group of four letters. *)
Lemma decode_group fuel m src dst limit k a b c :
  0 <= k -> 4 * k + 4 <= limit -> 0 <= a < 256 -> 0 <= b < 256 -> 0 <= c < 256 -> holds_at m (src + 4 * k) (quad alphabet (a, b, c)) ->
  0 <= dst -> dst + 3 * k + 3 <= zlen m ->
  b64decode_loop (4 + fuel) m src dst limit (4 * k) 0 =
  b64decode_loop fuel (list_write (Z.to_nat (dst + 3 * k)) [a; b; c] m) src dst limit (4 * (k + 1)) 0.
Proof.
  intros Hk Hl Ha Hb Hc Hh Hd Hr. unfold quad in Hh. set (v := a + 2 ^ 8 * b + 2 ^ 16 * c) in *. assert (Hv : 0 <= v < 2 ^ 24) by (unfold v; lia).
  cbn [digits] in Hh. set (d0 := v mod 64) in *. set (d1 := v / 64 mod 64) in *. set (d2 := v / 64 / 64 mod 64) in *. set (d3 := v / 64 / 64 / 64 mod 64) in *.
  pose proof (mod64 v). pose proof (mod64 (v / 64)). pose proof (mod64 (v / 64 / 64)). pose proof (mod64 (v / 64 / 64 / 64)).
  assert (R : forall (j : nat) d, [d0; d1; d2; d3] !! j = Some d -> rd m (src + (4 * k + Z.of_nat j)) = Done (letter alphabet d)).
  { intros j d Hj. rewrite Z.add_assoc. apply (holds_rd _ _ _ j _ Hh). change [letter alphabet d0; letter alphabet d1; letter alphabet d2; letter alphabet d3] with (letter alphabet <$> [d0; d1; d2; d3]). by rewrite list_lookup_fmap, Hj. }
  pose proof (R 0%nat d0 eq_refl) as R0. pose proof (R 1%nat d1 eq_refl) as R1. pose proof (R 2%nat d2 eq_refl) as R2. pose proof (R 3%nat d3 eq_refl) as R3. clear R.
  replace (4 * k) with (4 * k + 0) at 1 by lia. cbn [Nat.add].
  rewrite (decode_digit _ _ _ _ _ k 0 0 d0) by (done || lia). change (0 + 1) with 1.
  rewrite (decode_digit _ _ _ _ _ k 1 _ d1) by (done || lia). change (1 + 1) with 2.
  rewrite (decode_digit _ _ _ _ _ k 2 _ d2) by (done || lia). change (2 + 1) with 3.
  cbn [b64decode_loop]. rewrite (proj2 (Z.ltb_lt _ _)) by lia. cbn [negb]. change (Z.of_nat 3) with 3 in R3. rewrite R3. cbn [obind].
  destruct (good_letter alphabet d3 Hg ltac:(lia)) as (Hb3 & Hdec & _). rewrite (proj2 (Z.eqb_neq _ _)) by lia.
  rewrite (land_mask (letter alphabet d3) 8 0xff), (Z.mod_small (letter alphabet d3)) by (done || lia). rewrite Hdec. cbn [obind].
  destruct (group_index k 3 Hk ltac:(lia)) as [-> ->]. change (3 =? 3) with true. cbv iota.
  match goal with |- context [Z.lor ?t (u32 (Z.shiftl d3 _))] => destruct (digit_added t d3 3) as [-> _]; [lia| |lia|] end.
  { change (6 * 0) with 0. change (6 * 1) with 6. change (6 * 2) with 12. change (6 * 3) with 18. lia. }
  pose proof (digits_value v Hv) as E. cbn zeta in E. fold d0 d1 d2 d3 in E. rewrite E, not_bad by done.
  destruct (triplet_bytes a b c Ha Hb Hc) as (T1 & T2 & T3). fold v in T1, T2, T3. rewrite T1, T2, T3, write_ok by (change (zlen [a; b; c]) with 3; lia). cbn [obind]. f_equal. lia.
Qed.

(** All groups of four, reading ahead of what is written. *)
Lemma decode_groups src dst limit rest gs : 0 <= dst -> forall k m fuel,
  0 <= k -> bytes_ok (ungroup gs) -> holds_at m (src + 4 * k) (quads alphabet gs ++ rest) ->
  dst <= src \/ src + 4 * (k + zlen gs) + zlen rest <= dst -> dst + 3 * (k + zlen gs) <= zlen m -> 4 * (k + zlen gs) <= limit ->
  let m' := list_write (Z.to_nat (dst + 3 * k)) (ungroup gs) m in
  b64decode_loop (4 * length gs + fuel) m src dst limit (4 * k) 0 = b64decode_loop fuel m' src dst limit (4 * (k + zlen gs)) 0 /\
  holds_at m' (src + 4 * (k + zlen gs)) rest.
Proof.
  intros Hd. induction gs as [|[[a b] c] gs IH]; intros k m fuel Hk Hb Hh Ha Hr Hl.
  { change (zlen (@nil (Z * Z * Z))) with 0. rewrite Z.add_0_r. cbn zeta. change (ungroup []) with (@nil Z). unfold list_write. cbn [app length].
    rewrite Nat.add_0_r, take_drop. by split. }
  assert (Hz : zlen ((a, b, c) :: gs) = zlen gs + 1) by (unfold zlen; cbn [length]; lia). rewrite Hz in *. pose proof (zlen_nonneg gs). pose proof (zlen_nonneg rest).
  change (ungroup ((a, b, c) :: gs)) with ([a; b; c] ++ ungroup gs) in *. change (quads alphabet ((a, b, c) :: gs)) with (quad alphabet (a, b, c) ++ quads alphabet gs) in Hh.
  rewrite <- app_assoc in Hh. apply holds_app in Hh as [H4 Hrest]. rewrite zlen_quad in Hrest.
  apply Forall_app in Hb as [Hb3 Hb]. rewrite !Forall_cons in Hb3. destruct Hb3 as (Ba & Bb & Bc & _).
  replace (4 * length ((a, b, c) :: gs) + fuel)%nat with (4 + (4 * length gs + fuel))%nat by (cbn [length]; lia).
  rewrite (decode_group _ m src dst limit k a b c) by (done || lia).
  assert (Z3 : zlen [a; b; c] = 3) by done. set (m1 := list_write (Z.to_nat (dst + 3 * k)) [a; b; c] m). assert (L1 : zlen m1 = zlen m) by (apply write_length; lia).
  destruct (IH (k + 1) m1 fuel) as [-> Hr']; [lia|done| |lia|lia|lia|].
  - replace (src + 4 * (k + 1)) with (src + 4 * k + 4) by lia. apply holds_frame; [lia|lia| |done]. rewrite zlen_app, zlen_quads. lia.
  - cbn zeta in *. replace (k + (zlen gs + 1)) with (k + 1 + zlen gs) by lia.
    assert (E : list_write (Z.to_nat (dst + 3 * (k + 1))) (ungroup gs) m1 = list_write (Z.to_nat (dst + 3 * k)) ([a; b; c] ++ ungroup gs) m).
    { replace (Z.to_nat (dst + 3 * (k + 1))) with (Z.to_nat (dst + 3 * k) + length [a; b; c])%nat by (cbn [length]; lia).
      apply write_after. pose proof (zlen_ungroup gs). unfold zlen in *. lia. }
    rewrite <- E. by split.
Qed.

Lemma loop_end fuel m src dst limit i t :
  0 <= i <= limit -> (i < limit -> rd m (src + i) = Done 0) -> b64decode_loop (S fuel) m src dst limit i t = Done (Some (i, t), m).
Proof.
  intros Hi H0. cbn [b64decode_loop]. destruct (Z.ltb_spec i limit); [|done]. cbn [negb]. rewrite H0 by done. done.
Qed.

(** The letters after the last full group. *)
Lemma decode_tail fuel src dst limit k t m :
  0 <= k -> (length t <= 2)%nat -> bytes_ok t -> holds_at m (src + 4 * k) (b64_text alphabet t ++ [0]) ->
  4 * k + zlen (b64_text alphabet t) <= limit -> (length (b64_text alphabet t) < fuel)%nat ->
  b64decode_loop fuel m src dst limit (4 * k) 0 = Done (Some (4 * k + zlen (b64_text alphabet t), le_val t), m).
Proof.
  intros Hk Ht Hb Hh Hl Hf. assert (H0 : rd m (src + (4 * k + zlen (b64_text alphabet t))) = Done 0).
  { apply holds_app in Hh as [_ Hz]. pose proof (holds_rd _ _ _ 0 0 Hz eq_refl) as R. by rewrite Z.add_0_r, <- Z.add_assoc in R. }
  assert (R : forall (j : nat) d, b64_text alphabet t !! j = Some (letter alphabet d) -> rd m (src + (4 * k + Z.of_nat j)) = Done (letter alphabet d)).
  { intros j d Hj. rewrite Z.add_assoc. apply holds_app in Hh as [Hh _]. by apply (holds_rd _ _ _ j _ Hh). }
  destruct t as [|a [|b [|]]]; [| | |cbn in Ht; lia].
  - change (zlen (b64_text alphabet [])) with 0 in *. rewrite Z.add_0_r in *. destruct fuel as [|fuel]; [cbn in Hf; lia|]. rewrite loop_end; [done|lia|done].
  - change (zlen (b64_text alphabet [a])) with 2 in *. apply Forall_cons in Hb as [Ha _].
    pose proof (R 0%nat (a mod 64) eq_refl) as R0. pose proof (R 1%nat (a / 64 mod 64) eq_refl) as R1. pose proof (mod64 a). pose proof (mod64 (a / 64)).
    replace (4 * k) with (4 * k + 0) at 1 by lia. destruct fuel as [|[|[|fuel]]]; try (cbn in Hf; lia).
    rewrite (decode_digit _ _ _ _ _ k 0 0 (a mod 64)) by (done || lia). change (0 + 1) with 1.
    rewrite (decode_digit _ _ _ _ _ k 1 _ (a / 64 mod 64)) by (done || lia). change (1 + 1) with 2.
    rewrite loop_end; [|lia|done]. pose proof (digits_value a ltac:(lia)) as E. cbn zeta in E.
    assert (E2 : a / 64 / 64 = 0) by (rewrite Z.div_div by lia; apply Z.div_small; lia).
    rewrite E2, Z.div_0_l, Z.mod_0_l, !Z.mul_0_l, !Z.add_0_r in E by lia. rewrite E. by replace (le_val [a]) with a by (cbn [le_val]; lia).
  - change (zlen (b64_text alphabet [a; b])) with 3 in *. unfold bytes_ok in Hb. rewrite !Forall_cons in Hb. destruct Hb as (Ha & Hb & _). set (v := a + 2 ^ 8 * b) in *.
    pose proof (R 0%nat (v mod 64) eq_refl) as R0. pose proof (R 1%nat (v / 64 mod 64) eq_refl) as R1. pose proof (R 2%nat (v / 64 / 64 mod 64) eq_refl) as R2.
    pose proof (mod64 v). pose proof (mod64 (v / 64)). pose proof (mod64 (v / 64 / 64)). replace (4 * k) with (4 * k + 0) at 1 by lia.
    destruct fuel as [|[|[|[|fuel]]]]; try (cbn in Hf; lia).
    rewrite (decode_digit _ _ _ _ _ k 0 0 (v mod 64)) by (done || lia). change (0 + 1) with 1.
    rewrite (decode_digit _ _ _ _ _ k 1 _ (v / 64 mod 64)) by (done || lia). change (1 + 1) with 2.
    rewrite (decode_digit _ _ _ _ _ k 2 _ (v / 64 / 64 mod 64)) by (done || lia). change (2 + 1) with 3.
    rewrite loop_end; [|lia|done]. assert (Hv : 0 <= v < 2 ^ 16) by (unfold v; lia). pose proof (digits_value v ltac:(lia)) as E. cbn zeta in E.
    assert (E3 : v / 64 / 64 / 64 = 0) by (rewrite !Z.div_div by lia; apply Z.div_small; lia). rewrite E3, Z.mod_0_l, Z.mul_0_l, Z.add_0_r in E by lia.
    rewrite E. by replace (le_val [a; b]) with v by (unfold v; cbn [le_val]; lia).
Qed.

Lemma b64decode_ok m src dst l length :
  0 <= dst -> bytes_ok l -> holds_at m src (b64_text alphabet l ++ [0]) -> dst <= src \/ src + zlen (b64_text alphabet l) + 1 <= dst ->
  dst + zlen l <= zlen m -> zlen (b64_text alphabet l) <= length / 3 * 4 < 2 ^ 31 ->
  b64decode m src dst length = Done (zlen l, list_write (Z.to_nat dst) l m).
Proof.
  intros Hd Hb Hh Ha Hr [Hl Hf]. destruct (grouped l) as (gs & t & -> & Ht). rewrite text_groups in *. rewrite zlen_app, zlen_quads in Ha, Hl.
  rewrite <- app_assoc in Hh. rewrite zlen_app, zlen_ungroup in *. apply Forall_app in Hb as [Hb0 Hb1]. pose proof (zlen_nonneg gs). pose proof (zlen_nonneg t).
  assert (Hz : zlen (b64_text alphabet t ++ [0]) = zlen (b64_text alphabet t) + 1) by (rewrite zlen_app; done). pose proof (zlen_nonneg (b64_text alphabet t)).
  assert (0 <= length) by (destruct (Z.le_gt_cases 0 length); [done|]; pose proof (Z.div_lt_upper_bound length 3 0); lia).
  unfold b64decode. destruct (quot_div length ltac:(done)) as [-> _]. set (limit := length / 3 * 4) in *.
  rewrite int32_fits by lia. cbn [obind]. set (fuel := (S (Z.to_nat limit) - 4 * List.length gs)%nat).
  replace (S (Z.to_nat limit)) with (4 * List.length gs + fuel)%nat by (unfold fuel, zlen in *; lia).
  destruct (decode_groups src dst limit (b64_text alphabet t ++ [0]) gs Hd 0 m fuel) as [E Hh']; [lia|done|by rewrite Z.mul_0_r, Z.add_0_r|lia|lia|lia|].
  cbn zeta in *. rewrite Z.mul_0_r, Z.add_0_r, Z.add_0_l in *. rewrite E. set (m1 := list_write _ _ m) in *.
  assert (L1 : zlen m1 = zlen m) by (apply write_length; [done|rewrite zlen_ungroup; lia]).
  rewrite (decode_tail fuel src dst limit (zlen gs) t m1) by (done || lia || (unfold fuel, zlen in *; lia)). cbn [obind].
  assert (Em : list_write (Z.to_nat (dst + 3 * zlen gs)) t m1 = list_write (Z.to_nat dst) (ungroup gs ++ t) m).
  { replace (Z.to_nat (dst + 3 * zlen gs)) with (Z.to_nat dst + List.length (ungroup gs))%nat by (pose proof (zlen_ungroup gs); unfold zlen in *; lia).
    apply write_after. pose proof (zlen_ungroup gs). unfold zlen in *. lia. }
  destruct t as [|a [|b [|]]]; [| | |cbn in Ht; lia].
  - change (zlen (b64_text alphabet [])) with 0 in *. change (zlen (@nil Z)) with 0. rewrite not_bad by (cbn; lia). rewrite !Z.add_0_r.
    destruct (group_index (zlen gs) 0 ltac:(lia) ltac:(lia)) as [E1 E2]. rewrite Z.add_0_r in E1, E2. rewrite E1, E2. change (0 =? 3) with false. change (0 =? 2) with false. cbv iota. rewrite app_nil_r, (Z.mul_comm _ 3). done.
  - change (zlen (b64_text alphabet [a])) with 2 in *. change (zlen [a]) with 1 in *. apply Forall_cons in Hb1 as [Hba _]. assert (Ev : le_val [a] = a) by (cbn [le_val]; lia). rewrite Ev.
    rewrite not_bad by lia. destruct (group_index (zlen gs) 2 ltac:(lia) ltac:(lia)) as [-> ->]. change (2 =? 3) with false. change (2 =? 2) with true. cbv iota. rewrite (land_mask a 8 0xff), Z.mod_small by (done || lia).
    rewrite write_ok by (change (zlen [a]) with 1; lia). cbn [obind]. rewrite Em, (Z.mul_comm _ 3). done.
  - change (zlen (b64_text alphabet [a; b])) with 3 in *. change (zlen [a; b]) with 2 in *. rewrite !Forall_cons in Hb1. destruct Hb1 as (Hba & Hbb & _).
    assert (Ev : le_val [a; b] = a + 2 ^ 8 * b + 2 ^ 16 * 0) by (cbn [le_val]; lia). rewrite Ev. destruct (triplet_bytes a b 0 Hba Hbb ltac:(lia)) as (T1 & T2 & _).
    rewrite not_bad by lia. destruct (group_index (zlen gs) 3 ltac:(lia) ltac:(lia)) as [-> ->]. change (3 =? 3) with true. cbv iota. rewrite T1, T2.
    rewrite write_ok by (change (zlen [a; b]) with 2; lia). cbn [obind]. rewrite Em, (Z.mul_comm _ 3). done.
Qed.
End Decode.

(** ** Hexadecimal *)

Definition hexdigit (d : Z) : Z := default 0 (hexadecimals !! Z.to_nat d).
Definition hexpair (b : Z) : list Z := [hexdigit (b / 16); hexdigit (b mod 16)].
Definition hex_text (l : list Z) : list Z := concat (map hexpair l).

Lemma hexdigit_ok d : 0 <= d < 16 -> rd hexadecimals d = Done (hexdigit d) /\ isxdigit (hexdigit d) = true /\ charhex2bin (hexdigit d) = d.
Proof.
  intros Hd. assert (H : forallb (fun d => bool_decide (hexadecimals !! Z.to_nat d = Some (hexdigit d)) && isxdigit (hexdigit d) && (charhex2bin (hexdigit d) =? d)) (seqZ 0 16) = true)
    by (vm_compute; reflexivity).
  rewrite forallb_forall in H. specialize (H d ltac:(apply list_elem_of_In, elem_of_seqZ; lia)). ztests. apply bool_decide_eq_true in H.
  splits; [apply rd_ok; [lia|done]|done|done].
Qed.

Lemma zlen_hex l : zlen (hex_text l) = 2 * zlen l.
Proof. induction l as [|b l IH]; [done|]. unfold zlen, hex_text in *. cbn [map concat hexpair app length]. lia. Qed.

Lemma nibbles b : 0 <= b < 256 -> 0 <= b / 16 < 16 /\ 0 <= b mod 16 < 16.
Proof. intros Hb. split; [split; [apply Z.div_pos; lia|apply Z.div_lt_upper_bound; lia]|apply Z.mod_pos_bound; lia]. Qed.

Lemma write_two {X} o (x y : X) m : (o + 2 <= length m)%nat -> list_write o [x] (list_write (o + 1) [y] m) = list_write o [x; y] m.
Proof. intros H. apply (write_before o [x] [y]). cbn [length]. lia. Qed.

Lemma bin2hex_loop_ok src dst l : 0 <= dst -> forall m,
  bytes_ok l -> holds_at m src l -> src <= dst \/ dst + 2 * zlen l <= src -> dst + 2 * zlen l <= zlen m -> 2 * zlen l < 2 ^ 31 ->
  bin2hex_loop (length l) m src dst = Done (list_write (Z.to_nat dst) (hex_text l) m).
Proof.
  intros Hd. induction l as [|b l IH] using rev_ind; intros m Hb Hh Ha Hr Hf.
  { change (hex_text []) with (@nil Z). cbn [bin2hex_loop length]. unfold list_write. cbn [app length]. by rewrite Nat.add_0_r, take_drop. }
  assert (Hz : zlen (l ++ [b]) = zlen l + 1) by (rewrite zlen_app; done). rewrite Hz in *. pose proof (zlen_nonneg l).
  rewrite length_app, Nat.add_1_r. cbn [bin2hex_loop]. fold (zlen l). apply Forall_app in Hb as [Hb Hb1]. rewrite Forall_singleton in Hb1.
  destruct (nibbles b Hb1) as [Hn1 Hn2]. apply holds_app in Hh as [H0 H1]. pose proof (holds_rd _ _ _ 0 b H1 eq_refl) as R. rewrite Z.add_0_r in R.
  rewrite R. cbn [obind]. rewrite (land_mask b 4 15) by (done || lia). change (2 ^ 4) with 16. destruct (hexdigit_ok (b mod 16) Hn2) as (-> & _ & _). cbn [obind].
  rewrite int32_fits by lia. cbn [obind]. rewrite int32_fits by lia. cbn [obind].
  rewrite write_ok by (lia || (change (zlen [hexdigit (b mod 16)]) with 1; lia)). cbn [obind]. set (m1 := list_write _ _ m).
  assert (L1 : zlen m1 = zlen m) by (apply write_length; (lia || (change (zlen [hexdigit (b mod 16)]) with 1; lia))).
  assert (H1' : holds_at m1 (src + zlen l) [b]) by (apply holds_frame; [lia|change (zlen [hexdigit (b mod 16)]) with 1; lia|change (zlen [hexdigit (b mod 16)]) with 1; change (zlen [b]) with 1; lia|done]).
  pose proof (holds_rd _ _ _ 0 b H1' eq_refl) as R'. rewrite Z.add_0_r in R'. rewrite R'. cbn [obind].
  rewrite shiftr_div by lia. change (2 ^ 4) with 16. destruct (hexdigit_ok (b / 16) Hn1) as (-> & _ & _). cbn [obind].
  rewrite write_ok by (lia || (change (zlen [hexdigit (b / 16)]) with 1; lia)). cbn [obind].
  assert (E : list_write (Z.to_nat (dst + zlen l * 2)) [hexdigit (b / 16)] m1 = list_write (Z.to_nat (dst + 2 * zlen l)) (hexpair b) m).
  { unfold m1. replace (Z.to_nat (dst + (zlen l * 2 + 1))) with (Z.to_nat (dst + 2 * zlen l) + 1)%nat by lia.
    replace (Z.to_nat (dst + zlen l * 2)) with (Z.to_nat (dst + 2 * zlen l)) by lia. apply write_two. unfold zlen in *. lia. }
  rewrite E. assert (Hp : zlen (hexpair b) = 2) by done. rewrite IH; [|done| |lia| |lia].
  - f_equal. unfold hex_text. rewrite map_app, concat_app. cbn [map concat]. rewrite app_nil_r. fold (hex_text l). pose proof (zlen_hex l).
    replace (Z.to_nat (dst + 2 * zlen l)) with (Z.to_nat dst + length (hex_text l))%nat by (unfold zlen in *; lia). apply write_before. unfold zlen in *. lia.
  - apply holds_frame; [lia|lia|lia|done].
  - rewrite write_length by lia. lia.
Qed.

Lemma bin2hex_ok m src dst l :
  0 <= dst -> bytes_ok l -> holds_at m src l -> src <= dst \/ dst + 2 * zlen l <= src -> dst + 2 * zlen l + 1 <= zlen m ->
  2 * zlen l < 2 ^ 31 ->
  bin2hex m src dst (zlen l) = Done (2 * zlen l, list_write (Z.to_nat dst) (hex_text l ++ [0]) m).
Proof.
  intros Hd Hb Hh Ha Hr Hf. unfold bin2hex. replace (Z.to_nat (zlen l)) with (length l) by (unfold zlen; lia). pose proof (zlen_nonneg l).
  rewrite (bin2hex_loop_ok src dst l Hd m) by (done || lia). cbn [obind]. pose proof (zlen_hex l). rewrite int32_fits by lia. cbn [obind].
  rewrite write_ok by (lia || (rewrite write_length by lia; change (zlen [0]) with 1; lia)). cbn [obind]. rewrite (Z.mul_comm (zlen l)).
  replace (Z.to_nat (dst + 2 * zlen l)) with (Z.to_nat dst + length (hex_text l))%nat by (unfold zlen in *; lia).
  rewrite write_after by (unfold zlen in *; cbn [length]; lia). done.
Qed.

Lemma hex2bin_loop_ok src dst length l : 0 <= dst -> forall k m fuel,
  0 <= k -> bytes_ok l -> holds_at m (src + 2 * k) (hex_text l ++ [0]) -> dst <= src \/ src + 2 * (k + zlen l) + 1 <= dst ->
  dst + k + zlen l <= zlen m -> k + zlen l <= length -> (List.length l < fuel)%nat -> 2 * (k + zlen l) < 2 ^ 31 ->
  hex2bin_loop fuel m src dst length k = Done (k + zlen l, list_write (Z.to_nat (dst + k)) l m).
Proof.
  intros Hd. induction l as [|b l IH]; intros k m fuel Hk Hb Hh Ha Hr Hl Hf H31; (destruct fuel as [|fuel]; [lia|]); cbn [hex2bin_loop].
  - assert (E : list_write (Z.to_nat (dst + k)) [] m = m) by (unfold list_write; cbn [app List.length]; by rewrite Nat.add_0_r, take_drop).
    rewrite E. change (zlen (@nil Z)) with 0. rewrite Z.add_0_r. destruct (Z.ltb_spec k length); cbn [negb]; [|done].
    change (zlen (@nil Z)) with 0 in H31. rewrite int32_fits by lia. cbn [obind]. pose proof (holds_rd _ _ _ 0 0 Hh eq_refl) as R. rewrite Z.add_0_r, (Z.mul_comm 2) in R. rewrite R. done.
  - assert (Hz : zlen (b :: l) = zlen l + 1) by (unfold zlen; cbn [List.length]; lia). rewrite Hz in *. pose proof (zlen_nonneg l).
    rewrite (proj2 (Z.ltb_lt _ _)) by lia. cbn [negb]. apply Forall_cons in Hb as [Hb1 Hb]. destruct (nibbles b Hb1) as [Hn1 Hn2].
    change (hex_text (b :: l)) with (hexpair b ++ hex_text l) in Hh. rewrite <- app_assoc in Hh. apply holds_app in Hh as [H2 Hh]. change (zlen (hexpair b)) with 2 in Hh.
    destruct (hexdigit_ok (b / 16) Hn1) as (_ & X1 & C1). destruct (hexdigit_ok (b mod 16) Hn2) as (_ & X2 & C2).
    pose proof (holds_rd _ _ _ 0 _ H2 eq_refl) as Ra. pose proof (holds_rd _ _ _ 1 _ H2 eq_refl) as Rb. rewrite Z.add_0_r in Ra. change (Z.of_nat 1) with 1 in Rb.
    rewrite int32_fits by lia. cbn [obind]. replace (src + k * 2) with (src + 2 * k) by lia.
    rewrite Ra. cbn [obind]. rewrite X1. cbn [negb]. rewrite int32_fits by lia. cbn [obind]. replace (src + (k * 2 + 1)) with (src + 2 * k + 1) by lia. rewrite Rb. cbn [obind]. rewrite X2. cbn [negb]. rewrite C1, C2.
    assert (Eb : u8 (b / 16 * 16 + b mod 16) = b) by (pose proof (Z.div_mod b 16 ltac:(lia)); unfold u8; rewrite Z.mod_small; lia). rewrite Eb.
    assert (Z1 : zlen [b] = 1) by done. rewrite write_ok by lia. cbn [obind]. set (m1 := list_write _ _ m).
    assert (L1 : zlen m1 = zlen m) by (apply write_length; lia). rewrite IH; [|lia|done| |lia|lia|lia|cbn [List.length] in Hf; lia|lia].
    + f_equal. f_equal; [lia|]. unfold m1. replace (Z.to_nat (dst + (k + 1))) with (Z.to_nat (dst + k) + List.length [b])%nat by (cbn [List.length]; lia).
      rewrite write_after by (unfold zlen in *; cbn [List.length]; lia). done.
    + replace (src + 2 * (k + 1)) with (src + 2 * k + 2) by lia. apply holds_frame; [lia|lia| |done].
      rewrite zlen_app, zlen_hex. change (zlen [0]) with 1. lia.
Qed.

(** ** What callers rely on *)

Lemma text_no_nul alphabet l : good alphabet -> bytes_ok l -> Forall (fun c => 0 < c < 256) (b64_text alphabet l).
Proof.
  intros Hg Hb. destruct (grouped l) as (gs & t & -> & Ht). assert (Hd : forall k v, Forall (fun c => 0 < c < 256) (letter alphabet <$> digits k v)).
  { intros k. induction k as [|k IH]; intros v; [apply Forall_nil_2|]. cbn [digits fmap list_fmap]. apply Forall_cons. split; [|apply IH].
    apply (good_letter alphabet _ Hg), mod64. }
  rewrite text_groups. apply Forall_app_2.
  - clear Hb. induction gs as [|[[a b] c] gs IH]; [apply Forall_nil_2|]. change (quads alphabet ((a, b, c) :: gs)) with (quad alphabet (a, b, c) ++ quads alphabet gs).
    apply Forall_app_2; [apply Hd|done].
  - destruct t as [|a [|b [|]]]; [apply Forall_nil_2|apply Hd|apply Hd|cbn in Ht; lia].
Qed.

Definition encode (urlsafe : bool) := if urlsafe then b64encode_urlsafe else b64encode.
Definition alphabet_of (urlsafe : bool) : list Z := if urlsafe then base64_urlsafe else base64_original.

Lemma alphabet_good urlsafe : good (alphabet_of urlsafe).
Proof. destruct urlsafe; [apply urlsafe_good|apply original_good]. Qed.

(** Base64, in either alphabet and in place as well as into another place: any byte
    string whose text is shorter than [2 ^ 31] (the lengths are [int]) is encoded as its text, four letters for three bytes, without a NUL and
    followed by one, and nothing else in the object changes; decoding the text, in
    place or elsewhere, with a length that covers it and does not overflow gives the bytes back and
    their number.  The number that encoding returns is that of the letters only
    when the number of bytes is a multiple of three; else it is one less. *)
Theorem base64_round_trip (urlsafe : bool) (m : list Z) (src dst : Z) (l : list Z) :
  bytes_ok l -> holds_at m src l -> 0 <= dst ->
  let text := b64_text (alphabet_of urlsafe) l in
  src <= dst \/ dst + zlen text + 1 <= src -> dst + zlen text + 1 <= zlen m -> zlen text < 2 ^ 31 ->
  exists m1, encode urlsafe m src dst (zlen l) = Done (zlen text - (if zlen l mod 3 =? 0 then 0 else 1), m1) /\
    m1 = list_write (Z.to_nat dst) (text ++ [0]) m /\ Forall (fun c => 0 < c < 256) text /\
    forall dst' length, 0 <= dst' -> dst' <= dst \/ dst + zlen text + 1 <= dst' -> dst' + zlen l <= zlen m -> zlen text <= length / 3 * 4 < 2 ^ 31 ->
      b64decode m1 dst dst' length = Done (zlen l, list_write (Z.to_nat dst') l m1).
Proof.
  intros Hb Hh Hd text Ha Hr Hf. pose proof (alphabet_good urlsafe) as Hg. assert (Ht : zlen (text ++ [0]) = zlen text + 1) by (rewrite zlen_app; done).
  pose proof (zlen_nonneg text). eexists. split; [|split; [reflexivity|split]].
  - replace (encode urlsafe m src dst (zlen l)) with (b64encode_internal m src dst (zlen l) (alphabet_of urlsafe)) by (by destruct urlsafe).
    rewrite (b64encode_ok _ m src dst l) by done. do 2 f_equal. unfold text. rewrite zlen_text. unfold tail_length. destruct (_ =? 0) eqn:E; ztests; lia.
  - by apply text_no_nul.
  - intros dst' length H0 H1 H2 H3. apply (b64decode_ok (alphabet_of urlsafe)); try done.
    + apply holds_write; [done|]. fold text. lia.
    + by rewrite write_length by (fold text; lia).
Qed.

Lemma base64_round_trip_witness :
  let m := [1; 2; 3; 250; 5] ++ replicate 8 9 in
  exists m1, b64encode_urlsafe m 0 0 5 = Done (6, m1) /\ b64decode m1 0 0 7 = Done (5, list_write 0 [1; 2; 3; 250; 5] m1).
Proof.
  destruct (base64_round_trip true ([1; 2; 3; 250; 5] ++ replicate 8 9) 0 0 [1; 2; 3; 250; 5]) as (m1 & E & _ & _ & D).
  - repeat constructor; lia.
  - split; [lia|]. intros i b Hi. by apply lookup_app_l_Some.
  - lia.
  - left. lia.
  - vm_compute. discriminate.
  - reflexivity.
  - exists m1. split; [exact E|]. apply (D 0 7); [lia|left; lia|vm_compute; discriminate|split; [vm_compute; discriminate|reflexivity]].
Defined.

(** Hexadecimal likewise: [bin2hex] followed by [hex2bin], each in place or into
    another place, gives the bytes back and their number, if the digits are fewer than [2 ^ 31]. *)
Theorem hex_round_trip (m : list Z) (src dst : Z) (l : list Z) :
  bytes_ok l -> holds_at m src l -> 0 <= dst -> src <= dst \/ dst + 2 * zlen l <= src -> dst + 2 * zlen l + 1 <= zlen m -> 2 * zlen l < 2 ^ 31 ->
  exists m1, bin2hex m src dst (zlen l) = Done (2 * zlen l, m1) /\ m1 = list_write (Z.to_nat dst) (hex_text l ++ [0]) m /\
    forall dst' length, 0 <= dst' -> dst' <= dst \/ dst + 2 * zlen l + 1 <= dst' -> dst' + zlen l <= zlen m -> zlen l <= length ->
      hex2bin m1 dst dst' length = Done (zlen l, list_write (Z.to_nat dst') l m1).
Proof.
  intros Hb Hh Hd Ha Hr Hf. pose proof (zlen_nonneg l). assert (Ht : zlen (hex_text l ++ [0]) = 2 * zlen l + 1) by (rewrite zlen_app, zlen_hex; done).
  eexists. split; [by apply bin2hex_ok|]. split; [done|]. intros dst' length H0 H1 H2 H3. unfold hex2bin.
  rewrite (hex2bin_loop_ok dst dst' length l H0 0); rewrite ?Z.add_0_r; try done; try lia.
  - apply holds_write; [done|lia].
  - rewrite write_length by lia. lia.
  - unfold zlen in *. lia.
Qed.

Lemma hex_round_trip_witness :
  let m := [16; 255; 7] ++ replicate 6 9 in
  exists m1, bin2hex m 0 0 3 = Done (6, m1) /\ hex2bin m1 0 0 3 = Done (3, list_write 0 [16; 255; 7] m1).
Proof.
  destruct (hex_round_trip ([16; 255; 7] ++ replicate 6 9) 0 0 [16; 255; 7]) as (m1 & E & _ & D).
  - repeat constructor; lia.
  - split; [lia|]. intros i b Hi. by apply lookup_app_l_Some.
  - lia.
  - left. lia.
  - vm_compute. discriminate.
  - reflexivity.
  - exists m1. split; [exact E|]. apply (D 0 3); [lia|left; lia|vm_compute; discriminate|vm_compute; discriminate].
Defined.
