(* ===== verification/MetaBuffer.v ===== *)
(** The buffers of meta-connections (src/src/buffer.c).

    A buffer is the C struct with the object it owns, [None] for NULL; a pointer
    into the buffer is an offset.  The contents of a buffer are the bytes between
    [offset] and [len]; the theorem says that the operations make a queue of them.
    Memory comes from xmalloc and xrealloc, which abort instead of failing. *)
From S2P Require Import Prelude Bytes.

Record buffer_t := MBuffer { b_data : option (list Z); b_maxlen : Z; b_len : Z; b_offset : Z }.

Definition buffer_empty : buffer_t := MBuffer None 0 0 0.

(** The object behind [data]; reading through NULL stops. *)
Definition buffer_object (b : buffer_t) : outcome (list Z) :=
  match b_data b with Some d => Done d | None => Stop OutOfBounds end.

(** [memmove] of the contents to the start; nothing is moved when there are none. *)
Definition buffer_move (b : buffer_t) : outcome buffer_t :=
  let n := u64 (b_len b - b_offset b) in
  if n =? 0 then Done (MBuffer (b_data b) (b_maxlen b) n 0)
  else
    let* d := buffer_object b in
    let* c := mem_read d (b_offset b) n in
    let* d := mem_write d 0 c in
    Done (MBuffer (Some d) (b_maxlen b) n 0).

Definition buffer_compact (b : buffer_t) (maxsize : Z) : outcome buffer_t :=
  if (maxsize <=? b_len b) || (b_len b / 8 <? b_offset b / 7) then buffer_move b else Done b.

(** Make sure we can add size bytes to the buffer, and return a pointer to the start of those bytes. *)
Definition buffer_prepare (junk : Z -> Z) (b : buffer_t) (size : Z) : outcome (Z * buffer_t) :=
  let al := Alloc true junk in
  let* b :=
    match b_data b with
    | None =>
        let* _ := assert_ (b_maxlen b =? 0) in
        Done (MBuffer (Some (mem_fresh al 0 size)) size (b_len b) (b_offset b))
    | Some _ =>
        let* b := (if negb (b_offset b =? 0) && (b_maxlen b <? u64 (b_len b + size)) then buffer_move b else Done b) in
        let* d := buffer_object b in
        let n := u64 (b_len b + size) in
        Done (if b_maxlen b <? n then MBuffer (Some (mem_realloc al d n)) n (b_len b) (b_offset b) else b)
    end in
  Done (b_len b, MBuffer (b_data b) (b_maxlen b) (u64 (b_len b + size)) (b_offset b)).

(** Copy data into the buffer. *)
Definition buffer_add (junk : Z -> Z) (b : buffer_t) (data : list Z) : outcome buffer_t :=
  let* _ := assert_ (negb (zlen data =? 0)) in
  let* (start, b) := buffer_prepare junk b (zlen data) in
  let* d := buffer_object b in
  let* d := mem_write d start data in
  Done (MBuffer (Some d) (b_maxlen b) (b_len b) (b_offset b)).

(** Remove given number of bytes from the buffer, return a pointer to the start of them. *)
Definition buffer_consume (b : buffer_t) (size : Z) : outcome (Z * buffer_t) :=
  let* _ := assert_ (negb (size =? 0)) in
  let* _ := assert_ (size <=? u64 (b_len b - b_offset b)) in
  let start := b_offset b in
  let off := u64 (b_offset b + size) in
  Done (start, if b_len b <=? off then MBuffer (b_data b) (b_maxlen b) 0 0 else MBuffer (b_data b) (b_maxlen b) (b_len b) off).

(** [memchr]: the index of the first [c]. *)
Fixpoint memchr (c : Z) (l : list Z) : option Z :=
  match l with [] => None | x :: l => if x =? c then Some 0 else Z.succ <$> memchr c l end.

(** Check if there is a complete line in the buffer, and if so, return it NULL-terminated. *)
Definition buffer_readline (b : buffer_t) : outcome (option Z * buffer_t) :=
  let n := u64 (b_len b - b_offset b) in
  if n =? 0 then Done (None, b)
  else
    let* d := buffer_object b in
    let* c := mem_read d (b_offset b) n in
    match memchr 10 c with
    | None => Done (None, b)
    | Some p =>
        let* d := mem_write d (b_offset b + p) [0] in
        let* (start, b) := buffer_consume (MBuffer (Some d) (b_maxlen b) (b_len b) (b_offset b)) (p + 1) in
        Done (Some start, b)
    end.

(** Check if we have enough bytes in the buffer, and if so, return a pointer to the start of them. *)
Definition buffer_read (b : buffer_t) (size : Z) : outcome (option Z * buffer_t) :=
  let* _ := assert_ (negb (size =? 0)) in
  if u64 (b_len b - b_offset b) <? size then Done (None, b)
  else let* (start, b) := buffer_consume b size in Done (Some start, b).

Definition buffer_clear (b : buffer_t) : outcome buffer_t :=
  let* _ := assert_ (bool_decide ((b_data b = None) <-> (b_maxlen b = 0))) in
  Done buffer_empty.

(** ** A queue of bytes *)

Definition object (b : buffer_t) : list Z := default [] (b_data b).
Definition contents (b : buffer_t) : list Z := slice (Z.to_nat (b_offset b)) (Z.to_nat (b_len b - b_offset b)) (object b).

Record buf_wf (b : buffer_t) : Prop := {
  bw_offset : 0 <= b_offset b <= b_len b;
  bw_len : b_len b <= b_maxlen b;
  bw_maxlen : b_maxlen b = zlen (object b);
  bw_data : b_data b = None <-> b_maxlen b = 0;
  bw_fits : b_maxlen b < 2 ^ 63;
}.

Lemma empty_wf : buf_wf buffer_empty /\ contents buffer_empty = [].
Proof. split; [|done]. split; cbn; (done || lia). Qed.

Lemma contents_length b : buf_wf b -> zlen (contents b) = b_len b - b_offset b.
Proof. intros []. unfold contents, zlen in *. rewrite length_slice. lia. Qed.

Lemma len_small b : buf_wf b -> u64 (b_len b - b_offset b) = b_len b - b_offset b.
Proof. intros []. apply u64_small. lia. Qed.

(** A nonempty buffer has an object. *)
Lemma has_object b : buf_wf b -> 0 < b_maxlen b -> exists d, b_data b = Some d /\ object b = d.
Proof. intros Hw H. pose proof (proj1 (bw_data b Hw)) as Hn. unfold object. destruct (b_data b) as [d|]; [by exists d|]. specialize (Hn eq_refl). lia. Qed.

Lemma slice_at_start {X} (a : list X) n m : n = length a -> (length a <= length m)%nat -> slice 0 n (list_write 0 a m) = a.
Proof. intros -> H. unfold slice, list_write. rewrite drop_0, firstn_O. cbn [app]. by rewrite take_app_length. Qed.

Lemma contents_read b d : buf_wf b -> object b = d -> mem_read d (b_offset b) (b_len b - b_offset b) = Done (contents b).
Proof. intros [] <-. rewrite mem_read_ok by lia. done. Qed.

Lemma move_ok b : buf_wf b -> exists b', buffer_move b = Done b' /\ buf_wf b' /\ contents b' = contents b /\ b_maxlen b' = b_maxlen b /\
  b_offset b' = 0 /\ b_len b' = b_len b - b_offset b.
Proof.
  intros Hw. unfold buffer_move. rewrite len_small by done. destruct (Z.eqb_spec (b_len b - b_offset b) 0) as [E|E].
  - eexists. split; [done|]. cbn [b_maxlen b_offset b_len]. splits; try done.
    + destruct Hw as [W1 W2 W3 W4 W5]. split; cbn [b_data b_maxlen b_offset b_len]; [lia|lia|exact W3|exact W4|exact W5].
    + unfold contents. cbn [b_offset b_len]. by rewrite E, Z.sub_0_r.
  - destruct (has_object b Hw ltac:(destruct Hw; lia)) as (d & Hd & Ho). unfold buffer_object. rewrite Hd. cbn [obind].
    rewrite (contents_read b d Hw Ho). cbn [obind]. pose proof (contents_length b Hw) as Hl. pose proof (bw_maxlen b Hw) as Hm. rewrite Ho in Hm.
    rewrite mem_write_ok by (destruct Hw; lia). cbn [obind]. fold (list_write (Z.to_nat 0) (contents b) d). change (Z.to_nat 0) with 0%nat.
    assert (Hlen : length (list_write 0 (contents b) d) = length d) by (apply length_list_write; destruct Hw; unfold zlen in *; lia).
    eexists. split; [done|]. cbn [b_maxlen b_offset b_len]. splits; try done.
    + destruct Hw as [W1 W2 W3 W4 W5]. split; cbn [b_data b_maxlen b_offset b_len]; [lia|lia| | |exact W5].
      * change (object _) with (list_write 0 (contents b) d). unfold zlen in *. by rewrite Hlen.
      * split; [done|]. intros. lia.
    + unfold contents at 1. cbn [b_offset b_len object b_data default]. rewrite Z.sub_0_r. change (Z.to_nat 0) with 0%nat.
      apply slice_at_start; destruct Hw; unfold zlen in *; lia.
Qed.

Lemma slice_append {X} off start (data d : list X) :
  (off <= start)%nat -> (start + length data <= length d)%nat ->
  slice off (start - off + length data) (list_write start data d) = slice off (start - off) d ++ data.
Proof.
  intros Ho Hl. apply list_eq_lookup.
  { rewrite length_app, !length_slice, length_list_write by lia. lia. }
  intros i Hi. rewrite length_slice, length_list_write in Hi by lia. rewrite lookup_slice, lookup_list_write by lia. rewrite decide_True by lia.
  destruct (decide (i < start - off)%nat).
  - rewrite lookup_app_l by (rewrite length_slice; lia). rewrite lookup_slice, decide_False, decide_True by lia. done.
  - rewrite lookup_app_r by (rewrite length_slice; lia). rewrite decide_True by lia. f_equal. rewrite length_slice. lia.
Qed.

Lemma slice_prefix {X} off n (d e : list X) : (off + n <= length d)%nat -> slice off n (d ++ e) = slice off n d.
Proof. intros H. unfold slice. rewrite drop_app_le, take_app_le by (rewrite ?length_drop; lia). done. Qed.

(** Where the new bytes go: the object has room for them behind the contents. *)
Lemma prepare_ok junk b size :
  buf_wf b -> 1 <= size -> b_len b + size < 2 ^ 63 ->
  exists b' d, buffer_prepare junk b size = Done (b_len b' - size, b') /\ b_data b' = Some d /\ zlen d = b_maxlen b' /\ b_maxlen b' < 2 ^ 63 /\
    0 <= b_offset b' <= b_len b' - size /\ b_len b' <= b_maxlen b' /\ b_len b' <= b_len b + size /\
    slice (Z.to_nat (b_offset b')) (Z.to_nat (b_len b' - size - b_offset b')) d = contents b.
Proof.
  intros Hw Hs Hf. unfold buffer_prepare. destruct (b_data b) as [d0|] eqn:Hd.
  - assert (H1 : exists b1, (if negb (b_offset b =? 0) && (b_maxlen b <? u64 (b_len b + size)) then buffer_move b else Done b) = Done b1 /\
      buf_wf b1 /\ contents b1 = contents b /\ b_maxlen b1 = b_maxlen b /\ b_len b1 <= b_len b).
    { destruct (_ && _); [|exists b; splits; (done || lia)]. destruct (move_ok b Hw) as (b1 & E & W1 & C1 & M1 & O1 & L1). exists b1. splits; try done. destruct Hw. lia. }
    destruct H1 as (b1 & -> & W1 & C1 & M1 & L1). cbn [obind]. assert (Hp : 0 < b_maxlen b) by (pose proof (bw_data b Hw) as Hn; destruct Hw; pose proof (zlen_nonneg (object b)); destruct (decide (b_maxlen b = 0)) as [E|E]; [apply Hn in E; congruence|lia]).
    destruct (has_object b1 W1 ltac:(lia)) as (d1 & Hd1 & Ho1). unfold buffer_object. rewrite Hd1. cbn [obind]. pose proof (bw_maxlen b1 W1) as Z1. rewrite Ho1 in Z1.
    assert (Hb : 0 <= b_offset b1 <= b_len b1 /\ b_len b1 <= b_maxlen b1 < 2 ^ 63) by (destruct W1; lia). rewrite (u64_small (b_len b1 + size)) by lia.
    unfold contents in C1. rewrite Ho1 in C1. destruct (Z.ltb_spec (b_maxlen b1) (b_len b1 + size)); cbn [b_data b_maxlen b_len b_offset]; rewrite (u64_small (b_len b1 + size)) by lia.
    + eexists _, _. split; [f_equal; f_equal; cbn [b_len]; lia|]. cbn [b_data b_maxlen b_len b_offset]. split; [done|]. unfold mem_realloc. rewrite firstn_all2 by (unfold zlen in *; lia).
      splits; try lia; [rewrite zlen_app, zlen_fresh; lia|]. rewrite Z.add_simpl_r, slice_prefix by (unfold zlen in *; lia). done.
    + eexists _, d1. split; [f_equal; f_equal; cbn [b_len]; lia|]. cbn [b_data b_maxlen b_len b_offset]. splits; try (done || lia). rewrite Z.add_simpl_r. done.
  - pose proof (proj1 (bw_data b Hw) Hd) as Hm. assert (E0 : b_len b = 0 /\ b_offset b = 0) by (destruct Hw; lia). destruct E0 as [El Eo]. rewrite Hm. cbn [obind assert_ Z.eqb].
    cbn [b_data b_maxlen b_len b_offset]. rewrite El, Eo, u64_small by lia. eexists _, _. split; [f_equal; f_equal; cbn [b_len]; lia|]. cbn [b_data b_maxlen b_len b_offset].
    split; [done|]. unfold contents. rewrite El, Eo, zlen_fresh. splits; try lia. replace (0 + size - size - 0) with 0 by lia. done.
Qed.

Lemma add_ok junk b data :
  buf_wf b -> data <> [] -> b_len b + zlen data < 2 ^ 63 ->
  exists b', buffer_add junk b data = Done b' /\ buf_wf b' /\ contents b' = contents b ++ data /\ b_len b' <= b_len b + zlen data.
Proof.
  intros Hw Hn Hf. assert (Hs : 1 <= zlen data) by (destruct data; [done|]; unfold zlen; cbn [length]; lia). unfold buffer_add, assert_.
  rewrite (proj2 (Z.eqb_neq _ _)) by lia. cbn [negb obind]. destruct (prepare_ok junk b (zlen data) Hw Hs Hf) as (b1 & d & -> & Hd & Hz & Hm & Ho & Hl & Hlen & Hc).
  cbn [obind]. unfold buffer_object. rewrite Hd. cbn [obind]. rewrite mem_write_ok by lia. cbn [obind]. fold (list_write (Z.to_nat (b_len b1 - zlen data)) data d).
  assert (Hw' : (Z.to_nat (b_len b1 - zlen data) + length data <= length d)%nat) by (unfold zlen in *; lia).
  assert (Hll : length (list_write (Z.to_nat (b_len b1 - zlen data)) data d) = length d) by (by apply length_list_write).
  eexists. split; [done|]. cbn [b_len]. splits; [|  |lia].
  - split; cbn [b_data b_maxlen b_len b_offset]; [lia|lia| | |lia].
    + change (object _) with (list_write (Z.to_nat (b_len b1 - zlen data)) data d). unfold zlen in *. by rewrite Hll.
    + split; [done|]. intros. lia.
  - rewrite <- Hc. unfold contents at 1. cbn [b_offset b_len]. change (object _) with (list_write (Z.to_nat (b_len b1 - zlen data)) data d).
    replace (Z.to_nat (b_len b1 - b_offset b1)) with (Z.to_nat (b_len b1 - zlen data) - Z.to_nat (b_offset b1) + length data)%nat by (unfold zlen in *; lia).
    rewrite slice_append by lia. f_equal. f_equal. lia.
Qed.

(** What the caller sees through a pointer into the buffer. *)
Definition bytes_at (b : buffer_t) (p n : Z) : list Z := slice (Z.to_nat p) (Z.to_nat n) (object b).

Lemma consume_ok b size :
  buf_wf b -> 1 <= size <= zlen (contents b) ->
  exists b', buffer_consume b size = Done (b_offset b, b') /\ buf_wf b' /\ contents b' = drop (Z.to_nat size) (contents b) /\
    bytes_at b' (b_offset b) size = take (Z.to_nat size) (contents b) /\ b_len b' <= b_len b.
Proof.
  intros Hw Hs. rewrite contents_length in Hs by done. unfold buffer_consume, assert_. rewrite (proj2 (Z.eqb_neq size 0)), len_small, (proj2 (Z.leb_le _ _)) by (done || lia).
  cbn [negb obind]. assert (Ho : 0 <= b_offset b) by (destruct Hw; lia). rewrite u64_small by (destruct Hw; lia). destruct Hw as [W1 W2 W3 W4 W5].
  assert (Hb : forall b', object b' = object b -> bytes_at b' (b_offset b) size = take (Z.to_nat size) (contents b)).
  { intros b' E. unfold bytes_at, contents, slice. rewrite E, take_take. f_equal. lia. }
  assert (Hd : drop (Z.to_nat size) (contents b) = slice (Z.to_nat (b_offset b + size)) (Z.to_nat (b_len b - (b_offset b + size))) (object b)).
  { unfold contents, slice. rewrite skipn_firstn_comm, drop_drop. f_equal; [lia|]. f_equal. lia. }
  destruct (Z.leb_spec (b_len b) (b_offset b + size)); eexists; (split; [done|]); cbn [b_len]; splits; try lia; try (by apply Hb).
  - split; cbn [b_data b_maxlen b_len b_offset]; [lia|lia|exact W3|exact W4|exact W5].
  - rewrite Hd. unfold contents. cbn [b_len b_offset]. replace (Z.to_nat (b_len b - (b_offset b + size))) with 0%nat by lia. done.
  - split; cbn [b_data b_maxlen b_len b_offset]; [lia|lia|exact W3|exact W4|exact W5].
  - rewrite Hd. done.
Qed.

Lemma memchr_some c l p : memchr c l = Some p -> exists a k, l = a ++ c :: k /\ p = zlen a /\ c ∉ a.
Proof.
  revert p. induction l as [|x l IH]; intros p H; [done|]. cbn [memchr] in H. destruct (Z.eqb_spec x c) as [->|Hne].
  - injection H as <-. exists [], l. splits; try done. apply not_elem_of_nil.
  - destruct (memchr c l) as [q|]; [|done]. injection H as <-. destruct (IH q eq_refl) as (a & k & -> & -> & Ha). exists (x :: a), k.
    splits; [done|unfold zlen; cbn [length]; lia|]. apply not_elem_of_cons. split; [congruence|done].
Qed.

Lemma memchr_none c l : memchr c l = None -> c ∉ l.
Proof.
  induction l as [|x l IH]; intros H; [apply not_elem_of_nil|]. cbn [memchr] in H. destruct (Z.eqb_spec x c) as [->|Hne]; [done|].
  destruct (memchr c l) as [q|]; [done|]. apply not_elem_of_cons. split; [congruence|by apply IH].
Qed.

(** The queue: a line is taken with its newline, which the caller sees as a NUL. *)
Definition queue_readline (q : list Z) : option (list Z) * list Z :=
  match memchr 10 q with
  | None => (None, q)
  | Some p => (Some (take (Z.to_nat p) q ++ [0]), drop (Z.to_nat p + 1) q)
  end.

Definition queue_read (q : list Z) (size : Z) : option (list Z) * list Z :=
  if zlen q <? size then (None, q) else (Some (take (Z.to_nat size) q), drop (Z.to_nat size) q).

(** What a call returned, with the bytes behind the pointer. *)
Definition read_ok (b : buffer_t) (m : outcome (option Z * buffer_t)) (n : option (list Z) -> Z) (r : option (list Z) * list Z) : Prop :=
  exists p b', m = Done (p, b') /\ buf_wf b' /\ contents b' = r.2 /\ b_len b' <= b_len b /\
    (fun o => bytes_at b' o (n r.1)) <$> p = r.1.

Lemma read_ok_ b size : buf_wf b -> 1 <= size -> read_ok b (buffer_read b size) (fun _ => size) (queue_read (contents b) size).
Proof.
  intros Hw Hs. unfold buffer_read, assert_, queue_read. rewrite (proj2 (Z.eqb_neq size 0)), len_small, <- contents_length by (done || lia). cbn [negb obind].
  destruct (Z.ltb_spec (zlen (contents b)) size).
  - exists None, b. splits; (done || lia).
  - destruct (consume_ok b size Hw ltac:(lia)) as (b' & -> & W & C & B & L). cbn [obind]. exists (Some (b_offset b)), b'. splits; try done. cbn [fmap option_fmap option_map fst].
    by rewrite B.
Qed.

Lemma nul_written b d p :
  buf_wf b -> b_data b = Some d -> 0 <= p < zlen (contents b) ->
  let d' := list_write (Z.to_nat (b_offset b + p)) [0] d in
  let b1 := MBuffer (Some d') (b_maxlen b) (b_len b) (b_offset b) in
  buf_wf b1 /\ contents b1 = <[Z.to_nat p := 0]> (contents b).
Proof.
  intros Hw Hd Hp. rewrite contents_length in Hp by done. assert (Ho : object b = d) by (unfold object; by rewrite Hd). destruct Hw as [W1 W2 W3 W4 W5]. rewrite Ho in W3.
  assert (Hl : (Z.to_nat (b_offset b + p) + length [0] <= length d)%nat) by (unfold zlen in *; cbn [length]; lia). cbn zeta. split.
  - split; cbn [b_data b_maxlen b_len b_offset]; [lia|lia| | |exact W5].
    + change (object _) with (list_write (Z.to_nat (b_offset b + p)) [0] d). unfold zlen in *. by rewrite length_list_write.
    + split; [done|]. intros. lia.
  - unfold contents. cbn [b_offset b_len]. change (object (MBuffer _ _ _ _)) with (list_write (Z.to_nat (b_offset b + p)) [0] d). rewrite Ho.
    apply list_eq_lookup; [by rewrite length_insert, !length_slice, length_list_write|]. intros i Hi. rewrite length_slice, length_list_write in Hi by done.
    rewrite lookup_slice, lookup_list_write by done. rewrite decide_True by lia. destruct (decide (i = Z.to_nat p)) as [->|Hne].
    + rewrite decide_True by (cbn [length]; lia). rewrite list_lookup_insert_eq by (rewrite length_slice; lia). replace (_ - _)%nat with 0%nat by lia. done.
    + rewrite decide_False by (cbn [length]; lia). rewrite list_lookup_insert_ne by lia. rewrite lookup_slice, decide_True by lia. done.
Qed.

Lemma readline_ok b : buf_wf b ->
  read_ok b (buffer_readline b) (fun o => zlen (default [] o)) (queue_readline (contents b)).
Proof.
  intros Hw. unfold buffer_readline, queue_readline. rewrite len_small, <- contents_length by done. destruct (Z.eqb_spec (zlen (contents b)) 0) as [E|E].
  { assert (Hc : contents b = []) by (destruct (contents b); [done|unfold zlen in E; cbn in E; lia]). rewrite Hc. exists None, b. splits; (done || lia). }
  pose proof (zlen_nonneg (contents b)). pose proof (contents_length b Hw). destruct (has_object b Hw ltac:(destruct Hw; lia)) as (d & Hd & Ho). unfold buffer_object. rewrite Hd. cbn [obind].
  rewrite contents_length, (contents_read b d Hw Ho) by done. cbn [obind]. destruct (memchr 10 (contents b)) as [p|] eqn:Em.
  2: { exists None, b. splits; (done || lia). }
  apply memchr_some in Em as (a & k & Ec & -> & Ha). pose proof (zlen_nonneg a). assert (Hp : 0 <= zlen a < zlen (contents b)) by (rewrite Ec, zlen_app; unfold zlen; cbn [length]; lia).
  pose proof (bw_maxlen b Hw) as Hz. rewrite Ho in Hz. rewrite mem_write_ok by (destruct Hw; change (zlen [0]) with 1; lia). cbn [obind].
  fold (list_write (Z.to_nat (b_offset b + zlen a)) [0] d). destruct (nul_written b d (zlen a) Hw Hd Hp) as [W1 C1]. cbn zeta in *. set (b1 := MBuffer (Some _) _ _ _) in *.
  assert (Hi : <[Z.to_nat (zlen a):=0]> (contents b) = a ++ 0 :: k) by (rewrite Ec; unfold zlen; rewrite Nat2Z.id; replace (length a) with (length a + 0)%nat by lia; by rewrite insert_app_r).
  destruct (consume_ok b1 (zlen a + 1) W1) as (b' & -> & W & C & B & L).
  { rewrite C1, Hi, zlen_app. unfold zlen. cbn [length]. lia. }
  cbn [obind]. exists (Some (b_offset b)), b'. change (b_offset b1) with (b_offset b) in *. change (b_len b1) with (b_len b) in *.
  assert (Et : take (Z.to_nat (zlen a + 1)) (a ++ 0 :: k) = a ++ [0]) by (change (0 :: k) with ([0] ++ k); rewrite app_assoc; apply take_app_exact; rewrite length_app; unfold zlen; cbn [length]; lia).
  assert (Ed : drop (Z.to_nat (zlen a + 1)) (a ++ 0 :: k) = k) by (change (0 :: k) with ([0] ++ k); rewrite app_assoc; apply drop_app_exact; rewrite length_app; unfold zlen; cbn [length]; lia).
  assert (E1 : take (Z.to_nat (zlen a)) (contents b) = a) by (rewrite Ec; apply take_app_exact; unfold zlen; lia).
  assert (E2 : drop (Z.to_nat (zlen a) + 1) (contents b) = k) by (rewrite Ec; change (10 :: k) with ([10] ++ k); rewrite app_assoc; apply drop_app_exact; rewrite length_app; unfold zlen; cbn [length]; lia).
  cbn [fst snd]. rewrite E1, E2. rewrite C1, Hi in C, B. splits; [done|done|by rewrite C|done|]. cbn [fmap option_fmap option_map default from_option id].
  rewrite zlen_app. change (zlen [0]) with 1. rewrite B, Et. done.
Qed.

Lemma compact_ok b maxsize : buf_wf b -> exists b', buffer_compact b maxsize = Done b' /\ buf_wf b' /\ contents b' = contents b /\ b_len b' <= b_len b.
Proof.
  intros Hw. unfold buffer_compact. destruct (_ || _); [|exists b; splits; (done || lia)].
  destruct (move_ok b Hw) as (b' & E & W & C & _ & _ & L). exists b'. splits; try done. destruct Hw. lia.
Qed.

Lemma buffer_clear_ok b : buf_wf b -> buffer_clear b = Done buffer_empty.
Proof. intros Hw. unfold buffer_clear, assert_. rewrite bool_decide_eq_true_2 by apply Hw. done. Qed.

Inductive buffer_op := BAdd (data : list Z) | BRead (size : Z) | BReadline | BCompact (maxsize : Z) | BClear.

(** The asserts of the code: data is added, and asked for, at least a byte at a time. *)
Definition buffer_op_ok (o : buffer_op) : Prop :=
  match o with BAdd data => data <> [] | BRead size => 1 <= size | _ => True end.

(** The buffer after a call, and what the caller finds behind the pointer it got. *)
Definition buffer_run (junk : Z -> Z) (o : buffer_op) (b : buffer_t) : outcome (option (list Z) * buffer_t) :=
  match o with
  | BAdd data => let* b := buffer_add junk b data in Done (None, b)
  | BRead size => let* (p, b) := buffer_read b size in Done ((fun o => bytes_at b o size) <$> p, b)
  | BReadline =>
      let n := default 0 (memchr 10 (contents b)) + 1 in
      let* (p, b) := buffer_readline b in Done ((fun o => bytes_at b o n) <$> p, b)
  | BCompact maxsize => let* b := buffer_compact b maxsize in Done (None, b)
  | BClear => let* b := buffer_clear b in Done (None, b)
  end.

Definition queue_run (o : buffer_op) (q : list Z) : option (list Z) * list Z :=
  match o with
  | BAdd data => (None, q ++ data)
  | BRead size => queue_read q size
  | BReadline => queue_readline q
  | BCompact _ => (None, q)
  | BClear => (None, [])
  end.

Definition op_size (o : buffer_op) : Z := match o with BAdd data => zlen data | _ => 0 end.
Fixpoint ops_size (os : list buffer_op) : Z := match os with [] => 0 | o :: os => op_size o + ops_size os end.

Lemma buffer_run_ok junk o b :
  buf_wf b -> buffer_op_ok o -> b_len b + op_size o < 2 ^ 63 ->
  exists b', buffer_run junk o b = Done ((queue_run o (contents b)).1, b') /\ buf_wf b' /\ contents b' = (queue_run o (contents b)).2 /\
    b_len b' <= b_len b + op_size o.
Proof.
  intros Hw Ho Hf. destruct o as [data|size| |maxsize|]; cbn [buffer_run queue_run buffer_op_ok op_size] in *.
  - destruct (add_ok junk b data Hw Ho Hf) as (b' & -> & H). by exists b'.
  - destruct (read_ok_ b size Hw Ho) as (p & b' & -> & W & C & L & R). cbn [obind]. exists b'. rewrite R. splits; (done || lia).
  - destruct (readline_ok b Hw) as (p & b' & -> & W & C & L & R). cbn [obind]. exists b'. splits; try done; [|lia].
    rewrite <- R. unfold queue_readline. destruct (memchr 10 (contents b)) as [q|] eqn:Em; cbn [fst] in *.
    + apply memchr_some in Em as (a & k & Ec & -> & _). cbn [default from_option id]. do 2 f_equal. destruct p as [p|]; [|done]. cbn [fmap option_fmap option_map]. f_equal. f_equal.
      rewrite Ec, take_app_exact by (unfold zlen; lia). rewrite zlen_app. done.
    + unfold queue_readline in R. rewrite Em in R. cbn [fst] in R. by destruct p.
  - destruct (compact_ok b maxsize Hw) as (b' & -> & W & C & L). exists b'. splits; (done || lia).
  - rewrite (buffer_clear_ok b Hw). exists buffer_empty. destruct empty_wf as [W C]. destruct Hw. cbn. splits; (done || lia).
Qed.

Fixpoint buffer_runs (junk : Z -> Z) (os : list buffer_op) (b : buffer_t) : outcome (list (option (list Z)) * buffer_t) :=
  match os with
  | [] => Done ([], b)
  | o :: os => let* (r, b) := buffer_run junk o b in let* (rs, b) := buffer_runs junk os b in Done (r :: rs, b)
  end.

Fixpoint queue_runs (os : list buffer_op) (q : list Z) : list (option (list Z)) * list Z :=
  match os with
  | [] => ([], q)
  | o :: os => let '(r, q) := queue_run o q in let '(rs, q) := queue_runs os q in (r :: rs, q)
  end.

Lemma buffer_runs_ok junk os : forall b,
  buf_wf b -> Forall buffer_op_ok os -> b_len b + ops_size os < 2 ^ 63 ->
  exists b', buffer_runs junk os b = Done ((queue_runs os (contents b)).1, b') /\ buf_wf b' /\ contents b' = (queue_runs os (contents b)).2.
Proof.
  induction os as [|o os IH]; intros b Hw Ho Hf; [by exists b|]. apply Forall_cons in Ho as [Ho1 Ho]. cbn [buffer_runs queue_runs ops_size] in *.
  assert (0 <= ops_size os) by (clear; induction os as [|[] os IH]; cbn [ops_size op_size]; try lia; pose proof (zlen_nonneg data); lia).
  destruct (buffer_run_ok junk o b Hw Ho1 ltac:(lia)) as (b1 & -> & W1 & C1 & L1). cbn [obind]. destruct (IH b1 W1 Ho ltac:(lia)) as (b2 & -> & W2 & C2). cbn [obind].
  rewrite C1 in C2 |- *. destruct (queue_run o (contents b)) as [r q]. cbn [fst snd] in *. destruct (queue_runs os q) as [rs q']. by exists b2.
Qed.

(** C36. A meta-connection buffer is a queue of bytes: whatever is added, read, read by
    lines, compacted and cleared, in any order, a read of [n] bytes gives the
    next [n] bytes or, when there are fewer, nothing; a line is given up to its newline,
    NUL-terminated, or nothing when none is complete; no assert fails and no access
    leaves the buffer. *)
Theorem meta_buffer_is_queue (junk : Z -> Z) (os : list buffer_op) :
  Forall buffer_op_ok os -> ops_size os < 2 ^ 63 ->
  exists b, buffer_runs junk os buffer_empty = Done ((queue_runs os []).1, b) /\ contents b = (queue_runs os []).2.
Proof.
  intros Ho Hf. destruct empty_wf as [W C]. destruct (buffer_runs_ok junk os buffer_empty W Ho) as (b & E & _ & Cb); [done|]. rewrite C in E, Cb. by exists b.
Qed.

Lemma meta_buffer_is_queue_witness :
  exists b, buffer_runs (fun _ => 0) [BAdd [72; 105; 10; 65]; BReadline; BReadline; BAdd [66; 10]; BCompact 0; BRead 1; BReadline; BRead 9] buffer_empty =
    Done ([None; Some [72; 105; 0]; None; None; None; Some [65]; Some [66; 0]; None], b).
Proof.
  destruct (meta_buffer_is_queue (fun _ => 0) [BAdd [72; 105; 10; 65]; BReadline; BReadline; BAdd [66; 10]; BCompact 0; BRead 1; BReadline; BRead 9]) as (b & E & _).
  - repeat constructor; cbn; (done || lia).
  - reflexivity.
  - exists b. rewrite E. reflexivity.
Defined.
