(* ===== verification/Graph.v ===== *)
(** The graph of nodes and edges (src/src/graph.c, edge.c, node.c and the address
    comparison of netutl.c).

    Nodes and edges are objects in memory, found by address; a pointer to a freed
    one stops.  A splay tree is the list of what it holds, in its order: SplaySpec.v
    shows that the trees behave so.  Calls that leave this part of the program
    (UTCP, SPTPS, timers, the configuration file, the application) are recorded in
    the log, in order.  An address is the variant of the union its family selects;
    [sa_raw] is the bytes of the union in memory, which the UDP cache hashes. *)
From stdpp Require Import gmap.
From S2P Require Import Prelude Bytes HashTable.

Definition nid := positive.
Definition eid := positive.

(** ** Addresses *)

Definition AF_UNSPEC : Z := 0.
Definition AF_INET : Z := 2.
Definition AF_INET6 : Z := 10.
Definition AF_UNKNOWN : Z := 255.

Inductive sockaddr_t :=
  | SaUnspec
  | SaUnknown (address port : list Z)
  | SaInet (addr port : list Z)
  | SaInet6 (addr port : list Z)
  | SaOther (family : Z).

#[global] Instance sockaddr_eq_dec : EqDecision sockaddr_t.
Proof. solve_decision. Defined.

Definition sa_family (a : sockaddr_t) : Z :=
  match a with SaUnspec => AF_UNSPEC | SaUnknown _ _ => AF_UNKNOWN | SaInet _ _ => AF_INET | SaInet6 _ _ => AF_INET6 | SaOther f => f end.

(** [memcmp] and [strcmp]: the difference of the first bytes that differ; a string
    ends before one it is a prefix of. *)
Fixpoint bytes_cmp (a b : list Z) : Z :=
  match a, b with
  | [], [] => 0
  | [], _ => -1
  | _, [] => 1
  | x :: a, y :: b => if x =? y then bytes_cmp a b else x - y
  end.

Definition sockaddrcmp_noport (a b : sockaddr_t) : outcome Z :=
  let result := sa_family a - sa_family b in
  if negb (result =? 0) then Done result
  else match a, b with
  | SaUnspec, SaUnspec => Done 0
  | SaUnknown x _, SaUnknown y _ => Done (bytes_cmp x y)
  | SaInet x _, SaInet y _ => Done (bytes_cmp x y)
  | SaInet6 x _, SaInet6 y _ => Done (bytes_cmp x y)
  | _, _ => Stop AbortCalled
  end.

(** First the addresses, then the ports. *)
Definition then_cmp (a b c d : list Z) : outcome Z :=
  let result := bytes_cmp a b in
  if negb (result =? 0) then Done result else Done (bytes_cmp c d).

Definition sockaddrcmp (a b : sockaddr_t) : outcome Z :=
  let result := sa_family a - sa_family b in
  if negb (result =? 0) then Done result
  else match a, b with
  | SaUnspec, SaUnspec => Done 0
  | SaUnknown x p, SaUnknown y q => then_cmp x y p q
  | SaInet x p, SaInet y q => then_cmp x y p q
  | SaInet6 x p, SaInet6 y q => then_cmp x y p q
  | _, _ => Stop AbortCalled
  end.

(** ** The objects *)

(** What leaves this part of the program. *)
Inductive event :=
  | EvUtcpReset (n : nid) | EvSptpsStop (n : nid) | EvTimeoutDel (n : nid) | EvWriteConfig (n : nid)
  | EvUtcpInit (n : nid) | EvUtcpExit (n : nid) | EvStatus (n : nid) (reachable : bool) | EvPmtu (n : nid) (mtu : Z) | EvUtcpOffline (n : nid) (offline : bool) | EvPeriodic.

Record edge_t := EdgeT {
  e_from : nid;
  e_to : nid;
  e_address : sockaddr_t;
  e_reverse : option eid;
  e_weight : Z;
  e_session_id : Z
}.

Definition set_e_from (v : nid) (x : edge_t) : edge_t := EdgeT v (e_to x) (e_address x) (e_reverse x) (e_weight x) (e_session_id x).
Definition set_e_to (v : nid) (x : edge_t) : edge_t := EdgeT (e_from x) v (e_address x) (e_reverse x) (e_weight x) (e_session_id x).
Definition set_e_address (v : sockaddr_t) (x : edge_t) : edge_t := EdgeT (e_from x) (e_to x) v (e_reverse x) (e_weight x) (e_session_id x).
Definition set_e_reverse (v : option eid) (x : edge_t) : edge_t := EdgeT (e_from x) (e_to x) (e_address x) v (e_weight x) (e_session_id x).
Definition set_e_weight (v : Z) (x : edge_t) : edge_t := EdgeT (e_from x) (e_to x) (e_address x) (e_reverse x) v (e_session_id x).
Definition set_e_session_id (v : Z) (x : edge_t) : edge_t := EdgeT (e_from x) (e_to x) (e_address x) (e_reverse x) (e_weight x) v.

Record node_t := NodeT {
  n_name : list Z;
  n_validkey : bool;
  n_waitingforkey : bool;
  n_visited : bool;
  n_reachable : bool;
  n_udp_confirmed : bool;
  n_broadcast : bool;
  n_blacklisted : bool;
  n_dirty : bool;
  n_minmtu : Z;
  n_sock : Z;
  n_session_id : Z;
  n_address : sockaddr_t;
  n_utcp : bool;
  n_mtuprobes : Z;
  n_maxmtu : Z;
  n_last_req_key : Z;
  n_recent : list sockaddr_t;
  n_last_reachable : Z;
  n_last_unreachable : Z;
  n_distance : Z;
  n_nexthop : option nid;
  n_prevedge : option eid;
  n_edge_tree : list eid
}.

Definition set_n_name (v : list Z) (x : node_t) : node_t := NodeT v (n_validkey x) (n_waitingforkey x) (n_visited x) (n_reachable x) (n_udp_confirmed x) (n_broadcast x) (n_blacklisted x) (n_dirty x) (n_minmtu x) (n_sock x) (n_session_id x) (n_address x) (n_utcp x) (n_mtuprobes x) (n_maxmtu x) (n_last_req_key x) (n_recent x) (n_last_reachable x) (n_last_unreachable x) (n_distance x) (n_nexthop x) (n_prevedge x) (n_edge_tree x).
Definition set_n_validkey (v : bool) (x : node_t) : node_t := NodeT (n_name x) v (n_waitingforkey x) (n_visited x) (n_reachable x) (n_udp_confirmed x) (n_broadcast x) (n_blacklisted x) (n_dirty x) (n_minmtu x) (n_sock x) (n_session_id x) (n_address x) (n_utcp x) (n_mtuprobes x) (n_maxmtu x) (n_last_req_key x) (n_recent x) (n_last_reachable x) (n_last_unreachable x) (n_distance x) (n_nexthop x) (n_prevedge x) (n_edge_tree x).
Definition set_n_waitingforkey (v : bool) (x : node_t) : node_t := NodeT (n_name x) (n_validkey x) v (n_visited x) (n_reachable x) (n_udp_confirmed x) (n_broadcast x) (n_blacklisted x) (n_dirty x) (n_minmtu x) (n_sock x) (n_session_id x) (n_address x) (n_utcp x) (n_mtuprobes x) (n_maxmtu x) (n_last_req_key x) (n_recent x) (n_last_reachable x) (n_last_unreachable x) (n_distance x) (n_nexthop x) (n_prevedge x) (n_edge_tree x).
Definition set_n_visited (v : bool) (x : node_t) : node_t := NodeT (n_name x) (n_validkey x) (n_waitingforkey x) v (n_reachable x) (n_udp_confirmed x) (n_broadcast x) (n_blacklisted x) (n_dirty x) (n_minmtu x) (n_sock x) (n_session_id x) (n_address x) (n_utcp x) (n_mtuprobes x) (n_maxmtu x) (n_last_req_key x) (n_recent x) (n_last_reachable x) (n_last_unreachable x) (n_distance x) (n_nexthop x) (n_prevedge x) (n_edge_tree x).
Definition set_n_reachable (v : bool) (x : node_t) : node_t := NodeT (n_name x) (n_validkey x) (n_waitingforkey x) (n_visited x) v (n_udp_confirmed x) (n_broadcast x) (n_blacklisted x) (n_dirty x) (n_minmtu x) (n_sock x) (n_session_id x) (n_address x) (n_utcp x) (n_mtuprobes x) (n_maxmtu x) (n_last_req_key x) (n_recent x) (n_last_reachable x) (n_last_unreachable x) (n_distance x) (n_nexthop x) (n_prevedge x) (n_edge_tree x).
Definition set_n_udp_confirmed (v : bool) (x : node_t) : node_t := NodeT (n_name x) (n_validkey x) (n_waitingforkey x) (n_visited x) (n_reachable x) v (n_broadcast x) (n_blacklisted x) (n_dirty x) (n_minmtu x) (n_sock x) (n_session_id x) (n_address x) (n_utcp x) (n_mtuprobes x) (n_maxmtu x) (n_last_req_key x) (n_recent x) (n_last_reachable x) (n_last_unreachable x) (n_distance x) (n_nexthop x) (n_prevedge x) (n_edge_tree x).
Definition set_n_broadcast (v : bool) (x : node_t) : node_t := NodeT (n_name x) (n_validkey x) (n_waitingforkey x) (n_visited x) (n_reachable x) (n_udp_confirmed x) v (n_blacklisted x) (n_dirty x) (n_minmtu x) (n_sock x) (n_session_id x) (n_address x) (n_utcp x) (n_mtuprobes x) (n_maxmtu x) (n_last_req_key x) (n_recent x) (n_last_reachable x) (n_last_unreachable x) (n_distance x) (n_nexthop x) (n_prevedge x) (n_edge_tree x).
Definition set_n_blacklisted (v : bool) (x : node_t) : node_t := NodeT (n_name x) (n_validkey x) (n_waitingforkey x) (n_visited x) (n_reachable x) (n_udp_confirmed x) (n_broadcast x) v (n_dirty x) (n_minmtu x) (n_sock x) (n_session_id x) (n_address x) (n_utcp x) (n_mtuprobes x) (n_maxmtu x) (n_last_req_key x) (n_recent x) (n_last_reachable x) (n_last_unreachable x) (n_distance x) (n_nexthop x) (n_prevedge x) (n_edge_tree x).
Definition set_n_dirty (v : bool) (x : node_t) : node_t := NodeT (n_name x) (n_validkey x) (n_waitingforkey x) (n_visited x) (n_reachable x) (n_udp_confirmed x) (n_broadcast x) (n_blacklisted x) v (n_minmtu x) (n_sock x) (n_session_id x) (n_address x) (n_utcp x) (n_mtuprobes x) (n_maxmtu x) (n_last_req_key x) (n_recent x) (n_last_reachable x) (n_last_unreachable x) (n_distance x) (n_nexthop x) (n_prevedge x) (n_edge_tree x).
Definition set_n_minmtu (v : Z) (x : node_t) : node_t := NodeT (n_name x) (n_validkey x) (n_waitingforkey x) (n_visited x) (n_reachable x) (n_udp_confirmed x) (n_broadcast x) (n_blacklisted x) (n_dirty x) v (n_sock x) (n_session_id x) (n_address x) (n_utcp x) (n_mtuprobes x) (n_maxmtu x) (n_last_req_key x) (n_recent x) (n_last_reachable x) (n_last_unreachable x) (n_distance x) (n_nexthop x) (n_prevedge x) (n_edge_tree x).
Definition set_n_sock (v : Z) (x : node_t) : node_t := NodeT (n_name x) (n_validkey x) (n_waitingforkey x) (n_visited x) (n_reachable x) (n_udp_confirmed x) (n_broadcast x) (n_blacklisted x) (n_dirty x) (n_minmtu x) v (n_session_id x) (n_address x) (n_utcp x) (n_mtuprobes x) (n_maxmtu x) (n_last_req_key x) (n_recent x) (n_last_reachable x) (n_last_unreachable x) (n_distance x) (n_nexthop x) (n_prevedge x) (n_edge_tree x).
Definition set_n_session_id (v : Z) (x : node_t) : node_t := NodeT (n_name x) (n_validkey x) (n_waitingforkey x) (n_visited x) (n_reachable x) (n_udp_confirmed x) (n_broadcast x) (n_blacklisted x) (n_dirty x) (n_minmtu x) (n_sock x) v (n_address x) (n_utcp x) (n_mtuprobes x) (n_maxmtu x) (n_last_req_key x) (n_recent x) (n_last_reachable x) (n_last_unreachable x) (n_distance x) (n_nexthop x) (n_prevedge x) (n_edge_tree x).
Definition set_n_address (v : sockaddr_t) (x : node_t) : node_t := NodeT (n_name x) (n_validkey x) (n_waitingforkey x) (n_visited x) (n_reachable x) (n_udp_confirmed x) (n_broadcast x) (n_blacklisted x) (n_dirty x) (n_minmtu x) (n_sock x) (n_session_id x) v (n_utcp x) (n_mtuprobes x) (n_maxmtu x) (n_last_req_key x) (n_recent x) (n_last_reachable x) (n_last_unreachable x) (n_distance x) (n_nexthop x) (n_prevedge x) (n_edge_tree x).
Definition set_n_utcp (v : bool) (x : node_t) : node_t := NodeT (n_name x) (n_validkey x) (n_waitingforkey x) (n_visited x) (n_reachable x) (n_udp_confirmed x) (n_broadcast x) (n_blacklisted x) (n_dirty x) (n_minmtu x) (n_sock x) (n_session_id x) (n_address x) v (n_mtuprobes x) (n_maxmtu x) (n_last_req_key x) (n_recent x) (n_last_reachable x) (n_last_unreachable x) (n_distance x) (n_nexthop x) (n_prevedge x) (n_edge_tree x).
Definition set_n_mtuprobes (v : Z) (x : node_t) : node_t := NodeT (n_name x) (n_validkey x) (n_waitingforkey x) (n_visited x) (n_reachable x) (n_udp_confirmed x) (n_broadcast x) (n_blacklisted x) (n_dirty x) (n_minmtu x) (n_sock x) (n_session_id x) (n_address x) (n_utcp x) v (n_maxmtu x) (n_last_req_key x) (n_recent x) (n_last_reachable x) (n_last_unreachable x) (n_distance x) (n_nexthop x) (n_prevedge x) (n_edge_tree x).
Definition set_n_maxmtu (v : Z) (x : node_t) : node_t := NodeT (n_name x) (n_validkey x) (n_waitingforkey x) (n_visited x) (n_reachable x) (n_udp_confirmed x) (n_broadcast x) (n_blacklisted x) (n_dirty x) (n_minmtu x) (n_sock x) (n_session_id x) (n_address x) (n_utcp x) (n_mtuprobes x) v (n_last_req_key x) (n_recent x) (n_last_reachable x) (n_last_unreachable x) (n_distance x) (n_nexthop x) (n_prevedge x) (n_edge_tree x).
Definition set_n_last_req_key (v : Z) (x : node_t) : node_t := NodeT (n_name x) (n_validkey x) (n_waitingforkey x) (n_visited x) (n_reachable x) (n_udp_confirmed x) (n_broadcast x) (n_blacklisted x) (n_dirty x) (n_minmtu x) (n_sock x) (n_session_id x) (n_address x) (n_utcp x) (n_mtuprobes x) (n_maxmtu x) v (n_recent x) (n_last_reachable x) (n_last_unreachable x) (n_distance x) (n_nexthop x) (n_prevedge x) (n_edge_tree x).
Definition set_n_recent (v : list sockaddr_t) (x : node_t) : node_t := NodeT (n_name x) (n_validkey x) (n_waitingforkey x) (n_visited x) (n_reachable x) (n_udp_confirmed x) (n_broadcast x) (n_blacklisted x) (n_dirty x) (n_minmtu x) (n_sock x) (n_session_id x) (n_address x) (n_utcp x) (n_mtuprobes x) (n_maxmtu x) (n_last_req_key x) v (n_last_reachable x) (n_last_unreachable x) (n_distance x) (n_nexthop x) (n_prevedge x) (n_edge_tree x).
Definition set_n_last_reachable (v : Z) (x : node_t) : node_t := NodeT (n_name x) (n_validkey x) (n_waitingforkey x) (n_visited x) (n_reachable x) (n_udp_confirmed x) (n_broadcast x) (n_blacklisted x) (n_dirty x) (n_minmtu x) (n_sock x) (n_session_id x) (n_address x) (n_utcp x) (n_mtuprobes x) (n_maxmtu x) (n_last_req_key x) (n_recent x) v (n_last_unreachable x) (n_distance x) (n_nexthop x) (n_prevedge x) (n_edge_tree x).
Definition set_n_last_unreachable (v : Z) (x : node_t) : node_t := NodeT (n_name x) (n_validkey x) (n_waitingforkey x) (n_visited x) (n_reachable x) (n_udp_confirmed x) (n_broadcast x) (n_blacklisted x) (n_dirty x) (n_minmtu x) (n_sock x) (n_session_id x) (n_address x) (n_utcp x) (n_mtuprobes x) (n_maxmtu x) (n_last_req_key x) (n_recent x) (n_last_reachable x) v (n_distance x) (n_nexthop x) (n_prevedge x) (n_edge_tree x).
Definition set_n_distance (v : Z) (x : node_t) : node_t := NodeT (n_name x) (n_validkey x) (n_waitingforkey x) (n_visited x) (n_reachable x) (n_udp_confirmed x) (n_broadcast x) (n_blacklisted x) (n_dirty x) (n_minmtu x) (n_sock x) (n_session_id x) (n_address x) (n_utcp x) (n_mtuprobes x) (n_maxmtu x) (n_last_req_key x) (n_recent x) (n_last_reachable x) (n_last_unreachable x) v (n_nexthop x) (n_prevedge x) (n_edge_tree x).
Definition set_n_nexthop (v : option nid) (x : node_t) : node_t := NodeT (n_name x) (n_validkey x) (n_waitingforkey x) (n_visited x) (n_reachable x) (n_udp_confirmed x) (n_broadcast x) (n_blacklisted x) (n_dirty x) (n_minmtu x) (n_sock x) (n_session_id x) (n_address x) (n_utcp x) (n_mtuprobes x) (n_maxmtu x) (n_last_req_key x) (n_recent x) (n_last_reachable x) (n_last_unreachable x) (n_distance x) v (n_prevedge x) (n_edge_tree x).
Definition set_n_prevedge (v : option eid) (x : node_t) : node_t := NodeT (n_name x) (n_validkey x) (n_waitingforkey x) (n_visited x) (n_reachable x) (n_udp_confirmed x) (n_broadcast x) (n_blacklisted x) (n_dirty x) (n_minmtu x) (n_sock x) (n_session_id x) (n_address x) (n_utcp x) (n_mtuprobes x) (n_maxmtu x) (n_last_req_key x) (n_recent x) (n_last_reachable x) (n_last_unreachable x) (n_distance x) (n_nexthop x) v (n_edge_tree x).
Definition set_n_edge_tree (v : list eid) (x : node_t) : node_t := NodeT (n_name x) (n_validkey x) (n_waitingforkey x) (n_visited x) (n_reachable x) (n_udp_confirmed x) (n_broadcast x) (n_blacklisted x) (n_dirty x) (n_minmtu x) (n_sock x) (n_session_id x) (n_address x) (n_utcp x) (n_mtuprobes x) (n_maxmtu x) (n_last_req_key x) (n_recent x) (n_last_reachable x) (n_last_unreachable x) (n_distance x) (n_nexthop x) (n_prevedge x) v.

Record mesh_t := MeshT {
  m_nodes : gmap nid node_t;
  m_node_tree : list nid;
  m_edges : gmap eid edge_t;
  m_edge_tree : list eid;
  m_self : nid;
  m_threadstarted : bool;
  m_reachable : Z;
  m_node_udp_cache : hash_t nid;
  m_listen_socket : list sockaddr_t;
  m_last_unreachable : Z;
  m_now : Z;
  m_periodic : bool;
  m_accept_cb : bool;
  m_status_cb : bool;
  m_pmtu_cb : bool;
  m_log : list event
}.

Definition set_m_nodes (v : gmap nid node_t) (x : mesh_t) : mesh_t := MeshT v (m_node_tree x) (m_edges x) (m_edge_tree x) (m_self x) (m_threadstarted x) (m_reachable x) (m_node_udp_cache x) (m_listen_socket x) (m_last_unreachable x) (m_now x) (m_periodic x) (m_accept_cb x) (m_status_cb x) (m_pmtu_cb x) (m_log x).
Definition set_m_node_tree (v : list nid) (x : mesh_t) : mesh_t := MeshT (m_nodes x) v (m_edges x) (m_edge_tree x) (m_self x) (m_threadstarted x) (m_reachable x) (m_node_udp_cache x) (m_listen_socket x) (m_last_unreachable x) (m_now x) (m_periodic x) (m_accept_cb x) (m_status_cb x) (m_pmtu_cb x) (m_log x).
Definition set_m_edges (v : gmap eid edge_t) (x : mesh_t) : mesh_t := MeshT (m_nodes x) (m_node_tree x) v (m_edge_tree x) (m_self x) (m_threadstarted x) (m_reachable x) (m_node_udp_cache x) (m_listen_socket x) (m_last_unreachable x) (m_now x) (m_periodic x) (m_accept_cb x) (m_status_cb x) (m_pmtu_cb x) (m_log x).
Definition set_m_edge_tree (v : list eid) (x : mesh_t) : mesh_t := MeshT (m_nodes x) (m_node_tree x) (m_edges x) v (m_self x) (m_threadstarted x) (m_reachable x) (m_node_udp_cache x) (m_listen_socket x) (m_last_unreachable x) (m_now x) (m_periodic x) (m_accept_cb x) (m_status_cb x) (m_pmtu_cb x) (m_log x).
Definition set_m_self (v : nid) (x : mesh_t) : mesh_t := MeshT (m_nodes x) (m_node_tree x) (m_edges x) (m_edge_tree x) v (m_threadstarted x) (m_reachable x) (m_node_udp_cache x) (m_listen_socket x) (m_last_unreachable x) (m_now x) (m_periodic x) (m_accept_cb x) (m_status_cb x) (m_pmtu_cb x) (m_log x).
Definition set_m_threadstarted (v : bool) (x : mesh_t) : mesh_t := MeshT (m_nodes x) (m_node_tree x) (m_edges x) (m_edge_tree x) (m_self x) v (m_reachable x) (m_node_udp_cache x) (m_listen_socket x) (m_last_unreachable x) (m_now x) (m_periodic x) (m_accept_cb x) (m_status_cb x) (m_pmtu_cb x) (m_log x).
Definition set_m_reachable (v : Z) (x : mesh_t) : mesh_t := MeshT (m_nodes x) (m_node_tree x) (m_edges x) (m_edge_tree x) (m_self x) (m_threadstarted x) v (m_node_udp_cache x) (m_listen_socket x) (m_last_unreachable x) (m_now x) (m_periodic x) (m_accept_cb x) (m_status_cb x) (m_pmtu_cb x) (m_log x).
Definition set_m_node_udp_cache (v : hash_t nid) (x : mesh_t) : mesh_t := MeshT (m_nodes x) (m_node_tree x) (m_edges x) (m_edge_tree x) (m_self x) (m_threadstarted x) (m_reachable x) v (m_listen_socket x) (m_last_unreachable x) (m_now x) (m_periodic x) (m_accept_cb x) (m_status_cb x) (m_pmtu_cb x) (m_log x).
Definition set_m_listen_socket (v : list sockaddr_t) (x : mesh_t) : mesh_t := MeshT (m_nodes x) (m_node_tree x) (m_edges x) (m_edge_tree x) (m_self x) (m_threadstarted x) (m_reachable x) (m_node_udp_cache x) v (m_last_unreachable x) (m_now x) (m_periodic x) (m_accept_cb x) (m_status_cb x) (m_pmtu_cb x) (m_log x).
Definition set_m_last_unreachable (v : Z) (x : mesh_t) : mesh_t := MeshT (m_nodes x) (m_node_tree x) (m_edges x) (m_edge_tree x) (m_self x) (m_threadstarted x) (m_reachable x) (m_node_udp_cache x) (m_listen_socket x) v (m_now x) (m_periodic x) (m_accept_cb x) (m_status_cb x) (m_pmtu_cb x) (m_log x).
Definition set_m_now (v : Z) (x : mesh_t) : mesh_t := MeshT (m_nodes x) (m_node_tree x) (m_edges x) (m_edge_tree x) (m_self x) (m_threadstarted x) (m_reachable x) (m_node_udp_cache x) (m_listen_socket x) (m_last_unreachable x) v (m_periodic x) (m_accept_cb x) (m_status_cb x) (m_pmtu_cb x) (m_log x).
Definition set_m_periodic (v : bool) (x : mesh_t) : mesh_t := MeshT (m_nodes x) (m_node_tree x) (m_edges x) (m_edge_tree x) (m_self x) (m_threadstarted x) (m_reachable x) (m_node_udp_cache x) (m_listen_socket x) (m_last_unreachable x) (m_now x) v (m_accept_cb x) (m_status_cb x) (m_pmtu_cb x) (m_log x).
Definition set_m_accept_cb (v : bool) (x : mesh_t) : mesh_t := MeshT (m_nodes x) (m_node_tree x) (m_edges x) (m_edge_tree x) (m_self x) (m_threadstarted x) (m_reachable x) (m_node_udp_cache x) (m_listen_socket x) (m_last_unreachable x) (m_now x) (m_periodic x) v (m_status_cb x) (m_pmtu_cb x) (m_log x).
Definition set_m_log (v : list event) (x : mesh_t) : mesh_t := MeshT (m_nodes x) (m_node_tree x) (m_edges x) (m_edge_tree x) (m_self x) (m_threadstarted x) (m_reachable x) (m_node_udp_cache x) (m_listen_socket x) (m_last_unreachable x) (m_now x) (m_periodic x) (m_accept_cb x) (m_status_cb x) (m_pmtu_cb x) v.

Definition MTU : Z := 1451.
Definition MAX_RECENT : nat := 5.

Definition get_node (m : mesh_t) (n : nid) : outcome node_t :=
  match m_nodes m !! n with Some x => Done x | None => Stop UseAfterFree end.

Definition get_edge (m : mesh_t) (e : eid) : outcome edge_t :=
  match m_edges m !! e with Some x => Done x | None => Stop UseAfterFree end.

Definition upd_node (n : nid) (f : node_t -> node_t) (m : mesh_t) : outcome mesh_t :=
  let* x := get_node m n in Done (set_m_nodes (<[n := f x]> (m_nodes m)) m).

Definition upd_edge (e : eid) (f : edge_t -> edge_t) (m : mesh_t) : outcome mesh_t :=
  let* x := get_edge m e in Done (set_m_edges (<[e := f x]> (m_edges m)) m).

Definition emit (ev : event) (m : mesh_t) : mesh_t := set_m_log (m_log m ++ [ev]) m.

(** The edge behind a pointer that the code follows without a test. *)
Definition deref_edge (m : mesh_t) (p : option eid) : outcome edge_t :=
  match p with Some e => get_edge m e | None => Stop OutOfBounds end.

(** [for splay_each(...)]: the action for every element of the tree. *)
Fixpoint each {X S} (f : X -> S -> outcome S) (l : list X) (s : S) : outcome S :=
  match l with [] => Done s | x :: l => let* s := f x s in each f l s end.

Section Graph.
Context (sa_raw : sockaddr_t -> list Z).

(** ** Recent and current UDP addresses (node.c) *)

(** The loop that looks for an address: where it stops, and whether it was found. *)
Fixpoint find_recent (recent : list sockaddr_t) (sa : sockaddr_t) (i : nat) : outcome (nat * bool) :=
  match recent with
  | [] => Done (i, false)
  | r :: recent =>
      if sa_family r =? 0 then Done (i, false)
      else let* c := sockaddrcmp r sa in
           if c =? 0 then Done (i, true) else find_recent recent sa (S i)
  end.

Definition node_add_recent_address (n : nid) (sa : sockaddr_t) (m : mesh_t) : outcome (bool * mesh_t) :=
  let* x := get_node m n in
  let* (i, found) := find_recent (n_recent x) sa 0 in
  if (found : bool) && (i =? 0)%nat then Done (false, m)
  else
    let i := if (MAX_RECENT <=? i)%nat then (MAX_RECENT - 1)%nat else i in
    let* m := upd_node n (fun x => set_n_dirty true (set_n_recent (sa :: take i (n_recent x) ++ drop (S i) (n_recent x)) x)) m in
    Done (negb found, m).

(** The first listening socket of the family. *)
Fixpoint find_sock (l : list sockaddr_t) (family : Z) (i : Z) : Z :=
  match l with [] => 0 | s :: l => if sa_family s =? family then i else find_sock l family (i + 1) end.

Definition update_node_udp (n : nid) (sa : option sockaddr_t) (m : mesh_t) : outcome mesh_t :=
  if decide (n = m_self m) then Done m
  else
    let* x := get_node m n in
    let* cache := hash_insert (m_node_udp_cache m) (sa_raw (n_address x)) None in
    let m := set_m_node_udp_cache cache m in
    match sa with
    | None => Done m
    | Some sa =>
        let* m := upd_node n (fun x => set_n_sock (find_sock (m_listen_socket m) (sa_family sa) 0) (set_n_address sa x)) m in
        let* cache := hash_insert (m_node_udp_cache m) (sa_raw sa) (Some n) in
        let m := set_m_node_udp_cache cache m in
        let* (_, m) := node_add_recent_address n sa m in
        Done m
    end.

Definition lookup_node_udp (sa : sockaddr_t) (m : mesh_t) : outcome (option nid) :=
  hash_search (m_node_udp_cache m) (sa_raw sa).

(** ** Breadth-first search (graph.c) *)

(** One edge of the node [n] that is examined. *)
Definition bfs_edge (n : nid) (e : eid) (s : mesh_t * list nid) : outcome (mesh_t * list nid) :=
  let '(m, todo) := s in
  let* ed := get_edge m e in
  match e_reverse ed with
  | None => Done (m, todo)
  | Some _ =>
      let t := e_to ed in
      let* to := get_node m t in
      let* x := get_node m n in
      let* skip :=
        if n_visited to then
          if negb (n_distance to =? n_distance x + 1) then Done true
          else let* p := deref_edge m (n_prevedge to) in Done (e_weight p <=? e_weight ed)
        else Done false in
      if (skip : bool) then Done (m, todo)
      else
        let hop := if decide (n_nexthop x = Some (m_self m)) then Some t else n_nexthop x in
        let* m := upd_node t (fun y => set_n_distance (n_distance x + 1) (set_n_prevedge (Some e) (set_n_nexthop hop (set_n_visited true y)))) m in
        let* m :=
          if negb (n_reachable to) || ((sa_family (n_address to) =? AF_UNSPEC) && negb (sa_family (e_address ed) =? AF_UNKNOWN))
          then update_node_udp t (Some (e_address ed)) m else Done m in
        Done (m, todo ++ [t])
  end.

(** [for list_each(node_t, n, todo_list)]. *)
Fixpoint bfs_loop (fuel : nat) (m : mesh_t) (todo : list nid) : outcome mesh_t :=
  match todo with
  | [] => Done m
  | n :: todo =>
      match fuel with
      | O => Stop OutOfFuel
      | S fuel =>
          let* x := get_node m n in
          if n_distance x <? 0 then Stop AbortCalled
          else
            let* (m, todo) := each (bfs_edge n) (n_edge_tree x) (m, todo) in
            bfs_loop fuel m todo
      end
  end.

(** How often a node can be put on the list: once for every edge, and the first. *)
Definition bfs_fuel (m : mesh_t) : nat := S (sum_list_with (fun n => length (default [] (n_edge_tree <$> m_nodes m !! n))) (m_node_tree m)).

Definition sssp_bfs (m : mesh_t) : outcome mesh_t :=
  (* Clear visited status on nodes *)
  let* m := each (fun n => upd_node n (fun x => set_n_distance (-1) (set_n_visited false x))) (m_node_tree m) m in
  (* Begin with mesh->self *)
  let* m := upd_node (m_self m) (fun x => set_n_distance 0 (set_n_prevedge None (set_n_nexthop (Some (m_self m)) (set_n_visited (m_threadstarted m) x)))) m in
  bfs_loop (bfs_fuel m) m [m_self m].

(** ** Reachability (graph.c) *)

(** A node that was given a new session starts afresh. *)
Definition new_session (n : nid) (session : Z) (m : mesh_t) : outcome mesh_t :=
  let* x := get_node m n in
  let* m := upd_node n (set_n_session_id session) m in
  let m := if n_utcp x then emit (EvUtcpReset n) m else m in
  let* m := upd_node n (set_n_validkey false) m in
  let m := emit (EvSptpsStop n) m in
  let* m := upd_node n (fun x => set_n_mtuprobes 0 (set_n_minmtu 0 (set_n_maxmtu MTU (set_n_udp_confirmed false
    (set_n_last_req_key (-3600) (set_n_waitingforkey false x)))))) m in
  Done (emit (EvTimeoutDel n) m).

Definition check_session (n : nid) (m : mesh_t) : outcome mesh_t :=
  let* x := get_node m n in
  match n_prevedge x with
  | Some p =>
      if n_visited x then
        let* ed := get_edge m p in
        let* rev := deref_edge m (e_reverse ed) in
        if negb (e_session_id rev =? n_session_id x) then new_session n (e_session_id rev) m else Done m
      else Done m
  | None => Done m
  end.

(** Of meshlink.c: UTCP starts when channels are accepted, then the callbacks. *)
Definition update_node_status (n : nid) (m : mesh_t) : outcome mesh_t :=
  let* x := get_node m n in
  let* m :=
    if n_reachable x && m_accept_cb m && negb (n_utcp x) then
      let* m := upd_node n (set_n_utcp true) m in Done (emit (EvUtcpInit n) m)
    else Done m in
  let m := if m_status_cb m then emit (EvStatus n (n_reachable x && negb (n_blacklisted x))) m else m in
  Done (if m_pmtu_cb m then emit (EvPmtu n (n_minmtu x)) m else m).

(** [time] is what [time(NULL)] answers. *)
Definition note_time (time : Z) (n : nid) (m : mesh_t) : outcome mesh_t :=
  let* x := get_node m n in
  if n_blacklisted x then Done m
  else if n_reachable x then
    let* m := upd_node n (set_n_last_reachable time) m in
    Done (if n_last_reachable x =? 0 then emit (EvWriteConfig n) m else m)
  else upd_node n (set_n_last_unreachable time) m.

Definition status_changed (time : Z) (n : nid) (m : mesh_t) : outcome mesh_t :=
  let* m := upd_node n (fun x => set_n_dirty true (set_n_reachable (negb (n_reachable x)) x)) m in
  let* m := note_time time n m in
  let* m := upd_node n (fun x => set_n_mtuprobes 0 (set_n_minmtu 0 (set_n_maxmtu MTU (set_n_udp_confirmed false x)))) m in
  let m := emit (EvTimeoutDel n) m in
  let* x := get_node m n in
  let* m := if negb (n_blacklisted x) then update_node_status n m else Done m in
  let* m :=
    if negb (n_reachable x) then
      let* m := update_node_udp n None m in upd_node n (set_n_broadcast false) m
    else Done m in
  let* x := get_node m n in
  Done (if n_utcp x then emit (EvUtcpOffline n (negb (n_reachable x))) m else m).

Definition check_node (time : Z) (n : nid) (s : mesh_t * Z) : outcome (mesh_t * Z) :=
  let '(m, reachable) := s in
  let* x := get_node m n in
  let reachable := if n_visited x then reachable + 1 else reachable in
  let* m := check_session n m in
  let* x := get_node m n in
  let* m := if negb (Bool.eqb (n_visited x) (n_reachable x)) then status_changed time n m else Done m in
  Done (m, reachable).

Definition check_reachability (time : Z) (m : mesh_t) : outcome mesh_t :=
  let* (m, reachable) := each (check_node time) (m_node_tree m) (m, -1) in
  if negb (m_reachable m =? reachable) then
    let m :=
      if reachable =? 0 then
        let m := set_m_last_unreachable (m_now m) m in
        if m_threadstarted m && m_periodic m then emit EvPeriodic m else m
      else m in
    Done (set_m_reachable reachable m)
  else Done m.

Definition graph (time : Z) (m : mesh_t) : outcome mesh_t :=
  let* m := sssp_bfs m in
  check_reachability time m.

(** ** Edges (edge.c) *)

Definition edge_compare (m : mesh_t) (a b : eid) : outcome Z :=
  let* x := get_edge m a in let* y := get_edge m b in
  let* s := get_node m (e_to x) in let* t := get_node m (e_to y) in
  Done (bytes_cmp (n_name s) (n_name t)).

(** [a->weight - b->weight] is an [int]. *)
Definition edge_weight_compare (m : mesh_t) (a b : eid) : outcome Z :=
  let* x := get_edge m a in let* y := get_edge m b in
  let result := s32 (e_weight x - e_weight y) in
  if negb (result =? 0) then Done result
  else
    let* s := get_node m (e_from x) in let* t := get_node m (e_from y) in
    let result := bytes_cmp (n_name s) (n_name t) in
    if negb (result =? 0) then Done result
    else edge_compare m a b.

(** The trees as ordered lists: an element that is already there is not inserted. *)
Fixpoint tree_insert (cmp : eid -> eid -> outcome Z) (x : eid) (l : list eid) : outcome (list eid) :=
  match l with
  | [] => Done [x]
  | y :: l =>
      let* c := cmp x y in
      if c <? 0 then Done (x :: y :: l)
      else if c =? 0 then Done (y :: l)
      else let* l := tree_insert cmp x l in Done (y :: l)
  end.

Fixpoint tree_search (cmp : eid -> outcome Z) (l : list eid) : outcome (option eid) :=
  match l with
  | [] => Done None
  | y :: l => let* c := cmp y in if c =? 0 then Done (Some y) else tree_search cmp l
  end.

(** The element that was taken out, and the rest. *)
Fixpoint tree_delete (cmp : eid -> outcome Z) (l : list eid) : outcome (option eid * list eid) :=
  match l with
  | [] => Done (None, [])
  | y :: l =>
      let* c := cmp y in
      if c =? 0 then Done (Some y, l) else let* (r, l) := tree_delete cmp l in Done (r, y :: l)
  end.

Definition lookup_edge (m : mesh_t) (from to : nid) : outcome (option eid) :=
  let* x := get_node m from in
  let* t := get_node m to in
  tree_search (fun e => let* ed := get_edge m e in let* u := get_node m (e_to ed) in Done (bytes_cmp (n_name t) (n_name u))) (n_edge_tree x).

Definition edge_add (e : eid) (m : mesh_t) : outcome mesh_t :=
  let* ed := get_edge m e in
  let* t := tree_insert (edge_weight_compare m) e (m_edge_tree m) in
  let m := set_m_edge_tree t m in
  let* x := get_node m (e_from ed) in
  let* t := tree_insert (edge_compare m) e (n_edge_tree x) in
  let* m := upd_node (e_from ed) (set_n_edge_tree t) m in
  let* r := lookup_edge m (e_to ed) (e_from ed) in
  let* m := upd_edge e (set_e_reverse r) m in
  match r with Some r => upd_edge r (set_e_reverse (Some e)) m | None => Done m end.

(** [splay_delete] on the node's tree frees the edge; [mesh->edges] only forgets it. *)
Definition edge_del (e : eid) (m : mesh_t) : outcome mesh_t :=
  let* ed := get_edge m e in
  let* m := match e_reverse ed with Some r => upd_edge r (set_e_reverse None) m | None => Done m end in
  let* (_, t) := tree_delete (edge_weight_compare m e) (m_edge_tree m) in
  let m := set_m_edge_tree t m in
  let* x := get_node m (e_from ed) in
  let* (d, t) := tree_delete (edge_compare m e) (n_edge_tree x) in
  let* m := upd_node (e_from ed) (set_n_edge_tree t) m in
  Done (match d with Some d => set_m_edges (delete d (m_edges m)) m | None => m end).

(** ** Nodes (node.c) *)

Definition node_compare (m : mesh_t) (a b : nid) : outcome Z :=
  let* x := get_node m a in let* y := get_node m b in Done (bytes_cmp (n_name x) (n_name y)).

Definition node_add (n : nid) (m : mesh_t) : outcome mesh_t :=
  let* t := tree_insert (node_compare m) n (m_node_tree m) in Done (set_m_node_tree t m).

Definition lookup_node (m : mesh_t) (name : list Z) : outcome (option nid) :=
  tree_search (fun n => let* x := get_node m n in Done (bytes_cmp name (n_name x))) (m_node_tree m).

(** The edges in the node's tree are freed with it. *)
Definition free_node (n : nid) (m : mesh_t) : outcome mesh_t :=
  let* x := get_node m n in
  let m := if n_utcp x then emit (EvUtcpExit n) m else m in
  let* m := each (fun e m => let* _ := get_edge m e in Done (set_m_edges (delete e (m_edges m)) m)) (n_edge_tree x) m in
  let m := emit (EvSptpsStop n) m in
  Done (set_m_nodes (delete n (m_nodes m)) m).

Definition node_del (n : nid) (m : mesh_t) : outcome mesh_t :=
  let m := emit (EvTimeoutDel n) m in
  let* x := get_node m n in
  let* m := each edge_del (n_edge_tree x) m in
  let* (d, t) := tree_delete (node_compare m n) (m_node_tree m) in
  let m := set_m_node_tree t m in
  match d with Some d => free_node d m | None => Done m end.
End Graph.

(** Case analysis on a look-up in a finite map that is written out. *)
Ltac lookup_cases H :=
  repeat match type of H with
  | <[_ := _]> _ !! _ = Some _ => apply lookup_insert_Some in H as [[<- <-]|[_ H]]
  | ∅ !! _ = Some _ => by rewrite lookup_empty in H
  end.
