(* ===== verification/GraphBfs.v ===== *)
(** The breadth-first search of src/src/graph.c on marks: what it computes.

    The state is a mark for every node (visited, distance, the edge it was reached
    by and the next hop) and the list of nodes to do.  A node may be put on the list
    again when a lighter edge to it is found.  The invariant says that the marks of
    the nodes that were examined once are final, and that the list holds nodes of
    two consecutive distances in order. *)
From stdpp Require Import gmap.
From S2P Require Import Prelude HashTable Graph.

Record mark := Mark { k_visited : bool; k_dist : Z; k_prev : option eid; k_hop : option nid }.

Section Bfs.
Context (self : nid) (adj : nid -> list eid) (frm to : eid -> nid) (wt : eid -> Z) (valid : eid -> bool).
Context (Hadj : forall n e, e ∈ adj n -> frm e = n).

Definition mk (M : gmap nid mark) (v : nid) : mark := default (Mark false (-1) None None) (M !! v).

(** Edge [e] from [n] is not worth following. *)
Definition skips (M : gmap nid mark) (n : nid) (e : eid) : bool :=
  let t := mk M (to e) in
  k_visited t && (negb (k_dist t =? k_dist (mk M n) + 1) || match k_prev t with Some p => wt p <=? wt e | None => true end).

Definition visit (M : gmap nid mark) (n : nid) (e : eid) : gmap nid mark :=
  let x := mk M n in
  <[to e := Mark true (k_dist x + 1) (Some e) (if decide (k_hop x = Some self) then Some (to e) else k_hop x)]> M.

Definition examine (n : nid) (e : eid) (s : gmap nid mark * list nid) : gmap nid mark * list nid :=
  let '(M, Q) := s in
  if negb (valid e) || skips M n e then (M, Q) else (visit M n e, Q ++ [to e]).

Fixpoint scan (n : nid) (es : list eid) (s : gmap nid mark * list nid) : gmap nid mark * list nid :=
  match es with [] => s | e :: es => scan n es (examine n e s) end.

Fixpoint search (fuel : nat) (M : gmap nid mark) (Q : list nid) : option (gmap nid mark) :=
  match Q with
  | [] => Some M
  | n :: Q => match fuel with O => None | S fuel => let '(M, Q) := scan n (adj n) (M, Q) in search fuel M Q end
  end.

(** ** The specification: paths along valid edges *)

Inductive path : nid -> Z -> Prop :=
  | path_self : path self 0
  | path_edge u e k : path u k -> e ∈ adj u -> valid e = true -> path (to e) (k + 1).

Lemma path_nonneg v k : path v k -> 0 <= k.
Proof. induction 1; lia. Qed.

(** ** The invariant *)

Definition vis (M : gmap nid mark) (v : nid) : Prop := k_visited (mk M v) = true.
Definition dist (M : gmap nid mark) (v : nid) : Z := k_dist (mk M v).

(** The mark of a visited node: reached by a valid edge from an examined node. *)
Definition marked (P : gset nid) (M : gmap nid mark) (v : nid) : Prop :=
  exists e, k_prev (mk M v) = Some e /\ valid e = true /\ e ∈ adj (frm e) /\ to e = v /\ frm e ∈ P /\ dist M v = dist M (frm e) + 1 /\
    k_hop (mk M v) = (if decide (frm e = self) then Some v else k_hop (mk M (frm e))).

(** An edge that has been looked at from an examined node. *)
Definition settled (M : gmap nid mark) (u : nid) (e : eid) : Prop :=
  vis M (to e) /\ dist M (to e) <= dist M u + 1 /\
  (dist M (to e) = dist M u + 1 -> exists p, k_prev (mk M (to e)) = Some p /\ wt p <= wt e).

(** [P] is examined except that of the last node [n] only the edges [es] are. *)
Record inv (P : gset nid) (n : nid) (es : list eid) (M : gmap nid mark) (d : Z) (Q1 Q2 : list nid) : Prop := {
  i_self : mk M self = Mark true 0 None (Some self);
  i_hop : forall v, vis M v -> v <> self -> k_hop (mk M v) <> Some self;
  i_pos : forall v, vis M v -> 0 <= dist M v;
  i_mark : forall v, vis M v -> v <> self -> marked P M v;
  i_seen : forall v, vis M v -> v ∈ P \/ v ∈ Q1 ++ Q2;
  i_vis : forall v, v ∈ P \/ v ∈ Q1 ++ Q2 -> vis M v;
  i_closed : forall u e, u ∈ P -> e ∈ adj u -> valid e = true -> (u = n -> e ∈ es) -> settled M u e;
  i_low : forall v, v ∈ P -> dist M v <= d;
  i_q1 : forall v, v ∈ Q1 -> dist M v = d;
  i_q2 : forall v, v ∈ Q2 -> dist M v = d + 1;
}.

Lemma mk_visit M n e v : mk (visit M n e) v = if decide (v = to e) then Mark true (dist M n + 1) (Some e) (if decide (k_hop (mk M n) = Some self) then Some (to e) else k_hop (mk M n)) else mk M v.
Proof.
  unfold mk at 1, visit. destruct (decide (v = to e)) as [->|Hne]; [by rewrite lookup_insert_eq|by rewrite lookup_insert_ne by congruence].
Qed.

(** A visited node is at most one step further than the node being examined. *)
Lemma far P n es M d Q1 Q2 v : inv P n es M d Q1 Q2 -> vis M v -> dist M v <= d + 1.
Proof.
  intros H Hv. destruct (i_seen _ _ _ _ _ _ _ H v Hv) as [Hp|Hq]; [pose proof (i_low _ _ _ _ _ _ _ H v Hp); lia|].
  apply elem_of_app in Hq as [Hq|Hq]; [pose proof (i_q1 _ _ _ _ _ _ _ H v Hq); lia|pose proof (i_q2 _ _ _ _ _ _ _ H v Hq); lia].
Qed.

Lemma skip_step P n es M d Q1 Q2 e :
  inv P n es M d Q1 Q2 -> n ∈ P -> dist M n = d -> e ∈ adj n -> negb (valid e) || skips M n e = true -> inv P n (es ++ [e]) M d Q1 Q2.
Proof.
  intros H Hn Hd He Hs. destruct H as [Hself Hhop Hpos Hmark Hseen Hvis Hcl Hlow H1 H2] eqn:EH. split; try done.
  intros u e' Hu He' Hval Hin. destruct (decide (u = n)) as [->|Hne]; [|by apply Hcl].
  specialize (Hin eq_refl). apply elem_of_app in Hin as [Hin|Hin]; [by apply Hcl|]. apply list_elem_of_singleton in Hin as ->.
  rewrite Hval in Hs. cbn [negb orb] in Hs. unfold skips in Hs. ztests. assert (Hv : vis M (to e)) by done. pose proof (far _ _ _ _ _ _ _ (to e) H Hv) as Hf.
  unfold settled. fold (dist M (to e)) (dist M n) in *. split; [done|]. split; [lia|]. intros Heq. rewrite Heq, Z.eqb_refl in H3. cbn [negb orb] in H3.
  destruct (decide (to e = self)) as [Es|Es].
  - exfalso. unfold dist in Heq at 1. rewrite Es, Hself in Heq. cbn in Heq. pose proof (Hpos n (Hvis n (or_introl Hn))). lia.
  - destruct (Hmark (to e) Hv Es) as (p & Hp & _). rewrite Hp in *. exists p. split; [done|]. by apply Z.leb_le.
Qed.

(** What not skipping means for the other end of the edge. *)
Lemma not_skipped P n es M d Q1 Q2 e :
  inv P n es M d Q1 Q2 -> n ∈ P -> dist M n = d -> skips M n e = false ->
  (to e ∉ P) /\ to e <> self /\
  (vis M (to e) -> dist M (to e) = d + 1 /\ forall p, k_prev (mk M (to e)) = Some p -> wt e < wt p).
Proof.
  intros H Hn Hd Hs. assert (Hv : vis M (to e) -> dist M (to e) = d + 1 /\ forall p, k_prev (mk M (to e)) = Some p -> wt e < wt p).
  { intros Hv. unfold skips in Hs. unfold vis in Hv. rewrite Hv in Hs. cbn [andb] in Hs. ztests. fold (dist M (to e)) (dist M n) in *. split; [lia|].
    intros p Hp. rewrite Hp in *. by ztests. }
  assert (0 <= d) by (rewrite <- Hd; apply (i_pos _ _ _ _ _ _ _ H), (i_vis _ _ _ _ _ _ _ H); by left). splits; [| |done].
  - intros Hp. destruct (Hv (i_vis _ _ _ _ _ _ _ H _ (or_introl Hp))). pose proof (i_low _ _ _ _ _ _ _ H _ Hp). lia.
  - intros Es. pose proof (i_self _ _ _ _ _ _ _ H) as Hself. destruct Hv as [Hd' _]; [unfold vis; by rewrite Es, Hself|].
    unfold dist in Hd'. rewrite Es, Hself in Hd'. cbn in Hd'. lia.
Qed.

Lemma visit_step P n es M d Q1 Q2 e :
  inv P n es M d Q1 Q2 -> n ∈ P -> dist M n = d -> e ∈ adj n -> valid e = true -> skips M n e = false ->
  inv P n (es ++ [e]) (visit M n e) d Q1 (Q2 ++ [to e]).
Proof.
  intros H Hn Hd He Hval Hs. destruct (not_skipped _ _ _ _ _ _ _ _ H Hn Hd Hs) as (Ht & Hts & Hold).
  assert (Hsame : forall v, v <> to e -> mk (visit M n e) v = mk M v) by (intros v Hne; rewrite mk_visit; by destruct (decide (v = to e))).
  assert (HP : forall v, v ∈ P -> v <> to e) by (intros v Hp ->; done).
  assert (Hnew : mk (visit M n e) (to e) = Mark true (d + 1) (Some e) (if decide (k_hop (mk M n) = Some self) then Some (to e) else k_hop (mk M n)))
    by (rewrite mk_visit, Hd; by destruct (decide (to e = to e))).
  assert (Hhop : k_hop (mk M n) = Some self <-> n = self).
  { split; [|intros ->; by rewrite (i_self _ _ _ _ _ _ _ H)]. intros E. destruct (decide (n = self)) as [|Hne]; [done|].
    exfalso. by apply (i_hop _ _ _ _ _ _ _ H n (i_vis _ _ _ _ _ _ _ H _ (or_introl Hn)) Hne). }
  pose proof (i_pos _ _ _ _ _ _ _ H n (i_vis _ _ _ _ _ _ _ H _ (or_introl Hn))) as Hd0. split.
  - by rewrite Hsame, (i_self _ _ _ _ _ _ _ H) by done.
  - intros v Hv Hne. destruct (decide (v = to e)) as [->|Hvt]; [|unfold vis in Hv; rewrite Hsame in * by done; by apply (i_hop _ _ _ _ _ _ _ H)].
    rewrite Hnew. cbn [k_hop]. destruct (decide _); congruence.
  - intros v Hv. unfold dist. destruct (decide (v = to e)) as [->|Hvt]; [rewrite Hnew; cbn; lia|]. unfold vis in Hv. rewrite Hsame in * by done. by apply (i_pos _ _ _ _ _ _ _ H).
  - intros v Hv Hne. destruct (decide (v = to e)) as [->|Hvt].
    + exists e. rewrite (Hadj n e He). unfold dist. rewrite Hnew, (Hsame n) by (by apply HP). cbn [k_prev k_dist k_hop]. fold (dist M n). splits; try done; [lia|].
      destruct (decide (k_hop _ = _)) as [E|E], (decide (n = self)) as [E'|E']; try done; [by apply Hhop in E|by apply Hhop in E'].
    + unfold vis in Hv. rewrite Hsame in Hv by done. destruct (i_mark _ _ _ _ _ _ _ H v Hv Hne) as (p & Hp & Hpv & Hpa & Hpt & Hpf & Hpd & Hph). exists p.
      unfold dist. rewrite !Hsame by (done || by apply HP). done.
  - intros v Hv. destruct (decide (v = to e)) as [->|Hvt]; [right; rewrite !elem_of_app, list_elem_of_singleton; auto|].
    unfold vis in Hv. rewrite Hsame in Hv by done. destruct (i_seen _ _ _ _ _ _ _ H v Hv) as [|Hq]; [by left|right]. rewrite !elem_of_app in *. naive_solver.
  - intros v Hv. unfold vis. destruct (decide (v = to e)) as [->|Hvt]; [by rewrite Hnew|]. rewrite Hsame by done. apply (i_vis _ _ _ _ _ _ _ H).
    rewrite !elem_of_app, list_elem_of_singleton in *. naive_solver.
  - intros u e' Hu He' Hval' Hin. pose proof (HP u Hu) as Hut. unfold settled, vis, dist. rewrite (Hsame u Hut). fold (dist M u).
    destruct (decide (to e' = to e)) as [Et|Et].
    + rewrite Et, Hnew. cbn [k_visited k_dist k_prev]. split; [done|]. pose proof (i_low _ _ _ _ _ _ _ H u Hu).
      destruct (decide (u = n)) as [->|Hune].
      * rewrite Hd. split; [lia|]. intros _. exists e. split; [done|]. specialize (Hin eq_refl). apply elem_of_app in Hin as [Hin|Hin]; [|apply list_elem_of_singleton in Hin as ->; lia].
        destruct (i_closed _ _ _ _ _ _ _ H n e' Hn He' Hval' (fun _ => Hin)) as (V & D & W). rewrite Et in *. destruct (Hold V) as [Dt Wt]. destruct W as (p & Hp & Hw); [lia|].
        specialize (Wt p Hp). lia.
      * destruct (i_closed _ _ _ _ _ _ _ H u e' Hu He' Hval' (fun E => match Hune E with end)) as (V & D & W). rewrite Et in *. destruct (Hold V) as [Dt Wt].
        split; [lia|]. intros _. exists e. split; [done|]. destruct W as (p & Hp & Hw); [lia|]. specialize (Wt p Hp). lia.
    + rewrite !(Hsame _ Et). apply (i_closed _ _ _ _ _ _ _ H); try done. intros ->. specialize (Hin eq_refl). apply elem_of_app in Hin as [Hin|Hin]; [done|].
      apply list_elem_of_singleton in Hin as ->. done.
  - intros v Hp. unfold dist. rewrite Hsame by (by apply HP). by apply (i_low _ _ _ _ _ _ _ H).
  - intros v Hq. pose proof (i_q1 _ _ _ _ _ _ _ H v Hq) as Dv. assert (v <> to e).
    { intros ->. destruct Hold as [Dt _]; [apply (i_vis _ _ _ _ _ _ _ H); right; apply elem_of_app; by left|]. lia. }
    unfold dist. rewrite Hsame by done. done.
  - intros v Hq. unfold dist. destruct (decide (v = to e)) as [->|Hvt]; [by rewrite Hnew|]. rewrite Hsame by done. apply (i_q2 _ _ _ _ _ _ _ H).
    rewrite elem_of_app, list_elem_of_singleton in Hq. naive_solver.
Qed.

Lemma visit_keeps M n e v : v <> to e -> mk (visit M n e) v = mk M v.
Proof. intros H. rewrite mk_visit. by destruct (decide (v = to e)). Qed.

(** What the code relies on without a test: the edge to a visited node one step
    further, and the distance of a node on the list. *)
Definition safe_edge (M : gmap nid mark) (n : nid) (e : eid) : Prop :=
  vis M (to e) -> dist M (to e) = dist M n + 1 -> exists p, k_prev (mk M (to e)) = Some p /\ p ∈ adj (frm p).

Fixpoint safe_scan (n : nid) (es : list eid) (s : gmap nid mark * list nid) : Prop :=
  match es with [] => True | e :: es => safe_edge (fst s) n e /\ safe_scan n es (examine n e s) end.

Fixpoint safe_search (fuel : nat) (M : gmap nid mark) (Q : list nid) : Prop :=
  match Q with
  | [] => True
  | n :: Q =>
      vis M n /\ 0 <= dist M n /\ safe_scan n (adj n) (M, Q) /\
      match fuel with O => False | S fuel => let '(M, Q) := scan n (adj n) (M, Q) in safe_search fuel M Q end
  end.

Lemma inv_safe P n es M d Q1 Q2 e : inv P n es M d Q1 Q2 -> n ∈ P -> safe_edge M n e.
Proof.
  intros H Hn Hv Hd. pose proof (i_pos _ _ _ _ _ _ _ H n (i_vis _ _ _ _ _ _ _ H _ (or_introl Hn))). destruct (decide (to e = self)) as [Es|Es].
  - exfalso. unfold dist in Hd at 1. rewrite Es, (i_self _ _ _ _ _ _ _ H) in Hd. cbn in Hd. lia.
  - destruct (i_mark _ _ _ _ _ _ _ H (to e) Hv Es) as (p & Hp & _ & Ha & _). by exists p.
Qed.

(** Looking at a list of edges of one node. *)
Lemma scan_ok P n d Q1 es' : forall es M Q2,
  inv P n es M d Q1 Q2 -> n ∈ P -> dist M n = d -> (forall e, e ∈ es' -> e ∈ adj n) ->
  exists M' Q2', scan n es' (M, Q1 ++ Q2) = (M', Q1 ++ Q2') /\ inv P n (es ++ es') M' d Q1 Q2' /\ (length Q2' <= length Q2 + length es')%nat /\
    safe_scan n es' (M, Q1 ++ Q2).
Proof.
  induction es' as [|e es' IH]; intros es M Q2 H Hn Hd Hes; [exists M, Q2; rewrite app_nil_r; splits; try done; cbn; lia|].
  cbn [scan safe_scan examine fst]. pose proof (inv_safe _ _ _ _ _ _ _ e H Hn). assert (He : e ∈ adj n) by (apply Hes; by left). destruct (negb (valid e) || skips M n e) eqn:Es.
  - destruct (IH (es ++ [e]) M Q2) as (M' & Q2' & E & H' & Hl & Hsafe); [by apply skip_step|done|done|intros; apply Hes; by right|].
    exists M', Q2'. rewrite <- app_assoc in H'. splits; try done; cbn [length]; lia.
  - apply orb_false_iff in Es as [Ev Es]. apply negb_false_iff in Ev. destruct (not_skipped _ _ _ _ _ _ _ _ H Hn Hd Es) as (Ht & _).
    destruct (IH (es ++ [e]) (visit M n e) (Q2 ++ [to e])) as (M' & Q2' & E & H' & Hl & Hsafe); [by apply visit_step|done| |intros; apply Hes; by right|].
    + unfold dist. rewrite visit_keeps; [done|]. intros ->. done.
    + exists M', Q2'. rewrite <- !app_assoc in *. splits; try done; rewrite length_app in Hl; cbn [length] in *; lia.
Qed.

(** Nothing is left of the node that is examined. *)
Definition full (P : gset nid) (M : gmap nid mark) (d : Z) (Q1 Q2 : list nid) : Prop := forall n, inv P n (adj n) M d Q1 Q2.

Lemma full_of P n M d Q1 Q2 : inv P n (adj n) M d Q1 Q2 -> full P M d Q1 Q2.
Proof.
  intros H n'. destruct H as [Hself Hhop Hpos Hmark Hseen Hvis Hcl Hlow H1 H2]. split; try done.
  intros u e Hu He Hval _. apply Hcl; try done. by intros ->.
Qed.

Lemma scan_again P n M d Q1 Q2 Q es : full P M d Q1 Q2 -> n ∈ P -> (forall e, e ∈ es -> e ∈ adj n) -> scan n es (M, Q) = (M, Q) /\ safe_scan n es (M, Q).
Proof.
  intros H Hn. induction es as [|e es IH]; intros Hes; [done|]. cbn [scan safe_scan examine fst]. pose proof (inv_safe _ _ _ _ _ _ _ e (H n) Hn) as Hse. destruct (valid e) eqn:Ev; cbn [negb orb].
  - destruct (i_closed _ _ _ _ _ _ _ (H n) n e Hn (Hes e ltac:(by left)) Ev (fun _ => Hes e ltac:(by left))) as (V & D & W).
    assert (Es : skips M n e = true).
    { unfold skips. fold (dist M (to e)) (dist M n). unfold vis in V. rewrite V. cbn [andb]. destruct (Z.eqb_spec (dist M (to e)) (dist M n + 1)) as [E|E]; [|done].
      cbn [negb orb]. destruct (W E) as (p & -> & Hw). by apply Z.leb_le. }
    rewrite Es. destruct IH; [intros e' He'; apply Hes; by right|done].
  - destruct IH; [intros e' He'; apply Hes; by right|done].
Qed.

Lemma pop_again P n M d Q1 Q2 : full P M d (n :: Q1) Q2 -> n ∈ P -> full P M d Q1 Q2.
Proof.
  intros H Hn n'. destruct (H n') as [Hself Hhop Hpos Hmark Hseen Hvis Hcl Hlow H1 H2]. split; try done.
  - intros v Hv. destruct (Hseen v Hv) as [|Hq]; [by left|]. cbn [app] in Hq. apply elem_of_cons in Hq as [->|Hq]; [by left|by right].
  - intros v Hv. apply Hvis. destruct Hv as [|Hq]; [by left|right]. cbn [app]. by apply elem_of_cons; right.
  - intros v Hv. apply H1. by apply elem_of_cons; right.
Qed.

Lemma pop_new P n M d Q1 Q2 : full P M d (n :: Q1) Q2 -> n ∉ P -> inv ({[n]} ∪ P) n [] M d Q1 Q2 /\ dist M n = d.
Proof.
  intros H Hn. destruct (H n) as [Hself Hhop Hpos Hmark Hseen Hvis Hcl Hlow H1 H2]. assert (Hd : dist M n = d) by (apply H1; by left). split; [|done]. split; try done.
  - intros v Hv Hne. destruct (Hmark v Hv Hne) as (e & Hp & Hev & Ha & Ht & Hf & Hr). exists e. splits; try done; [set_solver|apply Hr|apply Hr].
  - intros v Hv. destruct (Hseen v Hv) as [|Hq]; [left; set_solver|]. cbn [app] in Hq. apply elem_of_cons in Hq as [->|Hq]; [left; set_solver|by right].
  - intros v Hv. apply Hvis. destruct Hv as [Hv|Hq]; [|right; cbn [app]; by apply elem_of_cons; right].
    apply elem_of_union in Hv as [Hv|Hv]; [apply elem_of_singleton in Hv as ->; right; cbn [app]; by apply elem_of_cons; left|by left].
  - intros u e Hu He Hval Hin. destruct (decide (u = n)) as [->|Hne]; [by apply Hin, not_elem_of_nil in Hne || (specialize (Hin eq_refl); by apply not_elem_of_nil in Hin)|].
    apply elem_of_union in Hu as [Hu|Hu]; [by apply elem_of_singleton in Hu|]. by apply Hcl.
  - intros v Hv. apply elem_of_union in Hv as [Hv|Hv]; [apply elem_of_singleton in Hv as ->; lia|by apply Hlow].
  - intros v Hv. apply H1. by apply elem_of_cons; right.
Qed.

Lemma next_level P M d Q2 : full P M d [] Q2 -> full P M (d + 1) Q2 [].
Proof.
  intros H n'. destruct (H n') as [Hself Hhop Hpos Hmark Hseen Hvis Hcl Hlow H1 H2]. split; try done.
  - intros v Hv. rewrite app_nil_r. by apply Hseen.
  - intros v Hv. rewrite app_nil_r in Hv. by apply Hvis.
  - intros v Hv. specialize (Hlow v Hv). lia.
  - intros v Hv. by apply not_elem_of_nil in Hv.
Qed.

(** ** The search ends *)

Context (univ : list nid) (Hself_in : self ∈ univ) (Huniv : forall n e, e ∈ adj n -> to e ∈ univ).

Definition edges_left (P : gset nid) (l : list nid) : nat := sum_list_with (fun v => if decide (v ∈ P) then 0%nat else length (adj v)) l.

Lemma edges_left_less P n l : (edges_left ({[n]} ∪ P) l <= edges_left P l)%nat.
Proof. induction l as [|v l IH]; [done|]. unfold edges_left in *. cbn [sum_list_with]. destruct (decide (v ∈ P)), (decide (v ∈ {[n]} ∪ P)); try lia. set_solver. Qed.

Lemma edges_left_new P n l : n ∈ l -> n ∉ P -> (edges_left ({[n]} ∪ P) l + length (adj n) <= edges_left P l)%nat.
Proof.
  intros Hl Hn. induction l as [|v l IH]; [by apply not_elem_of_nil in Hl|]. unfold edges_left in *. cbn [sum_list_with]. pose proof (edges_left_less P n l) as Hle. unfold edges_left in Hle.
  apply elem_of_cons in Hl as [<-|Hl].
  - rewrite (decide_True (P := n ∈ {[n]} ∪ P)) by set_solver. rewrite (decide_False (P := n ∈ P)) by done. lia.
  - specialize (IH Hl). destruct (decide (v ∈ P)), (decide (v ∈ {[n]} ∪ P)); try lia. set_solver.
Qed.

Lemma visited_in P M d Q1 Q2 v : full P M d Q1 Q2 -> vis M v -> v ∈ univ.
Proof.
  intros H Hv. destruct (decide (v = self)) as [->|Hne]; [done|]. destruct (i_mark _ _ _ _ _ _ _ (H self) v Hv Hne) as (e & _ & _ & Ha & <- & _). by eapply Huniv.
Qed.

Lemma search_ends fuel : forall P M d Q1 Q2,
  full P M d Q1 Q2 -> (length (Q1 ++ Q2) + edges_left P univ <= fuel)%nat ->
  exists P' M' d', search fuel M (Q1 ++ Q2) = Some M' /\ full P' M' d' [] [] /\ safe_search fuel M (Q1 ++ Q2).
Proof.
  assert (Hstep : forall P M d n Q1 Q2, full P M d (n :: Q1) Q2 ->
    exists P' M' Q2', scan n (adj n) (M, Q1 ++ Q2) = (M', Q1 ++ Q2') /\ full P' M' d Q1 Q2' /\
      (length Q2' + edges_left P' univ <= length Q2 + edges_left P univ)%nat /\ vis M n /\ 0 <= dist M n /\ safe_scan n (adj n) (M, Q1 ++ Q2)).
  { intros P M d n Q1 Q2 H. assert (Hv : vis M n) by (apply (i_vis _ _ _ _ _ _ _ (H n)); right; by apply elem_of_cons; left).
    pose proof (i_pos _ _ _ _ _ _ _ (H n) n Hv). destruct (decide (n ∈ P)) as [Hn|Hn].
    - destruct (scan_again P n M d (n :: Q1) Q2 (Q1 ++ Q2) (adj n) H Hn (fun e He => He)) as [E Hs]. exists P, M, Q2. splits; try done. by apply (pop_again P n).
    - destruct (pop_new P n M d Q1 Q2 H Hn) as [H' Hd]. destruct (scan_ok _ n d Q1 (adj n) [] M Q2 H' ltac:(set_solver) Hd (fun e He => He)) as (M' & Q2' & E & Hi & Hl & Hsafe).
      assert (Hu : n ∈ univ) by (by eapply visited_in).
      pose proof (edges_left_new P n univ Hu Hn). exists ({[n]} ∪ P), M', Q2'. splits; try done; [by apply (full_of _ n)|lia]. }
  induction fuel as [|fuel IH]; intros P M d Q1 Q2 H Hf.
  - destruct Q1, Q2; cbn in Hf; try lia. by exists P, M, d.
  - destruct Q1 as [|n Q1]; [destruct Q2 as [|n Q2]|]; [by exists P, M, d| |]; cbn [app search] in *.
    + apply next_level in H. destruct (Hstep P M (d + 1) n Q2 [] H) as (P' & M' & Q2' & E & H' & Hl & Hv & Hp & Hs). rewrite app_nil_r in *. rewrite E. cbn [safe_search].
      destruct (IH P' M' (d + 1) Q2 Q2' H') as (P2 & M2 & d2 & E2 & H2 & S2); [rewrite length_app; cbn [length] in *; lia|]. exists P2, M2, d2. rewrite E. done.
    + destruct (Hstep P M d n Q1 Q2 H) as (P' & M' & Q2' & E & H' & Hl & Hv & Hp & Hs). rewrite E. cbn [safe_search].
      destruct (IH P' M' d Q1 Q2' H') as (P2 & M2 & d2 & E2 & H2 & S2); [cbn [length] in *; rewrite !length_app in *; lia|]. exists P2, M2, d2. rewrite E. done.
Qed.

(** ** What it finds *)

(** The marks are those of a shortest path tree, of lightest edges where there is a
    choice, with the first hop of every path. *)
Record shortest (M : gmap nid mark) : Prop := {
  s_self : mk M self = Mark true 0 None (Some self);
  s_visited : forall v, vis M v <-> exists k, path v k;
  s_path : forall v, vis M v -> path v (dist M v);
  s_least : forall v k, path v k -> dist M v <= k;
  s_prev : forall v, vis M v -> v <> self ->
    exists e, k_prev (mk M v) = Some e /\ valid e = true /\ e ∈ adj (frm e) /\ to e = v /\ vis M (frm e) /\ dist M v = dist M (frm e) + 1 /\
      k_hop (mk M v) = (if decide (frm e = self) then Some v else k_hop (mk M (frm e))) /\
      forall u e', vis M u -> e' ∈ adj u -> valid e' = true -> to e' = v -> dist M u + 1 = dist M v -> wt e <= wt e';
}.

Lemma start_full M :
  mk M self = Mark true 0 None (Some self) -> (forall v, v <> self -> k_visited (mk M v) = false) -> full ∅ M 0 [self] [].
Proof.
  intros Hs Ho n. assert (Hv : forall v, vis M v -> v = self).
  { intros v Hv. destruct (decide (v = self)) as [|Hne]; [done|]. unfold vis in Hv. rewrite (Ho v Hne) in Hv. done. }
  split.
  - done.
  - intros v H Hne. by apply Hv in H.
  - intros v H. apply Hv in H as ->. unfold dist. by rewrite Hs.
  - intros v H Hne. by apply Hv in H.
  - intros v H. apply Hv in H as ->. right. by apply list_elem_of_singleton.
  - intros v [H|H]; [set_solver|]. apply list_elem_of_singleton in H as ->. unfold vis. by rewrite Hs.
  - intros u e Hu. set_solver.
  - intros v Hv'. set_solver.
  - intros v H. apply list_elem_of_singleton in H as ->. unfold dist. by rewrite Hs.
  - intros v H. by apply not_elem_of_nil in H.
Qed.

Lemma full_shortest P M d : full P M d [] [] -> shortest M.
Proof.
  intros H. destruct (H self) as [Hself Hhop Hpos Hmark Hseen Hvis _ Hlow _ _].
  assert (HP : forall v, vis M v -> v ∈ P) by (intros v Hv; destruct (Hseen v Hv) as [|Hq]; [done|by apply not_elem_of_nil in Hq]).
  assert (Hcl : forall u e, vis M u -> e ∈ adj u -> valid e = true -> settled M u e) by (intros u e Hu He Hv; by apply (i_closed _ _ _ _ _ _ _ (H u)); [apply HP|..]).
  assert (Hpath : forall v, vis M v -> path v (dist M v)).
  { intros v Hv. remember (Z.to_nat (dist M v)) as k eqn:Ek. revert v Hv Ek. induction k as [|k IH]; intros v Hv Ek; pose proof (Hpos v Hv).
    - destruct (decide (v = self)) as [->|Hne]; [unfold dist; rewrite Hself; constructor|]. destruct (Hmark v Hv Hne) as (e & _ & _ & _ & _ & Hf & Hd & _).
      pose proof (Hpos _ (Hvis _ (or_introl Hf))). lia.
    - destruct (decide (v = self)) as [->|Hne]; [unfold dist in Ek; rewrite Hself in Ek; done|]. destruct (Hmark v Hv Hne) as (e & _ & Hval & Ha & <- & Hf & Hd & _).
      rewrite Hd. econstructor; [|exact Ha|exact Hval]. apply IH; [by apply Hvis; left|lia]. }
  assert (Hleast : forall v k, path v k -> vis M v /\ dist M v <= k).
  { induction 1 as [|u e k Hp [IHv IHd] He Hval]; [unfold vis, dist; by rewrite Hself|]. destruct (Hcl u e IHv He Hval) as (V & D & _). split; [done|lia]. }
  split; [done| |done|by intros v k Hp; apply Hleast|].
  - intros v. split; [intros Hv; eexists; by apply Hpath|intros [k Hp]; by apply (Hleast v k)].
  - intros v Hv Hne. destruct (Hmark v Hv Hne) as (e & Hp & Hval & Ha & Ht & Hf & Hd & Hh). exists e. splits; try done; [by apply Hvis; left|].
    intros u e' Hu He' Hval' Ht' Hd'. destruct (Hcl u e' Hu He' Hval') as (_ & _ & W). rewrite Ht' in W. destruct (W ltac:(lia)) as (p & Hp' & Hw). congruence.
Qed.

(** The lengths of paths to a node are bounded below by its distance; every node on
    the way to a visited node is visited. *)
Lemma search_shortest M fuel :
  mk M self = Mark true 0 None (Some self) -> (forall v, v <> self -> k_visited (mk M v) = false) ->
  (1 + edges_left ∅ univ <= fuel)%nat -> exists M', search fuel M [self] = Some M' /\ shortest M' /\ safe_search fuel M [self].
Proof.
  intros Hs Ho Hf. destruct (search_ends fuel ∅ M 0 [self] [] (start_full M Hs Ho)) as (P & M' & d & E & H & Hsafe); [done|]. exists M'. splits; try done. by apply (full_shortest P M' d).
Qed.
End Bfs.
