(* ===== verification/GraphSim.v ===== *)
(** The search of src/src/graph.c on a mesh in memory: it follows the search on marks
    of GraphBfs.v, with the address bookkeeping of node.c on the side. *)
From stdpp Require Import gmap.
From S2P Require Import Prelude Bytes HashTable Graph GraphBfs.

(** ** Well-formed meshes *)

(** An address of a family the code knows. *)
Definition known (a : sockaddr_t) : Prop := match a with SaOther _ => False | _ => True end.

Record topo_wf (m : mesh_t) : Prop := {
  t_self : is_Some (m_nodes m !! m_self m);
  t_nodup : NoDup (m_node_tree m);
  t_tree : forall n, n ∈ m_node_tree m <-> is_Some (m_nodes m !! n);
  t_edge : forall n x e, m_nodes m !! n = Some x -> e ∈ n_edge_tree x ->
    exists ed, m_edges m !! e = Some ed /\ e_from ed = n /\ is_Some (m_nodes m !! e_to ed) /\ known (e_address ed);
  t_rev : forall e ed r, m_edges m !! e = Some ed -> e_reverse ed = Some r -> is_Some (m_edges m !! r);
}.

Section Sim.
Context (sa_raw : sockaddr_t -> list Z).

Record udp_wf (m : mesh_t) : Prop := {
  u_cache : hash_wf (m_node_udp_cache m);
  u_key : forall a, zlen (sa_raw a) = h_size (m_node_udp_cache m);
  u_recent : forall n x, m_nodes m !! n = Some x -> Forall known (n_recent x) /\ length (n_recent x) = MAX_RECENT;
}.

Definition mark_of (x : node_t) : mark := Mark (n_visited x) (n_distance x) (n_prevedge x) (n_nexthop x).
Definition marks (m : mesh_t) : gmap nid mark := mark_of <$> m_nodes m.

(** What the search leaves alone. *)
Definition shape (x : node_t) := (n_edge_tree x, n_name x, n_reachable x, n_session_id x, n_blacklisted x).
Record same_graph (m m' : mesh_t) : Prop := {
  g_shape : shape <$> m_nodes m' = shape <$> m_nodes m;
  g_edges : m_edges m' = m_edges m;
  g_tree : m_node_tree m' = m_node_tree m;
  g_self : m_self m' = m_self m;
  g_started : m_threadstarted m' = m_threadstarted m;
  g_reachable : m_reachable m' = m_reachable m;
  g_cb : m_status_cb m' = m_status_cb m;
  g_log : m_log m' = m_log m;
}.

Lemma same_graph_refl m : same_graph m m.
Proof. done. Qed.

Lemma same_graph_trans a b c : same_graph a b -> same_graph b c -> same_graph a c.
Proof. intros [] []. split; congruence. Qed.

Lemma same_node m m' n x : same_graph m m' -> m_nodes m !! n = Some x -> exists x', m_nodes m' !! n = Some x' /\ shape x' = shape x.
Proof.
  intros H Hx. assert (E : (shape <$> m_nodes m') !! n = Some (shape x)) by (rewrite (g_shape _ _ H), lookup_fmap, Hx; done).
  rewrite lookup_fmap in E. destruct (m_nodes m' !! n) as [x'|]; [|done]. exists x'. split; [done|]. cbn in E. congruence.
Qed.

Lemma same_graph_sym m m' : same_graph m m' -> same_graph m' m.
Proof. intros []. split; congruence. Qed.

Lemma topo_same m m' : same_graph m m' -> topo_wf m -> topo_wf m'.
Proof.
  intros H [Ts Tn Tt Te Tr]. assert (Hd : forall n, is_Some (m_nodes m' !! n) <-> is_Some (m_nodes m !! n)).
  { intros n. split; intros [x Hx]; [destruct (same_node m' m n x (same_graph_sym _ _ H) Hx) as (x' & -> & _)|destruct (same_node m m' n x H Hx) as (x' & -> & _)]; by eexists. }
  split.
  - rewrite (g_self _ _ H). by apply Hd.
  - by rewrite (g_tree _ _ H).
  - intros n. by rewrite (g_tree _ _ H), Hd.
  - intros n x e Hx He. destruct (same_node m' m n x (same_graph_sym _ _ H) Hx) as (x' & Hx' & Es). unfold shape in Es. assert (E : n_edge_tree x' = n_edge_tree x) by congruence. rewrite <- E in He.
    destruct (Te n x' e Hx' He) as (ed & H1 & H2 & H3 & H4). exists ed. rewrite (g_edges _ _ H). splits; try done. by apply Hd.
  - intros e ed r. rewrite (g_edges _ _ H). apply Tr.
Qed.

(** A change of one node that keeps its shape and its mark. *)
Lemma upd_node_same n f m x :
  m_nodes m !! n = Some x -> shape (f x) = shape x -> mark_of (f x) = mark_of x ->
  upd_node n f m = Done (set_m_nodes (<[n := f x]> (m_nodes m)) m) /\
  same_graph m (set_m_nodes (<[n := f x]> (m_nodes m)) m) /\ marks (set_m_nodes (<[n := f x]> (m_nodes m)) m) = marks m.
Proof.
  intros Hx Hs Hk. unfold upd_node, get_node. rewrite Hx. splits; [done| |].
  - split; try done. cbn [m_nodes set_m_nodes]. rewrite fmap_insert, Hs. apply insert_id. by rewrite lookup_fmap, Hx.
  - unfold marks. cbn [m_nodes set_m_nodes]. rewrite fmap_insert, Hk. apply insert_id. by rewrite lookup_fmap, Hx.
Qed.

(** ** Addresses *)

Lemma sockaddrcmp_known a b : known a -> known b -> exists c, sockaddrcmp a b = Done c.
Proof.
  intros Ha Hb. unfold sockaddrcmp, then_cmp. destruct (Z.eqb_spec (sa_family a - sa_family b) 0) as [E|E]; cbn [negb]; [|by eexists].
  destruct a, b; cbn in E, Ha, Hb; try done; try (by eexists); try (destruct (negb _); by eexists).
  all: unfold AF_UNSPEC, AF_INET, AF_INET6, AF_UNKNOWN in E; exfalso; lia.
Qed.

Lemma find_recent_ok sa l : known sa -> Forall known l -> forall i, exists j b, find_recent l sa i = Done (j, b) /\ (i <= j <= i + length l)%nat.
Proof.
  intros Hs. induction 1 as [|r l Hr _ IH]; intros i; cbn [find_recent length]; [exists i, false; split; [done|lia]|].
  destruct (sa_family r =? 0); [exists i, false; split; [done|lia]|]. destruct (sockaddrcmp_known r sa Hr Hs) as [c ->]. cbn [obind].
  destruct (c =? 0); [exists i, true; split; [done|lia]|]. destruct (IH (S i)) as (j & b & -> & Hj). exists j, b. split; [done|lia].
Qed.

(** What the bookkeeping of addresses keeps. *)
Definition keeps (m m' : mesh_t) : Prop := same_graph m m' /\ marks m' = marks m /\ udp_wf m'.

Lemma keeps_refl m : udp_wf m -> keeps m m.
Proof. done. Qed.

Lemma keeps_trans a b c : keeps a b -> keeps b c -> keeps a c.
Proof. intros (H1 & H2 & _) (H3 & H4 & H5). unfold keeps. splits; [by eapply same_graph_trans|congruence|done]. Qed.

Lemma keeps_node n f m x :
  udp_wf m -> m_nodes m !! n = Some x -> shape (f x) = shape x -> mark_of (f x) = mark_of x ->
  Forall known (n_recent (f x)) -> length (n_recent (f x)) = MAX_RECENT ->
  exists m', upd_node n f m = Done m' /\ keeps m m' /\ m_nodes m' !! n = Some (f x).
Proof.
  intros Hu Hx Hs Hk Hr Hl. destruct (upd_node_same n f m x Hx Hs Hk) as (E & Hg & Hm). eexists. split; [exact E|].
  split; [|cbn [m_nodes set_m_nodes]; by rewrite lookup_insert_eq]. unfold keeps. splits; try done. destruct Hu as [Hc Hkey Hrec]. split; try done.
  cbn [m_nodes set_m_nodes]. intros n' x' Hx'. destruct (decide (n' = n)) as [->|Hne].
  - rewrite lookup_insert_eq in Hx'. injection Hx' as <-. done.
  - rewrite lookup_insert_ne in Hx' by congruence. by eapply Hrec.
Qed.

Lemma node_add_recent_address_ok n sa m x :
  udp_wf m -> m_nodes m !! n = Some x -> known sa -> exists b m', node_add_recent_address n sa m = Done (b, m') /\ keeps m m'.
Proof.
  intros Hu Hx Hs. destruct (u_recent _ Hu n x Hx) as [Hr Hl]. unfold node_add_recent_address, get_node. rewrite Hx. cbn [obind].
  destruct (find_recent_ok sa (n_recent x) Hs Hr 0) as (i & b & -> & Hi). cbn [obind]. destruct (b && _); [by exists false, m|]. unfold MAX_RECENT in *.
  set (j := if (5 <=? i)%nat then _ else _). assert (Hj : (j < 5)%nat) by (unfold j; destruct (Nat.leb_spec 5 i); lia).
  destruct (keeps_node n (fun x => set_n_dirty true (set_n_recent (sa :: take j (n_recent x) ++ drop (S j) (n_recent x)) x)) m x Hu Hx) as (m' & -> & Hm & _); try done.
  - cbn [n_recent set_n_recent set_n_dirty]. apply Forall_cons. split; [done|]. apply Forall_app. split; [by apply Forall_take|by apply Forall_drop].
  - cbn [n_recent set_n_recent set_n_dirty length]. rewrite length_app, length_take, length_drop. unfold MAX_RECENT. lia.
  - by exists (negb b), m'.
Qed.

Lemma udp_cache_ok key v m :
  udp_wf m -> exists c, hash_insert (m_node_udp_cache m) (sa_raw key) v = Done c /\ keeps m (set_m_node_udp_cache c m).
Proof.
  intros Hu. destruct (slot_ok (m_node_udp_cache m) (sa_raw key) (u_cache _ Hu) (u_key _ Hu key)) as [E Hi].
  destruct (put_slot_ok (m_node_udp_cache m) _ (sa_raw key) v (u_cache _ Hu) Hi (u_key _ Hu key)) as (c & E' & Hw & _ & Hs & _).
  exists c. unfold hash_insert. rewrite E. split; [done|]. destruct Hu as [Hc Hk Hr]. unfold keeps. splits; try done. split; cbn [m_node_udp_cache set_m_node_udp_cache m_nodes]; try done. by rewrite Hs.
Qed.

Lemma update_node_udp_ok n sa m x :
  udp_wf m -> m_nodes m !! n = Some x -> (forall a, sa = Some a -> known a) -> exists m', update_node_udp sa_raw n sa m = Done m' /\ keeps m m'.
Proof.
  intros Hu Hx Hs. unfold update_node_udp, get_node. destruct (decide (n = m_self m)); [by exists m|]. rewrite Hx. cbn [obind].
  destruct (udp_cache_ok (n_address x) None m Hu) as (c & -> & K1). cbn [obind]. destruct sa as [sa|]; [|by eexists]. specialize (Hs sa eq_refl).
  destruct (u_recent _ Hu n x Hx) as [Hr Hl]. destruct K1 as (G1 & M1 & U1).
  match goal with |- context [upd_node n ?f ?m1] => destruct (keeps_node n f m1 x U1) as (m2 & -> & (G2 & M2 & U2) & Hx2); try done end. cbn [obind].
  destruct (udp_cache_ok sa (Some n) m2 U2) as (c2 & -> & (G3 & M3 & U3)). cbn [obind].
  destruct (node_add_recent_address_ok n sa (set_m_node_udp_cache c2 m2) _ U3 Hx2 Hs) as (b & m4 & -> & K4). exists m4. split; [done|].
  eapply keeps_trans; [|exact K4]. eapply keeps_trans; [|split; [exact G3|done]]. eapply keeps_trans; [|split; [exact G2|done]]. done.
Qed.

(** ** The search *)

Definition adj_of (m : mesh_t) (n : nid) : list eid := default [] (n_edge_tree <$> m_nodes m !! n).
Definition edge_of (m : mesh_t) (e : eid) : edge_t := default (EdgeT 1%positive 1%positive SaUnspec None 0 0) (m_edges m !! e).
Definition from_of (m : mesh_t) (e : eid) : nid := e_from (edge_of m e).
Definition to_of (m : mesh_t) (e : eid) : nid := e_to (edge_of m e).
Definition weight_of (m : mesh_t) (e : eid) : Z := e_weight (edge_of m e).
Definition valid_of (m : mesh_t) (e : eid) : bool := match e_reverse (edge_of m e) with Some _ => true | None => false end.

Lemma mk_marks m n x : m_nodes m !! n = Some x -> mk (marks m) n = mark_of x.
Proof. intros H. unfold mk, marks. by rewrite lookup_fmap, H. Qed.

Lemma vis_node m n : vis (marks m) n -> is_Some (m_nodes m !! n).
Proof. unfold vis, mk, marks. rewrite lookup_fmap. destruct (m_nodes m !! n); [by eexists|done]. Qed.

Lemma adj_edge m n e : topo_wf m -> e ∈ adj_of m n ->
  exists ed, m_edges m !! e = Some ed /\ e_from ed = n /\ is_Some (m_nodes m !! e_to ed) /\ known (e_address ed).
Proof.
  intros H He. unfold adj_of in He. destruct (m_nodes m !! n) as [x|] eqn:Hx; cbn in He; [|by apply not_elem_of_nil in He]. by eapply t_edge.
Qed.

Section Search.
Context (m0 : mesh_t) (T0 : topo_wf m0).

Notation self := (m_self m0).
Notation adj := (adj_of m0).
Notation frm := (from_of m0).
Notation tgt := (to_of m0).
Notation wt := (weight_of m0).
Notation valid := (valid_of m0).

(** The search has got to [m]. *)
Definition running (m : mesh_t) : Prop := same_graph m0 m /\ udp_wf m.

Lemma running_node m n : running m -> is_Some (m_nodes m0 !! n) -> exists x, m_nodes m !! n = Some x /\ n_edge_tree x = adj n.
Proof.
  intros [Hg _] [x Hx]. destruct (same_node m0 m n x Hg Hx) as (x' & Hx' & Es). exists x'. split; [done|]. unfold adj_of. rewrite Hx. unfold shape in Es. cbn. congruence.
Qed.

(** Changing what the search may change of one node. *)
Lemma running_upd m n x x' :
  running m -> m_nodes m !! n = Some x -> shape x' = shape x -> n_recent x' = n_recent x -> running (set_m_nodes (<[n := x']> (m_nodes m)) m).
Proof.
  intros [Hg [Hc Hk Hr]] Hx Hs He. split.
  - eapply same_graph_trans; [exact Hg|]. split; try done. cbn [m_nodes set_m_nodes]. rewrite fmap_insert, Hs. apply insert_id. by rewrite lookup_fmap, Hx.
  - split; try done. cbn [m_nodes set_m_nodes]. intros n' y Hy. destruct (decide (n' = n)) as [->|Hne].
    + rewrite lookup_insert_eq in Hy. injection Hy as <-. rewrite He. by eapply Hr.
    + rewrite lookup_insert_ne in Hy by congruence. by eapply Hr.
Qed.

(** Marking the node at the end of an edge. *)
Lemma visit_node m n e x f :
  running m -> m_nodes m !! n = Some x -> is_Some (m_nodes m !! tgt e) ->
  (forall y, shape (f y) = shape y /\ n_recent (f y) = n_recent y /\
    mark_of (f y) = Mark true (n_distance x + 1) (Some e) (if decide (n_nexthop x = Some self) then Some (tgt e) else n_nexthop x)) ->
  exists m', upd_node (tgt e) f m = Done m' /\ running m' /\ marks m' = visit self tgt (marks m) n e /\ is_Some (m_nodes m' !! tgt e).
Proof.
  intros R Hx [y Hy] Hf. destruct (Hf y) as (Fs & Fr & Fm). unfold upd_node, get_node. rewrite Hy. eexists. split; [done|]. splits.
  - by eapply running_upd.
  - unfold marks at 1. cbn [m_nodes set_m_nodes]. rewrite fmap_insert, Fm. unfold visit. rewrite (mk_marks m n x Hx). done.
  - cbn [m_nodes set_m_nodes]. rewrite lookup_insert_eq. by eexists.
Qed.

Lemma bfs_edge_ok m Q n e :
  running m -> e ∈ adj n -> is_Some (m_nodes m0 !! n) -> safe_edge adj frm tgt (marks m) n e ->
  exists m' Q', bfs_edge sa_raw n e (m, Q) = Done (m', Q') /\ examine self tgt wt valid n e (marks m, Q) = (marks m', Q') /\ running m'.
Proof.
  intros R He Hn Hsafe. pose proof R as [Hg Hu]. destruct (adj_edge m0 n e T0 He) as (ed & Hed & _ & Ht & Hkn).
  destruct (running_node m n R Hn) as (x & Hx & _). destruct (running_node m (e_to ed) R Ht) as (y & Hy & _).
  assert (Eo : edge_of m0 e = ed) by (unfold edge_of; by rewrite Hed). assert (Et : tgt e = e_to ed) by (unfold to_of; by rewrite Eo).
  unfold bfs_edge, get_edge, get_node. rewrite (g_edges _ _ Hg), Hed. cbn [obind]. unfold examine, valid_of. rewrite Eo.
  destruct (e_reverse ed) as [r|]; [|by exists m, Q]. rewrite Hx, Hy. cbn [obind negb orb].
  assert (Hskip : (if n_visited y then if negb (n_distance y =? n_distance x + 1) then Done true else let* p := deref_edge m (n_prevedge y) in Done (e_weight p <=? e_weight ed) else Done false)
    = Done (skips tgt wt (marks m) n e)).
  { unfold skips. rewrite Et, (mk_marks m n x Hx), (mk_marks m _ y Hy). cbn [k_visited k_dist k_prev mark_of]. destruct (n_visited y) eqn:Vy; [|done]. cbn [andb].
    destruct (Z.eqb_spec (n_distance y) (n_distance x + 1)) as [Ed|Ed]; [|done]. cbn [negb orb].
    destruct Hsafe as (p & Hp & Ha); [unfold vis; by rewrite Et, (mk_marks m _ y Hy)|unfold dist; by rewrite Et, (mk_marks m n x Hx), (mk_marks m _ y Hy)|].
    rewrite Et, (mk_marks m _ y Hy) in Hp. cbn [k_prev mark_of] in Hp. rewrite Hp. destruct (adj_edge m0 _ p T0 Ha) as (pd & Hpd & _).
    unfold deref_edge, get_edge. rewrite (g_edges _ _ Hg), Hpd. cbn [obind]. unfold weight_of, edge_of. by rewrite Hpd, Hed. }
  rewrite Hskip. cbn [obind]. destruct (skips tgt wt (marks m) n e); [by exists m, Q|].
  rewrite <- Et, (g_self _ _ Hg).
  match goal with |- context [upd_node (tgt e) ?f m] => destruct (visit_node m n e x f R Hx) as (m1 & -> & R1 & M1 & [y1 Hy1]) end; [rewrite Et; by eexists|done|]. cbn [obind].
  destruct (negb (n_reachable y) || _).
  - destruct R1 as [G1 U1]. destruct (update_node_udp_ok (tgt e) (Some (e_address ed)) m1 y1 U1 Hy1) as (m2 & -> & G2 & M2 & U2); [by intros a [= <-]|].
    exists m2, (Q ++ [tgt e]). splits; [done|by rewrite M2, M1|]. split; [by eapply same_graph_trans|done].
  - exists m1, (Q ++ [tgt e]). splits; [done|by rewrite M1|done].
Qed.

Lemma scan_sim n es : forall m Q,
  running m -> is_Some (m_nodes m0 !! n) -> (forall e, e ∈ es -> e ∈ adj n) -> safe_scan self adj frm tgt wt valid n es (marks m, Q) ->
  exists m' Q', each (bfs_edge sa_raw n) es (m, Q) = Done (m', Q') /\ scan self tgt wt valid n es (marks m, Q) = (marks m', Q') /\ running m'.
Proof.
  induction es as [|e es IH]; intros m Q R Hn Hes Hs; [by exists m, Q|]. cbn [safe_scan fst] in Hs. destruct Hs as [Hs1 Hs2].
  destruct (bfs_edge_ok m Q n e R (Hes e ltac:(by left)) Hn Hs1) as (m1 & Q1 & E & Ex & R1). cbn [each scan]. rewrite E, Ex in *. cbn [obind].
  apply IH; try done. intros e' He'. apply Hes. by right.
Qed.

Lemma search_sim fuel : forall m Q,
  running m -> safe_search self adj frm tgt wt valid fuel (marks m) Q ->
  exists m', bfs_loop sa_raw fuel m Q = Done m' /\ search self adj tgt wt valid fuel (marks m) Q = Some (marks m') /\ running m'.
Proof.
  induction fuel as [|fuel IH]; intros m [|n Q] R Hs; try (by exists m); cbn [safe_search] in Hs; destruct Hs as (Hv & Hd & Hsc & Hs); [done|].
  assert (Hn : is_Some (m_nodes m0 !! n)).
  { destruct (vis_node m n Hv) as [x Hx]. destruct (same_node m m0 n x (same_graph_sym _ _ (proj1 R)) Hx) as (x' & -> & _). by eexists. }
  destruct (running_node m n R Hn) as (x & Hx & Ea). cbn [bfs_loop search]. unfold get_node. rewrite Hx. cbn [obind].
  unfold dist in Hd. rewrite (mk_marks m n x Hx) in Hd. cbn [k_dist mark_of] in Hd. destruct (Z.ltb_spec (n_distance x) 0); [lia|]. rewrite Ea.
  destruct (scan_sim n (adj n) m Q R Hn (fun e He => He) Hsc) as (m1 & Q1 & -> & Es & R1). rewrite Es in *. cbn [obind]. by apply IH.
Qed.

(** Clearing the nodes on a list. *)
Lemma clear_nodes l : forall m,
  running m -> (forall n, n ∈ l -> is_Some (m_nodes m0 !! n)) ->
  exists m', each (fun n => upd_node n (fun x => set_n_distance (-1) (set_n_visited false x))) l m = Done m' /\ running m' /\
    forall n, n ∈ l \/ k_visited (mk (marks m) n) = false -> k_visited (mk (marks m') n) = false.
Proof.
  induction l as [|v l IH]; intros m R Hl; [exists m; splits; try done; intros n [Hn|Hn]; [by apply not_elem_of_nil in Hn|done]|].
  destruct (running_node m v R (Hl v ltac:(by left))) as (x & Hx & _). cbn [each]. unfold upd_node at 1, get_node. rewrite Hx. cbn [obind].
  set (x1 := set_n_distance (-1) _). set (m1 := set_m_nodes _ m). assert (R1 : running m1) by (by eapply running_upd).
  destruct (IH m1 R1) as (m' & E & R' & H'); [intros n Hn; apply Hl; by right|]. exists m'. splits; try done. intros n Hn. apply H'.
  destruct (decide (n = v)) as [->|Hne]; [right; unfold mk, marks, m1; cbn [m_nodes set_m_nodes]; by rewrite lookup_fmap, lookup_insert_eq|].
  destruct Hn as [Hn|Hn]; [apply elem_of_cons in Hn as [|Hn]; [done|by left]|right]. revert Hn.
  unfold mk, marks, m1. cbn [m_nodes set_m_nodes]. by rewrite !lookup_fmap, lookup_insert_ne by congruence.
Qed.

Lemma fuel_of m : running m -> bfs_fuel m = S (edges_left adj ∅ (m_node_tree m0)).
Proof.
  intros [Hg _]. unfold bfs_fuel, edges_left. rewrite (g_tree _ _ Hg). f_equal. induction (m_node_tree m0) as [|v l IH]; [done|]. cbn [sum_list_with]. rewrite IH. f_equal.
  rewrite decide_False by set_solver. unfold adj_of. pose proof (f_equal (.!! v) (g_shape _ _ Hg)) as E. cbn in E. rewrite !lookup_fmap in E.
  destruct (m_nodes m !! v), (m_nodes m0 !! v); try done. cbn in *. unfold shape in E. congruence.
Qed.

(** The whole search. *)
Lemma sssp_ok :
  udp_wf m0 -> m_threadstarted m0 = true ->
  exists m', sssp_bfs sa_raw m0 = Done m' /\ running m' /\ shortest self adj frm tgt wt valid (marks m').
Proof.
  intros Hu Hth. destruct (clear_nodes (m_node_tree m0) m0) as (m1 & E1 & R1 & H1); [split; [apply same_graph_refl|done]|intros n; apply (t_tree _ T0)|].
  unfold sssp_bfs. rewrite E1. cbn [obind]. destruct (running_node m1 self R1 (t_self _ T0)) as (x & Hx & _).
  rewrite (g_self _ _ (proj1 R1)). unfold upd_node, get_node. rewrite Hx. cbn [obind]. rewrite (g_started _ _ (proj1 R1)), Hth.
  set (x2 := set_n_distance 0 _). set (m2 := set_m_nodes _ m1). assert (R2 : running m2) by (by eapply running_upd).
  destruct (search_shortest self adj frm tgt wt valid) with (univ := m_node_tree m0) (M := marks m2) (fuel := bfs_fuel m2) as (M' & Es & Hsh & Hsafe).
  - intros n e He. destruct (adj_edge m0 n e T0 He) as (ed & Hed & Hf & _). unfold from_of, edge_of. by rewrite Hed.
  - apply (t_tree _ T0), (t_self _ T0).
  - intros n e He. destruct (adj_edge m0 n e T0 He) as (ed & Hed & _ & Ht & _). apply (t_tree _ T0). unfold to_of, edge_of. by rewrite Hed.
  - unfold mk, marks, m2. cbn [m_nodes set_m_nodes]. by rewrite lookup_fmap, lookup_insert_eq.
  - intros v Hv. unfold mk, marks, m2. cbn [m_nodes set_m_nodes]. rewrite lookup_fmap, lookup_insert_ne by congruence. rewrite <- lookup_fmap. apply H1.
    destruct (m_nodes m0 !! v) as [y|] eqn:Hy; [left; apply (t_tree _ T0); by eexists|right]. unfold mk, marks. by rewrite lookup_fmap, Hy.
  - rewrite (fuel_of m2 R2). lia.
  - destruct (search_sim (bfs_fuel m2) m2 [self] R2 Hsafe) as (m' & E' & Es' & R'). rewrite Es in Es'. injection Es' as Em. subst M'. exists m'. splits; try done. by rewrite (g_self _ _ (proj1 R2)).
Qed.
End Search.
End Sim.
