(* ===== verification/GraphReach.v ===== *)
(** The second half of src/src/graph.c: from the marks of the search to the status of
    every node, the session it is in and the calls to the application. *)
From stdpp Require Import gmap.
From S2P Require Import Prelude Bytes HashTable Graph GraphBfs GraphSim.

(** The calls of the application's status callbacks in a log. *)
Definition statuses (evs : list event) : list (nid * bool) := omap (fun ev => match ev with EvStatus n r => Some (n, r) | _ => None end) evs.

Lemma statuses_app a b : statuses (a ++ b) = statuses a ++ statuses b.
Proof. apply omap_app. Qed.

(** The session that the other side of an edge announces. *)
Definition session_via (m : mesh_t) (p : eid) : Z :=
  match e_reverse (edge_of m p) with Some r => e_session_id (edge_of m r) | None => 0 end.

Section Reach.
Context (sa_raw : sockaddr_t -> list Z).
Notation udp_wf := (udp_wf sa_raw).

(** From [m] to [m'] only node [n] was changed, to [x'], with the calls [evs]. *)
Record stepped (n : nid) (m m' : mesh_t) (x' : node_t) (evs : list event) : Prop := {
  st_nodes : m_nodes m' = <[n := x']> (m_nodes m);
  st_edges : m_edges m' = m_edges m;
  st_tree : m_node_tree m' = m_node_tree m;
  st_self : m_self m' = m_self m;
  st_started : m_threadstarted m' = m_threadstarted m;
  st_reachable : m_reachable m' = m_reachable m;
  st_cb : m_status_cb m' = m_status_cb m;
  st_log : m_log m' = m_log m ++ evs;
  st_wf : udp_wf m';
}.

Lemma st_node n m m' x' evs : stepped n m m' x' evs -> m_nodes m' !! n = Some x'.
Proof. intros []. rewrite st_nodes0. apply lookup_insert_eq. Qed.

Lemma st_refl n m x : udp_wf m -> m_nodes m !! n = Some x -> stepped n m m x [].
Proof. intros Hu Hx. split; try done; [by rewrite insert_id|by rewrite app_nil_r]. Qed.

Lemma st_trans n a b c x y e1 e2 : stepped n a b x e1 -> stepped n b c y e2 -> stepped n a c y (e1 ++ e2).
Proof. intros [] []. split; try congruence; [by rewrite st_nodes1, st_nodes0, insert_insert_eq|by rewrite st_log1, st_log0, app_assoc]. Qed.

Lemma st_upd n f m x :
  udp_wf m -> m_nodes m !! n = Some x -> n_recent (f x) = n_recent x -> exists m', upd_node n f m = Done m' /\ stepped n m m' (f x) [].
Proof.
  intros [Hc Hk Hr] Hx Hf. unfold upd_node, get_node. rewrite Hx. eexists. split; [done|]. split; try done; [cbn; by rewrite app_nil_r|]. split; try done.
  cbn [m_nodes set_m_nodes]. intros n' y Hy. destruct (decide (n' = n)) as [->|Hne].
  - rewrite lookup_insert_eq in Hy. injection Hy as <-. rewrite Hf. by eapply Hr.
  - rewrite lookup_insert_ne in Hy by congruence. by eapply Hr.
Qed.

Lemma st_emit n ev m x : udp_wf m -> m_nodes m !! n = Some x -> stepped n m (emit ev m) x [ev].
Proof. intros [Hc Hk Hr] Hx. split; try done. cbn. by rewrite insert_id. Qed.

Lemma st_forget n m x : udp_wf m -> m_nodes m !! n = Some x -> exists m', update_node_udp sa_raw n None m = Done m' /\ stepped n m m' x [].
Proof.
  intros Hu Hx. unfold update_node_udp, get_node. destruct (decide (n = m_self m)); [exists m; split; [done|by apply st_refl]|]. rewrite Hx. cbn [obind].
  destruct (udp_cache_ok sa_raw (n_address x) None m Hu) as (c & -> & _ & _ & Hw). eexists. split; [done|]. split; try done; [cbn; by rewrite insert_id|cbn; by rewrite app_nil_r].
Qed.

(** One more step of the same node. *)
Ltac step_upd S :=
  match goal with |- context [upd_node ?n ?f ?m] =>
    let m1 := fresh "m" in let E := fresh "E" in let S1 := fresh "S" in
    destruct (st_upd n f m _ (st_wf _ _ _ _ _ S) (st_node _ _ _ _ _ S) eq_refl) as (m1 & E & S1); rewrite E; clear E; cbn [obind];
    apply (st_trans _ _ _ _ _ _ _ _ S) in S1; clear S; rename S1 into S end.

Ltac step_emit S :=
  match type of S with stepped _ _ ?m _ _ => match goal with |- context [emit ?ev m] =>
    pose proof (st_emit _ ev m _ (st_wf _ _ _ _ _ S) (st_node _ _ _ _ _ S)) as S1;
    apply (st_trans _ _ _ _ _ _ _ _ S) in S1; clear S; rename S1 into S; let m1 := fresh "m" in set (m1 := emit ev m) in * end end.

(** What the checks leave of a node. *)
Definition kept (x : node_t) := (mark_of x, n_edge_tree x, n_blacklisted x).

Lemma new_session_ok n session m x :
  udp_wf m -> m_nodes m !! n = Some x ->
  exists m' x' evs, new_session n session m = Done m' /\ stepped n m m' x' evs /\ kept x' = kept x /\ n_reachable x' = n_reachable x /\
    n_session_id x' = session /\ n_validkey x' = false /\ n_udp_confirmed x' = false /\ EvSptpsStop n ∈ evs /\ statuses evs = [].
Proof.
  intros Hu Hx. pose proof (st_refl n m x Hu Hx) as S. unfold new_session, get_node. rewrite Hx. cbn [obind]. step_upd S. destruct (n_utcp x).
  - step_emit S. step_upd S. step_emit S. step_upd S. step_emit S. do 3 eexists. splits; [done|exact S|..]; try done. cbn. set_solver.
  - step_upd S. step_emit S. step_upd S. step_emit S. do 3 eexists. splits; [done|exact S|..]; try done. cbn. set_solver.
Qed.

Lemma check_session_ok n m x :
  udp_wf m -> m_nodes m !! n = Some x ->
  (n_visited x = true -> forall p, n_prevedge x = Some p -> exists ed r rd, m_edges m !! p = Some ed /\ e_reverse ed = Some r /\ m_edges m !! r = Some rd) ->
  exists m' x' evs, check_session n m = Done m' /\ stepped n m m' x' evs /\ kept x' = kept x /\ n_reachable x' = n_reachable x /\ statuses evs = [] /\
    (n_visited x = true -> forall p, n_prevedge x = Some p -> n_session_id x' = session_via m p).
Proof.
  intros Hu Hx He. unfold check_session, get_node. rewrite Hx. cbn [obind]. pose proof (st_refl n m x Hu Hx) as S.
  destruct (n_prevedge x) as [p|] eqn:Hp; [|exists m, x, []; splits; done]. destruct (n_visited x); [|exists m, x, []; splits; done].
  destruct (He eq_refl p eq_refl) as (ed & r & rd & Hed & Hr & Hrd). unfold get_edge, deref_edge. rewrite Hed. cbn [obind]. rewrite Hr. unfold get_edge. rewrite Hrd. cbn [obind].
  assert (Hv : session_via m p = e_session_id rd) by (unfold session_via, edge_of; rewrite Hed; cbn; by rewrite Hr, Hrd).
  destruct (Z.eqb_spec (e_session_id rd) (n_session_id x)) as [Es|Es]; cbn [negb].
  - exists m, x, []. splits; try done. intros _ p' [= <-]. congruence.
  - destruct (new_session_ok n (e_session_id rd) m x Hu Hx) as (m' & x' & evs & -> & S' & K & R & I & _ & _ & _ & St). exists m', x', evs. splits; try done. intros _ p' [= <-]. congruence.
Qed.

(** The status bits that the steps below leave alone. *)
Definition status (x : node_t) := (kept x, n_reachable x, n_session_id x).

Lemma note_time_ok time n m x :
  udp_wf m -> m_nodes m !! n = Some x ->
  exists m' x' evs, note_time time n m = Done m' /\ stepped n m m' x' evs /\ status x' = status x /\ statuses evs = [].
Proof.
  intros Hu Hx. pose proof (st_refl n m x Hu Hx) as S. unfold note_time, get_node. rewrite Hx. cbn [obind].
  destruct (n_blacklisted x); [by exists m, x, []|]. destruct (n_reachable x); [|step_upd S; do 3 eexists; splits; [done|exact S|done|done]].
  step_upd S. destruct (n_last_reachable x =? 0); [step_emit S|]; do 3 eexists; splits; [done|exact S|done|done|done|exact S|done|done].
Qed.

Lemma update_node_status_ok n m x :
  udp_wf m -> m_nodes m !! n = Some x ->
  exists m' x' evs, update_node_status n m = Done m' /\ stepped n m m' x' evs /\ status x' = status x /\
    statuses evs = (if m_status_cb m then [(n, n_reachable x && negb (n_blacklisted x))] else []).
Proof.
  intros Hu Hx. pose proof (st_refl n m x Hu Hx) as S. unfold update_node_status, get_node. rewrite Hx. cbn [obind].
  destruct (n_reachable x && m_accept_cb m && negb (n_utcp x)); [step_upd S; step_emit S|cbn [obind]];
    try rewrite <- (st_cb _ _ _ _ _ S);
    (match goal with |- context [m_status_cb ?m] => destruct (m_status_cb m) end; [step_emit S|]);
    (match goal with |- context [m_pmtu_cb ?m] => destruct (m_pmtu_cb m) end; [step_emit S|]);
    do 3 eexists; (splits; [done|exact S|done|done]).
Qed.

Lemma status_changed_ok time n m x :
  udp_wf m -> m_nodes m !! n = Some x ->
  exists m' x' evs, status_changed sa_raw time n m = Done m' /\ stepped n m m' x' evs /\ kept x' = kept x /\
    n_reachable x' = negb (n_reachable x) /\ n_session_id x' = n_session_id x /\
    statuses evs = (if m_status_cb m && negb (n_blacklisted x) then [(n, negb (n_reachable x))] else []).
Proof.
  intros Hu Hx. pose proof (st_refl n m x Hu Hx) as S. unfold status_changed. step_upd S. set (x1 := set_n_dirty _ _) in S.
  destruct (note_time_ok time n _ _ (st_wf _ _ _ _ _ S) (st_node _ _ _ _ _ S)) as (m2 & x2 & e2 & -> & S2 & K2 & V2). cbn [obind]. apply (st_trans _ _ _ _ _ _ _ _ S) in S2. clear S. rename S2 into S.
  step_upd S. step_emit S. set (x3 := set_n_mtuprobes _ _) in S. unfold get_node at 1. rewrite (st_node _ _ _ _ _ S). cbn [obind].
  assert (K3 : status x3 = (kept x, negb (n_reachable x), n_session_id x)) by exact K2. clear K2.
  assert (H4 : exists m4 x4 e4, (if negb (n_blacklisted x3) then update_node_status n m3 else Done m3) = Done m4 /\ stepped n m m4 x4 e4 /\ status x4 = status x3 /\
    statuses e4 = (if m_status_cb m && negb (n_blacklisted x) then [(n, negb (n_reachable x))] else [])).
  { assert (Eb : n_blacklisted x3 = n_blacklisted x) by (unfold status, kept in K3; congruence).
    assert (Er : n_reachable x3 = negb (n_reachable x)) by (unfold status, kept in K3; congruence).
    destruct (n_blacklisted x3) eqn:Hb; rewrite <- Eb; cbn [negb].
    - do 3 eexists. splits; [done|exact S|done|]. rewrite !statuses_app, V2, andb_false_r. done.
    - destruct (update_node_status_ok n m3 x3 (st_wf _ _ _ _ _ S) (st_node _ _ _ _ _ S)) as (m4 & x4 & e4 & -> & S4 & K4 & V4). apply (st_trans _ _ _ _ _ _ _ _ S) in S4.
      do 3 eexists. splits; [done|exact S4|done|]. rewrite !statuses_app, V2, V4, Hb, Er, (st_cb _ _ _ _ _ S). cbn. by rewrite !andb_true_r. }
  destruct H4 as (m4 & x4 & e4 & -> & S4 & K4 & V4). cbn [obind]. clear S. rename S4 into S. rewrite K3 in K4.
  assert (H5 : exists m5 x5, (if negb (n_reachable x3) then let* m := update_node_udp sa_raw n None m4 in upd_node n (set_n_broadcast false) m else Done m4) = Done m5 /\
    stepped n m m5 x5 e4 /\ status x5 = status x4).
  { destruct (negb (n_reachable x3)); [|by exists m4, x4]. destruct (st_forget n m4 x4 (st_wf _ _ _ _ _ S) (st_node _ _ _ _ _ S)) as (m5 & -> & S5). cbn [obind].
    apply (st_trans _ _ _ _ _ _ _ _ S) in S5. clear S. rename S5 into S. step_upd S. rewrite !app_nil_r in S. do 2 eexists. splits; [done|exact S|done]. }
  destruct H5 as (m5 & x5 & -> & S5 & K5). cbn [obind]. clear S. rename S5 into S. unfold get_node. rewrite (st_node _ _ _ _ _ S). cbn [obind]. rewrite K4 in K5.
  assert (K : kept x5 = kept x /\ n_reachable x5 = negb (n_reachable x) /\ n_session_id x5 = n_session_id x).
  { unfold status in K5. splits; congruence. }
  destruct K as (Ka & Kb & Kc). destruct (n_utcp x5); [step_emit S|]; do 3 eexists; splits; try exact S; try done. rewrite statuses_app, V4. cbn. apply app_nil_r.
Qed.

(** The edge by which a visited node was reached has another side. *)
Definition prev_ok (m : mesh_t) (x : node_t) : Prop :=
  n_visited x = true -> forall p, n_prevedge x = Some p ->
  exists ed r rd, m_edges m !! p = Some ed /\ e_reverse ed = Some r /\ m_edges m !! r = Some rd.

(** What the application is told about a node, if it has a callback for it. *)
Definition told (cb : bool) (n : nid) (x : node_t) : list (nid * bool) :=
  if cb && negb (n_blacklisted x) && xorb (n_visited x) (n_reachable x) then [(n, n_visited x)] else [].

(** A node after the check. *)
Definition checked (m : mesh_t) (x x' : node_t) : Prop :=
  kept x' = kept x /\ n_reachable x' = n_visited x /\
  (n_visited x = true -> forall p, n_prevedge x = Some p -> n_session_id x' = session_via m p).

Lemma check_node_ok time n m r x :
  udp_wf m -> m_nodes m !! n = Some x -> prev_ok m x ->
  exists m' x' evs, check_node sa_raw time n (m, r) = Done (m', r + Z.b2z (n_visited x)) /\ stepped n m m' x' evs /\ checked m x x' /\ statuses evs = told (m_status_cb m) n x.
Proof.
  intros Hu Hx Hp. unfold check_node, get_node. rewrite Hx. cbn [obind]. destruct (check_session_ok n m x Hu Hx Hp) as (m1 & x1 & e1 & -> & S1 & K1 & R1 & V1 & I1).
  cbn [obind]. rewrite (st_node _ _ _ _ _ S1). cbn [obind].
  assert (Ev : n_visited x1 = n_visited x) by (unfold kept, mark_of in K1; congruence). assert (Eb : n_blacklisted x1 = n_blacklisted x) by (unfold kept in K1; congruence).
  assert (Er : (if n_visited x then r + 1 else r) = r + Z.b2z (n_visited x)) by (destruct (n_visited x); cbn; lia). rewrite Er, Ev, R1.
  assert (Hchg : negb (Bool.eqb (n_visited x) (n_reachable x)) = xorb (n_visited x) (n_reachable x)) by (by destruct (n_visited x), (n_reachable x)). rewrite Hchg. unfold told.
  destruct (xorb (n_visited x) (n_reachable x)) eqn:Ex.
  - assert (Hneg : n_visited x = negb (n_reachable x)) by (by destruct (n_visited x), (n_reachable x)).
    destruct (status_changed_ok time n m1 x1 (st_wf _ _ _ _ _ S1) (st_node _ _ _ _ _ S1)) as (m2 & x2 & e2 & -> & S2 & K2 & R2 & I2 & V2). cbn [obind].
    apply (st_trans _ _ _ _ _ _ _ _ S1) in S2. do 3 eexists. splits; [done|exact S2| |].
    + split; [congruence|]. split; [congruence|]. intros Hv p Hpe. rewrite I2. by apply I1.
    + rewrite statuses_app, V1, V2, Eb, R1, Hneg, (st_cb _ _ _ _ _ S1). by rewrite andb_true_r.
  - assert (Hneg : n_visited x = n_reachable x) by (by destruct (n_visited x), (n_reachable x)). do 3 eexists. splits; [done|exact S1| |].
    + split; [done|]. split; [congruence|done].
    + by rewrite V1, andb_false_r.
Qed.

Definition visited_in (m : mesh_t) (n : nid) : bool := match m_nodes m !! n with Some x => n_visited x | None => false end.
Definition told_in (m : mesh_t) (n : nid) : list (nid * bool) := match m_nodes m !! n with Some x => told (m_status_cb m) n x | None => [] end.

Lemma check_nodes_ok time l : forall m r,
  NoDup l -> udp_wf m -> (forall n, n ∈ l -> exists x, m_nodes m !! n = Some x /\ prev_ok m x) ->
  exists m' evs, each (check_node sa_raw time) l (m, r) = Done (m', r + zlen (List.filter (visited_in m) l)) /\ udp_wf m' /\
    m_edges m' = m_edges m /\ m_node_tree m' = m_node_tree m /\ m_self m' = m_self m /\ m_threadstarted m' = m_threadstarted m /\ m_reachable m' = m_reachable m /\ m_status_cb m' = m_status_cb m /\
    m_log m' = m_log m ++ evs /\ statuses evs = mjoin (told_in m <$> l) /\
    (forall n, n ∉ l -> m_nodes m' !! n = m_nodes m !! n) /\
    (forall n x, n ∈ l -> m_nodes m !! n = Some x -> exists x', m_nodes m' !! n = Some x' /\ checked m x x').
Proof.
  induction l as [|v l IH]; intros m r Hnd Hu Hl.
  - exists m, []. rewrite app_nil_r. splits; try done; [by cbn; rewrite Z.add_0_r|]. intros n x Hn. by apply not_elem_of_nil in Hn.
  - apply NoDup_cons in Hnd as [Hv Hnd]. destruct (Hl v ltac:(by left)) as (x & Hx & Hp). cbn [each].
    destruct (check_node_ok time v m r x Hu Hx Hp) as (m1 & x1 & e1 & -> & S1 & C1 & V1). cbn [obind].
    assert (Hsame : forall n, n ∈ l -> m_nodes m1 !! n = m_nodes m !! n) by (intros n Hn; rewrite (st_nodes _ _ _ _ _ S1), lookup_insert_ne; [done|by intros ->]).
    destruct (IH m1 (r + Z.b2z (n_visited x)) Hnd (st_wf _ _ _ _ _ S1)) as (m2 & e2 & -> & U2 & E2 & T2 & F2 & H2 & R2 & B2 & L2 & V2 & O2 & C2).
    { intros n Hn. rewrite (Hsame n Hn). destruct (Hl n ltac:(by right)) as (y & Hy & Hpy). exists y. split; [done|]. unfold prev_ok. by rewrite (st_edges _ _ _ _ _ S1). }
    exists m2, (e1 ++ e2). assert (Hf : List.filter (visited_in m1) l = List.filter (visited_in m) l).
    { apply List.filter_ext_in. intros n Hn. apply list_elem_of_In in Hn. unfold visited_in. by rewrite (Hsame n Hn). }
    assert (Ht : told_in m1 <$> l = told_in m <$> l).
    { apply list_fmap_ext. intros i n Hn. apply list_elem_of_lookup_2 in Hn. unfold told_in. by rewrite (Hsame n Hn), (st_cb _ _ _ _ _ S1). }
    rewrite Hf. splits; try (destruct S1; congruence).
    + f_equal. f_equal. cbn [List.filter]. unfold visited_in at 2. rewrite Hx. destruct (n_visited x); unfold zlen; cbn [length Z.b2z]; lia.
    + by rewrite L2, (st_log _ _ _ _ _ S1), app_assoc.
    + rewrite statuses_app, V1, V2, Ht. cbn [fmap list_fmap mjoin list_join]. unfold told_in at 2. by rewrite Hx.
    + intros n Hn. apply not_elem_of_cons in Hn as [Hne Hn]. rewrite (O2 n Hn), (st_nodes _ _ _ _ _ S1), lookup_insert_ne; [done|congruence].
    + intros n y Hn Hy. apply elem_of_cons in Hn as [->|Hn].
      * rewrite (O2 v Hv). exists x1. split; [by apply (st_node _ _ _ _ _ S1)|]. by replace y with x by congruence.
      * rewrite <- (Hsame n Hn) in Hy. destruct (C2 n y Hn Hy) as (y' & Hy' & K & R & Se). exists y'. splits; try done. split; [done|]. split; [done|]. intros Hvy p Hpy. rewrite (Se Hvy p Hpy).
        unfold session_via, edge_of. by rewrite (st_edges _ _ _ _ _ S1).
Qed.
End Reach.
