(* ===== verification/GraphTheorems.v ===== *)
(** What the graph algorithms of src/src/graph.c compute. *)
From stdpp Require Import gmap.
From S2P Require Import Prelude Bytes HashTable Graph GraphBfs GraphSim GraphReach.

(** There is a way from ourselves to node [n] of [k] hops, along edges that both sides announced. *)
Definition route (m : mesh_t) (n : nid) (k : Z) : Prop := path (m_self m) (adj_of m) (to_of m) (valid_of m) n k.

Definition reachable_in (m : mesh_t) (n : nid) : bool := match m_nodes m !! n with Some x => n_reachable x | None => false end.

(** What the application must be told about a node when [m] has become [m'], if it
    has set a callback. *)
Definition report (m m' : mesh_t) (n : nid) : list (nid * bool) :=
  match m_nodes m !! n with
  | Some x => if m_status_cb m && negb (n_blacklisted x) && xorb (reachable_in m' n) (n_reachable x) then [(n, reachable_in m' n)] else []
  | None => []
  end.

Section Graph.
Context (sa_raw : sockaddr_t -> list Z).

(** A visited node was reached by an edge with another side. *)
Lemma shortest_prev_ok m0 m :
  topo_wf m0 -> same_graph m0 m -> shortest (m_self m0) (adj_of m0) (from_of m0) (to_of m0) (weight_of m0) (valid_of m0) (marks m) ->
  forall n x, m_nodes m !! n = Some x -> prev_ok m x /\ (n_visited x = true -> n <> m_self m0 -> is_Some (n_prevedge x)).
Proof.
  intros T Hg Hs n x Hx. assert (Hm : mk (marks m) n = mark_of x) by (by apply mk_marks). destruct (decide (n = m_self m0)) as [->|Hne].
  - rewrite (s_self _ _ _ _ _ _ _ Hs) in Hm. unfold mark_of in Hm. split; [|done]. intros _ p Hp. congruence.
  - destruct (n_visited x) eqn:Hv; [|split; [intros H; congruence|done]].
    destruct (s_prev _ _ _ _ _ _ _ Hs n) as (e & He & Hval & Ha & _); [unfold vis; by rewrite Hm|done|]. rewrite Hm in He. cbn [k_prev mark_of] in He.
    split; [|intros _ _; by eexists]. intros _ p Hp. rewrite Hp in He. injection He as ->. destruct (adj_edge m0 _ e T Ha) as (ed & Hed & _).
    unfold valid_of, edge_of in Hval. rewrite Hed in Hval. cbn in Hval. destruct (e_reverse ed) as [r|] eqn:Hr; [|done].
    destruct (t_rev _ T e ed r Hed Hr) as [rd Hrd]. exists ed, r, rd. by rewrite (g_edges _ _ Hg).
Qed.

(** The check of every node of the mesh that the search has marked. *)
Lemma check_reachability_ok time m :
  topo_wf m -> udp_wf sa_raw m -> (forall n x, m_nodes m !! n = Some x -> prev_ok m x) ->
  exists m' evs, check_reachability sa_raw time m = Done m' /\ udp_wf sa_raw m' /\ m_edges m' = m_edges m /\ m_node_tree m' = m_node_tree m /\ m_self m' = m_self m /\
    m_reachable m' = zlen (List.filter (visited_in m) (m_node_tree m)) - 1 /\ m_log m' = m_log m ++ evs /\ statuses evs = mjoin (told_in m <$> m_node_tree m) /\
    (forall n, m_nodes m !! n = None -> m_nodes m' !! n = None) /\
    (forall n x, m_nodes m !! n = Some x -> exists x', m_nodes m' !! n = Some x' /\ checked m x x').
Proof.
  intros T Hu Hp. destruct (check_nodes_ok sa_raw time (m_node_tree m) m (-1) (t_nodup _ T) Hu) as (m1 & evs & E & U & Ee & Et & Es & Eh & Er & _ & El & Ev & Eo & Ec).
  { intros n Hn. apply (t_tree _ T) in Hn as [x Hx]. exists x. split; [done|]. by eapply Hp. }
  unfold check_reachability. rewrite E. cbn [obind]. clear E. set (k := -1 + _).
  assert (Hk : k = zlen (List.filter (visited_in m) (m_node_tree m)) - 1) by (unfold k; lia).
  assert (Hnodes : (forall n, m_nodes m !! n = None -> m_nodes m1 !! n = None) /\ forall n x, m_nodes m !! n = Some x -> exists x', m_nodes m1 !! n = Some x' /\ checked m x x').
  { split.
    - intros n Hn. rewrite Eo; [done|]. rewrite (t_tree _ T), Hn. by intros [].
    - intros n x Hx. apply Ec; [|done]. apply (t_tree _ T). by eexists. }
  destruct Hnodes as [N1 N2]. destruct (Z.eqb_spec (m_reachable m1) k) as [Ek|Ek]; cbn [negb]; [exists m1, evs; splits; try done; congruence|].
  destruct U as [Uc Uk Ur]. destruct (k =? 0); [|exists (set_m_reachable k m1), evs; splits; try done; by split].
  cbn [m_threadstarted m_periodic set_m_last_unreachable]. destruct (_ && _).
  - eexists _, (evs ++ [EvPeriodic]). splits; [done|by split|try done..]; [cbn; by rewrite El, app_assoc|]. by rewrite statuses_app, app_nil_r.
  - eexists _, evs. splits; [done|by split|done..].
Qed.

Lemma graph_ok time m :
  topo_wf m -> udp_wf sa_raw m -> m_threadstarted m = true ->
  exists m1 m' evs, sssp_bfs sa_raw m = Done m1 /\ check_reachability sa_raw time m1 = Done m' /\ same_graph m m1 /\
    shortest (m_self m) (adj_of m) (from_of m) (to_of m) (weight_of m) (valid_of m) (marks m1) /\
    udp_wf sa_raw m' /\ topo_wf m' /\ m_node_tree m' = m_node_tree m /\ m_self m' = m_self m /\ m_edges m' = m_edges m /\
    m_reachable m' = zlen (List.filter (visited_in m1) (m_node_tree m)) - 1 /\ m_log m' = m_log m ++ evs /\ statuses evs = mjoin (told_in m1 <$> m_node_tree m) /\
    (forall n, m_nodes m1 !! n = None -> m_nodes m' !! n = None) /\
    (forall n x, m_nodes m1 !! n = Some x -> exists x', m_nodes m' !! n = Some x' /\ checked m1 x x').
Proof.
  intros T Hu Hth. destruct (sssp_ok sa_raw m T Hu Hth) as (m1 & E1 & [Hg U1] & Hs). pose proof (topo_same _ _ Hg T) as T1.
  destruct (check_reachability_ok time m1 T1 U1 (fun n x Hx => proj1 (shortest_prev_ok m m1 T Hg Hs n x Hx))) as (m' & evs & E2 & U2 & Ee & Et & Ef & Er & El & Ev & N1 & N2).
  exists m1, m', evs. rewrite (g_tree _ _ Hg), (g_log _ _ Hg) in *. splits; try done; try (destruct Hg; congruence).
  assert (Hd : forall n, is_Some (m_nodes m' !! n) <-> is_Some (m_nodes m1 !! n)).
  { intros n. destruct (m_nodes m1 !! n) as [x|] eqn:Hx; [destruct (N2 n x Hx) as (x' & -> & _); split; by eexists|by rewrite (N1 n Hx)]. }
  destruct T1 as [Ts Tn Tt Te Tr]. split.
  - rewrite Ef. by apply Hd.
  - by rewrite Et, <- (g_tree _ _ Hg).
  - intros n. by rewrite Et, Hd, <- (g_tree _ _ Hg).
  - intros n x e Hx He. destruct (m_nodes m1 !! n) as [y|] eqn:Hy; [|rewrite (N1 n Hy) in Hx; done]. destruct (N2 n y Hy) as (x' & Hx' & K & _).
    replace x' with x in * by congruence. assert (Etree : n_edge_tree x = n_edge_tree y) by (unfold kept in K; congruence). rewrite Etree in He.
    destruct (Te n y e Hy He) as (ed & H1 & H2 & H3 & H4). exists ed. rewrite Ee. splits; try done. by apply Hd.
  - intros e ed r. rewrite Ee. apply Tr.
Qed.

(** A node is visited when there is a way to it. *)
Lemma visited_route m m1 n x :
  shortest (m_self m) (adj_of m) (from_of m) (to_of m) (weight_of m) (valid_of m) (marks m1) -> m_nodes m1 !! n = Some x ->
  (n_visited x = true <-> exists k, route m n k).
Proof.
  intros Hs Hx. unfold route. rewrite <- (s_visited _ _ _ _ _ _ _ Hs n). unfold vis. by rewrite (mk_marks m1 n x Hx).
Qed.
End Graph.

(** ** The theorems *)

(** C9. The search returns in every well-formed mesh whose thread runs: it marks
    exactly the nodes that can be reached along edges both sides announced, with the
    least number of hops, with the lightest of the last edges of such ways and with
    the first hop of the way through that edge.  The graph itself, the reachability
    and the sessions of the nodes are untouched, and nothing is reported. *)
Theorem sssp_bfs_finds_shortest_paths (sa_raw : sockaddr_t -> list Z) (m : mesh_t) :
  topo_wf m -> udp_wf sa_raw m -> m_threadstarted m = true ->
  exists m', sssp_bfs sa_raw m = Done m' /\ same_graph m m' /\ udp_wf sa_raw m' /\
    shortest (m_self m) (adj_of m) (from_of m) (to_of m) (weight_of m) (valid_of m) (marks m').
Proof. intros T Hu Hth. destruct (sssp_ok sa_raw m T Hu Hth) as (m' & E & [Hg U] & Hs). by exists m'. Qed.

(** C8. After [graph] a node is reachable exactly when there is a way to it along
    edges both sides announced; the mesh counts the others that are; a reachable
    node is in the session that the other side of its last edge announces; and the
    application, if it has a status callback, has been told of every node, not
    blacklisted, whose reachability changed, once and in the order of the tree, and of no other.  The call returns
    and the mesh stays well formed. *)
Theorem graph_tracks_reachability (sa_raw : sockaddr_t -> list Z) (time : Z) (m : mesh_t) :
  topo_wf m -> udp_wf sa_raw m -> m_threadstarted m = true ->
  exists m' evs, graph sa_raw time m = Done m' /\ topo_wf m' /\ udp_wf sa_raw m' /\
    (forall n, is_Some (m_nodes m !! n) -> (reachable_in m' n = true <-> exists k, route m n k)) /\
    m_reachable m' = zlen (List.filter (reachable_in m') (m_node_tree m)) - 1 /\
    (forall n x, m_nodes m' !! n = Some x -> n <> m_self m -> n_reachable x = true ->
       exists p, n_prevedge x = Some p /\ n_session_id x = session_via m p) /\
    m_log m' = m_log m ++ evs /\ statuses evs = mjoin (report m m' <$> m_node_tree m).
Proof.
  intros T Hu Hth. destruct (graph_ok sa_raw time m T Hu Hth) as (m1 & m' & evs & E1 & E2 & Hg & Hs & U & T' & Et & Ef & Ee & Er & El & Ev & N1 & N2).
  exists m', evs. assert (Hr : forall n, visited_in m1 n = reachable_in m' n).
  { intros n. unfold visited_in, reachable_in. destruct (m_nodes m1 !! n) as [x|] eqn:Hx; [|by rewrite (N1 n Hx)]. destruct (N2 n x Hx) as (x' & -> & _ & R & _). done. }
  splits; try done.
  - unfold graph. by rewrite E1.
  - intros n [x Hx]. rewrite <- Hr. destruct (same_node m m1 n x Hg Hx) as (x1 & Hx1 & _). unfold visited_in. rewrite Hx1. by eapply visited_route.
  - rewrite Er. f_equal. f_equal. by apply List.filter_ext.
  - intros n x Hx Hne Hre. destruct (m_nodes m1 !! n) as [y|] eqn:Hy; [|rewrite (N1 n Hy) in Hx; done]. destruct (N2 n y Hy) as (x' & Hx' & K & R & Se). replace x' with x in * by congruence.
    assert (Hv : n_visited y = true) by congruence. destruct (proj2 (shortest_prev_ok m m1 T Hg Hs n y Hy) Hv Hne) as [p Hp]. exists p. split; [unfold kept, mark_of in K; congruence|].
    rewrite (Se Hv p Hp). unfold session_via, edge_of. by rewrite (g_edges _ _ Hg).
  - rewrite Ev. f_equal. apply list_fmap_ext. intros i n Hn. apply list_elem_of_lookup_2, (t_tree _ T) in Hn as [x Hx]. destruct (same_node m m1 n x Hg Hx) as (y & Hy & Es).
    unfold told_in, report, told. rewrite Hx, Hy, <- Hr, (g_cb _ _ Hg). unfold visited_in. rewrite Hy. unfold shape in Es. assert (n_blacklisted y = n_blacklisted x) as -> by congruence. by assert (n_reachable y = n_reachable x) as -> by congruence.
Qed.

(** A mesh of four nodes: a chain of three, and one that only one side is linked to. *)
Definition example_node (name : Z) (reachable : bool) (edges : list eid) : node_t :=
  NodeT [name] false false false reachable false false false false 0 0 0 SaUnspec false 0 0 0 (replicate MAX_RECENT SaUnspec) 0 0 0 None None edges.

Definition example_edge (from to : nid) (reverse : option eid) (weight session : Z) : edge_t :=
  EdgeT from to (SaInet [10; 0; 0; Zpos to] [2; 143]) reverse weight session.

Definition example_mesh : mesh_t :=
  MeshT (list_to_map [(1%positive, example_node 97 true [1%positive]); (2%positive, example_node 98 false [2%positive; 3%positive]);
                      (3%positive, example_node 99 false [4%positive; 5%positive]); (4%positive, example_node 100 true [])])
        [1%positive; 2%positive; 3%positive; 4%positive]
        (list_to_map [(1%positive, example_edge 1%positive 2%positive (Some 2%positive) 5 11); (2%positive, example_edge 2%positive 1%positive (Some 1%positive) 5 12);
                      (3%positive, example_edge 2%positive 3%positive (Some 4%positive) 7 12); (4%positive, example_edge 3%positive 2%positive (Some 3%positive) 7 13);
                      (5%positive, example_edge 3%positive 4%positive None 9 13)])
        [] 1%positive true 0 (hash_alloc 4 2) [] 0 0 false false true true [].

Definition example_raw (a : sockaddr_t) : list Z := replicate 2 (sa_family a).

Lemma example_topo : topo_wf example_mesh.
Proof.
  split.
  - by eexists.
  - apply (bool_decide_eq_true_1 (NoDup _)). by vm_compute.
  - intros n. cbn [m_node_tree m_nodes example_mesh list_to_map foldr fst snd]. split.
    + intros Hn. repeat (apply elem_of_cons in Hn as [->|Hn]; [by eexists|]). by apply not_elem_of_nil in Hn.
    + intros [x Hx]. cbn in Hx. lookup_cases Hx; set_solver.
  - intros n x e Hx He. cbn in Hx. lookup_cases Hx; cbn in He;
      repeat (apply elem_of_cons in He as [->|He]; [eexists; splits; [by vm_compute|done|by eexists|done]|]); by apply not_elem_of_nil in He.
  - intros e ed r He Hr. cbn in He. lookup_cases He; cbn in Hr; try done; injection Hr as <-; by eexists.
Qed.

Lemma example_udp : udp_wf example_raw example_mesh.
Proof.
  split; [by apply hash_alloc_ok|done|]. intros n x Hx. cbn in Hx. lookup_cases Hx; (split; [repeat constructor|done]).
Qed.

Lemma sssp_bfs_finds_shortest_paths_witness :
  exists m', sssp_bfs example_raw example_mesh = Done m' /\ (n_distance <$> m_nodes m' !! 3%positive) = Some 2.
Proof.
  destruct (sssp_bfs_finds_shortest_paths example_raw example_mesh example_topo example_udp eq_refl) as (m' & E & _). exists m'. split; [exact E|].
  revert E. vm_compute. intros [= <-]. reflexivity.
Defined.

Lemma graph_tracks_reachability_witness :
  exists m' evs, graph example_raw 1000 example_mesh = Done m' /\ m_reachable m' = 2 /\ m_log m' = [] ++ evs /\
    statuses evs = [(2%positive, true); (3%positive, true); (4%positive, false)].
Proof.
  destruct (graph_tracks_reachability example_raw 1000 example_mesh example_topo example_udp eq_refl) as (m' & evs & E & _ & _ & _ & _ & _ & El & Es). exists m', evs.
  split; [exact E|]. split; [|split; [exact El|]].
  - revert E. vm_compute. intros [= <-]. reflexivity.
  - rewrite Es. revert E. vm_compute. intros [= <-]. reflexivity.
Defined.
