(* ===== verification/GraphEdges.v ===== *)
(** The edges of src/src/edge.c: the trees of edges and the two sides of a link. *)
From stdpp Require Import gmap.
From S2P Require Import Prelude Bytes HashTable Graph.

(** ** Names *)

Lemma bytes_cmp_refl a : bytes_cmp a a = 0.
Proof. induction a as [|x a IH]; [done|]. cbn. by rewrite Z.eqb_refl. Qed.

Lemma bytes_cmp_eq a : forall b, bytes_cmp a b = 0 -> a = b.
Proof.
  induction a as [|x a IH]; intros [|y b]; cbn; try done. destruct (Z.eqb_spec x y) as [->|Hne]; [intros H; by rewrite (IH b H)|lia].
Qed.

(** ** Trees as lists *)

Lemma tree_insert_ok cmp x l :
  (forall y, y ∈ l -> exists c, cmp x y = Done c /\ c <> 0) -> exists l', tree_insert cmp x l = Done l' /\ l' ≡ₚ x :: l.
Proof.
  induction l as [|y l IH]; intros H; cbn [tree_insert]; [by exists [x]|]. destruct (H y ltac:(by left)) as (c & -> & Hc). cbn [obind].
  destruct (Z.ltb_spec c 0); [by eexists|]. destruct (Z.eqb_spec c 0); [done|]. destruct IH as (l' & -> & Hp); [intros z Hz; apply H; by right|].
  exists (y :: l'). split; [done|]. rewrite Hp. apply Permutation_swap.
Qed.

Lemma tree_search_ok cmp l :
  (forall y, y ∈ l -> exists c, cmp y = Done c) ->
  exists o, tree_search cmp l = Done o /\ match o with Some y => y ∈ l /\ cmp y = Done 0 | None => forall y, y ∈ l -> cmp y <> Done 0 end.
Proof.
  induction l as [|y l IH]; intros H; cbn [tree_search]; [exists None; split; [done|]; intros y Hy; by apply not_elem_of_nil in Hy|].
  destruct (H y ltac:(by left)) as (c & Ec). rewrite Ec. cbn [obind]. destruct (Z.eqb_spec c 0) as [->|Hc]; [exists (Some y); split; [done|]; split; [by left|done]|].
  destruct IH as (o & -> & Ho); [intros z Hz; apply H; by right|]. exists o. split; [done|]. destruct o as [z|]; [split; [right; apply Ho|apply Ho]|].
  intros z Hz. apply elem_of_cons in Hz as [->|Hz]; [congruence|by apply Ho].
Qed.

Lemma tree_delete_ok cmp e l :
  e ∈ l -> (forall y, y ∈ l -> exists c, cmp y = Done c /\ (c = 0 <-> y = e)) -> exists l', tree_delete cmp l = Done (Some e, l') /\ l ≡ₚ e :: l'.
Proof.
  induction l as [|y l IH]; intros He H; [by apply not_elem_of_nil in He|]. cbn [tree_delete]. destruct (H y ltac:(by left)) as (c & -> & Hc). cbn [obind].
  destruct (Z.eqb_spec c 0) as [E|E]; [apply Hc in E as ->; by eexists|]. apply elem_of_cons in He as [->|He]; [by destruct E; apply Hc|].
  destruct IH as (l' & -> & Hp); [done|intros z Hz; apply H; by right|]. exists (y :: l'). split; [done|]. rewrite Hp. apply Permutation_swap.
Qed.

(** ** Well-formed trees *)

Definition ends (ed : edge_t) : nid * nid := (e_from ed, e_to ed).

Definition names_ok (m : mesh_t) : Prop :=
  forall n n' x x', m_nodes m !! n = Some x -> m_nodes m !! n' = Some x' -> n_name x = n_name x' -> n = n'.

(** Weights are such that the comparison of two of them does not overflow. *)
Record trees_wf (m : mesh_t) : Prop := {
  w_names : names_ok m;
  w_all : forall e, e ∈ m_edge_tree m <-> is_Some (m_edges m !! e);
  w_all_nodup : NoDup (m_edge_tree m);
  w_from : forall e ed, m_edges m !! e = Some ed -> exists x, m_nodes m !! e_from ed = Some x /\ e ∈ n_edge_tree x;
  w_to : forall e ed, m_edges m !! e = Some ed -> is_Some (m_nodes m !! e_to ed);
  w_tree : forall n x e, m_nodes m !! n = Some x -> e ∈ n_edge_tree x -> exists ed, m_edges m !! e = Some ed /\ e_from ed = n;
  w_nodup : forall n x, m_nodes m !! n = Some x -> NoDup (n_edge_tree x);
  w_one : forall e e' ed ed', m_edges m !! e = Some ed -> m_edges m !! e' = Some ed' -> ends ed = ends ed' -> e = e';
  w_weight : forall e ed, m_edges m !! e = Some ed -> - 2 ^ 30 <= e_weight ed < 2 ^ 30;
}.

(** The two sides of a link know each other. *)
Definition linked (m : mesh_t) : Prop :=
  forall e ed r, m_edges m !! e = Some ed ->
  (e_reverse ed = Some r <-> exists rd, m_edges m !! r = Some rd /\ e_from rd = e_to ed /\ e_to rd = e_from ed).

Lemma name_cmp m n n' x x' :
  names_ok m -> m_nodes m !! n = Some x -> m_nodes m !! n' = Some x' -> (bytes_cmp (n_name x) (n_name x') = 0 <-> n = n').
Proof.
  intros W Hx Hx'. split; [intros H; by eapply W; [..|apply bytes_cmp_eq]|]. intros ->. replace x' with x by congruence. apply bytes_cmp_refl.
Qed.

Lemma lookup_edge_ok m from to :
  trees_wf m -> is_Some (m_nodes m !! from) -> is_Some (m_nodes m !! to) ->
  exists o, lookup_edge m from to = Done o /\ forall r, o = Some r <-> exists rd, m_edges m !! r = Some rd /\ e_from rd = from /\ e_to rd = to.
Proof.
  intros W [x Hx] [t Ht]. unfold lookup_edge, get_node. rewrite Hx, Ht. cbn [obind].
  match goal with |- context [tree_search ?f _] => set (cmp := f) end. assert (Hc : forall e ed, e ∈ n_edge_tree x -> m_edges m !! e = Some ed -> exists c, cmp e = Done c /\ (c = 0 <-> to = e_to ed)).
  { intros e ed He Hed. destruct (w_to _ W e ed Hed) as [u Hu]. unfold cmp, get_edge. rewrite Hed. cbn [obind]. rewrite Hu. eexists. split; [done|]. eapply name_cmp; [apply W|done..]. }
  destruct (tree_search_ok cmp (n_edge_tree x)) as (o & -> & Ho).
  { intros e He. destruct (w_tree _ W from x e Hx He) as (ed & Hed & _). destruct (Hc e ed He Hed) as (c & -> & _). by eexists. }
  exists o. split; [done|]. intros r. split.
  - intros ->. destruct Ho as [Hr E]. destruct (w_tree _ W from x r Hx Hr) as (rd & Hrd & Hf). exists rd. splits; try done. destruct (Hc r rd Hr Hrd) as (c & Ec & Hz). symmetry. apply Hz. congruence.
  - intros (rd & Hrd & Hf & Hto). destruct (w_from _ W r rd Hrd) as (x' & Hx' & Hr). rewrite Hf in Hx'. replace x' with x in Hr by congruence.
    destruct (Hc r rd Hr Hrd) as (c & Ec & Hz). assert (c = 0) as -> by (by apply Hz). destruct o as [r'|]; [|by destruct (Ho r Hr)].
    destruct Ho as [Hr' Ec']. destruct (w_tree _ W from x r' Hx Hr') as (rd' & Hrd' & Hf'). destruct (Hc r' rd' Hr' Hrd') as (c' & Ec2 & Hz'). f_equal.
    eapply (w_one _ W r' r); [done..|]. unfold ends. f_equal; [congruence|]. transitivity to; [symmetry; apply Hz'; congruence|done].
Qed.

(** ** The comparisons *)

(** An edge between two nodes that are there. *)
Definition edge_at (m : mesh_t) (e : eid) (ed : edge_t) : Prop :=
  m_edges m !! e = Some ed /\ is_Some (m_nodes m !! e_from ed) /\ is_Some (m_nodes m !! e_to ed) /\ - 2 ^ 30 <= e_weight ed < 2 ^ 30.

Lemma edge_compare_ok m a b x y :
  names_ok m -> edge_at m a x -> edge_at m b y -> exists c, edge_compare m a b = Done c /\ (c = 0 <-> e_to x = e_to y).
Proof.
  intros W (Hx & _ & [s Hs] & _) (Hy & _ & [t Ht] & _). unfold edge_compare, get_edge, get_node. rewrite Hx, Hy. cbn [obind]. rewrite Hs, Ht. cbn [obind].
  eexists. split; [done|]. by eapply name_cmp.
Qed.

Lemma edge_weight_compare_ok m a b x y :
  names_ok m -> edge_at m a x -> edge_at m b y -> exists c, edge_weight_compare m a b = Done c /\ (c = 0 <-> e_weight x = e_weight y /\ ends x = ends y).
Proof.
  intros W A B. destruct (edge_compare_ok m a b x y W A B) as (c & Ec & Hc). destruct A as (Hx & [s Hs] & _ & Wx), B as (Hy & [t Ht] & _ & Wy). unfold edge_weight_compare, get_edge, get_node. rewrite Hx, Hy. cbn [obind].
  rewrite s32_small by lia. destruct (Z.eqb_spec (e_weight x - e_weight y) 0) as [Ew|Ew]; cbn [negb]; [|eexists; split; [done|]; lia].
  rewrite Hs, Ht. cbn [obind]. pose proof (name_cmp m _ _ s t W Hs Ht) as Hn. unfold ends.
  destruct (Z.eqb_spec (bytes_cmp (n_name s) (n_name t)) 0) as [En|En]; cbn [negb].
  - exists c. split; [done|]. apply Hn in En. rewrite Hc. split; [intros ->; split; [lia|congruence]|intros [_ [= _ Et]]; done].
  - eexists. split; [done|]. split; [done|]. intros [_ [= Ef _]]. by apply Hn.
Qed.

(** Weights from both ends of the range make the comparison of two of them overflow:
    in the two's complement that compilers give, three edges are then in a circle. *)
Theorem edge_weights_overflow (m : mesh_t) (a b c : eid) (x y z : edge_t) :
  m_edges m !! a = Some x -> m_edges m !! b = Some y -> m_edges m !! c = Some z -> e_weight x = - 2 ^ 31 -> e_weight y = 0 -> e_weight z = 2 ^ 31 - 1 ->
  exists i j k, edge_weight_compare m a b = Done i /\ edge_weight_compare m b c = Done j /\ edge_weight_compare m a c = Done k /\ i < 0 /\ j < 0 /\ 0 < k.
Proof.
  intros Hx Hy Hz Wx Wy Wz. unfold edge_weight_compare, get_edge. rewrite Hx, Hy, Hz. cbn [obind]. rewrite Wx, Wy, Wz. exists (- 2 ^ 31), (- (2 ^ 31 - 1)), 1. splits; try done; lia.
Qed.

(** ** Adding and removing *)

Lemma wf_at m e ed : trees_wf m -> m_edges m !! e = Some ed -> edge_at m e ed.
Proof. intros W He. split; [done|]. split; [destruct (w_from _ W e ed He) as (x & -> & _); by eexists|]. split; [by eapply w_to|by eapply w_weight]. Qed.

(** A new edge, between two nodes that no edge leads between yet. *)
Definition fresh_edge (m : mesh_t) (e : eid) (ed : edge_t) : Prop :=
  m_edges m !! e = None /\ is_Some (m_nodes m !! e_from ed) /\ is_Some (m_nodes m !! e_to ed) /\ - 2 ^ 30 <= e_weight ed < 2 ^ 30 /\
  forall e' ed', m_edges m !! e' = Some ed' -> ends ed' <> ends ed.

(** The mesh with the new edge in the tree of all edges and in that of its node. *)
Definition grown (m : mesh_t) (e : eid) (ed : edge_t) (all tree : list eid) (x : node_t) : mesh_t :=
  set_m_nodes (<[e_from ed := set_n_edge_tree tree x]> (m_nodes m)) (set_m_edge_tree all (set_m_edges (<[e := ed]> (m_edges m)) m)).

(** Only the tree of edges of node [n0] is another. *)
Definition retreed (m m' : mesh_t) (n0 : nid) (tree : list eid) (x : node_t) : Prop :=
  m_nodes m !! n0 = Some x /\ m_nodes m' = <[n0 := set_n_edge_tree tree x]> (m_nodes m).

Lemma node_before m m' n0 tree x n y' :
  retreed m m' n0 tree x -> m_nodes m' !! n = Some y' ->
  exists y, m_nodes m !! n = Some y /\ n_name y' = n_name y /\ n_edge_tree y' = if decide (n = n0) then tree else n_edge_tree y.
Proof.
  intros [Hx ->] Hy. destruct (decide (n = n0)) as [->|Hne].
  - rewrite lookup_insert_eq in Hy. injection Hy as <-. by exists x.
  - rewrite lookup_insert_ne in Hy by congruence. by exists y'.
Qed.

Lemma node_after m m' n0 tree x n :
  retreed m m' n0 tree x -> is_Some (m_nodes m !! n) ->
  exists y', m_nodes m' !! n = Some y' /\ forall y, m_nodes m !! n = Some y -> n_edge_tree y' = if decide (n = n0) then tree else n_edge_tree y.
Proof.
  intros [Hx ->] [y Hy]. destruct (decide (n = n0)) as [->|Hne].
  - rewrite lookup_insert_eq. eexists. by split.
  - rewrite lookup_insert_ne by congruence. exists y. split; [done|]. intros z Hz. congruence.
Qed.

Lemma names_before m m' n0 tree x : retreed m m' n0 tree x -> names_ok m -> names_ok m'.
Proof.
  intros R W n n' y y' Hy Hy' En. destruct (node_before _ _ _ _ _ _ _ R Hy) as (z & Hz & Ez & _), (node_before _ _ _ _ _ _ _ R Hy') as (z' & Hz' & Ez' & _). eapply W; [done..|congruence].
Qed.

Lemma grown_wf m e ed all tree x :
  trees_wf m -> fresh_edge m e ed -> m_nodes m !! e_from ed = Some x -> all ≡ₚ e :: m_edge_tree m -> tree ≡ₚ e :: n_edge_tree x -> trees_wf (grown m e ed all tree x).
Proof.
  intros W (Hnew & Hf & Ht & Hw & Hone) Hx Ha Htr. assert (R : retreed m (grown m e ed all tree x) (e_from ed) tree x) by done.
  assert (Ee : m_edges (grown m e ed all tree x) = <[e := ed]> (m_edges m)) by done. assert (Ea : m_edge_tree (grown m e ed all tree x) = all) by done.
  assert (Hin : forall k kd, m_edges (grown m e ed all tree x) !! k = Some kd -> k = e /\ kd = ed \/ k <> e /\ m_edges m !! k = Some kd).
  { intros k kd. rewrite Ee. intros [[<- <-]|[Hne Hk]]%lookup_insert_Some; [by left|right; by split]. }
  assert (Hnotin : e ∉ m_edge_tree m) by (rewrite (w_all _ W), Hnew; by intros []).
  assert (Hnotin' : e ∉ n_edge_tree x) by (intros H; destruct (w_tree _ W _ _ _ Hx H) as (kd & Hk & _); congruence).
  split.
  - by eapply names_before, W.
  - intros k. rewrite Ea, Ee, Ha, elem_of_cons, (w_all _ W). destruct (decide (k = e)) as [->|Hne]; [rewrite lookup_insert_eq; split; [by eexists|by left]|].
    rewrite lookup_insert_ne by congruence. naive_solver.
  - rewrite Ea, Ha. apply NoDup_cons. split; [done|apply (w_all_nodup _ W)].
  - intros k kd Hk. destruct (Hin k kd Hk) as [[-> ->]|[Hne Hk']].
    + destruct (node_after _ _ _ _ _ (e_from ed) R Hf) as (y' & Hy' & Et). exists y'. split; [done|]. rewrite (Et x Hx), decide_True by done. rewrite Htr. by left.
    + destruct (w_from _ W k kd Hk') as (y & Hy & Hky). destruct (node_after _ _ _ _ _ (e_from kd) R ltac:(by eexists)) as (y' & Hy' & Et). exists y'. split; [done|]. rewrite (Et y Hy).
      destruct (decide _) as [E|]; [|done]. rewrite Htr. right. rewrite E in Hy. congruence.
  - intros k kd Hk. assert (Hto : is_Some (m_nodes m !! e_to kd)) by (destruct (Hin k kd Hk) as [[-> ->]|[_ Hk']]; [done|by eapply w_to]).
    destruct (node_after _ _ _ _ _ (e_to kd) R Hto) as (y' & -> & _). by eexists.
  - intros n y' k Hy Hk. destruct (node_before _ _ _ _ _ _ _ R Hy) as (y & Hy0 & _ & Et). rewrite Et in Hk. rewrite Ee. destruct (decide (k = e)) as [->|Hne].
    + destruct (decide (n = e_from ed)) as [->|Hn]; [rewrite lookup_insert_eq; by eexists|]. destruct (w_tree _ W n y e Hy0 Hk) as (kd & Hkd & _). congruence.
    + rewrite lookup_insert_ne by congruence. apply (w_tree _ W n y k Hy0). destruct (decide (n = e_from ed)) as [->|]; [|done].
      rewrite Htr in Hk. apply elem_of_cons in Hk as [|Hk]; [done|]. congruence.
  - intros n y' Hy. destruct (node_before _ _ _ _ _ _ _ R Hy) as (y & Hy0 & _ & ->). destruct (decide _); [|by eapply w_nodup]. rewrite Htr. apply NoDup_cons. split; [done|by eapply w_nodup].
  - intros k k' kd kd' Hk Hk' En. destruct (Hin k kd Hk) as [[-> ->]|[Hne H1]], (Hin k' kd' Hk') as [[-> ->]|[Hne' H2]]; try done.
    + by destruct (Hone k' kd' H2).
    + by destruct (Hone k kd H1).
    + by eapply (w_one _ W).
  - intros k kd Hk. destruct (Hin k kd Hk) as [[-> ->]|[_ Hk']]; [done|by eapply w_weight].
Qed.

(** Two meshes that differ in the reverse pointers only. *)
Definition relinked (f : eid -> edge_t -> option eid) (m m' : mesh_t) : Prop :=
  m_nodes m' = m_nodes m /\ (m_edge_tree m' = m_edge_tree m /\ m_node_tree m' = m_node_tree m) /\ forall k, m_edges m' !! k = (fun kd => set_e_reverse (f k kd) kd) <$> m_edges m !! k.

Lemma relinked_edge f m m' k kd' : relinked f m m' -> m_edges m' !! k = Some kd' -> exists kd, m_edges m !! k = Some kd /\ kd' = set_e_reverse (f k kd) kd.
Proof. intros (_ & _ & He). rewrite He. destruct (m_edges m !! k) as [kd|]; [|done]. intros [= <-]. by exists kd. Qed.

Lemma edge_relinked f m m' k kd : relinked f m m' -> m_edges m !! k = Some kd -> m_edges m' !! k = Some (set_e_reverse (f k kd) kd).
Proof. intros (_ & _ & He) H. by rewrite He, H. Qed.

Lemma relinked_wf f m m' : relinked f m m' -> trees_wf m -> trees_wf m'.
Proof.
  intros R W. pose proof R as (En & [Ea _] & _). split.
  - intros n n' x x'. rewrite En. apply (w_names _ W).
  - intros e. rewrite Ea, (w_all _ W). split; intros [kd Hk]; [rewrite (edge_relinked _ _ _ _ _ R Hk)|destruct (relinked_edge _ _ _ _ _ R Hk) as (kd0 & -> & _)]; by eexists.
  - rewrite Ea. apply (w_all_nodup _ W).
  - intros e ed He. destruct (relinked_edge _ _ _ _ _ R He) as (kd & Hk & ->). rewrite En. by apply (w_from _ W e kd).
  - intros e ed He. destruct (relinked_edge _ _ _ _ _ R He) as (kd & Hk & ->). rewrite En. by apply (w_to _ W e kd).
  - intros n x e. rewrite En. intros Hx He. destruct (w_tree _ W n x e Hx He) as (kd & Hk & Hf). rewrite (edge_relinked _ _ _ _ _ R Hk). by eexists.
  - intros n x. rewrite En. apply (w_nodup _ W).
  - intros e e' ed ed' He He'. destruct (relinked_edge _ _ _ _ _ R He) as (kd & Hk & ->), (relinked_edge _ _ _ _ _ R He') as (kd' & Hk' & ->). by apply (w_one _ W e e' kd kd').
  - intros e ed He. destruct (relinked_edge _ _ _ _ _ R He) as (kd & Hk & ->). by apply (w_weight _ W e kd).
Qed.

(** Setting one reverse pointer. *)
Lemma upd_reverse k r m kd :
  m_edges m !! k = Some kd ->
  exists m', upd_edge k (set_e_reverse r) m = Done m' /\ relinked (fun j jd => if decide (j = k) then r else e_reverse jd) m m'.
Proof.
  intros Hk. unfold upd_edge, get_edge. rewrite Hk. eexists. split; [done|]. unfold relinked. splits; try done. intros j. cbn [m_edges set_m_edges].
  destruct (decide (j = k)) as [->|Hne]; [by rewrite lookup_insert_eq, Hk|]. rewrite lookup_insert_ne by congruence. destruct (m_edges m !! j) as [[]|]; done.
Qed.

Lemma relinked_trans f g m1 m2 m3 :
  relinked f m1 m2 -> relinked g m2 m3 -> relinked (fun k kd => g k (set_e_reverse (f k kd) kd)) m1 m3.
Proof.
  intros (N1 & [T1 T1'] & E1) (N2 & [T2 T2'] & E2). unfold relinked. splits; try congruence. intros k. rewrite E2, E1. by destruct (m_edges m1 !! k).
Qed.

(** The two sides that [edge_add] links. *)
Definition add_reverse (e : eid) (o : option eid) (k : eid) (kd : edge_t) : option eid :=
  if decide (o = Some k) then Some e else if decide (k = e) then o else e_reverse kd.

Lemma add_reverse_ok e o m ed :
  m_edges m !! e = Some ed -> (forall r, o = Some r -> is_Some (m_edges m !! r)) ->
  exists m', (let* m := upd_edge e (set_e_reverse o) m in match o with Some r => upd_edge r (set_e_reverse (Some e)) m | None => Done m end) = Done m' /\
    relinked (add_reverse e o) m m'.
Proof.
  intros He Ho. destruct (upd_reverse e o m ed He) as (m1 & -> & R1). cbn [obind]. destruct o as [r|].
  - destruct (Ho r eq_refl) as [rd Hr]. destruct (upd_reverse r (Some e) m1 _ (edge_relinked _ _ _ _ _ R1 Hr)) as (m2 & -> & R2). exists m2. split; [done|].
    destruct (relinked_trans _ _ _ _ _ R1 R2) as (N & [T T'] & E). unfold relinked. splits; try done. intros k. rewrite E. destruct (m_edges m !! k) as [kd|]; [|done]. cbn. f_equal. unfold add_reverse.
    destruct (decide (k = r)) as [->|Hne]; [by rewrite decide_True|]. rewrite (decide_False (P := Some r = Some k)) by congruence. done.
  - exists m1. split; [done|]. destruct R1 as (N & [T T'] & E). unfold relinked. splits; try done.
Qed.

Lemma add_linked m e ed o all tree x m' :
  trees_wf m -> linked m -> fresh_edge m e ed -> trees_wf (grown m e ed all tree x) ->
  (forall r, o = Some r <-> exists rd, m_edges (grown m e ed all tree x) !! r = Some rd /\ e_from rd = e_to ed /\ e_to rd = e_from ed) ->
  relinked (add_reverse e o) (grown m e ed all tree x) m' -> linked m'.
Proof.
  intros W L (Hnew & _) Wg Ho R. set (g := grown m e ed all tree x) in *. assert (Ee : m_edges g = <[e := ed]> (m_edges m)) by done.
  assert (He : m_edges g !! e = Some ed) by (rewrite Ee; apply lookup_insert_eq).
  assert (Hlink : forall k kd r, m_edges g !! k = Some kd -> (add_reverse e o k kd = Some r <-> exists rd, m_edges g !! r = Some rd /\ e_from rd = e_to kd /\ e_to rd = e_from kd)).
  { intros k kd r Hk. unfold add_reverse. destruct (decide (o = Some k)) as [Ek|Ek]; [|destruct (decide (k = e)) as [->|Hne]].
    - apply Ho in Ek as (kd' & Hk' & Hf & Ht). replace kd' with kd in * by congruence. split.
      + intros [= <-]. by exists ed.
      + intros (rd & Hr & Hrf & Hrt). f_equal. eapply (w_one _ Wg e r); [done..|]. unfold ends. congruence.
    - replace kd with ed by congruence. apply Ho.
    - rewrite Ee, lookup_insert_ne in Hk by congruence. rewrite (L k kd r Hk). split.
      + intros (rd & Hr & Hx). exists rd. split; [|done]. rewrite Ee, lookup_insert_ne; [done|congruence].
      + intros (rd & Hr & Hrf & Hrt). rewrite Ee in Hr. apply lookup_insert_Some in Hr as [[<- <-]|[_ Hr]]; [|by exists rd].
        destruct Ek. apply Ho. exists kd. rewrite Ee, lookup_insert_ne by congruence. done. }
  intros k kd' r Hk. destruct (relinked_edge _ _ _ _ _ R Hk) as (kd & Hk0 & ->). cbn [e_reverse set_e_reverse e_from e_to]. rewrite (Hlink k kd r Hk0). split.
  - intros (rd & Hr & Hx). rewrite (edge_relinked _ _ _ _ _ R Hr). by eexists.
  - intros (rd & Hr & Hx). destruct (relinked_edge _ _ _ _ _ R Hr) as (rd0 & Hr0 & ->). by exists rd0.
Qed.

Lemma trees_grow m e ed :
  trees_wf m -> fresh_edge m e ed ->
  exists all tree x, m_nodes m !! e_from ed = Some x /\ trees_wf (grown m e ed all tree x) /\
    forall S (f : mesh_t -> outcome S),
    (let* t := tree_insert (edge_weight_compare (set_m_edges (<[e := ed]> (m_edges m)) m)) e (m_edge_tree m) in
     let m := set_m_edge_tree t (set_m_edges (<[e := ed]> (m_edges m)) m) in
     let* x := get_node m (e_from ed) in
     let* t := tree_insert (edge_compare m) e (n_edge_tree x) in
     let* m := upd_node (e_from ed) (set_n_edge_tree t) m in f m) = f (grown m e ed all tree x).
Proof.
  intros W F. pose proof F as (Hnew & [x Hx] & Ht & Hw & Hone). set (mi := set_m_edges _ m).
  assert (Hat : forall m1, m_nodes m1 = m_nodes m -> m_edges m1 = <[e := ed]> (m_edges m) -> names_ok m1 /\ edge_at m1 e ed /\ forall k kd, m_edges m !! k = Some kd -> edge_at m1 k kd).
  { intros m1 En Ee. unfold names_ok, edge_at. rewrite En, Ee, lookup_insert_eq. split; [apply (w_names _ W)|]. split; [split; [done|]; rewrite Hx; by eauto|].
    intros k kd Hk. rewrite lookup_insert_ne by congruence. by apply (wf_at m k kd W Hk). }
  destruct (Hat mi eq_refl eq_refl) as (Nm & Ae & Ak).
  destruct (tree_insert_ok (edge_weight_compare mi) e (m_edge_tree m)) as (all & Ea & Pa).
  { intros k Hk. apply (w_all _ W) in Hk as [kd Hk]. destruct (edge_weight_compare_ok mi e k ed kd Nm Ae (Ak k kd Hk)) as (c & Ec & Hc). exists c. split; [done|].
    intros H0. apply Hc in H0 as [_ H0]. by destruct (Hone k kd Hk). }
  destruct (Hat (set_m_edge_tree all mi) eq_refl eq_refl) as (Nm1 & Ae1 & Ak1).
  destruct (tree_insert_ok (edge_compare (set_m_edge_tree all mi)) e (n_edge_tree x)) as (tree & Et & Pt).
  { intros k Hk. destruct (w_tree _ W _ _ _ Hx Hk) as (kd & Hkd & Hf). destruct (edge_compare_ok _ e k ed kd Nm1 Ae1 (Ak1 k kd Hkd)) as (c & Ec & Hc). exists c. split; [done|].
    intros H0. apply Hc in H0. destruct (Hone k kd Hkd). unfold ends. congruence. }
  exists all, tree, x. split; [done|]. split; [by apply grown_wf|]. intros S f. rewrite Ea. cbn [obind]. unfold get_node. cbn [m_nodes set_m_edge_tree set_m_edges mi]. rewrite Hx. cbn [obind].
  fold mi. rewrite Et. cbn [obind]. unfold upd_node, get_node. cbn [m_nodes set_m_edge_tree set_m_edges mi]. by rewrite Hx.
Qed.

Lemma edge_add_ok m e ed :
  trees_wf m -> linked m -> fresh_edge m e ed ->
  exists m' all tree x o, edge_add e (set_m_edges (<[e := ed]> (m_edges m)) m) = Done m' /\ trees_wf m' /\ linked m' /\ relinked (add_reverse e o) (grown m e ed all tree x) m'.
Proof.
  intros W L F. destruct (trees_grow m e ed W F) as (all & tree & x & Hx & Wg & Hrun). unfold edge_add, get_edge at 1. cbn [m_edges set_m_edges]. rewrite lookup_insert_eq. cbn [obind].
  cbn [m_edge_tree set_m_edges]. rewrite Hrun. clear Hrun. pose proof F as (Hnew & Hf & Ht & _). set (g := grown m e ed all tree x) in *. assert (R : retreed m g (e_from ed) tree x) by done.
  destruct (node_after _ _ _ _ _ (e_from ed) R Hf) as (y & Hy & _), (node_after _ _ _ _ _ (e_to ed) R Ht) as (z & Hz & _).
  destruct (lookup_edge_ok g (e_to ed) (e_from ed) Wg) as (o & Eo & Ho); [by eexists..|]. rewrite Eo. cbn [obind].
  destruct (add_reverse_ok e o g ed) as (m' & -> & Rl); [apply lookup_insert_eq|intros r Hr; apply Ho in Hr as (rd & -> & _); by eexists|].
  exists m', all, tree, x, o. splits; [done|by eapply relinked_wf|exact (add_linked m e ed o all tree x m' W L F Wg Ho Rl)|done].
Qed.

(** The mesh without an edge. *)
Definition shrunk (m : mesh_t) (e : eid) (ed : edge_t) (all tree : list eid) (x : node_t) : mesh_t :=
  set_m_edges (delete e (m_edges m)) (set_m_nodes (<[e_from ed := set_n_edge_tree tree x]> (m_nodes m)) (set_m_edge_tree all m)).

Lemma shrunk_wf m e ed all tree x :
  trees_wf m -> m_edges m !! e = Some ed -> m_nodes m !! e_from ed = Some x -> m_edge_tree m ≡ₚ e :: all -> n_edge_tree x ≡ₚ e :: tree ->
  trees_wf (shrunk m e ed all tree x).
Proof.
  intros W He Hx Ha Htr. assert (R : retreed m (shrunk m e ed all tree x) (e_from ed) tree x) by done.
  assert (Ee : m_edges (shrunk m e ed all tree x) = delete e (m_edges m)) by done. assert (Ea : m_edge_tree (shrunk m e ed all tree x) = all) by done.
  assert (Hin : forall k kd, m_edges (shrunk m e ed all tree x) !! k = Some kd -> k <> e /\ m_edges m !! k = Some kd) by (intros k kd; rewrite Ee; intros [Hne Hk]%lookup_delete_Some; done).
  assert (Nall : NoDup (e :: all)) by (rewrite <- Ha; apply (w_all_nodup _ W)). apply NoDup_cons in Nall as [Na1 Na2].
  assert (Ntree : NoDup (e :: tree)) by (rewrite <- Htr; by eapply w_nodup). apply NoDup_cons in Ntree as [Nt1 Nt2]. split.
  - by eapply names_before, W.
  - intros k. rewrite Ea, Ee. pose proof (w_all _ W k) as Hk. rewrite Ha, elem_of_cons in Hk. destruct (decide (k = e)) as [->|Hne]; [rewrite lookup_delete_eq; split; [done|by intros []]|].
    rewrite lookup_delete_ne by congruence. naive_solver.
  - by rewrite Ea.
  - intros k kd Hk. destruct (Hin k kd Hk) as [Hne Hk']. destruct (w_from _ W k kd Hk') as (y & Hy & Hky). destruct (node_after _ _ _ _ _ (e_from kd) R ltac:(by eexists)) as (y' & Hy' & Et).
    exists y'. split; [done|]. rewrite (Et y Hy). destruct (decide _) as [E|]; [|done]. rewrite E in Hy. replace y with x in Hky by congruence. rewrite Htr in Hky. by apply elem_of_cons in Hky as [|].
  - intros k kd Hk. destruct (Hin k kd Hk) as [Hne Hk']. destruct (node_after _ _ _ _ _ (e_to kd) R (w_to _ W k kd Hk')) as (y' & -> & _). by eexists.
  - intros n y' k Hy Hk. destruct (node_before _ _ _ _ _ _ _ R Hy) as (y & Hy0 & _ & Et). rewrite Et in Hk. rewrite Ee.
    assert (Hky : k ∈ n_edge_tree y /\ k <> e).
    { destruct (decide (n = e_from ed)) as [->|Hn].
      - replace y with x by congruence. rewrite Htr. split; [by right|]. by intros ->.
      - split; [done|]. intros ->. destruct (w_tree _ W n y e Hy0 Hk) as (kd & Hkd & Hf). congruence. }
    destruct Hky as [Hky Hne]. rewrite lookup_delete_ne by congruence. by eapply w_tree.
  - intros n y' Hy. destruct (node_before _ _ _ _ _ _ _ R Hy) as (y & Hy0 & _ & ->). destruct (decide _); [done|by eapply w_nodup].
  - intros k k' kd kd' Hk Hk'. apply (w_one _ W); [by apply Hin in Hk as []|by apply Hin in Hk' as []].
  - intros k kd Hk. apply (w_weight _ W k kd). by apply Hin in Hk as [].
Qed.

(** What [edge_del] does to the other side. *)
Definition del_reverse (o : option eid) (k : eid) (kd : edge_t) : option eid := if decide (o = Some k) then None else e_reverse kd.

Lemma del_reverse_ok o m :
  (forall r, o = Some r -> is_Some (m_edges m !! r)) ->
  exists m', match o with Some r => upd_edge r (set_e_reverse None) m | None => Done m end = Done m' /\ relinked (del_reverse o) m m'.
Proof.
  intros Ho. destruct o as [r|].
  - destruct (Ho r eq_refl) as [rd Hr]. destruct (upd_reverse r None m rd Hr) as (m' & -> & N & [T T'] & E). exists m'. split; [done|]. unfold relinked. splits; try done. intros k. rewrite E.
    destruct (m_edges m !! k) as [kd|]; [|done]. cbn. f_equal. unfold del_reverse. destruct (decide (k = r)) as [->|Hne]; [by rewrite decide_True|by rewrite decide_False by congruence].
  - exists m. split; [done|]. unfold relinked. splits; try done. intros k. by destruct (m_edges m !! k) as [[]|].
Qed.

Lemma del_linked m m1 e ed all tree x :
  trees_wf m -> linked m -> m_edges m !! e = Some ed -> relinked (del_reverse (e_reverse ed)) m m1 -> forall ed1, linked (shrunk m1 e ed1 all tree x).
Proof.
  intros W L He R ed1 k kd' r. unfold shrunk. cbn [m_edges set_m_edges]. intros [Hne Hk]%lookup_delete_Some.
  destruct (relinked_edge _ _ _ _ _ R Hk) as (kd & Hk0 & ->). cbn [e_reverse set_e_reverse e_from e_to]. unfold del_reverse. destruct (decide (e_reverse ed = Some k)) as [Ek|Ek].
  - split; [done|]. intros (rd & [Hre Hr]%lookup_delete_Some & Hf & Ht). destruct (relinked_edge _ _ _ _ _ R Hr) as (rd0 & Hr0 & ->). cbn [e_from e_to set_e_reverse] in *.
    apply (L e ed k He) in Ek as (kd2 & Hk2 & Hkf & Hkt). replace kd2 with kd in * by congruence. destruct Hre. eapply (w_one _ W e r); [done..|]. unfold ends. congruence.
  - rewrite (L k kd r Hk0). split.
    + intros (rd & Hr & Hf & Ht). assert (Hre : r <> e) by (intros ->; destruct Ek; apply (L e ed k He); exists kd; replace rd with ed in * by congruence; done).
      exists (set_e_reverse (del_reverse (e_reverse ed) r rd) rd). split; [|done]. apply lookup_delete_Some. split; [congruence|]. by apply (edge_relinked _ _ _ _ _ R).
    + intros (rd & [Hre Hr]%lookup_delete_Some & Hx). destruct (relinked_edge _ _ _ _ _ R Hr) as (rd0 & Hr0 & ->). by exists rd0.
Qed.

Lemma edge_del_ok m e ed :
  trees_wf m -> linked m -> m_edges m !! e = Some ed ->
  exists m' m1 all tree x, edge_del e m = Done m' /\ trees_wf m' /\ linked m' /\ relinked (del_reverse (e_reverse ed)) m m1 /\ m' = shrunk m1 e ed all tree x /\ m_nodes m !! e_from ed = Some x.
Proof.
  intros W L He. unfold edge_del, get_edge at 1. rewrite He. cbn [obind].
  destruct (del_reverse_ok (e_reverse ed) m) as (m1 & E1 & R1); [intros r Hr; apply (L e ed r He) in Hr as (rd & -> & _); by eexists|]. rewrite E1. cbn [obind]. clear E1.
  pose proof (relinked_wf _ _ _ R1 W) as W1. pose proof (edge_relinked _ _ _ _ _ R1 He) as He1. set (ed1 := set_e_reverse _ ed) in He1.
  assert (Hsame : forall k kd, m_edges m1 !! k = Some kd -> ends kd = ends ed1 -> k = e) by (intros k kd Hk Hend; by eapply (w_one _ W1)).
  destruct (tree_delete_ok (edge_weight_compare m1 e) e (m_edge_tree m1)) as (all & -> & Pa).
  { apply (w_all _ W1). by eexists. }
  { intros k Hk. apply (w_all _ W1) in Hk as [kd Hk]. destruct (edge_weight_compare_ok m1 e k ed1 kd (w_names _ W1) (wf_at _ _ _ W1 He1) (wf_at _ _ _ W1 Hk)) as (c & Ec & Hc).
    exists c. split; [done|]. rewrite Hc. split; [intros [_ Hend]; by eapply Hsame|intros ->; replace kd with ed1 by congruence; done]. }
  cbn [obind]. destruct (w_from _ W1 e ed1 He1) as (x & Hx & Hex). change (e_from ed1) with (e_from ed) in Hx. unfold get_node at 1. cbn [m_nodes set_m_edge_tree]. rewrite Hx. cbn [obind].
  assert (Hcmp : forall k kd, m_edges m1 !! k = Some kd -> edge_at (set_m_edge_tree all m1) k kd) by (intros k kd Hk; by apply (wf_at _ _ _ W1)).
  destruct (tree_delete_ok (edge_compare (set_m_edge_tree all m1) e) e (n_edge_tree x) Hex) as (tree & -> & Pt).
  { intros k Hk. destruct (w_tree _ W1 _ _ _ Hx Hk) as (kd & Hkd & Hf). destruct (edge_compare_ok (set_m_edge_tree all m1) e k ed1 kd (w_names _ W1) (Hcmp _ _ He1) (Hcmp _ _ Hkd)) as (c & Ec & Hc).
    exists c. split; [done|]. rewrite Hc. split; [intros Hto; eapply Hsame; [done|]; unfold ends; by rewrite Hto, Hf|intros ->; replace kd with ed1 by congruence; done]. }
  cbn [obind]. unfold upd_node, get_node. cbn [m_nodes set_m_edge_tree]. rewrite Hx. cbn [obind].
  eexists _, m1, all, tree, x. splits; [done| |by eapply (del_linked m m1)|done|done|by rewrite <- (proj1 R1)]. by apply (shrunk_wf m1 e ed1).
Qed.

(** ** The theorems *)

Lemma lookup_is m from to e ed :
  trees_wf m -> m_edges m !! e = Some ed -> e_from ed = from -> e_to ed = to -> lookup_edge m from to = Done (Some e).
Proof.
  intros W He <- <-. destruct (lookup_edge_ok m (e_from ed) (e_to ed) W) as (o & -> & Ho); [destruct (w_from _ W e ed He) as (x & -> & _); by eexists|by eapply w_to|].
  f_equal. apply Ho. by exists ed.
Qed.

(** Adding an edge between two nodes that no edge leads between keeps the trees
    of edges well formed and every edge linked to the one in the other direction,
    if there is one, and to nothing else; the new edge is found by its two ends,
    every other edge is still there, and the call returns.  The weights, of the new
    edge and of those in the trees, are between [-2 ^ 30] and [2 ^ 30] ([trees_wf],
    [fresh_edge]): beyond, the comparison of the weight tree is not an order
    ([edge_weights_overflow]). *)
Theorem edge_add_links_both_sides (m : mesh_t) (e : eid) (ed : edge_t) :
  trees_wf m -> linked m -> fresh_edge m e ed ->
  exists m', edge_add e (set_m_edges (<[e := ed]> (m_edges m)) m) = Done m' /\ trees_wf m' /\ linked m' /\
    lookup_edge m' (e_from ed) (e_to ed) = Done (Some e) /\
    forall k, (ends <$> m_edges m' !! k) = if decide (k = e) then Some (ends ed) else ends <$> m_edges m !! k.
Proof.
  intros W L F. destruct (edge_add_ok m e ed W L F) as (m' & all & tree & x & o & E & W' & L' & R). exists m'.
  assert (He : m_edges (grown m e ed all tree x) !! e = Some ed) by apply lookup_insert_eq.
  splits; try done; [by eapply lookup_is; [done|by apply (edge_relinked _ _ _ _ _ R He)|..]|].
  intros k. destruct R as (_ & _ & Ek). rewrite Ek. unfold grown. cbn [m_edges set_m_nodes set_m_edge_tree set_m_edges]. destruct (decide (k = e)) as [->|Hne].
  - by rewrite lookup_insert_eq.
  - rewrite lookup_insert_ne by congruence. by destruct (m_edges m !! k).
Qed.

(** Removing an edge keeps the trees well formed and the other edges linked: the
    edge in the other direction has no reverse any more, the edge is not found by
    its ends, no tree refers to the freed object, and the call returns.  The weights in the
    trees are bounded as before ([trees_wf]). *)
Theorem edge_del_unlinks_both_sides (m : mesh_t) (e : eid) (ed : edge_t) :
  trees_wf m -> linked m -> m_edges m !! e = Some ed ->
  exists m', edge_del e m = Done m' /\ trees_wf m' /\ linked m' /\ e ∉ m_edge_tree m' /\
    lookup_edge m' (e_from ed) (e_to ed) = Done None /\
    (forall r rd, m_edges m' !! r = Some rd -> e_reverse rd <> Some e) /\
    forall k, (ends <$> m_edges m' !! k) = if decide (k = e) then None else ends <$> m_edges m !! k.
Proof.
  intros W L He. destruct (edge_del_ok m e ed W L He) as (m' & m1 & all & tree & x & E & W' & L' & R & Em & _). exists m'.
  assert (Hk : forall k, m_edges m' !! k = if decide (k = e) then None else m_edges m1 !! k).
  { intros k. rewrite Em. unfold shrunk. cbn [m_edges set_m_edges]. destruct (decide (k = e)) as [->|Hne]; [apply lookup_delete_eq|by rewrite lookup_delete_ne by congruence]. }
  assert (Hgone : m_edges m' !! e = None) by (rewrite Hk; by destruct (decide (e = e))).
  assert (Hns : forall n, is_Some (m_nodes m !! n) -> is_Some (m_nodes m' !! n)).
  { intros n Hn. rewrite Em. unfold shrunk. cbn [m_nodes set_m_edges set_m_nodes]. rewrite (proj1 R). destruct (decide (n = e_from ed)) as [->|Hne]; [rewrite lookup_insert_eq; by eexists|by rewrite lookup_insert_ne by congruence]. }
  assert (Hends : forall k, (ends <$> m_edges m' !! k) = if decide (k = e) then None else ends <$> m_edges m !! k).
  { intros k. rewrite Hk. destruct (decide (k = e)); [done|]. destruct R as (_ & _ & ->). by destruct (m_edges m !! k). }
  splits; try done.
  - rewrite (w_all _ W'), Hgone. by intros [].
  - destruct (lookup_edge_ok m' (e_from ed) (e_to ed) W') as ([r|] & -> & Ho); [apply Hns; destruct (w_from _ W e ed He) as (y & -> & _); by eexists|apply Hns; by eapply w_to| |done].
    destruct (proj1 (Ho r) eq_refl) as (rd & Hr & Hf & Ht). specialize (Hends r). rewrite Hr in Hends. destruct (decide (r = e)); [done|]. destruct (m_edges m !! r) as [rd0|] eqn:Hr0; [|done].
    cbn in Hends. injection Hends as Ef Et. assert (r = e) by (eapply (w_one _ W); [done..|]; unfold ends; congruence). done.
  - intros r rd Hr Hrev. apply (L' r rd e Hr) in Hrev as (x' & Hx' & _). congruence.
Qed.

(** ** Forgetting a node *)

(** Removing edges of one node one by one. *)
Lemma edges_del_ok es : forall m,
  trees_wf m -> linked m -> NoDup es -> (forall e, e ∈ es -> is_Some (m_edges m !! e)) ->
  exists m', each edge_del es m = Done m' /\ trees_wf m' /\ linked m' /\ m_node_tree m' = m_node_tree m /\
    (forall k, (ends <$> m_edges m' !! k) = if decide (k ∈ es) then None else ends <$> m_edges m !! k) /\
    (forall k, n_name <$> m_nodes m' !! k = n_name <$> m_nodes m !! k).
Proof.
  induction es as [|e es IH]; intros m W L Hnd Hes.
  - exists m. splits; done.
  - apply NoDup_cons in Hnd as [Hne Hnd]. destruct (Hes e ltac:(by left)) as [ed He]. cbn [each].
    destruct (edge_del_ok m e ed W L He) as (m1 & m0 & all & tree & x & -> & W1 & L1 & R & Em & Hx). cbn [obind].
    assert (Hend : forall k, (ends <$> m_edges m1 !! k) = if decide (k = e) then None else ends <$> m_edges m !! k).
    { intros k. rewrite Em. unfold shrunk. cbn [m_edges set_m_edges]. destruct (decide (k = e)) as [->|Hk]; [by rewrite lookup_delete_eq|]. rewrite lookup_delete_ne by congruence. destruct R as (_ & _ & ->). by destruct (m_edges m !! k). }
    destruct (IH m1 W1 L1 Hnd) as (m' & E & W' & L' & Et & Ek & En).
    { intros k Hk. specialize (Hend k). destruct (decide (k = e)) as [->|]; [done|]. destruct (Hes k ltac:(by right)) as [kd Hkd]. rewrite Hkd in Hend. destruct (m_edges m1 !! k); [by eexists|done]. }
    exists m'. splits; try done.
    + rewrite Et, Em. apply R.
    + intros k. rewrite Ek, Hend. destruct (decide (k = e)) as [->|Hk].
      * rewrite (decide_True (P := e ∈ e :: es)) by (by left). by destruct (decide (e ∈ es)).
      * destruct (decide (k ∈ es)) as [Hin|Hin]; [by rewrite decide_True by (by right)|rewrite decide_False; [done|]]. intros Hc. by apply elem_of_cons in Hc as [|].
    + intros k. rewrite En, Em. unfold shrunk. cbn [m_nodes set_m_edges set_m_nodes]. rewrite (proj1 R).
      destruct (decide (k = e_from ed)) as [->|Hk]; [by rewrite lookup_insert_eq, Hx|by rewrite lookup_insert_ne by congruence].
Qed.

(** [node_del] removes the edges of the node; the edges of other nodes that lead to it
    stay in their trees, with a pointer to the freed node. *)
Theorem node_del_leaves_dangling_edge (m : mesh_t) (n : nid) (e : eid) (ed : edge_t) :
  trees_wf m -> linked m -> n ∈ m_node_tree m -> (forall k, k ∈ m_node_tree m -> is_Some (m_nodes m !! k)) ->
  m_edges m !! e = Some ed -> e_to ed = n -> e_from ed <> n ->
  exists m' ed', node_del n m = Done m' /\ m_nodes m' !! n = None /\ m_edges m' !! e = Some ed' /\ e_to ed' = n.
Proof.
  intros W L Hn Ht He Hto Hfrom. destruct (Ht n Hn) as [x Hx]. unfold node_del, get_node at 1. cbn [m_nodes emit set_m_log]. rewrite Hx. cbn [obind].
  set (m1 := emit _ m). assert (W1 : trees_wf m1) by (by destruct W). assert (L1 : linked m1) by exact L.
  destruct (edges_del_ok (n_edge_tree x) m1 W1 L1 (w_nodup _ W n x Hx)) as (m2 & -> & W2 & L2 & Et & Ek & En).
  { intros k Hk. destruct (w_tree _ W n x k Hx Hk) as (kd & Hkd & _). by eexists. }
  cbn [obind]. assert (Hname : forall k, is_Some (m_nodes m2 !! k) <-> is_Some (m_nodes m !! k)).
  { intros k. specialize (En k). cbn [m1 emit set_m_log m_nodes] in En. destruct (m_nodes m2 !! k), (m_nodes m !! k); try done; split; by eexists. }
  destruct (Hname n) as [_ Hn2]. destruct Hn2 as [y Hy]; [by eexists|].
  destruct (tree_delete_ok (node_compare m2 n) n (m_node_tree m2)) as (t & -> & _); [by rewrite Et| |].
  { intros k Hk. rewrite Et in Hk. destruct (proj2 (Hname k) (Ht k Hk)) as [z Hz]. unfold node_compare, get_node. rewrite Hy, Hz. eexists. split; [done|].
    rewrite (name_cmp m2 n k y z (w_names _ W2) Hy Hz). done. }
  cbn [obind]. unfold free_node, get_node. cbn [m_nodes set_m_node_tree]. rewrite Hy. cbn [obind].
  assert (Hnone : n_edge_tree y = []).
  { destruct (n_edge_tree y) as [|k l] eqn:Ey; [done|]. destruct (w_tree _ W2 n y k Hy) as (kd & Hkd & Hf); [rewrite Ey; by left|]. specialize (Ek k). rewrite Hkd in Ek.
    destruct (decide (k ∈ n_edge_tree x)) as [|Hin]; [done|]. cbn [m1 emit set_m_log m_edges] in Ek. destruct (m_edges m !! k) as [kd0|] eqn:Hk0; [|done]. cbn in Ek.
    destruct (w_from _ W k kd0 Hk0) as (x' & Hx' & Hin'). destruct Hin. injection Ek as Ef _. rewrite <- Ef, Hf in Hx'. congruence. }
  rewrite Hnone. cbn [each obind]. specialize (Ek e). cbn [m1 emit set_m_log m_edges] in Ek. rewrite He in Ek. rewrite decide_False in Ek.
  - destruct (m_edges m2 !! e) as [ed'|] eqn:He'; [|done]. cbn in Ek. injection Ek as Ef Ett.
    eexists _, ed'. split; [done|]. destruct (n_utcp y); cbn [m_nodes m_edges set_m_nodes emit set_m_log set_m_node_tree]; rewrite lookup_delete_eq; splits; try done; congruence.
  - intros Hin. destruct (w_tree _ W n x e Hx Hin) as (kd & Hkd & Hf). congruence.
Qed.

(** Two nodes, and two edges between them. *)
Definition two_nodes (a b : list eid) (edges : list (eid * edge_t)) (all : list eid) : mesh_t :=
  let node name tree := NodeT [name] false false false false false false false false 0 0 0 SaUnspec false 0 0 0 [] 0 0 0 None None tree in
  MeshT (list_to_map [(1%positive, node 97 a); (2%positive, node 98 b)]) [1%positive; 2%positive] (list_to_map edges) all 1%positive true 0 (hash_alloc 4 2) [] 0 0 false false true true [].

Definition edge_12 (r : option eid) : edge_t := EdgeT 1%positive 2%positive SaUnspec r 3 7.
Definition edge_21 (r : option eid) : edge_t := EdgeT 2%positive 1%positive SaUnspec r 3 8.

Definition one_edge : mesh_t := two_nodes [1%positive] [] [(1%positive, edge_12 None)] [1%positive].

Lemma one_edge_wf : trees_wf one_edge /\ linked one_edge.
Proof.
  split; [split|].
  - intros n n' x x' Hx Hx' En. cbn in Hx, Hx'. lookup_cases Hx; lookup_cases Hx'; done.
  - intros e. cbn. split; [intros He; apply list_elem_of_singleton in He as ->; by eexists|intros [ed He]; lookup_cases He; set_solver].
  - apply NoDup_singleton.
  - intros e ed He. cbn in He. lookup_cases He. eexists. split; [done|]. cbn. set_solver.
  - intros e ed He. cbn in He. lookup_cases He. by eexists.
  - intros n x e Hx He. cbn in Hx. lookup_cases Hx; cbn in He; [apply list_elem_of_singleton in He as ->; by eexists|by apply not_elem_of_nil in He].
  - intros n x Hx. cbn in Hx. lookup_cases Hx; cbn; [apply NoDup_singleton|apply NoDup_nil_2].
  - intros e e' ed ed' He He' _. cbn in He, He'. lookup_cases He; lookup_cases He'; done.
  - intros e ed He. cbn in He. lookup_cases He. cbn. lia.
  - intros e ed r He. cbn in He. lookup_cases He. cbn. split; [done|]. intros (rd & Hr & Hf & _). lookup_cases Hr; done.
Qed.

Lemma edge_add_links_both_sides_witness :
  exists m', edge_add 2%positive (set_m_edges (<[2%positive := edge_21 None]> (m_edges one_edge)) one_edge) = Done m' /\ linked m' /\
    (e_reverse <$> m_edges m' !! 1%positive) = Some (Some 2%positive).
Proof.
  assert (F : fresh_edge one_edge 2%positive (edge_21 None)).
  { split; [done|]. split; [by eexists|]. split; [by eexists|]. split; [cbn; lia|]. intros e' ed' He. cbn in He. lookup_cases He. done. }
  destruct (edge_add_links_both_sides one_edge 2%positive (edge_21 None) (proj1 one_edge_wf) (proj2 one_edge_wf) F) as (m' & E & _ & L & _). exists m'. split; [exact E|]. split; [exact L|].
  revert E. vm_compute. intros [= <-]. reflexivity.
Defined.

Lemma edge_del_unlinks_both_sides_witness : exists m', edge_del 1%positive one_edge = Done m' /\ linked m' /\ m_edge_tree m' = [].
Proof.
  destruct (edge_del_unlinks_both_sides one_edge 1%positive (edge_12 None) (proj1 one_edge_wf) (proj2 one_edge_wf) eq_refl) as (m' & E & _ & L & _). exists m'. split; [exact E|]. split; [exact L|].
  revert E. vm_compute. intros [= <-]. reflexivity.
Defined.

Lemma node_del_leaves_dangling_edge_witness :
  exists m' ed', node_del 2%positive one_edge = Done m' /\ m_nodes m' !! 2%positive = None /\ m_edges m' !! 1%positive = Some ed' /\ e_to ed' = 2%positive.
Proof.
  apply (node_del_leaves_dangling_edge one_edge 2%positive 1%positive (edge_12 None) (proj1 one_edge_wf) (proj2 one_edge_wf)); try done.
  - cbn. set_solver.
  - intros k Hk. cbn in Hk. repeat (apply elem_of_cons in Hk as [->|Hk]; [by eexists|]). by apply not_elem_of_nil in Hk.
Defined.
