(* ===== verification/Mdns.v ===== *)
(** Multicast DNS packets (src/src/mdns.c).

    A buffer is the caller's object with the offset of [ptr] in it; a C string is the
    list of its bytes before the terminating zero, as are the strings that the parser
    allocates.  [ptrdiff_t] has 64 bits, so that the comparison of a negative length
    with a [uint32_t] is signed.  A reader or writer that fails sets [len] to -1, and
    every later call keeps it so. *)
From S2P Require Import Prelude Bytes.

Definition no_nul (s : list Z) : Prop := Forall (fun c => 0 < c < 256) s.

(** ** Creating a buffer *)

Record buf_t := Buf { bf_mem : list Z; bf_ptr : Z; bf_len : Z }.

Definition buf_fail (b : buf_t) : buf_t := Buf (bf_mem b) (bf_ptr b) (-1).

Definition buf_add (b : buf_t) (data : list Z) : outcome buf_t :=
  if zlen data <=? bf_len b then
    let* m := mem_write (bf_mem b) (bf_ptr b) data in
    Done (Buf m (bf_ptr b + zlen data) (bf_len b - zlen data))
  else Done (buf_fail b).

Definition buf_add_uint8 (b : buf_t) (val : Z) : outcome buf_t :=
  if 1 <=? bf_len b then
    let* m := mem_write (bf_mem b) (bf_ptr b) [u8 val] in
    Done (Buf m (bf_ptr b + 1) (bf_len b - 1))
  else Done (buf_fail b).

(** [htons] and [htonl]: the bytes in memory are those of the big-endian number. *)
Definition buf_add_uint16 (b : buf_t) (val : Z) : outcome buf_t := buf_add b (be_bytes 2 (u16 val)).
Definition buf_add_uint32 (b : buf_t) (val : Z) : outcome buf_t := buf_add b (be_bytes 4 (u32 val)).

Definition buf_add_label (b : buf_t) (str : list Z) : outcome buf_t :=
  let len := zlen str in
  if len <? 256 then let* b := buf_add_uint8 b len in buf_add b str else Done (buf_fail b).

Definition buf_add_ulabel (b : buf_t) (str : list Z) : outcome buf_t :=
  let len := zlen str in
  if len + 1 <? 256 then
    let* b := buf_add_uint8 b (len + 1) in
    let* b := buf_add_uint8 b 95 in
    buf_add b str
  else Done (buf_fail b).

Definition buf_add_kvp (b : buf_t) (key val : list Z) : outcome buf_t :=
  let key_len := zlen key in
  let val_len := zlen val in
  if key_len + val_len + 1 <? 256 then
    let* b := buf_add_uint8 b (key_len + val_len + 1) in
    let* b := buf_add b key in
    let* b := buf_add_uint8 b 61 in
    buf_add b val
  else Done (buf_fail b).

Definition buf_len_start (b : buf_t) : option Z * buf_t :=
  if bf_len b <? 2 then (None, buf_fail b)
  else (Some (bf_ptr b), Buf (bf_mem b) (bf_ptr b + 2) (bf_len b - 2)).

Definition buf_len_end (b : buf_t) (ptr : option Z) : outcome buf_t :=
  if bf_len b <? 0 then Done b
  else match ptr with
  | None => Stop OutOfBounds
  | Some p => let* m := mem_write (bf_mem b) p (be_bytes 2 (u16 (bf_ptr b - p - 2))) in Done (Buf m (bf_ptr b) (bf_len b))
  end.

(** What is added between the two, with its length in front. *)
Definition with_len (body : buf_t -> outcome buf_t) (b : buf_t) : outcome buf_t :=
  let '(len_ptr, b) := buf_len_start b in
  let* b := body b in
  buf_len_end b len_ptr.

(** ** Reading a buffer *)

Record cbuf_t := CBuf { cb_mem : list Z; cb_ptr : Z; cb_len : Z }.

Definition cbuf_fail (b : cbuf_t) : cbuf_t := CBuf (cb_mem b) (cb_ptr b) (-1).
Definition cbuf_skip (n : Z) (b : cbuf_t) : cbuf_t := CBuf (cb_mem b) (cb_ptr b + n) (cb_len b - n).

Definition buf_check (b : cbuf_t) (data : list Z) : outcome cbuf_t :=
  if zlen data <=? cb_len b then
    let* d := mem_read (cb_mem b) (cb_ptr b) (zlen data) in
    Done (if decide (d = data) then cbuf_skip (zlen data) b else cbuf_fail b)
  else Done (cbuf_fail b).

Definition buf_check_uint8 (b : cbuf_t) (val : Z) : outcome cbuf_t :=
  if 1 <=? cb_len b then
    let* d := mem_read (cb_mem b) (cb_ptr b) 1 in
    Done (if decide (d = [u8 val]) then cbuf_skip 1 b else cbuf_fail b)
  else Done (cbuf_fail b).

Definition buf_check_uint16 (b : cbuf_t) (val : Z) : outcome cbuf_t := buf_check b (be_bytes 2 (u16 val)).
Definition buf_check_uint32 (b : cbuf_t) (val : Z) : outcome cbuf_t := buf_check b (be_bytes 4 (u32 val)).

Definition buf_get_uint16 (b : cbuf_t) : outcome (Z * cbuf_t) :=
  if 2 <=? cb_len b then
    let* d := mem_read (cb_mem b) (cb_ptr b) 2 in
    Done (be_val d, cbuf_skip 2 b)
  else Done (0, cbuf_fail b).

Definition buf_check_label (b : cbuf_t) (str : list Z) : outcome cbuf_t :=
  let len := zlen str in
  if len <? 256 then let* b := buf_check_uint8 b len in buf_check b str else Done (cbuf_fail b).

Definition buf_check_ulabel (b : cbuf_t) (str : list Z) : outcome cbuf_t :=
  let len := zlen str in
  if len + 1 <? 256 then
    let* b := buf_check_uint8 b (len + 1) in
    let* b := buf_check_uint8 b 95 in
    buf_check b str
  else Done (cbuf_fail b).

(** The string in an array of characters: up to the first zero. *)
Fixpoint cstr (l : list Z) : list Z :=
  match l with [] => [] | c :: l => if c =? 0 then [] else c :: cstr l end.

(** The copy of the label with a zero behind it, as a string. *)
Definition buf_get_label (b : cbuf_t) : outcome (option (list Z) * cbuf_t) :=
  if cb_len b <? 1 then Done (None, cbuf_fail b)
  else
    let* d := mem_read (cb_mem b) (cb_ptr b) 1 in
    let len := default 0 (head d) in
    let b := cbuf_skip 1 b in
    if cb_len b <? len then Done (None, cbuf_fail b)
    else
      let* l := mem_read (cb_mem b) (cb_ptr b) len in
      Done (Some (cstr l), cbuf_skip len b).

(** [strchr(s, '=')]: the text before the first sign and the text after it. *)
Fixpoint split_eq (s : list Z) : option (list Z * list Z) :=
  match s with
  | [] => None
  | c :: s => if c =? 61 then Some ([], s) else (fun '(k, v) => (c :: k, v)) <$> split_eq s
  end.

(** The new contents of [*val], if they are stored. *)
Definition buf_get_kvp (b : cbuf_t) (key : list Z) (val : option (list Z)) : outcome (option (list Z) * cbuf_t) :=
  let* (kvp, b) := buf_get_label b in
  if cb_len b =? -1 then Done (val, b)
  else match kvp with
  | None => Stop OutOfBounds
  | Some kvp =>
      match split_eq kvp with
      | None => Done (val, cbuf_fail b)
      | Some (k, v) => if decide (k = key) then Done (Some v, b) else Done (val, cbuf_fail b)
      end
  end.

Definition buf_check_len_start (b : cbuf_t) : option Z * cbuf_t :=
  if cb_len b <? 2 then (None, cbuf_fail b) else (Some (cb_ptr b), cbuf_skip 2 b).

Definition buf_check_len_end (b : cbuf_t) (ptr : option Z) : outcome cbuf_t :=
  if cb_len b <? 0 then Done b
  else match ptr with
  | None => Stop OutOfBounds
  | Some p =>
      let* d := mem_read (cb_mem b) p 2 in
      Done (if decide (d = be_bytes 2 (u16 (cb_ptr b - p - 2))) then b else cbuf_fail b)
  end.

(** ** Packets *)

Definition local_ : list Z := [108; 111; 99; 97; 108].

(** Several values of 16 bits in a row. *)
Fixpoint add_words (l : list Z) (b : buf_t) : outcome buf_t :=
  match l with [] => Done b | v :: l => let* b := buf_add_uint16 b v in add_words l b end.

Fixpoint check_words (l : list Z) (b : cbuf_t) : outcome cbuf_t :=
  match l with [] => Done b | v :: l => let* b := buf_check_uint16 b v in check_words l b end.

(** What the functions return: the number of bytes that were written. *)
Definition finish (b : buf_t) : Z * list Z := (if bf_len b <? 0 then 0 else bf_ptr b, bf_mem b).

Definition prepare_request (data : list Z) (protocol transport : list Z) : outcome (Z * list Z) :=
  let b := Buf data 0 (zlen data) in
  let* b := add_words [0; 0; 1; 0; 0; 0] b in
  let* b := buf_add_ulabel b protocol in
  let* b := buf_add_ulabel b transport in
  let* b := buf_add_label b local_ in
  let* b := buf_add_uint8 b 0 in
  let* b := add_words [0xc; 0x1] b in
  Done (finish b).

Definition parse_request (data : list Z) (protocol transport : list Z) : outcome bool :=
  let b := CBuf data 0 (zlen data) in
  let* (_, b) := buf_get_uint16 b in
  let* b := check_words [0; 1] b in
  let* (_, b) := buf_get_uint16 b in
  let* (_, b) := buf_get_uint16 b in
  let* (_, b) := buf_get_uint16 b in
  if cb_len b =? -1 then Done false
  else
    let* b := buf_check_ulabel b protocol in
    let* b := buf_check_ulabel b transport in
    let* b := buf_check_label b local_ in
    let* b := buf_check_uint8 b 0 in
    let* b := check_words [0xc; 0x1] b in
    Done (negb (cb_len b =? -1)).

Fixpoint add_kvps (kvs : list (list Z * list Z)) (b : buf_t) : outcome buf_t :=
  match kvs with [] => Done b | (k, v) :: kvs => let* b := buf_add_kvp b k v in add_kvps kvs b end.

(** The TXT record; the offsets of the full name, of the protocol and of "local". *)
Definition add_txt (name protocol transport : list Z) (kvs : list (list Z * list Z)) (b : buf_t) : outcome (Z * Z * Z * buf_t) :=
  let full_name := u16 (bf_ptr b) in
  let* b := buf_add_label b name in
  let protocol_offset := u16 (bf_ptr b) in
  let* b := buf_add_ulabel b protocol in
  let* b := buf_add_ulabel b transport in
  let local_offset := u16 (bf_ptr b) in
  let* b := buf_add_label b local_ in
  let* b := buf_add_uint8 b 0 in
  let* b := add_words [0x10; 0x1] b in
  let* b := buf_add_uint32 b 3600 in
  let* b := with_len (add_kvps kvs) b in
  Done (full_name, protocol_offset, local_offset, b).

Definition add_ptr (full_name protocol_offset : Z) (b : buf_t) : outcome buf_t :=
  let* b := add_words [Z.lor 0xc000 protocol_offset; 0xc; 0x8001] b in
  let* b := buf_add_uint32 b 3600 in
  with_len (fun b => buf_add_uint16 b (Z.lor 0xc000 full_name)) b.

Definition add_srv (full_name local_offset port : Z) (name : list Z) (b : buf_t) : outcome buf_t :=
  let* b := add_words [Z.lor 0xc000 full_name; 0x21; 0x8001] b in
  let* b := buf_add_uint32 b 120 in
  with_len (fun b =>
    let* b := add_words [0; 0; port] b in
    let* b := buf_add_label b name in
    buf_add_uint16 b (Z.lor 0xc000 local_offset)) b.

Definition prepare_response (data : list Z) (name protocol transport : list Z) (port : Z) (kvs : list (list Z * list Z)) : outcome (Z * list Z) :=
  let b := Buf data 0 (zlen data) in
  let* b := add_words [0; 0x8400; 0; 3; 0; 0] b in
  let* (full_name, protocol_offset, local_offset, b) := add_txt name protocol transport kvs b in
  let* b := add_ptr full_name protocol_offset b in
  let* b := add_srv full_name local_offset port name b in
  Done (finish b).

(** The values are those of the caller's array, [None] for NULL. *)
Fixpoint get_kvps (keys : list (list Z)) (values : list (option (list Z))) (b : cbuf_t) : outcome (list (option (list Z)) * cbuf_t) :=
  match keys with
  | [] => Done (values, b)
  | k :: keys =>
      match values with
      | [] => Stop OutOfBounds
      | v :: values =>
          let* (v, b) := buf_get_kvp b k v in
          let* (vs, b) := get_kvps keys values b in
          Done (v :: vs, b)
      end
  end.

(** What [parse_response] has stored when it returns. *)
Record answer := Answer { a_result : bool; a_name : option (list Z); a_port : Z; a_values : list (option (list Z)) }.

Definition check_txt (protocol transport : list Z) (keys : list (list Z)) (values : list (option (list Z))) (b : cbuf_t)
  : outcome (Z * Z * Z * option (list Z) * list (option (list Z)) * cbuf_t) :=
  let full_name := u16 (cb_ptr b) in
  let* (name, b) := buf_get_label b in
  let protocol_offset := u16 (cb_ptr b) in
  let* b := buf_check_ulabel b protocol in
  let* b := buf_check_ulabel b transport in
  let local_offset := u16 (cb_ptr b) in
  let* b := buf_check_label b local_ in
  let* b := buf_check_uint8 b 0 in
  let* b := check_words [0x10; 0x1] b in
  let* b := buf_check_uint32 b 3600 in
  let '(len_ptr, b) := buf_check_len_start b in
  let* (values, b) := get_kvps keys values b in
  let* b := buf_check_len_end b len_ptr in
  Done (full_name, protocol_offset, local_offset, name, values, b).

Definition check_ptr (full_name protocol_offset : Z) (b : cbuf_t) : outcome cbuf_t :=
  let* b := check_words [Z.lor 0xc000 protocol_offset; 0xc; 0x8001] b in
  let* b := buf_check_uint32 b 3600 in
  let '(len_ptr, b) := buf_check_len_start b in
  let* b := buf_check_uint16 b (Z.lor 0xc000 full_name) in
  buf_check_len_end b len_ptr.

(** [strlen] of the name is taken without a test for NULL. *)
Definition check_srv (full_name local_offset : Z) (name : option (list Z)) (b : cbuf_t) : outcome (Z * cbuf_t) :=
  let* b := check_words [Z.lor 0xc000 full_name; 0x21; 0x8001] b in
  let* b := buf_check_uint32 b 120 in
  let '(len_ptr, b) := buf_check_len_start b in
  let* b := check_words [0; 0] b in
  let* (port, b) := buf_get_uint16 b in
  let* name := match name with Some s => Done s | None => Stop OutOfBounds end in
  let* b := buf_check_label b name in
  let* b := buf_check_uint16 b (Z.lor 0xc000 local_offset) in
  let* b := buf_check_len_end b len_ptr in
  Done (port, b).

Definition parse_response (data : list Z) (name : option (list Z)) (protocol transport : list Z) (port : Z) (keys : list (list Z)) (values : list (option (list Z))) : outcome answer :=
  let b := CBuf data 0 (zlen data) in
  let* b := check_words [0; 0x8400; 0; 3; 0; 0] b in
  if cb_len b =? -1 then Done (Answer false name port values)
  else
    let* (full_name, protocol_offset, local_offset, name, values, b) := check_txt protocol transport keys values b in
    if cb_len b =? -1 then Done (Answer false name port values)
    else
      let* b := check_ptr full_name protocol_offset b in
      if cb_len b =? -1 then Done (Answer false name port values)
      else
        let* (port, b) := check_srv full_name local_offset name b in
        Done (Answer (cb_len b =? 0) name port values).
