(* ===== verification/MdnsTheorems.v ===== *)
(** What mdns.c writes and reads: the bytes of the packets, that the parser takes
    what was prepared, and that it stays inside packets of any origin. *)
From S2P Require Import Prelude Bytes Mdns.

(** ** Readers of any packet *)

Definition cb_ok (b : cbuf_t) : Prop := bytes_ok (cb_mem b) /\ (cb_len b = -1 \/ (0 <= cb_ptr b /\ 0 <= cb_len b /\ cb_ptr b + cb_len b = zlen (cb_mem b))).

(** A reader keeps the buffer in order, and a failure stays. *)
Definition moved (b b' : cbuf_t) : Prop := cb_ok b' /\ cb_mem b' = cb_mem b /\ (cb_len b = -1 -> cb_len b' = -1).

Lemma moved_refl b : cb_ok b -> moved b b.
Proof. by intros H. Qed.

Lemma moved_trans a b c : moved a b -> moved b c -> moved a c.
Proof. intros (H1 & H2 & H3) (H4 & H5 & H6). split; [done|]. split; [congruence|auto]. Qed.

Lemma moved_fail b : cb_ok b -> moved b (cbuf_fail b).
Proof. intros [H _]. split; [split; [done|by left]|done]. Qed.

Lemma moved_skip n b : cb_ok b -> 0 <= n <= cb_len b -> moved b (cbuf_skip n b).
Proof. intros [H [Hl|(H1 & H2 & H3)]] Hn; [lia|]. split; [split; [done|right; cbn; lia]|]. split; [done|]. cbn. lia. Qed.

Lemma read_at b n : cb_ok b -> 0 <= n <= cb_len b -> exists d, mem_read (cb_mem b) (cb_ptr b) n = Done d /\ zlen d = n /\ bytes_ok d.
Proof.
  intros [H [Hl|(H1 & H2 & H3)]] Hn; [lia|]. rewrite mem_read_ok by lia. eexists. split; [done|]. split.
  - unfold zlen in *. rewrite length_take, length_drop. lia.
  - unfold bytes_ok. by apply Forall_take, Forall_drop.
Qed.

Lemma buf_check_moved b data : cb_ok b -> returns (buf_check b data) (moved b).
Proof.
  intros H. unfold buf_check. destruct (Z.leb_spec (zlen data) (cb_len b)); [|by apply moved_fail].
  assert (0 <= zlen data) by (unfold zlen; lia). destruct (read_at b (zlen data) H) as (d & -> & _); [lia|]. cbn [obind returns].
  destruct (decide _); [by apply moved_skip|by apply moved_fail].
Qed.

Lemma buf_check_uint8_moved b v : cb_ok b -> returns (buf_check_uint8 b v) (moved b).
Proof.
  intros H. unfold buf_check_uint8. destruct (Z.leb_spec 1 (cb_len b)); [|by apply moved_fail].
  destruct (read_at b 1 H) as (d & -> & _); [lia|]. cbn [obind returns]. destruct (decide _); [apply moved_skip; [done|lia]|by apply moved_fail].
Qed.

(** One reader after another. *)
Lemma moved_bind b (f : outcome cbuf_t) (g : cbuf_t -> outcome cbuf_t) :
  returns f (moved b) -> (forall b', cb_ok b' -> returns (g b') (moved b')) -> returns (let* b := f in g b) (moved b).
Proof.
  intros Hf Hg. eapply returns_bind; [exact Hf|]. intros b' Hb. cbn beta in Hb. specialize (Hg b' (proj1 Hb)). destruct (g b'); [|done]. by eapply moved_trans.
Qed.

Lemma buf_check_label_moved b s : cb_ok b -> returns (buf_check_label b s) (moved b).
Proof.
  intros H. unfold buf_check_label. destruct (zlen s <? 256); [|by apply moved_fail]. apply moved_bind; [by apply buf_check_uint8_moved|]. intros b' H'. by apply buf_check_moved.
Qed.

Lemma buf_check_ulabel_moved b s : cb_ok b -> returns (buf_check_ulabel b s) (moved b).
Proof.
  intros H. unfold buf_check_ulabel. destruct (zlen s + 1 <? 256); [|by apply moved_fail]. apply moved_bind; [by apply buf_check_uint8_moved|]. intros b' H'.
  apply moved_bind; [by apply buf_check_uint8_moved|]. intros. by apply buf_check_moved.
Qed.

Lemma check_words_moved l : forall b, cb_ok b -> returns (check_words l b) (moved b).
Proof. induction l as [|v l IH]; intros b H; [by apply moved_refl|]. cbn [check_words]. apply moved_bind; [by apply buf_check_moved|done]. Qed.

Lemma buf_get_uint16_moved b : cb_ok b -> returns (buf_get_uint16 b) (fun '(_, b') => moved b b').
Proof.
  intros H. unfold buf_get_uint16. destruct (Z.leb_spec 2 (cb_len b)); [|by apply moved_fail]. destruct (read_at b 2 H) as (d & -> & _); [lia|]. cbn [obind returns]. apply moved_skip; [done|lia].
Qed.

Lemma buf_get_label_moved b : cb_ok b -> returns (buf_get_label b) (fun '(o, b') => moved b b' /\ (cb_len b' <> -1 -> is_Some o)).
Proof.
  intros H. unfold buf_get_label. destruct (Z.ltb_spec (cb_len b) 1); [split; [by apply moved_fail|done]|]. destruct (read_at b 1 H) as (d & -> & Hd & Hb); [lia|]. cbn [obind].
  assert (Hl : 0 <= default 0 (head d) < 256) by (destruct Hb as [|c l Hc _]; [done|done]). set (n := default 0 (head d)) in *.
  pose proof (moved_skip 1 b H ltac:(lia)) as M1. destruct (Z.ltb_spec (cb_len (cbuf_skip 1 b)) n); [split; [eapply moved_trans; [exact M1|by apply moved_fail, M1]|done]|].
  destruct (read_at (cbuf_skip 1 b) n (proj1 M1)) as (l & -> & _); [lia|]. cbn [obind returns]. split; [|by eexists]. eapply moved_trans; [exact M1|]. apply moved_skip; [apply M1|lia].
Qed.

Lemma buf_get_kvp_moved b key val : cb_ok b -> returns (buf_get_kvp b key val) (fun '(_, b') => moved b b').
Proof.
  intros H. unfold buf_get_kvp. eapply returns_bind; [by apply buf_get_label_moved|]. intros [o b'] [M Ho]. destruct (Z.eqb_spec (cb_len b') (-1)); [done|].
  destruct (Ho n) as [s ->]. assert (F : moved b (cbuf_fail b')) by (eapply moved_trans; [exact M|apply moved_fail, M]).
  destruct (split_eq s) as [[k v]|]; [|done]. by destruct (decide (k = key)).
Qed.

Lemma get_kvps_moved keys : forall values b,
  cb_ok b -> (length keys <= length values)%nat -> returns (get_kvps keys values b) (fun '(vs, b') => moved b b').
Proof.
  induction keys as [|k keys IH]; intros values b H Hl; [by apply moved_refl|]. destruct values as [|v values]; [cbn in Hl; lia|]. cbn [get_kvps].
  eapply returns_bind; [by apply buf_get_kvp_moved|]. intros [v' b1] M1. cbn in Hl. eapply returns_bind; [apply IH; [apply M1|lia]|]. intros [vs b2] M2. cbn. by eapply moved_trans.
Qed.

(** The pointer to a length is inside the packet. *)
Definition len_at (b : cbuf_t) (p : option Z) : Prop := cb_len b <> -1 -> exists q, p = Some q /\ 0 <= q /\ q + 2 <= zlen (cb_mem b).

Lemma len_start_moved b : cb_ok b -> moved b (buf_check_len_start b).2 /\ len_at (buf_check_len_start b).2 (buf_check_len_start b).1.
Proof.
  intros H. unfold buf_check_len_start. destruct (Z.ltb_spec (cb_len b) 2); cbn [fst snd].
  - split; [by apply moved_fail|]. intros Hf. by destruct Hf.
  - split; [apply moved_skip; [done|lia]|]. intros _. exists (cb_ptr b). destruct H as [_ [|(H1 & H2 & H3)]]; [lia|]. cbn. split; [done|lia].
Qed.

Lemma len_at_moved b b' p : moved b b' -> len_at b p -> len_at b' p.
Proof. intros (_ & Hm & Hs) H Hl. rewrite Hm. apply H. auto. Qed.

Lemma len_end_moved b p : cb_ok b -> len_at b p -> returns (buf_check_len_end b p) (moved b).
Proof.
  intros H Hp. unfold buf_check_len_end. destruct (Z.ltb_spec (cb_len b) 0); [by apply moved_refl|]. destruct Hp as (q & -> & Hq); [lia|]. rewrite mem_read_ok by lia. cbn [obind returns].
  destruct (decide _); [by apply moved_refl|by apply moved_fail].
Qed.

(** The next reader of a sequence: [M] says how far it has come. *)
Ltac reader M :=
  first [apply buf_check_ulabel_moved|apply buf_check_label_moved|apply buf_check_uint8_moved|apply check_words_moved|apply buf_check_moved]; apply (proj1 M).

Ltac next M :=
  eapply returns_bind; [reader M|];
  let b' := fresh "b" in let M' := fresh "M" in intros b' M'; apply (moved_trans _ _ _ M) in M'; clear M; rename M' into M.

Lemma check_txt_moved protocol transport keys values b :
  cb_ok b -> (length keys <= length values)%nat ->
  returns (check_txt protocol transport keys values b) (fun '(_, _, _, name, _, b') => moved b b' /\ (cb_len b' <> -1 -> is_Some name)).
Proof.
  intros H Hl. unfold check_txt. eapply returns_bind; [by apply buf_get_label_moved|]. intros [name c1] [M1 Hn]. pose proof (moved_refl c1 (proj1 M1)) as M.
  do 6 next M. destruct (len_start_moved _ (proj1 M)) as [Ms Hp]. destruct (buf_check_len_start _) as [p c3]. cbn [fst snd] in *. apply (moved_trans _ _ _ M) in Ms. clear M.
  eapply returns_bind; [apply get_kvps_moved; [apply Ms|done]|]. intros [vs c4] M4. eapply returns_bind; [apply len_end_moved; [apply M4|by eapply len_at_moved]|]. intros c5 M5. cbn [returns].
  apply (moved_trans _ _ _ Ms) in M4. apply (moved_trans _ _ _ M4) in M5. split; [by eapply moved_trans|]. intros Hl5. apply Hn. destruct M5 as (_ & _ & Hs). auto.
Qed.

Lemma check_ptr_moved full_name protocol_offset b : cb_ok b -> returns (check_ptr full_name protocol_offset b) (moved b).
Proof.
  intros H. unfold check_ptr. pose proof (moved_refl b H) as M. do 2 next M. destruct (len_start_moved _ (proj1 M)) as [Ms Hp]. destruct (buf_check_len_start _) as [p c3]. cbn [fst snd] in *.
  apply (moved_trans _ _ _ M) in Ms. clear M. eapply returns_bind; [reader Ms|]. intros c4 M4. pose proof (len_end_moved c4 p (proj1 M4) (len_at_moved _ _ _ M4 Hp)) as He.
  destruct (buf_check_len_end c4 p) as [c5|]; [|done]. cbn [returns] in *. eapply moved_trans; [exact Ms|]. by eapply moved_trans.
Qed.

Lemma check_srv_moved full_name local_offset name b : cb_ok b -> is_Some name -> returns (check_srv full_name local_offset name b) (fun '(_, b') => moved b b').
Proof.
  intros H [s ->]. unfold check_srv. pose proof (moved_refl b H) as M. do 2 next M. destruct (len_start_moved _ (proj1 M)) as [Ms Hp]. destruct (buf_check_len_start _) as [p c3]. cbn [fst snd] in *.
  apply (moved_trans _ _ _ M) in Ms. clear M. pose proof (moved_refl c3 (proj1 Ms)) as M. next M. eapply returns_bind; [apply buf_get_uint16_moved, M|]. intros [port c5] M5. apply (moved_trans _ _ _ M) in M5. clear M. rename M5 into M.
  cbn [obind]. do 2 next M. eapply returns_bind; [apply len_end_moved; [apply M|by eapply len_at_moved]|]. intros c8 M8. cbn [returns]. eapply moved_trans; [exact Ms|]. by eapply moved_trans.
Qed.

Lemma fresh_ok data : bytes_ok data -> cb_ok (CBuf data 0 (zlen data)).
Proof. intros H. split; [done|]. right. cbn. unfold zlen. lia. Qed.

Lemma parse_request_returns data protocol transport : bytes_ok data -> exists r, parse_request data protocol transport = Done r.
Proof.
  intros H. assert (R : returns (parse_request data protocol transport) (fun _ => True)); [|destruct (parse_request data protocol transport); [by eexists|done]].
  unfold parse_request. pose proof (moved_refl _ (fresh_ok data H)) as M.
  assert (Hw : forall X b0 c1 (f : Z * cbuf_t -> outcome X) Q, moved b0 c1 -> (forall v c2, moved b0 c2 -> returns (f (v, c2)) Q) -> returns (let* x := buf_get_uint16 c1 in f x) Q).
  { intros X b0 c1 f Q M1 Hf. eapply returns_bind; [apply buf_get_uint16_moved, M1|]. intros [v c2] M2. apply Hf. by eapply moved_trans. }
  eapply (Hw _ _ _ (fun '(_, b) => _)); [exact M|]. clear M. intros _ c1 M. next M. do 3 (eapply (Hw _ _ _ (fun '(_, b) => _)); [exact M|]; clear M; intros _ ? M).
  destruct (_ =? -1); [done|]. do 5 next M. done.
Qed.

Lemma parse_response_returns data name protocol transport port keys values :
  bytes_ok data -> length keys = length values -> exists a, parse_response data name protocol transport port keys values = Done a.
Proof.
  intros H Hl. assert (R : returns (parse_response data name protocol transport port keys values) (fun _ => True)); [|destruct (parse_response data name protocol transport port keys values); [by eexists|done]].
  unfold parse_response. pose proof (moved_refl _ (fresh_ok data H)) as M. next M. destruct (_ =? -1); [done|].
  eapply returns_bind; [apply check_txt_moved; [apply M|lia]|]. intros [[[[[fn po] lo] nm] vs] c2] [M2 Hn]. destruct (Z.eqb_spec (cb_len c2) (-1)); [done|].
  eapply returns_bind; [apply check_ptr_moved, M2|]. intros c3 M3. destruct (_ =? -1); [done|]. eapply returns_bind; [apply check_srv_moved; [apply M3|auto]|]. by intros [].
Qed.

(** ** What is written *)

(** Part of a packet, or nothing when it cannot be written. *)
Definition oapp (a b : option (list Z)) : option (list Z) :=
  match a, b with Some x, Some y => Some (x ++ y) | _, _ => None end.

Definition label (s : list Z) : option (list Z) := if zlen s <? 256 then Some (zlen s :: s) else None.
Definition ulabel (s : list Z) : option (list Z) := if zlen s + 1 <? 256 then Some (zlen s + 1 :: 95 :: s) else None.
Definition kvp (kv : list Z * list Z) : option (list Z) :=
  let '(k, v) := kv in if zlen k + zlen v + 1 <? 256 then Some ((zlen k + zlen v + 1) :: k ++ 61 :: v) else None.
Fixpoint kvps (kvs : list (list Z * list Z)) : option (list Z) := match kvs with [] => Some [] | kv :: kvs => oapp (kvp kv) (kvps kvs) end.
Fixpoint words (l : list Z) : list Z := match l with [] => [] | v :: l => be_bytes 2 (u16 v) ++ words l end.
Definition sized (o : option (list Z)) : option (list Z) := (fun l => be_bytes 2 (u16 (zlen l)) ++ l) <$> o.

(** What a writer has done to an object of [n] bytes: [w] is written and [tail] is
    left, or it has failed. *)
Definition prog (n : nat) (b : buf_t) (st : option (list Z * list Z)) : Prop :=
  length (bf_mem b) = n /\
  match st with Some (w, tail) => bf_mem b = w ++ tail /\ bf_ptr b = zlen w /\ bf_len b = zlen tail | None => bf_len b = -1 end.

Definition adv (st : option (list Z * list Z)) (o : option (list Z)) : option (list Z * list Z) :=
  match st, o with Some (w, tail), Some l => if zlen l <=? zlen tail then Some (w ++ l, drop (length l) tail) else None | _, _ => None end.

(** The writer [f] appends [o]. *)
Definition appends (f : buf_t -> outcome buf_t) (o : option (list Z)) : Prop :=
  forall n b st, prog n b st -> exists b', f b = Done b' /\ prog n b' (adv st o).

Lemma adv_twice st a b : adv (adv st a) b = adv st (oapp a b).
Proof.
  destruct st as [[w tail]|], a as [x|], b as [y|]; cbn [adv oapp]; try done; [|by destruct (_ <=? _)].
  assert (zlen (x ++ y) = zlen x + zlen y) as -> by (unfold zlen; rewrite length_app; lia). assert (0 <= zlen y) by (unfold zlen; lia).
  destruct (Z.leb_spec (zlen x) (zlen tail)) as [Hx|Hx]; cbn [adv]; [|destruct (Z.leb_spec (zlen x + zlen y) (zlen tail)); [lia|done]].
  assert (zlen (drop (length x) tail) = zlen tail - zlen x) as -> by (unfold zlen in *; rewrite length_drop; lia).
  destruct (Z.leb_spec (zlen y) (zlen tail - zlen x)), (Z.leb_spec (zlen x + zlen y) (zlen tail)); try lia; try done.
  by rewrite app_assoc, drop_drop, length_app.
Qed.

Lemma adv_Some st l w' t' : adv st (Some l) = Some (w', t') -> exists w t, st = Some (w, t) /\ w' = w ++ l /\ t' = drop (length l) t.
Proof. destruct st as [[w t]|]; [|done]. cbn. destruct (_ <=? _); [|done]. intros [= <- <-]. by exists w, t. Qed.

Lemma appends_bind f g a b : appends f a -> appends g b -> appends (fun x => let* x := f x in g x) (oapp a b).
Proof.
  intros Hf Hg n x st H. destruct (Hf n x st H) as (x1 & -> & H1). destruct (Hg n x1 _ H1) as (x2 & E & H2). exists x2. cbn [obind]. rewrite <- adv_twice. done.
Qed.

Lemma appends_done : appends Done (Some []).
Proof. intros n b st H. exists b. split; [done|]. destruct st as [[w tail]|]; [|done]. cbn [adv]. change (zlen []) with 0. rewrite (proj2 (Z.leb_le 0 (zlen tail))) by (unfold zlen; lia). by rewrite app_nil_r. Qed.

Lemma fails b n : length (bf_mem b) = n -> prog n (buf_fail b) None.
Proof. done. Qed.

Lemma appends_fail : appends (fun b => Done (buf_fail b)) None.
Proof. intros n b st [H _]. exists (buf_fail b). split; [done|]. by destruct st as [[]|]. Qed.

Lemma write_tail w tail l :
  zlen l <= zlen tail -> mem_write (w ++ tail) (zlen w) l = Done ((w ++ l) ++ drop (length l) tail).
Proof.
  intros H. unfold zlen in *. rewrite mem_write_ok by (unfold zlen; rewrite ?length_app; lia). rewrite Nat2Z.id. f_equal. rewrite take_app_length, drop_app_add, <- app_assoc. done.
Qed.

Lemma appends_add l : appends (fun b => buf_add b l) (Some l).
Proof.
  intros n b st [Hn H]. unfold buf_add. assert (0 <= zlen l) by (unfold zlen; lia). destruct st as [[w tail]|].
  - destruct H as (Hm & Hp & Hl). rewrite Hl. cbn [adv]. destruct (Z.leb_spec (zlen l) (zlen tail)); [|by eexists].
    rewrite Hm, Hp, write_tail by done. cbn [obind]. eexists. split; [done|]. unfold prog. cbn [bf_mem bf_ptr bf_len]. splits; try done.
    + rewrite <- Hn, Hm. unfold zlen in *. rewrite !length_app, length_drop. lia.
    + unfold zlen. rewrite length_app. lia.
    + unfold zlen in *. rewrite length_drop. lia.
  - rewrite H. destruct (Z.leb_spec (zlen l) (-1)); [lia|]. by eexists.
Qed.

Lemma appends_uint8 v : 0 <= v < 256 -> appends (fun b => buf_add_uint8 b v) (Some [v]).
Proof.
  intros Hv n b st H. destruct (appends_add [v] n b st H) as (b' & E & Hb). exists b'. split; [|done]. rewrite <- E. unfold buf_add_uint8, buf_add. change (zlen [v]) with 1. unfold u8. by rewrite Z.mod_small by lia.
Qed.

Lemma appends_ext f g o : (forall b, f b = g b) -> appends f o -> appends g o.
Proof. intros E H n b st Hb. rewrite <- E. by apply H. Qed.

Lemma appends_label s : appends (fun b => buf_add_label b s) (label s).
Proof.
  unfold buf_add_label, label. destruct (Z.ltb_spec (zlen s) 256); [|apply appends_fail]. apply (appends_bind _ _ (Some [zlen s]) (Some s)); [apply appends_uint8; unfold zlen in *; lia|apply appends_add].
Qed.

Lemma appends_ulabel s : appends (fun b => buf_add_ulabel b s) (ulabel s).
Proof.
  unfold buf_add_ulabel, ulabel. destruct (Z.ltb_spec (zlen s + 1) 256); [|apply appends_fail].
  apply (appends_bind _ _ (Some [zlen s + 1]) (Some (95 :: s))); [apply appends_uint8; unfold zlen in *; lia|]. apply (appends_bind _ _ (Some [95]) (Some s)); [by apply appends_uint8|apply appends_add].
Qed.

Lemma appends_kvp k v : appends (fun b => buf_add_kvp b k v) (kvp (k, v)).
Proof.
  unfold buf_add_kvp, kvp. destruct (Z.ltb_spec (zlen k + zlen v + 1) 256); [|apply appends_fail].
  apply (appends_bind _ _ (Some [zlen k + zlen v + 1]) (Some (k ++ 61 :: v))); [apply appends_uint8; unfold zlen in *; lia|].
  apply (appends_bind _ _ (Some k) (Some (61 :: v))); [apply appends_add|]. apply (appends_bind _ _ (Some [61]) (Some v)); [by apply appends_uint8|apply appends_add].
Qed.

Lemma appends_kvps kvs : appends (add_kvps kvs) (kvps kvs).
Proof. induction kvs as [|[k v] kvs IH]; [apply appends_done|]. cbn [add_kvps kvps]. apply (appends_bind (fun b => buf_add_kvp b k v)); [apply appends_kvp|done]. Qed.

Lemma appends_words l : appends (add_words l) (Some (words l)).
Proof. induction l as [|v l IH]; [apply appends_done|]. cbn [add_words words]. apply (appends_bind (fun b => buf_add_uint16 b v) _ (Some _) (Some _)); [apply appends_add|done]. Qed.

Lemma len2 x : zlen (be_bytes 2 x) = 2.
Proof. unfold zlen. by rewrite length_be_bytes. Qed.

Lemma appends_with_len f o : appends f o -> appends (with_len f) (sized o).
Proof.
  intros Hf n b st H. unfold with_len, buf_len_start. assert (Hdead : forall b1 p, prog n b1 None -> exists b', (let* b := f b1 in buf_len_end b p) = Done b' /\ prog n b' None).
  { intros b1 p H1. destruct (Hf n b1 None H1) as (b2 & -> & H2). exists b2. split; [|done]. cbn [obind]. unfold buf_len_end. destruct H2 as [_ Hl]. cbn [adv] in Hl. by rewrite Hl. }
  destruct st as [[w tail]|].
  - destruct H as (Hn & Hm & Hp & Hl). destruct (Z.ltb_spec (bf_len b) 2) as [Hs|Hs].
    + destruct (Hdead (buf_fail b) None) as (b' & E & H'); [done|]. exists b'. split; [exact E|]. assert (adv (Some (w, tail)) (sized o) = None) as ->; [|done].
      destruct o as [l|]; [|done]. cbn [sized adv fmap option_fmap option_map]. destruct (Z.leb_spec (zlen (be_bytes 2 (u16 (zlen l)) ++ l)) (zlen tail)); [|done]. unfold zlen in *. rewrite length_app, length_be_bytes in *. lia.
    + destruct tail as [|j1 [|j2 tail]]; try (unfold zlen in *; cbn [length] in *; lia). set (b1 := Buf _ _ _).
      assert (H1 : prog n b1 (Some (w ++ [j1; j2], tail))).
      { unfold prog, b1. cbn [bf_mem bf_ptr bf_len]. splits; [done|by rewrite Hm, <- app_assoc|unfold zlen in *; rewrite length_app; cbn [length]; lia|unfold zlen in *; cbn [length] in *; lia]. }
      destruct (Hf n b1 _ H1) as (b2 & -> & H2). cbn [obind]. destruct o as [l|].
      * cbn [adv sized fmap option_fmap option_map] in *. assert (zlen (be_bytes 2 (u16 (zlen l)) ++ l) = 2 + zlen l) as -> by (unfold zlen; rewrite length_app, length_be_bytes; lia).
        assert (zlen (j1 :: j2 :: tail) = 2 + zlen tail) as -> by (unfold zlen; cbn [length]; lia).
        destruct (Z.leb_spec (zlen l) (zlen tail)), (Z.leb_spec (2 + zlen l) (2 + zlen tail)); try lia.
        -- destruct H2 as (Hn2 & Hm2 & Hp2 & Hl2). unfold buf_len_end. rewrite Hl2. destruct (Z.ltb_spec (zlen (drop (length l) tail)) 0); [unfold zlen in *; lia|].
           rewrite Hp, Hp2, Hm2. assert (zlen ((w ++ [j1; j2]) ++ l) - zlen w - 2 = zlen l) as -> by (unfold zlen; rewrite !length_app; cbn [length]; lia).
           rewrite <- !app_assoc. cbn [app]. rewrite write_tail by (rewrite len2; unfold zlen; cbn [length]; lia). cbn [obind]. rewrite length_be_bytes. cbn [drop]. rewrite ?drop_0.
           eexists. split; [done|]. unfold prog. cbn [bf_mem bf_ptr bf_len]. splits.
           ++ rewrite <- Hn2, Hm2, !length_app, length_be_bytes. cbn [length]. lia.
           ++ rewrite <- !app_assoc. done.
           ++ unfold zlen. rewrite !length_app, length_be_bytes. cbn [length]. lia.
           ++ done.
        -- exists b2. split; [|done]. unfold buf_len_end. by rewrite (proj2 H2).
      * exists b2. split; [|done]. unfold buf_len_end. cbn [adv] in H2. by rewrite (proj2 H2).
  - destruct H as [Hn Hl]. rewrite Hl. cbn [Z.ltb Z.compare]. apply (Hdead (buf_fail b) None). done.
Qed.

(** ** The packets *)

Definition request_bytes (protocol transport : list Z) : option (list Z) :=
  oapp (Some (words [0; 0; 1; 0; 0; 0])) (oapp (ulabel protocol) (oapp (ulabel transport) (oapp (label local_) (Some (0 :: words [0xc; 0x1]))))).

Definition txt_names (name protocol transport : list Z) : option (list Z) := oapp (label name) (oapp (ulabel protocol) (ulabel transport)).
Definition txt_rest (kvs : list (list Z * list Z)) : option (list Z) :=
  oapp (label local_) (oapp (Some [0]) (oapp (Some (words [0x10; 0x1])) (oapp (Some (be_bytes 4 3600)) (sized (kvps kvs))))).
Definition ptr_bytes (full_name protocol_offset : Z) : option (list Z) :=
  oapp (Some (words [Z.lor 0xc000 protocol_offset; 0xc; 0x8001] ++ be_bytes 4 3600)) (sized (Some (be_bytes 2 (u16 (Z.lor 0xc000 full_name))))).
Definition srv_bytes (full_name local_offset port : Z) (name : list Z) : option (list Z) :=
  oapp (Some (words [Z.lor 0xc000 full_name; 0x21; 0x8001] ++ be_bytes 4 120))
       (sized (oapp (Some (words [0; 0; port])) (oapp (label name) (Some (be_bytes 2 (u16 (Z.lor 0xc000 local_offset))))))).

(** Where the protocol and "local" are: behind the header and the name, and behind both labels. *)
Definition protocol_at (name : list Z) : Z := u16 (13 + zlen name).
Definition local_at (name protocol transport : list Z) : Z := u16 (17 + zlen name + zlen protocol + zlen transport).

Definition response_bytes (name protocol transport : list Z) (port : Z) (kvs : list (list Z * list Z)) : option (list Z) :=
  oapp (Some (words [0; 0x8400; 0; 3; 0; 0])) (oapp (oapp (txt_names name protocol transport) (txt_rest kvs))
    (oapp (ptr_bytes 12 (protocol_at name)) (srv_bytes 12 (local_at name protocol transport) port name))).

Lemma appends_ptr full_name protocol_offset : appends (add_ptr full_name protocol_offset) (ptr_bytes full_name protocol_offset).
Proof.
  unfold add_ptr, ptr_bytes. change (Some (words ?l ++ ?m)) with (oapp (Some (words l)) (Some m)).
  intros n b st H. rewrite <- adv_twice, <- adv_twice.
  destruct (appends_words [Z.lor 0xc000 protocol_offset; 0xc; 0x8001] n b st H) as (b1 & -> & H1). cbn [obind].
  destruct (appends_add (be_bytes 4 3600) n b1 _ H1) as (b2 & E2 & H2). change (buf_add_uint32 b1 3600) with (buf_add b1 (be_bytes 4 3600)). rewrite E2. cbn [obind].
  apply (appends_with_len (fun b => buf_add_uint16 b (Z.lor 0xc000 full_name)) (Some _) (appends_add _) n b2 _ H2).
Qed.

Lemma appends_srv full_name local_offset port name : appends (add_srv full_name local_offset port name) (srv_bytes full_name local_offset port name).
Proof.
  unfold add_srv, srv_bytes. change (Some (words ?l ++ be_bytes 4 120)) with (oapp (Some (words l)) (Some (be_bytes 4 120))).
  intros n b st H. rewrite <- adv_twice, <- adv_twice.
  destruct (appends_words [Z.lor 0xc000 full_name; 0x21; 0x8001] n b st H) as (b1 & -> & H1). cbn [obind].
  destruct (appends_add (be_bytes 4 120) n b1 _ H1) as (b2 & E2 & H2). change (buf_add_uint32 b1 120) with (buf_add b1 (be_bytes 4 120)). rewrite E2. cbn [obind].
  refine (appends_with_len _ _ _ n b2 _ H2). apply appends_bind; [apply appends_words|]. apply (appends_bind (fun b => buf_add_label b name)); [apply appends_label|apply appends_add].
Qed.

Lemma appends_request protocol transport :
  appends (fun b =>
    let* b := add_words [0; 0; 1; 0; 0; 0] b in
    let* b := buf_add_ulabel b protocol in
    let* b := buf_add_ulabel b transport in
    let* b := buf_add_label b local_ in
    let* b := buf_add_uint8 b 0 in
    add_words [0xc; 0x1] b) (request_bytes protocol transport).
Proof.
  apply appends_bind; [apply appends_words|]. apply (appends_bind (fun b => buf_add_ulabel b protocol)); [apply appends_ulabel|]. apply (appends_bind (fun b => buf_add_ulabel b transport)); [apply appends_ulabel|].
  apply (appends_bind (fun b => buf_add_label b local_)); [apply appends_label|]. apply (appends_bind (fun b => buf_add_uint8 b 0) _ (Some [0]) (Some _)); [by apply appends_uint8|apply appends_words].
Qed.

Lemma oapp_Some a b l : oapp a b = Some l -> exists x y, a = Some x /\ b = Some y /\ l = x ++ y.
Proof. destruct a as [x|], b as [y|]; try done. intros [= <-]. by exists x, y. Qed.

Lemma label_Some s l : label s = Some l -> zlen s < 256 /\ l = zlen s :: s.
Proof. unfold label. destruct (Z.ltb_spec (zlen s) 256); [|done]. by intros [= <-]. Qed.

Lemma ulabel_Some s l : ulabel s = Some l -> zlen s + 1 < 256 /\ l = zlen s + 1 :: 95 :: s.
Proof. unfold ulabel. destruct (Z.ltb_spec (zlen s + 1) 256); [|done]. by intros [= <-]. Qed.

Lemma kvp_Some k v l : kvp (k, v) = Some l -> zlen k + zlen v + 1 < 256 /\ l = (zlen k + zlen v + 1) :: k ++ 61 :: v.
Proof. unfold kvp. destruct (Z.ltb_spec (zlen k + zlen v + 1) 256); [|done]. by intros [= <-]. Qed.

(** The first record: where it begins, what is written and the three offsets. *)
Lemma add_txt_ok name protocol transport kvs n b st :
  prog n b st ->
  exists fn po lo b', add_txt name protocol transport kvs b = Done (fn, po, lo, b') /\ prog n b' (adv (adv st (txt_names name protocol transport)) (txt_rest kvs)) /\
    forall w tail, adv st (txt_names name protocol transport) = Some (w, tail) ->
    exists w0, w = w0 ++ default [] (txt_names name protocol transport) /\ fn = u16 (zlen w0) /\ po = u16 (zlen w0 + 1 + zlen name) /\ lo = u16 (zlen w).
Proof.
  intros H. unfold add_txt, txt_names, txt_rest. rewrite <- !adv_twice.
  destruct (appends_label name n b st H) as (b1 & -> & H1). cbn [obind]. destruct (appends_ulabel protocol n b1 _ H1) as (b2 & -> & H2). cbn [obind].
  destruct (appends_ulabel transport n b2 _ H2) as (b3 & -> & H3). cbn [obind]. destruct (appends_label local_ n b3 _ H3) as (b4 & -> & H4). cbn [obind].
  destruct (appends_uint8 0 ltac:(lia) n b4 _ H4) as (b5 & -> & H5). cbn [obind]. destruct (appends_words [0x10; 0x1] n b5 _ H5) as (b6 & -> & H6). cbn [obind].
  destruct (appends_add (be_bytes 4 3600) n b6 _ H6) as (b7 & E7 & H7). change (buf_add_uint32 b6 3600) with (buf_add b6 (be_bytes 4 3600)). rewrite E7. cbn [obind].
  destruct (appends_with_len _ _ (appends_kvps kvs) n b7 _ H7) as (b8 & -> & H8). cbn [obind]. do 4 eexists. split; [done|]. split.
  - rewrite !adv_twice in *. exact H8.
  - intros w tail Hw. rewrite Hw in H3. destruct H3 as (_ & _ & Hp3 & _). rewrite !adv_twice in Hw.
    destruct (oapp (label name) (oapp (ulabel protocol) (ulabel transport))) as [names|] eqn:En; [|by destruct st as [[]|]].
    destruct (adv_Some _ _ _ _ Hw) as (w0 & t0 & -> & -> & _). destruct H as (_ & _ & Hp0 & _). exists w0. splits; [done|by rewrite Hp0| |by rewrite Hp3].
    apply oapp_Some in En as (x & y & En & Ey & ->). apply label_Some in En as En'. rewrite En in H1. destruct En' as [Hlen ->]. cbn [adv] in H1, Hw. destruct (_ <=? zlen t0) eqn:Efit in H1.
    + destruct H1 as (_ & _ & -> & _). f_equal. unfold zlen. rewrite length_app. cbn [length]. lia.
    + exfalso. destruct (_ <=? zlen t0) eqn:Efit2 in Hw; [|done]. apply Z.leb_gt in Efit. apply Z.leb_le in Efit2. unfold zlen in *. rewrite length_app in *. cbn [length] in *. lia.
Qed.

Lemma names_length name protocol transport l : txt_names name protocol transport = Some l -> zlen l = 5 + zlen name + zlen protocol + zlen transport.
Proof.
  unfold txt_names. intros (x & y & Hx & Hy & ->)%oapp_Some. apply oapp_Some in Hy as (p & t & Hp & Ht & ->). apply label_Some in Hx as [_ ->]. apply ulabel_Some in Hp as [_ ->]. apply ulabel_Some in Ht as [_ ->].
  unfold zlen. rewrite !length_app. cbn [length]. lia.
Qed.

(** What [finish] answers. *)
Definition written (data : list Z) (o : option (list Z)) (r : Z * list Z) : Prop :=
  match o with
  | Some l => if zlen l <=? zlen data then r = (zlen l, l ++ drop (length l) data) else r.1 = 0 /\ length r.2 = length data
  | None => r.1 = 0 /\ length r.2 = length data
  end.

Lemma finish_ok data b o : prog (length data) b (adv (Some ([], data)) o) -> written data o (finish b).
Proof.
  unfold written, finish. intros [Hn H]. destruct o as [l|]; [|cbn [adv] in H; by rewrite H]. cbn [adv] in H. destruct (zlen l <=? zlen data); [|by rewrite H]. destruct H as (-> & -> & ->).
  rewrite (proj2 (Z.ltb_ge _ 0)) by (unfold zlen; lia). done.
Qed.

Lemma start_prog data : prog (length data) (Buf data 0 (zlen data)) (Some ([], data)).
Proof. done. Qed.

Lemma prepare_request_writes data protocol transport : exists r, prepare_request data protocol transport = Done r /\ written data (request_bytes protocol transport) r.
Proof.
  destruct (appends_request protocol transport _ _ _ (start_prog data)) as (b & E & H). exists (finish b). split; [|by apply finish_ok]. unfold prepare_request.
  assert (Hassoc : forall (f : outcome buf_t) (g : buf_t -> outcome buf_t) X (h : buf_t -> outcome X), (let* x := f in let* y := g x in h y) = (let* y := (let* x := f in g x) in h y)) by (by intros []).
  rewrite !Hassoc. rewrite !Hassoc in E. by rewrite E.
Qed.

Lemma prepare_response_writes data name protocol transport port kvs :
  exists r, prepare_response data name protocol transport port kvs = Done r /\ written data (response_bytes name protocol transport port kvs) r.
Proof.
  unfold prepare_response. destruct (appends_words [0; 0x8400; 0; 3; 0; 0] _ _ _ (start_prog data)) as (b1 & -> & H1). cbn [obind].
  destruct (add_txt_ok name protocol transport kvs _ _ _ H1) as (fn & po & lo & b2 & -> & H2 & Ho). cbn [obind].
  destruct (appends_ptr fn po _ _ _ H2) as (b3 & -> & H3). cbn [obind]. destruct (appends_srv fn lo port name _ _ _ H3) as (b4 & -> & H4). cbn [obind].
  eexists. split; [done|]. apply finish_ok. unfold response_bytes. rewrite <- !adv_twice. rewrite !adv_twice in *.
  destruct (adv (Some ([], data)) (oapp (Some (words [0; 33792; 0; 3; 0; 0])) (txt_names name protocol transport))) as [[w tail]|] eqn:Ew.
  - destruct (Ho w tail eq_refl) as (w0 & Hw & -> & -> & ->). destruct (txt_names name protocol transport) as [names|] eqn:En; [|done]. pose proof (names_length _ _ _ _ En) as Hl.
    apply adv_Some in Ew as (w1 & t1 & [= <- <-] & -> & _). cbn [app] in Hw. assert (w0 = words [0; 33792; 0; 3; 0; 0]) as -> by (by apply app_inv_tail in Hw).
    replace (u16 (zlen (words [0; 33792; 0; 3; 0; 0]))) with 12 in H4 by done. unfold protocol_at, local_at.
    replace (zlen (words [0; 33792; 0; 3; 0; 0]) + 1 + zlen name) with (13 + zlen name) in H4 by (change (zlen (words _)) with 12; lia).
    replace (zlen ([] ++ words [0; 33792; 0; 3; 0; 0] ++ names)) with (17 + zlen name + zlen protocol + zlen transport) in H4; [exact H4|].
    unfold zlen in *. cbn [app]. rewrite length_app. change (length (words _)) with 12%nat. lia.
  - rewrite <- !adv_twice, Ew in *. exact H4.
Qed.

(** ** Reading what was written *)

(** The reader has come behind [pre]; [rest] is left. *)
Definition at_ (b : cbuf_t) (pre rest : list Z) : Prop := cb_mem b = pre ++ rest /\ cb_ptr b = zlen pre /\ cb_len b = zlen rest.

Lemma at_read b pre l rest : at_ b pre (l ++ rest) -> mem_read (cb_mem b) (cb_ptr b) (zlen l) = Done l.
Proof.
  intros (-> & -> & _). unfold zlen. rewrite mem_read_ok by (unfold zlen; rewrite ?length_app; lia). rewrite !Nat2Z.id, drop_app_length, take_app_length. done.
Qed.

Lemma at_skip b pre l rest : at_ b pre (l ++ rest) -> at_ (cbuf_skip (zlen l) b) (pre ++ l) rest /\ zlen l <= cb_len b.
Proof. intros (Hm & Hp & Hl). unfold at_, cbuf_skip. cbn. rewrite Hm, Hp, Hl, <- app_assoc. unfold zlen. rewrite !length_app. splits; try done; lia. Qed.

Lemma check_at b pre l rest : at_ b pre (l ++ rest) -> exists b', buf_check b l = Done b' /\ at_ b' (pre ++ l) rest.
Proof.
  intros H. destruct (at_skip _ _ _ _ H) as [Hs Hl]. unfold buf_check. rewrite (proj2 (Z.leb_le _ _) Hl), (at_read _ _ _ _ H). cbn [obind]. eexists. split; [done|]. by rewrite decide_True.
Qed.

Lemma uint8_at b pre v rest : 0 <= v < 256 -> at_ b pre (v :: rest) -> exists b', buf_check_uint8 b v = Done b' /\ at_ b' (pre ++ [v]) rest.
Proof.
  intros Hv H. destruct (check_at b pre [v] rest H) as (b' & E & H'). exists b'. split; [|done]. rewrite <- E. unfold buf_check_uint8, buf_check. change (zlen [v]) with 1. unfold u8. by rewrite Z.mod_small by lia.
Qed.

Lemma words_at l : forall b pre rest, at_ b pre (words l ++ rest) -> exists b', check_words l b = Done b' /\ at_ b' (pre ++ words l) rest.
Proof.
  induction l as [|v l IH]; intros b pre rest H; [exists b; by rewrite app_nil_r|]. cbn [words check_words] in *. rewrite <- app_assoc in H.
  destruct (check_at _ _ _ _ H) as (b1 & E1 & H1). unfold buf_check_uint16. rewrite E1. cbn [obind]. destruct (IH b1 _ _ H1) as (b2 & -> & H2). exists b2. by rewrite app_assoc.
Qed.

Lemma label_at b pre s l rest : label s = Some l -> at_ b pre (l ++ rest) -> exists b', buf_check_label b s = Done b' /\ at_ b' (pre ++ l) rest.
Proof.
  intros [Hs ->]%label_Some H. unfold buf_check_label. rewrite (proj2 (Z.ltb_lt _ _) Hs). destruct (uint8_at b pre (zlen s) (s ++ rest)) as (b1 & -> & H1); [unfold zlen in *; lia|done|]. cbn [obind].
  destruct (check_at _ _ _ _ H1) as (b2 & -> & H2). exists b2. split; [done|]. by rewrite <- app_assoc in H2.
Qed.

Lemma ulabel_at b pre s l rest : ulabel s = Some l -> at_ b pre (l ++ rest) -> exists b', buf_check_ulabel b s = Done b' /\ at_ b' (pre ++ l) rest.
Proof.
  intros [Hs ->]%ulabel_Some H. unfold buf_check_ulabel. rewrite (proj2 (Z.ltb_lt _ _) Hs). destruct (uint8_at b pre (zlen s + 1) (95 :: s ++ rest)) as (b1 & -> & H1); [unfold zlen in *; lia|done|]. cbn [obind].
  destruct (uint8_at b1 (pre ++ [zlen s + 1]) 95 (s ++ rest)) as (b2 & -> & H2); [done|exact H1|]. cbn [obind]. destruct (check_at _ _ _ _ H2) as (b3 & -> & H3). exists b3. split; [done|]. by rewrite <- !app_assoc in H3.
Qed.

Lemma cstr_whole s : no_nul s -> cstr s = s.
Proof. induction 1 as [|c s Hc _ IH]; [done|]. cbn. destruct (Z.eqb_spec c 0); [lia|]. by rewrite IH. Qed.

Lemma get_label_at b pre s rest :
  no_nul s -> zlen s < 256 -> at_ b pre ((zlen s :: s) ++ rest) -> exists b', buf_get_label b = Done (Some s, b') /\ at_ b' (pre ++ zlen s :: s) rest.
Proof.
  intros Hn Hs H. change ((zlen s :: s) ++ rest) with ([zlen s] ++ (s ++ rest)) in H. destruct (at_skip _ _ _ _ H) as [H1 Hl].
  assert (Hr : mem_read (cb_mem b) (cb_ptr b) 1 = Done [zlen s]) by exact (at_read _ _ _ _ H). change (zlen [zlen s]) with 1 in *. unfold buf_get_label.
  rewrite (proj2 (Z.ltb_ge _ 1)) by lia. rewrite Hr. cbn [obind]. change (default 0 (head [zlen s])) with (zlen s). destruct (at_skip _ _ _ _ H1) as [H2 Hl2].
  rewrite (proj2 (Z.ltb_ge _ (zlen s))) by lia. rewrite (at_read _ _ _ _ H1). cbn [obind]. rewrite (cstr_whole s Hn). eexists. split; [done|]. by rewrite <- app_assoc in H2.
Qed.

(** A key has no equals sign. *)
Definition key_ok (k : list Z) : Prop := no_nul k /\ Forall (fun c => c <> 61) k.

Lemma split_key k v : Forall (fun c => c <> 61) k -> split_eq (k ++ 61 :: v) = Some (k, v).
Proof. induction 1 as [|c k Hc _ IH]; [done|]. cbn [app split_eq]. destruct (Z.eqb_spec c 61); [done|]. by rewrite IH. Qed.

Lemma kvp_at b pre k v old l rest :
  key_ok k -> no_nul v -> kvp (k, v) = Some l -> at_ b pre (l ++ rest) -> exists b', buf_get_kvp b k old = Done (Some v, b') /\ at_ b' (pre ++ l) rest.
Proof.
  intros [Hk Hk'] Hv [Hs ->]%kvp_Some H. unfold buf_get_kvp. assert (El : zlen k + zlen v + 1 = zlen (k ++ 61 :: v)) by (unfold zlen; rewrite length_app; cbn [length]; lia). rewrite El in *.
  destruct (get_label_at b pre (k ++ 61 :: v) rest) as (b1 & -> & H1); [apply Forall_app; split; [done|]; apply Forall_cons; split; [lia|done]|done|done|]. cbn [obind].
  destruct (Z.eqb_spec (cb_len b1) (-1)) as [E|E]; [destruct H1 as (_ & _ & Hl); unfold zlen in Hl; lia|]. rewrite (split_key k v Hk'), decide_True by done. by exists b1.
Qed.

Lemma kvps_at kvs : forall b pre old l rest,
  Forall (fun '(k, v) => key_ok k /\ no_nul v) kvs -> length old = length kvs -> kvps kvs = Some l -> at_ b pre (l ++ rest) ->
  exists b', get_kvps (map fst kvs) old b = Done (map (fun kv => Some (snd kv)) kvs, b') /\ at_ b' (pre ++ l) rest.
Proof.
  induction kvs as [|[k v] kvs IH]; intros b pre old l rest Hk Hl Hs H.
  - destruct old; [|done]. injection Hs as <-. exists b. by rewrite app_nil_r.
  - destruct old as [|o old]; [done|]. apply Forall_cons in Hk as [[Hk Hv] Hks]. cbn [kvps] in Hs. apply oapp_Some in Hs as (x & y & Hx & Hy & ->). rewrite <- app_assoc in H.
    destruct (kvp_at b pre k v o x (y ++ rest) Hk Hv Hx H) as (b1 & E1 & H1). cbn [map fst snd get_kvps]. rewrite E1. cbn [obind]. injection Hl as Hl.
    destruct (IH b1 _ old y rest Hks Hl Hy H1) as (b2 & -> & H2). cbn [obind]. exists b2. split; [done|]. by rewrite app_assoc.
Qed.

(** The length in front of what follows. *)
Lemma len_start_at b pre x y rest : at_ b pre (x :: y :: rest) -> exists b', buf_check_len_start b = (Some (zlen pre), b') /\ at_ b' (pre ++ [x; y]) rest.
Proof.
  intros H. destruct (at_skip b pre [x; y] rest H) as [H1 Hl]. change (zlen [x; y]) with 2 in *. unfold buf_check_len_start. rewrite (proj2 (Z.ltb_ge _ 2)) by lia. destruct H as (_ & Hp & _). rewrite Hp. by eexists.
Qed.

Lemma len_end_at b pre l rest : at_ b (pre ++ be_bytes 2 (u16 (zlen l)) ++ l) rest -> buf_check_len_end b (Some (zlen pre)) = Done b.
Proof.
  intros (Hm & Hp & Hl). unfold buf_check_len_end. rewrite (proj2 (Z.ltb_ge _ 0)) by (unfold zlen in *; lia). rewrite Hp.
  assert (Hat : at_ (CBuf (cb_mem b) (zlen pre) (zlen (be_bytes 2 (u16 (zlen l)) ++ l ++ rest))) pre (be_bytes 2 (u16 (zlen l)) ++ l ++ rest)) by (unfold at_; cbn [cb_mem cb_ptr cb_len]; by rewrite Hm, <- !app_assoc).
  pose proof (at_read _ _ _ _ Hat) as Hr. cbn [cb_mem cb_ptr] in Hr. rewrite len2 in Hr. rewrite Hr. cbn [obind]. rewrite decide_True; [done|]. f_equal. f_equal. unfold zlen. rewrite !length_app, length_be_bytes. lia.
Qed.

Lemma get_uint16_at b pre v rest : 0 <= v < 2 ^ 16 -> at_ b pre (be_bytes 2 v ++ rest) -> exists b', buf_get_uint16 b = Done (v, b') /\ at_ b' (pre ++ be_bytes 2 v) rest.
Proof.
  intros Hv H. destruct (at_skip _ _ _ _ H) as [H1 Hl]. pose proof (at_read _ _ _ _ H) as Hr. rewrite len2 in *. unfold buf_get_uint16. rewrite (proj2 (Z.leb_le 2 _)) by lia. rewrite Hr. cbn [obind].
  rewrite be_val_bytes by done. by eexists.
Qed.

Lemma oapp_front a b l : oapp (Some a) b = Some l -> exists y, b = Some y /\ l = a ++ y.
Proof. intros H. destruct b as [y|]; [|done]. exists y. split; [done|]. cbn [oapp] in H. congruence. Qed.

Lemma sized_Some o l : sized o = Some l -> exists k, o = Some k /\ l = be_bytes 2 (u16 (zlen k)) ++ k.
Proof. destruct o as [k|]; [|done]. intros H. exists k. split; [done|]. unfold sized in H. cbn [fmap option_fmap option_map] in H. congruence. Qed.

(** The bytes of a length, one by one. *)
Lemma two_bytes x : exists i j, be_bytes 2 x = [i; j].
Proof. pose proof (length_be_bytes 2 x) as H. destruct (be_bytes 2 x) as [|i [|j [|]]]; try done. by exists i, j. Qed.

(** Sequences of readers on what the writers wrote; [H] is where the reader is. *)
Tactic Notation "at_step" ident(H) open_constr(lem) :=
  let b' := fresh "b" in let E := fresh "E" in let H' := fresh "H" in
  rewrite <- ?app_assoc in H; edestruct lem as (b' & E & H'); [exact H|]; rewrite E; cbn [obind]; clear H E; rename H' into H.

Lemma len_at_ b pre (l rest : list Z) :
  at_ b pre (be_bytes 2 (u16 (zlen l)) ++ rest) -> exists b', buf_check_len_start b = (Some (zlen pre), b') /\ at_ b' (pre ++ be_bytes 2 (u16 (zlen l))) rest.
Proof. destruct (two_bytes (u16 (zlen l))) as (i & j & ->). apply len_start_at. Qed.

Lemma check_txt_at name protocol transport kvs old names more l b pre :
  no_nul name -> Forall (fun '(k, v) => key_ok k /\ no_nul v) kvs -> length old = length kvs ->
  txt_names name protocol transport = Some names -> txt_rest kvs = Some l -> at_ b pre (names ++ l ++ more) ->
  exists b', check_txt protocol transport (map fst kvs) old b =
    Done (u16 (zlen pre), u16 (zlen pre + 1 + zlen name), u16 (zlen (pre ++ names)), Some name, map (fun kv => Some (snd kv)) kvs, b') /\
    at_ b' (pre ++ names ++ l) more.
Proof.
  intros Hn Hk Hold Hnames Hrest H. unfold txt_names in Hnames. apply oapp_Some in Hnames as (x & y & Hx & Hy & ->). apply oapp_Some in Hy as (p & t & Hp & Ht & ->). apply label_Some in Hx as [Hlen ->].
  unfold txt_rest in Hrest. apply oapp_Some in Hrest as (lo & r1 & Hlo & Hr1 & ->). apply oapp_front in Hr1 as (r2 & Hr2 & ->). apply oapp_front in Hr2 as (r3 & Hr3 & ->).
  apply oapp_front in Hr3 as (r4 & Hr4 & ->). apply sized_Some in Hr4 as (ks & Eks & ->).
  unfold check_txt. rewrite (proj1 (proj2 H)). at_step H (get_label_at b pre name _ Hn Hlen). assert (Ho1 : cb_ptr b0 = zlen pre + 1 + zlen name) by (destruct H as (_ & -> & _); unfold zlen; rewrite length_app; cbn [length]; lia). rewrite Ho1. clear Ho1.
  at_step H (ulabel_at _ _ _ _ _ Hp). at_step H (ulabel_at _ _ _ _ _ Ht). assert (Ho2 : cb_ptr b2 = zlen (pre ++ (zlen name :: name) ++ p ++ t)) by (destruct H as (_ & -> & _); by rewrite <- !app_assoc). rewrite Ho2. clear Ho2.
  at_step H (label_at _ _ _ _ _ Hlo). at_step H (uint8_at _ _ 0 _ ltac:(lia)). at_step H (words_at [0x10; 0x1] _ _ _). unfold buf_check_uint32. change (u32 3600) with 3600. at_step H (check_at _ _ (be_bytes 4 3600) _).
  rewrite <- ?app_assoc in H. edestruct len_at_ as (c1 & E & H1); [exact H|]. rewrite E. clear E H. at_step H1 (kvps_at kvs _ _ old _ _ Hk Hold Eks).
  rewrite <- ?app_assoc in H1. erewrite len_end_at; [|rewrite <- ?app_assoc; exact H1].
  cbn [obind]. eexists. split; [done|]. rewrite <- ?app_assoc in *. exact H1.
Qed.

Lemma check_ptr_at fn po l more b pre :
  ptr_bytes fn po = Some l -> at_ b pre (l ++ more) -> exists b', check_ptr fn po b = Done b' /\ at_ b' (pre ++ l) more.
Proof.
  unfold ptr_bytes. intros Hl H. apply oapp_front in Hl as (r & Hr & ->). apply sized_Some in Hr as (k & Hk & ->). assert (k = be_bytes 2 (u16 (Z.lor 0xc000 fn))) as -> by congruence. clear Hk.
  unfold check_ptr. at_step H (words_at [Z.lor 0xc000 po; 0xc; 0x8001] _ _ _). unfold buf_check_uint32. change (u32 3600) with 3600. at_step H (check_at _ _ (be_bytes 4 3600) _).
  rewrite <- ?app_assoc in H. edestruct len_at_ as (c1 & E & H1); [exact H|]. rewrite E. clear E H. unfold buf_check_uint16. at_step H1 (check_at _ _ (be_bytes 2 (u16 (Z.lor 0xc000 fn))) _).
  rewrite <- ?app_assoc in H1. erewrite len_end_at; [|rewrite <- ?app_assoc; exact H1]. eexists. split; [done|]. rewrite <- ?app_assoc in *. exact H1.
Qed.

Lemma check_srv_at fn lo port name l more b pre :
  0 <= port < 2 ^ 16 -> srv_bytes fn lo port name = Some l -> at_ b pre (l ++ more) ->
  exists b', check_srv fn lo (Some name) b = Done (port, b') /\ at_ b' (pre ++ l) more.
Proof.
  unfold srv_bytes. intros Hport Hl H. apply oapp_front in Hl as (r & Hr & ->). apply sized_Some in Hr as (k & Hk & ->). apply oapp_front in Hk as (k1 & Hk1 & ->). apply oapp_Some in Hk1 as (ln & k2 & Hln & Hk2 & ->).
  assert (k2 = be_bytes 2 (u16 (Z.lor 0xc000 lo))) as -> by congruence. clear Hk2. set (body := words [0; 0; port] ++ ln ++ _) in *.
  unfold check_srv. at_step H (words_at [Z.lor 0xc000 fn; 0x21; 0x8001] _ _ _). unfold buf_check_uint32. change (u32 120) with 120. at_step H (check_at _ _ (be_bytes 4 120) _).
  rewrite <- ?app_assoc in H. edestruct len_at_ as (c1 & E & H1); [exact H|]. rewrite E. clear E H. assert (Eb : body = words [0; 0] ++ be_bytes 2 port ++ ln ++ be_bytes 2 (u16 (Z.lor 0xc000 lo))).
  { unfold body. cbn [words]. rewrite (u16_small port) by done. by rewrite <- !app_assoc, app_nil_l. }
  assert (H : at_ c1 ((((pre ++ words [Z.lor 0xc000 fn; 0x21; 0x8001]) ++ be_bytes 4 120) ++ be_bytes 2 (u16 (zlen body)))) ((words [0; 0] ++ be_bytes 2 port ++ ln ++ be_bytes 2 (u16 (Z.lor 0xc000 lo))) ++ more)) by (rewrite <- Eb; rewrite <- ?app_assoc in *; exact H1). clear H1.
  at_step H (words_at [0; 0] _ _ _). at_step H (get_uint16_at _ _ port _ Hport). at_step H (label_at _ _ _ _ _ Hln). unfold buf_check_uint16. at_step H (check_at _ _ (be_bytes 2 (u16 (Z.lor 0xc000 lo))) _).
  rewrite <- ?app_assoc in H. assert (H' : at_ b5 ((pre ++ words [Z.lor 0xc000 fn; 0x21; 0x8001] ++ be_bytes 4 120) ++ be_bytes 2 (u16 (zlen body)) ++ body) more) by (rewrite Eb at 2; rewrite <- ?app_assoc; exact H).
  replace (zlen ((pre ++ words [Z.lor 49152 fn; 33; 32769]) ++ be_bytes 4 120)) with (zlen (pre ++ words [Z.lor 0xc000 fn; 0x21; 0x8001] ++ be_bytes 4 120)) by (by rewrite <- app_assoc).
  rewrite (len_end_at _ _ _ _ H'). cbn [obind]. eexists. split; [done|]. rewrite <- ?app_assoc in *. exact H'.
Qed.

Lemma parse_request_bytes protocol transport l : request_bytes protocol transport = Some l -> parse_request l protocol transport = Done true.
Proof.
  unfold request_bytes. intros Hl. apply oapp_front in Hl as (r & Hr & ->). apply oapp_Some in Hr as (p & r2 & Hp & Hr2 & ->). apply oapp_Some in Hr2 as (t & r3 & Ht & Hr3 & ->). apply oapp_Some in Hr3 as (lo & r4 & Hlo & Hr4 & ->).
  assert (r4 = [0] ++ words [0xc; 0x1] ++ []) as -> by (rewrite app_nil_r; change ([0] ++ words [0xc; 0x1]) with (0 :: words [0xc; 0x1]); congruence). clear Hr4. unfold parse_request. set (b := CBuf _ _ _).
  assert (H : at_ b [] (be_bytes 2 0 ++ words [0; 1] ++ be_bytes 2 0 ++ be_bytes 2 0 ++ be_bytes 2 0 ++ p ++ t ++ lo ++ [0] ++ words [0xc; 0x1] ++ [])) by done.
  clearbody b. at_step H (get_uint16_at _ _ 0 _ ltac:(lia)). at_step H (words_at [0; 1] _ _ _). do 3 at_step H (get_uint16_at _ _ 0 _ ltac:(lia)).
  assert (Hl : forall b pre rest, at_ b pre rest -> cb_len b =? -1 = false) by (intros ? ? ? (_ & _ & ->); apply Z.eqb_neq; unfold zlen; lia). rewrite (Hl _ _ _ H).
  at_step H (ulabel_at _ _ _ _ _ Hp). at_step H (ulabel_at _ _ _ _ _ Ht). at_step H (label_at _ _ _ _ _ Hlo). at_step H (uint8_at _ _ 0 _ ltac:(lia)). at_step H (words_at [0xc; 0x1] _ _ _). by rewrite (Hl _ _ _ H).
Qed.

Lemma parse_response_bytes name protocol transport port kvs l name0 port0 old :
  no_nul name -> 0 <= port < 2 ^ 16 -> Forall (fun '(k, v) => key_ok k /\ no_nul v) kvs -> length old = length kvs ->
  response_bytes name protocol transport port kvs = Some l ->
  parse_response l name0 protocol transport port0 (map fst kvs) old = Done (Answer true (Some name) port (map (fun kv => Some (snd kv)) kvs)).
Proof.
  unfold response_bytes. intros Hn Hport Hk Hold Hl. apply oapp_front in Hl as (r & Hr & ->). apply oapp_Some in Hr as (tx & r2 & Htx & Hr2 & ->). apply oapp_Some in Htx as (names & rest & Hnames & Hrest & ->).
  apply oapp_Some in Hr2 as (pt & sv & Hpt & Hsv & ->). unfold parse_response. set (b := CBuf _ _ _). assert (H : at_ b [] (words [0; 0x8400; 0; 3; 0; 0] ++ names ++ rest ++ pt ++ sv ++ [])) by (unfold at_, b; cbn [cb_mem cb_ptr cb_len]; rewrite app_nil_r, <- !app_assoc; done).
  clearbody b. assert (Hlen : forall b pre rest, at_ b pre rest -> cb_len b =? -1 = false) by (intros ? ? ? (_ & _ & ->); apply Z.eqb_neq; unfold zlen; lia).
  at_step H (words_at [0; 0x8400; 0; 3; 0; 0] _ _ _). rewrite (Hlen _ _ _ H). at_step H (check_txt_at name protocol transport kvs old names _ rest _ _ Hn Hk Hold Hnames Hrest). rewrite (Hlen _ _ _ H).
  pose proof (names_length _ _ _ _ Hnames) as Hnl. cbn [app]. change (u16 (zlen (words [0; 33792; 0; 3; 0; 0]))) with 12. change (zlen (words [0; 33792; 0; 3; 0; 0])) with 12.
  replace (u16 (12 + 1 + zlen name)) with (protocol_at name) by (unfold protocol_at; f_equal; lia).
  replace (u16 (zlen (words [0; 33792; 0; 3; 0; 0] ++ names))) with (local_at name protocol transport) by (unfold local_at; f_equal; unfold zlen in *; rewrite length_app; change (length (words [0; 33792; 0; 3; 0; 0])) with 12%nat; lia).
  at_step H (check_ptr_at _ _ _ _ _ _ Hpt). rewrite (Hlen _ _ _ H). at_step H (check_srv_at _ _ _ _ _ _ _ _ Hport Hsv). destruct H as (_ & _ & ->). done.
Qed.

(** ** The theorems *)

(** C37. [prepare_request] and [prepare_response] never write outside the caller's
    object; they return 0 or the length of a packet, at the start of the object, that
    [parse_request] accepts, or from which [parse_response] takes the same name, port
    and values.  They return 0 only when a string does not fit in a label or the
    packet does not fit in the object. *)
Theorem mdns_round_trip (data name protocol transport : list Z) (port : Z) (kvs : list (list Z * list Z)) (name0 : option (list Z)) (port0 : Z) (old : list (option (list Z))) :
  no_nul name -> 0 <= port < 2 ^ 16 -> Forall (fun '(k, v) => key_ok k /\ no_nul v) kvs -> length old = length kvs ->
  exists n m n' m', prepare_request data protocol transport = Done (n, m) /\ prepare_response data name protocol transport port kvs = Done (n', m') /\
    length m = length data /\ length m' = length data /\
    (n <> 0 -> parse_request (take (Z.to_nat n) m) protocol transport = Done true) /\
    (n' <> 0 -> parse_response (take (Z.to_nat n') m') name0 protocol transport port0 (map fst kvs) old = Done (Answer true (Some name) port (map (fun kv => Some (snd kv)) kvs))) /\
    (n = 0 <-> forall l, request_bytes protocol transport = Some l -> zlen data < zlen l) /\
    (n' = 0 <-> forall l, response_bytes name protocol transport port kvs = Some l -> zlen data < zlen l).
Proof.
  intros Hn Hport Hk Hold. destruct (prepare_request_writes data protocol transport) as ([n m] & E & W), (prepare_response_writes data name protocol transport port kvs) as ([n' m'] & E' & W').
  exists n, m, n', m'. assert (Hw : forall o k mem, written data o (k, mem) -> (forall l, o = Some l -> 1 <= zlen l) ->
    length mem = length data /\ (k <> 0 -> exists l, o = Some l /\ take (Z.to_nat k) mem = l) /\ (k = 0 <-> forall l, o = Some l -> zlen data < zlen l)).
  { intros o k mem Ho Hpos. unfold written in Ho. destruct o as [l|]; [|destruct Ho as [Hk0 Hm]; cbn in *; by splits]. destruct (Z.leb_spec (zlen l) (zlen data)) as [Hl|Hl].
    - injection Ho as -> ->. splits.
      + unfold zlen in *. rewrite length_app, length_drop. lia.
      + intros _. exists l. split; [done|]. unfold zlen. by rewrite Nat2Z.id, take_app_length.
      + specialize (Hpos l eq_refl). split; [lia|]. intros H0. specialize (H0 l eq_refl). lia.
    - destruct Ho as [Hk0 Hm]. cbn in *. splits; try done. split; [|done]. intros _ l' [= <-]. lia. }
  destruct (Hw _ _ _ W) as (L1 & P1 & Z1); [unfold request_bytes; intros l Hl; apply oapp_front in Hl as (r & _ & ->); unfold zlen; rewrite length_app; change (length (words [0; 0; 1; 0; 0; 0])) with 12%nat; lia|].
  destruct (Hw _ _ _ W') as (L2 & P2 & Z2); [unfold response_bytes; intros l Hl; apply oapp_front in Hl as (r & _ & ->); unfold zlen; rewrite length_app; change (length (words [0; 33792; 0; 3; 0; 0])) with 12%nat; lia|].
  splits; try done; try apply Z1; try apply Z2.
  - intros H0. destruct (P1 H0) as (l & Hl & ->). by apply parse_request_bytes.
  - intros H0. destruct (P2 H0) as (l & Hl & ->). by apply parse_response_bytes.
Qed.

Lemma mdns_round_trip_witness :
  exists m, prepare_response (replicate 200 7) [110; 49] [97; 112; 112] [116; 99; 112] 655 [([107], [118; 61])] = Done (84, m) /\
    parse_response (take 84 m) None [97; 112; 112] [116; 99; 112] 0 [[107]] [None] = Done (Answer true (Some [110; 49]) 655 [Some [118; 61]]).
Proof.
  destruct (mdns_round_trip (replicate 200 7) [110; 49] [97; 112; 112] [116; 99; 112] 655 [([107], [118; 61])] None 0 [None]) as (n & m & n' & m' & _ & E & _ & _ & _ & P & _).
  - repeat constructor; lia.
  - lia.
  - repeat constructor; lia.
  - reflexivity.
  - assert (n' = 84) as -> by (revert E; vm_compute; congruence). exists m'. split; [exact E|]. exact (P ltac:(lia)).
Defined.

(** C38. On packets of any origin the parsers return: no byte outside the packet is
    read, no NULL name is followed, and what is malformed is refused. *)
Theorem mdns_parser_safe (data protocol transport : list Z) (name0 : option (list Z)) (port : Z) (keys : list (list Z)) (values : list (option (list Z))) :
  bytes_ok data -> length keys = length values ->
  (exists r, parse_request data protocol transport = Done r) /\ (exists a, parse_response data name0 protocol transport port keys values = Done a).
Proof. intros H Hl. split; [by apply parse_request_returns|by apply parse_response_returns]. Qed.

Lemma mdns_parser_safe_witness :
  (exists r, parse_request [0; 0; 0; 0; 0; 1; 255] [97] [98] = Done r) /\ (exists a, parse_response [0; 0; 132; 0; 0; 0; 0; 3; 0; 0; 0; 0; 200; 1] None [97] [98] 0 [[107]] [None] = Done a).
Proof.
  split; [apply (mdns_parser_safe [0; 0; 0; 0; 0; 1; 255] [97] [98] None 0 [] [])|apply (mdns_parser_safe [0; 0; 132; 0; 0; 0; 0; 3; 0; 0; 0; 0; 200; 1] [97] [98] None 0 [[107]] [None])]; try reflexivity; repeat constructor; lia.
Defined.
