(* ===== verification/Event.v ===== *)
(** Timers and descriptors of the event loop (src/src/event.c).

    Timers and descriptors are objects of the caller, found by address; the splay
    trees that hold them are the ordered lists of SplaySpec.v.  [node.data] of a timer
    tells whether it is in the tree.  A callback is the list of calls that it makes.
    [time_t] is an unbounded integer; the sets of descriptors have FD_SETSIZE members. *)
From stdpp Require Import gmap.
From S2P Require Import Prelude.

Notation tid := positive (only parsing).
Notation iid := positive (only parsing).

Record timespec := TS { tv_sec : Z; tv_nsec : Z }.

Definition timespec_add (a b : timespec) : timespec :=
  let r := TS (tv_sec a + tv_sec b) (tv_nsec a + tv_nsec b) in
  if 1000000000 <? tv_nsec r then TS (tv_sec r + 1) (tv_nsec r - 1000000000) else r.

Definition timespec_sub (a b : timespec) : timespec :=
  let r := TS (tv_sec a - tv_sec b) (tv_nsec a - tv_nsec b) in
  if tv_nsec r <? 0 then TS (tv_sec r - 1) (tv_nsec r + 1000000000) else r.

Definition timespec_lt (a b : timespec) : bool :=
  if tv_sec a =? tv_sec b then tv_nsec a <? tv_nsec b else tv_sec a <? tv_sec b.

Definition timespec_clear (a : timespec) : timespec := TS 0 (tv_nsec a).

Record timeout_t := Timeout { to_tv : timespec; to_cb : bool; to_data : bool }.
Record io_t := Io { io_fd : Z; io_flags : Z; io_cb : bool }.

Definition IO_READ : Z := 1.
Definition IO_WRITE : Z := 2.
Definition FD_SETSIZE : Z := 1024.

Record event_loop_t := Loop {
  l_deletion : bool;
  l_now : timespec;
  l_timers : gmap tid timeout_t;
  l_timeouts : list tid;
  l_io : gmap iid io_t;
  l_ios : list iid;
  l_readfds : gset Z;
  l_writefds : gset Z
}.

Definition set_l_deletion (v : bool) (l : event_loop_t) : event_loop_t := Loop v (l_now l) (l_timers l) (l_timeouts l) (l_io l) (l_ios l) (l_readfds l) (l_writefds l).
Definition set_l_now (v : timespec) (l : event_loop_t) : event_loop_t := Loop (l_deletion l) v (l_timers l) (l_timeouts l) (l_io l) (l_ios l) (l_readfds l) (l_writefds l).
Definition set_l_timers (v : gmap tid timeout_t) (l : event_loop_t) : event_loop_t := Loop (l_deletion l) (l_now l) v (l_timeouts l) (l_io l) (l_ios l) (l_readfds l) (l_writefds l).
Definition set_l_timeouts (v : list tid) (l : event_loop_t) : event_loop_t := Loop (l_deletion l) (l_now l) (l_timers l) v (l_io l) (l_ios l) (l_readfds l) (l_writefds l).
Definition set_l_io (v : gmap iid io_t) (l : event_loop_t) : event_loop_t := Loop (l_deletion l) (l_now l) (l_timers l) (l_timeouts l) v (l_ios l) (l_readfds l) (l_writefds l).
Definition set_l_ios (v : list iid) (l : event_loop_t) : event_loop_t := Loop (l_deletion l) (l_now l) (l_timers l) (l_timeouts l) (l_io l) v (l_readfds l) (l_writefds l).
Definition set_l_fds (r w : gset Z) (l : event_loop_t) : event_loop_t := Loop (l_deletion l) (l_now l) (l_timers l) (l_timeouts l) (l_io l) (l_ios l) r w.

Definition get_timer (l : event_loop_t) (t : tid) : outcome timeout_t :=
  match l_timers l !! t with Some x => Done x | None => Stop UseAfterFree end.
Definition put_timer (t : tid) (x : timeout_t) (l : event_loop_t) : event_loop_t := set_l_timers (<[t := x]> (l_timers l)) l.

Definition get_io (l : event_loop_t) (i : iid) : outcome io_t :=
  match l_io l !! i with Some x => Done x | None => Stop UseAfterFree end.
Definition put_io (i : iid) (x : io_t) (l : event_loop_t) : event_loop_t := set_l_io (<[i := x]> (l_io l)) l.

(** The order of the tree of timers: by time, then by address. *)
Definition timeout_compare (l : event_loop_t) (a b : tid) : outcome Z :=
  let* x := get_timer l a in let* y := get_timer l b in
  Done (if tv_sec (to_tv x) <? tv_sec (to_tv y) then -1
        else if tv_sec (to_tv y) <? tv_sec (to_tv x) then 1
        else if tv_nsec (to_tv x) <? tv_nsec (to_tv y) then -1
        else if tv_nsec (to_tv y) <? tv_nsec (to_tv x) then 1
        else if (a <? b)%positive then -1
        else if (b <? a)%positive then 1 else 0).

Definition io_compare (l : event_loop_t) (a b : iid) : outcome Z :=
  let* x := get_io l a in let* y := get_io l b in Done (s32 (io_fd x - io_fd y)).

(** [splay_insert_node]: [None] when an equal element is there. *)
Fixpoint insert_node (cmp : positive -> positive -> outcome Z) (x : positive) (t : list positive) : outcome (option (list positive)) :=
  match t with
  | [] => Done (Some [x])
  | y :: t =>
      let* c := cmp x y in
      if c <? 0 then Done (Some (x :: y :: t))
      else if c =? 0 then Done None
      else let* r := insert_node cmp x t in Done (cons y <$> r)
  end.

(** [splay_unlink_node]: the node itself is taken out. *)
Definition unlink_node (x : positive) (t : list positive) : list positive := filter (fun y => y <> x) t.

(** ** Descriptors *)

Definition fd_in (fd : Z) : bool := (0 <=? fd) && (fd <? FD_SETSIZE).

Definition io_set (i : iid) (flags : Z) (l : event_loop_t) : outcome event_loop_t :=
  let* x := get_io l i in
  let* _ := assert_ (io_cb x) in
  let l := put_io i (Io (io_fd x) flags (io_cb x)) l in
  if fd_in (io_fd x) then
    Done (set_l_fds (if Z.testbit flags 0 then {[io_fd x]} ∪ l_readfds l else l_readfds l ∖ {[io_fd x]})
                    (if Z.testbit flags 1 then {[io_fd x]} ∪ l_writefds l else l_writefds l ∖ {[io_fd x]}) l)
  else Stop OutOfBounds.

Definition io_add (i : iid) (fd flags : Z) (l : event_loop_t) : outcome event_loop_t :=
  let* x := get_io l i in
  let* _ := assert_ (negb (io_cb x)) in
  let l := put_io i (Io fd (io_flags x) true) l in
  let* l := io_set i flags l in
  let* r := insert_node (io_compare l) i (l_ios l) in
  match r with
  | Some t => Done (set_l_ios t l)
  | None => Stop AssertFailed
  end.

Definition io_del (i : iid) (l : event_loop_t) : outcome event_loop_t :=
  let* x := get_io l i in
  let* _ := assert_ (io_cb x) in
  let l := set_l_deletion true l in
  let* l := io_set i 0 l in
  let l := set_l_ios (unlink_node i (l_ios l)) l in
  let* x := get_io l i in
  Done (put_io i (Io (io_fd x) (io_flags x) false) l).

(** The number of descriptors that [select] is told to look at. *)
Definition select_fds (l : event_loop_t) : outcome Z :=
  match last (l_ios l) with
  | Some i => let* x := get_io l i in Done (io_fd x + 1)
  | None => Done 0
  end.

(** ** Timers *)

(** [clock] is what the clock answers, which is asked when [now] is not set yet. *)
Definition timeout_set (clock : timespec) (t : tid) (tv : timespec) (l : event_loop_t) : outcome event_loop_t :=
  let* x := get_timer l t in
  let* _ := assert_ (to_cb x) in
  let l := if to_data x then set_l_timeouts (unlink_node t (l_timeouts l)) l else put_timer t (Timeout (to_tv x) (to_cb x) true) l in
  let l := if tv_sec (l_now l) =? 0 then set_l_now clock l else l in
  let* x := get_timer l t in
  let l := put_timer t (Timeout (timespec_add (l_now l) tv) (to_cb x) (to_data x)) l in
  let* r := insert_node (timeout_compare l) t (l_timeouts l) in
  match r with
  | Some q => Done (set_l_deletion true (set_l_timeouts q l))
  | None => Stop AbortCalled
  end.

Definition timeout_add (clock : timespec) (t : tid) (tv : timespec) (l : event_loop_t) : outcome event_loop_t :=
  let* x := get_timer l t in
  timeout_set clock t tv (put_timer t (Timeout (to_tv x) true (to_data x)) l).

Definition timeout_disable (t : tid) (l : event_loop_t) : outcome event_loop_t :=
  let* x := get_timer l t in
  let l := if to_data x then set_l_timeouts (unlink_node t (l_timeouts l)) l else l in
  Done (put_timer t (Timeout (timespec_clear (to_tv x)) (to_cb x) false) l).

Definition timeout_del (t : tid) (l : event_loop_t) : outcome event_loop_t :=
  let* x := get_timer l t in
  if negb (to_cb x) then Done l
  else
    let* l := if to_data x then timeout_disable t l else Done l in
    let* x := get_timer l t in
    Done (set_l_deletion true (put_timer t (Timeout (to_tv x) false (to_data x)) l)).

(** What callbacks do with timers. *)
Inductive timer_call := CallAdd (t : tid) (tv : timespec) | CallSet (t : tid) (tv : timespec) | CallDel (t : tid).

Definition run_call (clock : timespec) (c : timer_call) (l : event_loop_t) : outcome event_loop_t :=
  match c with
  | CallAdd t tv => timeout_add clock t tv l
  | CallSet t tv => timeout_set clock t tv l
  | CallDel t => timeout_del t l
  end.

Fixpoint run_calls (clock : timespec) (cs : list timer_call) (l : event_loop_t) : outcome event_loop_t :=
  match cs with [] => Done l | c :: cs => let* l := run_call clock c l in run_calls clock cs l end.

(** [while(loop->timeouts.head)] of [event_loop_run]: the timers that ran, and how
    long [select] may wait. *)
Fixpoint run_timeouts (clock : timespec) (cb : tid -> event_loop_t -> list timer_call) (fuel : nat) (l : event_loop_t) (ran : list tid)
  : outcome (event_loop_t * list tid * timespec) :=
  match l_timeouts l with
  | [] => Done (l, ran, TS 3600 0)
  | t :: _ =>
      match fuel with
      | O => Stop OutOfFuel
      | S fuel =>
          let* x := get_timer l t in
          if timespec_lt (to_tv x) (l_now l) then
            let* l := timeout_disable t l in
            let* l := run_calls clock (cb t l) l in
            run_timeouts clock cb fuel l (ran ++ [t])
          else Done (l, ran, timespec_sub (to_tv x) (l_now l))
      end
  end.
