(* ===== verification/EventTheorems.v ===== *)
(** The timers of event.c are a map from timers to times whose earliest comes first,
    and the descriptors that are watched are those that asked for it. *)
From stdpp Require Import gmap sorting.
From S2P Require Import Prelude Event.

(** ** Ordered lists *)

Lemma insert_node_ok (R : positive -> positive -> Prop) cmp x t :
  (forall a b c, R a b -> R b c -> R a c) -> (forall y, y ∈ t -> exists c, cmp x y = Done c /\ c <> 0 /\ (c < 0 -> R x y) /\ (0 < c -> R y x)) ->
  StronglySorted R t -> exists q, insert_node cmp x t = Done (Some q) /\ q ≡ₚ x :: t /\ StronglySorted R q.
Proof.
  intros HR Hc Hs. induction Hs as [|y t Hs IH Hy]; cbn [insert_node]; [exists [x]; splits; try done; by repeat constructor|].
  destruct (Hc y ltac:(by left)) as (c & -> & H0 & Hlt & Hgt). cbn [obind]. destruct (Z.ltb_spec c 0).
  - eexists. splits; [done|done|]. specialize (Hlt ltac:(done)). constructor; [by constructor|]. constructor; [done|]. eapply List.Forall_impl; [|exact Hy]. intros z Hz. by eapply HR.
  - destruct (Z.eqb_spec c 0); [done|]. destruct IH as (q & -> & Hp & Hq); [intros z Hz; apply Hc; by right|]. exists (y :: q). split; [done|]. split; [rewrite Hp; apply Permutation_swap|].
    constructor; [done|]. rewrite Hp. constructor; [apply Hgt; lia|done].
Qed.

Lemma elem_unlink x y t : y ∈ unlink_node x t <-> y <> x /\ y ∈ t.
Proof. unfold unlink_node. by rewrite list_elem_of_filter. Qed.

Lemma sorted_unlink R x t : StronglySorted R t -> StronglySorted R (unlink_node x t).
Proof.
  induction 1 as [|y t Hs IH Hy]; [constructor|]. unfold unlink_node in *. rewrite filter_cons. destruct (decide (y <> x)); [|done]. constructor; [done|].
  rewrite List.Forall_forall in *. intros z Hz. apply Hy. apply list_elem_of_In in Hz. apply list_elem_of_filter in Hz as [_ Hz]. by apply list_elem_of_In.
Qed.

Lemma sorted_weaken {X} (R R' : X -> X -> Prop) t : (forall a b, a ∈ t -> b ∈ t -> R a b -> R' a b) -> StronglySorted R t -> StronglySorted R' t.
Proof.
  intros H Hs. induction Hs as [|y t Hs IH Hy]; constructor.
  - apply IH. intros a b Ha Hb. apply H; by right.
  - rewrite List.Forall_forall in *. intros z Hz. apply H; [by left|right; by apply list_elem_of_In|by apply Hy].
Qed.

(** ** The order of timers *)

(** The time at which a timer is due, for the timers in the tree. *)
Definition pending (l : event_loop_t) : gmap tid timespec := omap (fun x => if to_data x then Some (to_tv x) else None) (l_timers l).

Definition tv_of (l : event_loop_t) (t : tid) : timespec := default (TS 0 0) (to_tv <$> l_timers l !! t).

(** By time, then by address. *)
Definition due_before (a b : timespec * tid) : Prop :=
  tv_sec a.1 < tv_sec b.1 \/ tv_sec a.1 = tv_sec b.1 /\ (tv_nsec a.1 < tv_nsec b.1 \/ tv_nsec a.1 = tv_nsec b.1 /\ (a.2 < b.2)%positive).

Definition earlier (l : event_loop_t) (a b : tid) : Prop := due_before (tv_of l a, a) (tv_of l b, b).

Lemma due_trans a b c : due_before a b -> due_before b c -> due_before a c.
Proof. unfold due_before. lia. Qed.

Lemma tv_of_Some l t x : l_timers l !! t = Some x -> tv_of l t = to_tv x.
Proof. intros H. unfold tv_of. by rewrite H. Qed.

Lemma timeout_compare_ok l a b x y :
  l_timers l !! a = Some x -> l_timers l !! b = Some y -> a <> b ->
  exists c, timeout_compare l a b = Done c /\ c <> 0 /\ (c < 0 -> earlier l a b) /\ (0 < c -> earlier l b a).
Proof.
  intros Hx Hy Hne. unfold timeout_compare, get_timer. rewrite Hx, Hy. cbn [obind]. unfold earlier, due_before. rewrite (tv_of_Some l a x Hx), (tv_of_Some l b y Hy). cbn [fst snd].
  destruct (Z.ltb_spec (tv_sec (to_tv x)) (tv_sec (to_tv y))); [eexists; split; [done|]; lia|]. destruct (Z.ltb_spec (tv_sec (to_tv y)) (tv_sec (to_tv x))); [eexists; split; [done|]; lia|].
  destruct (Z.ltb_spec (tv_nsec (to_tv x)) (tv_nsec (to_tv y))); [eexists; split; [done|]; lia|]. destruct (Z.ltb_spec (tv_nsec (to_tv y)) (tv_nsec (to_tv x))); [eexists; split; [done|]; lia|].
  destruct (Pos.ltb_spec a b); [eexists; split; [done|]; lia|]. destruct (Pos.ltb_spec b a); [eexists; split; [done|]; lia|]. lia.
Qed.

(** ** Well-formed timers *)

Record timers_wf (l : event_loop_t) : Prop := {
  tw_in : forall t, t ∈ l_timeouts l <-> is_Some (pending l !! t);
  tw_cb : forall t x, l_timers l !! t = Some x -> to_data x = true -> to_cb x = true;
  tw_sorted : StronglySorted (earlier l) (l_timeouts l);
}.

Lemma pending_Some l t tv : pending l !! t = Some tv <-> exists x, l_timers l !! t = Some x /\ to_data x = true /\ to_tv x = tv.
Proof.
  unfold pending. rewrite lookup_omap. destruct (l_timers l !! t) as [x|]; cbn; [|split; [done|intros (x & H & _); done]]. destruct (to_data x) eqn:E.
  - split; [intros [= <-]; by exists x|intros (y & [= <-] & _ & <-); done].
  - split; [done|]. intros (y & [= <-] & H & _). congruence.
Qed.

(** One timer is in the tree with time [tv], or out of it. *)
Definition with_timer (t : tid) (o : option timespec) (P : gmap tid timespec) : gmap tid timespec :=
  match o with Some tv => <[t := tv]> P | None => delete t P end.

Lemma pending_put t x l : pending (put_timer t x l) = with_timer t (if to_data x then Some (to_tv x) else None) (pending l).
Proof.
  apply map_eq. intros u. unfold pending, put_timer. cbn [l_timers set_l_timers]. rewrite lookup_omap. destruct (decide (u = t)) as [->|Hne].
  - rewrite lookup_insert_eq. cbn. destruct (to_data x); cbn [with_timer]; [by rewrite lookup_insert_eq|by rewrite lookup_delete_eq].
  - rewrite lookup_insert_ne by congruence. destruct (to_data x); cbn [with_timer]; [rewrite lookup_insert_ne by congruence|rewrite lookup_delete_ne by congruence]; by rewrite lookup_omap.
Qed.

Lemma tv_put_ne t x l u : u <> t -> tv_of (put_timer t x l) u = tv_of l u.
Proof. intros H. unfold tv_of, put_timer. cbn [l_timers set_l_timers]. by rewrite lookup_insert_ne by congruence. Qed.

(** The time now: [timeout_set] asks the clock if the loop has none. *)
Definition now_of (clock : timespec) (l : event_loop_t) : timespec := if tv_sec (l_now l) =? 0 then clock else l_now l.

Definition cbs (l : event_loop_t) (t : tid) : option bool := to_cb <$> l_timers l !! t.

(** What is left of the tree when [t] is out of it. *)
Lemma without_wf t l : timers_wf l ->
  StronglySorted (earlier l) (unlink_node t (l_timeouts l)) /\ forall u, u ∈ unlink_node t (l_timeouts l) <-> u <> t /\ is_Some (pending l !! u).
Proof. intros W. split; [apply sorted_unlink, (tw_sorted _ W)|]. intros u. by rewrite elem_unlink, (tw_in _ W). Qed.

Lemma unlink_absent t l : timers_wf l -> pending l !! t = None -> unlink_node t (l_timeouts l) = l_timeouts l.
Proof.
  intros W H. unfold unlink_node. assert (Hn : t ∉ l_timeouts l) by (intros Hc; apply (tw_in _ W) in Hc as [v Hv]; congruence). induction (l_timeouts l) as [|u q IH]; [done|].
  apply not_elem_of_cons in Hn as [Hu Hn]. rewrite filter_cons, decide_True by congruence. by rewrite IH.
Qed.

Lemma timeout_set_ok clock t tv l x :
  timers_wf l -> l_timers l !! t = Some x -> to_cb x = true ->
  exists l', timeout_set clock t tv l = Done l' /\ timers_wf l' /\ pending l' = <[t := timespec_add (now_of clock l) tv]> (pending l) /\ l_now l' = now_of clock l /\
    (forall u, cbs l' u = cbs l u).
Proof.
  intros W Hx Hcb. unfold timeout_set, get_timer at 1. rewrite Hx. cbn [obind]. rewrite Hcb. cbn [assert_ obind].
  set (l1 := if to_data x then _ else _). set (l2 := if tv_sec (l_now l1) =? 0 then _ else _).
  assert (E1 : l_timeouts l2 = unlink_node t (l_timeouts l) /\ l_now l2 = now_of clock l /\ l_timers l2 = <[t := Timeout (to_tv x) true true]> (l_timers l)).
  { assert (A : l_timeouts l1 = unlink_node t (l_timeouts l) /\ l_now l1 = l_now l /\ l_timers l1 = <[t := Timeout (to_tv x) true true]> (l_timers l)).
    { unfold l1. destruct (to_data x) eqn:Ed.
      - splits; [done|done|]. cbn. rewrite insert_id; [done|]. rewrite Hx. destruct x. cbn in *. congruence.
      - splits; [|done|done]. rewrite unlink_absent; [done|done|]. destruct (pending l !! t) as [v|] eqn:Ep; [|done]. apply pending_Some in Ep as (y & Hy & Hd & _). congruence. }
    destruct A as (A1 & A2 & A3). unfold l2, now_of. rewrite A2. destruct (tv_sec (l_now l) =? 0); splits; done. }
  destruct E1 as (Eq & En & Et). clearbody l2. unfold get_timer at 1. rewrite Et, lookup_insert_eq. cbn [obind to_cb to_data]. set (x' := Timeout _ true true). set (l3 := put_timer t x' l2).
  assert (E3 : l_timers l3 = <[t := x']> (l_timers l)) by (unfold l3, put_timer; cbn [l_timers set_l_timers]; by rewrite Et, insert_insert_eq).
  destruct (without_wf t l W) as [Hs Hin]. assert (Htv : forall u, u <> t -> tv_of l3 u = tv_of l u) by (intros u Hu; unfold tv_of; by rewrite E3, lookup_insert_ne by congruence).
  assert (Hs3 : StronglySorted (earlier l3) (unlink_node t (l_timeouts l))).
  { eapply sorted_weaken; [|exact Hs]. intros a b Ha Hb. apply Hin in Ha as [Ha _], Hb as [Hb _]. unfold earlier. by rewrite !Htv. }
  change (l_timeouts l3) with (l_timeouts l2). rewrite Eq. destruct (insert_node_ok (earlier l3) (timeout_compare l3) t (unlink_node t (l_timeouts l))) as (q & -> & Hp & Hq); [intros a b c; apply due_trans| |done|].
  { intros u Hu. apply Hin in Hu as [Hne [v Hv]]. apply pending_Some in Hv as (y & Hy & _). eapply timeout_compare_ok; [rewrite E3; apply lookup_insert_eq|by rewrite E3, lookup_insert_ne by congruence|congruence]. }
  cbn [obind]. eexists. split; [done|]. set (l4 := set_l_deletion true _). assert (E4 : l_timers l4 = <[t := x']> (l_timers l)) by exact E3.
  assert (Hpend : pending l4 = <[t := timespec_add (now_of clock l) tv]> (pending l)).
  { change (pending l4) with (pending l3). apply map_eq. intros u. unfold pending. rewrite lookup_omap, E3. destruct (decide (u = t)) as [->|Hne]; [rewrite !lookup_insert_eq; cbn; by rewrite En|].
    rewrite !lookup_insert_ne by congruence. by rewrite lookup_omap. }
  splits; [|done|done|].
  - split.
    + intros u. change (l_timeouts l4) with q. rewrite Hp, elem_of_cons, Hin, Hpend. destruct (decide (u = t)) as [->|Hne]; [rewrite lookup_insert_eq; split; [by eexists|by left]|].
      rewrite lookup_insert_ne by congruence. naive_solver.
    + intros u y. rewrite E4. intros [[<- <-]|[_ Hy]]%lookup_insert_Some; [done|]. by eapply (tw_cb _ W).
    + exact Hq.
  - intros u. unfold cbs. rewrite E4. destruct (decide (u = t)) as [->|Hne]; [rewrite lookup_insert_eq, Hx; cbn; by rewrite Hcb|by rewrite lookup_insert_ne by congruence].
Qed.

(** Setting a timer out of the tree. *)
Lemma disabled_wf t x l l' :
  timers_wf l -> l_timers l' = <[t := x]> (l_timers l) -> to_data x = false -> l_timeouts l' = unlink_node t (l_timeouts l) ->
  timers_wf l' /\ pending l' = delete t (pending l).
Proof.
  intros W Et Hd Eq. destruct (without_wf t l W) as [Hs Hin].
  assert (Hpend : pending l' = delete t (pending l)).
  { apply map_eq. intros u. unfold pending. rewrite lookup_omap, Et. destruct (decide (u = t)) as [->|Hne]; [rewrite lookup_insert_eq, lookup_delete_eq; cbn; by rewrite Hd|].
    rewrite lookup_insert_ne, lookup_delete_ne by congruence. by rewrite lookup_omap. }
  split; [|done]. split.
  - intros u. rewrite Eq, Hin, Hpend. destruct (decide (u = t)) as [->|Hne]; [rewrite lookup_delete_eq; split; [by intros []|by intros []]|]. rewrite lookup_delete_ne by congruence. naive_solver.
  - intros u y. rewrite Et. intros [[<- <-]|[_ Hy]]%lookup_insert_Some; [congruence|]. by eapply (tw_cb _ W).
  - rewrite Eq. eapply sorted_weaken; [|exact Hs]. intros a b Ha Hb. apply Hin in Ha as [Ha _], Hb as [Hb _]. unfold earlier, tv_of. by rewrite Et, !lookup_insert_ne by congruence.
Qed.

Lemma not_pending l t x : l_timers l !! t = Some x -> to_data x = false -> pending l !! t = None.
Proof. intros Hx Hd. destruct (pending l !! t) as [v|] eqn:E; [|done]. apply pending_Some in E as (y & Hy & Hdy & _). congruence. Qed.

Lemma timeout_disable_ok t l x :
  timers_wf l -> l_timers l !! t = Some x ->
  exists l', timeout_disable t l = Done l' /\ timers_wf l' /\ pending l' = delete t (pending l) /\ l_now l' = l_now l /\ (forall u, cbs l' u = cbs l u) /\
    l_timers l' !! t = Some (Timeout (timespec_clear (to_tv x)) (to_cb x) false).
Proof.
  intros W Hx. unfold timeout_disable, get_timer. rewrite Hx. cbn [obind]. eexists. split; [done|]. set (l1 := if to_data x then _ else _). set (l' := put_timer t _ l1).
  assert (Et : l_timers l' = <[t := Timeout (timespec_clear (to_tv x)) (to_cb x) false]> (l_timers l)) by (unfold l', l1; by destruct (to_data x)).
  destruct (disabled_wf t _ l l' W Et eq_refl) as [W' P'].
  { unfold l', l1. destruct (to_data x) eqn:Ed; [done|]. symmetry. cbn. apply unlink_absent; [done|]. by eapply not_pending. }
  splits; [done|done|unfold l', l1; by destruct (to_data x)| |by rewrite Et, lookup_insert_eq].
  intros u. unfold cbs. rewrite Et. destruct (decide (u = t)) as [->|Hne]; [by rewrite lookup_insert_eq, Hx|by rewrite lookup_insert_ne by congruence].
Qed.

Lemma timeout_del_ok t l x :
  timers_wf l -> l_timers l !! t = Some x ->
  exists l', timeout_del t l = Done l' /\ timers_wf l' /\ pending l' = delete t (pending l) /\ l_now l' = l_now l /\
    (forall u, cbs l' u = if decide (u = t) then Some false else cbs l u).
Proof.
  intros W Hx. unfold timeout_del, get_timer at 1. rewrite Hx. cbn [obind]. destruct (to_cb x) eqn:Hcb; cbn [negb].
  - assert (H1 : exists l1 y, (if to_data x then timeout_disable t l else Done l) = Done l1 /\ timers_wf l1 /\ pending l1 = delete t (pending l) /\ l_now l1 = l_now l /\ (forall u, cbs l1 u = cbs l u) /\
      l_timers l1 !! t = Some y /\ to_data y = false).
    { destruct (to_data x) eqn:Hd; [destruct (timeout_disable_ok t l x W Hx) as (l1 & -> & A & B & C & D & E); eexists l1, _; by splits|].
      exists l, x. splits; try done. by rewrite delete_id by (by eapply not_pending). }
    destruct H1 as (l1 & y & -> & W1 & P1 & N1 & C1 & Hy & Hd). cbn [obind]. unfold get_timer. rewrite Hy. cbn [obind]. eexists. split; [done|]. set (l' := set_l_deletion true _).
    assert (Et : l_timers l' = <[t := Timeout (to_tv y) false (to_data y)]> (l_timers l1)) by done.
    destruct (disabled_wf t _ l1 l' W1 Et Hd) as [W' P']; [change (l_timeouts l') with (l_timeouts l1); symmetry; apply unlink_absent; [done|by eapply not_pending]|].
    splits; [done|by rewrite P', P1, delete_delete_eq|done|]. intros u. rewrite <- C1. unfold cbs. rewrite Et. destruct (decide (u = t)) as [->|Hne]; [by rewrite lookup_insert_eq|by rewrite lookup_insert_ne by congruence].
  - exists l. splits; try done.
    + rewrite delete_id; [done|]. destruct (to_data x) eqn:Hd; [pose proof (tw_cb _ W t x Hx Hd); congruence|by eapply not_pending].
    + intros u. destruct (decide (u = t)) as [->|]; [|done]. unfold cbs. rewrite Hx. cbn. by rewrite Hcb.
Qed.

(** ** Sequences of calls *)

(** The specification: a map from timers to the times they are due. *)
Definition spec_call (now : timespec) (c : timer_call) (P : gmap tid timespec) : gmap tid timespec :=
  match c with CallAdd t tv | CallSet t tv => <[t := timespec_add now tv]> P | CallDel t => delete t P end.

(** Which timers have a callback after a call, and that [timeout_set] is called on those only. *)
Definition cb_after (c : timer_call) (C : tid -> option bool) : tid -> option bool :=
  fun u => match c with
  | CallAdd t _ => if decide (u = t) then Some true else C u
  | CallSet _ _ => C u
  | CallDel t => if decide (u = t) then Some false else C u
  end.

Definition call_ok (C : tid -> option bool) (c : timer_call) : Prop :=
  match c with CallAdd t _ | CallDel t => is_Some (C t) | CallSet t _ => C t = Some true end.

Fixpoint calls_ok (C : tid -> option bool) (cs : list timer_call) : Prop :=
  match cs with [] => True | c :: cs => call_ok C c /\ calls_ok (cb_after c C) cs end.

Lemma calls_ok_ext cs : forall C C', (forall u, C u = C' u) -> calls_ok C cs -> calls_ok C' cs.
Proof.
  induction cs as [|c cs IH]; intros C C' E H; [done|]. destruct H as [H1 H2]. split; [destruct c; cbn in *; by rewrite <- E|]. eapply IH; [|exact H2]. intros u. destruct c; cbn; by rewrite E.
Qed.

Lemma timer_call_ok clock c l :
  timers_wf l -> call_ok (cbs l) c ->
  exists l', run_call clock c l = Done l' /\ timers_wf l' /\ pending l' = spec_call (now_of clock l) c (pending l) /\
    l_now l' = (match c with CallDel _ => l_now l | _ => now_of clock l end) /\ (forall u, cbs l' u = cb_after c (cbs l) u).
Proof.
  intros W Hc. assert (Hget : forall t b, cbs l t = Some b -> exists x, l_timers l !! t = Some x /\ to_cb x = b).
  { intros t b. unfold cbs. destruct (l_timers l !! t) as [x|]; [|done]. intros [= <-]. by exists x. }
  destruct c as [t tv|t tv|t]; cbn [call_ok run_call spec_call cb_after] in *.
  - destruct Hc as [b Hb]. destruct (Hget t b Hb) as (x & Hx & _). unfold timeout_add, get_timer. rewrite Hx. cbn [obind]. set (l1 := put_timer t _ l).
    assert (Et : l_timers l1 = <[t := Timeout (to_tv x) true (to_data x)]> (l_timers l)) by done.
    assert (Hp : pending l1 = pending l).
    { apply map_eq. intros u. unfold pending. rewrite !lookup_omap, Et. destruct (decide (u = t)) as [->|Hne]; [by rewrite lookup_insert_eq, Hx|by rewrite lookup_insert_ne by congruence]. }
    assert (Htv : forall u, tv_of l1 u = tv_of l u) by (intros u; unfold tv_of; rewrite Et; destruct (decide (u = t)) as [->|Hne]; [by rewrite lookup_insert_eq, Hx|by rewrite lookup_insert_ne by congruence]).
    assert (W1 : timers_wf l1).
    { split.
      - intros u. rewrite Hp. apply (tw_in _ W).
      - intros u y. rewrite Et. intros [[<- <-]|[_ Hy]]%lookup_insert_Some; [done|by eapply (tw_cb _ W)].
      - eapply sorted_weaken; [|apply (tw_sorted _ W)]. intros a b' _ _. unfold earlier. by rewrite !Htv. }
    destruct (timeout_set_ok clock t tv l1 _ W1 ltac:(by rewrite Et, lookup_insert_eq) eq_refl) as (l' & E & W' & P' & N' & C'). exists l'. splits; [done|done|by rewrite P', Hp|done|].
    intros u. rewrite C'. unfold cbs. rewrite Et. destruct (decide (u = t)) as [->|Hne]; [by rewrite lookup_insert_eq|by rewrite lookup_insert_ne by congruence].
  - destruct (Hget t true Hc) as (x & Hx & Hcb). destruct (timeout_set_ok clock t tv l x W Hx Hcb) as (l' & E & W' & P' & N' & C'). by exists l'.
  - destruct Hc as [b Hb]. destruct (Hget t b Hb) as (x & Hx & _). destruct (timeout_del_ok t l x W Hx) as (l' & E & W' & P' & N' & C'). by exists l'.
Qed.

Fixpoint spec_calls (now : timespec) (cs : list timer_call) (P : gmap tid timespec) : gmap tid timespec :=
  match cs with [] => P | c :: cs => spec_calls now cs (spec_call now c P) end.

Lemma timer_calls_ok clock cs : forall l,
  timers_wf l -> tv_sec (l_now l) <> 0 -> calls_ok (cbs l) cs ->
  exists l', run_calls clock cs l = Done l' /\ timers_wf l' /\ pending l' = spec_calls (l_now l) cs (pending l) /\ l_now l' = l_now l.
Proof.
  induction cs as [|c cs IH]; intros l W Hn Hc; [by exists l|]. destruct Hc as [Hc1 Hc2]. assert (En : now_of clock l = l_now l) by (unfold now_of; by destruct (Z.eqb_spec (tv_sec (l_now l)) 0)).
  destruct (timer_call_ok clock c l W Hc1) as (l1 & E1 & W1 & P1 & N1 & C1). rewrite En in *. assert (N1' : l_now l1 = l_now l) by (by destruct c). cbn [run_calls]. rewrite E1. cbn [obind].
  destruct (IH l1 W1) as (l2 & E2 & W2 & P2 & N2); [by rewrite N1'|eapply calls_ok_ext; [|exact Hc2]; intros u; by rewrite C1|]. exists l2. splits; [done|done| |congruence]. by rewrite P2, N1', P1.
Qed.

(** ** Timers that have expired *)

Definition normal (t : timespec) : Prop := 0 <= tv_nsec t < 1000000000.
Definition delay_ok (c : timer_call) : Prop := match c with CallAdd _ tv | CallSet _ tv => 0 <= tv_sec tv /\ normal tv | CallDel _ => True end.

Lemma add_not_before now tv : normal now -> 0 <= tv_sec tv -> normal tv -> timespec_lt (timespec_add now tv) now = false.
Proof.
  unfold normal, timespec_lt, timespec_add. intros Hn Hs Hv. cbn [tv_sec tv_nsec]. destruct (Z.ltb_spec 1000000000 (tv_nsec now + tv_nsec tv)); cbn [tv_sec tv_nsec].
  - destruct (Z.eqb_spec (tv_sec now + tv_sec tv + 1) (tv_sec now)); [lia|]. apply Z.ltb_ge. lia.
  - destruct (Z.eqb_spec (tv_sec now + tv_sec tv) (tv_sec now)); apply Z.ltb_ge; lia.
Qed.

Definition expired (l : event_loop_t) (t : tid) : Prop := exists tv, pending l !! t = Some tv /\ timespec_lt tv (l_now l) = true.

(** Calls with such delays make nothing else expire. *)
Lemma spec_calls_expired now cs : forall P t tv,
  normal now -> Forall delay_ok cs -> spec_calls now cs P !! t = Some tv -> timespec_lt tv now = true -> P !! t = Some tv.
Proof.
  induction cs as [|c cs IH]; intros P t tv Hn Hd Hs Hlt; [done|]. apply Forall_cons in Hd as [Hc Hd]. cbn [spec_calls] in Hs. pose proof (IH _ _ _ Hn Hd Hs Hlt) as H.
  destruct c as [u d|u d|u]; cbn [spec_call delay_ok] in *.
  - apply lookup_insert_Some in H as [[<- <-]|[_ H]]; [|done]. rewrite add_not_before in Hlt by tauto. done.
  - apply lookup_insert_Some in H as [[<- <-]|[_ H]]; [|done]. rewrite add_not_before in Hlt by tauto. done.
  - by apply lookup_delete_Some in H as [_ H].
Qed.

(** The callbacks of timers make calls as above. *)
Definition callbacks_ok (cb : tid -> event_loop_t -> list timer_call) : Prop :=
  forall t l, timers_wf l -> cbs l t = Some true -> calls_ok (cbs l) (cb t l) /\ Forall delay_ok (cb t l).

Definition expired_set (l : event_loop_t) : gset tid := dom (filter (fun '(_, tv) => timespec_lt tv (l_now l) = true) (pending l)).

Lemma elem_expired l t : t ∈ expired_set l <-> expired l t.
Proof.
  unfold expired_set, expired. rewrite elem_of_dom. split.
  - intros [tv H]. apply map_lookup_filter_Some in H as [H1 H2]. by exists tv.
  - intros (tv & H1 & H2). exists tv. by apply map_lookup_filter_Some.
Qed.

(** The timer at the head runs: fewer are expired, at the same times as before. *)
Lemma run_head clock cb l t q x :
  timers_wf l -> tv_sec (l_now l) <> 0 -> normal (l_now l) -> callbacks_ok cb -> l_timeouts l = t :: q -> l_timers l !! t = Some x -> to_data x = true ->
  timespec_lt (to_tv x) (l_now l) = true ->
  exists l1 l', timeout_disable t l = Done l1 /\ run_calls clock (cb t l1) l1 = Done l' /\ timers_wf l' /\ l_now l' = l_now l /\
    (forall u tv, pending l' !! u = Some tv -> timespec_lt tv (l_now l) = true -> u <> t /\ pending l !! u = Some tv) /\
    (size (expired_set l') < size (expired_set l))%nat.
Proof.
  intros W Hn0 Hn Hcb Hq Hx Hd Hlt. destruct (timeout_disable_ok t l x W Hx) as (l1 & E1 & W1 & P1 & N1 & C1 & _).
  destruct (Hcb t l1 W1) as [Hok Hdl]; [rewrite C1; unfold cbs; rewrite Hx; cbn; by rewrite (tw_cb _ W t x Hx Hd)|].
  destruct (timer_calls_ok clock (cb t l1) l1 W1 ltac:(by rewrite N1) Hok) as (l' & E' & W' & P' & N'). rewrite N1 in *.
  assert (Hexp : forall u tv, pending l' !! u = Some tv -> timespec_lt tv (l_now l) = true -> u <> t /\ pending l !! u = Some tv).
  { intros u tv Hu Hlu. rewrite P' in Hu. pose proof (spec_calls_expired _ _ _ _ _ Hn Hdl Hu Hlu) as H. rewrite P1 in H. apply lookup_delete_Some in H as [H1 H2]. split; [congruence|done]. }
  exists l1, l'. splits; try done. apply subset_size. split.
  - intros u Hu. apply elem_expired in Hu as (tv & Hu & Hlu). rewrite N' in Hlu. apply elem_expired. exists tv. split; [by apply Hexp|done].
  - intros Hsub. assert (Ht : t ∈ expired_set l) by (apply elem_expired; exists (to_tv x); split; [apply pending_Some; by exists x|done]).
    apply Hsub, elem_expired in Ht as (tv & Hu & Hlu). rewrite N' in Hlu. by destruct (Hexp t tv Hu Hlu).
Qed.

Lemma not_before_mono a b now t u : due_before (a, t) (b, u) -> timespec_lt a now = false -> timespec_lt b now = false.
Proof.
  unfold due_before, timespec_lt. cbn [fst snd]. intros H. destruct (Z.eqb_spec (tv_sec a) (tv_sec now)), (Z.eqb_spec (tv_sec b) (tv_sec now)); rewrite !Z.ltb_ge; lia.
Qed.

(** The first timer of the tree is due first. *)
Lemma head_first l t q : timers_wf l -> l_timeouts l = t :: q -> forall u tv, pending l !! u = Some tv -> u = t \/ u ∈ q /\ due_before (tv_of l t, t) (tv, u).
Proof.
  intros W Hq u tv Hu. pose proof (tw_sorted _ W) as Hs. rewrite Hq in Hs. apply StronglySorted_inv in Hs as [_ Hs]. assert (Hin : u ∈ l_timeouts l) by (apply (tw_in _ W); by eexists).
  rewrite Hq in Hin. apply elem_of_cons in Hin as [|Hin]; [by left|right]. split; [done|]. rewrite List.Forall_forall in Hs. specialize (Hs u ltac:(by apply list_elem_of_In)). unfold earlier in Hs.
  apply pending_Some in Hu as (x & Hx & _ & <-). by rewrite (tv_of_Some l u x Hx) in Hs.
Qed.

Lemma run_timeouts_ok clock cb fuel : callbacks_ok cb -> forall l ran,
  timers_wf l -> tv_sec (l_now l) <> 0 -> normal (l_now l) -> (size (expired_set l) < fuel)%nat ->
  exists l' r wait, run_timeouts clock cb fuel l ran = Done (l', ran ++ r, wait) /\ timers_wf l' /\ l_now l' = l_now l /\ (forall t, ~ expired l' t) /\
    Forall (expired l) r /\ StronglySorted (earlier l) r.
Proof.
  intros Hcb. induction fuel as [|fuel IH]; intros l ran W Hn0 Hn Hf; [lia|]. destruct (l_timeouts l) as [|t q] eqn:Hq.
  - exists l, [], (TS 3600 0). cbn [run_timeouts]. rewrite Hq, app_nil_r. splits; try done; [|constructor]. intros t (tv & Hp & _). assert (Hin : t ∈ l_timeouts l) by (apply (tw_in _ W); by eexists). rewrite Hq in Hin. by apply not_elem_of_nil in Hin.
  - assert (Hin : t ∈ l_timeouts l) by (rewrite Hq; by left). apply (tw_in _ W) in Hin as [tv Hp]. apply pending_Some in Hp as Hx. destruct Hx as (x & Hx & Hd & Etv). cbn [run_timeouts]. rewrite Hq. unfold get_timer. rewrite Hx. cbn [obind].
    destruct (timespec_lt (to_tv x) (l_now l)) eqn:Hlt.
    + destruct (run_head clock cb l t q x W Hn0 Hn Hcb Hq Hx Hd Hlt) as (l1 & l2 & -> & E2 & W2 & N2 & Hexp & Hsz). cbn [obind]. rewrite E2. cbn [obind].
      destruct (IH l2 (ran ++ [t]) W2) as (l' & r & wait & -> & W' & N' & Hno & Hr & Hsr); [by rewrite N2|by rewrite N2|lia|]. exists l', (t :: r), wait. rewrite <- app_assoc. splits; try done; [congruence| |].
      * apply Forall_cons. split; [by exists tv; rewrite <- Etv in *|]. eapply Forall_impl; [exact Hr|]. intros u (v & Hu & Hlu). exists v. rewrite N2 in Hlu. split; [by apply Hexp|done].
      * assert (Hkey : forall u, u ∈ r -> u ∈ q /\ tv_of l2 u = tv_of l u /\ earlier l t u).
        { intros u Hu. rewrite Forall_forall in Hr. destruct (Hr u Hu) as (v & Hv & Hlv). rewrite N2 in Hlv. destruct (Hexp u v Hv Hlv) as [Hne Hl]. destruct (head_first l t q W Hq u v Hl) as [|[Hin Hdue]]; [done|].
          apply pending_Some in Hv as (y & Hy & _ & Ey). apply pending_Some in Hl as (z & Hz & _ & Ez). rewrite (tv_of_Some _ _ _ Hy). unfold earlier. rewrite (tv_of_Some _ _ _ Hz). splits; [done|congruence|congruence]. }
        constructor; [eapply sorted_weaken; [|exact Hsr]; intros a b Ha Hb; unfold earlier; by rewrite (proj1 (proj2 (Hkey a Ha))), (proj1 (proj2 (Hkey b Hb)))|].
        apply List.Forall_forall. intros u Hu. apply Hkey. by apply list_elem_of_In.
    + eexists l, [], _. rewrite app_nil_r. splits; try done; [|constructor]. intros u (v & Hu & Hlu). destruct (head_first l t q W Hq u v Hu) as [->|[_ Hdue]]; [congruence|].
      rewrite (tv_of_Some _ _ _ Hx) in Hdue. by rewrite (not_before_mono _ _ _ _ _ Hdue Hlt) in Hlu.
Qed.

(** ** The theorems *)

(** C39. Under every sequence of calls the timers are a map from timers to the times
    they are due: adding and setting one enters now plus the delay, deleting takes it
    out; no call aborts, the tree stays in order and its first timer is the one that
    is due first. *)
Theorem timers_refine_map (clock : timespec) (cs : list timer_call) (l : event_loop_t) :
  timers_wf l -> tv_sec (l_now l) <> 0 -> calls_ok (cbs l) cs ->
  exists l', run_calls clock cs l = Done l' /\ timers_wf l' /\ l_now l' = l_now l /\ pending l' = spec_calls (l_now l) cs (pending l) /\
    (forall t, t ∈ l_timeouts l' <-> is_Some (pending l' !! t)) /\
    forall t q, l_timeouts l' = t :: q -> forall u tv, pending l' !! u = Some tv -> u = t \/ due_before (tv_of l' t, t) (tv, u).
Proof.
  intros W Hn Hc. destruct (timer_calls_ok clock cs l W Hn Hc) as (l' & E & W' & P & N). exists l'. splits; try done; [apply (tw_in _ W')|].
  intros t q Hq u tv Hu. destruct (head_first l' t q W' Hq u tv Hu) as [|[_ H]]; auto.
Qed.

(** C40. When callbacks set timers with delays that are not negative, the loop over
    expired timers ends: it runs timers that had expired, each once, in the order in
    which they were due, and leaves none that has expired. *)
Theorem run_timeouts_ends (clock : timespec) (cb : tid -> event_loop_t -> list timer_call) (l : event_loop_t) :
  callbacks_ok cb -> timers_wf l -> tv_sec (l_now l) <> 0 -> normal (l_now l) ->
  exists l' ran wait, run_timeouts clock cb (S (size (expired_set l))) l [] = Done (l', ran, wait) /\ timers_wf l' /\ (forall t, ~ expired l' t) /\
    Forall (expired l) ran /\ StronglySorted (earlier l) ran.
Proof.
  intros Hcb W Hn0 Hn. destruct (run_timeouts_ok clock cb (S (size (expired_set l))) Hcb l [] W Hn0 Hn ltac:(lia)) as (l' & r & wait & E & W' & _ & Hno & Hr & Hs). by exists l', r, wait.
Qed.

(** Two timers, one of them due. *)
Definition two_timers : event_loop_t :=
  Loop false (TS 100 5) (list_to_map [(1%positive, Timeout (TS 99 7) true true); (2%positive, Timeout (TS 0 0) false false)]) [1%positive] ∅ [] ∅ ∅.

Lemma two_timers_wf : timers_wf two_timers.
Proof.
  split.
  - intros t. cbn [l_timeouts two_timers]. split.
    + intros H. apply list_elem_of_singleton in H as ->. by eexists.
    + intros [tv H]. apply pending_Some in H as (x & Hx & Hd & _). cbn in Hx. apply lookup_insert_Some in Hx as [[<- <-]|[_ Hx]]; [set_solver|]. apply lookup_insert_Some in Hx as [[<- <-]|[_ Hx]]; [done|by rewrite lookup_empty in Hx].
  - intros t x Hx Hd. cbn in Hx. apply lookup_insert_Some in Hx as [[<- <-]|[_ Hx]]; [done|]. apply lookup_insert_Some in Hx as [[<- <-]|[_ Hx]]; [done|by rewrite lookup_empty in Hx].
  - repeat constructor.
Qed.

Lemma timers_refine_map_witness :
  exists l', run_calls (TS 0 0) [CallAdd 2%positive (TS 1 999999999); CallSet 1%positive (TS 5 0)] two_timers = Done l' /\ l_timeouts l' = [2%positive; 1%positive].
Proof.
  destruct (timers_refine_map (TS 0 0) [CallAdd 2%positive (TS 1 999999999); CallSet 1%positive (TS 5 0)] two_timers two_timers_wf) as (l' & E & _).
  - done.
  - cbn. split; [by eexists|]. split; [reflexivity|done].
  - exists l'. split; [exact E|]. revert E. vm_compute. intros [= <-]. reflexivity.
Defined.

(** A callback that adds its timer again. *)
Definition again (t : tid) (l : event_loop_t) : list timer_call := [CallSet t (TS 0 0)].

Lemma run_timeouts_ends_witness :
  exists l' wait, run_timeouts (TS 0 0) again (S (size (expired_set two_timers))) two_timers [] = Done (l', [1%positive], wait) /\ l_timeouts l' = [1%positive] /\ wait = TS 0 0.
Proof.
  assert (Hcb : callbacks_ok again) by (intros t l W Ht; split; [split; [exact Ht|done]|repeat constructor; cbn; unfold normal; cbn; lia]).
  destruct (run_timeouts_ends (TS 0 0) again two_timers Hcb two_timers_wf) as (l' & ran & wait & E & _).
  - done.
  - unfold normal. cbn. lia.
  - assert (Hr : ran = [1%positive] /\ l_timeouts l' = [1%positive] /\ wait = TS 0 0) by (revert E; vm_compute; intros [= <- <- <-]; done). destruct Hr as (-> & H1 & H2). exists l', wait. split; [exact E|]. split; [exact H1|exact H2].
Defined.

(** A sum of nanoseconds of exactly one second is not carried: [select] is then given
    a timeout that is not valid. *)
Theorem timespec_add_not_normal (s s' n : Z) : 0 < n < 1000000000 ->
  timespec_sub (timespec_add (TS s n) (TS s' (1000000000 - n))) (TS (s + s') 0) = TS 0 1000000000.
Proof.
  intros H. unfold timespec_add, timespec_sub. cbn [tv_sec tv_nsec]. replace (n + (1000000000 - n)) with 1000000000 by lia. cbn. f_equal. lia.
Qed.
