(* ===== verification/EventIo.v ===== *)
(** The descriptors of event.c: the sets that [select] is given are those of the
    registered objects that asked for them. *)
From stdpp Require Import gmap sorting.
From S2P Require Import Prelude Event EventTheorems.

(** An object that is registered. *)
Definition registered (l : event_loop_t) (i : iid) (x : io_t) : Prop := l_io l !! i = Some x /\ io_cb x = true.
Definition fd_of (l : event_loop_t) (i : iid) : Z := default 0 (io_fd <$> l_io l !! i).

Definition wants (bit : Z) (l : event_loop_t) (fd : Z) : Prop := exists i x, registered l i x /\ io_fd x = fd /\ Z.testbit (io_flags x) bit = true.

Record ios_wf (l : event_loop_t) : Prop := {
  iw_in : forall i, i ∈ l_ios l <-> exists x, registered l i x;
  iw_sorted : StronglySorted (fun a b => fd_of l a < fd_of l b) (l_ios l);
  iw_range : forall i x, registered l i x -> fd_in (io_fd x) = true;
  iw_read : forall fd, fd ∈ l_readfds l <-> wants 0 l fd;
  iw_write : forall fd, fd ∈ l_writefds l <-> wants 1 l fd;
}.

Lemma fd_in_range fd : fd_in fd = true -> 0 <= fd < 1024.
Proof. unfold fd_in, FD_SETSIZE. intros H. ztests. lia. Qed.

Lemma sorted_cases {X} (R : X -> X -> Prop) t a b : StronglySorted R t -> a ∈ t -> b ∈ t -> a = b \/ R a b \/ R b a.
Proof.
  induction 1 as [|y t Hs IH Hy]; intros Ha Hb; [by apply not_elem_of_nil in Ha|]. rewrite List.Forall_forall in Hy.
  apply elem_of_cons in Ha as [->|Ha], Hb as [->|Hb]; auto; [right; left; apply Hy; by apply list_elem_of_In|right; right; apply Hy; by apply list_elem_of_In].
Qed.

(** Two registered objects have different descriptors. *)
Lemma fd_unique l i j x y : ios_wf l -> registered l i x -> registered l j y -> io_fd x = io_fd y -> i = j.
Proof.
  intros W Hx Hy E. destruct (sorted_cases _ _ i j (iw_sorted _ W)) as [|H]; [apply (iw_in _ W); by eexists|apply (iw_in _ W); by eexists|done|].
  destruct Hx as [Hx _], Hy as [Hy _]. unfold fd_of in H. rewrite Hx, Hy in H. cbn in H. lia.
Qed.

(** The sets after [io_set] on [i], when they were right for the other descriptors. *)
Lemma io_set_ok i flags l x :
  registered l i x -> fd_in (io_fd x) = true -> (forall j y, registered l j y -> io_fd y = io_fd x -> j = i) ->
  (forall fd, fd <> io_fd x -> (fd ∈ l_readfds l <-> wants 0 l fd) /\ (fd ∈ l_writefds l <-> wants 1 l fd)) ->
  exists l', io_set i flags l = Done l' /\ l_io l' = <[i := Io (io_fd x) flags true]> (l_io l) /\ l_ios l' = l_ios l /\
    (forall fd, fd ∈ l_readfds l' <-> wants 0 l' fd) /\ (forall fd, fd ∈ l_writefds l' <-> wants 1 l' fd).
Proof.
  intros [Hx Hcb] Hr Hu Hs. unfold io_set, get_io. rewrite Hx. cbn [obind]. rewrite Hcb, Hr. cbn [assert_ obind]. eexists. split; [done|]. set (l' := set_l_fds _ _ _).
  assert (Ei : l_io l' = <[i := Io (io_fd x) flags true]> (l_io l)) by done.
  assert (Hw : forall bit fd, wants bit l' fd <-> (if decide (fd = io_fd x) then Z.testbit flags bit = true else wants bit l fd)).
  { intros bit fd. unfold wants, registered. rewrite Ei. destruct (decide (fd = io_fd x)) as [->|Hne].
    - split.
      + intros (j & y & [Hy Hcy] & Ey & Hb). apply lookup_insert_Some in Hy as [[<- <-]|[Hne Hy]]; [done|]. destruct Hne. symmetry. by apply (Hu j y).
      + intros Hb. exists i, (Io (io_fd x) flags true). rewrite lookup_insert_eq. done.
    - split; intros (j & y & [Hy Hcy] & Ey & Hb).
      + apply lookup_insert_Some in Hy as [[<- <-]|[_ Hy]]; [by destruct Hne|]. by exists j, y.
      + exists j, y. rewrite lookup_insert_ne; [done|]. intros ->. congruence. }
  assert (Hset : forall bit (S S' : gset Z), (forall fd, fd <> io_fd x -> (fd ∈ S <-> wants bit l fd)) -> S' = (if Z.testbit flags bit then {[io_fd x]} ∪ S else S ∖ {[io_fd x]}) -> forall fd, fd ∈ S' <-> wants bit l' fd).
  { intros bit S S' HS -> fd. rewrite Hw. destruct (decide (fd = io_fd x)) as [->|Hne]; destruct (Z.testbit flags bit); try set_solver; rewrite <- HS by done; set_solver. }
  splits; [done|done| |].
  - apply (Hset 0 (l_readfds l)); [intros fd Hne; by apply Hs|done].
  - apply (Hset 1 (l_writefds l)); [intros fd Hne; by apply Hs|done].
Qed.

Lemma io_set_wf i flags l x : ios_wf l -> registered l i x -> exists l', io_set i flags l = Done l' /\ ios_wf l' /\ l_io l' = <[i := Io (io_fd x) flags true]> (l_io l) /\ l_ios l' = l_ios l.
Proof.
  intros W Hx. destruct (io_set_ok i flags l x Hx) as (l' & E & Ei & Es & Hrd & Hwr); [by eapply iw_range|intros j y Hy Ey; by eapply fd_unique|intros fd _; split; [apply (iw_read _ W)|apply (iw_write _ W)]|].
  exists l'. splits; try done. pose proof Hx as [Hx1 Hx2].
  assert (Hreg : forall j, (exists y, registered l' j y) <-> exists y, registered l j y).
  { intros j. unfold registered. rewrite Ei. destruct (decide (j = i)) as [->|Hne]; [rewrite lookup_insert_eq; split; [intros _; by exists x|intros _; by eexists]|by rewrite lookup_insert_ne by congruence]. }
  assert (Hfd : forall j, fd_of l' j = fd_of l j) by (intros j; unfold fd_of; rewrite Ei; destruct (decide (j = i)) as [->|Hne]; [by rewrite lookup_insert_eq, Hx1|by rewrite lookup_insert_ne by congruence]).
  split; try done.
  - intros j. by rewrite Es, Hreg, (iw_in _ W).
  - rewrite Es. eapply sorted_weaken; [|apply (iw_sorted _ W)]. intros a b _ _. by rewrite !Hfd.
  - intros j y [Hy Hcy]. rewrite Ei in Hy. apply lookup_insert_Some in Hy as [[<- <-]|[_ Hy]]; [by apply (iw_range _ W i x)|by apply (iw_range _ W j y)].
Qed.

Lemma io_add_wf i fd flags l x :
  ios_wf l -> l_io l !! i = Some x -> io_cb x = false -> fd_in fd = true -> (forall j y, registered l j y -> io_fd y <> fd) ->
  exists l', io_add i fd flags l = Done l' /\ ios_wf l' /\ l_io l' = <[i := Io fd flags true]> (l_io l).
Proof.
  intros W Hx Hcb Hfd Hnew. unfold io_add, get_io at 1. rewrite Hx. cbn [obind]. rewrite Hcb. cbn [negb assert_ obind]. set (l1 := put_io i _ l).
  assert (E1 : l_io l1 = <[i := Io fd (io_flags x) true]> (l_io l)) by done.
  assert (Hother : forall j y, registered l1 j y -> (j = i /\ y = Io fd (io_flags x) true) \/ (j <> i /\ registered l j y)).
  { intros j y [Hy Hc]. rewrite E1 in Hy. apply lookup_insert_Some in Hy as [[<- <-]|[Hne Hy]]; [by left|right; split; [congruence|done]]. }
  assert (Hkeep : forall j y, registered l j y -> j <> i /\ registered l1 j y).
  { intros j y [Hy Hc]. assert (j <> i) by (intros ->; congruence). split; [done|]. split; [|done]. by rewrite E1, lookup_insert_ne by congruence. }
  assert (Hwants : forall bit f, f <> fd -> (wants bit l f <-> wants bit l1 f)).
  { intros bit f Hf. split; intros (j & y & Hy & Ey & Hb).
    - exists j, y. split; [by apply Hkeep|done].
    - destruct (Hother j y Hy) as [[-> ->]|[_ Hy']]; [by cbn in Ey|]. by exists j, y. }
  destruct (io_set_ok i flags l1 (Io fd (io_flags x) true)) as (l2 & -> & E2 & Es2 & Hrd & Hwr).
  { split; [by rewrite E1, lookup_insert_eq|done]. }
  { done. }
  { intros j y Hy Ey. destruct (Hother j y Hy) as [[-> _]|[_ Hy']]; [done|]. by destruct (Hnew j y Hy'). }
  { intros f Hf. cbn [io_fd] in Hf. rewrite <- !Hwants by done. split; [apply (iw_read _ W)|apply (iw_write _ W)]. }
  cbn [obind io_fd] in *. rewrite E1, insert_insert_eq in E2. assert (Ho : l_ios l2 = l_ios l) by (by rewrite Es2).
  assert (Hfdne : forall j, j <> i -> fd_of l2 j = fd_of l j) by (intros j Hj; unfold fd_of; by rewrite E2, lookup_insert_ne by congruence).
  assert (Hfdi : fd_of l2 i = fd) by (unfold fd_of; by rewrite E2, lookup_insert_eq).
  assert (Hin : forall j, j ∈ l_ios l -> j <> i /\ exists y, registered l j y) by (intros j Hj; apply (iw_in _ W) in Hj as [y Hy]; split; [by eapply Hkeep|by exists y]).
  destruct (insert_node_ok (fun a b => fd_of l2 a < fd_of l2 b) (io_compare l2) i (l_ios l2)) as (q & -> & Hp & Hq).
  { intros a b c. lia. }
  { intros j Hj. rewrite Ho in Hj. destruct (Hin j Hj) as [Hne [y Hy]]. pose proof (fd_in_range _ (iw_range _ W j y Hy)). pose proof (fd_in_range _ Hfd). pose proof (Hnew j y Hy). destruct Hy as [Hy _].
    unfold io_compare, get_io. rewrite E2, lookup_insert_eq, lookup_insert_ne, Hy by congruence. cbn [obind io_fd]. rewrite s32_small by lia. eexists. split; [done|].
    rewrite Hfdi, (Hfdne j Hne). unfold fd_of. rewrite Hy. cbn. lia. }
  { rewrite Ho. eapply sorted_weaken; [|apply (iw_sorted _ W)]. intros a b Ha Hb. apply Hin in Ha as [Ha _], Hb as [Hb _]. by rewrite !Hfdne. }
  cbn [obind]. eexists. split; [done|]. split; [|done]. split; try done.
  - intros j. cbn [l_ios set_l_ios]. rewrite Hp, elem_of_cons, Ho. unfold registered. cbn [l_io set_l_ios]. rewrite E2. destruct (decide (j = i)) as [->|Hne]; [rewrite lookup_insert_eq; split; [by eexists|by left]|].
    rewrite lookup_insert_ne by congruence. rewrite (iw_in _ W). unfold registered. naive_solver.
  - intros j y [Hy Hc]. cbn [l_io set_l_ios] in Hy. rewrite E2 in Hy. apply lookup_insert_Some in Hy as [[<- <-]|[_ Hy]]; [done|by apply (iw_range _ W j y)].
Qed.

Lemma io_del_wf i l x :
  ios_wf l -> registered l i x -> exists l', io_del i l = Done l' /\ ios_wf l' /\ l_io l' = <[i := Io (io_fd x) 0 false]> (l_io l).
Proof.
  intros W Hx. pose proof Hx as [Hx1 Hx2]. unfold io_del, get_io at 1. rewrite Hx1. cbn [obind]. rewrite Hx2. cbn [assert_ obind].
  assert (W0 : ios_wf (set_l_deletion true l)) by (by destruct W). destruct (io_set_wf i 0 (set_l_deletion true l) x W0 Hx) as (l1 & -> & W1 & E1 & Es1). cbn [obind].
  unfold get_io. cbn [l_io set_l_ios]. rewrite E1, lookup_insert_eq. cbn [obind io_fd io_flags]. eexists. split; [done|]. set (l' := put_io i _ _).
  assert (E' : l_io l' = <[i := Io (io_fd x) 0 false]> (l_io l)) by (unfold l', put_io; cbn [l_io set_l_io set_l_ios]; by rewrite E1, insert_insert_eq).
  assert (E'' : l_io l' = <[i := Io (io_fd x) 0 false]> (l_io l1)) by (unfold l', put_io; cbn [l_io set_l_io set_l_ios]; done).
  assert (Hreg : forall j y, registered l' j y <-> j <> i /\ registered l1 j y).
  { intros j y. unfold registered. rewrite E''. destruct (decide (j = i)) as [->|Hne]; [rewrite lookup_insert_eq; split; [intros [[= <-] ?]; done|by intros []]|]. rewrite lookup_insert_ne by congruence. tauto. }
  assert (Hwants : forall bit f, wants bit l' f <-> wants bit l1 f).
  { intros bit f. unfold wants. split; intros (j & y & Hy & Ey & Hb).
    - exists j, y. apply Hreg in Hy as [_ Hy]. done.
    - exists j, y. split; [|done]. apply Hreg. split; [|done]. intros ->. destruct Hy as [Hy _]. rewrite E1, lookup_insert_eq in Hy. injection Hy as <-. cbn [io_flags] in Hb. by rewrite Z.bits_0 in Hb. }
  split; [|done]. split.
  - intros j. change (l_ios l') with (unlink_node i (l_ios l1)). rewrite elem_unlink, (iw_in _ W1). split; [intros [Hne [y Hy]]; exists y; by apply Hreg|intros [y Hy]; apply Hreg in Hy as [Hne Hy]; split; [done|by exists y]].
  - change (l_ios l') with (unlink_node i (l_ios l1)). eapply sorted_weaken; [|apply sorted_unlink, (iw_sorted _ W1)]. intros a b Ha Hb. apply elem_unlink in Ha as [Ha _], Hb as [Hb _].
    unfold fd_of. by rewrite E'', !lookup_insert_ne by congruence.
  - intros j y Hy. apply Hreg in Hy as [_ Hy]. by apply (iw_range _ W1 j y).
  - intros f. rewrite Hwants. apply (iw_read _ W1).
  - intros f. rewrite Hwants. apply (iw_write _ W1).
Qed.

(** ** Sequences of calls *)

Inductive io_call := IoAdd (i : iid) (fd flags : Z) | IoSet (i : iid) (flags : Z) | IoDel (i : iid).

Definition run_io (c : io_call) (l : event_loop_t) : outcome event_loop_t :=
  match c with IoAdd i fd flags => io_add i fd flags l | IoSet i flags => io_set i flags l | IoDel i => io_del i l end.

Fixpoint run_ios (cs : list io_call) (l : event_loop_t) : outcome event_loop_t :=
  match cs with [] => Done l | c :: cs => let* l := run_io c l in run_ios cs l end.

(** The specification: the descriptor and the flags of every registered object. *)
Definition watched (l : event_loop_t) : gmap iid (Z * Z) := omap (fun x => if io_cb x then Some (io_fd x, io_flags x) else None) (l_io l).

Definition spec_io (c : io_call) (S : gmap iid (Z * Z)) : gmap iid (Z * Z) :=
  match c with
  | IoAdd i fd flags => <[i := (fd, flags)]> S
  | IoSet i flags => alter (fun p => (fst p, flags)) i S
  | IoDel i => delete i S
  end.

(** Callers add objects that are not registered, with a descriptor of their own, and
    change or remove those that are.  The descriptor is one that an [fd_set] holds,
    which [io_add] does not check: it is the callers' obligation. *)
Definition io_ok (D : gset iid) (S : gmap iid (Z * Z)) (c : io_call) : Prop :=
  match c with
  | IoAdd i fd _ => i ∈ D /\ S !! i = None /\ fd_in fd = true /\ forall j p, S !! j = Some p -> fst p <> fd
  | IoSet i _ | IoDel i => is_Some (S !! i)
  end.

Fixpoint ios_ok (D : gset iid) (S : gmap iid (Z * Z)) (cs : list io_call) : Prop :=
  match cs with [] => True | c :: cs => io_ok D S c /\ ios_ok D (spec_io c S) cs end.

Fixpoint spec_ios (cs : list io_call) (S : gmap iid (Z * Z)) : gmap iid (Z * Z) :=
  match cs with [] => S | c :: cs => spec_ios cs (spec_io c S) end.

Lemma watched_Some l i p : watched l !! i = Some p <-> exists x, registered l i x /\ p = (io_fd x, io_flags x).
Proof.
  unfold watched, registered. rewrite lookup_omap. destruct (l_io l !! i) as [x|]; cbn; [|split; [done|by intros (x & [H _] & _)]]. destruct (io_cb x) eqn:E.
  - split; [intros [= <-]; by exists x|intros (y & [[= <-] _] & ->); done].
  - split; [done|]. intros (y & [[= <-] H] & _). congruence.
Qed.

Lemma watched_insert l l' i x : l_io l' = <[i := x]> (l_io l) -> watched l' = if io_cb x then <[i := (io_fd x, io_flags x)]> (watched l) else delete i (watched l).
Proof.
  intros E. apply map_eq. intros j. unfold watched at 1. rewrite lookup_omap, E. destruct (decide (j = i)) as [->|Hne].
  - rewrite lookup_insert_eq. cbn. destruct (io_cb x); [by rewrite lookup_insert_eq|by rewrite lookup_delete_eq].
  - rewrite lookup_insert_ne by congruence. unfold watched. destruct (io_cb x); [rewrite lookup_insert_ne by congruence|rewrite lookup_delete_ne by congruence]; by rewrite lookup_omap.
Qed.

Lemma run_io_ok c l :
  ios_wf l -> io_ok (dom (l_io l)) (watched l) c ->
  exists l', run_io c l = Done l' /\ ios_wf l' /\ watched l' = spec_io c (watched l) /\ dom (l_io l') = dom (l_io l).
Proof.
  intros W Hc. assert (Hdom : forall i x (l' : event_loop_t), i ∈ dom (l_io l) -> l_io l' = <[i := x]> (l_io l) -> dom (l_io l') = dom (l_io l)) by (intros i x l' Hi ->; rewrite dom_insert_L; set_solver).
  destruct c as [i fd flags|i flags|i]; cbn [io_ok run_io spec_io] in *.
  - destruct Hc as (Hi & Hn & Hfd & Hu). apply elem_of_dom in Hi as Hi'. destruct Hi' as [x Hx]. assert (Hcb : io_cb x = false).
    { destruct (io_cb x) eqn:E; [|done]. assert (watched l !! i = Some (io_fd x, io_flags x)) by (apply watched_Some; by exists x). congruence. }
    destruct (io_add_wf i fd flags l x W Hx Hcb Hfd) as (l' & E & W' & Ei); [intros j y Hy Ey; apply (Hu j (io_fd y, io_flags y)); [apply watched_Some; by exists y|done]|].
    exists l'. splits; [done|done|by rewrite (watched_insert _ _ _ _ Ei)|by eapply Hdom].
  - destruct Hc as [p Hp]. apply watched_Some in Hp as Hp'. destruct Hp' as (x & Hx & ->). destruct (io_set_wf i flags l x W Hx) as (l' & E & W' & Ei & _). exists l'. splits; [done|done| |eapply Hdom; [apply elem_of_dom; exists x; apply Hx|done]].
    rewrite (watched_insert _ _ _ _ Ei). cbn. apply map_eq. intros j. destruct (decide (j = i)) as [->|Hne]; [by rewrite lookup_insert_eq, lookup_alter_eq, Hp|by rewrite lookup_insert_ne, lookup_alter_ne by congruence].
  - destruct Hc as [p Hp]. apply watched_Some in Hp as (x & Hx & ->). destruct (io_del_wf i l x W Hx) as (l' & E & W' & Ei). exists l'. splits; [done|done|by rewrite (watched_insert _ _ _ _ Ei)|eapply Hdom; [apply elem_of_dom; exists x; apply Hx|done]].
Qed.

Lemma run_ios_ok cs : forall l,
  ios_wf l -> ios_ok (dom (l_io l)) (watched l) cs -> exists l', run_ios cs l = Done l' /\ ios_wf l' /\ watched l' = spec_ios cs (watched l).
Proof.
  induction cs as [|c cs IH]; intros l W Hc; [by exists l|]. destruct Hc as [Hc1 Hc2]. destruct (run_io_ok c l W Hc1) as (l1 & E1 & W1 & S1 & D1). cbn [run_ios spec_ios]. rewrite E1. cbn [obind].
  destruct (IH l1 W1) as (l2 & E2 & W2 & S2); [by rewrite D1, S1|]. exists l2. by rewrite <- S1.
Qed.

Lemma sorted_last {X} (R : X -> X -> Prop) t z a : StronglySorted R t -> last t = Some z -> a ∈ t -> a = z \/ R a z.
Proof.
  induction 1 as [|y t Hs IH Hy]; intros Hl Ha; [done|]. rewrite List.Forall_forall in Hy. rewrite last_cons in Hl. apply elem_of_cons in Ha as [->|Ha].
  - destruct (last t) as [w|] eqn:E; [|left; congruence]. injection Hl as ->. right. apply Hy. apply list_elem_of_In. by apply last_Some_elem_of.
  - destruct (last t) as [w|] eqn:E; [by apply IH|]. apply last_None in E as ->. by apply not_elem_of_nil in Ha.
Qed.

Lemma select_fds_ok l : ios_wf l -> exists n, select_fds l = Done n /\ forall i x, registered l i x -> 0 <= io_fd x < n.
Proof.
  intros W. unfold select_fds. destruct (last (l_ios l)) as [z|] eqn:E.
  - assert (Hz : z ∈ l_ios l) by (by apply last_Some_elem_of). apply (iw_in _ W) in Hz as (y & Hy & Hcy). unfold get_io. rewrite Hy. cbn [obind]. eexists. split; [done|]. intros i x Hx.
    pose proof (fd_in_range _ (iw_range _ W i x Hx)). split; [lia|]. assert (Hi : i ∈ l_ios l) by (apply (iw_in _ W); by eexists).
    destruct (sorted_last _ _ z i (iw_sorted _ W) E Hi) as [->|Hlt]; [destruct Hx as [Hx _]; replace y with x by congruence; lia|]. destruct Hx as [Hx _]. unfold fd_of in Hlt. rewrite Hx, Hy in Hlt. cbn in Hlt. lia.
  - exists 0. split; [done|]. intros i x Hx. assert (Hi : i ∈ l_ios l) by (apply (iw_in _ W); by eexists). apply last_None in E. rewrite E in Hi. by apply not_elem_of_nil in Hi.
Qed.

(** Under every sequence of calls the event loop watches exactly the registered
    objects: a descriptor is in the set for reading or for writing when the object it
    belongs to asked for it last, no assert fails, and the number of descriptors given
    to [select] covers them all. *)
Theorem loop_watches_registered (cs : list io_call) (l : event_loop_t) :
  ios_wf l -> ios_ok (dom (l_io l)) (watched l) cs ->
  exists l' n, run_ios cs l = Done l' /\ ios_wf l' /\ watched l' = spec_ios cs (watched l) /\ select_fds l' = Done n /\
    (forall fd, fd ∈ l_readfds l' <-> exists i flags, watched l' !! i = Some (fd, flags) /\ Z.testbit flags 0 = true) /\
    (forall fd, fd ∈ l_writefds l' <-> exists i flags, watched l' !! i = Some (fd, flags) /\ Z.testbit flags 1 = true) /\
    (forall i fd flags, watched l' !! i = Some (fd, flags) -> 0 <= fd < n).
Proof.
  intros W Hc. destruct (run_ios_ok cs l W Hc) as (l' & E & W' & S). destruct (select_fds_ok l' W') as (n & En & Hn). exists l', n.
  assert (Hw : forall bit fd, wants bit l' fd <-> exists i flags, watched l' !! i = Some (fd, flags) /\ Z.testbit flags bit = true).
  { intros bit fd. unfold wants. split.
    - intros (i & x & Hx & <- & Hb). exists i, (io_flags x). split; [apply watched_Some; by exists x|done].
    - intros (i & flags & Hi & Hb). apply watched_Some in Hi as (x & Hx & [= -> ->]). by exists i, x. }
  splits; try done.
  - intros fd. by rewrite (iw_read _ W'), Hw.
  - intros fd. by rewrite (iw_write _ W'), Hw.
  - intros i fd flags Hi. apply watched_Some in Hi as (x & Hx & [= -> ->]). by apply (Hn i x).
Qed.

Definition two_objects : event_loop_t := Loop false (TS 1 0) ∅ [] (list_to_map [(1%positive, Io 0 0 false); (2%positive, Io 0 0 false)]) [] ∅ ∅.

Lemma two_objects_wf : ios_wf two_objects.
Proof.
  assert (Hnone : forall i x, ~ registered two_objects i x).
  { intros i x [Hx Hc]. cbn in Hx. apply lookup_insert_Some in Hx as [[<- <-]|[_ Hx]]; [done|]. apply lookup_insert_Some in Hx as [[<- <-]|[_ Hx]]; [done|by rewrite lookup_empty in Hx]. }
  split.
  - intros i. split; [intros H; by apply not_elem_of_nil in H|intros [x Hx]; by apply Hnone in Hx].
  - constructor.
  - intros i x Hx. by apply Hnone in Hx.
  - intros fd. split; [set_solver|]. intros (i & x & Hx & _). by apply Hnone in Hx.
  - intros fd. split; [set_solver|]. intros (i & x & Hx & _). by apply Hnone in Hx.
Qed.

Lemma loop_watches_registered_witness :
  exists l' n, run_ios [IoAdd 1%positive 7 1; IoAdd 2%positive 5 3; IoSet 1%positive 2; IoDel 2%positive] two_objects = Done l' /\ select_fds l' = Done n /\ n = 8.
Proof.
  destruct (loop_watches_registered [IoAdd 1%positive 7 1; IoAdd 2%positive 5 3; IoSet 1%positive 2; IoDel 2%positive] two_objects two_objects_wf) as (l' & n & E & _ & _ & En & _).
  - assert (E0 : watched two_objects = ∅) by reflexivity. rewrite E0. cbn [ios_ok io_ok spec_io]. split; [|split; [|split; [by eexists|split; [by eexists|done]]]].
    + split; [by apply elem_of_dom; eexists|]. split; [done|]. split; [done|]. intros j p Hj. by rewrite lookup_empty in Hj.
    + split; [by apply elem_of_dom; eexists|]. split; [done|]. split; [done|]. intros j p Hj. apply lookup_insert_Some in Hj as [[<- <-]|[_ Hj]]; [done|by rewrite lookup_empty in Hj].
  - exists l', n. split; [exact E|]. split; [exact En|]. revert E En. vm_compute. intros [= <-]. vm_compute. intros [= <-]. reflexivity.
Defined.
