(* ===== verification/Fe.v ===== *)
(** The field of Curve25519, src/src/ed25519/fe.c: integers modulo [2 ^ 255 - 19].

    A field element is an array of ten [int32_t] limbs, of 26 and 25 bits in turn.
    Products and carries are in [int64_t]; every signed result is checked
    ([int32], [int64] of Limbs), a conversion to [int32_t] wraps ([s32]).  The named
    products of [fe_mul] and [fe_sq] ([f1g9_38 = f1_2 * (int64_t) g9_19]) appear as
    the pairs of the sums they are used in. *)
From S2P Require Import Prelude Bytes Limbs.

Notation fe := (list Z).

(** [f[0] .. f[9]] as local variables. *)
Definition limbs10 {A} (f : fe) (k : Z -> Z -> Z -> Z -> Z -> Z -> Z -> Z -> Z -> Z -> outcome A) : outcome A :=
  match f with
  | [f0; f1; f2; f3; f4; f5; f6; f7; f8; f9] => k f0 f1 f2 f3 f4 f5 f6 f7 f8 f9
  | _ => Stop OutOfBounds
  end.

(** The same statement for each of the limbs of two elements. *)
Fixpoint map2M (op : Z -> Z -> outcome Z) (f g : fe) : outcome fe :=
  match f, g with
  | [], [] => Done []
  | x :: f, y :: g => let* z := op x y in let* h := map2M op f g in Done (z :: h)
  | _, _ => Stop OutOfBounds
  end.

(** ** Loads *)

Definition load_3 (s : list Z) (o : nat) : Z :=
  Z.lor (Z.lor (s !!! o) (Z.shiftl (s !!! (o + 1)%nat) 8)) (Z.shiftl (s !!! (o + 2)%nat) 16).

Definition load_4 (s : list Z) (o : nat) : Z :=
  Z.lor (Z.lor (Z.lor (s !!! o) (Z.shiftl (s !!! (o + 1)%nat) 8)) (Z.shiftl (s !!! (o + 2)%nat) 16))
        (Z.shiftl (s !!! (o + 3)%nat) 24).

(** ** Constants, copies, selection *)

Definition fe_0 : fe := [0; 0; 0; 0; 0; 0; 0; 0; 0; 0].

Definition fe_1 : fe := [1; 0; 0; 0; 0; 0; 0; 0; 0; 0].

Definition fe_copy (f : fe) : outcome fe :=
  limbs10 f (fun f0 f1 f2 f3 f4 f5 f6 f7 f8 f9 => Done [f0; f1; f2; f3; f4; f5; f6; f7; f8; f9]).

(** [x &= b] for an [int32_t] and an [unsigned int]: the conjunction of the unsigned
    values, converted back. *)
Definition and_mask (x b : Z) : Z := s32 (Z.land (u32 x) b).

(** [b = (unsigned int) (- (int) b)], then limb by limb [f ^ ((f ^ g) & b)]. *)
Definition fe_cmov (f g : fe) (b : Z) : outcome fe :=
  let b := u32 (- b) in
  map2M (fun x y => Done (Z.lxor x (and_mask (Z.lxor x y) b))) f g.

Definition fe_cswap (f g : fe) (b : Z) : outcome (fe * fe) :=
  let b := u32 (- b) in
  let* f' := map2M (fun x y => Done (Z.lxor x (and_mask (Z.lxor x y) b))) f g in
  let* g' := map2M (fun x y => Done (Z.lxor y (and_mask (Z.lxor x y) b))) f g in
  Done (f', g').

(** ** Addition, subtraction, negation *)

Definition fe_add (f g : fe) : outcome fe := map2M (fun x y => int32 (x + y)) f g.

Definition fe_sub (f g : fe) : outcome fe := map2M (fun x y => int32 (x - y)) f g.

Definition fe_neg (f : fe) : outcome fe := map2M (fun x _ => int32 (- x)) f f.

(** ** Carries *)

(** [carry = (h_i + (int64_t) (1 << 25)) >> 26; h_(i+1) += carry; h_i -= carry << 26], and
    the same with 25 bits for the odd limbs; the carry of [h9] goes to [h0] times 19. *)
Definition c26 (i : nat) : carry := Carry (2 ^ 25) 26 i (i + 1) 1.
Definition c25 (i : nat) : carry := Carry (2 ^ 24) 25 i (i + 1) 1.
Definition c25_top : carry := Carry (2 ^ 24) 25 9 0 19.

(** The twelve carries after a multiplication or a squaring. *)
Definition mul_carries : list carry :=
  [c26 0; c26 4; c25 1; c25 5; c26 2; c26 6; c25 3; c25 7; c26 4; c26 8; c25_top; c26 0].

(** The ten carries of [fe_frombytes] and [fe_mul121666]: odd limbs, then even limbs. *)
Definition pair_carries : list carry :=
  [c25_top; c25 1; c25 3; c25 5; c25 7; c26 0; c26 2; c26 4; c26 6; c26 8].

(** [h[i] = (int32_t) hi]. *)
Definition store (h : list Z) : fe := s32 <$> h.

(** ** Bytes to field elements *)

Definition frombytes_limbs (s : list Z) : list Z :=
  [load_4 s 0; Z.shiftl (load_3 s 4) 6; Z.shiftl (load_3 s 7) 5; Z.shiftl (load_3 s 10) 3;
   Z.shiftl (load_3 s 13) 2; load_4 s 16; Z.shiftl (load_3 s 20) 7; Z.shiftl (load_3 s 23) 5;
   Z.shiftl (load_3 s 26) 4; Z.shiftl (Z.land (load_3 s 29) 8388607) 2].

Definition fe_frombytes (s : list Z) : outcome fe :=
  if (length s <? 32)%nat then Stop OutOfBounds
  else
    let* h := carries 64 pair_carries (frombytes_limbs s) in
    Done (store h).

(** ** Multiplication and squaring *)

Definition mul_columns (f g : fe) : outcome (list Z) :=
  limbs10 f (fun f0 f1 f2 f3 f4 f5 f6 f7 f8 f9 =>
  limbs10 g (fun g0 g1 g2 g3 g4 g5 g6 g7 g8 g9 =>
    let* g1_19 := int32 (19 * g1) in
    let* g2_19 := int32 (19 * g2) in
    let* g3_19 := int32 (19 * g3) in
    let* g4_19 := int32 (19 * g4) in
    let* g5_19 := int32 (19 * g5) in
    let* g6_19 := int32 (19 * g6) in
    let* g7_19 := int32 (19 * g7) in
    let* g8_19 := int32 (19 * g8) in
    let* g9_19 := int32 (19 * g9) in
    let* f1_2 := int32 (2 * f1) in
    let* f3_2 := int32 (2 * f3) in
    let* f5_2 := int32 (2 * f5) in
    let* f7_2 := int32 (2 * f7) in
    let* f9_2 := int32 (2 * f9) in
    let* h0 := sumprod 0 [(f0, g0); (f1_2, g9_19); (f2, g8_19); (f3_2, g7_19); (f4, g6_19);
                         (f5_2, g5_19); (f6, g4_19); (f7_2, g3_19); (f8, g2_19); (f9_2, g1_19)] in
    let* h1 := sumprod 0 [(f0, g1); (f1, g0); (f2, g9_19); (f3, g8_19); (f4, g7_19);
                         (f5, g6_19); (f6, g5_19); (f7, g4_19); (f8, g3_19); (f9, g2_19)] in
    let* h2 := sumprod 0 [(f0, g2); (f1_2, g1); (f2, g0); (f3_2, g9_19); (f4, g8_19);
                         (f5_2, g7_19); (f6, g6_19); (f7_2, g5_19); (f8, g4_19); (f9_2, g3_19)] in
    let* h3 := sumprod 0 [(f0, g3); (f1, g2); (f2, g1); (f3, g0); (f4, g9_19);
                         (f5, g8_19); (f6, g7_19); (f7, g6_19); (f8, g5_19); (f9, g4_19)] in
    let* h4 := sumprod 0 [(f0, g4); (f1_2, g3); (f2, g2); (f3_2, g1); (f4, g0);
                         (f5_2, g9_19); (f6, g8_19); (f7_2, g7_19); (f8, g6_19); (f9_2, g5_19)] in
    let* h5 := sumprod 0 [(f0, g5); (f1, g4); (f2, g3); (f3, g2); (f4, g1);
                         (f5, g0); (f6, g9_19); (f7, g8_19); (f8, g7_19); (f9, g6_19)] in
    let* h6 := sumprod 0 [(f0, g6); (f1_2, g5); (f2, g4); (f3_2, g3); (f4, g2);
                         (f5_2, g1); (f6, g0); (f7_2, g9_19); (f8, g8_19); (f9_2, g7_19)] in
    let* h7 := sumprod 0 [(f0, g7); (f1, g6); (f2, g5); (f3, g4); (f4, g3);
                         (f5, g2); (f6, g1); (f7, g0); (f8, g9_19); (f9, g8_19)] in
    let* h8 := sumprod 0 [(f0, g8); (f1_2, g7); (f2, g6); (f3_2, g5); (f4, g4);
                         (f5_2, g3); (f6, g2); (f7_2, g1); (f8, g0); (f9_2, g9_19)] in
    let* h9 := sumprod 0 [(f0, g9); (f1, g8); (f2, g7); (f3, g6); (f4, g5);
                         (f5, g4); (f6, g3); (f7, g2); (f8, g1); (f9, g0)] in
    Done [h0; h1; h2; h3; h4; h5; h6; h7; h8; h9])).

Definition fe_mul (f g : fe) : outcome fe :=
  let* h := mul_columns f g in
  let* h := carries 64 mul_carries h in
  Done (store h).

Definition sq_columns (f : fe) : outcome (list Z) :=
  limbs10 f (fun f0 f1 f2 f3 f4 f5 f6 f7 f8 f9 =>
    let* f0_2 := int32 (2 * f0) in
    let* f1_2 := int32 (2 * f1) in
    let* f2_2 := int32 (2 * f2) in
    let* f3_2 := int32 (2 * f3) in
    let* f4_2 := int32 (2 * f4) in
    let* f5_2 := int32 (2 * f5) in
    let* f6_2 := int32 (2 * f6) in
    let* f7_2 := int32 (2 * f7) in
    let* f5_38 := int32 (38 * f5) in
    let* f6_19 := int32 (19 * f6) in
    let* f7_38 := int32 (38 * f7) in
    let* f8_19 := int32 (19 * f8) in
    let* f9_38 := int32 (38 * f9) in
    let* h0 := sumprod 0 [(f0, f0); (f1_2, f9_38); (f2_2, f8_19); (f3_2, f7_38); (f4_2, f6_19);
                         (f5, f5_38)] in
    let* h1 := sumprod 0 [(f0_2, f1); (f2, f9_38); (f3_2, f8_19); (f4, f7_38); (f5_2, f6_19)] in
    let* h2 := sumprod 0 [(f0_2, f2); (f1_2, f1); (f3_2, f9_38); (f4_2, f8_19); (f5_2, f7_38);
                         (f6, f6_19)] in
    let* h3 := sumprod 0 [(f0_2, f3); (f1_2, f2); (f4, f9_38); (f5_2, f8_19); (f6, f7_38)] in
    let* h4 := sumprod 0 [(f0_2, f4); (f1_2, f3_2); (f2, f2); (f5_2, f9_38); (f6_2, f8_19);
                         (f7, f7_38)] in
    let* h5 := sumprod 0 [(f0_2, f5); (f1_2, f4); (f2_2, f3); (f6, f9_38); (f7_2, f8_19)] in
    let* h6 := sumprod 0 [(f0_2, f6); (f1_2, f5_2); (f2_2, f4); (f3_2, f3); (f7_2, f9_38);
                         (f8, f8_19)] in
    let* h7 := sumprod 0 [(f0_2, f7); (f1_2, f6); (f2_2, f5); (f3_2, f4); (f8, f9_38)] in
    let* h8 := sumprod 0 [(f0_2, f8); (f1_2, f7_2); (f2_2, f6); (f3_2, f5_2); (f4, f4);
                         (f9, f9_38)] in
    let* h9 := sumprod 0 [(f0_2, f9); (f1_2, f8); (f2_2, f7); (f3_2, f6); (f4_2, f5)] in
    Done [h0; h1; h2; h3; h4; h5; h6; h7; h8; h9]).

Definition fe_sq (f : fe) : outcome fe :=
  let* h := sq_columns f in
  let* h := carries 64 mul_carries h in
  Done (store h).

(** The columns are those of [fe_sq]; [h0 += h0] and so on before the carries. *)
Definition fe_sq2 (f : fe) : outcome fe :=
  let* h := sq_columns f in
  let* h := map2M (fun x y => int64 (x + y)) h h in
  let* h := carries 64 mul_carries h in
  Done (store h).

Definition fe_mul121666 (f : fe) : outcome fe :=
  let* h := map2M (fun x _ => int64 (x * 121666)) f f in
  let* h := carries 64 pair_carries h in
  Done (store h).

(** ** Powers *)

(** [for (i = 1; i < n; ++i) fe_sq(t, t)]: [n - 1] squarings. *)
Fixpoint sq_times (n : nat) (t : fe) : outcome fe :=
  match n with
  | O => Done t
  | S n => let* t := fe_sq t in sq_times n t
  end.

Definition fe_invert (z : fe) : outcome fe :=
  let* t0 := fe_sq z in
  let* t0 := sq_times 0 t0 in
  let* t1 := fe_sq t0 in
  let* t1 := sq_times 1 t1 in
  let* t1 := fe_mul z t1 in
  let* t0 := fe_mul t0 t1 in
  let* t2 := fe_sq t0 in
  let* t2 := sq_times 0 t2 in
  let* t1 := fe_mul t1 t2 in
  let* t2 := fe_sq t1 in
  let* t2 := sq_times 4 t2 in
  let* t1 := fe_mul t2 t1 in
  let* t2 := fe_sq t1 in
  let* t2 := sq_times 9 t2 in
  let* t2 := fe_mul t2 t1 in
  let* t3 := fe_sq t2 in
  let* t3 := sq_times 19 t3 in
  let* t2 := fe_mul t3 t2 in
  let* t2 := fe_sq t2 in
  let* t2 := sq_times 9 t2 in
  let* t1 := fe_mul t2 t1 in
  let* t2 := fe_sq t1 in
  let* t2 := sq_times 49 t2 in
  let* t2 := fe_mul t2 t1 in
  let* t3 := fe_sq t2 in
  let* t3 := sq_times 99 t3 in
  let* t2 := fe_mul t3 t2 in
  let* t2 := fe_sq t2 in
  let* t2 := sq_times 49 t2 in
  let* t1 := fe_mul t2 t1 in
  let* t1 := fe_sq t1 in
  let* t1 := sq_times 4 t1 in
  fe_mul t1 t0.

Definition fe_pow22523 (z : fe) : outcome fe :=
  let* t0 := fe_sq z in
  let* t0 := sq_times 0 t0 in
  let* t1 := fe_sq t0 in
  let* t1 := sq_times 1 t1 in
  let* t1 := fe_mul z t1 in
  let* t0 := fe_mul t0 t1 in
  let* t0 := fe_sq t0 in
  let* t0 := sq_times 0 t0 in
  let* t0 := fe_mul t1 t0 in
  let* t1 := fe_sq t0 in
  let* t1 := sq_times 4 t1 in
  let* t0 := fe_mul t1 t0 in
  let* t1 := fe_sq t0 in
  let* t1 := sq_times 9 t1 in
  let* t1 := fe_mul t1 t0 in
  let* t2 := fe_sq t1 in
  let* t2 := sq_times 19 t2 in
  let* t1 := fe_mul t2 t1 in
  let* t1 := fe_sq t1 in
  let* t1 := sq_times 9 t1 in
  let* t0 := fe_mul t1 t0 in
  let* t1 := fe_sq t0 in
  let* t1 := sq_times 49 t1 in
  let* t1 := fe_mul t1 t0 in
  let* t2 := fe_sq t1 in
  let* t2 := sq_times 99 t2 in
  let* t1 := fe_mul t2 t1 in
  let* t1 := fe_sq t1 in
  let* t1 := sq_times 49 t1 in
  let* t0 := fe_mul t1 t0 in
  let* t0 := fe_sq t0 in
  let* t0 := sq_times 1 t0 in
  fe_mul t0 z.

(** ** Field elements to bytes *)

(** [q = (hi + q) >> k] for the limbs in turn. *)
Fixpoint q_steps (q : Z) (l : list (Z * Z)) : outcome Z :=
  match l with
  | [] => Done q
  | (h, k) :: l => let* t := int32 (h + q) in q_steps (Z.shiftr t k) l
  end.

Definition tobytes_q (h : fe) : outcome Z :=
  limbs10 h (fun h0 h1 h2 h3 h4 h5 h6 h7 h8 h9 =>
    let* t := int32 (19 * h9) in
    let* t := int32 (t + 2 ^ 24) in
    q_steps (Z.shiftr t 25)
      [(h0, 26); (h1, 25); (h2, 26); (h3, 25); (h4, 26); (h5, 25); (h6, 26); (h7, 25); (h8, 26); (h9, 25)]).

(** [carry = h_i >> 26; h_(i+1) += carry; h_i -= carry << 26]. *)
Definition f26 (i : nat) : carry := Carry 0 26 i (i + 1) 1.
Definition f25 (i : nat) : carry := Carry 0 25 i (i + 1) 1.

Definition floor_carries : list carry :=
  [f26 0; f25 1; f26 2; f25 3; f26 4; f25 5; f26 6; f25 7; f26 8].

(** The limbs written out: [h0 += 19 * q], the carries, and the last carry dropped. *)
Definition tobytes_limbs (h : fe) : outcome fe :=
  let* q := tobytes_q h in
  let* d := int32 (19 * q) in
  let* h0 := int32 (h !!! 0%nat + d) in
  let* h := carries 32 floor_carries (<[0%nat := h0]> h) in
  let h9 := h !!! 9%nat in
  let* b := int32 (Z.shiftl (Z.shiftr h9 25) 25) in
  let* h9 := int32 (h9 - b) in
  Done (<[9%nat := h9]> h).

(** [(unsigned char) ((a >> i) | (b << j))]; [b << j] is an [int32_t]. *)
Definition byte2 (a i b j : Z) : Z := u8 (Z.lor (Z.shiftr a i) (s32 (Z.shiftl b j))).

Definition tobytes_pack (h : fe) : outcome (list Z) :=
  limbs10 h (fun h0 h1 h2 h3 h4 h5 h6 h7 h8 h9 =>
    Done [u8 (Z.shiftr h0 0); u8 (Z.shiftr h0 8); u8 (Z.shiftr h0 16);
          byte2 h0 24 h1 2; u8 (Z.shiftr h1 6); u8 (Z.shiftr h1 14);
          byte2 h1 22 h2 3; u8 (Z.shiftr h2 5); u8 (Z.shiftr h2 13);
          byte2 h2 21 h3 5; u8 (Z.shiftr h3 3); u8 (Z.shiftr h3 11);
          byte2 h3 19 h4 6; u8 (Z.shiftr h4 2); u8 (Z.shiftr h4 10); u8 (Z.shiftr h4 18);
          u8 (Z.shiftr h5 0); u8 (Z.shiftr h5 8); u8 (Z.shiftr h5 16);
          byte2 h5 24 h6 1; u8 (Z.shiftr h6 7); u8 (Z.shiftr h6 15);
          byte2 h6 23 h7 3; u8 (Z.shiftr h7 5); u8 (Z.shiftr h7 13);
          byte2 h7 21 h8 4; u8 (Z.shiftr h8 4); u8 (Z.shiftr h8 12);
          byte2 h8 20 h9 6; u8 (Z.shiftr h9 2); u8 (Z.shiftr h9 10); u8 (Z.shiftr h9 18)]).

Definition fe_tobytes (h : fe) : outcome (list Z) :=
  let* h := tobytes_limbs h in tobytes_pack h.

Definition fe_isnegative (f : fe) : outcome Z :=
  let* s := fe_tobytes f in Done (Z.land (s !!! 0%nat) 1).

(** [r = s[0]; r |= s[1]; ...; return r != 0]. *)
Definition fe_isnonzero (f : fe) : outcome bool :=
  let* s := fe_tobytes f in Done (negb (foldl Z.lor 0 s =? 0)).

(** ** What a field element stands for *)

Definition p25519 : Z := 2 ^ 255 - 19.

(** [t[0]+2^26 t[1]+2^51 t[2]+2^77 t[3]+2^102 t[4]+...+2^230 t[9]]. *)
Definition fe_weights : list Z :=
  [2 ^ 0; 2 ^ 26; 2 ^ 51; 2 ^ 77; 2 ^ 102; 2 ^ 128; 2 ^ 153; 2 ^ 179; 2 ^ 204; 2 ^ 230].

Definition fe_val (f : fe) : Z := dot fe_weights f.

(** [fe_bound c e]: "bounded by c*2^e,c*2^(e-1),c*2^e,..." of the comments, [c] in hundredths. *)
Definition fe_bound (c e : Z) : list itv :=
  let a := c * 2 ^ e / 100 in
  let b := c * 2 ^ (e - 1) / 100 in
  [(- a, a); (- b, b); (- a, a); (- b, b); (- a, a); (- b, b); (- a, a); (- b, b); (- a, a); (- b, b)].

Notation bounded c e := (inbs (fe_bound c e)).
