(* ===== verification/FeArith.v ===== *)
(** The field operations of fe.c compute in the integers modulo [2 ^ 255 - 19], and
    do not overflow under the bounds their comments ask for; then field elements and
    bytes: [fe_frombytes], [fe_tobytes], the tests and the selections. *)
From S2P Require Import Prelude Bytes Limbs Fe.

(** ** Bounds *)

Lemma bounded_cases c e f :
  bounded c e f ->
  exists f0 f1 f2 f3 f4 f5 f6 f7 f8 f9, f = [f0; f1; f2; f3; f4; f5; f6; f7; f8; f9] /\
    let a := c * 2 ^ e / 100 in
    let b := c * 2 ^ (e - 1) / 100 in
    within a f0 /\ within b f1 /\ within a f2 /\ within b f3 /\ within a f4 /\
    within b f5 /\ within a f6 /\ within b f7 /\ within a f8 /\ within b f9.
Proof.
  unfold inbs, fe_bound, inb. intros H. cbn beta zeta in *.
  repeat match goal with H : Forall2 _ (_ :: _) _ |- _ => inversion_clear H
                       | H : Forall2 _ [] _ |- _ => inversion_clear H end.
  cbn [fst snd] in *. do 10 eexists. split; [reflexivity|]. unfold within. tauto.
Qed.

Lemma bounded_length c e f : bounded c e f -> length f = 10%nat.
Proof. intros H%inbs_length. done. Qed.

Lemma bounded_mono c e c' e' f :
  subI (fe_bound c e) (fe_bound c' e') = true -> bounded c e f -> bounded c' e' f.
Proof. apply subI_ok. Qed.

Lemma inb_within b x : within b x -> inb (- b, b) x.
Proof. done. Qed.

(** Limbs that fit in 32 bits are stored as they are. *)
Lemma store_id B h : forallb (fitsI 32) B = true -> inbs B h -> store h = h.
Proof.
  intros HB H. unfold store. revert HB. induction H as [|b x B h Hb H IH]; intros HB; [done|].
  cbn in HB. apply andb_true_iff in HB as [Hf HB]. cbn. rewrite IH by done. f_equal.
  unfold fitsI, fits in Hf. unfold inb in Hb. ztests. apply s32_small.
  change (2 ^ (32 - 1)) with (2 ^ 31) in *. lia.
Qed.

(** Whether carries from [B] stay in range, keep the value modulo [p25519], end within
    [B'], and [B'] fits in 32 bits. *)
Definition carries_within (cs : list carry) (B B' : list itv) : bool :=
  forallb (fitsI 32) B' && carries_to 64 fe_weights p25519 cs B B'.

Lemma carry_store cs B B' h :
  carries_within cs B B' = true -> inbs B h ->
  returns (let* h := carries 64 cs h in Done (store h))
    (fun h' => inbs B' h' /\ fe_val h' ≡ dot fe_weights h [mod p25519]).
Proof.
  intros H Hh. apply andb_true_iff in H as [HB H].
  eapply returns_bind; [by apply (carries_to_ok _ _ _ _ _ _ H)|]. intros h' [Hb Hv]. cbn.
  by rewrite (store_id B') by done.
Qed.

(** ** Addition, subtraction, negation *)

(** Pointwise operations, with [d] the bound of [v] from the bounds of its arguments. *)
Lemma map2M_ck w v d (B C : list itv) f g :
  (forall b c x y, inb b x -> inb c y -> inb (d b c) (v x y)) ->
  inbs B f -> inbs C g -> length B = length C -> forallb (fitsI w) (zip_with d B C) = true ->
  map2M (fun x y => ck w (v x y)) f g = Done (zip_with v f g) /\ inbs (zip_with d B C) (zip_with v f g).
Proof.
  intros Hd Hf. revert C g. induction Hf as [|b x B f Hb Hf IH]; intros C g Hg Hl HD.
  - destruct C; [|done]. inversion Hg. cbn. by split; [|constructor].
  - destruct C as [|c C]; [done|]. inversion Hg as [|? y ? g' Hc Hg']; subst.
    cbn in HD. apply andb_true_iff in HD as [Hw HD]. cbn.
    rewrite (ck_in w _ _ Hw) by (by apply Hd). cbn [obind].
    destruct (IH C g' Hg' ltac:(by injection Hl) HD) as [-> Hr]. cbn [obind]. split; [done|].
    constructor; [by apply Hd|done].
Qed.

Lemma dot_add W f g : length f = length g -> dot W (zip_with Z.add f g) = dot W f + dot W g.
Proof.
  revert W g. induction f as [|x f IH]; intros [|w W] [|y g] H; try done. cbn. rewrite IH by (by injection H). ring.
Qed.

Lemma dot_sub W f g : length f = length g -> dot W (zip_with Z.sub f g) = dot W f - dot W g.
Proof.
  revert W g. induction f as [|x f IH]; intros [|w W] [|y g] H; try done. cbn. rewrite IH by (by injection H). ring.
Qed.

Lemma dot_scale W k f : dot W (zip_with (fun x _ => x * k) f f) = k * dot W f.
Proof. revert W. induction f as [|x f IH]; intros [|w W]; cbn; [ring..|]. rewrite IH. ring. Qed.

Lemma dot_opp W f : dot W (zip_with (fun x _ => - x) f f) = - dot W f.
Proof. revert W. induction f as [|x f IH]; intros [|w W]; cbn; [ring..|]. rewrite IH. ring. Qed.

(** Bounds of a sum of two elements. *)
Definition addB (B C : list itv) : list itv := zip_with (fun b c => (b.1 + c.1, b.2 + c.2)) B C.
Definition subB (B C : list itv) : list itv := zip_with (fun b c => (b.1 - c.2, b.2 - c.1)) B C.

Lemma fe_add_in B C f g :
  inbs B f -> inbs C g -> length B = length C -> forallb (fitsI 32) (addB B C) = true ->
  returns (fe_add f g) (fun h => inbs (addB B C) h /\ fe_val h = fe_val f + fe_val g).
Proof.
  intros Hf Hg Hl HD.
  destruct (map2M_ck 32 Z.add (fun b c => (b.1 + c.1, b.2 + c.2)) B C f g) as [E Hb]; try done.
  - unfold inb. cbn. lia.
  - unfold fe_add. rewrite E. cbn [returns]. split; [done|]. apply dot_add.
    by rewrite <- (inbs_length _ _ Hf), <- (inbs_length _ _ Hg).
Qed.

Lemma fe_sub_in B C f g :
  inbs B f -> inbs C g -> length B = length C -> forallb (fitsI 32) (subB B C) = true ->
  returns (fe_sub f g) (fun h => inbs (subB B C) h /\ fe_val h = fe_val f - fe_val g).
Proof.
  intros Hf Hg Hl HD.
  destruct (map2M_ck 32 Z.sub (fun b c => (b.1 - c.2, b.2 - c.1)) B C f g) as [E Hb]; try done.
  - unfold inb. cbn. lia.
  - unfold fe_sub. rewrite E. cbn [returns]. split; [done|]. apply dot_sub.
    by rewrite <- (inbs_length _ _ Hf), <- (inbs_length _ _ Hg).
Qed.

Definition negB (B : list itv) : list itv := zip_with (fun b _ => (- b.2, - b.1)) B B.

Lemma fe_neg_in B f :
  inbs B f -> forallb (fitsI 32) (negB B) = true ->
  returns (fe_neg f) (fun h => inbs (negB B) h /\ fe_val h = - fe_val f).
Proof.
  intros Hf HD. destruct (map2M_ck 32 (fun x _ => - x) (fun b _ => (- b.2, - b.1)) B B f f) as [E Hb]; try done.
  - unfold inb. cbn. lia.
  - unfold fe_neg. rewrite E. cbn [returns]. split; [done|]. apply dot_opp.
Qed.

(** ** Products *)

Lemma sumprod_bind {A} l bs (k : Z -> outcome A) Q :
  Forall2 within2 l bs -> (sumprodB 0 bs <? 2 ^ 63) = true ->
  (within (sumprodB 0 bs) (sumprodZ 0 l) -> returns (k (sumprodZ 0 l)) Q) ->
  returns (let* h := sumprod 0 l in k h) Q.
Proof.
  intros H HB Hk. destruct (sumprod_ok 0 0 l bs) as [E W]; [by split|done|done|]. rewrite E. by apply Hk.
Qed.

Lemma ck_bind {A} w b x (k : Z -> outcome A) Q :
  within b x -> (b <? 2 ^ (w - 1)) = true -> (within b x -> returns (k x) Q) ->
  returns (let* h := ck w x in k h) Q.
Proof. intros H HB Hk. rewrite (ck_within w b) by done. by apply Hk. Qed.

Lemma within2_intro a b x y : within a x -> within b y -> within2 (x, y) (a, b).
Proof. by split. Qed.

Lemma scale_within k b x : (0 <=? k) = true -> within b x -> within (k * b) (k * x).
Proof. intros H%Z.leb_le. by apply within_scale. Qed.

Ltac products :=
  repeat (eapply List.Forall2_cons;
    [match goal with |- within2 (?x, ?y) _ =>
       match goal with Hx : within ?a x |- _ => match goal with Hy : within ?b y |- _ =>
         exact (within2_intro a b x y Hx Hy) end end end|]);
  apply List.Forall2_nil.

Ltac columns :=
  repeat match goal with
  | |- returns (obind (ck _ (?k * ?x)) _) _ =>
      eapply ck_bind; [match goal with H : within ?b x |- _ => exact (scale_within k b x eq_refl H) end|vm_compute; reflexivity|intros ?]
  | |- returns (obind (sumprod 0 _) _) _ =>
      eapply sumprod_bind; [products|vm_compute; reflexivity|intros ?]
  end.

Lemma mul_columns_ok f g :
  bounded 165 26 f -> bounded 165 26 g ->
  exists B, carries_within mul_carries B (fe_bound 101 25) = true /\
  returns (mul_columns f g) (fun h => inbs B h /\ dot fe_weights h ≡ fe_val f * fe_val g [mod p25519]).
Proof.
  intros Hf Hg.
  destruct (bounded_cases _ _ _ Hf) as (f0 & f1 & f2 & f3 & f4 & f5 & f6 & f7 & f8 & f9 & -> & F).
  destruct (bounded_cases _ _ _ Hg) as (g0 & g1 & g2 & g3 & g4 & g5 & g6 & g7 & g8 & g9 & -> & G).
  cbn zeta in F, G. destruct_and! F. destruct_and! G. clear Hf Hg. eexists. split; [shelve|].
  unfold mul_columns, limbs10. columns. cbn [returns]. split.
  - unfold inbs. repeat (eapply List.Forall2_cons; [apply inb_within; eassumption|]). apply List.Forall2_nil.
  - unfold fe_val. cbn [dot fe_weights sumprodZ foldl]. unfold p25519.
    exists (- (2 ^ 0 * (2 * f1 * g9 + f2 * g8 + 2 * f3 * g7 + f4 * g6 + 2 * f5 * g5 + f6 * g4 + 2 * f7 * g3 + f8 * g2 + 2 * f9 * g1) +
    2 ^ 26 * (f2 * g9 + f3 * g8 + f4 * g7 + f5 * g6 + f6 * g5 + f7 * g4 + f8 * g3 + f9 * g2) +
    2 ^ 51 * (2 * f3 * g9 + f4 * g8 + 2 * f5 * g7 + f6 * g6 + 2 * f7 * g5 + f8 * g4 + 2 * f9 * g3) +
    2 ^ 77 * (f4 * g9 + f5 * g8 + f6 * g7 + f7 * g6 + f8 * g5 + f9 * g4) +
    2 ^ 102 * (2 * f5 * g9 + f6 * g8 + 2 * f7 * g7 + f8 * g6 + 2 * f9 * g5) +
    2 ^ 128 * (f6 * g9 + f7 * g8 + f8 * g7 + f9 * g6) +
    2 ^ 153 * (2 * f7 * g9 + f8 * g8 + 2 * f9 * g7) +
    2 ^ 179 * (f8 * g9 + f9 * g8) +
    2 ^ 204 * (2 * f9 * g9))). ring.
Unshelve.
  vm_compute. reflexivity.
Qed.

Lemma sq_columns_ok f :
  bounded 165 26 f ->
  exists B, carries_within mul_carries B (fe_bound 101 25) = true /\
    forallb (fitsI 64) (addB B B) = true /\
    carries_within mul_carries (addB B B) (fe_bound 101 25) = true /\
  returns (sq_columns f) (fun h => inbs B h /\ dot fe_weights h ≡ fe_val f * fe_val f [mod p25519]).
Proof.
  intros Hf.
  destruct (bounded_cases _ _ _ Hf) as (f0 & f1 & f2 & f3 & f4 & f5 & f6 & f7 & f8 & f9 & -> & F).
  cbn zeta in F. destruct_and! F. clear Hf. eexists. split; [shelve|]. split; [shelve|]. split; [shelve|].
  unfold sq_columns, limbs10. columns. cbn [returns]. split.
  - unfold inbs. repeat (eapply List.Forall2_cons; [apply inb_within; eassumption|]). apply List.Forall2_nil.
  - unfold fe_val. cbn [dot fe_weights sumprodZ foldl]. unfold p25519.
    exists (- (2 ^ 0 * (2 * f1 * f9 + f2 * f8 + 2 * f3 * f7 + f4 * f6 + 2 * f5 * f5 + f6 * f4 + 2 * f7 * f3 + f8 * f2 + 2 * f9 * f1) +
    2 ^ 26 * (f2 * f9 + f3 * f8 + f4 * f7 + f5 * f6 + f6 * f5 + f7 * f4 + f8 * f3 + f9 * f2) +
    2 ^ 51 * (2 * f3 * f9 + f4 * f8 + 2 * f5 * f7 + f6 * f6 + 2 * f7 * f5 + f8 * f4 + 2 * f9 * f3) +
    2 ^ 77 * (f4 * f9 + f5 * f8 + f6 * f7 + f7 * f6 + f8 * f5 + f9 * f4) +
    2 ^ 102 * (2 * f5 * f9 + f6 * f8 + 2 * f7 * f7 + f8 * f6 + 2 * f9 * f5) +
    2 ^ 128 * (f6 * f9 + f7 * f8 + f8 * f7 + f9 * f6) +
    2 ^ 153 * (2 * f7 * f9 + f8 * f8 + 2 * f9 * f7) +
    2 ^ 179 * (f8 * f9 + f9 * f8) +
    2 ^ 204 * (2 * f9 * f9))). ring.
Unshelve.
  all: vm_compute; reflexivity.
Qed.

(** Multiplication: within the documented bounds nothing overflows, and the result is
    the product. *)
Lemma fe_mul_spec f g :
  bounded 165 26 f -> bounded 165 26 g ->
  returns (fe_mul f g) (fun h => bounded 101 25 h /\ fe_val h ≡ fe_val f * fe_val g [mod p25519]).
Proof.
  intros Hf Hg. destruct (mul_columns_ok f g Hf Hg) as (B & HB & H). unfold fe_mul.
  eapply returns_bind; [exact H|]. intros h [Hb Hv].
  eapply returns_mono; [by apply (carry_store _ _ _ _ HB)|]. intros h' [Hb' Hv']. split; [done|]. by rewrite Hv'.
Qed.

Lemma fe_sq_spec f :
  bounded 165 26 f ->
  returns (fe_sq f) (fun h => bounded 101 25 h /\ fe_val h ≡ fe_val f * fe_val f [mod p25519]).
Proof.
  intros Hf. destruct (sq_columns_ok f Hf) as (B & HB & _ & _ & H). unfold fe_sq.
  eapply returns_bind; [exact H|]. intros h [Hb Hv].
  eapply returns_mono; [by apply (carry_store _ _ _ _ HB)|]. intros h' [Hb' Hv']. split; [done|]. by rewrite Hv'.
Qed.

Lemma fe_sq2_spec f :
  bounded 165 26 f ->
  returns (fe_sq2 f) (fun h => bounded 101 25 h /\ fe_val h ≡ 2 * (fe_val f * fe_val f) [mod p25519]).
Proof.
  intros Hf. destruct (sq_columns_ok f Hf) as (B & _ & H64 & HB & H). unfold fe_sq2.
  eapply returns_bind; [exact H|]. intros h [Hb Hv].
  destruct (map2M_ck 64 Z.add (fun b c => (b.1 + c.1, b.2 + c.2)) B B h h) as [E Hb2]; try done.
  { unfold inb. cbn. lia. }
  rewrite E. cbn [obind]. eapply returns_mono; [by apply (carry_store _ _ _ _ HB)|].
  intros h' [Hb' Hv']. split; [done|]. rewrite Hv', dot_add by done. rewrite Hv. exists 0. ring.
Qed.

Lemma fe_mul121666_spec f :
  bounded 110 26 f ->
  returns (fe_mul121666 f) (fun h => bounded 110 25 h /\ fe_val h ≡ 121666 * fe_val f [mod p25519]).
Proof.
  intros Hf. unfold fe_mul121666.
  destruct (map2M_ck 64 (fun x _ => x * 121666) (fun b _ => (b.1 * 121666, b.2 * 121666))
    (fe_bound 110 26) (fe_bound 110 26) f f) as [E Hb]; try done.
  { unfold inb. cbn [fst snd]. lia. }
  rewrite E. cbn [obind]. eapply returns_mono; [eapply (carry_store _ _ (fe_bound 110 25)); [|exact Hb]|].
  - vm_compute. reflexivity.
  - intros h [Hb' Hv]. split; [done|]. by rewrite Hv, dot_scale.
Qed.

(** ** Powers *)

(** [t] holds the [k]-th power of [z]. *)
Definition power (z : fe) (k : Z) (t : fe) : Prop :=
  bounded 165 26 t /\ 0 <= k /\ fe_val t ≡ fe_val z ^ k [mod p25519].

Lemma tight_loose f : bounded 101 25 f -> bounded 165 26 f.
Proof. apply bounded_mono. vm_compute. reflexivity. Qed.

Lemma power_1 z : bounded 165 26 z -> power z 1 z.
Proof. intros H. split; [done|]. split; [lia|]. by rewrite Z.pow_1_r. Qed.

Lemma mul_power_tight z a b t u :
  power z a t -> power z b u -> returns (fe_mul t u) (fun h => bounded 101 25 h /\ power z (a + b) h).
Proof.
  intros (Ht & Ha & Et) (Hu & Hb & Eu). eapply returns_mono; [by apply fe_mul_spec|].
  intros h [Hh Eh]. split; [done|]. split; [by apply tight_loose|]. split; [lia|].
  by rewrite Eh, Et, Eu, Z.pow_add_r.
Qed.

Lemma mul_power z a b t u : power z a t -> power z b u -> returns (fe_mul t u) (power z (a + b)).
Proof. intros Ht Hu. eapply returns_mono; [by apply mul_power_tight|]. by intros h []. Qed.

Lemma sq_power z a t : power z a t -> returns (fe_sq t) (power z (2 * a)).
Proof.
  intros (Ht & Ha & Et). eapply returns_mono; [by apply fe_sq_spec|]. intros h [Hh Eh].
  split; [by apply tight_loose|]. split; [lia|].
  rewrite Eh, Et. replace (2 * a) with (a + a) by lia. by rewrite Z.pow_add_r.
Qed.

Lemma sq_times_power n z a t : power z a t -> returns (sq_times n t) (power z (2 ^ Z.of_nat n * a)).
Proof.
  revert a t. induction n as [|n IH]; intros a t Ht.
  - cbn [sq_times returns]. replace (2 ^ Z.of_nat 0 * a) with a by (cbn; lia). done.
  - cbn [sq_times]. eapply returns_bind; [by apply sq_power|]. intros t' Ht'.
    replace (2 ^ Z.of_nat (S n) * a) with (2 ^ Z.of_nat n * (2 * a)); [by apply IH|].
    rewrite Nat2Z.inj_succ, Z.pow_succ_r by lia. ring.
Qed.

Ltac power_steps :=
  repeat (eapply returns_bind;
    [first [eapply mul_power; eassumption | eapply sq_times_power; eassumption | eapply sq_power; eassumption]
    | intros ? ?]).

Lemma fe_invert_spec z :
  bounded 165 26 z ->
  returns (fe_invert z) (fun h => bounded 101 25 h /\ fe_val h ≡ fe_val z ^ (p25519 - 2) [mod p25519]).
Proof.
  intros Hz%power_1. unfold fe_invert. power_steps.
  eapply returns_mono; [eapply mul_power_tight; eassumption|]. intros h (Hh & _ & _ & Eh). split; [done|].
  exact Eh.
Qed.

Lemma fe_pow22523_spec z :
  bounded 165 26 z ->
  returns (fe_pow22523 z) (fun h => bounded 101 25 h /\ fe_val h ≡ fe_val z ^ ((p25519 - 5) / 8) [mod p25519]).
Proof.
  intros Hz%power_1. unfold fe_pow22523. power_steps.
  eapply returns_mono; [eapply mul_power_tight; eassumption|]. intros h (Hh & _ & _ & Eh). split; [done|].
  exact Eh.
Qed.

(** ** Field elements and bytes: [fe_frombytes], [fe_tobytes] and the tests built on them,
    and the selections [fe_cmov] and [fe_cswap]. *)

(** ** Loads *)

Lemma byte_at s o : bytes_ok s -> (o < length s)%nat -> 0 <= s !!! o < 256.
Proof.
  intros Hs Ho. destruct (lookup_lt_is_Some_2 s o Ho) as [b Hb]. rewrite (lookup_total_eq _ _ _ Hb).
  unfold bytes_ok in Hs. rewrite Forall_lookup in Hs. specialize (Hs _ _ Hb). cbn in Hs. lia.
Qed.

Lemma lor_shift x y n : 0 <= n -> 0 <= x < 2 ^ n -> Z.lor x (Z.shiftl y n) = x + y * 2 ^ n.
Proof. intros. rewrite Z.shiftl_mul_pow2 by done. by apply lor_add. Qed.

Lemma load_3_val s o :
  bytes_ok s -> (o + 2 < length s)%nat ->
  load_3 s o = s !!! o + 256 * s !!! (o + 1)%nat + 65536 * s !!! (o + 2)%nat /\ 0 <= load_3 s o < 2 ^ 24.
Proof.
  intros Hs Ho. pose proof (byte_at s o Hs ltac:(lia)). pose proof (byte_at s (o + 1) Hs ltac:(lia)).
  pose proof (byte_at s (o + 2) Hs ltac:(lia)). unfold load_3.
  rewrite (lor_shift _ _ 8) by lia. rewrite lor_shift by lia. lia.
Qed.

Lemma load_4_val s o :
  bytes_ok s -> (o + 3 < length s)%nat ->
  load_4 s o = load_3 s o + 2 ^ 24 * s !!! (o + 3)%nat /\ 0 <= load_4 s o < 2 ^ 32.
Proof.
  intros Hs Ho. destruct (load_3_val s o Hs ltac:(lia)) as [_ H3]. pose proof (byte_at s (o + 3) Hs ltac:(lia)).
  unfold load_4. fold (load_3 s o). rewrite lor_shift by lia. lia.
Qed.

(** ** [fe_frombytes] *)

Definition frombytes_bound : list itv :=
  [(0, 2 ^ 32); (0, 2 ^ 30); (0, 2 ^ 29); (0, 2 ^ 27); (0, 2 ^ 26);
   (0, 2 ^ 32); (0, 2 ^ 31); (0, 2 ^ 29); (0, 2 ^ 28); (0, 2 ^ 25)].

Ltac byte_list s Hl :=
  do 32 (destruct s as [|? s]; [discriminate Hl|]); destruct s; [|discriminate Hl]; clear Hl.

Lemma le_val_32 s : length s = 32%nat -> bytes_ok s ->
  le_val s = load_4 s 0 + 2 ^ 32 * load_3 s 4 + 2 ^ 56 * load_3 s 7 + 2 ^ 80 * load_3 s 10 + 2 ^ 104 * load_3 s 13
    + 2 ^ 128 * load_4 s 16 + 2 ^ 160 * load_3 s 20 + 2 ^ 184 * load_3 s 23 + 2 ^ 208 * load_3 s 26
    + 2 ^ 232 * load_3 s 29.
Proof.
  intros Hl Hs.
  pose proof (fun o H => proj1 (load_3_val s o Hs H)) as L3. pose proof (fun o H => proj1 (load_4_val s o Hs H)) as L4.
  rewrite !L4, !L3 by lia. clear L3 L4 Hs. byte_list s Hl. cbn -[Z.mul Z.add Z.pow]. ring.
Qed.

Lemma frombytes_limbs_ok s :
  length s = 32%nat -> bytes_ok s ->
  inbs frombytes_bound (frombytes_limbs s) /\ dot fe_weights (frombytes_limbs s) = le_val s mod 2 ^ 255.
Proof.
  intros Hl Hs. rewrite le_val_32 by done.
  pose proof (fun o H => proj2 (load_3_val s o Hs H)) as L3. pose proof (fun o H => proj2 (load_4_val s o Hs H)) as L4.
  rewrite Hl in L3, L4. pose proof (L4 0%nat ltac:(lia)). pose proof (L3 4%nat ltac:(lia)). pose proof (L3 7%nat ltac:(lia)).
  pose proof (L3 10%nat ltac:(lia)). pose proof (L3 13%nat ltac:(lia)). pose proof (L4 16%nat ltac:(lia)).
  pose proof (L3 20%nat ltac:(lia)). pose proof (L3 23%nat ltac:(lia)). pose proof (L3 26%nat ltac:(lia)).
  pose proof (L3 29%nat ltac:(lia)). clear L3 L4. unfold frombytes_limbs.
  rewrite (land_mask _ 23) by done. rewrite !Z.shiftl_mul_pow2 by done.
  pose proof (Z.mod_pos_bound (load_3 s 29) (2 ^ 23) ltac:(lia)) as Hm.
  pose proof (Z.div_mod (load_3 s 29) (2 ^ 23) ltac:(lia)) as Hd.
  generalize dependent (load_3 s 29 mod 2 ^ 23). generalize (load_3 s 29 / 2 ^ 23). intros hi lo Hlo Hd.
  split.
  - unfold frombytes_bound, inbs, inb. repeat (apply Forall2_cons; split; [cbn [fst snd]; lia|]). apply Forall2_nil. done.
  - cbn [dot fe_weights]. rewrite Hd. apply (Z.mod_unique _ _ hi); [left|]; lia.
Qed.

(** ** [fe_tobytes]: the quotient *)

Fixpoint q_pure (q : Z) (l : list (Z * Z)) : Z :=
  match l with [] => q | (h, k) :: l => q_pure (Z.shiftr (h + q) k) l end.

(** The value of the limbs at the weights given by the shifts. *)
Fixpoint q_sum (l : list (Z * Z)) : Z :=
  match l with [] => 0 | (h, k) :: l => h + 2 ^ k * q_sum l end.

Fixpoint q_shift (l : list (Z * Z)) : Z :=
  match l with [] => 0 | (_, k) :: l => k + q_shift l end.

(** Floors of floors: one division by the whole power. *)
Lemma q_pure_div l q :
  Forall (fun '(_, k) => 0 <= k) l -> q_pure q l = (q_sum l + q) / 2 ^ q_shift l /\ 0 <= q_shift l.
Proof.
  revert q. induction l as [|[h k] l IH]; intros q Hl; cbn [q_pure q_sum q_shift].
  - rewrite Z.div_1_r. lia.
  - apply Forall_cons in Hl as [Hk Hl]. destruct (IH (Z.shiftr (h + q) k) Hl) as [-> Hs]. split; [|lia].
    rewrite Z.shiftr_div_pow2, Z.pow_add_r by done.
    assert (0 < 2 ^ k) by (by apply Z.pow_pos_nonneg). assert (0 < 2 ^ q_shift l) by (by apply Z.pow_pos_nonneg).
    rewrite <- Z.div_div by lia. f_equal. rewrite Z.add_comm, <- Z.div_add by lia. f_equal. ring.
Qed.

Fixpoint q_stepsI (q : itv) (l : list (itv * Z)) : option itv :=
  match l with
  | [] => Some q
  | (h, k) :: l =>
      let t := (h.1 + q.1, h.2 + q.2) in
      if fitsI 32 t && (0 <=? k) then q_stepsI (Z.shiftr t.1 k, Z.shiftr t.2 k) l else None
  end.

Lemma q_steps_ok l : forall q b bs b',
  inb b q -> Forall2 (fun '(h, k) '(c, k') => inb c h /\ k = k') l bs -> q_stepsI b bs = Some b' ->
  q_steps q l = Done (q_pure q l) /\ inb b' (q_pure q l).
Proof.
  induction l as [|[h k] l IH]; intros q b bs b' Hb H E; inversion H as [|? [c k'] ? bs' Hc Hr]; subst; cbn in E.
  - by injection E as ->.
  - destruct Hc as [Hc <-]. case_match eqn:T; [|done]. apply andb_true_iff in T as [T Hk%Z.leb_le].
    unfold inb in Hb, Hc. cbn [q_steps q_pure]. rewrite (ck_in 32 _ _ T) by (unfold inb; cbn [fst snd]; lia).
    cbn [obind]. eapply IH; [|done|done]. split; apply shiftr_mono; cbn [fst snd]; lia.
Qed.

(** The estimate of the comment: the quotient by [2 ^ 255] of [h + 19 2^(-25) h9 + 2^(-1)],
    rounded twice, is the quotient by [p25519]. *)
Lemma q_is_quotient H Lo h9 q0 :
  H = Lo + 2 ^ 230 * h9 -> - 2 ^ 232 < Lo < 2 ^ 232 -> - 2 ^ 26 < h9 < 2 ^ 26 ->
  q0 = (19 * h9 + 2 ^ 24) / 2 ^ 25 -> (H + q0) / 2 ^ 255 = H / p25519.
Proof.
  intros HH HL H9 Hq. pose proof (Z.div_mod (19 * h9 + 2 ^ 24) (2 ^ 25) ltac:(lia)) as D.
  pose proof (Z.mod_pos_bound (19 * h9 + 2 ^ 24) (2 ^ 25) ltac:(lia)) as R. rewrite <- Hq in D.
  pose proof (Z.div_mod (H + q0) (2 ^ 255) ltac:(lia)) as D2.
  pose proof (Z.mod_pos_bound (H + q0) (2 ^ 255) ltac:(lia)) as R2. clear Hq.
  set (q := (H + q0) / 2 ^ 255) in *. set (r := (H + q0) mod 2 ^ 255) in *. set (e := (19 * h9 + 2 ^ 24) mod 2 ^ 25) in *.
  apply (Z.div_unique _ _ _ (r - q0 + 19 * q)); [left|unfold p25519; lia].
  clearbody q r e. unfold p25519. lia.
Qed.

Definition tobytes_weights : list (itv * Z) := zip (fe_bound 110 26) [26; 25; 26; 25; 26; 25; 26; 25; 26; 25].

Lemma tobytes_q_ok h :
  bounded 110 26 h -> tobytes_q h = Done (fe_val h / p25519) /\ inb (-3, 2) (fe_val h / p25519).
Proof.
  intros Hh. pose proof (dot_bounds (take 9 fe_weights) (take 9 (fe_bound 110 26)) (take 9 h)) as Bd.
  destruct (bounded_cases _ _ _ Hh) as (h0 & h1 & h2 & h3 & h4 & h5 & h6 & h7 & h8 & h9 & -> & F).
  cbn zeta in F. destruct_and! F.
  assert (- 2 ^ 232 < dot (take 9 fe_weights) [h0; h1; h2; h3; h4; h5; h6; h7; h8] < 2 ^ 232) as HL.
  { destruct Bd as [B1 B2].
    - repeat constructor; done.
    - by apply Forall2_take.
    - change (- 2 ^ 232 < dot (take 9 fe_weights) (take 9 [h0; h1; h2; h3; h4; h5; h6; h7; h8; h9]) < 2 ^ 232).
      split; [eapply Z.lt_le_trans; [|exact B1]|eapply Z.le_lt_trans; [exact B2|]]; vm_compute; reflexivity. }
  assert (within (110 * 2 ^ 25 / 100) h9) as Hn9 by done. unfold within in Hn9. change (110 * 2 ^ 25 / 100) with 36909875 in Hn9.
  unfold tobytes_q, limbs10. rewrite (ck_within 32 (19 * 2 ^ 26)) by first [reflexivity | unfold within; lia]. cbn [obind].
  rewrite (ck_within 32 (20 * 2 ^ 26)) by first [reflexivity | unfold within; lia]. cbn [obind].
  edestruct (q_steps_ok [(h0, 26); (h1, 25); (h2, 26); (h3, 25); (h4, 26); (h5, 25); (h6, 26); (h7, 25); (h8, 26); (h9, 25)]
    (Z.shiftr (19 * h9 + 2 ^ 24) 25) (-50, 50) tobytes_weights) as [E Hq].
  - rewrite Z.shiftr_div_pow2 by done. unfold inb. cbn [fst snd]. split.
    + apply Z.div_le_lower_bound; lia.
    + apply Z.lt_succ_r, Z.div_lt_upper_bound; lia.
  - unfold inbs in Hh. unfold tobytes_weights, fe_bound in *. cbn [zip zip_with] in *.
    repeat match goal with H : Forall2 _ (_ :: _) (_ :: _) |- _ => apply Forall2_cons in H as [? H] end.
    repeat (apply Forall2_cons; split; [split; [eassumption|reflexivity]|]). apply Forall2_nil. done.
  - vm_compute. reflexivity.
  - rewrite E. destruct (q_pure_div [(h0, 26); (h1, 25); (h2, 26); (h3, 25); (h4, 26); (h5, 25); (h6, 26); (h7, 25);
      (h8, 26); (h9, 25)] (Z.shiftr (19 * h9 + 2 ^ 24) 25)) as [Eq _].
    { repeat constructor; lia. }
    rewrite Eq in *. cbn [q_sum q_shift] in *.
    assert ((h0 + 2 ^ 26 * (h1 + 2 ^ 25 * (h2 + 2 ^ 26 * (h3 + 2 ^ 25 * (h4 + 2 ^ 26 * (h5 + 2 ^ 25 * (h6 + 2 ^ 26 *
      (h7 + 2 ^ 25 * (h8 + 2 ^ 26 * (h9 + 2 ^ 25 * 0))))))))) + Z.shiftr (19 * h9 + 2 ^ 24) 25) /
      2 ^ (26 + (25 + (26 + (25 + (26 + (25 + (26 + (25 + (26 + (25 + 0)))))))))) =
      fe_val [h0; h1; h2; h3; h4; h5; h6; h7; h8; h9] / p25519) as Eqp.
    { rewrite <- (q_is_quotient (fe_val [h0; h1; h2; h3; h4; h5; h6; h7; h8; h9])
        (dot (take 9 fe_weights) [h0; h1; h2; h3; h4; h5; h6; h7; h8]) h9 _
        ltac:(unfold fe_val; cbn [dot fe_weights take]; ring) HL ltac:(lia) eq_refl).
      f_equal. rewrite Z.shiftr_div_pow2 by done. f_equal. unfold fe_val. cbn [dot fe_weights]. ring. }
    rewrite Eqp in *. split; [done|]. unfold inb in *. cbn [fst snd] in *. lia.
Qed.

(** ** [fe_tobytes]: the canonical limbs *)

Definition canon_bound : list itv :=
  [(0, 2 ^ 26 - 1); (0, 2 ^ 25 - 1); (0, 2 ^ 26 - 1); (0, 2 ^ 25 - 1); (0, 2 ^ 26 - 1);
   (0, 2 ^ 25 - 1); (0, 2 ^ 26 - 1); (0, 2 ^ 25 - 1); (0, 2 ^ 26 - 1); (0, 2 ^ 25 - 1)].

(** Bounds once [19 * q] is added, and after the carries. *)
Definition pre_bound : list itv := <[0%nat := (-73819850, 73819850)]> (fe_bound 110 26).

Definition post_bound : list itv := <[9%nat := (- 2 ^ 30, 2 ^ 30)]> canon_bound.

Lemma weights_pos : Forall (Z.le 0) fe_weights.
Proof. repeat constructor; done. Qed.

Lemma canon_range h : inbs canon_bound h -> 0 <= fe_val h < 2 ^ 255.
Proof.
  intros H. pose proof (dot_bounds _ _ _ weights_pos H) as [H1 H2]. split.
  - etrans; [|exact H1]. done.
  - eapply Z.le_lt_trans; [exact H2|]. done.
Qed.

Lemma tobytes_limbs_ok h :
  bounded 110 26 h ->
  returns (tobytes_limbs h) (fun h' => inbs canon_bound h' /\ fe_val h' = fe_val h mod p25519).
Proof.
  intros Hh. destruct (tobytes_q_ok h Hh) as [Eq Hq]. unfold tobytes_limbs. rewrite Eq. cbn [obind].
  set (q := fe_val h / p25519) in *. unfold inb in Hq. cbn [fst snd] in Hq.
  pose proof (inbs_lookup _ _ 0 Hh ltac:(cbn; lia)) as H0. change (inb (-73819750, 73819750) (h !!! 0%nat)) in H0.
  unfold inb in H0. cbn [fst snd] in H0.
  rewrite (ck_within 32 100) by first [reflexivity | unfold within; lia]. cbn [obind].
  rewrite (ck_within 32 (2 ^ 30)) by first [reflexivity | unfold within; lia]. cbn [obind].
  assert (inbs pre_bound (<[0%nat := h !!! 0%nat + 19 * q]> h)) as Hb.
  { apply inbs_insert; [done|]. unfold inb. cbn [fst snd]. lia. }
  assert (carries_to 32 fe_weights 0 floor_carries pre_bound post_bound = true) as HB by (vm_compute; reflexivity).
  eapply returns_bind; [by apply (carries_to_ok _ _ _ _ _ _ HB)|]. intros h' [Hb' Hv%cong_0].
  pose proof (inbs_lookup _ _ 9 Hb' ltac:(cbn; lia)) as H9.
  change (inb (- 2 ^ 30, 2 ^ 30) (h' !!! 9%nat)) in H9. unfold inb in H9. cbn [fst snd] in H9.
  set (x := h' !!! 9%nat) in *. rewrite Z.shiftl_mul_pow2, Z.shiftr_div_pow2 by done.
  pose proof (Z.div_mod x (2 ^ 25) ltac:(lia)) as D. pose proof (Z.mod_pos_bound x (2 ^ 25) ltac:(lia)) as R.
  rewrite (ck_within 32 (2 ^ 30 + 2 ^ 25)) by first [reflexivity | unfold within; lia]. cbn [obind].
  replace (x - x / 2 ^ 25 * 2 ^ 25) with (x mod 2 ^ 25) by lia.
  rewrite (ck_within 32 (2 ^ 25)) by first [reflexivity | unfold within; lia]. cbn [obind returns].
  assert (inbs canon_bound (<[9%nat := x mod 2 ^ 25]> h')) as Hc.
  { change canon_bound with (<[9%nat := (0, 2 ^ 25 - 1)]> post_bound). apply inbs_insert; [done|].
    unfold inb. cbn [fst snd]. lia. }
  split; [done|]. pose proof (canon_range _ Hc) as Hr.
  pose proof (inbs_length _ _ Hb') as Hl. pose proof (inbs_length _ _ Hh) as Hl0.
  assert (fe_val (<[9%nat := x mod 2 ^ 25]> h') = fe_val h + 19 * q - 2 ^ 255 * (x / 2 ^ 25)) as Ev.
  { unfold fe_val in *. rewrite dot_insert by (rewrite <- ?Hl; cbn; lia). fold x. rewrite Hv.
    rewrite dot_insert by (rewrite <- ?Hl0; cbn; lia).
    change (fe_weights !!! 9%nat) with (2 ^ 230). change (fe_weights !!! 0%nat) with 1.
    assert (x = 2 ^ 25 * (x / 2 ^ 25) + x mod 2 ^ 25) by done. lia. }
  rewrite Ev in Hr |- *. unfold q in *.
  pose proof (Z.div_mod (fe_val h) p25519 ltac:(done)) as Dp.
  pose proof (Z.mod_pos_bound (fe_val h) p25519 ltac:(done)) as Rp.
  unfold p25519 in *. lia.
Qed.

(** ** [fe_tobytes]: the bytes *)

(** Two disjoint parts of a byte; [y] may have bits above it. *)
Lemma lor_byte x y b j m :
  m = 8 - j -> 0 <= j <= 8 -> 0 <= x < 2 ^ j -> y mod 2 ^ 8 = (b * 2 ^ j) mod 2 ^ 8 ->
  u8 (Z.lor x y) = x + 2 ^ j * (b mod 2 ^ m).
Proof.
  intros -> Hj Hx Hy. unfold u8.
  assert (2 ^ j <= 256) by (change 256 with (2 ^ 8); apply Z.pow_le_mono_r; lia).
  rewrite <- (Z.land_ones _ 8) by lia. rewrite Z.land_lor_distr_l, !Z.land_ones by lia.
  rewrite (Z.mod_small x) by (change (2 ^ 8) with 256; lia). rewrite Hy.
  replace (2 ^ 8) with (2 ^ (8 - j) * 2 ^ j) by (rewrite <- Z.pow_add_r by lia; f_equal; lia).
  rewrite Zmult_mod_distr_r, lor_add by lia. ring.
Qed.

Lemma s32_byte y : s32 y mod 2 ^ 8 = y mod 2 ^ 8.
Proof.
  assert (s32 y = y + (- 2 ^ 24 * ((y + 2 ^ 31) / 2 ^ 32)) * 2 ^ 8) as -> by (unfold s32; rewrite Z.mod_eq by lia; lia).
  apply Z_mod_plus_full.
Qed.

Lemma byte2_val a i b j m :
  m = 8 - j -> 0 <= i -> 0 <= j <= 8 -> 0 <= a < 2 ^ (i + j) -> byte2 a i b j = a / 2 ^ i + 2 ^ j * (b mod 2 ^ m).
Proof.
  intros Hm Hi Hj Ha. unfold byte2. rewrite Z.shiftr_div_pow2 by done. apply lor_byte; [done|done| |].
  - split; [apply Z.div_pos; lia|]. apply Z.div_lt_upper_bound; [lia|]. rewrite <- Z.pow_add_r by lia. lia.
  - rewrite s32_byte. by rewrite Z.shiftl_mul_pow2 by lia.
Qed.

(** A limb in three bytes between the bits below [a] and the bits above. *)
Lemma limb_bytes h a a8 a16 :
  0 <= h -> 0 <= a -> a8 = a + 8 -> a16 = a + 16 ->
  h = h mod 2 ^ a + 2 ^ a * (u8 (Z.shiftr h a) + 256 * u8 (Z.shiftr h a8)) + 2 ^ a16 * (h / 2 ^ a16).
Proof.
  intros Hh Ha -> ->. unfold u8. rewrite !Z.shiftr_div_pow2, !Z.pow_add_r by lia.
  rewrite <- !Z.div_div by lia. set (A := 2 ^ a).
  assert (0 < A) by (by apply Z.pow_pos_nonneg). change (2 ^ 16) with (256 * 256). rewrite <- Z.div_div by lia.
  change (2 ^ 8) with 256.
  pose proof (Z.div_mod h A ltac:(lia)). pose proof (Z.div_mod (h / A) 256 ltac:(lia)).
  pose proof (Z.div_mod (h / A / 256) 256 ltac:(lia)). nia.
Qed.

Lemma limb_low h : h mod 2 ^ 8 = u8 (Z.shiftr h 0).
Proof. by rewrite Z.shiftr_0_r. Qed.

Lemma limb_top h k : 0 <= k -> 0 <= h < 2 ^ (k + 8) -> h / 2 ^ k = u8 (Z.shiftr h k).
Proof.
  intros Hk Hh. unfold u8. rewrite Z.shiftr_div_pow2 by done. rewrite Z.mod_small; [done|].
  split; [apply Z.div_pos; lia|]. apply Z.div_lt_upper_bound; [lia|]. rewrite Z.pow_add_r in Hh by lia. lia.
Qed.

Lemma canon_cases h :
  inbs canon_bound h ->
  exists h0 h1 h2 h3 h4 h5 h6 h7 h8 h9, h = [h0; h1; h2; h3; h4; h5; h6; h7; h8; h9] /\
    (0 <= h0 < 2 ^ 26) /\ (0 <= h1 < 2 ^ 25) /\ (0 <= h2 < 2 ^ 26) /\ (0 <= h3 < 2 ^ 25) /\ (0 <= h4 < 2 ^ 26) /\
    (0 <= h5 < 2 ^ 25) /\ (0 <= h6 < 2 ^ 26) /\ (0 <= h7 < 2 ^ 25) /\ (0 <= h8 < 2 ^ 26) /\ (0 <= h9 < 2 ^ 25).
Proof.
  unfold inbs, canon_bound, inb. intros H.
  repeat match goal with H : Forall2 _ (_ :: _) _ |- _ => inversion_clear H
                       | H : Forall2 _ [] _ |- _ => inversion_clear H end.
  cbn [fst snd] in *. do 10 eexists. split; [reflexivity|]. splits; lia.
Qed.

Lemma u8_range x : 0 <= u8 x < 256.
Proof. apply Z.mod_pos_bound. lia. Qed.

(** Packing keeps the value: ten limbs of 26 and 25 bits in 32 bytes. *)
Lemma tobytes_pack_ok h :
  inbs canon_bound h ->
  returns (tobytes_pack h) (fun s => length s = 32%nat /\ bytes_ok s /\ le_val s = fe_val h).
Proof.
  intros Hc. destruct (canon_cases h Hc) as (h0 & h1 & h2 & h3 & h4 & h5 & h6 & h7 & h8 & h9 & -> & R).
  destruct R as (R0 & R1 & R2 & R3 & R4 & R5 & R6 & R7 & R8 & R9).
  unfold tobytes_pack, limbs10. cbn [returns]. split; [done|]. split.
  { repeat (apply Forall_cons; split; [apply u8_range|]). by apply Forall_nil. }
  rewrite (byte2_val h0 24 h1 2 6), (byte2_val h1 22 h2 3 5), (byte2_val h2 21 h3 5 3), (byte2_val h3 19 h4 6 2),
    (byte2_val h5 24 h6 1 7), (byte2_val h6 23 h7 3 5), (byte2_val h7 21 h8 4 4), (byte2_val h8 20 h9 6 2) by lia.
  cbn [le_val]. unfold fe_val. cbn [dot fe_weights].
  pose proof (limb_bytes h0 8 16 24 ltac:(lia) ltac:(lia) eq_refl eq_refl) as E0. pose proof (limb_bytes h1 6 14 22 ltac:(lia) ltac:(lia) eq_refl eq_refl) as E1.
  pose proof (limb_bytes h2 5 13 21 ltac:(lia) ltac:(lia) eq_refl eq_refl) as E2. pose proof (limb_bytes h3 3 11 19 ltac:(lia) ltac:(lia) eq_refl eq_refl) as E3.
  pose proof (limb_bytes h4 2 10 18 ltac:(lia) ltac:(lia) eq_refl eq_refl) as E4. pose proof (limb_bytes h5 8 16 24 ltac:(lia) ltac:(lia) eq_refl eq_refl) as E5.
  pose proof (limb_bytes h6 7 15 23 ltac:(lia) ltac:(lia) eq_refl eq_refl) as E6. pose proof (limb_bytes h7 5 13 21 ltac:(lia) ltac:(lia) eq_refl eq_refl) as E7.
  pose proof (limb_bytes h8 4 12 20 ltac:(lia) ltac:(lia) eq_refl eq_refl) as E8. pose proof (limb_bytes h9 2 10 18 ltac:(lia) ltac:(lia) eq_refl eq_refl) as E9.
  rewrite limb_low in E0, E5. rewrite (limb_top h4 18), (limb_top h9 18) in * by lia.
  repeat match goal with |- context [u8 ?x] => generalize dependent (u8 x); intros end.
  repeat match goal with |- context [?x mod ?y] => generalize dependent (x mod y); intros end.
  repeat match goal with |- context [?x / ?y] => generalize dependent (x / y); intros end.
  lia.
Qed.

(** The bytes are the little-endian encoding of the canonical representative. *)
Lemma fe_tobytes_spec h :
  bounded 110 26 h -> fe_tobytes h = Done (le_bytes 32 (fe_val h mod p25519)).
Proof.
  intros Hh. pose proof (tobytes_limbs_ok h Hh) as H. apply returns_done in H as (h' & E & Hc & Hv).
  pose proof (tobytes_pack_ok h' Hc) as H. apply returns_done in H as (s & E2 & Hl & Hs & Hv2).
  unfold fe_tobytes. rewrite E. cbn [obind]. rewrite E2. f_equal.
  rewrite <- (le_bytes_val s Hs), Hl, Hv2, Hv. done.
Qed.

Lemma fe_val_range h : 0 <= fe_val h mod p25519 < 256 ^ Z.of_nat 32.
Proof.
  pose proof (Z.mod_pos_bound (fe_val h) p25519 ltac:(done)) as H. change (256 ^ Z.of_nat 32) with (2 ^ 256).
  unfold p25519 in *. lia.
Qed.

(** [fe_frombytes] reads the low 255 bits. *)
Lemma fe_frombytes_spec s :
  length s = 32%nat -> bytes_ok s ->
  returns (fe_frombytes s) (fun h => bounded 101 25 h /\ fe_val h ≡ le_val s mod 2 ^ 255 [mod p25519]).
Proof.
  intros Hl Hs. destruct (frombytes_limbs_ok s Hl Hs) as [Hb Hv]. unfold fe_frombytes. rewrite Hl. cbn [Nat.ltb Nat.leb].
  eapply returns_mono; [eapply (carry_store _ _ (fe_bound 101 25)); [|exact Hb]|].
  - vm_compute. reflexivity.
  - intros h [Hb' Hv']. split; [done|]. by rewrite Hv', Hv.
Qed.

(** ** The tests *)

Lemma le_bytes_head n x : le_bytes (S n) x !!! 0%nat = x mod 256.
Proof. reflexivity. Qed.

(** Negative: the canonical representative is odd. *)
Lemma fe_isnegative_spec f : bounded 110 26 f -> fe_isnegative f = Done ((fe_val f mod p25519) mod 2).
Proof.
  intros Hf. unfold fe_isnegative. rewrite fe_tobytes_spec by done. cbn [obind]. rewrite le_bytes_head.
  rewrite (land_mask _ 1) by done. change (2 ^ 1) with 2. f_equal. symmetry. apply Znumtheory.Zmod_div_mod; [lia|lia|]. by exists 128.
Qed.

Lemma foldl_lor_zero l acc : 0 <= acc -> Forall (Z.le 0) l ->
  foldl Z.lor acc l = 0 <-> acc = 0 /\ Forall (eq 0) l.
Proof.
  revert acc. induction l as [|x l IH]; intros acc Ha Hl; cbn.
  - split; [intros ->; by split; [|constructor]|by intros []].
  - apply Forall_cons in Hl as [Hx Hl]. rewrite IH by (try done; by apply Z.lor_nonneg).
    rewrite Z.lor_eq_0_iff, Forall_cons. naive_solver.
Qed.

Lemma zero_bytes l : bytes_ok l -> Forall (eq 0) l <-> le_val l = 0.
Proof.
  induction 1 as [|x l Hx Hl IH]; cbn [le_val]; [split; [done|by constructor]|].
  rewrite Forall_cons, IH. pose proof (le_val_range _ Hl). lia.
Qed.

Lemma fe_isnonzero_spec f : bounded 110 26 f -> fe_isnonzero f = Done (negb (fe_val f mod p25519 =? 0)).
Proof.
  intros Hf. unfold fe_isnonzero. rewrite fe_tobytes_spec by done. cbn [obind]. do 2 f_equal.
  pose proof (le_bytes_ok 32 (fe_val f mod p25519)) as Hb.
  pose proof (le_val_bytes 32 _ (fe_val_range f)) as Hv.
  apply eq_bool_prop_intro. rewrite !Is_true_true, !Z.eqb_eq.
  rewrite foldl_lor_zero; [|done|].
  - rewrite zero_bytes, Hv by done. naive_solver.
  - eapply Forall_impl; [exact Hb|]. cbn. lia.
Qed.

(** ** Selection *)

Lemma and_mask_0 x : and_mask x (u32 (- 0)) = 0.
Proof. unfold and_mask. change (u32 (- 0)) with 0. by rewrite Z.land_0_r. Qed.

Lemma and_mask_1 x : - 2 ^ 31 <= x < 2 ^ 31 -> and_mask x (u32 (- 1)) = x.
Proof.
  intros Hx. unfold and_mask. change (u32 (- 1)) with (Z.ones 32). rewrite Z.land_ones by done.
  change (u32 x mod 2 ^ 32) with (u32 (u32 x)). rewrite !s32_u32. by apply s32_small.
Qed.

Lemma lxor_s32 x y : - 2 ^ 31 <= x < 2 ^ 31 -> - 2 ^ 31 <= y < 2 ^ 31 -> - 2 ^ 31 <= Z.lxor x y < 2 ^ 31.
Proof.
  intros Hx Hy.
  assert (forall a b, 0 <= a < 2 ^ 31 -> 0 <= b < 2 ^ 31 -> 0 <= Z.lxor a b < 2 ^ 31) as Hp
    by (intros; by apply lxor_range).
  destruct (Z.le_gt_cases 0 x), (Z.le_gt_cases 0 y).
  - specialize (Hp x y). lia.
  - specialize (Hp x (Z.lnot y)). 
    assert (Z.lxor x y = Z.lnot (Z.lxor x (Z.lnot y))) as -> by (by rewrite <- Z.lnot_lxor_r, Z.lnot_involutive).
    unfold Z.lnot in *. lia.
  - specialize (Hp (Z.lnot x) y).
    assert (Z.lxor x y = Z.lnot (Z.lxor (Z.lnot x) y)) as -> by (by rewrite <- Z.lnot_lxor_l, Z.lnot_involutive).
    unfold Z.lnot in *. lia.
  - specialize (Hp (Z.lnot x) (Z.lnot y)). rewrite Z.lxor_lnot_lnot in Hp. unfold Z.lnot in *. lia.
Qed.

Definition int32_ok (x : Z) : Prop := - 2 ^ 31 <= x < 2 ^ 31.

Lemma map2M_pure v f g : length f = length g -> map2M (fun x y => Done (v x y)) f g = Done (zip_with v f g).
Proof.
  revert g. induction f as [|x f IH]; intros [|y g] H; try done. cbn. rewrite IH by (by injection H). done.
Qed.

Lemma select_limb b x y : int32_ok x -> int32_ok y -> b = 0 \/ b = 1 ->
  Z.lxor x (and_mask (Z.lxor x y) (u32 (- b))) = (if b =? 1 then y else x) /\
  Z.lxor y (and_mask (Z.lxor x y) (u32 (- b))) = (if b =? 1 then x else y).
Proof.
  intros Hx Hy [-> | ->]; [rewrite and_mask_0; cbn; by rewrite !Z.lxor_0_r|].
  rewrite and_mask_1 by (by apply lxor_s32). cbn. split.
  - by rewrite <- Z.lxor_assoc, Z.lxor_nilpotent, Z.lxor_0_l.
  - by rewrite (Z.lxor_comm x y), <- Z.lxor_assoc, Z.lxor_nilpotent, Z.lxor_0_l.
Qed.

Lemma select_limbs b f g : Forall int32_ok f -> Forall int32_ok g -> length f = length g -> b = 0 \/ b = 1 ->
  zip_with (fun x y => Z.lxor x (and_mask (Z.lxor x y) (u32 (- b)))) f g = (if b =? 1 then g else f) /\
  zip_with (fun x y => Z.lxor y (and_mask (Z.lxor x y) (u32 (- b)))) f g = (if b =? 1 then f else g).
Proof.
  intros Hf. revert g. induction Hf as [|x f Hx Hf IH]; intros g Hg Hl Hb; [destruct g; [by destruct (b =? 1)|done]|].
  destruct g as [|y g]; [done|]. apply Forall_cons in Hg as [Hy Hg].
  destruct (IH g Hg ltac:(by injection Hl) Hb) as [E1 E2]. destruct (select_limb b x y Hx Hy Hb) as [L1 L2].
  cbn [zip_with]. rewrite E1, E2, L1, L2. by destruct (b =? 1).
Qed.

Lemma fe_cmov_spec f g b :
  Forall int32_ok f -> Forall int32_ok g -> length f = length g -> b = 0 \/ b = 1 ->
  fe_cmov f g b = Done (if b =? 1 then g else f).
Proof.
  intros Hf Hg Hl Hb. unfold fe_cmov. rewrite map2M_pure by done. f_equal. by apply select_limbs.
Qed.

Lemma fe_cswap_spec f g b :
  Forall int32_ok f -> Forall int32_ok g -> length f = length g -> b = 0 \/ b = 1 ->
  fe_cswap f g b = Done (if b =? 1 then (g, f) else (f, g)).
Proof.
  intros Hf Hg Hl Hb. unfold fe_cswap. rewrite !map2M_pure by done. cbn [obind].
  destruct (select_limbs b f g Hf Hg Hl Hb) as [-> ->]. by destruct (b =? 1).
Qed.
