(* ===== verification/Sc.v ===== *)
(** Scalars, src/src/ed25519/sc.c: integers modulo the group order
    [l = 2^252 + 27742317777372353535851937790883648493].

    A number is kept in limbs of 21 bits in [int64_t] variables [s0 .. s23], here the
    list of their values.  A limb [s_i] with [i >= 12] is folded into [s_(i-12) .. s_(i-7)] with the
    digits of [2^252 - l]; carries are as in Limbs.  [sc_reduce] and [sc_muladd] share
    the statements from the first fold on ([reduce_1], [reduce_2]) and the stores. *)
From S2P Require Import Prelude Bytes Limbs Fe FeArith.

(** [2097151 & x]. *)
Definition m21 (x : Z) : Z := Z.land 2097151 x.

(** [s0 .. s23] of a 64 byte string. *)
Definition load24 (s : list Z) : list Z :=
  [m21 (load_3 s 0); m21 (Z.shiftr (load_4 s 2) 5); m21 (Z.shiftr (load_3 s 5) 2);
   m21 (Z.shiftr (load_4 s 7) 7); m21 (Z.shiftr (load_4 s 10) 4); m21 (Z.shiftr (load_3 s 13) 1);
   m21 (Z.shiftr (load_4 s 15) 6); m21 (Z.shiftr (load_3 s 18) 3); m21 (load_3 s 21);
   m21 (Z.shiftr (load_4 s 23) 5); m21 (Z.shiftr (load_3 s 26) 2); m21 (Z.shiftr (load_4 s 28) 7);
   m21 (Z.shiftr (load_4 s 31) 4); m21 (Z.shiftr (load_3 s 34) 1); m21 (Z.shiftr (load_4 s 36) 6);
   m21 (Z.shiftr (load_3 s 39) 3); m21 (load_3 s 42); m21 (Z.shiftr (load_4 s 44) 5);
   m21 (Z.shiftr (load_3 s 47) 2); m21 (Z.shiftr (load_4 s 49) 7); m21 (Z.shiftr (load_4 s 52) 4);
   m21 (Z.shiftr (load_3 s 55) 1); m21 (Z.shiftr (load_4 s 57) 6); Z.shiftr (load_4 s 60) 3].

(** [a0 .. a11] of a 32 byte string; the last limb keeps all its bits. *)
Definition load12 (s : list Z) : list Z :=
  [m21 (load_3 s 0); m21 (Z.shiftr (load_4 s 2) 5); m21 (Z.shiftr (load_3 s 5) 2);
   m21 (Z.shiftr (load_4 s 7) 7); m21 (Z.shiftr (load_4 s 10) 4); m21 (Z.shiftr (load_3 s 13) 1);
   m21 (Z.shiftr (load_4 s 15) 6); m21 (Z.shiftr (load_3 s 18) 3); m21 (load_3 s 21);
   m21 (Z.shiftr (load_4 s 23) 5); m21 (Z.shiftr (load_3 s 26) 2); Z.shiftr (load_4 s 28) 7].

(** [s_j += s_i * k] and [s_j -= s_i * k]. *)
Definition madd (j i : nat) (k : Z) (s : list Z) : outcome (list Z) :=
  let* t := int64 (s !!! i * k) in
  let* v := int64 (s !!! j + t) in
  Done (<[j := v]> s).

Definition msub (j i : nat) (k : Z) (s : list Z) : outcome (list Z) :=
  let* t := int64 (s !!! i * k) in
  let* v := int64 (s !!! j - t) in
  Done (<[j := v]> s).

Definition sc_fold (i : nat) (s : list Z) : outcome (list Z) :=
  let* s := madd (i - 12) i 666643 s in
  let* s := madd (i - 11) i 470296 s in
  let* s := madd (i - 10) i 654183 s in
  let* s := msub (i - 9) i 997805 s in
  let* s := madd (i - 8) i 136657 s in
  let* s := msub (i - 7) i 683901 s in
  Done (<[i := 0]> s).

Fixpoint sc_folds (l : list nat) (s : list Z) : outcome (list Z) :=
  match l with
  | [] => Done s
  | i :: l => let* s := sc_fold i s in sc_folds l s
  end.

(** [carry = (s_i + (1 << 20)) >> 21; s_(i+1) += carry; s_i -= carry << 21], and the same
    without rounding. *)
Definition r21 (i : nat) : carry := Carry (2 ^ 20) 21 i (i + 1) 1.
Definition f21 (i : nat) : carry := Carry 0 21 i (i + 1) 1.

(** From the first fold to the fold of the carry out of [s11]. *)
Definition reduce_1 (s : list Z) : outcome (list Z) :=
  let* s := sc_folds [23; 22; 21; 20; 19; 18]%nat s in
  let* s := carries 64 (r21 <$> [6; 8; 10; 12; 14; 16; 7; 9; 11; 13; 15]%nat) s in
  let* s := sc_folds [17; 16; 15; 14; 13; 12]%nat s in
  let* s := carries 64 (r21 <$> [0; 2; 4; 6; 8; 10; 1; 3; 5; 7; 9; 11]%nat) s in
  sc_folds [12]%nat s.

(** The carries without rounding, the last fold, and the carries again. *)
Definition reduce_2 (s : list Z) : outcome (list Z) :=
  let* s := carries 64 (f21 <$> [0; 1; 2; 3; 4; 5; 6; 7; 8; 9; 10; 11]%nat) s in
  let* s := sc_fold 12 s in
  carries 64 (f21 <$> [0; 1; 2; 3; 4; 5; 6; 7; 8; 9; 10]%nat) s.

(** [(unsigned char) ((a >> i) | (b << j))] in [int64_t]. *)
Definition sc_byte2 (a i b j : Z) : Z := u8 (Z.lor (Z.shiftr a i) (s64 (Z.shiftl b j))).

Definition sc_pack (s : list Z) : outcome (list Z) :=
  match s with
  | s0 :: s1 :: s2 :: s3 :: s4 :: s5 :: s6 :: s7 :: s8 :: s9 :: s10 :: s11 :: _ =>
      Done [u8 (Z.shiftr s0 0); u8 (Z.shiftr s0 8); sc_byte2 s0 16 s1 5;
            u8 (Z.shiftr s1 3); u8 (Z.shiftr s1 11); sc_byte2 s1 19 s2 2;
            u8 (Z.shiftr s2 6); sc_byte2 s2 14 s3 7; u8 (Z.shiftr s3 1);
            u8 (Z.shiftr s3 9); sc_byte2 s3 17 s4 4; u8 (Z.shiftr s4 4);
            u8 (Z.shiftr s4 12); sc_byte2 s4 20 s5 1; u8 (Z.shiftr s5 7);
            sc_byte2 s5 15 s6 6; u8 (Z.shiftr s6 2); u8 (Z.shiftr s6 10);
            sc_byte2 s6 18 s7 3; u8 (Z.shiftr s7 5); u8 (Z.shiftr s7 13);
            u8 (Z.shiftr s8 0); u8 (Z.shiftr s8 8); sc_byte2 s8 16 s9 5;
            u8 (Z.shiftr s9 3); u8 (Z.shiftr s9 11); sc_byte2 s9 19 s10 2;
            u8 (Z.shiftr s10 6); sc_byte2 s10 14 s11 7; u8 (Z.shiftr s11 1);
            u8 (Z.shiftr s11 9); u8 (Z.shiftr s11 17)]
  | _ => Stop OutOfBounds
  end.

(** Overwrites the first half of the 64 bytes. *)
Definition sc_reduce (s : list Z) : outcome (list Z) :=
  if negb (length s =? 64)%nat then Stop OutOfBounds
  else
    let* t := reduce_1 (load24 s) in
    let* t := reduce_2 t in
    let* r := sc_pack t in
    Done (r ++ drop 32 s).

(** [s0 .. s23] of [a * b + c]. *)
Definition muladd_columns (a b c : list Z) : outcome (list Z) :=
  match a, b, c with
  | [a0; a1; a2; a3; a4; a5; a6; a7; a8; a9; a10; a11],
    [b0; b1; b2; b3; b4; b5; b6; b7; b8; b9; b10; b11],
    [c0; c1; c2; c3; c4; c5; c6; c7; c8; c9; c10; c11] =>
      let* s0 := sumprod c0 [(a0, b0)] in
      let* s1 := sumprod c1 [(a0, b1); (a1, b0)] in
      let* s2 := sumprod c2 [(a0, b2); (a1, b1); (a2, b0)] in
      let* s3 := sumprod c3 [(a0, b3); (a1, b2); (a2, b1); (a3, b0)] in
      let* s4 := sumprod c4 [(a0, b4); (a1, b3); (a2, b2); (a3, b1); (a4, b0)] in
      let* s5 := sumprod c5 [(a0, b5); (a1, b4); (a2, b3); (a3, b2); (a4, b1); (a5, b0)] in
      let* s6 := sumprod c6 [(a0, b6); (a1, b5); (a2, b4); (a3, b3); (a4, b2); (a5, b1); (a6, b0)] in
      let* s7 := sumprod c7 [(a0, b7); (a1, b6); (a2, b5); (a3, b4); (a4, b3); (a5, b2); (a6, b1);
                                 (a7, b0)] in
      let* s8 := sumprod c8 [(a0, b8); (a1, b7); (a2, b6); (a3, b5); (a4, b4); (a5, b3); (a6, b2);
                                 (a7, b1); (a8, b0)] in
      let* s9 := sumprod c9 [(a0, b9); (a1, b8); (a2, b7); (a3, b6); (a4, b5); (a5, b4); (a6, b3);
                                 (a7, b2); (a8, b1); (a9, b0)] in
      let* s10 := sumprod c10 [(a0, b10); (a1, b9); (a2, b8); (a3, b7); (a4, b6); (a5, b5); (a6, b4);
                                 (a7, b3); (a8, b2); (a9, b1); (a10, b0)] in
      let* s11 := sumprod c11 [(a0, b11); (a1, b10); (a2, b9); (a3, b8); (a4, b7); (a5, b6); (a6, b5);
                                 (a7, b4); (a8, b3); (a9, b2); (a10, b1); (a11, b0)] in
      let* s12 := sumprod 0 [(a1, b11); (a2, b10); (a3, b9); (a4, b8); (a5, b7); (a6, b6); (a7, b5);
                                 (a8, b4); (a9, b3); (a10, b2); (a11, b1)] in
      let* s13 := sumprod 0 [(a2, b11); (a3, b10); (a4, b9); (a5, b8); (a6, b7); (a7, b6); (a8, b5);
                                 (a9, b4); (a10, b3); (a11, b2)] in
      let* s14 := sumprod 0 [(a3, b11); (a4, b10); (a5, b9); (a6, b8); (a7, b7); (a8, b6); (a9, b5);
                                 (a10, b4); (a11, b3)] in
      let* s15 := sumprod 0 [(a4, b11); (a5, b10); (a6, b9); (a7, b8); (a8, b7); (a9, b6); (a10, b5);
                                 (a11, b4)] in
      let* s16 := sumprod 0 [(a5, b11); (a6, b10); (a7, b9); (a8, b8); (a9, b7); (a10, b6); (a11, b5)] in
      let* s17 := sumprod 0 [(a6, b11); (a7, b10); (a8, b9); (a9, b8); (a10, b7); (a11, b6)] in
      let* s18 := sumprod 0 [(a7, b11); (a8, b10); (a9, b9); (a10, b8); (a11, b7)] in
      let* s19 := sumprod 0 [(a8, b11); (a9, b10); (a10, b9); (a11, b8)] in
      let* s20 := sumprod 0 [(a9, b11); (a10, b10); (a11, b9)] in
      let* s21 := sumprod 0 [(a10, b11); (a11, b10)] in
      let* s22 := sumprod 0 [(a11, b11)] in
      Done [s0; s1; s2; s3; s4; s5; s6; s7; s8; s9; s10; s11; s12; s13; s14; s15; s16; s17; s18; s19; s20; s21; s22; 0]
  | _, _, _ => Stop OutOfBounds
  end.

(** The first two rounds of carries of [sc_muladd]. *)
Definition muladd_carries : list carry :=
  r21 <$> [0; 2; 4; 6; 8; 10; 12; 14; 16; 18; 20; 22; 1; 3; 5; 7; 9; 11; 13; 15; 17; 19; 21]%nat.

Definition sc_muladd (a b c : list Z) : outcome (list Z) :=
  if negb ((length a =? 32)%nat && (length b =? 32)%nat && (length c =? 32)%nat) then Stop OutOfBounds
  else
    let* s := muladd_columns (load12 a) (load12 b) (load12 c) in
    let* s := carries 64 muladd_carries s in
    let* s := reduce_1 s in
    let* s := reduce_2 s in
    sc_pack s.

(** ** What the limbs stand for *)

(** [l], the order of the base point. *)
Definition sc_l : Z := 2 ^ 252 + 27742317777372353535851937790883648493.

Definition sc_weights : list Z := (fun i => 2 ^ (21 * Z.of_nat i)) <$> seq 0 24.

(** ** The scalar operations of sc.c compute modulo the group order, without overflow, and
    end in the canonical range. *)

(** ** Loads: the limbs are the digits in base [2 ^ 21] *)

Lemma byte_digit s : forall o, bytes_ok s -> (o < length s)%nat -> s !!! o = (le_val s / 256 ^ Z.of_nat o) mod 256.
Proof.
  induction s as [|b s IH]; intros o Hs Ho; [cbn in Ho; lia|].
  unfold bytes_ok in Hs. rewrite Forall_cons in Hs. destruct Hs as [Hb Hs]. cbn [le_val]. destruct o as [|o].
  - change (256 ^ Z.of_nat 0) with 1. rewrite Z.div_1_r. change ((b :: s) !!! 0%nat) with b.
    rewrite Z.mul_comm, Z_mod_plus_full, Z.mod_small; [done|lia].
  - change ((b :: s) !!! S o) with (s !!! o). rewrite IH by (done || (cbn in Ho; lia)).
    rewrite Nat2Z.inj_succ, Z.pow_succ_r by lia. rewrite <- Z.div_div by lia.
    rewrite (Z.mul_comm 256 (le_val s)), Z.div_add, (Z.div_small b) by lia. done.
Qed.

Lemma mod_mod_split x n m : 0 < n -> 0 < m -> x mod (n * m) = x mod n + n * ((x / n) mod m).
Proof. intros. apply Z.rem_mul_r; lia. Qed.

Lemma load_3_digit s o :
  bytes_ok s -> (o + 2 < length s)%nat -> load_3 s o = (le_val s / 2 ^ (8 * Z.of_nat o)) mod 2 ^ 24.
Proof.
  intros Hs Ho. rewrite (proj1 (load_3_val s o Hs Ho)). rewrite !byte_digit by (done || lia).
  change 256 with (2 ^ 8). rewrite <- !Z.pow_mul_r by lia. rewrite !Nat2Z.inj_add, !Z.mul_add_distr_l, !Z.pow_add_r by lia.
  rewrite <- !Z.div_div by lia. set (x := le_val s / 2 ^ (8 * Z.of_nat o)).
  change (2 ^ (8 * Z.of_nat 1)) with (2 ^ 8). change (2 ^ (8 * Z.of_nat 2)) with (2 ^ 16).
  change (2 ^ 24) with (2 ^ 8 * (2 ^ 8 * 2 ^ 8)). rewrite !mod_mod_split by lia.
  rewrite Z.div_div by lia. change (2 ^ 8 * 2 ^ 8) with (2 ^ 16). lia.
Qed.

Lemma load_4_digit s o :
  bytes_ok s -> (o + 3 < length s)%nat -> load_4 s o = (le_val s / 2 ^ (8 * Z.of_nat o)) mod 2 ^ 32.
Proof.
  intros Hs Ho. rewrite (proj1 (load_4_val s o Hs Ho)). rewrite load_3_digit, byte_digit by (done || lia).
  change 256 with (2 ^ 8). rewrite <- !Z.pow_mul_r by lia. rewrite !Nat2Z.inj_add, !Z.mul_add_distr_l, !Z.pow_add_r by lia.
  rewrite <- !Z.div_div by lia. change (2 ^ (8 * Z.of_nat 3)) with (2 ^ 24).
  change (2 ^ 32) with (2 ^ 24 * 2 ^ 8). rewrite !mod_mod_split by lia. done.
Qed.

Lemma mod_div_mod x n k m : 0 <= k -> 0 <= m -> k + m <= n -> (x mod 2 ^ n / 2 ^ k) mod 2 ^ m = (x / 2 ^ k) mod 2 ^ m.
Proof.
  intros Hk Hm Hn. assert (2 ^ n = 2 ^ k * (2 ^ m * 2 ^ (n - k - m))) as ->.
  { rewrite <- !Z.pow_add_r by lia. f_equal. lia. }
  assert (0 < 2 ^ k) by (by apply Z.pow_pos_nonneg). assert (0 < 2 ^ m) by (by apply Z.pow_pos_nonneg).
  assert (0 < 2 ^ (n - k - m)) by (apply Z.pow_pos_nonneg; lia).
  rewrite mod_mod_split by nia. rewrite (Z.mul_comm (2 ^ k)), Z.div_add by lia.
  rewrite Z.div_small by (apply Z.mod_pos_bound; lia). rewrite Z.add_0_l, mod_mod_split by lia.
  rewrite (Z.mul_comm (2 ^ m)), Z_mod_plus_full. apply Z.mod_mod. lia.
Qed.

Lemma m21_mod x : m21 x = x mod 2 ^ 21.
Proof. unfold m21. rewrite Z.land_comm. by apply land_mask. Qed.

Lemma limb3 s o k i :
  bytes_ok s -> (o + 2 < length s)%nat -> 0 <= k <= 3 -> 8 * Z.of_nat o + k = 21 * i ->
  m21 (Z.shiftr (load_3 s o) k) = (le_val s / 2 ^ (21 * i)) mod 2 ^ 21.
Proof.
  intros Hs Ho Hk <-. rewrite m21_mod, load_3_digit by done. rewrite Z.shiftr_div_pow2, mod_div_mod by lia.
  by rewrite Z.div_div, <- Z.pow_add_r by lia.
Qed.

Lemma limb4 s o k i :
  bytes_ok s -> (o + 3 < length s)%nat -> 0 <= k <= 11 -> 8 * Z.of_nat o + k = 21 * i ->
  m21 (Z.shiftr (load_4 s o) k) = (le_val s / 2 ^ (21 * i)) mod 2 ^ 21.
Proof.
  intros Hs Ho Hk <-. rewrite m21_mod, load_4_digit by done. rewrite Z.shiftr_div_pow2, mod_div_mod by lia.
  by rewrite Z.div_div, <- Z.pow_add_r by lia.
Qed.

(** The last limb has all the remaining bits. *)
Lemma limb_last s o k i :
  bytes_ok s -> (o + 4 = length s)%nat -> 0 <= k -> 8 * Z.of_nat o + k = 21 * i ->
  Z.shiftr (load_4 s o) k = le_val s / 2 ^ (21 * i).
Proof.
  intros Hs Ho Hk <-. rewrite load_4_digit by (done || lia). rewrite Z.shiftr_div_pow2 by lia.
  pose proof (le_val_range s Hs) as R.
  rewrite Z.mod_small.
  - rewrite Z.div_div by lia. rewrite <- Z.pow_add_r by lia. done.
  - split; [apply Z.div_pos; lia|]. apply Z.div_lt_upper_bound; [lia|]. unfold zlen in R.
    rewrite <- Z.pow_add_r by lia. replace (8 * Z.of_nat o + 32) with (8 * Z.of_nat (length s)) by lia.
    rewrite Z.pow_mul_r by lia. apply R.
Qed.

(** [n] digits and the rest. *)
Fixpoint digits (n : nat) (i x : Z) : list Z :=
  match n with
  | O => [x / 2 ^ (21 * i)]
  | S n => (x / 2 ^ (21 * i)) mod 2 ^ 21 :: digits n (i + 1) x
  end.

Lemma digits_dot n : forall k x,
  dot ((fun i => 2 ^ (21 * Z.of_nat i)) <$> seq k (S n)) (digits n (Z.of_nat k) x) =
  2 ^ (21 * Z.of_nat k) * (x / 2 ^ (21 * Z.of_nat k)).
Proof.
  induction n as [|n IH]; intros k x.
  - cbn [seq fmap list_fmap digits dot]. lia.
  - change (seq k (S (S n))) with (k :: seq (S k) (S n)). rewrite fmap_cons. cbn [digits dot].
    replace (Z.of_nat k + 1) with (Z.of_nat (S k)) by lia.
    rewrite IH. rewrite Nat2Z.inj_succ. replace (21 * Z.succ (Z.of_nat k)) with (21 * Z.of_nat k + 21) by lia.
    rewrite Z.pow_add_r by lia. rewrite <- Z.div_div by lia. set (y := x / 2 ^ (21 * Z.of_nat k)).
    pose proof (Z.div_mod y (2 ^ 21) ltac:(lia)) as D. rewrite D at 3. ring.
Qed.

Lemma digits_sum n x : dot ((fun i => 2 ^ (21 * Z.of_nat i)) <$> seq 0 (S n)) (digits n 0 x) = x.
Proof.
  pose proof (digits_dot n 0 x) as D. change (Z.of_nat 0) with 0 in D. rewrite Z.mul_0_r, Z.pow_0_r, Z.div_1_r in D.
  rewrite D. lia.
Qed.

Ltac limbs_digits :=
  repeat match goal with
  | |- m21 (load_3 ?s ?o) :: _ = _ => rewrite <- (Z.shiftr_0_r (load_3 s o))
  | |- _ :: _ = _ :: _ => f_equal
  | |- m21 (Z.shiftr (load_3 _ _) _) = _ => apply limb3; [done|lia|lia|lia]
  | |- m21 (Z.shiftr (load_4 _ _) _) = _ => apply limb4; [done|lia|lia|lia]
  | |- Z.shiftr (load_4 _ _) _ = _ => apply limb_last; [done|lia|lia|lia]
  end; try done.

Lemma load24_digits s : bytes_ok s -> length s = 64%nat -> load24 s = digits 23 0 (le_val s).
Proof. intros Hs Hl. unfold load24. cbn [digits]. limbs_digits. Qed.

Lemma load12_digits s : bytes_ok s -> length s = 32%nat -> load12 s = digits 11 0 (le_val s).
Proof. intros Hs Hl. unfold load12. cbn [digits]. limbs_digits. Qed.

Lemma load24_val s : bytes_ok s -> length s = 64%nat -> dot sc_weights (load24 s) = le_val s.
Proof. intros. rewrite load24_digits by done. apply (digits_sum 23). Qed.

Lemma load12_val s : bytes_ok s -> length s = 32%nat -> dot (take 12 sc_weights) (load12 s) = le_val s.
Proof. intros. rewrite load12_digits by done. apply (digits_sum 11). Qed.

Lemma digits_bounds t n : 0 <= t -> forall i x, 0 <= i -> 0 <= x < 2 ^ (21 * (i + Z.of_nat n) + t) ->
  inbs (replicate n (0, 2 ^ 21 - 1) ++ [(0, 2 ^ t - 1)]) (digits n i x).
Proof.
  intros Ht. induction n as [|n IH]; intros i x Hi Hx; cbn [replicate digits app].
  - apply Forall2_cons. split; [|by apply Forall2_nil]. unfold inb. cbn [fst snd].
    split; [apply Z.div_pos; lia|]. apply Z.lt_le_pred, Z.div_lt_upper_bound; [lia|].
    rewrite <- Z.pow_add_r by lia. replace (21 * i + t) with (21 * (i + Z.of_nat 0) + t) by lia. lia.
  - apply Forall2_cons. split.
    + unfold inb. cbn [fst snd]. pose proof (Z.mod_pos_bound (x / 2 ^ (21 * i)) (2 ^ 21) ltac:(lia)). lia.
    + apply IH; [lia|]. replace (i + 1 + Z.of_nat n) with (i + Z.of_nat (S n)) by lia. done.
Qed.

(** ** Folding a limb *)

(** What a fold of [s_i] adds to the value, per unit of [s_i]. *)
Definition fold_coef (W : list Z) (i : nat) : Z :=
  666643 * W !!! (i - 12)%nat + 470296 * W !!! (i - 11)%nat + 654183 * W !!! (i - 10)%nat
  - 997805 * W !!! (i - 9)%nat + 136657 * W !!! (i - 8)%nat - 683901 * W !!! (i - 7)%nat - W !!! i.

(** A bound on [s_j + k * s_i] for [k] of either sign. *)
Definition maddI (j i : nat) (k : Z) (B : list itv) : option (list itv) :=
  let b := B !!! i in
  let m := Z.max (- b.1) b.2 * k in
  let c := B !!! j in
  let y := (c.1 - m, c.2 + m) in
  if (i <? length B)%nat && (j <? length B)%nat && negb (i =? j)%nat && (0 <=? k) &&
     fitsI 64 (- m, m) && fitsI 64 y
  then Some (<[j := y]> B) else None.

Definition foldI (i : nat) (B : list itv) : option (list itv) :=
  B ← maddI (i - 12) i 666643 B; B ← maddI (i - 11) i 470296 B; B ← maddI (i - 10) i 654183 B;
  B ← maddI (i - 9) i 997805 B; B ← maddI (i - 8) i 136657 B; B ← maddI (i - 7) i 683901 B;
  Some (<[i := (0, 0)]> B).

(** One step: the value moves by [W_j * k * s_i], and [s_i] stays. *)
Definition moved (W : list Z) (i : nat) (B : list itv) (x v : Z) (s : list Z) : Prop :=
  inbs B s /\ length s = length W /\ s !!! i = x /\ dot W s = v.

Lemma maddsub_ok (neg : bool) W i j k B B' x v s :
  maddI j i k B = Some B' -> moved W i B x v s ->
  returns ((if neg then msub else madd) j i k s)
    (moved W i B' x (v + (if neg then - k else k) * W !!! j * x)).
Proof.
  intros E (Hs & Hl & Hx & Hv). unfold maddI in E. case_match eqn:T; [|done]. apply Some_inj in E. subst B'.
  rewrite !andb_true_iff, !Nat.ltb_lt, negb_true_iff, Nat.eqb_neq, Z.leb_le in T.
  destruct T as (((((Hi & Hj) & Hij) & Hk) & Fm) & Fy).
  pose proof (inbs_lookup _ _ i Hs Hi) as Bi. pose proof (inbs_lookup _ _ j Hs Hj) as Bj.
  unfold inb in Bi, Bj. rewrite Hx in Bi. pose proof (inbs_length _ _ Hs) as Hlen.
  assert (inb (- (Z.max (- (B !!! i).1) (B !!! i).2 * k), Z.max (- (B !!! i).1) (B !!! i).2 * k) (x * k)) as Hm
    by (unfold inb; cbn [fst snd]; nia).
  set (m := Z.max (- (B !!! i).1) (B !!! i).2 * k) in *. pose proof Hm as [Hm1 Hm2]. cbn [fst snd] in Hm1, Hm2.
  destruct neg; unfold msub, madd; rewrite Hx, (ck_in 64 _ _ Fm Hm); cbn [obind];
    (rewrite (ck_in 64 _ _ Fy); [|split; cbn [fst snd]; lia]); cbn [obind returns];
    (split; [apply inbs_insert; [done|split; cbn [fst snd]; lia]|]);
    (split; [by rewrite length_insert|]); (split; [by rewrite list_lookup_total_insert_ne|]);
    rewrite dot_insert by lia; rewrite Hv; ring.
Qed.

Lemma fold_ok W i B B' s :
  foldI i B = Some B' -> length W = length B -> inbs B s ->
  returns (sc_fold i s) (fun s' => inbs B' s' /\ dot W s' = dot W s + fold_coef W i * s !!! i).
Proof.
  intros E HW Hs. unfold foldI in E.
  repeat match goal with E : (_ ≫= _) = Some _ |- _ =>
    let B := fresh "B" in let H := fresh "E" in apply bind_Some in E as (B & H & E) end.
  pose proof (inbs_length _ _ Hs) as Hl.
  assert (moved W i B (s !!! i) (dot W s) s) as M0 by (repeat split; try done; congruence).
  assert (i < length B)%nat as Hi.
  { unfold maddI in E0. case_match eqn:T; [|done]. rewrite !andb_true_iff, !Nat.ltb_lt in T. tauto. }
  unfold sc_fold.
  eapply returns_bind; [exact (maddsub_ok false _ _ _ _ _ _ _ _ _ E0 M0)|]. intros s1 M1.
  eapply returns_bind; [exact (maddsub_ok false _ _ _ _ _ _ _ _ _ E1 M1)|]. intros s2 M2.
  eapply returns_bind; [exact (maddsub_ok false _ _ _ _ _ _ _ _ _ E2 M2)|]. intros s3 M3.
  eapply returns_bind; [exact (maddsub_ok true _ _ _ _ _ _ _ _ _ E3 M3)|]. intros s4 M4.
  eapply returns_bind; [exact (maddsub_ok false _ _ _ _ _ _ _ _ _ E4 M4)|]. intros s5 M5.
  eapply returns_bind; [exact (maddsub_ok true _ _ _ _ _ _ _ _ _ E5 M5)|]. intros s6 (Hb & Hl6 & Hx & Hv).
  injection E as <-. cbn [returns]. split; [by apply inbs_insert|].
  rewrite dot_insert by lia. rewrite Hv, Hx. unfold fold_coef. ring.
Qed.

Fixpoint foldsI (W : list Z) (M : Z) (l : list nat) (B : list itv) : option (list itv) :=
  match l with
  | [] => Some B
  | i :: l =>
      if (length W =? length B)%nat && (fold_coef W i mod M =? 0)
      then B ← foldI i B; foldsI W M l B else None
  end.

Lemma folds_ok W M l B B' : foldsI W M l B = Some B' -> keeps W M (sc_folds l) B B'.
Proof.
  revert B. induction l as [|i l IH]; intros B E; cbn in E.
  - injection E as <-. intros s Hs. by split.
  - case_match eqn:T; [|done]. apply andb_true_iff in T as [HW%Nat.eqb_eq HM%Z.eqb_eq].
    apply bind_Some in E as (B1 & E1 & E2).
    apply (keeps_bind W M (sc_fold i) (sc_folds l) B B1 B'); [|by apply IH].
    intros s Hs. eapply returns_mono; [by apply (fold_ok W i B B1)|]. intros s' [Hb Hv]. split; [done|].
    destruct (cong_of_mod _ _ HM) as [q Hq]. exists (q * s !!! i). rewrite Hv, Hq. ring.
Qed.

(** ** Reduction *)

Definition reduce_1I (B : list itv) : option (list itv) :=
  B ← foldsI sc_weights sc_l [23; 22; 21; 20; 19; 18]%nat B;
  B ← carriesI 64 sc_weights sc_l (r21 <$> [6; 8; 10; 12; 14; 16; 7; 9; 11; 13; 15]%nat) B;
  B ← foldsI sc_weights sc_l [17; 16; 15; 14; 13; 12]%nat B;
  B ← carriesI 64 sc_weights sc_l (r21 <$> [0; 2; 4; 6; 8; 10; 1; 3; 5; 7; 9; 11]%nat) B;
  foldsI sc_weights sc_l [12]%nat B.

Lemma reduce_1_ok B B' : reduce_1I B = Some B' -> keeps sc_weights sc_l reduce_1 B B'.
Proof.
  unfold reduce_1I. intros E.
  repeat match goal with E : (_ ≫= _) = Some _ |- _ =>
    let B := fresh "B" in let H := fresh "E" in apply bind_Some in E as (B & H & E) end.
  unfold reduce_1.
  eapply keeps_bind; [by apply folds_ok|]. eapply keeps_bind; [by apply carries_ok|].
  eapply keeps_bind; [by apply folds_ok|]. eapply keeps_bind; [by apply carries_ok|]. by apply folds_ok.
Qed.

(** Limbs after the carries without rounding: twelve digits and a small rest. *)
Definition floor_bound (n : nat) : list itv :=
  replicate n (0, 2 ^ 21 - 1) ++ (- 2 ^ 40, 2 ^ 40) :: replicate (23 - n) (0, 0).

(** Limbs whose value is between [-2^252] and [2^252], and from which [reduce_2] does not
    overflow. *)
Definition ready (B : list itv) : bool :=
  (- 2 ^ 252 <=? dot sc_weights B.*1) && (dot sc_weights B.*2 <? 2 ^ 252) &&
  carries_to 64 sc_weights 0 (f21 <$> [0; 1; 2; 3; 4; 5; 6; 7; 8; 9; 10; 11]%nat) B (floor_bound 12).

(** A row of digits, and what follows them. *)
Lemma digits_split k : forall (B : list itv) t i, inbs (replicate k (0, 2 ^ 21 - 1) ++ B) t ->
  exists lo d u, t = d ++ u /\ inbs B u /\ length d = k /\ 0 <= lo < 2 ^ (21 * Z.of_nat k) /\
    forall W, dot (((fun j => 2 ^ (21 * Z.of_nat j)) <$> seq i k) ++ W) t = 2 ^ (21 * Z.of_nat i) * lo + dot W u.
Proof.
  induction k as [|k IH]; intros B t i Ht.
  - exists 0, [], t. cbn. splits; [done|done|done|lia|lia|]. intros W. lia.
  - cbn [replicate app] in Ht. inversion Ht as [|? x ? t' Hx Ht']; subst.
    destruct (IH B t' (S i) Ht') as (lo & d & u & Eu & Hu & Hlen & Hlo & Hd). unfold inb in Hx. cbn [fst snd] in Hx.
    assert (2 ^ (21 * Z.of_nat (S k)) = 2 ^ 21 * 2 ^ (21 * Z.of_nat k)) as Ek
      by (rewrite <- Z.pow_add_r by lia; f_equal; lia).
    assert (2 ^ (21 * Z.of_nat (S i)) = 2 ^ (21 * Z.of_nat i) * 2 ^ 21) as Ei
      by (rewrite <- Z.pow_add_r by lia; f_equal; lia).
    exists (x + 2 ^ 21 * lo), (x :: d), u. cbn [app length]. splits; [by f_equal|done|by f_equal|lia|rewrite Ek; lia|].
    intros W. change (seq i (S k)) with (i :: seq (S i) k). rewrite fmap_cons. cbn [app dot]. rewrite Hd, Ei. ring.
Qed.

Lemma dot_zeros k : forall W t, inbs (replicate k (0, 0)) t -> dot W t = 0.
Proof.
  induction k as [|k IH]; intros [|w W] t Ht; inversion Ht as [|? y ? t' Hy Ht']; subst; try done.
  cbn [dot]. rewrite (IH W t' Ht'). unfold inb in Hy. cbn [fst snd] in Hy. assert (y = 0) as -> by lia. lia.
Qed.

(** The limb above the digits is a quotient. *)
Lemma floor_top n s :
  inbs (floor_bound n) s -> (n < 24)%nat -> s !!! n = dot sc_weights s / 2 ^ (21 * Z.of_nat n).
Proof.
  intros Hs Hn. destruct (digits_split n _ s 0%nat Hs) as (lo & d & u & -> & Hu & Hlen & Hlo & Hd).
  inversion Hu as [|? x ? u' Hx Hu']; subst.
  assert (sc_weights = ((fun j => 2 ^ (21 * Z.of_nat j)) <$> seq 0 (length d)) ++
    ((fun j => 2 ^ (21 * Z.of_nat j)) <$> seq (length d) (24 - length d))) as EW.
  { unfold sc_weights. rewrite <- fmap_app, <- seq_app. do 2 f_equal. lia. }
  rewrite EW, Hd. destruct (24 - length d)%nat as [|m] eqn:Em; [lia|].
  change (seq (length d) (S m)) with (length d :: seq (S (length d)) m). rewrite fmap_cons. cbn [dot].
  rewrite (dot_zeros _ _ _ Hu'), lookup_total_app_r, Nat.sub_diag by lia. cbn [lookup_total list_lookup_total].
  change (21 * Z.of_nat 0) with 0. change (2 ^ 0) with 1.
  apply (Z.div_unique _ _ _ lo); [left; lia|lia].
Qed.

(** The rest of the reduction ends with the canonical digits. *)
Lemma reduce_2_ok B s :
  ready B = true -> inbs B s ->
  returns (reduce_2 s) (fun s' => inbs (floor_bound 11) s' /\ dot sc_weights s' = dot sc_weights s mod sc_l).
Proof.
  unfold ready. rewrite !andb_true_iff, Z.leb_le, Z.ltb_lt. intros [[Hlo Hhi] Hc] Hs.
  assert (Forall (Z.le 0) sc_weights) as HW by (repeat constructor; done).
  pose proof (dot_bounds _ _ _ HW Hs) as Hd. set (V := dot sc_weights s) in *. unfold reduce_2.
  eapply returns_bind; [by apply (carries_to_ok _ _ _ _ _ _ Hc)|]. intros s1 [Hb1 Hv1%cong_0]. fold V in Hv1.
  pose proof (floor_top 12 s1 Hb1 ltac:(lia)) as Ht. rewrite Hv1 in Ht. change (21 * Z.of_nat 12) with 252 in Ht.
  assert (exists B2, foldI 12 (floor_bound 12) = Some B2 /\
    carries_to 64 sc_weights 0 (f21 <$> [0; 1; 2; 3; 4; 5; 6; 7; 8; 9; 10]%nat) B2 (floor_bound 11) = true)
    as (B2 & E2 & Hc2).
  { destruct (foldI 12 (floor_bound 12)) eqn:E2; [|by vm_compute in E2]. eexists. split; [done|].
    vm_compute in E2. apply Some_inj in E2. subst l. vm_compute. reflexivity. }
  eapply returns_bind; [apply (fold_ok sc_weights 12 _ B2 s1 E2); [done|done]|]. intros s2 [Hb2 Hv2].
  eapply returns_mono; [by apply (carries_to_ok _ _ _ _ _ _ Hc2)|]. intros s3 [Hb3 Hv3%cong_0]. split; [done|].
  rewrite Hv3, Hv2, Hv1. change (fold_coef sc_weights 12) with (- sc_l). rewrite Ht.
  assert (V / 2 ^ 252 = if V <? 0 then -1 else 0) as ->.
  { destruct (Z.ltb_spec V 0); symmetry.
    - apply (Z.div_unique _ _ _ (V + 2 ^ 252)); [left|]; lia.
    - apply (Z.div_unique _ _ _ V); [left|]; lia. }
  destruct (Z.ltb_spec V 0).
  - apply (Z.mod_unique _ _ (-1)); [left; unfold sc_l; lia|]. lia.
  - apply (Z.mod_unique _ _ 0); [left; unfold sc_l; lia|]. lia.
Qed.

(** ** Packing *)

Lemma s64_byte y : s64 y mod 2 ^ 8 = y mod 2 ^ 8.
Proof.
  assert (s64 y = y + (- 2 ^ 56 * ((y + 2 ^ 63) / 2 ^ 64)) * 2 ^ 8) as -> by (unfold s64; rewrite Z.mod_eq by lia; lia).
  apply Z_mod_plus_full.
Qed.

Lemma sc_byte2_val a i b j m :
  m = 8 - j -> 0 <= i -> 0 <= j <= 8 -> 0 <= a < 2 ^ (i + j) -> sc_byte2 a i b j = a / 2 ^ i + 2 ^ j * (b mod 2 ^ m).
Proof.
  intros Hm Hi Hj Ha. unfold sc_byte2. rewrite Z.shiftr_div_pow2 by done. apply lor_byte; [done|done| |].
  - split; [apply Z.div_pos; lia|]. apply Z.div_lt_upper_bound; [lia|]. rewrite <- Z.pow_add_r by lia. lia.
  - rewrite s64_byte. by rewrite Z.shiftl_mul_pow2 by lia.
Qed.

Lemma limb_bytes1 h a a8 :
  0 <= h -> 0 <= a -> a8 = a + 8 -> h = h mod 2 ^ a + 2 ^ a * u8 (Z.shiftr h a) + 2 ^ a8 * (h / 2 ^ a8).
Proof.
  intros Hh Ha ->. unfold u8. rewrite !Z.shiftr_div_pow2, !Z.pow_add_r by lia.
  rewrite <- !Z.div_div by lia. set (A := 2 ^ a).
  assert (0 < A) by (by apply Z.pow_pos_nonneg). change (2 ^ 8) with 256.
  pose proof (Z.div_mod h A ltac:(lia)). pose proof (Z.div_mod (h / A) 256 ltac:(lia)). nia.
Qed.

Lemma floor_cases s :
  inbs (floor_bound 11) s ->
  exists s0 s1 s2 s3 s4 s5 s6 s7 s8 s9 s10,
    s = [s0; s1; s2; s3; s4; s5; s6; s7; s8; s9; s10; s !!! 11%nat; 0; 0; 0; 0; 0; 0; 0; 0; 0; 0; 0; 0] /\
    (0 <= s0 < 2 ^ 21) /\ (0 <= s1 < 2 ^ 21) /\ (0 <= s2 < 2 ^ 21) /\ (0 <= s3 < 2 ^ 21) /\ (0 <= s4 < 2 ^ 21) /\
    (0 <= s5 < 2 ^ 21) /\ (0 <= s6 < 2 ^ 21) /\ (0 <= s7 < 2 ^ 21) /\ (0 <= s8 < 2 ^ 21) /\ (0 <= s9 < 2 ^ 21) /\
    (0 <= s10 < 2 ^ 21).
Proof.
  intros Hs. unfold inbs, floor_bound, inb in Hs. cbn [replicate app Nat.sub] in Hs.
  repeat match goal with
  | H : Forall2 _ (_ :: _) ?l |- _ => is_var l; destruct l; [by inversion H|apply Forall2_cons in H as [? H]]
  | H : Forall2 _ [] ?l |- _ => is_var l; destruct l; [clear H|by inversion H] end.
  cbn [fst snd] in *.
  repeat match goal with H : 0 <= ?x <= 0 |- _ => assert (x = 0) by lia; clear H; subst x end.
  do 11 eexists. split; [reflexivity|]. splits; lia.
Qed.

Lemma sc_pack_ok s :
  inbs (floor_bound 11) s -> 0 <= s !!! 11%nat <= 2 ^ 21 ->
  returns (sc_pack s) (fun r => length r = 32%nat /\ bytes_ok r /\ le_val r = dot sc_weights s).
Proof.
  intros Hs R11. destruct (floor_cases s Hs) as (s0 & s1 & s2 & s3 & s4 & s5 & s6 & s7 & s8 & s9 & s10 & E & R).
  destruct R as (R0 & R1 & R2 & R3 & R4 & R5 & R6 & R7 & R8 & R9 & R10). rewrite E.
  set (s11 := s !!! 11%nat) in *. clearbody s11. clear s Hs E.
  unfold sc_pack. cbn [returns]. split; [done|]. split.
  { repeat (apply Forall_cons; split; [apply u8_range|]). by apply Forall_nil. }
  rewrite (sc_byte2_val s0 16 s1 5 3), (sc_byte2_val s1 19 s2 2 6), (sc_byte2_val s2 14 s3 7 1),
    (sc_byte2_val s3 17 s4 4 4), (sc_byte2_val s4 20 s5 1 7), (sc_byte2_val s5 15 s6 6 2), (sc_byte2_val s6 18 s7 3 5),
    (sc_byte2_val s8 16 s9 5 3), (sc_byte2_val s9 19 s10 2 6), (sc_byte2_val s10 14 s11 7 1) by lia.
  cbn [le_val]. unfold sc_weights. cbn [seq fmap list_fmap dot].
  pose proof (limb_bytes s0 0 8 16 ltac:(lia) ltac:(lia) eq_refl eq_refl) as E0.
  pose proof (limb_bytes s1 3 11 19 ltac:(lia) ltac:(lia) eq_refl eq_refl) as E1.
  pose proof (limb_bytes1 s2 6 14 ltac:(lia) ltac:(lia) eq_refl) as E2.
  pose proof (limb_bytes s3 1 9 17 ltac:(lia) ltac:(lia) eq_refl eq_refl) as E3.
  pose proof (limb_bytes s4 4 12 20 ltac:(lia) ltac:(lia) eq_refl eq_refl) as E4.
  pose proof (limb_bytes1 s5 7 15 ltac:(lia) ltac:(lia) eq_refl) as E5.
  pose proof (limb_bytes s6 2 10 18 ltac:(lia) ltac:(lia) eq_refl eq_refl) as E6.
  pose proof (limb_bytes s7 5 13 21 ltac:(lia) ltac:(lia) eq_refl eq_refl) as E7.
  pose proof (limb_bytes s8 0 8 16 ltac:(lia) ltac:(lia) eq_refl eq_refl) as E8.
  pose proof (limb_bytes s9 3 11 19 ltac:(lia) ltac:(lia) eq_refl eq_refl) as E9.
  pose proof (limb_bytes1 s10 6 14 ltac:(lia) ltac:(lia) eq_refl) as E10.
  pose proof (limb_bytes s11 1 9 17 ltac:(lia) ltac:(lia) eq_refl eq_refl) as E11.
  rewrite Z.mod_1_r in E0, E8. rewrite (Z.div_small s7) in E7 by lia. rewrite (limb_top s11 17) in E11 by lia.
  repeat match goal with |- context [u8 ?x] => generalize dependent (u8 x); intros end.
  repeat match goal with |- context [?x mod ?y] => generalize dependent (x mod y); intros end.
  repeat match goal with |- context [?x / ?y] => generalize dependent (x / y); intros end.
  repeat match goal with |- context [2 ^ ?e] => let v := eval vm_compute in (2 ^ e) in change (2 ^ e) with v end.
  lia.
Qed.

(** The value is reduced, so the limb above the digits is at most [2 ^ 21]. *)
Lemma pack_reduced s v :
  inbs (floor_bound 11) s -> dot sc_weights s = v mod sc_l ->
  sc_pack s = Done (le_bytes 32 (v mod sc_l)).
Proof.
  intros Hs Hv. pose proof (floor_top 11 s Hs ltac:(lia)) as Ht. rewrite Hv in Ht.
  pose proof (Z.mod_pos_bound v sc_l ltac:(done)) as R.
  assert (0 <= s !!! 11%nat <= 2 ^ 21) as H11.
  { rewrite Ht. change (21 * Z.of_nat 11) with 231. split; [apply Z.div_pos; lia|].
    apply Z.lt_succ_r, Z.div_lt_upper_bound; [lia|]. unfold sc_l in *. lia. }
  pose proof (sc_pack_ok s Hs H11) as H. apply returns_done in H as (r & -> & Hl & Hb & Hr).
  f_equal. rewrite <- (le_bytes_val r Hb), Hl, Hr, Hv. done.
Qed.

Lemma reduce_pack B s :
  match reduce_1I B with Some B' => ready B' | None => false end = true -> inbs B s ->
  (let* t := reduce_1 s in let* t := reduce_2 t in sc_pack t) = Done (le_bytes 32 (dot sc_weights s mod sc_l)).
Proof.
  intros H Hs. case_match eqn:E; [|done].
  pose proof (reduce_1_ok _ _ E s Hs) as H1. apply returns_done in H1 as (s1 & -> & Hb1 & Hv1). cbn [obind].
  pose proof (reduce_2_ok _ s1 H Hb1) as H2. apply returns_done in H2 as (s2 & -> & Hb2 & Hv2). cbn [obind].
  apply cong_mod in Hv1; [|done]. rewrite <- Hv1. by apply pack_reduced.
Qed.

Definition load24_bound : list itv := replicate 23 (0, 2 ^ 21 - 1) ++ [(0, 2 ^ 29 - 1)].

Lemma load24_ready : match reduce_1I load24_bound with Some B' => ready B' | None => false end = true.
Proof. vm_compute. reflexivity. Qed.

Lemma sc_reduce_spec s :
  bytes_ok s -> length s = 64%nat -> sc_reduce s = Done (le_bytes 32 (le_val s mod sc_l) ++ drop 32 s).
Proof.
  intros Hs Hl. unfold sc_reduce. rewrite Hl. cbn [Nat.eqb negb].
  pose proof (le_val_range s Hs) as R. unfold zlen in R. rewrite Hl in R.
  pose proof (digits_bounds 29 23 ltac:(lia) 0 (le_val s) ltac:(lia)) as Hb.
  assert (inbs load24_bound (load24 s)) as Hb'.
  { rewrite load24_digits by done. apply Hb. split; [lia|]. eapply Z.lt_le_trans; [apply R|]. vm_compute. done. }
  pose proof (reduce_pack load24_bound (load24 s) load24_ready Hb') as E.
  rewrite load24_val in E by done.
  destruct (reduce_1 (load24 s)) as [t|]; [|done]. cbn [obind] in *. destruct (reduce_2 t) as [t'|]; [|done].
  cbn [obind] in *. by rewrite E.
Qed.

(** ** Multiplication and addition *)

Lemma sumprod_from {A} a acc l bs (k : Z -> outcome A) Q :
  within a acc -> Forall2 within2 l bs -> (sumprodB a bs <? 2 ^ 63) = true ->
  (within (sumprodB a bs) (sumprodZ acc l) -> returns (k (sumprodZ acc l)) Q) ->
  returns (let* h := sumprod acc l in k h) Q.
Proof. intros Ha H HB Hk. destruct (sumprod_ok a acc l bs Ha H HB) as [E W]. rewrite E. by apply Hk. Qed.

Lemma within_0 : within 0 0.
Proof. done. Qed.

Lemma load12_cases s :
  bytes_ok s -> length s = 32%nat ->
  exists a0 a1 a2 a3 a4 a5 a6 a7 a8 a9 a10 a11,
    load12 s = [a0; a1; a2; a3; a4; a5; a6; a7; a8; a9; a10; a11] /\
    within (2 ^ 21 - 1) a0 /\ within (2 ^ 21 - 1) a1 /\ within (2 ^ 21 - 1) a2 /\ within (2 ^ 21 - 1) a3 /\
    within (2 ^ 21 - 1) a4 /\ within (2 ^ 21 - 1) a5 /\ within (2 ^ 21 - 1) a6 /\ within (2 ^ 21 - 1) a7 /\
    within (2 ^ 21 - 1) a8 /\ within (2 ^ 21 - 1) a9 /\ within (2 ^ 21 - 1) a10 /\ within (2 ^ 25 - 1) a11.
Proof.
  intros Hs Hl. pose proof (le_val_range s Hs) as R. unfold zlen in R. rewrite Hl in R.
  assert (inbs (replicate 11 (0, 2 ^ 21 - 1) ++ [(0, 2 ^ 25 - 1)]) (load12 s)) as Hb.
  { rewrite load12_digits by done. apply digits_bounds; [lia|lia|]. split; [lia|].
    eapply Z.lt_le_trans; [apply R|]. vm_compute. done. }
  unfold load12 in *. do 12 eexists. split; [reflexivity|]. unfold inbs, inb in Hb. cbn [replicate app] in Hb.
  repeat match goal with H : Forall2 _ (_ :: _) (_ :: _) |- _ => apply Forall2_cons in H as [? H] end.
  cbn [fst snd] in *. unfold within. splits; lia.
Qed.

Ltac sc_columns :=
  pose proof within_0;
  repeat match goal with
  | |- returns (obind (sumprod ?c _) _) _ =>
      eapply sumprod_from; [match goal with H : within _ c |- _ => exact H end|products|vm_compute; reflexivity|intros ?]
  end.

(** Whether the carries and the reduction accept the columns within [B]. *)
Definition columns_ready (B : list itv) : bool :=
  match carriesI 64 sc_weights 0 muladd_carries B with
  | Some B => match reduce_1I B with Some B' => ready B' | None => false end
  | None => false
  end.

Lemma muladd_columns_ok a b c :
  bytes_ok a -> length a = 32%nat -> bytes_ok b -> length b = 32%nat -> bytes_ok c -> length c = 32%nat ->
  exists B, columns_ready B = true /\
  returns (muladd_columns (load12 a) (load12 b) (load12 c))
    (fun s => inbs B s /\ dot sc_weights s = le_val a * le_val b + le_val c).
Proof.
  intros Ha La Hb Lb Hc Lc.
  pose proof (load12_val a Ha La) as Va. pose proof (load12_val b Hb Lb) as Vb. pose proof (load12_val c Hc Lc) as Vc.
  destruct (load12_cases a Ha La) as (a0 & a1 & a2 & a3 & a4 & a5 & a6 & a7 & a8 & a9 & a10 & a11 & Ea & A).
  destruct (load12_cases b Hb Lb) as (b0 & b1 & b2 & b3 & b4 & b5 & b6 & b7 & b8 & b9 & b10 & b11 & Eb & B).
  destruct (load12_cases c Hc Lc) as (c0 & c1 & c2 & c3 & c4 & c5 & c6 & c7 & c8 & c9 & c10 & c11 & Ec & C).
  rewrite Ea in Va |- *. rewrite Eb in Vb |- *. rewrite Ec in Vc |- *. rewrite <- Va, <- Vb, <- Vc. clear Va Vb Vc Ea Eb Ec.
  destruct_and! A. destruct_and! B. destruct_and! C. eexists. split; [shelve|].
  unfold muladd_columns. sc_columns. cbn [returns]. split.
  - unfold inbs. repeat (eapply List.Forall2_cons; [apply inb_within; eassumption|]).
    apply List.Forall2_nil.
  - unfold sc_weights. cbn [seq fmap list_fmap take dot sumprodZ foldl].
    repeat match goal with |- context [2 ^ (21 * Z.of_nat ?e)] =>
      let v := eval vm_compute in (21 * Z.of_nat e) in change (2 ^ (21 * Z.of_nat e)) with (2 ^ v) end.
    ring.
Unshelve.
  vm_compute. reflexivity.
Qed.

Lemma sc_muladd_spec a b c :
  bytes_ok a -> length a = 32%nat -> bytes_ok b -> length b = 32%nat -> bytes_ok c -> length c = 32%nat ->
  sc_muladd a b c = Done (le_bytes 32 ((le_val a * le_val b + le_val c) mod sc_l)).
Proof.
  intros Ha La Hb Lb Hc Lc. unfold sc_muladd. rewrite La, Lb, Lc. cbn [Nat.eqb negb andb].
  destruct (muladd_columns_ok a b c) as (B & HB & H); try done. unfold columns_ready in HB. case_match eqn:E; [|done].
  apply returns_done in H as (s & -> & Hs & Hv). cbn [obind].
  pose proof (carries_ok _ _ _ _ _ _ E s Hs) as H1. apply returns_done in H1 as (s1 & -> & Hs1 & Hv1%cong_0).
  cbn [obind]. rewrite (reduce_pack l s1 HB Hs1). by rewrite Hv1, Hv.
Qed.
