(* ===== verification/Prime25519.v ===== *)
(** The modulus of fe.c is prime.

    [fe_invert] raises to the power [p25519 - 2]: that this is the inverse is the
    little theorem of Fermat for a prime modulus.  Both are proved here: Fermat's
    theorem by permuting the residues, and the primality of [p25519] by Pocklington
    certificates that [check] evaluates. *)
From Stdlib Require Import Znumtheory.
From S2P Require Import Prelude Bytes Limbs Fe.

(** ** Fermat's little theorem *)

Definition product (l : list Z) : Z := foldr Z.mul 1 l.

Lemma product_perm l k : l ≡ₚ k -> product l = product k.
Proof.
  induction 1 as [|x l k _ IH|x y l|l1 l2 l3 _ IH1 _ IH2]; unfold product in *; cbn in *; [done|f_equal; done|ring|congruence].
Qed.

Section Fermat.
Context (p : Z) (Hp : prime p).

Lemma prime_pos : 1 < p.
Proof. by destruct Hp. Qed.

Lemma cong_divide a b : a ≡ b [mod p] <-> (p | a - b).
Proof.
  split.
  - intros [q ->]. exists q. ring.
  - intros [q Hq]. exists q. lia.
Qed.

(** A factor that is not zero can be cancelled. *)
Lemma cong_cancel a x y : ~ (p | a) -> a * x ≡ a * y [mod p] -> x ≡ y [mod p].
Proof.
  intros Ha H. apply cong_divide in H. apply cong_divide. rewrite <- Z.mul_sub_distr_l in H.
  apply prime_mult in H as [H|H]; [done|done|done].
Qed.

Lemma residues_perm a : ~ (p | a) -> (fun i => (a * i) mod p) <$> seqZ 1 (p - 1) ≡ₚ seqZ 1 (p - 1).
Proof.
  intros Ha. pose proof prime_pos as H1. apply submseteq_length_Permutation.
  - apply NoDup_submseteq.
    + apply NoDup_fmap_2_strong; [|apply NoDup_seqZ]. intros x y Hx%elem_of_seqZ Hy%elem_of_seqZ E.
      assert (x ≡ y [mod p]) as H by (apply (cong_cancel a); [done|]; apply cong_mod; [lia|done]).
      apply cong_mod in H; [|lia]. rewrite !Z.mod_small in H by lia. done.
    + intros x (i & -> & Hi%elem_of_seqZ)%list_elem_of_fmap. apply elem_of_seqZ.
      pose proof (Z.mod_pos_bound (a * i) p ltac:(lia)) as R.
      assert ((a * i) mod p <> 0) as Hz; [|lia]. intros E%Z.mod_divide; [|lia].
      apply prime_mult in E as [E|E]; [done| |done]. apply Z.divide_pos_le in E; lia.
  - by rewrite length_fmap.
Qed.

Lemma product_scaled a l : product ((fun i => (a * i) mod p) <$> l) ≡ a ^ Z.of_nat (length l) * product l [mod p].
Proof.
  pose proof prime_pos. induction l as [|x l IH]; [reflexivity|]. cbn [fmap list_fmap product foldr length].
  fold (product l). fold (product ((fun i => (a * i) mod p) <$> l)). rewrite Nat2Z.inj_succ, Z.pow_succ_r by lia.
  assert ((a * x) mod p ≡ a * x [mod p]) as E by (apply cong_mod; [lia|]; apply Z.mod_mod; lia).
  change (foldr Z.mul 1 ((fun i => (a * i) mod p) <$> l)) with (product ((fun i => (a * i) mod p) <$> l)).
  change (product (list_fmap Z Z (fun i => (a * i) mod p) l)) with (product ((fun i => (a * i) mod p) <$> l)).
  rewrite E, IH. exists 0. ring.
Qed.

Lemma product_nonzero l : Forall (fun i => ~ (p | i)) l -> ~ (p | product l).
Proof.
  induction 1 as [|x l Hx Hl IH]; cbn.
  - intros H%Z.divide_1_r_nonneg; pose proof prime_pos; lia.
  - intros [H|H]%prime_mult; auto.
Qed.

Lemma fermat a : ~ (p | a) -> a ^ (p - 1) ≡ 1 [mod p].
Proof.
  intros Ha. pose proof prime_pos as H1. pose proof (product_scaled a (seqZ 1 (p - 1))) as E.
  rewrite (product_perm _ _ (residues_perm a Ha)) in E. rewrite length_seqZ, Z2Nat.id in E by lia.
  apply (cong_cancel (product (seqZ 1 (p - 1)))).
  - apply product_nonzero, Forall_forall. intros x Hx%elem_of_seqZ H%Z.divide_pos_le; lia.
  - rewrite Z.mul_1_r, Z.mul_comm. by symmetry.
Qed.

End Fermat.

(** ** Pocklington certificates *)

(** [x] less a multiple of [n] that brings it near [n]: the quotient is estimated with
    [m = 2 ^ (2 k) / n] for [n] of [k] bits. *)
Definition barrett (n m k x : Z) : Z := x - Z.shiftr (Z.shiftr x (k - 1) * m) (k + 1) * n.

Fixpoint pow_with (red : Z -> Z) (a : Z) (e : positive) : Z :=
  match e with
  | xH => red a
  | xO e => let t := pow_with red a e in red (t * t)
  | xI e => let t := pow_with red a e in red (red (t * t) * a)
  end.

(** A number congruent to [a ^ e] modulo [n]. *)
Definition pow_mod (a : Z) (e : positive) (n : Z) : Z :=
  let k := Z.log2 n + 1 in pow_with (barrett n (2 ^ (2 * k) / n) k) a e.

Lemma pow_mod_ok a e n : pow_mod a e n ≡ a ^ Zpos e [mod n].
Proof.
  unfold pow_mod. cbn zeta. generalize (Z.log2 n + 1), (2 ^ (2 * (Z.log2 n + 1)) / n). intros k m.
  assert (forall x, barrett n m k x ≡ x [mod n]) as M.
  { intros x. exists (- Z.shiftr (Z.shiftr x (k - 1) * m) (k + 1)). unfold barrett. ring. }
  induction e as [e IH|e IH|]; cbn [pow_with].
  - rewrite M, M, IH. rewrite Pos2Z.inj_xI, Z.pow_add_r, Z.pow_1_r by lia.
    replace (2 * Zpos e) with (Zpos e + Zpos e) by lia. rewrite Z.pow_add_r by lia. reflexivity.
  - rewrite M, IH. rewrite Pos2Z.inj_xO. replace (2 * Zpos e) with (Zpos e + Zpos e) by lia.
    rewrite Z.pow_add_r by lia. reflexivity.
  - rewrite M, Z.pow_1_r. reflexivity.
Qed.

(** [a ^ (n - 1) = 1], and a prime [r] with an element of order [r] modulo every prime
    factor of [n]. *)
Definition fermat_test (n a : Z) : bool :=
  match n - 1 with Zpos e => pow_mod a e n mod n =? 1 | _ => false end.

Definition witness (n a r : Z) : bool :=
  match (n - 1) / r with
  | Zpos f => ((n - 1) mod r =? 0) && (Z.gcd (pow_mod a f n - 1) n =? 1)
  | _ => false
  end.

Lemma prime_divisor n : 1 < n -> exists q, prime q /\ (q | n).
Proof.
  intros Hn. assert (0 <= n) as H0 by lia. revert Hn. pattern n. apply Z_lt_induction; [|done].
  clear n H0. intros n IH Hn. destruct (prime_dec n) as [Hp|Hp]; [exists n; by split; [|exists 1; lia]|].
  destruct (not_prime_divide n Hn Hp) as (d & Hd & Hdn). destruct (IH d ltac:(lia) ltac:(lia)) as (q & Hq & Hqd).
  exists q. split; [done|]. by etrans.
Qed.

Lemma small_divisor n : 1 < n -> ~ prime n -> exists q, prime q /\ (q | n) /\ q * q <= n.
Proof.
  intros Hn Hp. destruct (not_prime_divide n Hn Hp) as (d & Hd & c & ->).
  assert (exists m, 1 < m /\ (m | c * d) /\ m * m <= c * d) as (m & Hm & Hmd & Hmm).
  { destruct (Z.le_ge_cases c d); [exists c|exists d]; (split; [nia|split; [|nia]]); [exists d; ring|exists c; ring]. }
  destruct (prime_divisor m Hm) as (q & Hq & Hqm). exists q. split; [done|]. split; [by etrans|].
  apply Z.divide_pos_le in Hqm; [|lia]. destruct Hq. nia.
Qed.

(** The order [r] divides [q - 1]. *)
Lemma order_divides q r b : prime q -> prime r -> b ^ r ≡ 1 [mod q] -> ~ b ≡ 1 [mod q] -> (r | q - 1).
Proof.
  intros Hq Hr E Hb. pose proof (prime_pos q Hq) as Q. pose proof (prime_pos r Hr) as R.
  destruct (Zdivide_dec r (q - 1)) as [H|H]; [done|]. exfalso. apply Hb.
  assert (rel_prime r (q - 1)) as [u v B]%rel_prime_bezout by (by apply prime_rel_prime).
  assert (~ (q | b)) as Hqb.
  { intros Hd. assert (b ≡ 0 [mod q]) as Z0 by (apply cong_divide; by rewrite Z.sub_0_r).
    rewrite Z0, Z.pow_0_l in E by lia. apply cong_mod in E; [|lia]. rewrite Z.mod_0_l, Z.mod_1_l in E by lia. lia. }
  set (k := u mod (q - 1) + (q - 1)).
  assert (k * r = 1 + (q - 1) * ((k * r - 1) / (q - 1))) as Ek.
  { assert ((q - 1 | k * r - 1)) as D.
    { exists (r - v - u / (q - 1) * r). unfold k. rewrite (Z.mod_eq u (q - 1)) by lia. lia. }
    destruct D as [c Hc]. rewrite Hc, Z.div_mul by lia. lia. }
  set (l := (k * r - 1) / (q - 1)) in *.
  assert (0 <= k) by (unfold k; pose proof (Z.mod_pos_bound u (q - 1)); lia).
  assert (0 <= l) by (apply Z.div_pos; [|lia]; unfold k; pose proof (Z.mod_pos_bound u (q - 1)); nia).
  assert (0 <= (q - 1) * l) by nia.
  assert (b ≡ b ^ (k * r) [mod q]) as ->.
  { rewrite Ek, Z.pow_add_r, Z.pow_1_r, Z.pow_mul_r by lia. rewrite (fermat q Hq b Hqb), Z.pow_1_l by lia.
    exists 0. ring. }
  rewrite Z.mul_comm, Z.pow_mul_r by lia. rewrite E, Z.pow_1_l by lia. reflexivity.
Qed.

Lemma witness_divides n a r q :
  1 < n -> fermat_test n a = true -> witness n a r = true -> prime r -> prime q -> (q | n) -> (r | q - 1).
Proof.
  unfold witness, fermat_test. intros Hn H2 H Hr Hq Hqn. pose proof (prime_pos r Hr) as R. pose proof (prime_pos q Hq) as Q.
  destruct (n - 1) as [|e|] eqn:E1; [done| |done]. destruct (Zpos e / r) as [|f|] eqn:E2; [done| |done].
  rewrite andb_true_iff, !Z.eqb_eq in H. rewrite Z.eqb_eq in H2. destruct H as [H1 H3].
  assert (Zpos e = r * Zpos f) as Ef by (rewrite <- E2; apply Z.div_exact; lia).
  assert (forall x y, x ≡ y [mod n] -> x ≡ y [mod q]) as Hmod.
  { intros x y [c ->]. destruct Hqn as [m ->]. exists (c * m). ring. }
  apply (order_divides q r (pow_mod a f n)); [done|done| |].
  - apply Hmod. rewrite (pow_mod_ok a f n), <- Z.pow_mul_r, Z.mul_comm, <- Ef by lia.
    rewrite <- (pow_mod_ok a e n). apply cong_mod; [lia|]. by rewrite H2, Z.mod_1_l.
  - intros C%cong_divide. assert ((q | 1)) as D by (rewrite <- H3; by apply Z.gcd_greatest).
    apply Z.divide_pos_le in D; lia.
Qed.

Inductive cert := Small (n : Z) | Pock (n a : Z) (fs : list cert).

Definition cert_num (c : cert) : Z := match c with Small n | Pock n _ _ => n end.

(** Distinct primes by increasing order of the list. *)
Fixpoint distinct (l : list Z) : bool :=
  match l with [] => true | x :: l => forallb (fun y => negb (x =? y)) l && distinct l end.

Fixpoint check (c : cert) : bool :=
  match c with
  | Small n => (1 <? n) && forallb (fun d => negb (n mod d =? 0)) (seqZ 2 (Z.sqrt n - 1))
  | Pock n a fs =>
      let rs := cert_num <$> fs in
      (1 <? n) && forallb check fs && fermat_test n a && forallb (witness n a) rs && distinct rs && (n <? product rs * product rs)
  end.

Lemma trial_division n :
  1 < n -> forallb (fun d => negb (n mod d =? 0)) (seqZ 2 (Z.sqrt n - 1)) = true -> prime n.
Proof.
  intros Hn H. destruct (prime_dec n) as [Hp|Hp]; [done|]. exfalso.
  destruct (small_divisor n Hn Hp) as (q & Hq & Hqn & Hqq). pose proof (prime_pos q Hq) as Q.
  rewrite forallb_forall in H. specialize (H q). rewrite <- list_elem_of_In in H.
  assert (q <= Z.sqrt n) by (apply Z.sqrt_le_square; lia).
  assert (n mod q = 0) as E by (by apply Z.mod_divide; [lia|]). rewrite E in H. cbn in H.
  assert (false = true); [|done]. apply H, elem_of_seqZ. lia.
Qed.

Lemma product_divides x rs :
  Forall prime rs -> distinct rs = true -> Forall (fun r => (r | x)) rs -> (product rs | x).
Proof.
  induction 1 as [|r rs Hr Hrs IH]; intros Hd Hx; [by exists x; cbn; lia|]. cbn in Hd.
  apply andb_true_iff in Hd as [Hn Hd]. apply Forall_cons in Hx as [Hx Hxs]. cbn [product foldr]. fold (product rs).
  change (foldr Z.mul 1 rs) with (product rs).
  destruct (IH Hd Hxs) as [m Hm]. rewrite Hm in Hx.
  assert (rel_prime r (product rs)) as Hrel.
  { apply prime_rel_prime; [done|]. clear - Hr Hrs Hn. intros H. induction Hrs as [|s rs Hs Hrs IH]; cbn in *.
    - apply Z.divide_1_r_nonneg in H; pose proof (prime_pos r Hr); lia.
    - apply andb_true_iff in Hn as [Hrs' Hn]. apply prime_mult in H as [H|H]; [|by apply IH|done].
      apply prime_div_prime in H; [|done|done]. subst. by rewrite Z.eqb_refl in Hrs'. }
  rewrite Z.mul_comm in Hx. apply Gauss in Hx; [|done]. destruct Hx as [c ->]. exists c. rewrite Hm. ring.
Qed.

Lemma product_pos rs : Forall prime rs -> 0 < product rs.
Proof.
  induction 1 as [|r rs Hr Hrs IH]; cbn; [lia|]. pose proof (prime_pos r Hr). unfold product in IH. nia.
Qed.

Lemma check_prime : forall c, check c = true -> prime (cert_num c).
Proof.
  fix IH 1. intros [n|n a fs] H; cbn [check cert_num] in *.
  - apply andb_true_iff in H as [Hn%Z.ltb_lt H]. by apply trial_division.
  - rewrite !andb_true_iff, !Z.ltb_lt in H. destruct H as [[[[[Hn Hc] Ht] Hw] Hd] HF].
    assert (Forall prime (cert_num <$> fs)) as Hp.
    { clear - IH Hc. induction fs as [|f fs IHfs]; [constructor|]. cbn in Hc. apply andb_true_iff in Hc as [H1 H2].
      constructor; [by apply IH|by apply IHfs]. }
    destruct (prime_dec n) as [|Hnp]; [done|]. exfalso.
    destruct (small_divisor n Hn Hnp) as (q & Hq & Hqn & Hqq). pose proof (prime_pos q Hq) as Q.
    assert ((product (cert_num <$> fs) | q - 1)) as D.
    { apply product_divides; [done|done|]. rewrite forallb_forall in Hw. rewrite Forall_forall in Hp.
      apply Forall_forall. intros r Hr. apply (witness_divides n a r q Hn Ht); [|by apply Hp|done|done].
      apply Hw. by apply list_elem_of_In. }
    apply Z.divide_pos_le in D; [|lia]. pose proof (product_pos _ Hp). nia.
Qed.

(** The certificate: [p25519 - 1 = 2^2 * 3 * 65147 * 740...907], and so on. *)
Definition cert25519 : cert :=
  Pock (2 ^ 255 - 19) 2
    [Pock 74058212732561358302231226437062788676166966415465897661863160754340907 2
      [Pock 75445702479781427272750846543864801 2
        [Pock 1919519569386763 2 [Small 8574133; Small 127];
         Pock 72106336199 2 [Pock 2773320623 2 [Small 569003]]];
       Pock 31757755568855353 2 [Small 430751; Small 4153]]].

Lemma p25519_prime : prime p25519.
Proof. apply (check_prime cert25519). vm_compute. reflexivity. Qed.
