(* ===== verification/Edwards.v ===== *)
(** The group that ge.c computes in: the points of [-x^2 + y^2 = 1 + d x^2 y^2] over the
    integers modulo [p25519], [d = -121665/121666], with the addition of Edwards.

    The addition law has no exceptions because [d] is not a square ([denom_nonzero]); it is
    associative by an identity in the ideal of the three curve equations.  [epoint] packs a
    pair with the proof that it is on the curve, so that the laws are equations. *)
From Stdlib Require Import Znumtheory Eqdep_dec.
From S2P Require Import Prelude Bytes Limbs Fe Prime25519.

Notation "a == b" := (cong p25519 a b) (at level 70, only parsing) : c_scope.

(** ** The field *)

Lemma p25519_pos : 1 < p25519.
Proof. done. Qed.

Lemma mod_eq x : x mod p25519 == x.
Proof. apply cong_mod; [done|]. by apply Z.mod_mod. Qed.

Lemma eq_mod a b : a == b <-> a mod p25519 = b mod p25519.
Proof. by apply cong_mod. Qed.

#[export] Instance eq_dec_field a b : Decision (a == b).
Proof. refine (cast_if (decide (a mod p25519 = b mod p25519))); by rewrite eq_mod. Defined.

Lemma zero_divide a : a == 0 <-> (p25519 | a).
Proof. rewrite (cong_divide p25519). by rewrite Z.sub_0_r. Qed.

Lemma sub_zero a b : a - b == 0 <-> a == b.
Proof.
  split; intros [q H]; exists q; lia.
Qed.

Lemma mul_zero a b : a * b == 0 -> a == 0 \/ b == 0.
Proof. rewrite !zero_divide. apply prime_mult, p25519_prime. Qed.

Lemma mul_nonzero a b : ~ a == 0 -> ~ b == 0 -> ~ a * b == 0.
Proof. intros Ha Hb [H|H]%mul_zero; auto. Qed.

Lemma mul_cancel a x y : ~ a == 0 -> a * x == a * y -> x == y.
Proof. rewrite zero_divide. apply cong_cancel, p25519_prime. Qed.

Lemma fermat25519 a : ~ a == 0 -> a ^ (p25519 - 1) == 1.
Proof. rewrite zero_divide. apply fermat, p25519_prime. Qed.

(** [z ^ (p - 2)], what [fe_invert] computes. *)
Definition finv (z : Z) : Z :=
  match p25519 - 2 with Zpos e => pow_mod z e p25519 | _ => 0 end.

Lemma finv_pow z : finv z == z ^ (p25519 - 2).
Proof. apply (pow_mod_ok z _ p25519). Qed.

Lemma pow_inverse z : ~ z == 0 -> z * z ^ (p25519 - 2) == 1.
Proof.
  intros H. rewrite <- (fermat25519 z H). replace (p25519 - 1) with (Z.succ (p25519 - 2)) by (unfold p25519; lia).
  rewrite Z.pow_succ_r by done. reflexivity.
Qed.

Lemma finv_ok z : ~ z == 0 -> z * finv z == 1.
Proof. intros H. rewrite finv_pow. by apply pow_inverse. Qed.

Definition fdiv (a b : Z) : Z := (a * finv b) mod p25519.

Lemma fdiv_ok a b : ~ b == 0 -> fdiv a b * b == a.
Proof.
  intros H. pose proof (finv_ok b H) as E. unfold fdiv. rewrite mod_eq. generalize dependent (finv b). intros i E.
  transitivity (a * (b * i)); [exists 0; ring|]. rewrite E. exists 0. ring.
Qed.

Lemma fdiv_unique a b q : ~ b == 0 -> q * b == a -> q == fdiv a b.
Proof.
  intros Hb H. apply (mul_cancel b); [done|]. pose proof (fdiv_ok a b Hb) as H2. generalize dependent (fdiv a b).
  intros z H2. transitivity a; [by rewrite Z.mul_comm|by rewrite Z.mul_comm].
Qed.

Lemma fdiv_range a b : 0 <= fdiv a b < p25519.
Proof. apply Z.mod_pos_bound. done. Qed.

Lemma canon_eq a b : 0 <= a < p25519 -> 0 <= b < p25519 -> a == b -> a = b.
Proof. intros Ha Hb H%eq_mod. by rewrite !Z.mod_small in H. Qed.

(** ** The curve *)

(** [-121665 / 121666]; its limbs are the constant [d] of ge.c. *)
Definition ed_d : Z := 37095705934669439343138083508754565189542113879843219016388785533085940283555.

Lemma ed_d_ok : 121666 * ed_d == -121665.
Proof. apply eq_mod. vm_compute. reflexivity. Qed.

Lemma small_nonzero : ~ 121666 == 0.
Proof. rewrite eq_mod. vm_compute. done. Qed.

(** A square root of [-1]. *)
Definition ed_i : Z := 19681161376707505956807079304988542015446066515923890162744021073123829784752.

Lemma ed_i_ok : ed_i * ed_i == -1.
Proof. apply eq_mod. vm_compute. reflexivity. Qed.

(** The criterion of Euler for [d] times the square of 121666: the power [(p - 1) / 2] is [-1]. *)
Lemma euler_d : (-121665 * 121666) ^ ((p25519 - 1) / 2) == -1.
Proof.
  change ((p25519 - 1) / 2) with (Zpos (Z.to_pos ((p25519 - 1) / 2))).
  transitivity (pow_mod (-121665 * 121666) (Z.to_pos ((p25519 - 1) / 2)) p25519); [symmetry; by apply pow_mod_ok|].
  apply eq_mod. vm_compute. reflexivity.
Qed.

Lemma d_nonsquare u w : ~ u == 0 -> ~ ed_d * (u * u) == w * w.
Proof.
  intros Hu H. pose proof euler_d as Em. assert (2 * ((p25519 - 1) / 2) = p25519 - 1) as Hh by reflexivity.
  assert (0 <= (p25519 - 1) / 2) as H0 by done. generalize dependent ((p25519 - 1) / 2). intros h Em Hh H0.
  assert (~ ed_d == 0) as Hd by (rewrite eq_mod; vm_compute; done).
  assert (~ w == 0) as Hw.
  { intros Hw. rewrite Hw in H. change (0 * 0) with 0 in H. apply mul_zero in H as [H|H]; [done|].
    by apply mul_zero in H as [H|H]. }
  assert (forall z, ~ z == 0 -> (z * z) ^ h == 1) as Hsq.
  { intros z Hz. rewrite <- Z.pow_2_r, <- Z.pow_mul_r by done. rewrite Hh. by apply fermat25519. }
  assert (1 == -1) as E; [|apply eq_mod in E; by vm_compute in E].
  pose proof small_nonzero as Hc.
  rewrite <- (Hsq (w * 121666)) by (by apply mul_nonzero).
  assert (w * 121666 * (w * 121666) == -121665 * 121666 * (u * u)) as ->.
  { transitivity (w * w * (121666 * 121666)); [exists 0; ring|]. rewrite <- H.
    transitivity (121666 * ed_d * 121666 * (u * u)); [exists 0; ring|]. by rewrite ed_d_ok. }
  rewrite Z.pow_mul_l, Em, (Hsq u Hu). exists 0. ring.
Qed.

Definition curve (x y : Z) : Prop := y * y - x * x == 1 + ed_d * (x * x) * (y * y).

(** The curve equation as a polynomial that vanishes. *)
Definition ceq (d x y : Z) : Z := 1 + d * x^2 * y^2 + x^2 - y^2.

Lemma curve_ceq x y : curve x y <-> ceq ed_d x y == 0.
Proof. unfold curve, ceq. split; intros [q H]; exists (- q); lia. Qed.

(** If the product of the coordinates were [+1] or [-1], [d] would be a square. *)
Lemma product_not_unit e x1 y1 x2 y2 :
  curve x1 y1 -> curve x2 y2 -> e * e == 1 -> ~ ed_d * x1 * x2 * y1 * y2 == e.
Proof.
  intros C1 C2 He Hk.
  assert (~ x1 * y1 * y2 == 0) as Hnz.
  { intros Hz. assert (ed_d * x1 * x2 * y1 * y2 == 0) as H0.
    { transitivity (ed_d * x2 * (x1 * y1 * y2)); [exists 0; ring|]. rewrite Hz. exists 0. ring. }
    rewrite Hk in H0. rewrite H0 in He. apply eq_mod in He. by vm_compute in He. }
  assert (forall i, i * i == -1 ->
    ed_d * (x1 * y1 * (y2 + i * x2) * (x1 * y1 * (y2 + i * x2))) == (y1 + i * e * x1) * (y1 + i * e * x1)) as Hsq.
  { intros i Hi. unfold curve in C1, C2. set (k := ed_d * x1 * x2 * y1 * y2) in *.
    transitivity (ed_d * (x1 * x1) * (y1 * y1) * (y2 * y2 + (i * i) * (x2 * x2)) + 2 * i * (x1 * y1) * k);
      [exists 0; unfold k; ring|]. rewrite Hi.
    transitivity (ed_d * (x1 * x1) * (y1 * y1) * (y2 * y2 - x2 * x2) + 2 * i * (x1 * y1) * k); [exists 0; ring|].
    rewrite C2. transitivity (ed_d * (x1 * x1) * (y1 * y1) + k * k + 2 * i * (x1 * y1) * k); [exists 0; unfold k; ring|].
    rewrite Hk, He. transitivity (1 + ed_d * (x1 * x1) * (y1 * y1) + 2 * i * (x1 * y1) * e); [exists 0; ring|].
    rewrite <- C1. transitivity (y1 * y1 + (-1) * 1 * (x1 * x1) + 2 * i * (x1 * y1) * e); [exists 0; ring|].
    rewrite <- Hi at 1. rewrite <- He at 1. exists 0. ring. }
  assert (forall i, i * i == -1 -> y2 + i * x2 == 0) as Hz.
  { intros i Hi. destruct (decide (y2 + i * x2 == 0)) as [H|H]; [done|]. exfalso.
    apply (d_nonsquare (x1 * y1 * (y2 + i * x2)) (y1 + i * e * x1)); [|by apply Hsq].
    apply mul_nonzero; [|done]. intros Hxy. apply Hnz. rewrite Hxy. exists 0. ring. }
  pose proof (Hz ed_i ed_i_ok) as H1. pose proof (Hz (- ed_i)) as H2.
  rewrite Z.mul_opp_opp in H2. specialize (H2 ed_i_ok).
  assert (2 * y2 == 0) as Hy.
  { transitivity ((y2 + ed_i * x2) + (y2 + - ed_i * x2)); [exists 0; ring|]. rewrite H1, H2. reflexivity. }
  apply mul_zero in Hy as [Hy|Hy]; [apply eq_mod in Hy; by vm_compute in Hy|].
  apply Hnz. rewrite Hy. exists 0. ring.
Qed.

Lemma denom_nonzero x1 y1 x2 y2 :
  curve x1 y1 -> curve x2 y2 ->
  ~ 1 + ed_d * x1 * x2 * y1 * y2 == 0 /\ ~ 1 - ed_d * x1 * x2 * y1 * y2 == 0.
Proof.
  intros C1 C2. split; intros H.
  - apply (product_not_unit (-1) x1 y1 x2 y2 C1 C2); [exists 0; ring|].
    transitivity ((1 + ed_d * x1 * x2 * y1 * y2) + -1); [exists 0; ring|]. rewrite H. reflexivity.
  - apply (product_not_unit 1 x1 y1 x2 y2 C1 C2); [exists 0; ring|].
    transitivity (1 - (1 - ed_d * x1 * x2 * y1 * y2)); [exists 0; ring|]. rewrite H. reflexivity.
Qed.

(** ** Addition *)

Definition edw_add (P Q : Z * Z) : Z * Z :=
  let '(x1, y1) := P in
  let '(x2, y2) := Q in
  let k := ed_d * x1 * x2 * y1 * y2 in
  (fdiv (x1 * y2 + x2 * y1) (1 + k), fdiv (y1 * y2 + x1 * x2) (1 - k)).

(** Coordinates of a sum, without division. *)
Lemma edw_add_ok x1 y1 x2 y2 x y :
  curve x1 y1 -> curve x2 y2 -> edw_add (x1, y1) (x2, y2) = (x, y) ->
  x * (1 + ed_d * x1 * x2 * y1 * y2) == x1 * y2 + x2 * y1 /\
  y * (1 - ed_d * x1 * x2 * y1 * y2) == y1 * y2 + x1 * x2.
Proof.
  intros C1 C2 E. destruct (denom_nonzero x1 y1 x2 y2 C1 C2). injection E as <- <-. by split; apply fdiv_ok.
Qed.

Ltac ring0 := exists 0; ring.

Section Identities.
Context (d x1 y1 x2 y2 x3 y3 : Z).

Let k12 := d * x1 * x2 * y1 * y2.
Let a12 := x1 * y2 + x2 * y1.
Let b12 := y1 * y2 + x1 * x2.
Let k23 := d * x2 * x3 * y2 * y3.
Let a23 := x2 * y3 + x3 * y2.
Let b23 := y2 * y3 + x2 * x3.

(** The sum of two points is on the curve. *)
Lemma closure_identity :
  ((1 + k12) * (1 - k12))^2 + d * a12^2 * b12^2 + a12^2 * (1 - k12)^2 - b12^2 * (1 + k12)^2 =
  - ((- d^3 * x1^2 * y1^2 * x2^4 * y2^4 + d^2 * x1^2 * x2^4 * y2^4 - d^2 * y1^2 * x2^4 * y2^4 + d^2 * x2^4 * y2^4 + d
      * x1^2 * x2^4 * y2^2 - d * x1^2 * x2^2 * y2^4 - d * y1^2 * x2^4 * y2^2 + d * y1^2 * x2^2 * y2^4 + 2 * d * x2^4 *
      y2^4 + 2 * d * x2^2 * y2^2 + 2 * x2^4 * y2^2 - x2^4 - 2 * x2^2 * y2^4 + 4 * x2^2 * y2^2 - y2^4) * ceq d x1 y1 +
     (- d * x1^4 * x2^2 * y2^2 - 2 * d * x1^2 * x2^2 * y2^2 - d * y1^4 * x2^2 * y2^2 + 2 * d * y1^2 * x2^2 * y2^2 - d
      * x2^2 * y2^2 - 2 * x1^2 * x2^2 * y2^2 + x1^2 * x2^2 - x1^2 * y2^2 + 2 * y1^2 * x2^2 * y2^2 - y1^2 * x2^2 + y1^2
      * y2^2 - 2 * x2^2 * y2^2 + x2^2 - y2^2 - 1) * ceq d x2 y2).
Proof. unfold ceq, k12, a12, b12. ring. Qed.

(** The two ways to add three points, with the denominators multiplied out. *)
Lemma assoc_identity_x :
  (a12 * y3 * (1 - k12) + x3 * b12 * (1 + k12)) * ((1 + k23) * (1 - k23) + d * x1 * y1 * a23 * b23) -
  (x1 * b23 * (1 + k23) + a23 * y1 * (1 - k23)) * ((1 + k12) * (1 - k12) + d * a12 * b12 * x3 * y3) =
  (d^2 * x1 * x2^4 * y2^3 * x3^2 * y3 + d^2 * x1 * x2^3 * y2^4 * x3 * y3^2 - d^2 * y1 * x2^4 * y2^3 * x3 * y3^2 -
    d^2 * y1 * x2^3 * y2^4 * x3^2 * y3 + d * x1 * x2^4 * y2 * x3^2 * y3 + d * x1 * x2^3 * y2^2 * x3^3 + d * x1 *
    x2^3 * y2^2 * x3 - d * x1 * x2^2 * y2^3 * y3^3 + d * x1 * x2^2 * y2^3 * y3 - d * x1 * x2 * y2^4 * x3 * y3^2 - d
    * y1 * x2^4 * y2 * x3 * y3^2 - d * y1 * x2^3 * y2^2 * y3^3 + d * y1 * x2^3 * y2^2 * y3 + d * y1 * x2^2 * y2^3 *
    x3^3 + d * y1 * x2^2 * y2^3 * x3 + d * y1 * x2 * y2^4 * x3^2 * y3) * ceq d x1 y1 +
  (- d^2 * x1^2 * y1 * x2^2 * y2 * x3^3 * y3^2 + d^2 * x1^2 * y1 * x2 * y2^2 * x3^2 * y3^3 + d^2 * x1 * y1^2 * x2^2
    * y2 * x3^2 * y3^3 - d^2 * x1 * y1^2 * x2 * y2^2 * x3^3 * y3^2 - d * x1^3 * x2^2 * y2 * x3^2 * y3 - d * x1^3 *
    x2 * y2^2 * x3 * y3^2 - d * x1^3 * x2 * x3^3 * y3^2 - d * x1^3 * y2 * x3^2 * y3^3 + d * x1^2 * y1 * x2^2 * y2 *
    x3 * y3^2 + d * x1^2 * y1 * x2 * y2^2 * x3^2 * y3 - d * x1^2 * y1 * x2 * x3^2 * y3^3 - d * x1^2 * y1 * y2 * x3^3
    * y3^2 + d * x1 * y1^2 * x2^2 * y2 * x3^2 * y3 + d * x1 * y1^2 * x2 * y2^2 * x3 * y3^2 + d * x1 * y1^2 * x2 *
    x3^3 * y3^2 + d * x1 * y1^2 * y2 * x3^2 * y3^3 - d * x1 * x2^2 * y2 * x3^2 * y3 - d * x1 * x2 * y2^2 * x3 * y3^2
    - d * x1 * x2 * x3^3 * y3^2 - d * x1 * y2 * x3^2 * y3^3 - d * y1^3 * x2^2 * y2 * x3 * y3^2 - d * y1^3 * x2 *
    y2^2 * x3^2 * y3 + d * y1^3 * x2 * x3^2 * y3^3 + d * y1^3 * y2 * x3^3 * y3^2 + d * y1 * x2^2 * y2 * x3 * y3^2 +
    d * y1 * x2 * y2^2 * x3^2 * y3 - d * y1 * x2 * x3^2 * y3^3 - d * y1 * y2 * x3^3 * y3^2 - x1^3 * x2 * x3^3 + x1^3
    * x2 * x3 * y3^2 - x1^3 * x2 * x3 - x1^3 * y2 * x3^2 * y3 + x1^3 * y2 * y3^3 - x1^3 * y2 * y3 - x1^2 * y1 * x2 *
    x3^2 * y3 + x1^2 * y1 * x2 * y3^3 - x1^2 * y1 * x2 * y3 - x1^2 * y1 * y2 * x3^3 + x1^2 * y1 * y2 * x3 * y3^2 -
    x1^2 * y1 * y2 * x3 + x1 * y1^2 * x2 * x3^3 - x1 * y1^2 * x2 * x3 * y3^2 + x1 * y1^2 * x2 * x3 + x1 * y1^2 * y2
    * x3^2 * y3 - x1 * y1^2 * y2 * y3^3 + x1 * y1^2 * y2 * y3 - x1 * x2 * x3^3 + x1 * x2 * x3 * y3^2 - x1 * x2 * x3
    - x1 * y2 * x3^2 * y3 + x1 * y2 * y3^3 - x1 * y2 * y3 + y1^3 * x2 * x3^2 * y3 - y1^3 * x2 * y3^3 + y1^3 * x2 *
    y3 + y1^3 * y2 * x3^3 - y1^3 * y2 * x3 * y3^2 + y1^3 * y2 * x3 - y1 * x2 * x3^2 * y3 + y1 * x2 * y3^3 - y1 * x2
    * y3 - y1 * y2 * x3^3 + y1 * y2 * x3 * y3^2 - y1 * y2 * x3) * ceq d x2 y2 +
  (d * x1^2 * y1 * x2^2 * y2 * x3 - d * x1^2 * y1 * x2 * y2^2 * y3 - d * x1 * y1^2 * x2^2 * y2 * y3 + d * x1 * y1^2
    * x2 * y2^2 * x3 + x1^3 * x2^3 * x3 + x1^3 * x2^2 * y2 * y3 - x1^3 * x2 * y2^2 * x3 + x1^3 * x2 * x3 - x1^3 *
    y2^3 * y3 + x1^3 * y2 * y3 + x1^2 * y1 * x2^3 * y3 + x1^2 * y1 * x2^2 * y2 * x3 - x1^2 * y1 * x2 * y2^2 * y3 +
    x1^2 * y1 * x2 * y3 - x1^2 * y1 * y2^3 * x3 + x1^2 * y1 * y2 * x3 - x1 * y1^2 * x2^3 * x3 - x1 * y1^2 * x2^2 *
    y2 * y3 + x1 * y1^2 * x2 * y2^2 * x3 - x1 * y1^2 * x2 * x3 + x1 * y1^2 * y2^3 * y3 - x1 * y1^2 * y2 * y3 + x1 *
    x2^3 * x3 + x1 * x2^2 * y2 * y3 - x1 * x2 * y2^2 * x3 + x1 * x2 * x3 - x1 * y2^3 * y3 + x1 * y2 * y3 - y1^3 *
    x2^3 * y3 - y1^3 * x2^2 * y2 * x3 + y1^3 * x2 * y2^2 * y3 - y1^3 * x2 * y3 + y1^3 * y2^3 * x3 - y1^3 * y2 * x3 +
    y1 * x2^3 * y3 + y1 * x2^2 * y2 * x3 - y1 * x2 * y2^2 * y3 + y1 * x2 * y3 - y1 * y2^3 * x3 + y1 * y2 * x3) * ceq d x3 y3.
Proof. unfold ceq, k12, a12, b12, k23, a23, b23. ring. Qed.

Lemma assoc_identity_y :
  (b12 * y3 * (1 + k12) + a12 * x3 * (1 - k12)) * ((1 + k23) * (1 - k23) - d * x1 * y1 * a23 * b23) -
  (y1 * b23 * (1 + k23) + x1 * a23 * (1 - k23)) * ((1 + k12) * (1 - k12) - d * a12 * b12 * x3 * y3) =
  (- d^2 * x1 * x2^4 * y2^3 * x3 * y3^2 - d^2 * x1 * x2^3 * y2^4 * x3^2 * y3 + d^2 * y1 * x2^4 * y2^3 * x3^2 * y3 +
    d^2 * y1 * x2^3 * y2^4 * x3 * y3^2 - d * x1 * x2^4 * y2 * x3 * y3^2 - d * x1 * x2^3 * y2^2 * y3^3 + d * x1 *
    x2^3 * y2^2 * y3 + d * x1 * x2^2 * y2^3 * x3^3 + d * x1 * x2^2 * y2^3 * x3 + d * x1 * x2 * y2^4 * x3^2 * y3 + d
    * y1 * x2^4 * y2 * x3^2 * y3 + d * y1 * x2^3 * y2^2 * x3^3 + d * y1 * x2^3 * y2^2 * x3 - d * y1 * x2^2 * y2^3 *
    y3^3 + d * y1 * x2^2 * y2^3 * y3 - d * y1 * x2 * y2^4 * x3 * y3^2) * ceq d x1 y1 +
  (- d^2 * x1^2 * y1 * x2^2 * y2 * x3^2 * y3^3 + d^2 * x1^2 * y1 * x2 * y2^2 * x3^3 * y3^2 + d^2 * x1 * y1^2 * x2^2
    * y2 * x3^3 * y3^2 - d^2 * x1 * y1^2 * x2 * y2^2 * x3^2 * y3^3 + d * x1^3 * x2^2 * y2 * x3 * y3^2 + d * x1^3 *
    x2 * y2^2 * x3^2 * y3 - d * x1^3 * x2 * x3^2 * y3^3 - d * x1^3 * y2 * x3^3 * y3^2 - d * x1^2 * y1 * x2^2 * y2 *
    x3^2 * y3 - d * x1^2 * y1 * x2 * y2^2 * x3 * y3^2 - d * x1^2 * y1 * x2 * x3^3 * y3^2 - d * x1^2 * y1 * y2 * x3^2
    * y3^3 - d * x1 * y1^2 * x2^2 * y2 * x3 * y3^2 - d * x1 * y1^2 * x2 * y2^2 * x3^2 * y3 + d * x1 * y1^2 * x2 *
    x3^2 * y3^3 + d * x1 * y1^2 * y2 * x3^3 * y3^2 + d * x1 * x2^2 * y2 * x3 * y3^2 + d * x1 * x2 * y2^2 * x3^2 * y3
    - d * x1 * x2 * x3^2 * y3^3 - d * x1 * y2 * x3^3 * y3^2 + d * y1^3 * x2^2 * y2 * x3^2 * y3 + d * y1^3 * x2 *
    y2^2 * x3 * y3^2 + d * y1^3 * x2 * x3^3 * y3^2 + d * y1^3 * y2 * x3^2 * y3^3 - d * y1 * x2^2 * y2 * x3^2 * y3 -
    d * y1 * x2 * y2^2 * x3 * y3^2 - d * y1 * x2 * x3^3 * y3^2 - d * y1 * y2 * x3^2 * y3^3 - x1^3 * x2 * x3^2 * y3 +
    x1^3 * x2 * y3^3 - x1^3 * x2 * y3 - x1^3 * y2 * x3^3 + x1^3 * y2 * x3 * y3^2 - x1^3 * y2 * x3 - x1^2 * y1 * x2 *
    x3^3 + x1^2 * y1 * x2 * x3 * y3^2 - x1^2 * y1 * x2 * x3 - x1^2 * y1 * y2 * x3^2 * y3 + x1^2 * y1 * y2 * y3^3 -
    x1^2 * y1 * y2 * y3 + x1 * y1^2 * x2 * x3^2 * y3 - x1 * y1^2 * x2 * y3^3 + x1 * y1^2 * x2 * y3 + x1 * y1^2 * y2
    * x3^3 - x1 * y1^2 * y2 * x3 * y3^2 + x1 * y1^2 * y2 * x3 - x1 * x2 * x3^2 * y3 + x1 * x2 * y3^3 - x1 * x2 * y3
    - x1 * y2 * x3^3 + x1 * y2 * x3 * y3^2 - x1 * y2 * x3 + y1^3 * x2 * x3^3 - y1^3 * x2 * x3 * y3^2 + y1^3 * x2 *
    x3 + y1^3 * y2 * x3^2 * y3 - y1^3 * y2 * y3^3 + y1^3 * y2 * y3 - y1 * x2 * x3^3 + y1 * x2 * x3 * y3^2 - y1 * x2
    * x3 - y1 * y2 * x3^2 * y3 + y1 * y2 * y3^3 - y1 * y2 * y3) * ceq d x2 y2 +
  (d * x1^2 * y1 * x2^2 * y2 * y3 - d * x1^2 * y1 * x2 * y2^2 * x3 - d * x1 * y1^2 * x2^2 * y2 * x3 + d * x1 * y1^2
    * x2 * y2^2 * y3 + x1^3 * x2^3 * y3 + x1^3 * x2^2 * y2 * x3 - x1^3 * x2 * y2^2 * y3 + x1^3 * x2 * y3 - x1^3 *
    y2^3 * x3 + x1^3 * y2 * x3 + x1^2 * y1 * x2^3 * x3 + x1^2 * y1 * x2^2 * y2 * y3 - x1^2 * y1 * x2 * y2^2 * x3 +
    x1^2 * y1 * x2 * x3 - x1^2 * y1 * y2^3 * y3 + x1^2 * y1 * y2 * y3 - x1 * y1^2 * x2^3 * y3 - x1 * y1^2 * x2^2 *
    y2 * x3 + x1 * y1^2 * x2 * y2^2 * y3 - x1 * y1^2 * x2 * y3 + x1 * y1^2 * y2^3 * x3 - x1 * y1^2 * y2 * x3 + x1 *
    x2^3 * y3 + x1 * x2^2 * y2 * x3 - x1 * x2 * y2^2 * y3 + x1 * x2 * y3 - x1 * y2^3 * x3 + x1 * y2 * x3 - y1^3 *
    x2^3 * x3 - y1^3 * x2^2 * y2 * y3 + y1^3 * x2 * y2^2 * x3 - y1^3 * x2 * x3 + y1^3 * y2^3 * y3 - y1^3 * y2 * y3 +
    y1 * x2^3 * x3 + y1 * x2^2 * y2 * y3 - y1 * x2 * y2^2 * x3 + y1 * x2 * x3 - y1 * y2^3 * y3 + y1 * y2 * y3) * ceq d x3 y3.
Proof. unfold ceq, k12, a12, b12, k23, a23, b23. ring. Qed.

End Identities.

Lemma edw_add_range P Q : 0 <= (edw_add P Q).1 < p25519 /\ 0 <= (edw_add P Q).2 < p25519.
Proof. destruct P, Q. split; apply fdiv_range. Qed.

Lemma edw_add_curve x1 y1 x2 y2 x y :
  curve x1 y1 -> curve x2 y2 -> edw_add (x1, y1) (x2, y2) = (x, y) -> curve x y.
Proof.
  intros C1 C2 E. destruct (denom_nonzero x1 y1 x2 y2 C1 C2) as [N1 N2].
  destruct (edw_add_ok _ _ _ _ _ _ C1 C2 E) as [Hx Hy]. pose proof (closure_identity ed_d x1 y1 x2 y2) as I. cbn zeta in I.
  rewrite curve_ceq in C1, C2 |- *. set (k := ed_d * x1 * x2 * y1 * y2) in *.
  set (a := x1 * y2 + x2 * y1) in *. set (b := y1 * y2 + x1 * x2) in *.
  apply (mul_cancel (((1 + k) * (1 - k)) * ((1 + k) * (1 - k)))); [by repeat apply mul_nonzero|].
  transitivity (((1 + k) * (1 - k))^2 + ed_d * (x * (1 + k))^2 * (y * (1 - k))^2
    + (x * (1 + k))^2 * (1 - k)^2 - (y * (1 - k))^2 * (1 + k)^2); [unfold ceq; ring0|].
  rewrite Hx, Hy, I, C1, C2. ring0.
Qed.

(** One coordinate of [(P1 + P2) + P3]: [s] is the sign of the denominator. *)
Lemma nested_coordinate s x x12 y12 x3 y3 a b u v n :
  x * (1 + s * (ed_d * x12 * x3 * y12 * y3)) == n -> x12 * u == a -> y12 * v == b ->
  x * (u * v + s * (ed_d * a * b * x3 * y3)) == n * (u * v).
Proof.
  intros H Ha Hb. rewrite <- Ha, <- Hb, <- H. ring0.
Qed.

(** Two fractions are equal if they agree after multiplying out. *)
Lemma fractions_equal x x' n n' m m' :
  ~ m == 0 -> ~ m' == 0 -> x * m == n -> x' * m' == n' -> n * m' - n' * m == 0 -> x == x'.
Proof.
  intros Hm Hm' H H' E. apply (mul_cancel (m * m')); [by apply mul_nonzero|]. apply sub_zero.
  rewrite <- E, <- H, <- H'. ring0.
Qed.

Lemma denom_scaled (s k u v a b x12 y12 x3 y3 : Z) :
  s = 1 \/ s = -1 -> curve x12 y12 -> curve x3 y3 -> ~ u == 0 -> ~ v == 0 -> x12 * u == a -> y12 * v == b ->
  ~ u * v + s * (ed_d * a * b * x3 * y3) == 0.
Proof.
  intros Hs C C3 Hu Hv Ha Hb H. destruct (denom_nonzero x12 y12 x3 y3 C C3) as [N1 N2].
  assert (~ 1 + s * (ed_d * x12 * x3 * y12 * y3) == 0) as N.
  { destruct Hs as [-> | ->]; [rewrite Z.mul_1_l; done|]. intros E. apply N2. rewrite <- E. ring0. }
  apply N. apply (mul_cancel (u * v)); [by apply mul_nonzero|]. rewrite Z.mul_0_r, <- H, <- Ha, <- Hb. ring0.
Qed.

Lemma edw_add_assoc x1 y1 x2 y2 x3 y3 :
  curve x1 y1 -> curve x2 y2 -> curve x3 y3 ->
  edw_add (edw_add (x1, y1) (x2, y2)) (x3, y3) = edw_add (x1, y1) (edw_add (x2, y2) (x3, y3)).
Proof.
  intros C1 C2 C3.
  destruct (edw_add (x1, y1) (x2, y2)) as [x12 y12] eqn:E12. destruct (edw_add (x2, y2) (x3, y3)) as [x23 y23] eqn:E23.
  pose proof (edw_add_curve _ _ _ _ _ _ C1 C2 E12) as C12. pose proof (edw_add_curve _ _ _ _ _ _ C2 C3 E23) as C23.
  destruct (edw_add_ok _ _ _ _ _ _ C1 C2 E12) as [H12x H12y]. destruct (edw_add_ok _ _ _ _ _ _ C2 C3 E23) as [H23x H23y].
  destruct (denom_nonzero _ _ _ _ C1 C2) as [N12 M12]. destruct (denom_nonzero _ _ _ _ C2 C3) as [N23 M23].
  pose proof (edw_add_range (x12, y12) (x3, y3)) as RL. pose proof (edw_add_range (x1, y1) (x23, y23)) as RR.
  destruct (edw_add (x12, y12) (x3, y3)) as [xL yL] eqn:EL. destruct (edw_add (x1, y1) (x23, y23)) as [xR yR] eqn:ER.
  destruct (edw_add_ok _ _ _ _ _ _ C12 C3 EL) as [HLx HLy]. destruct (edw_add_ok _ _ _ _ _ _ C1 C23 ER) as [HRx HRy].
  cbn [fst snd] in RL, RR.
  pose proof (assoc_identity_x ed_d x1 y1 x2 y2 x3 y3) as Ix. pose proof (assoc_identity_y ed_d x1 y1 x2 y2 x3 y3) as Iy.
  cbn zeta in Ix, Iy. pose proof C1 as D1. pose proof C3 as D3. rewrite curve_ceq in C1, C2, C3.
  set (k12 := ed_d * x1 * x2 * y1 * y2) in *. set (k23 := ed_d * x2 * x3 * y2 * y3) in *.
  set (a12 := x1 * y2 + x2 * y1) in *. set (b12 := y1 * y2 + x1 * x2) in *.
  set (a23 := x2 * y3 + x3 * y2) in *. set (b23 := y2 * y3 + x2 * x3) in *.
  f_equal; (apply canon_eq; [tauto|tauto|]).
  - apply (fractions_equal _ _ _ _ ((1 + k12) * (1 - k12) + 1 * (ed_d * a12 * b12 * x3 * y3))
      ((1 + k23) * (1 - k23) + 1 * (ed_d * a23 * b23 * x1 * y1))
      (denom_scaled 1 k12 _ _ _ _ _ _ _ _ (or_introl eq_refl) C12 D3 N12 M12 H12x H12y)
      (denom_scaled 1 k23 _ _ _ _ _ _ _ _ (or_introl eq_refl) C23 D1 N23 M23 H23x H23y)
      (nested_coordinate 1 xL x12 y12 x3 y3 _ _ _ _ (x12 * y3 + x3 * y12) ltac:(rewrite <- HLx; ring0) H12x H12y)
      (nested_coordinate 1 xR x23 y23 x1 y1 _ _ _ _ (x1 * y23 + x23 * y1)
         ltac:(rewrite <- HRx; ring0) H23x H23y)).
    transitivity ((a12 * y3 * (1 - k12) + x3 * b12 * (1 + k12)) * ((1 + k23) * (1 - k23) + ed_d * x1 * y1 * a23 * b23) -
      (x1 * b23 * (1 + k23) + a23 * y1 * (1 - k23)) * ((1 + k12) * (1 - k12) + ed_d * a12 * b12 * x3 * y3)).
    + rewrite <- H12x, <- H12y, <- H23x, <- H23y. ring0.
    + rewrite Ix, C1, C2, C3. ring0.
  - apply (fractions_equal _ _ _ _ ((1 + k12) * (1 - k12) + -1 * (ed_d * a12 * b12 * x3 * y3))
      ((1 + k23) * (1 - k23) + -1 * (ed_d * a23 * b23 * x1 * y1))
      (denom_scaled (-1) k12 _ _ _ _ _ _ _ _ (or_intror eq_refl) C12 D3 N12 M12 H12x H12y)
      (denom_scaled (-1) k23 _ _ _ _ _ _ _ _ (or_intror eq_refl) C23 D1 N23 M23 H23x H23y)
      (nested_coordinate (-1) yL x12 y12 x3 y3 _ _ _ _ (y12 * y3 + x12 * x3) ltac:(rewrite <- HLy; ring0) H12x H12y)
      (nested_coordinate (-1) yR x23 y23 x1 y1 _ _ _ _ (y1 * y23 + x1 * x23)
         ltac:(rewrite <- HRy; ring0) H23x H23y)).
    transitivity ((b12 * y3 * (1 + k12) + a12 * x3 * (1 - k12)) * ((1 + k23) * (1 - k23) - ed_d * x1 * y1 * a23 * b23) -
      (y1 * b23 * (1 + k23) + x1 * a23 * (1 - k23)) * ((1 + k12) * (1 - k12) - ed_d * a12 * b12 * x3 * y3)).
    + rewrite <- H12x, <- H12y, <- H23x, <- H23y. ring0.
    + rewrite Iy, C1, C2, C3. ring0.
Qed.

(** ** The points of the curve as a commutative group, and multiples of a point. *)

(** ** Points *)

Definition on_curve (P : Z * Z) : bool :=
  let '(x, y) := P in
  (0 <=? x) && (x <? p25519) && (0 <=? y) && (y <? p25519) &&
  ((y * y - x * x) mod p25519 =? (1 + ed_d * (x * x) * (y * y)) mod p25519).

Lemma on_curve_ok x y :
  on_curve (x, y) = true <-> (0 <= x < p25519 /\ 0 <= y < p25519) /\ curve x y.
Proof.
  unfold on_curve, curve. rewrite eq_mod, !andb_true_iff, !Z.leb_le, !Z.ltb_lt, Z.eqb_eq. tauto.
Qed.

Record epoint := EPoint { pt : Z * Z; pt_ok : on_curve pt = true }.

Notation px P := (pt P).1.
Notation py P := (pt P).2.

Lemma epoint_eq P Q : pt P = pt Q -> P = Q.
Proof.
  destruct P as [P HP], Q as [Q HQ]. cbn. intros <-. f_equal. apply UIP_dec. decide equality.
Qed.

#[export] Instance epoint_dec : EqDecision epoint.
Proof.
  intros P Q. destruct (decide (pt P = pt Q)) as [E|E]; [left; by apply epoint_eq|right; congruence].
Defined.

Lemma point_curve P : curve (px P) (py P).
Proof. destruct P as [[x y] H]. by destruct (proj1 (on_curve_ok x y) H). Qed.

Lemma point_range P : 0 <= px P < p25519 /\ 0 <= py P < p25519.
Proof. destruct P as [[x y] H]. by destruct (proj1 (on_curve_ok x y) H). Qed.

Lemma edw_add_on_curve P Q : on_curve (edw_add (pt P) (pt Q)) = true.
Proof.
  pose proof (point_curve P) as HP. pose proof (point_curve Q) as HQ. pose proof (edw_add_range (pt P) (pt Q)) as R.
  destruct (pt P) as [x1 y1], (pt Q) as [x2 y2]. destruct (edw_add (x1, y1) (x2, y2)) as [x y] eqn:E.
  apply on_curve_ok. split; [done|]. exact (edw_add_curve _ _ _ _ _ _ HP HQ E).
Qed.

Definition padd (P Q : epoint) : epoint := EPoint (edw_add (pt P) (pt Q)) (edw_add_on_curve P Q).

Definition pzero : epoint := EPoint (0, 1) eq_refl.

Definition edw_opp (P : Z * Z) : Z * Z := ((- P.1) mod p25519, P.2).

Lemma edw_opp_on_curve P : on_curve (edw_opp (pt P)) = true.
Proof.
  pose proof (point_curve P) as HP. pose proof (point_range P) as R. destruct (pt P) as [x y]. apply on_curve_ok.
  cbn [fst snd] in *. split; [split; [apply Z.mod_pos_bound; done|tauto]|].
  unfold curve in *. rewrite mod_eq, Z.mul_opp_opp. done.
Qed.

Definition popp (P : epoint) : epoint := EPoint (edw_opp (pt P)) (edw_opp_on_curve P).

Definition psub (P Q : epoint) : epoint := padd P (popp Q).

(** A point is given by its coordinates modulo [p25519]. *)
Lemma point_eq P Q : px P == px Q -> py P == py Q -> P = Q.
Proof.
  intros Hx Hy. apply epoint_eq. pose proof (point_range P) as RP. pose proof (point_range Q) as RQ.
  destruct (pt P), (pt Q). cbn [fst snd] in *. f_equal; apply canon_eq; tauto.
Qed.

(** The coordinates of a sum. *)
Lemma padd_coords P Q :
  px (padd P Q) * (1 + ed_d * px P * px Q * py P * py Q) == px P * py Q + px Q * py P /\
  py (padd P Q) * (1 - ed_d * px P * px Q * py P * py Q) == py P * py Q + px P * px Q.
Proof.
  pose proof (point_curve P) as HP. pose proof (point_curve Q) as HQ. unfold padd. cbn [pt].
  destruct (pt P) as [x1 y1], (pt Q) as [x2 y2]. cbn [fst snd] in *.
  apply edw_add_ok; [done|done|]. by destruct (edw_add (x1, y1) (x2, y2)).
Qed.

Lemma point_denom P Q :
  ~ 1 + ed_d * px P * px Q * py P * py Q == 0 /\ ~ 1 - ed_d * px P * px Q * py P * py Q == 0.
Proof. apply denom_nonzero; apply point_curve. Qed.

(** A point with the coordinates of the sum is the sum. *)
Lemma padd_unique P Q R :
  px R * (1 + ed_d * px P * px Q * py P * py Q) == px P * py Q + px Q * py P ->
  py R * (1 - ed_d * px P * px Q * py P * py Q) == py P * py Q + px P * px Q ->
  R = padd P Q.
Proof.
  intros Hx Hy. destruct (padd_coords P Q) as [Ex Ey]. destruct (point_denom P Q) as [N1 N2].
  apply point_eq.
  - apply (mul_cancel _ _ _ N1). transitivity (px P * py Q + px Q * py P); [rewrite <- Hx; ring0|rewrite <- Ex; ring0].
  - apply (mul_cancel _ _ _ N2). transitivity (py P * py Q + px P * px Q); [rewrite <- Hy; ring0|rewrite <- Ey; ring0].
Qed.

(** ** The group laws *)

Lemma padd_comm P Q : padd P Q = padd Q P.
Proof.
  destruct (padd_coords P Q) as [Ex Ey]. apply padd_unique.
  - transitivity (px P * py Q + px Q * py P); [|ring0]. rewrite <- Ex. ring0.
  - transitivity (py P * py Q + px P * px Q); [|ring0]. rewrite <- Ey. ring0.
Qed.

Lemma padd_assoc P Q R : padd (padd P Q) R = padd P (padd Q R).
Proof.
  apply epoint_eq. cbn [padd pt]. pose proof (point_curve P) as HP. pose proof (point_curve Q) as HQ.
  pose proof (point_curve R) as HR. destruct (pt P), (pt Q), (pt R). by apply edw_add_assoc.
Qed.

Lemma padd_0_r P : padd P pzero = P.
Proof. symmetry. apply padd_unique; cbn [pzero pt fst snd]; ring0. Qed.

Lemma padd_0_l P : padd pzero P = P.
Proof. rewrite padd_comm. apply padd_0_r. Qed.

Lemma padd_opp_r P : padd P (popp P) = pzero.
Proof.
  symmetry. apply padd_unique; cbn [popp pzero pt edw_opp fst snd]; rewrite mod_eq; [ring0|].
  pose proof (point_curve P) as H. unfold curve in H.
  transitivity (1 + ed_d * (px P * px P) * (py P * py P)); [ring0|]. rewrite <- H. ring0.
Qed.

Lemma padd_cancel P Q R : padd P R = padd Q R -> P = Q.
Proof.
  intros E. rewrite <- (padd_0_r P), <- (padd_0_r Q), <- (padd_opp_r R), <- !padd_assoc, E. done.
Qed.

Lemma popp_unique P Q : padd P Q = pzero -> Q = popp P.
Proof.
  intros E. apply (padd_cancel _ _ P). by rewrite (padd_comm Q), E, (padd_comm (popp P)), padd_opp_r.
Qed.

Lemma popp_add P Q : popp (padd P Q) = padd (popp P) (popp Q).
Proof.
  symmetry. apply popp_unique. rewrite padd_assoc, <- (padd_assoc Q), (padd_comm Q (popp P)), (padd_assoc (popp P)).
  rewrite padd_opp_r, padd_0_r. apply padd_opp_r.
Qed.

Lemma popp_popp P : popp (popp P) = P.
Proof. symmetry. apply popp_unique. rewrite padd_comm. apply padd_opp_r. Qed.

Lemma popp_0 : popp pzero = pzero.
Proof. symmetry. apply popp_unique. apply padd_0_r. Qed.

(** ** Multiples *)

Fixpoint pmul_pos (n : positive) (P : epoint) : epoint :=
  match n with
  | xH => P
  | xO n => pmul_pos n (padd P P)
  | xI n => padd P (pmul_pos n (padd P P))
  end.

Definition pmul (n : Z) (P : epoint) : epoint :=
  match n with Z0 => pzero | Zpos n => pmul_pos n P | Zneg n => popp (pmul_pos n P) end.

Lemma pmul_pos_succ n : forall P, pmul_pos (Pos.succ n) P = padd P (pmul_pos n P).
Proof.
  induction n as [n IH|n IH|]; intros P; [|done|done].
  change (pmul_pos (Pos.succ n) (padd P P) = padd P (padd P (pmul_pos n (padd P P)))). by rewrite IH, padd_assoc.
Qed.

Lemma pmul_pos_opp n : forall P, pmul_pos n (popp P) = popp (pmul_pos n P).
Proof.
  induction n as [n IH|n IH|]; intros P; cbn [pmul_pos]; [| |done].
  - by rewrite <- popp_add, IH, <- popp_add.
  - by rewrite <- popp_add, IH.
Qed.

Lemma pmul_succ n P : pmul (Z.succ n) P = padd P (pmul n P).
Proof.
  destruct n as [|n|n].
  - cbn. by rewrite padd_0_r.
  - replace (Z.succ (Zpos n)) with (Zpos (Pos.succ n)) by lia. apply pmul_pos_succ.
  - destruct (decide (n = 1%positive)) as [->|Hn]; [cbn; by rewrite padd_opp_r|].
    replace (Z.succ (Zneg n)) with (Zneg (Pos.pred n)) by lia. cbn [pmul].
    rewrite <- (Pos.succ_pred n Hn) at 2. by rewrite pmul_pos_succ, popp_add, <- padd_assoc, padd_opp_r, padd_0_l.
Qed.

Lemma pmul_0 P : pmul 0 P = pzero.
Proof. done. Qed.

Lemma pmul_1 P : pmul 1 P = P.
Proof. done. Qed.

Lemma pmul_pred n P : padd P (pmul (Z.pred n) P) = pmul n P.
Proof. rewrite <- pmul_succ. by rewrite Z.succ_pred. Qed.

Lemma pmul_add a b P : pmul (a + b) P = padd (pmul a P) (pmul b P).
Proof.
  pattern a. apply Z.bi_induction; clear a.
  - by intros ? ? ->.
  - by rewrite Z.add_0_l, pmul_0, padd_0_l.
  - intros a. rewrite Z.add_succ_l, !pmul_succ, padd_assoc. split; [by intros ->|].
    intros E. rewrite (padd_comm P), (padd_comm P) in E. by apply padd_cancel in E.
Qed.

Lemma pmul_opp a P : pmul (- a) P = popp (pmul a P).
Proof. apply popp_unique. rewrite <- pmul_add, Z.add_opp_diag_r. done. Qed.

Lemma pmul_sub a b P : pmul (a - b) P = psub (pmul a P) (pmul b P).
Proof. unfold psub. by rewrite <- pmul_opp, <- pmul_add. Qed.

Lemma pmul_mul a b P : pmul (a * b) P = pmul a (pmul b P).
Proof.
  pattern a. apply Z.bi_induction; clear a.
  - by intros ? ? ->.
  - done.
  - intros a. rewrite Z.mul_succ_l, pmul_add, pmul_succ, (padd_comm (pmul (a * b) P)). split; [by intros ->|].
    intros E. rewrite (padd_comm (pmul b P)), (padd_comm (pmul b P)) in E. by apply padd_cancel in E.
Qed.

Lemma pmul_point_0 n : pmul n pzero = pzero.
Proof. rewrite <- (pmul_0 pzero), <- pmul_mul. by rewrite Z.mul_0_r. Qed.

Lemma pmul_double P : pmul 2 P = padd P P.
Proof. done. Qed.

Lemma pmul_padd n P Q : pmul n (padd P Q) = padd (pmul n P) (pmul n Q).
Proof.
  pattern n. apply Z.bi_induction; clear n.
  - by intros ? ? ->.
  - by rewrite !pmul_0, padd_0_l.
  - intros n. rewrite !pmul_succ.
    assert (padd (padd P (pmul n P)) (padd Q (pmul n Q)) = padd (padd P Q) (padd (pmul n P) (pmul n Q))) as ->.
    { rewrite !padd_assoc. f_equal. by rewrite <- !padd_assoc, (padd_comm (pmul n P)). }
    split; [by intros ->|]. intros E. rewrite !(padd_comm (padd P Q)) in E. by apply padd_cancel in E.
Qed.

(** ** The base point *)

(** [(x, 4/5)] with [x] even. *)
Definition ed_B : epoint :=
  EPoint (15112221349535400772501151409588531511454012693041857206046113283949847762202,
          46316835694926478169428394003475163141307993866256225615783033603165251855960) eq_refl.

Lemma ed_B_y : 5 * py ed_B == 4.
Proof. apply eq_mod. vm_compute. reflexivity. Qed.
