(* ===== verification/Ge.v ===== *)
(** Group elements, src/src/ed25519/ge.c, over the field of Fe.

    The structs of ge.h are records of field elements; every operation is the sequence of
    field operations of the source.  A result that the source writes member by member
    through [r->X], [r->Y] is built from local names.  The tables of precomp_data.h are in
    GePrecomp and are arguments here ([base], [Bi]). *)
From S2P Require Import Prelude Bytes Limbs Fe.

Record ge_p2 := P2 { p2_X : fe; p2_Y : fe; p2_Z : fe }.
Record ge_p3 := P3 { p3_X : fe; p3_Y : fe; p3_Z : fe; p3_T : fe }.
Record ge_p1p1 := P1P1 { p1_X : fe; p1_Y : fe; p1_Z : fe; p1_T : fe }.
Record ge_precomp := Precomp { yplusx : fe; yminusx : fe; xy2d : fe }.
Record ge_cached := Cached { YplusX : fe; YminusX : fe; c_Z : fe; T2d : fe }.

#[export] Instance precomp_inhabited : Inhabited ge_precomp := populate (Precomp fe_0 fe_0 fe_0).
#[export] Instance cached_inhabited : Inhabited ge_cached := populate (Cached fe_0 fe_0 fe_0 fe_0).

(** ** Additions *)

Definition ge_add (p : ge_p3) (q : ge_cached) : outcome ge_p1p1 :=
  let* X := fe_add (p3_Y p) (p3_X p) in
  let* Y := fe_sub (p3_Y p) (p3_X p) in
  let* Z := fe_mul X (YplusX q) in
  let* Y := fe_mul Y (YminusX q) in
  let* T := fe_mul (T2d q) (p3_T p) in
  let* X := fe_mul (p3_Z p) (c_Z q) in
  let* t0 := fe_add X X in
  let* X := fe_sub Z Y in
  let* Y := fe_add Z Y in
  let* Z := fe_add t0 T in
  let* T := fe_sub t0 T in
  Done (P1P1 X Y Z T).

Definition ge_sub (p : ge_p3) (q : ge_cached) : outcome ge_p1p1 :=
  let* X := fe_add (p3_Y p) (p3_X p) in
  let* Y := fe_sub (p3_Y p) (p3_X p) in
  let* Z := fe_mul X (YminusX q) in
  let* Y := fe_mul Y (YplusX q) in
  let* T := fe_mul (T2d q) (p3_T p) in
  let* X := fe_mul (p3_Z p) (c_Z q) in
  let* t0 := fe_add X X in
  let* X := fe_sub Z Y in
  let* Y := fe_add Z Y in
  let* Z := fe_sub t0 T in
  let* T := fe_add t0 T in
  Done (P1P1 X Y Z T).

Definition ge_madd (p : ge_p3) (q : ge_precomp) : outcome ge_p1p1 :=
  let* X := fe_add (p3_Y p) (p3_X p) in
  let* Y := fe_sub (p3_Y p) (p3_X p) in
  let* Z := fe_mul X (yplusx q) in
  let* Y := fe_mul Y (yminusx q) in
  let* T := fe_mul (xy2d q) (p3_T p) in
  let* t0 := fe_add (p3_Z p) (p3_Z p) in
  let* X := fe_sub Z Y in
  let* Y := fe_add Z Y in
  let* Z := fe_add t0 T in
  let* T := fe_sub t0 T in
  Done (P1P1 X Y Z T).

Definition ge_msub (p : ge_p3) (q : ge_precomp) : outcome ge_p1p1 :=
  let* X := fe_add (p3_Y p) (p3_X p) in
  let* Y := fe_sub (p3_Y p) (p3_X p) in
  let* Z := fe_mul X (yminusx q) in
  let* Y := fe_mul Y (yplusx q) in
  let* T := fe_mul (xy2d q) (p3_T p) in
  let* t0 := fe_add (p3_Z p) (p3_Z p) in
  let* X := fe_sub Z Y in
  let* Y := fe_add Z Y in
  let* Z := fe_sub t0 T in
  let* T := fe_add t0 T in
  Done (P1P1 X Y Z T).

(** ** Conversions and doubling *)

Definition ge_p1p1_to_p2 (p : ge_p1p1) : outcome ge_p2 :=
  let* X := fe_mul (p1_X p) (p1_T p) in
  let* Y := fe_mul (p1_Y p) (p1_Z p) in
  let* Z := fe_mul (p1_Z p) (p1_T p) in
  Done (P2 X Y Z).

Definition ge_p1p1_to_p3 (p : ge_p1p1) : outcome ge_p3 :=
  let* X := fe_mul (p1_X p) (p1_T p) in
  let* Y := fe_mul (p1_Y p) (p1_Z p) in
  let* Z := fe_mul (p1_Z p) (p1_T p) in
  let* T := fe_mul (p1_X p) (p1_Y p) in
  Done (P3 X Y Z T).

Definition ge_p2_0 : ge_p2 := P2 fe_0 fe_1 fe_1.

Definition ge_p2_dbl (p : ge_p2) : outcome ge_p1p1 :=
  let* X := fe_sq (p2_X p) in
  let* Z := fe_sq (p2_Y p) in
  let* T := fe_sq2 (p2_Z p) in
  let* Y := fe_add (p2_X p) (p2_Y p) in
  let* t0 := fe_sq Y in
  let* Y := fe_add Z X in
  let* Z := fe_sub Z X in
  let* X := fe_sub t0 Y in
  let* T := fe_sub T Z in
  Done (P1P1 X Y Z T).

Definition ge_p3_0 : ge_p3 := P3 fe_0 fe_1 fe_1 fe_0.

Definition ge_p3_to_p2 (p : ge_p3) : outcome ge_p2 :=
  let* X := fe_copy (p3_X p) in
  let* Y := fe_copy (p3_Y p) in
  let* Z := fe_copy (p3_Z p) in
  Done (P2 X Y Z).

Definition ge_p3_dbl (p : ge_p3) : outcome ge_p1p1 :=
  let* q := ge_p3_to_p2 p in ge_p2_dbl q.

Definition d2 : fe :=
  [-21827239; -5839606; -30745221; 13898782; 229458; 15978800; -12551817; -6495438; 29715968; 9444199].

Definition ge_p3_to_cached (p : ge_p3) : outcome ge_cached :=
  let* YpX := fe_add (p3_Y p) (p3_X p) in
  let* YmX := fe_sub (p3_Y p) (p3_X p) in
  let* Z := fe_copy (p3_Z p) in
  let* T := fe_mul (p3_T p) d2 in
  Done (Cached YpX YmX Z T).

(** ** Bytes *)

(** [s[31] ^= fe_isnegative(x) << 7]. *)
Definition set_sign (s : list Z) (n : Z) : list Z := <[31%nat := u8 (Z.lxor (s !!! 31%nat) (Z.shiftl n 7))]> s.

Definition ge_p3_tobytes (h : ge_p3) : outcome (list Z) :=
  let* recip := fe_invert (p3_Z h) in
  let* x := fe_mul (p3_X h) recip in
  let* y := fe_mul (p3_Y h) recip in
  let* s := fe_tobytes y in
  let* n := fe_isnegative x in
  Done (set_sign s n).

Definition ge_tobytes (h : ge_p2) : outcome (list Z) :=
  let* recip := fe_invert (p2_Z h) in
  let* x := fe_mul (p2_X h) recip in
  let* y := fe_mul (p2_Y h) recip in
  let* s := fe_tobytes y in
  let* n := fe_isnegative x in
  Done (set_sign s n).

Definition d : fe :=
  [-10913610; 13857413; -15372611; 6949391; 114729; -8787816; -6275908; -3247719; -18696448; -12055116].

Definition sqrtm1 : fe :=
  [-32595792; -7943725; 9377950; 3500415; 12389472; -272473; -25146209; -2005654; 326686; 11406482].

(** [x = uv^3 (uv^7)^((q-5)/8)]. *)
Definition sqrt_candidate (u v : fe) : outcome fe :=
  let* v3 := fe_sq v in
  let* v3 := fe_mul v3 v in
  let* X := fe_sq v3 in
  let* X := fe_mul X v in
  let* X := fe_mul X u in
  let* X := fe_pow22523 X in
  let* X := fe_mul X v3 in
  fe_mul X u.

(** [x], or [x * sqrtm1], so that [vx^2 = u]; [None] when there is no root. *)
Definition choose_root (u v X : fe) : outcome (option fe) :=
  let* vxx := fe_sq X in
  let* vxx := fe_mul vxx v in
  let* chk := fe_sub vxx u in
  let* nz := fe_isnonzero chk in
  if nz then
    let* chk := fe_add vxx u in
    let* nz := fe_isnonzero chk in
    if nz then Done None
    else let* X := fe_mul X sqrtm1 in Done (Some X)
  else Done (Some X).

(** The sign, and [h->T]. *)
Definition finish_point (s : list Z) (X Y Z : fe) : outcome ge_p3 :=
  let* n := fe_isnegative X in
  let* X := (if n =? Z.shiftr (s !!! 31%nat) 7 then fe_neg X else Done X) in
  let* T := fe_mul X Y in
  Done (P3 X Y Z T).

(** [None]: the function returns -1, no point has this encoding. *)
Definition ge_frombytes_negate_vartime (s : list Z) : outcome (option ge_p3) :=
  let* Y := fe_frombytes s in
  let Z := fe_1 in
  let* u := fe_sq Y in
  let* v := fe_mul u d in
  let* u := fe_sub u Z in
  let* v := fe_add v Z in
  let* X := sqrt_candidate u v in
  let* o := choose_root u v X in
  match o with
  | None => Done None
  | Some X => let* h := finish_point s X Y Z in Done (Some h)
  end.

(** ** Signed digits *)

Definition s8 (x : Z) : Z := (x + 128) mod 256 - 128.

(** The two loops over [e] in [ge_scalarmult_base]. *)
Fixpoint nibbles (a : list Z) : list Z :=
  match a with
  | [] => []
  | x :: a => Z.land (Z.shiftr x 0) 15 :: Z.land (Z.shiftr x 4) 15 :: nibbles a
  end.

Fixpoint recode (e : list Z) (carry : Z) : list Z :=
  match e with
  | [] => []
  | [x] => [s8 (x + carry)]
  | x :: e =>
      let x := s8 (x + carry) in
      let carry := Z.shiftr (s8 (x + 8)) 4 in
      s8 (x - Z.shiftl carry 4) :: recode e carry
  end.

(** [equal] and [negative] return 0 or 1; the arguments are [signed char]. *)
Definition equal (b c : Z) : Z :=
  let x := Z.lxor (u8 b) (u8 c) in
  u8 (Z.shiftr (u64 (x - 1)) 63).

Definition negative (b : Z) : Z := u8 (Z.shiftr (u64 b) 63).

Definition cmov (t u : ge_precomp) (b : Z) : outcome ge_precomp :=
  let* p := fe_cmov (yplusx t) (yplusx u) b in
  let* m := fe_cmov (yminusx t) (yminusx u) b in
  let* x := fe_cmov (xy2d t) (xy2d u) b in
  Done (Precomp p m x).

(** [cmov(t, &base[pos][j], equal(babs, j + 1))] for [j] from 0. *)
Fixpoint select_abs (row : list ge_precomp) (babs j : Z) (t : ge_precomp) : outcome ge_precomp :=
  match row with
  | [] => Done t
  | u :: row => let* t := cmov t u (equal (s8 babs) (j + 1)) in select_abs row babs (j + 1) t
  end.

Definition select (row : list ge_precomp) (b : Z) : outcome ge_precomp :=
  let bnegative := negative b in
  let babs := u8 (b - Z.shiftl (Z.land (- bnegative) b) 1) in
  let* t := select_abs row babs 0 (Precomp fe_1 fe_1 fe_0) in
  let* mp := fe_copy (yminusx t) in
  let* mm := fe_copy (yplusx t) in
  let* mx := fe_neg (xy2d t) in
  cmov t (Precomp mp mm mx) bnegative.

(** One step of the loops over the digits of one parity: select, add, convert. *)
Definition base_step (base : list (list ge_precomp)) (e : list Z) (i : nat) (h : ge_p3) : outcome ge_p3 :=
  let* t := select (base !!! (i / 2)%nat) (e !!! i) in
  let* r := ge_madd h t in
  ge_p1p1_to_p3 r.

Fixpoint base_loop (base : list (list ge_precomp)) (e : list Z) (l : list nat) (h : ge_p3) : outcome ge_p3 :=
  match l with
  | [] => Done h
  | i :: l => let* h := base_step base e i h in base_loop base e l h
  end.

Definition ge_scalarmult_base (base : list (list ge_precomp)) (a : list Z) : outcome ge_p3 :=
  if (length a <? 32)%nat then Stop OutOfBounds else
  let e := recode (nibbles (take 32 a)) 0 in
  let* h := base_loop base e ((fun i => 2 * i + 1)%nat <$> seq 0 32) ge_p3_0 in
  let* r := ge_p3_dbl h in
  let* s := ge_p1p1_to_p2 r in
  let* r := ge_p2_dbl s in
  let* s := ge_p1p1_to_p2 r in
  let* r := ge_p2_dbl s in
  let* s := ge_p1p1_to_p2 r in
  let* r := ge_p2_dbl s in
  let* h := ge_p1p1_to_p3 r in
  base_loop base e ((fun i => 2 * i)%nat <$> seq 0 32) h.

(** ** Sliding windows *)

(** [for (k = i + b; k < 256; ++k)]: add one to the bits from [k] on. *)
Fixpoint slide_carry (n k : nat) (r : list Z) : list Z :=
  match n with
  | O => r
  | S n => if r !!! k =? 0 then <[k := 1]> r else slide_carry n (S k) (<[k := 0]> r)
  end.

(** The loop over [b]; [n] more rounds up to [b = 6]. *)
Fixpoint slide_b (n b i : nat) (r : list Z) : list Z :=
  match n with
  | O => r
  | S n =>
      if (256 <=? i + b)%nat then r
      else if r !!! (i + b)%nat =? 0 then slide_b n (S b) i r
      else
        let t := Z.shiftl (r !!! (i + b)%nat) (Z.of_nat b) in
        if r !!! i + t <=? 15 then slide_b n (S b) i (<[(i + b)%nat := 0]> (<[i := s8 (r !!! i + t)]> r))
        else if -15 <=? r !!! i - t then
          slide_b n (S b) i (slide_carry (256 - (i + b)) (i + b) (<[i := s8 (r !!! i - t)]> r))
        else r
  end.

Fixpoint slide_i (l : list nat) (r : list Z) : list Z :=
  match l with
  | [] => r
  | i :: l => slide_i l (if r !!! i =? 0 then r else slide_b 6 1 i r)
  end.

Definition slide_bits (a : list Z) : list Z :=
  (fun i => Z.land 1 (Z.shiftr (a !!! (i / 8)%nat) (Z.of_nat (i mod 8)%nat))) <$> seq 0 256.

Definition slide (a : list Z) : list Z := slide_i (seq 0 256) (slide_bits a).

(** ** Double scalar multiplication *)

(** [A,3A,5A,...]: [n] more odd multiples after [last]. *)
Fixpoint odd_multiples (n : nat) (A2 : ge_p3) (last : ge_cached) : outcome (list ge_cached) :=
  match n with
  | O => Done [last]
  | S n =>
      let* t := ge_add A2 last in
      let* u := ge_p1p1_to_p3 t in
      let* c := ge_p3_to_cached u in
      let* l := odd_multiples n A2 c in
      Done (last :: l)
  end.

(** [if (x[i] > 0) ... else if (x[i] < 0) ...] for the two tables. *)
Definition add_digit (Ai : list ge_cached) (x : Z) (t : ge_p1p1) : outcome ge_p1p1 :=
  if 0 <? x then let* u := ge_p1p1_to_p3 t in ge_add u (Ai !!! Z.to_nat (x / 2))
  else if x <? 0 then let* u := ge_p1p1_to_p3 t in ge_sub u (Ai !!! Z.to_nat ((- x) / 2))
  else Done t.

Definition madd_digit (Bi : list ge_precomp) (x : Z) (t : ge_p1p1) : outcome ge_p1p1 :=
  if 0 <? x then let* u := ge_p1p1_to_p3 t in ge_madd u (Bi !!! Z.to_nat (x / 2))
  else if x <? 0 then let* u := ge_p1p1_to_p3 t in ge_msub u (Bi !!! Z.to_nat ((- x) / 2))
  else Done t.

(** [for (; i >= 0; --i)]: the digits from the top one down, as pairs. *)
Fixpoint double_loop (Ai : list ge_cached) (Bi : list ge_precomp) (ds : list (Z * Z)) (r : ge_p2) : outcome ge_p2 :=
  match ds with
  | [] => Done r
  | (a, b) :: ds =>
      let* t := ge_p2_dbl r in
      let* t := add_digit Ai a t in
      let* t := madd_digit Bi b t in
      let* r := ge_p1p1_to_p2 t in
      double_loop Ai Bi ds r
  end.

(** [for (i = 255; i >= 0; --i) if (aslide[i] || bslide[i]) break]. *)
Fixpoint skip_zeros (ds : list (Z * Z)) : list (Z * Z) :=
  match ds with
  | (a, b) :: ds' => if (a =? 0) && (b =? 0) then skip_zeros ds' else ds
  | [] => []
  end.

Definition ge_double_scalarmult_vartime (Bi : list ge_precomp) (a : list Z) (A : ge_p3) (b : list Z) : outcome ge_p2 :=
  if (length a <? 32)%nat || (length b <? 32)%nat then Stop OutOfBounds else
  let aslide := slide a in
  let bslide := slide b in
  let* A0 := ge_p3_to_cached A in
  let* t := ge_p3_dbl A in
  let* A2 := ge_p1p1_to_p3 t in
  let* Ai := odd_multiples 7 A2 A0 in
  double_loop Ai Bi (skip_zeros (reverse (zip aslide bslide))) ge_p2_0.
