(* ===== verification/GeArith.v ===== *)
(** The operations of ge.c compute in the group of Edwards.v.

    [rep_p3 h P]: the extended coordinates [h] stand for the point [P], with limbs in the
    bounds that the next operation needs; [rep_p2], [rep_p1p1], [rep_cached] and
    [rep_precomp] for the other representations of ge.h. *)
From S2P Require Import Prelude Bytes Limbs Fe FeArith Prime25519 Edwards Sc Ge.

Notation tight := (bounded 101 25).
Notation loose := (bounded 165 26).

Definition rep_p2 (h : ge_p2) (P : epoint) : Prop :=
  (tight (p2_X h) /\ tight (p2_Y h) /\ tight (p2_Z h)) /\ ~ fe_val (p2_Z h) == 0 /\
  fe_val (p2_X h) == px P * fe_val (p2_Z h) /\ fe_val (p2_Y h) == py P * fe_val (p2_Z h).

Definition rep_p3 (h : ge_p3) (P : epoint) : Prop :=
  (tight (p3_X h) /\ tight (p3_Y h) /\ tight (p3_Z h) /\ tight (p3_T h)) /\ ~ fe_val (p3_Z h) == 0 /\
  fe_val (p3_X h) == px P * fe_val (p3_Z h) /\ fe_val (p3_Y h) == py P * fe_val (p3_Z h) /\
  fe_val (p3_T h) == px P * py P * fe_val (p3_Z h).

Definition rep_p1p1 (h : ge_p1p1) (P : epoint) : Prop :=
  (loose (p1_X h) /\ loose (p1_Y h) /\ loose (p1_Z h) /\ loose (p1_T h)) /\
  ~ fe_val (p1_Z h) == 0 /\ ~ fe_val (p1_T h) == 0 /\
  fe_val (p1_X h) == px P * fe_val (p1_Z h) /\ fe_val (p1_Y h) == py P * fe_val (p1_T h).

Definition rep_cached (h : ge_cached) (P : epoint) : Prop :=
  (loose (YplusX h) /\ loose (YminusX h) /\ loose (c_Z h) /\ loose (T2d h)) /\ ~ fe_val (c_Z h) == 0 /\
  fe_val (YplusX h) == (py P + px P) * fe_val (c_Z h) /\ fe_val (YminusX h) == (py P - px P) * fe_val (c_Z h) /\
  fe_val (T2d h) == 2 * ed_d * px P * py P * fe_val (c_Z h).

Definition rep_precomp (h : ge_precomp) (P : epoint) : Prop :=
  (tight (yplusx h) /\ tight (yminusx h) /\ tight (xy2d h)) /\
  fe_val (yplusx h) == py P + px P /\ fe_val (yminusx h) == py P - px P /\
  fe_val (xy2d h) == 2 * ed_d * px P * py P.

(** ** Running field operations *)

(** A bound that follows from a known one. *)
Ltac fb :=
  match goal with |- inbs ?D ?f =>
    match goal with H : inbs ?B f |- _ => apply (subI_ok B D f); [vm_compute; reflexivity|exact H] end end.

Ltac fe_step h E :=
  match goal with
  | |- returns (obind (fe_mul ?f ?g) _) _ =>
      eapply returns_bind; [apply (fe_mul_spec f g); fb|intros h [? E]]
  | |- returns (obind (fe_sq ?f) _) _ => eapply returns_bind; [apply (fe_sq_spec f); fb|intros h [? E]]
  | |- returns (obind (fe_sq2 ?f) _) _ => eapply returns_bind; [apply (fe_sq2_spec f); fb|intros h [? E]]
  | |- returns (obind (fe_add ?f ?g) _) _ =>
      match goal with Hf : inbs ?B f |- _ => match goal with Hg : inbs ?C g |- _ =>
        eapply returns_bind; [apply (fe_add_in B C f g Hf Hg); [reflexivity|vm_compute; reflexivity]|intros h [? E]] end end
  | |- returns (obind (fe_sub ?f ?g) _) _ =>
      match goal with Hf : inbs ?B f |- _ => match goal with Hg : inbs ?C g |- _ =>
        eapply returns_bind; [apply (fe_sub_in B C f g Hf Hg); [reflexivity|vm_compute; reflexivity]|intros h [? E]] end end
  end.

Lemma fe_copy_spec c e f : bounded c e f -> fe_copy f = Done f.
Proof. intros H. by destruct (bounded_cases c e f H) as (? & ? & ? & ? & ? & ? & ? & ? & ? & ? & -> & _). Qed.

(** ** Addition *)

(** The completed coordinates of [P + Q] from extended coordinates of [P] and cached
    coordinates of [Q]. *)
Lemma add_values P Q X1 Y1 Z1 T1 A B C Z2 :
  ~ Z1 == 0 -> ~ Z2 == 0 ->
  X1 == px P * Z1 -> Y1 == py P * Z1 -> T1 == px P * py P * Z1 ->
  A == (py Q + px Q) * Z2 -> B == (py Q - px Q) * Z2 -> C == 2 * ed_d * px Q * py Q * Z2 ->
  let zz := (Y1 + X1) * A in
  let yy := (Y1 - X1) * B in
  let tt := C * T1 in
  let xx := 2 * (Z1 * Z2) in
  ~ xx + tt == 0 /\ ~ xx - tt == 0 /\
  zz - yy == px (padd P Q) * (xx + tt) /\ zz + yy == py (padd P Q) * (xx - tt).
Proof.
  intros N1 N2 HX HY HT HA HB HC. cbn zeta. rewrite HX, HY, HT, HA, HB, HC. clear HX HY HT HA HB HC.
  destruct (padd_coords P Q) as [Ex Ey]. destruct (point_denom P Q) as [D1 D2].
  generalize dependent (px (padd P Q)). generalize dependent (py (padd P Q)). intros y3 Ey x3 Ex.
  set (x1 := px P) in *. set (y1 := py P) in *. set (x2 := px Q) in *. set (y2 := py Q) in *.
  set (k := ed_d * x1 * x2 * y1 * y2) in *.
  assert (~ 2 * (Z1 * Z2) == 0) as N.
  { apply mul_nonzero; [intros H%eq_mod; by vm_compute in H|by apply mul_nonzero]. }
  assert (2 * (Z1 * Z2) + 2 * ed_d * x2 * y2 * Z2 * (x1 * y1 * Z1) == 2 * (Z1 * Z2) * (1 + k)) as Ep by (unfold k; ring0).
  assert (2 * (Z1 * Z2) - 2 * ed_d * x2 * y2 * Z2 * (x1 * y1 * Z1) == 2 * (Z1 * Z2) * (1 - k)) as Em by (unfold k; ring0).
  rewrite Ep, Em. splits.
  - by apply mul_nonzero.
  - by apply mul_nonzero.
  - transitivity (2 * (Z1 * Z2) * (x1 * y2 + x2 * y1)); [ring0|]. rewrite <- Ex. ring0.
  - transitivity (2 * (Z1 * Z2) * (y1 * y2 + x1 * x2)); [ring0|]. rewrite <- Ey. ring0.
Qed.

(** What the additions store. *)
Lemma completed P zz yy xx tt rX rY rZ rT :
  loose rX -> loose rY -> loose rZ -> loose rT ->
  ~ xx + tt == 0 /\ ~ xx - tt == 0 /\ zz - yy == px P * (xx + tt) /\ zz + yy == py P * (xx - tt) ->
  fe_val rX == zz - yy -> fe_val rY == zz + yy -> fe_val rZ == xx + tt -> fe_val rT == xx - tt ->
  rep_p1p1 (P1P1 rX rY rZ rT) P.
Proof.
  intros BX BY BZ BT (D1 & D2 & Ex & Ey) VX VY VZ VT. unfold rep_p1p1. cbn [p1_X p1_Y p1_Z p1_T].
  rewrite VX, VY, VZ, VT. tauto.
Qed.

Lemma ge_add_spec p q P Q :
  rep_p3 p P -> rep_cached q Q -> returns (ge_add p q) (fun r => rep_p1p1 r (padd P Q)).
Proof.
  intros ((?&?&?&?) & N1 & HX & HY & HT) ((?&?&?&?) & N2 & HA & HB & HC).
  pose proof (add_values P Q _ _ _ _ _ _ _ _ N1 N2 HX HY HT HA HB HC) as V. cbn zeta in V.
  unfold ge_add. fe_step a Ea. fe_step b Eb. fe_step zz Ez. fe_step yy Eyy. fe_step tq Et. fe_step m Em.
  fe_step t0 E0. fe_step rX EX. fe_step rY EY. fe_step rZ EZ. fe_step rT ET. cbn [returns].
  eapply completed; [fb|fb|fb|fb|exact V| | | |].
  - by rewrite EX, Ez, Eyy, Ea, Eb.
  - by rewrite EY, Ez, Eyy, Ea, Eb.
  - rewrite EZ, E0, Em, Et. ring0.
  - rewrite ET, E0, Em, Et. ring0.
Qed.

(** Subtracting is adding the opposite point: its cached coordinates are swapped. *)
Lemma popp_x P : px (popp P) == - px P.
Proof. cbn. apply mod_eq. Qed.

Lemma popp_y P : py (popp P) = py P.
Proof. done. Qed.

Lemma cached_opp Q A B C Z2 :
  A == (py Q + px Q) * Z2 -> B == (py Q - px Q) * Z2 -> C == 2 * ed_d * px Q * py Q * Z2 ->
  B == (py (popp Q) + px (popp Q)) * Z2 /\ A == (py (popp Q) - px (popp Q)) * Z2 /\
  - C == 2 * ed_d * px (popp Q) * py (popp Q) * Z2.
Proof. intros -> -> ->. rewrite !popp_x, !popp_y. splits; ring0. Qed.

Lemma ge_sub_spec p q P Q :
  rep_p3 p P -> rep_cached q Q -> returns (ge_sub p q) (fun r => rep_p1p1 r (psub P Q)).
Proof.
  intros ((?&?&?&?) & N1 & HX & HY & HT) ((?&?&?&?) & N2 & HA & HB & HC).
  destruct (cached_opp Q _ _ _ _ HA HB HC) as (HA' & HB' & HC').
  pose proof (add_values P (popp Q) _ _ _ _ _ _ _ _ N1 N2 HX HY HT HA' HB' HC') as V. cbn zeta in V.
  unfold ge_sub. fe_step a Ea. fe_step b Eb. fe_step zz Ez. fe_step yy Eyy. fe_step tq Et. fe_step m Em.
  fe_step t0 E0. fe_step rX EX. fe_step rY EY. fe_step rZ EZ. fe_step rT ET. cbn [returns].
  eapply completed; [fb|fb|fb|fb|exact V| | | |].
  - by rewrite EX, Ez, Eyy, Ea, Eb.
  - by rewrite EY, Ez, Eyy, Ea, Eb.
  - rewrite EZ, E0, Em, Et. ring0.
  - rewrite ET, E0, Em, Et. ring0.
Qed.

(** The same with an affine second point ([Z2 = 1]). *)
Lemma one_nonzero : ~ 1 == 0.
Proof. intros H%eq_mod. by vm_compute in H. Qed.

Lemma times_one a b : a == b -> a == b * 1.
Proof. by rewrite Z.mul_1_r. Qed.

Lemma ge_madd_spec p q P Q :
  rep_p3 p P -> rep_precomp q Q -> returns (ge_madd p q) (fun r => rep_p1p1 r (padd P Q)).
Proof.
  intros ((?&?&?&?) & N1 & HX & HY & HT) ((?&?&?) & HA%times_one & HB%times_one & HC%times_one).
  pose proof (add_values P Q _ _ _ _ _ _ _ _ N1 one_nonzero HX HY HT HA HB HC) as V. cbn zeta in V.
  unfold ge_madd. fe_step a Ea. fe_step b Eb. fe_step zz Ez. fe_step yy Eyy. fe_step tq Et.
  fe_step t0 E0. fe_step rX EX. fe_step rY EY. fe_step rZ EZ. fe_step rT ET. cbn [returns].
  eapply completed; [fb|fb|fb|fb|exact V| | | |].
  - by rewrite EX, Ez, Eyy, Ea, Eb.
  - by rewrite EY, Ez, Eyy, Ea, Eb.
  - rewrite EZ, E0, Et. ring0.
  - rewrite ET, E0, Et. ring0.
Qed.

Lemma ge_msub_spec p q P Q :
  rep_p3 p P -> rep_precomp q Q -> returns (ge_msub p q) (fun r => rep_p1p1 r (psub P Q)).
Proof.
  intros ((?&?&?&?) & N1 & HX & HY & HT) ((?&?&?) & HA%times_one & HB%times_one & HC%times_one).
  destruct (cached_opp Q _ _ _ _ HA HB HC) as (HA' & HB' & HC').
  pose proof (add_values P (popp Q) _ _ _ _ _ _ _ _ N1 one_nonzero HX HY HT HA' HB' HC') as V. cbn zeta in V.
  unfold ge_msub. fe_step a Ea. fe_step b Eb. fe_step zz Ez. fe_step yy Eyy. fe_step tq Et.
  fe_step t0 E0. fe_step rX EX. fe_step rY EY. fe_step rZ EZ. fe_step rT ET. cbn [returns].
  eapply completed; [fb|fb|fb|fb|exact V| | | |].
  - by rewrite EX, Ez, Eyy, Ea, Eb.
  - by rewrite EY, Ez, Eyy, Ea, Eb.
  - rewrite EZ, E0, Et. ring0.
  - rewrite ET, E0, Et. ring0.
Qed.

(** ** Conversions *)

Lemma ge_p1p1_to_p2_spec p P : rep_p1p1 p P -> returns (ge_p1p1_to_p2 p) (fun r => rep_p2 r P).
Proof.
  intros ((?&?&?&?) & N1 & N2 & HX & HY). unfold ge_p1p1_to_p2.
  fe_step rX EX. fe_step rY EY. fe_step rZ EZ. cbn [returns]. unfold rep_p2. cbn [p2_X p2_Y p2_Z].
  rewrite EX, EY, EZ, HX, HY. splits; try done.
  - by apply mul_nonzero.
  - ring0.
  - ring0.
Qed.

Lemma ge_p1p1_to_p3_spec p P : rep_p1p1 p P -> returns (ge_p1p1_to_p3 p) (fun r => rep_p3 r P).
Proof.
  intros ((?&?&?&?) & N1 & N2 & HX & HY). unfold ge_p1p1_to_p3.
  fe_step rX EX. fe_step rY EY. fe_step rZ EZ. fe_step rT ET. cbn [returns]. unfold rep_p3. cbn [p3_X p3_Y p3_Z p3_T].
  rewrite EX, EY, EZ, ET, HX, HY. splits; try done.
  - by apply mul_nonzero.
  - ring0.
  - ring0.
  - ring0.
Qed.

Lemma ge_p3_to_p2_spec p P : rep_p3 p P -> returns (ge_p3_to_p2 p) (fun r => rep_p2 r P).
Proof.
  intros ((?&?&?&?) & N & HX & HY & HT). unfold ge_p3_to_p2. erewrite !fe_copy_spec by eassumption. cbn [obind returns].
  unfold rep_p2. cbn [p2_X p2_Y p2_Z]. tauto.
Qed.

Lemma d2_val : tight d2 /\ fe_val d2 == 2 * ed_d.
Proof. split; [|apply eq_mod; vm_compute; reflexivity]. unfold inbs, d2, fe_bound, inb. repeat constructor; done. Qed.

Lemma ge_p3_to_cached_spec p P : rep_p3 p P -> returns (ge_p3_to_cached p) (fun r => rep_cached r P).
Proof.
  intros ((?&?&?&?) & N & HX & HY & HT). destruct d2_val as [? Ed]. unfold ge_p3_to_cached.
  fe_step a Ea. fe_step b Eb. erewrite fe_copy_spec by eassumption. cbn [obind]. fe_step c Ec. cbn [returns].
  unfold rep_cached. cbn [YplusX YminusX c_Z T2d]. rewrite Ea, Eb, Ec, Ed, HX, HY, HT. splits; try fb; try done; ring0.
Qed.

(** ** Doubling *)

Lemma two_nonzero : ~ 2 == 0.
Proof. intros H%eq_mod. by vm_compute in H. Qed.

Lemma double_values P X Y Z :
  ~ Z == 0 -> X == px P * Z -> Y == py P * Z ->
  let yx := Y * Y + X * X in
  let ymx := Y * Y - X * X in
  let t := 2 * (Z * Z) - ymx in
  ~ ymx == 0 /\ ~ t == 0 /\ (X + Y) * (X + Y) - yx == px (padd P P) * ymx /\ yx == py (padd P P) * t.
Proof.
  intros N HX HY. cbn zeta. rewrite HX, HY. clear HX HY.
  destruct (padd_coords P P) as [Ex Ey]. destruct (point_denom P P) as [D1 D2]. pose proof (point_curve P) as C.
  generalize dependent (px (padd P P)). generalize dependent (py (padd P P)). intros y3 Ey x3 Ex. unfold curve in C.
  set (x := px P) in *. set (y := py P) in *. set (k := ed_d * x * x * y * y) in *.
  assert (y * Z * (y * Z) - x * Z * (x * Z) == (Z * Z) * (1 + k)) as Ep.
  { transitivity ((Z * Z) * (y * y - x * x)); [ring0|]. rewrite C. unfold k. ring0. }
  assert (2 * (Z * Z) - (y * Z * (y * Z) - x * Z * (x * Z)) == (Z * Z) * (1 - k)) as Em by (rewrite Ep; ring0).
  rewrite Em, Ep. splits.
  - apply mul_nonzero; [by apply mul_nonzero|done].
  - apply mul_nonzero; [by apply mul_nonzero|done].
  - transitivity ((Z * Z) * (x * y + x * y)); [ring0|]. rewrite <- Ex. ring0.
  - transitivity ((Z * Z) * (y * y + x * x)); [ring0|]. rewrite <- Ey. ring0.
Qed.

Lemma ge_p2_dbl_spec p P : rep_p2 p P -> returns (ge_p2_dbl p) (fun r => rep_p1p1 r (padd P P)).
Proof.
  intros ((?&?&?) & N & HX & HY). pose proof (double_values P _ _ _ N HX HY) as V. cbn zeta in V.
  unfold ge_p2_dbl. fe_step xx Ex. fe_step yy Ey. fe_step zz Ez. fe_step s Es. fe_step t0 E0. fe_step rY EY.
  fe_step rZ EZ. fe_step rX EX. fe_step rT ET. cbn [returns].
  assert (fe_val rY == fe_val (p2_Y p) * fe_val (p2_Y p) + fe_val (p2_X p) * fe_val (p2_X p)) as VY by (rewrite EY, Ey, Ex; ring0).
  assert (fe_val rZ == fe_val (p2_Y p) * fe_val (p2_Y p) - fe_val (p2_X p) * fe_val (p2_X p)) as VZ by (rewrite EZ, Ey, Ex; ring0).
  assert (fe_val rX == (fe_val (p2_X p) + fe_val (p2_Y p)) * (fe_val (p2_X p) + fe_val (p2_Y p)) -
    (fe_val (p2_Y p) * fe_val (p2_Y p) + fe_val (p2_X p) * fe_val (p2_X p))) as VX by (rewrite EX, E0, VY, Es; ring0).
  assert (fe_val rT == 2 * (fe_val (p2_Z p) * fe_val (p2_Z p)) -
    (fe_val (p2_Y p) * fe_val (p2_Y p) - fe_val (p2_X p) * fe_val (p2_X p))) as VT by (rewrite ET, Ez, VZ; ring0).
  unfold rep_p1p1. cbn [p1_X p1_Y p1_Z p1_T]. rewrite VX, VY, VZ, VT. destruct V as (V1 & V2 & V3 & V4).
  splits; try fb; done.
Qed.

Lemma ge_p3_dbl_spec p P : rep_p3 p P -> returns (ge_p3_dbl p) (fun r => rep_p1p1 r (padd P P)).
Proof.
  intros H. unfold ge_p3_dbl. eapply returns_bind; [by apply ge_p3_to_p2_spec|]. intros q Hq. by apply ge_p2_dbl_spec.
Qed.

(** ** The neutral element *)

Lemma fe_0_val : tight fe_0 /\ fe_val fe_0 = 0.
Proof. split; [|done]. unfold inbs, fe_0, fe_bound, inb. repeat constructor; done. Qed.

Lemma fe_1_val : tight fe_1 /\ fe_val fe_1 = 1.
Proof. split; [|done]. unfold inbs, fe_1, fe_bound, inb. repeat constructor; done. Qed.

Lemma ge_p2_0_rep : rep_p2 ge_p2_0 pzero.
Proof.
  destruct fe_0_val as [? E0]. destruct fe_1_val as [? E1]. unfold rep_p2. cbn [ge_p2_0 p2_X p2_Y p2_Z].
  rewrite E0, E1. splits; try done. apply one_nonzero.
Qed.

Lemma ge_p3_0_rep : rep_p3 ge_p3_0 pzero.
Proof.
  destruct fe_0_val as [? E0]. destruct fe_1_val as [? E1]. unfold rep_p3. cbn [ge_p3_0 p3_X p3_Y p3_Z p3_T].
  rewrite E0, E1. splits; try done. apply one_nonzero.
Qed.

(** ** Points and their 32 byte encodings: [ge_p3_tobytes], [ge_tobytes] and
    [ge_frombytes_negate_vartime]. *)

(** RFC 8032: the y coordinate, and the parity of x in the top bit. *)
Definition encode (P : epoint) : list Z := le_bytes 32 (py P + 2 ^ 255 * (px P mod 2)).

(** ** Encoding *)

Lemma le_bytes_app n m x : le_bytes (n + m) x = le_bytes n x ++ le_bytes m (x / 256 ^ Z.of_nat n).
Proof.
  revert x. induction n as [|n IH]; intros x.
  - cbn [Nat.add le_bytes app]. by rewrite Z.div_1_r.
  - cbn [Nat.add le_bytes app]. f_equal. rewrite IH. f_equal. f_equal.
    rewrite Nat2Z.inj_succ, Z.pow_succ_r by lia. by rewrite Z.div_div by lia.
Qed.

Lemma le_bytes_mod_eq n x y : x mod 256 ^ Z.of_nat n = y mod 256 ^ Z.of_nat n -> le_bytes n x = le_bytes n y.
Proof.
  intros H. apply le_val_inj; [apply le_bytes_ok|apply le_bytes_ok|by rewrite !length_le_bytes|].
  by rewrite !le_bytes_mod.
Qed.

Lemma le_bytes_1 x : le_bytes 1 x = [x mod 256].
Proof. reflexivity. Qed.

Lemma set_sign_ok v n :
  0 <= v < 2 ^ 255 -> n = 0 \/ n = 1 -> set_sign (le_bytes 32 v) n = le_bytes 32 (v + 2 ^ 255 * n).
Proof.
  intros Hv Hn. rewrite !(le_bytes_app 31 1). unfold set_sign. change (Z.of_nat 31) with 31.
  rewrite lookup_total_app_r, insert_app_r_alt by (rewrite length_le_bytes; lia). rewrite length_le_bytes, Nat.sub_diag.
  rewrite !le_bytes_1. change ([v / 256 ^ 31 mod 256] !!! 0%nat) with ((v / 256 ^ 31) mod 256).
  change (<[0%nat := u8 (Z.lxor ((v / 256 ^ 31) mod 256) (Z.shiftl n 7))]> [(v / 256 ^ 31) mod 256])
    with [u8 (Z.lxor ((v / 256 ^ 31) mod 256) (Z.shiftl n 7))].
  assert (v + 2 ^ 255 * n = v + (128 * n) * 256 ^ 31) as E by lia. f_equal.
  - apply le_bytes_mod_eq. rewrite E. symmetry. apply Z_mod_plus_full.
  - f_equal. rewrite E, Z.div_add by lia.
    assert (0 <= v / 256 ^ 31 < 128) as R by (split; [apply Z.div_pos; lia|apply Z.div_lt_upper_bound; lia]).
    rewrite (Z.mod_small (v / 256 ^ 31)) by lia. generalize dependent (v / 256 ^ 31). intros b Hb. unfold u8. f_equal.
    destruct Hn as [-> | ->]; [rewrite Z.lxor_0_r; lia|].
    change (Z.shiftl 1 7) with 128. change (128 * 1) with 128. rewrite Z.add_nocarry_lxor; [done|].
    change 128 with (2 ^ 7). apply Z.bits_inj'. intros k Hk. rewrite Z.land_spec, Z.bits_0, Z.pow2_bits_eqb by lia.
    destruct (Z.eqb_spec 7 k) as [<-|]; [|by rewrite andb_false_r]. rewrite andb_true_r.
    apply Z.testbit_false; [lia|]. rewrite Z.div_small by lia. done.
Qed.

(** Dividing by the [Z] coordinate. *)
Lemma affine_value c x z i : ~ z == 0 -> x == c * z -> i == z ^ (p25519 - 2) -> x * i == c.
Proof.
  intros Hz Hx Hi. pose proof (pow_inverse z Hz) as H. rewrite Hx, Hi. generalize dependent (z ^ (p25519 - 2)).
  intros w _ H. transitivity (c * (z * w)); [ring0|]. rewrite H. ring0.
Qed.

Lemma canon_mod a c : a == c -> 0 <= c < p25519 -> a mod p25519 = c.
Proof. intros H%eq_mod Hc. by rewrite H, Z.mod_small. Qed.

(** Both functions have the same body. *)
Lemma tobytes_common X Y Z P :
  tight X -> tight Y -> tight Z -> ~ fe_val Z == 0 ->
  fe_val X == px P * fe_val Z -> fe_val Y == py P * fe_val Z ->
  (let* recip := fe_invert Z in let* x := fe_mul X recip in let* y := fe_mul Y recip in
   let* s := fe_tobytes y in let* n := fe_isnegative x in Done (set_sign s n)) = Done (encode P).
Proof.
  intros HX HY HZ N EX EY. destruct (point_range P) as [Rx Ry].
  pose proof (fe_invert_spec Z ltac:(fb)) as H. apply returns_done in H as (i & -> & Hi & Ei). cbn [obind].
  pose proof (fe_mul_spec X i ltac:(fb) ltac:(fb)) as H. apply returns_done in H as (x & -> & Hx & Ex). cbn [obind].
  pose proof (fe_mul_spec Y i ltac:(fb) ltac:(fb)) as H. apply returns_done in H as (y & -> & Hy & Ey). cbn [obind].
  rewrite fe_tobytes_spec by fb. cbn [obind]. rewrite fe_isnegative_spec by fb. cbn [obind].
  assert (fe_val x mod p25519 = px P) as -> by (apply canon_mod; [rewrite Ex; by eapply affine_value|done]).
  assert (fe_val y mod p25519 = py P) as -> by (apply canon_mod; [rewrite Ey; by eapply affine_value|done]).
  rewrite set_sign_ok; [done| |].
  - unfold p25519 in Ry. lia.
  - pose proof (Z.mod_pos_bound (px P) 2 ltac:(lia)). lia.
Qed.

Lemma ge_p3_tobytes_spec h P : rep_p3 h P -> ge_p3_tobytes h = Done (encode P).
Proof. intros ((?&?&?&?) & N & HX & HY & HT). by apply tobytes_common. Qed.

Lemma ge_tobytes_spec h P : rep_p2 h P -> ge_tobytes h = Done (encode P).
Proof. intros ((?&?&?) & N & HX & HY). by apply tobytes_common. Qed.

Lemma encode_range P : 0 <= py P + 2 ^ 255 * (px P mod 2) < 2 ^ 256.
Proof.
  destruct (point_range P) as [_ R]. pose proof (Z.mod_pos_bound (px P) 2 ltac:(lia)). unfold p25519 in R. lia.
Qed.

Lemma encode_val P : le_val (encode P) = py P + 2 ^ 255 * (px P mod 2).
Proof. unfold encode. apply le_val_bytes. change (256 ^ Z.of_nat 32) with (2 ^ 256). apply encode_range. Qed.

(** ** Square roots *)

(** The candidate is a root of [u / v] up to a factor [i] when there is a root. *)
Lemma candidate_root u v x :
  v * (x * x) == u ->
  let w := u * (v * v * v) * (u * (v * v * v * (v * v * v) * v)) ^ ((p25519 - 5) / 8) in
  v * (w * w) == u \/ v * (w * w) == - u.
Proof.
  intros Hx. cbn zeta. assert (2 * ((p25519 - 5) / 8) + 1 = (p25519 - 1) / 4) as He by reflexivity.
  assert (2 * ((p25519 - 1) / 4) = (p25519 - 1) / 2) as Hf by reflexivity.
  assert (2 * ((p25519 - 1) / 2) = p25519 - 1) as Hg by reflexivity.
  assert (0 <= (p25519 - 5) / 8) as H0 by done.
  set (e := (p25519 - 5) / 8) in *. set (f := (p25519 - 1) / 4) in *. set (g := (p25519 - 1) / 2) in *. clearbody e f g.
  set (m := u * (v * v * v * (v * v * v) * v)).
  assert (v * (u * (v * v * v) * m ^ e * (u * (v * v * v) * m ^ e)) == u * m ^ f) as E.
  { rewrite <- He, Z.pow_add_r, Z.pow_1_r, Z.mul_comm, (Z.mul_comm 2 e), Z.pow_mul_r, Z.pow_2_r by lia.
    generalize (m ^ e). intros t. unfold m. ring0. }
  rewrite E. destruct (decide (x == 0)) as [Hz|Hz].
  { left. rewrite <- Hx, Hz. ring0. }
  destruct (decide (v == 0)) as [Hv|Hv].
  { left. rewrite <- Hx, Hv. ring0. }
  set (r := v * v * v * v * x).
  assert (m == r * r) as Em by (unfold m, r; rewrite <- Hx; ring0).
  assert (~ r == 0) as Hr by (unfold r; repeat apply mul_nonzero; done).
  assert ((r ^ g - 1) * (r ^ g + 1) == 0) as Hs.
  { transitivity (r ^ g * r ^ g - 1); [ring0|]. rewrite <- Z.pow_add_r by lia.
    replace (g + g) with (p25519 - 1) by lia. rewrite (fermat25519 r Hr). reflexivity. }
  assert (m ^ f == r ^ g) as Emf.
  { rewrite Em, <- Z.pow_2_r, <- Z.pow_mul_r by lia. by rewrite Hf. }
  rewrite Emf. apply mul_zero in Hs as [Hs|Hs].
  - left. assert (r ^ g == 1) as -> by (by apply sub_zero). ring0.
  - right. assert (r ^ g == -1) as ->; [|ring0]. apply sub_zero. rewrite <- Hs. ring0.
Qed.

Lemma sqrt_candidate_spec u v :
  loose u -> loose v ->
  returns (sqrt_candidate u v) (fun X => tight X /\
    let a := fe_val u in let b := fe_val v in
    fe_val X == a * (b * b * b) * (a * (b * b * b * (b * b * b) * b)) ^ ((p25519 - 5) / 8)).
Proof.
  intros Hu Hv. unfold sqrt_candidate. fe_step s Es. fe_step v3 E3. fe_step a Ea. fe_step b Eb. fe_step c Ec.
  eapply returns_bind; [apply (fe_pow22523_spec c); fb|]. intros q [? Eq]. fe_step r Er.
  eapply returns_mono; [apply (fe_mul_spec r u); fb|]. intros X [HX EX]. split; [done|]. cbn zeta.
  assert (fe_val v3 == fe_val v * fe_val v * fe_val v) as V3 by (by rewrite E3, Es).
  assert (fe_val c == fe_val u * (fe_val v * fe_val v * fe_val v * (fe_val v * fe_val v * fe_val v) * fe_val v)) as Vc
    by (rewrite Ec, Eb, Ea, V3; ring0).
  rewrite EX, Er, Eq, Vc, V3. set (t := _ ^ _). clearbody t. ring0.
Qed.

(** ** Decoding *)

Definition one_bound : list itv := (1, 1) :: replicate 9 (0, 0).

Lemma fe_1_exact : inbs one_bound fe_1.
Proof. unfold inbs, one_bound, fe_1, inb. repeat constructor; done. Qed.

Lemma d_val : tight d /\ fe_val d == ed_d.
Proof. split; [|apply eq_mod; vm_compute; reflexivity]. unfold inbs, d, fe_bound, inb. repeat constructor; done. Qed.

Lemma sqrtm1_val : tight sqrtm1 /\ fe_val sqrtm1 == ed_i.
Proof. split; [|apply eq_mod; vm_compute; reflexivity]. unfold inbs, sqrtm1, fe_bound, inb. repeat constructor; done. Qed.

Lemma denominator_nonzero y : ~ ed_d * (y * y) + 1 == 0.
Proof.
  intros H. destruct (decide (y == 0)) as [Hy|Hy].
  - rewrite Hy in H. apply eq_mod in H. by vm_compute in H.
  - apply (d_nonsquare y ed_i Hy). rewrite ed_i_ok. apply sub_zero. rewrite <- H. ring0.
Qed.

(** [x] is the abscissa of a point of ordinate [y]. *)
Lemma root_curve x y : (ed_d * (y * y) + 1) * (x * x) == y * y - 1 <-> curve x y.
Proof. unfold curve. split; intros [q H]; [exists (- q)|exists (- q)]; lia. Qed.

Lemma square_roots a b : a * a == b * b -> a == b \/ a == - b.
Proof.
  intros H. assert ((a - b) * (a + b) == 0) as [E|E]%mul_zero.
  - transitivity (a * a - b * b); [ring0|]. rewrite H. ring0.
  - left. by apply sub_zero.
  - right. apply sub_zero. rewrite <- E. ring0.
Qed.

Lemma same_y_roots x x' y : curve x y -> curve x' y -> x' == x \/ x' == - x.
Proof.
  rewrite <- !root_curve. intros H H'. apply square_roots.
  apply (mul_cancel (ed_d * (y * y) + 1)); [apply denominator_nonzero|]. by rewrite H'.
Qed.

Definition to_epoint (x y : Z) (H : on_curve (x mod p25519, y mod p25519) = true) : epoint :=
  EPoint (x mod p25519, y mod p25519) H.

Lemma curve_epoint x y : curve x y -> exists P, px P == x /\ py P == y.
Proof.
  intros C. assert (on_curve (x mod p25519, y mod p25519) = true) as H.
  { apply on_curve_ok. splits; try (apply Z.mod_pos_bound; done). unfold curve in *. by rewrite !mod_eq. }
  exists (to_epoint x y H). cbn. split; apply mod_eq.
Qed.

(** The parity of the opposite is the other one. *)
Lemma parity_opp a : ~ a == 0 -> ((- a) mod p25519) mod 2 = 1 - (a mod p25519) mod 2.
Proof.
  intros Ha. assert (a mod p25519 <> 0) as H0.
  { intros E. apply Ha, eq_mod. rewrite E. done. }
  rewrite Z.mod_opp_l_nz by done. pose proof (Z.mod_pos_bound a p25519 ltac:(done)) as R.
  set (c := a mod p25519) in *. replace (p25519 - c) with (1 - c + (2 ^ 254 - 10) * 2) by (unfold p25519; lia).
  rewrite Z_mod_plus_full. rewrite Zminus_mod. pose proof (Z.mod_pos_bound c 2 ltac:(lia)) as R2.
  assert (c mod 2 = 0 \/ c mod 2 = 1) as [-> | ->] by lia; done.
Qed.

(** The root of [check]: [X], or [X] times a root of -1, or none. *)
Lemma choose_root_spec u v X :
  loose u -> loose v -> tight X ->
  inbs (subB (fe_bound 101 25) one_bound) u ->
  (forall x, fe_val v * (x * x) == fe_val u ->
     fe_val v * (fe_val X * fe_val X) == fe_val u \/ fe_val v * (fe_val X * fe_val X) == - fe_val u) ->
  returns (choose_root u v X)
    (fun o => match o with
      | None => forall x, ~ fe_val v * (x * x) == fe_val u
      | Some x => tight x /\ fe_val v * (fe_val x * fe_val x) == fe_val u
      end).
Proof.
  intros Hu Hv HX Hu1 Hroot. clear Hu. unfold choose_root. fe_step s Es. fe_step w Ew. fe_step c Ec.
  assert (fe_val w == fe_val v * (fe_val X * fe_val X)) as Vw by (rewrite Ew, Es; ring0).
  rewrite fe_isnonzero_spec by fb. cbn [obind].
  destruct (Z.eqb_spec (fe_val c mod p25519) 0) as [Hz|Hz]; cbn [negb].
  { split; [done|]. rewrite <- Vw. apply sub_zero. rewrite <- Ec. apply eq_mod. by rewrite Hz. }
  fe_step e Ee. rewrite fe_isnonzero_spec by fb. cbn [obind].
  destruct (Z.eqb_spec (fe_val e mod p25519) 0) as [Hy|Hy]; cbn [negb].
  - destruct sqrtm1_val as [? Ei]. fe_step r Er. cbn [returns]. split; [done|]. rewrite Er, Ei.
    transitivity (fe_val v * (fe_val X * fe_val X) * (ed_i * ed_i)); [ring0|]. rewrite ed_i_ok, <- Vw.
    assert (fe_val w == - fe_val u) as ->; [|ring0]. apply sub_zero.
    transitivity (fe_val e); [rewrite Ee; ring0|]. apply eq_mod. by rewrite Hy.
  - cbn [returns]. intros x Hx. destruct (Hroot x Hx) as [HR|HR].
    + apply Hz. apply (canon_mod _ 0); [|done]. rewrite Ec, Vw, HR. ring0.
    + apply Hy. apply (canon_mod _ 0); [|done]. rewrite Ee, Vw, HR. ring0.
Qed.

Lemma top_byte s : length s = 32%nat -> bytes_ok s -> Z.shiftr (s !!! 31%nat) 7 = le_val s / 2 ^ 255.
Proof.
  intros Hl Hs. rewrite byte_digit by (done || lia). rewrite Z.shiftr_div_pow2 by done.
  pose proof (le_val_range s Hs) as R. unfold zlen in R. rewrite Hl in R. change (256 ^ Z.of_nat 32) with (2 ^ 256) in R.
  rewrite Z.mod_small; [by rewrite Z.div_div|]. split; [apply Z.div_pos; lia|apply Z.div_lt_upper_bound; lia].
Qed.

(** What a decoded point is: its ordinate is the encoded one, and the parity of its
    abscissa is the other one, since the function negates. *)
Definition decodes_to (s : list Z) (P : epoint) : Prop :=
  py P == le_val s mod 2 ^ 255 /\ (px P = 0 \/ px P mod 2 <> le_val s / 2 ^ 255).

Lemma select_sign X Y sgn :
  tight X -> curve (fe_val X) (fe_val Y) ->
  returns (if (fe_val X mod p25519) mod 2 =? sgn then fe_neg X else Done X)
    (fun X' => tight X' /\ curve (fe_val X') (fe_val Y) /\ (fe_val X' == 0 \/ (fe_val X' mod p25519) mod 2 <> sgn)).
Proof.
  intros HX C. destruct (Z.eqb_spec ((fe_val X mod p25519) mod 2) sgn) as [E|E]; [|cbn [returns]; tauto].
  eapply returns_mono; [apply (fe_neg_in (fe_bound 101 25) X); [done|vm_compute; reflexivity]|].
  intros X' [HX' EX']. split; [fb|]. rewrite EX'. split; [unfold curve in *; by rewrite Z.mul_opp_opp|].
  destruct (decide (fe_val X == 0)) as [Hz|Hz]; [left; rewrite Hz; ring0|right]. rewrite parity_opp by done.
  pose proof (Z.mod_pos_bound (fe_val X mod p25519) 2 ltac:(lia)). lia.
Qed.

Lemma finish_point_spec s X Y :
  length s = 32%nat -> bytes_ok s -> tight Y -> tight X -> fe_val Y == le_val s mod 2 ^ 255 ->
  curve (fe_val X) (fe_val Y) ->
  returns (finish_point s X Y fe_1) (fun h => exists P, rep_p3 h P /\ decodes_to s P).
Proof.
  intros Hl Hs HY HX EY C. unfold finish_point. rewrite top_byte by done. rewrite fe_isnegative_spec by fb. cbn [obind].
  destruct fe_1_val as [H1 V1].
  eapply returns_bind; [by apply (select_sign X Y)|]. intros X' (HX' & C' & Hsgn). fe_step t Et. cbn [returns].
  destruct (curve_epoint _ _ C') as (P & Px & Py). exists P. unfold decodes_to. splits.
  - unfold rep_p3. cbn [p3_X p3_Y p3_Z p3_T]. rewrite V1, Et, Px, Py. splits; try done; try apply one_nonzero; ring0.
  - by rewrite Py.
  - destruct (point_range P) as [Rx _]. symmetry in Px. destruct Hsgn as [Hz|Hz].
    + left. apply canon_eq; [done|done|]. by rewrite <- Px.
    + right. rewrite <- (canon_mod _ _ Px Rx). done.
Qed.

Lemma ge_frombytes_spec s :
  length s = 32%nat -> bytes_ok s ->
  returns (ge_frombytes_negate_vartime s) (fun o => match o with
    | None => forall P, ~ py P == le_val s mod 2 ^ 255
    | Some h => exists P, rep_p3 h P /\ decodes_to s P
    end).
Proof.
  intros Hl Hs. unfold ge_frombytes_negate_vartime.
  eapply returns_bind; [by apply fe_frombytes_spec|]. intros Y [HY EY]. pose proof fe_1_exact as H1.
  destruct fe_1_val as [_ V1]. destruct d_val as [? Ed]. fe_step yy Eyy. fe_step w Ew. fe_step u Eu. fe_step v Ev.
  rewrite V1 in Eu, Ev.
  assert (fe_val v == ed_d * (fe_val Y * fe_val Y) + 1) as Vv by (rewrite Ev, Ew, Ed, Eyy; ring0).
  assert (fe_val u == fe_val Y * fe_val Y - 1) as Vu by (rewrite Eu, Eyy; ring0).
  assert (forall x, fe_val v * (x * x) == fe_val u <-> curve x (fe_val Y)) as Hcurve
    by (intros x; rewrite Vv, Vu; apply root_curve).
  eapply returns_bind; [apply sqrt_candidate_spec; fb|]. intros X [HX EX]. cbn zeta in EX.
  eapply returns_bind; [apply choose_root_spec; [fb|fb|fb|done|]|].
  { intros x Hx. rewrite EX. exact (candidate_root _ _ x Hx). }
  intros [x|]; cbn beta iota.
  - intros [Hx Ex]. eapply returns_bind; [apply finish_point_spec; [done|done|fb|fb|done|by apply Hcurve]|].
    intros h Hh. exact Hh.
  - intros Hn P HP. apply (Hn (px P)), Hcurve. rewrite <- EY in HP. pose proof (point_curve P) as C.
    unfold curve in *. by rewrite <- HP.
Qed.

(** Decoding an encoded point gives its opposite. *)
Lemma ge_frombytes_encode P :
  returns (ge_frombytes_negate_vartime (encode P)) (fun o => exists h, o = Some h /\ rep_p3 h (popp P)).
Proof.
  pose proof (encode_val P) as V. destruct (point_range P) as [Rx Ry].
  pose proof (Z.mod_pos_bound (px P) 2 ltac:(lia)) as R2.
  assert (le_val (encode P) mod 2 ^ 255 = py P) as Vy.
  { rewrite V, Z.mul_comm, Z_mod_plus_full. apply Z.mod_small. unfold p25519 in Ry. lia. }
  assert (le_val (encode P) / 2 ^ 255 = px P mod 2) as Vx.
  { rewrite V, Z.mul_comm, Z.div_add by lia. rewrite Z.div_small by (unfold p25519 in Ry; lia). lia. }
  eapply returns_mono; [apply ge_frombytes_spec; [apply length_le_bytes|apply le_bytes_ok]|].
  intros [h|]; [|intros H; exfalso; apply (H P); by rewrite Vy]. intros (Q & HQ & Hy & Hx). rewrite Vy in Hy. rewrite Vx in Hx.
  exists h. split; [done|]. assert (Q = popp P) as <-; [|done].
  assert (py Q = py P) as Ey by (apply canon_eq; [apply point_range|done|done]).
  destruct (same_y_roots (px P) (px Q) (py P)) as [E|E]; [apply point_curve|rewrite <- Ey; apply point_curve| |].
  - assert (px Q = px P) as Ex by (apply canon_eq; [apply point_range|done|done]). rewrite Ex in Hx.
    destruct Hx as [Hx|Hx]; [|done]. apply point_eq; [|by rewrite popp_y, Ey]. rewrite popp_x, E, Hx. reflexivity.
  - apply point_eq; [by rewrite popp_x|by rewrite popp_y, Ey].
Qed.
