(* ===== verification/GeTables.v ===== *)
(** The tables of precomp_data.h hold the multiples of the base point that their comment
    says, and the base point has order [l].

    Both are evaluated: a table entry is compared with a sum by the coordinates multiplied
    out ([is_sum]), and multiples are computed in projective coordinates ([zmul]). *)
From S2P Require Import Prelude Bytes Limbs Fe FeArith Prime25519 Edwards Sc Ge GePrecomp GeArith.

(** ** Comparing without division *)

(** A number of about 255 bits, congruent to [x]: the high part comes back times 19. *)
Definition fold255 (x : Z) : Z := Z.land x (2 ^ 255 - 1) + 19 * Z.shiftr x 255.

Definition modp (x : Z) : Z := fold255 (fold255 x).

Definition eqp (a b : Z) : bool := let m := modp (a - b) in (m =? 0) || (m =? p25519).

Lemma fold255_eq x : fold255 x == x.
Proof.
  unfold fold255. rewrite (land_mask x 255), Z.shiftr_div_pow2 by done.
  pose proof (Z.div_mod x (2 ^ 255) ltac:(lia)) as D. exists (- (x / 2 ^ 255)). unfold p25519. lia.
Qed.

Lemma modp_eq x : modp x == x.
Proof. unfold modp. by rewrite !fold255_eq. Qed.

#[export] Instance modp_proper : Proper (cong p25519 ==> cong p25519) modp.
Proof. intros a b H. transitivity a; [apply modp_eq|]. rewrite H. symmetry. apply modp_eq. Qed.

Lemma eqp_ok a b : eqp a b = true -> a == b.
Proof.
  unfold eqp. rewrite orb_true_iff, !Z.eqb_eq. intros H. apply sub_zero.
  transitivity (modp (a - b)); [symmetry; apply modp_eq|]. apply eq_mod. by destruct H as [-> | ->].
Qed.

(** ** Projective multiples *)

Record zpoint := ZPoint { zX : Z; zY : Z; zZ : Z; zT : Z }.

Definition zrep (h : zpoint) (P : epoint) : Prop :=
  ~ zZ h == 0 /\ zX h == px P * zZ h /\ zY h == py P * zZ h /\ zT h == px P * py P * zZ h.

Definition zcompleted (x y z t : Z) : zpoint := ZPoint (modp (x * t)) (modp (y * z)) (modp (z * t)) (modp (x * y)).

Definition zdbl (h : zpoint) : zpoint :=
  let xx := modp (zX h * zX h) in
  let yy := modp (zY h * zY h) in
  let s := zX h + zY h in
  let z := yy - xx in
  zcompleted (modp (s * s) - (yy + xx)) (yy + xx) z (2 * modp (zZ h * zZ h) - z).

Definition zmadd (h : zpoint) (Q : Z * Z) : zpoint :=
  let '(x, y) := Q in
  let zz := modp ((zY h + zX h) * (y + x)) in
  let yy := modp ((zY h - zX h) * (y - x)) in
  let tt := modp (modp (2 * ed_d * modp (x * y)) * zT h) in
  zcompleted (zz - yy) (zz + yy) (2 * zZ h + tt) (2 * zZ h - tt).

Lemma zcompleted_rep x y z t P :
  ~ z == 0 -> ~ t == 0 -> x == px P * z -> y == py P * t -> zrep (zcompleted x y z t) P.
Proof.
  intros Hz Ht Hx Hy. unfold zrep, zcompleted. cbn [zX zY zZ zT]. rewrite !modp_eq, Hx, Hy. splits; try ring0.
  by apply mul_nonzero.
Qed.

Lemma zdbl_rep h P : zrep h P -> zrep (zdbl h) (padd P P).
Proof.
  intros (N & HX & HY & HT). destruct (double_values P _ _ _ N HX HY) as (V1 & V2 & V3 & V4).
  apply zcompleted_rep; by rewrite ?modp_eq.
Qed.

Lemma zmadd_rep h P Q : zrep h P -> zrep (zmadd h (pt Q)) (padd P Q).
Proof.
  intros (N & HX & HY & HT).
  destruct (add_values P Q (zX h) (zY h) (zZ h) (zT h) (py Q + px Q) (py Q - px Q) (2 * ed_d * px Q * py Q) 1
    N one_nonzero HX HY HT ltac:(by rewrite Z.mul_1_r) ltac:(by rewrite Z.mul_1_r) ltac:(by rewrite Z.mul_1_r))
    as (V1 & V2 & V3 & V4).
  unfold zmadd. destruct (pt Q) as [x y] eqn:E. cbn [fst snd] in *.
  assert (forall a b, a == b -> modp a == b) as M by (intros a b H; by rewrite modp_eq).
  assert (modp (modp (2 * ed_d * modp (x * y)) * zT h) == 2 * ed_d * x * y * zT h) as Et by (rewrite !modp_eq; ring0).
  assert (2 * (zZ h * 1) = 2 * zZ h) as E1 by lia. rewrite E1 in V1, V2, V3, V4.
  apply zcompleted_rep; rewrite ?Et, ?modp_eq; done.
Qed.

Fixpoint zmul (n : positive) (Q : Z * Z) : zpoint :=
  match n with
  | xH => ZPoint Q.1 Q.2 1 (modp (Q.1 * Q.2))
  | xO n => zdbl (zmul n Q)
  | xI n => zmadd (zdbl (zmul n Q)) Q
  end.

Lemma zmul_rep n P : zrep (zmul n (pt P)) (pmul (Zpos n) P).
Proof.
  induction n as [n IH|n IH|]; cbn [zmul].
  - replace (Zpos n~1) with (Zpos n + Zpos n + 1) by lia. rewrite !pmul_add, pmul_1. by apply zmadd_rep, zdbl_rep.
  - replace (Zpos n~0) with (Zpos n + Zpos n) by lia. rewrite pmul_add. by apply zdbl_rep.
  - unfold zrep. cbn [zX zY zZ zT]. rewrite modp_eq, pmul_1. splits; try ring0. apply one_nonzero.
Qed.

Definition in_range (Q : Z * Z) : bool := (0 <=? Q.1) && (Q.1 <? p25519) && (0 <=? Q.2) && (Q.2 <? p25519).

Lemma in_range_eq P Q : in_range Q = true -> Q.1 == px P -> Q.2 == py P -> pt P = Q.
Proof.
  unfold in_range. rewrite !andb_true_iff, !Z.leb_le, !Z.ltb_lt. intros H Hx Hy. destruct (point_range P) as [Rx Ry].
  destruct (pt P) as [x y], Q as [u v]. cbn [fst snd] in *. f_equal; symmetry; apply canon_eq; (lia || done).
Qed.

(** Projective coordinates of an affine pair. *)
Definition zis (h : zpoint) (Q : Z * Z) : bool :=
  in_range Q && eqp (zX h) (Q.1 * zZ h) && eqp (zY h) (Q.2 * zZ h).

Lemma zis_ok h P Q : zrep h P -> zis h Q = true -> pt P = Q.
Proof.
  intros (N & HX & HY & _) H. apply andb_true_iff in H as [[H0 H1%eqp_ok]%andb_true_iff H2%eqp_ok].
  apply in_range_eq; [done| |]; apply (mul_cancel (zZ h)); try done; rewrite !(Z.mul_comm (zZ h)); by rewrite <- ?HX, <- ?HY.
Qed.

(** Five doublings. *)
Definition z32 (Q : Z * Z) : zpoint := zdbl (zdbl (zdbl (zdbl (zdbl (zmul 1 Q))))).

Lemma z32_rep P : zrep (z32 (pt P)) (pmul 32 P).
Proof.
  replace 32 with (2 * (2 * (2 * (2 * (2 * 1))))) by done. rewrite !pmul_mul, !pmul_double. by repeat apply zdbl_rep; apply (zmul_rep 1).
Qed.

(** The base point has order [l]. *)
Lemma base_order : pmul sc_l ed_B = pzero.
Proof.
  change sc_l with (Zpos (Z.to_pos sc_l)). apply epoint_eq, (zis_ok (zmul (Z.to_pos sc_l) (pt ed_B))); [apply zmul_rep|].
  vm_cast_no_check (eq_refl true).
Qed.

(** ** Table entries *)

(** The representative between 0 and [p], and its half. *)
Definition canon (x : Z) : Z := let m := modp x in if m <? p25519 then m else m - p25519.

Definition halve (x : Z) : Z := let m := canon x in if Z.even m then m / 2 else (m + p25519) / 2.

Lemma halve_ok x : 2 * halve x == x.
Proof.
  assert (canon x == x) as E.
  { unfold canon. destruct (modp x <? p25519); [apply modp_eq|]. transitivity (modp x); [exists (-1); lia|apply modp_eq]. }
  transitivity (canon x); [|exact E]. unfold halve. generalize (canon x). clear x E. intros m.
  destruct (Z.even m) eqn:Ev; [apply Z.even_spec in Ev as [k ->]|
    rewrite <- Z.negb_odd in Ev; apply negb_false_iff, Z.odd_spec in Ev as [k ->]].
  - rewrite (Z.mul_comm 2 k), Z.div_mul by done. ring0.
  - assert (p25519 = 2 * (p25519 / 2) + 1) as Ep by reflexivity. set (h := p25519 / 2) in *.
    replace (2 * k + 1 + p25519) with ((k + h + 1) * 2) by lia. rewrite Z.div_mul by done. exists 1. lia.
Qed.

(** The affine point of an entry. *)
Definition entry_point (e : ge_precomp) : Z * Z :=
  let a := fe_val (yplusx e) in
  let b := fe_val (yminusx e) in
  (halve (a - b), halve (a + b)).

Definition inbsb (B : list itv) (f : list Z) : bool :=
  (length B =? length f)%nat && forallb (fun '(b, x) => (b.1 <=? x) && (x <=? b.2)) (zip B f).

Lemma inbsb_ok B f : inbsb B f = true -> inbs B f.
Proof.
  unfold inbsb. rewrite andb_true_iff, Nat.eqb_eq. intros [Hl Hf]. revert f Hl Hf.
  induction B as [|b B IH]; intros [|x f] Hl Hf; try done; [constructor|]. cbn in Hf.
  rewrite !andb_true_iff, !Z.leb_le in Hf. destruct Hf as [Hb Hf]. constructor; [done|]. apply IH; [by injection Hl|done].
Qed.

(** The entry of the point [Q], its [entry_point]; the product with [d] by [ed_d_ok]. *)
Definition entry_ok (e : ge_precomp) (Q : Z * Z) : bool :=
  inbsb (fe_bound 101 25) (yplusx e) && inbsb (fe_bound 101 25) (yminusx e) && inbsb (fe_bound 101 25) (xy2d e) &&
  eqp (121666 * fe_val (xy2d e)) (-243330 * modp (Q.1 * Q.2)).

Lemma entry_rep e P : entry_ok e (pt P) = true -> pt P = entry_point e -> rep_precomp e P.
Proof.
  unfold entry_ok. rewrite !andb_true_iff. intros [[[B1 B2] B3] T%eqp_ok] E. rewrite modp_eq in T.
  unfold entry_point in E. assert (2 * px P == fe_val (yplusx e) - fe_val (yminusx e)) as Ex by (rewrite E; apply halve_ok).
  assert (2 * py P == fe_val (yplusx e) + fe_val (yminusx e)) as Ey by (rewrite E; apply halve_ok).
  pose proof two_nonzero as N2.
  unfold rep_precomp. splits; try (by apply inbsb_ok).
  - apply (mul_cancel 2); [done|]. transitivity (2 * py P + 2 * px P); [rewrite Ex, Ey; ring0|ring0].
  - apply (mul_cancel 2); [done|]. transitivity (2 * py P - 2 * px P); [rewrite Ex, Ey; ring0|ring0].
  - apply (mul_cancel 121666); [apply small_nonzero|]. rewrite T.
    transitivity (2 * (121666 * ed_d) * (px P * py P)); [rewrite ed_d_ok; ring0|ring0].
Qed.

(** [R] is the sum of [P] and [Q], multiplied by 121666. *)
Definition is_sum (P Q R : Z * Z) : bool :=
  let '(x1, y1) := P in
  let '(x2, y2) := Q in
  let a := modp (x1 * y2) in
  let b := modp (x2 * y1) in
  let k := 121665 * modp (a * b) in
  in_range R && eqp (R.1 * modp (121666 - k)) (121666 * (a + b)) &&
  eqp (R.2 * modp (121666 + k)) (121666 * (y1 * y2 + x1 * x2)).

Lemma is_sum_ok P Q R : is_sum (pt P) (pt Q) R = true -> pt (padd P Q) = R.
Proof.
  intros H. destruct (padd_coords P Q) as [Ex Ey]. destruct (point_denom P Q) as [N1 N2].
  unfold is_sum in H. destruct (pt P) as [x1 y1], (pt Q) as [x2 y2]. cbn [fst snd] in *.
  apply andb_true_iff in H as [[H0 H1%eqp_ok]%andb_true_iff H2%eqp_ok]. rewrite !modp_eq in H1, H2.
  apply in_range_eq; [done| |]; (apply (mul_cancel 121666); [apply small_nonzero|]).
  - apply (mul_cancel _ _ _ N1). transitivity (R.1 * (121666 + 121666 * ed_d * (x1 * y2 * (x2 * y1)))); [ring0|].
    rewrite ed_d_ok. transitivity (R.1 * (121666 - 121665 * (x1 * y2 * (x2 * y1)))); [ring0|]. rewrite H1, <- Ex. ring0.
  - apply (mul_cancel _ _ _ N2). transitivity (R.2 * (121666 - 121666 * ed_d * (x1 * y2 * (x2 * y1)))); [ring0|].
    rewrite ed_d_ok. transitivity (R.2 * (121666 + 121665 * (x1 * y2 * (x2 * y1)))); [ring0|]. rewrite H2, <- Ey. ring0.
Qed.

(** Entries that advance by [step], starting with the point [cur]. *)
Fixpoint progression (step cur : Z * Z) (l : list ge_precomp) : bool :=
  match l with
  | [] => true
  | e :: l' =>
      entry_ok e cur &&
      match l' with
      | [] => true
      | e' :: _ => let next := entry_point e' in is_sum cur step next && progression step next l'
      end
  end.

Lemma progression_rep S l : forall e P,
  progression (pt S) (pt P) (e :: l) = true -> pt P = entry_point e ->
  forall j e', (e :: l) !! j = Some e' ->
  rep_precomp e' (padd P (pmul (Z.of_nat j) S)) /\ pt (padd P (pmul (Z.of_nat j) S)) = entry_point e'.
Proof.
  induction l as [|f l IH]; intros e P H HP j e' Hj; apply andb_true_iff in H as [He H].
  - destruct j as [|j]; [|done]. injection Hj as <-. rewrite padd_0_r. split; [by apply entry_rep|done].
  - apply andb_true_iff in H as [Hs Hl]. apply is_sum_ok in Hs.
    destruct j as [|j]; [injection Hj as <-; rewrite padd_0_r; split; [by apply entry_rep|done]|].
    rewrite <- Hs in Hl. destruct (IH f (padd P S) Hl Hs j e' Hj) as [R E].
    rewrite Nat2Z.inj_succ, pmul_succ, <- padd_assoc. by split.
Qed.

(** [base[i][j] = (j+1)*256^i*B]: each row is a progression of eight, and the first entry of
    a row is 32 times the last entry of the row before. *)
Fixpoint rows_ok (first : Z * Z) (rows : list (list ge_precomp)) : bool :=
  match rows with
  | [] => true
  | row :: rows =>
      (length row =? 8)%nat && progression first first row &&
      match rows with
      | (e' :: _) :: _ =>
          let q := entry_point e' in zis (z32 (entry_point (row !!! 7%nat))) q && rows_ok q rows
      | [] => true
      | [] :: _ => false
      end
  end.

#[local] Instance precomp_inhabited : Inhabited ge_precomp := populate (Precomp [] [] []).

Lemma rows_rep rows : forall P,
  (forall e row rest, rows = (e :: row) :: rest -> pt P = entry_point e) ->
  rows_ok (pt P) rows = true ->
  forall i row, rows !! i = Some row ->
  forall j e, row !! j = Some e -> rep_precomp e (pmul ((Z.of_nat j + 1) * 256 ^ Z.of_nat i) P).
Proof.
  induction rows as [|r rows IH]; intros P HP H i row Hi j e Hj; [done|].
  cbn [rows_ok] in H. rewrite !andb_true_iff, Nat.eqb_eq in H. destruct H as [[Hl Hp] Hrest].
  destruct r as [|f r]; [done|]. specialize (HP f r rows eq_refl) as EP.
  pose proof (progression_rep P r f P Hp EP) as HR.
  assert (forall k, padd P (pmul (Z.of_nat k) P) = pmul (Z.of_nat k + 1) P) as Ek by (intros k; by rewrite <- pmul_succ).
  destruct i as [|i].
  - injection Hi as <-. destruct (HR j e Hj) as [H _]. rewrite Ek in H. by rewrite Z.mul_1_r.
  - cbn in Hi. destruct rows as [|[|f' r'] rows]; [done|done|]. apply andb_true_iff in Hrest as [Hz Hr].
    destruct (lookup_lt_is_Some_2 (f :: r) 7 ltac:(lia)) as [e8 H8]. rewrite (list_lookup_total_correct _ _ _ H8) in Hz.
    destruct (HR 7%nat e8 H8) as [_ E8]. rewrite Ek in E8. rewrite <- E8 in Hz. apply (zis_ok _ _ _ (z32_rep _)) in Hz.
    rewrite <- pmul_mul in Hz. change (32 * (Z.of_nat 7 + 1)) with 256 in Hz. rewrite <- Hz in Hr.
    specialize (IH (pmul 256 P)). rewrite Nat2Z.inj_succ, Z.pow_succ_r by lia.
    replace ((Z.of_nat j + 1) * (256 * 256 ^ Z.of_nat i)) with ((Z.of_nat j + 1) * 256 ^ Z.of_nat i * 256) by ring.
    rewrite pmul_mul. apply IH with (row := row); try done. by intros e0 row0 rest [= <- <- <-].
Qed.

Lemma base_first : pt ed_B = entry_point (base_0 !!! 0%nat).
Proof. vm_compute. reflexivity. Qed.

Lemma base_table i row j e :
  base !! i = Some row -> row !! j = Some e -> rep_precomp e (pmul ((Z.of_nat j + 1) * 256 ^ Z.of_nat i) ed_B).
Proof.
  intros Hi Hj. apply (rows_rep base ed_B) with (row := row); [| |done|done].
  - intros e0 row0 rest E. rewrite base_first. assert (head base = Some (e0 :: row0)) as E0 by by rewrite E.
    change (Some base_0 = Some (e0 :: row0)) in E0. assert (base_0 = e0 :: row0) as -> by (by apply Some_inj). reflexivity.
  - vm_cast_no_check (eq_refl true).
Qed.

(** [Bi[i] = (2*i+1)*B]. *)
Lemma Bi_table j e : Bi !! j = Some e -> rep_precomp e (pmul (2 * Z.of_nat j + 1) ed_B).
Proof.
  intros Hj. set (two := entry_point (base_0 !!! 1%nat)).
  assert (pt (padd ed_B ed_B) = two) as E2 by (apply is_sum_ok; vm_compute; reflexivity).
  assert (progression two (pt ed_B) Bi = true) as H by (vm_compute; reflexivity).
  replace (2 * Z.of_nat j + 1) with (1 + Z.of_nat j * 2) by lia. rewrite pmul_add, pmul_1, pmul_mul, pmul_double.
  rewrite <- E2 in H. clear E2 two.
  assert (exists f l, Bi = f :: l /\ pt ed_B = entry_point f) as (f & l & EB & Ef).
  { eexists _, _. split; [reflexivity|]. vm_compute. reflexivity. }
  rewrite EB in H, Hj. by destruct (progression_rep _ l f ed_B H Ef j e Hj).
Qed.
