(* ===== verification/GeMult.v ===== *)
(** The two scalar multiplications of ge.c, [ge_scalarmult_base] and
    [ge_double_scalarmult_vartime], give the multiples in the group: the signed digits,
    the selection from the tables, the sliding windows and the loops. *)
From S2P Require Import Prelude Bytes Limbs Fe FeArith Prime25519 Edwards Sc Ge GePrecomp GeArith GeTables.

(** ** Signed digits *)

(** The value of digits in base [b]. *)
Fixpoint dval (b : Z) (l : list Z) : Z :=
  match l with [] => 0 | x :: l => x + b * dval b l end.

Lemma nibbles_val a : bytes_ok a -> dval 16 (nibbles a) = le_val a.
Proof.
  unfold bytes_ok. induction 1 as [|x a Hx Ha IH]; [done|]. cbn [nibbles dval le_val]. rewrite IH.
  rewrite !(land_mask _ 4) by done. rewrite Z.shiftr_0_r, Z.shiftr_div_pow2 by done. cbn in Hx.
  pose proof (Z.div_mod x (2 ^ 4) ltac:(lia)).
  rewrite (Z.mod_small (x / 2 ^ 4)); [lia|]. split; [apply Z.div_pos; lia|apply Z.div_lt_upper_bound; lia].
Qed.

Lemma nibbles_range a : Forall (fun x => 0 <= x <= 15) (nibbles a).
Proof.
  induction a as [|x a IH]; cbn [nibbles]; [constructor|]. rewrite !(land_mask _ 4) by done.
  pose proof (Z.mod_pos_bound (Z.shiftr x 0) (2 ^ 4) ltac:(lia)).
  pose proof (Z.mod_pos_bound (Z.shiftr x 4) (2 ^ 4) ltac:(lia)).
  repeat (constructor; [lia|]). done.
Qed.

Lemma length_nibbles a : length (nibbles a) = (2 * length a)%nat.
Proof. induction a as [|x a IH]; [done|]. cbn [nibbles length]. rewrite IH. lia. Qed.

Lemma s8_byte x : -128 <= x < 128 -> s8 x = x.
Proof. intros H. unfold s8. rewrite Z.mod_small; lia. Qed.

(** Digits between -8 and 8 with the same value; the last one takes the last carry. *)
Lemma recode_ok e : forall c,
  e <> [] -> Forall (fun x => 0 <= x <= 15) e -> (forall x, last e = Some x -> x <= 7) -> c = 0 \/ c = 1 ->
  dval 16 (recode e c) = dval 16 e + c /\ Forall (fun x => -8 <= x <= 8) (recode e c) /\ length (recode e c) = length e.
Proof.
  induction e as [|x e IH]; intros c Hn He Hlast Hc; [done|]. apply Forall_cons in He as [Hx He].
  destruct e as [|y e].
  - specialize (Hlast x eq_refl). cbn [recode dval length]. rewrite s8_byte by lia.
    splits; [lia|by constructor; [lia|]|done].
  - change (recode (x :: y :: e) c) with (let x := s8 (x + c) in let carry := Z.shiftr (s8 (x + 8)) 4 in
      s8 (x - Z.shiftl carry 4) :: recode (y :: e) carry). cbn zeta.
    rewrite (s8_byte (x + c)), (s8_byte (x + c + 8)) by lia. rewrite Z.shiftr_div_pow2, Z.shiftl_mul_pow2 by done.
    set (c' := (x + c + 8) / 2 ^ 4).
    pose proof (Z.div_mod (x + c + 8) (2 ^ 4) ltac:(lia)) as D. pose proof (Z.mod_pos_bound (x + c + 8) (2 ^ 4) ltac:(lia)).
    fold c' in D. assert (c' = 0 \/ c' = 1) as Hc' by lia.
    destruct (IH c' ltac:(done) He ltac:(exact Hlast) Hc') as (V & F & L).
    rewrite s8_byte by lia. splits.
    + change (dval 16 ((x + c - c' * 2 ^ 4) :: recode (y :: e) c')) with
        ((x + c - c' * 2 ^ 4) + 16 * dval 16 (recode (y :: e) c')). rewrite V.
      change (dval 16 (x :: y :: e)) with (x + 16 * dval 16 (y :: e)). lia.
    + constructor; [lia|done].
    + cbn [length]. by rewrite L.
Qed.

(** ** Selection from the table *)

Definition pre_ok (e : ge_precomp) : Prop := tight (yplusx e) /\ tight (yminusx e) /\ tight (xy2d e).

Lemma inbs_int32 B f : forallb (fitsI 32) B = true -> inbs B f -> Forall int32_ok f.
Proof.
  intros HB H. revert HB. induction H as [|b x B f Hb H IH]; intros HB; [constructor|].
  cbn in HB. apply andb_true_iff in HB as [Hf HB]. constructor; [|by apply IH].
  unfold fitsI, fits in Hf. unfold inb in Hb. ztests. unfold int32_ok. change (2 ^ (32 - 1)) with (2 ^ 31) in *. lia.
Qed.

Lemma cmov_fe f g b : tight f -> tight g -> b = 0 \/ b = 1 -> fe_cmov f g b = Done (if b =? 1 then g else f).
Proof.
  intros Hf Hg Hb. apply fe_cmov_spec; [| | |done].
  - apply (inbs_int32 (fe_bound 101 25)); [vm_compute; reflexivity|done].
  - apply (inbs_int32 (fe_bound 101 25)); [vm_compute; reflexivity|done].
  - by rewrite (bounded_length _ _ _ Hf), (bounded_length _ _ _ Hg).
Qed.

Lemma cmov_spec t u b : pre_ok t -> pre_ok u -> b = 0 \/ b = 1 -> cmov t u b = Done (if b =? 1 then u else t).
Proof.
  intros (?&?&?) (?&?&?) Hb. unfold cmov. rewrite !cmov_fe by done. cbn [obind].
  destruct t, u. by destruct (b =? 1).
Qed.

(** [equal] and [negative] on the small values they are used with. *)
Lemma equal_spec n j : 0 <= n <= 8 -> 0 <= j <= 8 -> equal (s8 n) j = if n =? j then 1 else 0.
Proof.
  intros Hn Hj.
  assert (forallb (fun n => forallb (fun j => equal (s8 n) j =? (if n =? j then 1 else 0)) (seqZ 0 9)) (seqZ 0 9) = true) as H
    by (vm_compute; reflexivity).
  rewrite forallb_forall in H. specialize (H n). rewrite <- list_elem_of_In, elem_of_seqZ in H. specialize (H ltac:(lia)).
  rewrite forallb_forall in H. specialize (H j). rewrite <- list_elem_of_In, elem_of_seqZ in H.
  apply Z.eqb_eq, H. lia.
Qed.

Lemma sign_spec b : -8 <= b <= 8 ->
  negative b = (if b <? 0 then 1 else 0) /\ u8 (b - Z.shiftl (Z.land (- negative b) b) 1) = Z.abs b.
Proof.
  intros Hb.
  assert (forallb (fun b => (negative b =? (if b <? 0 then 1 else 0)) &&
    (u8 (b - Z.shiftl (Z.land (- negative b) b) 1) =? Z.abs b)) (seqZ (-8) 17) = true) as H by (vm_compute; reflexivity).
  rewrite forallb_forall in H. specialize (H b). rewrite <- list_elem_of_In, elem_of_seqZ in H.
  specialize (H ltac:(lia)). by rewrite andb_true_iff, !Z.eqb_eq in H.
Qed.

Lemma select_abs_spec row : forall j n t,
  0 <= j -> j + Z.of_nat (length row) <= 8 -> 0 <= n <= 8 -> Forall pre_ok row -> pre_ok t ->
  select_abs row n j t =
    Done (if (j <? n) && (n <=? j + Z.of_nat (length row)) then row !!! Z.to_nat (n - j - 1) else t).
Proof.
  induction row as [|u row IH]; intros j n t Hj Hl Hn Hrow Ht.
  - cbn [select_abs length]. destruct (Z.ltb_spec j n), (Z.leb_spec n (j + Z.of_nat 0)); cbn [andb]; try done. lia.
  - apply Forall_cons in Hrow as [Hu Hrow]. cbn [select_abs length]. cbn [length] in Hl.
    rewrite equal_spec by lia. rewrite cmov_spec by (done || (destruct (n =? j + 1); tauto)). cbn [obind].
    rewrite IH by (lia || done || (by destruct (Z.eqb_spec n (j + 1)))). f_equal.
    destruct (Z.eqb_spec n (j + 1)) as [->|Hne]; cbn [Z.eqb Pos.eqb].
    + destruct (Z.ltb_spec (j + 1) (j + 1)); [lia|]. cbn [andb].
      destruct (Z.ltb_spec j (j + 1)), (Z.leb_spec (j + 1) (j + Z.of_nat (S (length row)))); try lia. cbn [andb].
      by replace (j + 1 - j - 1) with 0 by lia.
    + destruct (Z.ltb_spec (j + 1) n), (Z.ltb_spec j n), (Z.leb_spec n (j + 1 + Z.of_nat (length row))),
        (Z.leb_spec n (j + Z.of_nat (S (length row)))); cbn [andb]; try lia; try done.
      replace (Z.to_nat (n - j - 1)) with (S (Z.to_nat (n - (j + 1) - 1))) by lia. done.
Qed.

(** A row of the table: the first eight multiples of a point. *)
Definition row_of (row : list ge_precomp) (Q : epoint) : Prop :=
  length row = 8%nat /\ forall j e, row !! j = Some e -> rep_precomp e (pmul (Z.of_nat j + 1) Q).

Lemma rep_pre_ok e P : rep_precomp e P -> pre_ok e.
Proof. by intros [H _]. Qed.

Lemma neutral_precomp : rep_precomp (Precomp fe_1 fe_1 fe_0) pzero.
Proof.
  destruct fe_0_val as [? E0]. destruct fe_1_val as [? E1]. unfold rep_precomp. cbn [yplusx yminusx xy2d pzero pt fst snd].
  rewrite E0, E1. splits; try done; ring0.
Qed.

Lemma select_spec row b Q :
  row_of row Q -> -8 <= b <= 8 -> returns (select row b) (fun t => rep_precomp t (pmul b Q)).
Proof.
  intros [Hl Hrow] Hb. destruct (sign_spec b Hb) as [En Ea]. unfold select. rewrite Ea, En.
  assert (Forall pre_ok row) as Hok.
  { apply Forall_lookup. intros j e He. eapply rep_pre_ok, (Hrow j e He). }
  rewrite select_abs_spec by (try done; try lia; try (rewrite Hl; lia); eapply rep_pre_ok, neutral_precomp).
  cbn [obind]. rewrite Hl. change (0 + Z.of_nat 8) with 8.
  set (t := if (0 <? Z.abs b) && (Z.abs b <=? 8) then row !!! Z.to_nat (Z.abs b - 0 - 1) else Precomp fe_1 fe_1 fe_0).
  assert (rep_precomp t (pmul (Z.abs b) Q)) as Ht.
  { unfold t. destruct (Z.ltb_spec 0 (Z.abs b)); cbn [andb].
    - destruct (Z.leb_spec (Z.abs b) 8); [|lia].
      destruct (lookup_lt_is_Some_2 row (Z.to_nat (Z.abs b - 0 - 1)) ltac:(lia)) as [e He].
      rewrite (list_lookup_total_correct _ _ _ He). specialize (Hrow _ _ He).
      by replace (Z.of_nat (Z.to_nat (Z.abs b - 0 - 1)) + 1) with (Z.abs b) in Hrow by lia.
    - replace (Z.abs b) with 0 by lia. apply neutral_precomp. }
  clearbody t. destruct Ht as ((B1 & B2 & B3) & V1 & V2 & V3).
  rewrite (fe_copy_spec _ _ _ B2), (fe_copy_spec _ _ _ B1). cbn [obind].
  eapply returns_bind; [apply (fe_neg_in (fe_bound 101 25) (xy2d t)); [done|vm_compute; reflexivity]|].
  intros mx [Hmx Em]. assert (tight mx) as Bm by fb. rewrite cmov_spec; [|done|done|destruct (b <? 0); tauto].
  cbn [returns]. destruct (Z.ltb_spec b 0); cbn [Z.eqb Pos.eqb].
  - replace b with (- Z.abs b) by lia. rewrite pmul_opp. unfold rep_precomp. cbn [yplusx yminusx xy2d].
    rewrite Em, V1, V2, V3, !popp_x, !popp_y. splits; try done; ring0.
  - rewrite (Z.abs_eq b) in V1, V2, V3 by lia. unfold rep_precomp. tauto.
Qed.

(** ** The loops *)

Section Loops.
Context (e : list Z).
Hypothesis He : Forall (fun x => -8 <= x <= 8) e.
Hypothesis Hlen : length e = 64%nat.

Definition digit_sum (l : list nat) : Z := foldr (fun i s => e !!! i * 256 ^ Z.of_nat (i / 2) + s) 0 l.

Lemma base_row i : (i < 32)%nat -> row_of (base !!! i) (pmul (256 ^ Z.of_nat i) ed_B).
Proof.
  intros Hi. destruct (lookup_lt_is_Some_2 base i Hi) as [row Hrow].
  rewrite (list_lookup_total_correct _ _ _ Hrow). split.
  - assert (Forall (fun r => length r = 8%nat) base) as H by (repeat constructor).
    rewrite Forall_lookup in H. by apply (H i).
  - intros j x Hx. rewrite <- pmul_mul. by apply (base_table i row).
Qed.

Lemma base_step_spec i h P :
  (i < 64)%nat -> rep_p3 h P ->
  returns (base_step base e i h) (fun h' => rep_p3 h' (padd P (pmul (e !!! i * 256 ^ Z.of_nat (i / 2)) ed_B))).
Proof.
  intros Hi Hh. unfold base_step. destruct (lookup_lt_is_Some_2 e i ltac:(lia)) as [x Hx].
  assert (-8 <= e !!! i <= 8) as Hd.
  { rewrite (list_lookup_total_correct _ _ _ Hx). rewrite Forall_lookup in He. by apply (He i). }
  eapply returns_bind; [apply (select_spec _ _ _ (base_row (i / 2) ltac:(apply Nat.Div0.div_lt_upper_bound; lia)) Hd)|].
  intros t Ht. rewrite <- pmul_mul in Ht. eapply returns_bind; [by apply (ge_madd_spec h t P)|]. intros r Hr.
  by apply ge_p1p1_to_p3_spec.
Qed.

Lemma base_loop_spec l : forall h P,
  Forall (fun i => i < 64)%nat l -> rep_p3 h P ->
  returns (base_loop base e l h) (fun h' => rep_p3 h' (padd P (pmul (digit_sum l) ed_B))).
Proof.
  induction l as [|i l IH]; intros h P Hl Hh.
  - cbn. by rewrite padd_0_r.
  - apply Forall_cons in Hl as [Hi Hl]. cbn [base_loop digit_sum foldr].
    eapply returns_bind; [by apply base_step_spec|]. intros h' Hh'. eapply returns_mono; [exact (IH h' _ Hl Hh')|].
    intros h'' H. rewrite pmul_add, <- padd_assoc. exact H.
Qed.

(** Sixteen times the sum over the odd digits, and the sum over the even ones. *)
Lemma digit_sums_from n : forall s,
  (2 * (s + n) = length e)%nat ->
  16 * digit_sum ((fun i => 2 * i + 1)%nat <$> seq s n) + digit_sum ((fun i => 2 * i)%nat <$> seq s n) =
  256 ^ Z.of_nat s * dval 16 (drop (2 * s) e).
Proof.
  clear He Hlen. induction n as [|n IH]; intros s Hs.
  - rewrite drop_ge by lia. cbn. lia.
  - destruct (lookup_lt_is_Some_2 e (2 * s) ltac:(lia)) as [x Hx].
    destruct (lookup_lt_is_Some_2 e (2 * s + 1) ltac:(lia)) as [y Hy].
    rewrite (drop_S _ _ _ Hx), (drop_S e y (S (2 * s))) by (by replace (S (2 * s)) with (2 * s + 1)%nat by lia).
    specialize (IH (S s) ltac:(lia)). replace (2 * S s)%nat with (S (S (2 * s))) in IH by lia.
    change (seq s (S n)) with (s :: seq (S s) n). rewrite !fmap_cons. cbn [dval].
    assert (forall i l, digit_sum (i :: l) = e !!! i * 256 ^ Z.of_nat (i / 2) + digit_sum l) as -> by done.
    assert (forall i l, digit_sum (i :: l) = e !!! i * 256 ^ Z.of_nat (i / 2) + digit_sum l) as -> by done.
    rewrite (list_lookup_total_correct _ _ _ Hx), (list_lookup_total_correct _ _ _ Hy).
    replace ((2 * s + 1) / 2)%nat with s by (apply (Nat.div_unique _ 2 s 1); lia).
    replace ((2 * s) / 2)%nat with s by (apply (Nat.div_unique _ 2 s 0); lia).
    rewrite Nat2Z.inj_succ, Z.pow_succ_r in IH by lia. nia.
Qed.

Lemma digit_sums :
  16 * digit_sum ((fun i => 2 * i + 1)%nat <$> seq 0 32) + digit_sum ((fun i => 2 * i)%nat <$> seq 0 32) = dval 16 e.
Proof. rewrite digit_sums_from by lia. change (256 ^ Z.of_nat 0) with 1. by rewrite Z.mul_1_l. Qed.

End Loops.

Lemma ge_scalarmult_base_spec a :
  bytes_ok a -> length a = 32%nat -> le_val a < 2 ^ 255 ->
  returns (ge_scalarmult_base base a) (fun h => rep_p3 h (pmul (le_val a) ed_B)).
Proof.
  intros Ha Hl Hv. unfold ge_scalarmult_base. rewrite Hl. cbn [Nat.ltb Nat.leb]. rewrite take_ge by lia.
  assert (forall x, last (nibbles a) = Some x -> x <= 7) as Hlast.
  { intros x Hx. apply last_Some in Hx as [l El]. pose proof (nibbles_val a Ha) as V.
    pose proof (nibbles_range a) as R. pose proof (length_nibbles a) as L. rewrite El in V, R, L.
    apply Forall_app in R as [R _]. rewrite length_app in L. cbn [length] in L. assert (length l = 63%nat) as L63 by lia.
    assert (forall k y, Forall (fun x => 0 <= x <= 15) k -> 0 <= dval 16 k /\ dval 16 (k ++ [y]) = dval 16 k + 16 ^ Z.of_nat (length k) * y)
      as Hd.
    { clear. intros k y. induction 1 as [|x k Hx Hk [IH1 IH2]]; [cbn; lia|]. cbn [dval app length]. rewrite IH2.
      rewrite Nat2Z.inj_succ, Z.pow_succ_r by lia. lia. }
    destruct (Hd l x R) as [D0 D1]. rewrite D1, L63 in V. change (16 ^ Z.of_nat 63) with (2 ^ 252) in V. lia. }
  assert (nibbles a <> []) as Hne by (intros E; pose proof (length_nibbles a) as L; rewrite E, Hl in L; done).
  destruct (recode_ok (nibbles a) 0 Hne (nibbles_range a) Hlast (or_introl eq_refl)) as (V & F & L).
  rewrite nibbles_val, Z.add_0_r in V by done. rewrite length_nibbles, Hl in L.
  set (e := recode (nibbles a) 0) in *. change (2 * 32)%nat with 64%nat in L.
  eapply returns_bind; [apply (base_loop_spec e F L _ _ pzero); [|apply ge_p3_0_rep]|].
  { apply Forall_forall. intros i (k & -> & Hk%elem_of_seq)%list_elem_of_fmap. lia. }
  intros h1 H1. rewrite padd_0_l in H1. set (o := digit_sum e _) in H1.
  eapply returns_bind; [exact (ge_p3_dbl_spec _ _ H1)|]. intros r1 R1.
  eapply returns_bind; [exact (ge_p1p1_to_p2_spec _ _ R1)|]. intros s1 S1.
  eapply returns_bind; [exact (ge_p2_dbl_spec _ _ S1)|]. intros r2 R2.
  eapply returns_bind; [exact (ge_p1p1_to_p2_spec _ _ R2)|]. intros s2 S2.
  eapply returns_bind; [exact (ge_p2_dbl_spec _ _ S2)|]. intros r3 R3.
  eapply returns_bind; [exact (ge_p1p1_to_p2_spec _ _ R3)|]. intros s3 S3.
  eapply returns_bind; [exact (ge_p2_dbl_spec _ _ S3)|]. intros r4 R4.
  eapply returns_bind; [exact (ge_p1p1_to_p3_spec _ _ R4)|]. intros h2 H2.
  rewrite <- !pmul_add in H2.
  eapply returns_mono; [eapply (base_loop_spec e F L _ h2); [|exact H2]|].
  { apply Forall_forall. intros i (k & -> & Hk%elem_of_seq)%list_elem_of_fmap. lia. }
  intros h3 H3. rewrite <- pmul_add in H3. rewrite <- V, <- (digit_sums e L). fold o.
  by replace (16 * o) with (o + o + (o + o) + (o + o + (o + o)) + (o + o + (o + o) + (o + o + (o + o)))) by ring.
Qed.

(** ** [ge_double_scalarmult_vartime]: the sliding windows of a scalar below 2^253 are odd digits
    between -15 and 15 with the same value, and the loop over the two digit strings gives
    [a] times the point plus [b] times the base point. *)

(** ** Reading and writing behind a prefix *)

Lemma at_app (pre l : list Z) b : (pre ++ l) !!! (length pre + b)%nat = l !!! b.
Proof. rewrite lookup_total_app_r by lia. f_equal. lia. Qed.

Lemma at_app_0 (pre l : list Z) : (pre ++ l) !!! length pre = l !!! 0%nat.
Proof. rewrite <- (at_app pre l 0). by rewrite Nat.add_0_r. Qed.

Lemma ins_app (pre l : list Z) b x : <[(length pre + b)%nat := x]> (pre ++ l) = pre ++ <[b := x]> l.
Proof. rewrite insert_app_r_alt by lia. do 2 f_equal. lia. Qed.

Lemma ins_app_0 (pre l : list Z) x : <[length pre := x]> (pre ++ l) = pre ++ <[0%nat := x]> l.
Proof. rewrite <- (ins_app pre l 0). by rewrite Nat.add_0_r. Qed.

Lemma dval_app b l k : dval b (l ++ k) = dval b l + b ^ zlen l * dval b k.
Proof.
  induction l as [|x l IH]; [cbn; unfold zlen; cbn [length]; change (b ^ Z.of_nat 0) with 1; lia|].
  cbn [dval app]. rewrite IH. unfold zlen. cbn [length]. rewrite Nat2Z.inj_succ, Z.pow_succ_r by lia. lia.
Qed.

(** ** The bits of the scalar *)

Definition bit (x : Z) : Prop := x = 0 \/ x = 1.

Lemma bits_range l : Forall bit l -> 0 <= dval 2 l < 2 ^ zlen l.
Proof.
  induction 1 as [|x l Hx Hl IH]; [change (0 <= 0 < 1); lia|]. unfold zlen in *. cbn [dval length].
  rewrite Nat2Z.inj_succ, Z.pow_succ_r by lia. destruct Hx as [-> | ->]; lia.
Qed.

Definition byte_bits (x : Z) : list Z := (fun j => Z.land 1 (Z.shiftr x (Z.of_nat j))) <$> seq 0 8.

Lemma byte_bits_ok x : 0 <= x < 256 -> dval 2 (byte_bits x) = x /\ Forall bit (byte_bits x).
Proof.
  intros Hx. assert (forallb (fun x => (dval 2 (byte_bits x) =? x) && forallb (fun y => (y =? 0) || (y =? 1)) (byte_bits x))
    (seqZ 0 256) = true) as H by (vm_compute; reflexivity).
  rewrite forallb_forall in H. specialize (H x). rewrite <- list_elem_of_In, elem_of_seqZ in H.
  specialize (H ltac:(lia)). apply andb_true_iff in H as [E H]. split; [by apply Z.eqb_eq|].
  rewrite Forall_forall. intros y Hy%list_elem_of_In. rewrite forallb_forall in H. specialize (H y Hy).
  unfold bit. ztests. apply orb_true_iff in H as [H|H]; apply Z.eqb_eq in H; tauto.
Qed.

Lemma slide_bits_byte (a : list Z) s x : a !! s = Some x ->
  ((fun i => Z.land 1 (Z.shiftr (a !!! (i / 8)%nat) (Z.of_nat (i mod 8)%nat))) <$> seq (8 * s) 8) = byte_bits x.
Proof.
  intros Hx. unfold byte_bits. replace (seq (8 * s) 8) with (Nat.add (8 * s) <$> seq 0 8) by (rewrite fmap_add_seq; f_equal; lia).
  rewrite <- list_fmap_compose. apply list_fmap_ext. intros k j Hj%lookup_seq. cbn [compose].
  assert ((8 * s + j) / 8 = s)%nat as -> by (symmetry; apply (Nat.div_unique _ 8 s j); lia).
  assert ((8 * s + j) mod 8 = j)%nat as -> by (symmetry; apply (Nat.mod_unique _ 8 s j); lia).
  by rewrite (list_lookup_total_correct _ _ _ Hx).
Qed.

Lemma slide_bits_from a n : forall s, bytes_ok a -> (s + n = length a)%nat ->
  let l := (fun i => Z.land 1 (Z.shiftr (a !!! (i / 8)%nat) (Z.of_nat (i mod 8)%nat))) <$> seq (8 * s) (8 * n) in
  dval 2 l = le_val (drop s a) /\ Forall bit l.
Proof.
  induction n as [|n IH]; intros s Ha Hs; cbn zeta.
  - rewrite drop_ge by lia. rewrite Nat.mul_0_r. cbn. done.
  - destruct (lookup_lt_is_Some_2 a s ltac:(lia)) as [x Hx]. rewrite (drop_S _ _ _ Hx).
    replace (8 * S n)%nat with (8 + 8 * n)%nat by lia. rewrite seq_app, fmap_app, (slide_bits_byte a s x Hx).
    replace (8 * s + 8)%nat with (8 * S s)%nat by lia.
    destruct (IH (S s) Ha ltac:(lia)) as [V F]. destruct (byte_bits_ok x) as [Vx Fx].
    { unfold bytes_ok in Ha. rewrite Forall_lookup in Ha. specialize (Ha _ _ Hx). cbn in Ha. lia. }
    rewrite dval_app, Vx, V, Forall_app. cbn [le_val]. split; [|done].
    unfold zlen, byte_bits. rewrite length_fmap, length_seq. change (2 ^ Z.of_nat 8) with 256. lia.
Qed.

Lemma slide_bits_ok a : bytes_ok a -> length a = 32%nat ->
  dval 2 (slide_bits a) = le_val a /\ Forall bit (slide_bits a) /\ length (slide_bits a) = 256%nat.
Proof.
  intros Ha Hl. destruct (slide_bits_from a 32 0 Ha (eq_sym Hl)) as [V F]. splits; [exact V|exact F|].
  unfold slide_bits. by rewrite length_fmap, length_seq.
Qed.

(** ** One window *)

(** The carry finds a zero when the bits are not all one. *)
Lemma slide_carry_ok bits : forall pre,
  Forall bit bits -> dval 2 bits + 1 < 2 ^ zlen bits ->
  exists bits', slide_carry (length bits) (length pre) (pre ++ bits) = pre ++ bits' /\
    Forall bit bits' /\ length bits' = length bits /\ dval 2 bits' = dval 2 bits + 1.
Proof.
  induction bits as [|x bits IH]; intros pre Hb Hv; [change (0 + 1 < 1) in Hv; lia|]. apply Forall_cons in Hb as [Hx Hb].
  cbn [slide_carry length]. rewrite at_app_0, !ins_app_0. cbn [lookup_total list_lookup_total].
  destruct Hx as [-> | ->]; cbn [Z.eqb].
  - exists (1 :: bits). splits; [done|by constructor; [right|]|done|cbn [dval]; lia].
  - unfold zlen in *. cbn [dval length] in *. rewrite Nat2Z.inj_succ, Z.pow_succ_r in Hv by lia.
    cbn [insert list_insert]. rewrite cons_middle, app_assoc.
    destruct (IH (pre ++ [0])) as (bits' & E & F & L & V); [done|lia|].
    rewrite length_app, Nat.add_1_r in E. rewrite E. exists (0 :: bits'). rewrite <- app_assoc.
    splits; [done|by constructor; [left|]|cbn [length]; lia|cbn [dval]; lia].
Qed.

(** Nothing changes where the digit already fills the window. *)
Lemma slide_b_stop n : forall b i r,
  5 <= Z.of_nat b -> -15 <= r !!! i <= 15 -> (forall k, bit (r !!! k) \/ (k <= i)%nat) -> slide_b n b i r = r.
Proof.
  induction n as [|n IH]; intros b i r Hb Hi Hr; [done|]. cbn [slide_b].
  destruct (256 <=? i + b)%nat; [done|]. destruct (Hr (i + b)%nat) as [[-> | ->]|Hk]; cbn [Z.eqb]; [| |lia].
  - apply IH; [lia|done|done].
  - rewrite Z.shiftl_1_l. pose proof (Z.pow_le_mono_r 2 5 (Z.of_nat b) ltac:(lia) ltac:(lia)) as H32.
    change (2 ^ 5) with 32 in H32. destruct (Z.leb_spec (r !!! i + 2 ^ Z.of_nat b) 15); [lia|].
    destruct (Z.leb_spec (-15) (r !!! i - 2 ^ Z.of_nat b)); [lia|done].
Qed.

(** Nothing changes where the higher bits are zero. *)
Lemma slide_b_zero n : forall b i r,
  (forall k, (i < k < 256)%nat -> r !!! k = 0) -> (0 < b)%nat -> slide_b n b i r = r.
Proof.
  induction n as [|n IH]; intros b i r Hr Hb; [done|]. cbn [slide_b].
  destruct (Nat.leb_spec 256 (i + b)); [done|]. rewrite Hr by lia. cbn [Z.eqb]. apply IH; [done|lia].
Qed.

(** A digit: zero, or odd and between -15 and 15. *)
Definition odd_digit (d : Z) : bool := (d =? 0) || Z.odd d && (-15 <=? d) && (d <=? 15).

Lemma odd_digit_range d : odd_digit d = true -> -15 <= d <= 15.
Proof.
  intros H. unfold odd_digit in H. apply orb_true_iff in H as [H|H]; [ztests; lia|]. rewrite !andb_true_iff in H. ztests. lia.
Qed.

Lemma slide_b_S n b pre l :
  (length pre + b < 256)%nat ->
  slide_b (S n) b (length pre) (pre ++ l) =
    let y := l !!! b in let d := l !!! 0%nat in let t := Z.shiftl y (Z.of_nat b) in
    if y =? 0 then slide_b n (S b) (length pre) (pre ++ l)
    else if d + t <=? 15 then slide_b n (S b) (length pre) (pre ++ <[b := 0]> (<[0%nat := s8 (d + t)]> l))
    else if -15 <=? d - t then
      slide_b n (S b) (length pre)
        (slide_carry (256 - (length pre + b)) (length pre + b) (pre ++ <[0%nat := s8 (d - t)]> l))
    else pre ++ l.
Proof.
  intros Hb. cbn [slide_b]. destruct (Nat.leb_spec 256 (length pre + b)); [lia|].
  by rewrite at_app, at_app_0, !ins_app_0, ins_app.
Qed.

(** The first three bits above the digit are always taken in. *)
Lemma slide_b_low pre x1 x2 x3 tl :
  bit x1 -> bit x2 -> bit x3 -> (length pre + 4 <= 256)%nat ->
  slide_b 6 1 (length pre) (pre ++ 1 :: x1 :: x2 :: x3 :: tl) =
  slide_b 3 4 (length pre) (pre ++ (1 + 2 * x1 + 4 * x2 + 8 * x3) :: 0 :: 0 :: 0 :: tl).
Proof.
  intros [-> | ->] [-> | ->] [-> | ->] Hl; do 3 (rewrite slide_b_S by lia; cbn -[slide_b]); reflexivity.
Qed.

Lemma odd_digit_low x1 x2 x3 : bit x1 -> bit x2 -> bit x3 ->
  odd_digit (1 + 2 * x1 + 4 * x2 + 8 * x3) = true /\ odd_digit (1 + 2 * x1 + 4 * x2 + 8 * x3 - 16) = true /\
  1 <= 1 + 2 * x1 + 4 * x2 + 8 * x3 <= 15.
Proof. by intros [-> | ->] [-> | ->] [-> | ->]. Qed.

Lemma at_behind pre d tl k : Forall bit tl -> bit ((pre ++ d :: tl) !!! k) \/ (k <= length pre)%nat.
Proof.
  intros Ht. destruct (Nat.le_gt_cases k (length pre)); [by right|left].
  replace k with (length pre + S (k - length pre - 1))%nat by lia. rewrite at_app.
  set (m := (k - length pre - 1)%nat). change ((d :: tl) !!! S m) with (tl !!! m). destruct (tl !! m) as [x|] eqn:E.
  - rewrite (list_lookup_total_correct _ _ _ E). rewrite Forall_lookup in Ht. by apply (Ht _ _ E).
  - rewrite list_lookup_total_alt, E. right; reflexivity.
Qed.

Lemma slide_b_end pre d tl : odd_digit d = true -> Forall bit tl ->
  slide_b 2 5 (length pre) (pre ++ d :: tl) = pre ++ d :: tl.
Proof.
  intros Hd Ht. apply slide_b_stop; [lia| |intros k; by apply at_behind].
  rewrite at_app_0. cbn [lookup_total list_lookup_total]. unfold odd_digit in Hd.
  apply orb_true_iff in Hd as [Hd|Hd]; [ztests; lia|]. rewrite !andb_true_iff in Hd. ztests. lia.
Qed.

Lemma slide_b_window pre x1 x2 x3 x4 tl :
  Forall bit (x1 :: x2 :: x3 :: x4 :: tl) -> (length pre + 5 + length tl = 256)%nat ->
  dval 2 (x4 :: tl) + 1 < 2 ^ zlen (x4 :: tl) ->
  exists d tl', slide_b 6 1 (length pre) (pre ++ 1 :: x1 :: x2 :: x3 :: x4 :: tl) = pre ++ d :: tl' /\
    odd_digit d = true /\ Forall bit tl' /\ length tl' = (4 + length tl)%nat /\
    dval 2 (1 :: x1 :: x2 :: x3 :: x4 :: tl) = d + 2 * dval 2 tl' /\ (0 <= d \/ dval 2 tl' = 16 * (dval 2 tl + 1)).
Proof.
  rewrite !Forall_cons. intros (H1 & H2 & H3 & H4 & Ht) Hl Hv.
  destruct (odd_digit_low _ _ _ H1 H2 H3) as (O1 & O2 & R).
  rewrite slide_b_low by (done || lia). set (d := 1 + 2 * x1 + 4 * x2 + 8 * x3) in *. rewrite slide_b_S by lia.
  cbn [lookup_total list_lookup_total insert list_insert]. cbn zeta. destruct H4 as [-> | ->]; cbn [Z.eqb].
  - exists d, (0 :: 0 :: 0 :: 0 :: tl). assert (Forall bit (0 :: 0 :: 0 :: 0 :: tl)) as F by (repeat (constructor; [by left|]); done).
    rewrite slide_b_end by done. splits; [done|done|done|done|cbn [dval]; unfold d; lia|left; lia].
  - change (Z.shiftl 1 (Z.of_nat 4)) with 16. destruct (Z.leb_spec (d + 16) 15); [lia|].
    destruct (Z.leb_spec (-15) (d - 16)); [|lia]. rewrite s8_byte by lia.
    destruct (slide_carry_ok (1 :: tl) (pre ++ [d - 16; 0; 0; 0])) as (b' & E & F & L & V);
      [constructor; [by right|done]|done|].
    rewrite length_app in E. cbn [length] in E, L. rewrite <- app_assoc in E. cbn [app] in E.
    replace (256 - (length pre + 4))%nat with (S (length tl)) by lia. rewrite E, <- app_assoc. cbn [app].
    exists (d - 16), (0 :: 0 :: 0 :: b'). assert (Forall bit (0 :: 0 :: 0 :: b')) as F'
      by (repeat (constructor; [by left|]); done).
    rewrite slide_b_end by done. splits; [done|done|done|cbn [length]; lia| |right]; cbn [dval] in *; unfold d; lia.
Qed.

(** ** All the windows *)

(** What remains above position [i] of a scalar below 2^253. *)
Definition rest_ok (i : nat) (bits : list Z) : Prop :=
  Forall bit bits /\ (i + length bits = 256)%nat /\ dval 2 bits <= 2 ^ (253 - Z.of_nat i).

Lemma bits_zero l : Forall bit l -> dval 2 l <= 0 -> forall k, (k < length l)%nat -> l !!! k = 0.
Proof.
  induction 1 as [|x l Hx Hl IH]; cbn [dval length]; [lia|]. intros Hv k Hk. pose proof (bits_range l Hl) as [H0 _].
  destruct k as [|k]; cbn [lookup_total list_lookup_total]; [destruct Hx; lia|]. apply IH; destruct Hx; lia.
Qed.

Lemma two_pow_neg i : (254 <= i)%nat -> 2 ^ (253 - Z.of_nat i) = 0.
Proof. intros H. by apply Z.pow_neg_r; lia. Qed.

Lemma two_pow_half i : (i <= 252)%nat -> 2 ^ (253 - Z.of_nat i) = 2 * 2 ^ (253 - Z.of_nat (S i)).
Proof. intros H. rewrite <- Z.pow_succ_r by lia. f_equal. lia. Qed.

(** Near the top the digit is the last one: the bits above it are zero. *)
Lemma slide_last pre tl : (252 <= length pre)%nat -> rest_ok (length pre) (1 :: tl) ->
  slide_b 6 1 (length pre) (pre ++ 1 :: tl) = pre ++ 1 :: tl /\ dval 2 tl = 0.
Proof.
  intros Hp (F & L & V). apply Forall_cons in F as [_ F]. pose proof (bits_range tl F) as [H0 _]. cbn [dval length] in *.
  assert (2 ^ (253 - Z.of_nat (length pre)) <= 2 ^ 1) as HV by (apply Z.pow_le_mono_r; lia).
  change (2 ^ 1) with 2 in HV. assert (dval 2 tl = 0) as E by lia. split; [|done].
  apply slide_b_zero; [|lia]. intros k Hk.
  replace k with (length pre + S (k - length pre - 1))%nat by lia. rewrite at_app.
  set (m := (k - length pre - 1)%nat). change ((1 :: tl) !!! S m) with (tl !!! m). apply bits_zero; [done|lia|lia].
Qed.

Lemma slide_odd pre tl : rest_ok (length pre) (1 :: tl) ->
  exists d tl', slide_b 6 1 (length pre) (pre ++ 1 :: tl) = pre ++ d :: tl' /\ odd_digit d = true /\
    rest_ok (S (length pre)) tl' /\ 1 + 2 * dval 2 tl = d + 2 * dval 2 tl'.
Proof.
  intros HR. destruct (Nat.le_gt_cases 252 (length pre)) as [Hp|Hp].
  { destruct (slide_last pre tl Hp HR) as [E V]. destruct HR as (F & L & _). apply Forall_cons in F as [_ F].
    exists 1, tl. cbn [length] in L. splits; [done|done| |done]. split; [done|]. split; [lia|]. rewrite V. by apply Z.pow_nonneg. }
  destruct HR as (F & L & V). cbn [length] in L.
  destruct tl as [|x1 [|x2 [|x3 [|x4 tl]]]]; cbn [length] in L; try lia. apply Forall_cons in F as [_ F].
  set (n := 253 - Z.of_nat (length pre)) in *. assert (2 ^ n <= 2 ^ (n + 2)) as Hn by (apply Z.pow_le_mono_r; lia).
  assert (2 ^ (n + 2) = 4 * 2 ^ n) as En by (rewrite Z.pow_add_r by lia; lia).
  assert (2 <= n) as Hn2 by lia.
  assert (2 ^ 2 <= 2 ^ n) as Hn4 by (apply Z.pow_le_mono_r; lia). change (2 ^ 2) with 4 in Hn4.
  assert (0 <= x1 /\ 0 <= x2 /\ 0 <= x3) as (? & ? & ?) by (rewrite !Forall_cons in F; unfold bit in F; lia).
  assert (zlen (x4 :: tl) = n - 1) as Ez by (unfold zlen; cbn [length]; lia).
  assert (2 ^ n = 2 * 2 ^ (n - 1)) as E1 by (rewrite <- Z.pow_succ_r by lia; f_equal; lia).
  destruct (slide_b_window pre x1 x2 x3 x4 tl F) as (d & tl' & E & O & F' & L' & V' & Hd); [lia| |].
  { rewrite Ez. cbn [dval] in *. lia. }
  exists d, tl'. splits; [done|done| |cbn [dval] in *; lia]. split; [done|]. split; [lia|].
  replace (253 - Z.of_nat (S (length pre))) with (n - 1) by lia. pose proof (odd_digit_range d O).
  change (dval 2 (1 :: x1 :: x2 :: x3 :: x4 :: tl) <= 2 ^ n) in V.
  destruct Hd as [Hd|Hd]; [lia|]. assert (Forall bit tl) as Ft by (rewrite !Forall_cons in F; tauto).
  pose proof (bits_range tl Ft) as [HT _].
  destruct (Z.le_gt_cases 5 n) as [H5|H5].
  - assert (2 ^ n = 32 * 2 ^ (n - 5)) as E5 by (change 32 with (2 ^ 5); rewrite <- Z.pow_add_r by lia; f_equal; lia). lia.
  - assert (2 ^ n <= 2 ^ 4) as E4 by (apply Z.pow_le_mono_r; lia). change (2 ^ 4) with 16 in E4. lia.
Qed.

Lemma slide_i_ok n : forall pre bits,
  length bits = n -> rest_ok (length pre) bits ->
  exists ds, slide_i (seq (length pre) n) (pre ++ bits) = pre ++ ds /\ length ds = n /\
    dval 2 ds = dval 2 bits /\ Forall (fun d => is_true (odd_digit d)) ds.
Proof.
  induction n as [|n IH]; intros pre bits Hn HR.
  { exists bits. destruct bits; [|discriminate Hn]. splits; [done|done|done|constructor]. }
  destruct bits as [|x tl]; [discriminate Hn|]. cbn [length] in Hn. injection Hn as Hn. cbn [seq slide_i].
  rewrite at_app_0. cbn [lookup_total list_lookup_total].
  assert (exists d tl', (if x =? 0 then pre ++ x :: tl else slide_b 6 1 (length pre) (pre ++ x :: tl)) = pre ++ d :: tl' /\
    odd_digit d = true /\ rest_ok (S (length pre)) tl' /\ x + 2 * dval 2 tl = d + 2 * dval 2 tl') as (d & tl' & E & O & R & V).
  { destruct HR as (F & L & V). pose proof F as [Hx F']%Forall_cons. destruct Hx as [-> | ->]; cbn [Z.eqb].
    - exists 0, tl. splits; [done|done| |done]. split; [done|]. cbn [length dval] in *. split; [lia|].
      destruct (Nat.le_gt_cases (length pre) 252) as [Hp|Hp]; [rewrite two_pow_half in V by done; lia|].
      assert (2 ^ (253 - Z.of_nat (length pre)) <= 2 ^ 0) as H1 by (apply Z.pow_le_mono_r; lia).
      pose proof (Z.pow_nonneg 2 (253 - Z.of_nat (S (length pre))) ltac:(lia)). change (2 ^ 0) with 1 in H1. lia.
    - by apply slide_odd. }
  rewrite E. assert (length tl' = n) as Hn' by (destruct HR as (_ & L & _), R as (_ & L' & _); cbn [length] in L; lia).
  destruct (IH (pre ++ [d]) tl' Hn') as (ds & E' & L' & V' & F').
  { rewrite length_app, Nat.add_1_r. exact R. }
  rewrite length_app, Nat.add_1_r, <- app_assoc in E'. cbn [app] in E'. rewrite E'. exists (d :: ds).
  rewrite <- app_assoc. splits; [done|cbn [length]; lia|cbn [dval]; lia|by constructor].
Qed.

Lemma slide_ok a : bytes_ok a -> length a = 32%nat -> le_val a < 2 ^ 253 ->
  dval 2 (slide a) = le_val a /\ length (slide a) = 256%nat /\ Forall (fun d => is_true (odd_digit d)) (slide a).
Proof.
  intros Ha Hl Hv. destruct (slide_bits_ok a Ha Hl) as (V & F & L).
  destruct (slide_i_ok 256 [] (slide_bits a) L) as (ds & E & L' & V' & F').
  { split; [done|]. cbn [length]. rewrite L. split; [done|]. rewrite V, Z.sub_0_r. lia. }
  unfold slide. change (slide_i (seq 0 256) (slide_bits a) = ds) in E. rewrite E. splits; [congruence|done|done].
Qed.

(** ** The loop over the digits *)

Lemma odd_multiples_spec A2 A n : forall last k,
  rep_p3 A2 (pmul 2 A) -> rep_cached last (pmul k A) ->
  returns (odd_multiples n A2 last)
    (fun l => length l = S n /\ forall j c, l !! j = Some c -> rep_cached c (pmul (k + 2 * Z.of_nat j) A)).
Proof.
  induction n as [|n IH]; intros last k H2 Hk.
  - split; [done|]. intros [|j] c Hc; [|done]. injection Hc as <-. by rewrite Z.add_0_r.
  - cbn [odd_multiples]. eapply returns_bind; [exact (ge_add_spec _ _ _ _ H2 Hk)|]. intros t Ht.
    eapply returns_bind; [exact (ge_p1p1_to_p3_spec _ _ Ht)|]. intros u Hu.
    eapply returns_bind; [exact (ge_p3_to_cached_spec _ _ Hu)|]. intros c Hc. cbn beta in Hc. rewrite <- pmul_add in Hc.
    eapply returns_bind; [exact (IH c (2 + k) H2 Hc)|]. intros l [Ll Hl]. split; [cbn [length]; lia|].
    intros [|j] c' Hc'; [injection Hc' as <-; by rewrite Z.add_0_r|]. cbn in Hc'.
    replace (k + 2 * Z.of_nat (S j)) with (2 + k + 2 * Z.of_nat j) by lia. by apply Hl.
Qed.

Lemma odd_index x : odd_digit x = true -> 0 < x -> (Z.to_nat (x / 2) < 8)%nat /\ 2 * Z.of_nat (Z.to_nat (x / 2)) + 1 = x.
Proof.
  intros H Hx. unfold odd_digit in H. apply orb_true_iff in H as [H|H]; [ztests; lia|].
  rewrite !andb_true_iff in H. destruct H as [[Ho ?] ?]. ztests. apply Zodd_bool_iff, Zodd_ex in Ho as [m ->].
  replace (2 * m + 1) with (1 + m * 2) by lia. rewrite Z.div_add by done. cbn [Z.div]. change (1 / 2) with 0. lia.
Qed.

Lemma odd_digit_opp x : odd_digit (- x) = odd_digit x.
Proof.
  unfold odd_digit. rewrite Z.odd_opp. apply eq_iff_eq_true.
  rewrite !orb_true_iff, !andb_true_iff, !Z.eqb_eq, !Z.leb_le. intuition lia.
Qed.

(** The value of digits from the top one down, after the value [v]. *)
Definition hval (v : Z) (l : list Z) : Z := foldl (fun v d => 2 * v + d) v l.

Lemma hval_reverse l : hval 0 (reverse l) = dval 2 l.
Proof.
  induction l as [|x l IH]; [done|]. rewrite reverse_cons. unfold hval in *. rewrite foldl_app. cbn [foldl dval]. rewrite IH. lia.
Qed.

Section DoubleLoop.
Context (A : epoint) (Ai : list ge_cached).
Hypothesis HAl : length Ai = 8%nat.
Hypothesis HAi : forall j c, Ai !! j = Some c -> rep_cached c (pmul (1 + 2 * Z.of_nat j) A).

Lemma add_digit_spec x t P : odd_digit x = true -> rep_p1p1 t P ->
  returns (add_digit Ai x t) (fun r => rep_p1p1 r (padd P (pmul x A))).
Proof.
  intros Hx Ht. unfold add_digit. destruct (Z.ltb_spec 0 x).
  - destruct (odd_index x Hx) as [Hj Ej]; [done|]. eapply returns_bind; [exact (ge_p1p1_to_p3_spec _ _ Ht)|].
    intros u Hu. destruct (lookup_lt_is_Some_2 Ai (Z.to_nat (x / 2)) ltac:(lia)) as [c Hc].
    rewrite (list_lookup_total_correct _ _ _ Hc). apply HAi in Hc. rewrite Z.add_comm, Ej in Hc.
    exact (ge_add_spec _ _ _ _ Hu Hc).
  - destruct (Z.ltb_spec x 0).
    + rewrite <- odd_digit_opp in Hx. destruct (odd_index (- x) Hx) as [Hj Ej]; [lia|].
      eapply returns_bind; [exact (ge_p1p1_to_p3_spec _ _ Ht)|]. intros u Hu.
      destruct (lookup_lt_is_Some_2 Ai (Z.to_nat (- x / 2)) ltac:(lia)) as [c Hc].
      rewrite (list_lookup_total_correct _ _ _ Hc). apply HAi in Hc. rewrite Z.add_comm, Ej in Hc.
      replace x with (- - x) by lia. rewrite (pmul_opp (- x)). exact (ge_sub_spec _ _ _ _ Hu Hc).
    + replace x with 0 by lia. rewrite pmul_0, padd_0_r. exact Ht.
Qed.

Lemma madd_digit_spec x t P : odd_digit x = true -> rep_p1p1 t P ->
  returns (madd_digit Bi x t) (fun r => rep_p1p1 r (padd P (pmul x ed_B))).
Proof.
  intros Hx Ht. unfold madd_digit. assert (length Bi = 8%nat) as HBl by reflexivity. destruct (Z.ltb_spec 0 x).
  - destruct (odd_index x Hx) as [Hj Ej]; [done|]. eapply returns_bind; [exact (ge_p1p1_to_p3_spec _ _ Ht)|].
    intros u Hu. destruct (lookup_lt_is_Some_2 Bi (Z.to_nat (x / 2)) ltac:(lia)) as [c Hc].
    rewrite (list_lookup_total_correct _ _ _ Hc). apply Bi_table in Hc. rewrite Ej in Hc.
    exact (ge_madd_spec _ _ _ _ Hu Hc).
  - destruct (Z.ltb_spec x 0).
    + rewrite <- odd_digit_opp in Hx. destruct (odd_index (- x) Hx) as [Hj Ej]; [lia|].
      eapply returns_bind; [exact (ge_p1p1_to_p3_spec _ _ Ht)|]. intros u Hu.
      destruct (lookup_lt_is_Some_2 Bi (Z.to_nat (- x / 2)) ltac:(lia)) as [c Hc].
      rewrite (list_lookup_total_correct _ _ _ Hc). apply Bi_table in Hc. rewrite Ej in Hc.
      replace x with (- - x) by lia. rewrite (pmul_opp (- x)). exact (ge_msub_spec _ _ _ _ Hu Hc).
    + replace x with 0 by lia. rewrite pmul_0, padd_0_r. exact Ht.
Qed.

Lemma double_loop_spec ds : forall r u v,
  Forall (fun d => is_true (odd_digit d.1) /\ is_true (odd_digit d.2)) ds ->
  rep_p2 r (padd (pmul u A) (pmul v ed_B)) ->
  returns (double_loop Ai Bi ds r)
    (fun r' => rep_p2 r' (padd (pmul (hval u ds.*1) A) (pmul (hval v ds.*2) ed_B))).
Proof.
  induction ds as [|[x y] ds IH]; intros r u v Hd Hr; [exact Hr|]. apply Forall_cons in Hd as [[Hx Hy] Hd].
  cbn [double_loop]. eapply returns_bind; [exact (ge_p2_dbl_spec _ _ Hr)|]. intros t Ht.
  eapply returns_bind; [exact (add_digit_spec x _ _ Hx Ht)|]. intros t1 Ht1.
  eapply returns_bind; [exact (madd_digit_spec y _ _ Hy Ht1)|]. intros t2 Ht2.
  eapply returns_bind; [exact (ge_p1p1_to_p2_spec _ _ Ht2)|]. intros r' Hr'.
  apply (IH r' (2 * u + x) (2 * v + y) Hd). cbn beta in Hr'.
  assert (padd (padd (padd (padd (pmul u A) (pmul v ed_B)) (padd (pmul u A) (pmul v ed_B))) (pmul x A)) (pmul y ed_B) =
    padd (pmul (2 * u + x) A) (pmul (2 * v + y) ed_B)) as <-; [|exact Hr'].
  replace (2 * u + x) with (u + u + x) by lia. replace (2 * v + y) with (v + v + y) by lia. rewrite !pmul_add.
  generalize (pmul u A), (pmul v ed_B), (pmul x A), (pmul y ed_B). intros a b c d.
  rewrite !padd_assoc. f_equal. rewrite !(padd_comm b). rewrite !padd_assoc.
  reflexivity.
Qed.

End DoubleLoop.

Lemma skip_zeros_val ds :
  hval 0 (skip_zeros ds).*1 = hval 0 ds.*1 /\ hval 0 (skip_zeros ds).*2 = hval 0 ds.*2.
Proof.
  induction ds as [|[x y] ds IH]; [done|]. cbn [skip_zeros].
  destruct (Z.eqb_spec x 0) as [->|]; [|done]. destruct (Z.eqb_spec y 0) as [->|]; [exact IH|done].
Qed.

Lemma skip_zeros_Forall P ds : Forall P ds -> Forall P (skip_zeros ds).
Proof.
  induction 1 as [|[x y] ds Hx Hd IH]; [constructor|]. cbn [skip_zeros].
  destruct ((x =? 0) && (y =? 0)); [done|by constructor].
Qed.

Lemma ge_double_scalarmult_spec a h A b :
  bytes_ok a -> length a = 32%nat -> le_val a < 2 ^ 253 ->
  bytes_ok b -> length b = 32%nat -> le_val b < 2 ^ 253 -> rep_p3 h A ->
  returns (ge_double_scalarmult_vartime Bi a h b)
    (fun r => rep_p2 r (padd (pmul (le_val a) A) (pmul (le_val b) ed_B))).
Proof.
  intros Ha La Va Hb Lb Vb Hh. unfold ge_double_scalarmult_vartime. rewrite La, Lb. cbn [Nat.ltb Nat.leb orb]. cbn zeta.
  destruct (slide_ok a Ha La Va) as (Da & Na & Fa). destruct (slide_ok b Hb Lb Vb) as (Db & Nb & Fb).
  eapply returns_bind; [exact (ge_p3_to_cached_spec _ _ Hh)|]. intros A0 H0. cbn beta in H0.
  eapply returns_bind; [exact (ge_p3_dbl_spec _ _ Hh)|]. intros t Ht.
  eapply returns_bind; [exact (ge_p1p1_to_p3_spec _ _ Ht)|]. intros A2 H2.
  eapply returns_bind; [exact (odd_multiples_spec A2 A 7 A0 1 H2 H0)|]. intros Ai [Ll Hl].
  set (ds := reverse (zip (slide a) (slide b))).
  destruct (skip_zeros_val ds) as [E1 E2].
  assert (ds.*1 = reverse (slide a)) as D1 by (unfold ds; rewrite fmap_reverse; f_equal; apply fst_zip; lia).
  assert (ds.*2 = reverse (slide b)) as D2 by (unfold ds; rewrite fmap_reverse; f_equal; apply snd_zip; lia).
  pose proof (double_loop_spec A Ai Ll Hl (skip_zeros ds) ge_p2_0 0 0) as D. rewrite E1, E2, D1, D2, !hval_reverse, Da, Db in D. apply D.
  - apply skip_zeros_Forall. unfold ds. apply Forall_reverse. apply Forall_forall. intros [x y] Hxy.
    rewrite Forall_forall in Fa, Fb. split; [apply Fa; by apply elem_of_zip_l in Hxy|apply Fb; by apply elem_of_zip_r in Hxy].
  - rewrite !pmul_0, padd_0_r. apply ge_p2_0_rep.
Qed.
