(* ===== verification/Ed25519Code.v ===== *)
(** The operations of ed25519.h over the curve arithmetic: keypair.c, sign.c, verify.c,
    add_scalar.c and key_exchange.c.

    A buffer is a list of bytes and an access outside it stops; [hash] is the uninitialised
    [sha512_context] on the stack. The return values of the SHA-512 functions are ignored,
    as the code does: a digest that was not written is then read uninitialised. *)
From S2P Require Import Prelude Bytes Sha512 Limbs Fe Sc Ge GePrecomp.

(** [sha512_final] as its callers here use it. *)
Definition final_digest (md : sha512_context) : outcome (list Z) :=
  let* (_, o) := sha512_final md in
  match o with Some d => Done d | None => Stop Uninitialised end.

(** [private_key[0] &= 248; private_key[31] &= 63; private_key[31] |= 64]. *)
Definition clamp (e : list Z) : outcome (list Z) :=
  if (length e <? 32)%nat then Stop OutOfBounds else
  let e := <[0%nat := Z.land (e !!! 0%nat) 248]> e in
  let e := <[31%nat := Z.land (e !!! 31%nat) 63]> e in
  Done (<[31%nat := Z.lor (e !!! 31%nat) 64]> e).

Definition ed25519_create_keypair (hash : sha512_context) (seed : list Z) : outcome (list Z * list Z) :=
  let* seed := mem_read seed 0 32 in
  let* (_, o) := sha512 hash seed in
  let* private_key := match o with Some d => Done d | None => Stop Uninitialised end in
  let* private_key := clamp private_key in
  let* A := ge_scalarmult_base base private_key in
  let* public_key := ge_p3_tobytes A in
  Done (public_key, private_key).

(** Returns the 64 bytes of [signature]. *)
Definition ed25519_sign (hash : sha512_context) (message public_key private_key : list Z) : outcome (list Z) :=
  let md := sha512_init hash in
  let* prefix := mem_read private_key 32 32 in
  let* (_, md) := sha512_update md prefix in
  let* (_, md) := sha512_update md message in
  let* r := final_digest md in
  let* r := sc_reduce r in
  let* R := ge_scalarmult_base base r in
  let* signature := ge_p3_tobytes R in
  let md := sha512_init md in
  let* (_, md) := sha512_update md signature in
  let* pk := mem_read public_key 0 32 in
  let* (_, md) := sha512_update md pk in
  let* (_, md) := sha512_update md message in
  let* hram := final_digest md in
  let* hram := sc_reduce hram in
  let* a := mem_read private_key 0 32 in
  let* s := sc_muladd (take 32 hram) a (take 32 r) in
  Done (signature ++ s).

Definition consttime_equal (x y : list Z) : bool :=
  let r := foldl (fun r i => u8 (Z.lor r (Z.lxor (x !!! i) (y !!! i)))) (Z.lxor (x !!! 0%nat) (y !!! 0%nat)) (seq 1 31) in
  r =? 0.

Definition ed25519_verify (hash : sha512_context) (signature message public_key : list Z) : outcome bool :=
  let* top := mem_read signature 63 1 in
  if negb (Z.land (top !!! 0%nat) 224 =? 0) then Done false
  else
    let* pk := mem_read public_key 0 32 in
    let* o := ge_frombytes_negate_vartime pk in
    match o with
    | None => Done false
    | Some A =>
        let md := sha512_init hash in
        let* sigR := mem_read signature 0 32 in
        let* (_, md) := sha512_update md sigR in
        let* (_, md) := sha512_update md pk in
        let* (_, md) := sha512_update md message in
        let* h := final_digest md in
        let* h := sc_reduce h in
        let* sigS := mem_read signature 32 32 in
        let* R := ge_double_scalarmult_vartime Bi h A sigS in
        let* checker := ge_tobytes R in
        if negb (consttime_equal checker sigR) then Done false else Done true
    end.

(** [const unsigned char SC_1[32] = {1}]. *)
Definition SC_1 : list Z := 1 :: replicate 31 0.

(** The scalar with its highest bit cleared. *)
Definition scalar_n (scalar : list Z) : outcome (list Z) :=
  if (length scalar <? 32)%nat then Stop OutOfBounds else
  Done (take 31 scalar ++ [Z.land (scalar !!! 31%nat) 127]).

(** [ge_frombytes_negate_vartime] with the negation undone; its failure is not checked, and
    [public_key_unpacked.T] is uninitialised then. *)
Definition unpack_public (public_key : list Z) : outcome ge_cached :=
  let* o := ge_frombytes_negate_vartime public_key in
  match o with
  | None => Stop Uninitialised
  | Some P =>
      let* X := fe_neg (p3_X P) in
      let* T := fe_neg (p3_T P) in
      ge_p3_to_cached (P3 X (p3_Y P) (p3_Z P) T)
  end.

(** [None] is a null pointer. *)
Definition ed25519_add_scalar (public_key private_key : option (list Z)) (scalar : list Z)
    : outcome (option (list Z) * option (list Z)) :=
  let* n := scalar_n scalar in
  let* private_key :=
    match private_key with
    | None => Done None
    | Some k =>
        let* a := mem_read k 0 32 in
        let* s := sc_muladd SC_1 n a in
        let* k := mem_write k 0 s in
        Done (Some k)
    end in
  match public_key with
  | None => Done (None, private_key)
  | Some p =>
      let* A :=
        match private_key with
        | Some k => ge_scalarmult_base base k
        | None =>
            let* pk := mem_read p 0 32 in
            let* T := unpack_public pk in
            let* nB := ge_scalarmult_base base n in
            let* A_p1p1 := ge_add nB T in
            ge_p1p1_to_p3 A_p1p1
        end in
      let* s := ge_p3_tobytes A in
      let* p := mem_write p 0 s in
      Done (Some p, private_key)
  end.

(** ** Key exchange *)

(** [x2], [z2], [x3] and [z3]. *)
Record ladder := Ladder { x2 : fe; z2 : fe; x3 : fe; z3 : fe }.

Definition ladder_swap (s : ladder) (swap : Z) : outcome ladder :=
  let* (x2, x3) := fe_cswap (x2 s) (x3 s) swap in
  let* (z2, z3) := fe_cswap (z2 s) (z3 s) swap in
  Done (Ladder x2 z2 x3 z3).

(** The body of the loop after the swaps. *)
Definition ladder_step (x1 : fe) (s : ladder) : outcome ladder :=
  let '(Ladder x2 z2 x3 z3) := s in
  let* tmp0 := fe_sub x3 z3 in
  let* tmp1 := fe_sub x2 z2 in
  let* x2 := fe_add x2 z2 in
  let* z2 := fe_add x3 z3 in
  let* z3 := fe_mul tmp0 x2 in
  let* z2 := fe_mul z2 tmp1 in
  let* tmp0 := fe_sq tmp1 in
  let* tmp1 := fe_sq x2 in
  let* x3 := fe_add z3 z2 in
  let* z2 := fe_sub z3 z2 in
  let* x2 := fe_mul tmp1 tmp0 in
  let* tmp1 := fe_sub tmp1 tmp0 in
  let* z2 := fe_sq z2 in
  let* z3 := fe_mul121666 tmp1 in
  let* x3 := fe_sq x3 in
  let* tmp0 := fe_add tmp0 z3 in
  let* z3 := fe_mul x1 z2 in
  let* z2 := fe_mul tmp1 tmp0 in
  Done (Ladder x2 z2 x3 z3).

(** [for (pos = 254; pos >= 0; --pos)], [pos = n - 1] first; the state and [swap]. *)
Fixpoint ladder_loop (n : nat) (x1 : fe) (e : list Z) (s : ladder) (swap : Z) : outcome (ladder * Z) :=
  match n with
  | O => Done (s, swap)
  | S pos =>
      let b := Z.land (Z.shiftr (e !!! (pos / 8)%nat) (Z.of_nat (pos mod 8)%nat)) 1 in
      let swap := Z.lxor swap b in
      let* s := ladder_swap s swap in
      let swap := b in
      let* s := ladder_step x1 s in
      ladder_loop pos x1 e s swap
  end.

(** [montgomeryX = (edwardsY + 1) * inverse(1 - edwardsY) mod p]. *)
Definition montgomery_x (public_key : list Z) : outcome fe :=
  let* x1 := fe_frombytes public_key in
  let tmp1 := fe_1 in
  let* tmp0 := fe_add x1 tmp1 in
  let* tmp1 := fe_sub tmp1 x1 in
  let* tmp1 := fe_invert tmp1 in
  fe_mul tmp0 tmp1.

Definition ed25519_key_exchange (public_key private_key : list Z) : outcome (list Z) :=
  let* e := mem_read private_key 0 32 in
  let* e := clamp e in
  let* x1 := montgomery_x public_key in
  let* x3 := fe_copy x1 in
  let* (s, swap) := ladder_loop 255 x1 e (Ladder fe_1 fe_0 x3 fe_1) 0 in
  let* s := ladder_swap s swap in
  let* z2 := fe_invert (z2 s) in
  let* x2 := fe_mul (x2 s) z2 in
  fe_tobytes x2.
