(* ===== verification/EdSign.v ===== *)
(** Key pairs, signatures and scalars added to keys: what ed25519_create_keypair,
    ed25519_sign, ed25519_verify and ed25519_add_scalar compute in terms of the group of
    the curve, the integers modulo its order and SHA-512. *)
From S2P Require Import Prelude Bytes Sha512 Limbs Fe FeArith Prime25519 Edwards Sc Ge GePrecomp GeArith GeTables GeMult Ed25519Code.

(** ** Bytes *)

Lemma bytes_forallb (f : Z -> bool) x : forallb f (seqZ 0 256) = true -> 0 <= x < 256 -> f x = true.
Proof. intros H Hx. rewrite forallb_forall in H. apply H. rewrite <- list_elem_of_In, elem_of_seqZ. lia. Qed.

Lemma bytes_ok_app l k : bytes_ok (l ++ k) <-> bytes_ok l /\ bytes_ok k.
Proof. apply Forall_app. Qed.

Lemma le_bytes_32 x : bytes_ok (le_bytes 32 x) /\ length (le_bytes 32 x) = 32%nat.
Proof. split; [apply le_bytes_ok|apply length_le_bytes]. Qed.

Lemma mem_read_front l k : length l = 32%nat -> mem_read (l ++ k) 0 32 = Done l.
Proof.
  intros Hl. rewrite mem_read_ok; [|lia|lia|unfold zlen; rewrite length_app; lia].
  change (Z.to_nat 32) with 32%nat. change (Z.to_nat 0) with 0%nat. by rewrite drop_0, take_app_exact.
Qed.

Lemma mem_read_back l k : length l = 32%nat -> length k = 32%nat -> mem_read (l ++ k) 32 32 = Done k.
Proof.
  intros Hl Hk. rewrite mem_read_ok; [|lia|lia|unfold zlen; rewrite length_app; lia].
  change (Z.to_nat 32) with 32%nat. rewrite drop_app_exact by done. by rewrite take_ge by lia.
Qed.

Lemma split_64 (l : list Z) : length l = 64%nat ->
  exists a b, l = a ++ b /\ length a = 32%nat /\ length b = 32%nat.
Proof. intros H. exists (take 32 l), (drop 32 l). by rewrite take_drop, length_take, length_drop, H. Qed.

(** ** Only the first 32 bytes of a scalar are read *)

Lemma scalarmult_base_take a : (32 <= length a)%nat -> ge_scalarmult_base base a = ge_scalarmult_base base (take 32 a).
Proof.
  intros H. unfold ge_scalarmult_base. rewrite length_take, Nat.min_l by done.
  destruct (Nat.ltb_spec (length a) 32); [lia|]. cbn [Nat.ltb Nat.leb]. by rewrite take_take.
Qed.

Lemma slide_take a : slide a = slide (take 32 a).
Proof.
  unfold slide, slide_bits. f_equal. apply list_fmap_ext. intros i j (Hj & Hi)%lookup_seq.
  rewrite lookup_total_take_lt by (apply Nat.Div0.div_lt_upper_bound; lia). done.
Qed.

Lemma double_scalarmult_take a A b :
  (32 <= length a)%nat -> ge_double_scalarmult_vartime Bi a A b = ge_double_scalarmult_vartime Bi (take 32 a) A b.
Proof.
  intros H. unfold ge_double_scalarmult_vartime. rewrite length_take, Nat.min_l by done.
  destruct (Nat.ltb_spec (length a) 32); [lia|]. cbn [Nat.ltb Nat.leb]. by rewrite (slide_take a).
Qed.

(** ** The order of the base point *)

Lemma sc_l_pos : 0 < sc_l.
Proof. reflexivity. Qed.

Lemma sc_l_253 : sc_l < 2 ^ 253.
Proof. reflexivity. Qed.

Lemma pmul_mod x : pmul (x mod sc_l) ed_B = pmul x ed_B.
Proof.
  rewrite (Z.div_mod x sc_l) at 2 by (pose proof sc_l_pos; lia).
  rewrite Z.mul_comm, pmul_add, pmul_mul, base_order, pmul_point_0. by rewrite padd_0_l.
Qed.

Lemma reduced_scalar s : bytes_ok s -> length s = 64%nat ->
  exists t, sc_reduce s = Done t /\ (32 <= length t)%nat /\ take 32 t = le_bytes 32 (le_val s mod sc_l) /\
    le_val (take 32 t) = le_val s mod sc_l.
Proof.
  intros Hs Hl. rewrite sc_reduce_spec by done. eexists. split; [reflexivity|].
  rewrite take_app_exact by (by rewrite length_le_bytes). rewrite length_app, length_le_bytes. splits; [lia|done|].
  apply le_val_bytes. pose proof (Z.mod_pos_bound (le_val s) sc_l sc_l_pos).
  pose proof sc_l_253. assert (2 ^ 253 < 256 ^ Z.of_nat 32) by reflexivity. lia.
Qed.

(** The multiple of the base point by a scalar of 32 bytes or more. *)
Lemma base_multiple a : bytes_ok (take 32 a) -> (32 <= length a)%nat -> le_val (take 32 a) < 2 ^ 255 ->
  exists h, ge_scalarmult_base base a = Done h /\ ge_p3_tobytes h = Done (encode (pmul (le_val (take 32 a)) ed_B)) /\
    rep_p3 h (pmul (le_val (take 32 a)) ed_B).
Proof.
  intros Ha Hl Hv. rewrite scalarmult_base_take by done.
  pose proof (ge_scalarmult_base_spec (take 32 a) Ha ltac:(rewrite length_take; lia) Hv) as H.
  apply returns_done in H as (h & -> & Hh). exists h. splits; [done|by apply ge_p3_tobytes_spec|done].
Qed.

(** ** Digests *)

Lemma final_digest_ok md m : holds md m -> 8 * zlen m < 2 ^ 64 -> final_digest md = Done (sha512_ref m).
Proof. intros H Hm. unfold final_digest. by rewrite (final_ok md m H Hm). Qed.

Lemma holds_room md m : holds md m -> length (buf md) = 128%nat.
Proof. by intros (n & p & q & -> & []). Qed.

(** [sha512_init] and three calls of [sha512_update]. *)
Lemma hash_three ctx a b c : length (buf ctx) = 128%nat ->
  exists m1 m2 m3, sha512_update (sha512_init ctx) a = Done (0, m1) /\ sha512_update m1 b = Done (0, m2) /\
    sha512_update m2 c = Done (0, m3) /\ holds m2 (a ++ b) /\ holds m3 (a ++ b ++ c) /\ length (buf m2) = 128%nat.
Proof.
  intros H. destruct (update_ok _ [] a (init_holds ctx H)) as (m1 & E1 & H1).
  destruct (update_ok _ _ b H1) as (m2 & E2 & H2). destruct (update_ok _ _ c H2) as (m3 & E3 & H3).
  exists m1, m2, m3. cbn [app] in *. rewrite <- app_assoc in H3. splits; try done. by eapply holds_room.
Qed.

(** ** Clamping *)

Lemma clamp_bytes x y : 0 <= x < 256 -> 0 <= y < 256 ->
  Z.land x 248 = 8 * (x / 8) /\ Z.lor (Z.land y 63) 64 = y mod 64 + 64.
Proof.
  intros Hx Hy. split.
  - apply Z.eqb_eq. apply (bytes_forallb (fun x => Z.land x 248 =? 8 * (x / 8))); [vm_compute; reflexivity|done].
  - apply Z.eqb_eq. apply (bytes_forallb (fun y => Z.lor (Z.land y 63) 64 =? y mod 64 + 64)); [vm_compute; reflexivity|done].
Qed.

Definition clamped (x : Z) (mid : list Z) (y : Z) : list Z := 8 * (x / 8) :: mid ++ [y mod 64 + 64].

Lemma clamp_app x mid y rest :
  0 <= x < 256 -> 0 <= y < 256 -> length mid = 30%nat ->
  clamp ((x :: mid ++ [y]) ++ rest) = Done (clamped x mid y ++ rest).
Proof.
  intros Hx Hy Hm. destruct (clamp_bytes x y Hx Hy) as [Ex Ey]. unfold clamp, clamped.
  destruct (Nat.ltb_spec (length ((x :: mid ++ [y]) ++ rest)) 32) as [H|_].
  { cbn [app length] in H. rewrite !length_app in H. cbn [length] in H. lia. }
  assert (forall u z, (u :: mid ++ [z]) ++ rest = u :: mid ++ z :: rest) as E by (intros; cbn [app]; by rewrite <- app_assoc).
  assert (forall u z, (u :: mid ++ z :: rest) !!! 31%nat = z) as E1.
  { intros u z. change ((u :: mid ++ z :: rest) !!! 31%nat) with ((mid ++ z :: rest) !!! 30%nat).
    rewrite lookup_total_app_r by lia. by rewrite Hm. }
  assert (forall u z w, <[31%nat := w]> (u :: mid ++ z :: rest) = u :: mid ++ w :: rest) as E2.
  { intros u z w. change (<[31%nat := w]> (u :: mid ++ z :: rest)) with (u :: <[30%nat := w]> (mid ++ z :: rest)).
    rewrite insert_app_r_alt by lia. by rewrite Hm. }
  rewrite E. change ((x :: mid ++ y :: rest) !!! 0%nat) with x.
  change (<[0%nat := Z.land x 248]> (x :: mid ++ y :: rest)) with (Z.land x 248 :: mid ++ y :: rest).
  rewrite !E1, !E2, E1, Ex, Ey. f_equal. unfold clamped. by rewrite E.
Qed.

(** Every 32 bytes or more have a first byte, a last one and thirty between them. *)
Lemma split_32 (l : list Z) : (32 <= length l)%nat -> bytes_ok l ->
  exists x mid y rest, l = (x :: mid ++ [y]) ++ rest /\ 0 <= x < 256 /\ 0 <= y < 256 /\ length mid = 30%nat /\ bytes_ok mid.
Proof.
  intros Hl Hb. destruct l as [|x l]; [cbn in Hl; lia|]. cbn [length] in Hl.
  assert (length (take 30 l) = 30%nat) as H30 by (rewrite length_take; lia).
  destruct (drop 30 l) as [|y rest] eqn:E; [apply (f_equal length) in E; rewrite length_drop in E; cbn in E; lia|].
  exists x, (take 30 l), y, rest. rewrite <- (take_drop 30 l), E in Hb.
  apply Forall_cons in Hb as [Hx Hb]. apply Forall_app in Hb as [Hm Hb]. apply Forall_cons in Hb as [Hy _].
  splits; try lia; try done. cbn [app]. rewrite <- app_assoc. cbn [app]. by rewrite <- E, take_drop.
Qed.

Lemma clamped_ok x mid y : 0 <= x < 256 -> 0 <= y < 256 -> length mid = 30%nat -> bytes_ok mid ->
  bytes_ok (clamped x mid y) /\ length (clamped x mid y) = 32%nat /\
  (exists q, le_val (clamped x mid y) = 8 * q) /\ 2 ^ 254 <= le_val (clamped x mid y) < 2 ^ 255.
Proof.
  intros Hx Hy Hm Hb. pose proof (Z.mod_pos_bound y 64 ltac:(lia)). pose proof (Z.div_mod x 8 ltac:(lia)).
  pose proof (Z.mod_pos_bound x 8 ltac:(lia)). pose proof (le_val_range mid Hb) as R.
  unfold zlen in R. rewrite Hm in R.
  assert (le_val (clamped x mid y) = 8 * (x / 8) + 256 * le_val mid + 2 ^ 248 * (y mod 64 + 64)) as V.
  { unfold clamped. cbn [le_val]. rewrite le_val_app. unfold zlen. rewrite Hm. cbn [le_val].
    change (256 ^ Z.of_nat 30) with (2 ^ 240). change (2 ^ 248) with (256 * 2 ^ 240). ring. }
  splits.
  - unfold clamped. constructor; [lia|]. apply Forall_app. split; [done|]. constructor; [lia|done].
  - unfold clamped. cbn [length]. rewrite length_app. cbn [length]. lia.
  - exists (x / 8 + 32 * le_val mid + 2 ^ 245 * (y mod 64 + 64)). rewrite V. change (2 ^ 248) with (8 * 2 ^ 245). ring.
  - rewrite V. change (256 ^ Z.of_nat 30) with (2 ^ 240) in R. change (2 ^ 254) with (2 ^ 248 * 64).
    assert (256 * le_val mid + 256 <= 256 * 2 ^ 240) by lia. change (256 * 2 ^ 240) with (2 ^ 248) in *. lia.
  - rewrite V. change (256 ^ Z.of_nat 30) with (2 ^ 240) in R. change (2 ^ 255) with (2 ^ 248 * 128).
    assert (256 * le_val mid + 256 <= 256 * 2 ^ 240) by lia. change (256 * 2 ^ 240) with (2 ^ 248) in *. lia.
Qed.

(** A clamped scalar: a multiple of 8 between 2^254 and 2^255. *)
Definition is_clamped (e : list Z) : Prop :=
  bytes_ok e /\ length e = 32%nat /\ (exists q, le_val e = 8 * q) /\ 2 ^ 254 <= le_val e < 2 ^ 255 /\ clamp e = Done e.

Lemma clamp_ok e : bytes_ok e -> (32 <= length e)%nat ->
  exists e', clamp e = Done (e' ++ drop 32 e) /\ is_clamped e'.
Proof.
  intros Hb Hl. destruct (split_32 e Hl Hb) as (x & mid & y & rest & -> & Hx & Hy & Hm & Hmid).
  exists (clamped x mid y). rewrite clamp_app by done.
  rewrite drop_app_exact by (cbn [length]; rewrite length_app; cbn [length]; lia).
  destruct (clamped_ok x mid y Hx Hy Hm Hmid) as (H1 & H2 & H3 & H4 & H5). split; [done|]. unfold is_clamped. splits; try done.
  pose proof (Z.mod_pos_bound y 64 ltac:(lia)). pose proof (Z.div_mod x 8 ltac:(lia)). pose proof (Z.mod_pos_bound x 8 ltac:(lia)).
  assert (0 <= x / 8) by (apply Z.div_pos; lia).
  pose proof (clamp_app (8 * (x / 8)) mid (y mod 64 + 64) [] ltac:(lia) ltac:(lia) Hm) as E. rewrite !app_nil_r in E.
  etransitivity; [exact E|]. f_equal. unfold clamped. f_equal; [rewrite (Z.mul_comm 8 (x / 8)), Z.div_mul by done; lia|].
  do 2 f_equal. rewrite Z.add_mod, Z.mod_mod, Z.mod_same, Z.add_0_r, Z.mod_mod by done. done.
Qed.

(** ** Key pairs *)

(** The two halves of a key pair made from [seed], and the scalar of its private key. *)
Definition is_key_pair (pk sk : list Z) (a : Z) : Prop :=
  length sk = 64%nat /\ bytes_ok sk /\ is_clamped (take 32 sk) /\ a = le_val (take 32 sk) /\ pk = encode (pmul a ed_B).

(** The same without the clamping, which signing does not need. *)
Definition is_sign_pair (pk sk : list Z) (a : Z) : Prop :=
  length sk = 64%nat /\ bytes_ok sk /\ a = le_val (take 32 sk) /\ pk = encode (pmul a ed_B).

Lemma key_pair_signs pk sk a : is_key_pair pk sk a -> is_sign_pair pk sk a.
Proof. intros (H1 & H2 & _ & H3 & H4). unfold is_sign_pair. tauto. Qed.

Lemma create_keypair_ok hash seed :
  length (buf hash) = 128%nat -> length seed = 32%nat -> bytes_ok seed ->
  exists pk sk a, ed25519_create_keypair hash seed = Done (pk, sk) /\ is_key_pair pk sk a /\
    clamp (sha512_ref seed) = Done sk.
Proof.
  intros Hh Hl Hb. unfold ed25519_create_keypair. rewrite mem_read_ok by (unfold zlen; lia).
  change (Z.to_nat 0) with 0%nat. change (Z.to_nat 32) with 32%nat. rewrite drop_0, take_ge by lia. cbn [obind].
  rewrite (sha512_eq hash seed Hh) by (unfold zlen; rewrite Hl; reflexivity). cbn [obind].
  destruct (sha512_ref_ok seed) as [Db Dl]. destruct (clamp_ok (sha512_ref seed) Db ltac:(lia)) as (e & Ec & He).
  rewrite Ec. cbn [obind]. pose proof He as (Eb & El & _ & [_ Ev] & _).
  assert (take 32 (e ++ drop 32 (sha512_ref seed)) = e) as Et by by rewrite take_app_exact.
  destruct (base_multiple (e ++ drop 32 (sha512_ref seed))) as (h & -> & Eh & _).
  { by rewrite Et. } { rewrite length_app. lia. } { by rewrite Et. }
  cbn [obind]. rewrite Eh. cbn [obind]. rewrite Et. exists (encode (pmul (le_val e) ed_B)), (e ++ drop 32 (sha512_ref seed)), (le_val e).
  split; [done|]. split; [|exact eq_refl]. unfold is_key_pair. rewrite Et. splits; try done.
  - rewrite length_app, length_drop. lia.
  - apply bytes_ok_app. split; [done|by apply Forall_drop].
Qed.

(** ** Signing *)

(** RFC 8032, 5.1.6: the nonce, the point, the challenge and the response. *)
Definition sign_ref (msg pk sk : list Z) : list Z :=
  let r := le_val (sha512_ref (drop 32 sk ++ msg)) mod sc_l in
  let R := encode (pmul r ed_B) in
  let k := le_val (sha512_ref (R ++ pk ++ msg)) mod sc_l in
  R ++ le_bytes 32 ((k * le_val (take 32 sk) + r) mod sc_l).

Lemma length_encode P : length (encode P) = 32%nat.
Proof. apply length_le_bytes. Qed.

Lemma sign_computes hash msg pk sk :
  length (buf hash) = 128%nat -> length pk = 32%nat -> length sk = 64%nat -> bytes_ok sk ->
  8 * (zlen msg + 64) < 2 ^ 64 ->
  ed25519_sign hash msg pk sk = Done (sign_ref msg pk sk).
Proof.
  intros Hh Hp Hl Hb Hm. destruct (split_64 sk Hl) as (a & pre & -> & La & Lp). apply bytes_ok_app in Hb as [Ba Bp].
  unfold ed25519_sign, sign_ref. rewrite mem_read_back, mem_read_front by done. cbn [obind].
  rewrite take_app_exact, drop_app_exact by done.
  destruct (hash_three hash pre msg [] Hh) as (m1 & m2 & _ & E1 & E2 & _ & H2 & _ & R2). rewrite E1. cbn [obind].
  rewrite E2. cbn [obind]. rewrite (final_digest_ok _ _ H2) by (unfold zlen in *; rewrite length_app; lia). cbn [obind].
  destruct (sha512_ref_ok (pre ++ msg)) as [Db Dl]. destruct (reduced_scalar _ Db Dl) as (t & -> & Ht & Et & Ev). cbn [obind].
  pose proof (Z.mod_pos_bound (le_val (sha512_ref (pre ++ msg))) sc_l sc_l_pos) as Hr.
  pose proof sc_l_253. assert (2 ^ 253 < 2 ^ 255) by reflexivity.
  destruct (base_multiple t) as (h & -> & Eh & _); [rewrite Et; apply le_bytes_ok|done|lia|]. cbn [obind].
  rewrite Eh. cbn [obind]. rewrite Ev. set (R := encode _). assert (length R = 32%nat) as HR by apply length_encode.
  destruct (hash_three m2 R pk msg R2) as (m3 & m4 & m5 & E3 & E4 & E5 & _ & H5 & _). rewrite E3. cbn [obind].
  rewrite mem_read_ok by (unfold zlen; lia). change (Z.to_nat 0) with 0%nat. change (Z.to_nat 32) with 32%nat.
  rewrite drop_0, (take_ge pk) by lia. cbn [obind]. rewrite E4. cbn [obind]. rewrite E5. cbn [obind].
  rewrite (final_digest_ok _ _ H5) by (unfold zlen in *; rewrite !length_app; lia). cbn [obind].
  destruct (sha512_ref_ok (R ++ pk ++ msg)) as [Kb Kl]. destruct (reduced_scalar _ Kb Kl) as (u & -> & Hu & Eu & Evu).
  cbn [obind]. rewrite sc_muladd_spec; try done.
  - cbn [obind]. by rewrite Evu, Ev.
  - rewrite Eu. apply le_bytes_ok.
  - rewrite length_take. lia.
  - rewrite Et. apply le_bytes_ok.
  - rewrite length_take. lia.
Qed.

(** ** Verification *)

Lemma u8_lor r x : 0 <= r < 256 -> 0 <= x < 256 -> u8 (Z.lor r x) = Z.lor r x.
Proof.
  intros Hr Hx. unfold u8. change 256 with (2 ^ 8). rewrite <- Z.land_ones by done. rewrite Z.land_lor_distr_l, !Z.land_ones by done.
  rewrite !Z.mod_small by (change (2 ^ 8) with 256; lia). done.
Qed.

Lemma consttime_fold (x y : list Z) l : bytes_ok x -> bytes_ok y -> length x = length y ->
  Forall (fun i => i < length x)%nat l -> forall r, 0 <= r < 256 ->
  (foldl (fun r i => u8 (Z.lor r (Z.lxor (x !!! i) (y !!! i)))) r l = 0 <-> r = 0 /\ Forall (fun i => x !!! i = y !!! i) l).
Proof.
  intros Hx Hy Hl Hi. induction Hi as [|i l Hi _ IH]; intros r Hr; cbn [foldl]; [split; [by intros|by intros []]|].
  destruct (lookup_lt_is_Some_2 x i Hi) as [a Ha]. destruct (lookup_lt_is_Some_2 y i ltac:(lia)) as [b Hb].
  rewrite (list_lookup_total_correct _ _ _ Ha), (list_lookup_total_correct _ _ _ Hb).
  unfold bytes_ok in Hx, Hy. rewrite Forall_lookup in Hx, Hy. specialize (Hx _ _ Ha). specialize (Hy _ _ Hb). cbn in Hx, Hy.
  pose proof (lxor_range a b 8 ltac:(lia) Hx Hy) as R. change (2 ^ 8) with 256 in R.
  rewrite IH by (apply Z.mod_pos_bound; lia). rewrite u8_lor by done. rewrite Z.lor_eq_0_iff, Z.lxor_eq_0_iff, Forall_cons.
  rewrite (list_lookup_total_correct _ _ _ Ha), (list_lookup_total_correct _ _ _ Hb). tauto.
Qed.

Lemma consttime_equal_ok x y : bytes_ok x -> bytes_ok y -> length x = 32%nat -> length y = 32%nat ->
  consttime_equal x y = bool_decide (x = y).
Proof.
  intros Hx Hy Lx Ly. apply eq_iff_eq_true. rewrite bool_decide_eq_true. unfold consttime_equal. rewrite Z.eqb_eq.
  destruct (lookup_lt_is_Some_2 x 0 ltac:(lia)) as [a Ha]. destruct (lookup_lt_is_Some_2 y 0 ltac:(lia)) as [b Hb].
  assert (0 <= a < 256) as Ra by (unfold bytes_ok in Hx; rewrite Forall_lookup in Hx; exact (Hx _ _ Ha)).
  assert (0 <= b < 256) as Rb by (unfold bytes_ok in Hy; rewrite Forall_lookup in Hy; exact (Hy _ _ Hb)).
  rewrite (list_lookup_total_correct _ _ _ Ha), (list_lookup_total_correct _ _ _ Hb).
  pose proof (lxor_range a b 8 ltac:(lia) Ra Rb) as R. change (2 ^ 8) with 256 in R.
  assert (Forall (fun i => i < length x)%nat (seq 1 31)) as Hi by (apply Forall_forall; intros i Hj%elem_of_seq; lia).
  rewrite (consttime_fold x y (seq 1 31) Hx Hy ltac:(lia) Hi _ R).
  rewrite Z.lxor_eq_0_iff. split; [|intros ->; split; [congruence|apply Forall_forall; done]].
  intros [<- H]. apply list_eq_same_length with 32%nat; [done|lia|]. intros i u v Hiu Hu Hv.
  destruct i as [|i]; [congruence|]. rewrite Forall_forall in H. specialize (H (S i)).
  rewrite (list_lookup_total_correct _ _ _ Hu), (list_lookup_total_correct _ _ _ Hv) in H. apply H, elem_of_seq. lia.
Qed.

(** The top three bits of the last byte: the second half is below 2^253. *)
Lemma top_bits s : bytes_ok s -> length s = 32%nat ->
  (Z.land (s !!! 31%nat) 224 =? 0) = bool_decide (le_val s < 2 ^ 253).
Proof.
  intros Hs Hl. destruct (split_32 s ltac:(lia) Hs) as (x & mid & y & rest & E & Hx & Hy & Hm & Hmid).
  assert (rest = []) as ->.
  { apply nil_length_inv. apply (f_equal length) in E. rewrite !length_app in E. cbn [length] in E. rewrite length_app in E. cbn [length] in E. lia. }
  rewrite app_nil_r in E. subst s. change ((x :: mid ++ [y]) !!! 31%nat) with ((mid ++ [y]) !!! 30%nat).
  rewrite lookup_total_app_r, Hm by lia. change ([y] !!! (30 - 30)%nat) with y.
  assert ((Z.land y 224 =? 0) = (y <? 32)) as ->.
  { apply eqb_prop. apply (bytes_forallb (fun y => eqb (Z.land y 224 =? 0) (y <? 32))); [vm_compute; reflexivity|done]. }
  cbn [le_val]. rewrite le_val_app. unfold zlen. rewrite Hm. cbn [le_val]. pose proof (le_val_range mid Hmid) as R.
  unfold zlen in R. rewrite Hm in R. change (256 ^ Z.of_nat 30) with (2 ^ 240) in *.
  assert (256 * le_val mid + 256 <= 256 * 2 ^ 240) by lia. change (256 * 2 ^ 240) with (2 ^ 248) in *.
  apply eq_iff_eq_true. rewrite Z.ltb_lt, bool_decide_eq_true. change (2 ^ 253) with (2 ^ 248 * 32).
  assert (256 * 2 ^ 240 = 2 ^ 248) by reflexivity. lia.
Qed.

(** An encoding has at most one point. *)
Lemma decodes_unique s P Q : bytes_ok s -> length s = 32%nat -> decodes_to s P -> decodes_to s Q -> P = Q.
Proof.
  intros Hs Hl [Py Px] [Qy Qx]. assert (py P = py Q) as Ey.
  { apply canon_eq; [apply point_range|apply point_range|by rewrite Py, Qy]. }
  destruct (same_y_roots (px P) (px Q) (py P)) as [E|E]; [apply point_curve|rewrite Ey; apply point_curve| |].
  - apply point_eq; [by rewrite E|by rewrite Ey].
  - destruct (point_range P) as [RP _], (point_range Q) as [RQ _].
    assert (px P = 0 <-> px Q = 0) as H0.
    { split; intros H; (apply canon_eq; [apply point_range|done|]).
      - rewrite E, H. reflexivity.
      - transitivity (- px Q); [rewrite E; ring0|rewrite H; reflexivity]. }
    apply point_eq; [|by rewrite Ey]. destruct (decide (px P = 0)) as [Z0|Z0]; [by rewrite Z0, (proj1 H0 Z0)|].
    assert (px Q <> 0) as Z1 by tauto. destruct Px as [Px|Px]; [done|]. destruct Qx as [Qx|Qx]; [done|].
    pose proof (le_val_range s Hs) as R. unfold zlen in R. rewrite Hl in R. change (256 ^ Z.of_nat 32) with (2 ^ 255 * 2) in R.
    assert (0 <= le_val s / 2 ^ 255 < 2) as Rb by (split; [apply Z.div_pos; lia|apply Z.div_lt_upper_bound; lia]).
    pose proof (Z.mod_pos_bound (px P) 2 ltac:(lia)). pose proof (Z.mod_pos_bound (px Q) 2 ltac:(lia)).
    pose proof (Z.div_mod (px P) 2 ltac:(lia)). pose proof (Z.div_mod (px Q) 2 ltac:(lia)).
    assert (p25519 = 2 * (p25519 / 2) + 1) as Hodd by reflexivity. destruct E as [k E].
    assert (k = 1) as Ek.
    { clear Hodd. generalize dependent p25519. intros p RP RQ E. destruct (Z.le_gt_cases k 0); [nia|]. destruct (Z.le_gt_cases 2 k); nia. }
    subst k. lia.
Qed.

(** RFC 8032, 5.1.7 without cofactors: [P] is the point of the public key, negated. *)
Definition accepts (msg pk R S : list Z) : Prop :=
  le_val S < 2 ^ 253 /\ exists P, decodes_to pk P /\
    encode (padd (pmul (le_val (sha512_ref (R ++ pk ++ msg)) mod sc_l) P) (pmul (le_val S) ed_B)) = R.

Lemma verify_spec hash msg pk R S :
  length (buf hash) = 128%nat -> length pk = 32%nat -> bytes_ok pk ->
  length R = 32%nat -> bytes_ok R -> length S = 32%nat -> bytes_ok S -> 8 * (zlen msg + 64) < 2 ^ 64 ->
  returns (ed25519_verify hash (R ++ S) msg pk) (fun b => b = true <-> accepts msg pk R S).
Proof.
  intros Hh Lp Bp LR BR LS BS Hm. unfold ed25519_verify. rewrite mem_read_ok by (unfold zlen; rewrite ?length_app; lia).
  change (Z.to_nat 63) with (32 + 31)%nat. change (Z.to_nat 1) with 1%nat. rewrite <- drop_drop, drop_app_exact by done.
  destruct (lookup_lt_is_Some_2 S 31 ltac:(lia)) as [y Hy]. rewrite (drop_S _ _ _ Hy). cbn [obind take].
  change ((y :: take 0 (drop 32 S)) !!! 0%nat) with y. pose proof (top_bits S BS LS) as HT. rewrite (list_lookup_total_correct _ _ _ Hy) in HT.
  rewrite HT. case_bool_decide as HS; cbn [negb]; [|split; [done|by intros [? _]]].
  rewrite mem_read_ok by (unfold zlen; lia). change (Z.to_nat 0) with 0%nat. change (Z.to_nat 32) with 32%nat.
  rewrite drop_0, (take_ge pk) by lia. cbn [obind]. eapply returns_bind; [by apply ge_frombytes_spec|].
  intros [A|]; [|intros HN; split; [done|intros (_ & P & [HP _] & _); by destruct (HN P)]].
  intros (P & HA & HP). rewrite mem_read_front, mem_read_back by done. cbn [obind].
  destruct (hash_three hash R pk msg Hh) as (m1 & m2 & m3 & E1 & E2 & E3 & _ & H3 & _). rewrite E1. cbn [obind].
  rewrite E2. cbn [obind]. rewrite E3. cbn [obind].
  rewrite (final_digest_ok _ _ H3) by (unfold zlen in *; rewrite !length_app; lia). cbn [obind].
  destruct (sha512_ref_ok (R ++ pk ++ msg)) as [Kb Kl]. destruct (reduced_scalar _ Kb Kl) as (u & -> & Hu & Eu & Evu).
  cbn [obind]. rewrite double_scalarmult_take by done. set (k := le_val (sha512_ref (R ++ pk ++ msg)) mod sc_l) in *.
  assert (0 <= k < sc_l) as Hk by apply Z.mod_pos_bound, sc_l_pos. pose proof sc_l_253.
  eapply returns_bind; [eapply (ge_double_scalarmult_spec (take 32 u) A P S); try done|].
  { rewrite Eu. apply le_bytes_ok. } { rewrite length_take. lia. } { lia. }
  intros r Hr. cbn beta in Hr. rewrite Evu in Hr. rewrite (ge_tobytes_spec r _ Hr). cbn [obind].
  rewrite consttime_equal_ok by (done || apply le_bytes_ok || apply length_encode).
  assert (accepts msg pk R S <-> encode (padd (pmul k P) (pmul (le_val S) ed_B)) = R) as Ha.
  { split; [|intros E; split; [done|by exists P]]. intros (_ & Q & HQ & E). by rewrite (decodes_unique pk P Q). }
  case_bool_decide; cbn [negb returns]; rewrite Ha; done.
Qed.

Lemma rep_p3_unique h P Q : rep_p3 h P -> rep_p3 h Q -> P = Q.
Proof.
  intros (_ & N & XP & YP & _) (_ & _ & XQ & YQ & _).
  apply point_eq; apply (mul_cancel (fe_val (p3_Z h))); try done; rewrite !(Z.mul_comm (fe_val (p3_Z h))).
  - by rewrite <- XP, <- XQ.
  - by rewrite <- YP, <- YQ.
Qed.

Lemma decode_opp P : decodes_to (encode P) (popp P).
Proof.
  pose proof (ge_frombytes_encode P) as H. pose proof (ge_frombytes_spec (encode P) (length_encode P) (le_bytes_ok 32 _)) as G.
  apply returns_done in H as (o & E & h & -> & Hh). apply returns_done in G as (o' & E' & HG). rewrite E in E'. injection E' as <-.
  destruct HG as (Q & HQ & D). by rewrite (rep_p3_unique h (popp P) Q).
Qed.

Lemma sign_verifies hash hash' msg pk sk a :
  length (buf hash) = 128%nat -> length (buf hash') = 128%nat -> is_sign_pair pk sk a -> 8 * (zlen msg + 64) < 2 ^ 64 ->
  exists sig, ed25519_sign hash msg pk sk = Done sig /\ length sig = 64%nat /\ bytes_ok sig /\
    ed25519_verify hash' sig msg pk = Done true.
Proof.
  intros Hh Hh' (Ls & Bs & Ea & Ep) Hm. assert (length pk = 32%nat /\ bytes_ok pk) as [Lp Bp].
  { rewrite Ep. split; [apply length_encode|apply le_bytes_ok]. }
  exists (sign_ref msg pk sk). rewrite sign_computes by done. split; [done|]. unfold sign_ref.
  set (r := le_val (sha512_ref (drop 32 sk ++ msg)) mod sc_l). set (R := encode (pmul r ed_B)).
  set (k := le_val (sha512_ref (R ++ pk ++ msg)) mod sc_l). rewrite <- Ea. set (S := le_bytes 32 ((k * a + r) mod sc_l)).
  pose proof (Z.mod_pos_bound (k * a + r) sc_l sc_l_pos) as RS. pose proof sc_l_253.
  assert (le_val S = (k * a + r) mod sc_l) as VS.
  { apply le_val_bytes. assert (2 ^ 253 < 256 ^ Z.of_nat 32) by reflexivity. lia. }
  assert (length R = 32%nat) as LR by apply length_encode. assert (length S = 32%nat) as LS by apply length_le_bytes.
  assert (bytes_ok R) as BR by apply le_bytes_ok. assert (bytes_ok S) as BS by apply le_bytes_ok.
  splits; [rewrite length_app; lia|by apply bytes_ok_app|].
  pose proof (verify_spec hash' msg pk R S Hh' Lp Bp LR BR LS BS Hm) as HV. apply returns_done in HV as (b & -> & Hb).
  f_equal. apply Hb. split; [lia|]. exists (popp (pmul a ed_B)). split; [rewrite Ep; apply decode_opp|].
  fold k. rewrite VS, pmul_mod, <- pmul_opp, <- pmul_mul, <- pmul_add. unfold R. do 2 f_equal. lia.
Qed.

(** ** Adding a scalar to a key *)

Lemma scalar_n_ok s : bytes_ok s -> length s = 32%nat ->
  exists n, scalar_n s = Done n /\ bytes_ok n /\ length n = 32%nat /\ le_val n = le_val s mod 2 ^ 255.
Proof.
  intros Hs Hl. unfold scalar_n. rewrite Hl. cbn [Nat.ltb Nat.leb]. eexists. split; [reflexivity|].
  destruct (lookup_lt_is_Some_2 s 31 ltac:(lia)) as [y Hy]. rewrite (list_lookup_total_correct _ _ _ Hy).
  assert (s = take 31 s ++ [y]) as E.
  { rewrite <- (take_drop 31 s) at 1. f_equal. rewrite (drop_S _ _ _ Hy). by rewrite drop_ge by lia. }
  assert (length (take 31 s) = 31%nat) as L31 by (rewrite length_take; lia).
  pose proof Hs as Hs'. rewrite E in Hs'. apply bytes_ok_app in Hs' as [H31 Hby]. apply Forall_cons in Hby as [Hby _]. cbn beta in Hby.
  rewrite (land_mask y 7) by done. pose proof (Z.mod_pos_bound y (2 ^ 7) ltac:(lia)) as R7. pose proof (Z.div_mod y (2 ^ 7) ltac:(lia)) as D7.
  splits.
  - apply bytes_ok_app. split; [done|]. constructor; [lia|constructor].
  - rewrite length_app, L31. done.
  - rewrite E at 2. rewrite !le_val_app. unfold zlen. rewrite L31. cbn [le_val].
    pose proof (le_val_range _ H31) as R. unfold zlen in R. rewrite L31 in R. change (256 ^ Z.of_nat 31) with (2 ^ 248) in *.
    apply (Z.mod_unique_pos _ _ (y / 2 ^ 7)); change (2 ^ 255) with (2 ^ 248 * 2 ^ 7); [nia|]. rewrite D7 at 1. ring.
Qed.

Lemma unpack_public_ok P : returns (unpack_public (encode P)) (fun c => rep_cached c P).
Proof.
  unfold unpack_public. eapply returns_bind; [apply ge_frombytes_encode|]. intros o (h & -> & (HB1 & HB2 & HB3 & HB4) & N & HX & HY & HT).
  eapply returns_bind; [apply (fe_neg_in (fe_bound 101 25) (p3_X h)); [done|vm_compute; reflexivity]|]. intros X [HX' EX].
  eapply returns_bind; [apply (fe_neg_in (fe_bound 101 25) (p3_T h)); [done|vm_compute; reflexivity]|]. intros T [HT' ET].
  apply ge_p3_to_cached_spec. unfold rep_p3. cbn [p3_X p3_Y p3_Z p3_T]. rewrite EX, ET, HX, HY, HT, !popp_x, !popp_y.
  splits; try fb; try done; ring0.
Qed.

Lemma add_scalar_private sk scalar n :
  length sk = 64%nat -> bytes_ok sk -> bytes_ok n -> length n = 32%nat -> scalar_n scalar = Done n ->
  let sk' := le_bytes 32 ((le_val (take 32 sk) + le_val n) mod sc_l) ++ drop 32 sk in
  ed25519_add_scalar None (Some sk) scalar = Done (None, Some sk') /\
  forall pk, length pk = 32%nat ->
  ed25519_add_scalar (Some pk) (Some sk) scalar = Done (Some (encode (pmul (le_val (take 32 sk) + le_val n) ed_B)), Some sk').
Proof.
  intros Hl Hb Bn Ln En. cbn zeta. unfold ed25519_add_scalar. rewrite En. cbn [obind].
  destruct (split_64 sk Hl) as (a & b & -> & La & Lb). apply bytes_ok_app in Hb as [Ba Bb].
  rewrite mem_read_front by done. rewrite take_app_exact, drop_app_exact by done. cbn [obind].
  rewrite sc_muladd_spec by (done || (unfold SC_1; repeat constructor; done)). change (le_val SC_1) with 1. cbn [obind].
  replace (1 * le_val n + le_val a) with (le_val a + le_val n) by lia. set (s := le_bytes 32 _).
  assert (length s = 32%nat) as Ls by apply length_le_bytes.
  rewrite mem_write_ok by (unfold zlen; rewrite ?length_app; lia). rewrite Ls. change (Z.to_nat 0) with 0%nat.
  rewrite !take_0. cbn [Nat.add app obind]. rewrite drop_app_exact by done. split; [done|]. intros pk Lp.
  pose proof (Z.mod_pos_bound (le_val a + le_val n) sc_l sc_l_pos). pose proof sc_l_253.
  assert (2 ^ 253 < 2 ^ 255) by reflexivity. assert (2 ^ 253 < 256 ^ Z.of_nat 32) by reflexivity.
  assert (take 32 (s ++ b) = s) as Et by by rewrite take_app_exact.
  assert (le_val s = (le_val a + le_val n) mod sc_l) as Es by (apply le_val_bytes; lia).
  destruct (base_multiple (s ++ b)) as (h & -> & Eh & _).
  { rewrite Et. apply le_bytes_ok. } { rewrite length_app. lia. } { rewrite Et. lia. }
  cbn [obind]. rewrite Eh. cbn [obind]. rewrite Et, Es, pmul_mod. pose proof (length_encode (pmul (le_val a + le_val n) ed_B)) as Le.
  rewrite mem_write_ok by (unfold zlen; rewrite ?Le; lia). rewrite Le. change (Z.to_nat 0) with 0%nat.
  rewrite !take_0. cbn [Nat.add app obind]. rewrite drop_ge by lia. by rewrite app_nil_r.
Qed.

Lemma add_scalar_public P scalar n :
  bytes_ok n -> length n = 32%nat -> le_val n < 2 ^ 255 -> scalar_n scalar = Done n ->
  ed25519_add_scalar (Some (encode P)) None scalar = Done (Some (encode (padd P (pmul (le_val n) ed_B))), None).
Proof.
  intros Bn Ln Vn En. unfold ed25519_add_scalar. rewrite En. cbn [obind].
  rewrite <- (app_nil_r (encode P)) at 1. rewrite mem_read_front by apply length_encode. cbn [obind].
  pose proof (unpack_public_ok P) as H. apply returns_done in H as (T & -> & HT). cbn [obind].
  destruct (base_multiple n) as (h & -> & _ & Hh); [by rewrite take_ge by lia|lia|by rewrite take_ge by lia|].
  rewrite take_ge in Hh by lia. cbn [obind].
  pose proof (ge_add_spec _ _ _ _ Hh HT) as H. apply returns_done in H as (r & -> & Hr). cbn [obind].
  pose proof (ge_p1p1_to_p3_spec _ _ Hr) as H. apply returns_done in H as (A & -> & HA). cbn [obind].
  rewrite (ge_p3_tobytes_spec A _ HA), padd_comm. cbn [obind].
  rewrite mem_write_ok by (unfold zlen; rewrite ?length_encode; lia). rewrite length_encode. change (Z.to_nat 0) with 0%nat.
  rewrite !take_0. cbn [Nat.add app obind]. rewrite drop_ge by (rewrite length_encode; lia). by rewrite app_nil_r.
Qed.

(** The keys with a scalar added belong together. *)
Lemma derived_pair sk n :
  length sk = 64%nat -> bytes_ok sk -> let a := (le_val (take 32 sk) + n) mod sc_l in
  is_sign_pair (encode (pmul (le_val (take 32 sk) + n) ed_B)) (le_bytes 32 a ++ drop 32 sk) a.
Proof.
  intros Ls Bs a. destruct (le_bytes_32 a) as [Ba La]. unfold is_sign_pair. rewrite take_app_exact by done. splits.
  - rewrite length_app, length_drop. lia.
  - apply bytes_ok_app. split; [done|by apply Forall_drop].
  - symmetry. apply le_val_bytes. pose proof (Z.mod_pos_bound (le_val (take 32 sk) + n) sc_l sc_l_pos). pose proof sc_l_253.
    assert (2 ^ 253 < 256 ^ Z.of_nat 32) by reflexivity. unfold a. lia.
  - unfold a. by rewrite pmul_mod.
Qed.

(** The linear relation between two responses with one nonce. *)
Lemma scalar_follows a n r k k' :
  ((k - k') * a) mod sc_l = ((k * a + r) mod sc_l - (k' * ((a + n) mod sc_l) + r) mod sc_l + k' * n) mod sc_l.
Proof.
  pose proof sc_l_pos. rewrite (Z.mod_eq (k * a + r)), (Z.mod_eq (k' * _ + r)), (Z.mod_eq (a + n)) by lia.
  set (q := (a + n) / sc_l). generalize ((k * a + r) / sc_l). intros q1. generalize ((k' * (a + n - sc_l * q) + r) / sc_l). intros q2.
  rewrite <- (Z.mod_add ((k - k') * a) (q2 - q1 + k' * q)) by lia. f_equal. ring.
Qed.
