(* ===== verification/EdLadder.v ===== *)
(** Key exchange: the Montgomery ladder of ed25519_key_exchange computes the Montgomery
    coordinate of the multiple of the peer's point, for every point of the curve, the
    identity and the point of order two included; so both sides get the same secret. *)
From S2P Require Import Prelude Bytes Sha512 Limbs Fe FeArith Prime25519 Edwards Sc Ge GePrecomp GeArith GeTables GeMult Ed25519Code EdSign.

(** ** Projective Montgomery coordinates *)

(** [X : Z] is [(1 + y) : (1 - y)]. *)
Definition mont (X Z : Z) (P : epoint) : Prop :=
  X * (1 - py P) == Z * (1 + py P) /\ ~ (X == 0 /\ Z == 0).

Lemma mont_sum X Z P : mont X Z P -> ~ X + Z == 0 /\ X - Z == py P * (X + Z).
Proof.
  intros [H N]. split.
  - intros H0. apply N. assert (2 * X == 0) as H2.
    { transitivity (X * (1 - py P) - Z * (1 + py P) + (X + Z) * (1 + py P)); [ring0|]. rewrite H, H0. ring0. }
    apply mul_zero in H2 as [H2|H2]; [by apply two_nonzero in H2|]. split; [done|].
    transitivity ((X + Z) - X); [ring0|]. rewrite H0, H2. ring0.
  - apply sub_zero. transitivity (X * (1 - py P) - Z * (1 + py P)); [ring0|]. by apply sub_zero.
Qed.

Lemma sum_mont X Z P : ~ X + Z == 0 -> X - Z == py P * (X + Z) -> mont X Z P.
Proof.
  intros N H. split.
  - apply sub_zero. transitivity (X - Z - py P * (X + Z)); [ring0|]. by apply sub_zero.
  - intros [H1 H2]. apply N. rewrite H1, H2. ring0.
Qed.

(** ** Doubling *)

Lemma curve_x2 x y : curve x y -> x * x * (1 + ed_d * (y * y)) == y * y - 1.
Proof.
  unfold curve. intros C. apply sub_zero. transitivity ((1 + ed_d * (x * x) * (y * y)) - (y * y - x * x)); [ring0|]. rewrite C. ring0.
Qed.

Lemma d_value : 121666 * ed_d == 1 - 121666.
Proof. apply ed_d_ok. Qed.

Lemma one_plus_d_y2 y : ~ 1 + ed_d * (y * y) == 0.
Proof. rewrite Z.add_comm. apply denominator_nonzero. Qed.

Lemma mont_double X Z P AA BB E :
  mont X Z P -> AA == (X + Z) * (X + Z) -> BB == (X - Z) * (X - Z) -> E == AA - BB ->
  mont (AA * BB) (E * (BB + 121666 * E)) (padd P P).
Proof.
  intros H HA HB HE. destruct (mont_sum _ _ _ H) as [N Hy]. set (a := X + Z) in *. rewrite Hy in HB. rewrite HA, HB in HE.
  destruct (padd_coords P P) as [_ S]. set (s := py (padd P P)) in *.
  destruct (point_denom P P) as [_ D]. pose proof (curve_x2 _ _ (point_curve P)) as C. set (x := px P) in *. set (y := py P) in *.
  pose proof (one_plus_d_y2 y) as W.
  assert (AA * BB + E * (BB + 121666 * E) == a * a * (a * a) * (121666 * ((1 + ed_d * (y * y)) * (1 - ed_d * x * x * y * y)))) as E1.
  { transitivity (a * a * (a * a) * (121666 + 121666 * ed_d * (y * y) - 121666 * ed_d * (y * y) * (x * x * (1 + ed_d * (y * y))))).
    - rewrite C. rewrite HE, HA, HB, d_value. ring0.
    - ring0. }
  assert (AA * BB - E * (BB + 121666 * E) == a * a * (a * a) * (121666 * ((1 + ed_d * (y * y)) * (y * y + x * x)))) as E2.
  { transitivity (a * a * (a * a) * (121666 * (y * y) + 121666 * ed_d * (y * y) * (y * y) + 121666 * (x * x * (1 + ed_d * (y * y))))).
    - rewrite C. rewrite HE, HA, HB, d_value. ring0.
    - ring0. }
  apply sum_mont; rewrite E1.
  - repeat apply mul_nonzero; try done. apply small_nonzero.
  - rewrite E2, <- S. fold s. ring0.
Qed.

(** ** Differential addition *)

Section Differential.
Context (d xQ yQ xR yR : Z).

Definition diff_t : Z := d * xR * xQ * yR * yQ.

Definition diff_w : Z := (1 + d * (yQ * yQ)) * (1 + d * (yR * yR)).

Lemma sum_identity :
  (1 + yR * yQ) * (1 + yR * yQ) * diff_w -
    (d * (yR * yQ) - 1) * (d * (yR * yQ) - 1) * ((yR * yR - 1) * (yQ * yQ - 1)) =
  (1 + d) * (1 + d * (yQ * yR * (yQ * yR))) * ((yR + yQ) * (yR + yQ)).
Proof. unfold diff_w. ring. Qed.

Lemma difference_identity :
  (1 - yR * yQ) * (1 - yR * yQ) * diff_w -
    (d * (yR * yQ) + 1) * (d * (yR * yQ) + 1) * ((yR * yR - 1) * (yQ * yQ - 1)) =
  (1 + d) * (1 + d * (yQ * yR * (yQ * yR))) * ((yR - yQ) * (yR - yQ)).
Proof. unfold diff_w. ring. Qed.

End Differential.

(** The ordinates of a sum and of a difference, related without the abscissas. *)
Lemma sum_difference Q R :
  exists c K, ~ c == 0 /\ ~ K == 0 /\
    (1 + py (padd R Q)) * (1 + py (psub R Q)) * c == K * ((py R + py Q) * (py R + py Q)) /\
    (1 - py (padd R Q)) * (1 - py (psub R Q)) * c == K * ((py R - py Q) * (py R - py Q)).
Proof.
  unfold psub. destruct (padd_coords R Q) as [_ S]. destruct (padd_coords R (popp Q)) as [_ D].
  destruct (point_denom R Q) as [N1 N2]. rewrite popp_x, popp_y in D.
  pose proof (curve_x2 _ _ (point_curve Q)) as CQ. pose proof (curve_x2 _ _ (point_curve R)) as CR.
  set (s := py (padd R Q)) in *. set (f := py (padd R (popp Q))) in *.
  set (xQ := px Q) in *. set (yQ := py Q) in *. set (xR := px R) in *. set (yR := py R) in *. clearbody s f xQ yQ xR yR.
  set (t := ed_d * xR * xQ * yR * yQ) in *.
  assert (D' : f * (1 + t) == yR * yQ - xR * xQ) by (transitivity (f * (1 - ed_d * xR * - xQ * yR * yQ)); [unfold t; ring0|rewrite D; ring0]).
  assert (xR * xR * (xQ * xQ) * diff_w ed_d yQ yR == (yR * yR - 1) * (yQ * yQ - 1)) as W.
  { rewrite <- CQ, <- CR. unfold diff_w. ring0. }
  exists ((1 - t) * (1 + t) * diff_w ed_d yQ yR), ((1 + ed_d) * (1 + ed_d * (yQ * yR * (yQ * yR)))). splits.
  - apply mul_nonzero; [by apply mul_nonzero|]. unfold diff_w. apply mul_nonzero; apply one_plus_d_y2.
  - apply mul_nonzero; [|apply one_plus_d_y2]. intros H%eq_mod. by vm_compute in H.
  - transitivity (((1 - t) + s * (1 - t)) * ((1 + t) + f * (1 + t)) * diff_w ed_d yQ yR); [ring0|]. rewrite S, D'.
    rewrite <- sum_identity, <- W. unfold t. ring0.
  - transitivity (((1 - t) - s * (1 - t)) * ((1 + t) - f * (1 + t)) * diff_w ed_d yQ yR); [ring0|]. rewrite S, D'.
    rewrite <- difference_identity, <- W. unfold t. ring0.
Qed.

Lemma mont_add X2 Z2 X3 Z3 Q R x1 DA CB :
  mont X2 Z2 Q -> mont X3 Z3 R ->
  x1 * (1 - py (psub R Q)) == 1 + py (psub R Q) -> ~ 1 - py (psub R Q) == 0 -> ~ 1 + py (psub R Q) == 0 ->
  DA == (X3 - Z3) * (X2 + Z2) -> CB == (X3 + Z3) * (X2 - Z2) ->
  mont ((DA + CB) * (DA + CB)) (x1 * ((DA - CB) * (DA - CB))) (padd R Q).
Proof.
  intros HQ HR H1 Nm Np HD HC. destruct (mont_sum _ _ _ HQ) as [NQ EQ]. destruct (mont_sum _ _ _ HR) as [NR ER].
  rewrite ER in HD. rewrite EQ in HC. destruct (sum_difference Q R) as (c & K & Hc & HK & S1 & S2).
  set (f := py (psub R Q)) in *. set (s := py (padd R Q)) in *. set (yQ := py Q) in *. set (yR := py R) in *.
  set (m := (X3 + Z3) * (X2 + Z2)). assert (~ m == 0) as Nz by by apply mul_nonzero.
  assert ((DA + CB) * (DA + CB) == m * m * ((yR + yQ) * (yR + yQ))) as E1 by (rewrite HD, HC; unfold m; ring0).
  assert ((DA - CB) * (DA - CB) == m * m * ((yR - yQ) * (yR - yQ))) as E2 by (rewrite HD, HC; unfold m; ring0).
  split.
  - fold s. rewrite E1, E2. apply (mul_cancel K); [done|].
    transitivity (m * m * (1 - s) * (K * ((yR + yQ) * (yR + yQ)))); [ring0|]. rewrite <- S1.
    transitivity (m * m * (1 + s) * x1 * (K * ((yR - yQ) * (yR - yQ)))); [|ring0]. rewrite <- S2.
    transitivity (m * m * (1 + s) * (1 - s) * c * (x1 * (1 - f))); [|ring0]. rewrite H1. ring0.
  - intros [G1 G2]. rewrite E1 in G1. rewrite E2 in G2.
    assert (~ m * m == 0) as Nmm by by apply mul_nonzero. assert (~ x1 == 0) as Nx.
    { intros Hx. apply Np. rewrite <- H1, Hx. ring0. }
    apply mul_zero in G1 as [G1|G1]; [done|]. apply mul_zero in G2 as [G2|G2]; [done|]. apply mul_zero in G2 as [G2|G2]; [done|].
    rewrite G1 in S1. rewrite G2 in S2. rewrite Z.mul_0_r in S1, S2.
    apply mul_zero in S1 as [S1|S1]; [|done]. apply mul_zero in S1 as [S1|S1]; [|done].
    apply mul_zero in S2 as [S2|S2]; [|done]. apply mul_zero in S2 as [S2|S2]; [|done].
    apply two_nonzero. transitivity ((1 + s) + (1 - s)); [ring0|]. rewrite S1, S2. reflexivity.
Qed.

(** ** One step *)

Definition tight_ladder (s : ladder) : Prop := tight (x2 s) /\ tight (z2 s) /\ tight (x3 s) /\ tight (z3 s).

Definition rep_ladder (s : ladder) (Q R : epoint) : Prop :=
  mont (fe_val (x2 s)) (fe_val (z2 s)) Q /\ mont (fe_val (x3 s)) (fe_val (z3 s)) R.

(** What a step computes, in the field. *)
Definition step_values (x1 : Z) (s s' : ladder) : Prop :=
  let AA := (fe_val (x2 s) + fe_val (z2 s)) * (fe_val (x2 s) + fe_val (z2 s)) in
  let BB := (fe_val (x2 s) - fe_val (z2 s)) * (fe_val (x2 s) - fe_val (z2 s)) in
  let DA := (fe_val (x3 s) - fe_val (z3 s)) * (fe_val (x2 s) + fe_val (z2 s)) in
  let CB := (fe_val (x3 s) + fe_val (z3 s)) * (fe_val (x2 s) - fe_val (z2 s)) in
  fe_val (x2 s') == AA * BB /\ fe_val (z2 s') == (AA - BB) * (BB + 121666 * (AA - BB)) /\
  fe_val (x3 s') == (DA + CB) * (DA + CB) /\ fe_val (z3 s') == x1 * ((DA - CB) * (DA - CB)).

Lemma ladder_step_ok x1 s : tight x1 -> tight_ladder s ->
  returns (ladder_step x1 s) (fun s' => tight_ladder s' /\ step_values (fe_val x1) s s').
Proof.
  intros H1 (B1 & B2 & B3 & B4). unfold ladder_step. destruct s as [a b c e]. cbn [x2 z2 x3 z3] in *.
  fe_step rD ED. fe_step rB EB. fe_step rA EA. fe_step rC EC. fe_step rDA EDA. fe_step rCB ECB. fe_step rBB EBB. fe_step rAA EAA.
  fe_step rS ES. fe_step rF EF. fe_step rX2 EX2. fe_step rE EE. fe_step rF2 EF2.
  eapply returns_bind; [apply (fe_mul121666_spec rE); fb|]. intros rM [? EM].
  fe_step rX3 EX3. fe_step rT ET. fe_step rZ3 EZ3. fe_step rZ2 EZ2. cbn [returns].
  split; [unfold tight_ladder; cbn [x2 z2 x3 z3]; splits; fb|]. unfold step_values. cbn [x2 z2 x3 z3].
  rewrite EX2, EX3, EZ2, EZ3, EF2, ET, EM, EE, ES, EF, EDA, ECB, EBB, EAA, EA, EB, EC, ED. splits; reflexivity.
Qed.

Lemma ladder_swap_ok s b : tight_ladder s -> b = 0 \/ b = 1 ->
  ladder_swap s b = Done (if b =? 1 then Ladder (x3 s) (z3 s) (x2 s) (z2 s) else s).
Proof.
  intros (B1 & B2 & B3 & B4) Hb. unfold ladder_swap.
  assert (forall f, tight f -> Forall int32_ok f) as HI by (intros f Hf; apply (inbs_int32 (fe_bound 101 25)); [vm_compute; reflexivity|done]).
  assert (forall f g, tight f -> tight g -> length f = length g) as HL.
  { intros f g Hf Hg. by rewrite (bounded_length _ _ _ Hf), (bounded_length _ _ _ Hg). }
  rewrite !fe_cswap_spec by auto. destruct s. by destruct (b =? 1).
Qed.

(** The state before the swap that the last bit [b] asks for. *)
Definition holds_multiples (s : ladder) (b k : Z) (P : epoint) : Prop :=
  if b =? 1 then rep_ladder s (pmul (k + 1) P) (pmul k P) else rep_ladder s (pmul k P) (pmul (k + 1) P).

Lemma ladder_bit e pos : bytes_ok e -> length e = 32%nat -> (pos < 256)%nat ->
  Z.land (Z.shiftr (e !!! (pos / 8)%nat) (Z.of_nat (pos mod 8)%nat)) 1 = (le_val e / 2 ^ Z.of_nat pos) mod 2.
Proof.
  intros He Hl Hp. rewrite (land_mask _ 1) by done. change (2 ^ 1) with 2.
  assert (pos / 8 < 32)%nat as H8 by (apply Nat.Div0.div_lt_upper_bound; lia).
  rewrite byte_digit by (done || lia). rewrite Z.shiftr_div_pow2 by lia.
  pose proof (Nat.div_mod_eq pos 8) as Ep. pose proof (Nat.mod_upper_bound pos 8 ltac:(done)) as Hm.
  set (i := (pos / 8)%nat) in *. set (j := (pos mod 8)%nat) in *. rewrite Ep.
  replace (Z.of_nat (8 * i + j)) with (8 * Z.of_nat i + Z.of_nat j) by lia.
  rewrite Z.pow_add_r, Z.pow_mul_r by lia. change (2 ^ 8) with 256.
  rewrite <- Z.div_div by lia. set (v := le_val e / 256 ^ Z.of_nat i).
  rewrite (Z.div_mod v 256) at 2 by done.
  assert (256 = 2 ^ Z.of_nat j * 2 ^ (8 - Z.of_nat j)) as E8 by (rewrite <- Z.pow_add_r by lia; replace (Z.of_nat j + (8 - Z.of_nat j)) with 8 by lia; done).
  assert (2 ^ (8 - Z.of_nat j) = 2 * 2 ^ (7 - Z.of_nat j)) as E7 by (rewrite <- Z.pow_succ_r by lia; f_equal; lia).
  rewrite E8 at 2. rewrite <- Z.mul_assoc, (Z.mul_comm (2 ^ Z.of_nat j)), Z.add_comm, Z.div_add by (apply Z.pow_nonzero; lia).
  rewrite E7. rewrite <- !Z.mul_assoc, (Z.mul_comm 2), Z_mod_plus_full. done.
Qed.

Section Loop.
Context (P : epoint) (x1 : fe) (e : list Z).
Hypothesis Hx1 : tight x1.
Hypothesis Eu : fe_val x1 * (1 - py P) == 1 + py P.
Hypothesis Nm : ~ 1 - py P == 0.
Hypothesis Np : ~ 1 + py P == 0.
Hypothesis He : bytes_ok e.
Hypothesis Hl : length e = 32%nat.

Lemma ladder_step_rep s Q R : tight_ladder s -> rep_ladder s Q R -> py (psub R Q) = py P ->
  returns (ladder_step x1 s) (fun s' => tight_ladder s' /\ rep_ladder s' (padd Q Q) (padd R Q)).
Proof.
  intros Hs [HQ HR] Hd. eapply returns_mono; [exact (ladder_step_ok x1 s Hx1 Hs)|]. intros s' [Hs' (V1 & V2 & V3 & V4)].
  split; [done|]. unfold rep_ladder, mont. rewrite V1, V2, V3, V4. split.
  - eapply mont_double; [exact HQ|reflexivity|reflexivity|reflexivity].
  - eapply mont_add; [exact HQ|exact HR| | | |reflexivity|reflexivity]; by rewrite Hd.
Qed.

Lemma ladder_loop_ok n : forall s b k,
  (n <= 255)%nat -> tight_ladder s -> b = 0 \/ b = 1 -> k = le_val e / 2 ^ Z.of_nat n -> holds_multiples s b k P ->
  returns (ladder_loop n x1 e s b) (fun '(s', b') => tight_ladder s' /\ (b' = 0 \/ b' = 1) /\ holds_multiples s' b' (le_val e) P).
Proof.
  induction n as [|n IH]; intros s b k Hn Hs Hb Hk Hh.
  - cbn [ladder_loop returns]. change (2 ^ Z.of_nat 0) with 1 in Hk. rewrite Z.div_1_r in Hk. by subst k.
  - cbn [ladder_loop]. rewrite ladder_bit by (done || lia). set (c := (le_val e / 2 ^ Z.of_nat n) mod 2).
    assert (c = 0 \/ c = 1) as Hc by (pose proof (Z.mod_pos_bound (le_val e / 2 ^ Z.of_nat n) 2 ltac:(lia)); unfold c; lia).
    assert (le_val e / 2 ^ Z.of_nat n = 2 * k + c) as Ek.
    { rewrite Nat2Z.inj_succ, Z.pow_succ_r, (Z.mul_comm 2), <- Z.div_div in Hk by lia. rewrite Hk. apply Z.div_mod. lia. }
    rewrite ladder_swap_ok; [|done|destruct Hb as [-> | ->], Hc as [-> | ->]; cbn; auto]. cbn [obind].
    set (s1 := if Z.lxor b c =? 1 then _ else _). assert (tight_ladder s1) as Hs1.
    { unfold s1. destruct (Z.lxor b c =? 1); [|done]. destruct Hs as (? & ? & ? & ?). unfold tight_ladder. tauto. }
    assert (if c =? 1 then rep_ladder s1 (pmul (k + 1) P) (pmul k P) else rep_ladder s1 (pmul k P) (pmul (k + 1) P)) as H1.
    { unfold s1. unfold holds_multiples in Hh. destruct Hb as [-> | ->], Hc as [-> | ->]; cbn in *; unfold rep_ladder in *; cbn [x2 z2 x3 z3]; tauto. }
    eapply (returns_bind _ _ (fun s2 => tight_ladder s2 /\ holds_multiples s2 c (2 * k + c) P)).
    2: { intros s2 [Hs2 H2]. by apply (IH s2 c (2 * k + c)); [lia|..]. }
    unfold holds_multiples. destruct Hc as [Ec|Ec]; rewrite Ec in *; cbn [Z.eqb] in *.
    + eapply returns_mono; [eapply (ladder_step_rep s1 _ _ Hs1 H1)|].
      * rewrite <- pmul_sub. by replace (k + 1 - k) with 1 by lia.
      * intros s2 [Hs2 H2]. split; [done|]. rewrite <- !pmul_add in H2.
        replace (2 * k + 0) with (k + k) by lia. by replace (k + k + 1) with (k + 1 + k) by lia.
    + eapply returns_mono; [eapply (ladder_step_rep s1 _ _ Hs1 H1)|].
      * rewrite <- pmul_sub. replace (k - (k + 1)) with (- (1)) by lia. by rewrite pmul_opp, popp_y.
      * intros s2 [Hs2 H2]. split; [done|]. rewrite <- !pmul_add in H2.
        replace (2 * k + 1 + 1) with (k + 1 + (k + 1)) by lia. by replace (2 * k + 1) with (k + (k + 1)) by lia.
Qed.

End Loop.

(** ** Points without a Montgomery form: the identity and the point of order two *)

Lemma degenerate_step x1 s : tight x1 -> fe_val x1 == 0 -> tight_ladder s -> fe_val (x2 s) * fe_val (z2 s) == 0 ->
  returns (ladder_step x1 s) (fun s' => tight_ladder s' /\ fe_val (z2 s') == 0 /\ fe_val (z3 s') == 0).
Proof.
  intros H1 E1 Hs H2. eapply returns_mono; [exact (ladder_step_ok x1 s H1 Hs)|]. intros s' [Hs' (_ & V2 & _ & V4)].
  split; [done|]. rewrite V2, V4. split; [|rewrite E1; ring0].
  set (a := fe_val (x2 s)) in *. set (b := fe_val (z2 s)) in *.
  transitivity (4 * (a * b) * ((a - b) * (a - b) + 121666 * (4 * (a * b)))); [ring0|]. rewrite H2. ring0.
Qed.

Definition degenerate (s : ladder) : Prop :=
  tight_ladder s /\ fe_val (x2 s) * fe_val (z2 s) == 0 /\ fe_val (x3 s) * fe_val (z3 s) == 0.

Lemma degenerate_swap s b : degenerate s -> b = 0 \/ b = 1 -> returns (ladder_swap s b) degenerate.
Proof.
  intros (Hs & H1 & H2) Hb. rewrite ladder_swap_ok by done. cbn [returns]. destruct (b =? 1); [|done].
  destruct Hs as (? & ? & ? & ?). unfold degenerate, tight_ladder. cbn [x2 z2 x3 z3]. tauto.
Qed.

Lemma degenerate_loop x1 e n : tight x1 -> fe_val x1 == 0 -> forall s b,
  degenerate s -> b = 0 \/ b = 1 ->
  returns (ladder_loop (S n) x1 e s b) (fun '(s', b') =>
    tight_ladder s' /\ (b' = 0 \/ b' = 1) /\ fe_val (z2 s') == 0 /\ fe_val (z3 s') == 0).
Proof.
  intros H1 E1. induction n as [|n IH]; intros s b Hs Hb;
    (change (ladder_loop (S ?m) x1 e s b) with
      (let c := Z.land (Z.shiftr (e !!! (m / 8)%nat) (Z.of_nat (m mod 8)%nat)) 1 in
       let* s := ladder_swap s (Z.lxor b c) in let* s := ladder_step x1 s in ladder_loop m x1 e s c)); cbn zeta;
    match goal with |- context [Z.land ?y 1] => set (c := Z.land y 1);
      assert (c = 0 \/ c = 1) as Hc by (unfold c; rewrite (land_mask _ 1) by done; change (2 ^ 1) with 2;
        pose proof (Z.mod_pos_bound y 2 ltac:(lia)); lia) end;
    (eapply returns_bind; [apply degenerate_swap; [exact Hs|destruct Hb as [-> | ->], Hc as [-> | ->]; cbn; auto]|]);
    intros s1 (T1 & P1 & _); (eapply returns_bind; [exact (degenerate_step x1 s1 H1 E1 T1 P1)|]); intros s2 (T2 & Z2 & Z3).
  - cbn [ladder_loop returns]. done.
  - apply IH; [|done]. unfold degenerate. rewrite Z2, Z3. splits; [done|ring0|ring0].
Qed.

(** ** The shared secret *)

(** The Montgomery coordinate of a point; 0 for the identity, whose inverse is taken to be 0. *)
Definition montgomery_u (P : epoint) : Z := fdiv (1 + py P) (1 - py P).

Lemma finv_zero z : z == 0 -> finv z == 0.
Proof. intros H. rewrite finv_pow, H. rewrite Z.pow_0_l by done. reflexivity. Qed.

Lemma montgomery_u_0 P : py P = 1 -> montgomery_u P = 0.
Proof. intros H. unfold montgomery_u. rewrite H. vm_compute. reflexivity. Qed.

Lemma montgomery_u_special P : 1 - py P == 0 \/ 1 + py P == 0 -> montgomery_u P == 0.
Proof.
  unfold montgomery_u, fdiv. rewrite mod_eq. intros [H|H].
  - pose proof (finv_zero _ H) as E. revert E. generalize (finv (1 - py P)). intros i ->. ring0.
  - generalize (finv (1 - py P)). intros i. rewrite H. ring0.
Qed.

Lemma mont_quotient X Z i P : mont X Z P -> i == Z ^ (p25519 - 2) -> X * i == montgomery_u P.
Proof.
  intros H Hi. rewrite <- finv_pow in Hi. unfold montgomery_u, fdiv. rewrite mod_eq, Hi. destruct (decide (Z == 0)) as [HZ|HZ].
  - destruct H as [H N]. rewrite (finv_zero Z HZ). assert (1 - py P == 0) as E.
    { rewrite HZ in H. assert (X * (1 - py P) == 0) as [Hx|Hx]%mul_zero by (rewrite H; ring0); [|done]. destruct N. done. }
    rewrite (finv_zero _ E). ring0.
  - assert (~ 1 - py P == 0) as NP.
    { intros E. destruct H as [H _]. rewrite E, Z.mul_0_r in H. symmetry in H. apply mul_zero in H as [H|H]; [done|].
      apply two_nonzero. transitivity ((1 + py P) + (1 - py P)); [ring0|]. rewrite H, E. reflexivity. }
    destruct H as [H _]. pose proof (finv_ok _ HZ) as I1. pose proof (finv_ok _ NP) as I2.
    apply (mul_cancel (Z * (1 - py P))); [by apply mul_nonzero|]. revert I1 I2. generalize (finv Z), (finv (1 - py P)). intros u v I1 I2.
    transitivity (X * (1 - py P) * (Z * u)); [ring0|]. rewrite I1, H.
    transitivity (Z * (1 + py P) * ((1 - py P) * v)); [rewrite I2; ring0|ring0].
Qed.

Lemma py_minus_one P : 1 + py P == 0 -> padd P P = pzero.
Proof.
  intros H. assert (py P == -1) as Ey by (transitivity (1 + py P - 1); [ring0|rewrite H; ring0]).
  assert (px P == 0) as Ex.
  { pose proof (curve_x2 _ _ (point_curve P)) as C. rewrite Ey in C. change (-1 * -1) with 1 in C.
    assert (px P * px P * (1 + ed_d * 1) == 0) as [[G|G]%mul_zero|G]%mul_zero by (rewrite C; ring0); try done.
    exfalso. apply (one_plus_d_y2 1). rewrite <- G. ring0. }
  symmetry. apply padd_unique; cbn [pzero pt fst snd]; rewrite Ex, Ey; ring0.
Qed.

Lemma montgomery_x_ok P :
  returns (montgomery_x (encode P)) (fun x1 => tight x1 /\ fe_val x1 == montgomery_u P).
Proof.
  unfold montgomery_x. eapply returns_bind; [apply fe_frombytes_spec; [apply length_encode|apply le_bytes_ok]|]. intros y [Hy Ey].
  assert (le_val (encode P) mod 2 ^ 255 = py P) as Vy.
  { rewrite encode_val, Z.mul_comm, Z_mod_plus_full. destruct (point_range P) as [_ R]. apply Z.mod_small. unfold p25519 in R. lia. }
  rewrite Vy in Ey. destruct fe_1_val as [B1 V1]. fe_step rA EA. fe_step rS ES.
  eapply returns_bind; [apply (fe_invert_spec rS); fb|]. intros i [Hi Ei].
  eapply returns_mono; [apply (fe_mul_spec rA i); fb|]. intros x1 [Hx Ex]. split; [done|].
  rewrite Ex, EA, Ey, V1, Ei. unfold montgomery_u, fdiv. rewrite mod_eq, finv_pow, ES, V1, Ey.
  generalize ((1 - py P) ^ (p25519 - 2)). intros w. ring0.
Qed.

(** The end of the function: the last swap, the inversion and the product. *)
Lemma ladder_finish s b :
  tight_ladder s -> b = 0 \/ b = 1 ->
  let t := if b =? 1 then Ladder (x3 s) (z3 s) (x2 s) (z2 s) else s in
  (let* s := ladder_swap s b in let* z2 := fe_invert (z2 s) in let* x2 := fe_mul (x2 s) z2 in fe_tobytes x2) =
  Done (le_bytes 32 ((fe_val (x2 t) * fe_val (z2 t) ^ (p25519 - 2)) mod p25519)).
Proof.
  intros Hs Hb t. rewrite ladder_swap_ok by done. fold t. cbn [obind].
  assert (tight (x2 t) /\ tight (z2 t)) as [B1 B2] by (destruct Hs as (? & ? & ? & ?); unfold t; destruct (b =? 1); done).
  pose proof (fe_invert_spec (z2 t) ltac:(fb)) as H. apply returns_done in H as (i & -> & Hi & Ei). cbn [obind].
  pose proof (fe_mul_spec (x2 t) i ltac:(fb) ltac:(fb)) as H. apply returns_done in H as (x & -> & Hx & Ex). cbn [obind].
  rewrite fe_tobytes_spec by fb. do 2 f_equal. apply eq_mod. rewrite Ex, Ei. reflexivity.
Qed.

Lemma start_tight x1 : tight x1 -> tight_ladder (Ladder fe_1 fe_0 x1 fe_1).
Proof. intros H. destruct fe_0_val as [? _], fe_1_val as [? _]. unfold tight_ladder. cbn [x2 z2 x3 z3]. tauto. Qed.

Lemma start_rep x1 P : fe_val x1 * (1 - py P) == 1 + py P -> ~ 1 - py P == 0 -> rep_ladder (Ladder fe_1 fe_0 x1 fe_1) (pmul 0 P) (pmul (0 + 1) P).
Proof.
  intros E N. destruct fe_0_val as [_ V0], fe_1_val as [_ V1]. unfold rep_ladder, mont. cbn [x2 z2 x3 z3]. rewrite V0, V1.
  change (pmul 0 P) with pzero. change (pmul (0 + 1) P) with P. cbn [pzero pt fst snd]. splits.
  - ring0.
  - intros [H _]. by apply one_nonzero.
  - rewrite E. ring0.
  - intros [_ H]. by apply one_nonzero.
Qed.

Lemma key_exchange_ok P sk e :
  bytes_ok sk -> (32 <= length sk)%nat -> clamp (take 32 sk) = Done e -> is_clamped e ->
  ed25519_key_exchange (encode P) sk = Done (le_bytes 32 (montgomery_u (pmul (le_val e) P))).
Proof.
  intros Hb Hl Hc (Be & Le & (q & Eq) & [_ Ve] & _). unfold ed25519_key_exchange.
  rewrite mem_read_ok by (unfold zlen; lia). change (Z.to_nat 0) with 0%nat. change (Z.to_nat 32) with 32%nat.
  rewrite drop_0. cbn [obind]. rewrite Hc. cbn [obind].
  pose proof (montgomery_x_ok P) as H. apply returns_done in H as (x1 & -> & Hx & Ex). cbn [obind].
  rewrite (fe_copy_spec _ _ _ Hx). cbn [obind].
  assert (0 <= le_val e) as He0 by (pose proof (le_val_range e Be); lia).
  destruct (decide (1 - py P == 0)) as [Zm|Nm]; [|destruct (decide (1 + py P == 0)) as [Zp|Np]].
  3: { assert (fe_val x1 * (1 - py P) == 1 + py P) as Eu by (rewrite Ex; by apply fdiv_ok).
    pose proof (ladder_loop_ok P x1 e Hx Eu Nm Np Be Le 255 (Ladder fe_1 fe_0 x1 fe_1) 0 0) as H.
    specialize (H ltac:(lia) (start_tight x1 Hx) (or_introl eq_refl)). specialize (H ltac:(symmetry; apply Z.div_small; split; [done|exact Ve])).
    specialize (H (start_rep x1 P Eu Nm)). apply returns_done in H as ((s, b) & E & Hs & Hb' & Hm). rewrite E. cbn [obind].
    rewrite ladder_finish by done. do 2 f_equal. set (t := if b =? 1 then _ else _).
    assert (mont (fe_val (x2 t)) (fe_val (z2 t)) (pmul (le_val e) P)) as Ht.
    { unfold holds_multiples, rep_ladder in Hm. unfold t. destruct (b =? 1); cbn [x2 z2 x3 z3]; tauto. }
    apply canon_mod; [|apply fdiv_range]. eapply mont_quotient; [exact Ht|reflexivity]. }
  all: assert (fe_val x1 == 0) as E0 by (rewrite Ex; apply montgomery_u_special; tauto).
  all: assert (degenerate (Ladder fe_1 fe_0 x1 fe_1)) as Hd by (split; [by apply start_tight|]; destruct fe_0_val as [_ V0], fe_1_val as [_ V1];
      cbn [x2 z2 x3 z3]; rewrite V0, V1, E0; split; ring0).
  all: pose proof (degenerate_loop x1 e 254 Hx E0 _ 0 Hd (or_introl eq_refl)) as H; apply returns_done in H as ((s, b) & E & Hs & Hb' & Z2 & Z3);
    rewrite E; cbn [obind]; rewrite ladder_finish by done; do 2 f_equal.
  all: transitivity 0; [apply canon_mod; [|done]; destruct (b =? 1); cbn [x2 z2 x3 z3]; rewrite ?Z2, ?Z3, Z.pow_0_l by done; ring0|].
  all: symmetry; apply montgomery_u_0.
  - assert (P = pzero) as ->; [|by rewrite pmul_point_0].
    assert (py P == 1) as Ey by (transitivity (1 - (1 - py P)); [ring0|rewrite Zm; ring0]).
    assert (px P == 0) as Exx.
    { pose proof (curve_x2 _ _ (point_curve P)) as C. rewrite Ey in C.
      assert (px P * px P * (1 + ed_d * (1 * 1)) == 0) as [[G|G]%mul_zero|G]%mul_zero by (rewrite C; ring0); try done.
      exfalso. by apply (one_plus_d_y2 1). }
    by apply point_eq.
  - rewrite Eq. replace (8 * q) with (4 * q * 2) by lia. rewrite pmul_mul, pmul_double, py_minus_one by done. by rewrite pmul_point_0.
Qed.

(** What one side of the exchange computes. *)
Lemma exchange_secret pa ska a pb skb b :
  is_key_pair pa ska a -> is_key_pair pb skb b ->
  ed25519_key_exchange pa skb = Done (le_bytes 32 (montgomery_u (pmul (a * b) ed_B))).
Proof.
  intros (_ & _ & _ & _ & ->) (Lb & Bb & Cb & Eb & _). rewrite (key_exchange_ok _ skb (take 32 skb)); [|done|lia|apply Cb|done].
  by rewrite <- Eb, (Z.mul_comm a b), pmul_mul.
Qed.

(** Both sides compute the same secret. *)
Lemma exchange_agrees pa ska a pb skb b :
  is_key_pair pa ska a -> is_key_pair pb skb b ->
  exists s, ed25519_key_exchange pa skb = Done s /\ ed25519_key_exchange pb ska = Done s /\ length s = 32%nat /\ bytes_ok s.
Proof.
  intros Ha Hb. exists (le_bytes 32 (montgomery_u (pmul (a * b) ed_B))). splits.
  - by apply (exchange_secret pa ska a pb skb b).
  - rewrite Z.mul_comm. by apply (exchange_secret pb skb b pa ska a).
  - apply length_le_bytes.
  - apply le_bytes_ok.
Qed.
