(* ===== verification/Ed25519Inst.v ===== *)
(** The interface [Ed25519.Ed25519] discharged by the code: its operations are those of
    src/src/ed25519 on inputs of the right sizes, and its laws are the theorems about them.

    The interface is total; outside the sizes that ed25519.h asks for the operations are
    completed in an arbitrary way that keeps the laws. *)
From S2P Require Import Prelude Bytes Sha512 Ed25519 Limbs Fe Edwards Sc Ge Ed25519Code EdSign EdLadder.

(** The uninitialised hash context. *)
Definition stack_context : sha512_context := Md 0 [] 0 (replicate 128 0).

(** The bytes of a result, [n] zeros if there is none. *)
Definition run_bytes (n : nat) (o : outcome (list Z)) : list Z :=
  match o with
  | Done s => if decide (length s = n /\ bytes_ok s) then s else replicate n 0
  | Stop _ => replicate n 0
  end.

Definition short (msg : list Z) : list Z := if 8 * (zlen msg + 64) <? 2 ^ 64 then msg else [].

Definition code_keypair (seed : list Z) : list Z * list Z :=
  match ed25519_create_keypair stack_context (Toy.pad seed) with
  | Done p => p
  | Stop _ => (replicate 32 0, replicate 64 0)
  end.

Definition code_key_exchange (pub priv : list Z) : list Z := run_bytes 32 (ed25519_key_exchange pub priv).

Definition code_sign (msg pub priv : list Z) : list Z := run_bytes 64 (ed25519_sign stack_context (short msg) pub priv).

Definition code_verify (sig msg pub : list Z) : bool :=
  match ed25519_verify stack_context sig (short msg) pub with Done b => b | Stop _ => false end.

Lemma zeros_ok n : length (replicate n 0) = n /\ bytes_ok (replicate n 0).
Proof.
  split; [apply length_replicate|]. apply Forall_forall. intros x Hx%elem_of_replicate. lia.
Qed.

Lemma run_bytes_ok n o : length (run_bytes n o) = n /\ bytes_ok (run_bytes n o).
Proof. destruct o as [s|]; cbn [run_bytes]; [case_decide as H; [done|]|]; apply zeros_ok. Qed.

Lemma run_bytes_done n s : length s = n -> bytes_ok s -> run_bytes n (Done s) = s.
Proof. intros H1 H2. cbn [run_bytes]. by rewrite decide_True. Qed.

Lemma short_ok msg : 8 * (zlen (short msg) + 64) < 2 ^ 64.
Proof. unfold short. destruct (Z.ltb_spec (8 * (zlen msg + 64)) (2 ^ 64)); done. Qed.

Lemma code_keypair_ok seed : exists a, is_key_pair (code_keypair seed).1 (code_keypair seed).2 a.
Proof.
  destruct (Toy.pad_ok seed) as [Hl Hb]. unfold code_keypair.
  destruct (create_keypair_ok stack_context (Toy.pad seed) eq_refl Hl Hb) as (pk & sk & a & -> & H & _). by exists a.
Qed.

Lemma code_agrees a b :
  code_key_exchange (code_keypair a).1 (code_keypair b).2 = code_key_exchange (code_keypair b).1 (code_keypair a).2.
Proof.
  destruct (code_keypair_ok a) as [x Hx], (code_keypair_ok b) as [y Hy].
  destruct (exchange_agrees _ _ _ _ _ _ Hx Hy) as (s & E1 & E2 & _). unfold code_key_exchange. by rewrite E1, E2.
Qed.

Lemma code_verifies seed msg :
  code_verify (code_sign msg (code_keypair seed).1 (code_keypair seed).2) msg (code_keypair seed).1 = true.
Proof.
  destruct (code_keypair_ok seed) as [a Ha].
  destruct (sign_verifies stack_context stack_context (short msg) _ _ a eq_refl eq_refl (key_pair_signs _ _ _ Ha) (short_ok msg)) as (sig & E & L & B & V).
  unfold code_sign, code_verify. rewrite E, run_bytes_done by done. by rewrite V.
Qed.

#[refine] Instance code_ed25519 : Ed25519.Ed25519 := {|
  Ed25519.ed25519_create_keypair := code_keypair;
  Ed25519.ed25519_key_exchange := code_key_exchange;
  Ed25519.ed25519_sign := code_sign;
  Ed25519.ed25519_verify := code_verify;
|}.
Proof.
  - intros seed. destruct (code_keypair_ok seed) as (a & L & B & _ & _ & ->). splits; [apply length_encode|apply le_bytes_ok|done|done].
  - intros pub priv. apply run_bytes_ok.
  - intros msg pub priv. apply run_bytes_ok.
  - exact code_agrees.
  - exact code_verifies.
Defined.
