(* ===== verification/FeTheorems.v ===== *)
(** What the theorems about the field and the scalar arithmetic come to: fe.c computes in
    the integers modulo [2 ^ 255 - 19] within the bounds its comments give, and sc.c in the
    integers modulo the order of the base point. *)
From S2P Require Import Prelude Bytes Limbs Fe FeArith Prime25519 Edwards Sc.

(** ** Types *)

(** Ten limbs of [int32_t]. *)
Definition fe_typed (f : fe) : bool := (length f =? 10)%nat && forallb (fits 32) f.

(** A computation of an element is typed when what it returns is. *)
Definition typed (o : outcome fe) : Prop := forall h, o = Done h -> fe_typed h = true.

Lemma s32_fits x : fits 32 (s32 x) = true.
Proof.
  unfold fits, s32. change (2 ^ (32 - 1)) with (2 ^ 31). pose proof (Z.mod_pos_bound (x + 2 ^ 31) (2 ^ 32) ltac:(lia)).
  apply andb_true_iff. rewrite Z.leb_le, Z.ltb_lt. change (2 ^ 32) with (2 * 2 ^ 31) in *. lia.
Qed.

Lemma typed_bind {A} (m : outcome A) k : (forall a, m = Done a -> typed (k a)) -> typed (obind m k).
Proof. intros H h E. destruct m as [a|]; [|discriminate E]. exact (H a eq_refl h E). Qed.

Lemma carries_length w cs : forall h h', carries w cs h = Done h' -> length h' = length h.
Proof.
  induction cs as [|c cs IH]; intros h h' E; cbn [carries] in E; [congruence|].
  destruct (do_carry w c h) as [h1|] eqn:E1; [|discriminate E]. cbn [obind] in E. rewrite (IH _ _ E).
  unfold do_carry in E1. repeat (unfold ck at 1 in E1; case_match; cbn [obind] in E1; [|discriminate E1]).
  injection E1 as <-. by rewrite !length_insert.
Qed.

Lemma typed_store w cs (m : outcome (list Z)) : (forall h, m = Done h -> length h = 10%nat) ->
  typed (let* h := m in let* h := carries w cs h in Done (store h)).
Proof.
  intros Hm. apply typed_bind. intros h Eh. apply typed_bind. intros h' Eh'. intros f [= <-].
  unfold fe_typed, store. rewrite length_fmap, (carries_length _ _ _ _ Eh'), (Hm h Eh). cbn [Nat.eqb andb].
  apply forallb_forall. intros x Hx. apply list_elem_of_In, list_elem_of_fmap in Hx as (y & -> & _). apply s32_fits.
Qed.

Lemma map2M_length op f : forall g h, map2M op f g = Done h -> length h = length f.
Proof.
  induction f as [|x f IH]; intros [|y g] h E; cbn in E; try discriminate E; [by injection E as <-|].
  destruct (op x y); [|discriminate E]. cbn [obind] in E. destruct (map2M op f g) as [k|] eqn:Ek; [|discriminate E].
  injection E as <-. cbn [length]. by rewrite (IH _ _ Ek).
Qed.

Lemma map2M_typed v f : forall g h, map2M (fun x y => int32 (v x y)) f g = Done h -> forallb (fits 32) h = true.
Proof.
  induction f as [|x f IH]; intros [|y g] h E; cbn in E; try discriminate E; [by injection E as <-|].
  unfold ck in E at 1. destruct (fits 32 (v x y)) eqn:Ev; [|discriminate E]. cbn [obind] in E.
  destruct (map2M _ f g) as [k|] eqn:Ek; [|discriminate E]. injection E as <-. cbn [forallb]. by rewrite Ev, (IH _ _ Ek).
Qed.

Lemma typed_map2 v f g : fe_typed f = true -> typed (map2M (fun x y => int32 (v x y)) f g).
Proof.
  intros Hf h E. unfold fe_typed in *. apply andb_true_iff in Hf as [Hf _].
  by rewrite (map2M_length _ _ _ _ E), Hf, (map2M_typed _ _ _ _ E).
Qed.

(** A row of bindings that ends in ten columns has ten columns. *)
Lemma obind_length {A} (m : outcome A) k n (h : list Z) :
  (forall a, k a = Done h -> length h = n) -> obind m k = Done h -> length h = n.
Proof. intros H E. destruct m as [a|]; [exact (H a E)|discriminate E]. Qed.

Ltac columns := intros h; unfold limbs10;
  repeat match goal with |- context [match ?l with [] => _ | _ :: _ => _ end] => destruct l; try discriminate end;
  repeat (apply obind_length; intros ?); by intros [= <-].

Lemma mul_columns_length f g h : mul_columns f g = Done h -> length h = 10%nat.
Proof. revert h. unfold mul_columns. columns. Qed.

Lemma sq_columns_length f h : sq_columns f = Done h -> length h = 10%nat.
Proof. revert h. unfold sq_columns. columns. Qed.

Lemma typed_mul f g : typed (fe_mul f g).
Proof. apply typed_store. intros h. apply mul_columns_length. Qed.

Lemma typed_sq f : typed (fe_sq f).
Proof. apply typed_store. intros h. apply sq_columns_length. Qed.

Lemma typed_sq2 f : typed (fe_sq2 f).
Proof.
  unfold fe_sq2. apply typed_bind. intros h Eh. apply typed_store. intros h' E.
  rewrite (map2M_length _ _ _ _ E). by apply (sq_columns_length f).
Qed.

Lemma typed_mul121666 f : fe_typed f = true -> typed (fe_mul121666 f).
Proof.
  intros Hf. apply typed_store. intros h E. rewrite (map2M_length _ _ _ _ E). unfold fe_typed in Hf.
  apply andb_true_iff in Hf as [Hf _]. by apply Nat.eqb_eq.
Qed.

Lemma typed_frombytes s : typed (fe_frombytes s).
Proof.
  unfold fe_frombytes. destruct (length s <? 32)%nat; [intros h E; discriminate E|].
  apply (typed_store 64 pair_carries (Done (frombytes_limbs s))). by intros h [= <-].
Qed.

Lemma typed_invert f : typed (fe_invert f).
Proof. unfold fe_invert. repeat match goal with |- typed (obind _ _) => apply typed_bind; intros ? _ end. apply typed_mul. Qed.

Lemma typed_pow22523 f : typed (fe_pow22523 f).
Proof. unfold fe_pow22523. repeat match goal with |- typed (obind _ _) => apply typed_bind; intros ? _ end. apply typed_mul. Qed.

(** Types of the field operations: whatever bytes an element is read from, and
    whatever elements of ten [int32_t] limbs an operation is given, the result, when the
    operation returns, is again ten limbs that fit [int32_t]; the conversions from the
    64-bit intermediate limbs included. *)
Theorem field_operations_typed s f g :
  fe_typed f = true -> fe_typed g = true ->
  typed (fe_frombytes s) /\ typed (fe_add f g) /\ typed (fe_sub f g) /\ typed (fe_neg f) /\
  typed (fe_mul f g) /\ typed (fe_sq f) /\ typed (fe_sq2 f) /\ typed (fe_mul121666 f) /\
  typed (fe_invert f) /\ typed (fe_pow22523 f).
Proof.
  intros Hf Hg.
  splits; [apply typed_frombytes|by apply (typed_map2 Z.add)|by apply (typed_map2 Z.sub)|by apply (typed_map2 (fun x _ => - x))
    |apply typed_mul|apply typed_sq|apply typed_sq2|by apply typed_mul121666|apply typed_invert|apply typed_pow22523].
Qed.

(** A carry out of the first limb. *)
Lemma field_operations_typed_witness :
  fe_mul (-1 :: replicate 9 0) (2 ^ 26 :: replicate 9 0) = Done [0; -1; 0; 0; 0; 0; 0; 0; 0; 0] /\
  fe_typed [0; -1; 0; 0; 0; 0; 0; 0; 0; 0] = true.
Proof.
  assert (fe_mul (-1 :: replicate 9 0) (2 ^ 26 :: replicate 9 0) = Done [0; -1; 0; 0; 0; 0; 0; 0; 0; 0]) as E
    by (vm_compute; reflexivity).
  destruct (field_operations_typed [] (-1 :: replicate 9 0) (2 ^ 26 :: replicate 9 0) eq_refl eq_refl) as (_ & _ & _ & _ & H & _).
  split; [exact E|exact (H _ E)].
Defined.

(** ** Bounds and values *)

(** The operation returns an element within [c * 2 ^ e] that stands for [v]. *)
Definition computes (o : outcome fe) (c e v : Z) : Prop :=
  returns o (fun h => bounded c e h /\ fe_val h == v).

Lemma computes_add f g : bounded 110 25 f -> bounded 110 25 g -> computes (fe_add f g) 110 26 (fe_val f + fe_val g).
Proof.
  intros Hf Hg. eapply returns_mono; [apply (fe_add_in (fe_bound 110 25) (fe_bound 110 25)); [done|done|reflexivity|vm_compute; reflexivity]|].
  intros h [Hb E]. rewrite E. split; [|reflexivity]. eapply subI_ok; [|exact Hb]. vm_compute. reflexivity.
Qed.

Lemma computes_sub f g : bounded 110 25 f -> bounded 110 25 g -> computes (fe_sub f g) 110 26 (fe_val f - fe_val g).
Proof.
  intros Hf Hg. eapply returns_mono; [apply (fe_sub_in (fe_bound 110 25) (fe_bound 110 25)); [done|done|reflexivity|vm_compute; reflexivity]|].
  intros h [Hb E]. rewrite E. split; [|reflexivity]. eapply subI_ok; [|exact Hb]. vm_compute. reflexivity.
Qed.

Lemma computes_neg f : bounded 110 25 f -> computes (fe_neg f) 110 25 (- fe_val f).
Proof.
  intros Hf. eapply returns_mono; [apply (fe_neg_in (fe_bound 110 25)); [done|vm_compute; reflexivity]|].
  intros h [Hb E]. rewrite E. split; [|reflexivity]. eapply subI_ok; [|exact Hb]. vm_compute. reflexivity.
Qed.

(** C27. The contracts in the comments of fe.c: on operands within the stated bounds no
    signed operation overflows, in 32 or in 64 bits, the result is within the stated
    bounds, and it stands for the sum, difference, negation, product, square, double
    square or multiple modulo [2 ^ 255 - 19]; [fe_invert] and [fe_pow22523] compute the
    powers [p - 2] and [(p - 5) / 8], the first being the inverse of every element that is
    not zero. *)
Theorem field_operations_bounded f g :
  (bounded 110 25 f -> bounded 110 25 g ->
     computes (fe_add f g) 110 26 (fe_val f + fe_val g) /\ computes (fe_sub f g) 110 26 (fe_val f - fe_val g) /\
     computes (fe_neg f) 110 25 (- fe_val f)) /\
  (bounded 165 26 f -> bounded 165 26 g ->
     computes (fe_mul f g) 101 25 (fe_val f * fe_val g) /\ computes (fe_sq f) 101 25 (fe_val f * fe_val f) /\
     computes (fe_sq2 f) 101 25 (2 * (fe_val f * fe_val f)) /\
     computes (fe_pow22523 f) 101 25 (fe_val f ^ ((p25519 - 5) / 8)) /\
     returns (fe_invert f) (fun i => bounded 101 25 i /\ (~ fe_val f == 0 -> fe_val f * fe_val i == 1))) /\
  (bounded 110 26 f -> computes (fe_mul121666 f) 110 25 (121666 * fe_val f)).
Proof.
  split; [intros Hf Hg; splits; by auto using computes_add, computes_sub, computes_neg|].
  split; [|apply fe_mul121666_spec]. intros Hf Hg. splits.
  - by apply fe_mul_spec.
  - by apply fe_sq_spec.
  - by apply fe_sq2_spec.
  - by apply fe_pow22523_spec.
  - eapply returns_mono; [by apply fe_invert_spec|]. intros i [Hi E]. split; [done|]. intros N. rewrite E. by apply pow_inverse.
Qed.

(** The limbs at the bounds of the multiplication. *)
Lemma field_operations_bounded_witness :
  returns (fe_mul (snd <$> fe_bound 165 26) (fst <$> fe_bound 165 26)) (fun h => bounded 101 25 h).
Proof.
  assert (bounded 165 26 (snd <$> fe_bound 165 26) /\ bounded 165 26 (fst <$> fe_bound 165 26)) as [Hf Hg].
  { unfold inbs, inb, fe_bound. cbn [fmap list_fmap]. split; repeat (constructor; [vm_compute; split; discriminate|]); constructor. }
  destruct (field_operations_bounded (snd <$> fe_bound 165 26) (fst <$> fe_bound 165 26)) as (_ & H & _).
  destruct (H Hf Hg) as (M & _). exact (returns_mono _ _ _ M (fun h Hh => proj1 Hh)).
Defined.

(** ** Bytes *)

(** Canonical bytes: any 32 bytes are read as the number they are, less the top bit,
    and written as the representative between 0 and [2 ^ 255 - 20]; so equal elements have
    equal bytes and a canonical string is read and written unchanged. For every element within
    the bounds of [fe_tobytes], [fe_isnegative] is the lowest bit of that representative and
    [fe_isnonzero] tells whether it is zero. *)
Theorem field_bytes_canonical s f :
  length s = 32%nat -> bytes_ok s -> bounded 110 26 f ->
  (let* h := fe_frombytes s in fe_tobytes h) = Done (le_bytes 32 ((le_val s mod 2 ^ 255) mod p25519)) /\
  (le_val s < p25519 -> (let* h := fe_frombytes s in fe_tobytes h) = Done s) /\
  fe_tobytes f = Done (le_bytes 32 (fe_val f mod p25519)) /\
  fe_isnegative f = Done ((fe_val f mod p25519) mod 2) /\
  fe_isnonzero f = Done (negb (fe_val f mod p25519 =? 0)).
Proof.
  intros Hl Hs Hf.
  assert ((let* h := fe_frombytes s in fe_tobytes h) = Done (le_bytes 32 ((le_val s mod 2 ^ 255) mod p25519))) as E.
  { pose proof (fe_frombytes_spec s Hl Hs) as H. apply returns_done in H as (h & -> & Hb & V). cbn [obind].
    rewrite fe_tobytes_spec by (eapply subI_ok; [|exact Hb]; vm_compute; reflexivity). do 2 f_equal. by apply eq_mod. }
  splits; [exact E| |by apply fe_tobytes_spec|by apply fe_isnegative_spec|by apply fe_isnonzero_spec].
  intros Hv. rewrite E. pose proof (le_val_range s Hs). rewrite (Z.mod_small (le_val s) (2 ^ 255)) by (unfold p25519 in *; lia).
  rewrite (Z.mod_small (le_val s) p25519) by lia.
  f_equal. rewrite <- Hl. by apply le_bytes_val.
Qed.

(** [2 ^ 255 - 1] is read as 18; [-1] is written as [2 ^ 255 - 20]. *)
Lemma field_bytes_canonical_witness :
  (let* h := fe_frombytes (replicate 32 255) in fe_tobytes h) = Done (18 :: replicate 31 0) /\
  fe_tobytes (-1 :: replicate 9 0) = Done (236 :: replicate 30 255 ++ [127]).
Proof.
  destruct (field_bytes_canonical (replicate 32 255) (-1 :: replicate 9 0)) as (H1 & _ & H2 & _).
  - reflexivity.
  - unfold bytes_ok. cbn [replicate]. repeat (constructor; [lia|]). constructor.
  - unfold inbs, inb, fe_bound. cbn [replicate]. repeat (constructor; [vm_compute; split; discriminate|]). constructor.
  - rewrite H1, H2. split; vm_compute; reflexivity.
Defined.

(** ** Scalars *)

(** C28. The scalars: [sc_reduce] replaces the first 32 of 64 bytes by the residue of the
    whole number modulo the order of the base point, and [sc_muladd] computes [a * b + c]
    modulo that order from any three strings of 32 bytes; both write the least residue, no
    64-bit operation overflows. *)
Theorem scalars_modulo_order s a b c :
  bytes_ok s -> length s = 64%nat -> bytes_ok a -> length a = 32%nat -> bytes_ok b -> length b = 32%nat ->
  bytes_ok c -> length c = 32%nat ->
  sc_reduce s = Done (le_bytes 32 (le_val s mod sc_l) ++ drop 32 s) /\
  sc_muladd a b c = Done (le_bytes 32 ((le_val a * le_val b + le_val c) mod sc_l)).
Proof. intros. split; [by apply sc_reduce_spec|by apply sc_muladd_spec]. Qed.

(** All bytes 255. *)
Lemma scalars_modulo_order_witness :
  exists t, sc_reduce (replicate 64 255) = Done t /\ le_val (take 32 t) = (2 ^ 512 - 1) mod sc_l.
Proof.
  destruct (scalars_modulo_order (replicate 64 255) (replicate 32 255) (replicate 32 255) (replicate 32 255)) as [H _];
    try reflexivity; try (unfold bytes_ok; cbn [replicate]; repeat (constructor; [lia|]); constructor).
  eexists. split; [exact H|]. vm_compute. reflexivity.
Defined.
