(* ===== verification/GeTheorems.v ===== *)
(** What the theorems about ge.c come to: its representations refine the points of the
    curve, its encodings are those of RFC 8032, its tables hold multiples of the base point,
    and its two scalar multiplications compute multiples in the group. *)
From S2P Require Import Prelude Bytes Limbs Fe FeArith Prime25519 Edwards Sc Ge GePrecomp GeArith GeTables GeMult.

(** C24. The point operations refine the group: on representations of [P] and [Q] whose
    limbs are within the invariant's bounds, additions and subtractions of a cached or a
    precomputed point and doublings return, without signed overflow, a representation of
    [P + Q], [P - Q] or [2 P], equal points included since the addition law has no
    exceptions; the conversions between the coordinate systems keep the point. *)
Theorem point_operations_refine_group p p2 q r t P Q :
  rep_p3 p P -> rep_p2 p2 P -> rep_cached q Q -> rep_precomp r Q -> rep_p1p1 t P ->
  returns (ge_add p q) (fun s => rep_p1p1 s (padd P Q)) /\ returns (ge_sub p q) (fun s => rep_p1p1 s (psub P Q)) /\
  returns (ge_madd p r) (fun s => rep_p1p1 s (padd P Q)) /\ returns (ge_msub p r) (fun s => rep_p1p1 s (psub P Q)) /\
  returns (ge_p2_dbl p2) (fun s => rep_p1p1 s (padd P P)) /\ returns (ge_p3_dbl p) (fun s => rep_p1p1 s (padd P P)) /\
  returns (ge_p1p1_to_p2 t) (fun s => rep_p2 s P) /\ returns (ge_p1p1_to_p3 t) (fun s => rep_p3 s P) /\
  returns (ge_p3_to_p2 p) (fun s => rep_p2 s P) /\ returns (ge_p3_to_cached p) (fun s => rep_cached s P).
Proof.
  intros. splits; [by apply ge_add_spec|by apply ge_sub_spec|by apply ge_madd_spec|by apply ge_msub_spec|by apply ge_p2_dbl_spec
    |by apply ge_p3_dbl_spec|by apply ge_p1p1_to_p2_spec|by apply ge_p1p1_to_p3_spec|by apply ge_p3_to_p2_spec|by apply ge_p3_to_cached_spec].
Qed.

(** The identity and the first entry of the table: [0 + B]. *)
Lemma point_operations_refine_group_witness :
  exists s, ge_madd ge_p3_0 (Bi !!! 0%nat) = Done s /\ rep_p1p1 s ed_B.
Proof.
  assert (rep_precomp (Bi !!! 0%nat) ed_B) as HB by exact (Bi_table 0 (Bi !!! 0%nat) eq_refl).
  destruct (proj1 (returns_done _ _) (ge_madd_spec _ _ pzero ed_B ge_p3_0_rep HB)) as (t & _ & Ht).
  destruct (proj1 (returns_done _ _) (ge_p1p1_to_p3_spec _ _ Ht)) as (h & _ & Hh).
  destruct (proj1 (returns_done _ _) (ge_p3_to_cached_spec _ _ Hh)) as (q & _ & Hq). rewrite padd_0_l in Hq.
  destruct (proj1 (returns_done _ _) (ge_p3_dbl_spec _ _ ge_p3_0_rep)) as (z & _ & Hz). rewrite padd_0_l in Hz.
  destruct (point_operations_refine_group ge_p3_0 ge_p2_0 q (Bi !!! 0%nat) z pzero ed_B ge_p3_0_rep ge_p2_0_rep Hq HB Hz)
    as (_ & _ & H & _).
  destruct (proj1 (returns_done _ _) H) as (s & E & Hs). exists s. split; [exact E|]. by rewrite padd_0_l in Hs.
Defined.

(** Encodings of points: a representation of [P] is written as the 32 bytes of RFC 8032,
    the ordinate with the parity of the abscissa on top, and reading them back gives a
    representation of [-P]; reading any 32 bytes returns: a representation of the point
    with that ordinate and the opposite parity (the code negates), or -1 exactly when no
    point of the curve has that ordinate. *)
Theorem point_encoding h P s :
  rep_p3 h P -> length s = 32%nat -> bytes_ok s ->
  ge_p3_tobytes h = Done (le_bytes 32 (py P + 2 ^ 255 * (px P mod 2))) /\
  returns (let* e := ge_p3_tobytes h in ge_frombytes_negate_vartime e) (fun o => exists h', o = Some h' /\ rep_p3 h' (popp P)) /\
  returns (ge_frombytes_negate_vartime s) (fun o => match o with
    | Some h' => exists Q, rep_p3 h' Q /\ py Q == le_val s mod 2 ^ 255 /\ (px Q = 0 \/ px Q mod 2 <> le_val s / 2 ^ 255)
    | None => forall Q, ~ py Q == le_val s mod 2 ^ 255
    end).
Proof.
  intros Hh Hl Hs. rewrite (ge_p3_tobytes_spec h P Hh). cbn [obind]. splits.
  - reflexivity.
  - apply ge_frombytes_encode.
  - eapply returns_mono; [by apply ge_frombytes_spec|]. intros [h'|]; [|done]. intros (Q & HQ & Hy & Hx). by exists Q.
Qed.

(** The identity; and the bytes 2, 0, ... that encode no point. *)
Lemma point_encoding_witness :
  ge_p3_tobytes ge_p3_0 = Done (1 :: replicate 31 0) /\ ge_frombytes_negate_vartime (2 :: replicate 31 0) = Done None /\
  forall Q, ~ py Q == 2.
Proof.
  destruct (point_encoding ge_p3_0 pzero (2 :: replicate 31 0) ge_p3_0_rep eq_refl) as (H1 & _ & H3).
  { unfold bytes_ok. cbn [replicate]. repeat (constructor; [lia|]). constructor. }
  assert (ge_frombytes_negate_vartime (2 :: replicate 31 0) = Done None) as E by (vm_compute; reflexivity).
  rewrite E in H3. split; [exact H1|]. split; [exact E|exact H3].
Defined.

(** C25. Multiples of the base point: [base[i][j]] is [(j + 1) * 256 ^ i * B] and [Bi[j]] is
    [(2 j + 1) * B] for every entry of precomp_data.h, [B] has order [l], and
    [ge_scalarmult_base] returns a representation of [a * B] for every scalar of 32 bytes
    below [2 ^ 255], through the signed digits and the constant-time selection. *)
Theorem base_multiples a :
  bytes_ok a -> length a = 32%nat -> le_val a < 2 ^ 255 ->
  (forall i row j e, base !! i = Some row -> row !! j = Some e -> rep_precomp e (pmul ((Z.of_nat j + 1) * 256 ^ Z.of_nat i) ed_B)) /\
  (forall j e, Bi !! j = Some e -> rep_precomp e (pmul (2 * Z.of_nat j + 1) ed_B)) /\
  length base = 32%nat /\ Forall (fun row => length row = 8%nat) base /\ length Bi = 8%nat /\
  pmul sc_l ed_B = pzero /\
  returns (ge_scalarmult_base base a) (fun h => rep_p3 h (pmul (le_val a) ed_B)).
Proof.
  intros Ha Hl Hv. splits; [intros; by eapply base_table|intros; by apply Bi_table|done|by repeat constructor|done|apply base_order
    |by apply ge_scalarmult_base_spec].
Qed.

Lemma base_multiples_witness :
  returns (ge_scalarmult_base base (5 :: replicate 31 0)) (fun h => rep_p3 h (pmul 5 ed_B)).
Proof.
  destruct (base_multiples (5 :: replicate 31 0)) as (_ & _ & _ & _ & _ & _ & H).
  - unfold bytes_ok. cbn [replicate]. repeat (constructor; [lia|]). constructor.
  - reflexivity.
  - reflexivity.
  - exact H.
Defined.

(** C26. Two scalars at once: for scalars below [2 ^ 253] the sliding windows are 256 digits,
    each zero or odd between -15 and 15, with the value of the scalar, and
    [ge_double_scalarmult_vartime] returns a representation of [a * A + b * B]. *)
Theorem double_scalar_multiplication a h A b :
  bytes_ok a -> length a = 32%nat -> le_val a < 2 ^ 253 ->
  bytes_ok b -> length b = 32%nat -> le_val b < 2 ^ 253 -> rep_p3 h A ->
  dval 2 (slide a) = le_val a /\ length (slide a) = 256%nat /\ Forall (fun d => is_true (odd_digit d)) (slide a) /\
  returns (ge_double_scalarmult_vartime Bi a h b)
    (fun r => rep_p2 r (padd (pmul (le_val a) A) (pmul (le_val b) ed_B))).
Proof.
  intros Ha La Va Hb Lb Vb Hh. destruct (slide_ok a Ha La Va) as (V & L & F).
  splits; [exact V|exact L|exact F|by apply ge_double_scalarmult_spec].
Qed.

(** The digits of 255: 256 less 1. *)
Lemma double_scalar_multiplication_witness :
  take 9 (slide (255 :: replicate 31 0)) = [-1; 0; 0; 0; 0; 0; 0; 0; 1] /\
  returns (ge_double_scalarmult_vartime Bi (255 :: replicate 31 0) ge_p3_0 (5 :: replicate 31 0))
    (fun r => rep_p2 r (pmul 5 ed_B)).
Proof.
  split; [vm_compute; reflexivity|].
  assert (forall x, 0 <= x < 256 -> bytes_ok (x :: replicate 31 0)) as Hb.
  { intros x Hx. unfold bytes_ok. cbn [replicate]. constructor; [exact Hx|]. repeat (constructor; [lia|]). constructor. }
  destruct (double_scalar_multiplication (255 :: replicate 31 0) ge_p3_0 pzero (5 :: replicate 31 0)
    (Hb 255 ltac:(lia)) eq_refl eq_refl (Hb 5 ltac:(lia)) eq_refl eq_refl ge_p3_0_rep) as (_ & _ & _ & H).
  change (le_val (255 :: replicate 31 0)) with 255 in H. change (le_val (5 :: replicate 31 0)) with 5 in H.
  rewrite pmul_point_0, padd_0_l in H. exact H.
Defined.
