(* ===== verification/Ed25519Theorems.v ===== *)
(** What the theorems about sign.c, verify.c, keypair.c, key_exchange.c and add_scalar.c come
    to: key pairs, signatures, shared secrets and derived keys in terms of the group of the
    curve, the integers modulo the order of the base point, and SHA-512. *)
From S2P Require Import Prelude Bytes Sha512 Limbs Fe Prime25519 Edwards Sc Ge GeArith GePrecomp Ed25519Code EdSign EdLadder Ed25519Inst.

(** C10. Key pairs and their signatures: from a seed of 32 bytes [ed25519_create_keypair]
    returns the clamped digest of the seed as private key and the encoding of [a * B] as
    public key, [a] being the clamped scalar; [ed25519_sign] with them returns, for every
    message whose length in bits fits 64 bits, the two halves of RFC 8032 and nothing else;
    and [ed25519_verify] accepts that signature. What the hash contexts on the stack hold
    does not matter. *)
Theorem signatures_verify hash1 hash2 hash3 seed msg :
  length (buf hash1) = 128%nat -> length (buf hash2) = 128%nat -> length (buf hash3) = 128%nat ->
  length seed = 32%nat -> bytes_ok seed -> 8 * (zlen msg + 64) < 2 ^ 64 ->
  exists pk sk a, ed25519_create_keypair hash1 seed = Done (pk, sk) /\ is_key_pair pk sk a /\
    clamp (sha512_ref seed) = Done sk /\
    ed25519_sign hash2 msg pk sk = Done (sign_ref msg pk sk) /\
    ed25519_verify hash3 (sign_ref msg pk sk) msg pk = Done true.
Proof.
  intros H1 H2 H3 Hl Hb Hm. destruct (create_keypair_ok hash1 seed H1 Hl Hb) as (pk & sk & a & E & Hk & Hc).
  destruct (sign_verifies hash2 hash3 msg pk sk a H2 H3 (key_pair_signs _ _ _ Hk) Hm) as (sig & Es & _ & _ & Ev).
  pose proof Hk as (Ls & Bs & _ & _ & Ep).
  assert (ed25519_sign hash2 msg pk sk = Done (sign_ref msg pk sk)) as Er.
  { apply sign_computes; try done. rewrite Ep. apply length_encode. }
  rewrite Er in Es. injection Es as <-. by exists pk, sk, a.
Qed.

(** The seed of 32 zeros and the empty message. *)
Lemma signatures_verify_witness :
  exists pk sk, ed25519_create_keypair stack_context (replicate 32 0) = Done (pk, sk) /\
    ed25519_verify stack_context (sign_ref [] pk sk) [] pk = Done true.
Proof.
  destruct (signatures_verify stack_context stack_context stack_context (replicate 32 0) [] eq_refl eq_refl eq_refl eq_refl
    (proj2 (zeros_ok 32)) eq_refl) as (pk & sk & a & E & _ & _ & _ & V).
  exists pk, sk. split; [exact E|exact V].
Defined.

(** C11. What [ed25519_verify] accepts: for every public key of 32 bytes, signature of 64
    bytes and message whose length in bits fits 64 bits it returns, and it returns 1 exactly
    when the second half is below [2 ^ 253] and the public key is the encoding of a point
    [-P] with [k * P + S * B], [k] the digest of both halves' challenge, encoding to the
    first half: the equation of RFC 8032 without the cofactor. *)
Theorem verify_accepts hash msg pk R S :
  length (buf hash) = 128%nat -> length pk = 32%nat -> bytes_ok pk ->
  length R = 32%nat -> bytes_ok R -> length S = 32%nat -> bytes_ok S -> 8 * (zlen msg + 64) < 2 ^ 64 ->
  exists b, ed25519_verify hash (R ++ S) msg pk = Done b /\ (b = true <-> accepts msg pk R S).
Proof. intros. apply returns_done. by apply verify_spec. Qed.

(** A signature whose second half is too large, under the key of the identity. *)
Lemma verify_accepts_witness :
  ed25519_verify stack_context (replicate 32 0 ++ replicate 32 255) [] (1 :: replicate 31 0) = Done false.
Proof.
  assert (bytes_ok (1 :: replicate 31 0)) as B1 by (constructor; [lia|apply (zeros_ok 31)]).
  assert (bytes_ok (replicate 32 255)) as B2 by (apply Forall_forall; intros x Hx%elem_of_replicate; lia).
  destruct (verify_accepts stack_context [] (1 :: replicate 31 0) (replicate 32 0) (replicate 32 255)
    eq_refl eq_refl B1 eq_refl (proj2 (zeros_ok 32)) eq_refl B2 eq_refl) as ([|] & E & Hb); [|exact E].
  destruct (proj1 Hb eq_refl) as [H _]. exfalso. revert H. vm_compute. discriminate.
Defined.

(** C12. Key exchange: with the public key of any point [P] and a private key of at least 32
    bytes, [ed25519_key_exchange] returns the Montgomery abscissa of the multiple of [P] by
    the clamped scalar, exceptional points included (0 for the identity and the point of
    order two); so for key pairs made from any two seeds both sides get the secret
    of [(a * b) * B]. *)
Theorem key_exchange_agrees P sk hash1 hash2 seed1 seed2 :
  bytes_ok sk -> (32 <= length sk)%nat ->
  length (buf hash1) = 128%nat -> length (buf hash2) = 128%nat ->
  length seed1 = 32%nat -> bytes_ok seed1 -> length seed2 = 32%nat -> bytes_ok seed2 ->
  (exists e, clamp (take 32 sk) = Done e /\ is_clamped e /\
    ed25519_key_exchange (encode P) sk = Done (le_bytes 32 (montgomery_u (pmul (le_val e) P)))) /\
  exists pa ska a pb skb b,
    ed25519_create_keypair hash1 seed1 = Done (pa, ska) /\ is_key_pair pa ska a /\
    ed25519_create_keypair hash2 seed2 = Done (pb, skb) /\ is_key_pair pb skb b /\
    ed25519_key_exchange pa skb = Done (le_bytes 32 (montgomery_u (pmul (a * b) ed_B))) /\
    ed25519_key_exchange pb ska = Done (le_bytes 32 (montgomery_u (pmul (a * b) ed_B))).
Proof.
  intros Bk Lk H1 H2 L1 B1 L2 B2. split.
  - destruct (clamp_ok (take 32 sk)) as (e & Ec & He); [by apply Forall_take|rewrite length_take; lia|].
    rewrite (drop_ge (take 32 sk)), app_nil_r in Ec by (rewrite length_take; lia). exists e. splits; [done|exact He|].
    by apply key_exchange_ok.
  - destruct (create_keypair_ok hash1 seed1 H1 L1 B1) as (pa & ska & a & E1 & Ha & _).
    destruct (create_keypair_ok hash2 seed2 H2 L2 B2) as (pb & skb & b & E2 & Hb & _).
    exists pa, ska, a, pb, skb, b. splits; try assumption.
    + apply (exchange_secret pa ska a pb skb b Ha Hb).
    + rewrite Z.mul_comm. apply (exchange_secret pb skb b pa ska a Hb Ha).
Qed.

(** The identity, and the key pairs of two seeds. *)
Lemma key_exchange_agrees_witness :
  ed25519_key_exchange (encode pzero) (replicate 32 0) = Done (replicate 32 0) /\
  exists pa ska pb skb s, ed25519_create_keypair stack_context (replicate 32 0) = Done (pa, ska) /\
    ed25519_create_keypair stack_context (replicate 32 1) = Done (pb, skb) /\
    ed25519_key_exchange pa skb = Done s /\ ed25519_key_exchange pb ska = Done s.
Proof.
  assert (bytes_ok (replicate 32 1)) as B1 by (apply Forall_forall; intros x Hx%elem_of_replicate; lia).
  destruct (key_exchange_agrees pzero (replicate 32 0) stack_context stack_context (replicate 32 0) (replicate 32 1)
    (proj2 (zeros_ok 32)) (le_n 32) eq_refl eq_refl eq_refl (proj2 (zeros_ok 32)) eq_refl B1)
    as [(e & _ & _ & E) (pa & ska & a & pb & skb & b & E1 & _ & E2 & _ & E3 & E4)].
  split; [rewrite E, pmul_point_0, montgomery_u_0 by reflexivity; reflexivity|].
  exists pa, ska, pb, skb, (le_bytes 32 (montgomery_u (pmul (a * b) ed_B))).
  split; [exact E1|]. split; [exact E2|]. split; [exact E3|exact E4].
Defined.

(** C13. Adding a scalar to a key: for a public key [a * B] and its private key, and any 32
    bytes of which the low 255 bits are the scalar [n], [ed25519_add_scalar] gives the same
    results whether it is handed the private key, the public key or both: the private
    key of [(a + n) mod l] and the public key of [(a + n) * B], which
    belong together, so that signatures with the one verify under the other. *)
Theorem add_scalar_keeps_pairs pk sk a scalar :
  is_sign_pair pk sk a -> bytes_ok scalar -> length scalar = 32%nat ->
  let n := le_val scalar mod 2 ^ 255 in
  let pk' := encode (pmul (a + n) ed_B) in
  let sk' := le_bytes 32 ((a + n) mod sc_l) ++ drop 32 sk in
  ed25519_add_scalar None (Some sk) scalar = Done (None, Some sk') /\
  ed25519_add_scalar (Some pk) None scalar = Done (Some pk', None) /\
  ed25519_add_scalar (Some pk) (Some sk) scalar = Done (Some pk', Some sk') /\
  is_sign_pair pk' sk' ((a + n) mod sc_l) /\
  forall hash hash' msg, length (buf hash) = 128%nat -> length (buf hash') = 128%nat -> 8 * (zlen msg + 64) < 2 ^ 64 ->
    exists sig, ed25519_sign hash msg pk' sk' = Done sig /\ ed25519_verify hash' sig msg pk' = Done true.
Proof.
  intros (Ls & Bs & Ea & Ep) Bn Ln n pk' sk'. destruct (scalar_n_ok scalar Bn Ln) as (m & Em & Bm & Lm & Vm).
  assert (is_sign_pair pk' sk' ((a + n) mod sc_l)) as Hp by (unfold pk', sk'; rewrite Ea; by apply derived_pair).
  destruct (add_scalar_private sk scalar m Ls Bs Bm Lm Em) as [H1 H2]. rewrite <- Ea, Vm in H1, H2. splits.
  - exact H1.
  - rewrite Ep. rewrite (add_scalar_public _ scalar m Bm Lm) by (try done; rewrite Vm; apply Z.mod_pos_bound; lia).
    unfold pk', n. by rewrite pmul_add, Vm.
  - apply H2. rewrite Ep. apply length_encode.
  - exact Hp.
  - intros hash hash' msg H H' Hm. destruct (sign_verifies hash hash' msg pk' sk' _ H H' Hp Hm) as (sig & E & _ & _ & V).
    by exists sig.
Qed.

(** The private key of the scalar 0 and the scalar 1, whose top bit is ignored. *)
Lemma add_scalar_keeps_pairs_witness :
  exists sig, ed25519_add_scalar None (Some (replicate 64 0)) (1 :: replicate 30 0 ++ [128]) =
    Done (None, Some (1 :: replicate 63 0)) /\
  ed25519_sign stack_context [] (encode ed_B) (1 :: replicate 63 0) = Done sig /\
  ed25519_verify stack_context sig [] (encode ed_B) = Done true.
Proof.
  assert (bytes_ok (1 :: replicate 30 0 ++ [128])) as B1.
  { constructor; [lia|]. apply Forall_app. split; [apply (zeros_ok 30)|]. constructor; [lia|constructor]. }
  destruct (add_scalar_keeps_pairs (encode pzero) (replicate 64 0) 0 (1 :: replicate 30 0 ++ [128])
    (conj eq_refl (conj (proj2 (zeros_ok 64)) (conj eq_refl eq_refl))) B1 eq_refl) as (H1 & _ & _ & _ & H).
  change (le_val (1 :: replicate 30 0 ++ [128]) mod 2 ^ 255) with 1 in *. change (0 + 1) with 1 in *. rewrite pmul_1 in H.
  destruct (H stack_context stack_context [] eq_refl eq_refl eq_refl) as (sig & E & V).
  exists sig. split; [exact H1|]. split; [exact E|exact V].
Defined.

(** ** Two defects of [ed25519_add_scalar] *)

(** The private key with a scalar added keeps the half from which the nonce is derived.  So
    signatures of one message with both keys have the same first half, and the private
    scalar follows from what is public: the two signatures, the challenges and the scalar. *)
Theorem derived_key_reuses_nonce pk pk' sk sk' a scalar msg :
  is_sign_pair pk sk a -> bytes_ok scalar -> length scalar = 32%nat ->
  ed25519_add_scalar None (Some sk) scalar = Done (None, Some sk') ->
  exists R s s', sign_ref msg pk sk = R ++ le_bytes 32 s /\ sign_ref msg pk' sk' = R ++ le_bytes 32 s' /\
    let k := le_val (sha512_ref (R ++ pk ++ msg)) mod sc_l in
    let k' := le_val (sha512_ref (R ++ pk' ++ msg)) mod sc_l in
    ((k - k') * a) mod sc_l = (s - s' + k' * (le_val scalar mod 2 ^ 255)) mod sc_l.
Proof.
  intros (Ls & Bs & Ea & _) Bn Ln E. destruct (scalar_n_ok scalar Bn Ln) as (m & Em & Bm & Lm & Vm).
  destruct (add_scalar_private sk scalar m Ls Bs Bm Lm Em) as [H _]. rewrite H in E. clear H.
  rewrite <- Ea, Vm in E.
  assert (sk' = le_bytes 32 ((a + le_val scalar mod 2 ^ 255) mod sc_l) ++ drop 32 sk) as -> by congruence. clear E.
  destruct (derived_pair sk (le_val m) Ls Bs) as (_ & _ & Ea' & _).
  rewrite <- Ea, Vm in Ea'. unfold sign_ref. rewrite <- Ea', <- Ea, drop_app_exact by (symmetry; apply length_le_bytes).
  set (r := le_val (sha512_ref (drop 32 sk ++ msg)) mod sc_l). set (R := encode (pmul r ed_B)).
  eexists R, _, _. split; [reflexivity|]. split; [reflexivity|]. cbn zeta.
  apply scalar_follows.
Qed.

Lemma derived_key_reuses_nonce_witness :
  exists R s s', sign_ref [] (encode pzero) (replicate 64 0) = R ++ le_bytes 32 s /\
    sign_ref [] (encode ed_B) (1 :: replicate 63 0) = R ++ le_bytes 32 s'.
Proof.
  assert (is_sign_pair (encode pzero) (replicate 64 0) 0) as Hp by exact (conj eq_refl (conj (proj2 (zeros_ok 64)) (conj eq_refl eq_refl))).
  assert (bytes_ok (1 :: replicate 31 0)) as B1 by (constructor; [lia|apply (zeros_ok 31)]).
  destruct (derived_key_reuses_nonce (encode pzero) (encode ed_B) (replicate 64 0) (1 :: replicate 63 0) 0 (1 :: replicate 31 0) []
    Hp B1 eq_refl ltac:(vm_compute; reflexivity)) as (R & s & s' & E & E' & _).
  exists R, s, s'. split; [exact E|exact E'].
Defined.

(** A public key that encodes no point: its unpacking fails, which is not noticed. *)
Theorem add_scalar_reads_uninitialised pk scalar :
  length pk = 32%nat -> length scalar = 32%nat -> ge_frombytes_negate_vartime pk = Done None ->
  ed25519_add_scalar (Some pk) None scalar = Stop Uninitialised.
Proof.
  intros Lp Ln E. unfold ed25519_add_scalar, scalar_n. rewrite Ln. cbn [Nat.ltb Nat.leb obind].
  rewrite <- (app_nil_r pk), mem_read_front by done. cbn [obind]. unfold unpack_public. by rewrite E.
Qed.

Lemma add_scalar_reads_uninitialised_witness :
  ed25519_add_scalar (Some (2 :: replicate 31 0)) None (replicate 32 0) = Stop Uninitialised.
Proof. apply (add_scalar_reads_uninitialised (2 :: replicate 31 0) (replicate 32 0) eq_refl eq_refl). vm_compute. reflexivity. Defined.
